(* ===== verification/_CoqProject ===== *)
-Q . S2P
Prelude.v
Bitfield.v
SosState.v
UtTable.v
Cspace.v
CspaceInv.v
Mapping.v
Dma.v
Bootstrap.v
CspaceThms.v
Sys.v
UtAlloc.v
UtThms.v
Irq.v
Bytes.v
Cpio.v
ElfFile.v
ElfLoad.v
FrameTable.v
FrameThms.v
SosElf.v
SosElfThms.v
Dll.v
KCaps.v
KCapThms.v
KState.v
KSched.v
KSchedInv.v
KSchedThms.v
KSchedSteps.v
KCspace.v
KMdb.v
KMsg.v
KVspace.v
KPages.v
KIpc.v
KDelete.v
KIpcInv.v
KIpcThms.v
KIpcCancel.v
KTransfer.v
KUntyped.v
KInvoke.v
KInterrupt.v
KTcb.v
KMmu.v
KSyscall.v
KMdbThms.v
KRendezvous.v
KIpcFrame.v
KIpcSteps.v
KMdbRefine.v
KUntypedThms.v
KRetypeThms.v
KInvokeThms.v
KPageOps.v
KTables.v
KPageDemo.v
KTcbThms.v
KBootMem.v
KBootThms.v
KBootUntyped.v
KBootFree.v
KBootVspace.v
KBoot.v
KBootInit.v
KBootStart.v
KBootRun.v
KFastpath.v
KFastThms.v
KFastReply.v
