(* ===== verification/Prelude.v ===== *)
(** * A verification library for SOS and the seL4 kernel it runs on

    ** The program

    The repository holds an operating system for one ARMv8 board.  SOS
    (projects/aos) is the root task: it owns all memory, manages capability
    slots, untyped memory, frames and interrupts, and loads programs (ELF files,
    projects/libelf) from a CPIO archive (projects/libcpio).  It runs on the seL4
    microkernel (kernel), which keeps capabilities in slots, derives objects from
    untyped memory, translates addresses, passes messages and schedules threads.

    ** How it is modelled

    Words are integers ([Z]) with their wrap-around written out ([w64]).  Code is
    a state-and-fault monad [M S A := S -> (A * S) + fault]: an assertion, a null
    dereference, an access outside an array, an explicit stop and exhausted fuel
    are different faults, so that a theorem with the postcondition [False] for
    faults says that none of them happens.  [wp m Q F s] is the weakest
    precondition of [m]; [preserves f m] says that a view of the state survives.
    Both, their tactics and the hint database [pres] are in this file.

    SOS (state [sos] of SosState.v; the kernel behind it is a parameter, the
    class [Env], whose system calls are recorded):
    - Bitfield.v: libsel4cspace/include/cspace/bitfield.h;
    - UtTable.v, UtAlloc.v, UtThms.v: sos/src/ut.c, the lists of untyped memory;
    - Cspace.v, CspaceInv.v, CspaceThms.v: libsel4cspace/src/cspace.c, one- and
      two-level capability spaces; Bootstrap.v: the allocator of sos/src/bootstrap.c
      that the initial cspace uses, an instance of the class [CspaceAlloc];
    - Mapping.v: sos/src/mapping.c; Dma.v: sos/src/dma.c; Irq.v: sos/src/irq.c;
    - FrameTable.v, FrameThms.v: sos/src/frame_table.c; Sys.v: what the
      components of SOS leave alone of each other;
    - Bytes.v, Cpio.v: byte memory and libcpio/src/cpio.c; ElfFile.v, ElfLoad.v:
      libelf/src/elf.c, elf32.c, elf64.c; SosElf.v, SosElfThms.v: sos/src/elf.c, on
      the state of SOS and byte memory together.

    The kernel (state [kstate] of KState.v: threads, slots, endpoints,
    notifications, words of memory, the scheduler's variables; instructions that
    have no effect on it, such as cache and TLB maintenance, are events in a
    list; configuration and platform are the classes [KConfig], [KPlatform]):
    - KCaps.v, KCapThms.v: capability values (object/structures_64.bf,
      object/objecttype.c);
    - KSched.v, KSchedInv.v, KSchedThms.v, KSchedSteps.v: the scheduler
      (kernel/thread.c, object/tcb.c), on the doubly linked lists of Dll.v;
    - KCspace.v: kernel/cspace.c; KMdb.v, KMdbThms.v, KMdbRefine.v: slots and the
      mapping database (object/cnode.c); KDelete.v: deletion and revocation;
      KInvoke.v, KInvokeThms.v: the invocations of CNodes;
    - KMsg.v, KTransfer.v: message registers, buffers and the copying of messages;
      KIpc.v, KIpcInv.v, KIpcThms.v, KIpcCancel.v, KRendezvous.v, KIpcFrame.v,
      KIpcSteps.v: endpoints and notifications (object/endpoint.c,
      object/notification.c);
    - KUntyped.v, KUntypedThms.v, KRetypeThms.v: object/untyped.c;
    - KVspace.v, KMmu.v: arch/arm/64/kernel/vspace.c; KPages.v, KPageOps.v,
      KTables.v, KPageDemo.v: what page tables mean and what the invocations do;
    - KInterrupt.v: object/interrupt.c; KTcb.v, KTcbThms.v: object/tcb.c;
      KSyscall.v: api/syscall.c, which calls all of the above;
    - KFastpath.v, KFastThms.v, KFastReply.v: fastpath/fastpath.c and the trap handler
      arch/arm/c_traps.c;
    - KBootMem.v, KBootThms.v, KBootUntyped.v, KBootFree.v: the memory of
      kernel/boot.c; KBootVspace.v, KBoot.v: the rest of it, arch/arm/kernel/boot.c and
      the boot code of vspace.c; KBootInit.v, KBootStart.v, KBootRun.v: from the first
      object to the first thread.

    ** What the theorems show

    - SOS data structures: the frame table implements abstract lists; slot
      allocation hands out distinct free slots and freeing gives them back; the
      lists of untyped memory stay well formed when it is split and reused; interrupt
      identifiers and DMA regions (for sizes below 2^63) are disjoint; mapping ends
      within its retries, for a kernel that asks for one paging structure after the
      other.
    - The archive reader finds exactly the files of a well-formed archive, reads
      back what the format writes, and ends on any memory.  The ELF library accepts
      exactly the valid files and stays inside them; loading a program, by the
      library or by SOS page by page, puts exactly its segments into memory, as long
      as no page is shared by two of them.
    - Capabilities stay well formed; address resolution equals the walk along the
      bits; the linked mapping database implements its abstract specification,
      and every CNode invocation that moves or copies capabilities stays within
      it, whatever the user passes.
    - Scheduling: the queues and bitmaps are lists, their invariant survives any
      sequence of the scheduler's operations, and whenever rescheduling was requested
      the best runnable thread of the domain runs.  Without a request this holds as
      long as no thread is moved into the current domain, which setDomain does not
      announce.  Priorities stay within the authority of the caller.
    - Messages and signals: queues, thread states and the slots for reply
      capabilities stay consistent in any sequence of the operations of KIpcSteps.v;
      sending, receiving, signalling, cancelling and the copying of messages,
      ordinary ones and those about faults, do what they promise, with termination.
      The theorems do not cover messages with capabilities in them (they are
      modelled, [transferCaps]) and, in the sequences, the cancellation of a thread
      that waits for a reply.
    - Retyping puts new objects aligned and disjoint into the free part of the
      block, and clearing a block makes progress when it is interrupted.
    - Address spaces: page tables form a forest; mapping or unmapping a page
      changes the translation of that page in that address space only, mapping a
      table or assigning an identifier changes none.
    - The fast paths agree with the general system call handler.
    - Booting: free memory never overlaps what is reserved or handed out, untyped
      objects cover what is left, and the kernel starts in a state that satisfies the
      invariants above, with the initial thread running.

    Errors are part of the statements: an invocation that reports an error
    changes nothing but the error report.  Where the code has a flaw the theorem
    states what happens (the slot behind a one-level cspace, the exhausted frame
    table, remapping below a table that is gone, a page shared by two segments, a
    reserved region across two available ones, booting without a device tree).  The
    theorems about SOS that end in [boot_fault] allow a failed assertion or a null
    dereference at every step, as the allocators stop with them when memory runs out.

    ** Bounds and fuel

    Loops over a known range recurse on their length.  [resolve_fuel] is 65: each
    level of a lookup takes at least one of 64 bits.  Queue traversals take
    [queue_fuel], one more than the number of threads, and the theorems show that
    this is enough.  [cspace_alloc_slot] recurs at most once ([alloc_fuel] = 2),
    [ut_alloc] at most once per size below 2^12.  The archive search takes fuel as
    an argument; cpio_get_file_total gives the amount that is enough.  Deletion and
    revocation take fuel as an argument that is passed down from the system call;
    no theorem says how much they need.  Loops of the boot code that provide
    capabilities are bounded by the slots of the root CNode; [untyped_fuel] covers
    the largest region, and the theorem on untyped objects shows it.  The loops over
    segments and sections are bounded by the 16-bit counts of the ELF header, the
    loop over the pages of a segment by its size.

    ** Not modelled

    The boot code of SOS (sos/src/bootstrap.c beyond its allocator, main.c); device
    access, and the caches and TLBs themselves; more than one core, MCS scheduling,
    virtualisation and IO memory management, which the configuration leaves out;
    debug and benchmark system calls; the network stack, C library and drivers,
    which are third party or hardware access; the system call loop of SOS. *)

From Stdlib Require Export ZArith Lia.
From stdpp Require Export base gmap list numbers.

#[global] Open Scope Z_scope.

(** [lia] decides goals with division and remainder by constants. *)
#[global] Ltac Zify.zify_post_hook ::= Z.div_mod_to_equations.

(** ** Machine words

    [unsigned long], [seL4_Word], [size_t] and [uintptr_t] are 64 bits wide on
    the AArch64 target.  A word is a [Z] in [0, 2^64); [w64] is the wrap-around
    of C's unsigned arithmetic. *)

Definition WORD_BITS : Z := 64.
Definition w64 (x : Z) : Z := x mod 2 ^ 64.
Definition w16 (z : Z) : Z := z mod 2 ^ 16.
Definition ULONG_MAX : Z := 2 ^ 64 - 1.
Definition is_word (x : Z) : Prop := 0 <= x < 2 ^ 64.

(** [BIT(n)], [MASK(n)] of libutils/arith.h, and C's [~] on a 64-bit word. *)
Definition BIT (n : Z) : Z := Z.shiftl 1 n.
Definition MASK (n : Z) : Z := Z.ones n.
Definition lnot64 (x : Z) : Z := Z.ldiff ULONG_MAX x.

(** [CTZL(x)], [__builtin_ctzl]: index of the least significant set bit.  The
    builtin is undefined on 0; every caller in the program excludes 0. *)
Fixpoint pos_trailing (p : positive) : Z :=
  match p with
  | xO q => 1 + pos_trailing q
  | _ => 0
  end.

Definition CTZL (x : Z) : Z :=
  match x with
  | Zpos p => pos_trailing p
  | _ => 0
  end.

(** [CLZL(x)] and [LOG_BASE_2(n)]. *)
Definition CLZL (x : Z) : Z := 63 - Z.log2 x.
Definition LOG_BASE_2 (n : Z) : Z := 8 * 8 - CLZL n - 1.

(** The rounding macros of libutils/arith.h, on unsigned 64-bit operands. *)
Definition ROUND_DOWN (n b : Z) : Z := n - n mod b.
Definition ROUND_UP (n b : Z) : Z := w64 (n + (if n mod b =? 0 then 0 else b - n mod b)).
Definition DIV_ROUND_UP (n d : Z) : Z := n / d + (if n mod d =? 0 then 0 else 1).
Definition ALIGN_UP (x n : Z) : Z := Z.land (w64 (x + n - 1)) (lnot64 (w64 (n - 1))).
Definition ALIGN_DOWN (x n : Z) : Z := Z.land x (lnot64 (w64 (n - 1))).

(** libutils/page.h *)
Definition PAGE_BITS_4K : Z := 12.
Definition PAGE_SIZE_4K : Z := BIT PAGE_BITS_4K.
Definition PAGE_MASK_4K : Z := PAGE_SIZE_4K - 1.
Definition PAGE_ALIGN_4K (addr : Z) : Z := Z.land addr (lnot64 PAGE_MASK_4K).
Definition BYTES_TO_4K_PAGES (b : Z) : Z :=
  b / BIT PAGE_BITS_4K + (if b mod BIT PAGE_BITS_4K >? 0 then 1 else 0).

(** ** Faults and the state monad

    Code that can trip an [assert], dereference [NULL], index past an array or
    hit [ZF_LOGF] (which never returns) runs in a state monad whose failure
    carries the reason.  [NoFuel] is the model's own: it marks a recursion that
    was cut off, and no theorem about a result allows it. *)

Inductive fault :=
  | AssertFail
  | NullDeref
  | OutOfBounds
  | Fatal
  | NoFuel.

#[export] Instance fault_eq_dec : EqDecision fault.
Proof. solve_decision. Defined.

Section Monad.
Context {S : Type}.

Definition M (A : Type) : Type := S -> (A * S) + fault.

Definition ret {A} (a : A) : M A := fun s => inl (a, s).
Definition bind {A B} (m : M A) (k : A -> M B) : M B :=
  fun s => match m s with
           | inl (a, s') => k a s'
           | inr f => inr f
           end.
Definition fail {A} (f : fault) : M A := fun _ => inr f.
Definition gets {A} (f : S -> A) : M A := fun s => inl (f s, s).
Definition modify (f : S -> S) : M unit := fun s => inl (tt, f s).
Definition assert_ (b : bool) : M unit := if b then ret tt else fail AssertFail.
Definition of_option {A} (f : fault) (o : option A) : M A :=
  match o with Some a => ret a | None => fail f end.

(** Weakest precondition of a computation: [Q] of a normal result, [F] of a
    fault. *)
Definition wp {A} (m : M A) (Q : A -> S -> Prop) (F : fault -> Prop) (s : S) : Prop :=
  match m s with
  | inl (a, s') => Q a s'
  | inr f => F f
  end.
End Monad.
Arguments M S A : clear implicits.

Declare Scope aos_scope.
Delimit Scope aos_scope with aos.
Notation "'let*' x ':=' m 'in' k" := (bind m (fun x => k))
  (at level 10, x name, m at level 100, k at level 200) : aos_scope.
Notation "'let*' ' p ':=' m 'in' k" := (bind m (fun x => match x with p => k end))
  (at level 10, p pattern, m at level 100, k at level 200) : aos_scope.
Notation "'do*' m 'in' k" := (bind m (fun _ => k))
  (at level 10, m at level 100, k at level 200) : aos_scope.
#[global] Open Scope aos_scope.

(** ** Bits of words *)

Lemma BIT_pow (n : Z) : 0 <= n -> BIT n = 2 ^ n.
Proof. intros. unfold BIT. rewrite Z.shiftl_mul_pow2 by lia. lia. Qed.

Lemma BIT_testbit (n i : Z) : 0 <= n -> Z.testbit (BIT n) i = bool_decide (i = n).
Proof.
  intros Hn. rewrite BIT_pow by done. case_bool_decide as Hi.
  - subst. by apply Z.pow2_bits_true.
  - by apply Z.pow2_bits_false.
Qed.

Lemma BIT_word (n : Z) : 0 <= n < 64 -> is_word (BIT n).
Proof.
  intros Hn. unfold is_word. rewrite BIT_pow by lia.
  split; [lia |]. apply Z.pow_lt_mono_r; lia.
Qed.

Lemma ULONG_MAX_ones : ULONG_MAX = Z.ones 64.
Proof. reflexivity. Qed.

Lemma ones_testbit (n i : Z) :
  0 <= n -> Z.testbit (Z.ones n) i = bool_decide (0 <= i < n).
Proof.
  intros Hn. case_bool_decide as Hi.
  - by apply Z.ones_spec_low.
  - destruct (decide (i < 0)); [by apply Z.testbit_neg_r |].
    apply Z.ones_spec_high. lia.
Qed.

(** Being below [2^n] is having no bit from [n] on. *)
Lemma testbit_above (x n i : Z) : 0 <= x < 2 ^ n -> n <= i -> Z.testbit x i = false.
Proof.
  intros [H0 H1] Hi. destruct (decide (x = 0)) as [->|]; [apply Z.testbit_0_l|].
  destruct (decide (n < 0)). { rewrite Z.pow_neg_r in H1 by done. lia. }
  apply Z.bits_above_log2; [done |].
  apply Z.log2_lt_pow2; [lia |].
  apply Z.lt_le_trans with (2 ^ n); [done |]. apply Z.pow_le_mono_r; lia.
Qed.

Lemma lt_pow2_of_bits (x n : Z) :
  0 <= n -> 0 <= x -> (forall i, n <= i -> Z.testbit x i = false) -> 0 <= x < 2 ^ n.
Proof.
  intros Hn H0 Hb. split; [done |].
  destruct (decide (x = 0)) as [->|Hx]; [lia |].
  apply Z.log2_lt_pow2; [lia |].
  destruct (decide (Z.log2 x < n)); [done |].
  specialize (Hb (Z.log2 x) ltac:(lia)).
  rewrite Z.bit_log2 in Hb by lia. done.
Qed.

Lemma land_lt_pow2 (x y n : Z) : 0 <= n -> 0 <= x < 2 ^ n -> 0 <= Z.land x y < 2 ^ n.
Proof.
  intros Hn Hx. apply lt_pow2_of_bits; [done | apply Z.land_nonneg; lia |].
  intros i Hi. by rewrite Z.land_spec, (testbit_above x n) by done.
Qed.

Lemma lor_lt_pow2 (x y n : Z) : 0 <= n -> 0 <= x < 2 ^ n -> 0 <= y < 2 ^ n -> 0 <= Z.lor x y < 2 ^ n.
Proof.
  intros Hn Hx Hy. apply lt_pow2_of_bits; [done | apply Z.lor_nonneg; lia |].
  intros i Hi. by rewrite Z.lor_spec, !(testbit_above _ n) by done.
Qed.

Lemma is_word_testbit (x i : Z) : is_word x -> 64 <= i -> Z.testbit x i = false.
Proof. apply testbit_above. Qed.

Lemma is_word_of_bits (x : Z) :
  0 <= x -> (forall i, 64 <= i -> Z.testbit x i = false) -> is_word x.
Proof. by apply lt_pow2_of_bits. Qed.

Lemma is_word_lor (x y : Z) : is_word x -> is_word y -> is_word (Z.lor x y).
Proof. by apply lor_lt_pow2. Qed.

Lemma is_word_land_l (x y : Z) : is_word x -> is_word (Z.land x y).
Proof. by apply land_lt_pow2. Qed.

Lemma lnot64_testbit (x i : Z) :
  Z.testbit (lnot64 x) i = bool_decide (0 <= i < 64) && negb (Z.testbit x i).
Proof. unfold lnot64. by rewrite Z.ldiff_spec, ULONG_MAX_ones, ones_testbit. Qed.

Lemma lnot64_word (x : Z) : is_word (lnot64 x).
Proof.
  apply is_word_of_bits.
  - apply Z.ldiff_nonneg. left. done.
  - intros i Hi. rewrite lnot64_testbit, bool_decide_eq_false_2 by lia. done.
Qed.

(** A word is [ULONG_MAX] exactly when its complement is 0. *)
Lemma lnot64_zero (x : Z) : is_word x -> lnot64 x = 0 <-> x = ULONG_MAX.
Proof.
  intros Hx. split; [intros H0 | by intros ->].
  apply Z.bits_inj'. intros i Hi. rewrite ULONG_MAX_ones, ones_testbit by lia.
  case_bool_decide as Hi'.
  - pose proof (lnot64_testbit x i) as Ht. rewrite H0, Z.testbit_0_l in Ht.
    rewrite bool_decide_eq_true_2 in Ht by done. by destruct (Z.testbit x i).
  - apply is_word_testbit; [done | lia].
Qed.

Lemma pos_trailing_nonneg (p : positive) : 0 <= pos_trailing p.
Proof. induction p; simpl; lia. Qed.

Lemma CTZL_nonneg (x : Z) : 0 <= CTZL x.
Proof. destruct x; simpl; try lia. apply pos_trailing_nonneg. Qed.

Lemma CTZL_set (x : Z) : 0 < x -> Z.testbit x (CTZL x) = true.
Proof.
  intros Hx. destruct x as [|p|p]; try lia. clear Hx. simpl.
  induction p as [p IH|p IH|]; simpl; try done.
  pose proof (pos_trailing_nonneg p).
  replace (1 + pos_trailing p) with (Z.succ (pos_trailing p)) by lia.
  change (Z.pos p~0) with (2 * Z.pos p).
  rewrite Z.testbit_even_succ by done. done.
Qed.

Lemma CTZL_below (x i : Z) : 0 < x -> 0 <= i < CTZL x -> Z.testbit x i = false.
Proof.
  intros Hx. destruct x as [|p|p]; try lia. clear Hx. simpl.
  revert i. induction p as [p IH|p IH|]; simpl; intros i Hi; try lia.
  change (Z.pos p~0) with (2 * Z.pos p).
  destruct (decide (i = 0)) as [->|]; [apply Z.testbit_even_0 |].
  replace i with (Z.succ (i - 1)) by lia.
  rewrite Z.testbit_even_succ by lia. apply IH. lia.
Qed.

Lemma CTZL_word (x : Z) : 0 < x -> is_word x -> 0 <= CTZL x < 64.
Proof.
  intros Hx Hw. split; [apply CTZL_nonneg |].
  destruct (decide (CTZL x < 64)); [done |].
  pose proof (CTZL_set x Hx) as Hs.
  rewrite is_word_testbit in Hs; [done | done | lia].
Qed.

(** ** Filters *)

Lemma filter_none {A} (P : A -> Prop) `{forall x, Decision (P x)} (l : list A) :
  (forall x, x ∈ l -> ~ P x) -> filter P l = [].
Proof.
  induction l as [|x l IH]; intros Hl; [done |]. rewrite list.filter_cons, decide_False by (apply Hl; set_solver).
  apply IH. intros y Hy. apply Hl. set_solver.
Qed.

Lemma filter_ext_in {A} (P Q : A -> Prop) `{forall x, Decision (P x)} `{forall x, Decision (Q x)} (l : list A) :
  (forall x, x ∈ l -> P x <-> Q x) -> filter P l = filter Q l.
Proof.
  induction l as [|x l IH]; intros Hl; [done |]. rewrite !list.filter_cons.
  rewrite IH by (intros y Hy; apply Hl; set_solver).
  assert (P x <-> Q x) as Hx by (apply Hl; set_solver). by destruct (decide (P x)), (decide (Q x)); try tauto.
Qed.

(** ** Reasoning about the monad *)

Section WpLemmas.
Context {S A B : Type}.
Implicit Types (s : S) (F : fault -> Prop).

Lemma wp_ret (a : A) (Q : A -> S -> Prop) F s : wp (ret a) Q F s <-> Q a s.
Proof. done. Qed.

Lemma wp_bind (m : M S A) (k : A -> M S B) (Q : B -> S -> Prop) F s :
  wp (bind m k) Q F s <-> wp m (fun a s' => wp (k a) Q F s') F s.
Proof. unfold wp, bind. by destruct (m s) as [[a s']|f]. Qed.

(** A computation run in two halves. *)
Lemma bind_assoc_wp {X} (m : M S A) (h : A -> M S B) (j : B -> M S X) (Q : X -> S -> Prop) F s :
  wp (bind (bind m h) j) Q F s <-> wp (bind m (fun a => bind (h a) j)) Q F s.
Proof. unfold wp, bind. by destruct (m s) as [[a s']|f]. Qed.
Lemma bind3_assoc_wp {D E} (m : M S A) (n : M S B) (f : M S D) (g : D -> M S E) (P : E -> S -> Prop) F s :
  wp (let* d := (do* m in do* n in f) in g d) P F s <-> wp (do* m in do* n in let* d := f in g d) P F s.
Proof. unfold wp, bind. destruct (m s) as [[a s1]|e]; [|done]. by destruct (n s1) as [[b s2]|e]. Qed.

Lemma wp_gets (f : S -> A) (Q : A -> S -> Prop) F s : wp (gets f) Q F s <-> Q (f s) s.
Proof. done. Qed.

Lemma wp_modify (f : S -> S) (Q : unit -> S -> Prop) F s :
  wp (modify f) Q F s <-> Q tt (f s).
Proof. done. Qed.

Lemma wp_fail (f : fault) (Q : A -> S -> Prop) F s : wp (fail f) Q F s <-> F f.
Proof. done. Qed.

Lemma wp_assert (b : bool) (Q : unit -> S -> Prop) F s :
  wp (assert_ b) Q F s <-> if b then Q tt s else F AssertFail.
Proof. by destruct b. Qed.

Lemma wp_of_option (f : fault) (o : option A) (Q : A -> S -> Prop) F s :
  wp (of_option f o) Q F s <-> match o with Some a => Q a s | None => F f end.
Proof. by destruct o. Qed.

Lemma wp_mono (m : M S A) (Q Q' : A -> S -> Prop) (F F' : fault -> Prop) s :
  wp m Q F s -> (forall a s', Q a s' -> Q' a s') -> (forall f, F f -> F' f) ->
  wp m Q' F' s.
Proof. unfold wp. destruct (m s) as [[a s']|f]; eauto. Qed.

#[global] Instance wp_proper (m : M S A) :
  Proper (pointwise_relation A (pointwise_relation S iff) ==> pointwise_relation fault iff ==>
          eq ==> iff) (wp m).
Proof.
  intros Q Q' HQ F F' HF s ? <-. unfold wp. destruct (m s) as [[a s']|f]; [apply HQ | apply HF].
Qed.

Lemma wp_run (m : M S A) (Q : A -> S -> Prop) F s a s' :
  wp m Q F s -> m s = inl (a, s') -> Q a s'.
Proof. unfold wp. intros H Hm. by rewrite Hm in H. Qed.

Lemma wp_of_run (m : M S A) (Q : A -> S -> Prop) F s :
  (forall a s', m s = inl (a, s') -> Q a s') -> (forall f, m s = inr f -> F f) -> wp m Q F s.
Proof. unfold wp. intros HQ HF. destruct (m s) as [[a s']|f]; eauto. Qed.

Lemma wp_conj (m : M S A) (Q Q' : A -> S -> Prop) F s :
  wp m Q F s -> wp m Q' (fun _ => True) s -> wp m (fun a s' => Q a s' /\ Q' a s') F s.
Proof. unfold wp. destruct (m s) as [[a s']|f]; eauto. Qed.

(** Of a step about which nothing needs to be known. *)
Lemma wp_any (m : M S A) (Q : A -> S -> Prop) s :
  (forall a s', Q a s') -> wp m Q (fun _ => True) s.
Proof. unfold wp. destruct (m s) as [[a s']|f]; eauto. Qed.
End WpLemmas.

(** [preserves f m]: whenever [m] returns, the view [f] of the state is as it
    was.  Frame conditions between components are stated with it. *)
Definition preserves {S A X : Type} (f : S -> X) (m : M S A) : Prop :=
  forall s a s', m s = inl (a, s') -> f s' = f s.

Section Preserves.
Context {S X : Type} (f : S -> X).

Lemma preserves_ret {A} (a : A) : preserves f (ret a).
Proof. by intros s a' s' [= _ <-]. Qed.

Lemma preserves_bind {A B} (m : M S A) (k : A -> M S B) :
  preserves f m -> (forall a, preserves f (k a)) -> preserves f (bind m k).
Proof.
  intros Hm Hk s b s'. unfold bind. destruct (m s) as [[a s1]|] eqn:E; [|done].
  intros Hb. rewrite (Hk _ _ _ _ Hb). eauto.
Qed.

Lemma preserves_gets {A} (g : S -> A) : preserves f (gets g).
Proof. by intros s a' s' [= _ <-]. Qed.

Lemma preserves_modify (g : S -> S) : (forall s, f (g s) = f s) -> preserves f (modify g).
Proof. intros Hg s a' s' [= _ <-]. apply Hg. Qed.

Lemma preserves_fail {A} (e : fault) : preserves f (fail (A := A) e).
Proof. by intros s a' s' H. Qed.

Lemma preserves_assert (b : bool) : preserves f (assert_ b).
Proof. destruct b; [apply preserves_ret | apply preserves_fail]. Qed.

Lemma preserves_of_option {A} (e : fault) (o : option A) : preserves f (of_option e o).
Proof. destruct o; [apply preserves_ret | apply preserves_fail]. Qed.

Lemma preserves_if {A} (b : bool) (m1 m2 : M S A) :
  preserves f m1 -> preserves f m2 -> preserves f (if b then m1 else m2).
Proof. by destruct b. Qed.

(** A preserved view can be added to any postcondition. *)
Lemma preserves_wp {A} (m : M S A) (Q : A -> S -> Prop) F s :
  preserves f m -> wp m Q F s -> wp m (fun a s' => Q a s' /\ f s' = f s) F s.
Proof.
  intros Hp. unfold wp. destruct (m s) as [[a s']|] eqn:E; [|done]. eauto.
Qed.
End Preserves.

Create HintDb pres.
#[export] Hint Resolve preserves_ret preserves_gets preserves_fail preserves_assert
  preserves_of_option : pres.

(** Decompose a [preserves] goal along the structure of the computation. *)
Ltac pres :=
  repeat first
    [ solve [eauto with pres]
    | apply preserves_bind; [| intros ?]
    | apply preserves_modify; intros ?; reflexivity
    | match goal with |- preserves _ (match ?x with _ => _ end) => destruct x eqn:? end
    | progress cbv beta iota zeta ].

(** One step of symbolic execution of a [wp] goal. *)
Ltac wp_step :=
  lazymatch goal with
  | |- wp (bind _ _) _ _ _ => rewrite wp_bind
  | |- wp (ret _) _ _ _ => rewrite wp_ret
  | |- wp (gets _) _ _ _ => rewrite wp_gets
  | |- wp (modify _) _ _ _ => rewrite wp_modify
  | |- wp (fail _) _ _ _ => rewrite wp_fail
  | |- wp (assert_ _) _ _ _ => rewrite wp_assert
  | |- wp (of_option _ _) _ _ _ => rewrite wp_of_option
  end; cbv beta.
Ltac wp_steps := repeat wp_step.
