(* ===== verification/Bitfield.v ===== *)
(** * Bit fields

    Model of libsel4cspace's cspace/bitfield.h: a bit field is an array of
    64-bit words, here a [list Z].  Indexing past the array is undefined in C;
    the update operations return [None] there.

    [bf_first_free] reads one word past the array when every word is full.
    That word is the argument [past]: the value the memory happens to hold
    behind the array. *)

From S2P Require Import Prelude.

Definition WORD_INDEX (bit : Z) : Z := bit / WORD_BITS.
Definition BIT_INDEX (bit : Z) : Z := bit mod WORD_BITS.

Definition bf_set_bit (bits : list Z) (bit : Z) : option (list Z) :=
  let i := Z.to_nat (WORD_INDEX bit) in
  match bits !! i with
  | Some w => Some (<[i := Z.lor w (BIT (BIT_INDEX bit))]> bits)
  | None => None
  end.

Definition bf_clr_bit (bits : list Z) (bit : Z) : option (list Z) :=
  let i := Z.to_nat (WORD_INDEX bit) in
  match bits !! i with
  | Some w => Some (<[i := Z.land w (lnot64 (BIT (BIT_INDEX bit)))]> bits)
  | None => None
  end.

Definition bf_get_bit (bits : list Z) (bit : Z) : option bool :=
  match bits !! Z.to_nat (WORD_INDEX bit) with
  | Some w => Some (negb (Z.land w (BIT (BIT_INDEX bit)) =? 0))
  | None => None
  end.

(** The loop [for (; i < words && bits[i] == ULONG_MAX; i++)]. *)
Fixpoint first_free_word (words : nat) (bits : list Z) : nat :=
  match words, bits with
  | S n, b :: bs => if b =? ULONG_MAX then S (first_free_word n bs) else O
  | _, _ => O
  end.

(** [None] is the failing [assert(val != 0)]. *)
Definition bf_first_free (words : nat) (bits : list Z) (past : Z) : option Z :=
  let i := first_free_word words bits in
  let bit := Z.of_nat i * WORD_BITS in
  let val := lnot64 (nth i bits past) in
  if val =? 0 then None
  else Some (if (i <? words)%nat then bit + CTZL val else bit).

(** ** Specification *)

(** The bit field as a predicate on bit numbers. *)
Definition bf_test (bits : list Z) (j : Z) : bool :=
  match bits !! Z.to_nat (WORD_INDEX j) with
  | Some w => Z.testbit w (BIT_INDEX j)
  | None => false
  end.

Definition bf_wf (words : nat) (bits : list Z) : Prop :=
  length bits = words /\ Forall is_word bits.

Lemma bit_index_range (j : Z) : 0 <= BIT_INDEX j < 64.
Proof. apply Z.mod_pos_bound. done. Qed.

Lemma word_bit_split (j : Z) : j = WORD_INDEX j * 64 + BIT_INDEX j.
Proof. unfold WORD_INDEX, BIT_INDEX, WORD_BITS. lia. Qed.

Lemma word_index_of (i b : Z) : 0 <= b < 64 -> WORD_INDEX (i * 64 + b) = i.
Proof. intros. unfold WORD_INDEX, WORD_BITS. lia. Qed.

Lemma bit_index_of (i b : Z) : 0 <= b < 64 -> BIT_INDEX (i * 64 + b) = b.
Proof. intros. unfold BIT_INDEX, WORD_BITS. lia. Qed.

Lemma bf_wf_lookup (words : nat) (bits : list Z) (j : Z) :
  bf_wf words bits -> 0 <= j < Z.of_nat words * 64 ->
  exists w, bits !! Z.to_nat (WORD_INDEX j) = Some w /\ is_word w.
Proof.
  intros [Hl Hw] Hj.
  destruct (lookup_lt_is_Some_2 bits (Z.to_nat (WORD_INDEX j))) as [w Hlook].
  { unfold WORD_INDEX, WORD_BITS. lia. }
  exists w. split; [done |]. by eapply Forall_lookup_1.
Qed.

(** Replacing the word that holds bit [bit] by one that differs only there. *)
Lemma bf_test_insert (bits : list Z) (bit j w w' : Z) (b : bool) :
  0 <= bit -> 0 <= j ->
  bits !! Z.to_nat (WORD_INDEX bit) = Some w ->
  (forall i, 0 <= i -> Z.testbit w' i = if decide (i = BIT_INDEX bit) then b else Z.testbit w i) ->
  bf_test (<[Z.to_nat (WORD_INDEX bit) := w']> bits) j
  = if decide (j = bit) then b else bf_test bits j.
Proof.
  intros Hb Hj Hw Hw'. unfold bf_test.
  pose proof (bit_index_range j). pose proof (bit_index_range bit).
  pose proof (word_bit_split j). pose proof (word_bit_split bit).
  destruct (decide (WORD_INDEX j = WORD_INDEX bit)) as [E|E].
  - rewrite E, list_lookup_insert_eq by by eapply lookup_lt_Some.
    rewrite Hw' by lia. rewrite Hw.
    repeat case_decide; try done; lia.
  - assert (0 <= WORD_INDEX j /\ 0 <= WORD_INDEX bit) as [].
    { unfold WORD_INDEX, WORD_BITS. lia. }
    rewrite list_lookup_insert_ne by lia.
    case_decide; [by subst | done].
Qed.

Lemma bf_set_bit_spec (words : nat) (bits : list Z) (bit : Z) :
  bf_wf words bits -> 0 <= bit < Z.of_nat words * 64 ->
  exists bits', bf_set_bit bits bit = Some bits' /\ bf_wf words bits' /\
    forall j, 0 <= j -> bf_test bits' j = if decide (j = bit) then true else bf_test bits j.
Proof.
  intros Hwf Hb. destruct (bf_wf_lookup _ _ _ Hwf Hb) as (w & Hw & Hword).
  pose proof (bit_index_range bit).
  unfold bf_set_bit. rewrite Hw. eexists. split; [done |]. split.
  - destruct Hwf as [Hl Hf]. split; [by rewrite length_insert |].
    apply Forall_insert; [done |]. apply is_word_lor; [done |]. by apply BIT_word.
  - intros j Hj. apply bf_test_insert with (w := w); [lia | done | done |].
    intros i Hi. rewrite Z.lor_spec, BIT_testbit by lia.
    case_decide; [rewrite bool_decide_eq_true_2 by done; by rewrite orb_true_r |].
    rewrite bool_decide_eq_false_2 by done. by rewrite orb_false_r.
Qed.

Lemma bf_clr_bit_spec (words : nat) (bits : list Z) (bit : Z) :
  bf_wf words bits -> 0 <= bit < Z.of_nat words * 64 ->
  exists bits', bf_clr_bit bits bit = Some bits' /\ bf_wf words bits' /\
    forall j, 0 <= j -> bf_test bits' j = if decide (j = bit) then false else bf_test bits j.
Proof.
  intros Hwf Hb. destruct (bf_wf_lookup _ _ _ Hwf Hb) as (w & Hw & Hword).
  pose proof (bit_index_range bit).
  unfold bf_clr_bit. rewrite Hw. eexists. split; [done |]. split.
  - destruct Hwf as [Hl Hf]. split; [by rewrite length_insert |].
    apply Forall_insert; [done |]. by apply is_word_land_l.
  - intros j Hj. apply bf_test_insert with (w := w); [lia | done | done |].
    intros i Hi. rewrite Z.land_spec, lnot64_testbit, BIT_testbit by lia.
    case_decide.
    + rewrite (bool_decide_eq_true_2 (i = _)) by done. by rewrite !andb_false_r.
    + rewrite (bool_decide_eq_false_2 (i = _)) by done.
      case_bool_decide; simpl; [by rewrite andb_true_r |].
      rewrite andb_false_r. symmetry. apply is_word_testbit; [done | lia].
Qed.

Lemma bf_get_bit_spec (words : nat) (bits : list Z) (bit : Z) :
  bf_wf words bits -> 0 <= bit < Z.of_nat words * 64 ->
  bf_get_bit bits bit = Some (bf_test bits bit).
Proof.
  intros Hwf Hb. destruct (bf_wf_lookup _ _ _ Hwf Hb) as (w & Hw & Hword).
  unfold bf_get_bit, bf_test. rewrite Hw. f_equal.
  pose proof (bit_index_range bit).
  destruct (Z.testbit w (BIT_INDEX bit)) eqn:Ht.
  - destruct (Z.eqb_spec (Z.land w (BIT (BIT_INDEX bit))) 0) as [E|]; [|done].
    assert (Z.testbit (Z.land w (BIT (BIT_INDEX bit))) (BIT_INDEX bit) = false) as E'.
    { by rewrite E, Z.testbit_0_l. }
    rewrite Z.land_spec, Ht, BIT_testbit, bool_decide_eq_true_2 in E' by (done || lia). done.
  - rewrite (proj2 (Z.eqb_eq _ _)); [done |].
    apply Z.bits_inj'. intros i Hi. rewrite Z.land_spec, BIT_testbit, Z.testbit_0_l by lia.
    case_bool_decide; subst; by rewrite ?Ht, ?andb_false_r.
Qed.

Lemma bf_test_zero (n : nat) (j : Z) : bf_test (replicate n 0) j = false.
Proof.
  unfold bf_test. destruct (replicate n 0 !! _) as [w|] eqn:E; [|done].
  apply lookup_replicate in E as [-> _]. apply Z.testbit_0_l.
Qed.

Lemma first_free_word_spec (words : nat) (bits : list Z) :
  bf_wf words bits ->
  let i := first_free_word words bits in
  (i <= words)%nat /\
  (forall k, (k < i)%nat -> bits !! k = Some ULONG_MAX) /\
  ((i < words)%nat -> exists w, bits !! i = Some w /\ w <> ULONG_MAX).
Proof.
  intros [Hl _]. subst words. induction bits as [|b bs IH]; simpl.
  { split; [done |]. split; intros; lia. }
  destruct (Z.eqb_spec b ULONG_MAX) as [->|Hne].
  - destruct IH as (H1 & H2 & H3). split; [lia |]. split.
    + intros [|k] Hk; [done |]. apply H2. lia.
    + intros Hi. apply H3. lia.
  - split; [lia |]. split; [lia |]. intros _. by exists b.
Qed.

(** Every bit of a word below the first non-full word is set. *)
Lemma bf_test_full (bits : list Z) (j : Z) :
  bits !! Z.to_nat (WORD_INDEX j) = Some ULONG_MAX -> bf_test bits j = true.
Proof.
  intros H. unfold bf_test. rewrite H, ULONG_MAX_ones, ones_testbit by lia.
  apply bool_decide_eq_true_2, bit_index_range.
Qed.

(** Some bit is free: the least one is returned, whatever lies behind the array. *)
Lemma bf_first_free_some (words : nat) (bits : list Z) (past k : Z) :
  bf_wf words bits -> 0 <= k < Z.of_nat words * 64 -> bf_test bits k = false ->
  exists b, bf_first_free words bits past = Some b /\ 0 <= b <= k /\
    bf_test bits b = false /\ (forall j, 0 <= j < b -> bf_test bits j = true).
Proof.
  intros Hwf Hk Hfree. destruct (first_free_word_spec _ _ Hwf) as (H1 & H2 & H3).
  set (i := first_free_word words bits) in *.
  assert (0 <= WORD_INDEX k) by (unfold WORD_INDEX, WORD_BITS; lia).
  pose proof (word_bit_split k) as Hks. pose proof (bit_index_range k) as Hkr.
  assert (i <= Z.to_nat (WORD_INDEX k))%nat as Hi.
  { destruct (decide (Z.to_nat (WORD_INDEX k) < i)%nat) as [Hlt|]; [|lia].
    rewrite (bf_test_full _ _ (H2 _ Hlt)) in Hfree. done. }
  assert (i < words)%nat as Hiw by lia.
  destruct (H3 Hiw) as (w & Hw & Hne).
  assert (is_word w) as Hword. { destruct Hwf as [_ Hf]. by eapply Forall_lookup_1. }
  unfold bf_first_free. fold i.
  rewrite (nth_lookup_Some _ _ _ _ Hw).
  assert (0 < lnot64 w) as Hpos.
  { pose proof (lnot64_word w). unfold is_word in *.
    destruct (decide (lnot64 w = 0)) as [E|]; [|lia].
    apply lnot64_zero in E; done. }
  destruct (Z.eqb_spec (lnot64 w) 0); [lia |].
  destruct (Nat.ltb_spec i words); [|lia].
  pose proof (CTZL_word _ Hpos (lnot64_word w)) as Hc.
  set (c := CTZL (lnot64 w)) in *. unfold WORD_BITS.
  assert (forall b, 0 <= b < 64 -> bf_test bits (Z.of_nat i * 64 + b) = Z.testbit w b) as Hti.
  { intros b Hb. unfold bf_test. rewrite word_index_of, bit_index_of, Nat2Z.id, Hw by done. done. }
  assert (bf_test bits (Z.of_nat i * 64 + c) = false) as Hcf.
  { rewrite Hti by done. pose proof (CTZL_set _ Hpos) as Hs. fold c in Hs.
    rewrite lnot64_testbit in Hs. by destruct (Z.testbit w c), (bool_decide (0 <= c < 64)). }
  assert (forall j, 0 <= j < Z.of_nat i * 64 + c -> bf_test bits j = true) as Hbelow.
  { intros j Hj. pose proof (word_bit_split j). pose proof (bit_index_range j).
    destruct (decide (Z.to_nat (WORD_INDEX j) < i)%nat) as [Hlt|Hge].
    { apply bf_test_full. by apply H2. }
    assert (WORD_INDEX j = Z.of_nat i) as E by lia.
    replace j with (Z.of_nat i * 64 + BIT_INDEX j) by lia. rewrite Hti by done.
    pose proof (CTZL_below _ (BIT_INDEX j) Hpos) as Hs. rewrite lnot64_testbit in Hs.
    rewrite bool_decide_eq_true_2 in Hs by done. fold c in Hs.
    specialize (Hs ltac:(lia)). by destruct (Z.testbit w (BIT_INDEX j)). }
  eexists. split; [done |]. split; [|by split].
  split; [lia |].
  destruct (decide (k < Z.of_nat i * 64 + c)) as [Hlt|]; [|lia].
  rewrite Hbelow in Hfree by lia. done.
Qed.

(** No bit is free: the size of the field is returned, unless the word behind
    the array is [ULONG_MAX], where the [assert] fires. *)
Lemma bf_first_free_none (words : nat) (bits : list Z) (past : Z) :
  bf_wf words bits -> is_word past ->
  (forall j, 0 <= j < Z.of_nat words * 64 -> bf_test bits j = true) ->
  bf_first_free words bits past
  = if decide (past = ULONG_MAX) then None else Some (Z.of_nat words * 64).
Proof.
  intros Hwf Hpast Hfull. destruct (first_free_word_spec _ _ Hwf) as (H1 & H2 & H3).
  unfold bf_first_free. set (i := first_free_word words bits) in *.
  assert (i = words) as Hi.
  { destruct (decide (i < words)%nat) as [Hlt|]; [|lia].
    destruct (H3 Hlt) as (w & Hw & Hne). destruct Hne.
    assert (is_word w) by (destruct Hwf as [_ Hf]; by eapply Forall_lookup_1).
    apply Z.bits_inj'. intros b Hb. rewrite ULONG_MAX_ones, ones_testbit by lia.
    case_bool_decide as Hb'; [|apply is_word_testbit; [done | lia]].
    rewrite <- (Hfull (Z.of_nat i * 64 + b)) by lia.
    unfold bf_test. by rewrite word_index_of, bit_index_of, Nat2Z.id, Hw by done. }
  rewrite nth_overflow by (destruct Hwf; lia).
  case_decide as E.
  - subst past. done.
  - destruct (Z.eqb_spec (lnot64 past) 0) as [E'|]; [by apply lnot64_zero in E'|].
    destruct (Nat.ltb_spec i words); [lia |]. by rewrite Hi.
Qed.
