(* ===== verification/SosState.v ===== *)
(** * The state of SOS and the interface to the kernel

    SOS keeps its state in C globals; this file has their types, field by field,
    the record of all of them, and the interface through which SOS reaches what
    is not SOS: the seL4 kernel (entered through stubs the build generates) and
    the C library's allocator.  That outside is the type [K] of the class [Env];
    its operations return whatever the outside decides. *)

From S2P Require Import Prelude.

(** ** Constants of libsel4 (AArch64) *)

Definition seL4_PageBits : Z := 12.
Definition seL4_LargePageBits : Z := 21.
Definition seL4_SlotBits : Z := 5.
Definition seL4_EndpointBits : Z := 4.
Definition seL4_NotificationBits : Z := 5.
Definition seL4_TCBBits : Z := 11.
Definition seL4_PGDBits : Z := 12.
Definition seL4_WordBits : Z := 64.
Definition seL4_BadgeBits : Z := 64.
Definition seL4_MaxUntypedBits : Z := 47.

Definition seL4_NoError : Z := 0.
Definition seL4_FailedLookup : Z := 6.
Definition seL4_DeleteFirst : Z := 8.

Definition seL4_CapNull : Z := 0.
Definition seL4_CapInitThreadTCB : Z := 1.
Definition seL4_CapInitThreadCNode : Z := 2.
Definition seL4_CapInitThreadVSpace : Z := 3.
Definition seL4_CapIRQControl : Z := 4.
Definition seL4_CapInitThreadASIDPool : Z := 6.
Definition seL4_CapIOPortControl : Z := 7.
Definition seL4_CapIOSpace : Z := 8.

Definition seL4_UntypedObject : Z := 0.
Definition seL4_TCBObject : Z := 1.
Definition seL4_EndpointObject : Z := 2.
Definition seL4_NotificationObject : Z := 3.
Definition seL4_CapTableObject : Z := 4.
Definition seL4_ARM_PageUpperDirectoryObject : Z := 6.
Definition seL4_ARM_PageGlobalDirectoryObject : Z := 7.
Definition seL4_ARM_SmallPageObject : Z := 8.
Definition seL4_ARM_LargePageObject : Z := 9.
Definition seL4_ARM_PageTableObject : Z := 10.
Definition seL4_ARM_PageDirectoryObject : Z := 11.

Definition seL4_ARM_Default_VMAttributes : Z := 3.
Definition seL4_ARM_ExecuteNever : Z := 4.

Definition SEL4_MAPPING_LOOKUP_NO_PT : Z := 21.
Definition SEL4_MAPPING_LOOKUP_NO_PD : Z := 30.
Definition SEL4_MAPPING_LOOKUP_NO_PUD : Z := 39.

(** [seL4_CapRights_t]: grant-reply, grant, read, write. *)
Record rights := mkRights {
  allowGrantReply : bool; allowGrant : bool; allowRead : bool; allowWrite : bool }.
Definition seL4_AllRights : rights := mkRights true true true true.
Definition seL4_ReadWrite : rights := mkRights false false true true.
Definition seL4_CanWrite : rights := mkRights false false false true.

(** ** The outside *)

(** The kernel invocations SOS makes, one constructor per libsel4 stub. *)
Inductive invocation :=
  | Untyped_Retype (ut type size_bits root node_index node_depth node_offset num : Z)
  | CNode_Copy (droot dindex ddepth sroot sindex sdepth : Z) (r : rights)
  | CNode_Mint (droot dindex ddepth sroot sindex sdepth : Z) (r : rights) (badge : Z)
  | CNode_Move (droot dindex ddepth sroot sindex sdepth : Z)
  | CNode_Mutate (droot dindex ddepth sroot sindex sdepth : Z) (badge : Z)
  | CNode_Delete (root index depth : Z)
  | CNode_Revoke (root index depth : Z)
  | CNode_SaveCaller (root index depth : Z)
  | Page_Map (page vspace vaddr : Z) (r : rights) (attr : Z)
  | Page_Unmap (page : Z)
  | Page_Clean_Data (page from to : Z)
  | Page_Invalidate_Data (page from to : Z)
  | Page_Unify_Instruction (page from to : Z)
  | PageTable_Map (pt vspace vaddr attr : Z)
  | PageDirectory_Map (pd vspace vaddr attr : Z)
  | PageUpperDirectory_Map (pud vspace vaddr attr : Z)
  | PGD_Clean_Data (vspace from to : Z)
  | PGD_Invalidate_Data (vspace from to : Z)
  | PGD_CleanInvalidate_Data (vspace from to : Z)
  | IRQControl_GetTrigger (irq_control irq trigger root index depth : Z)
  | IRQHandler_SetNotification (handler ntfn : Z)
  | IRQHandler_Ack (handler : Z)
  | TCB_SetSpace (tcb fault_ep croot croot_data vspace vspace_data : Z)
  | TCB_Configure (tcb fault_ep croot croot_data vspace vspace_data buffer buffer_frame : Z)
  | TCB_SetPriority (tcb authority priority : Z)
  | TCB_BindNotification (tcb ntfn : Z)
  | TCB_WriteRegisters (tcb resume flags count : Z) (pc sp : Z)
  | ASIDPool_Assign (pool vspace : Z)
  | Send_Reply (reply length mr0 : Z).

(** [invoke] is a kernel invocation: its [seL4_Error] and the new outside.
    [failed_level] is [seL4_MappingFailedLookupLevel()], the message register
    the last failed mapping left.  [calloc] returns a pointer, 0 for [NULL], and
    [word_past] is the word of memory behind the block at a pointer. *)
Class Env (K : Type) := {
  invoke : invocation -> K -> Z * K;
  failed_level : K -> Z;
  calloc : Z -> K -> Z * K;
  free : Z -> K -> K;
  word_past : Z -> K -> Z
}.

(** ** Data *)

(** ut.h: [struct ut], bit fields [cap : 20], [valid : 1], [size_bits : 4]. *)
Record ut_t := mkUt { ut_cap : Z; ut_valid : Z; ut_size_bits : Z; ut_next : Z }.

(** ut.h: [ut_table_t].  [ut_mem] is the memory the [ut_t] pointers point to. *)
Record ut_table_t := mkUtTable {
  first_paddr : Z;
  untypeds : Z;
  free_untypeds : list Z;
  n_4k_untyped : Z;
  free_structures : Z;
  ut_mem : gmap Z ut_t }.

(** cspace.h: [bot_lvl_t] and [bot_lvl_node_t]. *)
Record bot_lvl_t := mkBotLvl { bl_bf : list Z; bl_untyped : Z }.
Record bot_lvl_node_t := mkBotLvlNode {
  n_cnodes : Z; node_untyped : Z; node_frame : Z; cnodes : list bot_lvl_t }.

(** cspace.h: [cspace_t].  [top_bf] is the array behind the pointer
    [top_bf_ptr], and [top_bf_past] the word of memory behind that array.
    [bot_lvl_nodes] maps an index to the node its entry points to; an absent
    index is a [NULL] entry.  [cs_alloc] is the [cookie] of the allocation
    functions, [None] when the function pointers are [NULL] (one level). *)
Record cspace_t := mkCspace {
  root_cnode : Z;
  two_level : bool;
  top_lvl_size_bits : Z;
  top_bf_ptr : Z;
  top_bf : list Z;
  top_bf_past : Z;
  bot_lvl_nodes_ptr : Z;
  bot_lvl_nodes : gmap Z bot_lvl_node_t;
  n_bot_lvl_nodes : Z;
  cs_untyped : Z;
  cs_bootstrap : Z;
  cs_alloc : option Z;
  watermark : list Z }.

(** bootstrap.c: [bootstrap_cspace_t]. *)
Record bootstrap_cspace_t := mkBoot { next_free_vaddr : Z; boot_vspace : Z }.

(** frame_table.h: [struct frame], bit fields [sos_page : 20], [prev : 19],
    [next : 19], [list_id : 2]. *)
Record frame_t := mkFrame { sos_page : Z; prev : Z; next : Z; list_id : Z }.

(** frame_table.c: [frame_list_t]. *)
Record frame_list_t := mkFrameList { fl_id : Z; first : Z; last : Z; fl_length : Z }.

(** frame_table.c: the global [frame_table]; [frames] is the array, by index. *)
Record frame_table_t := mkFrameTable {
  frames : gmap Z frame_t;
  ft_capacity : Z;
  ft_used : Z;
  ft_byte_length : Z;
  ft_free : frame_list_t;
  ft_allocated : frame_list_t;
  ft_cspace : Z;
  ft_vspace : Z }.

(** dma.c: [dma_t]. *)
Record dma_t := mkDma {
  vstart : Z; pstart : Z; pnext : Z; pend : Z; dma_cap : Z; dma_vspace : Z }.

(** irq.c: [irq_handler_t] and the global [irq_dispatch]; [irq_past] is the word
    of memory behind [allocated_bits], the struct's last field. *)
Record irq_handler_t := mkIrqHandler {
  h_irq : Z; h_irq_handler : Z; h_notification : Z; h_callback : Z; h_data : Z }.
Record irq_dispatch_t := mkIrqDispatch {
  irq_control : Z; irq_notification : Z; irq_cspace : Z;
  flag_bits : Z; ident_bits : Z; allocated_bits : Z; irq_past : Z;
  irq_handlers : gmap Z irq_handler_t }.

(** All of SOS; [s_avail] is bootstrap.c's [boot_info_avail_bytes]. *)
Record sos (K : Type) := mkSos {
  s_ut : ut_table_t;
  s_cspaces : gmap Z cspace_t;
  s_boot : bootstrap_cspace_t;
  s_avail : list Z;
  s_ft : frame_table_t;
  s_device_virt : Z;
  s_dma : dma_t;
  s_irq : irq_dispatch_t;
  s_env : K }.
Arguments mkSos {K}.
Arguments s_ut {K}.
Arguments s_cspaces {K}.
Arguments s_boot {K}.
Arguments s_avail {K}.
Arguments s_ft {K}.
Arguments s_device_virt {K}.
Arguments s_dma {K}.
Arguments s_irq {K}.
Arguments s_env {K}.

Section Setters.
Context {K : Type}.
Definition set_ut (x : ut_table_t) (s : sos K) : sos K :=
  mkSos x (s_cspaces s) (s_boot s) (s_avail s) (s_ft s) (s_device_virt s) (s_dma s) (s_irq s) (s_env s).
Definition set_cspaces (x : gmap Z cspace_t) (s : sos K) : sos K :=
  mkSos (s_ut s) x (s_boot s) (s_avail s) (s_ft s) (s_device_virt s) (s_dma s) (s_irq s) (s_env s).
Definition set_boot (x : bootstrap_cspace_t) (s : sos K) : sos K :=
  mkSos (s_ut s) (s_cspaces s) x (s_avail s) (s_ft s) (s_device_virt s) (s_dma s) (s_irq s) (s_env s).
Definition set_avail (x : list Z) (s : sos K) : sos K :=
  mkSos (s_ut s) (s_cspaces s) (s_boot s) x (s_ft s) (s_device_virt s) (s_dma s) (s_irq s) (s_env s).
Definition set_ft (x : frame_table_t) (s : sos K) : sos K :=
  mkSos (s_ut s) (s_cspaces s) (s_boot s) (s_avail s) x (s_device_virt s) (s_dma s) (s_irq s) (s_env s).
Definition set_device_virt (x : Z) (s : sos K) : sos K :=
  mkSos (s_ut s) (s_cspaces s) (s_boot s) (s_avail s) (s_ft s) x (s_dma s) (s_irq s) (s_env s).
Definition set_dma (x : dma_t) (s : sos K) : sos K :=
  mkSos (s_ut s) (s_cspaces s) (s_boot s) (s_avail s) (s_ft s) (s_device_virt s) x (s_irq s) (s_env s).
Definition set_irq (x : irq_dispatch_t) (s : sos K) : sos K :=
  mkSos (s_ut s) (s_cspaces s) (s_boot s) (s_avail s) (s_ft s) (s_device_virt s) (s_dma s) x (s_env s).
Definition set_env (x : K) (s : sos K) : sos K :=
  mkSos (s_ut s) (s_cspaces s) (s_boot s) (s_avail s) (s_ft s) (s_device_virt s) (s_dma s) (s_irq s) x.
End Setters.

(** ** The globals before [main] *)

(** vmem_layout.h *)
Definition SOS_SCRATCH : Z := 0xA0000000.
Definition SOS_DEVICE_START : Z := 0xB0000000.
Definition SOS_UT_TABLE : Z := 0x8000000000.
Definition SOS_FRAME_TABLE : Z := 0x8100000000.
Definition SOS_FRAME_DATA : Z := 0x8200000000.

(** frame_table.h: [list_id_t] *)
Definition NO_LIST : Z := 1.
Definition FREE_LIST : Z := 2.
Definition ALLOCATED_LIST : Z := 3.

Definition CONFIG_MAX_NUM_BOOTINFO_UNTYPED_CAPS : Z := 230.

Definition frame_table_initial : frame_table_t :=
  mkFrameTable ∅ 0 0 0 (mkFrameList FREE_LIST 0 0 0) (mkFrameList ALLOCATED_LIST 0 0 0) 0 0.

(** Static initialisers where the source has them, zero otherwise; [past] is the
    word behind [irq_dispatch]. *)
Definition initial_sos {K} (past : Z) (k : K) : sos K :=
  mkSos (mkUtTable 0 0 (replicate 9 0) 0 0 ∅) ∅ (mkBoot 0 0)
    (replicate (Z.to_nat CONFIG_MAX_NUM_BOOTINFO_UNTYPED_CAPS) 0) frame_table_initial
    SOS_DEVICE_START (mkDma 0 0 0 0 0 0) (mkIrqDispatch 0 0 0 0 0 0 past ∅) k.

(** Run an operation of the outside. *)
Definition outside {K A} (f : K -> A * K) : M (sos K) A :=
  fun s => let '(a, k) := f (s_env s) in inl (a, set_env k s).

(** A kernel invocation made by SOS. *)
Definition call {K} `{Env K} (i : invocation) : M (sos K) Z := outside (invoke i).

(** ** What the outside leaves alone *)

Section OutsideLemmas.
Context {K : Type} `{Env K}.

Lemma preserves_outside {A X} (f : sos K -> X) (g : K -> A * K) :
  (forall k s, f (set_env k s) = f s) -> preserves f (outside g).
Proof.
  intros Hf s a s'. unfold outside. destruct (g (s_env s)) as [b k].
  intros [= _ <-]. apply Hf.
Qed.

Lemma wp_outside {A} (g : K -> A * K) Q F (s : sos K) :
  (forall a k, Q a (set_env k s)) -> wp (outside g) Q F s.
Proof. intros HQ. unfold wp, outside. destruct (g (s_env s)) as [b k]. apply HQ. Qed.

Lemma wp_call (i : invocation) Q F (s : sos K) :
  (forall a k, Q a (set_env k s)) -> wp (call i) Q F s.
Proof. apply wp_outside. Qed.
End OutsideLemmas.

#[export] Hint Extern 2 (preserves _ (outside _)) =>
  apply preserves_outside; intros ? ?; reflexivity : pres.
#[export] Hint Extern 2 (preserves _ (call _)) =>
  apply preserves_outside; intros ? ?; reflexivity : pres.
