(* ===== verification/UtTable.v ===== *)
(** * The untyped table: lists and 4K untypeds

    Model of sos/src/ut.c, the part that does not allocate capability slots:
    the singly linked free lists, one per object size, the conversion between
    table entries and physical addresses, adding boot untypeds, and allocating
    and freeing.  (Splitting larger untypeds, [ut_alloc], is in UtAlloc.v.)

    The specification is a set of abstract lists, one per [head_ref];
    [ut_rep] relates the table to them. *)

From S2P Require Import Prelude SosState.

(** The lists of the table: [&table.free_untypeds[i]] and
    [&table.free_structures], the [ut_t **] values of the code. *)
Inductive head_ref :=
  | FreeList (i : Z)
  | FreeStructures.

#[export] Instance head_ref_eq_dec : EqDecision head_ref.
Proof. solve_decision. Defined.

Definition sizeof_ut : Z := 16.
Definition N_UNTYPED_LISTS : Z := seL4_PageBits - seL4_EndpointBits + 1.
Definition SIZE_BITS_TO_INDEX (x : Z) : Z := x - seL4_EndpointBits.

(** Zeroed memory, which every table entry starts as. *)
Definition zero_ut : ut_t := mkUt 0 0 0 0.
Definition ut_node (m : gmap Z ut_t) (p : Z) : ut_t := default zero_ut (m !! p).

Definition set_ut_mem (u : ut_table_t) (p : Z) (n : ut_t) : ut_table_t :=
  mkUtTable (first_paddr u) (untypeds u) (free_untypeds u) (n_4k_untyped u)
    (free_structures u) (<[p := n]> (ut_mem u)).

Definition head_of (u : ut_table_t) (r : head_ref) : option Z :=
  match r with
  | FreeList i => if (0 <=? i) && (i <? N_UNTYPED_LISTS)
                  then free_untypeds u !! Z.to_nat i else None
  | FreeStructures => Some (free_structures u)
  end.

Definition set_head (u : ut_table_t) (r : head_ref) (h : Z) : ut_table_t :=
  match r with
  | FreeList i =>
      mkUtTable (first_paddr u) (untypeds u) (<[Z.to_nat i := h]> (free_untypeds u))
        (n_4k_untyped u) (free_structures u) (ut_mem u)
  | FreeStructures =>
      mkUtTable (first_paddr u) (untypeds u) (free_untypeds u) (n_4k_untyped u) h (ut_mem u)
  end.

Section Ut.
Context {K : Type}.
Abbreviation MS := (M (sos K)).

(** [*p] for a [ut_t *p], and assignments to fields of it. *)
Definition ut_read (p : Z) : MS ut_t :=
  if p =? 0 then fail NullDeref else gets (fun s => ut_node (ut_mem (s_ut s)) p).
Definition ut_write (p : Z) (f : ut_t -> ut_t) : MS unit :=
  let* n := ut_read p in
  modify (fun s => set_ut (set_ut_mem (s_ut s) p (f n)) s).
Definition ut_set_next (v : Z) (n : ut_t) : ut_t :=
  mkUt (ut_cap n) (ut_valid n) (ut_size_bits n) v.
Definition ut_set_cap (v : Z) (n : ut_t) : ut_t :=
  mkUt (v mod 2 ^ 20) (ut_valid n) (ut_size_bits n) (ut_next n).
Definition ut_set_valid (v : Z) (n : ut_t) : ut_t :=
  mkUt (ut_cap n) (v mod 2) (ut_size_bits n) (ut_next n).
Definition ut_set_size_bits (v : Z) (n : ut_t) : ut_t :=
  mkUt (ut_cap n) (ut_valid n) (v mod 2 ^ 4) (ut_next n).

Definition head_read (r : head_ref) : MS Z :=
  let* o := gets (fun s => head_of (s_ut s) r) in of_option OutOfBounds o.
Definition head_write (r : head_ref) (h : Z) : MS unit :=
  do* head_read r in modify (fun s => set_ut (set_head (s_ut s) r h) s).

Definition push (head : head_ref) (new : Z) : MS unit :=
  let* h := head_read head in
  do* ut_write new (ut_set_next h) in
  head_write head new.

Definition pop (head : head_ref) : MS Z :=
  let* popped := head_read head in
  let* n := ut_read popped in
  do* head_write head (ut_next n) in
  ret popped.

Definition ut_to_paddr (u : ut_table_t) (ut : Z) : Z :=
  w64 ((ut - untypeds u) / sizeof_ut * PAGE_SIZE_4K + first_paddr u).

Definition paddr_to_ut (u : ut_table_t) (paddr : Z) : Z :=
  w64 (untypeds u + w64 (paddr - first_paddr u) / PAGE_SIZE_4K * sizeof_ut).

(** [ut_region_t]: [start] and [end] physical addresses. *)
Definition ut_pages_for_region (region : Z * Z) : Z :=
  let '(start, end_) := region in
  BYTES_TO_4K_PAGES (w64 (w64 (end_ - start) / PAGE_SIZE_4K * sizeof_ut)).

Definition ut_init (memory : Z) (region : Z * Z) : MS unit :=
  modify (fun s => let u := s_ut s in
    set_ut (mkUtTable (fst region) memory (replicate (length (free_untypeds u)) 0)
              (n_4k_untyped u) (free_structures u) (ut_mem u)) s).

Definition ut_size : MS Z := gets (fun s => w64 (n_4k_untyped (s_ut s) * PAGE_SIZE_4K)).

Definition incr_n_4k (u : ut_table_t) : ut_table_t :=
  mkUtTable (first_paddr u) (untypeds u) (free_untypeds u) (w64 (n_4k_untyped u + 1))
    (free_structures u) (ut_mem u).

(** One iteration of the loop in [ut_add_untyped_range]. *)
Definition ut_add_untyped (paddr cap : Z) (device : bool) : MS unit :=
  let* node := gets (fun s => paddr_to_ut (s_ut s) paddr) in
  do* ut_write node (ut_set_cap cap) in
  do* ut_write node (ut_set_valid 1) in
  if device then ret tt
  else
    do* ut_write node (ut_set_size_bits seL4_PageBits) in
    do* push (FreeList (SIZE_BITS_TO_INDEX seL4_PageBits)) node in
    modify (fun s => set_ut (incr_n_4k (s_ut s)) s).

(** The loop, [i] counting up and [n] iterations left; [cap++] each time. *)
Fixpoint ut_add_untyped_loop (paddr cap : Z) (i : Z) (n : nat) (device : bool) : MS unit :=
  match n with
  | O => ret tt
  | S n' =>
      do* ut_add_untyped (w64 (paddr + i * PAGE_SIZE_4K)) cap device in
      ut_add_untyped_loop paddr (w64 (cap + 1)) (i + 1) n' device
  end.

Definition ut_add_untyped_range (paddr cap : Z) (n : nat) (device : bool) : MS unit :=
  ut_add_untyped_loop paddr cap 0 n device.

(** Returns the node, 0 for [NULL], and the physical address stored through the
    pointer argument when that is not [NULL]. *)
Definition ut_alloc_4k_untyped : MS (Z * option Z) :=
  let list := FreeList (SIZE_BITS_TO_INDEX seL4_PageBits) in
  let* h := head_read list in
  if h =? 0 then ret (0, None)
  else
    let* n := pop list in
    let* paddr := gets (fun s => ut_to_paddr (s_ut s) n) in
    ret (n, Some paddr).

Definition ut_free (node : Z) : MS unit :=
  let* n := ut_read node in
  push (FreeList (SIZE_BITS_TO_INDEX (ut_size_bits n))) node.

Definition ut_alloc_4k_device (paddr : Z) : MS Z :=
  let* ut := gets (fun s => paddr_to_ut (s_ut s) paddr) in
  let* n := ut_read ut in
  if ut_valid n =? 0 then ret 0 else ret ut.
End Ut.

(** ** Abstract lists *)

(** [chain m h l]: following [next] from [h] in [m] visits exactly [l]. *)
Fixpoint chain (m : gmap Z ut_t) (h : Z) (l : list Z) : Prop :=
  match l with
  | [] => h = 0
  | x :: l' => h = x /\ x <> 0 /\ chain m (ut_next (ut_node m x)) l'
  end.

Definition valid_ref (r : head_ref) : Prop :=
  match r with
  | FreeList i => 0 <= i < N_UNTYPED_LISTS
  | FreeStructures => True
  end.

(** The table [u] holds the lists [ls]: every list is a chain, no node is twice
    in a list or in two lists, and a node is in the list of its size. *)
Record ut_rep (u : ut_table_t) (ls : head_ref -> list Z) : Prop := {
  rep_len : length (free_untypeds u) = 9%nat;
  rep_chain r : valid_ref r -> exists h, head_of u r = Some h /\ chain (ut_mem u) h (ls r);
  rep_nodup r : valid_ref r -> NoDup (ls r);
  rep_disj r r' x : valid_ref r -> valid_ref r' -> x ∈ ls r -> x ∈ ls r' -> r = r';
  rep_size i x : valid_ref (FreeList i) -> x ∈ ls (FreeList i) ->
    ut_size_bits (ut_node (ut_mem u) x) = i + seL4_EndpointBits }.

(** Replace one list. *)
Definition upd (ls : head_ref -> list Z) (r : head_ref) (l : list Z) : head_ref -> list Z :=
  fun r' => if decide (r' = r) then l else ls r'.

(** [x] is a node that is in no list. *)
Definition unlisted (ls : head_ref -> list Z) (x : Z) : Prop :=
  forall r, valid_ref r -> x ∉ ls r.

(** List families are compared pointwise. *)
#[export] Instance ut_rep_proper : Proper (eq ==> pointwise_relation _ eq ==> iff) ut_rep.
Proof.
  intros u ? <- ls ls' Hls. split; intros [A B C D E]; split; try done; intros *.
  1: rewrite <- Hls. 2: rewrite <- Hls. 3: rewrite <- !Hls. 4: rewrite <- Hls.
  5: rewrite Hls. 6: rewrite Hls. 7: rewrite !Hls. 8: rewrite Hls.
  all: eauto.
Qed.

Lemma upd_id ls r : pointwise_relation _ eq (upd ls r (ls r)) ls.
Proof. intros r'. unfold upd. by case_decide; subst. Qed.

Lemma upd_upd ls r l l' : pointwise_relation _ eq (upd (upd ls r l) r l') (upd ls r l').
Proof. intros r'. unfold upd. by case_decide. Qed.

Lemma upd_eq ls r l : upd ls r l r = l.
Proof. unfold upd. by case_decide. Qed.

Lemma upd_ne ls r r' l : r' <> r -> upd ls r l r' = ls r'.
Proof. unfold upd. by case_decide. Qed.

Lemma ut_node_insert m p q n : ut_node (<[p := n]> m) q = if decide (p = q) then n else ut_node m q.
Proof. unfold ut_node. rewrite lookup_insert. by case_decide. Qed.

(** Only the [next] fields of the nodes of the list matter to a chain. *)
Lemma chain_ext m m' h l :
  (forall x, x ∈ l -> ut_next (ut_node m' x) = ut_next (ut_node m x)) ->
  chain m h l -> chain m' h l.
Proof.
  revert h. induction l as [|x l IH]; simpl; intros h Hm; [done |].
  intros (-> & Hx & Hc). split; [done |]. split; [done |].
  rewrite Hm by set_solver. apply IH; [|done]. intros y Hy. apply Hm. set_solver.
Qed.

Lemma chain_head_zero m l : chain m 0 l -> l = [].
Proof. destruct l; [done |]. by intros (<- & ? & _). Qed.

Lemma chain_nonzero m h l x : chain m h l -> x ∈ l -> x <> 0.
Proof.
  revert h. induction l as [|y l IH]; intros h Hc Hx; [by apply not_elem_of_nil in Hx |].
  destruct Hc as (-> & Hy & Hc). apply elem_of_cons in Hx as [->|Hx]; eauto.
Qed.

Lemma head_of_set_head (u : ut_table_t) (r r' : head_ref) (h : Z) :
  length (free_untypeds u) = 9%nat -> valid_ref r -> valid_ref r' ->
  head_of (set_head u r h) r' = if decide (r' = r) then Some h else head_of u r'.
Proof.
  unfold valid_ref, N_UNTYPED_LISTS, seL4_PageBits, seL4_EndpointBits.
  intros Hl Hr Hr'. destruct r as [i|], r' as [j|]; simpl;
    unfold N_UNTYPED_LISTS, seL4_PageBits, seL4_EndpointBits.
  - replace ((0 <=? j) && (j <? 12 - 4 + 1)) with true by lia.
    case_decide as E; simplify_eq.
    + apply list_lookup_insert_eq. lia.
    + apply list_lookup_insert_ne. intros E'. apply E. f_equal. lia.
  - done.
  - done.
  - done.
Qed.

Lemma valid_ref_head (u : ut_table_t) (r : head_ref) ls :
  ut_rep u ls -> valid_ref r -> exists h, head_of u r = Some h /\ chain (ut_mem u) h (ls r).
Proof. intros HR Hr. by apply (rep_chain _ _ HR). Qed.

(** Writing fields other than [next] and [size_bits] of a node, or any field of
    an unlisted node, keeps the lists. *)
Lemma ut_rep_write_unlisted (u : ut_table_t) ls p n :
  ut_rep u ls -> unlisted ls p -> ut_rep (set_ut_mem u p n) ls.
Proof.
  intros [Hl Hc Hn Hd Hs] Hp. split; try done.
  - intros r Hr. destruct (Hc r Hr) as (h & Hh & Hch). exists h. split.
    { by destruct r. }
    apply chain_ext with (m := ut_mem u); [|done].
    intros x Hx. simpl. rewrite ut_node_insert. case_decide; [|done]. subst. by destruct (Hp r Hr).
  - intros i x Hi Hx. simpl. rewrite ut_node_insert. case_decide; [|by eauto].
    subst. by destruct (Hp (FreeList i) Hi).
Qed.

(** The table after a push, and after a pop. *)
Lemma ut_rep_push (u : ut_table_t) ls r x h :
  ut_rep u ls -> valid_ref r -> x <> 0 -> unlisted ls x -> head_of u r = Some h ->
  (forall i, r = FreeList i -> ut_size_bits (ut_node (ut_mem u) x) = i + seL4_EndpointBits) ->
  ut_rep (set_head (set_ut_mem u x (ut_set_next h (ut_node (ut_mem u) x))) r x)
         (upd ls r (x :: ls r)).
Proof.
  intros HR Hr Hx Hun Hh Hsz.
  pose proof (ut_rep_write_unlisted u ls x (ut_set_next h (ut_node (ut_mem u) x)) HR Hun) as HR'.
  set (u' := set_ut_mem u x _) in *.
  assert (length (free_untypeds u') = 9%nat) as Hl by apply (rep_len _ _ HR).
  assert (ut_mem (set_head u' r x) = ut_mem u') as Hmem by by destruct r.
  split.
  - destruct r; simpl; [by rewrite length_insert | done].
  - intros r' Hr'. rewrite head_of_set_head, Hmem by done. unfold upd. case_decide as E.
    + subst r'. exists x. split; [done |]. simpl. split; [done |]. split; [done |].
      rewrite ut_node_insert, decide_True by done. simpl.
      destruct (rep_chain _ _ HR' r Hr) as (h' & Hh' & Hch).
      assert (head_of u' r = head_of u r) as E by by destruct r.
      rewrite E, Hh in Hh'. by simplify_eq.
    + by apply (rep_chain _ _ HR').
  - intros r' Hr'. unfold upd. case_decide; [|by apply (rep_nodup _ _ HR')].
    apply list.NoDup_cons. split; [by apply Hun | by apply (rep_nodup _ _ HR')].
  - intros r1 r2 y H1 H2. unfold upd. pose proof (rep_disj _ _ HR' r1 r2 y H1 H2) as Hd.
    pose proof (Hun r1 H1). pose proof (Hun r2 H2).
    repeat case_decide; subst; rewrite ?elem_of_cons; intros; destruct_or?; subst; try done; eauto.
  - intros i y Hi. rewrite Hmem. unfold upd. case_decide as E.
    + subst r. rewrite elem_of_cons. intros [->|Hy]; [|by apply (rep_size _ _ HR')].
      simpl. rewrite ut_node_insert, decide_True by done. simpl. by apply Hsz.
    + by apply (rep_size _ _ HR').
Qed.

Lemma ut_rep_pop (u : ut_table_t) ls r x l :
  ut_rep u ls -> valid_ref r -> ls r = x :: l ->
  head_of u r = Some x /\ x <> 0 /\
  ut_rep (set_head u r (ut_next (ut_node (ut_mem u) x))) (upd ls r l) /\
  unlisted (upd ls r l) x.
Proof.
  intros HR Hr E. destruct (rep_chain _ _ HR r Hr) as (h & Hh & Hch).
  rewrite E in Hch. destruct Hch as (-> & Hx & Hch).
  pose proof (rep_nodup _ _ HR r Hr) as Hnd. rewrite E in Hnd. apply list.NoDup_cons in Hnd as [Hxl Hnd].
  split; [done |]. split; [done |].
  assert (ut_mem (set_head u r (ut_next (ut_node (ut_mem u) x))) = ut_mem u) as Hmem by by destruct r.
  assert (forall r' y, y ∈ upd ls r l r' -> y ∈ ls r') as Hsub.
  { intros r' y. unfold upd. case_decide; [|done]. subst. rewrite E. set_solver. }
  split.
  - split.
    + destruct r; simpl; rewrite ?length_insert; apply (rep_len _ _ HR).
    + intros r' Hr'. rewrite head_of_set_head, Hmem by (done || apply (rep_len _ _ HR)).
      unfold upd. case_decide; [by eexists |]. by apply (rep_chain _ _ HR).
    + intros r' Hr'. unfold upd. case_decide; [done |]. by apply (rep_nodup _ _ HR).
    + intros r1 r2 y H1 H2 Hy1 Hy2. apply (rep_disj _ _ HR r1 r2 y); eauto.
    + intros i y Hi Hy. rewrite Hmem. apply (rep_size _ _ HR); eauto.
  - intros r' Hr'. unfold upd. case_decide as Er; [done |]. intros Hx'.
    apply Er. apply (rep_disj _ _ HR r' r x); try done. rewrite E. set_solver.
Qed.

(** ** Running the operations *)

(** What list operations leave alone: everything but heads and [next] fields. *)
Definition ut_meta (u u' : ut_table_t) : Prop :=
  first_paddr u' = first_paddr u /\ untypeds u' = untypeds u /\
  n_4k_untyped u' = n_4k_untyped u /\
  forall y, ut_cap (ut_node (ut_mem u') y) = ut_cap (ut_node (ut_mem u) y) /\
            ut_valid (ut_node (ut_mem u') y) = ut_valid (ut_node (ut_mem u) y) /\
            ut_size_bits (ut_node (ut_mem u') y) = ut_size_bits (ut_node (ut_mem u) y).

#[export] Instance ut_meta_preorder : PreOrder ut_meta.
Proof.
  unfold ut_meta. split; [intros u; by split_and! |].
  intros u1 u2 u3 (A1 & A2 & A3 & A4) (B1 & B2 & B3 & B4).
  split_and!; [congruence .. |]. intros y.
  destruct (A4 y) as (?&?&?), (B4 y) as (?&?&?). split_and!; congruence.
Qed.

Lemma ut_meta_set_head u r h : ut_meta u (set_head u r h).
Proof. unfold ut_meta. by destruct r; split_and!. Qed.

Lemma ut_meta_set_next u p h : ut_meta u (set_ut_mem u p (ut_set_next h (ut_node (ut_mem u) p))).
Proof.
  unfold ut_meta. split_and!; try done. intros y. simpl. rewrite ut_node_insert.
  by case_decide; subst.
Qed.

Definition L4K : head_ref := FreeList (SIZE_BITS_TO_INDEX seL4_PageBits).

Lemma L4K_valid : valid_ref L4K.
Proof. done. Qed.

Lemma size_ref_valid (b : Z) : 4 <= b <= 12 -> valid_ref (FreeList (SIZE_BITS_TO_INDEX b)).
Proof.
  unfold valid_ref, SIZE_BITS_TO_INDEX, N_UNTYPED_LISTS, seL4_PageBits, seL4_EndpointBits. lia.
Qed.
#[export] Hint Resolve L4K_valid size_ref_valid : core.

Section UtRun.
Context {K : Type}.
Implicit Types (s : sos K) (ls : head_ref -> list Z) (F : fault -> Prop).

Lemma wp_head_read r Q F s ls :
  ut_rep (s_ut s) ls -> valid_ref r ->
  (forall h, head_of (s_ut s) r = Some h -> chain (ut_mem (s_ut s)) h (ls r) -> Q h s) ->
  wp (head_read r) Q F s.
Proof.
  intros HR Hr HQ. destruct (rep_chain _ _ HR r Hr) as (h & Hh & Hc).
  unfold head_read. wp_steps. rewrite Hh. auto.
Qed.

Lemma wp_ut_read p Q F s :
  p <> 0 -> Q (ut_node (ut_mem (s_ut s)) p) s -> wp (ut_read p) Q F s.
Proof. intros Hp HQ. unfold ut_read. by destruct (Z.eqb_spec p 0). Qed.

Lemma wp_ut_write p f Q F s :
  p <> 0 -> Q tt (set_ut (set_ut_mem (s_ut s) p (f (ut_node (ut_mem (s_ut s)) p))) s) ->
  wp (ut_write p f) Q F s.
Proof. intros Hp HQ. unfold ut_write. rewrite wp_bind. by apply wp_ut_read. Qed.

Lemma wp_push r x Q F s ls :
  ut_rep (s_ut s) ls -> valid_ref r -> x <> 0 -> unlisted ls x ->
  (forall i, r = FreeList i -> ut_size_bits (ut_node (ut_mem (s_ut s)) x) = i + seL4_EndpointBits) ->
  (forall u', ut_rep u' (upd ls r (x :: ls r)) -> ut_meta (s_ut s) u' -> Q tt (set_ut u' s)) ->
  wp (push r x) Q F s.
Proof.
  intros HR Hr Hx Hun Hsz HQ. unfold push. rewrite wp_bind.
  eapply wp_head_read; [done | done |]. intros h Hh _.
  rewrite wp_bind. apply wp_ut_write; [done |]. unfold head_write. rewrite wp_bind.
  eapply wp_head_read with (ls := ls); [by apply ut_rep_write_unlisted | done |].
  intros _ _ _. wp_steps. apply HQ; [by eapply ut_rep_push |].
  etrans; [apply ut_meta_set_next | apply ut_meta_set_head].
Qed.

Lemma wp_pop r x l Q F s ls :
  ut_rep (s_ut s) ls -> valid_ref r -> ls r = x :: l ->
  (forall u', ut_rep u' (upd ls r l) -> x <> 0 -> unlisted (upd ls r l) x ->
              ut_meta (s_ut s) u' -> Q x (set_ut u' s)) ->
  wp (pop r) Q F s.
Proof.
  intros HR Hr E HQ. destruct (ut_rep_pop _ _ _ _ _ HR Hr E) as (Hh & Hx & HR' & Hun).
  unfold pop. rewrite wp_bind. eapply wp_head_read; [done | done |]. intros h Hh' _.
  rewrite Hh in Hh'. simplify_eq. rewrite wp_bind. apply wp_ut_read; [done |].
  unfold head_write. rewrite !wp_bind. eapply wp_head_read; [done | done |]. intros _ _ _.
  wp_steps. apply HQ; try done. apply ut_meta_set_head.
Qed.

Lemma wp_ut_alloc_4k Q F s ls :
  ut_rep (s_ut s) ls ->
  (ls L4K = [] -> Q (0, None) s) ->
  (forall x l u', ls L4K = x :: l -> x <> 0 -> ut_rep u' (upd ls L4K l) ->
     unlisted (upd ls L4K l) x -> ut_meta (s_ut s) u' ->
     ut_size_bits (ut_node (ut_mem u') x) = seL4_PageBits ->
     Q (x, Some (ut_to_paddr u' x)) (set_ut u' s)) ->
  wp ut_alloc_4k_untyped Q F s.
Proof.
  intros HR H0 H1. unfold ut_alloc_4k_untyped. fold L4K. rewrite wp_bind.
  eapply wp_head_read; [done | done |]. intros h Hh Hc.
  destruct (Z.eqb_spec h 0) as [->|Hne].
  { apply chain_head_zero in Hc. wp_steps. auto. }
  destruct (ls L4K) as [|x l] eqn:E; [by destruct Hne |].
  rewrite wp_bind. eapply wp_pop; [done | done | done |]. intros u' HR' Hx Hun Hm.
  wp_steps. eapply H1; try done.
  destruct Hm as (_ & _ & _ & Hm). destruct (Hm x) as (_ & _ & ->).
  rewrite (rep_size _ _ HR _ x L4K_valid); [done |]. fold L4K. rewrite E. set_solver.
Qed.

Lemma wp_ut_free x Q F s ls :
  ut_rep (s_ut s) ls -> x <> 0 -> unlisted ls x ->
  4 <= ut_size_bits (ut_node (ut_mem (s_ut s)) x) <= 12 ->
  (forall u', let r := FreeList (SIZE_BITS_TO_INDEX (ut_size_bits (ut_node (ut_mem (s_ut s)) x))) in
     ut_rep u' (upd ls r (x :: ls r)) -> ut_meta (s_ut s) u' -> Q tt (set_ut u' s)) ->
  wp (ut_free x) Q F s.
Proof.
  intros HR Hx Hun Hsz HQ. unfold ut_free. rewrite wp_bind. apply wp_ut_read; [done |].
  eapply wp_push; try done; [by apply size_ref_valid |].
  intros i [= <-]. unfold SIZE_BITS_TO_INDEX, seL4_EndpointBits. lia.
Qed.
End UtRun.

Lemma ut_rep_meta_field (u u' : ut_table_t) ls :
  ut_rep u ls -> length (free_untypeds u') = 9%nat -> (forall r, head_of u' r = head_of u r) ->
  ut_mem u' = ut_mem u -> ut_rep u' ls.
Proof.
  intros [Hl Hc Hn Hd Hs] Hl' Hh Hm. split; try done.
  - intros r Hr. rewrite Hh, Hm. auto.
  - intros i x. rewrite Hm. auto.
Qed.

(** ** Adding boot untypeds *)

(** The table entry of the [k]-th page of the region, and its address. *)
Definition entry (u : ut_table_t) (k : Z) : Z := untypeds u + k * sizeof_ut.

Lemma paddr_to_ut_entry u k :
  0 <= first_paddr u -> 0 <= k -> first_paddr u + k * PAGE_SIZE_4K < 2 ^ 64 ->
  0 <= untypeds u -> entry u k < 2 ^ 64 ->
  paddr_to_ut u (first_paddr u + k * PAGE_SIZE_4K) = entry u k.
Proof.
  unfold paddr_to_ut, entry, w64, sizeof_ut. change PAGE_SIZE_4K with 4096. intros.
  rewrite (Z.mod_small (_ - _)) by lia.
  replace (_ + k * 4096 - first_paddr u) with (k * 4096) by lia.
  rewrite Z.div_mul by lia. apply Z.mod_small. lia.
Qed.

Lemma ut_to_paddr_entry u k :
  0 <= first_paddr u -> 0 <= k -> first_paddr u + k * PAGE_SIZE_4K < 2 ^ 64 ->
  ut_to_paddr u (entry u k) = first_paddr u + k * PAGE_SIZE_4K.
Proof.
  unfold ut_to_paddr, entry, w64, sizeof_ut. change PAGE_SIZE_4K with 4096. intros.
  replace (_ + k * 16 - untypeds u) with (k * 16) by lia.
  rewrite Z.div_mul by lia. rewrite Z.mod_small; lia.
Qed.

(** The entries of [n] pages from page [k] on, last one first. *)
Fixpoint entries (u : ut_table_t) (k : Z) (n : nat) : list Z :=
  match n with
  | O => []
  | S n' => entries u (k + 1) n' ++ [entry u k]
  end.

(** What adding [n] pages with capabilities from [cap] on does to the table. *)
Definition added (u u' : ut_table_t) (k cap : Z) (n : nat) : Prop :=
  first_paddr u' = first_paddr u /\ untypeds u' = untypeds u /\
  w64 (n_4k_untyped u') = w64 (n_4k_untyped u + Z.of_nat n) /\
  (forall i, 0 <= i < Z.of_nat n -> ut_cap (ut_node (ut_mem u') (entry u (k + i))) = (cap + i) mod 2 ^ 20 /\
     ut_valid (ut_node (ut_mem u') (entry u (k + i))) = 1) /\
  (forall i, i < k \/ k + Z.of_nat n <= i ->
     ut_cap (ut_node (ut_mem u') (entry u i)) = ut_cap (ut_node (ut_mem u) (entry u i)) /\
     ut_valid (ut_node (ut_mem u') (entry u i)) = ut_valid (ut_node (ut_mem u) (entry u i))).

Section UtAdd.
Context {K : Type}.

Lemma wp_ut_add_untyped paddr cap Q F (s : sos K) ls :
  let node := paddr_to_ut (s_ut s) paddr in
  ut_rep (s_ut s) ls -> node <> 0 -> unlisted ls node ->
  (forall u', ut_rep u' (upd ls L4K (node :: ls L4K)) ->
     first_paddr u' = first_paddr (s_ut s) -> untypeds u' = untypeds (s_ut s) ->
     n_4k_untyped u' = w64 (n_4k_untyped (s_ut s) + 1) ->
     ut_cap (ut_node (ut_mem u') node) = cap mod 2 ^ 20 ->
     ut_valid (ut_node (ut_mem u') node) = 1 ->
     (forall y, y <> node ->
        ut_cap (ut_node (ut_mem u') y) = ut_cap (ut_node (ut_mem (s_ut s)) y) /\
        ut_valid (ut_node (ut_mem u') y) = ut_valid (ut_node (ut_mem (s_ut s)) y)) ->
     Q tt (set_ut u' s)) ->
  wp (ut_add_untyped paddr cap false) Q F s.
Proof.
  intros node HR Hn Hun HQ. unfold ut_add_untyped. rewrite wp_bind, wp_gets.
  fold node. do 3 (rewrite wp_bind; apply wp_ut_write; [done |]; cbv iota).
  rewrite wp_bind. simpl s_ut.
  assert (forall a b c, ut_rep (set_ut_mem (set_ut_mem (set_ut_mem (s_ut s) node a) node b) node c) ls) as HR'.
  { intros. by repeat apply ut_rep_write_unlisted. }
  eapply wp_push; [by apply HR' | done | done | done | |].
  { intros i [= <-]. simpl. by rewrite ut_node_insert, decide_True. }
  intros u' Hrep (Hf & Hu & Hk & Hm). wp_steps. apply HQ; try done.
  - by apply ut_rep_meta_field with (u := u'); [| apply (rep_len _ _ Hrep) | |].
  - simpl. by rewrite Hk.
  - simpl. destruct (Hm node) as (-> & _). simpl. by rewrite !ut_node_insert, !decide_True.
  - simpl. destruct (Hm node) as (_ & -> & _). simpl. by rewrite !ut_node_insert, !decide_True.
  - intros y Hy. simpl. destruct (Hm y) as (-> & -> & _). simpl.
    by rewrite !ut_node_insert, !decide_False.
Qed.
End UtAdd.

Section UtAddRange.
Context {K : Type}.

Lemma entries_elem u k n x : x ∈ entries u k n -> exists i, 0 <= i < Z.of_nat n /\ x = entry u (k + i).
Proof.
  revert k. induction n as [|n IH]; intros k Hx; [by apply not_elem_of_nil in Hx|].
  simpl in Hx. apply elem_of_app in Hx as [Hx|Hx].
  - destruct (IH _ Hx) as (i & Hi & ->). exists (i + 1). split; [lia |]. f_equal. lia.
  - apply list_elem_of_singleton in Hx as ->. exists 0. split; [lia |]. f_equal. lia.
Qed.

Lemma added_step u u1 u2 k cap n :
  first_paddr u1 = first_paddr u -> untypeds u1 = untypeds u ->
  n_4k_untyped u1 = w64 (n_4k_untyped u + 1) ->
  ut_cap (ut_node (ut_mem u1) (entry u k)) = cap mod 2 ^ 20 ->
  ut_valid (ut_node (ut_mem u1) (entry u k)) = 1 ->
  (forall y, y <> entry u k ->
     ut_cap (ut_node (ut_mem u1) y) = ut_cap (ut_node (ut_mem u) y) /\
     ut_valid (ut_node (ut_mem u1) y) = ut_valid (ut_node (ut_mem u) y)) ->
  added u1 u2 (k + 1) (cap + 1) n -> added u u2 k cap (S n).
Proof.
  intros Hf Hu Hn Hc Hv Hy (Af & Au & An & Ai & Ao).
  assert (forall i, entry u1 i = entry u i) as He by (intros; unfold entry; congruence).
  unfold added. split_and!; try congruence.
  - rewrite An, Hn. unfold w64. rewrite Zplus_mod_idemp_l. f_equal. lia.
  - intros i Hi. destruct (decide (i = 0)) as [->|].
    + destruct (Ao k) as [B C]; [lia |]. rewrite He in B, C.
      rewrite !Z.add_0_r. split; congruence.
    + destruct (Ai (i - 1)) as [B C]; [lia |]. rewrite He in B, C.
      replace (k + 1 + (i - 1)) with (k + i) in B, C by lia.
      replace (cap + 1 + (i - 1)) with (cap + i) in B by lia. done.
  - intros i Hi. destruct (Ao i) as [B C]; [lia |]. rewrite He in B, C.
    destruct (Hy (entry u i)) as [D E]; [unfold entry, sizeof_ut; lia |]. split; congruence.
Qed.

(** The loop adds the entries of the range to the 4K list, last one first. *)
Lemma wp_ut_add_untyped_loop k0 k cap n F (s : sos K) ls :
  ut_rep (s_ut s) ls -> 0 <= k0 -> 0 <= k - k0 ->
  0 <= first_paddr (s_ut s) -> 0 < untypeds (s_ut s) ->
  first_paddr (s_ut s) + (k + Z.of_nat n) * PAGE_SIZE_4K <= 2 ^ 64 ->
  entry (s_ut s) (k + Z.of_nat n) <= 2 ^ 64 ->
  0 <= cap -> cap + Z.of_nat n < 2 ^ 64 ->
  (forall i, 0 <= i < Z.of_nat n -> unlisted ls (entry (s_ut s) (k + i))) ->
  wp (ut_add_untyped_loop (first_paddr (s_ut s) + k0 * PAGE_SIZE_4K) cap (k - k0) n false)
     (fun _ s' => exists u', s' = set_ut u' s /\
        ut_rep u' (upd ls L4K (entries (s_ut s) k n ++ ls L4K)) /\ added (s_ut s) u' k cap n)
     F s.
Proof.
  revert k cap s ls. induction n as [|n IH]; intros k cap s ls HR Hk0 Hk Hf Hu Hp He Hc Hcn Hun.
  { simpl. wp_steps. exists (s_ut s). split; [by destruct s |]. split.
    - by rewrite upd_id.
    - unfold added. split_and!; try done; [|intros; lia]. f_equal. lia. }
  assert (w64 (first_paddr (s_ut s) + k0 * PAGE_SIZE_4K + (k - k0) * PAGE_SIZE_4K)
          = first_paddr (s_ut s) + k * PAGE_SIZE_4K) as Hpa.
  { unfold w64. change PAGE_SIZE_4K with 4096 in *. rewrite Z.mod_small; lia. }
  change PAGE_SIZE_4K with 4096 in *. unfold entry, sizeof_ut in He.
  assert (paddr_to_ut (s_ut s) (first_paddr (s_ut s) + k * 4096) = entry (s_ut s) k) as Hnode.
  { apply paddr_to_ut_entry; unfold entry, sizeof_ut; change PAGE_SIZE_4K with 4096; lia. }
  assert (unlisted ls (entry (s_ut s) k)) as Hunk.
  { specialize (Hun 0 ltac:(lia)). by rewrite Z.add_0_r in Hun. }
  simpl ut_add_untyped_loop. change PAGE_SIZE_4K with 4096. rewrite wp_bind, Hpa.
  eapply wp_ut_add_untyped; rewrite ?Hnode; [done | unfold entry, sizeof_ut; lia | done |].
  intros u1 HR1 Hf1 Hu1 Hn1 Hcap Hval Hoth.
  assert (forall i, entry u1 i = entry (s_ut s) i) as He1 by (intros; unfold entry; congruence).
  unfold w64 at 1. rewrite Z.mod_small by lia.
  replace (k - k0 + 1) with (k + 1 - k0) by lia. rewrite <- Hf1.
  eapply wp_mono; [apply (IH (k + 1) (cap + 1) (set_ut u1 s) _ HR1) | | done]; simpl; try lia.
  - unfold entry, sizeof_ut. rewrite Hu1. lia.
  - intros i Hi r Hr. rewrite He1. unfold upd. case_decide as E.
    + intros [Heq|Hin]%elem_of_cons; [unfold entry, sizeof_ut in Heq; lia |].
      specialize (Hun (i + 1) ltac:(lia) L4K L4K_valid). by replace (k + (i + 1)) with (k + 1 + i) in Hun by lia.
    + specialize (Hun (i + 1) ltac:(lia) r Hr). by replace (k + (i + 1)) with (k + 1 + i) in Hun by lia.
  - intros _ s' (u2 & -> & HR2 & Hadd). exists u2. split; [done |]. split.
    + rewrite upd_upd, upd_eq in HR2. simpl. rewrite <- app_assoc.
      replace (entries (s_ut s) (k + 1) n) with (entries u1 (k + 1) n); [done |].
      clear -He1. generalize (k + 1). induction n as [|n IHn]; intros m; simpl; [done |]. by rewrite IHn, He1.
    + by eapply added_step.
Qed.
End UtAddRange.
