(* ===== verification/Cspace.v ===== *)
(** * The cspace library: operations

    Model of libsel4cspace (cspace.h, cspace.c).  A cspace is one or two levels
    of CNodes and the bit fields that say which slots are taken.  A two-level
    cspace creates its bottom-level CNodes, and the frames that hold their bit
    fields, on demand, with memory it gets from the functions its creator
    passed in ([cspace_alloc_t]); those functions are the class [CspaceAlloc],
    which Bootstrap.v implements the way bootstrap.c does.

    [cspace_alloc_slot] and [refill_watermark] call each other; the recursion
    has fuel, and CspaceInv.v shows that [alloc_fuel] levels are enough. *)

From S2P Require Import Prelude SosState Bitfield.

(** ** cspace.h: sizes and indices *)

Definition MAPPING_SLOTS : Z := 3.
Definition WATERMARK_SLOTS : Z := MAPPING_SLOTS + 1.
Definition CNODE_SIZE_BITS : Z := 12.
Definition CNODE_SLOT_BITS (x : Z) : Z := x - seL4_SlotBits.
Definition CNODE_SLOTS (x : Z) : Z := BIT (CNODE_SLOT_BITS x).
Definition BITFIELD_SIZE (x : Z) : Z := CNODE_SLOTS x / seL4_WordBits.

(** [bot_lvl_t] is packed: two words of bit field and a pointer. *)
Definition sizeof_bot_lvl : Z := BITFIELD_SIZE CNODE_SIZE_BITS * 8 + 8.
Definition BOT_LVL_NODES (x : Z) : Z := BYTES_TO_4K_PAGES (sizeof_bot_lvl * CNODE_SLOTS x).
Definition BOT_LVL_PER_NODE : Z := (PAGE_SIZE_4K - 8 * 3) / sizeof_bot_lvl.

Definition NODE_INDEX (cptr : Z) : Z := cptr / CNODE_SLOTS CNODE_SIZE_BITS / BOT_LVL_PER_NODE.
Definition CNODE_INDEX (cptr : Z) : Z := cptr / CNODE_SLOTS CNODE_SIZE_BITS mod BOT_LVL_PER_NODE.
Definition TOP_LVL_INDEX (cptr : Z) : Z := Z.shiftr cptr (CNODE_SLOT_BITS CNODE_SIZE_BITS).
Definition BOT_LVL_INDEX (cptr : Z) : Z := Z.land cptr (MASK (CNODE_SLOT_BITS CNODE_SIZE_BITS)).

Definition CSPACE_NOERROR : Z := 0.
Definition CSPACE_ERROR : Z := -1.

(** A zeroed bookkeeping page. *)
Definition zero_bot_lvl : bot_lvl_t :=
  mkBotLvl (replicate (Z.to_nat (BITFIELD_SIZE CNODE_SIZE_BITS)) 0) 0.
Definition zero_bot_lvl_node : bot_lvl_node_t :=
  mkBotLvlNode 0 0 0 (replicate (Z.to_nat BOT_LVL_PER_NODE) zero_bot_lvl).

(** ** Field updates *)

Definition cs_set_root_cnode (x : Z) (c : cspace_t) : cspace_t :=
  mkCspace x (two_level c) (top_lvl_size_bits c) (top_bf_ptr c) (top_bf c) (top_bf_past c)
    (bot_lvl_nodes_ptr c) (bot_lvl_nodes c) (n_bot_lvl_nodes c) (cs_untyped c)
    (cs_bootstrap c) (cs_alloc c) (watermark c).
Definition cs_set_top_bf (x : list Z) (c : cspace_t) : cspace_t :=
  mkCspace (root_cnode c) (two_level c) (top_lvl_size_bits c) (top_bf_ptr c) x (top_bf_past c)
    (bot_lvl_nodes_ptr c) (bot_lvl_nodes c) (n_bot_lvl_nodes c) (cs_untyped c)
    (cs_bootstrap c) (cs_alloc c) (watermark c).
Definition cs_set_top_bf_ptr (p : Z) (x : list Z) (past : Z) (c : cspace_t) : cspace_t :=
  mkCspace (root_cnode c) (two_level c) (top_lvl_size_bits c) p x past
    (bot_lvl_nodes_ptr c) (bot_lvl_nodes c) (n_bot_lvl_nodes c) (cs_untyped c)
    (cs_bootstrap c) (cs_alloc c) (watermark c).
Definition cs_set_nodes_ptr (p : Z) (c : cspace_t) : cspace_t :=
  mkCspace (root_cnode c) (two_level c) (top_lvl_size_bits c) (top_bf_ptr c) (top_bf c)
    (top_bf_past c) p (bot_lvl_nodes c) (n_bot_lvl_nodes c) (cs_untyped c)
    (cs_bootstrap c) (cs_alloc c) (watermark c).
Definition cs_set_nodes (x : gmap Z bot_lvl_node_t) (c : cspace_t) : cspace_t :=
  mkCspace (root_cnode c) (two_level c) (top_lvl_size_bits c) (top_bf_ptr c) (top_bf c)
    (top_bf_past c) (bot_lvl_nodes_ptr c) x (n_bot_lvl_nodes c) (cs_untyped c)
    (cs_bootstrap c) (cs_alloc c) (watermark c).
Definition cs_set_n_nodes (x : Z) (c : cspace_t) : cspace_t :=
  mkCspace (root_cnode c) (two_level c) (top_lvl_size_bits c) (top_bf_ptr c) (top_bf c)
    (top_bf_past c) (bot_lvl_nodes_ptr c) (bot_lvl_nodes c) x (cs_untyped c)
    (cs_bootstrap c) (cs_alloc c) (watermark c).
Definition cs_set_untyped (x : Z) (c : cspace_t) : cspace_t :=
  mkCspace (root_cnode c) (two_level c) (top_lvl_size_bits c) (top_bf_ptr c) (top_bf c)
    (top_bf_past c) (bot_lvl_nodes_ptr c) (bot_lvl_nodes c) (n_bot_lvl_nodes c) x
    (cs_bootstrap c) (cs_alloc c) (watermark c).
Definition cs_set_watermark (x : list Z) (c : cspace_t) : cspace_t :=
  mkCspace (root_cnode c) (two_level c) (top_lvl_size_bits c) (top_bf_ptr c) (top_bf c)
    (top_bf_past c) (bot_lvl_nodes_ptr c) (bot_lvl_nodes c) (n_bot_lvl_nodes c) (cs_untyped c)
    (cs_bootstrap c) (cs_alloc c) x.

Definition node_set_n_cnodes (x : Z) (n : bot_lvl_node_t) : bot_lvl_node_t :=
  mkBotLvlNode x (node_untyped n) (node_frame n) (cnodes n).
Definition node_set_frame (x : Z) (n : bot_lvl_node_t) : bot_lvl_node_t :=
  mkBotLvlNode (n_cnodes n) (node_untyped n) x (cnodes n).
Definition node_set_cnode (i : Z) (b : bot_lvl_t) (n : bot_lvl_node_t) : bot_lvl_node_t :=
  mkBotLvlNode (n_cnodes n) (node_untyped n) (node_frame n) (<[Z.to_nat i := b]> (cnodes n)).

(** ** The functions a two-level cspace allocates with *)

(** cspace.h: [cspace_map_frame_fn], [cspace_alloc_4k_ut_fn] and
    [cspace_free_4k_ut_fn], the first argument being the cookie.  The mapping
    function may allocate slots itself; it gets the slot allocator as an
    argument.  It returns the mapped address, 0 for [NULL], and the new [*used]. *)
Class CspaceAlloc (K : Type) := {
  cb_map_frame : (Z -> M (sos K) Z) -> Z -> Z -> list Z -> Z -> M (sos K) (Z * Z);
  cb_alloc_4k_ut : Z -> M (sos K) (Z * Z);
  cb_free_4k_ut : Z -> Z -> M (sos K) unit
}.

Section Ops.
Context {K : Type} `{Env K} `{CspaceAlloc K}.
Abbreviation MS := (M (sos K)).

(** Access to [*cspace]; [NULL], or no cspace at that address, faults. *)
Definition cs_read (p : Z) : MS cspace_t :=
  let* o := gets (fun s => s_cspaces s !! p) in of_option NullDeref o.
Definition cs_write (p : Z) (f : cspace_t -> cspace_t) : MS unit :=
  let* c := cs_read p in
  modify (fun s => set_cspaces (<[p := f c]> (s_cspaces s)) s).

(** [cspace->bot_lvl_nodes[i]], and updates through that pointer. *)
Definition node_read (p i : Z) : MS bot_lvl_node_t :=
  let* c := cs_read p in of_option NullDeref (bot_lvl_nodes c !! i).
Definition node_write (p i : Z) (f : bot_lvl_node_t -> bot_lvl_node_t) : MS unit :=
  let* n := node_read p i in
  cs_write p (fun c => cs_set_nodes (<[i := f n]> (bot_lvl_nodes c)) c).
Definition bot_lvl_read (p i j : Z) : MS bot_lvl_t :=
  let* n := node_read p i in of_option OutOfBounds (cnodes n !! Z.to_nat j).
Definition bot_lvl_write (p i j : Z) (f : bot_lvl_t -> bot_lvl_t) : MS unit :=
  let* b := bot_lvl_read p i j in node_write p i (node_set_cnode j (f b)).

(** *** The wrappers of cspace.h *)

Definition cspace_copy (dest dest_cptr src src_cptr : Z) (r : rights) : MS Z :=
  let* d := cs_read dest in let* s := cs_read src in
  call (CNode_Copy (root_cnode d) dest_cptr seL4_WordBits
                   (root_cnode s) src_cptr seL4_WordBits r).

Definition cspace_delete (cspace cptr : Z) : MS Z :=
  let* c := cs_read cspace in
  call (CNode_Delete (root_cnode c) cptr seL4_WordBits).

Definition cspace_mint (dest dest_cptr src src_cptr : Z) (r : rights) (badge : Z) : MS Z :=
  let* d := cs_read dest in let* s := cs_read src in
  call (CNode_Mint (root_cnode d) dest_cptr seL4_WordBits
                   (root_cnode s) src_cptr seL4_WordBits r badge).

Definition cspace_move (dest dest_cptr src src_cptr : Z) : MS Z :=
  let* d := cs_read dest in let* s := cs_read src in
  call (CNode_Move (root_cnode d) dest_cptr seL4_WordBits
                   (root_cnode s) src_cptr seL4_WordBits).

Definition cspace_mutate (dest dest_cptr src src_cap badge : Z) : MS Z :=
  let* d := cs_read dest in let* s := cs_read src in
  call (CNode_Mutate (root_cnode d) dest_cptr seL4_WordBits
                     (root_cnode s) src_cap seL4_WordBits badge).

Definition cspace_revoke (cspace cptr : Z) : MS Z :=
  let* c := cs_read cspace in
  call (CNode_Revoke (root_cnode c) cptr seL4_WordBits).

Definition cspace_irq_control_get (dest cptr irq_cap irq level : Z) : MS Z :=
  let* d := cs_read dest in
  call (IRQControl_GetTrigger irq_cap irq level (root_cnode d) cptr seL4_WordBits).

Definition cspace_save_reply_cap (cspace cptr : Z) : MS Z :=
  let* c := cs_read cspace in
  call (CNode_SaveCaller (root_cnode c) cptr seL4_WordBits).

Definition cspace_untyped_retype (cspace ut target type size_bits : Z) : MS Z :=
  let* c := cs_read cspace in
  if two_level c then
    let cnode := Z.shiftr target (CNODE_SLOT_BITS CNODE_SIZE_BITS) in
    call (Untyped_Retype ut type size_bits (root_cnode c) cnode
            (seL4_WordBits - CNODE_SLOT_BITS CNODE_SIZE_BITS)
            (target mod CNODE_SLOTS CNODE_SIZE_BITS) 1)
  else
    call (Untyped_Retype ut type size_bits (root_cnode c) 0 0 target 1).

(** *** Allocation of bookkeeping memory *)

(** [NULL] function pointers fail the wrappers' [assert]. *)
Definition alloc_4k_untyped (alloc : option Z) : MS (Z * Z) :=
  match alloc with Some cookie => cb_alloc_4k_ut cookie | None => fail AssertFail end.
Definition free_4k_untyped (alloc : option Z) (untyped : Z) : MS unit :=
  match alloc with Some cookie => cb_free_4k_ut cookie untyped | None => fail AssertFail end.
Definition map_frame_cb (alloc_slot : Z -> MS Z) (alloc : option Z) (frame : Z)
    (free_slots : list Z) (used : Z) : MS (Z * Z) :=
  match alloc with
  | Some cookie => cb_map_frame alloc_slot cookie frame free_slots used
  | None => fail AssertFail
  end.

Definition retype_helper (cspace type cptr : Z) : MS Z :=
  let* c := cs_read cspace in
  let* '(untyped, ut_cptr) := alloc_4k_untyped (cs_alloc c) in
  if untyped =? 0 then ret 0
  else
    let size := if type =? seL4_CapTableObject then CNODE_SLOT_BITS seL4_PageBits
                else seL4_PageBits in
    let* err := cspace_untyped_retype cspace ut_cptr cptr type size in
    if negb (err =? seL4_NoError) then
      do* free_4k_untyped (cs_alloc c) untyped in ret 0
    else ret untyped.

(** The loop of [refill_watermark] from slot [i] on; it stops after the first
    slot it refills. *)
Fixpoint refill_watermark_loop (alloc_slot : Z -> MS Z) (cspace used i : Z) (n : nat) : MS unit :=
  match n with
  | O => ret tt
  | S n' =>
      if negb (Z.land used (BIT i) =? 0) then
        let* slot := alloc_slot cspace in
        cs_write cspace (fun c => cs_set_watermark (<[Z.to_nat i := slot]> (watermark c)) c)
      else refill_watermark_loop alloc_slot cspace used (i + 1) n'
  end.

Definition refill_watermark (alloc_slot : Z -> MS Z) (cspace used : Z) : MS unit :=
  refill_watermark_loop alloc_slot cspace used 0 (Z.to_nat WATERMARK_SLOTS).

(** Both [memset]s zero the page; then the three fields are set. *)
Definition init_bot_lvl_node (cspace node untyped frame : Z) : MS unit :=
  do* node_write cspace node (fun _ => zero_bot_lvl_node) in
  do* cs_write cspace (fun c => cs_set_n_nodes (n_bot_lvl_nodes c + 1) c) in
  node_write cspace node (fun n => mkBotLvlNode 0 untyped frame (cnodes n)).

(** [bot_lvl_nodes[node] = addr]: a fresh page, or [NULL]. *)
Definition set_node_ptr (cspace node addr : Z) : MS unit :=
  cs_write cspace (fun c => cs_set_nodes
    (if addr =? 0 then delete node (bot_lvl_nodes c)
     else <[node := zero_bot_lvl_node]> (bot_lvl_nodes c)) c).

(** The first half of [ensure_levels]: the bookkeeping frame of [node]. *)
Definition ensure_node (alloc_slot : Z -> MS Z) (cspace node used : Z) : MS (bool * Z) :=
  let* c := cs_read cspace in
  if n_bot_lvl_nodes c <=? node then
    let* frame := of_option OutOfBounds (watermark c !! Z.to_nat MAPPING_SLOTS) in
    let used := Z.lor used (BIT MAPPING_SLOTS) in
    let* untyped := retype_helper cspace seL4_ARM_SmallPageObject frame in
    if untyped =? 0 then ret (false, used)
    else
      let* c := cs_read cspace in
      let* '(addr, used) := map_frame_cb alloc_slot (cs_alloc c) frame (watermark c) used in
      do* set_node_ptr cspace node addr in
      if addr =? 0 then
        do* cspace_delete cspace frame in
        do* free_4k_untyped (cs_alloc c) untyped in
        ret (false, Z.land used (lnot64 (BIT MAPPING_SLOTS)))
      else
        do* init_bot_lvl_node cspace node untyped frame in
        ret (true, used)
  else ret (true, used).

(** The second half: the CNode itself. *)
Definition ensure_cnode (cspace cptr : Z) : MS bool :=
  let node := NODE_INDEX cptr in
  let cnode := CNODE_INDEX cptr in
  let* c := cs_read cspace in
  do* assert_ (bool_decide (is_Some (bot_lvl_nodes c !! node))) in
  let* n := node_read cspace node in
  if n_cnodes n <=? cnode then
    let* '(ut, ut_cptr) := alloc_4k_untyped (cs_alloc c) in
    do* bot_lvl_write cspace node cnode (fun b => mkBotLvl (bl_bf b) ut) in
    if ut =? 0 then ret false
    else
      let* err := call (Untyped_Retype ut_cptr seL4_CapTableObject
                          (CNODE_SLOT_BITS CNODE_SIZE_BITS) (root_cnode c) 0 0
                          (TOP_LVL_INDEX cptr) 1) in
      if negb (err =? 0) then
        let* b := bot_lvl_read cspace node cnode in
        do* free_4k_untyped (cs_alloc c) (bl_untyped b) in ret false
      else
        do* node_write cspace node (fun n => node_set_n_cnodes (n_cnodes n + 1) n) in
        ret true
  else ret true.

Definition ensure_levels (alloc_slot : Z -> MS Z) (cspace cptr used : Z) : MS (bool * Z) :=
  let* c := cs_read cspace in
  if negb (two_level c) then ret (true, used)
  else
    let node := NODE_INDEX cptr in
    let cspace_size := BIT (CNODE_SLOT_BITS (top_lvl_size_bits c) + CNODE_SLOT_BITS CNODE_SIZE_BITS) in
    if DIV_ROUND_UP cspace_size BOT_LVL_PER_NODE <=? node then ret (false, used)
    else
      let* '(ok, used) := ensure_node alloc_slot cspace node used in
      if negb ok then ret (false, used)
      else
        let* ok := ensure_cnode cspace cptr in
        ret (ok, used).

(** *** Slots *)

(** Whether [cspace_alloc_slot] must create levels for [cptr]. *)
Definition levels_missing (c : cspace_t) (cptr : Z) : MS bool :=
  if n_bot_lvl_nodes c <=? NODE_INDEX cptr then ret true
  else
    let* n := of_option NullDeref (bot_lvl_nodes c !! NODE_INDEX cptr) in
    ret (n_cnodes n <=? CNODE_INDEX cptr).

(** The bottom-level part of [cspace_alloc_slot], from the bottom-level index to
    the refilled watermark. *)
Definition alloc_bot_slot (alloc_slot : Z -> MS Z) (cspace top_index cptr used : Z) : MS Z :=
  let node := NODE_INDEX cptr in
  let cnode := CNODE_INDEX cptr in
  let words := Z.to_nat (BITFIELD_SIZE CNODE_SIZE_BITS) in
  let* b := bot_lvl_read cspace node cnode in
  let* bot_index := of_option AssertFail (bf_first_free words (bl_bf b) (bl_untyped b)) in
  let* bf := of_option OutOfBounds (bf_set_bit (bl_bf b) bot_index) in
  do* bot_lvl_write cspace node cnode (fun b => mkBotLvl bf (bl_untyped b)) in
  let* first := of_option AssertFail (bf_first_free words bf (bl_untyped b)) in
  do* (if CNODE_SLOTS CNODE_SIZE_BITS - 1 <=? first then
         let* c := cs_read cspace in
         let* top := of_option OutOfBounds (bf_set_bit (top_bf c) top_index) in
         cs_write cspace (cs_set_top_bf top)
       else ret tt) in
  do* refill_watermark alloc_slot cspace used in
  ret (cptr + bot_index).

Definition cspace_alloc_slot_body (alloc_slot : Z -> MS Z) (cspace : Z) : MS Z :=
  do* assert_ (negb (cspace =? 0)) in
  let* c := cs_read cspace in
  let slots := CNODE_SLOTS (top_lvl_size_bits c) in
  let* top_index := of_option AssertFail
    (bf_first_free (Z.to_nat (BITFIELD_SIZE (top_lvl_size_bits c))) (top_bf c) (top_bf_past c)) in
  if (two_level c && (slots <? top_index)) || (slots <=? top_index) then ret seL4_CapNull
  else if two_level c then
    let cptr := Z.shiftl top_index (CNODE_SLOT_BITS CNODE_SIZE_BITS) in
    let* missing := levels_missing c cptr in
    let* '(ok, used) :=
      (if missing then ensure_levels alloc_slot cspace cptr 0 else ret (true, 0)) in
    if negb ok then ret seL4_CapNull
    else alloc_bot_slot alloc_slot cspace top_index cptr used
  else
    let* top := of_option OutOfBounds (bf_set_bit (top_bf c) top_index) in
    do* cs_write cspace (cs_set_top_bf top) in
    ret top_index.

Fixpoint alloc_slot_fuel (fuel : nat) (cspace : Z) : MS Z :=
  match fuel with
  | O => fail NoFuel
  | S f => cspace_alloc_slot_body (alloc_slot_fuel f) cspace
  end.

Definition alloc_fuel : nat := 2.
Definition cspace_alloc_slot (cspace : Z) : MS Z := alloc_slot_fuel alloc_fuel cspace.

Definition cspace_free_slot (cspace cptr : Z) : MS unit :=
  if cptr =? seL4_CapNull then ret tt
  else
    let* c := cs_read cspace in
    if negb (two_level c) then
      if CNODE_SLOTS (top_lvl_size_bits c) <? cptr then ret tt
      else
        let* top := of_option OutOfBounds (bf_clr_bit (top_bf c) cptr) in
        cs_write cspace (cs_set_top_bf top)
    else
      (* a [cptr] past the bounds is only logged here *)
      let* top := of_option OutOfBounds (bf_clr_bit (top_bf c) (TOP_LVL_INDEX cptr)) in
      do* cs_write cspace (cs_set_top_bf top) in
      let node := NODE_INDEX cptr in
      if node <? n_bot_lvl_nodes c then
        let cnode := CNODE_INDEX cptr in
        let* n := node_read cspace node in
        if cnode <? n_cnodes n then
          let* b := bot_lvl_read cspace node cnode in
          let* bf := of_option OutOfBounds (bf_clr_bit (bl_bf b) (BOT_LVL_INDEX cptr)) in
          bot_lvl_write cspace node cnode (fun b => mkBotLvl bf (bl_untyped b))
        else ret tt
      else ret tt.

(** *** Destroying a cspace *)

Fixpoint destroy_cnodes (cspace : Z) (alloc : option Z) (i j : Z) (n : nat) (last : Z) : MS Z :=
  match n with
  | O => ret last
  | S n' =>
      let* b := bot_lvl_read cspace i j in
      do* free_4k_untyped alloc (bl_untyped b) in
      destroy_cnodes cspace alloc i (j + 1) n' (i * BOT_LVL_PER_NODE + j)
  end.

Fixpoint destroy_nodes (cspace : Z) (alloc : option Z) (i : Z) (n : nat) (last : Z) : MS Z :=
  match n with
  | O => ret last
  | S n' =>
      let* nd := node_read cspace i in
      let* last := destroy_cnodes cspace alloc i 0 (Z.to_nat (n_cnodes nd)) last in
      let* nd := node_read cspace i in
      do* free_4k_untyped alloc (node_untyped nd) in
      do* cspace_delete cspace (node_frame nd) in
      destroy_nodes cspace alloc (i + 1) n' last
  end.

Fixpoint delete_cnodes (root i : Z) (n : nat) : MS unit :=
  match n with
  | O => ret tt
  | S n' =>
      do* call (CNode_Delete root i (seL4_WordBits - (CNODE_SIZE_BITS - seL4_SlotBits))) in
      delete_cnodes root (i + 1) n'
  end.

Definition cspace_destroy (cspace : Z) : MS unit :=
  let* c := cs_read cspace in
  if cs_bootstrap c =? 0 then fail Fatal
  else
    let* last := destroy_nodes cspace (cs_alloc c) 0 (Z.to_nat (n_bot_lvl_nodes c)) 0 in
    do* (if two_level c then delete_cnodes (root_cnode c) 0 (Z.to_nat (last + 1)) else ret tt) in
    do* (if negb (root_cnode c =? seL4_CapNull) then
           do* cspace_delete (cs_bootstrap c) (root_cnode c) in
           cspace_free_slot (cs_bootstrap c) (root_cnode c)
         else ret tt) in
    do* (if negb (cs_untyped c =? 0) then
           let* bc := cs_read (cs_bootstrap c) in
           free_4k_untyped (cs_alloc bc) (cs_untyped c)
         else ret tt) in
    do* (if negb (bot_lvl_nodes_ptr c =? 0)
         then outside (fun k => (tt, free (bot_lvl_nodes_ptr c) k)) else ret tt) in
    if negb (top_bf_ptr c =? 0)
    then outside (fun k => (tt, free (top_bf_ptr c) k)) else ret tt.

(** *** Creating a cspace *)

(** libsel4's [seL4_CNode_CapData_new(guard, guardSize).words[0]]. *)
Definition seL4_CNode_CapData (guard guard_size : Z) : Z :=
  Z.lor (Z.shiftl guard 6) (Z.land guard_size (MASK 6)).

(** [*target] after the [memset] and the first assignments. *)
Definition new_cspace (bootstrap : Z) (two : bool) (alloc : option Z) : cspace_t :=
  mkCspace 0 two CNODE_SIZE_BITS 0 [] 0 0 ∅ 0 0 bootstrap alloc
    (replicate (Z.to_nat WATERMARK_SLOTS) 0).

(** The first bottom-level node of a two-level [target], mapped with the
    allocation functions of [cspace]. *)
Definition create_first_node (cspace target bot_lvl_node : Z) : MS bool :=
  let* untyped := retype_helper cspace seL4_ARM_SmallPageObject bot_lvl_node in
  do* (if negb (untyped =? 0) then
         let* c := cs_read cspace in
         let* '(addr, used) :=
           map_frame_cb cspace_alloc_slot (cs_alloc c) bot_lvl_node (watermark c) 0 in
         do* set_node_ptr target 0 addr in
         refill_watermark cspace_alloc_slot cspace used
       else ret tt) in
  let* t := cs_read target in
  if bool_decide (bot_lvl_nodes t !! 0 = None) || (untyped =? 0) then
    do* cspace_destroy target in
    do* cspace_delete cspace bot_lvl_node in
    do* cspace_free_slot cspace bot_lvl_node in
    ret false
  else
    do* init_bot_lvl_node target 0 untyped bot_lvl_node in
    ret true.

(** The end of [cspace_create]: the null slot and the watermark of [target]. *)
Definition create_finish (cspace target bot_lvl_node : Z) : MS Z :=
  let* null := cspace_alloc_slot target in
  do* assert_ (null =? seL4_CapNull) in
  let* t := cs_read target in
  if two_level t then
    do* refill_watermark cspace_alloc_slot target (MASK WATERMARK_SLOTS) in
    let* slot := cspace_alloc_slot target in
    do* assert_ (negb (slot =? seL4_CapNull)) in
    let* err := cspace_move target slot cspace bot_lvl_node in
    do* assert_ (err =? seL4_NoError) in
    do* node_write target 0 (node_set_frame slot) in
    do* cspace_free_slot cspace bot_lvl_node in
    ret CSPACE_NOERROR
  else ret CSPACE_NOERROR.

Definition cspace_create (cspace target : Z) (two : bool) (alloc : option Z) : MS Z :=
  do* modify (fun s => set_cspaces (<[target := new_cspace cspace two alloc]> (s_cspaces s)) s) in
  let size := BITFIELD_SIZE CNODE_SIZE_BITS in
  let* bf := outside (calloc (8 * size)) in
  let* past := gets (fun s => word_past bf (s_env s)) in
  if bf =? 0 then ret CSPACE_ERROR
  else
  do* cs_write target (cs_set_top_bf_ptr bf (replicate (Z.to_nat size) 0) past) in
  let* nodes := (if two then outside (calloc (BOT_LVL_NODES CNODE_SIZE_BITS * PAGE_SIZE_4K)) else ret 0) in
  do* cs_write target (cs_set_nodes_ptr nodes) in
  if two && (nodes =? 0) then do* cspace_destroy target in ret CSPACE_ERROR
  else
  let* tmp := cspace_alloc_slot cspace in
  if tmp =? seL4_CapNull then do* cspace_destroy target in ret CSPACE_ERROR
  else
  let* untyped := retype_helper cspace seL4_CapTableObject tmp in
  do* cs_write target (cs_set_untyped untyped) in
  if untyped =? 0 then do* cspace_destroy target in ret CSPACE_ERROR
  else
  let depth := seL4_WordBits - CNODE_SLOT_BITS CNODE_SIZE_BITS * (if two then 2 else 1) in
  let guard := seL4_CNode_CapData 0 depth in
  let* root := cspace_alloc_slot cspace in
  do* cs_write target (cs_set_root_cnode root) in
  let* c := cs_read cspace in
  if root_cnode c =? seL4_CapNull then
    do* cspace_free_slot cspace tmp in
    do* cspace_destroy target in ret CSPACE_ERROR
  else
  let* err := cspace_mint cspace root cspace tmp seL4_AllRights guard in
  if negb (err =? 0) then do* cspace_destroy target in ret CSPACE_ERROR
  else
  do* cspace_delete cspace tmp in
  do* cspace_free_slot cspace tmp in
  if two then
    let* bot_lvl_node := cspace_alloc_slot cspace in
    if bot_lvl_node =? seL4_CapNull then do* cspace_destroy target in ret CSPACE_ERROR
    else
      let* ok := create_first_node cspace target bot_lvl_node in
      if negb ok then ret CSPACE_ERROR else create_finish cspace target bot_lvl_node
  else create_finish cspace target 0.

Definition cspace_create_two_level (bootstrap target : Z) (alloc : option Z) : MS Z :=
  cspace_create bootstrap target true alloc.
Definition cspace_create_one_level (bootstrap target : Z) : MS Z :=
  cspace_create bootstrap target false None.
End Ops.
