(* ===== verification/CspaceInv.v ===== *)
(** * The cspace library: invariant and correctness

    What a cspace promises its clients: [cspace_alloc_slot] hands out a slot that
    was free and marks it taken, [cspace_free_slot] gives back exactly that slot,
    and both keep the bookkeeping well formed.  The functions a cspace allocates
    with may fail whenever they like; what is asked of them is the class
    [CspaceAllocLaws]. *)

From S2P Require Import Prelude SosState Bitfield Cspace.

(** ** What the allocation functions promise

    [cb_inv l o s]: the pool of free 4K untypeds is [l] (next one first) and [o]
    are handed out.  Allocating moves the head of the pool to [o], or returns
    [NULL]; freeing moves it back; mapping may consume some from the front.
    None of them touches a cspace.  [cb_fault] are the faults they can end in. *)
Class CspaceAllocLaws (K : Type) `{CspaceAlloc K} := {
  cb_inv : list Z -> gset Z -> sos K -> Prop;
  cb_fault : fault -> Prop;
  cb_inv_cspaces l o cs s : cb_inv l o s -> cb_inv l o (set_cspaces cs s);
  cb_inv_env l o k s : cb_inv l o s -> cb_inv l o (set_env k s);
  cb_alloc_law cookie l o s : cb_inv l o s ->
    wp (cb_alloc_4k_ut cookie) (fun r s' => s_cspaces s' = s_cspaces s /\
      ((fst r = 0 /\ cb_inv l o s') \/
       (exists l', l = fst r :: l' /\ fst r <> 0 /\ 0 <= fst r < ULONG_MAX /\ (fst r ∉ o) /\
          cb_inv l' ({[fst r]} ∪ o) s'))) cb_fault s;
  cb_free_law cookie x l o s : cb_inv l o s -> x ∈ o ->
    wp (cb_free_4k_ut cookie x) (fun _ s' => s_cspaces s' = s_cspaces s /\
      cb_inv (x :: l) (o ∖ {[x]}) s') cb_fault s;
  cb_map_law alloc cookie frame slots used l o s : cb_inv l o s ->
    length slots = Z.to_nat WATERMARK_SLOTS -> 0 <= used < BIT WATERMARK_SLOTS ->
    wp (cb_map_frame alloc cookie frame slots used) (fun r s' => s_cspaces s' = s_cspaces s /\
      0 <= snd r < BIT WATERMARK_SLOTS /\ Z.land (snd r) used = used /\
      exists l1 l', l = l1 ++ l' /\ cb_inv l' (list_to_set l1 ∪ o) s') cb_fault s
}.

(** ** Well-formed bookkeeping *)

Lemma per_node : BOT_LVL_PER_NODE = 169.
Proof. reflexivity. Qed.
Lemma cnode_slots : CNODE_SLOTS CNODE_SIZE_BITS = 128.
Proof. reflexivity. Qed.
Lemma cnode_words : Z.to_nat (BITFIELD_SIZE CNODE_SIZE_BITS) = 2%nat.
Proof. reflexivity. Qed.

(** Number of bits of the top-level bit field. *)
Definition top_slots (c : cspace_t) : Z := CNODE_SLOTS (top_lvl_size_bits c).
Definition top_words (c : cspace_t) : nat := Z.to_nat (BITFIELD_SIZE (top_lvl_size_bits c)).

(** The bookkeeping of bottom-level CNode [t]. *)
Definition get_bl (c : cspace_t) (t : Z) : option bot_lvl_t :=
  match bot_lvl_nodes c !! (t / BOT_LVL_PER_NODE) with
  | Some nd => cnodes nd !! Z.to_nat (t mod BOT_LVL_PER_NODE)
  | None => None
  end.

(** The abstract state of a two-level cspace: which slots are taken. *)
Definition slot_used (c : cspace_t) (cptr : Z) : bool :=
  match get_bl c (cptr / 128) with
  | Some b => bf_test (bl_bf b) (cptr mod 128)
  | None => false
  end.

Definition bl_ok (b : bot_lvl_t) : Prop :=
  bf_wf 2 (bl_bf b) /\ 0 <= bl_untyped b < ULONG_MAX.

(** A bookkeeping node whose first [m] CNodes exist. *)
Definition node_ok (nd : bot_lvl_node_t) (m : Z) : Prop :=
  n_cnodes nd = m /\ length (cnodes nd) = Z.to_nat BOT_LVL_PER_NODE /\
  forall j b, cnodes nd !! j = Some b -> bl_ok b /\ (m <= Z.of_nat j -> bl_bf b = [0; 0]).

(** A two-level cspace with [N] bottom-level CNodes. *)
Record wf2 (c : cspace_t) (N : Z) : Prop := {
  wf_two : two_level c = true;
  wf_bits : 12 <= top_lvl_size_bits c <= 18;
  wf_top : bf_wf (top_words c) (top_bf c);
  wf_past : is_word (top_bf_past c);
  wf_n : 0 <= n_bot_lvl_nodes c /\ 169 * (n_bot_lvl_nodes c - 1) <= N /\
         0 <= N <= 169 * n_bot_lvl_nodes c;
  wf_node i : 0 <= i < n_bot_lvl_nodes c ->
    exists nd, bot_lvl_nodes c !! i = Some nd /\ node_ok nd (Z.min 169 (N - 169 * i));
  wf_dom i : n_bot_lvl_nodes c <= i -> bot_lvl_nodes c !! i = None;
  wf_full t : 0 <= t < top_slots c -> bf_test (top_bf c) t = true -> t < N;
  wf_free t b : 0 <= t < N -> get_bl c t = Some b -> bf_test (top_bf c) t = false ->
    exists k, 0 <= k < 128 /\ bf_test (bl_bf b) k = false;
  wf_water : length (watermark c) = Z.to_nat WATERMARK_SLOTS;
  wf_alloc : is_Some (cs_alloc c) }.

Lemma top_slots_words (c : cspace_t) N : wf2 c N ->
  top_slots c = Z.of_nat (top_words c) * 64 /\ 128 <= top_slots c <= 8192.
Proof.
  intros Hwf. pose proof (wf_bits _ _ Hwf) as Hb.
  unfold top_slots, top_words, BITFIELD_SIZE, CNODE_SLOTS, CNODE_SLOT_BITS, seL4_SlotBits.
  rewrite BIT_pow by lia.
  assert (top_lvl_size_bits c = 12 \/ top_lvl_size_bits c = 13 \/ top_lvl_size_bits c = 14 \/
          top_lvl_size_bits c = 15 \/ top_lvl_size_bits c = 16 \/ top_lvl_size_bits c = 17 \/
          top_lvl_size_bits c = 18) as Hc by lia.
  destruct_or! Hc; rewrite Hc; split; vm_compute; done || lia || (split; done).
Qed.

Lemma wf_get_bl (c : cspace_t) N t : wf2 c N -> 0 <= t < N ->
  exists nd b, bot_lvl_nodes c !! (t / 169) = Some nd /\
    node_ok nd (Z.min 169 (N - 169 * (t / 169))) /\
    cnodes nd !! Z.to_nat (t mod 169) = Some b /\ get_bl c t = Some b /\ bl_ok b.
Proof.
  intros Hwf Ht. pose proof (wf_n _ _ Hwf).
  destruct (wf_node _ _ Hwf (t / 169)) as (nd & Hnd & Hok); [lia |].
  destruct Hok as (Hn & Hl & Hj) eqn:E. clear E. rewrite per_node in Hl.
  destruct (lookup_lt_is_Some_2 (cnodes nd) (Z.to_nat (t mod 169))) as [b Hb]; [lia |].
  exists nd, b. split; [done |]. split; [done |]. split; [done |]. split.
  - unfold get_bl. by rewrite per_node, Hnd.
  - by destruct (Hj _ _ Hb).
Qed.

(** ** Symbolic execution of the primitives

    [st p c l o s0 s]: in [s] the cspace at [p] is [c], all other cspaces are as
    in [s0], and the pool is [l] with [o] handed out. *)
Section Laws.
Context {K : Type} {HE : Env K} {HA : CspaceAlloc K} {HL : CspaceAllocLaws K}.
Implicit Types (s : sos K) (l : list Z) (o : gset Z) (F : fault -> Prop).

Definition st (p : Z) (c : cspace_t) l o s0 s : Prop :=
  s_cspaces s = <[p := c]> (s_cspaces s0) /\ cb_inv l o s.

Lemma st_init p c l o s : s_cspaces s !! p = Some c -> cb_inv l o s -> st p c l o s s.
Proof. intros Hc Hi. split; [|done]. by rewrite insert_id. Qed.

Lemma wp_not_null (p : Z) (Q : unit -> sos K -> Prop) F s :
  p <> 0 -> Q tt s -> wp (assert_ (negb (p =? 0))) Q F s.
Proof. intros Hp HQ. rewrite wp_assert. by destruct (Z.eqb_spec p 0). Qed.

Lemma wp_cs_read p c l o s0 s Q F : st p c l o s0 s -> Q c s -> wp (cs_read p) Q F s.
Proof.
  intros [Hs _] HQ. unfold cs_read. wp_steps. by rewrite Hs, lookup_insert_eq.
Qed.

Lemma wp_cs_write p c l o s0 s f Q F :
  st p c l o s0 s -> (forall s', st p (f c) l o s0 s' -> Q tt s') -> wp (cs_write p f) Q F s.
Proof.
  intros Hst HQ. unfold cs_write. rewrite wp_bind. eapply wp_cs_read; [done |].
  wp_steps. apply HQ. destruct Hst as [Hs Hi]. split.
  - simpl. by rewrite Hs, insert_insert_eq.
  - by apply cb_inv_cspaces.
Qed.

Lemma wp_call_st p c l o s0 s i Q F :
  st p c l o s0 s -> (forall a s', st p c l o s0 s' -> Q a s') -> wp (call i) Q F s.
Proof.
  intros [Hs Hi] HQ. apply wp_call. intros a k. apply HQ. split; [done |]. by apply cb_inv_env.
Qed.

Lemma wp_node_read p c l o s0 s i nd Q F :
  st p c l o s0 s -> bot_lvl_nodes c !! i = Some nd -> Q nd s -> wp (node_read p i) Q F s.
Proof.
  intros Hst Hnd HQ. unfold node_read. rewrite wp_bind. eapply wp_cs_read; [done |].
  wp_steps. by rewrite Hnd.
Qed.

Lemma wp_node_write p c l o s0 s i nd f Q F :
  st p c l o s0 s -> bot_lvl_nodes c !! i = Some nd ->
  (forall s', st p (cs_set_nodes (<[i := f nd]> (bot_lvl_nodes c)) c) l o s0 s' -> Q tt s') ->
  wp (node_write p i f) Q F s.
Proof.
  intros Hst Hnd HQ. unfold node_write. rewrite wp_bind. eapply wp_node_read; [done | done |].
  eapply wp_cs_write; [done |]. done.
Qed.

Lemma wp_bot_lvl_read p c l o s0 s i j nd b Q F :
  st p c l o s0 s -> bot_lvl_nodes c !! i = Some nd -> cnodes nd !! Z.to_nat j = Some b ->
  Q b s -> wp (bot_lvl_read p i j) Q F s.
Proof.
  intros Hst Hnd Hb HQ. unfold bot_lvl_read. rewrite wp_bind. eapply wp_node_read; [done | done |].
  wp_steps. by rewrite Hb.
Qed.

Lemma wp_bot_lvl_write p c l o s0 s i j nd b f Q F :
  st p c l o s0 s -> bot_lvl_nodes c !! i = Some nd -> cnodes nd !! Z.to_nat j = Some b ->
  (forall s', st p (cs_set_nodes (<[i := node_set_cnode j (f b) nd]> (bot_lvl_nodes c)) c) l o s0 s' ->
     Q tt s') ->
  wp (bot_lvl_write p i j f) Q F s.
Proof.
  intros Hst Hnd Hb HQ. unfold bot_lvl_write. rewrite wp_bind.
  eapply wp_bot_lvl_read; [done | done | done |]. eapply wp_node_write; done.
Qed.

Lemma wp_untyped_retype p c l o s0 s ut tg ty sz Q F :
  st p c l o s0 s -> (forall a s', st p c l o s0 s' -> Q a s') ->
  wp (cspace_untyped_retype p ut tg ty sz) Q F s.
Proof.
  intros Hst HQ. unfold cspace_untyped_retype. rewrite wp_bind. eapply wp_cs_read; [done |].
  destruct (two_level c); by eapply wp_call_st.
Qed.

Lemma wp_alloc_4k p c l o s0 s a Q :
  st p c l o s0 s -> is_Some a ->
  (forall cap s', st p c l o s0 s' -> Q (0, cap) s') ->
  (forall x cap l' s', l = x :: l' -> x <> 0 -> 0 <= x < ULONG_MAX -> x ∉ o ->
     st p c l' ({[x]} ∪ o) s0 s' -> Q (x, cap) s') ->
  wp (alloc_4k_untyped a) Q cb_fault s.
Proof.
  intros [Hs Hi] [cookie ->] Hnull Hsome. simpl. eapply wp_mono; [by apply cb_alloc_law | | done].
  intros [x cap] s' [Hc Hr]. simpl in Hr. destruct Hr as [[-> Hi']|(l' & -> & Hx & Hb & Ho & Hi')].
  - apply Hnull. split; [congruence | done].
  - eapply Hsome; try done. split; [congruence | done].
Qed.

Lemma wp_free_4k p c l o s0 s a x Q :
  st p c l o s0 s -> is_Some a -> x ∈ o ->
  (forall s', st p c (x :: l) (o ∖ {[x]}) s0 s' -> Q tt s') ->
  wp (free_4k_untyped a x) Q cb_fault s.
Proof.
  intros [Hs Hi] [cookie ->] Hx HQ. simpl. eapply wp_mono; [by apply cb_free_law | | done].
  intros [] s' [Hc Hi']. apply HQ. split; [congruence | done].
Qed.
End Laws.

(** ** Changing the bookkeeping of one CNode *)

Lemma get_bl_write (c : cspace_t) (t t' : Z) nd b' :
  0 <= t -> 0 <= t' -> bot_lvl_nodes c !! (t / 169) = Some nd -> length (cnodes nd) = 169%nat ->
  get_bl (cs_set_nodes (<[t / 169 := node_set_cnode (t mod 169) b' nd]> (bot_lvl_nodes c)) c) t'
  = if decide (t' = t) then Some b' else get_bl c t'.
Proof.
  intros Ht Ht' Hnd Hl. unfold get_bl. rewrite per_node. simpl. rewrite lookup_insert.
  case_decide as E.
  - rewrite <- E, Hnd. simpl. case_decide as E'.
    + subst. apply list_lookup_insert_eq. lia.
    + apply list_lookup_insert_ne. lia.
  - rewrite decide_False; [done |]. by intros ->.
Qed.

Lemma node_ok_write nd m j b b' :
  node_ok nd m -> cnodes nd !! Z.to_nat j = Some b -> bl_ok b' -> 0 <= j < m ->
  node_ok (node_set_cnode j b' nd) m.
Proof.
  intros (Hn & Hl & Hj) Hb Hok Hjm. split; [done |]. split; [simpl; by rewrite length_insert |].
  intros i b0. simpl. intros [(E & -> & _)|[Hne Hi]]%list_lookup_insert_Some; [|by apply Hj].
  split; [done |]. lia.
Qed.

(** New bookkeeping [b'] for CNode [t] and a new top-level bit field [top']. *)
Lemma wf2_write (c : cspace_t) N t nd b b' top' :
  wf2 c N -> 0 <= t < N -> bot_lvl_nodes c !! (t / 169) = Some nd ->
  cnodes nd !! Z.to_nat (t mod 169) = Some b -> bl_ok b' ->
  bf_wf (top_words c) top' ->
  (forall t', 0 <= t' -> t' <> t -> bf_test top' t' = bf_test (top_bf c) t') ->
  (bf_test top' t = false -> exists k, 0 <= k < 128 /\ bf_test (bl_bf b') k = false) ->
  wf2 (cs_set_top_bf top' (cs_set_nodes
        (<[t / 169 := node_set_cnode (t mod 169) b' nd]> (bot_lvl_nodes c)) c)) N.
Proof.
  intros Hwf Ht Hnd Hb Hok Htop Hsame Hfree. pose proof (wf_n _ _ Hwf) as Hn.
  destruct (wf_get_bl _ _ _ Hwf Ht) as (nd' & b0 & Hnd' & Hnok & _).
  rewrite Hnd in Hnd'. injection Hnd' as <-.
  assert (length (cnodes nd) = 169%nat) as Hl by apply Hnok.
  destruct Hwf as [W1 W2 W3 W4 W5 W6 W6' W7 W8 W9 W10]. split; try done; simpl in *.
  - intros i Hi. destruct (W6 i Hi) as (n & Hn1 & Hn2). rewrite lookup_insert. case_decide as E.
    + subst i. eexists. split; [done |]. simplify_eq. eapply node_ok_write; try done. lia.
    + by exists n.
  - intros i Hi. rewrite lookup_insert_ne by lia. by apply W6'.
  - intros t' Ht' Hset. destruct (decide (t' = t)) as [->|]; [lia |].
    apply W7; [done |]. by rewrite <- Hsame by lia.
  - intros t' b1 Ht' Hg. change (get_bl (cs_set_nodes (<[t / 169 := node_set_cnode (t mod 169) b' nd]>
      (bot_lvl_nodes c)) c) t' = Some b1) in Hg.
    rewrite get_bl_write in Hg by (done || lia). case_decide; simplify_eq; [done |].
    rewrite Hsame by lia. by apply W8.
Qed.

Lemma cs_set_top_bf_id c : cs_set_top_bf (top_bf c) c = c.
Proof. by destruct c. Qed.

Lemma slot_used_write (c : cspace_t) t nd b' top' x :
  0 <= t -> 0 <= x -> bot_lvl_nodes c !! (t / 169) = Some nd -> length (cnodes nd) = 169%nat ->
  slot_used (cs_set_top_bf top' (cs_set_nodes
        (<[t / 169 := node_set_cnode (t mod 169) b' nd]> (bot_lvl_nodes c)) c)) x
  = if decide (x / 128 = t) then bf_test (bl_bf b') (x mod 128) else slot_used c x.
Proof.
  intros Ht Hx Hnd Hl. unfold slot_used.
  change (get_bl (cs_set_top_bf ?a ?b) ?t) with (get_bl b t).
  rewrite get_bl_write by (done || lia). by case_decide.
Qed.

(** What changes when slot [x] is taken: only the bit fields. *)
Definition taken (c c' : cspace_t) (x : Z) : Prop :=
  slot_used c x = false /\
  (forall y, 0 <= y -> slot_used c' y = if decide (y = x) then true else slot_used c y) /\
  watermark c' = watermark c.

(** Pool bookkeeping over a computation: untypeds only leave the pool. *)
Definition shrinks (l : list Z) (o : gset Z) (l' : list Z) (o' : gset Z) : Prop :=
  l' `sublist_of` l /\ o ⊆ o'.

Lemma shrinks_refl l o : shrinks l o l o.
Proof. done. Qed.
Lemma shrinks_trans l o l1 o1 l2 o2 : shrinks l o l1 o1 -> shrinks l1 o1 l2 o2 -> shrinks l o l2 o2.
Proof. intros [A B] [C D]. split; [by etrans | set_solver]. Qed.
#[export] Hint Resolve shrinks_refl : core.

(** Indices of a slot of CNode [t]. *)
Lemma index_of_slot t k : 0 <= t -> 0 <= k < 128 ->
  NODE_INDEX (t * 128 + k) = t / 169 /\ CNODE_INDEX (t * 128 + k) = t mod 169 /\
  TOP_LVL_INDEX (t * 128 + k) = t /\ BOT_LVL_INDEX (t * 128 + k) = k.
Proof.
  intros Ht Hk. unfold NODE_INDEX, CNODE_INDEX, TOP_LVL_INDEX, BOT_LVL_INDEX, MASK.
  rewrite per_node, cnode_slots, Z.shiftr_div_pow2, Z.land_ones by done.
  change (2 ^ CNODE_SLOT_BITS CNODE_SIZE_BITS) with 128.
  replace ((t * 128 + k) / 128) with t by lia. split_and!; try done. lia.
Qed.

Lemma shiftl_slot t : Z.shiftl t (CNODE_SLOT_BITS CNODE_SIZE_BITS) = t * 128 + 0.
Proof. rewrite Z.shiftl_mul_pow2 by done. change (2 ^ _) with 128. lia. Qed.

(** [first] is the least free bit of [bf]: all slots but perhaps the last are
    taken when it is 127 or more. *)
Lemma first_free_after (bf : list Z) (u : Z) :
  bf_wf 2 bf -> 0 <= u < ULONG_MAX ->
  exists first, bf_first_free 2 bf u = Some first /\
    (first < 127 -> exists k, 0 <= k < 128 /\ bf_test bf k = false) /\
    (forall k, 0 <= k < 128 -> bf_test bf k = false -> first <= k).
Proof.
  intros Hwf Hu.
  destruct (decide (Exists (fun k => bf_test bf (Z.of_nat k) = false) (seq 0 128))) as [Hex|Hex].
  - apply list.Exists_exists in Hex as (k & Hk & Hf). apply elem_of_seq in Hk.
    destruct (bf_first_free_some 2 bf u (Z.of_nat k) Hwf) as (b & Hb & Hbk & Hbf & Hlt); [lia | done |].
    exists b. split; [done |]. split; [intros _; exists b; split; [lia | done] |].
    intros j Hj Hjf. destruct (decide (j < b)); [|lia]. rewrite Hlt in Hjf by lia. done.
  - assert (forall j, 0 <= j < 128 -> bf_test bf j = true) as Hall.
    { intros j Hj. destruct (bf_test bf j) eqn:E; [done |]. destruct Hex.
      apply list.Exists_exists. exists (Z.to_nat j). rewrite Z2Nat.id by lia. split; [|done].
      apply elem_of_seq. lia. }
    rewrite (bf_first_free_none 2) by (done || (unfold is_word, ULONG_MAX in *; lia)).
    rewrite decide_False by lia. eexists. split; [done |]. split; [lia |].
    intros k Hk Hf. rewrite Hall in Hf by lia. done.
Qed.

(** Setting bit [k] of CNode [t] takes slot [t * 128 + k] and no other. *)
Lemma taken_write (c : cspace_t) N t nd b k bf' top' :
  wf2 c N -> 0 <= t < N -> bot_lvl_nodes c !! (t / 169) = Some nd ->
  length (cnodes nd) = 169%nat -> get_bl c t = Some b -> 0 <= k < 128 ->
  bf_test (bl_bf b) k = false ->
  (forall j, 0 <= j -> bf_test bf' j = if decide (j = k) then true else bf_test (bl_bf b) j) ->
  taken c (cs_set_top_bf top' (cs_set_nodes (<[t / 169 :=
    node_set_cnode (t mod 169) (mkBotLvl bf' (bl_untyped b)) nd]> (bot_lvl_nodes c)) c)) (t * 128 + k).
Proof.
  intros Hwf Ht Hnd Hl Hget Hk Hkf Htest. unfold taken. split_and!; [| |done].
  - unfold slot_used. replace ((t * 128 + k) / 128) with t by lia.
    replace ((t * 128 + k) mod 128) with k by lia. by rewrite Hget.
  - intros y Hy. rewrite slot_used_write by (done || lia). simpl. case_decide as E.
    + rewrite Htest by lia. destruct (decide (y mod 128 = k)), (decide (y = t * 128 + k)); try lia.
      unfold slot_used. by rewrite E, Hget.
    + rewrite decide_False by lia. done.
Qed.

(** A CNode with no slot taken gives out slot 0 and keeps free slots. *)
Lemma fresh_cnode_first (bf bf' : list Z) k first :
  bf = [0; 0] ->
  (forall j, 0 <= j < k -> bf_test bf j = true) -> 0 <= k ->
  (forall j, 0 <= j -> bf_test bf' j = if decide (j = k) then true else bf_test bf j) ->
  (forall j, 0 <= j < 128 -> bf_test bf' j = false -> first <= j) ->
  k = 0 /\ first < 127.
Proof.
  intros Hz Hkl Hk Htest Hf2.
  assert (k = 0) as ->.
  { destruct (decide (0 < k)); [|lia]. pose proof (Hkl 0 ltac:(lia)) as Hz0.
    rewrite Hz in Hz0. vm_compute in Hz0. done. }
  split; [done |]. assert (first <= 1); [|lia]. apply Hf2; [lia |].
  rewrite Htest by lia. rewrite decide_False by lia. by rewrite Hz.
Qed.

Section Alloc.
Context {K : Type} {HE : Env K} {HA : CspaceAlloc K} {HL : CspaceAllocLaws K}.
Implicit Types (s : sos K) (l : list Z) (o : gset Z) (F : fault -> Prop).

(** The top-level bit of a CNode is set once its first free slot is [first]. *)
Lemma wp_mark_full p c1 l o s0 s t first Q F :
  st p c1 l o s0 s -> bf_wf (top_words c1) (top_bf c1) -> 0 <= t < Z.of_nat (top_words c1) * 64 ->
  bf_test (top_bf c1) t = false ->
  (forall top' s', st p (cs_set_top_bf top' c1) l o s0 s' -> bf_wf (top_words c1) top' ->
     (forall j, 0 <= j -> j <> t -> bf_test top' j = bf_test (top_bf c1) j) ->
     (bf_test top' t = false <-> first < 127) -> Q tt s') ->
  wp (if CNODE_SLOTS CNODE_SIZE_BITS - 1 <=? first then
        let* c := cs_read p in
        let* top := of_option OutOfBounds (bf_set_bit (top_bf c) t) in
        cs_write p (cs_set_top_bf top)
      else ret tt) Q F s.
Proof.
  intros Hst Hwf Ht Hclr HQ. rewrite cnode_slots. destruct (Z.leb_spec (128 - 1) first) as [Hle|Hgt].
  - rewrite wp_bind. eapply wp_cs_read; [done |]. wp_steps.
    destruct (bf_set_bit_spec _ _ t Hwf) as (top' & Hts & Htwf & Htt); [lia |].
    rewrite Hts. eapply wp_cs_write; [done |]. intros s2 Hst2. eapply HQ; try done.
    + intros j Hj Hne. rewrite Htt by done. by rewrite decide_False.
    + rewrite Htt, decide_True by lia. split; [done | lia].
  - rewrite wp_ret. rewrite <- (cs_set_top_bf_id c1) in Hst. by eapply HQ.
Qed.

(** The bottom-level part takes the least free slot of CNode [t]. *)
Lemma wp_alloc_bot_slot self p c N l o s0 s t used Q F :
  st p c l o s0 s -> wf2 c N -> 0 <= t < N -> t < top_slots c -> bf_test (top_bf c) t = false ->
  (forall c' k s', st p c' l o s0 s' -> wf2 c' N -> 0 <= k < 128 -> taken c c' (t * 128 + k) ->
     (forall b, get_bl c t = Some b -> bl_bf b = [0; 0] ->
        k = 0 /\ bf_test (top_bf c') t = false) ->
     (forall j, 0 <= j < t -> bf_test (top_bf c') j = bf_test (top_bf c) j) ->
     top_slots c' = top_slots c ->
     wp (refill_watermark self p used) (fun _ s'' => Q (t * 128 + k) s'') F s') ->
  wp (alloc_bot_slot self p t (t * 128 + 0) used) Q F s.
Proof.
  intros Hst Hwf Ht Htop Hclr HQ.
  destruct (wf_get_bl _ _ _ Hwf Ht) as (nd & b & Hnd & Hnok & Hb & Hget & Hbf & Hun).
  destruct (wf_free _ _ Hwf t b Ht Hget Hclr) as (k0 & Hk0 & Hk0f).
  destruct (bf_first_free_some 2 (bl_bf b) (bl_untyped b) k0 Hbf) as (k & Hk & Hkr & Hkf & Hkl);
    [lia | done |].
  destruct (bf_set_bit_spec 2 (bl_bf b) k Hbf) as (bf' & Hset & Hbf' & Htest); [lia |].
  destruct (first_free_after bf' (bl_untyped b) Hbf' Hun) as (first & Hfirst & Hf1 & Hf2).
  destruct (index_of_slot t 0) as (I1 & I2 & _); [lia | lia |].
  unfold alloc_bot_slot. rewrite I1, I2, cnode_words, wp_bind.
  eapply wp_bot_lvl_read; [done | done | done |]. wp_steps. rewrite Hk. wp_steps. rewrite Hset.
  rewrite wp_bind. eapply wp_bot_lvl_write; [done | done | done |]. intros s1 Hst1.
  wp_steps. rewrite Hfirst. rewrite wp_bind.
  destruct (top_slots_words _ _ Hwf) as [Htw _].
  eapply wp_mark_full; [done | apply (wf_top _ _ Hwf) | change (top_words (cs_set_nodes _ c)) with
    (top_words c); lia | done |].
  simpl. intros top' s2 Hst2 Htwf Hoth Hfull.
  rewrite wp_bind. setoid_rewrite wp_ret. replace (t * 128 + 0 + k) with (t * 128 + k) by lia.
  eapply HQ; try done.
  - eapply wf2_write; try done. intros Hf. apply Hf1, Hfull, Hf.
  - lia.
  - eapply taken_write; try done; [apply Hnok | lia].
  - intros b0 Hb0 Hz. rewrite Hget in Hb0. injection Hb0 as <-.
    destruct (fresh_cnode_first _ bf' k first Hz) as [-> Hlt]; try done; [lia |].
    split; [done | by apply Hfull].
  - intros j Hj. apply Hoth; lia.
Qed.
End Alloc.

(** ** Creating levels *)

#[local] Arguments replicate : simpl never.

(** Two descriptions with the same slots, watermark and top-level bit field. *)
Definition same_slots (c c' : cspace_t) : Prop :=
  (forall x, 0 <= x -> slot_used c' x = slot_used c x) /\
  top_bf c' = top_bf c /\ top_bf_past c' = top_bf_past c /\
  top_lvl_size_bits c' = top_lvl_size_bits c /\ watermark c' = watermark c.

#[export] Instance same_slots_preorder : PreOrder same_slots.
Proof.
  unfold same_slots. split; [by intros c |].
  intros c1 c2 c3 (A1 & A2 & A3 & A4 & A5) (B1 & B2 & B3 & B4 & B5).
  split_and!; try congruence. intros x Hx. rewrite B1, A1 by done. done.
Qed.

(** A fresh node [nd] without CNodes as the next entry. *)
Definition add_node (c : cspace_t) (nd : bot_lvl_node_t) : cspace_t :=
  cs_set_n_nodes (n_bot_lvl_nodes c + 1)
    (cs_set_nodes (<[n_bot_lvl_nodes c := nd]> (bot_lvl_nodes c)) c).

Definition fresh_node (untyped frame : Z) : bot_lvl_node_t :=
  mkBotLvlNode 0 untyped frame (cnodes zero_bot_lvl_node).

Lemma fresh_node_ok untyped frame : node_ok (fresh_node untyped frame) 0.
Proof.
  split; [done |]. split; [done |]. intros j b Hb.
  simpl in Hb. apply lookup_replicate in Hb as [-> _].
  split; [|done]. split; [split; [done |] |].
  - repeat constructor; done.
  - done.
Qed.

Lemma fresh_get_bl c untyped frame t :
  0 <= n_bot_lvl_nodes c -> 0 <= t -> bot_lvl_nodes c !! n_bot_lvl_nodes c = None ->
  get_bl (add_node c (fresh_node untyped frame)) t
  = if decide (t / 169 = n_bot_lvl_nodes c) then Some zero_bot_lvl else get_bl c t.
Proof.
  intros Hn Ht Hnone. unfold get_bl. rewrite per_node. simpl. rewrite lookup_insert.
  case_decide as E; [|by rewrite decide_False].
  rewrite decide_True by done. simpl. apply lookup_replicate. split; [done |].
  change (Z.to_nat BOT_LVL_PER_NODE) with 169%nat. lia.
Qed.

Lemma wf2_add_node c N untyped frame :
  wf2 c N -> N = 169 * n_bot_lvl_nodes c ->
  wf2 (add_node c (fresh_node untyped frame)) N /\
  same_slots c (add_node c (fresh_node untyped frame)).
Proof.
  intros Hwf HN. pose proof (wf_n _ _ Hwf) as Hn.
  pose proof (wf_dom _ _ Hwf (n_bot_lvl_nodes c) ltac:(lia)) as Hnone.
  split.
  - destruct Hwf as [W1 W2 W3 W4 W5 W6 W6' W7 W8 W9 W10]. split; try done; simpl in *.
    + lia.
    + intros i Hi. rewrite lookup_insert. case_decide as E.
      * subst i. eexists. split; [done |].
        replace (Z.min 169 (N - 169 * n_bot_lvl_nodes c)) with 0 by lia. apply fresh_node_ok.
      * apply W6. lia.
    + intros i Hi. rewrite lookup_insert_ne by lia. apply W6'. lia.
    + intros t b Ht Hg. rewrite fresh_get_bl in Hg by (done || lia).
      rewrite decide_False in Hg by lia. by apply W8.
  - split_and!; try done. intros x Hx. unfold slot_used.
    rewrite fresh_get_bl by (done || lia). case_decide as E; [|done].
    unfold get_bl. rewrite per_node, E, Hnone. apply (bf_test_zero 2).
Qed.

(** Recording the untyped of CNode [N], before it is counted. *)
Definition note_untyped (c : cspace_t) (N ut : Z) (nd : bot_lvl_node_t) (b : bot_lvl_t) : cspace_t :=
  cs_set_nodes (<[N / 169 := node_set_cnode (N mod 169) (mkBotLvl (bl_bf b) ut) nd]>
    (bot_lvl_nodes c)) c.

(** Counting it. *)
Definition count_cnode (c : cspace_t) (N : Z) (nd : bot_lvl_node_t) : cspace_t :=
  cs_set_nodes (<[N / 169 := node_set_n_cnodes (n_cnodes nd + 1) nd]> (bot_lvl_nodes c)) c.

Lemma wf2_next_node c N : wf2 c N -> N < 169 * n_bot_lvl_nodes c ->
  exists nd b, bot_lvl_nodes c !! (N / 169) = Some nd /\ node_ok nd (N mod 169) /\
    cnodes nd !! Z.to_nat (N mod 169) = Some b /\ bl_ok b /\ bl_bf b = [0; 0].
Proof.
  intros Hwf HN. pose proof (wf_n _ _ Hwf) as Hn.
  destruct (wf_node _ _ Hwf (N / 169)) as (nd & Hnd & Hok); [lia |].
  replace (Z.min 169 (N - 169 * (N / 169))) with (N mod 169) in Hok by lia.
  destruct (lookup_lt_is_Some_2 (cnodes nd) (Z.to_nat (N mod 169))) as [b Hb].
  { destruct Hok as (_ & -> & _). rewrite per_node. lia. }
  exists nd, b. split; [done |]. split; [done |]. split; [done |].
  destruct Hok as (_ & _ & Hj). destruct (Hj _ _ Hb) as [? Hz]. split; [done |]. apply Hz. lia.
Qed.

Lemma wf2_note_untyped c N ut nd b :
  wf2 c N -> N < 169 * n_bot_lvl_nodes c -> bot_lvl_nodes c !! (N / 169) = Some nd ->
  cnodes nd !! Z.to_nat (N mod 169) = Some b -> 0 <= ut < ULONG_MAX ->
  wf2 (note_untyped c N ut nd b) N /\ same_slots c (note_untyped c N ut nd b).
Proof.
  intros Hwf HN Hnd Hb Hut. pose proof (wf_n _ _ Hwf) as Hn.
  destruct (wf2_next_node _ _ Hwf HN) as (nd' & b' & Hnd' & Hnok & Hb' & [Hbf _] & Hz).
  rewrite Hnd in Hnd'. injection Hnd' as <-. rewrite Hb in Hb'. injection Hb' as <-.
  assert (length (cnodes nd) = 169%nat) as Hl by apply Hnok.
  assert (forall t, 0 <= t -> get_bl (note_untyped c N ut nd b) t
          = if decide (t = N) then Some (mkBotLvl (bl_bf b) ut) else get_bl c t) as Hget.
  { intros t Ht. apply get_bl_write; done || lia. }
  split.
  - destruct Hwf as [W1 W2 W3 W4 W5 W6 W6' W7 W8 W9 W10]. split; try done; simpl in *.
    + intros i Hi. rewrite lookup_insert. case_decide as E; [|by apply W6].
      subst i. eexists. split; [done |].
      replace (Z.min 169 (N - 169 * (N / 169))) with (N mod 169) by lia.
      destruct Hnok as (H1 & H2 & H3). split; [done |]. split; [simpl; by rewrite length_insert |].
      intros j b1. simpl. intros [(E & <- & _)|[Hne Hj]]%list_lookup_insert_Some; [|by apply H3].
      done.
    + intros i Hi. rewrite lookup_insert_ne by lia. by apply W6'.
    + intros t b1 Ht. rewrite Hget, decide_False by lia. by apply W8.
  - split_and!; try done. intros x Hx. unfold slot_used. rewrite Hget by lia.
    case_decide as E; [|done]. unfold get_bl. by rewrite per_node, E, Hnd, Hb.
Qed.

Lemma wf2_count_cnode c N nd :
  wf2 c N -> N < 169 * n_bot_lvl_nodes c -> bot_lvl_nodes c !! (N / 169) = Some nd ->
  wf2 (count_cnode c N nd) (N + 1) /\ same_slots c (count_cnode c N nd) /\
  exists b, get_bl (count_cnode c N nd) N = Some b /\ bl_bf b = [0; 0].
Proof.
  intros Hwf HN Hnd. pose proof (wf_n _ _ Hwf) as Hn.
  destruct (wf2_next_node _ _ Hwf HN) as (nd' & b & Hnd' & Hnok & Hb & Hbok & Hz).
  rewrite Hnd in Hnd'. injection Hnd' as <-.
  assert (forall t, get_bl (count_cnode c N nd) t = get_bl c t) as Hget.
  { intros t. unfold get_bl, count_cnode. simpl. rewrite lookup_insert.
    case_decide as E; [|done]. rewrite per_node in *. by rewrite <- E, Hnd. }
  assert (get_bl c N = Some b) as HgN by (unfold get_bl; by rewrite per_node, Hnd).
  split; [|split].
  - destruct Hwf as [W1 W2 W3 W4 W5 W6 W6' W7 W8 W9 W10]. split; try done; simpl in *.
    + lia.
    + intros i Hi. rewrite lookup_insert. case_decide as E.
      * subst i. eexists. split; [done |].
        replace (Z.min 169 (N + 1 - 169 * (N / 169))) with (N mod 169 + 1) by lia.
        destruct Hnok as (H1 & H2 & H3). split; [simpl; lia |]. split; [done |].
        intros j b1 Hj. destruct (H3 _ _ Hj) as [? Hj']. split; [done |]. intros. apply Hj'. lia.
      * destruct (W6 i Hi) as (n & ? & ?). exists n. split; [done |].
        by replace (Z.min 169 (N + 1 - 169 * i)) with (Z.min 169 (N - 169 * i)) by lia.
    + intros i Hi. rewrite lookup_insert_ne by lia. by apply W6'.
    + intros t Ht Hf. specialize (W7 t Ht Hf). lia.
    + intros t b1 Ht. rewrite Hget. intros Hb1 Hf.
      destruct (decide (t = N)) as [->|]; [|apply (W8 t); done || lia].
      rewrite HgN in Hb1. injection Hb1 as <-. exists 0. split; [lia |]. by rewrite Hz.
  - unfold same_slots. split_and!; try done. intros x Hx. unfold slot_used. by rewrite Hget.
  - exists b. by rewrite Hget.
Qed.

Section Levels.
Context {K : Type} {HE : Env K} {HA : CspaceAlloc K} {HL : CspaceAllocLaws K}.
Implicit Types (s : sos K) (l : list Z) (o : gset Z).

Lemma wp_cspace_delete p c l o s0 s cptr Q F :
  st p c l o s0 s -> (forall a s', st p c l o s0 s' -> Q a s') -> wp (cspace_delete p cptr) Q F s.
Proof.
  intros Hst HQ. unfold cspace_delete. rewrite wp_bind. eapply wp_cs_read; [done |].
  by eapply wp_call_st.
Qed.

(** A failed retype gives the untyped back. *)
Lemma wp_retype_helper p c l o s0 s type cptr Q :
  st p c l o s0 s -> is_Some (cs_alloc c) ->
  (forall s', st p c l o s0 s' -> Q 0 s') ->
  (forall x l' s', l = x :: l' -> x <> 0 -> 0 <= x < ULONG_MAX -> x ∉ o ->
     st p c l' ({[x]} ∪ o) s0 s' -> Q x s') ->
  wp (retype_helper p type cptr) Q cb_fault s.
Proof.
  intros Hst Ha Hnull Hsome. unfold retype_helper. rewrite wp_bind. eapply wp_cs_read; [done |].
  rewrite wp_bind. eapply wp_alloc_4k; [done | done | |].
  { intros cap s' Hst'. simpl. wp_steps. by apply Hnull. }
  intros x cap l' s' -> Hx Hb Ho Hst'.
  destruct (Z.eqb_spec x 0); [done |]. rewrite wp_bind.
  eapply wp_untyped_retype; [done |]. intros err s1 Hst1.
  destruct (negb (err =? seL4_NoError)).
  - rewrite wp_bind. eapply wp_free_4k; [done | done | set_solver |]. intros s2 Hst2. wp_steps.
    apply Hnull. replace (({[x]} ∪ o) ∖ {[x]}) with o in Hst2 by set_solver. done.
  - wp_steps. by eapply Hsome.
Qed.

(** The node of CNode [N]: present, created, or not to be had. *)
Lemma wp_ensure_node self p c N l o s0 s Q :
  st p c l o s0 s -> wf2 c N ->
  (forall ok used c' l' o' s', st p c' l' o' s0 s' -> wf2 c' N -> same_slots c c' ->
     0 <= used < BIT WATERMARK_SLOTS -> shrinks l o l' o' ->
     (ok = true -> N < 169 * n_bot_lvl_nodes c') -> Q (ok, used) s') ->
  wp (ensure_node self p (N / 169) 0) Q cb_fault s.
Proof.
  intros Hst Hwf HQ. pose proof (wf_n _ _ Hwf) as Hn. pose proof (wf_water _ _ Hwf) as Hw.
  pose proof (wf_alloc _ _ Hwf) as Ha.
  unfold ensure_node. rewrite wp_bind. eapply wp_cs_read; [done |].
  destruct (Z.leb_spec (n_bot_lvl_nodes c) (N / 169)) as [Hle|Hgt]; last first.
  { wp_steps. eapply HQ; try done. intros _. lia. }
  assert (N = 169 * n_bot_lvl_nodes c) as HN by lia.
  assert (N / 169 = n_bot_lvl_nodes c) as Hidx by lia. rewrite Hidx.
  destruct (lookup_lt_is_Some_2 (watermark c) (Z.to_nat MAPPING_SLOTS)) as [frame Hframe].
  { rewrite Hw. apply Nat.ltb_lt. done. }
  wp_steps. rewrite Hframe, wp_bind.
  eapply wp_retype_helper; [done | done | |].
  { intros s1 Hst1. simpl. wp_steps. eapply HQ; try done. }
  intros x l1 s1 -> Hx Hb Ho Hst1. destruct (Z.eqb_spec x 0); [done |].
  rewrite wp_bind. eapply wp_cs_read; [done |]. destruct Ha as [cookie Ha]. rewrite wp_bind.
  destruct Hst1 as [Hs1 Hi1]. rewrite Ha. simpl.
  eapply wp_mono; [by apply cb_map_law; [done | | done] | | done].
  intros [addr used] s2 (Hs2 & Hu & _ & l2 & l3 & -> & Hi2). simpl in Hu. rewrite Hs1 in Hs2.
  assert (st p c l3 (list_to_set l2 ∪ ({[x]} ∪ o)) s0 s2) as Hst2 by done.
  rewrite wp_bind. eapply wp_cs_write; [done |]. intros s3 Hst3.
  destruct (Z.eqb_spec addr 0) as [->|Haddr].
  - rewrite delete_id in Hst3 by (apply (wf_dom _ _ Hwf); lia).
    replace (cs_set_nodes (bot_lvl_nodes c) c) with c in Hst3 by by destruct c.
    rewrite wp_bind. eapply wp_cspace_delete; [done |]. intros _ s4 Hst4.
    rewrite wp_bind. eapply wp_free_4k with (a := Some cookie); [done | done | set_solver |]. intros s5 Hst5.
    wp_steps. eapply HQ; try done.
    + by apply (land_lt_pow2 _ _ 4).
    + split; [|set_solver]. apply sublist_skip, sublist_inserts_l. done.
  - unfold init_bot_lvl_node. rewrite !wp_bind.
    eapply wp_node_write; [done | apply lookup_insert_eq |]. intros s4 Hst4.
    rewrite wp_bind. eapply wp_cs_write; [done |]. intros s5 Hst5.
    eapply wp_node_write; [done | apply lookup_insert_eq |]. intros s6 Hst6.
    wp_steps. simpl in Hst6. rewrite !insert_insert_eq in Hst6.
    destruct (wf2_add_node c N x frame Hwf HN) as [Hwf' Hsame].
    eapply (HQ true used _ _ _ _ Hst6); try done.
    + split; [|set_solver]. apply sublist_cons, sublist_inserts_l. done.
    + intros _. simpl. lia.
Qed.

(** CNode [N] itself. *)
Lemma wp_ensure_cnode p c N l o s0 s Q :
  st p c l o s0 s -> wf2 c N -> N < 169 * n_bot_lvl_nodes c -> 
  (forall c' l' o' s', st p c' l' o' s0 s' -> wf2 c' N -> same_slots c c' ->
     shrinks l o l' o' -> Q false s') ->
  (forall c' l' o' s' b, st p c' l' o' s0 s' -> wf2 c' (N + 1) -> same_slots c c' ->
     shrinks l o l' o' -> get_bl c' N = Some b -> bl_bf b = [0; 0] -> Q true s') ->
  wp (ensure_cnode p (N * 128 + 0)) Q cb_fault s.
Proof.
  intros Hst Hwf HN Hno Hyes. pose proof (wf_n _ _ Hwf) as Hn. pose proof (wf_alloc _ _ Hwf) as Ha.
  destruct (wf2_next_node _ _ Hwf HN) as (nd & b & Hnd & Hnok & Hb & Hbok & Hz).
  destruct (index_of_slot N 0) as (I1 & I2 & _); [lia | lia |].
  unfold ensure_cnode. rewrite I1, I2, wp_bind. eapply wp_cs_read; [done |].
  wp_steps. rewrite bool_decide_eq_true_2 by by rewrite Hnd.
  rewrite wp_bind. eapply wp_node_read; [done | done |].
  destruct (Z.leb_spec (n_cnodes nd) (N mod 169)) as [_|Hgt]; last first.
  { destruct Hnok as [Hnn _]. lia. }
  rewrite wp_bind. eapply wp_alloc_4k; [done | done | |].
  { intros cap s1 Hst1. rewrite wp_bind. eapply wp_bot_lvl_write; [done | done | done |].
    intros s2 Hst2. simpl. wp_steps.
    destruct (wf2_note_untyped c N 0 nd b Hwf HN Hnd Hb) as [Hwf' Hsame]; [done |].
    by eapply Hno. }
  intros x cap l' s1 -> Hx Hxb Ho Hst1. rewrite wp_bind.
  eapply wp_bot_lvl_write; [done | done | done |]. intros s2 Hst2.
  destruct (wf2_note_untyped c N x nd b Hwf HN Hnd Hb) as [Hwf' Hsame]; [lia |].
  destruct (Z.eqb_spec x 0); [done |]. rewrite wp_bind. eapply wp_call_st; [done |].
  intros err s3 Hst3. fold (note_untyped c N x nd b) in *.
  assert (bot_lvl_nodes (note_untyped c N x nd b) !! (N / 169)
          = Some (node_set_cnode (N mod 169) (mkBotLvl (bl_bf b) x) nd)) as Hnd'.
  { apply lookup_insert_eq. }
  destruct (negb (err =? 0)).
  - rewrite wp_bind. eapply wp_bot_lvl_read; [done | done | |].
    { apply list_lookup_insert_eq. by eapply lookup_lt_Some. }
    rewrite wp_bind. eapply wp_free_4k; [done | done | simpl; set_solver |]. intros s4 Hst4. wp_steps.
    eapply Hno; try done. split; [done |]. simpl. set_solver.
  - rewrite wp_bind. eapply wp_node_write; [done | done |]. intros s4 Hst4. wp_steps.
    destruct (wf2_count_cnode _ N _ Hwf' HN Hnd') as (Hwf2 & Hsame2 & b' & Hb' & Hz').
    eapply Hyes; try done; [by etrans |]. split; [by apply sublist_cons | set_solver].
Qed.
(** Both levels of CNode [N], the next one. *)
Lemma wp_ensure_levels self p c N l o s0 s Q :
  st p c l o s0 s -> wf2 c N -> N < top_slots c ->
  (forall c' l' o' s' used, st p c' l' o' s0 s' -> wf2 c' N -> same_slots c c' ->
     shrinks l o l' o' -> Q (false, used) s') ->
  (forall c' l' o' s' used b, st p c' l' o' s0 s' -> wf2 c' (N + 1) -> same_slots c c' ->
     shrinks l o l' o' -> 0 <= used < BIT WATERMARK_SLOTS ->
     get_bl c' N = Some b -> bl_bf b = [0; 0] -> Q (true, used) s') ->
  wp (ensure_levels self p (N * 128 + 0) 0) Q cb_fault s.
Proof.
  intros Hst Hwf HN Hno Hyes. pose proof (wf_n _ _ Hwf) as Hn. pose proof (wf_bits _ _ Hwf) as Hbits.
  destruct (index_of_slot N 0) as (I1 & _); [lia | lia |].
  unfold ensure_levels. rewrite wp_bind. eapply wp_cs_read; [done |].
  rewrite (wf_two _ _ Hwf). cbn [negb]. cbv zeta. rewrite I1.
  assert (BIT (CNODE_SLOT_BITS (top_lvl_size_bits c) + CNODE_SLOT_BITS CNODE_SIZE_BITS)
          = top_slots c * 128) as ->.
  { unfold top_slots, CNODE_SLOTS. change (CNODE_SLOT_BITS CNODE_SIZE_BITS) with 7.
    unfold CNODE_SLOT_BITS, seL4_SlotBits. rewrite !BIT_pow, Z.pow_add_r by lia. lia. }
  unfold DIV_ROUND_UP. rewrite per_node.
  destruct (Z.leb_spec (top_slots c * 128 / 169
    + (if top_slots c * 128 mod 169 =? 0 then 0 else 1)) (N / 169)) as [Hle|_].
  { exfalso. destruct (top_slots_words _ _ Hwf) as [_ Hts]. destruct (_ =? _); lia. }
  rewrite wp_bind. eapply wp_ensure_node; [done | done |].
  intros ok used c1 l1 o1 s1 Hst1 Hwf1 Hsame1 Hu Hsh1 Hok. destruct ok; simpl; last first.
  { wp_steps. by eapply Hno. }
  rewrite wp_bind. eapply wp_ensure_cnode; [done | done | by apply Hok | |].
  - intros c2 l2 o2 s2 Hst2 Hwf2 Hsame2 Hsh2. wp_steps.
    eapply Hno; try done; [by etrans | by eapply shrinks_trans].
  - intros c2 l2 o2 s2 b Hst2 Hwf2 Hsame2 Hsh2 Hb Hz. wp_steps.
    eapply Hyes; try done; [by etrans | by eapply shrinks_trans].
Qed.
End Levels.

(** ** Allocating a slot of a two-level cspace *)

(** Slots [xs] are taken between [c] and [c'], and no other slot changes. *)
Definition takes (c c' : cspace_t) (xs : list Z) : Prop :=
  NoDup xs /\ (forall x, x ∈ xs -> 0 <= x < top_slots c * 128 /\ slot_used c x = false) /\
  (forall y, 0 <= y -> slot_used c' y = bool_decide (y ∈ xs) || slot_used c y).

(** What [cspace_alloc_slot] may do: fail and leave the slots alone, take the
    slot it returns, or take it as the first slot of a new CNode and also put
    the second one into the watermark. *)
Inductive alloc_outcome (c c' : cspace_t) (r : Z) : Prop :=
  | alloc_failed : r = seL4_CapNull -> same_slots c c' -> alloc_outcome c c' r
  | alloc_took : takes c c' [r] -> watermark c' = watermark c -> alloc_outcome c c' r
  | alloc_refilled i w : takes c c' [r; w] -> (i < 4)%nat ->
      watermark c' = <[i := w]> (watermark c) -> alloc_outcome c c' r.

Definition top_full (c : cspace_t) : Prop :=
  forall t, 0 <= t < top_slots c -> bf_test (top_bf c) t = true.

(** The first CNode that is not full, if there is one. *)
Lemma top_first_free c N : wf2 c N ->
  (exists t, bf_first_free (top_words c) (top_bf c) (top_bf_past c) = Some t /\
     0 <= t < top_slots c /\ t <= N /\ bf_test (top_bf c) t = false /\
     (forall j, 0 <= j < t -> bf_test (top_bf c) j = true)) \/
  (top_full c /\ bf_first_free (top_words c) (top_bf c) (top_bf_past c)
     = if decide (top_bf_past c = ULONG_MAX) then None else Some (top_slots c)).
Proof.
  intros Hwf. destruct (top_slots_words _ _ Hwf) as [Hts _]. pose proof (wf_n _ _ Hwf) as Hn.
  pose proof (wf_top _ _ Hwf) as Htop.
  destruct (decide (Exists (fun k => bf_test (top_bf c) (Z.of_nat k) = false)
                      (seq 0 (Z.to_nat (top_slots c))))) as [Hex|Hex].
  - left. apply list.Exists_exists in Hex as (k & Hk & Hf). apply elem_of_seq in Hk.
    destruct (bf_first_free_some (top_words c) (top_bf c) (top_bf_past c) (Z.of_nat k) Htop)
      as (t & Ht & Htk & Htf & Hlt); [lia | done |].
    exists t. split_and!; try done; try lia.
    destruct (decide (t <= N)); [done |].
    pose proof (wf_full _ _ Hwf N ltac:(lia) (Hlt N ltac:(lia))). lia.
  - right. assert (top_full c) as Hfull.
    { intros j Hj. destruct (bf_test (top_bf c) j) eqn:E; [done |]. destruct Hex.
      apply list.Exists_exists. exists (Z.to_nat j). rewrite Z2Nat.id by lia. split; [|done].
      apply elem_of_seq. lia. }
    split; [done |]. rewrite Hts. apply bf_first_free_none; [done | apply (wf_past _ _ Hwf) |].
    intros j Hj. apply Hfull. lia.
Qed.

Lemma takes_one c c' x : 0 <= x < top_slots c * 128 -> taken c c' x -> takes c c' [x].
Proof.
  intros Hx (Hf & Hy & _). split; [apply NoDup_singleton |]. split.
  - by intros y ->%list_elem_of_singleton.
  - intros y Hy0. rewrite Hy by done. case_decide as E.
    + subst. by rewrite bool_decide_eq_true_2 by set_solver.
    + by rewrite bool_decide_eq_false_2 by set_solver.
Qed.

Lemma takes_two c c1 c' x y :
  0 <= x < top_slots c * 128 -> 0 <= y < top_slots c * 128 ->
  taken c c1 x -> taken c1 c' y -> takes c c' [x; y].
Proof.
  intros Hx Hy (Hf & H1 & _) (Hf2 & H2 & _).
  assert (x <> y) as Hne. { intros ->. rewrite H1, decide_True in Hf2 by lia. done. }
  assert (slot_used c y = false) as Hfy by (rewrite H1, decide_False in Hf2 by lia; done).
  split; [|split].
  - repeat (apply list.NoDup_cons; split; [set_solver |]). constructor.
  - intros z [->| ->%list_elem_of_singleton]%list.elem_of_cons; done.
  - intros z Hz. rewrite H2, H1 by done.
    rewrite (bool_decide_ext (z ∈ [x; y]) (z = x \/ z = y)) by set_solver.
    repeat case_decide; case_bool_decide; done || tauto.
Qed.

Lemma takes_same c0 c c' xs : same_slots c0 c -> takes c c' xs -> takes c0 c' xs.
Proof.
  intros (H1 & _ & _ & H2 & _) (T1 & T2 & T3). split; [done |]. split.
  - intros x Hx. destruct (T2 x Hx) as [Hr Hf]. rewrite H1 in Hf by lia.
    unfold top_slots in *. by rewrite <- H2.
  - intros y Hy. by rewrite T3, H1 by done.
Qed.

(** The least bit of [used] is the slot that is refilled. *)
Lemma watermark_bit used : 0 < used < BIT WATERMARK_SLOTS -> 0 <= CTZL used < 4.
Proof.
  intros Hu. split; [apply CTZL_nonneg |]. pose proof (CTZL_set used ltac:(lia)) as Hs.
  destruct (decide (CTZL used < 4)); [done |].
  rewrite (testbit_above used 4) in Hs; [done | | lia]. change (2 ^ 4) with (BIT WATERMARK_SLOTS). lia.
Qed.

Lemma land_BIT_zero x i : 0 <= i -> (Z.land x (BIT i) =? 0) = negb (Z.testbit x i).
Proof.
  intros Hi. destruct (Z.testbit x i) eqn:E; simpl.
  - apply Z.eqb_neq. intros H0. assert (Z.testbit (Z.land x (BIT i)) i = true) as Ht.
    { by rewrite Z.land_spec, E, BIT_testbit, bool_decide_eq_true_2. }
    by rewrite H0, Z.testbit_0_l in Ht.
  - apply Z.eqb_eq. apply Z.bits_inj'. intros j Hj.
    rewrite Z.land_spec, BIT_testbit, Z.testbit_0_l by done.
    case_bool_decide; [subst; by rewrite E | apply andb_false_r].
Qed.

(** The watermark is no part of the invariant but for its length. *)
Lemma wf2_set_watermark c N i w : wf2 c N -> wf2 (cs_set_watermark (<[i := w]> (watermark c)) c) N.
Proof.
  intros Hwf. destruct Hwf as [W1 W2 W3 W4 W5 W6 W6' W7 W8 W9 W10]. split; try done.
  simpl. by rewrite length_insert.
Qed.

(** The next CNode of a well-formed cspace is not there yet. *)
Lemma levels_missing_next {K} c N Q F (s : sos K) : wf2 c N ->
  wp (levels_missing c (N * 128 + 0)) Q F s <-> Q true s.
Proof.
  intros Hwf. pose proof (wf_n _ _ Hwf) as Hn.
  destruct (index_of_slot N 0) as (I1 & I2 & _); [lia | lia |].
  unfold levels_missing. rewrite I1, I2.
  destruct (Z.leb_spec (n_bot_lvl_nodes c) (N / 169)); [done |].
  destruct (wf2_next_node _ _ Hwf) as (nd & b & Hnd & (Hnn & _) & _); [lia |].
  rewrite wp_bind, Hnd, wp_of_option, wp_ret.
  destruct (Z.leb_spec (n_cnodes nd) (N mod 169)); [done | lia].
Qed.

Section AllocSlot.
Context {K : Type} {HE : Env K} {HA : CspaceAlloc K} {HL : CspaceAllocLaws K}.
Implicit Types (s : sos K) (l : list Z) (o : gset Z) (F : fault -> Prop).

Lemma refill_loop_skip (self : Z -> M (sos K) Z) p used n i m :
  0 <= i -> (forall j, i <= j < i + Z.of_nat n -> Z.testbit used j = false) ->
  refill_watermark_loop self p used i (n + m) = refill_watermark_loop self p used (i + Z.of_nat n) m.
Proof.
  revert i. induction n as [|n IH]; intros i Hi Hj; simpl.
  - f_equal. lia.
  - rewrite land_BIT_zero, Hj by lia. simpl. rewrite IH; [f_equal; lia | lia |].
    intros j Hj'. apply Hj. lia.
Qed.

(** Nothing was used: nothing is refilled. *)
Lemma refill_none (self : Z -> M (sos K) Z) p : refill_watermark self p 0 = ret tt.
Proof. reflexivity. Qed.

(** Otherwise the slot of the least bit is. *)
Lemma refill_least (self : Z -> M (sos K) Z) p used : 0 < used < BIT WATERMARK_SLOTS ->
  refill_watermark self p used =
    let* slot := self p in
    cs_write p (fun c => cs_set_watermark (<[Z.to_nat (CTZL used) := slot]> (watermark c)) c).
Proof.
  intros Hu. pose proof (watermark_bit used Hu) as Hi. set (i := Z.to_nat (CTZL used)).
  unfold refill_watermark. replace (Z.to_nat WATERMARK_SLOTS) with (i + (4 - i))%nat
    by (change (Z.to_nat WATERMARK_SLOTS) with 4%nat; lia).
  rewrite refill_loop_skip; [| lia |].
  - destruct (4 - i)%nat as [|m] eqn:E; [lia |]. cbn [refill_watermark_loop].
    unfold i. rewrite Z.add_0_l, Z2Nat.id, land_BIT_zero, CTZL_set by lia. done.
  - intros j Hj. apply CTZL_below; lia.
Qed.

(** With a CNode that is not full present, a slot of it is returned, and the
    recursion is not entered. *)
Lemma wp_alloc_present f p c N l o s0 s t Q F :
  p <> 0 -> st p c l o s0 s -> wf2 c N -> 0 <= t < N -> t < top_slots c ->
  bf_test (top_bf c) t = false -> (forall j, 0 <= j < t -> bf_test (top_bf c) j = true) ->
  (forall c' k s', st p c' l o s0 s' -> wf2 c' N -> 0 <= k < 128 -> taken c c' (t * 128 + k) ->
     top_slots c' = top_slots c -> Q (t * 128 + k) s') ->
  wp (alloc_slot_fuel (S f) p) Q F s.
Proof.
  intros Hp Hst Hwf Ht Hts Hclr Hlow HQ. cbn [alloc_slot_fuel].
  unfold cspace_alloc_slot_body. rewrite wp_bind. apply wp_not_null; [done |]. rewrite wp_bind. eapply wp_cs_read; [done |].
  destruct (top_first_free _ _ Hwf) as [(t' & Hff & Ht' & _ & Hf & Hlow')|[Hfull _]]; last first.
  { rewrite Hfull in Hclr by lia. done. }
  assert (t' = t) as ->.
  { destruct (decide (t' < t)); [by rewrite Hlow in Hf by lia |].
    destruct (decide (t < t')); [by rewrite Hlow' in Hclr by lia | lia]. }
  fold (top_words c) (top_slots c). wp_steps. rewrite Hff.
  destruct (Z.ltb_spec (top_slots c) t); [lia |]. destruct (Z.leb_spec (top_slots c) t); [lia |].
  rewrite (wf_two _ _ Hwf). cbn [andb orb]. rewrite shiftl_slot, wp_bind.
  destruct (wf_get_bl _ _ _ Hwf Ht) as (nd & b & Hnd & Hnok & Hb & _).
  destruct (index_of_slot t 0) as (I1 & I2 & _); [lia | lia |].
  pose proof (wf_n _ _ Hwf). unfold levels_missing. rewrite I1, I2.
  destruct (Z.leb_spec (n_bot_lvl_nodes c) (t / 169)); [lia |].
  wp_steps. rewrite Hnd. wp_steps.
  destruct (Z.leb_spec (n_cnodes nd) (t mod 169)); [destruct Hnok as [Hnn _]; lia |].
  wp_steps. cbn [negb]. eapply wp_alloc_bot_slot; try done.
  intros c' k s' Hst' Hwf' Hk Htk _ _ Hs. rewrite refill_none, wp_ret. by eapply HQ.
Qed.
(** The next CNode has to be created first: the slot returned is its slot 0, and
    the refill takes its slot 1 with the one level of recursion left. *)
Lemma wp_alloc_new f p c N l o s0 s Q :
  p <> 0 -> st p c l o s0 s -> wf2 c N -> N < top_slots c ->
  bf_test (top_bf c) N = false -> (forall j, 0 <= j < N -> bf_test (top_bf c) j = true) ->
  (forall c' N' l' o' r s', st p c' l' o' s0 s' -> wf2 c' N' -> shrinks l o l' o' ->
     alloc_outcome c c' r -> top_slots c' = top_slots c -> Q r s') ->
  wp (let* '(ok, used) := ensure_levels (alloc_slot_fuel (S f)) p (N * 128 + 0) 0 in
      if negb ok then ret seL4_CapNull
      else alloc_bot_slot (alloc_slot_fuel (S f)) p N (N * 128 + 0) used) Q cb_fault s.
Proof.
  intros Hp Hst Hwf Hts Hclr Hlow HQ. pose proof (wf_n _ _ Hwf) as Hn.
  rewrite wp_bind. eapply wp_ensure_levels; [done | done | done | |].
  { intros c1 l1 o1 s1 used Hst1 Hwf1 Hsame Hsh. cbn [negb]. rewrite wp_ret. eapply HQ; try done.
    - by apply alloc_failed.
    - unfold top_slots. by destruct Hsame as (_ & _ & _ & -> & _). }
  intros c1 l1 o1 s1 used b Hst1 Hwf1 Hsame Hsh Hu Hget Hz. cbn [negb].
  assert (top_slots c1 = top_slots c) as Hts1.
  { unfold top_slots. by destruct Hsame as (_ & _ & _ & -> & _). }
  pose proof Hsame as (_ & Hbf1 & _ & _ & Hw1).
  eapply wp_alloc_bot_slot; try done; [lia | lia | by rewrite Hbf1 |].
  intros c2 k s2 Hst2 Hwf2 Hk Htk Hfresh Hoth Hts2. destruct (Hfresh b Hget Hz) as [-> Hclr2].
  destruct (decide (used = 0)) as [->|].
  { rewrite refill_none, wp_ret. eapply HQ; try done; [|congruence].
    apply alloc_took; [eapply takes_same; [done |]; apply takes_one; [lia | done] |].
    destruct Htk as (_ & _ & ->). done. }
  rewrite refill_least by lia. pose proof (watermark_bit used ltac:(lia)) as Hi.
  rewrite wp_bind. eapply (wp_alloc_present _ _ _ _ _ _ _ _ N); try done; [lia | lia | |].
  { intros j Hj. by rewrite Hoth, Hbf1, Hlow by lia. }
  intros c3 k3 s3 Hst3 Hwf3 Hk3 Htk3 Hts3. eapply wp_cs_write; [done |]. intros s4 Hst4.
  eapply HQ; [done | | done | | by rewrite <- Hts1, <- Hts2, <- Hts3].
  - by eapply wf2_set_watermark.
  - apply (alloc_refilled _ _ _ (Z.to_nat (CTZL used)) (N * 128 + k3)); [|lia |].
    + eapply takes_same; [done |]. 
      by apply (takes_two c1 c2 c3 (N * 128 + 0) (N * 128 + k3) ltac:(lia) ltac:(lia)).
    + simpl. destruct Htk as (_ & _ & Hw2), Htk3 as (_ & _ & Hw3). congruence.
Qed.

(** With two levels of fuel the recursion always ends. *)
Lemma wp_alloc_two_level f p c N l o s0 s :
  p <> 0 -> st p c l o s0 s -> wf2 c N ->
  wp (alloc_slot_fuel (S (S f)) p)
     (fun r s' => exists c' N' l' o', st p c' l' o' s0 s' /\ wf2 c' N' /\ shrinks l o l' o' /\
        alloc_outcome c c' r /\ top_slots c' = top_slots c)
     (fun e => cb_fault e \/ (e = AssertFail /\ top_full c /\ top_bf_past c = ULONG_MAX)) s.
Proof.
  intros Hp Hst Hwf. pose proof (wf_n _ _ Hwf) as Hn.
  destruct (top_first_free _ _ Hwf) as [(t & Hff & Ht & HtN & Hf & Hlow)|[Hfull Hff]].
  - destruct (decide (t < N)).
    + eapply wp_alloc_present; try done; [lia | lia |].
      intros c' k s' Hst' Hwf' Hk Htk Hts. exists c', N, l, o. split_and!; try done.
      apply alloc_took; [apply takes_one; [lia | done] | by destruct Htk as (_ & _ & ->)].
    + assert (t = N) as -> by lia. destruct (index_of_slot N 0) as (I1 & I2 & _); [lia | lia |].
      cbn [alloc_slot_fuel]. unfold cspace_alloc_slot_body at 1.
      rewrite wp_bind. apply wp_not_null; [done |]. rewrite wp_bind. eapply wp_cs_read; [done |]. fold (top_words c) (top_slots c).
      wp_steps. rewrite Hff. rewrite (wf_two _ _ Hwf).
      destruct (Z.ltb_spec (top_slots c) N); [lia |]. destruct (Z.leb_spec (top_slots c) N); [lia |].
      cbn [andb orb]. rewrite shiftl_slot, wp_bind. rewrite (levels_missing_next _ _ _ _ _ Hwf).
      eapply wp_mono; [| intros ? ? HQ; exact HQ | intros ? He; left; exact He].
      eapply (wp_alloc_new f); try done.
      intros c' N' l' o' r s' Hst' Hwf' Hsh Hout Hts. by exists c', N', l', o'.
  - cbn [alloc_slot_fuel]. unfold cspace_alloc_slot_body at 1.
    rewrite wp_bind. apply wp_not_null; [done |]. rewrite wp_bind. eapply wp_cs_read; [done |]. fold (top_words c) (top_slots c).
    wp_steps. rewrite Hff. case_decide; [by right |].
    rewrite Z.leb_refl, orb_true_r, wp_ret. exists c, N, l, o. split_and!; try done.
    by apply alloc_failed.
Qed.
End AllocSlot.

(** ** Freeing a slot of a two-level cspace *)

(** Slot [x] is free in [c']; the others are as in [c]. *)
Definition released (c c' : cspace_t) (x : Z) : Prop :=
  (forall y, 0 <= y -> slot_used c' y = if decide (y = x) then false else slot_used c y) /\
  watermark c' = watermark c /\ top_slots c' = top_slots c.

Lemma wf2_set_top c N top' :
  wf2 c N -> bf_wf (top_words c) top' ->
  (forall t, 0 <= t -> bf_test top' t = bf_test (top_bf c) t) -> wf2 (cs_set_top_bf top' c) N.
Proof.
  intros Hwf Htop Hsame. destruct Hwf as [W1 W2 W3 W4 W5 W6 W6' W7 W8 W9 W10].
  split; try done; simpl in *.
  - intros t Ht. rewrite Hsame by lia. by apply W7.
  - intros t b Ht Hb. rewrite Hsame by lia. by apply (W8 t b).
Qed.

(** A slot of a CNode that does not exist is free. *)
Lemma slot_used_absent c N t k : wf2 c N -> N <= t -> 0 <= k < 128 -> slot_used c (t * 128 + k) = false.
Proof.
  intros Hwf Ht Hk. pose proof (wf_n _ _ Hwf) as Hn. unfold slot_used, get_bl. rewrite per_node.
  replace ((t * 128 + k) / 128) with t by lia.
  destruct (decide (t / 169 < n_bot_lvl_nodes c)); last first.
  { by rewrite (wf_dom _ _ Hwf) by lia. }
  destruct (wf_node _ _ Hwf (t / 169)) as (nd & Hnd & _ & _ & Hj); [lia |]. rewrite Hnd.
  destruct (cnodes nd !! Z.to_nat (t mod 169)) as [b|] eqn:Hb; [|done].
  destruct (Hj _ _ Hb) as [_ Hz]. rewrite Hz by lia. apply (bf_test_zero 2).
Qed.

Section FreeSlot.
Context {K : Type} {HE : Env K} {HA : CspaceAlloc K} {HL : CspaceAllocLaws K}.
Implicit Types (s : sos K) (l : list Z) (o : gset Z) (F : fault -> Prop).

(** Clearing bit [k] of CNode [t] and the CNode's top-level bit. *)
Lemma free_present c N t nd b k bf' top' :
  wf2 c N -> 0 <= t < N -> bot_lvl_nodes c !! (t / 169) = Some nd ->
  node_ok nd (Z.min 169 (N - 169 * (t / 169))) ->
  cnodes nd !! Z.to_nat (t mod 169) = Some b -> get_bl c t = Some b -> 0 <= k < 128 ->
  bl_ok (mkBotLvl bf' (bl_untyped b)) ->
  (forall j, 0 <= j -> bf_test bf' j = if decide (j = k) then false else bf_test (bl_bf b) j) ->
  bf_wf (top_words c) top' ->
  (forall j, 0 <= j -> bf_test top' j = if decide (j = t) then false else bf_test (top_bf c) j) ->
  let c' := cs_set_top_bf top' (cs_set_nodes (<[t / 169 :=
    node_set_cnode (t mod 169) (mkBotLvl bf' (bl_untyped b)) nd]> (bot_lvl_nodes c)) c) in
  wf2 c' N /\ released c c' (t * 128 + k).
Proof.
  intros Hwf Ht Hnd Hnok Hb Hget Hk Hok Htest Htop Htt c'.
  split; [|unfold released; split_and!; [|done | done]].
  - eapply wf2_write; try done.
    + intros t' Ht' Hne. rewrite Htt by done. by rewrite decide_False.
    + intros _. exists k. split; [done |]. simpl. by rewrite Htest, decide_True by lia.
  - intros y Hy. unfold c'. rewrite slot_used_write; [|lia | done | done | apply Hnok]. simpl.
    case_decide as E.
    + rewrite Htest by lia. destruct (decide (y mod 128 = k)), (decide (y = t * 128 + k)); try lia; try done.
      unfold slot_used. by rewrite E, Hget.
    + by rewrite decide_False by lia.
Qed.

(** For a CNode that does not exist the rest of the function does nothing. *)
Lemma wp_free_absent p c c1 N l o s0 s t (rest : M (sos K) unit) (Q : unit -> sos K -> Prop) F :
  st p c1 l o s0 s -> bot_lvl_nodes c1 = bot_lvl_nodes c -> wf2 c N -> 0 <= N <= t -> Q tt s ->
  wp (if t / 169 <? n_bot_lvl_nodes c then
        let* n := node_read p (t / 169) in
        if t mod 169 <? n_cnodes n then rest else ret tt
      else ret tt) Q F s.
Proof.
  intros Hst Hnodes Hwf Ht HQ. destruct (Z.ltb_spec (t / 169) (n_bot_lvl_nodes c)); [|done].
  destruct (wf_node _ _ Hwf (t / 169)) as (nd & Hnd & Hnn & _); [lia |].
  rewrite wp_bind. eapply wp_node_read; [done | by rewrite Hnodes |].
  destruct (Z.ltb_spec (t mod 169) (n_cnodes nd)); [lia | done].
Qed.

Lemma wp_free_slot p c N l o s0 s t k F :
  st p c l o s0 s -> wf2 c N -> 0 <= t < top_slots c -> 0 <= k < 128 -> 0 < t * 128 + k ->
  wp (cspace_free_slot p (t * 128 + k))
     (fun _ s' => exists c', st p c' l o s0 s' /\ wf2 c' N /\ released c c' (t * 128 + k)) F s.
Proof.
  intros Hst Hwf Ht Hk Hpos. destruct (top_slots_words _ _ Hwf) as [Htw _].
  destruct (index_of_slot t k) as (I1 & I2 & I3 & I4); [lia | done |].
  unfold cspace_free_slot, seL4_CapNull. destruct (Z.eqb_spec (t * 128 + k) 0); [lia |].
  rewrite wp_bind. eapply wp_cs_read; [done |]. rewrite (wf_two _ _ Hwf). cbn [negb].
  rewrite I1, I2, I3, I4.
  destruct (bf_clr_bit_spec _ _ t (wf_top _ _ Hwf)) as (top' & Hclr & Htop & Htt); [lia |].
  wp_steps. rewrite Hclr, wp_bind. eapply wp_cs_write; [done |]. intros s1 Hst1. cbv zeta.
  destruct (decide (t < N)) as [HtN|HtN].
  - destruct (wf_get_bl _ _ _ Hwf (conj (proj1 Ht) HtN)) as (nd & b & Hnd & Hnok & Hb & Hget & Hbf & Hun).
    destruct (bf_clr_bit_spec 2 (bl_bf b) k Hbf) as (bf' & Hset & Hbf' & Htest); [lia |].
    pose proof (wf_n _ _ Hwf).
    destruct (Z.ltb_spec (t / 169) (n_bot_lvl_nodes c)); [|lia].
    rewrite wp_bind. eapply wp_node_read; [done | done |].
    destruct (Z.ltb_spec (t mod 169) (n_cnodes nd)); [|destruct Hnok as [Hnn _]; lia].
    rewrite wp_bind. eapply wp_bot_lvl_read; [done | done | done |]. wp_steps. rewrite Hset.
    eapply wp_bot_lvl_write; [done | done | done |]. intros s2 Hst2. eexists. split; [done |].
    apply (free_present c N t nd b k bf' top'); done || lia.
  - assert (forall j, 0 <= j -> bf_test top' j = bf_test (top_bf c) j) as Hsame.
    { intros j Hj. rewrite Htt by done. case_decide as E; [|done]. subst.
      destruct (bf_test (top_bf c) t) eqn:Ef; [|done].
      pose proof (wf_full _ _ Hwf t Ht Ef). lia. }
    pose proof (wf_n _ _ Hwf). eapply wp_free_absent; try done; [lia |].
    exists (cs_set_top_bf top' c). split; [done |]. split; [by apply wf2_set_top |].
    unfold released. split_and!; [|done | done]. intros y Hy. case_decide; [|done]. subst.
    change (slot_used c (t * 128 + k) = false). eapply slot_used_absent; done || lia.
Qed.
End FreeSlot.

(** ** Sequences of operations on a two-level cspace *)

(** The invariant a client sees: a well-formed cspace in which the null slot is
    taken, with the pool [l] the allocation functions draw from, [o] handed out. *)
Definition cs_inv {K} `{CspaceAllocLaws K} (p : Z) (c : cspace_t) (l : list Z) (o : gset Z)
    (s : sos K) : Prop :=
  p <> 0 /\ s_cspaces s !! p = Some c /\ (exists N, wf2 c N) /\ slot_used c 0 = true /\ cb_inv l o s.

Definition cspace_inv {K} `{CspaceAllocLaws K} (p : Z) (c : cspace_t) (s : sos K) : Prop :=
  exists l o, cs_inv p c l o s.

(** Faults of the slot allocator: those of the allocation functions, and the
    assertion in [bf_first_free] when all words, and the word behind, are full. *)
Definition alloc_fault {K} `{CspaceAllocLaws K} (e : fault) : Prop := cb_fault e \/ e = AssertFail.

Section Sequences.
Context {K : Type} {HE : Env K} {HA : CspaceAlloc K} {HL : CspaceAllocLaws K}.
Implicit Types (s : sos K) (l : list Z) (o : gset Z) (F : fault -> Prop).

Lemma st_cs_inv p c N l o s0 s :
  p <> 0 -> st p c l o s0 s -> wf2 c N -> slot_used c 0 = true -> cs_inv p c l o s.
Proof.
  intros Hp [Hs Hi] Hwf H0. split; [done |]. split; [by rewrite Hs, lookup_insert_eq |]. by eauto.
Qed.

Lemma alloc_outcome_mono c c' r y : alloc_outcome c c' r -> 0 <= y ->
  slot_used c y = true -> slot_used c' y = true.
Proof.
  intros [-> (Hs & _)|(_ & _ & Hs) _|i w (_ & _ & Hs) _ _] Hy Hu; rewrite Hs, Hu by done; try done;
    apply orb_true_r.
Qed.

(** A slot that is returned, other than the null slot, was free and is taken. *)
Lemma alloc_outcome_result c c' r : alloc_outcome c c' r -> r <> seL4_CapNull ->
  0 <= r < top_slots c * 128 /\ slot_used c r = false /\ slot_used c' r = true.
Proof.
  intros [-> _|(_ & Hx & Hs) _|i w (_ & Hx & Hs) _ _] Hr; [done | |];
    (destruct (Hx r) as [Hb Hf]; [set_solver |]; split; [done |]; split; [done |];
     rewrite Hs by lia; rewrite bool_decide_eq_true_2 by set_solver; done).
Qed.

Lemma wp_alloc_slot_pool p c l o s : cs_inv p c l o s ->
  wp (cspace_alloc_slot p)
     (fun r s' => exists c' l' o', cs_inv p c' l' o' s' /\ shrinks l o l' o' /\ alloc_outcome c c' r /\
        top_slots c' = top_slots c /\ forall q, q <> p -> s_cspaces s' !! q = s_cspaces s !! q)
     alloc_fault s.
Proof.
  intros (Hp & Hc & (N & Hwf) & H0 & Hi).
  eapply wp_mono; [eapply (wp_alloc_two_level 0 p c N); [done | by apply st_init | done] | |].
  - intros r s' (c' & N' & l' & o' & Hst & Hwf' & Hsh & Hout & Hts). exists c', l', o'.
    split; [eapply st_cs_inv; [done | done | done | by eapply alloc_outcome_mono] |].
    split; [done |]. split; [done |]. split; [done |].
    intros q Hq. destruct Hst as [-> _]. by apply lookup_insert_ne.
  - intros e [He|[-> _]]; [by left | by right].
Qed.

Lemma wp_alloc_slot p c s : cspace_inv p c s ->
  wp (cspace_alloc_slot p)
     (fun r s' => exists c', cspace_inv p c' s' /\ alloc_outcome c c' r /\ top_slots c' = top_slots c /\
        forall q, q <> p -> s_cspaces s' !! q = s_cspaces s !! q) alloc_fault s.
Proof.
  intros (l & o & Hinv). eapply wp_mono; [by apply wp_alloc_slot_pool | | done].
  intros r s' (c' & l' & o' & Hinv' & _ & Hrest). exists c'. split; [by exists l', o' | done].
Qed.

Lemma wp_release_pool p c l o s x F : cs_inv p c l o s -> 0 < x < top_slots c * 128 ->
  wp (cspace_free_slot p x)
     (fun _ s' => exists c', cs_inv p c' l o s' /\ released c c' x /\
        forall q, q <> p -> s_cspaces s' !! q = s_cspaces s !! q) F s.
Proof.
  intros (Hp & Hc & (N & Hwf) & H0 & Hi) Hx.
  replace x with (x / 128 * 128 + x mod 128) by lia.
  eapply wp_mono; [eapply (wp_free_slot p c N); [by apply st_init | done | lia | lia | lia] | | done].
  intros [] s' (c' & Hst & Hwf' & Hrel). exists c'. split.
  - eapply st_cs_inv; [done | done | done |]. destruct Hrel as (Hr & _).
    rewrite Hr by lia. rewrite decide_False by lia. done.
  - split; [done |]. intros q Hq. destruct Hst as [-> _]. by apply lookup_insert_ne.
Qed.

Lemma wp_release p c s x F : cspace_inv p c s -> 0 < x < top_slots c * 128 ->
  wp (cspace_free_slot p x)
     (fun _ s' => exists c', cspace_inv p c' s' /\ released c c' x /\
        forall q, q <> p -> s_cspaces s' !! q = s_cspaces s !! q) F s.
Proof.
  intros (l & o & Hinv) Hx. eapply wp_mono; [by eapply wp_release_pool | | done].
  intros _ s' (c' & Hinv' & Hrest). exists c'. split; [by exists l, o | done].
Qed.

(** [n] calls of [cspace_alloc_slot] in a row. *)
Fixpoint alloc_many (n : nat) (p : Z) : M (sos K) (list Z) :=
  match n with
  | O => ret []
  | S n' => let* r := cspace_alloc_slot p in let* rs := alloc_many n' p in ret (r :: rs)
  end.

Lemma wp_alloc_many n p c s : cspace_inv p c s ->
  wp (alloc_many n p)
     (fun rs s' => exists c', cspace_inv p c' s' /\ length rs = n /\
        NoDup (filter (fun r => r <> seL4_CapNull) rs) /\
        (forall r, r ∈ rs -> r <> seL4_CapNull -> 0 <= r /\ slot_used c r = false /\ slot_used c' r = true) /\
        (forall y, 0 <= y -> slot_used c y = true -> slot_used c' y = true)) alloc_fault s.
Proof.
  revert c s. induction n as [|n IH]; intros c s Hinv; cbn [alloc_many].
  { rewrite wp_ret. exists c. split_and!; try done; [constructor | set_solver]. }
  rewrite wp_bind. eapply wp_mono; [by apply wp_alloc_slot | | done].
  intros r s1 (c1 & Hinv1 & Hout & _). rewrite wp_bind.
  eapply wp_mono; [by apply (IH c1) | | done].
  intros rs s2 (c2 & Hinv2 & Hlen & Hnd & Hr & Hmono). rewrite wp_ret. exists c2.
  pose proof (fun y => alloc_outcome_mono _ _ _ y Hout) as Hmono1.
  split; [done |]. split; [simpl; congruence |]. split; [|split; [|by eauto]].
  - rewrite filter_cons. case_decide as Hr0; [|done]. apply list.NoDup_cons. split; [|done].
    intros [_ Hin]%list_elem_of_filter. destruct (alloc_outcome_result _ _ _ Hout Hr0) as (_ & _ & Ht).
    destruct (Hr r Hin Hr0) as (_ & Hf & _). congruence.
  - intros x [->|Hx]%list.elem_of_cons Hx0.
    + destruct (alloc_outcome_result _ _ _ Hout Hx0) as (? & ? & ?).
      split; [lia |]. split; [done |]. apply Hmono; [lia | done].
    + destruct (Hr x Hx Hx0) as (Hge & Hf & Ht). split; [done |]. split; [|done].
      destruct (slot_used c x) eqn:E; [|done]. rewrite Hmono1 in Hf by done. done.
Qed.
End Sequences.
