(* ===== verification/Mapping.v ===== *)
(** * Mapping frames and devices

    Model of sos/src/mapping.c.  A mapping that fails because a paging structure
    is missing is retried after the structure has been created, up to
    [MAPPING_SLOTS] times.  The slots for those structures come from the caller
    (when a cspace maps its own bookkeeping) or from the cspace. *)

From S2P Require Import Prelude SosState UtTable Bitfield Cspace.

Section Impl.
Context {K : Type} `{Env K}.
Abbreviation MS := (M (sos K)).

(** [seL4_MappingFailedLookupLevel()] *)
Definition mapping_failed_level : MS Z := gets (fun s => failed_level (s_env s)).

Definition retype_map_pt (cspace vspace vaddr ut empty : Z) : MS Z :=
  let* err := cspace_untyped_retype cspace ut empty seL4_ARM_PageTableObject seL4_PageBits in
  if negb (err =? 0) then ret err
  else call (PageTable_Map empty vspace vaddr seL4_ARM_Default_VMAttributes).

Definition retype_map_pd (cspace vspace vaddr ut empty : Z) : MS Z :=
  let* err := cspace_untyped_retype cspace ut empty seL4_ARM_PageDirectoryObject seL4_PageBits in
  if negb (err =? 0) then ret err
  else call (PageDirectory_Map empty vspace vaddr seL4_ARM_Default_VMAttributes).

Definition retype_map_pud (cspace vspace vaddr ut empty : Z) : MS Z :=
  let* err := cspace_untyped_retype cspace ut empty seL4_ARM_PageUpperDirectoryObject seL4_PageBits in
  if negb (err =? 0) then ret err
  else call (PageUpperDirectory_Map empty vspace vaddr seL4_ARM_Default_VMAttributes).

(** The [switch] on the failed level; another value leaves [err] as it is. *)
Definition map_missing (failed err cspace vspace vaddr ut slot : Z) : MS Z :=
  if failed =? SEL4_MAPPING_LOOKUP_NO_PT then retype_map_pt cspace vspace vaddr ut slot
  else if failed =? SEL4_MAPPING_LOOKUP_NO_PD then retype_map_pd cspace vspace vaddr ut slot
  else if failed =? SEL4_MAPPING_LOOKUP_NO_PUD then retype_map_pud cspace vspace vaddr ut slot
  else ret err.

(** Where the slots come from: [free_slots] and [*used], or [NULL]. *)
Definition slot_source : Type := option (list Z * Z).

Definition map_slot (alloc_slot : Z -> MS Z) (cspace : Z) (src : slot_source) (i : Z)
    : MS (Z * slot_source) :=
  match src with
  | Some (free_slots, used) =>
      let* slot := of_option OutOfBounds (free_slots !! Z.to_nat i) in
      ret (slot, Some (free_slots, Z.lor used (BIT i)))
  | None => let* slot := alloc_slot cspace in ret (slot, None)
  end.

(** The loop of [map_frame_impl] at iteration [i] with [n] left. *)
Fixpoint map_frame_loop (alloc_slot : Z -> MS Z) (cspace frame_cap vspace vaddr : Z) (r : rights)
    (attr : Z) (src : slot_source) (err i : Z) (n : nat) : MS (Z * slot_source) :=
  match n with
  | O => ret (err, src)
  | S n' =>
      if negb (err =? seL4_FailedLookup) then ret (err, src)
      else
        let* failed := mapping_failed_level in
        let* '(ut, _) := ut_alloc_4k_untyped in
        if ut =? 0 then ret (-1, src)
        else
          let* '(slot, src) := map_slot alloc_slot cspace src i in
          if slot =? seL4_CapNull then ret (-1, src)
          else
            let* node := ut_read ut in
            let* err := map_missing failed err cspace vspace vaddr (ut_cap node) slot in
            let* err := (if err =? 0 then call (Page_Map frame_cap vspace vaddr r attr)
                         else ret err) in
            map_frame_loop alloc_slot cspace frame_cap vspace vaddr r attr src err (i + 1) n'
  end.

Definition map_frame_impl (alloc_slot : Z -> MS Z) (cspace frame_cap vspace vaddr : Z) (r : rights)
    (attr : Z) (src : slot_source) : MS (Z * slot_source) :=
  let* err := call (Page_Map frame_cap vspace vaddr r attr) in
  map_frame_loop alloc_slot cspace frame_cap vspace vaddr r attr src err 0 (Z.to_nat MAPPING_SLOTS).

(** Returns the error and the new [*used]. *)
Definition map_frame_cspace (alloc_slot : Z -> MS Z) (cspace frame_cap vspace vaddr : Z) (r : rights)
    (attr : Z) (free_slots : list Z) (used : Z) : MS (Z * Z) :=
  if cspace =? 0 then ret (-1, used)
  else
    let* '(err, src) := map_frame_impl alloc_slot cspace frame_cap vspace vaddr r attr
                          (Some (free_slots, used)) in
    ret (err, match src with Some (_, used) => used | None => used end).
End Impl.

Section Client.
Context {K : Type} `{Env K} `{CspaceAlloc K}.
Abbreviation MS := (M (sos K)).

Definition map_frame (cspace frame_cap vspace vaddr : Z) (r : rights) (attr : Z) : MS Z :=
  let* '(err, _) := map_frame_impl cspace_alloc_slot cspace frame_cap vspace vaddr r attr None in
  ret err.

(** One page of [sos_map_device]: whether the loop goes on. *)
Definition map_device_page (cspace curr : Z) : MS bool :=
  let* ut := ut_alloc_4k_device curr in
  if ut =? 0 then ret false
  else
    let* frame := cspace_alloc_slot cspace in
    if frame =? seL4_CapNull then ret false
    else
      let* node := ut_read ut in
      let* err := cspace_untyped_retype cspace (ut_cap node) frame seL4_ARM_SmallPageObject
                    seL4_PageBits in
      if negb (err =? seL4_NoError) then
        do* cspace_free_slot cspace frame in ret false
      else
        let* virt := gets s_device_virt in
        let* err := map_frame cspace frame seL4_CapInitThreadVSpace virt seL4_AllRights 0 in
        if negb (err =? seL4_NoError) then
          do* cspace_delete cspace frame in
          do* cspace_free_slot cspace frame in ret false
        else
          do* modify (fun s => set_device_virt (w64 (s_device_virt s + PAGE_SIZE_4K)) s) in
          ret true.

Fixpoint map_device_loop (fuel : nat) (cspace curr end_ vstart : Z) : MS Z :=
  if curr <? end_ then
    match fuel with
    | O => fail NoFuel
    | S f =>
        let* ok := map_device_page cspace curr in
        if ok then map_device_loop f cspace (w64 (curr + PAGE_SIZE_4K)) end_ vstart
        else ret 0
    end
  else ret vstart.

(** One iteration per started page. *)
Definition sos_map_device (cspace addr size : Z) : MS Z :=
  do* assert_ (negb (cspace =? 0)) in
  let* vstart := gets s_device_virt in
  map_device_loop (Z.to_nat (BYTES_TO_4K_PAGES size)) cspace addr (w64 (addr + size)) vstart.
End Client.

(** ** Mapping with slots of the caller *)

(** [l1] untypeds have left the 4K list of the table. *)
Definition popped (l1 : list Z) (ls ls' : head_ref -> list Z) : Prop :=
  ls L4K = l1 ++ ls' L4K /\ (forall r, r <> L4K -> ls' r = ls r).

Section MapLemmas.
Context {K : Type} {HE : Env K}.
Implicit Types (s : sos K) (ls : head_ref -> list Z) (F : fault -> Prop).

(** What a mapping with slots of the caller may do to the state: untypeds leave
    the 4K list, the kernel is called, nothing else changes. *)
Definition mapped_from s ls s' : Prop :=
  exists l1 ls', ut_rep (s_ut s') ls' /\ popped l1 ls ls' /\ ut_meta (s_ut s) (s_ut s') /\
    (forall x, x ∈ l1 -> unlisted ls' x /\ x <> 0 /\ ut_size_bits (ut_node (ut_mem (s_ut s')) x) = seL4_PageBits) /\
    s' = set_env (s_env s') (set_ut (s_ut s') s).

Lemma mapped_refl s ls k : ut_rep (s_ut s) ls -> mapped_from s ls (set_env k s).
Proof.
  intros HR. exists [], ls. split; [done |]. split; [done |]. split; [done |].
  split; [set_solver |]. by destruct s.
Qed.

Lemma mapped_env s ls s' k : mapped_from s ls s' -> mapped_from s ls (set_env k s').
Proof.
  intros (l1 & ls' & HR & Hp & Hm & Hx & E). exists l1, ls'. split_and!; try done. by rewrite E.
Qed.

(** One more untyped popped. *)
Lemma mapped_step s ls s' l1 ls' x l u' :
  ut_rep (s_ut s') ls' -> popped l1 ls ls' -> ut_meta (s_ut s) (s_ut s') ->
  (forall x, x ∈ l1 -> unlisted ls' x /\ x <> 0 /\ ut_size_bits (ut_node (ut_mem (s_ut s')) x) = seL4_PageBits) ->
  s' = set_env (s_env s') (set_ut (s_ut s') s) ->
  ls' L4K = x :: l -> x <> 0 -> ut_rep u' (upd ls' L4K l) -> unlisted (upd ls' L4K l) x ->
  ut_meta (s_ut s') u' -> ut_size_bits (ut_node (ut_mem u') x) = seL4_PageBits ->
  mapped_from s ls (set_ut u' s').
Proof.
  intros HR [Hp1 Hp2] Hm Hx E El Hx0 HR' Hun Hm' Hsz.
  exists (l1 ++ [x]), (upd ls' L4K l). split; [done |]. split; [|split; [|split]].
  - split; [by rewrite Hp1, El, upd_eq, <- app_assoc |]. intros r Hr. rewrite upd_ne by done. auto.
  - etrans; [exact Hm |]. done.
  - intros y [Hy|Hy]%list.elem_of_app; [|by apply list_elem_of_singleton in Hy as ->].
    destruct (Hx y Hy) as (Huy & Hy0 & Hsy). split; [|split; [done |]].
    + intros r Hr Hin. apply (Huy r Hr). unfold upd in Hin. case_decide; [|done].
      subst. rewrite El. set_solver.
    + simpl. destruct Hm' as (_ & _ & _ & Hm'). destruct (Hm' y) as (_ & _ & ->). done.
  - by rewrite E.
Qed.
Lemma land_lor_id a b : Z.land (Z.lor a b) a = a.
Proof.
  apply Z.bits_inj'. intros i Hi. rewrite Z.land_spec, Z.lor_spec.
  by destruct (Z.testbit a i), (Z.testbit b i).
Qed.

Lemma land_trans a b c : Z.land a b = b -> Z.land b c = c -> Z.land a c = c.
Proof. intros H1 H2. rewrite <- H2 at 1. by rewrite Z.land_assoc, H1. Qed.

(** A computation that, apart from faulting on a missing cspace, only calls the
    kernel. *)
Definition only_calls {A} (m : M (sos K) A) : Prop :=
  forall s, wp m (fun _ s' => exists k, s' = set_env k s) (fun e => e = NullDeref) s.

Lemma only_calls_call i : only_calls (call i).
Proof. intros s. apply wp_call. by eauto. Qed.

Lemma only_calls_ret {A} (a : A) : only_calls (ret a).
Proof. intros s. rewrite wp_ret. exists (s_env s). by destruct s. Qed.

Lemma only_calls_bind {A B} (m : M (sos K) A) (f : A -> M (sos K) B) :
  only_calls m -> (forall a, only_calls (f a)) -> only_calls (bind m f).
Proof.
  intros Hm Hf s. rewrite wp_bind. eapply wp_mono; [apply Hm | | done].
  intros a s' (k & ->). eapply wp_mono; [apply Hf | | done].
  intros b s'' (k' & ->). by exists k'.
Qed.

Lemma only_calls_retype p ut tg ty sz : only_calls (cspace_untyped_retype p ut tg ty sz).
Proof.
  unfold cspace_untyped_retype, cs_read. apply only_calls_bind.
  - intros s. wp_steps. destruct (s_cspaces s !! p); [|done]. exists (s_env s). by destruct s.
  - intros c. destruct (two_level c); apply only_calls_call.
Qed.

Lemma only_calls_missing failed err p vs va ut slot : only_calls (map_missing failed err p vs va ut slot).
Proof.
  unfold map_missing, retype_map_pt, retype_map_pd, retype_map_pud.
  repeat match goal with |- only_calls (if ?b then _ else _) => destruct b end;
    try apply only_calls_ret;
    (apply only_calls_bind; [apply only_calls_retype |]; intros e;
     destruct (negb _); [apply only_calls_ret | apply only_calls_call]).
Qed.

Lemma wp_only_calls {A} (m : M (sos K) A) s ls s' Q :
  only_calls m -> mapped_from s ls s' ->
  (forall a s'', mapped_from s ls s'' -> Q a s'') -> wp m Q (fun e => e = NullDeref) s'.
Proof.
  intros Hm Hs HQ. eapply wp_mono; [apply Hm | | done].
  intros a s'' (k & ->). by apply HQ, mapped_env.
Qed.

(** The outcome of a mapping whose slots are [slots], of which [used] are gone. *)
Definition mapped_post s ls (slots : list Z) (used : Z) (r : Z * slot_source) s' : Prop :=
  mapped_from s ls s' /\ exists used', snd r = Some (slots, used') /\
    0 <= used' < BIT WATERMARK_SLOTS /\ Z.land used' used = used.

Lemma used_lor used i : 0 <= used < BIT WATERMARK_SLOTS -> 0 <= i < 4 ->
  0 <= Z.lor used (BIT i) < BIT WATERMARK_SLOTS.
Proof.
  intros Hu Hi. change (BIT WATERMARK_SLOTS) with (2 ^ 4) in *.
  apply lor_lt_pow2; [done | done |]. rewrite BIT_pow by lia. split; [lia |].
  apply Z.pow_lt_mono_r; lia.
Qed.

Lemma wp_map_frame_loop (self : Z -> M (sos K) Z) p cap vs va r attr slots used err i n s ls s' :
  mapped_from s ls s' -> length slots = Z.to_nat WATERMARK_SLOTS ->
  0 <= used < BIT WATERMARK_SLOTS -> 0 <= i -> i + Z.of_nat n <= 3 ->
  wp (map_frame_loop self p cap vs va r attr (Some (slots, used)) err i n)
     (mapped_post s ls slots used) (fun e => e = NullDeref) s'.
Proof.
  revert used err i s'. induction n as [|n IH]; intros used err i s' Hs Hl Hu Hi Hn;
    cbn [map_frame_loop].
  { rewrite wp_ret. split; [done |]. exists used. split_and!; try done || lia. apply Z.land_diag. }
  destruct (negb _).
  { rewrite wp_ret. split; [done |]. exists used. split_and!; try done || lia. apply Z.land_diag. }
  unfold mapping_failed_level. rewrite wp_bind, wp_gets, wp_bind.
  destruct Hs as (l1 & ls' & HR & Hp & Hm & Hx & E).
  eapply wp_ut_alloc_4k; [done | |].
  { intros _. cbn. split; [by exists l1, ls' |]. exists used. split_and!; try done || lia. apply Z.land_diag. }
  intros x l u' El Hx0 HR' Hun Hm' Hsz. destruct (Z.eqb_spec x 0); [done |].
  assert (mapped_from s ls (set_ut u' s')) as Hs1 by by eapply mapped_step.
  destruct (lookup_lt_is_Some_2 slots (Z.to_nat i)) as [slot Hslot].
  { rewrite Hl. change (Z.to_nat WATERMARK_SLOTS) with 4%nat. lia. }
  cbn [map_slot]. rewrite !wp_bind, wp_of_option, Hslot, wp_ret.
  pose proof (used_lor used i Hu ltac:(lia)) as Hu'.
  destruct (slot =? seL4_CapNull).
  { rewrite wp_ret. split; [done |]. eexists. split; [done |]. split; [done | apply land_lor_id]. }
  rewrite wp_bind. apply wp_ut_read; [done |]. rewrite wp_bind.
  eapply wp_only_calls; [apply only_calls_missing | done |]. intros e s2 Hs2. rewrite wp_bind.
  eapply wp_only_calls; [|done |].
  { destruct (e =? 0); [apply only_calls_call | apply only_calls_ret]. }
  intros e' s3 Hs3. eapply wp_mono; [apply (IH _ _ _ _ Hs3); done || lia | | done].
  intros res s4 (Hs4 & used' & Hr' & Hb' & Hl'). split; [done |]. exists used'.
  split; [done |]. split; [done |]. eapply land_trans; [done | apply land_lor_id].
Qed.

Lemma wp_map_frame_cspace (self : Z -> M (sos K) Z) p cap vs va r attr slots used s ls :
  ut_rep (s_ut s) ls -> length slots = Z.to_nat WATERMARK_SLOTS -> 0 <= used < BIT WATERMARK_SLOTS ->
  wp (map_frame_cspace self p cap vs va r attr slots used)
     (fun res s' => mapped_from s ls s' /\ 0 <= snd res < BIT WATERMARK_SLOTS /\
        Z.land (snd res) used = used) (fun e => e = NullDeref) s.
Proof.
  intros HR Hl Hu. unfold map_frame_cspace, map_frame_impl. destruct (p =? 0).
  { rewrite wp_ret. simpl. split; [|split; [lia | apply Z.land_diag]].
    pose proof (mapped_refl s ls (s_env s) HR) as Hs. by destruct s. }
  rewrite !wp_bind. apply wp_call. intros e k.
  eapply wp_mono; [apply wp_map_frame_loop; [by apply mapped_refl | done | done | done | done] | | done].
  intros [err src] s' (Hs & used' & E & Hb & Hl'). simpl in E. subst src. rewrite wp_ret. done.
Qed.

(** The kernel refuses to map pages outside the user's part of the address space
    (seL4_UserTop, [2 ^ 47] on aarch64). *)
Definition page_map_bound : Prop :=
  forall frame vs va r attr k k', invoke (Page_Map frame vs va r attr) k = (seL4_NoError, k') -> va < 2 ^ 47.

Lemma page_map_result frame vs va r attr (Q : Z -> sos K -> Prop) F s :
  (forall e s', (e = 0 -> page_map_bound -> va < 2 ^ 47) -> Q e s') -> wp (call (Page_Map frame vs va r attr)) Q F s.
Proof.
  intros HQ. unfold call, outside, wp. destruct (invoke _ _) as [e k] eqn:E. apply HQ.
  intros -> HB. by eapply HB.
Qed.

(** So what was mapped is below that bound. *)
Lemma map_frame_loop_bound self p cap vs va r attr src err i n s :
  (err = 0 -> page_map_bound -> va < 2 ^ 47) ->
  wp (map_frame_loop self p cap vs va r attr src err i n)
     (fun res _ => fst res = 0 -> page_map_bound -> va < 2 ^ 47) (fun _ => True) s.
Proof.
  revert src err i s. induction n as [|n IH]; intros src err i s He; cbn [map_frame_loop]; [by wp_steps |].
  destruct (negb _); [by wp_steps |]. unfold mapping_failed_level.
  rewrite wp_bind, wp_gets, wp_bind. apply wp_any. intros [ut a] s1. destruct (ut =? 0); [by wp_steps |].
  rewrite wp_bind. apply wp_any. intros [slot src'] s2. destruct (slot =? _); [by wp_steps |].
  rewrite wp_bind. apply wp_any. intros node s3. rewrite wp_bind. apply wp_any. intros e s4. rewrite wp_bind.
  destruct (Z.eqb_spec e 0); [|wp_steps; by apply IH]. apply page_map_result. intros e' s5 He'. by apply IH.
Qed.

Lemma map_frame_impl_bound self p cap vs va r attr src s :
  wp (map_frame_impl self p cap vs va r attr src)
     (fun res _ => fst res = 0 -> page_map_bound -> va < 2 ^ 47) (fun _ => True) s.
Proof.
  unfold map_frame_impl. rewrite wp_bind. apply page_map_result. intros e s' He. by apply map_frame_loop_bound.
Qed.

Lemma map_frame_bound `{CspaceAlloc K} p cap vs va r attr s :
  wp (map_frame p cap vs va r attr) (fun e _ => e = 0 -> page_map_bound -> va < 2 ^ 47) (fun _ => True) s.
Proof.
  unfold map_frame. rewrite wp_bind. eapply wp_mono; [apply map_frame_impl_bound | | done]. by intros [e src] s'.
Qed.

Lemma map_frame_cspace_bound self p cap vs va r attr slots used s :
  wp (map_frame_cspace self p cap vs va r attr slots used)
     (fun res _ => fst res = 0 -> page_map_bound -> va < 2 ^ 47) (fun _ => True) s.
Proof.
  unfold map_frame_cspace. destruct (p =? 0); [by wp_steps |]. rewrite wp_bind.
  eapply wp_mono; [apply map_frame_impl_bound | | done]. by intros [err src] s'.
Qed.
End MapLemmas.

(** ** Mapping reaches its frame

    Against a kernel with four levels of paging, [MAPPING_SLOTS] retries are
    enough.  [missing k] counts the paging structures missing for the address. *)

Definition missing_level (m : nat) : Z :=
  match m with
  | 1%nat => SEL4_MAPPING_LOOKUP_NO_PT
  | 2%nat => SEL4_MAPPING_LOOKUP_NO_PD
  | _ => SEL4_MAPPING_LOOKUP_NO_PUD
  end.

Definition table_map (m : nat) (slot vspace vaddr : Z) : invocation :=
  match m with
  | 1%nat => PageTable_Map slot vspace vaddr seL4_ARM_Default_VMAttributes
  | 2%nat => PageDirectory_Map slot vspace vaddr seL4_ARM_Default_VMAttributes
  | _ => PageUpperDirectory_Map slot vspace vaddr seL4_ARM_Default_VMAttributes
  end.

(** The object that is retyped for the structure, and the slot that a retype names. *)
Definition table_type (m : nat) : Z :=
  match m with
  | 1%nat => seL4_ARM_PageTableObject
  | 2%nat => seL4_ARM_PageDirectoryObject
  | _ => seL4_ARM_PageUpperDirectoryObject
  end.
Definition table_retype (c : cspace_t) (m : nat) (ut slot : Z) : invocation :=
  if two_level c then
    Untyped_Retype ut (table_type m) seL4_PageBits (root_cnode c) (Z.shiftr slot (CNODE_SLOT_BITS CNODE_SIZE_BITS))
      (seL4_WordBits - CNODE_SLOT_BITS CNODE_SIZE_BITS) (slot mod CNODE_SLOTS CNODE_SIZE_BITS) 1
  else Untyped_Retype ut (table_type m) seL4_PageBits (root_cnode c) 0 0 slot 1.

(** What a client sees of the kernel's state while it maps one frame at one
    address: how many structures are missing there, whether the frame can be
    mapped there, which capabilities are unused untypeds of 4K, which slots are
    empty and which hold a structure that is not mapped yet. *)
Record paging_view (K : Type) : Type := {
  missing : K -> nat;
  mappable : K -> Prop;
  fresh_ut : K -> Z -> Prop;
  empty_slot : K -> Z -> Prop;
  holds_table : K -> nat -> Z -> Prop }.
Arguments missing {K}. Arguments mappable {K}. Arguments fresh_ut {K}. Arguments empty_slot {K}. Arguments holds_table {K}.

(** The frame can be mapped in [k'] if it can in [k], and untypeds and slots other than these are kept. *)
Definition keeps_view {K} (v : paging_view K) (k k' : K) (uts slots : list Z) : Prop :=
  (mappable v k -> mappable v k') /\ (forall u, u ∉ uts -> fresh_ut v k u -> fresh_ut v k' u) /\
  (forall x, x ∉ slots -> empty_slot v k x -> empty_slot v k' x).

(** The kernel's documented behaviour on the invocations a mapping makes.  A frame
    that can be mapped at the address is mapped if no structure is missing;
    otherwise the call fails and reports the topmost missing one.  An unused
    untyped of 4K is retyped to a structure in an empty slot.  The topmost
    missing structure is mapped from a slot that holds one. *)
Record paging_kernel {K} `{Env K} (v : paging_view K) (c : cspace_t) (cap vspace vaddr : Z) (r : rights) (attr : Z) : Prop := {
  pk_page k e k' : mappable v k -> invoke (Page_Map cap vspace vaddr r attr) k = (e, k') ->
    missing v k' = missing v k /\
    (missing v k = 0%nat -> e = seL4_NoError) /\
    (missing v k <> 0%nat -> e = seL4_FailedLookup /\ failed_level k' = missing_level (missing v k) /\ keeps_view v k k' [] []);
  pk_retype k m ut slot e k' : (0 < m <= 3)%nat -> fresh_ut v k ut -> empty_slot v k slot ->
    invoke (table_retype c m ut slot) k = (e, k') ->
    e = seL4_NoError /\ missing v k' = missing v k /\ holds_table v k' m slot /\ keeps_view v k k' [ut] [slot];
  pk_table k slot e k' : (0 < missing v k <= 3)%nat -> holds_table v k (missing v k) slot ->
    invoke (table_map (missing v k) slot vspace vaddr) k = (e, k') ->
    e = seL4_NoError /\ missing v k' = Nat.pred (missing v k) /\ keeps_view v k k' [] [] }.

Section Reaches.
Context {K : Type} {HE : Env K} (v : paging_view K) (c : cspace_t) (cap vspace vaddr : Z) (r : rights) (attr : Z).
Hypothesis Hk : paging_kernel v c cap vspace vaddr r attr.
Implicit Types (s : sos K) (ls : head_ref -> list Z).

Lemma wp_call_run (i : invocation) (Q : Z -> sos K -> Prop) F s :
  (forall e k', invoke i (s_env s) = (e, k') -> Q e (set_env k' s)) -> wp (call i) Q F s.
Proof.
  intros HQ. unfold wp, call, outside. destruct (invoke i (s_env s)) as [e k'] eqn:E. by apply HQ.
Qed.

Lemma wp_retype_run p m ut slot (Q : Z -> sos K -> Prop) F s :
  s_cspaces s !! p = Some c -> (0 < m <= 3)%nat -> fresh_ut v (s_env s) ut -> empty_slot v (s_env s) slot ->
  (forall k', missing v k' = missing v (s_env s) -> holds_table v k' m slot -> keeps_view v (s_env s) k' [ut] [slot] -> Q seL4_NoError (set_env k' s)) ->
  wp (cspace_untyped_retype p ut slot (table_type m) seL4_PageBits) Q F s.
Proof.
  intros Hc Hm Hu Hs HQ. pose proof (pk_retype _ _ _ _ _ _ _ Hk (s_env s) m ut slot) as HR. unfold table_retype in HR.
  unfold cspace_untyped_retype, cs_read. wp_steps. rewrite Hc.
  destruct (two_level c); apply wp_call_run; intros e k' E;
    apply HR in E as (-> & Hm' & Ht & Hv); by (done || apply HQ).
Qed.

(** The missing structure is retyped and mapped. *)
Lemma wp_map_missing m p err ut slot (Q : Z -> sos K -> Prop) F s :
  s_cspaces s !! p = Some c -> missing v (s_env s) = m -> (0 < m <= 3)%nat ->
  fresh_ut v (s_env s) ut -> empty_slot v (s_env s) slot ->
  (forall k', missing v k' = Nat.pred m -> keeps_view v (s_env s) k' [ut] [slot] -> Q seL4_NoError (set_env k' s)) ->
  wp (map_missing (missing_level m) err p vspace vaddr ut slot) Q F s.
Proof.
  intros Hc Hm Hr Hu Hs HQ. unfold map_missing.
  assert (forall i, i = table_map m slot vspace vaddr ->
    wp (let* err := cspace_untyped_retype p ut slot (table_type m) seL4_PageBits in
        if negb (err =? 0) then ret err else call i) Q F s) as Hgo.
  { intros i ->. rewrite wp_bind. eapply wp_retype_run; [done.. |]. intros k1 Hm1 Ht (V1 & V2 & V3).
    cbn [Z.eqb negb seL4_NoError]. apply wp_call_run. intros e k2 E. simpl in E.
    rewrite Hm in Hm1. rewrite <- Hm1 in E, Ht, Hr.
    apply (pk_table _ _ _ _ _ _ _ Hk) in E as (-> & Hm2 & W1 & W2 & W3); [|done | done].
    apply HQ; [by rewrite Hm2, Hm1 |]. split; [by auto |]. split; [intros u Hn Hf | intros x Hn Hf].
    - apply W2; [set_solver | by apply V2].
    - apply W3; [set_solver | by apply V3]. }
  assert (m = 1 \/ m = 2 \/ m = 3)%nat as [-> | [-> | ->]] by lia; by apply Hgo.
Qed.

(** The untypeds and slots at hand: as many as structures are missing, different
    from each other, unused and empty. *)
Record at_hand s ls (slots : list Z) (i : Z) (m : nat) : Prop := {
  ah_uts : (m <= length (ls L4K))%nat;
  ah_fresh x : x ∈ take m (ls L4K) -> fresh_ut v (s_env s) (ut_cap (ut_node (ut_mem (s_ut s)) x));
  ah_caps : NoDup (map (fun x => ut_cap (ut_node (ut_mem (s_ut s)) x)) (take m (ls L4K)));
  ah_slots j : i <= j < i + Z.of_nat m -> exists x, slots !! Z.to_nat j = Some x /\ x <> seL4_CapNull /\ empty_slot v (s_env s) x;
  ah_nodup : NoDup slots }.

(** The first untyped and the first slot are used. *)
Lemma at_hand_next s ls slots i m x l u' slot k : 0 <= i -> at_hand s ls slots i (S m) -> ls L4K = x :: l -> ut_meta (s_ut s) u' ->
  slots !! Z.to_nat i = Some slot -> keeps_view v (s_env s) k [ut_cap (ut_node (ut_mem u') x)] [slot] ->
  at_hand (set_env k (set_ut u' s)) (upd ls L4K l) slots (i + 1) m.
Proof.
  intros Hi [A1 A2 A3 A4 A5] El Hm Hslot (_ & V2 & V3). destruct Hm as (_ & _ & _ & Hm). rewrite El in A1, A2, A3. simpl in A1, A3.
  assert (forall y, ut_cap (ut_node (ut_mem u') y) = ut_cap (ut_node (ut_mem (s_ut s)) y)) as Hcap by (intros y; by destruct (Hm y) as (? & ? & ?)).
  apply list.NoDup_cons in A3 as [A31 A32]. split; simpl; rewrite ?upd_eq; [lia | | | |done].
  - intros y Hy. rewrite Hcap. apply V2; [|apply A2; simpl; by apply list.elem_of_cons; right].
    rewrite Hcap, list_elem_of_singleton. intros E. apply A31. rewrite <- E. apply list_elem_of_fmap. by exists y.
  - erewrite map_ext; [exact A32 |]. exact Hcap.
  - intros j Hj. destruct (A4 j) as (y & Hy & Hy0 & He); [lia |]. exists y. split; [done |]. split; [done |]. apply V3; [|done].
    rewrite list_elem_of_singleton. intros ->. pose proof (NoDup_lookup _ _ _ _ A5 Hy Hslot). lia.
Qed.
Lemma at_hand_call s ls slots i m k : at_hand s ls slots i m -> keeps_view v (s_env s) k [] [] -> at_hand (set_env k s) ls slots i m.
Proof.
  intros [A1 A2 A3 A4 A5] (_ & V2 & V3). split; simpl; [done | | done | | done].
  - intros x Hx. apply V2; [set_solver | by apply A2].
  - intros j Hj. destruct (A4 j Hj) as (x & Hx & Hx0 & He). exists x. split; [done |]. split; [done |]. apply V3; [set_solver | done].
Qed.

(** From a state in which the last [Page_Map] failed for want of [m] structures
    (or succeeded, [m = 0]), the loop maps the page with [m] untypeds. *)
Lemma map_loop_reaches m (self : Z -> M (sos K) Z) p slots used err i n s ls :
  s_cspaces s !! p = Some c -> ut_rep (s_ut s) ls -> missing v (s_env s) = m -> (m <= n)%nat ->
  err = (if decide (m = 0%nat) then seL4_NoError else seL4_FailedLookup) ->
  (m <> 0%nat -> failed_level (s_env s) = missing_level m /\ mappable v (s_env s) /\ at_hand s ls slots i m) ->
  0 <= i -> (m <= 3)%nat ->
  wp (map_frame_loop self p cap vspace vaddr r attr (Some (slots, used)) err i n)
     (fun res s' => fst res = seL4_NoError /\ missing v (s_env s') = 0%nat /\
        ut_rep (s_ut s') (upd ls L4K (drop m (ls L4K)))) (fun _ => False) s.
Proof.
  revert used err i n s ls. induction m as [|m IH]; intros used err i n s ls Hc HR Hm Hn -> Hf Hi H3.
  { assert (ut_rep (s_ut s) (upd ls L4K (drop 0 (ls L4K)))) by by rewrite drop_0, upd_id.
    destruct n; cbn; rewrite ?wp_ret; done. }
  destruct n as [|n]; [lia |]. rewrite decide_False by lia. cbn [map_frame_loop].
  cbn [Z.eqb negb seL4_FailedLookup Pos.eqb]. unfold mapping_failed_level. destruct (Hf ltac:(done)) as (Hlev & Hmap & Hh).
  rewrite wp_bind, wp_gets, wp_bind. eapply wp_ut_alloc_4k; [done | |].
  { intros E. pose proof (ah_uts _ _ _ _ _ Hh) as Hlen. rewrite E in Hlen. simpl in Hlen. lia. }
  intros x l u' El Hx HR' _ Hmeta _. destruct (Z.eqb_spec x 0); [done |].
  destruct (ah_slots _ _ _ _ _ Hh i) as (slot & Hslot & Hs0 & Hemp); [lia |].
  cbn [map_slot]. rewrite !wp_bind, wp_of_option, Hslot, wp_ret.
  destruct (Z.eqb_spec slot seL4_CapNull); [done |].
  rewrite wp_bind. apply wp_ut_read; [done |]. rewrite wp_bind, Hlev.
  eapply wp_map_missing; [done | done | lia | | done |].
  { simpl. destruct Hmeta as (_ & _ & _ & Hmeta). destruct (Hmeta x) as [-> _]. apply (ah_fresh _ _ _ _ _ Hh). rewrite El. set_solver. }
  intros k1 Hm1 Hv1. simpl in Hm1, Hv1. rewrite wp_bind. cbn [Z.eqb seL4_NoError]. apply wp_call_run. intros e k2 E. simpl in E.
  destruct (pk_page _ _ _ _ _ _ _ Hk _ _ _ (proj1 Hv1 Hmap) E) as (Hm2 & Hz & Hnz). rewrite Hm1 in *.
  eapply wp_mono; [apply (IH _ _ _ n (set_env k2 (set_env k1 (set_ut u' s))) _ Hc HR') | | done].
  - done.
  - lia.
  - case_decide; [by apply Hz | by apply Hnz].
  - intros H0. destruct (Hnz H0) as (_ & Hl2 & Hv2). split; [done |]. split; [by apply Hv2, Hv1 |].
    apply at_hand_call; [by eapply at_hand_next | done].
  - lia.
  - lia.
  - intros res s' (H1 & H2 & H4). split; [done |]. split; [done |].
    rewrite El. simpl. by rewrite upd_upd, upd_eq in H4.
Qed.
End Reaches.

(** C34: Mapping a frame succeeds against a kernel that behaves as documented on
    the invocations this takes.  If the frame can be mapped, [m <= 3] paging
    structures are missing for the address, the first [m] entries of the 4K list
    stand for different unused untypeds and the first [m] slots of the caller
    are different and empty, then [map_frame_cspace] returns no error, the
    structures are there afterwards, and exactly [m] untypeds were used. *)
Theorem map_frame_cspace_maps {K} {HE : Env K} (v : paging_view K) (c : cspace_t) (vspace vaddr : Z)
    (self : Z -> M (sos K) Z) (p cap : Z) (r : rights) (attr : Z) (slots : list Z) (used : Z)
    (s : sos K) (ls : head_ref -> list Z) :
  paging_kernel v c cap vspace vaddr r attr -> p <> 0 -> s_cspaces s !! p = Some c -> ut_rep (s_ut s) ls ->
  let m := missing v (s_env s) in
  (m <= 3)%nat -> mappable v (s_env s) -> at_hand v s ls slots 0 m ->
  wp (map_frame_cspace self p cap vspace vaddr r attr slots used)
     (fun res s' => fst res = seL4_NoError /\ missing v (s_env s') = 0%nat /\
        ut_rep (s_ut s') (upd ls L4K (drop m (ls L4K)))) (fun _ => False) s.
Proof.
  intros Hk Hp Hc HR m H3 Hm Hh. unfold map_frame_cspace, map_frame_impl.
  destruct (Z.eqb_spec p 0); [done |]. rewrite !wp_bind. apply wp_call_run. intros e k' E.
  destruct (pk_page _ _ _ _ _ _ _ Hk _ _ _ Hm E) as (Hm' & Hz & Hnz).
  eapply wp_mono; [eapply (map_loop_reaches v c cap vspace vaddr r attr Hk m) | | done]; try done.
  - case_decide; [by apply Hz | by apply Hnz].
  - intros H0. destruct (Hnz H0) as (_ & Hl & Hv). split; [done |]. split; [by apply Hv | by eapply at_hand_call].
  - intros [err src] s'. by rewrite wp_ret.
Qed.

(** A kernel whose only memory is the number of structures missing for one
    address, and the level the last failed mapping reported. *)
Definition tables_invoke (i : invocation) (k : nat * Z) : Z * (nat * Z) :=
  let '(m, lvl) := k in
  match i with
  | Page_Map _ _ _ _ _ => if (m =? 0)%nat then (0, k) else (seL4_FailedLookup, (m, missing_level m))
  | PageTable_Map _ _ _ _ => if (m =? 1)%nat then (0, (0%nat, lvl)) else (seL4_FailedLookup, k)
  | PageDirectory_Map _ _ _ _ => if (m =? 2)%nat then (0, (1%nat, lvl)) else (seL4_FailedLookup, k)
  | PageUpperDirectory_Map _ _ _ _ =>
      if (3 <=? m)%nat then (0, (Nat.pred m, lvl)) else (seL4_FailedLookup, k)
  | _ => (0, k)
  end.

Definition tables_env : Env (nat * Z) :=
  {| invoke := tables_invoke; failed_level := snd; calloc := fun _ k => (0x10000, k);
     free := fun _ k => k; word_past := fun _ _ => 0 |}.

(** In this kernel every frame can be mapped and every untyped and slot is good;
    a structure can be mapped when it is the topmost missing one. *)
Definition tables_view : paging_view (nat * Z) :=
  {| missing := fst; mappable _ := True; fresh_ut _ _ := True; empty_slot _ _ := True; holds_table _ _ _ := True |}.

Lemma tables_paging c cap vspace vaddr r attr : @paging_kernel _ tables_env tables_view c cap vspace vaddr r attr.
Proof.
  split; simpl.
  - intros [m lvl] e k' _. simpl. destruct (Nat.eqb_spec m 0); intros [= <- <-]; simpl; done.
  - intros [m lvl] n ut slot e k' _ _ _. unfold table_retype. destruct (two_level c); intros [= <- <-]; done.
  - intros [m lvl] slot e k' Hm _. simpl in *.
    destruct m as [|[|[|m]]]; simpl; [lia | | |]; intros [= <- <-]; done.
Qed.

(** Three table entries in the 4K list, and an empty cspace at address 8. *)
Definition demo_ut : ut_table_t :=
  mkUtTable 0 0 [0; 0; 0; 0; 0; 0; 0; 0; 16] 3 0
    (list_to_map [(16, mkUt 1 1 12 32); (32, mkUt 2 1 12 48); (48, mkUt 3 1 12 0)]).
Definition demo_lists : head_ref -> list Z := upd (fun _ => []) L4K [16; 32; 48].

Lemma demo_ut_rep : ut_rep demo_ut demo_lists.
Proof.
  split.
  - done.
  - intros r Hr. unfold demo_lists, upd. case_decide as E.
    + subst. exists 16. split; [done |]. vm_compute. repeat split; done.
    + exists 0. split; [|done]. destruct r as [i|]; [|done].
      unfold valid_ref, N_UNTYPED_LISTS, seL4_PageBits, seL4_EndpointBits in Hr.
      assert (i <> 8) by (intros ->; by apply E).
      assert (i = 0 \/ i = 1 \/ i = 2 \/ i = 3 \/ i = 4 \/ i = 5 \/ i = 6 \/ i = 7) as Hi by lia.
      destruct_or! Hi; by subst.
  - intros r Hr. unfold demo_lists, upd. case_decide; [|constructor].
    apply (bool_decide_unpack _). by vm_compute.
  - intros r r' x _ _. unfold demo_lists, upd. repeat case_decide; subst; try done; set_solver.
  - intros i x _. unfold demo_lists, upd. case_decide as E; [|set_solver]. injection E as ->.
    intros Hx. rewrite !elem_of_cons in Hx. destruct_or! Hx; subst; try done; set_solver.
Qed.

Definition demo_cspace : cspace_t :=
  mkCspace 2 false 12 0 [0; 0] 0 0 ∅ 0 0 0 None [0; 0; 0; 0].
Definition demo_sos {K} (k : K) : sos K :=
  set_ut demo_ut (set_cspaces {[8 := demo_cspace]} (set_boot (mkBoot 0x8000400000 3) (initial_sos 0 k))).

Lemma map_frame_cspace_maps_witness :
  wp (@map_frame_cspace _ tables_env (fun _ => ret 0) 8 5 3 0x1000 seL4_AllRights 3 [91; 92; 93; 94] 0)
     (fun res s' => fst res = seL4_NoError /\ fst (s_env s') = 0%nat /\
        ut_rep (s_ut s') (upd demo_lists L4K (drop 3 (demo_lists L4K))))
     (fun _ => False) (demo_sos (3%nat, 0)).
Proof.
  apply (map_frame_cspace_maps (HE := tables_env) tables_view demo_cspace 3 0x1000 (fun _ => ret 0) 8 5 seL4_AllRights 3
           [91; 92; 93; 94] 0 (demo_sos (3%nat, 0)) demo_lists).
  - apply tables_paging.
  - done.
  - done.
  - apply demo_ut_rep.
  - simpl. lia.
  - done.
  - split; [by vm_compute; lia | done | apply (bool_decide_unpack _); by vm_compute | | apply (bool_decide_unpack _); by vm_compute].
    simpl. intros j Hj. assert (j = 0 \/ j = 1 \/ j = 2) as Hc by lia.
    destruct_or! Hc; subst; eexists; split; (reflexivity || done).
Defined.
