(* ===== verification/Dma.v ===== *)
(** * DMA memory

    Model of sos/src/dma.c: a bump allocator over one large page, which never
    frees.  The specification is about addresses: what is handed out lies inside
    the page, is aligned as asked, and never overlaps what was handed out
    before. *)

From S2P Require Import Prelude SosState UtTable Bitfield Cspace Mapping.

(** [DMA_ALIGN] rounds up to a multiple of the number of bits, 7. *)
Definition DMA_ALIGN_BITS : Z := 7.
Definition DMA_ALIGN (a : Z) : Z := ROUND_UP a DMA_ALIGN_BITS.

Definition dma_set_pnext (x : Z) (d : dma_t) : dma_t :=
  mkDma (vstart d) (pstart d) x (pend d) (dma_cap d) (dma_vspace d).

Definition dma_phys_to_virt (d : dma_t) (phys : Z) : Z := w64 (vstart d + w64 (phys - pstart d)).
Definition dma_virt_to_phys (d : dma_t) (vaddr : Z) : Z := w64 (pstart d + w64 (vaddr - vstart d)).

Section Dma.
Context {K : Type} `{Env K}.
Abbreviation MS := (M (sos K)).

Definition sos_dma_phys_to_virt (phys : Z) : MS Z := gets (fun s => dma_phys_to_virt (s_dma s) phys).
Definition sos_dma_virt_to_phys (vaddr : Z) : MS Z := gets (fun s => dma_virt_to_phys (s_dma s) vaddr).

Definition sos_dma_cache_invalidate (addr size : Z) : MS Z :=
  let* d := gets s_dma in call (PGD_Invalidate_Data (dma_vspace d) addr (w64 (addr + size))).
Definition sos_dma_cache_clean (addr size : Z) : MS Z :=
  let* d := gets s_dma in call (PGD_Clean_Data (dma_vspace d) addr (w64 (addr + size))).
Definition sos_dma_cache_clean_invalidate (addr size : Z) : MS Z :=
  let* d := gets s_dma in call (PGD_CleanInvalidate_Data (dma_vspace d) addr (w64 (addr + size))).

Definition dma_write_pnext (x : Z) : MS unit :=
  modify (fun s => set_dma (dma_set_pnext x (s_dma s)) s).

(** Returns [dma_addr_t]: virtual and physical address. *)
Definition sos_dma_malloc (size align : Z) : MS (Z * Z) :=
  let* d := gets s_dma in
  do* dma_write_pnext (DMA_ALIGN (pnext d)) in
  let* d := gets s_dma in
  do* dma_write_pnext (ROUND_UP (pnext d) align) in
  let* d := gets s_dma in
  if pend d <=? w64 (pnext d + size) then ret (0, 0)
  else
    let* vaddr := sos_dma_phys_to_virt (pnext d) in
    let paddr := pnext d in
    do* dma_write_pnext (w64 (pnext d + size)) in
    do* sos_dma_cache_clean_invalidate vaddr size in
    ret (vaddr, paddr).
End Dma.

Definition dma_init {K} `{Env K} `{CspaceAlloc K} (cspace vspace ut pstart' vstart' : Z) : M (sos K) Z :=
  if (ut =? seL4_CapNull) || (vspace =? seL4_CapNull) || (cspace =? 0) || (pstart' =? 0) then ret (-1)
  else
    do* modify (fun s => set_dma (mkDma vstart' pstart' pstart' (w64 (pstart' + BIT seL4_LargePageBits))
                                    (dma_cap (s_dma s)) vspace) s) in
    let* vaddr := sos_dma_phys_to_virt pstart' in
    map_frame 0 ut vspace vaddr seL4_AllRights seL4_ARM_Default_VMAttributes.

(** ** Specification *)

(** Addresses are in order, and far enough below the end of the address space
    that [n] requests cannot wrap: a request, even one that fails, moves [pnext]
    by less than [2^32] beyond what it hands out. *)
Record dma_wf (n : nat) (d : dma_t) : Prop := {
  dma_order : 0 <= pstart d <= pnext d;
  dma_next : pnext d + Z.of_nat n * 2 ^ 32 <= 2 ^ 63;
  dma_end : pend d + Z.of_nat n * 2 ^ 32 <= 2 ^ 63 }.

Lemma ROUND_UP_spec n b : 0 <= n -> 0 < b -> n + b < 2 ^ 64 ->
  n <= ROUND_UP n b < n + b /\ ROUND_UP n b mod b = 0.
Proof.
  intros Hn Hb Hlt. unfold ROUND_UP, w64. pose proof (Z.mod_pos_bound n b Hb) as Hm.
  destruct (Z.eqb_spec (n mod b) 0) as [E|E].
  - rewrite Z.add_0_r, Z.mod_small by lia. lia.
  - rewrite (Z.mod_small (n + _) (2 ^ 64)) by lia. split; [lia |].
    rewrite (Z.div_mod n b) at 1 by lia. replace (b * (n / b) + n mod b + (b - n mod b))
      with ((n / b + 1) * b) by lia. apply Z.mod_mul. lia.
Qed.

(** The address a request of the current state gets. *)
Definition dma_candidate (d : dma_t) (align : Z) : Z := ROUND_UP (DMA_ALIGN (pnext d)) align.

Lemma dma_candidate_spec n d align : dma_wf (S n) d -> 0 < align < 2 ^ 31 ->
  pnext d <= dma_candidate d align < pnext d + 2 ^ 32 /\ dma_candidate d align mod align = 0.
Proof.
  intros [H1 H2 H3] Ha. unfold dma_candidate, DMA_ALIGN, DMA_ALIGN_BITS.
  destruct (ROUND_UP_spec (pnext d) 7) as [Hr _]; [lia | lia | lia |].
  destruct (ROUND_UP_spec (ROUND_UP (pnext d) 7) align) as [Hr' Hm]; lia.
Qed.

Section DmaRun.
Context {K : Type} {HE : Env K}.
Implicit Types (s : sos K).

(** The state after a request, but for the outside. *)
Definition dma_moved s (x : Z) s' : Prop :=
  s_dma s' = dma_set_pnext x (s_dma s) /\ exists k, s' = set_env k (set_dma (s_dma s') s).

Lemma wp_dma_malloc n s size align (Q : Z * Z -> sos K -> Prop) F :
  dma_wf (S n) (s_dma s) -> 0 < align < 2 ^ 31 -> 0 <= size < 2 ^ 63 ->
  let p := dma_candidate (s_dma s) align in
  (pend (s_dma s) <= p + size -> forall s', dma_moved s p s' -> Q (0, 0) s') ->
  (p + size < pend (s_dma s) -> forall s', dma_moved s (p + size) s' ->
     Q (dma_phys_to_virt (s_dma s) p, p) s') ->
  wp (sos_dma_malloc size align) Q F s.
Proof.
  intros Hwf Ha Hsz p Hout Hin. destruct (dma_candidate_spec _ _ _ Hwf Ha) as [Hp _].
  destruct Hwf as [H1 H2 H3]. fold p in Hp.
  unfold sos_dma_malloc, dma_write_pnext, sos_dma_phys_to_virt, sos_dma_cache_clean_invalidate.
  wp_steps. simpl. fold (dma_candidate (s_dma s) align). fold p.
  unfold w64 at 1. rewrite Z.mod_small by lia.
  destruct (Z.leb_spec (pend (s_dma s)) (p + size)) as [Hle|Hlt].
  - wp_steps. apply Hout; [done |]. split; [done |]. exists (s_env s). by destruct s.
  - wp_steps. apply wp_call. intros e k. wp_steps.
    assert (w64 (p + size) = p + size) as -> by (unfold w64; rewrite Z.mod_small; lia).
    apply Hin; [done |]. split; [done |]. exists k. by destruct s.
Qed.

(** A sequence of requests, and the regions they got. *)
Fixpoint dma_requests (rs : list (Z * Z)) : M (sos K) (list (Z * Z)) :=
  match rs with
  | [] => ret []
  | (size, align) :: rs' =>
      let* a := sos_dma_malloc size align in
      let* l := dma_requests rs' in
      ret (if snd a =? 0 then l else (snd a, size) :: l)
  end.

(** Regions are ordered and lie in [lo, hi). *)
Fixpoint regions_in (lo hi : Z) (l : list (Z * Z)) : Prop :=
  match l with
  | [] => True
  | (p, size) :: l' => lo <= p /\ p + size < hi /\ regions_in (p + size) hi l'
  end.

Lemma regions_weaken lo lo' hi l : lo' <= lo -> regions_in lo hi l -> regions_in lo' hi l.
Proof. destruct l as [|[p z] l]; simpl; [done |]. intros ? (? & ? & ?). split_and!; done || lia. Qed.
End DmaRun.

Section DmaSequence.
Context {K : Type} {HE : Env K}.
Implicit Types (s : sos K).

(** Well-formedness after a request. *)
Lemma dma_wf_moved n s x s' : dma_wf (S n) (s_dma s) -> dma_moved s x s' ->
  pnext (s_dma s) <= x -> x < pnext (s_dma s) + 2 ^ 32 \/ x < pend (s_dma s) -> dma_wf n (s_dma s').
Proof. intros [H1 H2 H3] [-> _] Hx Hor. split; simpl; lia. Qed.

Lemma wp_dma_requests rs s :
  dma_wf (length rs) (s_dma s) -> 0 < pstart (s_dma s) ->
  Forall (fun r => 0 <= fst r < 2 ^ 63 /\ 0 < snd r < 2 ^ 31) rs ->
  wp (dma_requests rs) (fun l _ => regions_in (pnext (s_dma s)) (pend (s_dma s)) l) (fun _ => False) s.
Proof.
  revert s. induction rs as [|[size align] rs IH]; intros s Hwf Hpos Hall; [done |].
  apply list.Forall_cons in Hall as [[Hsz Ha] Hall]. simpl in Hsz, Ha. cbn [dma_requests]. rewrite wp_bind.
  destruct (dma_candidate_spec _ _ _ Hwf Ha) as [Hc _].
  eapply wp_dma_malloc; try done.
  - intros _ s' Hd. rewrite wp_bind.
    eapply wp_mono; [apply IH | | done]; [by eapply dma_wf_moved; eauto; lia | | done |].
    + by destruct Hd as [-> _].
    + intros l s''. rewrite wp_ret. simpl. destruct Hd as [-> _]. apply regions_weaken. simpl. lia.
  - intros Hlt s' Hd. rewrite wp_bind.
    eapply wp_mono; [apply IH | | done]; [eapply dma_wf_moved; eauto; lia | | done |].
    + by destruct Hd as [-> _].
    + intros l s''. rewrite wp_ret. simpl. destruct Hwf.
      destruct (Z.eqb_spec (dma_candidate (s_dma s) align) 0); [lia |].
      destruct Hd as [-> _]. simpl. intros Hl. split_and!; try done; lia.
Qed.
End DmaSequence.

(** C32: DMA allocations never overlap.  For any sequence of requests of less than
    [2^63] bytes each, with alignments below [2^31], the regions handed out
    (those with a nonzero physical address) all lie between the first free
    address and the end of the DMA page, each one starting at or after the end of
    the one before; no request faults.  The bound on the size is needed: the
    check of the code wraps for larger ones ([dma_malloc_wraps]). *)
Theorem dma_requests_disjoint {K} {HE : Env K} (rs : list (Z * Z)) (s : sos K) :
  dma_wf (length rs) (s_dma s) -> 0 < pstart (s_dma s) ->
  Forall (fun r => 0 <= fst r < 2 ^ 63 /\ 0 < snd r < 2 ^ 31) rs ->
  wp (dma_requests rs) (fun l _ => regions_in (pnext (s_dma s)) (pend (s_dma s)) l) (fun _ => False) s.
Proof. apply wp_dma_requests. Qed.

(** The state after [dma_init] with a page at 16M, seen at 512G. *)
Definition demo_dma : sos (nat * Z) :=
  set_dma (mkDma 0x8000400000 0x1000000 0x1000000 0x1200000 0 3) (initial_sos 0 (0%nat, 0)).

Lemma dma_requests_disjoint_witness :
  wp (@dma_requests _ tables_env [(10, 1); (4096, 4096); (0x200000, 64)])
     (fun l _ => regions_in 0x1000000 0x1200000 l) (fun _ => False) demo_dma.
Proof.
  apply (dma_requests_disjoint (HE := tables_env) [(10, 1); (4096, 4096); (0x200000, 64)] demo_dma).
  - split; simpl; lia.
  - simpl. lia.
  - repeat constructor; simpl; lia.
Defined.

(** A successful DMA allocation of less than [2^63] bytes, with an alignment
    below [2^31], is aligned as requested, lies inside the DMA page, and its
    virtual and physical addresses translate to each other; a failed one returns
    two null addresses and is a request that does not fit.  Larger requests can
    be granted although they do not fit ([dma_malloc_wraps]). *)
Theorem dma_malloc_spec {K} {HE : Env K} (s : sos K) (size align : Z) :
  dma_wf 1 (s_dma s) -> 0 < pstart (s_dma s) -> 0 <= vstart (s_dma s) < 2 ^ 63 ->
  0 < align < 2 ^ 31 -> 0 <= size < 2 ^ 63 ->
  wp (sos_dma_malloc size align)
     (fun a s' =>
        (a = (0, 0) /\ pend (s_dma s) <= dma_candidate (s_dma s) align + size) \/
        (snd a mod align = 0 /\ pnext (s_dma s) <= snd a /\ snd a + size < pend (s_dma s) /\
         pnext (s_dma s') = snd a + size /\
         dma_virt_to_phys (s_dma s') (fst a) = snd a /\
         dma_phys_to_virt (s_dma s') (snd a) = fst a))
     (fun _ => False) s.
Proof.
  intros Hwf Hpos Hv Ha Hsz. destruct (dma_candidate_spec _ _ _ Hwf Ha) as [Hp Hm].
  destruct Hwf as [H1 H2 H3] eqn:Ew. clear Ew. eapply wp_dma_malloc; try done.
  - intros Hle s' _. left. done.
  - intros Hlt s' [-> _]. right. simpl. split_and!; try done; [lia |].
    unfold dma_virt_to_phys, dma_phys_to_virt, dma_set_pnext, w64. simpl.
    rewrite !(Z.mod_small _ (2 ^ 64)) by lia. lia.
Qed.

Lemma dma_malloc_spec_witness :
  wp (@sos_dma_malloc _ tables_env 10 16)
     (fun a s' =>
        (a = (0, 0) /\ 0x1200000 <= dma_candidate (s_dma demo_dma) 16 + 10) \/
        (snd a mod 16 = 0 /\ 0x1000000 <= snd a /\ snd a + 10 < 0x1200000 /\
         pnext (s_dma s') = snd a + 10 /\
         dma_virt_to_phys (s_dma s') (fst a) = snd a /\
         dma_phys_to_virt (s_dma s') (snd a) = fst a))
     (fun _ => False) demo_dma.
Proof.
  apply (dma_malloc_spec (HE := tables_env) demo_dma 10 16); simpl; try lia. split; simpl; lia.
Defined.

(** [DMA_ALIGN] passes the number of bits, not the alignment: the next address
    after a request of 10 bytes is a multiple of 7 and not of 128. *)
Lemma dma_align_is_seven :
  DMA_ALIGN 0x100000A mod 128 <> 0 /\ DMA_ALIGN 0x100000A mod 7 = 0.
Proof. split; vm_compute; done. Qed.

(** The bound check wraps: a request of almost [2^64] bytes is granted, and the
    next free address is then below the one handed out. *)
Lemma dma_malloc_wraps :
  exists a s', @sos_dma_malloc _ tables_env (2 ^ 64 - 4096) 64 demo_dma = inl (a, s') /\
    snd a <> 0 /\ pnext (s_dma s') < snd a.
Proof. eexists _, _. split; [vm_compute; reflexivity |]. vm_compute. done. Qed.
