(* ===== verification/Bootstrap.v ===== *)
(** * Bootstrap

    Model of sos/src/bootstrap.c.  The first half is the allocation functions of
    SOS's own cspace: the [CspaceAlloc] instance of the program, and the proof
    that it keeps the promises ([CspaceAllocLaws]) the cspace library is verified
    against.  The second half is the boot code: sizing the untyped table from the
    boot information, stealing memory, building the cspace and the table. *)

From S2P Require Import Prelude SosState UtTable Bitfield Cspace CspaceInv Mapping Dma.

(** ** The allocation functions of the initial cspace *)

Section Callbacks.
Context {K : Type} `{Env K}.
Abbreviation MS := (M (sos K)).

(** [NULL] on error, else the next free address, which moves on. *)
Definition alloc_vaddr (err : Z) : MS Z :=
  if err =? 0 then
    let* b := gets s_boot in
    do* modify (fun s => set_boot (mkBoot (w64 (next_free_vaddr b + PAGE_SIZE_4K)) (boot_vspace b)) s) in
    ret (next_free_vaddr b)
  else ret 0.

Definition bootstrap_cspace_map_frame (alloc_slot : Z -> MS Z) (cookie cap : Z)
    (free_slots : list Z) (used : Z) : MS (Z * Z) :=
  let* b := gets s_boot in
  let* '(err, used) := map_frame_cspace alloc_slot cookie cap (boot_vspace b) (next_free_vaddr b)
                         seL4_AllRights seL4_ARM_Default_VMAttributes free_slots used in
  let* addr := alloc_vaddr err in
  ret (addr, used).

(** [untyped->cap] is read without looking at [untyped]. *)
Definition bootstrap_cspace_alloc_4k_ut (cookie : Z) : MS (Z * Z) :=
  let* '(untyped, _) := ut_alloc_4k_untyped in
  let* n := ut_read untyped in
  ret (untyped, ut_cap n).

Definition bootstrap_cspace_free_4k_ut (cookie untyped : Z) : MS unit := ut_free untyped.

#[export] Instance bootstrap_alloc : CspaceAlloc K := {|
  cb_map_frame := bootstrap_cspace_map_frame;
  cb_alloc_4k_ut := bootstrap_cspace_alloc_4k_ut;
  cb_free_4k_ut := bootstrap_cspace_free_4k_ut |}.

(** The address returned is read after the mapping is done. *)
Definition bootstrap_map_frame (cspace cap : Z) : MS Z :=
  let* b := gets s_boot in
  let* err := map_frame cspace cap (boot_vspace b) (next_free_vaddr b) seL4_AllRights
                seL4_ARM_Default_VMAttributes in
  alloc_vaddr err.
End Callbacks.

(** *** They keep their promises *)

Section Laws.
Context {K : Type} {HE : Env K}.
Implicit Types (s : sos K).

(** What the allocation functions leave alone: the fields of all table entries
    but [next], as in [g_table], the lists other than the 4K one, and the nodes in
    [g_held], which are in no list.  All nodes are below [g_base], and memory
    mapped from now on is above it. *)
Record untouched := mkG {
  g_table : ut_table_t; g_lists : head_ref -> list Z; g_held : gset Z; g_base : Z }.

(** The pool is the 4K list of the untyped table; what is handed out is in no
    list.  Table entries are at addresses below the last word. *)
Record boot_pool (G : untouched) (l : list Z) (o : gset Z) s : Prop := {
  bp_room : page_map_bound -> 0 <= g_base G <= next_free_vaddr (s_boot s) /\
    next_free_vaddr (s_boot s) <= Z.max (g_base G) (2 ^ 47 + 4096);
  bp_meta : ut_meta (g_table G) (s_ut s);
  bp_rep : ut_rep (s_ut s) (upd (g_lists G) L4K l);
  bp_free x : x ∈ l -> 0 <= x < ULONG_MAX /\ x < g_base G;
  bp_out x : x ∈ o -> x <> 0 /\ (0 <= x < ULONG_MAX /\ x < g_base G) /\ unlisted (upd (g_lists G) L4K l) x /\
    ut_size_bits (ut_node (ut_mem (s_ut s)) x) = seL4_PageBits;
  bp_held x : x ∈ g_held G -> (x ∉ o) /\ unlisted (upd (g_lists G) L4K l) x }.

Lemma boot_pool_ut G l o s s' :
  s_ut s' = s_ut s -> s_boot s' = s_boot s -> boot_pool G l o s -> boot_pool G l o s'.
Proof. intros E Eb []. split; by rewrite ?E, ?Eb. Qed.

Lemma unlisted_upd ls r l x : unlisted ls x -> x ∉ l -> unlisted (upd ls r l) x.
Proof. intros Hu Hx r' Hr'. unfold upd. case_decide; [done | by apply Hu]. Qed.

Lemma unlisted_sub ls ls' x : (forall r y, y ∈ ls' r -> y ∈ ls r) -> unlisted ls x -> unlisted ls' x.
Proof. intros Hs Hu r Hr Hin. apply (Hu r Hr), Hs, Hin. Qed.

Lemma upd_tail_sub ls r x l : ls r = x :: l -> forall r' y, y ∈ upd ls r l r' -> y ∈ ls r'.
Proof. intros E r' y. unfold upd. case_decide; [subst; rewrite E; set_solver | done]. Qed.

Lemma upd_pop_sub ls x l r y : y ∈ upd ls L4K l r -> y ∈ upd ls L4K (x :: l) r.
Proof. unfold upd. case_decide; [set_solver | done]. Qed.

(** Taking the head of the pool, and putting an untyped back. *)
Lemma wp_boot_pop G l o s (Q : Z * option Z -> sos K -> Prop) F :
  boot_pool G l o s -> (l = [] -> Q (0, None) s) ->
  (forall x l' a u', l = x :: l' -> x <> 0 -> 0 <= x < ULONG_MAX -> x ∉ o -> x ∉ g_held G ->
     boot_pool G l' ({[x]} ∪ o) (set_ut u' s) -> Q (x, a) (set_ut u' s)) ->
  wp ut_alloc_4k_untyped Q F s.
Proof.
  intros [Hroom Hm0 HR Hb Ho Hh] Hnone Hsome.
  eapply wp_ut_alloc_4k; [done | rewrite upd_eq; done |].
  intros x l' u' El Hx HR' Hun Hm Hsz. rewrite upd_eq in El. subst l.
  assert (x ∈ upd (g_lists G) L4K (x :: l') L4K) as Hxin by (rewrite upd_eq; set_solver).
  assert (forall y, unlisted (upd (g_lists G) L4K (x :: l')) y -> unlisted (upd (g_lists G) L4K l') y) as Hsub.
  { intros y. apply unlisted_sub. intros. by apply upd_pop_sub. }
  rewrite upd_upd in HR'. eapply Hsome; [done | done | apply Hb; set_solver | | |].
  - intros Hin. destruct (Ho x Hin) as (_ & _ & Hu & _). by apply (Hu L4K L4K_valid).
  - intros Hin. destruct (Hh x Hin) as [_ Hu]. by apply (Hu L4K L4K_valid).
  - split; [done | by etrans | done | intros y Hy; apply Hb; set_solver | |].
    + intros y [->%elem_of_singleton|Hy]%elem_of_union.
      * split; [done |]. split; [apply Hb; set_solver |]. split; [|done].
        intros r Hr Hin. apply (Hun r Hr). revert Hin. unfold upd. by case_decide.
      * destruct (Ho y Hy) as (Hy0 & Hyb & Hyu & Hys). split; [done |]. split; [done |].
        split; [by apply Hsub |]. simpl. destruct Hm as (_ & _ & _ & Hm). by destruct (Hm y) as (_ & _ & ->).
    + intros y Hy. destruct (Hh y Hy) as [Hyo Hyu]. split; [|by apply Hsub].
      intros [->%elem_of_singleton|Hin]%elem_of_union; [by apply (Hyu L4K L4K_valid) | done].
Qed.

Lemma wp_boot_push G x l o s (Q : unit -> sos K -> Prop) F :
  boot_pool G l o s -> x ∈ o ->
  (forall u', boot_pool G (x :: l) (o ∖ {[x]}) (set_ut u' s) -> Q tt (set_ut u' s)) ->
  wp (ut_free x) Q F s.
Proof.
  intros [Hroom Hm0 HR Hb Ho Hh] Hx HQ. destruct (Ho x Hx) as (Hx0 & Hxb & Hxu & Hxs).
  eapply wp_ut_free; [done | done | done | rewrite Hxs; done |].
  rewrite Hxs. intros u' r HR' Hm. change r with L4K in *. clear r. rewrite upd_eq, upd_upd in HR'.
  assert (forall y, y <> x -> unlisted (upd (g_lists G) L4K l) y -> unlisted (upd (g_lists G) L4K (x :: l)) y) as Hsub.
  { intros y Hne Hu r Hr Hin. unfold upd in Hin. case_decide as E; [subst r|].
    - apply list.elem_of_cons in Hin as [->|Hin]; [done |]. apply (Hu L4K Hr). by rewrite upd_eq.
    - apply (Hu r Hr). by rewrite upd_ne. }
  apply HQ. split; [done | by etrans | done | | |].
  - intros y [->|Hy]%list.elem_of_cons; [done | by apply Hb].
  - intros y [Hy Hne]%elem_of_difference. destruct (Ho y Hy) as (Hy0 & Hyb & Hyu & Hys).
    split; [done |]. split; [done |]. split; [apply Hsub; [set_solver | done] |].
    simpl. destruct Hm as (_ & _ & _ & Hm). by destruct (Hm y) as (_ & _ & ->).
  - intros y Hy. destruct (Hh y Hy) as [Hyo Hyu]. split; [set_solver | apply Hsub; [set_solver | done]].
Qed.

Section At.
Context (G : untouched).

Lemma boot_alloc_law cookie l o s : boot_pool G l o s ->
  wp (bootstrap_cspace_alloc_4k_ut cookie) (fun r s' => s_cspaces s' = s_cspaces s /\
      ((fst r = 0 /\ boot_pool G l o s') \/
       (exists l', l = fst r :: l' /\ fst r <> 0 /\ 0 <= fst r < ULONG_MAX /\ (fst r ∉ o) /\
          boot_pool G l' ({[fst r]} ∪ o) s'))) (fun e => e = NullDeref) s.
Proof.
  intros Hp. unfold bootstrap_cspace_alloc_4k_ut. rewrite wp_bind. eapply wp_boot_pop; [done | |].
  { intros _. by rewrite wp_bind. }
  intros x l' a u' -> Hx Hb Ho _ Hp'. rewrite wp_bind. apply wp_ut_read; [done |]. rewrite wp_ret.
  split; [done |]. right. by exists l'.
Qed.

Lemma boot_free_law cookie x l o s : boot_pool G l o s -> x ∈ o ->
  wp (bootstrap_cspace_free_4k_ut cookie x) (fun _ s' => s_cspaces s' = s_cspaces s /\
      boot_pool G (x :: l) (o ∖ {[x]}) s') (fun e => e = NullDeref) s.
Proof. intros Hp Hx. by eapply wp_boot_push. Qed.

(** The pool after untypeds were taken for paging structures. *)
Lemma boot_pool_mapped l o s s' :
  boot_pool G l o s -> mapped_from s (upd (g_lists G) L4K l) s' ->
  exists l1 l', l = l1 ++ l' /\ boot_pool G l' (list_to_set l1 ∪ o) s'.
Proof.
  intros [Hroom Hm0 HR Hb Ho Hh] (l1 & ls' & HR' & [Hp1 Hp2] & Hm & Hl1 & E).
  rewrite upd_eq in Hp1. exists l1, (ls' L4K). split; [done |].
  assert (pointwise_relation _ eq ls' (upd (g_lists G) L4K (ls' L4K))) as Els.
  { intros r. unfold upd. case_decide as Er; [by subst |]. rewrite Hp2 by done. by rewrite upd_ne. }
  assert (forall y, unlisted ls' y -> unlisted (upd (g_lists G) L4K (ls' L4K)) y) as Hto.
  { intros y Hu r Hr. rewrite <- (Els r). by apply Hu. }
  assert (forall y, unlisted (upd (g_lists G) L4K l) y -> unlisted ls' y) as Hsub.
  { intros y. apply unlisted_sub. intros r z Hz. rewrite (Els r) in Hz. unfold upd in *.
    case_decide; [rewrite Hp1; set_solver | done]. }
  assert (s_boot s' = s_boot s) as Eb by (rewrite E; done). rewrite Hp1 in Hb.
  split; [by rewrite Eb | by etrans | by rewrite <- Els | intros y Hy; apply Hb; set_solver | |].
  - intros y [Hy%elem_of_list_to_set|Hy]%elem_of_union.
    + destruct (Hl1 y Hy) as (H1 & H2 & H3). split; [done |]. split; [apply Hb; set_solver | auto].
    + destruct (Ho y Hy) as (Hy0 & Hyb & Hyu & Hys). split; [done |]. split; [done |]. split; [auto |].
      destruct Hm as (_ & _ & _ & Hm). by destruct (Hm y) as (_ & _ & ->).
  - intros y Hy. destruct (Hh y Hy) as [Hyo Hyu]. split; [|auto].
    intros [Hin%elem_of_list_to_set|Hin]%elem_of_union; [|done].
    apply (Hyu L4K L4K_valid). rewrite upd_eq, Hp1. set_solver.
Qed.

(** Moving on to the next address. *)
Lemma boot_pool_vaddr l o s v :
  (page_map_bound -> next_free_vaddr (s_boot s) < 2 ^ 47) -> boot_pool G l o s ->
  boot_pool G l o (set_boot (mkBoot (w64 (next_free_vaddr (s_boot s) + PAGE_SIZE_4K)) v) s).
Proof.
  intros Hv [Hroom Hm0 HR Hb Ho Hh]. split; try done. simpl. intros HB.
  specialize (Hroom HB). specialize (Hv HB). unfold w64. change PAGE_SIZE_4K with 4096.
  rewrite Z.mod_small by lia. lia.
Qed.

Lemma boot_map_law alloc cookie frame slots used l o s : boot_pool G l o s ->
  length slots = Z.to_nat WATERMARK_SLOTS -> 0 <= used < BIT WATERMARK_SLOTS ->
  wp (bootstrap_cspace_map_frame alloc cookie frame slots used) (fun r s' => s_cspaces s' = s_cspaces s /\
      0 <= snd r < BIT WATERMARK_SLOTS /\ Z.land (snd r) used = used /\
      exists l1 l', l = l1 ++ l' /\ boot_pool G l' (list_to_set l1 ∪ o) s') (fun e => e = NullDeref) s.
Proof.
  intros Hp Hl Hu. unfold bootstrap_cspace_map_frame. rewrite wp_bind, wp_gets, wp_bind.
  eapply wp_mono; [apply wp_conj; [apply wp_map_frame_cspace; [apply Hp | done | done] |
    apply map_frame_cspace_bound] | | done].
  intros [err used'] s' ((Hs & Hu' & Hland) & Hbound). simpl in Hu', Hland, Hbound. rewrite wp_bind.
  assert (s_cspaces s' = s_cspaces s /\ s_boot s' = s_boot s) as [Hcs Eb].
  { destruct Hs as (l1 & ls' & _ & _ & _ & _ & ->). done. }
  destruct (boot_pool_mapped _ _ _ _ Hp Hs) as (l1 & l' & El & Hp').
  unfold alloc_vaddr. destruct (Z.eqb_spec err 0); wp_steps;
    (split; [done |]; split; [done |]; split; [done |]; exists l1, l'; split; [done |]); [|done].
  apply boot_pool_vaddr; [rewrite Eb; auto | done].
Qed.

#[export] Instance bootstrap_laws : CspaceAllocLaws K := {|
  cb_inv := boot_pool G;
  cb_fault := fun e => e = NullDeref;
  cb_inv_cspaces := fun l o cs s H => boot_pool_ut G l o s (set_cspaces cs s) eq_refl eq_refl H;
  cb_inv_env := fun l o k s H => boot_pool_ut G l o s (set_env k s) eq_refl eq_refl H;
  cb_alloc_law := boot_alloc_law;
  cb_free_law := boot_free_law;
  cb_map_law := boot_map_law |}.
End At.
End Laws.
