(* ===== verification/CspaceThms.v ===== *)
(** * The cspace library: theorems

    The promises of the cspace library, proved for any allocation functions that
    keep [CspaceAllocLaws], and applied to SOS's own ([Bootstrap.bootstrap_laws])
    in the witnesses.  One-level cspaces are specified here as well. *)

From S2P Require Import Prelude SosState UtTable Bitfield Cspace CspaceInv Mapping Dma Bootstrap.

#[local] Arguments replicate : simpl never.

(** ** A concrete two-level cspace

    One CNode in which slots 0 to 2 are taken, at address 8, with the three
    untypeds of [demo_ut] to draw from. *)
Definition demo_node : bot_lvl_node_t :=
  mkBotLvlNode 1 64 1 (mkBotLvl [7; 0] 80 :: replicate 168 zero_bot_lvl).
Definition demo2 : cspace_t :=
  mkCspace 2 true 12 8 [0; 0] 0 8 {[0 := demo_node]} 1 0 0 (Some 8) [91; 92; 93; 94].
Definition demo2_sos {K} (k : K) : sos K := set_cspaces {[8 := demo2]} (demo_sos k).

Lemma demo_node_ok : node_ok demo_node 1.
Proof.
  split; [done |]. split; [done |]. intros j b Hj.
  destruct j as [|j]; simpl in Hj.
  - injection Hj as <-. split; [|simpl; lia]. split; [split; [done | repeat constructor; done] | done].
  - apply lookup_replicate in Hj as [-> _]. split; [|done].
    split; [split; [done | repeat constructor; done] | done].
Qed.

Lemma demo2_wf : wf2 demo2 1.
Proof.
  split; try done.
  - split; [done |]. repeat constructor; done.
  - intros i Hi. simpl in Hi. assert (i = 0) as -> by lia. exists demo_node.
    split; [done | apply demo_node_ok].
  - intros i Hi. simpl in *. by rewrite lookup_singleton_ne by lia.
  - intros t Ht. change (top_bf demo2) with (replicate 2 0). by rewrite bf_test_zero.
  - intros t b Ht Hb _. assert (t = 0) as -> by lia. injection Hb as <-. exists 3. done.
Qed.

Definition demo_G : untouched := mkG demo_ut (fun _ => []) ∅ 0x8000400000.

Lemma demo_pool {K} {HE : Env K} (k : K) : boot_pool demo_G [16; 32; 48] ∅ (demo2_sos k).
Proof.
  split; [done | done | apply demo_ut_rep | | set_solver | set_solver].
  intros x Hx. rewrite !list.elem_of_cons in Hx. unfold ULONG_MAX. simpl.
  destruct_or! Hx; [lia | lia | lia | set_solver].
Qed.

Definition demo_laws : CspaceAllocLaws (nat * Z) := bootstrap_laws (HE := tables_env) demo_G.

Lemma demo2_inv : cspace_inv (H0 := demo_laws) 8 demo2 (demo2_sos (0%nat, 0)).
Proof.
  exists [16; 32; 48], ∅. split; [done |]. split; [done |].
  split; [exists 1; apply demo2_wf |]. split; [done | apply (demo_pool (HE := tables_env))].
Qed.

(** ** Two-level cspaces *)

(** C25: [cspace_alloc_slot] on a two-level cspace.  It ends without running out of
    recursion; it either fails, returning the null slot and changing no slot, or
    returns a slot that was free, which is the only one taken, apart from one
    slot that it may put into the watermark.  The bookkeeping stays well formed,
    other cspaces are untouched, and the only faults are those of the allocation
    functions and the assertion of [bf_first_free]. *)
Theorem cspace_alloc_slot_spec {K} {HE : Env K} {HA : CspaceAlloc K} {HL : CspaceAllocLaws K}
    (p : Z) (c : cspace_t) (s : sos K) :
  cspace_inv p c s ->
  wp (cspace_alloc_slot p)
     (fun r s' => exists c', cspace_inv p c' s' /\ alloc_outcome c c' r /\ top_slots c' = top_slots c /\
        forall q, q <> p -> s_cspaces s' !! q = s_cspaces s !! q) alloc_fault s.
Proof. apply wp_alloc_slot. Qed.

Lemma cspace_alloc_slot_spec_witness :
  wp (@cspace_alloc_slot _ tables_env (@bootstrap_alloc _ tables_env) 8)
     (fun r s' => exists c', @cspace_inv _ _ demo_laws 8 c' s' /\
        alloc_outcome demo2 c' r /\ top_slots c' = top_slots demo2 /\
        forall q, q <> 8 -> s_cspaces s' !! q = s_cspaces (demo2_sos (0%nat, 0)) !! q)
     (@alloc_fault _ _ demo_laws) (demo2_sos (0%nat, 0)).
Proof.
  apply (cspace_alloc_slot_spec (HE := tables_env) (HL := demo_laws) 8 demo2).
  apply demo2_inv.
Defined.

(** Slots are never handed out twice: of any number of calls of
    [cspace_alloc_slot] in a row, the results other than the null slot are
    pairwise different, were all free before and are all taken afterwards, and
    no slot that was taken is released. *)
Theorem cspace_allocs_distinct {K} {HE : Env K} {HA : CspaceAlloc K} {HL : CspaceAllocLaws K}
    (n : nat) (p : Z) (c : cspace_t) (s : sos K) :
  cspace_inv p c s ->
  wp (alloc_many n p)
     (fun rs s' => exists c', cspace_inv p c' s' /\ length rs = n /\
        NoDup (filter (fun r => r <> seL4_CapNull) rs) /\
        (forall r, r ∈ rs -> r <> seL4_CapNull -> 0 <= r /\ slot_used c r = false /\ slot_used c' r = true) /\
        (forall y, 0 <= y -> slot_used c y = true -> slot_used c' y = true)) alloc_fault s.
Proof. apply wp_alloc_many. Qed.

Lemma cspace_allocs_distinct_witness :
  wp (@alloc_many _ tables_env (@bootstrap_alloc _ tables_env) 5 8)
     (fun rs s' => exists c', @cspace_inv _ _ demo_laws 8 c' s' /\ length rs = 5%nat /\
        NoDup (filter (fun r => r <> seL4_CapNull) rs) /\
        (forall r, r ∈ rs -> r <> seL4_CapNull ->
           0 <= r /\ slot_used demo2 r = false /\ slot_used c' r = true) /\
        (forall y, 0 <= y -> slot_used demo2 y = true -> slot_used c' y = true))
     (@alloc_fault _ _ demo_laws) (demo2_sos (0%nat, 0)).
Proof.
  apply (cspace_allocs_distinct (HE := tables_env) (HL := demo_laws) 5 8 demo2).
  apply demo2_inv.
Defined.

(** C28: [cspace_free_slot] on a two-level cspace releases exactly the slot it is
    given, for every slot of the cspace but the null slot, without fault, and
    keeps the bookkeeping well formed and other cspaces untouched. *)
Theorem cspace_free_slot_spec {K} {HE : Env K} {HA : CspaceAlloc K} {HL : CspaceAllocLaws K}
    (p : Z) (c : cspace_t) (s : sos K) (x : Z) :
  cspace_inv p c s -> 0 < x < top_slots c * 128 ->
  wp (cspace_free_slot p x)
     (fun _ s' => exists c', cspace_inv p c' s' /\ released c c' x /\
        forall q, q <> p -> s_cspaces s' !! q = s_cspaces s !! q) (fun _ => False) s.
Proof. apply wp_release. Qed.

Lemma cspace_free_slot_spec_witness :
  wp (@cspace_free_slot (nat * Z) 8 2)
     (fun _ s' => exists c', @cspace_inv _ _ demo_laws 8 c' s' /\
        released demo2 c' 2 /\
        forall q, q <> 8 -> s_cspaces s' !! q = s_cspaces (demo2_sos (0%nat, 0)) !! q)
     (fun _ => False) (demo2_sos (0%nat, 0)).
Proof.
  apply (cspace_free_slot_spec (HE := tables_env) (HL := demo_laws) 8 demo2).
  - apply demo2_inv.
  - vm_compute. done.
Defined.

(** Allocating a slot and freeing it gives back the slots as they were: the
    taken slots after the pair are those before it, plus at most one slot that
    the allocation put into the watermark. *)
Theorem cspace_alloc_free_roundtrip {K} {HE : Env K} {HA : CspaceAlloc K} {HL : CspaceAllocLaws K}
    (p : Z) (c : cspace_t) (s : sos K) :
  cspace_inv p c s ->
  wp (let* r := cspace_alloc_slot p in do* cspace_free_slot p r in ret r)
     (fun r s' => exists c', cspace_inv p c' s' /\
        ((forall y, 0 <= y -> slot_used c' y = slot_used c y) \/
         (exists w, w ∈ watermark c' /\ slot_used c w = false /\
            forall y, 0 <= y -> slot_used c' y = bool_decide (y = w) || slot_used c y)))
     alloc_fault s.
Proof.
  intros Hinv. rewrite wp_bind. eapply wp_mono; [by apply wp_alloc_slot | | done].
  intros r s1 (c1 & Hinv1 & Hout & Hts & _). rewrite wp_bind. setoid_rewrite wp_ret.
  destruct Hinv as (l & o & _ & _ & (N & Hwf) & H0 & _). pose proof (wf_water _ _ Hwf) as Hw.
  destruct (decide (r = seL4_CapNull)) as [->|Hr].
  { exists c1. split; [done |]. left. destruct Hout as [_ Hs|(_ & Hx & _)|i w (_ & Hx & _)]; [apply Hs | |];
      (destruct (Hx seL4_CapNull) as [_ Hf]; [set_solver | unfold seL4_CapNull in Hf; by rewrite H0 in Hf]). }
  destruct (alloc_outcome_result _ _ _ Hout Hr) as (Hb & Hf & Ht). unfold seL4_CapNull in Hr.
  eapply wp_mono; [apply (wp_release p c1 s1 r (fun _ => False)); [done | lia] | | done].
  intros _ s2 (c2 & Hinv2 & (Hrel & Hwm & _) & _). exists c2. split; [done |].
  destruct Hout as [-> _|(_ & _ & Hs) _|i w (Hnd & Hx & Hs) Hi Hwm1]; [done | left | right].
  - intros y Hy. rewrite Hrel by done. case_decide; [by subst |].
    by rewrite Hs, bool_decide_eq_false_2 by (done || set_solver).
  - exists w. split; [|split].
    + rewrite Hwm, Hwm1. eapply list_elem_of_lookup_2, list_lookup_insert_eq.
      rewrite Hw. exact Hi.
    + by destruct (Hx w) as [_ ?]; [set_solver |].
    + intros y Hy. rewrite Hrel by done. apply list.NoDup_cons in Hnd as [Hne _].
      case_decide; [subst y; rewrite Hf, bool_decide_eq_false_2 by set_solver; done |].
      rewrite Hs by done. f_equal. apply bool_decide_ext. set_solver.
Qed.

Lemma cspace_alloc_free_roundtrip_witness :
  wp (let* r := @cspace_alloc_slot _ tables_env (@bootstrap_alloc _ tables_env) 8 in
      do* cspace_free_slot 8 r in ret r)
     (fun r s' => exists c', @cspace_inv _ _ demo_laws 8 c' s' /\
        ((forall y, 0 <= y -> slot_used c' y = slot_used demo2 y) \/
         (exists w, w ∈ watermark c' /\ slot_used demo2 w = false /\
            forall y, 0 <= y -> slot_used c' y = bool_decide (y = w) || slot_used demo2 y)))
     (@alloc_fault _ _ demo_laws) (demo2_sos (0%nat, 0)).
Proof.
  apply (cspace_alloc_free_roundtrip (HE := tables_env) (HL := demo_laws) 8 demo2).
  apply demo2_inv.
Defined.

(** C33: Allocation makes progress without memory: when some existing CNode of a
    two-level cspace is not marked full, [cspace_alloc_slot] returns a slot that
    was free, takes nothing else, takes nothing from the pool of untypeds and
    does not fault. *)
Theorem cspace_alloc_slot_progress {K} {HE : Env K} {HA : CspaceAlloc K} {HL : CspaceAllocLaws K}
    (p : Z) (c : cspace_t) (N : Z) (t : Z) (l : list Z) (o : gset Z) (s : sos K) :
  p <> 0 -> s_cspaces s !! p = Some c -> wf2 c N -> cb_inv l o s ->
  0 <= t < N -> t < top_slots c -> bf_test (top_bf c) t = false ->
  wp (cspace_alloc_slot p)
     (fun r s' => exists c', s_cspaces s' = <[p := c']> (s_cspaces s) /\ cb_inv l o s' /\ wf2 c' N /\
        takes c c' [r] /\ watermark c' = watermark c)
     (fun _ => False) s.
Proof.
  intros Hp Hc Hwf Hi Ht Hts Hclr.
  destruct (top_first_free _ _ Hwf) as [(t' & _ & Ht' & _ & Hf & Hlow)|[Hfull _]]; last first.
  { by rewrite Hfull in Hclr by lia. }
  assert (t' <= t) by (destruct (decide (t < t')); [by rewrite Hlow in Hclr by lia | lia]).
  unfold cspace_alloc_slot, alloc_fuel.
  eapply (wp_alloc_present 1 p c N l o s s t'); [done | by apply st_init | done | lia | lia | done | done |].
  intros c' k s' [Hs Hi'] Hwf' Hk Htk _. exists c'. split; [done |]. split; [done |]. split; [done |].
  split; [apply takes_one; [lia | done] | by destruct Htk as (_ & _ & ->)].
Qed.

Lemma cspace_alloc_slot_progress_witness :
  wp (@cspace_alloc_slot _ tables_env (@bootstrap_alloc _ tables_env) 8)
     (fun r s' => exists c', s_cspaces s' = <[8 := c']> (s_cspaces (demo2_sos (0%nat, 0))) /\
        boot_pool (HE := tables_env) demo_G [16; 32; 48] ∅ s' /\ wf2 c' 1 /\ takes demo2 c' [r] /\ watermark c' = watermark demo2)
     (fun _ => False) (demo2_sos (0%nat, 0)).
Proof.
  apply (cspace_alloc_slot_progress (HE := tables_env) (HL := demo_laws)
           8 demo2 1 0 [16; 32; 48] ∅).
  - done.
  - done.
  - apply demo2_wf.
  - apply (demo_pool (HE := tables_env)).
  - lia.
  - vm_compute. done.
  - done.
Defined.

(** ** One-level cspaces *)

(** A one-level cspace: only the top-level bit field. *)
Record wf1 (c : cspace_t) : Prop := {
  wf1_one : two_level c = false;
  wf1_bits : top_lvl_size_bits c = CNODE_SIZE_BITS;
  wf1_top : bf_wf 2 (top_bf c);
  wf1_past : is_word (top_bf_past c) }.

Section OneLevel.
Context {K : Type} {HE : Env K} {HA : CspaceAlloc K}.
Implicit Types (s : sos K).

Lemma wp_cs_read_at p c s (Q : cspace_t -> sos K -> Prop) F :
  s_cspaces s !! p = Some c -> Q c s -> wp (cs_read p) Q F s.
Proof. intros Hc HQ. unfold cs_read. wp_steps. by rewrite Hc. Qed.

Lemma wp_cs_write_at p c f s (Q : unit -> sos K -> Prop) F :
  s_cspaces s !! p = Some c -> Q tt (set_cspaces (<[p := f c]> (s_cspaces s)) s) ->
  wp (cs_write p f) Q F s.
Proof. intros Hc HQ. unfold cs_write. rewrite wp_bind. by eapply wp_cs_read_at. Qed.
End OneLevel.

(** [cspace_alloc_slot] on a one-level cspace returns the least free slot and
    marks it taken; when all 128 slots are taken it returns the null slot and
    changes nothing, or fails the assertion of [bf_first_free] when the word
    behind the bit field is full as well. *)
Theorem one_level_alloc_spec {K} {HE : Env K} {HA : CspaceAlloc K}
    (p : Z) (c : cspace_t) (s : sos K) :
  p <> 0 -> s_cspaces s !! p = Some c -> wf1 c ->
  wp (cspace_alloc_slot p)
     (fun r s' =>
        (s' = s /\ r = seL4_CapNull /\ forall j, 0 <= j < 128 -> bf_test (top_bf c) j = true) \/
        (exists top', s' = set_cspaces (<[p := cs_set_top_bf top' c]> (s_cspaces s)) s /\
           wf1 (cs_set_top_bf top' c) /\
           0 <= r < 128 /\ bf_test (top_bf c) r = false /\
           (forall j, 0 <= j < r -> bf_test (top_bf c) j = true) /\
           (forall j, 0 <= j -> bf_test top' j = if decide (j = r) then true else bf_test (top_bf c) j)))
     (fun e => e = AssertFail /\ top_bf_past c = ULONG_MAX /\
        forall j, 0 <= j < 128 -> bf_test (top_bf c) j = true) s.
Proof.
  intros Hp Hc [W1 W2 W3 W4]. unfold cspace_alloc_slot, alloc_fuel. cbn [alloc_slot_fuel].
  unfold cspace_alloc_slot_body at 1. rewrite wp_bind. apply wp_not_null; [done |]. rewrite wp_bind. eapply wp_cs_read_at; [done |].
  rewrite W1, W2, cnode_words, cnode_slots. rewrite wp_bind, wp_of_option.
  destruct (decide (Exists (fun k => bf_test (top_bf c) (Z.of_nat k) = false) (seq 0 128))) as [Hex|Hex].
  - apply list.Exists_exists in Hex as (k & Hk & Hf). apply elem_of_seq in Hk.
    destruct (bf_first_free_some 2 (top_bf c) (top_bf_past c) (Z.of_nat k) W3)
      as (r & Hr & Hrk & Hrf & Hlow); [lia | done |].
    rewrite Hr. cbn [andb orb]. destruct (Z.leb_spec 128 r); [lia |].
    destruct (bf_set_bit_spec 2 (top_bf c) r W3) as (top' & Hset & Htop & Htest); [lia |].
    rewrite wp_bind, wp_of_option, Hset, wp_bind. eapply wp_cs_write_at; [done |]. rewrite wp_ret.
    right. exists top'. split_and!; try done; lia.
  - assert (forall j, 0 <= j < 128 -> bf_test (top_bf c) j = true) as Hfull.
    { intros j Hj. destruct (bf_test (top_bf c) j) eqn:E; [done |]. destruct Hex.
      apply list.Exists_exists. exists (Z.to_nat j). rewrite Z2Nat.id by lia. split; [|done].
      apply elem_of_seq. lia. }
    rewrite (bf_first_free_none 2 _ _ W3 W4) by (intros; apply Hfull; lia).
    case_decide; [done |]. by left.
Qed.

Definition demo1 : cspace_t := mkCspace 2 false 12 8 [5; 0] 0 0 ∅ 0 0 0 None [0; 0; 0; 0].
Definition demo1_sos : sos (nat * Z) := set_cspaces {[8 := demo1]} (demo_sos (0%nat, 0)).

Lemma demo1_wf : wf1 demo1.
Proof. split; try done. split; [done | repeat constructor; done]. Qed.

Lemma one_level_alloc_spec_witness :
  wp (@cspace_alloc_slot _ tables_env (@bootstrap_alloc _ tables_env) 8)
     (fun r s' =>
        (s' = demo1_sos /\ r = seL4_CapNull /\ forall j, 0 <= j < 128 -> bf_test (top_bf demo1) j = true) \/
        (exists top', s' = set_cspaces (<[8 := cs_set_top_bf top' demo1]> (s_cspaces demo1_sos)) demo1_sos /\
           wf1 (cs_set_top_bf top' demo1) /\
           0 <= r < 128 /\ bf_test (top_bf demo1) r = false /\
           (forall j, 0 <= j < r -> bf_test (top_bf demo1) j = true) /\
           (forall j, 0 <= j -> bf_test top' j = if decide (j = r) then true else bf_test (top_bf demo1) j)))
     (fun e => e = AssertFail /\ top_bf_past demo1 = ULONG_MAX /\
        forall j, 0 <= j < 128 -> bf_test (top_bf demo1) j = true) demo1_sos.
Proof. apply (one_level_alloc_spec (HE := tables_env) 8 demo1); [done | done | apply demo1_wf]. Defined.

(** [cspace_free_slot] on a one-level cspace, on every branch: the null slot
    and slots above 128 are ignored, slots 1 to 127 are released and nothing else
    changes, and slot 128, which the bound check lets through, is outside the
    bit field. *)
Theorem one_level_free_spec {K} {HE : Env K} (p : Z) (c : cspace_t) (s : sos K) (x : Z) :
  s_cspaces s !! p = Some c -> wf1 c -> 0 <= x ->
  wp (cspace_free_slot p x)
     (fun _ s' =>
        ((x = 0 \/ 128 < x) /\ s' = s) \/
        (0 < x < 128 /\ exists top', s' = set_cspaces (<[p := cs_set_top_bf top' c]> (s_cspaces s)) s /\
           wf1 (cs_set_top_bf top' c) /\
           forall j, 0 <= j -> bf_test top' j = if decide (j = x) then false else bf_test (top_bf c) j))
     (fun e => e = OutOfBounds /\ x = 128) s.
Proof.
  intros Hc [W1 W2 W3 W4] Hx. unfold cspace_free_slot, seL4_CapNull.
  destruct (Z.eqb_spec x 0) as [->|Hx0]; [left; by split; [left |] |].
  rewrite wp_bind. eapply wp_cs_read_at; [done |]. rewrite W1, W2, cnode_slots. cbn [negb].
  destruct (Z.ltb_spec 128 x); [left; by split; [right |] |].
  rewrite wp_bind, wp_of_option. destruct (decide (x = 128)) as [->|Hne].
  - assert (bf_clr_bit (top_bf c) 128 = None) as ->; [|done].
    unfold bf_clr_bit. rewrite lookup_ge_None_2; [done |]. destruct W3 as [-> _]. vm_compute. lia.
  - destruct (bf_clr_bit_spec 2 (top_bf c) x W3) as (top' & Hset & Htop & Htest); [lia |].
    rewrite Hset. eapply wp_cs_write_at; [done |]. right. split; [lia |]. by exists top'.
Qed.

Lemma one_level_free_spec_witness :
  wp (@cspace_free_slot (nat * Z) 8 2)
     (fun _ s' =>
        ((2 = 0 \/ 128 < 2) /\ s' = demo1_sos) \/
        (0 < 2 < 128 /\ exists top',
           s' = set_cspaces (<[8 := cs_set_top_bf top' demo1]> (s_cspaces demo1_sos)) demo1_sos /\
           wf1 (cs_set_top_bf top' demo1) /\
           forall j, 0 <= j -> bf_test top' j = if decide (j = 2) then false else bf_test (top_bf demo1) j))
     (fun e => e = OutOfBounds /\ 2 = 128) demo1_sos.
Proof. apply (one_level_free_spec (HE := tables_env) 8 demo1); [done | apply demo1_wf | lia]. Defined.

(** ** Creating a cspace *)

(** On a run in which nothing fails, [cspace_create_two_level] returns no error
    and leaves the new cspace with slots 0 to 2 taken (null, watermark,
    bookkeeping frame) and a watermark with a single slot. *)
Lemma create_two_level_run :
  exists s' t nd, @cspace_create_two_level _ tables_env (@bootstrap_alloc _ tables_env) 8 16 (Some 16)
                 (demo2_sos (0%nat, 0)) = inl (CSPACE_NOERROR, s') /\
    s_cspaces s' !! 16 = Some t /\ bot_lvl_nodes t !! 0 = Some nd /\ n_cnodes nd = 1 /\
    get_bl t 0 = Some (mkBotLvl [7; 0] 48) /\ watermark t = [1; 0; 0; 0].
Proof. eexists _, _, _. split_and!; vm_compute; reflexivity. Qed.

(** [refill_watermark] refills one slot: asked to refill several, it allocates
    a slot for the least of them and leaves every other slot of the watermark as
    it is, also those that were used up. *)
Theorem refill_watermark_once {K} (self : Z -> M (sos K) Z) (p used : Z) (c : cspace_t) (s s1 : sos K)
    (r : Z) :
  0 < used < BIT WATERMARK_SLOTS -> self p s = inl (r, s1) -> s_cspaces s1 !! p = Some c ->
  length (watermark c) = 4%nat ->
  wp (refill_watermark self p used)
     (fun _ s' => exists c', s_cspaces s' !! p = Some c' /\
        watermark c' !! Z.to_nat (CTZL used) = Some r /\
        forall j, j <> Z.to_nat (CTZL used) -> watermark c' !! j = watermark c !! j)
     (fun _ => False) s.
Proof.
  intros Hu Hself Hc Hl. rewrite refill_least by done.
  rewrite wp_bind. unfold wp at 1. rewrite Hself. eapply wp_cs_write_at; [done |].
  eexists. split; [apply lookup_insert_eq |]. simpl. split.
  - apply list_lookup_insert_eq. pose proof (watermark_bit used Hu). lia.
  - intros j Hj. by apply list_lookup_insert_ne.
Qed.

Lemma refill_watermark_once_witness :
  wp (refill_watermark (fun _ => ret 7) 8 15)
     (fun _ s' => exists c', s_cspaces s' !! 8 = Some c' /\
        watermark c' !! Z.to_nat (CTZL 15) = Some 7 /\
        forall j, j <> Z.to_nat (CTZL 15) -> watermark c' !! j = watermark demo2 !! j)
     (fun _ => False) (demo2_sos (0%nat, 0)).
Proof. apply (refill_watermark_once (fun _ => ret 7) 8 15 demo2 _ (demo2_sos (0%nat, 0))); done. Defined.
