(* ===== verification/Sys.v ===== *)
(** * SOS as its components see it

    Components above the cspace and the untyped table (frame table, interrupts,
    loading) use both at once.  [sys_inv p X s] is what they rely on: SOS's own
    cspace at [p] is well formed, the untyped table is, and the untypeds [X] are
    handed out.  The lemmas here say that every operation keeps it and, through
    [rest], that none touches the state of the components above. *)

From S2P Require Import Prelude SosState UtTable Bitfield Cspace CspaceInv Mapping Dma Bootstrap.

(** The state of the components above. *)
Definition rest {K} (s : sos K) : list Z * frame_table_t * Z * dma_t * irq_dispatch_t :=
  (s_avail s, s_ft s, s_device_virt s, s_dma s, s_irq s).

Section Frames.
Context {K : Type} {HE : Env K}.

Lemma rest_cs_read p : preserves rest (@cs_read K p).
Proof. unfold cs_read. pres. Qed.
Lemma rest_cs_write p f : preserves rest (@cs_write K p f).
Proof. pose proof rest_cs_read. unfold cs_write. pres. Qed.
Lemma rest_node_read p i : preserves rest (@node_read K p i).
Proof. pose proof rest_cs_read. unfold node_read. pres. Qed.
Lemma rest_node_write p i f : preserves rest (@node_write K p i f).
Proof. pose proof rest_node_read. pose proof rest_cs_write. unfold node_write. pres. Qed.
Lemma rest_bot_lvl_read p i j : preserves rest (@bot_lvl_read K p i j).
Proof. pose proof rest_node_read. unfold bot_lvl_read. pres. Qed.
Lemma rest_bot_lvl_write p i j f : preserves rest (@bot_lvl_write K p i j f).
Proof. pose proof rest_bot_lvl_read. pose proof rest_node_write. unfold bot_lvl_write. pres. Qed.
Lemma rest_ut_read p : preserves rest (@ut_read K p).
Proof. unfold ut_read. pres. Qed.
Lemma rest_ut_write p f : preserves rest (@ut_write K p f).
Proof. pose proof rest_ut_read. unfold ut_write. pres. Qed.
Lemma rest_head_read r : preserves rest (@head_read K r).
Proof. unfold head_read. pres. Qed.
Lemma rest_head_write r h : preserves rest (@head_write K r h).
Proof. pose proof rest_head_read. unfold head_write. pres. Qed.
#[local] Hint Resolve rest_cs_read rest_cs_write rest_node_read rest_node_write rest_bot_lvl_read
  rest_bot_lvl_write rest_ut_read rest_ut_write rest_head_read rest_head_write : pres.

Lemma rest_push r x : preserves rest (@push K r x).
Proof. unfold push. pres. Qed.
Lemma rest_pop r : preserves rest (@pop K r).
Proof. unfold pop. pres. Qed.
#[local] Hint Resolve rest_push rest_pop : pres.
Lemma rest_ut_alloc_4k : preserves rest (@ut_alloc_4k_untyped K).
Proof. unfold ut_alloc_4k_untyped. pres. Qed.
Lemma rest_ut_free x : preserves rest (@ut_free K x).
Proof. unfold ut_free. pres. Qed.
Lemma rest_retype p ut tg ty sz : preserves rest (cspace_untyped_retype (K := K) p ut tg ty sz).
Proof. unfold cspace_untyped_retype. pres. Qed.
Lemma rest_delete p x : preserves rest (cspace_delete (K := K) p x).
Proof. unfold cspace_delete. pres. Qed.
Lemma rest_free_slot p x : preserves rest (@cspace_free_slot K p x).
Proof. unfold cspace_free_slot. pres. Qed.
#[local] Hint Resolve rest_ut_alloc_4k rest_ut_free rest_retype rest_delete rest_free_slot : pres.

Lemma rest_map_loop self p cap vs va r attr src err i n :
  (forall q, preserves rest (self q)) ->
  preserves rest (map_frame_loop (K := K) self p cap vs va r attr src err i n).
Proof.
  intros Hs. revert src err i. induction n as [|n IH]; intros src err i; cbn [map_frame_loop]; [pres |].
  unfold mapping_failed_level, map_slot, map_missing, retype_map_pt, retype_map_pd, retype_map_pud.
  pres.
Qed.

Lemma rest_map_impl self p cap vs va r attr src :
  (forall q, preserves rest (self q)) ->
  preserves rest (map_frame_impl (K := K) self p cap vs va r attr src).
Proof. intros Hs. pose proof rest_map_loop. unfold map_frame_impl. pres. Qed.
#[local] Hint Resolve rest_map_impl : pres.

Lemma rest_boot_map self cookie cap slots used :
  (forall q, preserves rest (self q)) ->
  preserves rest (bootstrap_cspace_map_frame (K := K) self cookie cap slots used).
Proof. intros Hs. unfold bootstrap_cspace_map_frame, map_frame_cspace, alloc_vaddr. pres. Qed.

Lemma rest_alloc_slot f p : preserves rest (alloc_slot_fuel (K := K) f p).
Proof.
  revert p. induction f as [|f IH]; intros p; cbn [alloc_slot_fuel]; [pres |].
  pose proof (rest_boot_map (alloc_slot_fuel f)) as Hmap.
  assert (forall p used i n, preserves rest (refill_watermark_loop (K := K) (alloc_slot_fuel f) p used i n)).
  { intros q used i n. revert i. induction n as [|n IHn]; intros i; cbn [refill_watermark_loop]; pres. }
  unfold cspace_alloc_slot_body, levels_missing, ensure_levels, ensure_node, ensure_cnode, retype_helper,
    alloc_bot_slot, refill_watermark, init_bot_lvl_node, set_node_ptr, map_frame_cb, alloc_4k_untyped,
    free_4k_untyped. cbn [cb_map_frame cb_alloc_4k_ut cb_free_4k_ut bootstrap_alloc].
  unfold bootstrap_cspace_alloc_4k_ut, bootstrap_cspace_free_4k_ut. pres.
Qed.

Lemma rest_cspace_alloc_slot p : preserves rest (cspace_alloc_slot (K := K) p).
Proof. apply rest_alloc_slot. Qed.
#[local] Hint Resolve rest_cspace_alloc_slot : pres.

Lemma rest_map_frame p cap vs va r attr : preserves rest (map_frame (K := K) p cap vs va r attr).
Proof. unfold map_frame. pres. Qed.
End Frames.

#[export] Hint Resolve rest_cs_read rest_cs_write rest_ut_read rest_ut_alloc_4k rest_ut_free rest_retype
  rest_delete rest_free_slot rest_cspace_alloc_slot rest_map_frame rest_ut_write rest_push rest_pop : pres.

(** ** The invariant *)

Section SysInv.
Context {K : Type} {HE : Env K}.
Implicit Types (s : sos K) (X : gset Z) (F : fault -> Prop) (G : untouched).

(** The faults allocating slots may end in, when there is no 4K untyped or the cspace
    is full.  Which of the two it is, and when, is left open. *)
Definition boot_fault (e : fault) : Prop := e = NullDeref \/ e = AssertFail.

Definition sys_inv G (p : Z) X s : Prop :=
  exists c l o, cs_inv (H0 := bootstrap_laws G) p c l o s /\ X ⊆ o.

(** Slots that can be freed. *)
Definition slot_of (p x : Z) s : Prop :=
  exists c, s_cspaces s !! p = Some c /\ 0 < x < top_slots c * 128.

(** What every operation below guarantees besides: the components above are
    untouched, and slots stay slots. *)
Definition sys_step (p : Z) s s' : Prop :=
  rest s' = rest s /\ forall y, slot_of p y s -> slot_of p y s'.

#[global] Instance sys_step_preorder p : PreOrder (sys_step p).
Proof.
  split; [by intros s |]. intros s1 s2 s3 [A1 A2] [B1 B2]. split; [congruence | auto].
Qed.

Lemma wp_rest {A} (m : M (sos K) A) (Q : A -> sos K -> Prop) F s :
  preserves rest m -> wp m (fun a s' => rest s' = rest s -> Q a s') F s -> wp m Q F s.
Proof.
  intros Hp Hw. eapply wp_mono; [by eapply preserves_wp | | done]. intros a s' [HQ Hr]. auto.
Qed.

Lemma sys_step_same p s s' : rest s' = rest s -> s_cspaces s' = s_cspaces s -> sys_step p s s'.
Proof. intros Hr Hc. split; [done |]. intros y (c & Hl & Hy). exists c. by rewrite Hc. Qed.

Lemma cs_inv_pool G G' p c l o l' o' s s' :
  cs_inv (H0 := bootstrap_laws G) p c l o s -> s_cspaces s' = s_cspaces s -> boot_pool G' l' o' s' ->
  cs_inv (H0 := bootstrap_laws G') p c l' o' s'.
Proof. intros (H1 & H2 & H3 & H4 & _) E Hp. unfold cs_inv. rewrite E. split; [done |]. split; [done |]. split; [done |]. by split. Qed.

(** A state that differs only in the components above. *)
Lemma sys_above G p X s s' :
  sys_inv G p X s -> s_cspaces s' = s_cspaces s -> s_ut s' = s_ut s -> s_boot s' = s_boot s -> sys_inv G p X s'.
Proof.
  intros (c & l & o & (H1 & H2 & H3 & H4 & H5) & HX) Hc Hu Hbt. exists c, l, o. split; [|done].
  split; [done |]. split; [by rewrite Hc |]. split; [done |]. split; [done |]. by eapply boot_pool_ut.
Qed.

Lemma sys_weaken G p X X' s : X' ⊆ X -> sys_inv G p X s -> sys_inv G p X' s.
Proof. intros HX (c & l & o & Hc & Ho). exists c, l, o. split; [done | set_solver]. Qed.

Lemma sys_ut_alloc G p X s (Q : Z * option Z -> sos K -> Prop) F :
  sys_inv G p X s -> Q (0, None) s ->
  (forall x a s', x <> 0 -> x ∉ X -> sys_inv G p ({[x]} ∪ X) s' -> sys_step p s s' -> Q (x, a) s') ->
  wp ut_alloc_4k_untyped Q F s.
Proof.
  intros (c & l & o & Hc & HX) Hno Hyes. eapply wp_boot_pop; [apply Hc | done |].
  intros x l' a u' -> Hx Hb Ho _ Hp. eapply Hyes; [done | set_solver | | by apply sys_step_same].
  exists c, l', ({[x]} ∪ o). split; [by eapply cs_inv_pool | set_solver].
Qed.

Lemma sys_ut_free G p X x s (Q : unit -> sos K -> Prop) F :
  sys_inv G p ({[x]} ∪ X) s -> x ∉ X ->
  (forall s', sys_inv G p X s' -> sys_step p s s' -> Q tt s') -> wp (ut_free x) Q F s.
Proof.
  intros (c & l & o & Hc & HX) Hx HQ. eapply wp_boot_push; [apply Hc | set_solver |].
  intros u' Hp. apply HQ; [|by apply sys_step_same].
  exists c, (x :: l), (o ∖ {[x]}). split; [by eapply cs_inv_pool | set_solver].
Qed.

Lemma sys_call G p X s i (Q : Z -> sos K -> Prop) F :
  sys_inv G p X s -> (forall a s', sys_inv G p X s' -> sys_step p s s' -> Q a s') -> wp (call i) Q F s.
Proof.
  intros Hs HQ. apply wp_call. intros a k. apply HQ; [by eapply sys_above | by apply sys_step_same].
Qed.

Lemma sys_cs_read G p X s (Q : cspace_t -> sos K -> Prop) F :
  sys_inv G p X s -> (forall c, s_cspaces s !! p = Some c -> Q c s) -> wp (cs_read p) Q F s.
Proof.
  intros (c & l & o & (H1 & H2 & _) & _) HQ. unfold cs_read. wp_steps. rewrite H2. by apply HQ.
Qed.

Lemma sys_retype G p X s ut tg ty sz (Q : Z -> sos K -> Prop) F :
  sys_inv G p X s -> (forall a s', sys_inv G p X s' -> sys_step p s s' -> Q a s') ->
  wp (cspace_untyped_retype p ut tg ty sz) Q F s.
Proof.
  intros Hs HQ. unfold cspace_untyped_retype. rewrite wp_bind. eapply sys_cs_read; [done |].
  intros c _. destruct (two_level c); by eapply sys_call.
Qed.

Lemma sys_delete G p X s x (Q : Z -> sos K -> Prop) F :
  sys_inv G p X s -> (forall a s', sys_inv G p X s' -> sys_step p s s' -> Q a s') ->
  wp (cspace_delete p x) Q F s.
Proof.
  intros Hs HQ. unfold cspace_delete. rewrite wp_bind. eapply sys_cs_read; [done |].
  intros c _. by eapply sys_call.
Qed.

Lemma sys_alloc_slot G p X s (Q : Z -> sos K -> Prop) :
  sys_inv G p X s ->
  (forall r s', sys_inv G p X s' -> sys_step p s s' -> (r <> seL4_CapNull -> slot_of p r s') -> Q r s') ->
  wp (cspace_alloc_slot p) Q boot_fault s.
Proof.
  intros (c & l & o & Hc & HX) HQ. apply wp_rest; [apply rest_cspace_alloc_slot |].
  eapply wp_mono; [by apply (wp_alloc_slot_pool (HL := bootstrap_laws G)) | | done].
  intros r s' (c' & l' & o' & Hc' & [_ Ho] & Hout & Hts & _) Hr. apply HQ.
  - exists c', l', o'. split; [done | set_solver].
  - split; [done |]. intros y (c0 & Hc0 & Hy). exists c'. split; [apply Hc' |]. rewrite Hts.
    destruct Hc as (_ & Hl & _). rewrite Hl in Hc0. by injection Hc0 as <-.
  - intros Hr0. destruct (alloc_outcome_result _ _ _ Hout Hr0) as (Hb & _). exists c'.
    split; [apply Hc' |]. rewrite Hts. unfold seL4_CapNull in Hr0. lia.
Qed.

Lemma sys_free_slot G p X s x (Q : unit -> sos K -> Prop) F :
  sys_inv G p X s -> slot_of p x s ->
  (forall s', sys_inv G p X s' -> sys_step p s s' -> Q tt s') ->
  wp (cspace_free_slot p x) Q F s.
Proof.
  intros (c & l & o & Hc & HX) (c0 & Hc0 & Hx) HQ. apply wp_rest; [apply rest_free_slot |].
  pose proof Hc as (_ & Hl & _). rewrite Hl in Hc0. injection Hc0 as <-.
  eapply wp_mono; [by eapply (wp_release_pool (HL := bootstrap_laws G)) | | done].
  intros [] s' (c' & Hc' & (_ & _ & Hts) & _) Hr. apply HQ; [by exists c', l, o |].
  split; [done |]. intros y (c1 & Hc1 & Hy). exists c'. split; [apply Hc' |]. rewrite Hts.
  rewrite Hl in Hc1. by injection Hc1 as <-.
Qed.

Lemma sys_map_missing G p X s failed err vs va ut slot (Q : Z -> sos K -> Prop) F :
  sys_inv G p X s -> (forall a s', sys_inv G p X s' -> sys_step p s s' -> Q a s') ->
  wp (map_missing failed err p vs va ut slot) Q F s.
Proof.
  intros Hs HQ. unfold map_missing, retype_map_pt, retype_map_pd, retype_map_pud.
  repeat match goal with |- wp (if ?b then _ else _) _ _ _ => destruct b end;
    try (wp_steps; by apply HQ);
    (rewrite wp_bind; eapply sys_retype; [done |]; intros e s1 Hs1 Hstep1;
     destruct (negb _); [wp_steps; by apply HQ |]; eapply sys_call; [done |];
     intros e2 s2 Hs2 Hstep2; apply HQ; [done | by etrans]).
Qed.

Lemma sys_map_loop G p X cap vs va r attr err i n s (Q : Z -> sos K -> Prop) :
  sys_inv G p X s -> (forall a s', sys_inv G p X s' -> sys_step p s s' -> Q a s') ->
  wp (map_frame_loop cspace_alloc_slot p cap vs va r attr None err i n)
     (fun res s' => Q (fst res) s') boot_fault s.
Proof.
  revert err i s. induction n as [|n IH]; intros err i s Hs HQ; cbn [map_frame_loop].
  { wp_steps. by apply HQ. }
  destruct (negb _); [wp_steps; by apply HQ |].
  unfold mapping_failed_level. rewrite wp_bind, wp_gets, wp_bind.
  eapply sys_ut_alloc; [done | simpl; wp_steps; by apply HQ |]. intros x a s1 Hx HxX Hs1 Hst1.
  destruct (Z.eqb_spec x 0); [done |]. cbn [map_slot]. rewrite !wp_bind.
  eapply sys_alloc_slot; [done |]. intros slot s2 Hs2 Hst2 _. rewrite wp_ret.
  assert (sys_step p s s2) as Hst12 by by etrans.
  destruct (slot =? seL4_CapNull).
  { wp_steps. apply HQ; [eapply sys_weaken; [|done]; set_solver | done]. }
  rewrite wp_bind. apply wp_ut_read; [done |]. rewrite wp_bind.
  eapply sys_map_missing; [done |]. intros e s3 Hs3 Hst3. rewrite wp_bind.
  assert (sys_step p s s3) as Hst13 by by etrans.
  assert (forall e' s4, sys_inv G p ({[x]} ∪ X) s4 -> sys_step p s s4 ->
    wp (map_frame_loop cspace_alloc_slot p cap vs va r attr None e' (i + 1) n)
       (fun res s' => Q (fst res) s') boot_fault s4) as Hgo.
  { intros e' s4 Hs4 Hst4. apply IH; [eapply sys_weaken; [|done]; set_solver |].
    intros a' s5 Hs5 Hst5. apply HQ; [done | by etrans]. }
  destruct (e =? 0); [|wp_steps; by apply Hgo].
  eapply sys_call; [done |]. intros e' s4 Hs4 Hst4. apply Hgo; [done | by etrans].
Qed.

Lemma sys_map_frame G p X cap vs va r attr s (Q : Z -> sos K -> Prop) :
  sys_inv G p X s -> (forall a s', sys_inv G p X s' -> sys_step p s s' -> Q a s') ->
  wp (map_frame p cap vs va r attr) Q boot_fault s.
Proof.
  intros Hs HQ. unfold map_frame, map_frame_impl. rewrite !wp_bind.
  eapply sys_call; [done |]. intros e s1 Hs1 Hst1.
  eapply wp_mono; [eapply (sys_map_loop _ _ _ _ _ _ _ _ _ _ _ _ Q); [done |] | | done].
  - intros a s2 Hs2 Hst2. apply HQ; [done | by etrans].
  - intros [err src] s'. by rewrite wp_ret.
Qed.
End SysInv.
