(* ===== verification/UtAlloc.v ===== *)
(** * Allocating untypeds of any size

    Model of [ensure_new_structures] and [ut_alloc] of sos/src/ut.c, which split
    4K untypeds into smaller ones.  [ut_sys] is the invariant a client of the
    untyped table sees: the cspace is in order, the lists of the table are well
    formed, and what the client holds is in none of them. *)

From S2P Require Import Prelude SosState UtTable Bitfield Cspace CspaceInv Mapping Bootstrap Sys.

Section UtAlloc.
Context {K : Type} `{Env K}.
Abbreviation MS := (M (sos K)).

(** The loop that pushes the entries of a new page, from entry [i] on. *)
Fixpoint push_structures (new_uts i : Z) (n : nat) : MS unit :=
  match n with
  | O => ret tt
  | S n' =>
      do* push FreeStructures (w64 (new_uts + i * sizeof_ut)) in
      push_structures new_uts (i + 1) n'
  end.

(** The body of the [if] of [ensure_new_structures]. *)
Definition add_structures (cspace : Z) : MS bool :=
  let* '(frame, _) := ut_alloc_4k_untyped in
  if frame =? 0 then ret false
  else
    let* cptr := cspace_alloc_slot cspace in
    if cptr =? seL4_CapNull then ret false
    else
      let* n := ut_read frame in
      let* err := cspace_untyped_retype cspace (ut_cap n) cptr seL4_ARM_SmallPageObject seL4_PageBits in
      if negb (err =? 0) then ret false
      else
        let* new_uts := bootstrap_map_frame cspace cptr in
        if new_uts =? 0 then ret false
        else
          do* push_structures new_uts 0 (Z.to_nat (PAGE_SIZE_4K / sizeof_ut)) in
          ret true.

Definition ensure_new_structures (cspace : Z) : MS bool :=
  let* h := head_read FreeStructures in
  let* few := (if h =? 0 then ret true else let* n := ut_read h in ret (ut_next n =? 0)) in
  if few then add_structures cspace else ret true.

(** The two retypes of [ut_alloc], for the entries [new1] and [new2]: whether
    both pieces are in the list. *)
Definition ut_retype_pair (size_bits cspace larger new1 new2 : Z) : MS bool :=
  let list := FreeList (SIZE_BITS_TO_INDEX size_bits) in
  let* l := ut_read larger in
  let* n1 := ut_read new1 in
  let* n2 := ut_read new2 in
  let* err := cspace_untyped_retype cspace (ut_cap l) (ut_cap n1) seL4_UntypedObject size_bits in
  if negb (err =? 0) then
    do* cspace_free_slot cspace (ut_cap n1) in
    do* cspace_free_slot cspace (ut_cap n2) in
    do* push FreeStructures new1 in
    do* ut_free larger in ret false
  else
    let* err := cspace_untyped_retype cspace (ut_cap l) (ut_cap n2) seL4_UntypedObject size_bits in
    if negb (err =? 0) then
      do* cspace_delete cspace (ut_cap n1) in
      do* cspace_free_slot cspace (ut_cap n1) in
      do* cspace_free_slot cspace (ut_cap n2) in
      do* push FreeStructures new1 in
      do* push FreeStructures new2 in
      do* ut_free larger in ret false
    else
      do* push list new1 in
      do* push list new2 in
      ret true.

(** A structure with a fresh slot in it, and whether there was one. *)
Definition ut_new_piece (size_bits cspace : Z) : MS (Z * bool) :=
  let* new := pop FreeStructures in
  let* slot := cspace_alloc_slot cspace in
  do* ut_write new (ut_set_cap slot) in
  let* n := ut_read new in
  if ut_cap n =? seL4_CapNull then ret (new, false)
  else do* ut_write new (ut_set_size_bits size_bits) in ret (new, true).

(** Splitting [larger] into two untypeds of [size_bits]. *)
Definition ut_split (size_bits cspace larger : Z) : MS bool :=
  let* ok := ensure_new_structures cspace in
  if negb ok then do* ut_free larger in ret false
  else
    let* '(new1, ok1) := ut_new_piece size_bits cspace in
    if negb ok1 then do* ut_free larger in ret false
    else
      let* '(new2, ok2) := ut_new_piece size_bits cspace in
      if negb ok2 then
        let* n1 := ut_read new1 in
        do* cspace_free_slot cspace (ut_cap n1) in
        do* ut_free larger in ret false
      else ut_retype_pair size_bits cspace larger new1 new2.

Fixpoint ut_alloc_fuel (fuel : nat) (size_bits cspace : Z) : MS Z :=
  match fuel with
  | O => fail NoFuel
  | S fuel' =>
      if seL4_PageBits <? size_bits then ret 0
      else if size_bits <? seL4_EndpointBits then ret 0
      else if size_bits =? seL4_PageBits then
        let* '(n, _) := ut_alloc_4k_untyped in ret n
      else
        let list := FreeList (SIZE_BITS_TO_INDEX size_bits) in
        let* h := head_read list in
        if h =? 0 then
          let* larger := ut_alloc_fuel fuel' (size_bits + 1) cspace in
          if larger =? 0 then ret 0
          else
            let* ok := ut_split size_bits cspace larger in
            if ok then pop list else ret 0
        else pop list
  end.

(** One level of recursion for each size up to a page. *)
Definition ut_alloc (size_bits cspace : Z) : MS Z := ut_alloc_fuel 9 size_bits cspace.
End UtAlloc.

(** ** The invariant *)

(** The nodes in the lists, and those held, are below [b]. *)
Definition below (ls : head_ref -> list Z) (H : gset Z) (b : Z) : Prop :=
  (forall r x, valid_ref r -> r <> L4K -> x ∈ ls r -> 0 < x < b) /\
  (forall x, x ∈ H -> 0 < x < b) /\ 0 < b <= 2 ^ 48.

Section Spec.
Context {K : Type} {HE : Env K} (HB : page_map_bound).
Implicit Types (s : sos K) (H : gset Z) (ls : head_ref -> list Z) (F : fault -> Prop).

(** [ls] are the lists below 4K and the spare structures, [H] the nodes held. *)
Definition ut_sys (p : Z) ls H s : Prop :=
  exists u b, below ls H b /\ sys_inv (mkG u ls H b) p ∅ s.

(** What happens to the nodes held, and to everything else. *)
Definition us_step (p : Z) H s s' : Prop :=
  sys_step p s s' /\ forall y, y ∈ H ->
    ut_cap (ut_node (ut_mem (s_ut s')) y) = ut_cap (ut_node (ut_mem (s_ut s)) y) /\
    ut_size_bits (ut_node (ut_mem (s_ut s')) y) = ut_size_bits (ut_node (ut_mem (s_ut s)) y).

#[global] Instance us_step_preorder p H : PreOrder (us_step p H).
Proof.
  split; [by intros s |]. intros s1 s2 s3 [A1 A2] [B1 B2]. split; [by etrans |]. intros y Hy.
  destruct (A2 y Hy), (B2 y Hy). split; congruence.
Qed.

Lemma us_step_sub p H H' s s' : H' ⊆ H -> us_step p H s s' -> us_step p H' s s'.
Proof. intros Hs [A B]. split; [done |]. intros y Hy. apply B. set_solver. Qed.

Lemma us_step_meta p H s u : ut_meta (s_ut s) u -> us_step p H s (set_ut u s).
Proof.
  intros (_ & _ & _ & Hm). split; [by apply sys_step_same |]. intros y _. simpl.
  destruct (Hm y) as (-> & _ & ->). done.
Qed.

Lemma ut_sys_sub p ls H H' s : H' ⊆ H -> ut_sys p ls H s -> ut_sys p ls H' s.
Proof.
  intros Hs (u & b & (B1 & B2 & B3) & c & l & o & Hc & Ho). exists u, b. split; [split; [done |]; split; [|done]; auto |].
  exists c, l, o. split; [|done]. eapply cs_inv_pool; [exact Hc | done |].
  destruct Hc as (_ & _ & _ & _ & [C1 C2 C3 C4 C5 C6]). split; try done. simpl in *. auto.
Qed.

Lemma us_step_sys G p X H s s' : sys_inv G p X s -> sys_inv G p X s' -> sys_step p s s' -> us_step p H s s'.
Proof.
  intros (? & ? & ? & (_ & _ & _ & _ & Hp) & _) (? & ? & ? & (_ & _ & _ & _ & Hp') & _) Hst. split; [done |].
  intros y _. destruct (bp_meta _ _ _ _ Hp) as (_ & _ & _ & M1), (bp_meta _ _ _ _ Hp') as (_ & _ & _ & M2).
  destruct (M1 y) as (-> & _ & ->), (M2 y) as (-> & _ & ->). done.
Qed.

(** Operations of the cspace. *)
Lemma us_op {A} (m : M (sos K) A) (P : A -> sos K -> Prop) p ls H s (Q : A -> sos K -> Prop) F :
  (forall G Q0, sys_inv G p ∅ s ->
     (forall a s', sys_inv G p ∅ s' -> sys_step p s s' -> P a s' -> Q0 a s') -> wp m Q0 F s) ->
  ut_sys p ls H s -> (forall a s', ut_sys p ls H s' -> us_step p H s s' -> P a s' -> Q a s') -> wp m Q F s.
Proof.
  intros Hm (u & b & Hb & Hs) HQ. eapply Hm; [done |]. intros a s' Hs' Hst HP. apply HQ; [by exists u, b | | done].
  by eapply us_step_sys.
Qed.

Lemma us_retype p ls H s ut tg ty sz (Q : Z -> sos K -> Prop) F :
  ut_sys p ls H s -> (forall a s', ut_sys p ls H s' -> us_step p H s s' -> Q a s') ->
  wp (cspace_untyped_retype p ut tg ty sz) Q F s.
Proof.
  intros Hs HQ. eapply (us_op _ (fun _ _ => True)); [|done | auto].
  intros G Q0 Hi HQ0. eapply sys_retype; [done | auto].
Qed.

Lemma us_delete p ls H s x (Q : Z -> sos K -> Prop) F :
  ut_sys p ls H s -> (forall a s', ut_sys p ls H s' -> us_step p H s s' -> Q a s') ->
  wp (cspace_delete p x) Q F s.
Proof.
  intros Hs HQ. eapply (us_op _ (fun _ _ => True)); [|done | auto].
  intros G Q0 Hi HQ0. eapply sys_delete; [done | auto].
Qed.

Lemma us_free_slot p ls H s x (Q : unit -> sos K -> Prop) F :
  ut_sys p ls H s -> slot_of p x s -> (forall s', ut_sys p ls H s' -> us_step p H s s' -> Q tt s') ->
  wp (cspace_free_slot p x) Q F s.
Proof.
  intros Hs Hx HQ. eapply (us_op _ (fun _ _ => True)); [|exact Hs | intros [] s' ? ? _; auto].
  intros G Q0 Hi HQ0. eapply sys_free_slot; [done | done | auto].
Qed.

Lemma slot_bound G p X s x : sys_inv G p X s -> slot_of p x s -> 0 < x < 2 ^ 20.
Proof.
  intros (c & l & o & (_ & Hl & (N & Hwf) & _) & _) (c0 & Hc0 & Hx). rewrite Hl in Hc0. injection Hc0 as <-.
  destruct (top_slots_words _ _ Hwf). lia.
Qed.

Lemma us_alloc_slot p ls H s (Q : Z -> sos K -> Prop) :
  ut_sys p ls H s ->
  (forall r s', ut_sys p ls H s' -> us_step p H s s' -> (r <> 0 -> slot_of p r s' /\ 0 < r < 2 ^ 20) -> Q r s') ->
  wp (cspace_alloc_slot p) Q boot_fault s.
Proof.
  intros Hs HQ. eapply (us_op _ (fun r s' => r <> 0 -> slot_of p r s' /\ 0 < r < 2 ^ 20)); [|done | done].
  intros G Q0 Hi HQ0. eapply sys_alloc_slot; [done |]. intros r s' Hi' Hst Hr. apply HQ0; [done | done |].
  intros H0. split; [auto |]. eapply slot_bound; [exact Hi' | auto].
Qed.

(** Lists of the table. *)
Lemma upd_comm ls r l r' l' : r <> r' ->
  pointwise_relation _ eq (upd (upd ls r l) r' l') (upd (upd ls r' l') r l).
Proof. intros Hne x. unfold upd. repeat case_decide; congruence. Qed.

Lemma us_pop p ls H s r x l (Q : Z -> sos K -> Prop) F :
  ut_sys p ls H s -> valid_ref r -> r <> L4K -> ls r = x :: l ->
  (forall u', ut_sys p (upd ls r l) ({[x]} ∪ H) (set_ut u' s) -> us_step p H s (set_ut u' s) -> x ∉ H -> 0 < x ->
     (forall i, r = FreeList i -> ut_size_bits (ut_node (ut_mem u') x) = i + seL4_EndpointBits) ->
     Q x (set_ut u' s)) ->
  wp (pop r) Q F s.
Proof.
  intros (u & b & (B1 & B2 & B3) & c & l4 & o & Hc & _) Hr Hne El HQ.
  pose proof Hc as (_ & _ & _ & _ & [C1 C2 C3 C4 C5 C6]). simpl in *.
  assert (upd ls L4K l4 r = x :: l) as El' by by rewrite upd_ne.
  eapply wp_pop; [exact C3 | done | done |]. intros u' HR' Hx Hun Hm.
  assert (x ∈ upd ls L4K l4 r) as Hxin by (rewrite El'; set_solver).
  assert (x ∉ H) as HxH. { intros Hin. destruct (C6 x Hin) as [_ Hu]. by apply (Hu r Hr). }
  assert (0 < x < b) as Hxb. { apply (B1 r); [done | done |]. rewrite El. set_solver. }
  assert (forall y, unlisted (upd ls L4K l4) y -> unlisted (upd (upd ls L4K l4) r l) y) as Hsub.
  { intros y. apply unlisted_sub. by eapply upd_tail_sub. }
  rewrite upd_comm in HR' by done.
  assert (forall y, unlisted (upd (upd ls L4K l4) r l) y -> unlisted (upd (upd ls r l) L4K l4) y) as Hto.
  { intros y Hu r' Hr'. rewrite (upd_comm ls r l L4K l4 Hne r'). by apply Hu. }
  apply HQ; [| by apply us_step_meta | done | lia |].
  - exists u', b. split.
    { split; [|split; [|done]]; [|set_solver]. intros r' y Hr' Hn' Hy. apply (B1 r' y Hr' Hn').
      revert Hy. unfold upd. case_decide; [subst; rewrite El; set_solver | done]. }
    exists c, l4, o. split; [|set_solver]. eapply cs_inv_pool; [exact Hc | done |].
    split; [done | done | done | done | |]; simpl.
    + intros y Hy. destruct (C5 y Hy) as (Y1 & Y2 & Y3 & Y4). split; [done |]. split; [done |].
      split; [auto |]. destruct Hm as (_ & _ & _ & Hm). by destruct (Hm y) as (_ & _ & ->).
    + intros y [->%elem_of_singleton|Hy]%elem_of_union; [|destruct (C6 y Hy); split; [done | auto]].
      split; [|auto]. intros Hin. destruct (C5 x Hin) as (_ & _ & Hu & _). by apply (Hu r Hr).
  - intros i ->. destruct Hm as (_ & _ & _ & Hm). destruct (Hm x) as (_ & _ & ->).
    by apply (rep_size _ _ C3).
Qed.

Lemma unlisted_add ls r x y : y <> x -> unlisted ls y -> unlisted (upd ls r (x :: ls r)) y.
Proof.
  intros Hne Hu r' Hr' Hin. unfold upd in Hin. case_decide; [subst|by apply (Hu r')].
  apply list.elem_of_cons in Hin as [->|Hin]; [done | by apply (Hu r)].
Qed.

Lemma us_push p ls H s r x (Q : unit -> sos K -> Prop) F :
  ut_sys p ls H s -> valid_ref r -> r <> L4K -> x ∈ H ->
  (forall i, r = FreeList i -> ut_size_bits (ut_node (ut_mem (s_ut s)) x) = i + seL4_EndpointBits) ->
  (forall u', ut_sys p (upd ls r (x :: ls r)) (H ∖ {[x]}) (set_ut u' s) -> (forall H0, us_step p H0 s (set_ut u' s)) ->
     Q tt (set_ut u' s)) ->
  wp (push r x) Q F s.
Proof.
  intros (u & b & (B1 & B2 & B3) & c & l4 & o & Hc & _) Hr Hne Hx Hsz HQ.
  pose proof Hc as (_ & _ & _ & _ & [C1 C2 C3 C4 C5 C6]). simpl in *.
  destruct (C6 x Hx) as [Hxo Hxu]. pose proof (B2 x Hx) as Hxb.
  eapply wp_push; [exact C3 | done | lia | done | done |]. intros u' HR' Hm.
  rewrite (upd_ne ls L4K r) in HR' by done. rewrite upd_comm in HR' by done.
  assert (forall y, y <> x -> unlisted (upd ls L4K l4) y -> unlisted (upd (upd ls r (x :: ls r)) L4K l4) y) as Hto.
  { intros y Hn Hu r' Hr'. rewrite (upd_comm ls r _ L4K l4 Hne r').
    pose proof (unlisted_add _ r x y Hn Hu r' Hr') as Hy. by rewrite (upd_ne ls L4K r) in Hy. }
  apply HQ; [| intros H0; by apply us_step_meta]. exists u', b. split.
  { split; [|split; [set_solver | done]]. intros r' y Hr' Hn' Hy. revert Hy. unfold upd.
    case_decide; [subst; intros [->|Hy]%list.elem_of_cons; [done | by apply (B1 r)] | by apply (B1 r')]. }
  exists c, l4, o. split; [|set_solver]. eapply cs_inv_pool; [exact Hc | done |].
  split; [done | done | done | done | |]; simpl.
  - intros y Hy. destruct (C5 y Hy) as (Y1 & Y2 & Y3 & Y4). split; [done |]. split; [done |].
    split; [apply Hto; [set_solver | done] |]. destruct Hm as (_ & _ & _ & Hm). by destruct (Hm y) as (_ & _ & ->).
  - intros y [Hy Hn]%elem_of_difference. destruct (C6 y Hy). split; [done | apply Hto; [set_solver | done]].
Qed.

(** 4K untypeds go to, and come from, the pool. *)
Lemma us_free_4k p ls H s x (Q : unit -> sos K -> Prop) F :
  ut_sys p ls H s -> x ∈ H -> ut_size_bits (ut_node (ut_mem (s_ut s)) x) = seL4_PageBits ->
  (forall u', ut_sys p ls (H ∖ {[x]}) (set_ut u' s) -> us_step p H s (set_ut u' s) -> Q tt (set_ut u' s)) ->
  wp (ut_free x) Q F s.
Proof.
  intros (u & b & (B1 & B2 & B3) & c & l4 & o & Hc & _) Hx Hsz HQ.
  pose proof Hc as (_ & _ & _ & _ & Hp). pose proof Hp as [C1 C2 C3 C4 C5 C6]. simpl in *.
  destruct (C6 x Hx) as [Hxo Hxu]. pose proof (B2 x Hx) as Hxb.
  assert (boot_pool (mkG (s_ut s) ls (H ∖ {[x]}) b) l4 ({[x]} ∪ o) s) as Hp1.
  { split; [done | done | done | done | |]; simpl.
    - intros y [->%elem_of_singleton|Hy]%elem_of_union; [|by apply C5].
      split; [lia |]. split; [unfold ULONG_MAX; lia | done].
    - intros y [Hy Hn]%elem_of_difference. destruct (C6 y Hy). split; [set_solver | done]. }
  eapply wp_boot_push; [exact Hp1 | set_solver |]. intros u' Hp2. apply HQ.
  - exists (s_ut s), b. split; [split; [done |]; split; [set_solver | done] |].
    exists c, (x :: l4), (({[x]} ∪ o) ∖ {[x]}). split; [|set_solver]. by eapply cs_inv_pool.
  - apply us_step_meta. apply (bp_meta _ _ _ _ Hp2).
Qed.

Lemma us_alloc_4k p ls H s (Q : Z * option Z -> sos K -> Prop) F :
  ut_sys p ls H s -> Q (0, None) s ->
  (forall x a u', ut_sys p ls ({[x]} ∪ H) (set_ut u' s) -> us_step p H s (set_ut u' s) -> x ∉ H -> 0 < x ->
     ut_size_bits (ut_node (ut_mem u') x) = seL4_PageBits -> Q (x, a) (set_ut u' s)) ->
  wp ut_alloc_4k_untyped Q F s.
Proof.
  intros (u & b & (B1 & B2 & B3) & c & l4 & o & Hc & _) Hno Hyes.
  pose proof Hc as (_ & _ & _ & _ & [C1 C2 C3 C4 C5 C6]). simpl in *.
  assert (boot_pool (mkG (s_ut s) ls H b) l4 o s) as Hp by (split; done).
  eapply wp_boot_pop; [exact Hp | done |]. intros x l' a u' -> Hx Hb Hxo HxH Hp'. simpl in HxH.
  pose proof Hp' as [D1 D2 D3 D4 D5 D6]. simpl in *.
  destruct (D5 x) as (_ & Hxb & Hxu & Hxs); [set_solver |].
  apply Hyes; [| by apply us_step_meta | done | lia | done].
  exists (s_ut s), b. split; [split; [done |]; split; [|done] |].
  { intros y [->%elem_of_singleton|Hy]%elem_of_union; [lia | by apply B2]. }
  exists c, l', o. split; [|set_solver]. eapply cs_inv_pool; [exact Hc | done |].
  split; [done | done | done | done | |]; simpl.
  - intros y Hy. apply D5. set_solver.
  - intros y [->%elem_of_singleton|Hy]%elem_of_union; [done |]. destruct (D6 y Hy). set_solver.
Qed.

Lemma us_ut_free p ls H s x (Q : unit -> sos K -> Prop) F :
  ut_sys p ls H s -> x ∈ H -> 4 <= ut_size_bits (ut_node (ut_mem (s_ut s)) x) <= 12 ->
  (forall ls' u', ut_sys p ls' (H ∖ {[x]}) (set_ut u' s) -> us_step p H s (set_ut u' s) -> Q tt (set_ut u' s)) ->
  wp (ut_free x) Q F s.
Proof.
  intros Hs Hx Hsz HQ. assert (0 < x) as Hx0.
  { destruct Hs as (u & b & (_ & B2 & _) & _). by apply B2. }
  destruct (Z.eqb_spec (ut_size_bits (ut_node (ut_mem (s_ut s)) x)) seL4_PageBits) as [E|E].
  { eapply us_free_4k; [done | done | done |]. intros u'. apply HQ. }
  unfold ut_free. rewrite wp_bind. apply wp_ut_read; [lia |].
  eapply us_push; [done | by apply size_ref_valid | | done | | intros u' Hs' Hst'; by eapply HQ].
  - unfold L4K. intros [= Ei]. unfold SIZE_BITS_TO_INDEX in Ei. lia.
  - intros i [= <-]. unfold SIZE_BITS_TO_INDEX. lia.
Qed.

(** Writing fields of a node held. *)
Lemma us_write p ls H s x f (Q : unit -> sos K -> Prop) F :
  ut_sys p ls H s -> x ∈ H ->
  (forall u', ut_sys p ls H (set_ut u' s) -> us_step p (H ∖ {[x]}) s (set_ut u' s) ->
     ut_node (ut_mem u') x = f (ut_node (ut_mem (s_ut s)) x) -> Q tt (set_ut u' s)) ->
  wp (ut_write x f) Q F s.
Proof.
  intros (u & b & (B1 & B2 & B3) & c & l4 & o & Hc & _) Hx HQ.
  pose proof Hc as (_ & _ & _ & _ & [C1 C2 C3 C4 C5 C6]). simpl in *.
  destruct (C6 x Hx) as [Hxo Hxu]. pose proof (B2 x Hx) as Hxb.
  apply wp_ut_write; [lia |]. set (n := f _). apply HQ.
  - exists (set_ut_mem (s_ut s) x n), b. split; [done |]. exists c, l4, o. split; [|set_solver].
    eapply cs_inv_pool; [exact Hc | done |]. split; [done | done | | done | | done]; simpl.
    + by apply ut_rep_write_unlisted.
    + intros y Hy. rewrite ut_node_insert. case_decide; [by subst | by apply C5].
  - split; [by apply sys_step_same |]. intros y [_ Hy]%elem_of_difference. simpl.
    rewrite ut_node_insert. case_decide; [set_solver | done].
  - simpl. rewrite ut_node_insert. by case_decide.
Qed.

(** ** New structures *)

(** The entries of the page at [a], from entry [i] on. *)
Fixpoint structs (a i : Z) (n : nat) : list Z :=
  match n with
  | O => []
  | S n' => (a + i * 16) :: structs a (i + 1) n'
  end.

Lemma structs_range a i n x : x ∈ structs a i n -> exists j, x = a + j * 16 /\ i <= j < i + Z.of_nat n.
Proof.
  revert i. induction n as [|n IH]; intros i Hx; simpl in Hx; [set_solver |].
  apply list.elem_of_cons in Hx as [->|Hx]; [exists i; lia |].
  destruct (IH _ Hx) as (j & -> & Hj). exists j. lia.
Qed.

#[local] Arguments structs : simpl never.

Lemma below_mono ls H b b' : below ls H b -> b <= b' <= 2 ^ 48 -> below ls H b'.
Proof.
  intros (B1 & B2 & B3) Hb. split; [|split; [|lia]].
  - intros r x Hr Hn Hx. specialize (B1 r x Hr Hn Hx). lia.
  - intros x Hx. specialize (B2 x Hx). lia.
Qed.

(** Everything is below the next free address. *)
Lemma us_raise p ls H s : ut_sys p ls H s ->
  let v := next_free_vaddr (s_boot s) in
  exists u, below ls H v /\ sys_inv (mkG u ls H v) p ∅ s.
Proof.
  intros (u & b & Hbel & c & l4 & o & Hc & _) v. exists u.
  pose proof Hc as (_ & _ & _ & _ & [C1 C2 C3 C4 C5 C6]). specialize (C1 HB). simpl in *.
  pose proof Hbel as (_ & _ & B3). fold v in C1.
  split; [eapply below_mono; [done | lia] |]. exists c, l4, o. split; [|set_solver].
  eapply cs_inv_pool; [exact Hc | done |]. split; [intros _; simpl; fold v; lia | done | done | | | done]; simpl in *.
  - intros x Hx. destruct (C4 x Hx). lia.
  - intros x Hx. destruct (C5 x Hx) as (? & ? & ? & ?). split; [done |]. split; [lia | done].
Qed.

(** A page above all nodes adds its entries to what is held. *)
Lemma us_new_page p ls H u v s w :
  let a := next_free_vaddr (s_boot s) in
  below ls H v -> v < 2 ^ 47 -> sys_inv (mkG u ls H v) p ∅ s ->
  0 < a /\ a + 4096 <= 2 ^ 48 /\ list_to_set (structs a 0 256) ## H /\
  ut_sys p ls (list_to_set (structs a 0 256) ∪ H) (set_boot (mkBoot (w64 (a + PAGE_SIZE_4K)) w) s).
Proof.
  intros a Hbel Hv (c & l4 & o & Hc & _). pose proof Hbel as (B1 & B2 & B3).
  pose proof Hc as (_ & _ & _ & _ & [C1 C2 C3 C4 C5 C6]). specialize (C1 HB).
  assert (forall x, x ∈ structs a 0 256 -> a <= x < a + 4096) as Hst.
  { intros x (j & -> & Hj)%structs_range. lia. }
  generalize dependent (structs a 0 256). intros new Hst. simpl in *. fold a in C1.
  split; [lia |]. split; [lia |]. split.
  { intros x Hx%elem_of_list_to_set HxH. apply Hst in Hx. specialize (B2 x HxH). lia. }
  assert (below ls H (a + 4096)) as (D1 & D2 & D3) by (eapply below_mono; [done | lia]).
  exists u, (a + 4096). split.
  { split; [done |]. split; [|done].
    intros x [Hx%elem_of_list_to_set|Hx]%elem_of_union; [apply Hst in Hx; lia | by apply D2]. }
  assert (w64 (a + PAGE_SIZE_4K) = a + 4096) as Ew by (unfold w64; change PAGE_SIZE_4K with 4096; rewrite Z.mod_small; lia).
  exists c, l4, o. split; [|set_solver]. eapply cs_inv_pool; [exact Hc | done |].
  split; simpl; [rewrite Ew; lia | done | done | | |].
  - intros x Hx. destruct (C4 x Hx). lia.
  - intros x Hx. destruct (C5 x Hx) as (? & ? & ? & ?). split; [done |]. split; [lia | done].
  - intros x [Hx%elem_of_list_to_set|Hx]%elem_of_union; [|by apply C6]. apply Hst in Hx. split.
    + intros Ho. destruct (C5 x Ho). lia.
    + intros r Hr Hin. unfold upd in Hin. case_decide; [destruct (C4 x Hin) | destruct (B1 r x)]; try done; lia.
Qed.

(** [bootstrap_map_frame] gives memory no node is in. *)
Lemma us_map_frame p ls H s cap (Q : Z -> sos K -> Prop) :
  ut_sys p ls H s ->
  (forall s', ut_sys p ls H s' -> us_step p H s s' -> Q 0 s') ->
  (forall a s', 0 < a -> a + 4096 <= 2 ^ 48 -> list_to_set (structs a 0 256) ## H ->
     ut_sys p ls (list_to_set (structs a 0 256) ∪ H) s' -> us_step p H s s' -> Q a s') ->
  wp (bootstrap_map_frame p cap) Q boot_fault s.
Proof.
  intros Hs Hno Hyes. destruct (us_raise _ _ _ _ Hs) as (u & Hbel & Hs0).
  set (v := next_free_vaddr (s_boot s)) in *.
  unfold bootstrap_map_frame. rewrite wp_bind, wp_gets, wp_bind. fold v.
  eapply wp_mono; [apply wp_conj; [eapply (sys_map_frame _ _ _ _ _ _ _ _ _
    (fun _ s' => sys_inv (mkG u ls H v) p ∅ s' /\ sys_step p s s')); [exact Hs0 | done] | apply map_frame_bound] | | done].
  intros err s' [[Hs' Hst] Hbound]. cbv beta in Hbound.
  pose proof (us_step_sys _ _ _ H _ _ Hs0 Hs' Hst) as Hus.
  unfold alloc_vaddr. destruct (Z.eqb_spec err 0) as [->|]; wp_steps; [|apply Hno; [by exists u, v | done]].
  destruct (us_new_page p ls H u v s' (boot_vspace (s_boot s')) Hbel (Hbound eq_refl HB) Hs') as (Ha & Ha' & Hd & Hn).
  by apply Hyes.
Qed.

Lemma ut_sys_ext p ls ls' H s : (forall r, ls r = ls' r) -> ut_sys p ls H s -> ut_sys p ls' H s.
Proof.
  intros E (u & b & (B1 & B2 & B3) & c & l4 & o & Hc & Ho). exists u, b. split.
  { split; [|done]. intros r x. rewrite <- E. apply B1. }
  exists c, l4, o. split; [|done]. eapply cs_inv_pool; [exact Hc | done |].
  assert (forall r, upd ls L4K l4 r = upd ls' L4K l4 r) as E' by (intros r; unfold upd; by case_decide).
  assert (forall x, unlisted (upd ls L4K l4) x -> unlisted (upd ls' L4K l4) x) as Hu.
  { intros x Hx r Hr. rewrite <- E'. by apply Hx. }
  destruct Hc as (_ & _ & _ & _ & [C1 C2 C3 C4 C5 C6]). split; try done; simpl in *.
  - eapply ut_rep_proper; [done | | exact C3]. intros r. by rewrite E'.
  - intros x Hx. destruct (C5 x Hx) as (? & ? & ? & ?). auto.
  - intros x Hx. destruct (C6 x Hx). auto.
Qed.

Lemma us_push_structures p a n i ls H s (Q : unit -> sos K -> Prop) F :
  0 < a -> a + 4096 <= 2 ^ 48 -> 0 <= i -> i + Z.of_nat n <= 256 ->
  ut_sys p ls (list_to_set (structs a i n) ∪ H) s -> list_to_set (structs a i n) ## H ->
  (forall s' l', length l' = n -> ut_sys p (upd ls FreeStructures (l' ++ ls FreeStructures)) H s' ->
     us_step p H s s' -> Q tt s') ->
  wp (push_structures a i n) Q F s.
Proof.
  intros Ha Ha'. revert i ls s Q. induction n as [|n IH]; intros i ls s Q Hi Hn Hs Hd HQ; cbn [push_structures].
  { wp_steps. apply (HQ s []); [done | | done]. eapply ut_sys_ext; [|eapply ut_sys_sub; [|exact Hs]; set_solver].
    intros r. simpl. by rewrite (upd_id ls FreeStructures r). }
  change (structs a i (S n)) with ((a + i * 16) :: structs a (i + 1) n) in Hs, Hd.
  rewrite wp_bind. assert (w64 (a + i * sizeof_ut) = a + i * 16) as ->.
  { unfold w64, sizeof_ut. rewrite Z.mod_small; lia. }
  assert (a + i * 16 ∉ structs a (i + 1) n) as Hnin.
  { intros (j & Ej & Hj)%structs_range. lia. }
  rewrite list_to_set_cons in Hs, Hd.
  eapply us_push; [exact Hs | done | done | set_solver | done |]. intros u1 Hs1 Hst1.
  eapply IH; [lia | lia | eapply ut_sys_sub; [|exact Hs1] | set_solver |].
  { intros x Hx. apply elem_of_difference. split; [set_solver |].
    intros ->%elem_of_singleton. apply elem_of_union in Hx as [Hx%elem_of_list_to_set|Hx]; [done | set_solver]. }
  intros s' l' Hl' Hs' Hst'. apply (HQ s' (l' ++ [a + i * 16])).
  - rewrite length_app. simpl. lia.
  - eapply ut_sys_ext; [|exact Hs']. intros r. rewrite upd_upd. rewrite upd_eq. by rewrite <- app_assoc.
  - etrans; [apply Hst1 | done].
Qed.

(** ** The functions *)

Lemma us_head p ls H s r (Q : Z -> sos K -> Prop) F :
  ut_sys p ls H s -> valid_ref r -> r <> L4K ->
  (forall h, chain (ut_mem (s_ut s)) h (ls r) -> Q h s) -> wp (head_read r) Q F s.
Proof.
  intros (u & b & _ & c & l4 & o & (_ & _ & _ & _ & Hp) & _) Hr Hne HQ.
  eapply wp_head_read; [apply (bp_rep _ _ _ _ Hp) | done |]. intros h _ Hch. simpl in Hch.
  rewrite upd_ne in Hch by done. auto.
Qed.

(** Filling up with the entries of a new page. *)
Lemma us_add_structures p ls H s (Q : bool -> sos K -> Prop) :
  ut_sys p ls H s ->
  (forall b l' s', ut_sys p (upd ls FreeStructures (l' ++ ls FreeStructures)) H s' -> us_step p H s s' ->
     (b = true -> length l' = 256%nat) -> Q b s') ->
  wp (add_structures p) Q boot_fault s.
Proof.
  intros Hs HQ. unfold add_structures.
  assert (forall H' s', H ⊆ H' -> ut_sys p ls H' s' -> us_step p H s s' -> Q false s') as Hno.
  { intros H' s' Hsub Hs' Hst. apply (HQ false []); [|done | done]. apply (ut_sys_sub _ _ _ H) in Hs'; [|done].
    eapply ut_sys_ext; [|exact Hs']. intros r. simpl. by rewrite (upd_id ls FreeStructures r). }
  rewrite wp_bind. eapply us_alloc_4k; [exact Hs | simpl; rewrite wp_ret; by eapply Hno |].
  intros x a u1 Hs1 Hst1 HxH Hx _. destruct (Z.eqb_spec x 0); [lia |]. rewrite wp_bind.
  eapply us_alloc_slot; [exact Hs1 |]. intros cptr s2 Hs2 Hst2 _.
  assert (us_step p H s s2) as Hst by (etrans; [exact Hst1 |]; eapply us_step_sub; [|exact Hst2]; set_solver).
  destruct (cptr =? seL4_CapNull); [rewrite wp_ret; eapply Hno; [|exact Hs2 | done]; set_solver |].
  rewrite wp_bind. apply wp_ut_read; [done |]. rewrite wp_bind.
  eapply us_retype; [exact Hs2 |]. intros err s3 Hs3 Hst3.
  assert (us_step p H s s3) as Hst' by (etrans; [exact Hst |]; eapply us_step_sub; [|exact Hst3]; set_solver).
  destruct (negb _); [rewrite wp_ret; eapply Hno; [|exact Hs3 | done]; set_solver |].
  apply (ut_sys_sub _ _ _ H) in Hs3; [|set_solver]. rewrite wp_bind. eapply us_map_frame; [exact Hs3 | |].
  - intros s4 Hs4 Hst4. simpl. rewrite wp_ret. eapply Hno; [done | exact Hs4 | by etrans].
  - intros v s4 Hv Hv' Hd Hs4 Hst4. destruct (Z.eqb_spec v 0); [lia |].
    change (Z.to_nat (PAGE_SIZE_4K / sizeof_ut)) with 256%nat. rewrite wp_bind.
    eapply us_push_structures; [done | done | done | done | exact Hs4 | exact Hd |].
    intros s5 l' Hl' Hs5 Hst5. rewrite wp_ret. eapply HQ; [exact Hs5 | by etrans; [|etrans] | done].
Qed.

Lemma us_ensure p ls H s (Q : bool -> sos K -> Prop) :
  ut_sys p ls H s ->
  (forall b ls' s', ut_sys p ls' H s' -> us_step p H s s' ->
     (forall r, r <> FreeStructures -> ls' r = ls r) ->
     (b = true -> exists x y l, ls' FreeStructures = x :: y :: l) -> Q b s') ->
  wp (ensure_new_structures p) Q boot_fault s.
Proof.
  intros Hs HQ. unfold ensure_new_structures. rewrite wp_bind.
  assert (wp (add_structures p) Q boot_fault s) as Hadd.
  { eapply us_add_structures; [done |]. intros b l' s' Hs' Hst Hb.
    eapply HQ; [exact Hs' | done | intros r Hr; by apply upd_ne |].
    intros ->. rewrite upd_eq. destruct l' as [|y [|z l']]; try (by specialize (Hb eq_refl)). by eexists y, z, _. }
  eapply us_head; [exact Hs | done | done |]. intros h Hch. rewrite wp_bind.
  destruct (Z.eqb_spec h 0) as [->|Hh]; [by rewrite wp_ret |].
  rewrite wp_bind. apply wp_ut_read; [done |]. rewrite wp_ret.
  destruct (ls FreeStructures) as [|x l] eqn:El; [by simpl in Hch |]. destruct Hch as (-> & _ & Hch).
  destruct (Z.eqb_spec (ut_next (ut_node (ut_mem (s_ut s)) x)) 0) as [|Hn]; [done |].
  rewrite wp_ret. eapply (HQ true ls); [done | done | done |]. intros _.
  destruct l as [|y l]; [done | by exists x, y, l].
Qed.

Lemma us_new_piece p ls H s size x l (Q : Z * bool -> sos K -> Prop) :
  ut_sys p ls H s -> ls FreeStructures = x :: l -> 0 <= size < 16 ->
  (forall b s', ut_sys p (upd ls FreeStructures l) ({[x]} ∪ H) s' -> us_step p H s s' -> x ∉ H -> 0 < x ->
     (b = true -> slot_of p (ut_cap (ut_node (ut_mem (s_ut s')) x)) s' /\
        ut_size_bits (ut_node (ut_mem (s_ut s')) x) = size) -> Q (x, b) s') ->
  wp (ut_new_piece size p) Q boot_fault s.
Proof.
  intros Hs El Hsize HQ. unfold ut_new_piece. rewrite wp_bind.
  eapply us_pop; [exact Hs | done | done | exact El |]. intros u1 Hs1 Hst1 HxH Hx _. rewrite wp_bind.
  eapply us_alloc_slot; [exact Hs1 |]. intros slot s2 Hs2 Hst2 Hslot. rewrite wp_bind.
  eapply us_write; [exact Hs2 | set_solver |]. intros u3 Hs3 Hst3 Ex.
  rewrite wp_bind. apply wp_ut_read; [lia |]. cbn [s_ut set_ut]. rewrite Ex. cbn [ut_cap ut_set_cap].
  assert (us_step p H s (set_ut u3 s2)) as Hst.
  { etrans; [exact Hst1 |]. etrans; (eapply us_step_sub; [|done]); set_solver. }
  destruct (Z.eqb_spec (slot mod 2 ^ 20) seL4_CapNull) as [|Hne].
  { rewrite wp_ret. by apply HQ. }
  destruct Hslot as [Hslot Hb]; [intros ->; done |]. rewrite Z.mod_small in Hne by lia.
  rewrite wp_bind. eapply us_write; [exact Hs3 | set_solver |]. intros u4 Hs4 Hst4 Ex4. rewrite wp_ret.
  apply HQ; [done | | done | done |].
  - etrans; [exact Hst |]. eapply us_step_sub; [|exact Hst4]. set_solver.
  - intros _. cbn [s_ut set_ut] in *. rewrite Ex4, Ex. cbn [ut_cap ut_size_bits ut_set_size_bits ut_set_cap].
    rewrite !Z.mod_small by lia. split; [|done]. apply Hst4, Hst3, Hslot.
Qed.

Lemma us_slot p H s s' x : us_step p H s s' -> slot_of p x s -> slot_of p x s'.
Proof. intros [[_ Hs] _]. apply Hs. Qed.

Lemma us_size p H s s' x : us_step p H s s' -> x ∈ H ->
  ut_size_bits (ut_node (ut_mem (s_ut s')) x) = ut_size_bits (ut_node (ut_mem (s_ut s)) x).
Proof. intros [_ Hs] Hx. by apply Hs. Qed.

(** The two slots are given back. *)
Lemma us_free_two p ls H s c1 c2 (k : M (sos K) bool) (Q : bool -> sos K -> Prop) :
  ut_sys p ls H s -> slot_of p c1 s -> slot_of p c2 s ->
  (forall s', ut_sys p ls H s' -> us_step p H s s' -> wp k Q boot_fault s') ->
  wp (do* cspace_free_slot p c1 in do* cspace_free_slot p c2 in k) Q boot_fault s.
Proof.
  intros Hs H1 H2 Hk. rewrite wp_bind. eapply us_free_slot; [exact Hs | done |]. intros s1 Hs1 Hst1.
  rewrite wp_bind. eapply us_free_slot; [exact Hs1 | by eapply us_slot |]. intros s2 Hs2 Hst2.
  apply Hk; [done | by etrans].
Qed.

(** The last step of every failure. *)
Lemma us_give_back p ls H s x H' (Q : bool -> sos K -> Prop) :
  ut_sys p ls H s -> x ∈ H -> 4 <= ut_size_bits (ut_node (ut_mem (s_ut s)) x) <= 12 -> H' ⊆ H ∖ {[x]} ->
  (forall ls' s', ut_sys p ls' H' s' -> us_step p H s s' -> Q false s') ->
  wp (do* ut_free x in ret false) Q boot_fault s.
Proof.
  intros Hs Hx Hsz Hsub HQ. rewrite wp_bind. eapply us_ut_free; [exact Hs | done | done |].
  intros ls' u' Hs' Hst'. rewrite wp_ret. eapply HQ; [by eapply ut_sys_sub | done].
Qed.

Section Pair.
Variables (p size larger new1 new2 : Z) (H : gset Z).
Hypothesis (Hsize : 4 <= size < 12) (HL : larger ∉ H) (H1 : new1 ∉ {[larger]} ∪ H)
  (H2 : new2 ∉ {[new1]} ∪ ({[larger]} ∪ H)).
Abbreviation All := ({[new2]} ∪ ({[new1]} ∪ ({[larger]} ∪ H))).
Abbreviation r := (FreeList (SIZE_BITS_TO_INDEX size)).

Lemma size_list : valid_ref r /\ r <> L4K /\ r <> FreeStructures.
Proof using Hsize.
  split; [apply size_ref_valid; lia |]. split; [|done]. intros [= E]. unfold SIZE_BITS_TO_INDEX, seL4_PageBits in E. lia.
Qed.

Lemma us_retype_pair ls s (Q : bool -> sos K -> Prop) :
  ut_sys p ls All s ->
  slot_of p (ut_cap (ut_node (ut_mem (s_ut s)) new1)) s ->
  slot_of p (ut_cap (ut_node (ut_mem (s_ut s)) new2)) s ->
  ut_size_bits (ut_node (ut_mem (s_ut s)) new1) = size ->
  ut_size_bits (ut_node (ut_mem (s_ut s)) new2) = size ->
  4 <= ut_size_bits (ut_node (ut_mem (s_ut s)) larger) <= 12 ->
  (forall b ls' s', ut_sys p ls' H s' -> us_step p H s s' -> (b = true -> exists x l, ls' r = x :: l) -> Q b s') ->
  wp (ut_retype_pair size p larger new1 new2) Q boot_fault s.
Proof.
  intros Hs S1 S2 Z1 Z2 ZL HQ. destruct size_list as (Hr & Hr4 & Hrs). unfold ut_retype_pair.
  assert (0 < larger /\ 0 < new1 /\ 0 < new2) as (PL & P1 & P2).
  { destruct Hs as (u & b & (_ & B2 & _) & _). split; [|split]; apply B2; set_solver. }
  rewrite wp_bind. apply wp_ut_read; [lia |]. rewrite wp_bind. apply wp_ut_read; [lia |].
  rewrite wp_bind. apply wp_ut_read; [lia |]. rewrite wp_bind.
  eapply us_retype; [exact Hs |]. intros e s1 Hs1 St1.
  assert (forall H' ls' s', H ⊆ H' ∖ {[larger]} -> H' ⊆ All -> larger ∈ H' -> ut_sys p ls' H' s' -> us_step p All s s' ->
    wp (do* ut_free larger in ret false) Q boot_fault s') as Hback.
  { intros H' ls' s' Hsub Hsub' Hin Hs' St'.
    eapply (us_give_back _ _ H' _ _ H); [exact Hs' | done | | done |].
    - rewrite (us_size p All s s' larger); [done | done | set_solver].
    - intros ls2 s2 Hs2 St2. eapply HQ; [exact Hs2 | | done].
      etrans; [eapply us_step_sub; [|exact St'] | eapply us_step_sub; [|exact St2]]; set_solver. }
  destruct (negb _).
  { eapply us_free_two; [exact Hs1 | by eapply us_slot | by eapply us_slot |]. intros s2 Hs2 St2.
    rewrite wp_bind. eapply us_push; [exact Hs2 | done | done | set_solver | done |]. intros u3 Hs3 St3.
    eapply Hback; [| | | exact Hs3 | by etrans; [|etrans; [|apply St3]]]; set_solver. }
  rewrite wp_bind. eapply us_retype; [exact Hs1 |]. intros e2 s2 Hs2 St2.
  assert (us_step p All s s2) as St02 by by etrans. destruct (negb _).
  { rewrite wp_bind. eapply us_delete; [exact Hs2 |]. intros e3 s3 Hs3 St3.
    assert (us_step p All s s3) as St03 by by etrans.
    eapply us_free_two; [exact Hs3 | by eapply us_slot | by eapply us_slot |]. intros s4 Hs4 St4.
    rewrite wp_bind. eapply us_push; [exact Hs4 | done | done | set_solver | done |]. intros u5 Hs5 St5.
    rewrite wp_bind. eapply us_push; [exact Hs5 | done | done | set_solver | done |]. intros u6 Hs6 St6.
    eapply Hback; [| | | exact Hs6 | by etrans; [|etrans; [|etrans; [apply St5 | apply St6]]]]; set_solver. }
  rewrite wp_bind. eapply us_push; [exact Hs2 | done | done | set_solver | |].
  { intros i [= <-]. rewrite (us_size p All s s2 new1), Z1; [unfold SIZE_BITS_TO_INDEX; lia | done | set_solver]. }
  intros u3 Hs3 St3. rewrite wp_bind. eapply us_push; [exact Hs3 | done | done | set_solver | |].
  { intros i [= <-]. rewrite (us_size p All s (set_ut u3 s2) new2), Z2;
      [unfold SIZE_BITS_TO_INDEX; lia | by etrans | set_solver]. }
  intros u4 Hs4 St4. rewrite wp_ret. eapply HQ; [eapply ut_sys_sub; [|exact Hs4]; set_solver | |].
  - etrans; [eapply us_step_sub; [|exact St02]; set_solver | etrans; [apply St3 | apply St4]].
  - intros _. rewrite upd_eq. by eexists _, _.
Qed.
End Pair.

Lemma us_split p size larger H ls s (Q : bool -> sos K -> Prop) :
  4 <= size < 12 -> larger ∉ H -> ut_sys p ls ({[larger]} ∪ H) s ->
  4 <= ut_size_bits (ut_node (ut_mem (s_ut s)) larger) <= 12 ->
  (forall b ls' s', ut_sys p ls' H s' -> us_step p H s s' ->
     (b = true -> exists x l, ls' (FreeList (SIZE_BITS_TO_INDEX size)) = x :: l) -> Q b s') ->
  wp (ut_split size p larger) Q boot_fault s.
Proof.
  intros Hsize HL Hs ZL HQ. unfold ut_split. set (HLs := {[larger]} ∪ H) in *.
  assert (forall H' ls' s', HLs ⊆ H' -> ut_sys p ls' H' s' -> us_step p HLs s s' ->
    wp (do* ut_free larger in ret false) Q boot_fault s') as Hback.
  { intros H' ls' s' Hsub Hs' St'. eapply (us_give_back _ _ H' _ _ H); [exact Hs' | set_solver | | set_solver |].
    - rewrite (us_size p HLs s s' larger); [done | done | set_solver].
    - intros ls2 s2 Hs2 St2. eapply HQ; [exact Hs2 | | done].
      etrans; [eapply us_step_sub; [|exact St'] | eapply us_step_sub; [|exact St2]]; set_solver. }
  rewrite wp_bind. eapply us_ensure; [exact Hs |]. intros ok ls1 s1 Hs1 St1 _ Hok.
  destruct ok; cbn [negb]; [|by eapply Hback]. destruct Hok as (x & y & l & El); [done |].
  rewrite wp_bind. eapply us_new_piece; [exact Hs1 | exact El | lia |]. intros ok1 s2 Hs2 St2 Hx Px Hok1.
  assert (us_step p HLs s s2) as St02 by by etrans.
  destruct ok1; cbn [negb]; [|eapply Hback; [|exact Hs2 | done]; set_solver].
  destruct Hok1 as [Sx Zx]; [done |].
  rewrite wp_bind. eapply us_new_piece; [exact Hs2 | apply upd_eq | lia |]. intros ok2 s3 Hs3 St3 Hy Py Hok2.
  assert (us_step p HLs s s3) as St03.
  { etrans; [exact St02 |]. eapply us_step_sub; [|exact St3]. set_solver. }
  assert (slot_of p (ut_cap (ut_node (ut_mem (s_ut s3)) x)) s3) as Sx3.
  { destruct St3 as [[_ A] B]. destruct (B x) as [-> _]; [set_solver |]. by apply A. }
  destruct ok2; cbn [negb].
  - destruct Hok2 as [Sy Zy]; [done |].
    eapply (us_retype_pair p size larger x y H); [done | done | done | done | exact Hs3 | done | done | | done | |].
    + rewrite (us_size _ _ _ _ x St3); [done | set_solver].
    + rewrite (us_size p HLs s s3 larger); [done | done | set_solver].
    + intros b ls' s' Hs' St' Hb. eapply HQ; [exact Hs' | | done].
      etrans; [eapply us_step_sub; [|exact St03]; set_solver | done].
  - rewrite wp_bind. apply wp_ut_read; [lia |]. rewrite wp_bind.
    eapply us_free_slot; [exact Hs3 | done |]. intros s4 Hs4 St4.
    eapply Hback; [|exact Hs4 |]; [set_solver |]. etrans; [exact St03 |]. eapply us_step_sub; [|exact St4]. set_solver.
Qed.

Lemma us_alloc p fuel size H ls s (Q : Z -> sos K -> Prop) :
  (Z.to_nat (13 - size) <= fuel)%nat -> (0 < fuel)%nat -> ut_sys p ls H s ->
  (forall ls' s', ut_sys p ls' H s' -> us_step p H s s' -> Q 0 s') ->
  (forall x ls' s', 4 <= size <= 12 -> ut_sys p ls' ({[x]} ∪ H) s' -> us_step p H s s' -> x ∉ H -> 0 < x ->
     ut_size_bits (ut_node (ut_mem (s_ut s')) x) = size -> Q x s') ->
  wp (ut_alloc_fuel fuel size p) Q boot_fault s.
Proof.
  revert size ls s Q. induction fuel as [|fuel IH]; intros size ls s Q Hf Hf0 Hs Hno Hyes; [lia |].
  cbn [ut_alloc_fuel]. unfold seL4_PageBits, seL4_EndpointBits.
  destruct (Z.ltb_spec 12 size); [rewrite wp_ret; by eapply Hno |].
  destruct (Z.ltb_spec size 4); [rewrite wp_ret; by eapply Hno |].
  destruct (Z.eqb_spec size 12) as [->|Hn].
  { rewrite wp_bind. eapply us_alloc_4k; [exact Hs | rewrite wp_ret; by eapply Hno |].
    intros x a u' Hs' St' Hx Px Zx. rewrite wp_ret. by eapply Hyes. }
  assert (4 <= size < 12) as Hsize by lia. destruct (size_list size Hsize) as (Hr & Hr4 & _).
  set (r := FreeList (SIZE_BITS_TO_INDEX size)) in *.
  assert (forall ls1 s1 x l, ut_sys p ls1 H s1 -> us_step p H s s1 -> ls1 r = x :: l -> wp (pop r) Q boot_fault s1) as Hpop.
  { intros ls1 s1 x l Hs1 St1 El. eapply us_pop; [exact Hs1 | done | done | exact El |].
    intros u' Hs' St' Hx Px Zx. eapply Hyes; [lia | exact Hs' | by etrans | done | done |].
    simpl. rewrite (Zx _ eq_refl). unfold SIZE_BITS_TO_INDEX. lia. }
  rewrite wp_bind. eapply us_head; [exact Hs | done | done |]. intros h Hch.
  destruct (Z.eqb_spec h 0) as [->|Hh].
  - rewrite wp_bind. eapply IH; [lia | lia | exact Hs | |].
    { intros ls1 s1 Hs1 St1. simpl. rewrite wp_ret. by eapply Hno. }
    intros x ls1 s1 _ Hs1 St1 Hx Px Zx. destruct (Z.eqb_spec x 0); [lia |]. rewrite wp_bind.
    eapply us_split; [done | exact Hx | exact Hs1 | lia |]. intros b ls2 s2 Hs2 St2 Hb.
    assert (us_step p H s s2) by by etrans. destruct b; [|rewrite wp_ret; by eapply Hno].
    destruct Hb as (y & l & El); [done |]. by eapply Hpop.
  - destruct (ls r) as [|x l] eqn:El; [done |]. by eapply Hpop.
Qed.
End Spec.
