(* ===== verification/UtThms.v ===== *)
(** * Theorems on the untyped table

    What [ut_alloc], [ut_free] and [ut_add_untyped_range] promise to the rest of
    SOS, and the correspondence between table entries and physical pages. *)

From S2P Require Import Prelude SosState UtTable Bitfield Cspace CspaceInv Mapping Bootstrap CspaceThms Sys UtAlloc.

(** C29: [ut_alloc] returns [NULL], or a node of the size asked for that nobody
    held, which no list contains any more.  It may split larger untypeds and map
    new bookkeeping memory for this, and whatever fails on the way:
    the lists and the cspace stay well formed, what the caller held stays held
    and unchanged, and nine levels of recursion are enough.  The kernel is
    arbitrary, except that it maps no page beyond the user's addresses. *)
Theorem ut_alloc_spec {K} {HE : Env K} (p size : Z) (ls : head_ref -> list Z) (H : gset Z) (s : sos K) :
  page_map_bound -> ut_sys p ls H s ->
  wp (ut_alloc size p)
     (fun x s' => us_step p H s s' /\ exists ls',
        (x = 0 /\ ut_sys p ls' H s') \/
        (4 <= size <= 12 /\ 0 < x /\ (x ∉ H) /\ ut_sys p ls' ({[x]} ∪ H) s' /\
         ut_size_bits (ut_node (ut_mem (s_ut s')) x) = size))
     boot_fault s.
Proof.
  intros HB Hs. unfold ut_alloc. destruct (Z.leb_spec 4 size).
  - eapply us_alloc; [done | lia | lia | done | |].
    + intros ls' s' Hs' Hst. split; [done |]. exists ls'. by left.
    + intros x ls' s' Hsz Hs' Hst Hx Px Zx. split; [done |]. exists ls'. by right.
  - cbn [ut_alloc_fuel]. unfold seL4_PageBits, seL4_EndpointBits.
    destruct (Z.ltb_spec 12 size); [lia |]. destruct (Z.ltb_spec size 4); [|lia].
    rewrite wp_ret. split; [done |]. exists ls. by left.
Qed.

(** A kernel with all paging structures in place, and the user's bound. *)
Definition user_invoke (i : invocation) (k : nat * Z) : Z * (nat * Z) :=
  match i with
  | Page_Map _ _ va _ _ => if 2 ^ 47 <=? va then (1, k) else tables_invoke i k
  | _ => tables_invoke i k
  end.
Definition user_env : Env (nat * Z) :=
  {| invoke := user_invoke; failed_level := snd; calloc := fun _ k => (0x10000, k);
     free := fun _ k => k; word_past := fun _ _ => 0 |}.

Lemma user_bound : page_map_bound (HE := user_env).
Proof.
  intros frame vs va r attr k k'. simpl. by destruct (Z.leb_spec (2 ^ 47) va).
Qed.

Lemma demo_ut_sys : ut_sys (HE := user_env) 8 (fun _ => []) ∅ (demo2_sos (0%nat, 0)).
Proof.
  exists demo_ut, 0x8000400000. split; [split; [set_solver |]; split; [set_solver | lia] |].
  exists demo2, [16; 32; 48], ∅. split; [|done]. split; [done |]. split; [done |].
  split; [exists 1; apply demo2_wf |]. split; [done | apply (demo_pool (HE := user_env))].
Qed.

Lemma ut_alloc_spec_witness :
  wp (ut_alloc (H := user_env) 5 8)
     (fun x s' => us_step 8 ∅ (demo2_sos (0%nat, 0)) s' /\ exists ls',
        (x = 0 /\ ut_sys (HE := user_env) 8 ls' ∅ s') \/
        (4 <= 5 <= 12 /\ 0 < x /\ (x ∉ (∅ : gset Z)) /\ ut_sys (HE := user_env) 8 ls' ({[x]} ∪ ∅) s' /\
         ut_size_bits (ut_node (ut_mem (s_ut s')) x) = 5))
     boot_fault (demo2_sos (0%nat, 0)).
Proof.
  apply (ut_alloc_spec (HE := user_env) 8 5 (fun _ => [])); [apply user_bound | apply demo_ut_sys].
Defined.

(** Splitting works: on a small table, a request for a 16 byte untyped gives
    one, by eight splits and one page of new structures, and leaves one spare
    piece of every size in between. *)
Theorem ut_alloc_splits :
  match ut_alloc (H := user_env) seL4_EndpointBits 8 (demo2_sos (0%nat, 0)) with
  | inl (x, s') =>
      x <> 0 /\ ut_size_bits (ut_node (ut_mem (s_ut s')) x) = seL4_EndpointBits /\
      map (fun h => ut_size_bits (ut_node (ut_mem (s_ut s')) h)) (take 8 (free_untypeds (s_ut s')))
        = [4; 5; 6; 7; 8; 9; 10; 11] /\
      map (fun h => ut_next (ut_node (ut_mem (s_ut s')) h)) (take 8 (free_untypeds (s_ut s')))
        = replicate 8 0
  | inr _ => False
  end.
Proof. vm_compute. repeat split; discriminate. Qed.

(** A node that is freed is the next one allocated of its size, and the lists
    are then as they were: no kernel call, no fault. *)
Theorem ut_free_alloc_roundtrip {K} {HE : Env K} (p x : Z) (ls : head_ref -> list Z) (s : sos K) :
  ut_rep (s_ut s) ls -> x <> 0 -> unlisted ls x ->
  let b := ut_size_bits (ut_node (ut_mem (s_ut s)) x) in
  4 <= b <= 12 ->
  wp (do* ut_free x in ut_alloc b p)
     (fun y s' => y = x /\ ut_rep (s_ut s') ls /\ ut_meta (s_ut s) (s_ut s') /\ s' = set_ut (s_ut s') s)
     (fun _ => False) s.
Proof.
  intros HR Hx Hun b Hb. rewrite wp_bind. eapply wp_ut_free; [exact HR | done | done | done |].
  intros u' r HR' Hm. fold b in r. assert (valid_ref r) as Hr by by apply size_ref_valid.
  assert (wp (pop r) (fun y s' => y = x /\ ut_rep (s_ut s') ls /\ ut_meta (s_ut s) (s_ut s') /\
    s' = set_ut (s_ut s') s) (fun _ => False) (set_ut u' s)) as Hpop.
  { eapply wp_pop; [exact HR' | done | apply upd_eq |]. intros u2 HR2 _ _ Hm2. split; [done |].
    split; [by rewrite upd_upd, upd_id in HR2 |]. split; [by etrans | done]. }
  unfold ut_alloc. cbn [ut_alloc_fuel]. unfold seL4_PageBits, seL4_EndpointBits.
  destruct (Z.ltb_spec 12 b); [lia |]. destruct (Z.ltb_spec b 4); [lia |].
  destruct (Z.eqb_spec b 12) as [E|E].
  - rewrite wp_bind. unfold ut_alloc_4k_untyped. change (FreeList (SIZE_BITS_TO_INDEX seL4_PageBits)) with L4K.
    assert (r = L4K) as Er by (unfold r; by rewrite E). rewrite Er in *. rewrite wp_bind.
    eapply wp_head_read; [exact HR' | done |]. intros h _ Hch. rewrite upd_eq in Hch. destruct Hch as (-> & _ & _).
    destruct (Z.eqb_spec x 0); [done |]. rewrite wp_bind. eapply wp_mono; [exact Hpop | | done].
    intros y s' HQ. wp_steps. exact HQ.
  - fold r. rewrite wp_bind. eapply wp_head_read; [exact HR' | done |]. intros h _ Hch.
    rewrite upd_eq in Hch. destruct Hch as (-> & _ & _). by destruct (Z.eqb_spec x 0).
Qed.

Lemma ut_free_alloc_roundtrip_witness :
  wp (do* ut_free 16 in ut_alloc (H := user_env) 12 8)
     (fun y s' => y = 16 /\ ut_rep (s_ut s') (upd demo_lists L4K [32; 48]) /\
        ut_meta (set_head demo_ut L4K 32) (s_ut s') /\
        s' = set_ut (s_ut s') (set_ut (set_head demo_ut L4K 32) (demo2_sos (0%nat, 0))))
     (fun _ => False) (set_ut (set_head demo_ut L4K 32) (demo2_sos (0%nat, 0))).
Proof.
  destruct (ut_rep_pop demo_ut demo_lists L4K 16 [32; 48] demo_ut_rep L4K_valid eq_refl) as (_ & _ & HR & Hun).
  apply (ut_free_alloc_roundtrip (HE := user_env) 8 16 (upd demo_lists L4K [32; 48])
    (set_ut (set_head demo_ut L4K 32) (demo2_sos (0%nat, 0)))).
  - exact HR.
  - done.
  - exact Hun.
  - done.
Defined.

(** Adding a range of boot memory puts the entry of every page of it into the
    4K list, the last page first, with the capabilities numbered on from [cap];
    all other lists and the capabilities of all other entries stay the same. *)
Theorem ut_add_range_spec {K} (k cap : Z) (n : nat) (ls : head_ref -> list Z) (s : sos K) :
  let u := s_ut s in
  ut_rep u ls -> 0 <= k -> 0 <= first_paddr u -> 0 < untypeds u ->
  first_paddr u + (k + Z.of_nat n) * PAGE_SIZE_4K <= 2 ^ 64 -> entry u (k + Z.of_nat n) <= 2 ^ 64 ->
  0 <= cap -> cap + Z.of_nat n < 2 ^ 64 ->
  (forall i, 0 <= i < Z.of_nat n -> unlisted ls (entry u (k + i))) ->
  wp (ut_add_untyped_range (first_paddr u + k * PAGE_SIZE_4K) cap n false)
     (fun _ s' => exists u', s' = set_ut u' s /\
        ut_rep u' (upd ls L4K (entries u k n ++ ls L4K)) /\ added u u' k cap n)
     (fun _ => False) s.
Proof.
  intros u HR Hk Hf Hu Hp He Hc Hcn Hun. unfold ut_add_untyped_range.
  replace 0 with (k - k) at 1 by lia. apply wp_ut_add_untyped_loop; try done. lia.
Qed.

Definition demo_region : sos unit :=
  set_ut (mkUtTable 0x1000 SOS_UT_TABLE (replicate 9 0) 0 0 ∅) (initial_sos 0 tt).

Lemma demo_region_rep : ut_rep (s_ut demo_region) (fun _ => []).
Proof.
  split.
  - done.
  - intros r Hr. exists 0. split; [|done]. destruct r as [i|]; [|done]. unfold valid_ref in Hr.
    unfold head_of. destruct (Z.leb_spec 0 i), (Z.ltb_spec i N_UNTYPED_LISTS); try lia.
    apply lookup_replicate. split; [done |]. unfold N_UNTYPED_LISTS, seL4_PageBits, seL4_EndpointBits in *. lia.
  - intros. constructor.
  - intros. set_solver.
  - intros. set_solver.
Qed.

Lemma ut_add_range_spec_witness :
  wp (ut_add_untyped_range (0x1000 + 3 * PAGE_SIZE_4K) 100 5 false)
     (fun _ s' => exists u', s' = set_ut u' demo_region /\
        ut_rep u' (upd (fun _ => []) L4K (entries (s_ut demo_region) 3 5 ++ [])) /\
        added (s_ut demo_region) u' 3 100 5)
     (fun _ => False) demo_region.
Proof.
  apply (ut_add_range_spec 3 100 5 (fun _ => []) demo_region).
  - apply demo_region_rep.
  - lia.
  - vm_compute. discriminate.
  - vm_compute. reflexivity.
  - vm_compute. discriminate.
  - vm_compute. discriminate.
  - lia.
  - lia.
  - intros i Hi r Hr. set_solver.
Defined.

(** Entries of the table and pages of the region correspond one to one:
    [ut_to_paddr] undoes [paddr_to_ut], and every address inside a page leads to
    the page's entry. *)
Theorem paddr_ut_roundtrip (u : ut_table_t) (k d : Z) :
  0 <= first_paddr u -> 0 <= untypeds u -> 0 <= k -> 0 <= d < PAGE_SIZE_4K ->
  first_paddr u + (k + 1) * PAGE_SIZE_4K <= 2 ^ 64 -> entry u k < 2 ^ 64 ->
  paddr_to_ut u (first_paddr u + k * PAGE_SIZE_4K + d) = entry u k /\
  ut_to_paddr u (paddr_to_ut u (first_paddr u + k * PAGE_SIZE_4K)) = first_paddr u + k * PAGE_SIZE_4K.
Proof.
  change PAGE_SIZE_4K with 4096. intros Hf Hu Hk Hd Hp He. split.
  - unfold paddr_to_ut, entry, w64, sizeof_ut in *. change PAGE_SIZE_4K with 4096.
    rewrite (Z.mod_small (_ - _)) by lia.
    replace ((first_paddr u + k * 4096 + d - first_paddr u) / 4096) with k by lia.
    apply Z.mod_small. lia.
  - pose proof (paddr_to_ut_entry u k) as E1. pose proof (ut_to_paddr_entry u k) as E2.
    change PAGE_SIZE_4K with 4096 in E1, E2. rewrite E1 by lia. apply E2; lia.
Qed.

Lemma paddr_ut_roundtrip_witness :
  let u := s_ut demo_region in
  paddr_to_ut u (first_paddr u + 3 * PAGE_SIZE_4K + 7) = entry u 3 /\
  ut_to_paddr u (paddr_to_ut u (first_paddr u + 3 * PAGE_SIZE_4K)) = first_paddr u + 3 * PAGE_SIZE_4K.
Proof. apply (paddr_ut_roundtrip (s_ut demo_region) 3 7); vm_compute; intuition discriminate. Defined.
