(* ===== verification/Irq.v ===== *)
(** * Interrupt dispatch

    Model of sos/src/irq.c: interrupts are told apart by a bit of the badge of
    the notification they are delivered through.  A shift by the word width or
    more, which is undefined in C, is the fault [OutOfBounds].

    The callbacks are code of the drivers: [callback f data irq handler] is what
    the function at address [f] does with its arguments. *)

From S2P Require Import Prelude SosState UtTable Bitfield Cspace CspaceInv Mapping Bootstrap CspaceThms Sys.

Definition ENOMEM : Z := 12.

Section Irq.
Context {K : Type} `{Env K} (callback : Z -> Z -> Z -> Z -> M (sos K) Z).
Abbreviation MS := (M (sos K)).

Definition irq_set_allocated (bits : Z) : MS unit :=
  modify (fun s => let d := s_irq s in
    set_irq (mkIrqDispatch (irq_control d) (irq_notification d) (irq_cspace d) (flag_bits d)
               (ident_bits d) bits (irq_past d) (irq_handlers d)) s).

Definition irq_set_handler (bit : Z) (h : irq_handler_t) : MS unit :=
  modify (fun s => let d := s_irq s in
    set_irq (mkIrqDispatch (irq_control d) (irq_notification d) (irq_cspace d) (flag_bits d)
               (ident_bits d) (allocated_bits d) (irq_past d) (<[bit := h]> (irq_handlers d))) s).

Definition zero_handler : irq_handler_t := mkIrqHandler 0 0 0 0 0.
Definition handler_at (d : irq_dispatch_t) (bit : Z) : irq_handler_t :=
  default zero_handler (irq_handlers d !! bit).

Definition sos_init_irq_dispatch (cspace control notification flags ident : Z) : MS unit :=
  do* assert_ (Z.land flags ident =? 0) in
  modify (fun s => let d := s_irq s in
    set_irq (mkIrqDispatch control notification cspace flags ident (lnot64 ident)
               (irq_past d) (irq_handlers d)) s).

Definition alloc_irq_bit : MS Z :=
  let* d := gets s_irq in
  let* bit := of_option AssertFail (bf_first_free 1 [allocated_bits d] (irq_past d)) in
  if seL4_WordBits <=? bit then fail OutOfBounds
  else do* irq_set_allocated (Z.lor (allocated_bits d) (BIT bit)) in ret bit.

Definition free_irq_bit (bit : Z) : MS unit :=
  let* d := gets s_irq in
  irq_set_allocated (Z.land (allocated_bits d) (lnot64 (BIT bit))).

(** Giving back what was taken for a registration that failed. *)
Definition irq_give_back (cspace handler_cptr notification_cptr bit err : Z) : MS (Z * option Z) :=
  do* cspace_free_slot cspace handler_cptr in
  do* cspace_free_slot cspace notification_cptr in
  do* free_irq_bit bit in
  ret (err, None).

(** From [cspace_irq_control_get] on. *)
Definition irq_bind (irq : Z) (edge_triggered : bool) (cb data ident_bit handler_cptr notification_cptr : Z)
    : MS (Z * option Z) :=
  let* d := gets s_irq in
  let cspace := irq_cspace d in
  let* err := cspace_irq_control_get cspace handler_cptr (irq_control d) irq (Z.b2z edge_triggered) in
  if negb (err =? 0) then irq_give_back cspace handler_cptr notification_cptr ident_bit err
  else
    let badge := Z.lor (flag_bits d) (BIT ident_bit) in
    let* err := cspace_mint cspace notification_cptr cspace (irq_notification d) seL4_CanWrite badge in
    if negb (err =? 0) then
      do* cspace_delete cspace handler_cptr in
      irq_give_back cspace handler_cptr notification_cptr ident_bit err
    else
      let* err := call (IRQHandler_SetNotification handler_cptr notification_cptr) in
      if negb (err =? 0) then
        do* cspace_delete cspace notification_cptr in
        do* cspace_delete cspace handler_cptr in
        irq_give_back cspace handler_cptr notification_cptr ident_bit err
      else
        do* irq_set_handler ident_bit (mkIrqHandler irq handler_cptr notification_cptr cb data) in
        ret (0, Some handler_cptr).

(** The error, and what is stored through [irq_handler].  The second check is on
    [handler_cptr] again, which is known not to be 0. *)
Definition sos_register_irq_handler (irq : Z) (edge_triggered : bool) (cb data : Z) : MS (Z * option Z) :=
  let* ident_bit := alloc_irq_bit in
  if seL4_BadgeBits <=? ident_bit then ret (ENOMEM, None)
  else
    let* d := gets s_irq in
    let* handler_cptr := cspace_alloc_slot (irq_cspace d) in
    if handler_cptr =? 0 then do* free_irq_bit ident_bit in ret (ENOMEM, None)
    else
      let* notification_cptr := cspace_alloc_slot (irq_cspace d) in
      if handler_cptr =? 0 then
        do* cspace_free_slot (irq_cspace d) handler_cptr in
        do* free_irq_bit ident_bit in ret (ENOMEM, None)
      else irq_bind irq edge_triggered cb data ident_bit handler_cptr notification_cptr.

Definition dispatch_irq (h : irq_handler_t) : MS Z :=
  if h_callback h =? 0 then fail NullDeref
  else callback (h_callback h) (h_data h) (h_irq h) (h_irq_handler h).

(** The loop; one unit of fuel for each bit that is set. *)
Fixpoint handle_irq_loop (fuel : nat) (unchecked_bits badge : Z) : MS (Z * Z) :=
  match fuel with
  | O => fail NoFuel
  | S fuel' =>
      if unchecked_bits =? 0 then ret (0, badge)
      else
        let bit := CTZL unchecked_bits in
        let* d := gets s_irq in
        let* err := dispatch_irq (handler_at d bit) in
        if negb (err =? 0) then ret (err, badge)
        else
          let badge := Z.land badge (lnot64 (BIT bit)) in
          handle_irq_loop fuel' (Z.land unchecked_bits badge) badge
  end.

(** The error and the new [*badge]. *)
Definition sos_handle_irq_notification (badge : Z) : MS (Z * Z) :=
  let* d := gets s_irq in
  handle_irq_loop 65 (Z.land (Z.land badge (allocated_bits d)) (ident_bits d)) badge.

(** ** Dispatch, bit by bit *)

(** The bits of a word, in ascending order. *)
Definition bits_of (w : Z) : list Z := filter (fun i => Z.testbit w i = true) (seqZ 0 64).

(** What dispatch should do: each bit once, in order, until a callback fails. *)
Fixpoint dispatch_each (bits : list Z) (badge : Z) : MS (Z * Z) :=
  match bits with
  | [] => ret (0, badge)
  | bit :: bits' =>
      let* d := gets s_irq in
      let* err := dispatch_irq (handler_at d bit) in
      if negb (err =? 0) then ret (err, badge)
      else dispatch_each bits' (Z.ldiff badge (BIT bit))
  end.
End Irq.

Lemma bits_of_zero : bits_of 0 = [].
Proof. apply filter_none. intros i _. by rewrite Z.bits_0. Qed.

Lemma elem_bits_of w i : i ∈ bits_of w <-> 0 <= i < 64 /\ Z.testbit w i = true.
Proof. unfold bits_of. rewrite list_elem_of_filter, elem_of_seqZ. split; intros []; split; lia || done. Qed.

Lemma bits_of_length w : (length (bits_of w) < 65)%nat.
Proof.
  unfold bits_of. pose proof (length_filter (fun i => Z.testbit w i = true) (seqZ 0 64)) as Hl.
  rewrite length_seqZ in Hl. lia.
Qed.

Lemma clear_testbit w b i : 0 <= i < 64 -> 0 <= b ->
  Z.testbit (Z.land w (lnot64 (BIT b))) i = Z.testbit w i && negb (bool_decide (i = b)).
Proof. intros Hi Hb. by rewrite Z.land_spec, lnot64_testbit, bool_decide_true, BIT_testbit. Qed.

(** The lowest bit comes first. *)
Lemma bits_of_lowest w : is_word w -> w <> 0 ->
  bits_of w = CTZL w :: bits_of (Z.land w (lnot64 (BIT (CTZL w)))).
Proof.
  intros Hw H0. assert (0 < w) as Hp by (unfold is_word in Hw; lia).
  pose proof (CTZL_word w Hp Hw) as Hc. set (c := CTZL w) in *.
  assert (seqZ 0 64 = seqZ 0 c ++ c :: seqZ (c + 1) (63 - c)) as E.
  { replace 64 with (c + (64 - c)) by lia. rewrite seqZ_app by lia. f_equal.
    rewrite (seqZ_cons (0 + c)) by lia. replace (0 + c) with c by lia. do 2 f_equal; lia. }
  unfold bits_of. rewrite E, !list.filter_app, !list.filter_cons.
  rewrite (decide_True (P := Z.testbit w c = true)) by by apply CTZL_set.
  rewrite (decide_False (P := Z.testbit (Z.land w _) c = true)).
  2: { rewrite clear_testbit, (bool_decide_true (c = c)) by lia. by rewrite andb_false_r. }
  rewrite !(filter_none _ (seqZ 0 c)).
  - simpl. f_equal. apply filter_ext_in. intros i Hi%elem_of_seqZ.
    rewrite clear_testbit, bool_decide_false, andb_true_r by lia. done.
  - intros i Hi%elem_of_seqZ. rewrite clear_testbit by lia. by rewrite CTZL_below by lia.
  - intros i Hi%elem_of_seqZ. by rewrite CTZL_below by lia.
Qed.

(** ** Dispatch *)

Lemma ldiff_land_lnot w b : is_word w -> Z.ldiff w (BIT b) = Z.land w (lnot64 (BIT b)).
Proof.
  intros Hw. apply Z.bits_inj'. intros i Hi. rewrite Z.ldiff_spec, Z.land_spec, lnot64_testbit.
  destruct (Z.lt_ge_cases i 64); [by rewrite bool_decide_true|]. by rewrite is_word_testbit.
Qed.

(** A bit outside a set of bits within the badge can be cleared in both. *)
Lemma land_clear u badge b : is_word badge -> Z.land u badge = u ->
  Z.land u (Z.land badge (lnot64 (BIT b))) = Z.land u (lnot64 (BIT b)).
Proof. intros Hb Hu. by rewrite Z.land_assoc, Hu. Qed.

Lemma handle_irq_loop_each {K} cb fuel u badge (s : sos K) :
  is_word u -> is_word badge -> Z.land u badge = u -> (length (bits_of u) < fuel)%nat ->
  handle_irq_loop cb fuel u badge s = dispatch_each cb (bits_of u) badge s.
Proof.
  revert u badge s. induction fuel as [|fuel IH]; intros u badge s Hu Hb Hub Hf; [lia |].
  cbn [handle_irq_loop]. destruct (Z.eqb_spec u 0) as [->|Hne]; [by rewrite bits_of_zero |].
  rewrite (bits_of_lowest u Hu Hne) in Hf |- *. simpl in Hf. cbn [dispatch_each].
  unfold bind, gets. destruct (dispatch_irq cb _ s) as [[err s']|]; [|done].
  destruct (negb _); [done |]. rewrite ldiff_land_lnot, land_clear by done.
  apply IH; [by apply is_word_land_l | by apply is_word_land_l | | lia].
  set (n := lnot64 _). rewrite (Z.land_comm badge n), Z.land_assoc, <- (Z.land_assoc u n n), Z.land_diag.
  by rewrite <- Z.land_assoc, (Z.land_comm n badge), Z.land_assoc, Hub.
Qed.

(** ** Registration *)

(** The bit found is the lowest one not allocated. *)
Lemma first_free_bit w past b : is_word w -> bf_first_free 1 [w] past = Some b -> b < 64 ->
  0 <= b /\ Z.testbit w b = false /\ (forall j, 0 <= j < b -> Z.testbit w j = true).
Proof.
  intros Hw. unfold bf_first_free. simpl. destruct (Z.eqb_spec w ULONG_MAX) as [->|Hne]; simpl.
  { destruct (lnot64 past =? 0); [done |]. intros [= <-]. unfold WORD_BITS. lia. }
  destruct (Z.eqb_spec (lnot64 w) 0) as [E|Hn]; [done |]. intros [= <-] Hlt.
  pose proof (lnot64_word w) as Hlw. assert (0 < lnot64 w) as Hp by (unfold is_word in Hlw; lia).
  pose proof (CTZL_word _ Hp Hlw) as Hc. split; [lia |].
  assert (forall i, 0 <= i < 64 -> Z.testbit w i = negb (Z.testbit (lnot64 w) i)) as Hn64.
  { intros i Hi. rewrite lnot64_testbit, bool_decide_true by done. cbn [andb]. by rewrite negb_involutive. }
  split; [by rewrite Hn64, CTZL_set|]. intros j Hj. rewrite Hn64 by lia. by rewrite CTZL_below.
Qed.


(** Bits that are no identifiers count as allocated. *)
Record irq_inv (d : irq_dispatch_t) : Prop := {
  ii_ident : is_word (ident_bits d);
  ii_alloc : is_word (allocated_bits d);
  ii_rest i : 0 <= i < 64 -> Z.testbit (ident_bits d) i = false -> Z.testbit (allocated_bits d) i = true }.

Definition irq_alloc_set (bits : Z) (d : irq_dispatch_t) : irq_dispatch_t :=
  mkIrqDispatch (irq_control d) (irq_notification d) (irq_cspace d) (flag_bits d)
    (ident_bits d) bits (irq_past d) (irq_handlers d).

(** Allocating a bit and freeing it. *)
Lemma alloc_free_bit a b : is_word a -> 0 <= b < 64 -> Z.testbit a b = false ->
  Z.land (Z.lor a (BIT b)) (lnot64 (BIT b)) = a.
Proof.
  intros Ha Hb Hf. apply Z.bits_inj'. intros i Hi. rewrite Z.land_spec, Z.lor_spec, lnot64_testbit, BIT_testbit by lia.
  destruct (Z.lt_ge_cases i 64); [|by rewrite is_word_testbit, bool_decide_false, bool_decide_false by (done || lia)].
  rewrite (bool_decide_true (0 <= i < 64)) by lia. case_bool_decide as E; simpl; [subst; by rewrite andb_false_r, Hf|].
  by rewrite orb_false_r, andb_true_r.
Qed.

Lemma irq_inv_alloc d b : irq_inv d -> 0 <= b < 64 -> irq_inv (irq_alloc_set (Z.lor (allocated_bits d) (BIT b)) d).
Proof.
  intros [H1 H2 H3] Hb. split; simpl; [done | apply is_word_lor; [done | by apply BIT_word] |].
  intros i Hi Hid. rewrite Z.lor_spec. by rewrite H3.
Qed.

Section Register.
Context {K : Type} {HE : Env K}.
Implicit Types (s : sos K) (F : fault -> Prop).

Lemma wp_alloc_irq_bit (Q : Z -> sos K -> Prop) F s :
  irq_inv (s_irq s) ->
  (allocated_bits (s_irq s) = ULONG_MAX -> F AssertFail /\ F OutOfBounds) ->
  (forall b, 0 <= b < 64 -> Z.testbit (ident_bits (s_irq s)) b = true ->
     Z.testbit (allocated_bits (s_irq s)) b = false ->
     Q b (set_irq (irq_alloc_set (Z.lor (allocated_bits (s_irq s)) (BIT b)) (s_irq s)) s)) ->
  wp alloc_irq_bit Q F s.
Proof.
  intros Hi HF HQ. unfold alloc_irq_bit. rewrite wp_bind, wp_gets, wp_bind, wp_of_option.
  assert (bf_first_free 1 [allocated_bits (s_irq s)] (irq_past (s_irq s)) = None -> allocated_bits (s_irq s) = ULONG_MAX) as Hnone.
  { unfold bf_first_free. simpl. destruct (Z.eqb_spec (allocated_bits (s_irq s)) ULONG_MAX); [done |]. simpl.
    destruct (Z.eqb_spec (lnot64 (allocated_bits (s_irq s))) 0) as [E|]; [|done]. intros _.
    by apply lnot64_zero in E; [|apply Hi]. }
  destruct (bf_first_free _ _ _) as [b|] eqn:Eb; [|by apply HF, Hnone].
  destruct (Z.leb_spec seL4_WordBits b) as [Hge|Hlt].
  - apply HF. revert Eb. unfold bf_first_free. simpl.
    destruct (Z.eqb_spec (allocated_bits (s_irq s)) ULONG_MAX); [done |]. simpl.
    destruct (Z.eqb_spec (lnot64 (allocated_bits (s_irq s))) 0); [done |]. intros [= Eb].
    pose proof (lnot64_word (allocated_bits (s_irq s))) as Hw.
    pose proof (CTZL_word (lnot64 (allocated_bits (s_irq s)))) as Hc. unfold is_word, seL4_WordBits in *. lia.
  - unfold seL4_WordBits in Hlt. apply first_free_bit in Eb as (H0 & Hf & _); [|apply Hi | done].
    rewrite wp_bind. unfold irq_set_allocated. rewrite wp_modify, wp_ret. apply HQ; [lia | | done].
    destruct (Z.testbit (ident_bits (s_irq s)) b) eqn:Eid; [done |].
    rewrite (ii_rest _ Hi b) in Hf by (lia || done). done.
Qed.

Lemma rest_irq s s' : rest s' = rest s -> s_irq s' = s_irq s.
Proof. by intros [= ]. Qed.

Lemma sys_irq G p X s d : sys_inv G p X s -> sys_inv G p X (set_irq d s).
Proof. intros Hs. by eapply sys_above. Qed.

Lemma slot_irq p x s d : slot_of p x s -> slot_of p x (set_irq d s).
Proof. done. Qed.

(** Slots that may be given back: allocated ones, and the null slot. *)
Lemma sys_free_slot_or_null G p X s x (Q : unit -> sos K -> Prop) F :
  sys_inv G p X s -> (x <> 0 -> slot_of p x s) ->
  (forall s', sys_inv G p X s' -> sys_step p s s' -> Q tt s') -> wp (cspace_free_slot p x) Q F s.
Proof.
  intros Hs Hx HQ. destruct (Z.eqb_spec x 0) as [->|Hn]; [|by eapply sys_free_slot; [| apply Hx |]].
  unfold cspace_free_slot. simpl. rewrite wp_ret. by apply HQ.
Qed.

(** A failed registration puts the dispatch state back as it was in [d]. *)
Lemma wp_give_back G p X h n bit err d s (Q : Z * option Z -> sos K -> Prop) F :
  sys_inv G p X s -> (h <> 0 -> slot_of p h s) -> (n <> 0 -> slot_of p n s) ->
  irq_inv d -> 0 <= bit < 64 -> Z.testbit (allocated_bits d) bit = false ->
  s_irq s = irq_alloc_set (Z.lor (allocated_bits d) (BIT bit)) d ->
  (forall s', sys_inv G p X s' -> s_irq s' = d -> Q (err, None) s') ->
  wp (irq_give_back p h n bit err) Q F s.
Proof.
  intros Hs Hh Hn Hd Hb Hf E HQ. unfold irq_give_back. rewrite wp_bind.
  eapply sys_free_slot_or_null; [done | done |]. intros s1 Hs1 [R1 S1]. rewrite wp_bind.
  eapply sys_free_slot_or_null; [done | auto |]. intros s2 Hs2 [R2 S2]. apply rest_irq in R1, R2.
  unfold free_irq_bit, irq_set_allocated. wp_steps. apply HQ; [by apply sys_irq |].
  simpl. rewrite R2, R1, E. simpl. rewrite alloc_free_bit by (apply Hd || done). by destruct d.
Qed.

Definition irq_registered (d : irq_dispatch_t) (bit irq h n cb data : Z) : irq_dispatch_t :=
  mkIrqDispatch (irq_control d) (irq_notification d) (irq_cspace d) (flag_bits d) (ident_bits d)
    (Z.lor (allocated_bits d) (BIT bit)) (irq_past d) (<[bit := mkIrqHandler irq h n cb data]> (irq_handlers d)).

Lemma sys_irq_get G p X s cptr c irq l (Q : Z -> sos K -> Prop) F :
  sys_inv G p X s -> (forall a s', sys_inv G p X s' -> sys_step p s s' -> Q a s') ->
  wp (cspace_irq_control_get p cptr c irq l) Q F s.
Proof.
  intros Hs HQ. unfold cspace_irq_control_get. rewrite wp_bind. eapply sys_cs_read; [done |]. intros d _. by eapply sys_call.
Qed.

Lemma sys_mint G p X s x y r b (Q : Z -> sos K -> Prop) F :
  sys_inv G p X s -> (forall a s', sys_inv G p X s' -> sys_step p s s' -> Q a s') ->
  wp (cspace_mint p x p y r b) Q F s.
Proof.
  intros Hs HQ. unfold cspace_mint. rewrite wp_bind. eapply sys_cs_read; [done |]. intros d _.
  rewrite wp_bind. eapply sys_cs_read; [done |]. intros d' _. by eapply sys_call.
Qed.

Lemma wp_irq_bind G X irq edge cb data bit h n d s (Q : Z * option Z -> sos K -> Prop) F :
  let p := irq_cspace d in
  sys_inv G p X s -> (h <> 0 -> slot_of p h s) -> (n <> 0 -> slot_of p n s) ->
  irq_inv d -> 0 <= bit < 64 -> Z.testbit (allocated_bits d) bit = false ->
  s_irq s = irq_alloc_set (Z.lor (allocated_bits d) (BIT bit)) d ->
  (forall err s', err <> 0 -> sys_inv G p X s' -> s_irq s' = d -> Q (err, None) s') ->
  (forall s', sys_inv G p X s' -> s_irq s' = irq_registered d bit irq h n cb data -> Q (0, Some h) s') ->
  wp (irq_bind irq edge cb data bit h n) Q F s.
Proof.
  intros p Hs Hh Hn Hd Hb Hf E Hno Hyes.
  assert (forall s' err, err <> 0 -> sys_inv G p X s' -> sys_step p s s' ->
    wp (irq_give_back p h n bit err) Q F s') as Hback.
  { intros s' err He Hs' [R S]. eapply (wp_give_back G p X h n bit err d); try done; [auto | auto | | auto].
    by rewrite (rest_irq _ _ R). }
  unfold irq_bind. rewrite wp_bind, wp_gets, E. cbn [irq_alloc_set irq_cspace irq_control flag_bits irq_notification].
  fold p. rewrite wp_bind. eapply sys_irq_get; [done |]. intros e1 s1 Hs1 St1.
  destruct (Z.eqb_spec e1 0) as [->|]; cbn [negb]; [|by apply Hback].
  rewrite wp_bind. eapply sys_mint; [done |]. intros e2 s2 Hs2 St2. assert (sys_step p s s2) as St02 by by etrans.
  destruct (Z.eqb_spec e2 0) as [->|]; cbn [negb].
  2: { rewrite wp_bind. eapply sys_delete; [done |]. intros _ s3 Hs3 St3. apply Hback; [done | done | by etrans]. }
  rewrite wp_bind. eapply sys_call; [done |]. intros e3 s3 Hs3 St3. assert (sys_step p s s3) as St03 by by etrans.
  destruct (Z.eqb_spec e3 0) as [->|]; cbn [negb].
  2: { rewrite wp_bind. eapply sys_delete; [done |]. intros _ s4 Hs4 St4. rewrite wp_bind.
       eapply sys_delete; [done |]. intros _ s5 Hs5 St5. apply Hback; [done | done | by etrans; [|etrans]]. }
  unfold irq_set_handler. wp_steps. apply Hyes; [by apply sys_irq |]. destruct St03 as [R _].
  simpl. by rewrite (rest_irq _ _ R), E.
Qed.
End Register.

(** C31: Registering an interrupt handler.  Either it fails, and then the dispatch
    state is exactly what it was, with no bit and no slot lost; or the lowest
    identifier bit nobody used is now allocated and leads to the handler, all
    other handlers being unchanged.  The cspace stays in order in both cases.
    Running out of bits is not reported as [ENOMEM]: it is one of the faults. *)
Theorem register_irq_spec {K} {HE : Env K} (G : untouched) (X : gset Z) (irq : Z) (edge : bool) (cb data : Z) (s : sos K) :
  let d := s_irq s in let p := irq_cspace d in
  sys_inv G p X s -> irq_inv d ->
  wp (sos_register_irq_handler irq edge cb data)
     (fun r s' => sys_inv G p X s' /\ irq_inv (s_irq s') /\
        ((exists err, err <> 0 /\ r = (err, None) /\ s_irq s' = d) \/
         (exists bit h n, r = (0, Some h) /\ 0 <= bit < 64 /\ Z.testbit (ident_bits d) bit = true /\
            Z.testbit (allocated_bits d) bit = false /\
            s_irq s' = irq_registered d bit irq h n cb data)))
     (fun e => boot_fault e \/ (e = OutOfBounds /\ allocated_bits d = ULONG_MAX)) s.
Proof.
  intros d p Hs Hd. unfold sos_register_irq_handler. rewrite wp_bind.
  apply wp_alloc_irq_bit; [done | intros E; split; [left; by right | by right] |]. intros bit Hb Hid Hf. fold d in Hid, Hf |- *.
  destruct (Z.leb_spec seL4_BadgeBits bit) as [Hbad|_]; [unfold seL4_BadgeBits in Hbad; lia |].
  rewrite wp_bind, wp_gets. cbn [s_irq set_irq irq_alloc_set irq_cspace]. rewrite wp_bind.
  eapply wp_mono; [eapply sys_alloc_slot; [by apply (sys_irq G p X) |] | intros r s' HQ; exact HQ | by left].
  intros h s1 Hs1 [R1 S1] Hh. apply rest_irq in R1. cbn [s_irq set_irq] in R1.
  destruct (Z.eqb_spec h 0) as [->|Hh0].
  { unfold free_irq_bit, irq_set_allocated. wp_steps. rewrite R1. simpl.
    rewrite alloc_free_bit by (apply Hd || done).
    split; [by apply sys_irq |]. split; [by destruct Hd | left]. exists ENOMEM. split; [done |]. split; [done |]. by destruct d. }
  rewrite wp_bind.
  eapply wp_mono; [eapply sys_alloc_slot; [exact Hs1 |] | intros r s' HQ; exact HQ | by left].
  intros n s2 Hs2 [R2 S2] Hn. apply rest_irq in R2.
  eapply (wp_irq_bind G X irq edge cb data bit h n d); try done; [auto | by rewrite R2 | |].
  - intros err s' He Hs' E. split; [done |]. rewrite E. split; [done |]. left. by exists err.
  - intros s' Hs' E. split; [done |]. rewrite E. split; [by destruct (irq_inv_alloc _ _ Hd Hb) |]. right. by exists bit, h, n.
Qed.

(** SOS with the interrupt bits of main.c: the low 63 bits identify interrupts. *)
Definition demo_irq : sos (nat * Z) :=
  set_irq (mkIrqDispatch seL4_CapIRQControl 5 8 (BIT 63) (Z.ones 63) (lnot64 (Z.ones 63)) 0 ∅) (demo2_sos (0%nat, 0)).

Lemma demo_irq_inv : irq_inv (s_irq demo_irq).
Proof.
  split; [vm_compute; intuition discriminate .. |]. intros i Hi. simpl ident_bits. simpl allocated_bits.
  rewrite lnot64_testbit, bool_decide_true by done. by intros ->.
Qed.

Lemma demo_irq_sys : sys_inv (HE := tables_env) demo_G 8 ∅ demo_irq.
Proof.
  apply (sys_irq (HE := tables_env)). destruct demo2_inv as (l & o & Hc). exists demo2, l, o. split; [done | set_solver].
Qed.

Lemma register_irq_spec_witness :
  wp (sos_register_irq_handler (H := tables_env) 42 true 0x4000 7)
     (fun r s' => sys_inv (HE := tables_env) demo_G 8 ∅ s' /\ irq_inv (s_irq s') /\
        ((exists err, err <> 0 /\ r = (err, None) /\ s_irq s' = s_irq demo_irq) \/
         (exists bit h n, r = (0, Some h) /\ 0 <= bit < 64 /\ Z.testbit (ident_bits (s_irq demo_irq)) bit = true /\
            Z.testbit (allocated_bits (s_irq demo_irq)) bit = false /\
            s_irq s' = irq_registered (s_irq demo_irq) bit 42 h n 0x4000 7)))
     (fun e => boot_fault e \/ (e = OutOfBounds /\ allocated_bits (s_irq demo_irq) = ULONG_MAX)) demo_irq.
Proof.
  apply (register_irq_spec (HE := tables_env) demo_G ∅ 42 true 0x4000 7 demo_irq);
    [apply demo_irq_sys | apply demo_irq_inv].
Defined.

Lemma land_within badge a i : Z.land (Z.land (Z.land badge a) i) badge = Z.land (Z.land badge a) i.
Proof.
  apply Z.bits_inj'. intros j _. rewrite !Z.land_spec. by destruct (Z.testbit badge j), (Z.testbit a j), (Z.testbit i j).
Qed.

(** C35: Handling a notification calls the callback of every interrupt bit of the
    badge that is allocated, each once and the lowest first, and stops at the
    first that fails; the bits handled are cleared in the badge, the others are
    kept.  The 65 rounds of the model are always enough. *)
Theorem handle_irq_each {K} (cb : Z -> Z -> Z -> Z -> M (sos K) Z) (badge : Z) (s : sos K) :
  is_word badge ->
  sos_handle_irq_notification cb badge s =
  dispatch_each cb (bits_of (Z.land (Z.land badge (allocated_bits (s_irq s))) (ident_bits (s_irq s)))) badge s.
Proof.
  intros Hb. unfold sos_handle_irq_notification, bind, gets. apply handle_irq_loop_each.
  - by do 2 apply is_word_land_l.
  - done.
  - apply land_within.
  - apply bits_of_length.
Qed.

Definition count_callback (f data irq h : Z) : M (sos (nat * Z)) Z :=
  do* modify (fun s => set_env (S (fst (s_env s)), irq) s) in ret 0.

Lemma handle_irq_each_witness :
  sos_handle_irq_notification count_callback 0x8000000000000005 demo_irq =
  dispatch_each count_callback
    (bits_of (Z.land (Z.land 0x8000000000000005 (allocated_bits (s_irq demo_irq))) (ident_bits (s_irq demo_irq))))
    0x8000000000000005 demo_irq.
Proof. apply (handle_irq_each count_callback). vm_compute. intuition discriminate. Defined.

Section Handlers.
Context {K : Type} (cb : Z -> Z -> Z -> Z -> M (sos K) Z) (d : irq_dispatch_t).

(** Callbacks that acknowledge their interrupt and leave the registrations alone. *)
Definition callbacks_ok : Prop := forall f data irq h s, s_irq s = d ->
  wp (cb f data irq h) (fun r s' => r = 0 /\ s_irq s' = d) (fun _ => False) s.

Lemma dispatch_each_ok bits badge s : callbacks_ok -> s_irq s = d ->
  (forall i, i ∈ bits -> h_callback (handler_at d i) <> 0) ->
  wp (dispatch_each cb bits badge)
     (fun r s' => r = (0, fold_left (fun b i => Z.ldiff b (BIT i)) bits badge) /\ s_irq s' = d) (fun _ => False) s.
Proof.
  intros Hcb. revert badge s. induction bits as [|i bits IH]; intros badge s Hs Hi; cbn [dispatch_each fold_left].
  { by wp_steps. }
  rewrite wp_bind, wp_gets, wp_bind, Hs. unfold dispatch_irq.
  destruct (Z.eqb_spec (h_callback (handler_at d i)) 0) as [E|_]; [by apply Hi in E; [| set_solver] |].
  eapply wp_mono; [by apply Hcb | | done]. intros r s' [-> Hs']. simpl.
  apply IH; [done |]. intros j Hj. apply Hi. set_solver.
Qed.
End Handlers.

Lemma fold_ldiff_testbit bits badge i : Forall (fun b => 0 <= b) bits ->
  Z.testbit (fold_left (fun b i => Z.ldiff b (BIT i)) bits badge) i = Z.testbit badge i && negb (bool_decide (i ∈ bits)).
Proof.
  revert badge. induction bits as [|b bits IH]; intros badge Hb; simpl.
  { by rewrite andb_true_r. }
  apply list.Forall_cons in Hb as [Hb0 Hb]. rewrite IH, Z.ldiff_spec, BIT_testbit by done. rewrite <- andb_assoc. f_equal.
  rewrite <- negb_orb. f_equal. rewrite (bool_decide_ext (i ∈ b :: bits) (i = b \/ i ∈ bits)) by apply list.elem_of_cons.
  by rewrite bool_decide_or.
Qed.

(** With a callback registered for every allocated bit, and callbacks that
    succeed, handling a notification reports success, calls no null pointer, and
    clears exactly the allocated interrupt bits in the badge. *)
Theorem handle_irq_clears {K} (cb : Z -> Z -> Z -> Z -> M (sos K) Z) (badge : Z) (s : sos K) :
  let d := s_irq s in
  is_word badge -> callbacks_ok cb d ->
  (forall i, Z.testbit (allocated_bits d) i = true -> Z.testbit (ident_bits d) i = true ->
     h_callback (handler_at d i) <> 0) ->
  wp (sos_handle_irq_notification cb badge)
     (fun r s' => r = (0, Z.ldiff badge (Z.land (allocated_bits d) (ident_bits d))) /\ s_irq s' = d)
     (fun _ => False) s.
Proof.
  intros d Hb Hcb Hh. unfold sos_handle_irq_notification. rewrite wp_bind, wp_gets. fold d.
  set (u := Z.land (Z.land badge (allocated_bits d)) (ident_bits d)).
  assert (is_word u) as Hu by by do 2 apply is_word_land_l.
  unfold wp. rewrite handle_irq_loop_each; [| done | done | |].
  - change (wp (dispatch_each cb (bits_of u) badge) (fun r s' => r = (0, Z.ldiff badge (Z.land (allocated_bits d)
      (ident_bits d))) /\ s_irq s' = d) (fun _ => False) s).
    eapply wp_mono; [apply (dispatch_each_ok cb d); [done | done |] | | done].
    { intros i [_ Hi]%elem_bits_of. unfold u in Hi. rewrite !Z.land_spec in Hi.
      destruct (Z.testbit (allocated_bits d) i) eqn:Ea, (Z.testbit (ident_bits d) i) eqn:Ei;
        rewrite ?andb_true_r, ?andb_false_r in Hi; try done. by apply Hh. }
    intros r s' [-> Hs']. split; [|done]. f_equal. apply Z.bits_inj'. intros i Hi.
    rewrite fold_ldiff_testbit by (apply list.Forall_forall; intros b [? _]%elem_bits_of; lia).
    rewrite Z.ldiff_spec. destruct (Z.testbit badge i) eqn:Eb; [|done]. cbn [andb]. f_equal.
    assert (i < 64) by (destruct (Z.lt_ge_cases i 64); [done | by rewrite is_word_testbit in Eb]).
    rewrite (bool_decide_ext _ _ (elem_bits_of u i)). unfold u. rewrite !Z.land_spec, Eb. cbn [andb].
    destruct (Z.testbit (allocated_bits d) i && Z.testbit (ident_bits d) i); [by apply bool_decide_true | by apply bool_decide_false; lia || naive_solver].
  - apply land_within.
  - apply bits_of_length.
Qed.

Definition demo_irq_used : sos (nat * Z) :=
  set_irq (irq_registered (s_irq demo_irq) 0 42 2 3 0x4000 7) demo_irq.

Lemma handle_irq_clears_witness :
  wp (sos_handle_irq_notification count_callback 0x8000000000000005)
     (fun r s' => r = (0, Z.ldiff 0x8000000000000005 (Z.land (allocated_bits (s_irq demo_irq_used)) (ident_bits (s_irq demo_irq_used))))
        /\ s_irq s' = s_irq demo_irq_used)
     (fun _ => False) demo_irq_used.
Proof.
  apply (handle_irq_clears count_callback 0x8000000000000005 demo_irq_used).
  - vm_compute. intuition discriminate.
  - intros f data irq h s Hs. unfold count_callback. wp_steps. done.
  - intros i. change (ident_bits (s_irq demo_irq_used)) with (Z.ones 63).
    change (allocated_bits (s_irq demo_irq_used)) with (Z.lor (lnot64 (Z.ones 63)) (BIT 0)).
    rewrite Z.lor_spec, lnot64_testbit, BIT_testbit by done. intros Ha Hi. rewrite Hi, andb_false_r in Ha.
    apply bool_decide_eq_true in Ha as ->. done.
Defined.
