(* ===== verification/Bytes.v ===== *)
(** * Byte memory

    Memory as a finite map from addresses to bytes, for the code that parses
    files in memory (libcpio, libelf).  Reading or writing an address that is not
    mapped is the fault [OutOfBounds]. *)

From S2P Require Import Prelude.

Definition bmem : Type := gmap Z Z.

Definition load8 (a : Z) : M bmem Z := fun m =>
  match m !! a with Some b => inl (b, m) | None => inr OutOfBounds end.

Definition store8 (a v : Z) : M bmem unit := fun m =>
  match m !! a with Some _ => inl (tt, <[a := v]> m) | None => inr OutOfBounds end.

(** [l] is in memory from address [a] on. *)
Fixpoint bytes_at (m : bmem) (a : Z) (l : list Z) : Prop :=
  match l with
  | [] => True
  | b :: l' => m !! a = Some b /\ bytes_at m (a + 1) l'
  end.

(** The addresses from [a] to [a + n - 1] are mapped. *)
Definition mapped (m : bmem) (a n : Z) : Prop := forall i, 0 <= i < n -> is_Some (m !! (a + i)).

Lemma wp_load8 a (Q : Z -> bmem -> Prop) F m b : m !! a = Some b -> Q b m -> wp (load8 a) Q F m.
Proof. intros E HQ. unfold wp, load8. by rewrite E. Qed.

Lemma wp_load8_mapped a (Q : Z -> bmem -> Prop) F m :
  is_Some (m !! a) -> (forall b, m !! a = Some b -> Q b m) -> wp (load8 a) Q F m.
Proof. intros [b E] HQ. by eapply wp_load8; [|apply HQ]. Qed.

Lemma bytes_at_app m a l1 l2 :
  bytes_at m a (l1 ++ l2) <-> bytes_at m a l1 /\ bytes_at m (a + Z.of_nat (length l1)) l2.
Proof.
  revert a. induction l1 as [|b l1 IH]; intros a; simpl; [rewrite Z.add_0_r; tauto |].
  rewrite IH. replace (a + 1 + Z.of_nat (length l1)) with (a + Z.of_nat (S (length l1))) by lia. tauto.
Qed.

Lemma bytes_at_lookup m a l i b : bytes_at m a l -> l !! i = Some b -> m !! (a + Z.of_nat i) = Some b.
Proof.
  revert a i. induction l as [|c l IH]; intros a i Hl Hi; [done |]. destruct Hl as [Hc Hl].
  destruct i as [|i]; simpl in Hi; [injection Hi as <-; by rewrite Z.add_0_r |].
  replace (a + Z.of_nat (S i)) with (a + 1 + Z.of_nat i) by lia. by apply IH.
Qed.

(** A memory with the bytes [l] from [a] on, for examples. *)
Fixpoint put_bytes (a : Z) (l : list Z) (m : bmem) : bmem :=
  match l with
  | [] => m
  | b :: l' => <[a := b]> (put_bytes (a + 1) l' m)
  end.

Lemma put_bytes_range a l (m : bmem) x :
  is_Some (put_bytes a l m !! x) -> is_Some (m !! x) \/ a <= x < a + Z.of_nat (length l).
Proof.
  revert a. induction l as [|b l IH]; intros a; cbn [put_bytes length]; [by left |].
  unfold bmem in *. rewrite lookup_insert_is_Some'. intros [<-|Hx]; [right; lia |].
  destruct (IH _ Hx); [by left | right; lia].
Qed.

Fixpoint check_bytes (m : bmem) (a : Z) (l : list Z) : bool :=
  match l with
  | [] => true
  | b :: l' => bool_decide (m !! a = Some b) && check_bytes m (a + 1) l'
  end.

Lemma check_bytes_sound m a l : check_bytes m a l = true -> bytes_at m a l.
Proof.
  revert a. induction l as [|b l IH]; intros a Hc; simpl in *; [done |].
  apply andb_true_iff in Hc as [H1 H2]. split; [by apply bool_decide_eq_true in H1 | auto].
Qed.
