(* ===== verification/Cpio.v ===== *)
(** * The archive reader

    Model of libcpio (src/cpio.c), which finds the programs SOS starts.  Pointers
    are addresses into a byte memory; a constant string argument is the list of
    its bytes with the terminating zero.  [char] is unsigned, as on AArch64.

    The specification is the format: [entry_at] and [archive_at] say what a
    well-formed archive is, and the theorems show what the functions find in it.
    On memory that is no archive the functions still end, without reading outside
    the part the header check covers. *)

From S2P Require Import Prelude Bytes.

(** cpio.h *)
Definition CPIO_HEADER_MAGIC : list Z := [48; 55; 48; 55; 48; 49; 0].
Definition CPIO_FOOTER_MAGIC : list Z := [84; 82; 65; 73; 76; 69; 82; 33; 33; 33; 0].
Definition CPIO_ALIGNMENT : Z := 4.

(** [struct cpio_header]: its size, and the offsets of the fields that are read. *)
Definition sizeof_cpio_header : Z := 110.
Definition c_magic : Z := 0.
Definition c_filesize : Z := 54.
Definition c_namesize : Z := 94.

Record cpio_header_info := mkInfo { filename : Z; filesize : Z; data : Z; next_header : Z }.

Abbreviation MB := (M bmem).

Definition align_up (n align : Z) : Z := Z.land (w64 (n + align - 1)) (lnot64 (align - 1)).

(** The loop of [parse_hex_str], [n] characters left. *)
Fixpoint parse_hex_loop (s : Z) (n : nat) (r : Z) : MB Z :=
  match n with
  | O => ret r
  | S n' =>
      let r := w64 (r * 16) in
      let* c := load8 s in
      if (48 <=? c) && (c <=? 57) then parse_hex_loop (w64 (s + 1)) n' (w64 (r + (c - 48)))
      else if (97 <=? c) && (c <=? 102) then parse_hex_loop (w64 (s + 1)) n' (w64 (r + (c - 97 + 10)))
      else if (65 <=? c) && (c <=? 70) then parse_hex_loop (w64 (s + 1)) n' (w64 (r + (c - 65 + 10)))
      else ret r
  end.

Definition parse_hex_str (s : Z) (max_len : nat) : MB Z := parse_hex_loop s max_len 0.

(** [n] characters at most; [b] is a constant string. *)
Fixpoint cpio_strncmp (a : Z) (b : list Z) (n : Z) : MB Z :=
  if n <=? 0 then ret 0
  else
    match b with
    | [] => fail OutOfBounds
    | c :: b' =>
        let* x := load8 a in
        if negb (x =? c) then ret (x - c)
        else if x =? 0 then ret 0
        else cpio_strncmp (w64 (a + 1)) b' (n - 1)
    end.

(** The copy stops before the terminating zero. *)
Fixpoint cpio_strcpy (fuel : nat) (to from : Z) : MB unit :=
  match fuel with
  | O => fail NoFuel
  | S fuel' =>
      let* c := load8 from in
      if c =? 0 then ret tt
      else do* store8 to c in cpio_strcpy fuel' (w64 (to + 1)) (w64 (from + 1))
  end.

(** [s - str] as an [unsigned int]; [k] characters counted so far. *)
Fixpoint cpio_strlen (fuel : nat) (s k : Z) : MB Z :=
  match fuel with
  | O => fail NoFuel
  | S fuel' =>
      let* c := load8 s in
      if c =? 0 then ret (k mod 2 ^ 32) else cpio_strlen fuel' (w64 (s + 1)) (k + 1)
  end.

(** The length is not reduced by what was read. *)
Definition cpio_len_next (len prev next : Z) : Z :=
  let diff := w64 (next - prev) in
  if len <? diff then 0 else len.

(** -1 if the header is not valid, 1 at the end of the archive, 0 with the
    information otherwise. *)
Definition cpio_parse_header (archive len : Z) : MB (Z * cpio_header_info) :=
  let none := mkInfo 0 0 0 0 in
  if len <? sizeof_cpio_header then ret (-1, none)
  else
    let* d := cpio_strncmp (w64 (archive + c_magic)) CPIO_HEADER_MAGIC 6 in
    if negb (d =? 0) then ret (-1, none)
    else
      let* size := parse_hex_str (w64 (archive + c_filesize)) 8 in
      let* name_len := parse_hex_str (w64 (archive + c_namesize)) 8 in
      if len <? w64 (sizeof_cpio_header + name_len + size) then ret (-1, none)
      else
        let name := w64 (archive + sizeof_cpio_header) in
        let* last := load8 (w64 (name + (name_len - 1))) in
        if negb (last =? 0) then ret (-1, none)
        else
          let* eof := (if 11 <=? name_len then
                         let* d := cpio_strncmp name CPIO_FOOTER_MAGIC 11 in ret (d =? 0)
                       else ret false) in
          if eof then ret (1, none)
          else
            let dat := align_up (w64 (archive + sizeof_cpio_header + name_len)) CPIO_ALIGNMENT in
            let next := align_up (w64 (dat + size)) CPIO_ALIGNMENT in
            ret (0, mkInfo name size dat next).

(** The loop of [cpio_get_entry], [n] entries left to skip: the last entry's
    information, or [None] after an error. *)
Fixpoint cpio_skip (header len : Z) (n : nat) : MB (option cpio_header_info) :=
  let* '(error, info) := cpio_parse_header header len in
  if negb (error =? 0) then ret None
  else
    match n with
    | O => ret (Some info)
    | S n' => cpio_skip (next_header info) (cpio_len_next len header (next_header info)) n'
    end.

(** The data, and what is stored through [name] and [size].  With a negative [n]
    the C code would use [header_info] uninitialised. *)
Definition cpio_get_entry (archive len n : Z) : MB (Z * option (Z * Z)) :=
  if n <? 0 then fail OutOfBounds
  else
    let* r := cpio_skip archive len (Z.to_nat n) in
    match r with
    | None => ret (0, None)
    | Some info => ret (data info, Some (filename info, filesize info))
    end.

Fixpoint cpio_find (fuel : nat) (header len : Z) (name : list Z) : MB (option cpio_header_info) :=
  match fuel with
  | O => fail NoFuel
  | S fuel' =>
      let* '(error, info) := cpio_parse_header header len in
      if negb (error =? 0) then ret None
      else
        let* d := cpio_strncmp (filename info) name ULONG_MAX in
        if d =? 0 then ret (Some info)
        else cpio_find fuel' (next_header info) (cpio_len_next len header (next_header info)) name
  end.

(** The data, 0 for [NULL], and what is stored through [size]. *)
Definition cpio_get_file (fuel : nat) (archive len : Z) (name : list Z) : MB (Z * option Z) :=
  let* r := cpio_find fuel archive len name in
  match r with
  | None => ret (0, None)
  | Some info => ret (data info, Some (filesize info))
  end.

(** The return value, [file_count] and [max_path_sz]. *)
Fixpoint cpio_info_loop (fuel : nat) (header len file_count max_path_sz : Z) : MB (Z * (Z * Z)) :=
  match fuel with
  | O => fail NoFuel
  | S fuel' =>
      let* '(error, info) := cpio_parse_header header len in
      if error =? -1 then ret (error, (file_count, max_path_sz))
      else if error =? 1 then ret (0, (file_count, max_path_sz))
      else
        let file_count := (file_count + 1) mod 2 ^ 32 in
        let len := cpio_len_next len header (next_header info) in
        let* sz := cpio_strlen fuel' (filename info) 0 in
        cpio_info_loop fuel' (next_header info) len file_count
          (if max_path_sz <? sz then sz else max_path_sz)
  end.

Definition cpio_info (fuel : nat) (archive len : Z) : MB (Z * (Z * Z)) :=
  cpio_info_loop fuel archive len 0 0.

(** The buffers are the pointers in [buf]. *)
Fixpoint cpio_ls (fuel : nat) (header len : Z) (buf : list Z) : MB unit :=
  match buf with
  | [] => ret tt
  | b :: buf' =>
      let* '(error, info) := cpio_parse_header header len in
      if negb (error =? 0) then ret tt
      else
        do* cpio_strcpy fuel b (filename info) in
        cpio_ls fuel (next_header info) (cpio_len_next len header (next_header info)) buf'
  end.

(** ** The format *)

Definition hex_digit (c : Z) : option Z :=
  if (48 <=? c) && (c <=? 57) then Some (c - 48)
  else if (97 <=? c) && (c <=? 102) then Some (c - 97 + 10)
  else if (65 <=? c) && (c <=? 70) then Some (c - 65 + 10)
  else None.

(** The number a string of hexadecimal digits stands for. *)
Fixpoint hex_value (l : list Z) (r : Z) : option Z :=
  match l with
  | [] => Some r
  | c :: l' => match hex_digit c with Some d => hex_value l' (16 * r + d) | None => None end
  end.

Definition field_at (m : bmem) (a n : Z) : Prop :=
  exists l, length l = 8%nat /\ bytes_at m a l /\ hex_value l 0 = Some n.

Definition round4 (n : Z) : Z := (n + 3) / 4 * 4.

Record file := mkFile { f_name : list Z; f_data : list Z }.

Definition good_name (l : list Z) : Prop := Forall (fun c => 0 < c < 256) l.

(** Where the data of an entry is, and where the next entry starts. *)
Definition data_pos (a : Z) (f : file) : Z := round4 (a + 110 + (Z.of_nat (length (f_name f)) + 1)).
Definition next_pos (a : Z) (f : file) : Z := round4 (data_pos a f + Z.of_nat (length (f_data f))).

(** An entry at address [a] that the length [len] covers. *)
Record entry_at (m : bmem) (len a : Z) (f : file) : Prop := {
  ea_magic : bytes_at m a (take 6 CPIO_HEADER_MAGIC);
  ea_size : field_at m (a + c_filesize) (Z.of_nat (length (f_data f)));
  ea_namesize : field_at m (a + c_namesize) (Z.of_nat (length (f_name f)) + 1);
  ea_name : bytes_at m (a + 110) (f_name f ++ [0]);
  ea_good : good_name (f_name f);
  ea_data : bytes_at m (data_pos a f) (f_data f);
  ea_len : 110 + (Z.of_nat (length (f_name f)) + 1) + Z.of_nat (length (f_data f)) <= len;
  ea_low : 0 <= a /\ next_pos a f < 2 ^ 64 }.

Definition TRAILER : list Z := take 10 CPIO_FOOTER_MAGIC.

(** An archive: entries, then the trailer. *)
Fixpoint archive_at (m : bmem) (len a : Z) (fs : list file) : Prop :=
  match fs with
  | [] => entry_at m len a (mkFile TRAILER [])
  | f :: fs' => entry_at m len a f /\ f_name f <> TRAILER /\ next_pos a f - a <= len /\
                archive_at m len (next_pos a f) fs'
  end.

(** ** Lemmas *)

Lemma land_lnot3 x : is_word x -> Z.land x (lnot64 3) = x / 4 * 4.
Proof.
  intros Hx. replace (x / 4 * 4) with (Z.shiftl (Z.shiftr x 2) 2)
    by (rewrite Z.shiftl_mul_pow2, Z.shiftr_div_pow2 by lia; done).
  apply Z.bits_inj'. intros i Hi. rewrite Z.land_spec, lnot64_testbit, Z.shiftl_spec by done.
  destruct (Z.lt_ge_cases i 2).
  - rewrite (Z.testbit_neg_r _ (i - 2)) by lia. assert (i = 0 \/ i = 1) as [->| ->] by lia; by rewrite andb_false_r.
  - rewrite Z.shiftr_spec by lia. replace (i - 2 + 2) with i by lia.
    assert (Z.testbit 3 i = false) as -> by (apply (testbit_above _ 2); lia).
    destruct (Z.lt_ge_cases i 64); [by rewrite bool_decide_true, andb_true_r|].
    by rewrite is_word_testbit.
Qed.

Lemma align_up_round4 n : 0 <= n -> round4 n < 2 ^ 64 -> align_up n CPIO_ALIGNMENT = round4 n.
Proof.
  unfold round4. intros H0 Hn. unfold align_up, CPIO_ALIGNMENT, w64. change (4 - 1) with 3.
  rewrite Z.mod_small by lia. rewrite land_lnot3 by (unfold is_word; lia). do 2 f_equal. lia.
Qed.

Lemma round4_ge n : n <= round4 n <= n + 3.
Proof. unfold round4. lia. Qed.

Lemma w64_small n : 0 <= n < 2 ^ 64 -> w64 n = n.
Proof. intros Hn. unfold w64. by apply Z.mod_small. Qed.

Lemma hex_digit_range c d : hex_digit c = Some d -> 0 <= d < 16.
Proof.
  unfold hex_digit. destruct (Z.leb_spec 48 c), (Z.leb_spec c 57), (Z.leb_spec 97 c), (Z.leb_spec c 102),
    (Z.leb_spec 65 c), (Z.leb_spec c 70); simpl; intros [= <-]; lia.
Qed.

Lemma hex_value_range l r n : 0 <= r -> hex_value l r = Some n ->
  r <= n /\ n < (r + 1) * 16 ^ Z.of_nat (length l).
Proof.
  revert r. induction l as [|c l IH]; intros r Hr Hn; cbn [hex_value length] in *.
  { injection Hn as <-. simpl. lia. }
  destruct (hex_digit c) as [d|] eqn:Ed; [|done]. apply hex_digit_range in Ed.
  destruct (IH (16 * r + d)) as [H1 H2]; [lia | done |].
  rewrite Nat2Z.inj_succ, Z.pow_succ_r by lia. nia.
Qed.

Lemma parse_hex_value l s r n m : bytes_at m s l -> hex_value l r = Some n -> 0 <= r -> n < 2 ^ 64 ->
  0 <= s -> s + Z.of_nat (length l) < 2 ^ 64 -> parse_hex_loop s (length l) r m = inl (n, m).
Proof.
  revert s r. induction l as [|c l IH]; intros s r Hl Hn Hr Hn64 Hs Hsl; cbn [hex_value parse_hex_loop length] in *.
  { by injection Hn as ->. }
  destruct Hl as [Hc Hl]. destruct (hex_digit c) as [d|] eqn:Ed; [|done].
  pose proof (hex_digit_range _ _ Ed) as Hd.
  assert (0 <= 16 * r + d) as H0 by lia. destruct (hex_value_range l _ _ H0 Hn) as [Hge _].
  unfold bind, load8. rewrite Hc. rewrite (w64_small (r * 16)), (w64_small (s + 1)) by lia.
  assert (parse_hex_loop (s + 1) (length l) (w64 (r * 16 + d)) m = inl (n, m)) as Hgo.
  { rewrite (w64_small (r * 16 + d)) by lia. replace (r * 16 + d) with (16 * r + d) by lia. apply IH; try done; lia. }
  revert Ed. unfold hex_digit. destruct (_ && _); [intros [= E]; by rewrite E|].
  destruct (_ && _); [intros [= E]; by rewrite E|]. destruct (_ && _); [intros [= E]; by rewrite E | done].
Qed.

Lemma parse_field m a n : field_at m a n -> 0 <= a -> a + 8 < 2 ^ 64 ->
  parse_hex_str (w64 a) 8 m = inl (n, m) /\ 0 <= n < 2 ^ 32.
Proof.
  intros (l & Hl & Hb & Hv) H0 Ha. destruct (hex_value_range l 0 n) as [H1 H2]; [done | done |].
  rewrite Hl in H2. change ((0 + 1) * 16 ^ Z.of_nat 8) with (2 ^ 32) in H2. split; [|done].
  rewrite w64_small by lia. unfold parse_hex_str. rewrite <- Hl. apply parse_hex_value; try done; lia.
Qed.

(** Comparing with a prefix that is there. *)
Lemma strncmp_prefix l rest a m : bytes_at m a l -> good_name l -> 0 <= a -> a + Z.of_nat (length l) < 2 ^ 64 ->
  cpio_strncmp a (l ++ rest) (Z.of_nat (length l)) m = inl (0, m).
Proof.
  revert a. induction l as [|c l IH]; intros a Hb Hg H0 Ha; cbn [bytes_at length app] in *.
  { by destruct rest. }
  destruct Hb as [Hc Hb]. apply list.Forall_cons in Hg as [Hc0 Hg]. cbn [cpio_strncmp].
  destruct (Z.leb_spec (Z.of_nat (S (length l))) 0); [lia |]. unfold bind, load8. rewrite Hc, Z.eqb_refl. cbn [negb].
  destruct (Z.eqb_spec c 0); [lia |]. rewrite w64_small by lia.
  replace (Z.of_nat (S (length l)) - 1) with (Z.of_nat (length l)) by lia. apply IH; try done; lia.
Qed.

(** Comparing whole strings. *)
Lemma strncmp_string l b n a m : bytes_at m a (l ++ [0]) -> good_name l -> good_name b ->
  Z.of_nat (length b) < n -> 0 <= a -> a + Z.of_nat (length l) + 1 < 2 ^ 64 ->
  exists d, cpio_strncmp a (b ++ [0]) n m = inl (d, m) /\ (d = 0 <-> l = b).
Proof.
  revert b n a. induction l as [|x l IH]; intros b n a Hm Hl Hb Hn H0 Ha; cbn [app bytes_at length] in *.
  - destruct Hm as [Hx _]. destruct b as [|c b]; cbn [app cpio_strncmp length] in *;
      (destruct (Z.leb_spec n 0); [lia |]); unfold bind, load8; rewrite Hx.
    + exists 0. done.
    + apply list.Forall_cons in Hb as [Hc _]. destruct (Z.eqb_spec 0 c); [lia |]. exists (0 - c).
      split; [done |]. split; [lia | done].
  - destruct Hm as [Hx Hm]. apply list.Forall_cons in Hl as [Hx0 Hl].
    destruct b as [|c b]; cbn [app cpio_strncmp length] in *; (destruct (Z.leb_spec n 0); [lia |]);
      unfold bind, load8; rewrite Hx.
    + destruct (Z.eqb_spec x 0); [lia |]. exists (x - 0). split; [done |]. split; [lia | done].
    + apply list.Forall_cons in Hb as [Hc Hb]. destruct (Z.eqb_spec x c) as [->|Hne]; cbn [negb].
      * destruct (Z.eqb_spec c 0); [lia |]. rewrite w64_small by lia.
        destruct (IH b (n - 1) (a + 1)) as (d & Hd & Hiff); try done; try lia. exists d. split; [done |].
        rewrite Hiff. split; [by intros -> | by intros [= ->]].
      * exists (x - c). split; [done |]. split; [lia | by intros [= ? _]].
Qed.

Lemma TRAILER_good : good_name TRAILER.
Proof. repeat constructor. Qed.

(** ** Reading well-formed entries *)

Lemma pos_bounds a f : 0 <= a ->
  a + 111 + Z.of_nat (length (f_name f)) <= data_pos a f <= a + 114 + Z.of_nat (length (f_name f)) /\
  data_pos a f + Z.of_nat (length (f_data f)) <= next_pos a f <= data_pos a f + Z.of_nat (length (f_data f)) + 3.
Proof.
  intros H0. unfold next_pos. pose proof (round4_ge (a + 110 + (Z.of_nat (length (f_name f)) + 1))) as H1.
  pose proof (round4_ge (data_pos a f + Z.of_nat (length (f_data f)))) as H2. unfold data_pos in *. lia.
Qed.

Definition entry_info (a : Z) (f : file) : cpio_header_info :=
  mkInfo (a + 110) (Z.of_nat (length (f_data f))) (data_pos a f) (next_pos a f).

Lemma header_eof m a f : entry_at m (110 + (Z.of_nat (length (f_name f)) + 1) + Z.of_nat (length (f_data f))) a f ->
  (if 11 <=? Z.of_nat (length (f_name f)) + 1 then
     let* d := cpio_strncmp (a + 110) CPIO_FOOTER_MAGIC 11 in ret (d =? 0)
   else ret false) m = inl (bool_decide (f_name f = TRAILER), m).
Proof.
  intros He. pose proof (ea_low _ _ _ _ He) as [H0 Hlow]. pose proof (pos_bounds a f H0) as [B1 B2].
  destruct (Z.leb_spec 11 (Z.of_nat (length (f_name f)) + 1)).
  - destruct (strncmp_string (f_name f) TRAILER 11 (a + 110) m) as (d & Hd & Hiff);
      [apply He | apply He | apply TRAILER_good | done | lia | lia |].
    change CPIO_FOOTER_MAGIC with (TRAILER ++ [0]). unfold bind. rewrite Hd. unfold ret. do 2 f_equal.
    destruct (Z.eqb_spec d 0) as [E|E]; rewrite Hiff in E; [by rewrite bool_decide_true | by rewrite bool_decide_false].
  - rewrite bool_decide_false; [done |]. intros E. rewrite E in *. simpl in *. lia.
Qed.

Lemma parse_entry m len a f : entry_at m len a f ->
  cpio_parse_header a len m = inl (if decide (f_name f = TRAILER) then (1, mkInfo 0 0 0 0) else (0, entry_info a f), m).
Proof.
  intros He. pose proof (ea_low _ _ _ _ He) as [H0 Hlow]. pose proof (pos_bounds a f H0) as [B1 B2].
  pose proof (ea_len _ _ _ _ He) as Hlen. set (k := Z.of_nat (length (f_name f))) in *.
  set (z := Z.of_nat (length (f_data f))) in *.
  destruct (parse_field m (a + c_filesize) z) as [Hsz Bsz]; [apply He | unfold c_filesize; lia .. |].
  destruct (parse_field m (a + c_namesize) (k + 1)) as [Hnm Bnm]; [apply He | unfold c_namesize; lia .. |].
  unfold cpio_parse_header, sizeof_cpio_header. destruct (Z.ltb_spec len 110); [lia |].
  unfold c_magic. rewrite Z.add_0_r, (w64_small a) by lia. unfold bind at 1.
  assert (cpio_strncmp a CPIO_HEADER_MAGIC 6 m = inl (0, m)) as ->.
  { apply (strncmp_prefix (take 6 CPIO_HEADER_MAGIC) [0]); [apply He | repeat constructor | done |].
    change (Z.of_nat _) with 6. lia. }
  cbn [negb Z.eqb]. unfold bind at 1. rewrite Hsz. unfold bind at 1. rewrite Hnm.
  rewrite (w64_small (110 + (k + 1) + z)), (w64_small (a + 110)) by lia.
  destruct (Z.ltb_spec len (110 + (k + 1) + z)); [lia |].
  rewrite (w64_small (a + 110 + (k + 1 - 1))) by lia. unfold bind at 1, load8.
  assert (m !! (a + 110 + (k + 1 - 1)) = Some 0) as ->.
  { pose proof (ea_name _ _ _ _ He) as Hb. apply bytes_at_app in Hb as [_ [Hb _]]. rewrite <- Hb. f_equal. lia. }
  cbn [negb Z.eqb]. unfold bind at 1. pose proof (header_eof m a f) as Heof. fold k z in Heof.
  rewrite Heof by (destruct He; by split). rewrite (w64_small (a + 110 + (k + 1))) by lia.
  case_bool_decide as E; [by rewrite decide_True | rewrite decide_False by done].
  assert (align_up (a + 110 + (k + 1)) CPIO_ALIGNMENT = data_pos a f) as ->.
  { apply align_up_round4; [lia |]. change (data_pos a f < 2 ^ 64). lia. }
  rewrite w64_small, align_up_round4; [done | lia | exact Hlow | lia].
Qed.

Lemma archive_entry m len a f fs : archive_at m len a (f :: fs) ->
  cpio_parse_header a len m = inl ((0, entry_info a f), m) /\
  cpio_len_next len a (next_pos a f) = len /\ archive_at m len (next_pos a f) fs.
Proof.
  intros (He & Hne & Hl & Hr). pose proof (ea_low _ _ _ _ He) as [H0 Hlow]. pose proof (pos_bounds a f H0) as [B1 B2].
  split; [|split; [|done]].
  - rewrite (parse_entry _ _ _ _ He). by rewrite decide_False.
  - unfold cpio_len_next. rewrite w64_small by lia. destruct (Z.ltb_spec len (next_pos a f - a)); [lia | done].
Qed.

Lemma archive_end m len a : archive_at m len a [] -> cpio_parse_header a len m = inl ((1, mkInfo 0 0 0 0), m).
Proof. intros He. rewrite (parse_entry _ _ _ _ He). by rewrite decide_True. Qed.

(** Where the first file of a name is. *)
Fixpoint find_file (a : Z) (fs : list file) (name : list Z) : option (Z * file) :=
  match fs with
  | [] => None
  | f :: fs' => if decide (f_name f = name) then Some (a, f) else find_file (next_pos a f) fs' name
  end.

Lemma cpio_find_archive m len name fs a fuel : archive_at m len a fs -> good_name name ->
  Z.of_nat (length name) < ULONG_MAX -> (length fs < fuel)%nat ->
  cpio_find fuel a len (name ++ [0]) m =
  inl (match find_file a fs name with Some (p, f) => Some (entry_info p f) | None => None end, m).
Proof.
  intros Ha Hg Hn. revert a fuel Ha. induction fs as [|f fs IH]; intros a fuel Ha Hf; (destruct fuel as [|fuel]; [lia |]);
    cbn [cpio_find find_file]; unfold bind at 1.
  - by rewrite (archive_end _ _ _ Ha).
  - destruct (archive_entry _ _ _ _ _ Ha) as (Hp & Hl & Hr). rewrite Hp. cbn [negb Z.eqb entry_info filename].
    destruct Ha as (He & _). pose proof (ea_low _ _ _ _ He) as [H0 Hlow]. pose proof (pos_bounds a f H0) as [B1 B2].
    destruct (strncmp_string (f_name f) name ULONG_MAX (a + 110) m) as (d & Hd & Hiff);
      [apply He | apply He | done | done | lia | lia |].
    unfold bind at 1. rewrite Hd. destruct (Z.eqb_spec d 0) as [E|E]; rewrite Hiff in E.
    + by rewrite decide_True.
    + rewrite decide_False by done. change (next_header (entry_info a f)) with (next_pos a f). rewrite Hl. apply IH; [done | simpl in Hf; lia].
Qed.

Lemma find_file_spec m len fs a name : archive_at m len a fs ->
  match find_file a fs name with
  | Some (p, f) => f ∈ fs /\ f_name f = name /\ bytes_at m (data_pos p f) (f_data f) /\ 0 < data_pos p f
  | None => forall f, f ∈ fs -> f_name f <> name
  end.
Proof.
  revert a. induction fs as [|f fs IH]; intros a Ha; cbn [find_file]; [set_solver |].
  destruct Ha as (He & _ & _ & Hr). case_decide as E.
  - split; [set_solver |]. split; [done |]. split; [apply He |].
    pose proof (ea_low _ _ _ _ He) as [H0 _]. pose proof (pos_bounds a f H0). lia.
  - specialize (IH _ Hr). destruct (find_file _ fs name) as [[p g]|].
    + destruct IH as (H1 & H2). split; [set_solver | done].
    + intros g [->|Hg]%list.elem_of_cons; [done | auto].
Qed.

(** C30: In a well-formed archive [cpio_get_file] finds exactly the files that are
    there: for the name of one it returns the address of its first byte and its
    size, and the file's bytes are at that address; for any other name, [NULL]. *)
Theorem cpio_get_file_spec (m : bmem) (len a : Z) (fs : list file) (name : list Z) (fuel : nat) :
  archive_at m len a fs -> good_name name -> Z.of_nat (length name) < ULONG_MAX -> (length fs < fuel)%nat ->
  ((exists f, f ∈ fs /\ f_name f = name) ->
     exists f p, f ∈ fs /\ f_name f = name /\ p <> 0 /\ bytes_at m p (f_data f) /\
       cpio_get_file fuel a len (name ++ [0]) m = inl ((p, Some (Z.of_nat (length (f_data f)))), m)) /\
  ((forall f, f ∈ fs -> f_name f <> name) ->
     cpio_get_file fuel a len (name ++ [0]) m = inl ((0, None), m)).
Proof.
  intros Ha Hg Hn Hf. unfold cpio_get_file, bind. rewrite (cpio_find_archive _ _ _ _ _ _ Ha Hg Hn Hf).
  pose proof (find_file_spec _ _ _ _ name Ha) as Hs. destruct (find_file a fs name) as [[p f]|].
  - destruct Hs as (H1 & H2 & H3 & H4). split; [|intros Hno; by destruct (Hno f)].
    intros _. exists f, (data_pos p f). split; [done |]. split; [done |]. split; [lia | done].
  - split; [|done]. intros (f & Hin & Hname). by destruct (Hs f).
Qed.

(** An archive with two files. *)
Definition hex_char (d : Z) : Z := if d <? 10 then 48 + d else 87 + d.
Definition hex8 (n : Z) : list Z :=
  map (fun i => hex_char (n / 16 ^ i mod 16)) [7; 6; 5; 4; 3; 2; 1; 0].
Definition pad4 (a : Z) : list Z := replicate (Z.to_nat (round4 a - a)) 0.

(** An archive entry, as a writer makes it; [a] is its address. *)
Definition write_entry (a : Z) (f : file) : list Z :=
  let k := Z.of_nat (length (f_name f)) + 1 in
  take 6 CPIO_HEADER_MAGIC ++ concat (replicate 6 (hex8 0)) ++ hex8 (Z.of_nat (length (f_data f))) ++
  concat (replicate 4 (hex8 0)) ++ hex8 k ++ hex8 0 ++ f_name f ++ [0] ++ pad4 (a + 110 + k) ++ f_data f ++
  pad4 (data_pos a f + Z.of_nat (length (f_data f))).

Fixpoint write_archive (a : Z) (fs : list file) : list Z :=
  match fs with
  | [] => write_entry a (mkFile TRAILER [])
  | f :: fs' => write_entry a f ++ write_archive (next_pos a f) fs'
  end.

Definition demo_files : list file := [mkFile [97; 98] [1; 2; 3]; mkFile [99] [4; 5; 6; 7; 8]].
Definition demo_archive : list Z := write_archive 0x1000 demo_files.
Definition demo_bmem : bmem := put_bytes 0x1000 demo_archive ∅.
Definition demo_len : Z := Z.of_nat (length demo_archive).

(** [entry_at], decided. *)
Definition check_field (m : bmem) (a n : Z) : bool :=
  check_bytes m a (hex8 n) && bool_decide (hex_value (hex8 n) 0 = Some n).
Definition check_entry (m : bmem) (len a : Z) (f : file) : bool :=
  check_bytes m a (take 6 CPIO_HEADER_MAGIC) &&
  check_field m (a + c_filesize) (Z.of_nat (length (f_data f))) &&
  check_field m (a + c_namesize) (Z.of_nat (length (f_name f)) + 1) &&
  check_bytes m (a + 110) (f_name f ++ [0]) && forallb (fun c => (0 <? c) && (c <? 256)) (f_name f) &&
  check_bytes m (data_pos a f) (f_data f) &&
  (110 + (Z.of_nat (length (f_name f)) + 1) + Z.of_nat (length (f_data f)) <=? len) &&
  (0 <=? a) && (next_pos a f <? 2 ^ 64).

Lemma check_field_sound m a n : check_field m a n = true -> field_at m a n.
Proof.
  intros [H1 H2]%andb_true_iff. exists (hex8 n). split; [done |].
  split; [by apply check_bytes_sound | by apply bool_decide_eq_true in H2].
Qed.

Lemma check_entry_sound m len a f : check_entry m len a f = true -> entry_at m len a f.
Proof.
  unfold check_entry. rewrite !andb_true_iff. intros ((((((((H1 & H2) & H3) & H4) & H5) & H6) & H7) & H8) & H9).
  split; try (by apply check_bytes_sound); try (by apply check_field_sound).
  - apply list.Forall_forall. intros c Hc. apply forallb_forall with (x := c) in H5; [|by apply list_elem_of_In].
    apply andb_true_iff in H5. lia.
  - by apply Z.leb_le.
  - apply Z.leb_le in H8. by apply Z.ltb_lt in H9.
Qed.

Fixpoint check_archive (m : bmem) (len a : Z) (fs : list file) : bool :=
  match fs with
  | [] => check_entry m len a (mkFile TRAILER [])
  | f :: fs' => check_entry m len a f && bool_decide (f_name f <> TRAILER) && (next_pos a f - a <=? len) &&
                check_archive m len (next_pos a f) fs'
  end.

Lemma check_archive_sound m len a fs : check_archive m len a fs = true -> archive_at m len a fs.
Proof.
  revert a. induction fs as [|f fs IH]; intros a Hc; cbn [check_archive archive_at] in *; [by apply check_entry_sound |].
  rewrite !andb_true_iff in Hc. destruct Hc as (((H1 & H2) & H3) & H4).
  split; [by apply check_entry_sound |]. split; [by apply bool_decide_eq_true in H2 |].
  split; [by apply Z.leb_le | auto].
Qed.

Lemma demo_archive_at : archive_at demo_bmem demo_len 0x1000 demo_files.
Proof. apply check_archive_sound. vm_compute. reflexivity. Qed.

Lemma cpio_get_file_spec_witness :
  ((exists f, f ∈ demo_files /\ f_name f = [99]) ->
     exists f p, f ∈ demo_files /\ f_name f = [99] /\ p <> 0 /\ bytes_at demo_bmem p (f_data f) /\
       cpio_get_file 3 0x1000 demo_len ([99] ++ [0]) demo_bmem = inl ((p, Some (Z.of_nat (length (f_data f)))), demo_bmem)) /\
  ((forall f, f ∈ demo_files -> f_name f <> [99]) ->
     cpio_get_file 3 0x1000 demo_len ([99] ++ [0]) demo_bmem = inl ((0, None), demo_bmem)).
Proof.
  apply (cpio_get_file_spec demo_bmem demo_len 0x1000 demo_files [99] 3).
  - apply demo_archive_at.
  - repeat constructor.
  - done.
  - simpl. lia.
Defined.

(** ** Writing and reading back *)

Lemma hex_digit_char d : 0 <= d < 16 -> hex_digit (hex_char d) = Some d.
Proof.
  intros Hd. unfold hex_char, hex_digit. destruct (Z.ltb_spec d 10).
  - destruct (Z.leb_spec 48 (48 + d)), (Z.leb_spec (48 + d) 57); try lia. simpl. f_equal. lia.
  - destruct (Z.leb_spec 48 (87 + d)), (Z.leb_spec (87 + d) 57), (Z.leb_spec 97 (87 + d)), (Z.leb_spec (87 + d) 102);
      try lia. simpl. f_equal. lia.
Qed.

(** The digits of [n] above the last [k], from the most significant one. *)
Lemma hex8_value n : 0 <= n < 2 ^ 32 -> hex_value (hex8 n) 0 = Some n.
Proof.
  intros Hn. unfold hex8. cbn [map hex_value].
  rewrite !hex_digit_char by (apply Z.mod_pos_bound; done). f_equal.
  assert (forall i q, 0 <= i -> q = n / 16 ^ (i + 1) -> 16 * q + n / 16 ^ i mod 16 = n / 16 ^ i) as Hstep.
  { intros i q Hi ->. rewrite Z.pow_add_r, <- Z.div_div by lia. symmetry. apply Z.div_mod. lia. }
  rewrite (Hstep 7 0); [|lia | symmetry; apply Z.div_small; lia].
  rewrite (Hstep 6), (Hstep 5), (Hstep 4), (Hstep 3), (Hstep 2), (Hstep 1), (Hstep 0) by done. apply Z.div_1_r.
Qed.

Definition good_file (f : file) : Prop :=
  good_name (f_name f) /\ f_name f <> TRAILER /\ Z.of_nat (length (f_name f)) + 1 < 2 ^ 32 /\
  Z.of_nat (length (f_data f)) < 2 ^ 32.

Lemma pad4_length a : Z.of_nat (length (pad4 a)) = round4 a - a.
Proof. unfold pad4. rewrite length_replicate. pose proof (round4_ge a). lia. Qed.

Lemma write_entry_length a f : Z.of_nat (length (write_entry a f)) = next_pos a f - a.
Proof.
  unfold write_entry. rewrite !length_app, !Nat2Z.inj_add, !pad4_length. change (round4 (a + 110 + _)) with (data_pos a f).
  fold (next_pos a f). simpl length. lia.
Qed.

Lemma write_entry_at m len a f : bytes_at m a (write_entry a f) -> good_name (f_name f) ->
  Z.of_nat (length (f_name f)) + 1 < 2 ^ 32 -> Z.of_nat (length (f_data f)) < 2 ^ 32 ->
  next_pos a f - a <= len -> 0 <= a -> next_pos a f < 2 ^ 64 -> entry_at m len a f.
Proof.
  intros Hw Hg Hn Hd Hl H0 Hlow. pose proof (pos_bounds a f H0) as [B1 B2].
  assert (Hlen : 110 + (Z.of_nat (length (f_name f)) + 1) + Z.of_nat (length (f_data f)) <= len) by lia.
  assert (E1 : a + 54 = a + Z.of_nat 6 + Z.of_nat 48) by lia.
  assert (E2 : a + 94 = a + Z.of_nat 6 + Z.of_nat 48 + Z.of_nat 8 + Z.of_nat 32) by lia.
  assert (E3 : a + 110 = a + Z.of_nat 6 + Z.of_nat 48 + Z.of_nat 8 + Z.of_nat 32 + Z.of_nat 8 + Z.of_nat 8) by lia.
  assert (E4 : data_pos a f = a + Z.of_nat 6 + Z.of_nat 48 + Z.of_nat 8 + Z.of_nat 32 + Z.of_nat 8 + Z.of_nat 8 +
    Z.of_nat (length (f_name f)) + Z.of_nat 1 + (data_pos a f - (a + 110 + (Z.of_nat (length (f_name f)) + 1)))) by lia.
  assert (V1 := hex8_value (Z.of_nat (length (f_data f))) ltac:(lia)).
  assert (V2 := hex8_value (Z.of_nat (length (f_name f)) + 1) ltac:(lia)).
  unfold write_entry in Hw. rewrite !bytes_at_app, pad4_length in Hw.
  change (round4 (a + 110 + _)) with (data_pos a f) in Hw. destruct Hw as (W1 & _ & W2 & _ & W3 & _ & W4 & W5 & _ & W6 & _).
  cbn [length take CPIO_HEADER_MAGIC concat replicate app hex8 map] in W2, W3, W4, W5, W6.
  split; [exact W1 | | | | done | rewrite E4; exact W6 | exact Hlen | done].
  - exists (hex8 (Z.of_nat (length (f_data f)))). unfold c_filesize. by rewrite E1.
  - exists (hex8 (Z.of_nat (length (f_name f)) + 1)). unfold c_namesize. by rewrite E2.
  - apply bytes_at_app. rewrite E3. by split.
Qed.

Lemma write_archive_at m len a fs : bytes_at m a (write_archive a fs) -> Forall good_file fs ->
  Z.of_nat (length (write_archive a fs)) <= len -> 0 <= a -> a + Z.of_nat (length (write_archive a fs)) < 2 ^ 64 ->
  archive_at m len a fs.
Proof.
  revert a. induction fs as [|f fs IH]; intros a Hw Hg Hl H0 H64; cbn [write_archive archive_at] in *.
  - rewrite write_entry_length in Hl, H64. apply write_entry_at; try done; [apply TRAILER_good | lia].
  - apply list.Forall_cons in Hg as [(G1 & G2 & G3 & G4) Hg]. apply bytes_at_app in Hw as [W1 W2].
    rewrite length_app, Nat2Z.inj_add in Hl, H64. rewrite write_entry_length in *.
    pose proof (pos_bounds a f H0) as [B1 B2].
    split; [apply write_entry_at; try done; lia |]. split; [done |]. split; [lia |].
    apply IH; [|done | lia | lia | lia]. by replace (next_pos a f) with (a + (next_pos a f - a)) at 1 by lia.
Qed.

(** C36: Reading back what was written.  An archive laid out in memory by the
    format's rules gives, for every file in it, the file: [cpio_get_file] returns
    the file's size and an address where its bytes are. *)
Theorem cpio_write_read (m : bmem) (a : Z) (fs : list file) (f : file) :
  bytes_at m a (write_archive a fs) -> Forall good_file fs -> NoDup (map f_name fs) ->
  0 <= a -> a + Z.of_nat (length (write_archive a fs)) < 2 ^ 64 -> f ∈ fs ->
  exists p, p <> 0 /\ bytes_at m p (f_data f) /\
    cpio_get_file (S (length fs)) a (Z.of_nat (length (write_archive a fs))) (f_name f ++ [0]) m
    = inl ((p, Some (Z.of_nat (length (f_data f)))), m).
Proof.
  intros Hw Hg Hnd H0 H64 Hin.
  assert (archive_at m (Z.of_nat (length (write_archive a fs))) a fs) as Ha by (apply write_archive_at; try done; lia).
  assert (good_file f) as (G1 & G2 & G3 & G4) by by eapply list.Forall_forall in Hg.
  unfold cpio_get_file, bind. rewrite (cpio_find_archive _ _ (f_name f) _ _ _ Ha G1); [|unfold ULONG_MAX; lia | lia].
  pose proof (find_file_spec _ _ _ _ (f_name f) Ha) as Hs. destruct (find_file a fs (f_name f)) as [[p g]|].
  2: { by destruct (Hs f). }
  destruct Hs as (H1 & H2 & H3 & H4). assert (g = f) as ->.
  { clear -Hnd H1 H2 Hin. induction fs as [|h fs IH]; [set_solver |]. simpl in Hnd.
    apply list.NoDup_cons in Hnd as [Hh Hnd]. rewrite list_elem_of_In, in_map_iff in Hh.
    apply list.elem_of_cons in H1 as [->|H1], Hin as [->|Hin]; [done | | | by apply IH].
    - destruct Hh. exists f. split; [done | by apply list_elem_of_In].
    - destruct Hh. exists g. split; [done | by apply list_elem_of_In]. }
  exists (data_pos p f). split; [lia | done].
Qed.

Lemma demo_good : Forall good_file demo_files.
Proof. repeat constructor; simpl; try lia; discriminate. Qed.

Lemma cpio_write_read_witness :
  exists p, p <> 0 /\ bytes_at demo_bmem p [1; 2; 3] /\
    cpio_get_file 3 0x1000 (Z.of_nat (length (write_archive 0x1000 demo_files))) ([97; 98] ++ [0]) demo_bmem
    = inl ((p, Some 3), demo_bmem).
Proof.
  apply (cpio_write_read demo_bmem 0x1000 demo_files (mkFile [97; 98] [1; 2; 3])).
  - apply check_bytes_sound. vm_compute. reflexivity.
  - apply demo_good.
  - repeat constructor; set_solver.
  - lia.
  - vm_compute. reflexivity.
  - set_solver.
Defined.

(** ** Archives that are none *)

Lemma wp_strncmp a b n m (F : fault -> Prop) : F OutOfBounds ->
  wp (cpio_strncmp a b n) (fun _ m' => m' = m /\ (0 < n -> b <> [] -> is_Some (m !! a))) F m.
Proof.
  intros HF. revert a n. induction b as [|c b IH]; intros a n; cbn [cpio_strncmp];
    (destruct (Z.leb_spec n 0); [wp_steps; split; [done | lia] |]); [done |].
  rewrite wp_bind. unfold wp at 1, load8. destruct (m !! a) as [x|] eqn:E; [|done].
  destruct (negb _); [by wp_steps |]. destruct (x =? 0); [by wp_steps |].
  eapply wp_mono; [apply IH | | done]. intros d m' [-> _]. split; [done | by eexists].
Qed.

(** Within mapped memory the comparison with a long enough constant is safe. *)
Lemma wp_strncmp_mapped a b n m : n <= Z.of_nat (length b) -> mapped m a n -> 0 <= a -> a + n < 2 ^ 64 ->
  wp (cpio_strncmp a b n) (fun _ m' => m' = m) (fun _ => False) m.
Proof.
  revert a n. induction b as [|c b IH]; intros a n Hn Hm H0 Ha; cbn [cpio_strncmp length] in *;
    (destruct (Z.leb_spec n 0); [by wp_steps |]); [lia |].
  rewrite wp_bind. eapply wp_load8_mapped; [rewrite <- (Z.add_0_r a); apply Hm; lia |]. intros x _.
  destruct (negb _); [by wp_steps |]. destruct (x =? 0); [by wp_steps |]. rewrite w64_small by lia.
  apply IH; [lia | | lia | lia]. intros i Hi. replace (a + 1 + i) with (a + (i + 1)) by lia. apply Hm. lia.
Qed.

Lemma wp_parse_hex s n r m (F : fault -> Prop) : 0 <= r -> (r + 1) * 16 ^ Z.of_nat n < 2 ^ 64 -> 0 <= s ->
  s + Z.of_nat n < 2 ^ 64 -> (mapped m s (Z.of_nat n) \/ F OutOfBounds) ->
  wp (parse_hex_loop s n r) (fun v m' => m' = m /\ 0 <= v < (r + 1) * 16 ^ Z.of_nat n) F m.
Proof.
  revert s r. induction n as [|n IH]; intros s r Hr Hb Hs Hn Hm; cbn [parse_hex_loop].
  { wp_steps. split; [done |]. simpl. lia. }
  rewrite Nat2Z.inj_succ, Z.pow_succ_r in * by lia. assert (1 <= 16 ^ Z.of_nat n) as Hp by lia.
  rewrite wp_bind. unfold wp at 1, load8. destruct (m !! s) as [c|] eqn:E.
  2: { destruct Hm as [Hm|HF]; [|done]. destruct (Hm 0) as [x Hx]; [lia |]. rewrite Z.add_0_r in Hx. congruence. }
  rewrite (w64_small (r * 16)), (w64_small (s + 1)) by nia.
  assert (forall d, 0 <= d < 16 -> wp (parse_hex_loop (s + 1) n (w64 (r * 16 + d)))
    (fun v m' => m' = m /\ 0 <= v < (r + 1) * (16 * 16 ^ Z.of_nat n)) F m) as Hgo.
  { intros d Hd. rewrite w64_small by nia. eapply wp_mono; [apply IH; try lia; try nia | | done].
    - destruct Hm as [Hm|HF]; [left | by right]. intros i Hi. replace (s + 1 + i) with (s + (i + 1)) by lia. apply Hm. lia.
    - intros v m' [-> Hv]. split; [done | nia]. }
  destruct (Z.leb_spec 48 c), (Z.leb_spec c 57), (Z.leb_spec 97 c), (Z.leb_spec c 102), (Z.leb_spec 65 c), (Z.leb_spec c 70);
    cbn [andb]; try (apply Hgo; lia); wp_steps; (split; [done | nia]).
Qed.

Lemma next_range h k size : 0 <= h < 2 ^ 63 -> 0 <= k < 2 ^ 32 -> 0 <= size < 2 ^ 32 ->
  h + 110 <= align_up (w64 (align_up (w64 (h + 110 + k)) CPIO_ALIGNMENT + size)) CPIO_ALIGNMENT < 2 ^ 64.
Proof.
  intros Hh Hk Hs. pose proof (round4_ge (h + 110 + k)) as R1.
  rewrite (w64_small (h + 110 + k)), (align_up_round4 (h + 110 + k)) by lia.
  pose proof (round4_ge (round4 (h + 110 + k) + size)) as R2. rewrite w64_small, align_up_round4 by lia. lia.
Qed.

(** What is known of any header that is accepted. *)
Lemma wp_parse_header h len m (F : fault -> Prop) : 0 <= h < 2 ^ 63 -> len < 2 ^ 64 ->
  (mapped m h len /\ h + len < 2 ^ 64) \/ F OutOfBounds ->
  wp (cpio_parse_header h len) (fun r m' => m' = m /\ (fst r = 0 -> is_Some (m !! h) /\
      h + 110 <= next_header (snd r) < 2 ^ 64)) F m.
Proof.
  intros Hh Hlen HF. unfold cpio_parse_header, sizeof_cpio_header.
  destruct (Z.ltb_spec len 110); [by wp_steps |].
  assert (forall a n, h <= a -> a + n <= h + len -> (mapped m a n \/ F OutOfBounds)) as Hsub.
  { intros a n Ha Hn. destruct HF as [[Hm _]|HF]; [left | by right]. intros i Hi.
    replace (a + i) with (h + (a - h + i)) by lia. apply Hm. lia. }
  assert (forall a b n (Q : Z -> bmem -> Prop), n <= Z.of_nat (length b) -> b <> [] -> 0 < n -> h <= a -> a + n <= h + len ->
    a + n < 2 ^ 64 -> (forall d, is_Some (m !! a) -> Q d m) -> wp (cpio_strncmp a b n) Q F m) as Hcmp.
  { intros a b n Q Hn Hb Hn0 Ha Han H64 HQ. destruct (Hsub a n Ha Han) as [Hm|HF'].
    - eapply wp_mono; [by apply wp_strncmp_mapped; try lia | | done]. intros d m' ->. apply HQ.
      rewrite <- (Z.add_0_r a). apply Hm. lia.
    - eapply wp_mono; [by apply wp_strncmp | | done]. intros d m' [-> Hs]. apply HQ. auto. }
  rewrite wp_bind. unfold c_magic. rewrite Z.add_0_r, w64_small by lia.
  apply Hcmp; [done | done | lia | lia | lia | lia |]. intros d Hdom.
  destruct (negb _); [by wp_steps |]. rewrite wp_bind. unfold parse_hex_str, c_filesize, c_namesize.
  rewrite !(w64_small (h + _)) by lia.
  eapply wp_mono; [apply wp_parse_hex; [lia | done | lia | lia | apply Hsub; lia] | | done]. intros size m1 [-> Hsize].
  rewrite wp_bind.
  eapply wp_mono; [apply wp_parse_hex; [lia | done | lia | lia | apply Hsub; lia] | | done]. intros k m1 [-> Hk].
  change ((0 + 1) * 16 ^ Z.of_nat 8) with (2 ^ 32) in *. rewrite (w64_small (110 + k + size)) by lia.
  destruct (Z.ltb_spec len (110 + k + size)); [by wp_steps |]. rewrite wp_bind, w64_small by lia.
  unfold wp at 1, load8. destruct (m !! (h + 110 + (k - 1))) as [x|] eqn:Ex.
  2: { destruct (Hsub (h + 110 + (k - 1)) 1) as [Hm|]; [lia | lia | | done].
       destruct (Hm 0) as [y Hy]; [lia |]. rewrite Z.add_0_r in Hy. congruence. }
  destruct (negb _); [by wp_steps |]. rewrite wp_bind.
  assert (forall eof : bool, wp (if eof then ret (1, mkInfo 0 0 0 0) else
      let dat := align_up (w64 (h + 110 + k)) CPIO_ALIGNMENT in
      let next := align_up (w64 (dat + size)) CPIO_ALIGNMENT in ret (0, mkInfo (h + 110) size dat next))
      (fun r m' => m' = m /\ (fst r = 0 -> is_Some (m !! h) /\ h + 110 <= next_header (snd r) < 2 ^ 64)) F m) as Hend.
  { intros [|]; wp_steps; (split; [done |]); [done |]. intros _. split; [done | by apply next_range]. }
  destruct (Z.leb_spec 11 k); [|rewrite wp_ret; exact (Hend false)]. rewrite wp_bind.
  apply Hcmp; [done | done | lia | lia | lia | lia |]. intros e _. rewrite wp_ret. apply Hend.
Qed.

(** Checking a header never reads outside the [len] bytes of the archive,
    whatever is in them. *)
Theorem cpio_parse_header_safe (m : bmem) (h len : Z) :
  0 <= h < 2 ^ 63 -> h + len < 2 ^ 64 -> mapped m h len ->
  wp (cpio_parse_header h len) (fun r m' => m' = m /\
      (fst r = 0 -> h + 110 <= next_header (snd r) < 2 ^ 64)) (fun _ => False) m.
Proof.
  intros Hh Hl Hm. eapply wp_mono; [apply (wp_parse_header h len m (fun _ => False)); [done | lia | by left] | | done].
  intros r m' [-> Hr]. split; [done |]. intros E. by apply Hr.
Qed.

Lemma cpio_parse_header_safe_witness :
  wp (cpio_parse_header 0x1000 3) (fun r m' => m' = put_bytes 0x1000 [48; 55; 48] ∅ /\
      (fst r = 0 -> 0x1000 + 110 <= next_header (snd r) < 2 ^ 64)) (fun _ => False) (put_bytes 0x1000 [48; 55; 48] ∅).
Proof.
  apply (cpio_parse_header_safe (put_bytes 0x1000 [48; 55; 48] ∅) 0x1000 3); [lia | lia |].
  intros i Hi. assert (i = 0 \/ i = 1 \/ i = 2) as [->|[-> | ->]] by lia; vm_compute; by eexists.
Defined.

(** The mapped addresses from [h] on. *)
Definition mapped_from_addr (m : bmem) (h : Z) : gset Z := filter (fun a => h <= a) (dom m).

Lemma mapped_shrinks m h h' : is_Some (m !! h) -> h < h' ->
  (size (mapped_from_addr m h') < size (mapped_from_addr m h))%nat.
Proof.
  intros Hs Hlt. apply subset_size. split.
  - intros a. unfold mapped_from_addr. rewrite !elem_of_filter. intros [? ?]. split; [lia | done].
  - intros Hsub. assert (h ∈ mapped_from_addr m h') as Hin.
    { apply Hsub. unfold mapped_from_addr. apply elem_of_filter. split; [lia | by apply elem_of_dom]. }
    unfold mapped_from_addr in Hin. apply elem_of_filter in Hin as [? _]. lia.
Qed.

Lemma wp_cpio_find fuel h len name m : 0 <= h < 2 ^ 64 -> len < 2 ^ 64 ->
  (forall a, is_Some (m !! a) -> a < 2 ^ 63) -> (size (mapped_from_addr m h) < fuel)%nat ->
  wp (cpio_find fuel h len name) (fun _ m' => m' = m) (fun e => e = OutOfBounds) m.
Proof.
  intros Hh Hlen Hm. revert h len Hh Hlen. induction fuel as [|fuel IH]; intros h len Hh Hlen Hf; [lia |].
  cbn [cpio_find]. rewrite wp_bind. destruct (Z.lt_ge_cases h (2 ^ 63)) as [Hl|Hg].
  - eapply wp_mono; [apply (wp_parse_header h len m (fun e => e = OutOfBounds)); [lia | done | by right] | | done].
    intros [e info] m1 [-> Hr]. destruct (Z.eqb_spec e 0) as [->|]; cbn [negb]; [|by wp_steps].
    destruct Hr as [Hs Hn]; [done |]. cbn [snd] in Hn. rewrite wp_bind.
    eapply wp_mono; [by apply (wp_strncmp _ _ _ _ (fun e => e = OutOfBounds)) | | done]. intros d m1 [-> _].
    destruct (d =? 0); [by wp_steps |]. apply IH; [lia | |].
    + unfold cpio_len_next. destruct (_ <? _); lia.
    + apply (Nat.lt_le_trans _ (size (mapped_from_addr m h))); [|lia]. apply mapped_shrinks; [done | lia].
  - unfold cpio_parse_header. destruct (len <? _); [by wp_steps |]. rewrite wp_bind.
    eapply wp_mono; [by apply (wp_strncmp _ _ _ _ (fun e => e = OutOfBounds)) | | done]. intros d m1 [-> Hs]. exfalso.
    assert (h < 2 ^ 63); [|lia]. apply Hm. unfold c_magic in Hs. rewrite Z.add_0_r, w64_small in Hs by done. by apply Hs.
Qed.

(** Looking for a file ends on any memory, well-formed archive or not: the
    headers visited have increasing addresses, so there are no more rounds than
    mapped bytes.  The only fault is reading an address that is not mapped. *)
Theorem cpio_get_file_total (m : bmem) (a len : Z) (name : list Z) :
  0 <= a < 2 ^ 64 -> len < 2 ^ 64 -> (forall x, is_Some (m !! x) -> x < 2 ^ 63) ->
  wp (cpio_get_file (S (size m)) a len name) (fun _ m' => m' = m) (fun e => e = OutOfBounds) m.
Proof.
  intros Ha Hl Hm. unfold cpio_get_file. rewrite wp_bind.
  eapply wp_mono; [apply wp_cpio_find; [done | done | done |] | | done].
  - apply Nat.lt_succ_r. etrans; [|apply Nat.eq_le_incl, (size_dom (D := gset Z))]. apply subseteq_size.
    intros x. unfold mapped_from_addr. rewrite elem_of_filter. tauto.
  - intros [info|] m' ->; by wp_steps.
Qed.

Lemma cpio_get_file_total_witness :
  wp (cpio_get_file (S (size demo_bmem)) 0x1000 demo_len [120; 0]) (fun _ m' => m' = demo_bmem)
     (fun e => e = OutOfBounds) demo_bmem.
Proof.
  apply (cpio_get_file_total demo_bmem 0x1000 demo_len [120; 0]); [lia | vm_compute; reflexivity |].
  intros x Hx. apply put_bytes_range in Hx as [Hx|Hx]; [by destruct Hx |].
  assert (0x1000 + Z.of_nat (length demo_archive) < 2 ^ 63) by (vm_compute; reflexivity). lia.
Defined.

(** ** Counting and listing *)

Lemma strlen_string l s k fuel m : bytes_at m s (l ++ [0]) -> good_name l -> (length l < fuel)%nat ->
  0 <= s -> s + Z.of_nat (length l) + 1 < 2 ^ 64 ->
  cpio_strlen fuel s k m = inl ((k + Z.of_nat (length l)) mod 2 ^ 32, m).
Proof.
  revert s k fuel. induction l as [|c l IH]; intros s k fuel Hb Hg Hf H0 Hs; (destruct fuel as [|fuel]; [simpl in Hf; lia |]);
    cbn [cpio_strlen app bytes_at length] in *; destruct Hb as [Hc Hb]; unfold bind, load8; rewrite Hc.
  - simpl. by rewrite Z.add_0_r.
  - apply list.Forall_cons in Hg as [Hc0 Hg]. destruct (Z.eqb_spec c 0); [lia |]. rewrite w64_small by lia.
    rewrite IH by (done || lia). do 3 f_equal. lia.
Qed.

Definition max_name (sz : Z) (f : file) : Z := Z.max sz (Z.of_nat (length (f_name f))).

Lemma cpio_info_archive m len fs a n sz fuel : archive_at m len a fs -> 0 <= n -> 0 <= sz ->
  n + Z.of_nat (length fs) < 2 ^ 32 -> Forall (fun f => Z.of_nat (length (f_name f)) < 2 ^ 32) fs ->
  Forall (fun f => length fs + length (f_name f) + 1 < fuel)%nat fs -> (length fs < fuel)%nat ->
  cpio_info_loop fuel a len n sz m = inl ((0, (n + Z.of_nat (length fs), fold_left max_name fs sz)), m).
Proof.
  revert a n sz fuel. induction fs as [|f fs IH]; intros a n sz fuel Ha Hn Hsz H32 Hl Hfu Hf;
    (destruct fuel as [|fuel]; [simpl in Hf; lia |]); cbn [cpio_info_loop fold_left]; unfold bind at 1.
  - rewrite (archive_end _ _ _ Ha). simpl. by rewrite Z.add_0_r.
  - destruct (archive_entry _ _ _ _ _ Ha) as (Hp & Hln & Hr). rewrite Hp. cbn [Z.eqb].
    destruct Ha as (He & _). pose proof (ea_low _ _ _ _ He) as [H0 Hlow]. pose proof (pos_bounds a f H0) as [B1 B2].
    apply list.Forall_cons in Hl as [Hl1 Hl]. apply list.Forall_cons in Hfu as [Hfu1 Hfu]. cbn [length] in *.
    change (filename (entry_info a f)) with (a + 110). change (next_header (entry_info a f)) with (next_pos a f).
    unfold bind at 1. rewrite (strlen_string (f_name f)); [|apply He | apply He | lia | lia | lia].
    rewrite Hln, Z.add_0_l, (Z.mod_small (Z.of_nat _)), (Z.mod_small (n + 1)) by lia.
    rewrite IH; [| done | lia | destruct (_ <? _); lia | lia | done | | lia].
    + replace (n + 1 + Z.of_nat (length fs)) with (n + Z.of_nat (S (length fs))) by lia.
      assert ((if sz <? Z.of_nat (length (f_name f)) then Z.of_nat (length (f_name f)) else sz) = max_name sz f) as ->; [|done].
      unfold max_name. destruct (Z.ltb_spec sz (Z.of_nat (length (f_name f)))); lia.
    + eapply list.Forall_impl; [exact Hfu |]. simpl. lia.
Qed.

(** [cpio_info] counts the files of a well-formed archive and gives the length
    of the longest name. *)
Theorem cpio_info_spec (m : bmem) (len a : Z) (fs : list file) (fuel : nat) :
  archive_at m len a fs -> Z.of_nat (length fs) < 2 ^ 32 ->
  Forall (fun f => Z.of_nat (length (f_name f)) < 2 ^ 32) fs ->
  Forall (fun f => length fs + length (f_name f) + 1 < fuel)%nat fs -> (length fs < fuel)%nat ->
  cpio_info fuel a len m = inl ((0, (Z.of_nat (length fs), fold_left max_name fs 0)), m).
Proof. intros. unfold cpio_info. by rewrite (cpio_info_archive m len fs). Qed.

Lemma cpio_info_spec_witness :
  cpio_info 10 0x1000 demo_len demo_bmem = inl ((0, (2, 2)), demo_bmem).
Proof.
  apply (cpio_info_spec demo_bmem demo_len 0x1000 demo_files 10).
  - apply demo_archive_at.
  - done.
  - repeat constructor.
  - repeat constructor.
  - simpl. lia.
Defined.

(** The [n]th entry is the [n]th file, and past the last there is none. *)
Lemma cpio_get_entry_nth m len fs a n : archive_at m len a fs ->
  match fs !! n with
  | Some f => exists p q, bytes_at m p (f_data f) /\ bytes_at m q (f_name f ++ [0]) /\
      cpio_get_entry a len (Z.of_nat n) m = inl ((p, Some (q, Z.of_nat (length (f_data f)))), m)
  | None => (n = length fs)%nat -> cpio_get_entry a len (Z.of_nat n) m = inl ((0, None), m)
  end.
Proof.
  unfold cpio_get_entry. destruct (Z.ltb_spec (Z.of_nat n) 0); [lia |]. rewrite Nat2Z.id. clear H.
  revert a n. induction fs as [|f fs IH]; intros a n Ha.
  - simpl. intros ->. unfold bind. cbn [cpio_skip]. unfold bind. by rewrite (archive_end _ _ _ Ha).
  - destruct (archive_entry _ _ _ _ _ Ha) as (Hp & Hln & Hr). destruct Ha as (He & _).
    destruct n as [|n]; [change ((f :: fs) !! 0%nat) with (Some f) | change ((f :: fs) !! S n) with (fs !! n)].
    + exists (data_pos a f), (a + 110). split; [apply He |]. split; [apply He |].
      unfold bind. cbn [cpio_skip]. unfold bind. by rewrite Hp.
    + assert (cpio_skip a len (S n) m = cpio_skip (next_pos a f) len n m) as Hskip.
      { cbn [cpio_skip]. unfold bind. rewrite Hp. cbn [negb Z.eqb].
        change (next_header (entry_info a f)) with (next_pos a f). by rewrite Hln. }
      specialize (IH (next_pos a f) n Hr). unfold bind in *. rewrite Hskip.
      destruct (fs !! n); [exact IH | intros [= ->]; by apply IH].
Qed.

(** ** What the length does not check

    [cpio_len_next] does not take what was read off the length: after the last
    entry of an archive without a trailer the next header is looked for behind
    the archive. *)
Definition no_trailer : list Z := write_entry 0x1000 (mkFile [97] []).
Lemma cpio_reads_past :
  length no_trailer = 112%nat /\
  cpio_get_file 5 0x1000 112 [98; 0] (put_bytes 0x1000 no_trailer ∅) = inr OutOfBounds.
Proof. split; vm_compute; reflexivity. Qed.

(** [cpio_ls] does not terminate the names it copies. *)
Lemma cpio_ls_unterminated :
  match cpio_ls 10 0x1000 demo_len [0x10] (put_bytes 0x10 [255; 255; 255] demo_bmem) with
  | inl (_, m) => check_bytes m 0x10 [97; 98; 255] = true
  | inr _ => False
  end.
Proof. vm_compute. reflexivity. Qed.
