(* ===== verification/ElfFile.v ===== *)
(** * The ELF library

    Model of libelf (src/elf.c, elf32.c, elf64.c and their headers), with which
    SOS reads the program it starts.  A file is a range of byte memory; structures
    are read at the offsets of their fields, little endian as on AArch64.

    The checks of [elf_newFile] are what makes the other functions safe: see
    [elf_ok]. *)

From S2P Require Import Prelude Bytes.

Abbreviation MB := (M bmem).

(** ** Data *)
Record elf_t := mkElf { elfFile : Z; elfSize : Z; elfClass : Z }.
Inductive elf_addr_type_t := VIRTUAL | PHYSICAL.

Definition ELFMAG : list Z := [127; 69; 76; 70].
Definition EI_CLASS : Z := 4.
Definition ELFCLASS32 : Z := 1.
Definition ELFCLASS64 : Z := 2.
Definition SHT_STRTAB : Z := 3.

(** [Elf32_Ehdr] and [Elf64_Ehdr]. *)
Record ehdr := mkEhdr {
  e_class : Z; e_entry : Z; e_phoff : Z; e_shoff : Z; e_phentsize : Z; e_phnum : Z; e_shentsize : Z; e_shnum : Z; e_shstrndx : Z }.

(** A number of [n] bytes. *)
Fixpoint load_le (n : nat) (a : Z) : MB Z :=
  match n with
  | O => ret 0
  | S n => let* b := load8 a in let* r := load_le n (w64 (a + 1)) in ret (b + 256 * r)
  end.

(** [memcmp] with a constant: whether the bytes differ. *)
Fixpoint memcmp_const (a : Z) (l : list Z) : MB bool :=
  match l with
  | [] => ret false
  | c :: l => let* b := load8 a in let* d := memcmp_const (w64 (a + 1)) l in ret (negb (b =? c) || d)
  end.
Definition elf_check_magic (file : Z) : MB Z :=
  let* d := memcmp_const file ELFMAG in ret (if d then -1 else 0).

(** ** elf32.h and elf32.c *)
Definition sizeof_Elf32_Ehdr : Z := 52.
Definition sizeof_Elf32_Phdr : Z := 32.
Definition sizeof_Elf32_Shdr : Z := 40.

(** The header, by value; the fields the library does not use are left out. *)
Definition elf32_getHeader (elf : elf_t) : MB ehdr :=
  let a := elfFile elf in
  let* class := load8 (w64 (a + EI_CLASS)) in
  let* entry := load_le 4 (w64 (a + 24)) in
  let* phoff := load_le 4 (w64 (a + 28)) in
  let* shoff := load_le 4 (w64 (a + 32)) in
  let* phentsize := load_le 2 (w64 (a + 42)) in
  let* phnum := load_le 2 (w64 (a + 44)) in
  let* shentsize := load_le 2 (w64 (a + 46)) in
  let* shnum := load_le 2 (w64 (a + 48)) in
  let* shstrndx := load_le 2 (w64 (a + 50)) in
  ret (mkEhdr class entry phoff shoff phentsize phnum shentsize shnum shstrndx).

Definition elf32_getEntryPoint (elf : elf_t) : MB Z := let* h := elf32_getHeader elf in ret (e_entry h).
Definition elf32_getProgramHeaderTable (elf : elf_t) : MB Z := let* h := elf32_getHeader elf in ret (w64 (elfFile elf + e_phoff h)).
Definition elf32_getSectionTable (elf : elf_t) : MB Z := let* h := elf32_getHeader elf in ret (w64 (elfFile elf + e_shoff h)).
Definition elf32_getNumProgramHeaders (elf : elf_t) : MB Z := let* h := elf32_getHeader elf in ret (e_phnum h).
Definition elf32_getNumSections (elf : elf_t) : MB Z := let* h := elf32_getHeader elf in ret (e_shnum h).
Definition elf32_getSectionStringTableIndex (elf : elf_t) : MB Z := let* h := elf32_getHeader elf in ret (e_shstrndx h).

(** Field [off], of [n] bytes, of entry [i] of a table. *)
Definition elf32_shdr (elf : elf_t) (i : Z) (off : Z) (n : nat) : MB Z :=
  let* t := elf32_getSectionTable elf in load_le n (w64 (t + i * sizeof_Elf32_Shdr + off)).
Definition elf32_phdr (elf : elf_t) (i : Z) (off : Z) (n : nat) : MB Z :=
  let* t := elf32_getProgramHeaderTable elf in load_le n (w64 (t + i * sizeof_Elf32_Phdr + off)).

Definition elf32_getSectionNameOffset (elf : elf_t) (i : Z) : MB Z := elf32_shdr elf i 0 4.
Definition elf32_getSectionType (elf : elf_t) (i : Z) : MB Z := elf32_shdr elf i 4 4.
Definition elf32_getSectionFlags (elf : elf_t) (i : Z) : MB Z := elf32_shdr elf i 8 4.
Definition elf32_getSectionAddr (elf : elf_t) (i : Z) : MB Z := elf32_shdr elf i 12 4.
Definition elf32_getSectionOffset (elf : elf_t) (i : Z) : MB Z := elf32_shdr elf i 16 4.
Definition elf32_getSectionSize (elf : elf_t) (i : Z) : MB Z := elf32_shdr elf i 20 4.
Definition elf32_getSectionLink (elf : elf_t) (i : Z) : MB Z := elf32_shdr elf i 24 4.
Definition elf32_getSectionInfo (elf : elf_t) (i : Z) : MB Z := elf32_shdr elf i 28 4.
Definition elf32_getSectionAddrAlign (elf : elf_t) (i : Z) : MB Z := elf32_shdr elf i 32 4.
Definition elf32_getSectionEntrySize (elf : elf_t) (i : Z) : MB Z := elf32_shdr elf i 36 4.

Definition elf32_getProgramHeaderType (elf : elf_t) (ph : Z) : MB Z := elf32_phdr elf ph 0 4.
Definition elf32_getProgramHeaderOffset (elf : elf_t) (ph : Z) : MB Z := elf32_phdr elf ph 4 4.
Definition elf32_getProgramHeaderVaddr (elf : elf_t) (ph : Z) : MB Z := elf32_phdr elf ph 8 4.
Definition elf32_getProgramHeaderPaddr (elf : elf_t) (ph : Z) : MB Z := elf32_phdr elf ph 12 4.
Definition elf32_getProgramHeaderFileSize (elf : elf_t) (ph : Z) : MB Z := elf32_phdr elf ph 16 4.
Definition elf32_getProgramHeaderMemorySize (elf : elf_t) (ph : Z) : MB Z := elf32_phdr elf ph 20 4.
Definition elf32_getProgramHeaderFlags (elf : elf_t) (ph : Z) : MB Z := elf32_phdr elf ph 24 4.
Definition elf32_getProgramHeaderAlign (elf : elf_t) (ph : Z) : MB Z := elf32_phdr elf ph 28 4.

Definition elf32_checkFile (elf : elf_t) : MB (Z * elf_t) :=
  if elfSize elf <? sizeof_Elf32_Ehdr then ret (-1, elf)
  else
    let* magic := elf_check_magic (elfFile elf) in
    if magic <? 0 then ret (-1, elf)
    else
      let* h := elf32_getHeader elf in
      if negb (e_class h =? ELFCLASS32) then ret (-1, elf)
      else if negb (e_phentsize h =? sizeof_Elf32_Phdr) then ret (-1, elf)
      else if negb (e_shentsize h =? sizeof_Elf32_Shdr) then ret (-1, elf)
      else if e_shstrndx h >=? e_shnum h then ret (-1, elf)
      else ret (0, mkElf (elfFile elf) (elfSize elf) (e_class h)).
Definition elf32_checkProgramHeaderTable (elf : elf_t) : MB Z :=
  let* h := elf32_getHeader elf in
  let ph_end := w64 (e_phoff h + e_phentsize h * e_phnum h) in
  ret (if (elfSize elf <? ph_end) || (ph_end <? e_phoff h) then -1 else 0).
Definition elf32_checkSectionTable (elf : elf_t) : MB Z :=
  let* h := elf32_getHeader elf in
  let sh_end := w64 (e_shoff h + e_shentsize h * e_shnum h) in
  ret (if (elfSize elf <? sh_end) || (sh_end <? e_shoff h) then -1 else 0).

(** ** elf64.h and elf64.c *)
Definition sizeof_Elf64_Ehdr : Z := 64.
Definition sizeof_Elf64_Phdr : Z := 56.
Definition sizeof_Elf64_Shdr : Z := 64.

(** The header, by value; the fields the library does not use are left out. *)
Definition elf64_getHeader (elf : elf_t) : MB ehdr :=
  let a := elfFile elf in
  let* class := load8 (w64 (a + EI_CLASS)) in
  let* entry := load_le 8 (w64 (a + 24)) in
  let* phoff := load_le 8 (w64 (a + 32)) in
  let* shoff := load_le 8 (w64 (a + 40)) in
  let* phentsize := load_le 2 (w64 (a + 54)) in
  let* phnum := load_le 2 (w64 (a + 56)) in
  let* shentsize := load_le 2 (w64 (a + 58)) in
  let* shnum := load_le 2 (w64 (a + 60)) in
  let* shstrndx := load_le 2 (w64 (a + 62)) in
  ret (mkEhdr class entry phoff shoff phentsize phnum shentsize shnum shstrndx).

Definition elf64_getEntryPoint (elf : elf_t) : MB Z := let* h := elf64_getHeader elf in ret (e_entry h).
Definition elf64_getProgramHeaderTable (elf : elf_t) : MB Z := let* h := elf64_getHeader elf in ret (w64 (elfFile elf + e_phoff h)).
Definition elf64_getSectionTable (elf : elf_t) : MB Z := let* h := elf64_getHeader elf in ret (w64 (elfFile elf + e_shoff h)).
Definition elf64_getNumProgramHeaders (elf : elf_t) : MB Z := let* h := elf64_getHeader elf in ret (e_phnum h).
Definition elf64_getNumSections (elf : elf_t) : MB Z := let* h := elf64_getHeader elf in ret (e_shnum h).
Definition elf64_getSectionStringTableIndex (elf : elf_t) : MB Z := let* h := elf64_getHeader elf in ret (e_shstrndx h).

(** Field [off], of [n] bytes, of entry [i] of a table. *)
Definition elf64_shdr (elf : elf_t) (i : Z) (off : Z) (n : nat) : MB Z :=
  let* t := elf64_getSectionTable elf in load_le n (w64 (t + i * sizeof_Elf64_Shdr + off)).
Definition elf64_phdr (elf : elf_t) (i : Z) (off : Z) (n : nat) : MB Z :=
  let* t := elf64_getProgramHeaderTable elf in load_le n (w64 (t + i * sizeof_Elf64_Phdr + off)).

Definition elf64_getSectionNameOffset (elf : elf_t) (i : Z) : MB Z := elf64_shdr elf i 0 4.
Definition elf64_getSectionType (elf : elf_t) (i : Z) : MB Z := elf64_shdr elf i 4 4.
Definition elf64_getSectionFlags (elf : elf_t) (i : Z) : MB Z := elf64_shdr elf i 8 8.
Definition elf64_getSectionAddr (elf : elf_t) (i : Z) : MB Z := elf64_shdr elf i 16 8.
Definition elf64_getSectionOffset (elf : elf_t) (i : Z) : MB Z := elf64_shdr elf i 24 8.
Definition elf64_getSectionSize (elf : elf_t) (i : Z) : MB Z := elf64_shdr elf i 32 8.
Definition elf64_getSectionLink (elf : elf_t) (i : Z) : MB Z := elf64_shdr elf i 40 4.
Definition elf64_getSectionInfo (elf : elf_t) (i : Z) : MB Z := elf64_shdr elf i 44 4.
Definition elf64_getSectionAddrAlign (elf : elf_t) (i : Z) : MB Z := elf64_shdr elf i 48 8.
Definition elf64_getSectionEntrySize (elf : elf_t) (i : Z) : MB Z := elf64_shdr elf i 56 8.

Definition elf64_getProgramHeaderType (elf : elf_t) (ph : Z) : MB Z := elf64_phdr elf ph 0 4.
Definition elf64_getProgramHeaderOffset (elf : elf_t) (ph : Z) : MB Z := elf64_phdr elf ph 8 8.
Definition elf64_getProgramHeaderVaddr (elf : elf_t) (ph : Z) : MB Z := elf64_phdr elf ph 16 8.
Definition elf64_getProgramHeaderPaddr (elf : elf_t) (ph : Z) : MB Z := elf64_phdr elf ph 24 8.
Definition elf64_getProgramHeaderFileSize (elf : elf_t) (ph : Z) : MB Z := elf64_phdr elf ph 32 8.
Definition elf64_getProgramHeaderMemorySize (elf : elf_t) (ph : Z) : MB Z := elf64_phdr elf ph 40 8.
Definition elf64_getProgramHeaderFlags (elf : elf_t) (ph : Z) : MB Z := elf64_phdr elf ph 4 4.
Definition elf64_getProgramHeaderAlign (elf : elf_t) (ph : Z) : MB Z := elf64_phdr elf ph 48 8.

Definition elf64_checkFile (elf : elf_t) : MB (Z * elf_t) :=
  if elfSize elf <? sizeof_Elf64_Ehdr then ret (-1, elf)
  else
    let* magic := elf_check_magic (elfFile elf) in
    if magic <? 0 then ret (-1, elf)
    else
      let* h := elf64_getHeader elf in
      if negb (e_class h =? ELFCLASS64) then ret (-1, elf)
      else if negb (e_phentsize h =? sizeof_Elf64_Phdr) then ret (-1, elf)
      else if negb (e_shentsize h =? sizeof_Elf64_Shdr) then ret (-1, elf)
      else if e_shstrndx h >=? e_shnum h then ret (-1, elf)
      else ret (0, mkElf (elfFile elf) (elfSize elf) (e_class h)).
Definition elf64_checkProgramHeaderTable (elf : elf_t) : MB Z :=
  let* h := elf64_getHeader elf in
  let ph_end := w64 (e_phoff h + e_phentsize h * e_phnum h) in
  ret (if (elfSize elf <? ph_end) || (ph_end <? e_phoff h) then -1 else 0).
Definition elf64_checkSectionTable (elf : elf_t) : MB Z :=
  let* h := elf64_getHeader elf in
  let sh_end := w64 (e_shoff h + e_shentsize h * e_shnum h) in
  ret (if (elfSize elf <? sh_end) || (sh_end <? e_shoff h) then -1 else 0).

(** ** elf.c *)
Definition elf_isElf32 (elf : elf_t) : bool := elfClass elf =? ELFCLASS32.

Definition elf_checkProgramHeaderTable (elf : elf_t) : MB Z := if elf_isElf32 elf then elf32_checkProgramHeaderTable elf else elf64_checkProgramHeaderTable elf.
Definition elf_checkSectionTable (elf : elf_t) : MB Z := if elf_isElf32 elf then elf32_checkSectionTable elf else elf64_checkSectionTable elf.
Definition elf_getEntryPoint (elf : elf_t) : MB Z := if elf_isElf32 elf then elf32_getEntryPoint elf else elf64_getEntryPoint elf.
Definition elf_getNumProgramHeaders (elf : elf_t) : MB Z := if elf_isElf32 elf then elf32_getNumProgramHeaders elf else elf64_getNumProgramHeaders elf.
Definition elf_getNumSections (elf : elf_t) : MB Z := if elf_isElf32 elf then elf32_getNumSections elf else elf64_getNumSections elf.
Definition elf_getSectionStringTableIndex (elf : elf_t) : MB Z := if elf_isElf32 elf then elf32_getSectionStringTableIndex elf else elf64_getSectionStringTableIndex elf.
Definition elf_getSectionNameOffset (elf : elf_t) (i : Z) : MB Z := if elf_isElf32 elf then elf32_getSectionNameOffset elf i else elf64_getSectionNameOffset elf i.
Definition elf_getSectionType (elf : elf_t) (i : Z) : MB Z := if elf_isElf32 elf then elf32_getSectionType elf i else elf64_getSectionType elf i.
Definition elf_getSectionFlags (elf : elf_t) (i : Z) : MB Z := if elf_isElf32 elf then elf32_getSectionFlags elf i else elf64_getSectionFlags elf i.
Definition elf_getSectionAddr (elf : elf_t) (i : Z) : MB Z := if elf_isElf32 elf then elf32_getSectionAddr elf i else elf64_getSectionAddr elf i.
Definition elf_getSectionOffset (elf : elf_t) (i : Z) : MB Z := if elf_isElf32 elf then elf32_getSectionOffset elf i else elf64_getSectionOffset elf i.
Definition elf_getSectionSize (elf : elf_t) (i : Z) : MB Z := if elf_isElf32 elf then elf32_getSectionSize elf i else elf64_getSectionSize elf i.
Definition elf_getSectionLink (elf : elf_t) (i : Z) : MB Z := if elf_isElf32 elf then elf32_getSectionLink elf i else elf64_getSectionLink elf i.
Definition elf_getSectionInfo (elf : elf_t) (i : Z) : MB Z := if elf_isElf32 elf then elf32_getSectionInfo elf i else elf64_getSectionInfo elf i.
Definition elf_getSectionAddrAlign (elf : elf_t) (i : Z) : MB Z := if elf_isElf32 elf then elf32_getSectionAddrAlign elf i else elf64_getSectionAddrAlign elf i.
Definition elf_getSectionEntrySize (elf : elf_t) (i : Z) : MB Z := if elf_isElf32 elf then elf32_getSectionEntrySize elf i else elf64_getSectionEntrySize elf i.
Definition elf_getProgramHeaderType (elf : elf_t) (i : Z) : MB Z := if elf_isElf32 elf then elf32_getProgramHeaderType elf i else elf64_getProgramHeaderType elf i.
Definition elf_getProgramHeaderOffset (elf : elf_t) (i : Z) : MB Z := if elf_isElf32 elf then elf32_getProgramHeaderOffset elf i else elf64_getProgramHeaderOffset elf i.
Definition elf_getProgramHeaderVaddr (elf : elf_t) (i : Z) : MB Z := if elf_isElf32 elf then elf32_getProgramHeaderVaddr elf i else elf64_getProgramHeaderVaddr elf i.
Definition elf_getProgramHeaderPaddr (elf : elf_t) (i : Z) : MB Z := if elf_isElf32 elf then elf32_getProgramHeaderPaddr elf i else elf64_getProgramHeaderPaddr elf i.
Definition elf_getProgramHeaderFileSize (elf : elf_t) (i : Z) : MB Z := if elf_isElf32 elf then elf32_getProgramHeaderFileSize elf i else elf64_getProgramHeaderFileSize elf i.
Definition elf_getProgramHeaderMemorySize (elf : elf_t) (i : Z) : MB Z := if elf_isElf32 elf then elf32_getProgramHeaderMemorySize elf i else elf64_getProgramHeaderMemorySize elf i.
Definition elf_getProgramHeaderFlags (elf : elf_t) (i : Z) : MB Z := if elf_isElf32 elf then elf32_getProgramHeaderFlags elf i else elf64_getProgramHeaderFlags elf i.
Definition elf_getProgramHeaderAlign (elf : elf_t) (i : Z) : MB Z := if elf_isElf32 elf then elf32_getProgramHeaderAlign elf i else elf64_getProgramHeaderAlign elf i.

Definition elf_checkFile (elf : elf_t) : MB (Z * elf_t) :=
  let* '(res, elf) := elf32_checkFile elf in
  if res =? 0 then ret (0, elf)
  else
    let* '(res, elf) := elf64_checkFile elf in
    if res =? 0 then ret (0, elf) else ret (-1, elf).

(** The status, and the structure when it is filled in; [res] is never [NULL]. *)
Definition elf_newFile_maybe_unsafe (file size : Z) (check_pht check_st : bool) : MB (Z * option elf_t) :=
  let* '(status, new_file) := elf_checkFile (mkElf file size 0) in
  if status <? 0 then ret (status, None)
  else
    let* status := (if check_pht then elf_checkProgramHeaderTable new_file else ret status) in
    if status <? 0 then ret (status, None)
    else
      let* status := (if check_st then elf_checkSectionTable new_file else ret status) in
      if status <? 0 then ret (status, None) else ret (status, Some new_file).
Definition elf_newFile (file size : Z) : MB (Z * option elf_t) := elf_newFile_maybe_unsafe file size true true.

(** ** Sections; 0 is [NULL] *)
Definition elf_getSection (elf : elf_t) (i : Z) : MB Z :=
  let* n := elf_getNumSections elf in
  if (i =? 0) || (i >=? n) then ret 0
  else
    let* section_offset := elf_getSectionOffset elf i in
    let* section_size := elf_getSectionSize elf i in
    if section_size =? 0 then ret 0
    else
      let section_end := w64 (section_offset + section_size) in
      if (section_end >? elfSize elf) || (section_end <? section_offset) then ret 0
      else ret (w64 (elfFile elf + section_offset)).

Definition elf_getStringTable (elf : elf_t) (string_segment : Z) : MB Z :=
  let* string_table := elf_getSection elf string_segment in
  if string_table =? 0 then ret 0
  else
    let* type := elf_getSectionType elf string_segment in
    if negb (type =? SHT_STRTAB) then ret 0
    else
      let* size := elf_getSectionSize elf string_segment in
      let* last := load8 (w64 (string_table + w64 (size - 1))) in
      if negb (last =? 0) then ret 0 else ret string_table.

Definition elf_getSectionStringTable (elf : elf_t) : MB Z :=
  let* index := elf_getSectionStringTableIndex elf in elf_getStringTable elf index.

(** A string: in memory, or the constant of the library. *)
Inductive cstr := StrAt (a : Z) | Corrupted.
Definition corrupted : list Z := [60; 99; 111; 114; 114; 117; 112; 116; 101; 100; 62; 0].

Definition elf_getSectionName (elf : elf_t) (i : Z) : MB cstr :=
  let* str_table_idx := elf_getSectionStringTableIndex elf in
  let* str_table := elf_getStringTable elf str_table_idx in
  let* offset := elf_getSectionNameOffset elf i in
  let* size := elf_getSectionSize elf str_table_idx in
  if (str_table =? 0) || (offset >? size) then ret Corrupted
  else ret (StrAt (w64 (str_table + offset))).

(** [strcmp(str, s) == 0] for a constant [str], given with its zero. *)
Fixpoint str_equal (str : list Z) (a : Z) : MB bool :=
  match str with
  | [] => fail OutOfBounds
  | c :: str =>
      let* b := load8 a in
      if negb (b =? c) then ret false else if c =? 0 then ret true else str_equal str (w64 (a + 1))
  end.
Definition strcmp_zero (str : list Z) (s : cstr) : MB bool :=
  match s with StrAt a => str_equal str a | Corrupted => ret (bool_decide (str = corrupted)) end.

(** The loop from section [i], [n] rounds left: the section and its number. *)
Fixpoint find_section (elf : elf_t) (str : list Z) (i : Z) (n : nat) : MB (Z * option Z) :=
  match n with
  | O => ret (0, None)
  | S n =>
      let* name := elf_getSectionName elf i in
      let* eq := strcmp_zero str name in
      if eq then let* s := elf_getSection elf i in ret (s, Some i) else find_section elf str (i + 1) n
  end.
Definition elf_getSectionNamed (elf : elf_t) (str : list Z) : MB (Z * option Z) :=
  let* numSections := elf_getNumSections elf in find_section elf str 0 (Z.to_nat numSections).

(** ** Segments *)
Definition elf_getProgramSegment (elf : elf_t) (ph : Z) : MB Z :=
  let* offset := elf_getProgramHeaderOffset elf ph in
  let* file_size := elf_getProgramHeaderFileSize elf ph in
  let segment_end := w64 (offset + file_size) in
  if (elfSize elf <? segment_end) || (segment_end <? offset) then ret 0
  else ret (w64 (elfFile elf + offset)).

Definition elf_segment_addr (elf : elf_t) (addr_type : elf_addr_type_t) (i : Z) : MB Z :=
  match addr_type with PHYSICAL => elf_getProgramHeaderPaddr elf i | VIRTUAL => elf_getProgramHeaderVaddr elf i end.

(** The loop of [elf_getMemoryBounds] from header [i], [n] rounds left. *)
Fixpoint bounds_loop (elf : elf_t) (addr_type : elf_addr_type_t) (i : Z) (n : nat) (mem_min mem_max : Z) : MB (Z * Z) :=
  match n with
  | O => ret (mem_min, mem_max)
  | S n =>
      let* memsz := elf_getProgramHeaderMemorySize elf i in
      if memsz =? 0 then bounds_loop elf addr_type (i + 1) n mem_min mem_max
      else
        let* sect_min := elf_segment_addr elf addr_type i in
        let* memsz := elf_getProgramHeaderMemorySize elf i in
        let sect_max := w64 (sect_min + memsz) in
        let mem_max := if sect_max >? mem_max then sect_max else mem_max in
        let mem_min := if sect_min <? mem_min then sect_min else mem_min in
        bounds_loop elf addr_type (i + 1) n mem_min mem_max
  end.
Definition elf_getMemoryBounds (elf : elf_t) (addr_type : elf_addr_type_t) : MB (Z * Z) :=
  let* n := elf_getNumProgramHeaders elf in bounds_loop elf addr_type 0 (Z.to_nat n) (2 ^ 64 - 1) 0.

Definition elf_vaddrInProgramHeader (elf : elf_t) (ph vaddr : Z) : MB Z :=
  let* min := elf_getProgramHeaderVaddr elf ph in
  let* size := elf_getProgramHeaderMemorySize elf ph in
  let max := w64 (min + size) in
  ret (if (vaddr >=? min) && (vaddr <? max) then 1 else 0).

Definition elf_vtopProgramHeader (elf : elf_t) (ph vaddr : Z) : MB Z :=
  let* ph_phys := elf_getProgramHeaderPaddr elf ph in
  let* ph_virt := elf_getProgramHeaderVaddr elf ph in
  ret (w64 (vaddr - ph_virt + ph_phys)).

(** ** Loading *)
Fixpoint memcpy (dest src : Z) (n : nat) : MB unit :=
  match n with
  | O => ret tt
  | S n => let* b := load8 src in do* store8 dest b in memcpy (w64 (dest + 1)) (w64 (src + 1)) n
  end.
Fixpoint memset (dest c : Z) (n : nat) : MB unit :=
  match n with
  | O => ret tt
  | S n => do* store8 dest c in memset (w64 (dest + 1)) c n
  end.

(** One round of [elf_loadFile], and the loop. *)
Definition load_segment (elf : elf_t) (addr_type : elf_addr_type_t) (i : Z) : MB unit :=
  let* dest := elf_segment_addr elf addr_type i in
  let* len := elf_getProgramHeaderFileSize elf i in
  let* offset := elf_getProgramHeaderOffset elf i in
  let src := w64 (elfFile elf + offset) in
  do* memcpy dest src (Z.to_nat len) in
  let* memsz := elf_getProgramHeaderMemorySize elf i in
  memset (w64 (dest + len)) 0 (Z.to_nat (w64 (memsz - len))).
(** The number of headers is read again in every round. *)
Fixpoint load_loop (fuel : nat) (elf : elf_t) (addr_type : elf_addr_type_t) (i : Z) : MB Z :=
  match fuel with
  | O => fail NoFuel
  | S fuel =>
      let* n := elf_getNumProgramHeaders elf in
      if i <? n then do* load_segment elf addr_type i in load_loop fuel elf addr_type (i + 1) else ret 1
  end.
(** A header counts at most 65535 segments. *)
Definition elf_loadFile (elf : elf_t) (addr_type : elf_addr_type_t) : MB Z := load_loop (Z.to_nat 65537) elf addr_type 0.

(** ** Reading numbers *)

Definition bytes_ok (m : bmem) : Prop := map_Forall (fun _ b => 0 <= b < 256) m.
(** A file of [size] bytes at [file]. *)
Record file_mem (m : bmem) (file size : Z) : Prop := {
  fm_mapped : mapped m file size;
  fm_range : 0 < file /\ 0 <= size /\ file + size <= 2 ^ 64;
  fm_bytes : bytes_ok m }.

(** The number at [a]. *)
Fixpoint le (m : bmem) (n : nat) (a : Z) : Z :=
  match n with O => 0 | S n => default 0 (m !! a) + 256 * le m n (a + 1) end.

Lemma le_bound m n a : bytes_ok m -> 0 <= le m n a < 256 ^ Z.of_nat n.
Proof.
  intros Hb. revert a. induction n as [|n IH]; intros a; [simpl; lia |]. cbn [le]. specialize (IH (a + 1)).
  assert (0 <= default 0 (m !! a) < 256) by (destruct (m !! a) as [b|] eqn:E; simpl; [by apply (Hb a b) | lia]).
  replace (Z.of_nat (S n)) with (Z.of_nat n + 1) by lia. rewrite Z.pow_add_r by lia. lia.
Qed.

Lemma load8_at m a : is_Some (m !! a) -> load8 a m = inl (default 0 (m !! a), m).
Proof. intros [b E]. unfold load8. by rewrite E. Qed.

Lemma load_le_at m n a : 0 <= a -> a + Z.of_nat n <= 2 ^ 64 -> mapped m a (Z.of_nat n) -> load_le n a m = inl (le m n a, m).
Proof.
  revert a. induction n as [|n IH]; intros a H0 H1 Hm; [done |]. cbn [load_le le]. unfold bind at 1.
  rewrite load8_at by (rewrite <- (Z.add_0_r a); apply Hm; lia). unfold bind. destruct n as [|n]; [done |].
  unfold w64 at 1. rewrite Z.mod_small by lia. rewrite IH; [done | lia | lia |].
  intros i Hi. replace (a + 1 + i) with (a + (i + 1)) by lia. apply Hm. lia.
Qed.

(** A number in a file. *)
Lemma load_le_file m file size off n : file_mem m file size -> 0 <= off -> off + Z.of_nat n <= size ->
  load_le n (w64 (file + off)) m = inl (le m n (file + off), m).
Proof.
  intros [Hm (H0 & H1 & H2) _] Ho Hn. destruct n as [|n]; [done |]. unfold w64. rewrite Z.mod_small by lia. apply load_le_at; [lia | lia |].
  intros i Hi. replace (file + off + i) with (file + (off + i)) by lia. apply Hm. lia.
Qed.
Lemma load8_file m file size off : file_mem m file size -> 0 <= off < size -> load8 (w64 (file + off)) m = inl (default 0 (m !! (file + off)), m).
Proof. intros [Hm (H0 & H1 & H2) _] Ho. unfold w64. rewrite Z.mod_small by lia. apply load8_at, Hm. lia. Qed.

(** ** The header *)
Definition hdr32 (m : bmem) (a : Z) : ehdr :=
  mkEhdr (default 0 (m !! (a + 4))) (le m 4 (a + 24)) (le m 4 (a + 28)) (le m 4 (a + 32)) (le m 2 (a + 42)) (le m 2 (a + 44)) (le m 2 (a + 46)) (le m 2 (a + 48)) (le m 2 (a + 50)).
Definition hdr64 (m : bmem) (a : Z) : ehdr :=
  mkEhdr (default 0 (m !! (a + 4))) (le m 8 (a + 24)) (le m 8 (a + 32)) (le m 8 (a + 40)) (le m 2 (a + 54)) (le m 2 (a + 56)) (le m 2 (a + 58)) (le m 2 (a + 60)) (le m 2 (a + 62)).

Lemma getHeader32 m elf : file_mem m (elfFile elf) (elfSize elf) -> 52 <= elfSize elf -> elf32_getHeader elf m = inl (hdr32 m (elfFile elf), m).
Proof.
  intros HF Hs. unfold elf32_getHeader, bind, EI_CLASS. rewrite (load8_file m _ (elfSize elf)) by (done || lia).
  rewrite !(load_le_file m _ (elfSize elf)) by (done || lia). done.
Qed.
Lemma getHeader64 m elf : file_mem m (elfFile elf) (elfSize elf) -> 64 <= elfSize elf -> elf64_getHeader elf m = inl (hdr64 m (elfFile elf), m).
Proof.
  intros HF Hs. unfold elf64_getHeader, bind, EI_CLASS. rewrite (load8_file m _ (elfSize elf)) by (done || lia).
  rewrite !(load_le_file m _ (elfSize elf)) by (done || lia). done.
Qed.

(** ** What is a valid file *)
Definition head_ok (h : ehdr) (class psz ssz : Z) : bool :=
  (e_class h =? class) && (e_phentsize h =? psz) && (e_shentsize h =? ssz) && (e_shstrndx h <? e_shnum h).
(** Both tables lie inside the file. *)
Definition tables_ok (h : ehdr) (psz ssz size : Z) : bool :=
  (e_phoff h + psz * e_phnum h <=? size) && (e_shoff h + ssz * e_shnum h <=? size).
Definition valid32 (m : bmem) (file size : Z) : bool :=
  (52 <=? size) && check_bytes m file ELFMAG && head_ok (hdr32 m file) ELFCLASS32 32 40.
Definition valid64 (m : bmem) (file size : Z) : bool :=
  (64 <=? size) && check_bytes m file ELFMAG && head_ok (hdr64 m file) ELFCLASS64 56 64.
Definition elf_file (m : bmem) (file size : Z) : option elf_t :=
  if valid32 m file size && tables_ok (hdr32 m file) 32 40 size then Some (mkElf file size ELFCLASS32)
  else if valid64 m file size && tables_ok (hdr64 m file) 56 64 size then Some (mkElf file size ELFCLASS64)
  else None.

Lemma byte_eq (b c : Z) : (b =? c) = bool_decide (Some b = Some c).
Proof. apply eq_true_iff_eq. rewrite Z.eqb_eq, bool_decide_eq_true. split; [by intros -> | by intros [= ->]]. Qed.

Lemma magic_at m file size l off : file_mem m file size -> 0 <= off -> off + Z.of_nat (length l) <= size ->
  memcmp_const (w64 (file + off)) l m = inl (negb (check_bytes m (file + off) l), m).
Proof.
  intros HF. pose proof HF as [_ (H0 & H1 & H2) _]. revert off. induction l as [|c l IH]; intros off Ho Hl; [done |]. cbn [memcmp_const check_bytes length] in *.
  unfold bind at 1. rewrite (load8_file m file size) by (done || lia). unfold bind.
  destruct l as [|c' l]; [|replace (w64 (w64 (file + off) + 1)) with (w64 (file + (off + 1))) by (unfold w64; rewrite !Z.mod_small by (cbn [length] in Hl; lia); lia); rewrite IH by (cbn [length] in *; lia)].
  all: destruct (fm_mapped _ _ _ HF off ltac:(lia)) as [b E]; rewrite E; unfold ret; do 2 f_equal; cbn [default from_option]; rewrite negb_andb, byte_eq.
  - done.
  - by replace (file + (off + 1)) with (file + off + 1) by lia.
Qed.

Lemma table_check off len size : 0 <= off < 2 ^ 64 -> 0 <= len < 2 ^ 64 -> 0 <= size < 2 ^ 64 ->
  (size <? w64 (off + len)) || (w64 (off + len) <? off) = negb (off + len <=? size).
Proof.
  intros Ho Hl Hs. unfold w64. destruct (decide (off + len < 2 ^ 64)).
  - rewrite Z.mod_small by lia. rewrite (proj2 (Z.ltb_ge (off + len) off)) by lia. by rewrite orb_false_r, Z.ltb_antisym.
  - replace ((off + len) mod 2 ^ 64) with (off + len - 2 ^ 64) by (apply (Z.mod_unique_pos _ _ 1); lia).
    rewrite (proj2 (Z.ltb_lt _ off)) by lia. rewrite (proj2 (Z.leb_gt (off + len) size)) by lia. by rewrite orb_true_r.
Qed.

Lemma hdr32_bounds m a : bytes_ok m -> let h := hdr32 m a in 0 <= e_phoff h < 2 ^ 32 /\ 0 <= e_shoff h < 2 ^ 32 /\ 0 <= e_phnum h < 2 ^ 16 /\ 0 <= e_shnum h < 2 ^ 16 /\ 0 <= e_shstrndx h.
Proof.
  intros Hb h. unfold h, hdr32. cbn [e_phoff e_shoff e_phnum e_shnum e_shstrndx].
  pose proof (le_bound m 4 (a + 28) Hb). pose proof (le_bound m 4 (a + 32) Hb). pose proof (le_bound m 2 (a + 44) Hb). pose proof (le_bound m 2 (a + 48) Hb). pose proof (le_bound m 2 (a + 50) Hb). lia.
Qed.
Lemma hdr64_bounds m a : bytes_ok m -> let h := hdr64 m a in 0 <= e_phoff h < 2 ^ 64 /\ 0 <= e_shoff h < 2 ^ 64 /\ 0 <= e_phnum h < 2 ^ 16 /\ 0 <= e_shnum h < 2 ^ 16 /\ 0 <= e_shstrndx h.
Proof.
  intros Hb h. unfold h, hdr64. cbn [e_phoff e_shoff e_phnum e_shnum e_shstrndx].
  pose proof (le_bound m 8 (a + 32) Hb). pose proof (le_bound m 8 (a + 40) Hb). pose proof (le_bound m 2 (a + 56) Hb). pose proof (le_bound m 2 (a + 60) Hb). pose proof (le_bound m 2 (a + 62) Hb). lia.
Qed.

Lemma checkFile32 m file size c : file_mem m file size -> elf32_checkFile (mkElf file size c) m =
  inl (if valid32 m file size then (0, mkElf file size ELFCLASS32) else (-1, mkElf file size c), m).
Proof.
  intros HF. unfold elf32_checkFile, valid32, sizeof_Elf32_Ehdr. cbn [elfSize elfFile]. rewrite Z.ltb_antisym. destruct (52 <=? size) eqn:E; [|done]. cbn [negb andb]. apply Z.leb_le in E.
  unfold elf_check_magic, bind. replace file with (w64 (file + 0)) at 1 by (destruct HF as [_ ? _]; unfold w64; rewrite Z.mod_small; lia).
  rewrite (magic_at m file size) by (done || simpl; lia). rewrite Z.add_0_r. destruct (check_bytes m file ELFMAG); [|done]. unfold ret. cbn [negb andb Z.ltb Z.compare].
  rewrite getHeader32 by done. cbn [elfFile]. unfold head_ok, sizeof_Elf32_Phdr, sizeof_Elf32_Shdr. destruct (e_class _ =? ELFCLASS32) eqn:Ec; [|done]. cbn [negb andb].
  apply Z.eqb_eq in Ec. rewrite Ec. destruct (_ =? 32); [|done]. destruct (_ =? 40); [|done]. cbn [negb andb]. rewrite Z.geb_leb, Z.ltb_antisym. by destruct (_ <=? _).
Qed.
Lemma checkFile64 m file size c : file_mem m file size -> elf64_checkFile (mkElf file size c) m =
  inl (if valid64 m file size then (0, mkElf file size ELFCLASS64) else (-1, mkElf file size c), m).
Proof.
  intros HF. unfold elf64_checkFile, valid64, sizeof_Elf64_Ehdr. cbn [elfSize elfFile]. rewrite Z.ltb_antisym. destruct (64 <=? size) eqn:E; [|done]. cbn [negb andb]. apply Z.leb_le in E.
  unfold elf_check_magic, bind. replace file with (w64 (file + 0)) at 1 by (destruct HF as [_ ? _]; unfold w64; rewrite Z.mod_small; lia).
  rewrite (magic_at m file size) by (done || simpl; lia). rewrite Z.add_0_r. destruct (check_bytes m file ELFMAG); [|done]. unfold ret. cbn [negb andb Z.ltb Z.compare].
  rewrite getHeader64 by done. cbn [elfFile]. unfold head_ok, sizeof_Elf64_Phdr, sizeof_Elf64_Shdr. destruct (e_class _ =? ELFCLASS64) eqn:Ec; [|done]. cbn [negb andb].
  apply Z.eqb_eq in Ec. rewrite Ec. destruct (_ =? 56); [|done]. destruct (_ =? 64); [|done]. cbn [negb andb]. rewrite Z.geb_leb, Z.ltb_antisym. by destruct (_ <=? _).
Qed.

Lemma valid_exclusive m file size : valid32 m file size = true -> valid64 m file size = false.
Proof.
  unfold valid32, valid64, head_ok. cbn [e_class hdr32 hdr64]. intros H. repeat (apply andb_true_iff in H as [H ?]). repeat match goal with E : _ && _ = true |- _ => apply andb_true_iff in E as [E ?] end.
  match goal with E : (default 0 _ =? ELFCLASS32) = true |- _ => apply Z.eqb_eq in E; rewrite E end. unfold ELFCLASS32, ELFCLASS64. cbn [Z.eqb]. by rewrite !andb_false_l, !andb_false_r.
Qed.

Lemma head_sizes h class psz ssz : head_ok h class psz ssz = true -> e_phentsize h = psz /\ e_shentsize h = ssz /\ e_shstrndx h < e_shnum h.
Proof. unfold head_ok. rewrite !andb_true_iff, !Z.eqb_eq, Z.ltb_lt. tauto. Qed.
Lemma valid32_head m file size : valid32 m file size = true -> 52 <= size /\ head_ok (hdr32 m file) ELFCLASS32 32 40 = true.
Proof. unfold valid32. rewrite !andb_true_iff, Z.leb_le. tauto. Qed.
Lemma valid64_head m file size : valid64 m file size = true -> 64 <= size /\ head_ok (hdr64 m file) ELFCLASS64 56 64 = true.
Proof. unfold valid64. rewrite !andb_true_iff, Z.leb_le. tauto. Qed.

Definition status_of (b : bool) : Z := if b then 0 else -1.
Lemma tables32 m file size : file_mem m file size -> valid32 m file size = true -> let elf := mkElf file size ELFCLASS32 in let h := hdr32 m file in
  elf_checkProgramHeaderTable elf m = inl (status_of (e_phoff h + 32 * e_phnum h <=? size), m) /\
  elf_checkSectionTable elf m = inl (status_of (e_shoff h + 40 * e_shnum h <=? size), m).
Proof.
  intros HF Hv elf h. destruct (valid32_head _ _ _ Hv) as [Hs Hh]. destruct (head_sizes _ _ _ _ Hh) as (E1 & E2 & _).
  destruct (hdr32_bounds m file (fm_bytes _ _ _ HF)) as (B1 & B2 & B3 & B4 & _). pose proof (fm_range _ _ _ HF).
  split; (unfold elf_checkProgramHeaderTable, elf_checkSectionTable; change (elf_isElf32 elf) with true; cbn iota; unfold elf32_checkProgramHeaderTable, elf32_checkSectionTable, bind;
    rewrite getHeader32 by done; unfold ret; cbn [elfFile elfSize elf]; rewrite ?E1, ?E2, table_check by lia; by destruct (_ <=? size)).
Qed.
Lemma tables64 m file size : file_mem m file size -> valid64 m file size = true -> let elf := mkElf file size ELFCLASS64 in let h := hdr64 m file in
  elf_checkProgramHeaderTable elf m = inl (status_of (e_phoff h + 56 * e_phnum h <=? size), m) /\
  elf_checkSectionTable elf m = inl (status_of (e_shoff h + 64 * e_shnum h <=? size), m).
Proof.
  intros HF Hv elf h. destruct (valid64_head _ _ _ Hv) as [Hs Hh]. destruct (head_sizes _ _ _ _ Hh) as (E1 & E2 & _).
  destruct (hdr64_bounds m file (fm_bytes _ _ _ HF)) as (B1 & B2 & B3 & B4 & _). pose proof (fm_range _ _ _ HF).
  split; (unfold elf_checkProgramHeaderTable, elf_checkSectionTable; change (elf_isElf32 elf) with false; cbn iota; unfold elf64_checkProgramHeaderTable, elf64_checkSectionTable, bind;
    rewrite getHeader64 by done; unfold ret; cbn [elfFile elfSize elf]; rewrite ?E1, ?E2, table_check by lia; by destruct (_ <=? size)).
Qed.

Lemma newFile_eq m file size : file_mem m file size ->
  elf_newFile file size m = inl (match elf_file m file size with Some e => (0, Some e) | None => (-1, None) end, m).
Proof.
  intros HF. unfold elf_newFile, elf_newFile_maybe_unsafe, elf_checkFile, elf_file. unfold bind at 1 2. rewrite checkFile32 by done.
  destruct (valid32 m file size) eqn:E32.
  - rewrite (valid_exclusive _ _ _ E32). destruct (tables32 m file size HF E32) as [T1 T2]. unfold bind, ret. cbn [Z.eqb Z.ltb Z.compare andb]. rewrite T1. unfold tables_ok.
    destruct (_ <=? size); [|done]. cbn [status_of andb Z.ltb Z.compare]. rewrite T2. by destruct (_ <=? size).
  - cbn [Z.eqb andb]. unfold bind at 1. rewrite checkFile64 by done. destruct (valid64 m file size) eqn:E64; [|done].
    destruct (tables64 m file size HF E64) as [T1 T2]. unfold bind, ret. cbn [Z.eqb Z.ltb Z.compare andb]. rewrite T1. unfold tables_ok.
    destruct (_ <=? size); [|done]. cbn [status_of andb Z.ltb Z.compare]. rewrite T2. by destruct (_ <=? size).
Qed.


(** ** Reading a valid file *)

(** The header and the fields of the tables as numbers in memory. *)
Definition hdr (m : bmem) (elf : elf_t) : ehdr := if elf_isElf32 elf then hdr32 m (elfFile elf) else hdr64 m (elfFile elf).
Definition pfield (m : bmem) (elf : elf_t) (i o32 : Z) (n32 : nat) (o64 : Z) (n64 : nat) : Z :=
  if elf_isElf32 elf then le m n32 (elfFile elf + (e_phoff (hdr m elf) + i * 32 + o32)) else le m n64 (elfFile elf + (e_phoff (hdr m elf) + i * 56 + o64)).
Definition sfield (m : bmem) (elf : elf_t) (i o32 : Z) (n32 : nat) (o64 : Z) (n64 : nat) : Z :=
  if elf_isElf32 elf then le m n32 (elfFile elf + (e_shoff (hdr m elf) + i * 40 + o32)) else le m n64 (elfFile elf + (e_shoff (hdr m elf) + i * 64 + o64)).

(** What the other functions rely on. *)
Record elf_ok (m : bmem) (elf : elf_t) : Prop := {
  eo_mem : file_mem m (elfFile elf) (elfSize elf);
  eo_size : (if elf_isElf32 elf then 52 else 64) <= elfSize elf;
  eo_bounds : 0 <= e_phoff (hdr m elf) /\ 0 <= e_shoff (hdr m elf) /\ 0 <= e_phnum (hdr m elf) < 2 ^ 16 /\ 0 <= e_shnum (hdr m elf) < 2 ^ 16;
  eo_index : 0 <= e_shstrndx (hdr m elf) < e_shnum (hdr m elf);
  eo_ph : e_phoff (hdr m elf) + (if elf_isElf32 elf then 32 else 56) * e_phnum (hdr m elf) <= elfSize elf;
  eo_sh : e_shoff (hdr m elf) + (if elf_isElf32 elf then 40 else 64) * e_shnum (hdr m elf) <= elfSize elf }.

Lemma elf_file_ok m file size elf : file_mem m file size -> elf_file m file size = Some elf ->
  elf_ok m elf /\ elfFile elf = file /\ elfSize elf = size.
Proof.
  intros HF. unfold elf_file. destruct (valid32 m file size && _) eqn:E; [|destruct (valid64 m file size && _) eqn:E'; [|done]].
  - intros [= <-]. split; [|done]. apply andb_true_iff in E as [Hv Ht]. destruct (valid32_head _ _ _ Hv) as [Hs Hh]. destruct (head_sizes _ _ _ _ Hh) as (_ & _ & Hi).
    destruct (hdr32_bounds m file (fm_bytes _ _ _ HF)) as (B1 & B2 & B3 & B4 & B5). unfold tables_ok in Ht. rewrite andb_true_iff, !Z.leb_le in Ht. split; try done; change (hdr m _) with (hdr32 m file); try change (elf_isElf32 _) with true; cbn [elfSize]; lia.
  - intros [= <-]. split; [|done]. apply andb_true_iff in E' as [Hv Ht]. destruct (valid64_head _ _ _ Hv) as [Hs Hh]. destruct (head_sizes _ _ _ _ Hh) as (_ & _ & Hi).
    destruct (hdr64_bounds m file (fm_bytes _ _ _ HF)) as (B1 & B2 & B3 & B4 & B5). unfold tables_ok in Ht. rewrite andb_true_iff, !Z.leb_le in Ht. split; try done; change (hdr m _) with (hdr64 m file); try change (elf_isElf32 _) with false; cbn [elfSize]; lia.
Qed.

Section Valid.
Context (m : bmem) (elf : elf_t) (HE : elf_ok m elf).

Lemma table_read32 base i sz off n : 0 <= base -> 0 <= i -> 0 <= sz -> 0 <= off -> base + sz * i + off + Z.of_nat n <= elfSize elf ->
  load_le n (w64 (w64 (elfFile elf + base) + i * sz + off)) m = inl (le m n (elfFile elf + (base + i * sz + off)), m).
Proof using HE.
  intros. pose proof (eo_mem _ _ HE) as HF. pose proof (fm_range _ _ _ HF). destruct n as [|n]; [done |].
  replace (w64 (w64 (elfFile elf + base) + i * sz + off)) with (w64 (elfFile elf + (base + i * sz + off))) by (unfold w64; rewrite (Z.mod_small (elfFile elf + base)) by nia; f_equal; lia).
  apply (load_le_file m _ (elfSize elf)); [done | nia | lia].
Qed.

Lemma phdr_read i o32 n32 o64 n64 : 0 <= i < e_phnum (hdr m elf) -> 0 <= o32 -> o32 + Z.of_nat n32 <= 32 -> 0 <= o64 -> o64 + Z.of_nat n64 <= 56 ->
  (if elf_isElf32 elf then elf32_phdr elf i o32 n32 else elf64_phdr elf i o64 n64) m = inl (pfield m elf i o32 n32 o64 n64, m).
Proof using HE.
  intros Hi H1 H2 H3 H4. pose proof (eo_size _ _ HE) as Hs. pose proof (eo_ph _ _ HE) as Hp. pose proof (eo_bounds _ _ HE) as (Hb & _). unfold pfield, hdr in *.
  destruct (elf_isElf32 elf).
  - unfold elf32_phdr, elf32_getProgramHeaderTable, bind. rewrite getHeader32 by (apply HE || lia). unfold ret, sizeof_Elf32_Phdr. apply table_read32; lia.
  - unfold elf64_phdr, elf64_getProgramHeaderTable, bind. rewrite getHeader64 by (apply HE || lia). unfold ret, sizeof_Elf64_Phdr. apply table_read32; lia.
Qed.
Lemma shdr_read i o32 n32 o64 n64 : 0 <= i < e_shnum (hdr m elf) -> 0 <= o32 -> o32 + Z.of_nat n32 <= 40 -> 0 <= o64 -> o64 + Z.of_nat n64 <= 64 ->
  (if elf_isElf32 elf then elf32_shdr elf i o32 n32 else elf64_shdr elf i o64 n64) m = inl (sfield m elf i o32 n32 o64 n64, m).
Proof using HE.
  intros Hi H1 H2 H3 H4. pose proof (eo_size _ _ HE) as Hs. pose proof (eo_sh _ _ HE) as Hp. pose proof (eo_bounds _ _ HE) as (_ & Hb & _). unfold sfield, hdr in *.
  destruct (elf_isElf32 elf).
  - unfold elf32_shdr, elf32_getSectionTable, bind. rewrite getHeader32 by (apply HE || lia). unfold ret, sizeof_Elf32_Shdr. apply table_read32; lia.
  - unfold elf64_shdr, elf64_getSectionTable, bind. rewrite getHeader64 by (apply HE || lia). unfold ret, sizeof_Elf64_Shdr. apply table_read32; lia.
Qed.
Lemma counts_read : elf_getNumProgramHeaders elf m = inl (e_phnum (hdr m elf), m) /\ elf_getNumSections elf m = inl (e_shnum (hdr m elf), m) /\
  elf_getSectionStringTableIndex elf m = inl (e_shstrndx (hdr m elf), m) /\ elf_getEntryPoint elf m = inl (e_entry (hdr m elf), m).
Proof using HE.
  pose proof (eo_size _ _ HE) as Hs. unfold elf_getNumProgramHeaders, elf_getNumSections, elf_getSectionStringTableIndex, elf_getEntryPoint, hdr. destruct (elf_isElf32 elf).
  - unfold elf32_getNumProgramHeaders, elf32_getNumSections, elf32_getSectionStringTableIndex, elf32_getEntryPoint, bind. by rewrite !getHeader32 by (apply HE || lia).
  - unfold elf64_getNumProgramHeaders, elf64_getNumSections, elf64_getSectionStringTableIndex, elf64_getEntryPoint, bind. by rewrite !getHeader64 by (apply HE || lia).
Qed.
Lemma field_bound (b : bool) n n' a a' : (n <= 8)%nat -> (n' <= 8)%nat -> 0 <= (if b then le m n a else le m n' a') < 2 ^ 64.
Proof using HE.
  intros Hn Hn'. pose proof (fm_bytes _ _ _ (eo_mem _ _ HE)) as Hb. pose proof (le_bound m n a Hb). pose proof (le_bound m n' a' Hb).
  assert (256 ^ Z.of_nat n <= 2 ^ 64 /\ 256 ^ Z.of_nat n' <= 2 ^ 64) by (change (2 ^ 64) with (256 ^ 8); split; apply Z.pow_le_mono_r; lia). destruct b; lia.
Qed.
End Valid.

(** The accessors by number; each reads a number of at most 64 bits. *)
Definition program_fields : list (elf_t -> Z -> MB Z) :=
  [elf_getProgramHeaderType; elf_getProgramHeaderOffset; elf_getProgramHeaderVaddr; elf_getProgramHeaderPaddr;
   elf_getProgramHeaderFileSize; elf_getProgramHeaderMemorySize; elf_getProgramHeaderFlags; elf_getProgramHeaderAlign].
Definition section_fields : list (elf_t -> Z -> MB Z) :=
  [elf_getSectionNameOffset; elf_getSectionType; elf_getSectionFlags; elf_getSectionAddr; elf_getSectionOffset; elf_getSectionSize;
   elf_getSectionLink; elf_getSectionInfo; elf_getSectionAddrAlign; elf_getSectionEntrySize].
Definition reads_word (m : bmem) (c : MB Z) : Prop := exists v, c m = inl (v, m) /\ 0 <= v < 2 ^ 64.
(** [c] returns [NULL] or the address of [n] bytes of the file. *)
Definition inside_file (m : bmem) (elf : elf_t) (c : MB Z) (size : MB Z) : Prop :=
  exists p n, c m = inl (p, m) /\ size m = inl (n, m) /\ (p = 0 \/ elfFile elf <= p /\ p + n <= elfFile elf + elfSize elf).

Section Safe.
Context (m : bmem) (elf : elf_t) (HE : elf_ok m elf).

Lemma program_field_safe f i : f ∈ program_fields -> 0 <= i < e_phnum (hdr m elf) -> reads_word m (f elf i).
Proof using HE.
  intros Hf Hi. unfold program_fields in Hf. repeat (apply list.elem_of_cons in Hf as [-> | Hf]); [..| by apply not_elem_of_nil in Hf].
  all: eexists; split; [apply (phdr_read m elf HE i); (done || lia) | apply (field_bound m elf HE); lia].
Qed.
Lemma section_field_safe f i : f ∈ section_fields -> 0 <= i < e_shnum (hdr m elf) -> reads_word m (f elf i).
Proof using HE.
  intros Hf Hi. unfold section_fields in Hf. repeat (apply list.elem_of_cons in Hf as [-> | Hf]); [..| by apply not_elem_of_nil in Hf].
  all: eexists; split; [apply (shdr_read m elf HE i); (done || lia) | apply (field_bound m elf HE); lia].
Qed.

(** A range that passes the check lies in the file; only an empty one at its very
    end may be at address 0, behind the last address. *)
Lemma range_inside off n : 0 <= off < 2 ^ 64 -> 0 <= n < 2 ^ 64 -> (elfSize elf <? w64 (off + n)) || (w64 (off + n) <? off) = false ->
  off + n <= elfSize elf /\ (w64 (elfFile elf + off) = elfFile elf + off \/ w64 (elfFile elf + off) = 0).
Proof using HE.
  intros Ho Hn Hc. pose proof (fm_range _ _ _ (eo_mem _ _ HE)). rewrite table_check in Hc by lia. apply negb_false_iff, Z.leb_le in Hc. split; [done |].
  unfold w64. destruct (decide (elfFile elf + off < 2 ^ 64)); [left; rewrite Z.mod_small; lia |]. right. replace (elfFile elf + off) with (2 ^ 64) by lia. by rewrite Z.mod_same.
Qed.

Lemma segment_inside i : 0 <= i < e_phnum (hdr m elf) -> inside_file m elf (elf_getProgramSegment elf i) (elf_getProgramHeaderFileSize elf i).
Proof using HE.
  intros Hi. destruct (program_field_safe elf_getProgramHeaderOffset i (list_elem_of_lookup_2 program_fields 1 _ eq_refl) Hi) as (off & Eo & Ho).
  destruct (program_field_safe elf_getProgramHeaderFileSize i (list_elem_of_lookup_2 program_fields 4 _ eq_refl) Hi) as (n & En & Hn).
  unfold inside_file, elf_getProgramSegment, bind. rewrite Eo, En. destruct (_ || _) eqn:Ec; [by exists 0, n; eauto |].
  destruct (range_inside off n Ho Hn Ec) as [Hin [-> | ->]]; (eexists _, n; split; [done |]; split; [done |]; first [right; lia | by left]).
Qed.
Lemma section_inside i : 0 <= i < e_shnum (hdr m elf) -> inside_file m elf (elf_getSection elf i) (elf_getSectionSize elf i).
Proof using HE.
  intros Hi. destruct (section_field_safe elf_getSectionOffset i (list_elem_of_lookup_2 section_fields 4 _ eq_refl) Hi) as (off & Eo & Ho).
  destruct (section_field_safe elf_getSectionSize i (list_elem_of_lookup_2 section_fields 5 _ eq_refl) Hi) as (n & En & Hn). destruct (counts_read m elf HE) as (_ & Ec & _).
  unfold inside_file, elf_getSection, bind. rewrite Ec. destruct (_ || _); [by exists 0, n; eauto |]. rewrite Eo, En. destruct (n =? 0); [by exists 0, n; eauto |].
  rewrite Z.gtb_ltb. destruct (_ || _) eqn:Er; [by exists 0, n; eauto |].
  destruct (range_inside off n Ho Hn Er) as [Hin [-> | ->]]; (eexists _, n; split; [done |]; split; [done |]; first [right; lia | by left]).
Qed.
End Safe.

(** Once [elf_newFile] has accepted a file, no accessor reads outside it: every
    field of every program header and section is there, and the segments and
    sections handed out lie in the file completely, even when an offset plus a
    size overflows. *)
Theorem elf_accessors_safe (m : bmem) (file size : Z) (elf : elf_t) : file_mem m file size ->
  elf_newFile file size m = inl ((0, Some elf), m) ->
  exists np ns sx, elf_getNumProgramHeaders elf m = inl (np, m) /\ elf_getNumSections elf m = inl (ns, m) /\
    elf_getSectionStringTableIndex elf m = inl (sx, m) /\ 0 <= sx < ns /\
    (forall i, 0 <= i < np -> (forall f, f ∈ program_fields -> reads_word m (f elf i)) /\
       inside_file m elf (elf_getProgramSegment elf i) (elf_getProgramHeaderFileSize elf i)) /\
    (forall i, 0 <= i < ns -> (forall f, f ∈ section_fields -> reads_word m (f elf i)) /\
       inside_file m elf (elf_getSection elf i) (elf_getSectionSize elf i)).
Proof.
  intros HF Hn. rewrite newFile_eq in Hn by done. destruct (elf_file m file size) as [e|] eqn:Ef; [|done]. injection Hn as ->.
  destruct (elf_file_ok _ _ _ _ HF Ef) as (HE & _). destruct (counts_read m elf HE) as (E1 & E2 & E3 & _).
  eexists _, _, _. split_and!; [exact E1 | exact E2 | exact E3 | apply HE | apply HE | |].
  - intros i Hi. split; [intros f Hf; by apply program_field_safe | by apply segment_inside].
  - intros i Hi. split; [intros f Hf; by apply section_field_safe | by apply section_inside].
Qed.
