(* ===== verification/ElfLoad.v ===== *)
(** * Loading with the ELF library

    [elf_loadFile] puts every segment where the file says; a file for which
    looking up a section by name reads behind the end; and example files. *)

From S2P Require Import Prelude Bytes ElfFile.

(** ** Copying *)

(** Byte [a] of memory after [n] bytes have been put at [dest], byte [j] being [v j]. *)
Definition fills (m m' : bmem) (dest n : Z) (v : Z -> option Z) : Prop :=
  forall a, m' !! a = if decide (dest <= a < dest + n) then v (a - dest) else m !! a.

Lemma fills_nil m dest v : fills m m dest 0 v.
Proof. intros a. rewrite decide_False by lia. done. Qed.
Lemma fills_cons m m1 m' dest n v : fills m m1 dest 1 v -> fills m1 m' (dest + 1) n (fun j => v (j + 1)) -> 0 <= n -> fills m m' dest (n + 1) v.
Proof.
  intros H1 H2 Hn a. rewrite H2. destruct (decide (dest + 1 <= a < dest + 1 + n)).
  - rewrite decide_True by lia. f_equal. lia.
  - rewrite H1. destruct (decide (dest <= a < dest + 1)); [rewrite decide_True by lia | rewrite decide_False by lia]; done.
Qed.

Lemma store8_fills m a b : is_Some (m !! a) -> exists m', store8 a b m = inl (tt, m') /\ fills m m' a 1 (fun _ => Some b).
Proof.
  intros [x E]. unfold store8. rewrite E. eexists. split; [done |]. intros a'. destruct (decide (a <= a' < a + 1)) as [H|H].
  - replace a' with a by lia. apply lookup_insert_eq.
  - apply lookup_insert_ne. lia.
Qed.

Lemma memset_fills n m dest c : 0 <= dest -> dest + Z.of_nat n <= 2 ^ 64 -> mapped m dest (Z.of_nat n) ->
  exists m', memset (w64 dest) c n m = inl (tt, m') /\ fills m m' dest (Z.of_nat n) (fun _ => Some c).
Proof.
  revert m dest. induction n as [|n IH]; intros m dest H0 H1 Hm; [eexists; split; [done | apply fills_nil] |]. cbn [memset]. unfold bind.
  assert (w64 dest = dest) as Ed by (unfold w64; rewrite Z.mod_small; lia). rewrite Ed.
  destruct (store8_fills m dest c) as (m1 & E1 & F1); [rewrite <- (Z.add_0_r dest); apply Hm; lia |]. rewrite E1.
  destruct (IH m1 (dest + 1)) as (m' & E' & F'); [lia | lia | |].
  - intros i Hi. rewrite F1. rewrite decide_False by lia. replace (dest + 1 + i) with (dest + (i + 1)) by lia. apply Hm. lia.
  - exists m'. split; [done |]. replace (Z.of_nat (S n)) with (Z.of_nat n + 1) by lia. by apply (fills_cons m m1); [| |lia].
Qed.

(** Between ranges that do not overlap. *)
Lemma memcpy_fills n m dest src : 0 <= dest -> dest + Z.of_nat n <= 2 ^ 64 -> 0 <= src -> src + Z.of_nat n <= 2 ^ 64 ->
  dest + Z.of_nat n <= src \/ src + Z.of_nat n <= dest \/ n = 0%nat -> mapped m dest (Z.of_nat n) -> mapped m src (Z.of_nat n) ->
  exists m', memcpy (w64 dest) (w64 src) n m = inl (tt, m') /\ fills m m' dest (Z.of_nat n) (fun j => m !! (src + j)).
Proof.
  revert m dest src. induction n as [|n IH]; intros m dest src H0 H1 H2 H3 Hd Hm Hs; [eexists; split; [done | apply fills_nil] |]. cbn [memcpy]. unfold bind.
  assert (w64 dest = dest /\ w64 src = src) as [Ed Es] by (unfold w64; rewrite !Z.mod_small; lia). rewrite Ed, Es.
  assert (is_Some (m !! src)) as [b Eb] by (rewrite <- (Z.add_0_r src); apply Hs; lia). unfold load8. rewrite Eb.
  destruct (store8_fills m dest b) as (m1 & E1 & F1); [rewrite <- (Z.add_0_r dest); apply Hm; lia |]. rewrite E1.
  destruct (IH m1 (dest + 1) (src + 1)) as (m' & E' & F'); try lia.
  - intros i Hi. rewrite F1, decide_False by lia. replace (dest + 1 + i) with (dest + (i + 1)) by lia. apply Hm. lia.
  - intros i Hi. rewrite F1, decide_False by lia. replace (src + 1 + i) with (src + (i + 1)) by lia. apply Hs. lia.
  - exists m'. split; [done |]. replace (Z.of_nat (S n)) with (Z.of_nat n + 1) by lia. apply (fills_cons m m1); [| |lia].
    + intros a. rewrite F1. destruct (decide (dest <= a < dest + 1)); [|done]. replace (a - dest) with 0 by lia. by rewrite Z.add_0_r.
    + intros a. rewrite F'. destruct (decide _); [|done]. rewrite F1, decide_False by lia. f_equal. lia.
Qed.

(** ** Memory that still has the file *)
Definition same_file (elf : elf_t) (m m' : bmem) : Prop := forall a, elfFile elf <= a < elfFile elf + elfSize elf -> m' !! a = m !! a.

Lemma le_same m m' n a : (forall i, 0 <= i < Z.of_nat n -> m' !! (a + i) = m !! (a + i)) -> le m' n a = le m n a.
Proof.
  revert a. induction n as [|n IH]; intros a Hs; [done |]. cbn [le]. rewrite IH.
  - pose proof (Hs 0 ltac:(lia)) as E. rewrite Z.add_0_r in E. by rewrite E.
  - intros i Hi. replace (a + 1 + i) with (a + (i + 1)) by lia. apply Hs. lia.
Qed.

Lemma hdr_same m m' elf : same_file elf m m' -> elf_ok m elf -> hdr m' elf = hdr m elf.
Proof.
  intros Hs HE. pose proof (eo_size _ _ HE) as Hz. unfold hdr in *. destruct (elf_isElf32 elf).
  - unfold hdr32. rewrite (Hs (elfFile elf + 4)) by lia. by rewrite !(le_same m m') by (intros; apply Hs; lia).
  - unfold hdr64. rewrite (Hs (elfFile elf + 4)) by lia. by rewrite !(le_same m m') by (intros; apply Hs; lia).
Qed.
Lemma pfield_same m m' elf i o32 n32 o64 n64 : same_file elf m m' -> elf_ok m elf -> 0 <= i < e_phnum (hdr m elf) ->
  0 <= o32 -> o32 + Z.of_nat n32 <= 32 -> 0 <= o64 -> o64 + Z.of_nat n64 <= 56 -> pfield m' elf i o32 n32 o64 n64 = pfield m elf i o32 n32 o64 n64.
Proof.
  intros Hs HE Hi H1 H2 H3 H4. pose proof (eo_ph _ _ HE) as Hp. pose proof (eo_bounds _ _ HE) as (Hb & _). unfold pfield. rewrite (hdr_same m m' elf) by done.
  destruct (elf_isElf32 elf); apply le_same; intros j Hj; apply Hs; lia.
Qed.
Lemma elf_ok_same m m' elf : same_file elf m m' -> bytes_ok m' -> elf_ok m elf -> elf_ok m' elf.
Proof.
  intros Hs Hb HE. pose proof (hdr_same m m' elf Hs HE) as Eh. destruct HE as [[H1 H2 _] H3 H4 H5 H6 H7]. split; rewrite ?Eh; try done.
  split; [|done | done]. intros i Hi. rewrite Hs by lia. by apply H1.
Qed.

(** ** Segments *)
Record segment := mkSegment { sg_dest : Z; sg_off : Z; sg_filesz : Z; sg_memsz : Z }.
Definition segment_of (m : bmem) (elf : elf_t) (ty : elf_addr_type_t) (i : Z) : segment :=
  mkSegment (match ty with PHYSICAL => pfield m elf i 12 4 24 8 | VIRTUAL => pfield m elf i 8 4 16 8 end)
    (pfield m elf i 4 4 8 8) (pfield m elf i 16 4 32 8) (pfield m elf i 20 4 40 8).
(** Byte [j] of a segment: from the file, or zero. *)
Definition segment_byte (m : bmem) (elf : elf_t) (s : segment) (j : Z) : option Z :=
  if j <? sg_filesz s then m !! (elfFile elf + sg_off s + j) else Some 0.
(** A segment with its bytes in the file and room for them elsewhere. *)
Record segment_ok (m : bmem) (elf : elf_t) (s : segment) : Prop := {
  so_sizes : (0 <= sg_filesz s <= sg_memsz s /\ sg_memsz s < 2 ^ 64) /\ 0 <= sg_off s /\ sg_off s + sg_filesz s <= elfSize elf;
  so_room : 0 <= sg_dest s < 2 ^ 64 /\ sg_dest s + sg_memsz s <= 2 ^ 64 /\ mapped m (sg_dest s) (sg_memsz s);
  so_apart : sg_dest s + sg_memsz s <= elfFile elf \/ elfFile elf + elfSize elf <= sg_dest s }.

Lemma segment_same m m' elf ty i : same_file elf m m' -> elf_ok m elf -> 0 <= i < e_phnum (hdr m elf) -> segment_of m' elf ty i = segment_of m elf ty i.
Proof. intros Hs HE Hi. unfold segment_of. destruct ty; by rewrite !(pfield_same m m') by (done || lia). Qed.

Lemma segment_reads m elf ty i : elf_ok m elf -> 0 <= i < e_phnum (hdr m elf) -> let s := segment_of m elf ty i in
  elf_segment_addr elf ty i m = inl (sg_dest s, m) /\ elf_getProgramHeaderFileSize elf i m = inl (sg_filesz s, m) /\
  elf_getProgramHeaderOffset elf i m = inl (sg_off s, m) /\ elf_getProgramHeaderMemorySize elf i m = inl (sg_memsz s, m).
Proof.
  intros HE Hi s. split_and!; [destruct ty | ..]; apply (phdr_read m elf HE i); (done || lia).
Qed.

Lemma fills_bytes m m' dest n v : bytes_ok m -> fills m m' dest n v -> (forall j b, 0 <= j < n -> v j = Some b -> 0 <= b < 256) -> bytes_ok m'.
Proof. intros Hb Hf Hv a b E. rewrite Hf in E. destruct (decide _); [apply (Hv (a - dest) b); [lia | done] | by apply (Hb a b)]. Qed.
Lemma fills_apart m m' elf dest n v : fills m m' dest n v -> dest + n <= elfFile elf \/ elfFile elf + elfSize elf <= dest -> same_file elf m m'.
Proof. intros Hf Ha a H. rewrite Hf. rewrite decide_False by lia. done. Qed.

Lemma load_segment_fills m elf ty i : elf_ok m elf -> 0 <= i < e_phnum (hdr m elf) -> let s := segment_of m elf ty i in segment_ok m elf s ->
  exists m', load_segment elf ty i m = inl (tt, m') /\ fills m m' (sg_dest s) (sg_memsz s) (segment_byte m elf s).
Proof.
  intros HE Hi s [(Hz & Ho & Hin) (H0 & H1 & Hm) Hap]. destruct (segment_reads m elf ty i HE Hi) as (R1 & R2 & R3 & R4). fold s in R1, R2, R3, R4.
  pose proof (eo_mem _ _ HE) as HF. pose proof (fm_range _ _ _ HF) as Hr. unfold load_segment, bind. rewrite R1, R2, R3.
  destruct (memcpy_fills (Z.to_nat (sg_filesz s)) m (sg_dest s) (elfFile elf + sg_off s)) as (m1 & E1 & F1); rewrite ?Z2Nat.id by lia; [lia.. | | | |].
  { destruct (decide (sg_filesz s = 0)) as [E|E]; [right; right; by rewrite E | lia]. }
  { intros j Hj. apply Hm. lia. }
  { intros j Hj. rewrite <- Z.add_assoc. apply (fm_mapped _ _ _ HF). lia. }
  rewrite Z2Nat.id in F1 by lia. assert (w64 (sg_dest s) = sg_dest s) as Ed by (unfold w64; apply Z.mod_small; lia). rewrite Ed in E1. rewrite E1.
  assert (same_file elf m m1) as Hs by (apply (fills_apart _ _ _ _ _ _ F1); lia).
  assert (bytes_ok m1) as Hb1.
  { apply (fills_bytes _ _ _ _ _ (fm_bytes _ _ _ HF) F1). intros j b _. apply (fm_bytes _ _ _ HF). }
  destruct (segment_reads m1 elf ty i (elf_ok_same _ _ _ Hs Hb1 HE)) as (_ & _ & _ & R4'); [by rewrite (hdr_same m m1) |].
  rewrite (segment_same m m1) in R4' by done. fold s in R4'. rewrite R4'.
  assert (w64 (sg_memsz s - sg_filesz s) = sg_memsz s - sg_filesz s) as -> by (unfold w64; apply Z.mod_small; lia).
  destruct (memset_fills (Z.to_nat (sg_memsz s - sg_filesz s)) m1 (sg_dest s + sg_filesz s) 0) as (m2 & E2 & F2); rewrite ?Z2Nat.id by lia; [lia.. | |].
  { intros j Hj. rewrite F1. rewrite decide_False by lia. rewrite <- Z.add_assoc. apply Hm. lia. }
  rewrite E2. exists m2. split; [done |]. rewrite Z2Nat.id in F2 by lia. intros a. rewrite F2, F1. unfold segment_byte.
  destruct (decide (sg_dest s <= a < sg_dest s + sg_memsz s)).
  - destruct (Z.ltb_spec (a - sg_dest s) (sg_filesz s)); [rewrite decide_False by lia; by rewrite decide_True by lia | by rewrite decide_True by lia].
  - by rewrite !decide_False by lia.
Qed.

(** ** The whole file *)
(** Byte [a] after the segments have been put in memory in their order: where they overlap, the last one has it. *)
Definition loaded_byte (m : bmem) (elf : elf_t) (ss : list segment) (a : Z) : option Z :=
  fold_left (fun b s => if decide (sg_dest s <= a < sg_dest s + sg_memsz s) then segment_byte m elf s (a - sg_dest s) else b) ss (m !! a).
Definition segments (m : bmem) (elf : elf_t) (ty : elf_addr_type_t) : list segment :=
  map (segment_of m elf ty) (seqZ 0 (e_phnum (hdr m elf))).
Definition loadable (m : bmem) (elf : elf_t) (ty : elf_addr_type_t) : Prop := Forall (segment_ok m elf) (segments m elf ty).

(** The memory after the segments before [i]. *)
Record loaded (m0 m : bmem) (elf : elf_t) (ty : elf_addr_type_t) (i : Z) : Prop := {
  ld_file : same_file elf m0 m;
  ld_bytes : bytes_ok m;
  ld_mapped : forall a, is_Some (m0 !! a) -> is_Some (m !! a);
  ld_byte : forall a, m !! a = loaded_byte m0 elf (map (segment_of m0 elf ty) (seqZ 0 i)) a }.

Lemma segment_ok_same m m' elf s : (forall a, is_Some (m !! a) -> is_Some (m' !! a)) -> segment_ok m elf s -> segment_ok m' elf s.
Proof. intros Hm [H1 (H2 & H3 & H4) H5]. split; try done. split_and!; try done; try lia. intros j Hj. by apply Hm, H4. Qed.

Lemma loaded_next m0 m elf ty i : elf_ok m0 elf -> loadable m0 elf ty -> 0 <= i < e_phnum (hdr m0 elf) -> loaded m0 m elf ty i ->
  exists m', load_segment elf ty i m = inl (tt, m') /\ loaded m0 m' elf ty (i + 1).
Proof.
  intros HE HL Hi [Hs Hb Hm Hy]. set (s := segment_of m0 elf ty i).
  assert (segment_ok m0 elf s) as Hok by (apply (proj1 (list.Forall_forall _ _) HL); apply (list_elem_of_fmap_2 (segment_of m0 elf ty)), elem_of_seqZ; lia).
  pose proof (elf_ok_same _ _ _ Hs Hb HE) as HE'. pose proof (segment_same m0 m elf ty i Hs HE Hi) as Eg.
  destruct (load_segment_fills m elf ty i HE') as (m' & E & F); [by rewrite (hdr_same m0 m) | rewrite Eg; by apply (segment_ok_same m0) |].
  rewrite Eg in F. fold s in F. destruct Hok as [(Hz & Ho & Hin) (H0 & H1 & Hmap) Hap]. exists m'. split; [done |].
  assert (forall j, segment_byte m elf s j = segment_byte m0 elf s j \/ j < 0) as Hsb.
  { intros j. unfold segment_byte. destruct (Z.ltb_spec j (sg_filesz s)); [|by left]. destruct (decide (j < 0)); [by right | left]. apply Hs. lia. }
  split.
  - intros a Ha. rewrite F. rewrite decide_False by lia. by apply Hs.
  - apply (fills_bytes _ _ _ _ _ Hb F). intros j b _. unfold segment_byte. destruct (j <? sg_filesz s); [apply Hb | intros [= <-]; lia].
  - intros a Ha. rewrite F. destruct (decide _); [|by apply Hm]. unfold segment_byte. destruct (Z.ltb_spec (a - sg_dest s) (sg_filesz s)); [|done].
    apply Hm. rewrite <- Z.add_assoc. apply (fm_mapped _ _ _ (eo_mem _ _ HE)). lia.
  - intros a. rewrite F. rewrite seqZ_app, map_app by lia. unfold loaded_byte. rewrite fold_left_app. cbn [map fold_left seqZ].
    rewrite Z.add_0_l. change (seqZ i 1) with [0 + i]. cbn [map fold_left]. rewrite Z.add_0_l. fold s. rewrite Hy. destruct (decide _); [|done].
    destruct (Hsb (a - sg_dest s)) as [|]; [done | lia].
Qed.

Lemma load_loop_loaded m0 elf ty fuel m i : elf_ok m0 elf -> loadable m0 elf ty -> 0 <= i <= e_phnum (hdr m0 elf) -> loaded m0 m elf ty i ->
  e_phnum (hdr m0 elf) - i < Z.of_nat fuel -> exists m', load_loop fuel elf ty i m = inl (1, m') /\ loaded m0 m' elf ty (e_phnum (hdr m0 elf)).
Proof.
  intros HE HL. revert m i. induction fuel as [|fuel IH]; intros m i Hi Hl Hf; [lia |]. cbn [load_loop]. unfold bind.
  pose proof (elf_ok_same _ _ _ (ld_file _ _ _ _ _ Hl) (ld_bytes _ _ _ _ _ Hl) HE) as HE'.
  destruct (counts_read m elf HE') as (-> & _). rewrite (hdr_same m0 m) by (done || apply Hl). destruct (Z.ltb_spec i (e_phnum (hdr m0 elf))) as [Hlt|Hge].
  - destruct (loaded_next m0 m elf ty i HE HL) as (m1 & E & Hl'); [lia | done |]. rewrite E. apply IH; [lia | done | lia].
  - replace i with (e_phnum (hdr m0 elf)) in Hl by lia. by exists m.
Qed.

Lemma loaded_none m elf ty : bytes_ok m -> loaded m m elf ty 0.
Proof. by split. Qed.


(** ** An example *)
(** A number as [n] bytes, the lowest first. *)
Fixpoint le_bytes (n : nat) (v : Z) : list Z := match n with O => [] | S n => v `mod` 256 :: le_bytes n (v / 256) end.
Definition words (l : list (Z * Z)) : list Z := concat (map (fun '(n, v) => le_bytes (Z.to_nat n) v) l).
(** Header, a segment of four bytes that takes eight in memory, two sections (the
    first one's name starting at [name]), the four bytes, a string table of one zero. *)
Definition demo_elf (name : Z) : list Z :=
  [0x7f; 69; 76; 70; 2; 1; 1; 0; 0; 0; 0; 0; 0; 0; 0; 0] ++
  words [(2, 2); (2, 183); (4, 1); (8, 0x400000); (8, 64); (8, 120); (4, 0); (2, 64); (2, 56); (2, 1); (2, 64); (2, 2); (2, 1)] ++
  words [(4, 1); (4, 5); (8, 248); (8, 0x400000); (8, 0x80000); (8, 4); (8, 8); (8, 4096)] ++
  words [(4, name); (4, 0); (8, 0); (8, 0); (8, 0); (8, 0); (4, 0); (4, 0); (8, 0); (8, 0)] ++
  words [(4, 0); (4, 3); (8, 0); (8, 0); (8, 252); (8, 1); (4, 0); (4, 0); (8, 1); (8, 0)] ++
  [1; 2; 3; 4] ++ [0].
Definition elf_mem (name : Z) : bmem := put_bytes 0x1000 (demo_elf name) (put_bytes 0x400000 (repeat 255 16) ∅).
Definition demo_elf_t : elf_t := mkElf 0x1000 253 2.

Lemma bytes_ok_list (m : bmem) : forallb (fun '(_, b) => (0 <=? b) && (b <? 256)) (map_to_list m) = true -> bytes_ok m.
Proof.
  intros H a b E. apply elem_of_map_to_list in E. rewrite forallb_forall in H. apply list_elem_of_In in E. specialize (H _ E). cbn in H. lia.
Qed.
Lemma mapped_list (m : bmem) a n : forallb (fun i => bool_decide (is_Some (m !! (a + i)))) (seqZ 0 n) = true -> mapped m a n.
Proof. intros H i Hi. rewrite forallb_forall in H. eapply bool_decide_eq_true_1, H, list_elem_of_In, elem_of_seqZ. lia. Qed.
Lemma elf_mem_file : file_mem (elf_mem 0) 0x1000 253 /\ file_mem (elf_mem 1) 0x1000 253.
Proof. split; (split; [by apply mapped_list; vm_compute | lia | by apply bytes_ok_list; vm_compute]). Qed.


Lemma demo_accepted : elf_newFile 0x1000 253 (elf_mem 0) = inl ((0, Some demo_elf_t), elf_mem 0).
Proof. vm_cast_no_check (@eq_refl (((Z * option elf_t) * bmem) + fault) (inl ((0, Some demo_elf_t), elf_mem 0))). Qed.

Lemma demo_headers : elf_getNumProgramHeaders demo_elf_t (elf_mem 0) = inl (1, elf_mem 0).
Proof. vm_cast_no_check (@eq_refl ((Z * bmem) + fault) (inl (1, elf_mem 0))). Qed.

(** Its only segment lies in the file, 248 bytes from the start. *)
Lemma elf_accessors_safe_witness : elf_getProgramSegment demo_elf_t 0 (elf_mem 0) = inl (0x1000 + 248, elf_mem 0) /\
  inside_file (elf_mem 0) demo_elf_t (elf_getProgramSegment demo_elf_t 0) (elf_getProgramHeaderFileSize demo_elf_t 0).
Proof.
  split; [vm_cast_no_check (@eq_refl ((Z * bmem) + fault) (inl (0x1000 + 248, elf_mem 0))) |].
  destruct (elf_accessors_safe (elf_mem 0) 0x1000 253 demo_elf_t (proj1 elf_mem_file) demo_accepted) as (np & ns & sx & E & _ & _ & _ & H & _).
  apply H. assert (np = 1) as -> by (rewrite demo_headers in E; congruence). lia.
Defined.


(** A section may say that its name starts right behind the string table: the
    test for a name outside the table lets that offset through.  The library then
    looks at the byte behind the file, which need not exist: looking up a section
    by its name in this file, which [elf_newFile] accepts, faults. *)
Theorem section_name_overrun : exists m file size elf str, file_mem m file size /\ elf_newFile file size m = inl ((0, Some elf), m) /\
  elf_getSectionName elf 0 m = inl (StrAt (file + size), m) /\ elf_getSectionNamed elf str m = inr OutOfBounds.
Proof.
  exists (elf_mem 1), 0x1000, 253, demo_elf_t, [46; 116; 0]. split; [apply elf_mem_file |]. split_and!.
  - vm_cast_no_check (@eq_refl (((Z * option elf_t) * bmem) + fault) (inl ((0, Some demo_elf_t), elf_mem 1))).
  - vm_cast_no_check (@eq_refl ((cstr * bmem) + fault) (inl (StrAt (0x1000 + 253), elf_mem 1))).
  - vm_cast_no_check (@eq_refl (((Z * option Z) * bmem) + fault) (inr OutOfBounds)).
Qed.
