(* ===== verification/FrameTable.v ===== *)
(** * The frame table

    Model of sos/src/frame_table.c.  Frames are entries of an array, linked into
    one of two doubly linked lists (free, allocated) by 19-bit indices.  The
    specification is a pair of abstract lists of frame references; the operations
    on the links are shown to be the obvious list operations. *)

From S2P Require Import Prelude SosState UtTable Bitfield Cspace CspaceInv Mapping Dma Bootstrap Sys.

Definition NULL_FRAME : Z := 0.
Definition sizeof_frame : Z := 8.

(** [frame_t *]: [NULL], or the address of an entry of [frame_table.frames]. *)
Definition frame_ptr : Type := option Z.

(** [&frame_table.free] and [&frame_table.allocated] *)
Inductive fl_ref := FlFree | FlAllocated.
#[export] Instance fl_ref_eq_dec : EqDecision fl_ref.
Proof. solve_decision. Defined.

(** Fresh pages of the table are zeroed by the kernel. *)
Definition zero_frame : frame_t := mkFrame 0 0 0 0.
Definition frame_at (t : frame_table_t) (i : Z) : frame_t := default zero_frame (frames t !! i).

(** Field assignments; the fields are bit fields of 20, 19, 19 and 2 bits. *)
Definition f_set_prev (x : Z) (f : frame_t) : frame_t :=
  mkFrame (sos_page f) (x mod 2 ^ 19) (next f) (list_id f).
Definition f_set_next (x : Z) (f : frame_t) : frame_t :=
  mkFrame (sos_page f) (prev f) (x mod 2 ^ 19) (list_id f).
Definition f_set_list_id (x : Z) (f : frame_t) : frame_t :=
  mkFrame (sos_page f) (prev f) (next f) (x mod 2 ^ 2).

Definition fl_set_first (x : Z) (l : frame_list_t) := mkFrameList (fl_id l) x (last l) (fl_length l).
Definition fl_set_last (x : Z) (l : frame_list_t) := mkFrameList (fl_id l) (first l) x (fl_length l).
Definition fl_add_length (d : Z) (l : frame_list_t) :=
  mkFrameList (fl_id l) (first l) (last l) (w64 (fl_length l + d)).

Definition ft_list (t : frame_table_t) (r : fl_ref) : frame_list_t :=
  match r with FlFree => ft_free t | FlAllocated => ft_allocated t end.
Definition ft_set_list (r : fl_ref) (l : frame_list_t) (t : frame_table_t) : frame_table_t :=
  match r with
  | FlFree => mkFrameTable (frames t) (ft_capacity t) (ft_used t) (ft_byte_length t) l (ft_allocated t)
                (ft_cspace t) (ft_vspace t)
  | FlAllocated => mkFrameTable (frames t) (ft_capacity t) (ft_used t) (ft_byte_length t) (ft_free t) l
                (ft_cspace t) (ft_vspace t)
  end.
Definition ft_set_frame (i : Z) (f : frame_t) (t : frame_table_t) : frame_table_t :=
  mkFrameTable (<[i := f]> (frames t)) (ft_capacity t) (ft_used t) (ft_byte_length t) (ft_free t)
    (ft_allocated t) (ft_cspace t) (ft_vspace t).
Definition ft_set_used (x : Z) (t : frame_table_t) : frame_table_t :=
  mkFrameTable (frames t) (ft_capacity t) x (ft_byte_length t) (ft_free t) (ft_allocated t)
    (ft_cspace t) (ft_vspace t).
Definition ft_set_size (bytes cap : Z) (t : frame_table_t) : frame_table_t :=
  mkFrameTable (frames t) cap (ft_used t) bytes (ft_free t) (ft_allocated t) (ft_cspace t) (ft_vspace t).

Section Ops.
Context {K : Type} `{Env K}.
Abbreviation MS := (M (sos K)).

Definition ft_modify (f : frame_table_t -> frame_table_t) : MS unit :=
  modify (fun s => set_ft (f (s_ft s)) s).

(** [*frame] and assignments through [frame]; beyond the capacity there is no
    memory. *)
Definition frame_read (i : Z) : MS frame_t :=
  let* t := gets s_ft in
  if (0 <=? i) && (i <? ft_capacity t) then ret (frame_at t i) else fail OutOfBounds.
Definition frame_write (i : Z) (f : frame_t -> frame_t) : MS unit :=
  let* x := frame_read i in ft_modify (ft_set_frame i (f x)).

Definition list_write (r : fl_ref) (f : frame_list_t -> frame_list_t) : MS unit :=
  ft_modify (fun t => ft_set_list r (f (ft_list t r)) t).

Definition deref (p : frame_ptr) : MS Z := of_option NullDeref p.

Definition frame_table_init (cspace vspace : Z) : MS unit :=
  ft_modify (fun t => mkFrameTable (frames t) (ft_capacity t) (ft_used t) (ft_byte_length t)
                        (ft_free t) (ft_allocated t) cspace vspace).

Definition frame_table_cspace : MS Z := gets (fun s => ft_cspace (s_ft s)).

Definition frame_from_ref (frame_ref : Z) : MS Z :=
  do* assert_ (negb (frame_ref =? NULL_FRAME)) in
  let* t := gets s_ft in
  do* assert_ (frame_ref <? ft_capacity t) in
  ret frame_ref.

(** [NULL] is below the array. *)
Definition ref_from_frame (frame : frame_ptr) : MS Z :=
  let* t := gets s_ft in
  do* assert_ (bool_decide (is_Some frame)) in
  let* i := deref frame in
  do* assert_ (i <? ft_used t) in
  ret i.

Definition frame_data (frame_ref : Z) : MS Z :=
  do* assert_ (negb (frame_ref =? NULL_FRAME)) in
  let* t := gets s_ft in
  do* assert_ (frame_ref <? ft_capacity t) in
  ret (w64 (SOS_FRAME_DATA + frame_ref * BIT seL4_PageBits)).

Definition frame_page (frame_ref : Z) : MS Z :=
  let* frame := frame_from_ref frame_ref in
  let* f := frame_read frame in
  ret (sos_page f).

Definition flush_frame (frame_ref : Z) : MS unit :=
  let* frame := frame_from_ref frame_ref in
  let* f := frame_read frame in
  do* call (Page_Clean_Data (sos_page f) 0 (BIT seL4_PageBits)) in
  let* f := frame_read frame in
  do* call (Page_Unify_Instruction (sos_page f) 0 (BIT seL4_PageBits)) in
  ret tt.

Definition invalidate_frame (frame_ref : Z) : MS unit :=
  let* frame := frame_from_ref frame_ref in
  let* f := frame_read frame in
  do* call (Page_Invalidate_Data (sos_page f) 0 (BIT seL4_PageBits)) in
  ret tt.

(** The assertions at the top of [push_front] and [push_back]. *)
Definition assert_unlinked (frame : frame_ptr) : MS Z :=
  do* assert_ (bool_decide (is_Some frame)) in
  let* i := deref frame in
  let* f := frame_read i in
  do* assert_ (list_id f =? NO_LIST) in
  do* assert_ (next f =? NULL_FRAME) in
  do* assert_ (prev f =? NULL_FRAME) in
  ret i.

Definition push_front (list : fl_ref) (frame : frame_ptr) : MS unit :=
  let* i := assert_unlinked frame in
  let* frame_ref := ref_from_frame frame in
  let* t := gets s_ft in
  do* (if last (ft_list t list) =? NULL_FRAME
       then list_write list (fl_set_last frame_ref) else ret tt) in
  let* t := gets s_ft in
  do* frame_write i (f_set_next (first (ft_list t list))) in
  let* f := frame_read i in
  do* (if negb (next f =? NULL_FRAME) then
         let* n := frame_from_ref (next f) in
         frame_write n (f_set_prev frame_ref)
       else ret tt) in
  do* list_write list (fl_set_first frame_ref) in
  do* list_write list (fl_add_length 1) in
  let* t := gets s_ft in
  frame_write i (f_set_list_id (fl_id (ft_list t list))).

Definition push_back (list : fl_ref) (frame : frame_ptr) : MS unit :=
  let* i := assert_unlinked frame in
  let* frame_ref := ref_from_frame frame in
  let* t := gets s_ft in
  if negb (last (ft_list t list) =? NULL_FRAME) then
    let* l := frame_from_ref (last (ft_list t list)) in
    do* frame_write l (f_set_next frame_ref) in
    do* frame_write i (f_set_prev (last (ft_list t list))) in
    do* list_write list (fl_set_last frame_ref) in
    do* frame_write i (f_set_list_id (fl_id (ft_list t list))) in
    list_write list (fl_add_length 1)
  else push_front list frame.

Definition pop_front (list : fl_ref) : MS frame_ptr :=
  let* t := gets s_ft in
  let l := ft_list t list in
  if negb (first l =? NULL_FRAME) then
    let* head := frame_from_ref (first l) in
    do* (if last l =? first l then
           do* list_write list (fl_set_last NULL_FRAME) in
           let* f := frame_read head in
           assert_ (next f =? NULL_FRAME)
         else
           let* f := frame_read head in
           let* n := frame_from_ref (next f) in
           frame_write n (f_set_prev NULL_FRAME)) in
    let* f := frame_read head in
    do* list_write list (fl_set_first (next f)) in
    let* f := frame_read head in
    do* assert_ (prev f =? NULL_FRAME) in
    do* frame_write head (f_set_next NULL_FRAME) in
    do* frame_write head (f_set_list_id NO_LIST) in
    do* frame_write head (f_set_prev NULL_FRAME) in
    do* frame_write head (f_set_next NULL_FRAME) in
    do* list_write list (fl_add_length (-1)) in
    ret (Some head)
  else ret None.

Definition remove_frame (list : fl_ref) (frame : frame_ptr) : MS unit :=
  do* assert_ (bool_decide (is_Some frame)) in
  let* i := deref frame in
  let* f := frame_read i in
  let* t := gets s_ft in
  do* assert_ (list_id f =? fl_id (ft_list t list)) in
  let* f := frame_read i in
  do* (if negb (prev f =? NULL_FRAME) then
         let* pv := frame_from_ref (prev f) in
         frame_write pv (f_set_next (next f))
       else list_write list (fl_set_first (next f))) in
  let* f := frame_read i in
  do* (if negb (next f =? NULL_FRAME) then
         let* nx := frame_from_ref (next f) in
         frame_write nx (f_set_prev (prev f))
       else list_write list (fl_set_last (prev f))) in
  do* list_write list (fl_add_length (-1)) in
  do* frame_write i (f_set_list_id NO_LIST) in
  do* frame_write i (f_set_prev NULL_FRAME) in
  frame_write i (f_set_next NULL_FRAME).
End Ops.

(** [CONFIG_SOS_FRAME_LIMIT] is a build option; 0 is no limit. *)
Section Alloc.
Context {K : Type} `{Env K} (FRAME_LIMIT : Z).
Abbreviation MS := (M (sos K)).

Definition alloc_frame_at (vaddr : Z) : MS Z :=
  let* '(ut, _) := ut_alloc_4k_untyped in
  if ut =? 0 then ret seL4_CapNull
  else
    let* t := gets s_ft in
    let* cptr := cspace_alloc_slot (ft_cspace t) in
    if cptr =? seL4_CapNull then
      do* ut_free ut in ret seL4_CapNull
    else
      let* node := ut_read ut in
      let* err := cspace_untyped_retype (ft_cspace t) (ut_cap node) cptr seL4_ARM_SmallPageObject
                    seL4_PageBits in
      if negb (err =? 0) then
        do* cspace_free_slot (ft_cspace t) cptr in
        do* ut_free ut in ret seL4_CapNull
      else
        let attrs := Z.lor seL4_ARM_Default_VMAttributes seL4_ARM_ExecuteNever in
        let* err := map_frame (ft_cspace t) cptr (ft_vspace t) vaddr seL4_ReadWrite attrs in
        if negb (err =? 0) then
          do* cspace_delete (ft_cspace t) cptr in
          do* cspace_free_slot (ft_cspace t) cptr in
          do* ut_free ut in ret seL4_CapNull
        else ret cptr.

Definition bump_capacity : MS Z :=
  let* t := gets s_ft in
  if negb (FRAME_LIMIT =? 0) && (ft_capacity t =? FRAME_LIMIT) then ret (-1)
  else
    let* cptr := alloc_frame_at (w64 (SOS_FRAME_TABLE + ft_byte_length t)) in
    if cptr =? seL4_CapNull then ret (-1)
    else
      let* t := gets s_ft in
      let bytes := w64 (ft_byte_length t + BIT seL4_PageBits) in
      let cap := bytes / sizeof_frame in
      do* ft_modify (ft_set_size bytes (if FRAME_LIMIT =? 0 then cap else Z.min FRAME_LIMIT cap)) in
      ret 0.

(** The end of [alloc_fresh_frame], once the capacity has been seen to. *)
Definition alloc_fresh_rest : MS frame_ptr :=
  let* t := gets s_ft in
  do* assert_ (ft_used t <? ft_capacity t) in
  do* (if ft_used t =? 0 then ft_modify (fun t => ft_set_used (ft_used t + 1) t) else ret tt) in
  let* t := gets s_ft in
  let frame := ft_used t in
  do* ft_modify (fun t => ft_set_used (ft_used t + 1) t) in
  let* ref := ref_from_frame (Some frame) in
  let* vaddr := frame_data ref in
  let* page := alloc_frame_at vaddr in
  if page =? seL4_CapNull then
    do* ft_modify (fun t => ft_set_used (ft_used t - 1) t) in ret None
  else
    do* frame_write frame (fun _ => mkFrame (page mod 2 ^ 20) 0 0 NO_LIST) in
    ret (Some frame).

Definition alloc_fresh_frame : MS frame_ptr :=
  let* t := gets s_ft in
  do* assert_ (ft_used t <=? ft_capacity t) in
  do* assert_ ((FRAME_LIMIT =? 0) || (ft_capacity t <=? FRAME_LIMIT)) in
  let* err := (if ft_used t =? ft_capacity t then bump_capacity else ret 0) in
  if negb (err =? 0) then ret None
  else alloc_fresh_rest.

Definition alloc_frame : MS Z :=
  let* frame := pop_front FlFree in
  let* frame := (match frame with None => alloc_fresh_frame | Some i => ret (Some i) end) in
  do* (match frame with Some i => push_back FlAllocated (Some i) | None => ret tt end) in
  ref_from_frame frame.

Definition free_frame (frame_ref : Z) : MS unit :=
  if negb (frame_ref =? NULL_FRAME) then
    let* frame := frame_from_ref frame_ref in
    do* remove_frame FlAllocated (Some frame) in
    push_front FlFree (Some frame)
  else ret tt.
End Alloc.

(** ** Doubly linked lists

    [seg t p xs n]: the frames [xs] are linked one to the next, the first with
    predecessor [p] and the last with successor [n]. *)
Fixpoint seg (t : frame_table_t) (id p : Z) (xs : list Z) (n : Z) : Prop :=
  match xs with
  | [] => True
  | x :: xs' =>
      prev (frame_at t x) = p /\ next (frame_at t x) = hd n xs' /\ list_id (frame_at t x) = id /\
      seg t id x xs' n
  end.

(** The list [l] is [xs]. *)
Record dlist (t : frame_table_t) (l : frame_list_t) (xs : list Z) : Prop := {
  dl_first : first l = hd 0 xs;
  dl_last : last l = List.last xs 0;
  dl_seg : seg t (fl_id l) 0 xs 0;
  dl_length : fl_length l = Z.of_nat (length xs) }.

Definition id_of (r : fl_ref) : Z := match r with FlFree => FREE_LIST | FlAllocated => ALLOCATED_LIST end.

(** The lists of the table are [ls]; a frame may be in none of them. *)
Record links (t : frame_table_t) (ls : fl_ref -> list Z) : Prop := {
  lk_list r : dlist t (ft_list t r) (ls r);
  lk_id r : fl_id (ft_list t r) = id_of r;
  lk_nodup : NoDup (ls FlFree ++ ls FlAllocated);
  lk_range r x : x ∈ ls r -> 1 <= x < ft_used t;
  lk_used : 0 <= ft_used t <= ft_capacity t;
  lk_cap : ft_capacity t <= 2 ^ 19 }.

Definition updl (ls : fl_ref -> list Z) (r : fl_ref) (xs : list Z) : fl_ref -> list Z :=
  fun r' => if decide (r' = r) then xs else ls r'.

(** A frame in use that is in no list. *)
Definition loose (t : frame_table_t) (ls : fl_ref -> list Z) (x : Z) : Prop :=
  1 <= x < ft_used t /\ (forall r, x ∉ ls r) /\
  list_id (frame_at t x) = NO_LIST /\ next (frame_at t x) = 0 /\ prev (frame_at t x) = 0.

(** What list operations keep: sizes and pages. *)
Definition same_pages (t t' : frame_table_t) : Prop :=
  ft_capacity t' = ft_capacity t /\ ft_used t' = ft_used t /\ ft_byte_length t' = ft_byte_length t /\
  ft_cspace t' = ft_cspace t /\ ft_vspace t' = ft_vspace t /\
  forall y, sos_page (frame_at t' y) = sos_page (frame_at t y).

#[export] Instance same_pages_preorder : PreOrder same_pages.
Proof.
  unfold same_pages. split; [intros t; by split_and! |].
  intros t1 t2 t3 (A1 & A2 & A3 & A4 & A5 & A6) (B1 & B2 & B3 & B4 & B5 & B6).
  split_and!; congruence.
Qed.

Lemma same_pages_list r l t : same_pages t (ft_set_list r l t).
Proof. unfold same_pages. by destruct r; split_and!. Qed.

Lemma frame_at_set i f t j : frame_at (ft_set_frame i f t) j = if decide (i = j) then f else frame_at t j.
Proof. unfold frame_at. simpl. rewrite lookup_insert. by case_decide. Qed.

Lemma frame_at_list r l t j : frame_at (ft_set_list r l t) j = frame_at t j.
Proof. by destruct r. Qed.

Lemma same_pages_frame i f t :
  sos_page f = sos_page (frame_at t i) -> same_pages t (ft_set_frame i f t).
Proof.
  intros Hf. unfold same_pages. split_and!; try done. intros y. rewrite frame_at_set.
  case_decide; [by subst | done].
Qed.

(** *** Segments *)

Lemma seg_ext t t' id p xs n :
  (forall x, x ∈ xs -> frame_at t' x = frame_at t x) -> seg t id p xs n -> seg t' id p xs n.
Proof.
  revert p. induction xs as [|x xs IH]; intros p Hf; [done |]. simpl.
  intros (H1 & H2 & H3 & H4). rewrite !Hf by set_solver. split_and!; try done.
  apply IH; [|done]. intros y Hy. apply Hf. set_solver.
Qed.

Lemma last_cons_default {A} (x : A) xs d d' : List.last (x :: xs) d = List.last (x :: xs) d'.
Proof. revert x. induction xs as [|y xs IH]; intros x; [done |]. apply IH. Qed.

Lemma last_cons {A} (x : A) xs d : List.last (x :: xs) d = List.last xs x.
Proof. destruct xs as [|y xs]; [done |]. apply (last_cons_default y xs). Qed.

Lemma seg_app t id p xs ys n :
  seg t id p (xs ++ ys) n <-> seg t id p xs (hd n ys) /\ seg t id (List.last xs p) ys n.
Proof.
  revert p. induction xs as [|x xs IH]; intros p; cbn [seg app]; [simpl; tauto |].
  rewrite IH, last_cons. destruct xs; simpl; tauto.
Qed.

(** Giving a segment another predecessor, and another successor. *)
Lemma seg_new_prev t t' id p p' x xs n :
  prev (frame_at t' x) = p' -> next (frame_at t' x) = next (frame_at t x) ->
  list_id (frame_at t' x) = list_id (frame_at t x) ->
  (forall y, y ∈ xs -> frame_at t' y = frame_at t y) ->
  seg t id p (x :: xs) n -> seg t' id p' (x :: xs) n.
Proof.
  intros H1 H2 H3 Hf (S1 & S2 & S3 & S4). cbn [seg]. split_and!; try congruence. by eapply seg_ext.
Qed.

Lemma seg_new_next t t' id p xs z n n' :
  next (frame_at t' z) = n' -> prev (frame_at t' z) = prev (frame_at t z) ->
  list_id (frame_at t' z) = list_id (frame_at t z) ->
  (forall y, y ∈ xs -> frame_at t' y = frame_at t y) ->
  seg t id p (xs ++ [z]) n -> seg t' id p (xs ++ [z]) n'.
Proof.
  intros H1 H2 H3 Hf. rewrite !seg_app. simpl. intros (S1 & S2 & S3 & S4 & _).
  split; [by eapply seg_ext |]. split_and!; try done; congruence.
Qed.

Lemma last_snoc {A} (xs : list A) x d : List.last (xs ++ [x]) d = x.
Proof. revert d. induction xs as [|y xs IH]; intros d; [done |]. simpl app. by rewrite last_cons, IH. Qed.

Lemma last_in {A} (x : A) xs d : List.last (x :: xs) d ∈ x :: xs.
Proof.
  revert x. induction xs as [|y xs IH]; intros x; [simpl; set_solver |].
  rewrite last_cons, (last_cons_default y xs x d). specialize (IH y). set_solver.
Qed.

(** ** Running the primitives *)

Section Run.
Context {K : Type} {HE : Env K}.
Implicit Types (s : sos K) (F : fault -> Prop) (ls : fl_ref -> list Z).

Lemma wp_frame_read i (Q : frame_t -> sos K -> Prop) F s :
  0 <= i < ft_capacity (s_ft s) -> Q (frame_at (s_ft s) i) s -> wp (frame_read i) Q F s.
Proof.
  intros Hi HQ. unfold frame_read. wp_steps.
  destruct (Z.leb_spec 0 i), (Z.ltb_spec i (ft_capacity (s_ft s))); try lia. done.
Qed.

Lemma wp_frame_write i f (Q : unit -> sos K -> Prop) F s :
  0 <= i < ft_capacity (s_ft s) ->
  Q tt (set_ft (ft_set_frame i (f (frame_at (s_ft s) i)) (s_ft s)) s) -> wp (frame_write i f) Q F s.
Proof. intros Hi HQ. unfold frame_write. rewrite wp_bind. by apply wp_frame_read. Qed.

Lemma wp_list_write r f (Q : unit -> sos K -> Prop) F s :
  Q tt (set_ft (ft_set_list r (f (ft_list (s_ft s) r)) (s_ft s)) s) -> wp (list_write r f) Q F s.
Proof. done. Qed.

Lemma wp_frame_from_ref i (Q : Z -> sos K -> Prop) F s :
  i <> 0 -> i < ft_capacity (s_ft s) -> Q i s -> wp (frame_from_ref i) Q F s.
Proof.
  intros Hi Hc HQ. unfold frame_from_ref, NULL_FRAME. wp_steps.
  destruct (Z.eqb_spec i 0); [done |]. cbn [negb]. wp_steps. destruct (Z.ltb_spec i (ft_capacity (s_ft s))); [done | lia].
Qed.

Lemma wp_ref_from_frame i (Q : Z -> sos K -> Prop) F s :
  i < ft_used (s_ft s) -> Q i s -> wp (ref_from_frame (Some i)) Q F s.
Proof.
  intros Hc HQ. unfold ref_from_frame, deref. wp_steps. simpl. wp_steps.
  destruct (Z.ltb_spec i (ft_used (s_ft s))); [done | lia].
Qed.

(** The assertions of the push operations hold of a loose frame. *)
Lemma wp_assert_unlinked i (Q : Z -> sos K -> Prop) F s ls :
  links (s_ft s) ls -> loose (s_ft s) ls i -> Q i s -> wp (assert_unlinked (Some i)) Q F s.
Proof.
  intros HL (Hr & _ & Hid & Hn & Hp) HQ. pose proof (lk_used _ _ HL). unfold assert_unlinked, deref.
  wp_steps. simpl. wp_steps. apply wp_frame_read; [lia |]. wp_steps.
  rewrite Hid, Hn, Hp. simpl. by wp_steps.
Qed.
End Run.

Lemma ft_list_set r r' l t : ft_list (ft_set_list r l t) r' = if decide (r' = r) then l else ft_list t r'.
Proof. by destruct r, r'. Qed.

Lemma ft_list_frame i f t r : ft_list (ft_set_frame i f t) r = ft_list t r.
Proof. by destruct r. Qed.

(** References are stored without loss. *)
Lemma ref_small t ls r x : links t ls -> x ∈ ls r -> x mod 2 ^ 19 = x.
Proof.
  intros HL Hx. pose proof (lk_range _ _ HL r x Hx). pose proof (lk_used _ _ HL).
  pose proof (lk_cap _ _ HL). apply Z.mod_small. lia.
Qed.

Lemma links_disjoint t ls r r' x : links t ls -> x ∈ ls r -> x ∈ ls r' -> r = r'.
Proof.
  intros HL H1 H2. pose proof (lk_nodup _ _ HL) as Hnd. apply list.NoDup_app in Hnd as (_ & Hd & _).
  destruct r, r'; try done; exfalso; eapply Hd; done.
Qed.

Lemma links_nodup t ls r : links t ls -> NoDup (ls r).
Proof.
  intros HL. pose proof (lk_nodup _ _ HL) as Hnd. apply list.NoDup_app in Hnd as (H1 & _ & H2).
  by destruct r.
Qed.

Lemma updl_eq ls r xs : updl ls r xs r = xs.
Proof. unfold updl. by case_decide. Qed.
Lemma updl_ne ls r r' xs : r' <> r -> updl ls r xs r' = ls r'.
Proof. unfold updl. by case_decide. Qed.

Lemma nodup_range_length (xs : list Z) n :
  NoDup xs -> (forall x, x ∈ xs -> 1 <= x < n) -> Z.of_nat (length xs) <= Z.max 0 (n - 1).
Proof.
  intros Hnd Hr. assert (length xs <= length (seqZ 1 (n - 1)))%nat as Hle.
  { apply submseteq_length, NoDup_submseteq; [done |]. intros x Hx. apply elem_of_seqZ.
    specialize (Hr x Hx). lia. }
  rewrite length_seqZ in Hle. lia.
Qed.

(** One list replaced: what has to be shown of the new table. *)
Lemma links_upd t t' ls r xs :
  links t ls -> ft_capacity t' = ft_capacity t -> ft_used t' = ft_used t ->
  (forall r', r' <> r -> ft_list t' r' = ft_list t r') ->
  fl_id (ft_list t' r) = id_of r ->
  (forall r' y, r' <> r -> y ∈ ls r' -> frame_at t' y = frame_at t y) ->
  dlist t' (ft_list t' r) xs -> NoDup xs ->
  (forall x, x ∈ xs -> 1 <= x < ft_used t /\ forall r', r' <> r -> x ∉ ls r') ->
  links t' (updl ls r xs).
Proof.
  intros HL Hcap Hused Hlist Hid Hfr Hdl Hnd Hx.
  assert (forall r', r' <> r -> dlist t' (ft_list t' r') (ls r')) as Hother.
  { intros r' Hr'. rewrite Hlist by done. destruct (lk_list _ _ HL r') as [D1 D2 D3 D4].
    split; try done. eapply seg_ext; [|done]. intros y Hy. by eapply Hfr. }
  split.
  - intros r'. unfold updl. case_decide; [by subst | by apply Hother].
  - intros r'. destruct (decide (r' = r)) as [->|]; [done |]. rewrite Hlist by done. apply (lk_id _ _ HL).
  - pose proof (links_nodup _ _ FlFree HL). pose proof (links_nodup _ _ FlAllocated HL).
    apply list.NoDup_app. destruct r; rewrite updl_eq, updl_ne by done; split_and!; try done.
    + intros y Hy Hy'. destruct (Hx y Hy) as [_ Hn]. by apply (Hn FlAllocated).
    + intros y Hy Hy'. destruct (Hx y Hy') as [_ Hn]. by apply (Hn FlFree).
  - intros r' y. unfold updl. rewrite Hused. case_decide; [apply Hx | by apply (lk_range _ _ HL)].
  - rewrite Hused, Hcap. apply (lk_used _ _ HL).
  - rewrite Hcap. apply (lk_cap _ _ HL).
Qed.

(** ** The list operations

    First what each operation does to the table as a whole. *)

Lemma links_in_range t ls r x : links t ls -> x ∈ ls r -> 0 < x < ft_capacity t /\ x < ft_used t /\ x < 2 ^ 19.
Proof.
  intros HL Hx. pose proof (lk_range _ _ HL r x Hx). pose proof (lk_used _ _ HL).
  pose proof (lk_cap _ _ HL). lia.
Qed.

(** Lengths do not wrap. *)
Lemma links_length t ls r : links t ls -> Z.of_nat (length (ls r)) < 2 ^ 19.
Proof.
  intros HL. pose proof (nodup_range_length (ls r) (ft_used t) (links_nodup _ _ r HL) (lk_range _ _ HL r)).
  pose proof (lk_used _ _ HL). pose proof (lk_cap _ _ HL). lia.
Qed.

Lemma links_popped t t1 t' ls r x xs :
  links t ls -> ls r = x :: xs -> seg t1 (id_of r) 0 xs 0 ->
  (forall z, z ∉ xs -> frame_at t1 z = frame_at t z) ->
  (forall z, frame_at t' z = if decide (x = z) then mkFrame (sos_page (frame_at t1 x)) 0 0 NO_LIST
                             else frame_at t1 z) ->
  same_pages t t' -> (forall r', r' <> r -> ft_list t' r' = ft_list t r') ->
  ft_list t' r = mkFrameList (id_of r) (hd 0 xs) (List.last xs 0) (w64 (fl_length (ft_list t r) + -1)) ->
  links t' (updl ls r xs) /\ loose t' (updl ls r xs) x.
Proof.
  intros HL Hx Hseg Hsame Hat Hp' Hlists Hlr.
  pose proof (links_nodup _ _ r HL) as Hnd. rewrite Hx in Hnd. apply list.NoDup_cons in Hnd as [Hxs Hnd].
  assert (forall r' y, r' <> r -> y ∈ ls r' -> y ∉ x :: xs) as Hdisj.
  { intros r' y Hr' Hy Hin. apply Hr'. eapply (links_disjoint _ _ r' r y HL); [done | by rewrite Hx]. }
  pose proof (links_in_range _ _ r x HL ltac:(rewrite Hx; set_solver)) as Hxr. split.
  - eapply links_upd; [done | apply Hp' | apply Hp' | done | by rewrite Hlr | | | done |].
    + intros r' y Hr' Hy. specialize (Hdisj r' y Hr' Hy).
      rewrite Hat, decide_False by set_solver. apply Hsame. set_solver.
    + rewrite Hlr. split; simpl; [done | done | |].
      * eapply seg_ext; [|exact Hseg]. intros y Hy. rewrite Hat, decide_False; [done |]. by intros ->.
      * destruct (lk_list _ _ HL r) as [_ _ _ ->]. pose proof (links_length _ _ r HL) as Hlen.
        rewrite Hx in *. simpl length in *. unfold w64. rewrite Z.mod_small; lia.
    + intros y Hy. split; [apply (lk_range _ _ HL r); rewrite Hx; set_solver |].
      intros r' Hr' Hy'. apply (Hdisj r' y Hr' Hy'). set_solver.
  - unfold loose. rewrite Hat, decide_True by done. destruct Hp' as (_ & -> & _).
    split; [lia |]. split; [|done]. intros r'. unfold updl. case_decide as E; [done |].
    intros Hin. apply (Hdisj r' x E Hin). set_solver.
Qed.

Lemma links_pushed_front t t' ls r x :
  links t ls -> loose t ls x -> same_pages t t' ->
  (forall r', r' <> r -> ft_list t' r' = ft_list t r') ->
  ft_list t' r = mkFrameList (id_of r) x (List.last (x :: ls r) 0) (w64 (fl_length (ft_list t r) + 1)) ->
  (forall z, frame_at t' z =
     if decide (x = z) then mkFrame (sos_page (frame_at t x)) 0 (hd 0 (ls r)) (id_of r)
     else if decide (ls r <> [] /\ hd 0 (ls r) = z)
     then mkFrame (sos_page (frame_at t z)) x (next (frame_at t z)) (list_id (frame_at t z))
     else frame_at t z) ->
  links t' (updl ls r (x :: ls r)).
Proof.
  intros HL (Hxr & Hx & _) Hp' Hlists Hlr Hat. destruct (lk_list _ _ HL r) as [D1 D2 D3 D4].
  rewrite (lk_id _ _ HL r) in D3. pose proof (links_nodup _ _ r HL) as Hnd.
  eapply links_upd; [done | apply Hp' | apply Hp' | done | by rewrite Hlr | | | |].
  - intros r' y Hr' Hy. rewrite Hat, decide_False by (intros ->; by apply (Hx r')).
    rewrite decide_False; [done |]. intros [Hne Hhd]. apply Hr'.
    eapply (links_disjoint _ _ r' r y HL); [done |]. destruct (ls r); [done |]. simpl in Hhd. set_solver.
  - rewrite Hlr. split; cbn [fl_id first SosState.last fl_length]; [done | done | |].
    + cbn [seg]. rewrite Hat, decide_True by done. split_and!; try done.
      specialize (Hx r). destruct (ls r) as [|y ys]; [done |]. apply list.NoDup_cons in Hnd as [Hy _].
      assert (x <> y) as Hxy by set_solver.
      assert (frame_at t' y = mkFrame (sos_page (frame_at t y)) x (next (frame_at t y))
                                (list_id (frame_at t y))) as Hy'.
      { by rewrite Hat, decide_False, decide_True. }
      eapply seg_new_prev; [by rewrite Hy' | by rewrite Hy' | by rewrite Hy' | | exact D3].
      intros z Hz. rewrite Hat, !decide_False; [done | | set_solver]. intros [_ <-]. done.
    + pose proof (links_length _ _ r HL). rewrite D4. simpl length. unfold w64. rewrite Z.mod_small; lia.
  - apply list.NoDup_cons. by split.
  - intros y [->|Hy]%list.elem_of_cons; [by split |].
    split; [by apply (lk_range _ _ HL r) |]. intros r' Hr' Hy'. apply Hr'. by eapply links_disjoint.
Qed.

Lemma links_pushed_back t t' ls r ys z x :
  links t ls -> loose t ls x -> ls r = ys ++ [z] -> same_pages t t' ->
  (forall r', r' <> r -> ft_list t' r' = ft_list t r') ->
  ft_list t' r = mkFrameList (id_of r) (first (ft_list t r)) x (w64 (fl_length (ft_list t r) + 1)) ->
  (forall w, frame_at t' w =
     if decide (x = w) then mkFrame (sos_page (frame_at t x)) z 0 (id_of r)
     else if decide (z = w)
     then mkFrame (sos_page (frame_at t w)) (prev (frame_at t w)) x (list_id (frame_at t w))
     else frame_at t w) ->
  links t' (updl ls r (ls r ++ [x])).
Proof.
  intros HL (Hxr & Hx & _) Els Hp' Hlists Hlr Hat. destruct (lk_list _ _ HL r) as [D1 D2 D3 D4].
  rewrite (lk_id _ _ HL r) in D3. pose proof (links_nodup _ _ r HL) as Hnd.
  assert (x <> z) as Hxz. { intros ->. apply (Hx r). rewrite Els. set_solver. }
  assert (z ∉ ys) as Hz. { rewrite Els in Hnd. apply list.NoDup_app in Hnd as (_ & Hd & _).
    intros Hin. apply (Hd z Hin). set_solver. }
  eapply links_upd; [done | apply Hp' | apply Hp' | done | by rewrite Hlr | | | |].
  - intros r' y Hr' Hy. rewrite Hat, decide_False by (intros ->; by apply (Hx r')).
    rewrite decide_False; [done |]. intros ->. apply Hr'.
    eapply (links_disjoint _ _ r' r y HL); [done | rewrite Els; set_solver].
  - rewrite Hlr. split; cbn [fl_id first SosState.last fl_length].
    + rewrite D1, Els. by destruct ys.
    + by rewrite last_snoc.
    + apply seg_app. split.
      * rewrite Els in *. assert (frame_at t' z = mkFrame (sos_page (frame_at t z)) (prev (frame_at t z)) x
          (list_id (frame_at t z))) as Hz' by by rewrite Hat, decide_False, decide_True.
        eapply seg_new_next; [by rewrite Hz' | by rewrite Hz' | by rewrite Hz' | | exact D3].
        intros y Hy. rewrite Hat, !decide_False; [done | intros ->; done |].
        intros ->. apply (Hx r). rewrite Els. set_solver.
      * cbn [seg hd]. rewrite Hat, decide_True, Els, last_snoc by done. done.
    + pose proof (links_length _ _ r HL). rewrite D4, length_app. simpl length. unfold w64.
      rewrite Z.mod_small; lia.
  - apply list.NoDup_app. split_and!; [done | | apply NoDup_singleton].
    intros y Hy ->%list_elem_of_singleton. by apply (Hx r).
  - intros y [Hy| ->%list_elem_of_singleton]%list.elem_of_app; [|by split].
    split; [by apply (lk_range _ _ HL r) |]. intros r' Hr' Hy'. apply Hr'. by eapply links_disjoint.
Qed.

(** Unlinking [x] from the middle of a segment. *)
Lemma seg_unlink t t' id p xs x ys :
  NoDup (xs ++ x :: ys) -> seg t id p (xs ++ x :: ys) 0 ->
  (forall w, w ∈ xs ++ ys -> frame_at t' w =
     mkFrame (sos_page (frame_at t w))
       (if decide (ys <> [] /\ w = hd 0 ys) then List.last xs p else prev (frame_at t w))
       (if decide (xs <> [] /\ w = List.last xs p) then hd 0 ys else next (frame_at t w))
       (list_id (frame_at t w))) ->
  seg t' id p (xs ++ ys) 0.
Proof.
  intros Hnd Hseg Hat. apply list.NoDup_app in Hnd as (Hxs & Hd & Hnd).
  apply list.NoDup_cons in Hnd as [Hxy Hys]. apply seg_app in Hseg as [S1 (_ & _ & _ & S2)].
  apply seg_app. split.
  - destruct xs as [|w xs0 _] using rev_ind; [done |]. rewrite last_snoc in *. simpl hd in S1.
    apply list.NoDup_app in Hxs as (_ & Hw & _).
    eapply seg_new_next; [| | | |exact S1].
    + rewrite Hat by set_solver. simpl. rewrite decide_True; [done |]. split; [by destruct xs0 | done].
    + rewrite Hat by set_solver. simpl. rewrite decide_False; [done |].
      intros [Hne ->]. apply (Hd (hd 0 ys)); [set_solver |]. destruct ys; [done |]. simpl. set_solver.
    + rewrite Hat by set_solver. done.
    + intros y Hy. rewrite Hat by set_solver. rewrite !decide_False; [by destruct (frame_at t y) | |].
      * intros [_ ->]. apply (Hw w Hy). set_solver.
      * intros [Hne ->]. apply (Hd (hd 0 ys)); [set_solver |]. destruct ys; [done |]. simpl. set_solver.
  - destruct ys as [|y ys]; [done |]. apply list.NoDup_cons in Hys as [Hy _].
    assert (forall w, w ∈ y :: ys -> w ∉ xs) as Hout by (intros w Hw Hin; apply (Hd w Hin); set_solver).
    assert (forall w, w ∈ y :: ys -> ~ (xs <> [] /\ w = List.last xs p)) as Hlast.
    { intros w Hw [Hne ->]. apply (Hout _ Hw). destruct xs as [|a xs]; [done | apply last_in]. }
    eapply seg_new_prev; [| | | |exact S2].
    + rewrite Hat by set_solver. simpl. by rewrite decide_True.
    + rewrite Hat by set_solver. simpl. by rewrite decide_False by (apply Hlast; set_solver).
    + rewrite Hat by set_solver. done.
    + intros w Hw. rewrite Hat by set_solver. rewrite !decide_False; [by destruct (frame_at t w) | |].
      * apply Hlast. set_solver.
      * simpl. intros [_ ->]. done.
Qed.

Lemma links_removed t t' ls r xs x ys :
  links t ls -> ls r = xs ++ x :: ys -> same_pages t t' ->
  (forall r', r' <> r -> ft_list t' r' = ft_list t r') ->
  ft_list t' r = mkFrameList (id_of r) (hd 0 (xs ++ ys)) (List.last (xs ++ ys) 0)
                   (w64 (fl_length (ft_list t r) + -1)) ->
  frame_at t' x = mkFrame (sos_page (frame_at t x)) 0 0 NO_LIST ->
  (forall w, w <> x -> frame_at t' w =
     mkFrame (sos_page (frame_at t w))
       (if decide (ys <> [] /\ w = hd 0 ys) then List.last xs 0 else prev (frame_at t w))
       (if decide (xs <> [] /\ w = List.last xs 0) then hd 0 ys else next (frame_at t w))
       (list_id (frame_at t w))) ->
  links t' (updl ls r (xs ++ ys)) /\ loose t' (updl ls r (xs ++ ys)) x.
Proof.
  intros HL Els Hp' Hlists Hlr Hx Hat. destruct (lk_list _ _ HL r) as [D1 D2 D3 D4].
  rewrite (lk_id _ _ HL r) in D3. pose proof (links_nodup _ _ r HL) as Hnd. rewrite Els in *.
  pose proof Hnd as Hnd0. apply list.NoDup_app in Hnd0 as (Hxs & Hd & Hn2).
  apply list.NoDup_cons in Hn2 as [Hxy Hys].
  assert (x ∉ xs ++ ys) as Hxn.
  { intros [Hin|Hin]%list.elem_of_app; [|done]. apply (Hd x Hin). set_solver. }
  pose proof (lk_range _ _ HL r x ltac:(rewrite Els; set_solver)) as Hxr.
  assert (forall r' y, r' <> r -> y ∈ ls r' -> y ∉ xs ++ x :: ys) as Hdisj.
  { intros r' y Hr' Hy Hin. apply Hr'. eapply (links_disjoint _ _ r' r y HL); [done | by rewrite Els]. }
  split.
  - eapply links_upd; [done | apply Hp' | apply Hp' | done | by rewrite Hlr | | | |].
    + intros r' y Hr' Hy. pose proof (Hdisj r' y Hr' Hy) as Hn. rewrite Hat by set_solver.
      rewrite !decide_False; [by destruct (frame_at t y) | |].
      * intros [Hne ->]. destruct xs as [|a xs]; [done |]. pose proof (last_in a xs 0). set_solver.
      * intros [Hne ->]. destruct ys as [|b ys]; [done |]. simpl in Hn. set_solver.
    + rewrite Hlr. split; cbn [fl_id first SosState.last fl_length]; [done | done | |].
      * eapply seg_unlink; [done | exact D3 |]. intros w Hw. apply Hat. intros ->. done.
      * rewrite D4, !length_app. simpl length. pose proof (links_length _ _ r HL) as Hlen.
        rewrite Els, length_app in Hlen. simpl in Hlen. unfold w64. rewrite Z.mod_small; lia.
    + apply list.NoDup_app. split_and!; [done | | done]. intros y Hy Hy'. apply (Hd y Hy). set_solver.
    + intros y Hy. split; [apply (lk_range _ _ HL r); rewrite Els; set_solver |].
      intros r' Hr' Hy'. apply (Hdisj r' y Hr' Hy'). set_solver.
  - unfold loose. rewrite Hx. destruct Hp' as (_ & -> & _). split; [lia |]. split; [|done].
    intros r'. unfold updl. case_decide as E; [done |]. intros Hin. apply (Hdisj r' x E Hin). set_solver.
Qed.

Section ListOps.
Context {K : Type} {HE : Env K}.
Implicit Types (s : sos K) (F : fault -> Prop) (ls : fl_ref -> list Z).

Lemma set_ft_twice (t t' : frame_table_t) s : set_ft t' (set_ft t s) = set_ft t' s.
Proof. done. Qed.

(** The branch of [pop_front]: the second frame, if any, becomes the first. *)
Lemma wp_pop_branch r x xs (Q : unit -> sos K -> Prop) F s ls :
  links (s_ft s) ls -> ls r = x :: xs ->
  (forall t', same_pages (s_ft s) t' -> seg t' (id_of r) 0 xs 0 ->
     (forall z, z ∉ xs -> frame_at t' z = frame_at (s_ft s) z) ->
     (forall r', r' <> r -> ft_list t' r' = ft_list (s_ft s) r') ->
     fl_id (ft_list t' r) = id_of r -> last (ft_list t' r) = List.last xs 0 ->
     fl_length (ft_list t' r) = fl_length (ft_list (s_ft s) r) -> Q tt (set_ft t' s)) ->
  let l := ft_list (s_ft s) r in
  wp (if last l =? x then
           do* list_write r (fl_set_last NULL_FRAME) in
           let* f := frame_read x in
           assert_ (next f =? NULL_FRAME)
         else
           let* f := frame_read x in
           let* n := frame_from_ref (next f) in
           frame_write n (f_set_prev NULL_FRAME)) Q F s.
Proof.
  intros HL Hx HQ l. destruct (lk_list _ _ HL r) as [D1 D2 D3 D4]. rewrite Hx in *.
  pose proof (links_nodup _ _ r HL) as Hnd. rewrite Hx in Hnd. apply list.NoDup_cons in Hnd as [Hxs Hnd].
  pose proof (lk_used _ _ HL). pose proof (lk_id _ _ HL r) as Hid.
  assert (forall z, z ∈ x :: xs -> 1 <= z < ft_used (s_ft s)) as Hrng.
  { intros z Hz. apply (lk_range _ _ HL r). by rewrite Hx. }
  pose proof (Hrng x ltac:(set_solver)) as Hxr. rewrite Hid in D3. destruct D3 as (P1 & P2 & P3 & P4).
  unfold l. rewrite D2. destruct xs as [|y ys].
  - simpl List.last. rewrite Z.eqb_refl, wp_bind. apply wp_list_write.
    rewrite wp_bind. apply wp_frame_read.
    { simpl. destruct r; simpl; lia. }
    rewrite wp_assert. simpl s_ft. rewrite frame_at_list, P2. simpl. apply HQ; try done.
    + apply same_pages_list.
    + intros z _. apply frame_at_list.
    + intros r' Hr'. by rewrite ft_list_set, decide_False.
    + by rewrite ft_list_set, decide_True.
    + by rewrite ft_list_set, decide_True.
    + by rewrite ft_list_set, decide_True.
  - pose proof (last_in y ys 0) as Hlast. destruct (Z.eqb_spec (List.last (x :: y :: ys) 0) x) as [E|_].
    { change (List.last (y :: ys) 0 = x) in E. rewrite E in Hlast. done. }
    pose proof (Hrng y ltac:(set_solver)) as Hyr.
    rewrite wp_bind. apply wp_frame_read; [lia |]. rewrite wp_bind, P2. simpl hd.
    apply wp_frame_from_ref; [lia | lia |]. apply wp_frame_write; [lia |].
    apply list.NoDup_cons in Hnd as [Hy _]. apply HQ.
    + by apply same_pages_frame.
    + eapply seg_new_prev; [| | | |exact P4].
      * by rewrite frame_at_set, decide_True.
      * by rewrite frame_at_set, decide_True.
      * by rewrite frame_at_set, decide_True.
      * intros z Hz. rewrite frame_at_set, decide_False; [done |]. by intros ->.
    + intros z Hz. rewrite frame_at_set, decide_False; [done |]. set_solver.
    + intros r' _. apply ft_list_frame.
    + by rewrite ft_list_frame.
    + rewrite ft_list_frame, D2. done.
    + by rewrite ft_list_frame.
Qed.

Lemma wp_pop_front r x xs (Q : frame_ptr -> sos K -> Prop) F s ls :
  links (s_ft s) ls -> ls r = x :: xs ->
  (forall t', links t' (updl ls r xs) -> loose t' (updl ls r xs) x -> same_pages (s_ft s) t' ->
     Q (Some x) (set_ft t' s)) ->
  wp (pop_front r) Q F s.
Proof.
  intros HL Hx HQ. destruct (lk_list _ _ HL r) as [D1 D2 D3 D4]. rewrite Hx in *.
  pose proof (links_nodup _ _ r HL) as Hnd. rewrite Hx in Hnd. apply list.NoDup_cons in Hnd as [Hxs Hnd].
  pose proof (lk_used _ _ HL). pose proof (lk_cap _ _ HL).
  assert (forall z, z ∈ x :: xs -> 1 <= z < ft_used (s_ft s)) as Hrng.
  { intros z Hz. apply (lk_range _ _ HL r). by rewrite Hx. }
  pose proof (Hrng x ltac:(set_solver)) as Hxr. destruct D3 as (P1 & P2 & P3 & P4).
  unfold pop_front, NULL_FRAME. rewrite wp_bind, wp_gets. cbv zeta. rewrite D1. simpl hd.
  destruct (Z.eqb_spec x 0); [lia |]. cbn [negb]. rewrite wp_bind.
  apply wp_frame_from_ref; [lia | lia |]. rewrite wp_bind.
  eapply (wp_pop_branch r x xs); [done | done |].
  intros t1 Hp1 Hseg Hsame Hlists Hid Hlast Hlen. pose proof Hp1 as (C1 & C2 & _).
  rewrite wp_bind. apply wp_frame_read; [simpl; lia |]. simpl s_ft.
  rewrite (Hsame x Hxs), P2, wp_bind. apply wp_list_write. simpl s_ft.
  rewrite wp_bind. apply wp_frame_read; [destruct r; simpl; lia |]. rewrite wp_bind, wp_assert.
  simpl s_ft. rewrite frame_at_list, (Hsame x Hxs), P1. simpl.
  do 4 (rewrite wp_bind; apply wp_frame_write; [destruct r; simpl; lia |]; simpl s_ft).
  rewrite wp_bind. apply wp_list_write. simpl s_ft. rewrite wp_ret.
  set (t' := ft_set_list r _ _).
  assert (forall z, frame_at t' z = if decide (x = z) then mkFrame (sos_page (frame_at t1 x)) 0 0 NO_LIST
                                    else frame_at t1 z) as Hat.
  { intros z. unfold t'. rewrite frame_at_list, frame_at_set. case_decide.
    - subst z. by rewrite !frame_at_set, !decide_True, frame_at_list.
    - by rewrite !frame_at_set, !decide_False, frame_at_list. }
  assert (same_pages (s_ft s) t') as Hp'.
  { etrans; [exact Hp1 |]. split_and!; try by destruct r.
    intros y. rewrite Hat. by case_decide; subst. }
  destruct (links_popped (s_ft s) t1 t' ls r x xs) as [HL' Hloose]; try done.
  - intros r' Hr'. unfold t'. rewrite ft_list_set, decide_False, !ft_list_frame by done.
    rewrite ft_list_set, decide_False by done. by apply Hlists.
  - unfold t'. rewrite ft_list_set, decide_True, !ft_list_frame, ft_list_set, decide_True by done.
    unfold fl_add_length. simpl. by rewrite Hid, Hlast, Hlen.
  - by apply HQ.
Qed.

Lemma wp_pop_front_empty r (Q : frame_ptr -> sos K -> Prop) F s ls :
  links (s_ft s) ls -> ls r = [] -> Q None s -> wp (pop_front r) Q F s.
Proof.
  intros HL Hx HQ. destruct (lk_list _ _ HL r) as [D1 _ _ _]. rewrite Hx in D1.
  unfold pop_front. rewrite wp_bind, wp_gets. cbv zeta. by rewrite D1.
Qed.
(** Values stored in the link fields fit them. *)
Lemma small19 x : 0 <= x < 2 ^ 19 -> x mod 2 ^ 19 = x.
Proof. apply Z.mod_small. Qed.

Lemma id_small r : id_of r mod 2 ^ 2 = id_of r.
Proof. by destruct r. Qed.

(** One write, seen through the views of the table. *)
Definition sizes (t t' : frame_table_t) : Prop :=
  ft_capacity t' = ft_capacity t /\ ft_used t' = ft_used t /\ ft_byte_length t' = ft_byte_length t /\
  ft_cspace t' = ft_cspace t /\ ft_vspace t' = ft_vspace t.

Lemma sizes_trans t1 t2 t3 : sizes t1 t2 -> sizes t2 t3 -> sizes t1 t3.
Proof. intros (A1 & A2 & A3 & A4 & A5) (B1 & B2 & B3 & B4 & B5). unfold sizes. split_and!; congruence. Qed.

Lemma wp_fw i f (Q : unit -> sos K -> Prop) F t0 t s :
  sizes t0 t -> 0 <= i < ft_capacity t0 ->
  (forall t', sizes t0 t' ->
     (forall z, frame_at t' z = if decide (i = z) then f (frame_at t i) else frame_at t z) ->
     (forall r, ft_list t' r = ft_list t r) -> Q tt (set_ft t' s)) ->
  wp (frame_write i f) Q F (set_ft t s).
Proof.
  intros Hsz Hi HQ. apply wp_frame_write; [simpl; by destruct Hsz as (-> & _) |]. simpl s_ft.
  rewrite set_ft_twice. apply HQ; [by apply (sizes_trans _ t) | | intros r; apply ft_list_frame].
  intros z. apply frame_at_set.
Qed.

Lemma wp_lw r f (Q : unit -> sos K -> Prop) F t0 t s :
  sizes t0 t ->
  (forall t', sizes t0 t' -> (forall z, frame_at t' z = frame_at t z) ->
     (forall r', ft_list t' r' = if decide (r' = r) then f (ft_list t r) else ft_list t r') ->
     Q tt (set_ft t' s)) ->
  wp (list_write r f) Q F (set_ft t s).
Proof.
  intros Hsz HQ. apply wp_list_write. simpl s_ft. rewrite set_ft_twice.
  apply HQ; [apply (sizes_trans _ t); [done |]; by destruct r | | intros r'; apply ft_list_set].
  intros z. apply frame_at_list.
Qed.

Lemma wp_fr i (Q : frame_t -> sos K -> Prop) F t0 t s :
  sizes t0 t -> 0 <= i < ft_capacity t0 -> Q (frame_at t i) (set_ft t s) ->
  wp (frame_read i) Q F (set_ft t s).
Proof. intros Hsz Hi HQ. apply wp_frame_read; [simpl; by destruct Hsz as (-> & _) | done]. Qed.

Lemma wp_ffr i (Q : Z -> sos K -> Prop) F t0 t s :
  sizes t0 t -> i <> 0 -> i < ft_capacity t0 -> Q i (set_ft t s) -> wp (frame_from_ref i) Q F (set_ft t s).
Proof. intros Hsz H0 Hi HQ. apply wp_frame_from_ref; [done | simpl; by destruct Hsz as (-> & _) | done]. Qed.

Lemma set_ft_id s : s = set_ft (s_ft s) s.
Proof. by destruct s. Qed.

(** All pages are kept when every frame keeps its own. *)
Lemma sizes_pages t t' : sizes t t' -> (forall y, sos_page (frame_at t' y) = sos_page (frame_at t y)) ->
  same_pages t t'.
Proof. intros (A1 & A2 & A3 & A4 & A5) Hy. unfold same_pages. by split_and!. Qed.

(** The end of [push_front], once the frame and its successor are linked. *)
Lemma wp_push_finish r x (Q : unit -> sos K -> Prop) F t0 t s ls :
  links t0 ls -> loose t0 ls x -> sizes t0 t ->
  (forall r', r' <> r -> ft_list t r' = ft_list t0 r') ->
  ft_list t r = fl_set_last (List.last (x :: ls r) 0) (ft_list t0 r) ->
  (forall z, frame_at t z =
     if decide (x = z) then mkFrame (sos_page (frame_at t0 x)) 0 (hd 0 (ls r)) NO_LIST
     else if decide (ls r <> [] /\ hd 0 (ls r) = z)
     then mkFrame (sos_page (frame_at t0 z)) x (next (frame_at t0 z)) (list_id (frame_at t0 z))
     else frame_at t0 z) ->
  (forall t', links t' (updl ls r (x :: ls r)) -> same_pages t0 t' -> Q tt (set_ft t' s)) ->
  wp (do* list_write r (fl_set_first x) in
      do* list_write r (fl_add_length 1) in
      let* t := gets s_ft in
      frame_write x (f_set_list_id (fl_id (ft_list t r)))) Q F (set_ft t s).
Proof.
  intros HL Hlo Hsz L Lr A HQ. pose proof (lk_used _ _ HL). pose proof Hlo as (Hxr & _).
  pose proof (lk_id _ _ HL r) as Hid.
  rewrite wp_bind. eapply wp_lw; [done |]. intros t4 Hsz4 A4 L4.
  rewrite wp_bind. eapply wp_lw; [done |]. intros t5 Hsz5 A5 L5. rewrite wp_bind, wp_gets. simpl s_ft.
  rewrite L5, decide_True, L4, decide_True, Lr by done. simpl fl_id. rewrite Hid.
  eapply wp_fw; [done | lia |]. intros t6 Hsz6 A6 L6.
  assert (forall z, frame_at t6 z =
     if decide (x = z) then mkFrame (sos_page (frame_at t0 x)) 0 (hd 0 (ls r)) (id_of r)
     else if decide (ls r <> [] /\ hd 0 (ls r) = z)
     then mkFrame (sos_page (frame_at t0 z)) x (next (frame_at t0 z)) (list_id (frame_at t0 z))
     else frame_at t0 z) as A'.
  { intros z. rewrite A6. case_decide; [|by rewrite A5, A4, A, decide_False].
    rewrite A5, A4, A, decide_True by done. unfold f_set_list_id. simpl. by rewrite id_small. }
  assert (same_pages t0 t6) as Hp.
  { apply sizes_pages; [done |]. intros y. rewrite A'. repeat case_decide; by subst. }
  apply HQ; [|done]. eapply links_pushed_front; try done.
  - intros r' Hr'. by rewrite L6, L5, decide_False, L4, decide_False, L.
  - rewrite L6, L5, decide_True, L4, decide_True, Lr by done.
    unfold fl_add_length, fl_set_first, fl_set_last. simpl first. by rewrite <- Hid.
Qed.

Lemma links_head t ls r : links t ls ->
  0 <= hd 0 (ls r) < 2 ^ 19 /\ (hd 0 (ls r) = 0 <-> ls r = []) /\ (ls r <> [] -> hd 0 (ls r) ∈ ls r).
Proof.
  intros HL. destruct (ls r) as [|y ys] eqn:E; simpl; [done |].
  pose proof (links_in_range _ _ r y HL ltac:(rewrite E; set_solver)).
  split; [lia |]. split; [split; [lia | done] | set_solver].
Qed.

(** The part of [push_front] after the list's [last] is right. *)
Lemma wp_push_tail r x (Q : unit -> sos K -> Prop) F t0 t1 s ls :
  links t0 ls -> loose t0 ls x -> sizes t0 t1 -> (forall z, frame_at t1 z = frame_at t0 z) ->
  (forall r', r' <> r -> ft_list t1 r' = ft_list t0 r') ->
  ft_list t1 r = fl_set_last (List.last (x :: ls r) 0) (ft_list t0 r) ->
  (forall t', links t' (updl ls r (x :: ls r)) -> same_pages t0 t' -> Q tt (set_ft t' s)) ->
  wp (let* t := gets s_ft in
      do* frame_write x (f_set_next (first (ft_list t r))) in
      let* f := frame_read x in
      do* (if negb (next f =? NULL_FRAME) then
             let* n := frame_from_ref (next f) in frame_write n (f_set_prev x)
           else ret tt) in
      do* list_write r (fl_set_first x) in
      do* list_write r (fl_add_length 1) in
      let* t := gets s_ft in
      frame_write x (f_set_list_id (fl_id (ft_list t r)))) Q F (set_ft t1 s).
Proof.
  intros HL Hlo Hsz1 A1 L1 L1r HQ. pose proof (lk_used _ _ HL). pose proof (lk_cap _ _ HL).
  pose proof Hlo as (Hxr & Hx & Lid & Ln & Lp). destruct (lk_list _ _ HL r) as [D1 _ _ _].
  destruct (links_head _ _ r HL) as (Hh & Hh0 & Hin).
  rewrite wp_bind, wp_gets. simpl s_ft. rewrite L1r. simpl first. rewrite D1.
  rewrite wp_bind. eapply wp_fw; [done | lia |]. intros t2 Hsz2 A2 L2.
  rewrite wp_bind. eapply wp_fr; [done | lia |]. rewrite A2, decide_True by done. simpl next.
  rewrite (small19 _ Hh). rewrite wp_bind.
  assert (frame_at t2 x = mkFrame (sos_page (frame_at t0 x)) 0 (hd 0 (ls r)) NO_LIST) as A2x.
  { rewrite A2, decide_True, A1 by done. unfold f_set_next. by rewrite (small19 _ Hh), Lp, Lid. }
  unfold NULL_FRAME. destruct (Z.eqb_spec (hd 0 (ls r)) 0) as [E|E]; cbn [negb].
  - rewrite wp_ret. eapply wp_push_finish; try done; [intros; rewrite L2; auto | by rewrite L2 |].
    intros z. destruct (decide (x = z)); [by subst |].
    rewrite A2, decide_False, A1 by done. rewrite decide_False; [done |]. intros [Hne _]. by apply Hne, Hh0.
  - assert (ls r <> []) as Hne0 by (intros E0; apply E, Hh0, E0). specialize (Hin Hne0).
    pose proof (links_in_range _ _ r _ HL Hin) as Hir.
    rewrite wp_bind. eapply wp_ffr; [done | lia | lia |]. eapply wp_fw; [done | lia |].
    intros t3 Hsz3 A3 L3.
    eapply wp_push_finish; try done; [intros; rewrite L3, L2; auto | by rewrite L3, L2 |].
    intros z. rewrite A3.
    assert (x <> hd 0 (ls r)) as Hne by (intros Heq; rewrite <- Heq in Hin; by apply (Hx r)).
    destruct (decide (x = z)); [subst z; by rewrite decide_False by done|].
    destruct (decide (hd 0 (ls r) = z)).
    + subst z. rewrite decide_True by done.
      rewrite A2, decide_False, A1 by done. unfold f_set_prev. by rewrite small19 by lia.
    + rewrite decide_False by (intros [_ ?]; done). by rewrite A2, decide_False, A1.
Qed.

Lemma wp_push_front r x (Q : unit -> sos K -> Prop) F s ls :
  links (s_ft s) ls -> loose (s_ft s) ls x ->
  (forall t', links t' (updl ls r (x :: ls r)) -> same_pages (s_ft s) t' -> Q tt (set_ft t' s)) ->
  wp (push_front r (Some x)) Q F s.
Proof.
  intros HL Hlo HQ. pose proof (lk_used _ _ HL). pose proof Hlo as (Hxr & _).
  destruct (lk_list _ _ HL r) as [D1 D2 D3 D4].
  unfold push_front. rewrite wp_bind. eapply wp_assert_unlinked; [done | done |].
  rewrite wp_bind. apply wp_ref_from_frame; [lia |]. rewrite wp_bind, wp_gets, D2.
  rewrite (set_ft_id s), wp_bind. unfold NULL_FRAME. destruct (Z.eqb_spec (List.last (ls r) 0) 0) as [E|E].
  - assert (ls r = []) as Els.
    { destruct (ls r) as [|y ys] eqn:Els; [done |]. pose proof (last_in y ys 0) as Hin.
      rewrite E in Hin. pose proof (links_in_range _ _ r 0 HL ltac:(rewrite Els; done)). lia. }
    eapply (wp_lw _ _ _ _ (s_ft s)); [done |]. intros t1 Hsz1 A1 L1. eapply wp_push_tail; try done.
    + intros r' Hr'. by rewrite L1, decide_False.
    + by rewrite L1, decide_True, Els.
  - rewrite wp_ret. eapply wp_push_tail; try done. rewrite last_cons.
    assert (List.last (ls r) x = List.last (ls r) 0) as ->.
    { destruct (ls r); [done | apply last_cons_default]. }
    rewrite <- D2. by destruct (ft_list (s_ft s) r).
Qed.
(** The last frame of a list. *)
Lemma links_last t ls r : links t ls -> ls r <> [] ->
  exists ys z, ls r = ys ++ [z] /\ List.last (ls r) 0 = z /\ z ∈ ls r.
Proof.
  intros HL Hne. destruct (ls r) as [|z ys _] using rev_ind; [done |].
  exists ys, z. split; [done |]. split; [apply last_snoc | set_solver].
Qed.

Lemma wp_push_back r x (Q : unit -> sos K -> Prop) F s ls :
  links (s_ft s) ls -> loose (s_ft s) ls x ->
  (forall t', links t' (updl ls r (ls r ++ [x])) -> same_pages (s_ft s) t' -> Q tt (set_ft t' s)) ->
  wp (push_back r (Some x)) Q F s.
Proof.
  intros HL Hlo HQ. pose proof (lk_used _ _ HL). pose proof (lk_cap _ _ HL).
  pose proof Hlo as (Hxr & Hx & Lid & Ln & Lp).
  destruct (lk_list _ _ HL r) as [D1 D2 D3 D4]. pose proof (lk_id _ _ HL r) as Hid.
  unfold push_back. rewrite wp_bind. eapply wp_assert_unlinked; [done | done |].
  rewrite wp_bind. apply wp_ref_from_frame; [lia |]. rewrite wp_bind, wp_gets, D2.
  destruct (decide (ls r = [])) as [Els|Els].
  { rewrite Els. simpl. eapply wp_push_front; [done | done |]. rewrite Els. intros t' HL' Hp'.
    apply HQ; [by rewrite Els | done]. }
  destruct (links_last _ _ _ HL Els) as (ys & z & E & Hlast & Hz). rewrite Hlast.
  pose proof (links_in_range _ _ r z HL Hz) as Hzr. assert (x <> z) by (intros ->; by apply (Hx r)).
  unfold NULL_FRAME. destruct (Z.eqb_spec z 0); [lia |]. cbn [negb].
  rewrite (set_ft_id s), wp_bind. eapply (wp_ffr _ _ _ (s_ft s)); [done | lia | lia |].
  rewrite wp_bind. eapply (wp_fw _ _ _ _ (s_ft s)); [done | lia |]. intros t1 Hsz1 A1 L1.
  rewrite wp_bind. eapply wp_fw; [done | lia |]. intros t2 Hsz2 A2 L2.
  rewrite wp_bind. eapply wp_lw; [done |]. intros t3 Hsz3 A3 L3.
  rewrite wp_bind. eapply wp_fw; [done | lia |]. intros t4 Hsz4 A4 L4.
  eapply wp_lw; [done |]. intros t5 Hsz5 A5 L5. simpl s_ft in *.
  assert (forall w, frame_at t5 w =
     if decide (x = w) then mkFrame (sos_page (frame_at (s_ft s) x)) z 0 (id_of r)
     else if decide (z = w)
     then mkFrame (sos_page (frame_at (s_ft s) w)) (prev (frame_at (s_ft s) w)) x
            (list_id (frame_at (s_ft s) w))
     else frame_at (s_ft s) w) as A.
  { intros w. rewrite A5, A4, !A3, !A2, !A1. repeat case_decide; subst; try done.
    - unfold f_set_list_id, f_set_prev. simpl. by rewrite Ln, Hid, id_small, small19 by lia.
    - unfold f_set_next. simpl. by rewrite small19 by lia. }
  assert (same_pages (s_ft s) t5) as Hp.
  { apply sizes_pages; [done |]. intros y. rewrite A. repeat case_decide; by subst. }
  apply HQ; [|done]. eapply links_pushed_back; try done.
  - intros r' Hr'. by rewrite L5, decide_False, L4, L3, decide_False, L2, L1.
  - rewrite L5, decide_True, L4, L3, decide_True, L2, L1 by done.
    unfold fl_add_length, fl_set_last. simpl. by rewrite Hid.
Qed.
(** A frame in the middle of a list, and its neighbours. *)
Lemma links_middle t ls r xs x ys : links t ls -> ls r = xs ++ x :: ys ->
  prev (frame_at t x) = List.last xs 0 /\ next (frame_at t x) = hd 0 ys /\
  list_id (frame_at t x) = id_of r /\
  (xs <> [] -> List.last xs 0 ∈ ls r /\ List.last xs 0 <> x) /\ (xs = [] -> List.last xs 0 = 0) /\
  (ys <> [] -> hd 0 ys ∈ ls r /\ hd 0 ys <> x).
Proof.
  intros HL Els. destruct (lk_list _ _ HL r) as [_ _ D3 _]. rewrite (lk_id _ _ HL r), Els in D3.
  apply seg_app in D3 as [_ (P1 & P2 & P3 & _)].
  pose proof (links_nodup _ _ r HL) as Hnd. rewrite Els in *.
  apply list.NoDup_app in Hnd as (_ & Hd & Hn2). apply list.NoDup_cons in Hn2 as [Hxy _].
  split; [done |]. split; [done |]. split; [done |]. split; [|split; [by intros -> |]].
  - intros Hne. assert (List.last xs 0 ∈ xs) as Hin by (destruct xs; [done | apply last_in]).
    split; [set_solver |]. intros E. apply (Hd _ Hin). rewrite E. set_solver.
  - intros Hne. destruct ys as [|y ys]; [done |]. simpl. set_solver.
Qed.

Lemma wp_unlink_prev r xs x ys (Q : unit -> sos K -> Prop) F s ls :
  links (s_ft s) ls -> ls r = xs ++ x :: ys ->
  (forall t', sizes (s_ft s) t' -> (forall r', r' <> r -> ft_list t' r' = ft_list (s_ft s) r') ->
     ft_list t' r = fl_set_first (hd 0 (xs ++ ys)) (ft_list (s_ft s) r) ->
     (forall w, frame_at t' w = if decide (xs <> [] /\ w = List.last xs 0)
        then f_set_next (hd 0 ys) (frame_at (s_ft s) w) else frame_at (s_ft s) w) ->
     Q tt (set_ft t' s)) ->
  wp (if negb (prev (frame_at (s_ft s) x) =? NULL_FRAME) then
        let* pv := frame_from_ref (prev (frame_at (s_ft s) x)) in
        frame_write pv (f_set_next (next (frame_at (s_ft s) x)))
      else list_write r (fl_set_first (next (frame_at (s_ft s) x)))) Q F s.
Proof.
  intros HL Els HQ. destruct (links_middle _ _ _ _ _ _ HL Els) as (P1 & P2 & _ & Hp & Hp0 & _).
  destruct (lk_list _ _ HL r) as [D1 _ _ _]. rewrite P1, P2. rewrite (set_ft_id s). unfold NULL_FRAME.
  destruct xs as [|a xs].
  - simpl. eapply (wp_lw _ _ _ _ (s_ft s)); [done |]. intros t' Hsz A L. apply HQ; [done | | |].
    + intros r' Hr'. by rewrite L, decide_False.
    + by rewrite L, decide_True.
    + intros w. rewrite A, decide_False; [done |]. by intros [? _].
  - destruct Hp as [Hin Hne]; [done |]. pose proof (links_in_range _ _ r _ HL Hin) as Hr.
    destruct (Z.eqb_spec (List.last (a :: xs) 0) 0); [lia |]. cbn [negb]. rewrite wp_bind.
    eapply (wp_ffr _ _ _ (s_ft s)); [done | lia | lia |].
    eapply (wp_fw _ _ _ _ (s_ft s)); [done | lia |]. intros t' Hsz A L. apply HQ; [done | done | |].
    + rewrite L. rewrite Els in D1. simpl in D1 |- *. rewrite <- D1. by destruct (ft_list (s_ft s) r).
    + intros w. rewrite A. case_decide as E; [subst w; by rewrite decide_True |].
      rewrite decide_False; [done |]. intros [_ ->]. done.
Qed.

Lemma wp_unlink_next r xs x ys (Q : unit -> sos K -> Prop) F t0 t s ls :
  links t0 ls -> ls r = xs ++ x :: ys -> sizes t0 t ->
  SosState.last (ft_list t r) = SosState.last (ft_list t0 r) ->
  (forall t', sizes t0 t' -> (forall r', r' <> r -> ft_list t' r' = ft_list t r') ->
     ft_list t' r = fl_set_last (List.last (xs ++ ys) 0) (ft_list t r) ->
     (forall w, frame_at t' w = if decide (ys <> [] /\ w = hd 0 ys)
        then f_set_prev (List.last xs 0) (frame_at t w) else frame_at t w) ->
     Q tt (set_ft t' s)) ->
  wp (if negb (hd 0 ys =? NULL_FRAME) then
        let* nx := frame_from_ref (hd 0 ys) in frame_write nx (f_set_prev (List.last xs 0))
      else list_write r (fl_set_last (List.last xs 0))) Q F (set_ft t s).
Proof.
  intros HL Els Hsz Hl HQ. destruct (links_middle _ _ _ _ _ _ HL Els) as (_ & _ & _ & _ & _ & Hn).
  destruct (lk_list _ _ HL r) as [_ D2 _ _]. unfold NULL_FRAME. destruct ys as [|b ys].
  - simpl. eapply wp_lw; [done |]. intros t' Hsz' A L. apply HQ; [done | | |].
    + intros r' Hr'. by rewrite L, decide_False.
    + by rewrite L, decide_True, app_nil_r.
    + intros w. rewrite A, decide_False; [done |]. by intros [? _].
  - destruct Hn as [Hin Hne]; [done |]. simpl hd in *. pose proof (links_in_range _ _ r _ HL Hin) as Hr.
    destruct (Z.eqb_spec b 0); [lia |]. cbn [negb]. rewrite wp_bind.
    eapply wp_ffr; [done | lia | lia |]. eapply wp_fw; [done | lia |].
    intros t' Hsz' A L. apply HQ; [done | done | |].
    + rewrite L. assert (List.last (xs ++ b :: ys) 0 = SosState.last (ft_list t r)) as ->.
      { rewrite Hl, D2, Els. clear. revert x. induction xs as [|a xs IH]; intros x; [done |].
        simpl app. rewrite !last_cons. destruct xs; [done |].
        simpl app. rewrite !(last_cons_default _ _ a 0). apply IH. }
      by destruct (ft_list t r).
    + intros w. rewrite A. case_decide as E; [subst w; by rewrite decide_True |].
      rewrite decide_False; [done |]. intros [_ ->]. done.
Qed.
Lemma wp_remove_frame r xs x ys (Q : unit -> sos K -> Prop) F s ls :
  links (s_ft s) ls -> ls r = xs ++ x :: ys ->
  (forall t', links t' (updl ls r (xs ++ ys)) -> loose t' (updl ls r (xs ++ ys)) x ->
     same_pages (s_ft s) t' -> Q tt (set_ft t' s)) ->
  wp (remove_frame r (Some x)) Q F s.
Proof.
  intros HL Els HQ. destruct (links_middle _ _ _ _ _ _ HL Els) as (P1 & P2 & P3 & Hp & Hp0 & Hn).
  pose proof (links_in_range _ _ r x HL ltac:(rewrite Els; set_solver)) as Hxr.
  assert (forall w, w ∈ ls r -> 0 <= w < 2 ^ 19) as Hsm by (intros w Hw;
    pose proof (links_in_range _ _ r w HL Hw); lia).
  assert (0 <= List.last xs 0 < 2 ^ 19) as Hl19.
  { destruct (decide (xs = [])) as [->|Hne]; [done |]. apply Hsm, Hp, Hne. }
  assert (0 <= hd 0 ys < 2 ^ 19) as Hh19.
  { destruct (decide (ys = [])) as [->|Hne]; [done |]. apply Hsm, Hn, Hne. }
  unfold remove_frame, deref. rewrite wp_bind, wp_assert. simpl. rewrite wp_bind, wp_ret, wp_bind.
  apply wp_frame_read; [lia |]. rewrite wp_bind, wp_gets, wp_bind, wp_assert, (lk_id _ _ HL r), P3, Z.eqb_refl.
  rewrite wp_bind. apply wp_frame_read; [lia |]. rewrite wp_bind.
  eapply wp_unlink_prev; [done | done |]. intros t1 Hsz1 L1 L1r A1.
  assert (frame_at t1 x = frame_at (s_ft s) x) as A1x.
  { rewrite A1, decide_False; [done |]. intros [Hne E]. by destruct (Hp Hne) as [_ []]. }
  rewrite wp_bind. eapply wp_fr; [done | lia |]. rewrite A1x, P1, P2, wp_bind.
  eapply wp_unlink_next; [done | done | done | by rewrite L1r |]. intros t2 Hsz2 L2 L2r A2.
  rewrite wp_bind. eapply wp_lw; [done |]. intros t3 Hsz3 A3 L3.
  rewrite wp_bind. eapply wp_fw; [done | lia |]. intros t4 Hsz4 A4 L4.
  rewrite wp_bind. eapply wp_fw; [done | lia |]. intros t5 Hsz5 A5 L5.
  eapply wp_fw; [done | lia |]. intros t6 Hsz6 A6 L6.
  assert (frame_at t6 x = mkFrame (sos_page (frame_at (s_ft s) x)) 0 0 NO_LIST) as Ax.
  { rewrite A6, decide_True, A5, decide_True, A4, decide_True, A3, A2 by done.
    rewrite decide_False, A1x; [done |]. intros [Hne E]. by destruct (Hn Hne) as [_ []]. }
  assert (forall w, w <> x -> frame_at t6 w =
     mkFrame (sos_page (frame_at (s_ft s) w))
       (if decide (ys <> [] /\ w = hd 0 ys) then List.last xs 0 else prev (frame_at (s_ft s) w))
       (if decide (xs <> [] /\ w = List.last xs 0) then hd 0 ys else next (frame_at (s_ft s) w))
       (list_id (frame_at (s_ft s) w))) as Aw.
  { intros w Hw. rewrite A6, decide_False, A5, decide_False, A4, decide_False, A3, A2, A1 by done.
    unfold f_set_prev, f_set_next. rewrite (small19 _ Hl19), (small19 _ Hh19).
    repeat case_decide; by destruct (frame_at (s_ft s) w). }
  assert (same_pages (s_ft s) t6) as Hpg.
  { apply sizes_pages; [done |]. intros y. destruct (decide (y = x)) as [->|]; [by rewrite Ax | by rewrite Aw]. }
  destruct (links_removed (s_ft s) t6 ls r xs x ys) as [HL' Hlo']; try done.
  - intros r' Hr'. by rewrite L6, L5, L4, L3, decide_False, L2, L1.
  - rewrite L6, L5, L4, L3, decide_True, L2r, L1r by done. unfold fl_add_length. simpl.
    by rewrite (lk_id _ _ HL r).
  - by apply HQ.
Qed.
End ListOps.

(** ** Allocating and freeing frames *)

(** Every frame ever taken into use is in exactly one of the lists: [fs] are
    free, [al] allocated. *)
Definition ft_rep (t : frame_table_t) (fs al : list Z) : Prop :=
  links t (fun r => match r with FlFree => fs | FlAllocated => al end) /\
  (forall x, 1 <= x < ft_used t -> x ∈ fs ++ al) /\
  (0 <= ft_capacity t <= ft_byte_length t / sizeof_frame /\ ft_capacity t <> 1).

Lemma updl_free fs al xs r :
  updl (fun r => match r with FlFree => fs | FlAllocated => al end) FlFree xs r
  = match r with FlFree => xs | FlAllocated => al end.
Proof. by destruct r. Qed.
Lemma updl_alloc fs al xs r :
  updl (fun r => match r with FlFree => fs | FlAllocated => al end) FlAllocated xs r
  = match r with FlFree => fs | FlAllocated => xs end.
Proof. by destruct r. Qed.

Lemma links_ext t ls ls' : (forall r, ls r = ls' r) -> links t ls -> links t ls'.
Proof.
  intros E [A B C D G H]. split; try done; intros *; rewrite <- ?E; try done. apply D.
Qed.

Section AllocFree.
Context {K : Type} {HE : Env K} (FRAME_LIMIT : Z) (G : untouched).
Implicit Types (s : sos K) (F : fault -> Prop) (X : gset Z).

Lemma rest_ft s s' : rest s' = rest s -> s_ft s' = s_ft s.
Proof. by intros [= ]. Qed.

(** Mapping a new page keeps the rest of SOS in order, whatever its outcome. *)
Lemma wp_alloc_frame_at X vaddr s (Q : Z -> sos K -> Prop) :
  let p := ft_cspace (s_ft s) in
  sys_inv G p X s -> (forall r s', sys_inv G p X s' -> s_ft s' = s_ft s -> Q r s') ->
  wp (alloc_frame_at vaddr) Q boot_fault s.
Proof.
  intros p Hs HQ. unfold alloc_frame_at. rewrite wp_bind.
  eapply sys_ut_alloc; [done | simpl; rewrite wp_ret; by apply HQ |].
  intros x a s1 Hx HxX Hs1 Hst1. destruct (Z.eqb_spec x 0); [done |].
  rewrite wp_bind, wp_gets, wp_bind. pose proof (rest_ft _ _ (proj1 Hst1)) as E1. rewrite E1. fold p.
  assert (forall s', sys_inv G p ({[x]} ∪ X) s' -> sys_step p s s' ->
    wp (do* ut_free x in ret seL4_CapNull) Q boot_fault s') as Hgive.
  { intros s' Hs' Hst'. rewrite wp_bind. eapply sys_ut_free; [done | done |].
    intros s2 Hs2 Hst2. rewrite wp_ret. apply HQ; [done |]. apply rest_ft.
    etrans; [apply Hst2 | apply Hst']. }
  eapply sys_alloc_slot; [done |]. intros r s2 Hs2 Hst2 Hslot.
  assert (sys_step p s s2) as Hst02 by by etrans.
  destruct (Z.eqb_spec r seL4_CapNull) as [|Hr]; [by apply Hgive |]. specialize (Hslot Hr).
  rewrite wp_bind. apply wp_ut_read; [done |]. rewrite wp_bind.
  eapply sys_retype; [done |]. intros err s3 Hs3 Hst3.
  assert (sys_step p s s3) as Hst03 by by etrans.
  assert (slot_of p r s3) as Hslot3 by by apply Hst3.
  assert (forall s', sys_inv G p ({[x]} ∪ X) s' -> sys_step p s s' -> slot_of p r s' ->
    wp (do* cspace_free_slot p r in do* ut_free x in ret seL4_CapNull) Q boot_fault s') as Hgive2.
  { intros s' Hs' Hst' Hsl. rewrite wp_bind. eapply sys_free_slot; [done | done |].
    intros s4 Hs4 Hst4. apply Hgive; [done | by etrans]. }
  destruct (negb (err =? 0)); [by apply Hgive2 |].
  rewrite wp_bind. eapply sys_map_frame; [done |]. intros err2 s4 Hs4 Hst4.
  assert (sys_step p s s4) as Hst04 by by etrans.
  destruct (negb (err2 =? 0)).
  - rewrite wp_bind. eapply sys_delete; [done |]. intros e s5 Hs5 Hst5.
    apply Hgive2; [done | by etrans |]. apply Hst5, Hst4, Hslot3.
  - rewrite wp_ret. apply HQ; [eapply sys_weaken; [|done]; set_solver | apply rest_ft, Hst04].
Qed.

(** Freeing moves a frame from the allocated to the front of the free list. *)
Lemma wp_free_frame x xs ys fs (Q : unit -> sos K -> Prop) F s :
  ft_rep (s_ft s) fs (xs ++ x :: ys) ->
  (forall t', ft_rep t' (x :: fs) (xs ++ ys) -> same_pages (s_ft s) t' -> Q tt (set_ft t' s)) ->
  wp (free_frame x) Q F s.
Proof.
  intros (HL & Hall & Hb) HQ.
  pose proof (links_in_range _ _ FlAllocated x HL ltac:(set_solver)) as Hxr.
  unfold free_frame, NULL_FRAME. destruct (Z.eqb_spec x 0); [lia |]. cbn [negb].
  rewrite wp_bind. apply wp_frame_from_ref; [lia | lia |]. rewrite wp_bind.
  eapply wp_remove_frame; [done | done |]. intros t1 HL1 Hlo1 Hp1.
  eapply wp_push_front; [done | done |]. simpl s_ft. intros t2 HL2 Hp2. rewrite set_ft_twice.
  apply HQ; [|by etrans]. split; [|split].
  - eapply links_ext; [|exact HL2]. intros r. by destruct r.
  - destruct Hp1 as (_ & U1 & _), Hp2 as (_ & U2 & _). rewrite U2, U1. intros y Hy.
    specialize (Hall y Hy). set_solver.
  - destruct Hp1 as (C1 & _ & B1 & _), Hp2 as (C2 & _ & B2 & _). by rewrite C2, C1, B2, B1.
Qed.

(** Allocation reuses the first free frame, if there is one. *)
Lemma wp_alloc_frame_reuse x fs al (Q : Z -> sos K -> Prop) F s :
  ft_rep (s_ft s) (x :: fs) al ->
  (forall t', ft_rep t' fs (al ++ [x]) -> same_pages (s_ft s) t' -> Q x (set_ft t' s)) ->
  wp (alloc_frame FRAME_LIMIT) Q F s.
Proof.
  intros (HL & Hall & Hb) HQ. unfold alloc_frame. rewrite wp_bind.
  eapply wp_pop_front; [done | done |]. intros t1 HL1 Hlo1 Hp1.
  rewrite wp_bind, wp_ret, wp_bind. eapply wp_push_back; [done | done |]. simpl s_ft.
  intros t2 HL2 Hp2. rewrite set_ft_twice. destruct Hlo1 as [Hxr _].
  apply wp_ref_from_frame; [simpl; destruct Hp2 as (_ & -> & _); lia |].
  apply HQ; [|by etrans]. split; [|split].
  - eapply links_ext; [|exact HL2]. intros r. by destruct r.
  - destruct Hp1 as (_ & U1 & _), Hp2 as (_ & U2 & _). rewrite U2, U1. intros y Hy.
    specialize (Hall y Hy). set_solver.
  - destruct Hp1 as (C1 & _ & B1 & _), Hp2 as (C2 & _ & B2 & _). by rewrite C2, C1, B2, B1.
Qed.
(** The configured limit, and room for another page of the table. *)
Definition limit_ok (t : frame_table_t) : Prop :=
  FRAME_LIMIT = 0 \/ (2 <= FRAME_LIMIT <= 2 ^ 19 /\ ft_capacity t <= FRAME_LIMIT).
Definition table_room (t : frame_table_t) : Prop := ft_byte_length t + 4096 <= 8 * 2 ^ 19.

Lemma wp_bump_capacity X fs al s (Q : Z -> sos K -> Prop) :
  let t := s_ft s in let p := ft_cspace t in
  sys_inv G p X s -> ft_rep t fs al -> limit_ok t -> table_room t ->
  (forall s', sys_inv G p X s' -> s_ft s' = t -> Q (-1) s') ->
  (forall s' bytes cap, sys_inv G p X s' -> s_ft s' = ft_set_size bytes cap t ->
     ft_capacity t < cap -> 2 <= cap <= 2 ^ 19 -> cap <= bytes / sizeof_frame ->
     bytes = ft_byte_length t + 4096 -> limit_ok (s_ft s') -> Q 0 s') ->
  wp (bump_capacity FRAME_LIMIT) Q boot_fault s.
Proof.
  intros t p Hs (HL & _ & Hb & Hc1) Hlim Hroom Hno Hyes. unfold bump_capacity. rewrite wp_bind, wp_gets.
  fold t. destruct (negb (FRAME_LIMIT =? 0) && (ft_capacity t =? FRAME_LIMIT)) eqn:E.
  { rewrite wp_ret. by apply Hno. }
  rewrite wp_bind. eapply wp_alloc_frame_at; [done |]. intros r s1 Hs1 E1. fold t p in E1, Hs1.
  destruct (r =? seL4_CapNull); [rewrite wp_ret; by apply Hno |].
  rewrite wp_bind, wp_gets, E1. cbv zeta. unfold ft_modify. rewrite wp_bind, wp_modify, wp_ret, E1.
  unfold sizeof_frame, table_room in *. change (BIT seL4_PageBits) with 4096.
  assert (w64 (ft_byte_length t + 4096) = ft_byte_length t + 4096) as ->.
  { unfold w64. rewrite Z.mod_small; lia. }
  eapply Hyes; [by eapply sys_above | done | | | | done |]; unfold limit_ok; simpl ft_capacity.
  all: destruct (Z.eqb_spec FRAME_LIMIT 0), Hlim as [?|[? ?]]; try lia.
  all: destruct (Z.eqb_spec (ft_capacity t) FRAME_LIMIT); simpl in E; try done; lia.
Qed.

(** A new frame [i] at the end of the used part. *)
Lemma links_fresh t t' ls i page :
  links t ls -> ft_used t <= i -> 1 <= i -> ft_used t' = i + 1 -> i < ft_capacity t' -> ft_capacity t' <= 2 ^ 19 ->
  (forall r, ft_list t' r = ft_list t r) ->
  (forall z, frame_at t' z = if decide (i = z) then mkFrame page 0 0 NO_LIST else frame_at t z) ->
  links t' ls /\ loose t' ls i.
Proof.
  intros HL Hi H1 Hu Hc Hc' Hl Hat.
  assert (forall r, i ∉ ls r) as Hni.
  { intros r Hin. pose proof (lk_range _ _ HL r i Hin). lia. }
  split.
  - split; try done.
    + intros r. rewrite Hl. destruct (lk_list _ _ HL r) as [D1 D2 D3 D4]. split; try done.
      eapply seg_ext; [|done]. intros x Hx. rewrite Hat, decide_False; [done |]. intros ->. by apply (Hni r).
    + intros r. rewrite Hl. apply (lk_id _ _ HL).
    + apply (lk_nodup _ _ HL).
    + intros r x Hx. pose proof (lk_range _ _ HL r x Hx). lia.
    + lia.
  - unfold loose. rewrite Hat, decide_True by done. split; [lia |]. done.
Qed.

(** The part of [alloc_fresh_frame] after the capacity has been seen to: table
    [t] has room for one more frame. *)
Lemma wp_take_fresh X fs al s (Q : frame_ptr -> sos K -> Prop) :
  let t := s_ft s in let p := ft_cspace t in let i := Z.max 1 (ft_used t) in
  sys_inv G p X s -> ft_rep t fs al -> ft_used t < ft_capacity t ->
  (forall s', sys_inv G p X s' -> Q None s') ->
  (forall s' page, sys_inv G p X s' ->
     s_ft s' = ft_set_frame i (mkFrame page 0 0 NO_LIST) (ft_set_used (i + 1) t) -> Q (Some i) s') ->
  wp (do* (if ft_used t =? 0 then ft_modify (fun t => ft_set_used (ft_used t + 1) t) else ret tt) in
      let* t := gets s_ft in
      let frame := ft_used t in
      do* ft_modify (fun t => ft_set_used (ft_used t + 1) t) in
      let* ref := ref_from_frame (Some frame) in
      let* vaddr := frame_data ref in
      let* page := alloc_frame_at vaddr in
      if page =? seL4_CapNull then
        do* ft_modify (fun t => ft_set_used (ft_used t - 1) t) in ret None
      else
        do* frame_write frame (fun _ => mkFrame (page mod 2 ^ 20) 0 0 NO_LIST) in
        ret (Some frame)) Q boot_fault s.
Proof.
  intros t p i Hs (HL & _ & Hb & Hc1) Huc Hno Hyes. pose proof (lk_used _ _ HL) as Hu.
  assert (i < ft_capacity t) as Hi by lia.
  rewrite wp_bind.
  assert (wp (if ft_used t =? 0 then ft_modify (fun t => ft_set_used (ft_used t + 1) t) else ret tt)
    (fun _ s1 => s1 = set_ft (ft_set_used i t) s) boot_fault s) as Hmax.
  { destruct (Z.eqb_spec (ft_used t) 0); unfold ft_modify; rewrite ?wp_modify, ?wp_ret; fold t.
    - do 2 f_equal. lia.
    - assert (i = ft_used t) as -> by lia. unfold t. by destruct s as [? ? ? ? []]. }
  eapply wp_mono; [exact Hmax | | done]. intros _ s1 ->. unfold ft_modify, frame_data, NULL_FRAME.
  rewrite wp_bind, wp_gets. cbv zeta. rewrite wp_bind, wp_modify. simpl s_ft. cbn [ft_used ft_set_used].
  rewrite wp_bind. apply wp_ref_from_frame; [simpl; lia |].
  rewrite !wp_bind, wp_assert. destruct (Z.eqb_spec i 0); [lia |]. cbn [negb].
  rewrite wp_bind, wp_gets. cbn [s_ft set_ft ft_capacity ft_set_used]. rewrite wp_bind, wp_assert.
  destruct (Z.ltb_spec i (ft_capacity t)); [|lia]. rewrite wp_ret, wp_bind.
  eapply (wp_alloc_frame_at X); [by eapply sys_above; [exact Hs | | |] |].
  intros page s2 Hs2 E2. simpl s_ft in E2. cbn [ft_cspace ft_set_used] in Hs2. simpl in Hs2.
  destruct (page =? seL4_CapNull).
  - rewrite wp_bind, wp_modify, wp_ret. apply Hno. by eapply sys_above.
  - rewrite wp_bind. apply wp_frame_write; [rewrite E2; simpl; lia |]. rewrite wp_ret.
    eapply Hyes; [by eapply sys_above |]. simpl. by rewrite E2.
Qed.
Lemma rep_resize t fs al bytes cap :
  ft_rep t fs al -> ft_capacity t < cap -> 2 <= cap <= 2 ^ 19 -> cap <= bytes / sizeof_frame ->
  ft_rep (ft_set_size bytes cap t) fs al.
Proof.
  intros (HL & Hall & Hb & Hc) H1 H2 H3. split; [|split; [done |]].
  - destruct HL as [A B C D E I]. split; try done; simpl in *; [|lia | lia].
    intros r. destruct (A r) as [D1 D2 D3 D4].
    destruct r; (split; [done | done | by eapply seg_ext; [|exact D3] | done]).
  - simpl. lia.
Qed.

(** [alloc_fresh_frame] returns a loose frame that was never used, or [NULL]. *)
Lemma wp_alloc_fresh X al s (Q : frame_ptr -> sos K -> Prop) :
  let t := s_ft s in let p := ft_cspace t in let i := Z.max 1 (ft_used t) in
  let ls := fun r => match r with FlFree => [] | FlAllocated => al end in
  sys_inv G p X s -> ft_rep t [] al -> limit_ok t -> table_room t ->
  (forall s', sys_inv G p X s' -> Q None s') ->
  (forall s', sys_inv G p X s' -> links (s_ft s') ls -> loose (s_ft s') ls i ->
     ft_used (s_ft s') = i + 1 -> ft_cspace (s_ft s') = p ->
     0 <= ft_capacity (s_ft s') <= ft_byte_length (s_ft s') / sizeof_frame -> ft_capacity (s_ft s') <> 1 ->
     ft_byte_length (s_ft s') <= ft_byte_length t + 4096 -> limit_ok (s_ft s') -> Q (Some i) s') ->
  wp (alloc_fresh_frame FRAME_LIMIT) Q boot_fault s.
Proof.
  intros t p i ls Hs Hrep Hlim Hroom Hno Hyes. pose proof Hrep as (HL & Hall & Hb & Hc1).
  pose proof (lk_used _ _ HL) as Hu. pose proof (lk_cap _ _ HL) as Hcap.
  unfold alloc_fresh_frame. rewrite wp_bind, wp_gets, wp_bind, wp_assert. fold t.
  destruct (Z.leb_spec (ft_used t) (ft_capacity t)); [|lia]. rewrite wp_bind, wp_assert.
  assert ((FRAME_LIMIT =? 0) || (ft_capacity t <=? FRAME_LIMIT) = true) as ->.
  { destruct Hlim as [->|[_ ?]]; [done |]. apply orb_true_iff. right. by apply Z.leb_le. }
  rewrite wp_bind.
  (* what follows, from a table [t1] with room *)
  assert (forall s1, sys_inv G p X s1 -> ft_rep (s_ft s1) [] al -> ft_cspace (s_ft s1) = p ->
    ft_used (s_ft s1) = ft_used t -> ft_used (s_ft s1) < ft_capacity (s_ft s1) ->
    ft_byte_length (s_ft s1) <= ft_byte_length t + 4096 -> limit_ok (s_ft s1) ->
    wp (alloc_fresh_rest) Q boot_fault s1) as Hgo.
  { intros s1 Hs1 Hrep1 Hp1 Hu1 Hlt Hby1 Hlim1. unfold alloc_fresh_rest. rewrite wp_bind, wp_gets, wp_bind, wp_assert.
    destruct (Z.ltb_spec (ft_used (s_ft s1)) (ft_capacity (s_ft s1))); [|lia].
    eapply (wp_take_fresh X [] al); rewrite ?Hp1; try done.
    rewrite Hu1. fold i. intros s2 page Hs2 E2. pose proof Hrep1 as (HL1 & _ & Hb1 & Hc2).
    destruct (links_fresh (s_ft s1) (s_ft s2) ls i page) as [HL2 Hlo2]; try done; rewrite ?E2; simpl;
      try lia; [apply (lk_cap _ _ HL1) | by intros [] | intros z; apply (frame_at_set i _ (ft_set_used (i + 1) (s_ft s1))) |].
    apply Hyes; rewrite ?E2 in *; done. }
  destruct (Z.eqb_spec (ft_used t) (ft_capacity t)) as [Heq|Hne].
  - eapply (wp_bump_capacity X [] al); [done | done | done | done | |].
    { intros s1 Hs1 _. cbn [negb Z.eqb]. rewrite wp_ret. by apply Hno. }
    intros s1 bytes cap Hs1 E1 Hc Hc2 Hc3 Hby Hlim1. cbn [negb Z.eqb]. apply Hgo; rewrite ?E1 in *; try done.
    + by apply rep_resize.
    + fold t in Hc. change (ft_used t < cap). lia.
    + simpl. fold t in Hby. lia.
  - rewrite wp_ret. cbn [negb Z.eqb]. apply Hgo; try done.
    + change (ft_used t < ft_capacity t). lia.
    + fold t. lia.
Qed.
Lemma wp_alloc_frame_fresh X al s (Q : Z -> sos K -> Prop) :
  let t := s_ft s in let p := ft_cspace t in
  sys_inv G p X s -> ft_rep t [] al -> limit_ok t -> table_room t ->
  (forall s', sys_inv G p X s' -> ft_rep (s_ft s') [] (al ++ [Z.max 1 (ft_used t)]) ->
     ft_cspace (s_ft s') = p -> ft_used (s_ft s') = Z.max 1 (ft_used t) + 1 ->
     ft_byte_length (s_ft s') <= ft_byte_length t + 4096 -> limit_ok (s_ft s') ->
     Q (Z.max 1 (ft_used t)) s') ->
  wp (alloc_frame FRAME_LIMIT) Q boot_fault s.
Proof.
  intros t p Hs Hrep Hlim Hroom HQ. pose proof Hrep as (HL & Hall & _).
  remember (Z.max 1 (ft_used t)) as i eqn:Hi.
  unfold alloc_frame. rewrite wp_bind. eapply wp_pop_front_empty; [exact HL | done |].
  rewrite wp_bind. eapply (wp_alloc_fresh X al); [done | done | done | done | |].
  { intros s1 _. rewrite wp_bind, wp_ret. unfold ref_from_frame. wp_steps. simpl. by right. }
  fold t. rewrite <- Hi. intros s1 Hs1 HL1 Hlo1 Hu1 Hp1 Hb1 Hc1 Hby1 Hlim1. rewrite wp_bind.
  eapply wp_push_back; [done | done |]. intros t2 HL2 Hp2. pose proof Hp2 as (C2 & U2 & B2 & P2 & _).
  apply wp_ref_from_frame; [simpl; rewrite U2, Hu1; lia |].
  apply HQ; [by eapply sys_above | | simpl; by rewrite P2 | simpl; by rewrite U2 | simpl; by rewrite B2 |].
  2: { unfold limit_ok in *. simpl. by rewrite C2. }
  simpl s_ft. split; [|split].
  - eapply links_ext; [|exact HL2]. by intros [].
  - rewrite U2, Hu1. intros x Hx. destruct (decide (x = i)) as [->|]; [set_solver |].
    specialize (Hall x ltac:(lia)). set_solver.
  - by rewrite C2, B2.
Qed.
End AllocFree.
