(* ===== verification/FrameThms.v ===== *)
(** * The frame table: theorems

    The abstract frame table (two lists and a counter), the refinement theorem
    from it to the linked lists of frame_table.c, and what it means for single
    operations. *)

From S2P Require Import Prelude SosState UtTable Bitfield Cspace CspaceInv Mapping Dma Bootstrap CspaceThms Sys FrameTable.

(** ** The abstract frame table *)

Record aframes := mkA { a_free : list Z; a_alloc : list Z; a_next : Z }.

Inductive fop := OAlloc | OFree (r : Z).

(** Allocation takes the first free frame, or the next fresh one; freeing makes
    the frame the first free one.  Freeing a frame that is not allocated is not
    an operation of the abstract table. *)
Definition a_step (o : fop) (a : aframes) : option (Z * aframes) :=
  match o with
  | OAlloc =>
      match a_free a with
      | x :: fs => Some (x, mkA fs (a_alloc a ++ [x]) (a_next a))
      | [] => Some (a_next a, mkA [] (a_alloc a ++ [a_next a]) (a_next a + 1))
      end
  | OFree r =>
      if decide (r ∈ a_alloc a)
      then Some (0, mkA (r :: a_free a) (filter (fun x => x <> r) (a_alloc a)) (a_next a))
      else None
  end.

Fixpoint a_run (os : list fop) (a : aframes) : option (list Z * aframes) :=
  match os with
  | [] => Some ([], a)
  | o :: os' =>
      match a_step o a with
      | Some (x, a1) =>
          match a_run os' a1 with Some (xs, a2) => Some (x :: xs, a2) | None => None end
      | None => None
      end
  end.

Section Refine.
Context {K : Type} {HE : Env K} (FRAME_LIMIT : Z).
Implicit Types (s : sos K).

Definition c_step (o : fop) : M (sos K) Z :=
  match o with
  | OAlloc => alloc_frame FRAME_LIMIT
  | OFree r => do* free_frame r in ret 0
  end.

Fixpoint c_run (os : list fop) : M (sos K) (list Z) :=
  match os with
  | [] => ret []
  | o :: os' => let* x := c_step o in let* xs := c_run os' in ret (x :: xs)
  end.

(** The simulation relation; [n] operations may still follow. *)
Record refines (n : nat) (a : aframes) s : Prop := {
  rf_rep : ft_rep (s_ft s) (a_free a) (a_alloc a);
  rf_next : a_next a = Z.max 1 (ft_used (s_ft s));
  rf_sys : exists G, sys_inv G (ft_cspace (s_ft s)) ∅ s;
  rf_limit : limit_ok FRAME_LIMIT (s_ft s);
  rf_room : ft_byte_length (s_ft s) + Z.of_nat n * 4096 <= 8 * 2 ^ 19 }.

Lemma filter_out (x : Z) (xs : list Z) : x ∉ xs -> filter (fun y => y <> x) xs = xs.
Proof.
  induction xs as [|y xs IH]; intros Hx; [done |].
  rewrite filter_cons, decide_True by set_solver. f_equal. apply IH. set_solver.
Qed.

Lemma filter_split (xs : list Z) x ys : NoDup (xs ++ x :: ys) ->
  filter (fun y => y <> x) (xs ++ x :: ys) = xs ++ ys.
Proof.
  intros Hnd. apply list.NoDup_app in Hnd as (_ & Hd & Hn). apply list.NoDup_cons in Hn as [Hx _].
  rewrite list.filter_app, filter_cons, decide_False, !filter_out; [done | done | | tauto].
  intros Hin. apply (Hd x Hin). set_solver.
Qed.

(** Nothing that matters to the relation but the table changes. *)
Lemma refines_table n a a' s t' :
  refines (S n) a s -> ft_rep t' (a_free a') (a_alloc a') -> a_next a' = a_next a ->
  same_pages (s_ft s) t' -> refines n a' (set_ft t' s).
Proof.
  intros [R1 R2 R3 R4 R5] Hrep Hn (C & U & B & P & _). split; simpl; try done.
  - by rewrite Hn, R2, U.
  - rewrite P. destruct R3 as [G R3]. exists G. by eapply sys_above.
  - unfold limit_ok in *. by rewrite C.
  - rewrite B. lia.
Qed.

Lemma refine_step n o a x a' s : a_step o a = Some (x, a') -> refines (S n) a s ->
  wp (c_step o) (fun y s' => y = x /\ refines n a' s') boot_fault s.
Proof.
  intros Ha Hr. pose proof Hr as [R1 R2 R3 R4 R5]. destruct o as [|r]; simpl in Ha |- *.
  - destruct (a_free a) as [|y fs] eqn:Ef; injection Ha as <- <-.
    + destruct R3 as [G R3]. rewrite R2. eapply wp_alloc_frame_fresh; [done | done | done | unfold table_room; lia |].
      intros s' Hs' Hrep' Hp' Hu' Hb' Hl'. split; [done |]. rewrite <- Hp' in Hs'.
      split; simpl; try done; [lia | by exists G | lia].
    + eapply wp_alloc_frame_reuse; [done |]. intros t' Hrep' Hp'. split; [done |].
      by eapply refines_table.
  - case_decide as Hin; [|done]. injection Ha as <- <-.
    destruct (list_elem_of_split _ _ Hin) as (xs & ys & E).
    rewrite wp_bind. rewrite E in R1. eapply wp_free_frame; [done |]. intros t' Hrep' Hp'. rewrite wp_ret.
    split; [done |]. eapply refines_table; [done | | done | done]. simpl.
    destruct R1 as (HL & _). pose proof (links_nodup _ _ FlAllocated HL) as Hnd.
    by rewrite E, filter_split.
Qed.

Lemma refine_run os a xs a' s : a_run os a = Some (xs, a') -> refines (length os) a s ->
  wp (c_run os) (fun ys s' => ys = xs /\ refines 0 a' s') boot_fault s.
Proof.
  revert a xs s. induction os as [|o os IH]; intros a xs s Ha Hr; simpl in *.
  { injection Ha as <- <-. by rewrite wp_ret. }
  destruct (a_step o a) as [[x a1]|] eqn:E1; [|done].
  destruct (a_run os a1) as [[xs1 a2]|] eqn:E2; [|done]. injection Ha as <- <-.
  rewrite wp_bind. eapply wp_mono; [by eapply refine_step | | done].
  intros y s1 [-> Hr1]. rewrite wp_bind. eapply wp_mono; [by eapply IH | | done].
  intros ys s2 [-> Hr2]. by rewrite wp_ret.
Qed.
End Refine.

(** C1: The frame table refines two lists.  Any sequence of allocations and frees
    that the abstract table allows (only allocated frames are freed) behaves on
    the linked 19-bit indices of frame_table.c exactly as on the lists: the same
    frames are returned in the same order, the linked lists hold the abstract
    lists afterwards, and the rest of SOS stays in order.  A run may instead stop, at
    any of its steps, with a failed assertion or a null dereference, as it does when
    the table or the allocators below are exhausted; other faults do not occur. *)
Theorem frame_table_refines {K} {HE : Env K} (FRAME_LIMIT : Z) (os : list fop) (a a' : aframes)
    (xs : list Z) (s : sos K) :
  a_run os a = Some (xs, a') -> refines FRAME_LIMIT (length os) a s ->
  wp (c_run FRAME_LIMIT os) (fun ys s' => ys = xs /\ refines FRAME_LIMIT 0 a' s') boot_fault s.
Proof. apply refine_run. Qed.

(** The state before the first allocation, with the cspace of [demo2]. *)
Definition demo_frames : sos (nat * Z) :=
  set_ft (mkFrameTable ∅ 0 0 0 (mkFrameList FREE_LIST 0 0 0) (mkFrameList ALLOCATED_LIST 0 0 0) 8 3)
    (demo2_sos (0%nat, 0)).

Lemma demo_frames_refines n : (n <= 100)%nat ->
  @refines _ tables_env 0 n (mkA [] [] 1) demo_frames.
Proof.
  intros Hn. split; simpl; try done.
  - split; [|split; [intros x Hx; simpl in Hx; lia | done]].
    split; [intros []; by split | by intros [] | constructor | intros [] x; set_solver | done | done].
  - destruct demo2_inv as (l & o & Hc).
    exists demo_G. apply (sys_above (HE := tables_env) _ _ _ (demo2_sos (0%nat, 0))); [|done..].
    exists demo2, l, o. split; [done | set_solver].
  - by left.
  - lia.
Qed.

Lemma frame_table_refines_witness :
  wp (@c_run _ tables_env 0 [OAlloc; OAlloc; OFree 1; OAlloc])
     (fun ys s' => ys = [1; 2; 0; 1] /\ @refines _ tables_env 0 0 (mkA [] [2; 1] 3) s')
     boot_fault demo_frames.
Proof.
  apply (frame_table_refines (HE := tables_env) 0 [OAlloc; OAlloc; OFree 1; OAlloc] (mkA [] [] 1)).
  - reflexivity.
  - apply demo_frames_refines. simpl. lia.
Defined.

(** ** Misuse and exhaustion *)

Lemma seg_list_id t id p xs n x : seg t id p xs n -> x ∈ xs -> list_id (frame_at t x) = id.
Proof.
  revert p. induction xs as [|y xs IH]; intros p Hs Hx; [by apply not_elem_of_nil in Hx |].
  destruct Hs as (_ & _ & H3 & H4). apply list.elem_of_cons in Hx as [->|Hx]; [done | by eapply IH].
Qed.

Lemma links_list_id t ls r x : links t ls -> x ∈ ls r -> list_id (frame_at t x) = id_of r.
Proof.
  intros HL Hx. destruct (lk_list _ _ HL r) as [_ _ D _]. rewrite (lk_id _ _ HL r) in D.
  by eapply seg_list_id.
Qed.

(** A frame cannot be freed twice: [free_frame] on a frame that is on the free
    list, or on a reference beyond the table, stops at an assertion; freeing the
    null frame does nothing. *)
Theorem free_frame_checked {K} {HE : Env K} (s : sos K) (fs al : list Z) (x : Z) :
  ft_rep (s_ft s) fs al -> x ∈ fs \/ ft_capacity (s_ft s) <= x -> x <> 0 ->
  free_frame x s = inr AssertFail /\ free_frame 0 s = inl (tt, s).
Proof.
  intros (HL & _ & Hb & _) Hx Hx0. split; [|done].
  unfold free_frame, frame_from_ref, NULL_FRAME, bind, gets, ret, assert_, fail.
  destruct (Z.eqb_spec x 0); [done |]. simpl.
  destruct Hx as [Hx|Hx]; [|by destruct (Z.ltb_spec x (ft_capacity (s_ft s))); [lia |]].
  pose proof (links_in_range _ _ FlFree x HL Hx) as Hr.
  pose proof (links_list_id _ _ FlFree x HL Hx) as Hid.
  pose proof (lk_id _ _ HL FlAllocated) as Hal.
  destruct (Z.ltb_spec x (ft_capacity (s_ft s))); [|lia]. simpl.
  unfold remove_frame, frame_read, deref, bind, gets, ret, assert_, fail. simpl.
  destruct (Z.leb_spec 0 x); [|lia]. destruct (Z.ltb_spec x (ft_capacity (s_ft s))); [|lia]. simpl.
  simpl in Hal. by rewrite Hid, Hal.
Qed.

(** The demo table after two allocations and a free: frame 1 is free. *)
Definition demo_freed : sos (nat * Z) :=
  match @c_run _ tables_env 0 [OAlloc; OAlloc; OFree 1] demo_frames with
  | inl (_, s) => s
  | inr _ => demo_frames
  end.

Lemma demo_freed_rep : ft_rep (s_ft demo_freed) [1] [2].
Proof.
  assert (wp (@c_run _ tables_env 0 [OAlloc; OAlloc; OFree 1])
    (fun ys s' => ys = [1; 2; 0] /\ @refines _ tables_env 0 0 (mkA [1] [2] 3) s')
    boot_fault demo_frames) as Hw.
  { eapply (refine_run (HE := tables_env) 0 _ (mkA [] [] 1)); [reflexivity |].
    apply demo_frames_refines. simpl. lia. }
  unfold demo_freed, wp in *.
  destruct (@c_run _ tables_env 0 [OAlloc; OAlloc; OFree 1] demo_frames) as [[ys s']|e] eqn:E.
  - apply Hw.
  - vm_compute in E. discriminate.
Qed.

Lemma free_frame_checked_witness :
  free_frame 1 demo_freed = inr AssertFail /\ free_frame 0 demo_freed = inl (tt, demo_freed).
Proof.
  apply (free_frame_checked (HE := tables_env) demo_freed [1] [2] 1).
  - apply demo_freed_rep.
  - left. set_solver.
  - done.
Defined.

Section Exhausted.
Context {K : Type} {HE : Env K} (FRAME_LIMIT : Z) (u : ut_table_t).
(** No 4K untyped is left: no page can be mapped while the table is [u]. *)
Hypothesis no_page : forall v (s : sos K), s_ut s = u -> alloc_frame_at v s = inl (seL4_CapNull, s).
Implicit Types (s : sos K).

Lemma wp_no_page v (Q : Z -> sos K -> Prop) F s : s_ut s = u -> Q seL4_CapNull s -> wp (alloc_frame_at v) Q F s.
Proof. intros E HQ. unfold wp. by rewrite no_page. Qed.

Lemma no_fresh_rest s : s_ut s = u ->
  wp alloc_fresh_rest (fun r _ => r = None) (fun e => e = AssertFail) s.
Proof.
  intros E. unfold alloc_fresh_rest, ft_modify, ref_from_frame, frame_data, deref.
  rewrite wp_bind, wp_gets, wp_bind, wp_assert. destruct (_ <? _); [|done]. rewrite wp_bind.
  assert (forall s1, s_ut s1 = u -> wp (let* t := gets s_ft in
    let frame := ft_used t in
    do* ft_modify (fun t => ft_set_used (ft_used t + 1) t) in
    let* ref := ref_from_frame (Some frame) in
    let* vaddr := frame_data ref in
    let* page := alloc_frame_at vaddr in
    if page =? seL4_CapNull then
      do* ft_modify (fun t => ft_set_used (ft_used t - 1) t) in ret None
    else
      do* frame_write frame (fun _ => mkFrame (page mod 2 ^ 20) 0 0 NO_LIST) in
      ret (Some frame)) (fun r _ => r = None) (fun e => e = AssertFail) s1) as Hgo.
  { intros s1 E1. unfold ft_modify, ref_from_frame, frame_data, deref. wp_steps. simpl. wp_steps. simpl.
    destruct (_ <? _); [|done]. wp_steps. destruct (negb _); [|done]. wp_steps. simpl.
    destruct (_ <? _); [|done]. wp_steps. apply wp_no_page; [done |]. simpl. by wp_steps. }
  destruct (_ =? _); rewrite ?wp_modify, ?wp_ret; by apply Hgo.
Qed.

Lemma no_fresh s : s_ut s = u ->
  wp (alloc_fresh_frame FRAME_LIMIT) (fun r _ => r = None) (fun e => e = AssertFail) s.
Proof.
  intros E. unfold alloc_fresh_frame. rewrite wp_bind, wp_gets, wp_bind, wp_assert.
  destruct (_ <=? _); [|done]. rewrite wp_bind, wp_assert. destruct (_ || _); [|done]. rewrite wp_bind.
  destruct (_ =? _); [|rewrite wp_ret; by apply no_fresh_rest].
  unfold bump_capacity. rewrite wp_bind, wp_gets. destruct (_ && _); [by wp_steps |].
  rewrite wp_bind. apply wp_no_page; [done |]. simpl. by wp_steps.
Qed.
End Exhausted.

(** Out of memory, [alloc_frame] does not return the null frame as its
    documentation says: with no free frame and an empty 4K list it stops at the
    assertion in [ref_from_frame]. *)
Theorem alloc_frame_exhausted {K} {HE : Env K} (FRAME_LIMIT : Z) (s : sos K) (al : list Z)
    (ls : head_ref -> list Z) :
  ft_rep (s_ft s) [] al -> ut_rep (s_ut s) ls -> ls L4K = [] ->
  alloc_frame FRAME_LIMIT s = inr AssertFail.
Proof.
  intros Hrep HR Hl.
  assert (forall v (s' : sos K), s_ut s' = s_ut s -> alloc_frame_at v s' = inl (seL4_CapNull, s')) as Hnone.
  { intros v s' E. assert (wp ut_alloc_4k_untyped (fun r s2 => r = (0, None) /\ s2 = s')
      (fun _ => False) s') as Hw.
    { eapply wp_ut_alloc_4k; [rewrite E; done | done |]. intros x l u' El. by rewrite Hl in El. }
    unfold alloc_frame_at, bind, wp in *. destruct (ut_alloc_4k_untyped s') as [[r s2]|]; [|done].
    by destruct Hw as [-> ->]. }
  assert (wp (alloc_frame FRAME_LIMIT) (fun _ _ => False) (fun e => e = AssertFail) s) as Hw.
  { unfold alloc_frame. rewrite wp_bind. eapply wp_pop_front_empty; [apply Hrep | done |]. rewrite wp_bind.
    eapply wp_mono; [by apply (no_fresh FRAME_LIMIT (s_ut s)) | | done]. intros r s1 ->.
    rewrite wp_bind, wp_ret. unfold ref_from_frame. by wp_steps. }
  unfold wp in Hw. destruct (alloc_frame FRAME_LIMIT s) as [[? ?]|e]; [done | by rewrite Hw].
Qed.

Definition demo_empty : sos (nat * Z) :=
  set_ut (mkUtTable 0 0 (replicate 9 0) 0 0 ∅) demo_frames.

Lemma empty_table_rep : ut_rep (mkUtTable 0 0 (replicate 9 0) 0 0 ∅) (fun _ => []).
Proof.
  split; try done.
  - intros r Hr. exists 0. split; [|done]. destruct r as [i|]; [|done]. unfold valid_ref in Hr.
    unfold head_of. destruct (Z.leb_spec 0 i), (Z.ltb_spec i N_UNTYPED_LISTS); try lia. cbn [andb free_untypeds].
    apply lookup_replicate. split; [done |]. unfold N_UNTYPED_LISTS, seL4_PageBits, seL4_EndpointBits in *. lia.
  - intros. constructor.
  - intros. set_solver.
  - intros. set_solver.
Qed.

Lemma alloc_frame_exhausted_witness : alloc_frame (H := tables_env) 0 demo_empty = inr AssertFail.
Proof.
  apply (alloc_frame_exhausted (HE := tables_env) 0 demo_empty [] (fun _ => [])).
  - apply (demo_frames_refines 0). lia.
  - apply empty_table_rep.
  - done.
Defined.

Lemma frame_data_run {K} (s : sos K) (r : Z) :
  r <> 0 -> r < ft_capacity (s_ft s) -> frame_data r s = inl (w64 (SOS_FRAME_DATA + r * 4096), s).
Proof.
  intros H0 Hr. unfold frame_data, NULL_FRAME, bind, gets, ret, assert_, fail.
  destruct (Z.eqb_spec r 0); [done |]. simpl. by destruct (Z.ltb_spec r (ft_capacity (s_ft s))); [|lia].
Qed.

(** The data pages of different frames are different pages of SOS's address
    space: for references within the table [frame_data] returns page-aligned
    addresses at least one page apart, without wrapping. *)
Theorem frame_data_disjoint {K} (s : sos K) (r r' a a' : Z) (s1 s2 : sos K) :
  ft_capacity (s_ft s) <= 2 ^ 19 -> 0 <= r -> 0 <= r' -> r <> r' ->
  frame_data r s = inl (a, s1) -> frame_data r' s = inl (a', s2) ->
  a mod 4096 = 0 /\ SOS_FRAME_DATA < a /\ a + 4096 <= SOS_FRAME_DATA + 2 ^ 31 /\
  (a + 4096 <= a' \/ a' + 4096 <= a).
Proof.
  intros Hc Hr Hr' Hne. unfold frame_data, NULL_FRAME, bind, gets, ret, assert_, fail.
  change (BIT seL4_PageBits) with 4096. unfold SOS_FRAME_DATA, w64.
  destruct (Z.eqb_spec r 0), (Z.eqb_spec r' 0); try done. simpl.
  destruct (Z.ltb_spec r (ft_capacity (s_ft s))), (Z.ltb_spec r' (ft_capacity (s_ft s))); try done.
  intros [= <- _] [= <- _]. rewrite !(Z.mod_small _ (2 ^ 64)) by lia. lia.
Qed.

Lemma frame_data_disjoint_witness :
  0x8200001000 mod 4096 = 0 /\ SOS_FRAME_DATA < 0x8200001000 /\
  0x8200001000 + 4096 <= SOS_FRAME_DATA + 2 ^ 31 /\
  (0x8200001000 + 4096 <= 0x8200002000 \/ 0x8200002000 + 4096 <= 0x8200001000).
Proof.
  apply (frame_data_disjoint demo_freed 1 2 0x8200001000 0x8200002000 demo_freed demo_freed).
  - assert (ft_capacity (s_ft demo_freed) = 512) as -> by (vm_compute; reflexivity). lia.
  - lia.
  - lia.
  - lia.
  - rewrite frame_data_run; [reflexivity | lia |].
    assert (ft_capacity (s_ft demo_freed) = 512) as -> by (vm_compute; reflexivity). lia.
  - rewrite frame_data_run; [reflexivity | lia |].
    assert (ft_capacity (s_ft demo_freed) = 512) as -> by (vm_compute; reflexivity). lia.
Defined.
