(* ===== verification/SosElf.v ===== *)
(** * Loading a program: sos/src/elf.c

    The loader of SOS works on the state of SOS and on its memory at once: it
    takes frames from the frame table, has the kernel map them into the address
    space of the program, and writes the program through SOS's own mapping of
    the frames.  A frame's page in the window of SOS belongs to the memory here;
    that it is mapped by the time the frame is handed out is what
    [alloc_frame_at] does. *)

From S2P Require Import Prelude SosState UtTable Bitfield Cspace CspaceInv Mapping Dma Bootstrap CspaceThms Sys Bytes ElfFile ElfLoad FrameTable FrameThms.

(** ** State *)
Section Lift.
Context {K : Type}.
Definition in_sos {A} (m : M (sos K) A) : M (sos K * bmem) A := fun st =>
  match m (fst st) with inl (a, s) => inl (a, (s, snd st)) | inr e => inr e end.
Definition in_mem {A} (m : M bmem A) : M (sos K * bmem) A := fun st =>
  match m (snd st) with inl (a, b) => inl (a, (fst st, b)) | inr e => inr e end.

Lemma wp_in_sos {A} (m : M (sos K) A) (Q : A -> sos K * bmem -> Prop) F s b : wp m (fun a s' => Q a (s', b)) F s -> wp (in_sos m) Q F (s, b).
Proof. unfold wp, in_sos. cbn [fst snd]. by destruct (m s) as [[a s']|]. Qed.
Lemma wp_in_mem {A} (m : M bmem A) (Q : A -> sos K * bmem -> Prop) F s b a b' : m b = inl (a, b') -> Q a (s, b') -> wp (in_mem m) Q F (s, b).
Proof. unfold wp, in_mem. cbn [fst snd]. by intros ->. Qed.
End Lift.

(** ** The loader *)
Definition PT_LOAD : Z := 1.
Definition PF_X : Z := 1.
Definition PF_W : Z := 2.
Definition PF_R : Z := 4.

Definition get_sel4_rights_from_elf (permissions : Z) : rights :=
  let canRead := negb (Z.land permissions PF_R =? 0) || negb (Z.land permissions PF_X =? 0) in
  let canWrite := negb (Z.land permissions PF_W =? 0) in
  if negb canRead && negb canWrite then seL4_AllRights else mkRights false false canRead canWrite.

Section Loader.
Context {K : Type} `{Env K} (FRAME_LIMIT : Z).
Abbreviation ML := (M (sos K * bmem)).

(** Writing one page: zeros, bytes of the file, zeros. *)
Definition load_page_data (frame src file_size dst pos : Z) : ML unit :=
  let* loader_data := in_sos (frame_data frame) in
  let leading_zeroes := dst mod PAGE_SIZE_4K in
  do* in_mem (memset loader_data 0 (Z.to_nat leading_zeroes)) in
  let loader_data := w64 (loader_data + leading_zeroes) in
  let segment_bytes := PAGE_SIZE_4K - leading_zeroes in
  let file_bytes := Z.min segment_bytes (w64 (file_size - pos)) in
  do* in_mem (if pos <? file_size then memcpy loader_data src (Z.to_nat file_bytes)
              else memset loader_data 0 (Z.to_nat file_bytes)) in
  let loader_data := w64 (loader_data + file_bytes) in
  let trailing_zeroes := w64 (PAGE_SIZE_4K - (leading_zeroes + file_bytes)) in
  in_mem (memset loader_data 0 (Z.to_nat trailing_zeroes)).

(** One round of the loop: 0, or -1 when it returns. *)
Definition load_page (cspace loadee src file_size dst : Z) (permissions : rights) (pos : Z) : ML Z :=
  let loadee_vaddr := ROUND_DOWN dst PAGE_SIZE_4K in
  let* loadee_frame := in_sos (cspace_alloc_slot cspace) in
  if loadee_frame =? seL4_CapNull then ret (-1)
  else
    let* frame := in_sos (alloc_frame FRAME_LIMIT) in
    if frame =? NULL_FRAME then ret (-1)
    else
      let* table := in_sos frame_table_cspace in
      let* page := in_sos (frame_page frame) in
      let* err := in_sos (cspace_copy cspace loadee_frame table page seL4_AllRights) in
      if negb (err =? seL4_NoError) then ret (-1)
      else
        let* err := in_sos (map_frame cspace loadee_frame loadee loadee_vaddr permissions seL4_ARM_Default_VMAttributes) in
        let already_mapped := err =? seL4_DeleteFirst in
        do* (if already_mapped then
               do* in_sos (cspace_delete cspace loadee_frame) in
               do* in_sos (cspace_free_slot cspace loadee_frame) in
               in_sos (free_frame frame)
             else ret tt) in
        if negb already_mapped && negb (err =? seL4_NoError) then ret (-1)
        else
          do* load_page_data frame src file_size dst pos in
          do* in_sos (flush_frame frame) in
          do* (if allowWrite permissions then
                 do* in_sos (call (Page_Invalidate_Data loadee_frame 0 PAGE_SIZE_4K)) in ret tt
               else ret tt) in
          do* in_sos (call (Page_Unify_Instruction loadee_frame 0 PAGE_SIZE_4K)) in
          ret 0.

(** [pos] is an [unsigned int]. *)
Fixpoint load_segment_loop (fuel : nat) (cspace loadee src segment_size file_size dst : Z) (permissions : rights) (pos : Z) : ML Z :=
  match fuel with
  | O => fail NoFuel
  | S fuel =>
      if pos <? segment_size then
        let* err := load_page cspace loadee src file_size dst permissions pos in
        if negb (err =? 0) then ret (-1)
        else
          let segment_bytes := PAGE_SIZE_4K - dst mod PAGE_SIZE_4K in
          load_segment_loop fuel cspace loadee (w64 (src + segment_bytes)) segment_size file_size
            (w64 (dst + segment_bytes)) permissions ((pos + segment_bytes) mod 2 ^ 32)
      else ret 0
  end.
(** Every round but the first and the last is a page of the segment. *)
Definition load_segment_into_vspace (cspace loadee src segment_size file_size dst : Z) (permissions : rights) : ML Z :=
  do* assert_ (file_size <=? segment_size) in
  load_segment_loop (Z.to_nat (segment_size / PAGE_SIZE_4K + 3)) cspace loadee src segment_size file_size dst permissions 0.

(** The loop of [elf_load] from header [i], [n] rounds left. *)
Fixpoint elf_load_loop (cspace loadee_vspace : Z) (elf_file : elf_t) (i : Z) (n : nat) : ML Z :=
  match n with
  | O => ret 0
  | S n =>
      let* type := in_mem (elf_getProgramHeaderType elf_file i) in
      if negb (type =? PT_LOAD) then elf_load_loop cspace loadee_vspace elf_file (i + 1) n
      else
        let* offset := in_mem (elf_getProgramHeaderOffset elf_file i) in
        let source_addr := w64 (elfFile elf_file + offset) in
        let* file_size := in_mem (elf_getProgramHeaderFileSize elf_file i) in
        let* segment_size := in_mem (elf_getProgramHeaderMemorySize elf_file i) in
        let* vaddr := in_mem (elf_getProgramHeaderVaddr elf_file i) in
        let* flags := in_mem (elf_getProgramHeaderFlags elf_file i) in
        let* err := load_segment_into_vspace cspace loadee_vspace source_addr segment_size file_size vaddr
                      (get_sel4_rights_from_elf flags) in
        if negb (err =? 0) then ret (-1) else elf_load_loop cspace loadee_vspace elf_file (i + 1) n
  end.
Definition elf_load (cspace loadee_vspace : Z) (elf_file : elf_t) : ML Z :=
  let* num_headers := in_mem (elf_getNumProgramHeaders elf_file) in
  elf_load_loop cspace loadee_vspace elf_file 0 (Z.to_nat num_headers).
End Loader.
