(* ===== verification/SosElfThms.v ===== *)
(** * Loading a program: theorems

    What [load_segment_into_vspace] leaves in memory, with the frame table and
    the cspace of SOS kept in order; and what happens to a segment that starts
    in a page of another one. *)

From S2P Require Import Prelude SosState UtTable Bitfield Cspace CspaceInv Mapping Dma Bootstrap CspaceThms Sys Bytes ElfFile ElfLoad FrameTable FrameThms SosElf.

(** ** One page in memory *)
Lemma fills_trans m m1 m2 d n k v w : fills m m1 d n v -> fills m1 m2 (d + n) k w -> 0 <= n -> 0 <= k ->
  fills m m2 d (n + k) (fun j => if j <? n then v j else w (j - n)).
Proof.
  intros F1 F2 Hn Hk a. rewrite F2, F1. destruct (decide (d <= a < d + (n + k))).
  - destruct (Z.ltb_spec (a - d) n); [rewrite decide_False by lia; by rewrite decide_True by lia |].
    rewrite decide_True by lia. f_equal. lia.
  - by rewrite !decide_False by lia.
Qed.
Lemma fills_ext m m' d n v w : fills m m' d n v -> (forall j, 0 <= j < n -> v j = w j) -> fills m m' d n w.
Proof. intros Hf He a. rewrite Hf. destruct (decide _); [|done]. apply He. lia. Qed.
Lemma fills_mapped m m' d n v a k : fills m m' d n v -> (forall j, 0 <= j < n -> is_Some (v j)) -> mapped m a k -> mapped m' a k.
Proof. intros Hf Hv Hm j Hj. rewrite Hf. destruct (decide _); [apply Hv; lia | by apply Hm]. Qed.

(** Zeroing from wherever a pointer of 64 bits points. *)
Lemma memset_at m d n : 0 <= d -> 0 <= n -> d + n <= 2 ^ 64 -> mapped m d n ->
  exists m', memset (w64 d) 0 (Z.to_nat n) m = inl (tt, m') /\ fills m m' d n (fun _ => Some 0).
Proof.
  intros H0 Hn H1 Hm. destruct (memset_fills (Z.to_nat n) m d 0) as (m' & E & F); rewrite ?Z2Nat.id by lia; try done.
  rewrite Z2Nat.id in F by lia. eauto.
Qed.

(** Byte [o] of a page whose first [lead] bytes are in front of the segment; the
    rest of it starts at position [pos] of the segment, which is at [src] in the file. *)
Definition page_byte (m : bmem) (src file_size pos lead o : Z) : option Z :=
  if o <? lead then Some 0 else if pos + (o - lead) <? file_size then m !! (src + (o - lead)) else Some 0.

(** The bytes of the file from [src] on. *)
Record source_ok (m : bmem) (src n : Z) : Prop := {
  sr_range : 0 <= src /\ src + n <= 2 ^ 64;
  sr_mapped : mapped m src n;
  sr_apart : src + n <= SOS_FRAME_DATA \/ SOS_FRAME_DATA + 2 ^ 31 <= src }.
Definition frame_addr (f : Z) : Z := SOS_FRAME_DATA + f * 4096.

(** The bytes of the file that belong in the page. *)
Lemma file_bytes_written m src n d k : source_ok m src n -> 0 <= k <= n -> SOS_FRAME_DATA <= d -> d + k <= SOS_FRAME_DATA + 2 ^ 31 -> mapped m d k ->
  exists m', memcpy (w64 d) (w64 src) (Z.to_nat k) m = inl (tt, m') /\ fills m m' d k (fun j => m !! (src + j)).
Proof.
  intros [Hr Hm Ha] Hk Hd0 Hd1 Hmd. unfold SOS_FRAME_DATA in *.
  destruct (memcpy_fills (Z.to_nat k) m d src) as (m' & E & F); rewrite ?Z2Nat.id by lia; try lia; [done | | ].
  - intros j Hj. apply Hm. lia.
  - rewrite Z2Nat.id in F by lia. eauto.
Qed.

(** The middle of the page: from the file where it has bytes left. *)
Lemma segment_bytes_written m src file_size pos d k : 0 <= pos -> 0 <= src < 2 ^ 64 -> (pos < file_size -> source_ok m src (file_size - pos) /\ k <= file_size - pos) ->
  0 <= k -> SOS_FRAME_DATA <= d -> d + k <= SOS_FRAME_DATA + 2 ^ 31 -> mapped m d k ->
  exists m', (if pos <? file_size then memcpy (w64 d) src (Z.to_nat k) else memset (w64 d) 0 (Z.to_nat k)) m = inl (tt, m') /\
    fills m m' d k (fun j => if pos + j <? file_size then m !! (src + j) else Some 0) /\
    (forall a n, mapped m a n -> mapped m' a n).
Proof.
  intros Hp Hs0 Hsrc Hk Hd0 Hd1 Hm. destruct (Z.ltb_spec pos file_size) as [Hlt|Hge].
  - destruct (Hsrc Hlt) as [Hr Hkl]. destruct (file_bytes_written m src (file_size - pos) d k) as (m' & E & F); [done | lia | lia | lia | done |].
    unfold w64 at 2 in E. rewrite (Z.mod_small src) in E by lia. exists m'. split; [exact E |]. split.
    + apply (fills_ext _ _ _ _ _ _ F). intros j Hj. destruct (Z.ltb_spec (pos + j) file_size); [done | lia].
    + intros a n. apply (fills_mapped _ _ _ _ _ _ _ F). intros j Hj. apply Hr. lia.
  - destruct (memset_at m d k) as (m' & E & F); [unfold SOS_FRAME_DATA in *; lia.. | done |]. exists m'. split; [done |]. split.
    + apply (fills_ext _ _ _ _ _ _ F). intros j Hj. destruct (Z.ltb_spec (pos + j) file_size); [lia | done].
    + intros a n. apply (fills_mapped _ _ _ _ _ _ _ F). eauto.
Qed.

Section Page.
Context {K : Type} {HE : Env K}.
Implicit Types (s : sos K) (m : bmem).

Lemma load_page_data_fills s m f src file_size dst pos : 0 < f < 2 ^ 19 -> f < ft_capacity (s_ft s) -> mapped m (frame_addr f) 4096 ->
  0 <= pos < 2 ^ 64 -> 0 <= file_size < 2 ^ 64 -> (pos < file_size -> source_ok m src (file_size - pos)) -> 0 <= src < 2 ^ 64 ->
  exists m', load_page_data f src file_size dst pos (s, m) = inl (tt, (s, m')) /\
    fills m m' (frame_addr f) 4096 (page_byte m src file_size pos (dst mod 4096)).
Proof.
  intros Hf Hc Hm Hp Hfs Hsrc Hs0. set (lead := dst mod 4096). assert (0 <= lead < 4096) as Hl by (unfold lead; lia).
  set (A := frame_addr f) in *. assert (SOS_FRAME_DATA < A /\ A + 4096 <= SOS_FRAME_DATA + 2 ^ 31) as HA by (unfold A, frame_addr; lia).
  assert (SOS_FRAME_DATA + 2 ^ 31 < 2 ^ 64) as Hw by (unfold SOS_FRAME_DATA; lia). assert (0 < SOS_FRAME_DATA) as HS by done.
  unfold load_page_data, bind, in_sos, in_mem. cbn [fst snd]. rewrite frame_data_run by lia. change (SOS_FRAME_DATA + f * 4096) with A. change PAGE_SIZE_4K with 4096. cbn [fst snd]. fold lead.
  destruct (memset_at m A lead) as (m1 & E1 & F1); [lia | lia | lia | intros j Hj; apply Hm; lia |]. rewrite E1. cbn [fst snd].
  set (fb := Z.min (4096 - lead) (w64 (file_size - pos))).
  assert (0 <= fb <= 4096 - lead) as Hfb by (unfold fb, w64; pose proof (Z.mod_pos_bound (file_size - pos) (2 ^ 64)); lia).
  assert (pos < file_size -> w64 (file_size - pos) = file_size - pos) as Ew by (intros; unfold w64; apply Z.mod_small; lia).
  assert (w64 (w64 A + lead) = w64 (A + lead)) as -> by (unfold w64; by rewrite Zplus_mod_idemp_l).
  assert (w64 (w64 (A + lead) + fb) = w64 (A + lead + fb)) as -> by (unfold w64; by rewrite Zplus_mod_idemp_l).
  assert (w64 (4096 - (lead + fb)) = 4096 - (lead + fb)) as -> by (unfold w64; apply Z.mod_small; lia).
  assert (mapped m1 A 4096) as Hm1 by (apply (fills_mapped _ _ _ _ _ _ _ F1); eauto).
  assert (forall j, 0 <= j -> pos + j < file_size -> m1 !! (src + j) = m !! (src + j)) as Hsame.
  { intros j Hj Hlt. destruct (Hsrc ltac:(lia)) as [_ _ Ha]. rewrite F1. apply decide_False. lia. }
  destruct (segment_bytes_written m1 src file_size pos (A + lead) fb) as (m2 & E2 & F2 & Hm2); [lia | lia | | lia | lia | lia | |].
  { intros Hlt. destruct (Hsrc Hlt) as [Hr1 Hr2 Hr3]. rewrite <- Ew at 2 by done. split; [|unfold fb; lia]. split; [done | | done].
    intros j Hj. rewrite Hsame by lia. by apply Hr2. }
  { intros j Hj. rewrite <- Z.add_assoc. apply Hm1. lia. }
  rewrite E2. cbn [fst snd]. destruct (memset_at m2 (A + lead + fb) (4096 - (lead + fb))) as (m3 & E3 & F3); [lia | lia | lia | |].
  { intros j Hj. replace (A + lead + fb + j) with (A + (lead + fb + j)) by lia. apply (Hm2 A 4096 Hm1). lia. }
  rewrite E3. exists m3. split; [done |]. assert (A + lead + fb = A + (lead + fb)) as Ea by lia. rewrite Ea in F3.
  pose proof (fills_trans _ _ _ _ _ _ _ _ (fills_trans _ _ _ _ _ _ _ _ F1 F2 ltac:(lia) ltac:(lia)) F3 ltac:(lia) ltac:(lia)) as F.
  replace (lead + fb + (4096 - (lead + fb))) with 4096 in F by lia. apply (fills_ext _ _ _ _ _ _ F). intros j Hj. cbv beta. unfold page_byte.
  destruct (Z.ltb_spec j lead); [by destruct (Z.ltb_spec j (lead + fb)); [|lia] |].
  destruct (Z.ltb_spec j (lead + fb)), (Z.ltb_spec (pos + (j - lead)) file_size); [apply Hsame; lia | done | | done].
  exfalso. unfold fb in *. rewrite Ew in * by lia. lia.
Qed.
End Page.

(** ** SOS stays in order *)
Section Order.
Context {K : Type} {HE : Env K} (FRAME_LIMIT N : Z).
Implicit Types (s : sos K) (m : bmem).

Lemma refines_sys n a s s' G : refines FRAME_LIMIT n a s -> sys_inv G (ft_cspace (s_ft s)) ∅ s' -> s_ft s' = s_ft s -> refines FRAME_LIMIT n a s'.
Proof. intros [R1 R2 R3 R4 R5] Hs E. split; rewrite ?E; try done. by exists G. Qed.
Lemma refines_less n a s : refines FRAME_LIMIT (S n) a s -> refines FRAME_LIMIT n a s.
Proof. intros [R1 R2 R3 R4 R5]. split; try done. lia. Qed.
Lemma refines_frame n a s f : refines FRAME_LIMIT n a s -> f ∈ a_alloc a -> 0 < f < 2 ^ 19 /\ f < ft_capacity (s_ft s).
Proof. intros [(HL & _) _ _ _ _] Hf. pose proof (links_in_range _ _ FlAllocated f HL Hf). lia. Qed.
Lemma refines_nodup n a s : refines FRAME_LIMIT n a s -> NoDup (a_alloc a).
Proof. intros [(HL & _) _ _ _ _]. by apply (links_nodup _ _ FlAllocated) in HL. Qed.

(** The state between the loader's calls: [n] frames may still be taken, which are
    among the first [N]; [p] is the cspace of the frame table. *)
Definition in_order (n : nat) (a : aframes) (p : Z) s : Prop := refines FRAME_LIMIT n a s /\ ft_cspace (s_ft s) = p /\ a_next a + Z.of_nat n <= N.

Lemma in_order_less n k a p s : (k <= n)%nat -> in_order n a p s -> in_order k a p s.
Proof. intros Hk ([R1 R2 R3 R4 R5] & Hp & HN). split; [|split; [done | lia]]. split; try done. lia. Qed.
Lemma in_order_frame n a p s f : in_order n a p s -> f ∈ a_alloc a -> f < N.
Proof. intros ([(HL & _) Hx _ _ _] & _ & HN) Hf. pose proof (links_in_range _ _ FlAllocated f HL Hf). lia. Qed.

Lemma io_alloc_slot n a p s (Q : Z -> sos K -> Prop) : in_order n a p s -> (forall r s', in_order n a p s' -> Q r s') -> wp (cspace_alloc_slot p) Q boot_fault s.
Proof.
  intros (Hr & <- & HN) HQ. destruct (rf_sys _ _ _ _ Hr) as [G Hs]. eapply sys_alloc_slot; [exact Hs |]. intros r s' Hs' [Hst _] _. apply rest_ft in Hst.
  apply HQ. split; [by eapply refines_sys | by rewrite Hst].
Qed.
Lemma io_call n a p s i (Q : Z -> sos K -> Prop) F : in_order n a p s -> (forall r s', in_order n a p s' -> Q r s') -> wp (call i) Q F s.
Proof.
  intros (Hr & <- & HN) HQ. destruct (rf_sys _ _ _ _ Hr) as [G Hs]. eapply sys_call; [exact Hs |]. intros r s' Hs' [Hst _]. apply rest_ft in Hst.
  apply HQ. split; [by eapply refines_sys | by rewrite Hst].
Qed.
Lemma io_copy n a p s d x r (Q : Z -> sos K -> Prop) F : in_order n a p s -> (forall e s', in_order n a p s' -> Q e s') -> wp (cspace_copy p d p x r) Q F s.
Proof.
  intros Ho HQ. pose proof Ho as (Hr & <- & HN). destruct (rf_sys _ _ _ _ Hr) as [G Hs]. unfold cspace_copy. rewrite wp_bind. eapply sys_cs_read; [exact Hs |]. intros c _.
  rewrite wp_bind. eapply sys_cs_read; [exact Hs |]. intros c' _. by eapply io_call.
Qed.
Lemma io_alloc_frame n a p s (Q : Z -> sos K -> Prop) : in_order (S n) a p s ->
  (forall x a' s', a_alloc a' = a_alloc a ++ [x] -> in_order n a' p s' -> Q x s') -> wp (alloc_frame FRAME_LIMIT) Q boot_fault s.
Proof.
  intros (Hr & <- & HN) HQ. pose proof Hr as [R1 R2 R3 R4 R5]. destruct (a_free a) as [|y fs] eqn:Ef.
  - destruct R3 as [G R3]. eapply wp_alloc_frame_fresh; [done | done | done | unfold table_room; lia |]. intros s' Hs' Hrep' Hp' Hu' Hb' Hl'.
    apply (HQ _ (mkA [] (a_alloc a ++ [Z.max 1 (ft_used (s_ft s))]) (a_next a + 1))); [done |]. split; [|split; [done | cbn; lia]]. rewrite <- Hp' in Hs'.
    split; simpl; try done; [lia | by exists G | lia].
  - eapply wp_alloc_frame_reuse; [done |]. intros t' Hrep' Hp'. apply (HQ _ (mkA fs (a_alloc a ++ [y]) (a_next a))); [done |].
    split; [by eapply refines_table | split; [apply Hp' | cbn; lia]].
Qed.

(** The addresses of the program have not been mapped yet, and slots handed out are
    empty: the kernel never asks to delete something first. *)
Definition nothing_there : Prop := forall i (k : K), fst (invoke i k) <> seL4_DeleteFirst.

(** What a computation may return. *)
Definition returns {A} (P : A -> Prop) (c : M (sos K) A) : Prop := forall s r s', c s = inl (r, s') -> P r.
Lemma returns_ret {A} (P : A -> Prop) (x : A) : P x -> returns P (ret x).
Proof. by intros HP s r s' [= <- _]. Qed.
Lemma returns_bind {A B} (P : B -> Prop) (Q : A -> Prop) (c : M (sos K) A) (k : A -> M (sos K) B) :
  returns Q c -> (forall x, Q x -> returns P (k x)) -> returns P (bind c k).
Proof. intros Hc Hk s r s'. unfold bind. destruct (c s) as [[x s1]|] eqn:E; [|done]. apply Hk. by eapply Hc. Qed.
Lemma returns_any {A} (c : M (sos K) A) : returns (fun _ => True) c.
Proof. done. Qed.
Lemma returns_wp {A} (P : A -> Prop) (c : M (sos K) A) s : returns P c -> wp c (fun r _ => P r) (fun _ => True) s.
Proof. intros Hc. unfold wp. destruct (c s) as [[r s']|] eqn:E; [by eapply Hc | done]. Qed.

Lemma call_there i : nothing_there -> returns (fun r => r <> seL4_DeleteFirst) (call i).
Proof.
  intros Hn s r s'. unfold call, outside. specialize (Hn i (s_env s)). destruct (invoke i (s_env s)) as [e k]. by intros [= <- _].
Qed.
Lemma missing_there failed err p vs va ut slot : nothing_there -> err <> seL4_DeleteFirst ->
  returns (fun r => r <> seL4_DeleteFirst) (map_missing failed err p vs va ut slot).
Proof.
  intros Hn He. unfold map_missing, retype_map_pt, retype_map_pd, retype_map_pud, cspace_untyped_retype.
  repeat match goal with
  | |- returns _ (bind (cs_read _) _) => apply (returns_bind _ (fun _ => True)); [done | intros c _]
  | |- returns _ (bind _ _) => apply (returns_bind _ (fun r => r <> seL4_DeleteFirst)); [|intros e Hd]
  | |- returns _ (if _ then _ else _) => case_match
  | |- returns _ (call _) => by apply call_there
  | |- returns _ (ret _) => by apply returns_ret
  end.
Qed.
Lemma map_loop_there p cap vs va r attr src err i n : nothing_there -> err <> seL4_DeleteFirst ->
  returns (fun x => fst x <> seL4_DeleteFirst) (map_frame_loop cspace_alloc_slot p cap vs va r attr src err i n).
Proof.
  intros Hn. revert src err i. induction n as [|n IH]; intros src err i He; cbn [map_frame_loop]; [by apply returns_ret |].
  destruct (negb _); [by apply returns_ret |]. apply (returns_bind _ (fun _ => True)); [done | intros failed _].
  apply (returns_bind _ (fun _ => True)); [done | intros [ut o] _]. destruct (ut =? 0); [by apply returns_ret |].
  apply (returns_bind _ (fun _ => True)); [done | intros [slot src'] _]. destruct (slot =? seL4_CapNull); [by apply returns_ret |].
  apply (returns_bind _ (fun _ => True)); [done | intros node _].
  apply (returns_bind _ (fun r => r <> seL4_DeleteFirst)); [by apply missing_there | intros e1 H1].
  apply (returns_bind _ (fun r => r <> seL4_DeleteFirst)); [|intros e2 H2; by apply IH]. destruct (e1 =? 0); [by apply call_there | by apply returns_ret].
Qed.
Lemma map_frame_there p cap vs va r attr : nothing_there -> returns (fun e => e <> seL4_DeleteFirst) (map_frame p cap vs va r attr).
Proof.
  intros Hn. unfold map_frame, map_frame_impl. apply (returns_bind _ (fun x => fst x <> seL4_DeleteFirst)).
  - apply (returns_bind _ (fun r => r <> seL4_DeleteFirst)); [by apply call_there |]. intros e He. by apply map_loop_there.
  - intros [e src] He. by apply returns_ret.
Qed.

Lemma io_map_frame n a p s cap vs va r attr (Q : Z -> sos K -> Prop) : nothing_there -> in_order n a p s ->
  (forall e s', in_order n a p s' -> e <> seL4_DeleteFirst -> Q e s') -> wp (map_frame p cap vs va r attr) Q boot_fault s.
Proof.
  intros Hn (Hr & <- & HN) HQ. destruct (rf_sys _ _ _ _ Hr) as [G Hs].
  eapply wp_mono; [apply wp_conj; [|apply (returns_wp _ _ _ (map_frame_there _ _ _ _ _ _ Hn))] | | done].
  - eapply (sys_map_frame _ _ _ _ _ _ _ _ _ (fun _ s' => in_order n a (ft_cspace (s_ft s)) s')); [exact Hs |]. intros e s' Hs' [Hst _].
    apply rest_ft in Hst. split; [by eapply refines_sys | by rewrite Hst].
  - intros e s' [Ho He]. by apply HQ.
Qed.

Lemma io_flush n a p s f (Q : unit -> sos K -> Prop) F : in_order n a p s -> f ∈ a_alloc a -> (forall s', in_order n a p s' -> Q tt s') -> wp (flush_frame f) Q F s.
Proof.
  intros Ho Hf HQ. unfold flush_frame, NULL_FRAME. destruct (refines_frame _ _ _ _ (proj1 Ho) Hf) as [Hr Hc].
  rewrite wp_bind. apply wp_frame_from_ref; [lia | lia |]. rewrite wp_bind. apply wp_frame_read; [lia |]. rewrite wp_bind. eapply io_call; [exact Ho |]. intros e s1 Ho1.
  destruct (refines_frame _ _ _ _ (proj1 Ho1) Hf) as [Hr1 Hc1]. rewrite wp_bind. apply wp_frame_read; [lia |]. rewrite wp_bind. eapply io_call; [exact Ho1 |]. intros e2 s2 Ho2.
  wp_steps. by apply HQ.
Qed.

(** ** One page *)
(** The window of SOS onto its first [N] frames. *)
Definition window_mapped m : Prop := mapped m SOS_FRAME_DATA (N * 4096).
Lemma window_frame m f : window_mapped m -> 0 < f < N -> mapped m (frame_addr f) 4096.
Proof. intros Hw Hf j Hj. unfold frame_addr. rewrite <- Z.add_assoc. apply Hw. lia. Qed.

(** The end of a round. *)
Lemma io_caches n a p s m f slot (r : rights) (Q : Z -> sos K * bmem -> Prop) F : in_order n a p s -> f ∈ a_alloc a -> (forall s', in_order n a p s' -> Q 0 (s', m)) ->
  wp (do* in_sos (flush_frame f) in
      do* (if allowWrite r then do* in_sos (call (Page_Invalidate_Data slot 0 PAGE_SIZE_4K)) in ret tt else ret tt) in
      do* in_sos (call (Page_Unify_Instruction slot 0 PAGE_SIZE_4K)) in ret 0) Q F (s, m).
Proof.
  intros Ho Hf HQ. rewrite wp_bind. apply wp_in_sos. eapply io_flush; [exact Ho | done |]. intros s1 Ho1. rewrite wp_bind. destruct (allowWrite r).
  - rewrite wp_bind. apply wp_in_sos. eapply io_call; [exact Ho1 |]. intros e s2 Ho2. wp_steps. apply wp_in_sos. eapply io_call; [exact Ho2 |]. intros e' s3 Ho3. wp_steps. by apply HQ.
  - wp_steps. apply wp_in_sos. eapply io_call; [exact Ho1 |]. intros e' s3 Ho3. wp_steps. by apply HQ.
Qed.

Lemma load_page_ok n a p s m loadee src file_size dst r pos : nothing_there -> in_order (S n) a p s -> window_mapped m ->
  0 <= pos < 2 ^ 64 -> 0 <= file_size < 2 ^ 64 -> (pos < file_size -> source_ok m src (file_size - pos)) -> 0 <= src < 2 ^ 64 ->
  wp (load_page FRAME_LIMIT p loadee src file_size dst r pos) (fun e st => exists a', in_order n a' p (fst st) /\
    (e = -1 \/ (e = 0 /\ exists f, a_alloc a' = a_alloc a ++ [f] /\ fills m (snd st) (frame_addr f) 4096 (page_byte m src file_size pos (dst mod 4096)))))
    boot_fault (s, m).
Proof.
  intros Hn Ho Hw Hp Hfs Hsrc Hs0. unfold load_page. rewrite wp_bind. apply wp_in_sos. eapply io_alloc_slot; [exact Ho |]. intros slot s1 Ho1.
  assert (forall x, in_order (S n) a p x -> in_order n a p x) as Hless by (intros x; by apply in_order_less, Nat.le_succ_diag_r).
  destruct (slot =? seL4_CapNull); [wp_steps; eauto 6 |]. rewrite wp_bind. apply wp_in_sos. eapply io_alloc_frame; [exact Ho1 |]. intros f a' s2 Ea Ho2.
  assert (f ∈ a_alloc a') as Hin by (rewrite Ea; set_solver). destruct (refines_frame _ _ _ _ (proj1 Ho2) Hin) as [Hf Hc].
  destruct (Z.eqb_spec f NULL_FRAME) as [->|_]; [unfold NULL_FRAME in Hf; lia |]. rewrite wp_bind. apply wp_in_sos. unfold frame_table_cspace. rewrite wp_gets, (proj1 (proj2 Ho2)).
  rewrite wp_bind. apply wp_in_sos. unfold frame_page. rewrite wp_bind. apply wp_frame_from_ref; [unfold NULL_FRAME; lia | lia |]. rewrite wp_bind. apply wp_frame_read; [lia |].
  wp_steps. apply wp_in_sos. eapply io_copy; [exact Ho2 |]. intros e3 s3 Ho3. destruct (negb _); [wp_steps; eauto 6 |].
  rewrite wp_bind. apply wp_in_sos. eapply io_map_frame; [done | exact Ho3 |]. intros e4 s4 Ho4 He4.
  destruct (Z.eqb_spec e4 seL4_DeleteFirst) as [|_]; [done |]. cbn [negb andb]. wp_steps. destruct (negb _); [wp_steps; eauto 6 |].
  destruct (refines_frame _ _ _ _ (proj1 Ho4) Hin) as [_ Hc4].
  destruct (load_page_data_fills s4 m f src file_size dst pos) as (m' & E & F); [done | done | apply window_frame; [done | split; [lia | by eapply in_order_frame]] | done | done | done | done |].
  rewrite wp_bind. unfold wp at 1. rewrite E. eapply io_caches; [exact Ho4 | done |]. intros s7 Ho7. exists a'. split; [done |]. right. eauto.
Qed.

(** ** The whole segment *)
(** Byte [j] of a segment whose [file_size] bytes in the file are at [src]; zeros before and after. *)
Definition segment_at m (src file_size j : Z) : option Z := if (0 <=? j) && (j <? file_size) then m !! (src + j) else Some 0.

Lemma page_is_segment m src0 src file_size pos lead o : (pos < file_size -> src = src0 + pos) -> pos = 0 \/ lead = 0 -> 0 <= pos -> 0 <= o ->
  page_byte m src file_size pos lead o = segment_at m src0 file_size (pos - lead + o).
Proof.
  intros Hs Hpl Hp Ho. unfold page_byte, segment_at. destruct (Z.ltb_spec o lead).
  - destruct (Z.leb_spec 0 (pos - lead + o)); [lia | done].
  - destruct (Z.leb_spec 0 (pos - lead + o)); [|lia]. replace (pos - lead + o) with (pos + (o - lead)) by lia. cbn [andb].
    destruct (Z.ltb_spec (pos + (o - lead)) file_size); [|done]. rewrite Hs by lia. f_equal. lia.
Qed.

(** The frames [fs] hold the segment from position [q] on, and nothing else has changed. *)
Record holds m m' (src file_size q : Z) (fs : list Z) : Prop := {
  ho_byte : forall i f o, fs !! i = Some f -> 0 <= o < 4096 -> m' !! (frame_addr f + o) = segment_at m src file_size (q + 4096 * Z.of_nat i + o);
  ho_rest : forall x, (forall f, f ∈ fs -> ~ (frame_addr f <= x < frame_addr f + 4096)) -> m' !! x = m !! x }.

Lemma source_filled m m' src n f v : source_ok m src n -> 0 < f < 2 ^ 19 -> fills m m' (frame_addr f) 4096 v ->
  source_ok m' src n /\ forall j, segment_at m' src n j = segment_at m src n j.
Proof.
  intros [H1 H2 H3] Hf HF. assert (forall j, 0 <= j < n -> m' !! (src + j) = m !! (src + j)) as Hs.
  { intros j Hj. rewrite HF. apply decide_False. unfold frame_addr. lia. }
  split; [split; [done | | done]; intros j Hj; rewrite Hs by lia; by apply H2 |]. intros j. unfold segment_at.
  destruct (Z.leb_spec 0 j), (Z.ltb_spec j n); try done. apply Hs. lia.
Qed.

Lemma holds_cons m m1 m' src n q f fs : fills m m1 (frame_addr f) 4096 (fun o => segment_at m src n (q + o)) -> (forall j, segment_at m1 src n j = segment_at m src n j) ->
  f ∉ fs -> holds m1 m' src n (q + 4096) fs -> holds m m' src n q (f :: fs).
Proof.
  intros HF Hs Hf [H1 H2]. assert (forall g x, g ∈ fs -> frame_addr f <= x < frame_addr f + 4096 -> ~ (frame_addr g <= x < frame_addr g + 4096)) as Hd.
  { intros g x Hg Hx Hx'. unfold frame_addr in *. assert (g = f) as -> by lia. done. }
  split.
  - intros [|i] g o Hi Ho; cbn in Hi.
    + injection Hi as ->. rewrite H2 by (intros h Hh; apply (Hd h); [done | lia]). rewrite HF, decide_True by lia. f_equal. lia.
    + rewrite (H1 i g o Hi Ho), Hs. f_equal. lia.
  - intros x Hx. rewrite H2 by (intros g Hg; apply Hx; set_solver). rewrite HF. apply decide_False, Hx. set_solver.
Qed.

(** Pages still to load. *)
Definition pages (segment_size pos lead : Z) : Z := if pos <? segment_size then (segment_size - pos + lead + 4095) / 4096 else 0.
Lemma pages_next size pos lead : pos < size -> 0 <= lead < 4096 -> pages size pos lead = 1 + pages size (pos + (4096 - lead)) 0.
Proof.
  intros H1 H2. unfold pages. destruct (Z.ltb_spec pos size); [|lia]. destruct (Z.ltb_spec (pos + (4096 - lead)) size).
  - replace (size - pos + lead + 4095) with (size - (pos + (4096 - lead)) + 0 + 4095 + 1 * 4096) by lia. rewrite Z.div_add by lia. lia.
  - symmetry. apply (Z.div_unique _ 4096 1 (size - pos + lead - 1)); lia.
Qed.

Lemma load_segment_loop_ok p loadee src0 segment_size file_size r : nothing_there -> 0 <= file_size <= segment_size -> segment_size + 4096 <= 2 ^ 32 ->
  forall fuel k k' a s m dst pos, pages segment_size pos (dst mod 4096) + Z.of_nat k' <= Z.of_nat k -> pages segment_size pos (dst mod 4096) < Z.of_nat fuel -> in_order k a p s -> window_mapped m ->
  source_ok m src0 file_size -> pos = 0 \/ dst mod 4096 = 0 -> 0 <= pos ->
  wp (load_segment_loop FRAME_LIMIT fuel p loadee (w64 (src0 + pos)) segment_size file_size dst r pos) (fun e st => exists a', in_order k' a' p (fst st) /\
    (e = -1 \/ (e = 0 /\ exists fs, a_alloc a' = a_alloc a ++ fs /\ Z.of_nat (length fs) = pages segment_size pos (dst mod 4096) /\
       holds m (snd st) src0 file_size (pos - dst mod 4096) fs))) boot_fault (s, m).
Proof.
  intros Hn Hfs Hss. induction fuel as [|fuel IH]; intros k k' a s m dst pos Hk Hfu Ho Hw Hsrc Hpl Hp.
  { unfold pages in Hfu. destruct (Z.ltb_spec pos segment_size); [|lia]. assert (0 <= (segment_size - pos + dst mod 4096 + 4095) / 4096) by (apply Z.div_pos; lia). lia. }
  cbn [load_segment_loop].
  destruct (Z.ltb_spec pos segment_size) as [Hlt|Hge].
  2: { assert (pages segment_size pos (dst mod 4096) = 0) as Ep by (unfold pages; by destruct (Z.ltb_spec pos segment_size); [lia |]). rewrite Ep in *.
       wp_steps. exists a. split; [by eapply in_order_less, Ho; lia |]. right. split; [done |]. exists []. rewrite app_nil_r. split; [done |].
       split; [done |]. split; [by intros i f o Hi | done]. }
  set (lead := dst mod 4096) in *. assert (0 <= lead < 4096) as Hl by (unfold lead; lia). rewrite pages_next in Hk, Hfu by done.
  assert (0 <= pages segment_size (pos + (4096 - lead)) 0) as Hpg by (unfold pages; destruct (Z.ltb_spec (pos + (4096 - lead)) segment_size); [apply Z.div_pos; lia | lia]).
  destruct k as [|k]; [lia |]. change PAGE_SIZE_4K with 4096. fold lead.
  assert (pos < file_size -> w64 (src0 + pos) = src0 + pos) as Ew by (intros; destruct Hsrc as [Hr _ _]; unfold w64; apply Z.mod_small; lia).
  rewrite wp_bind. eapply wp_mono; [eapply (load_page_ok k); [done | exact Ho | done | lia | lia | | unfold w64; lia] | | done].
  { intros Hpf. rewrite Ew by done. destruct Hsrc as [H1 H2 H3]. split; [lia | | lia]. intros j Hj. rewrite <- Z.add_assoc. apply H2. lia. }
  intros e [s1 m1] (a1 & Ho1 & Hcase). cbn [fst snd] in *. fold lead in Hcase.
  destruct Hcase as [-> | (-> & f & Ea & HF)]; [cbn; wp_steps; exists a1; split; [by eapply in_order_less, Ho1; lia | by left] |]. cbn [negb Z.eqb].
  destruct (refines_frame _ _ _ f (proj1 Ho1)) as [Hf _]; [rewrite Ea; set_solver |].
  assert (fills m m1 (frame_addr f) 4096 (fun o => segment_at m src0 file_size (pos - lead + o))) as HF'.
  { apply (fills_ext _ _ _ _ _ _ HF). intros j Hj. apply page_is_segment; [done | done | done | lia]. }
  destruct (source_filled _ _ _ _ _ _ Hsrc Hf HF') as [Hsrc1 Hseg].
  assert (window_mapped m1) as Hw1.
  { apply (fills_mapped _ _ _ _ _ _ _ HF'); [|done]. intros j Hj. unfold segment_at. destruct (Z.leb_spec 0 (pos - lead + j)), (Z.ltb_spec (pos - lead + j) file_size); cbn [andb]; eauto. apply Hsrc. lia. }
  assert (w64 (w64 (src0 + pos) + (4096 - lead)) = w64 (src0 + (pos + (4096 - lead)))) as -> by (unfold w64; rewrite Zplus_mod_idemp_l; f_equal; lia).
  rewrite (Z.mod_small (pos + _) (2 ^ 32)) by lia.
  assert (w64 (dst + (4096 - lead)) mod 4096 = 0) as Ed.
  { unfold w64. rewrite Z.mod_mod_divide by (exists (2 ^ 52); lia). unfold lead. lia. }
  eapply wp_mono; [apply (IH k k' a1 s1 m1); rewrite ?Ed; try done; [lia | lia | by right | lia] | | done].
  rewrite Ed. intros e' [s2 m2] (a2 & Ho2 & Hcase). cbn [fst snd] in *. exists a2. split; [done |].
  destruct Hcase as [-> | (-> & fs & Ea2 & Hlen & Hh)]; [by left |]. right. split; [done |]. exists (f :: fs). rewrite Ea2, Ea, <- app_assoc. split; [done |].
  split; [rewrite pages_next by done; cbn [length]; lia |]. apply (holds_cons _ m1); [done | done | |].
  - pose proof (refines_nodup _ _ _ (proj1 Ho2)) as Hnd. rewrite Ea2, Ea, <- app_assoc in Hnd. apply list.NoDup_app in Hnd as (_ & _ & Hnd). by apply list.NoDup_cons in Hnd as [? _].
  - by replace (pos - lead + 4096) with (pos + (4096 - lead) - 0) by lia.
Qed.

Lemma load_segment_into_vspace_ok p loadee src segment_size file_size dst r k k' a s m : nothing_there -> 0 <= file_size <= segment_size -> segment_size + 4096 <= 2 ^ 32 ->
  pages segment_size 0 (dst mod 4096) + Z.of_nat k' <= Z.of_nat k -> in_order k a p s -> window_mapped m -> source_ok m src file_size -> src < 2 ^ 64 ->
  wp (load_segment_into_vspace FRAME_LIMIT p loadee src segment_size file_size dst r) (fun e st => exists a', in_order k' a' p (fst st) /\
    (e = -1 \/ (e = 0 /\ exists fs, a_alloc a' = a_alloc a ++ fs /\ Z.of_nat (length fs) = pages segment_size 0 (dst mod 4096) /\
       holds m (snd st) src file_size (- (dst mod 4096)) fs))) boot_fault (s, m).
Proof.
  intros Hn Hfs Hss Hk Ho Hw Hsrc Hs0. unfold load_segment_into_vspace. rewrite wp_bind, wp_assert. destruct (Z.leb_spec file_size segment_size); [|lia].
  assert (w64 (src + 0) = src) as <- by (rewrite Z.add_0_r; destruct Hsrc as [? _ _]; apply Z.mod_small; lia).
  eapply wp_mono; [apply (load_segment_loop_ok p loadee src segment_size file_size r Hn Hfs Hss _ k k' a s m dst 0); try done; [|by left] | | done].
  - unfold pages. change PAGE_SIZE_4K with 4096. destruct (Z.ltb_spec 0 segment_size); [|lia]. assert (0 <= dst mod 4096 < 4096) by lia.
    assert ((segment_size - 0 + dst mod 4096 + 4095) / 4096 <= (segment_size + 2 * 4096) / 4096) by (apply Z.div_le_mono; lia). rewrite Z.div_add in * by lia. lia.
  - intros e [s' m']. rewrite Z.sub_0_l. unfold w64 at 1. rewrite Z.add_0_r. assert (src mod 2 ^ 64 = src) as -> by (destruct Hsrc as [? _ _]; apply Z.mod_small; lia). done.
Qed.

(** ** All segments *)
Lemma holds_cases m m' src n q fs x : holds m m' src n q fs ->
  m' !! x = m !! x \/ exists j, m' !! x = segment_at m src n j.
Proof.
  intros [H1 H2]. destruct (decide (Exists (fun f => frame_addr f <= x < frame_addr f + 4096) fs)) as [He|He].
  - right. apply list.Exists_exists in He as (f & Hf & Hx). apply list_elem_of_lookup_1 in Hf as [i Hi].
    exists (q + 4096 * Z.of_nat i + (x - frame_addr f)). rewrite <- (H1 i f _ Hi) by lia. f_equal. lia.
  - left. apply H2. intros f Hf Hx. apply He, list.Exists_exists. eauto.
Qed.
Lemma holds_bytes m m' src n q fs : holds m m' src n q fs -> bytes_ok m -> bytes_ok m'.
Proof.
  intros Hh Hb x b E. destruct (holds_cases _ _ _ _ _ _ x Hh) as [E'|[j E']]; rewrite E' in E; [by eapply Hb |].
  unfold segment_at in E. destruct (_ && _); [by eapply Hb | injection E as <-; lia].
Qed.
Lemma holds_mapped m m' src n q fs a k : holds m m' src n q fs -> mapped m src n -> mapped m a k -> mapped m' a k.
Proof.
  intros Hh Hs Hm i Hi. destruct (holds_cases _ _ _ _ _ _ (a + i) Hh) as [E|[j E]]; rewrite E; [by apply Hm |].
  unfold segment_at. destruct (Z.leb_spec 0 j), (Z.ltb_spec j n); cbn [andb]; eauto.
Qed.

(** The segments [elf_load] loads, from header [i] on. *)
Definition is_load m (elf : elf_t) (i : Z) : bool := pfield m elf i 0 4 0 4 =? PT_LOAD.
Definition load_segments m (elf : elf_t) (i n : Z) : list segment := map (segment_of m elf VIRTUAL) (List.filter (is_load m elf) (seqZ i n)).
Definition seg_pages (sg : segment) : Z := pages (sg_memsz sg) 0 (sg_dest sg mod 4096).
(** A segment with its bytes in the file, not larger than the loader can count. *)
Definition segment_fits (elf : elf_t) (sg : segment) : Prop :=
  (0 <= sg_filesz sg <= sg_memsz sg /\ sg_memsz sg + 4096 <= 2 ^ 32) /\ 0 <= sg_off sg /\ sg_off sg + sg_filesz sg <= elfSize elf.
(** The frames [fs] hold the pages of a segment. *)
Definition in_frames m m' (elf : elf_t) (sg : segment) (fs : list Z) : Prop :=
  Z.of_nat (length fs) = seg_pages sg /\ forall i f o, fs !! i = Some f -> 0 <= o < 4096 ->
    m' !! (frame_addr f + o) = segment_at m (elfFile elf + sg_off sg) (sg_filesz sg) (4096 * Z.of_nat i + o - sg_dest sg mod 4096).
(** Loading has got this far: [m] was the memory before. *)
Record loading m m' (elf : elf_t) : Prop := {
  lg_file : same_file elf m m';
  lg_bytes : bytes_ok m';
  lg_window : window_mapped m' }.

Lemma header_same m m' elf i : same_file elf m m' -> elf_ok m elf -> 0 <= i < e_phnum (hdr m elf) -> is_load m' elf i = is_load m elf i.
Proof. intros Hs HE' Hi. unfold is_load. by rewrite (pfield_same m m') by (done || lia). Qed.
Lemma header_reads m elf i : elf_ok m elf -> 0 <= i < e_phnum (hdr m elf) -> exists fl,
  elf_getProgramHeaderType elf i m = inl (pfield m elf i 0 4 0 4, m) /\ elf_getProgramHeaderFlags elf i m = inl (fl, m).
Proof. intros HE' Hi. eexists. split; apply (phdr_read m elf HE' i); (done || lia). Qed.

(** Where the file is: below or above the window. *)
Definition file_apart (elf : elf_t) : Prop :=
  elfFile elf + elfSize elf < 2 ^ 64 /\ (elfFile elf + elfSize elf <= SOS_FRAME_DATA \/ SOS_FRAME_DATA + 2 ^ 31 <= elfFile elf).

(** A segment in the file is a source. *)
Lemma segment_source m elf sg : elf_ok m elf -> segment_fits elf sg -> file_apart elf ->
  source_ok m (elfFile elf + sg_off sg) (sg_filesz sg) /\ w64 (elfFile elf + sg_off sg) = elfFile elf + sg_off sg.
Proof.
  intros HE' (Hz & Ho & Hin) [Hap1 Hap2]. pose proof (eo_mem _ _ HE') as [Hm Hr _].
  split; [|unfold w64; apply Z.mod_small; lia]. split; [lia | | lia]. intros j Hj. rewrite <- Z.add_assoc. apply Hm. lia.
Qed.
Lemma segment_at_same m m' elf sg j : same_file elf m m' -> segment_fits elf sg ->
  segment_at m' (elfFile elf + sg_off sg) (sg_filesz sg) j = segment_at m (elfFile elf + sg_off sg) (sg_filesz sg) j.
Proof.
  intros Hs (Hz & Ho & Hin). unfold segment_at. destruct (Z.leb_spec 0 j), (Z.ltb_spec j (sg_filesz sg)); cbn [andb]; try done. apply Hs. lia.
Qed.
Lemma frames_apart n a p s elf x fs : in_order n a p s -> fs ⊆ a_alloc a -> file_apart elf -> elfFile elf <= x < elfFile elf + elfSize elf ->
  forall f, f ∈ fs -> ~ (frame_addr f <= x < frame_addr f + 4096).
Proof. intros Ho Hsub [_ Ha] Hx f Hf. destruct (refines_frame _ _ _ f (proj1 Ho)) as [Hr _]; [by apply Hsub |]. unfold frame_addr. lia. Qed.

(** One segment more. *)
Lemma loading_next m0 m m' elf sg fs q n a p s : loading m0 m elf -> elf_ok m0 elf -> segment_fits elf sg -> file_apart elf -> in_order n a p s -> fs ⊆ a_alloc a ->
  holds m m' (elfFile elf + sg_off sg) (sg_filesz sg) q fs -> loading m0 m' elf.
Proof.
  intros [L1 L2 L3] HE' Hfit Hap Ho Hsub Hh. destruct (segment_source m elf sg (elf_ok_same _ _ _ L1 L2 HE') Hfit Hap) as [[_ Hsm _] _]. split.
  - intros x Hx. rewrite (ho_rest _ _ _ _ _ _ Hh); [by apply L1 |]. by eapply frames_apart.
  - by eapply holds_bytes.
  - by eapply holds_mapped.
Qed.

Definition sum_pages (sgs : list segment) : Z := foldr (fun sg n => seg_pages sg + n) 0 sgs.

Lemma sum_pages_pos sgs : 0 <= sum_pages sgs.
Proof.
  induction sgs as [|sg sgs IH]; cbn [sum_pages foldr]; [lia |]. fold (sum_pages sgs). unfold seg_pages, pages.
  destruct (Z.ltb_spec 0 (sg_memsz sg)); [|lia]. assert (0 <= (sg_memsz sg - 0 + sg_dest sg mod 4096 + 4095) / 4096) by (apply Z.div_pos; lia). lia.
Qed.

(** What later segments leave of the frames of an earlier one. *)
Lemma in_frames_later m0 m m1 m2 elf sg fs gs : same_file elf m0 m -> segment_fits elf sg -> Z.of_nat (length fs) = seg_pages sg ->
  holds m m1 (elfFile elf + sg_off sg) (sg_filesz sg) (- (sg_dest sg mod 4096)) fs -> NoDup (fs ++ gs) ->
  (forall x, (forall f, f ∈ gs -> ~ (frame_addr f <= x < frame_addr f + 4096)) -> m2 !! x = m1 !! x) -> in_frames m0 m2 elf sg fs.
Proof.
  intros L1 Hfit Hlen [H1 _] Hnd Hr. split; [done |]. intros i f o Hi Ho. rewrite Hr.
  - rewrite (H1 i f o Hi Ho), (segment_at_same m0 m) by done. f_equal. lia.
  - intros g Hg Hx. unfold frame_addr in Hx. assert (g = f) as -> by lia. apply list.NoDup_app in Hnd as (_ & Hd & _).
    apply (Hd f); [by eapply list_elem_of_lookup_2 | done].
Qed.

Lemma elf_load_loop_ok p loadee elf m0 : nothing_there -> elf_ok m0 elf -> file_apart elf ->
  forall n i k a s m, Z.of_nat n + i = e_phnum (hdr m0 elf) -> 0 <= i -> Forall (segment_fits elf) (load_segments m0 elf i (Z.of_nat n)) ->
  sum_pages (load_segments m0 elf i (Z.of_nat n)) <= Z.of_nat k -> in_order k a p s -> loading m0 m elf ->
  wp (elf_load_loop FRAME_LIMIT p loadee elf i n) (fun e st => exists a', in_order 0 a' p (fst st) /\
    (e = -1 \/ (e = 0 /\ exists fss, a_alloc a' = a_alloc a ++ concat fss /\ Forall2 (in_frames m0 (snd st) elf) (load_segments m0 elf i (Z.of_nat n)) fss /\
       forall x, (forall f, f ∈ concat fss -> ~ (frame_addr f <= x < frame_addr f + 4096)) -> snd st !! x = m !! x))) boot_fault (s, m).
Proof.
  intros Hn HE0 Hap. induction n as [|n IH]; intros i k a s m Hni Hi0 Hfit Hsum Ho Hl.
  { cbn [elf_load_loop]. wp_steps. exists a. split; [by eapply in_order_less, Ho; lia |]. right. split; [done |]. exists []. rewrite app_nil_r. done. }
  cbn [elf_load_loop]. pose proof Hl as [L1 L2 L3]. pose proof (elf_ok_same _ _ _ L1 L2 HE0) as HE1.
  assert (0 <= i < e_phnum (hdr m elf)) as Hi by (rewrite (hdr_same m0 m) by done; lia). rewrite (hdr_same m0 m) in Hi by done.
  destruct (header_reads m elf i) as (fl & R1 & R6); [done | by rewrite (hdr_same m0 m) |]. destruct (segment_reads m elf VIRTUAL i) as (R5 & R3 & R2 & R4); [done | by rewrite (hdr_same m0 m) |].
  rewrite (segment_same m0 m) in R2, R3, R4, R5 by done. set (sg := segment_of m0 elf VIRTUAL i) in *.
  rewrite wp_bind. eapply wp_in_mem; [exact R1 |]. pose proof (header_same m0 m elf i L1 HE0 Hi) as Eld.
  assert (load_segments m0 elf i (Z.of_nat (S n)) = (if is_load m0 elf i then [sg] else []) ++ load_segments m0 elf (i + 1) (Z.of_nat n)) as Els.
  { unfold load_segments. rewrite (seqZ_cons i) by lia. cbn [List.filter]. replace (Z.pred (Z.of_nat (S n))) with (Z.of_nat n) by lia. by destruct (is_load m0 elf i). }
  rewrite Els in Hfit, Hsum |- *. rewrite <- Eld in *. unfold is_load in *. destruct (_ =? PT_LOAD); cbn [negb app] in *; [|apply (IH _ k); (done || lia)].
  apply list.Forall_cons in Hfit as [Hsg Hfit]. cbn [sum_pages foldr] in Hsum. fold (sum_pages (load_segments m0 elf (i + 1) (Z.of_nat n))) in Hsum.
  destruct (segment_source m elf sg HE1 Hsg Hap) as [Hsrc Ew]. pose proof Hsg as ((Hz & Hz2) & Hof & Hin). pose proof Hsrc as [Hsr _ _].
  pose proof (sum_pages_pos (load_segments m0 elf (i + 1) (Z.of_nat n))) as Hsp. set (k' := Z.to_nat (sum_pages (load_segments m0 elf (i + 1) (Z.of_nat n)))).
  rewrite wp_bind. eapply wp_in_mem; [exact R2 |]. rewrite wp_bind. eapply wp_in_mem; [exact R3 |]. rewrite wp_bind. eapply wp_in_mem; [exact R4 |].
  rewrite wp_bind. eapply wp_in_mem; [exact R5 |]. rewrite wp_bind. eapply wp_in_mem; [exact R6 |]. rewrite Ew, wp_bind.
  eapply wp_mono; [eapply (load_segment_into_vspace_ok p loadee _ _ _ _ _ k k'); try done; [unfold k'; fold (seg_pages sg); lia | destruct Hap; lia] | | done].
  intros e [s1 m1] (a1 & Ho1 & Hcase). cbn [fst snd] in *.
  destruct Hcase as [-> | (-> & fs & Ea & Hlen & Hh)]; [cbn [negb Z.eqb]; wp_steps; exists a1; split; [by eapply in_order_less, Ho1; lia | by left] |]. cbn [negb Z.eqb].
  assert (loading m0 m1 elf) as Hl1 by (eapply (loading_next _ _ _ _ _ fs); [exact Hl | done | exact Hsg | done | exact Ho1 | rewrite Ea; set_solver | exact Hh]).
  eapply wp_mono; [apply (IH (i + 1) k' a1 s1 m1); try done; (unfold k'; lia) | | done]. intros e' [s2 m2] (a2 & Ho2 & Hcase). cbn [fst snd] in *. exists a2. split; [done |].
  destruct Hcase as [-> | (-> & fss & Ea2 & HF2 & Hr)]; [by left |]. right. split; [done |]. exists (fs :: fss). cbn [concat]. rewrite Ea2, Ea, <- app_assoc. split; [done |].
  pose proof (refines_nodup _ _ _ (proj1 Ho2)) as Hnd. rewrite Ea2, Ea, <- app_assoc in Hnd. apply list.NoDup_app in Hnd as (_ & _ & Hnd). split.
  - constructor; [|done]. by eapply in_frames_later.
  - intros x Hx. rewrite Hr by (intros f Hf; apply Hx; set_solver). apply (ho_rest _ _ _ _ _ _ Hh). intros f Hf. apply Hx. set_solver.
Qed.
End Order.


(** ** Examples *)
Lemma mapped_put a l m : mapped (put_bytes a l m) a (Z.of_nat (length l)).
Proof.
  revert a. induction l as [|b l IH]; intros a i Hi; cbn [length put_bytes] in *; [lia |]. destruct (decide (i = 0)) as [->|].
  - rewrite Z.add_0_r. exists b. apply lookup_insert_eq.
  - unfold bmem in *. rewrite lookup_insert_ne by lia. replace (a + i) with (a + 1 + (i - 1)) by lia. apply IH. lia.
Qed.
Lemma mapped_under a l m b n : mapped m b n -> mapped (put_bytes a l m) b n.
Proof.
  intros Hm. revert a. induction l as [|x l IH]; intros a i Hi; cbn [put_bytes]; [by apply Hm |]. destruct (decide (a = b + i)) as [->|]; [exists x; apply lookup_insert_eq |].
  unfold bmem in *. rewrite lookup_insert_ne by done. by apply IH.
Qed.
Lemma bytes_put a l m : bytes_ok m -> (forall b, b ∈ l -> 0 <= b < 256) -> bytes_ok (put_bytes a l m).
Proof.
  intros Hm. revert a. induction l as [|x l IH]; intros a Hl c b E; cbn [put_bytes] in E; [by eapply Hm |]. unfold bmem in *.
  destruct (decide (a = c)) as [->|]; [rewrite lookup_insert_eq in E; injection E as <-; apply Hl; set_solver |].
  rewrite lookup_insert_ne in E by done. eapply IH; [|exact E]. intros y Hy. apply Hl. set_solver.
Qed.

(** A window of two frames, and the file of [demo_elf]. *)
Definition load_mem : bmem := put_bytes SOS_FRAME_DATA (replicate (Z.to_nat 8192) 255) (elf_mem 0).

Lemma load_mem_file : file_mem load_mem 0x1000 253.
Proof.
  destruct elf_mem_file as [[H1 H2 H3] _]. split; [by apply mapped_under | done |]. apply bytes_put; [done |]. intros b Hb. apply elem_of_replicate in Hb as [-> _]. lia.
Qed.
Lemma load_mem_accepted : elf_newFile 0x1000 253 load_mem = inl ((0, Some demo_elf_t), load_mem).
Proof. vm_cast_no_check (@eq_refl (((Z * option elf_t) * bmem) + fault) (inl ((0, Some demo_elf_t), load_mem))). Qed.
Lemma load_mem_segments : load_segments load_mem demo_elf_t 0 (e_phnum (hdr load_mem demo_elf_t)) = [mkSegment 0x400000 248 4 8].
Proof. vm_compute. reflexivity. Qed.


(** ** Segments that share a page *)
(** A kernel that only remembers which pages it has mapped. *)
Definition pages_invoke (i : invocation) (k : list (Z * Z)) : Z * list (Z * Z) :=
  match i with
  | Page_Map _ vspace vaddr _ _ => if decide ((vspace, vaddr) ∈ k) then (seL4_DeleteFirst, k) else (0, (vspace, vaddr) :: k)
  | _ => (0, k)
  end.
Definition pages_env : Env (list (Z * Z)) :=
  {| invoke := pages_invoke; failed_level := fun _ => 0; calloc := fun _ k => (0x10000, k); free := fun _ k => k; word_past := fun _ _ => 0 |}.
(** Two segments of four bytes in the page at 0x400000, the second 256 bytes into it. *)
Definition shared_elf : list Z :=
  [0x7f; 69; 76; 70; 2; 1; 1; 0; 0; 0; 0; 0; 0; 0; 0; 0] ++
  words [(2, 2); (2, 183); (4, 1); (8, 0x400000); (8, 64); (8, 176); (4, 0); (2, 64); (2, 56); (2, 2); (2, 64); (2, 1); (2, 0)] ++
  words [(4, 1); (4, 5); (8, 240); (8, 0x400000); (8, 0x80000); (8, 4); (8, 4); (8, 4096)] ++
  words [(4, 1); (4, 5); (8, 244); (8, 0x400100); (8, 0x80100); (8, 4); (8, 4); (8, 4096)] ++
  replicate 64 0 ++ [1; 2; 3; 4] ++ [5; 6; 7; 8].
Definition shared_elf_t : elf_t := mkElf 0x1000 248 2.
Definition shared_mem : bmem := put_bytes 0x1000 shared_elf (put_bytes (frame_addr 1) (replicate (Z.to_nat 8192) 255) ∅).
Definition shared_sos : sos (list (Z * Z)) :=
  set_ft (mkFrameTable ∅ 0 0 0 (mkFrameList FREE_LIST 0 0 0) (mkFrameList ALLOCATED_LIST 0 0 0) 8 3) (demo2_sos []).

(** A segment that starts in a page an earlier segment has already mapped is
    lost.  The comment says that the loader goes on to write to the page that is
    there; it writes to the frame it has just given back instead.  [elf_load]
    returns 0, the one frame left allocated holds the first segment, and where the
    bytes of the second one belong there are zeros. *)
Theorem shared_page_lost : elf_newFile 0x1000 248 shared_mem = inl ((0, Some shared_elf_t), shared_mem) /\
  match elf_load (H := pages_env) 0 8 5 shared_elf_t (shared_sos, shared_mem) with
  | inl (e, (s', m')) => e = 0 /\ ft_allocated (s_ft s') = mkFrameList ALLOCATED_LIST 1 1 1 /\
      m' !! (frame_addr 1) = Some 1 /\ shared_mem !! (0x1000 + 244) = Some 5 /\ m' !! (frame_addr 1 + 0x100) = Some 0
  | inr _ => False
  end.
Proof.
  split; [vm_cast_no_check (@eq_refl (((Z * option elf_t) * bmem) + fault) (inl ((0, Some shared_elf_t), shared_mem))) |].
  vm_compute. split_and!; reflexivity.
Qed.
