(* ===== verification/Dll.v ===== *)
(** * Doubly linked lists

    The pure theory of the linked lists of the kernel: nodes are numbers, 0 is
    [NULL], and the links are two functions.  [dll nx pv hd tl xs] says that the
    list with head [hd] and end [tl] consists of exactly the nodes [xs]. *)

From S2P Require Import Prelude.

(** One entry changed. *)
Definition put {A : Type} (f : Z -> A) (x : Z) (v : A) : Z -> A := fun y => if decide (y = x) then v else f y.

Lemma put_eq {A} (f : Z -> A) x v : put f x v x = v.
Proof. unfold put. by rewrite decide_True. Qed.
Lemma put_ne {A} (f : Z -> A) x v y : y <> x -> put f x v y = f y.
Proof. intros. unfold put. by rewrite decide_False. Qed.

(** [xs] linked up, [p] before the first and [n] behind the last. *)
Fixpoint dseg (nx pv : Z -> Z) (p : Z) (xs : list Z) (n : Z) : Prop :=
  match xs with
  | [] => True
  | x :: xs' => x <> 0 /\ pv x = p /\ nx x = List.hd n xs' /\ dseg nx pv x xs' n
  end.

Record dll (nx pv : Z -> Z) (hd tl : Z) (xs : list Z) : Prop := {
  dll_seg : dseg nx pv 0 xs 0;
  dll_hd : hd = List.hd 0 xs;
  dll_tl : tl = List.last xs 0;
  dll_nodup : NoDup xs }.

Lemma dseg_ext nx pv nx' pv' p xs n :
  (forall x, x ∈ xs -> nx' x = nx x /\ pv' x = pv x) -> dseg nx pv p xs n -> dseg nx' pv' p xs n.
Proof.
  revert p. induction xs as [|x xs IH]; intros p Hx Hs; [done |]. destruct Hs as (H0 & H1 & H2 & H3).
  destruct (Hx x) as [E1 E2]; [set_solver |]. split; [done |]. split; [congruence |]. split; [congruence |].
  apply IH; [|done]. intros y Hy. apply Hx. set_solver.
Qed.

Lemma dll_ext nx pv nx' pv' hd tl xs :
  (forall x, x ∈ xs -> nx' x = nx x /\ pv' x = pv x) -> dll nx pv hd tl xs -> dll nx' pv' hd tl xs.
Proof. intros Hx [H1 H2 H3 H4]. split; try done. by eapply dseg_ext. Qed.

Lemma dseg_nonzero nx pv p xs n x : dseg nx pv p xs n -> x ∈ xs -> x <> 0.
Proof.
  revert p. induction xs as [|y xs IH]; intros p Hs Hx; [set_solver |]. destruct Hs as (H0 & _ & _ & Hs).
  apply list.elem_of_cons in Hx as [->|Hx]; eauto.
Qed.

Lemma dll_nonzero nx pv hd tl xs x : dll nx pv hd tl xs -> x ∈ xs -> x <> 0.
Proof. intros [Hs _ _ _]. by eapply dseg_nonzero. Qed.

Lemma hd_zero nx pv p xs n : dseg nx pv p xs n -> List.hd 0 xs = 0 -> xs = [].
Proof. destruct xs as [|x xs]; [done |]. intros (H0 & _) E. done. Qed.

Lemma last_app (l : list Z) x d : List.last (l ++ [x]) d = x.
Proof. apply last_last. Qed.

Lemma last_cons_def (l : list Z) x d : List.last (x :: l) d = List.last l x.
Proof.
  revert x d. induction l as [|y l IH]; intros x d; [done |].
  change (List.last (y :: l) d = List.last (y :: l) x). by rewrite !IH.
Qed.

Lemma last_elem (l : list Z) d : l <> [] -> List.last l d ∈ l.
Proof.
  destruct l as [|x l] using rev_ind; [done |]. intros _. rewrite last_app. set_solver.
Qed.

Lemma last_skip (l : list Z) x r : r <> [] -> List.last (l ++ x :: r) 0 = List.last (l ++ r) 0.
Proof.
  destruct r as [|c r _] using rev_ind; [done |]. intros _. change (x :: r ++ [c]) with ((x :: r) ++ [c]).
  by rewrite !app_assoc, !last_app.
Qed.

Lemma dll_empty nx pv hd tl xs : dll nx pv hd tl xs -> (hd = 0 <-> xs = []) /\ (tl = 0 <-> xs = []).
Proof.
  intros [H1 -> -> H4]. split; (split; [|by intros ->]).
  - by eapply hd_zero.
  - intros E. destruct xs as [|x xs]; [done |].
    destruct (dseg_nonzero _ _ _ _ _ (List.last (x :: xs) 0) H1); [by apply last_elem | done].
Qed.

Lemma dll_nil nx pv : dll nx pv 0 0 [].
Proof. split; [done | done | done | constructor]. Qed.

Lemma dseg_app nx pv p xs ys n :
  dseg nx pv p (xs ++ ys) n <-> dseg nx pv p xs (List.hd n ys) /\ dseg nx pv (List.last xs p) ys n.
Proof.
  revert p. induction xs as [|x xs IH]; intros p; [simpl; tauto |].
  change ((x :: xs) ++ ys) with (x :: (xs ++ ys)). cbn [dseg]. rewrite IH.
  assert (List.hd n (xs ++ ys) = List.hd (List.hd n ys) xs) as -> by by destruct xs.
  assert (List.last (x :: xs) p = List.last xs x) as ->; [|tauto].
  apply last_cons_def.
Qed.

(** ** Adding and removing *)

Lemma dll_push nx pv hd tl xs x : dll nx pv hd tl xs -> x <> 0 -> x ∉ xs ->
  dll (put nx x hd) (put (if decide (tl = 0) then pv else put pv hd x) x 0) x
      (if decide (tl = 0) then x else tl) (x :: xs).
Proof.
  intros HL Hx Hn. pose proof (dll_empty _ _ _ _ _ HL) as [E1 E2]. destruct HL as [Hs Eh Et Hnd].
  destruct xs as [|y xs].
  - rewrite decide_True by by apply E2. subst. split; [|done | done | by repeat constructor; set_solver].
    simpl. rewrite !put_eq. done.
  - rewrite !decide_False by (rewrite E2; done). simpl in Eh. subst hd.
    assert (x <> y) by set_solver. destruct Hs as (Hy & _ & Hny & Hs).
    apply list.NoDup_cons in Hnd as Hnd'. destruct Hnd' as [Hny' _].
    split; [|done | subst; done | by constructor].
    cbn [dseg List.hd]. rewrite !put_eq, !(put_ne _ x) by done. rewrite put_eq.
    split; [done |]. split; [done |]. split; [done |]. split; [done |]. split; [done |]. split; [done |].
    eapply dseg_ext; [|exact Hs]. intros z Hz. rewrite !put_ne by set_solver. done.
Qed.

Lemma dll_append nx pv hd tl xs x : dll nx pv hd tl xs -> x <> 0 -> x ∉ xs ->
  dll (put (if decide (hd = 0) then nx else put nx tl x) x 0) (put pv x tl)
      (if decide (hd = 0) then x else hd) x (xs ++ [x]).
Proof.
  intros HL Hx Hn. pose proof (dll_empty _ _ _ _ _ HL) as [E1 E2]. destruct HL as [Hs Eh Et Hnd].
  assert (NoDup (xs ++ [x])) as Hnd'.
  { apply list.NoDup_app. split; [done |]. split; [set_solver | repeat constructor; set_solver]. }
  destruct xs as [|y xs] using rev_ind.
  - rewrite !decide_True by by apply E1. simpl in Et. subst tl. split; [|done | done | done].
    simpl. rewrite !put_eq. done.
  - clear IHxs. rewrite !decide_False by (rewrite E1; by destruct xs). rewrite last_app in Et. subst tl.
    assert (x <> y) by set_solver. assert (y ∉ xs) as Hy.
    { apply list.NoDup_app in Hnd as (_ & Hd & _). intros Hin. apply (Hd y Hin). set_solver. }
    split; [| subst; by destruct xs | by rewrite last_app | done].
    rewrite !dseg_app, !last_app in *. destruct Hs as [H1 (H2 & H3 & H4 & _)]. cbn [dseg List.hd] in *.
    rewrite !put_eq, !(put_ne _ x) by done. rewrite put_eq. split; [|done]. split; [|done].
    eapply dseg_ext; [|exact H1]. intros z Hz. rewrite !put_ne by set_solver. done.
Qed.

(** The links around a node in the middle. *)
Lemma dll_around nx pv hd tl l x r : dll nx pv hd tl (l ++ x :: r) ->
  x <> 0 /\ pv x = List.last l 0 /\ nx x = List.hd 0 r.
Proof.
  intros [Hs _ _ _]. rewrite dseg_app in Hs. by destruct Hs as [_ (H0 & H1 & H2 & _)].
Qed.

Lemma dseg_remove_left nx pv l x r :
  dseg nx pv 0 l x -> NoDup l -> (forall z, z ∈ l -> z <> 0) -> (forall z, z ∈ r -> z <> 0) ->
  (forall z, z ∈ l -> z ∉ r) ->
  dseg (if decide (List.last l 0 = 0) then nx else put nx (List.last l 0) (List.hd 0 r))
       (if decide (List.hd 0 r = 0) then pv else put pv (List.hd 0 r) (List.last l 0)) 0 l (List.hd 0 r).
Proof.
  intros Hl Nl Zl Zr Hd. destruct l as [|y l _] using rev_ind; [done |]. rewrite !last_app.
  assert (y <> 0) by (apply Zl; set_solver). rewrite (decide_False (P := y = 0)) by done.
  assert (y ∉ l) by (apply list.NoDup_app in Nl as (_ & Nd & _); intros Hy; apply (Nd y Hy); set_solver).
  assert (forall z, z ∈ l ++ [y] ->
    (if decide (List.hd 0 r = 0) then pv else put pv (List.hd 0 r) y) z = pv z) as Ep.
  { intros z Hz. destruct r as [|b r]; [done |]. case_decide; [done |]. apply put_ne. intros ->.
    apply (Hd b Hz). set_solver. }
  rewrite dseg_app in *. destruct Hl as [H1 (H2 & H3 & H4 & _)]. split.
  - eapply dseg_ext; [|exact H1]. intros z Hz. rewrite put_ne by set_solver.
    split; [done |]. apply Ep. set_solver.
  - cbn [dseg List.hd]. rewrite put_eq, Ep by set_solver. done.
Qed.

Lemma dseg_remove_right nx pv l x r :
  dseg nx pv x r 0 -> NoDup r -> (forall z, z ∈ l -> z <> 0) -> (forall z, z ∈ r -> z <> 0) ->
  (forall z, z ∈ l -> z ∉ r) ->
  dseg (if decide (List.last l 0 = 0) then nx else put nx (List.last l 0) (List.hd 0 r))
       (if decide (List.hd 0 r = 0) then pv else put pv (List.hd 0 r) (List.last l 0)) (List.last l 0) r 0.
Proof.
  intros Hr Nr Zl Zr Hd. destruct r as [|b r]; [done |]. cbn [List.hd].
  assert (b <> 0) by (apply Zr; set_solver). rewrite (decide_False (P := b = 0)) by done.
  apply list.NoDup_cons in Nr as [Nb Nr]. destruct Hr as (H1 & H2 & H3 & H4).
  assert (forall z, z ∈ b :: r ->
    (if decide (List.last l 0 = 0) then nx else put nx (List.last l 0) b) z = nx z) as En.
  { intros z Hz. case_decide as E; [done |]. apply put_ne. intros ->. destruct l; [done |].
    apply (Hd (List.last (z :: l) 0)); [by apply last_elem | done]. }
  cbn [dseg]. rewrite put_eq, En by set_solver. split; [done |]. split; [done |]. split; [done |].
  eapply dseg_ext; [|exact H4]. intros z Hz. rewrite put_ne by set_solver. split; [|done]. apply En. set_solver.
Qed.

(** Taking a node out: the code's updates of its neighbours and of the ends. *)
Lemma dll_remove nx pv hd tl l x r : dll nx pv hd tl (l ++ x :: r) ->
  dll (if decide (pv x = 0) then nx else put nx (pv x) (nx x))
      (if decide (nx x = 0) then pv else put pv (nx x) (pv x))
      (if decide (pv x = 0) then nx x else hd) (if decide (nx x = 0) then pv x else tl) (l ++ r).
Proof.
  intros HL. destruct (dll_around _ _ _ _ _ _ _ HL) as (Hx & -> & ->). destruct HL as [Hs Eh Et Hnd].
  rewrite dseg_app in Hs. destruct Hs as [Hl (_ & _ & _ & Hr)]. cbn [List.hd] in Hl.
  apply list.NoDup_app in Hnd as (Nl & Nd & Nxr). apply list.NoDup_cons in Nxr as [Nx Nr].
  assert (NoDup (l ++ r)) as Hnd' by (apply list.NoDup_app; split; [done |]; split; [set_solver | done]).
  assert (forall z, z ∈ l -> z <> 0) as Zl by (intros z; by eapply dseg_nonzero).
  assert (forall z, z ∈ r -> z <> 0) as Zr by (intros z; by eapply dseg_nonzero).
  split; [| | |done].
  - rewrite dseg_app. split.
    + apply dseg_remove_left with (x := x); try done. set_solver.
    + apply dseg_remove_right with (x := x); try done. set_solver.
  - destruct l as [|a l]; [by rewrite decide_True |]. rewrite decide_False; [done |]. apply Zl, last_elem. done.
  - destruct r as [|b r]; [by rewrite app_nil_r, decide_True |].
    rewrite decide_False by (apply Zr; set_solver). subst tl.
    by apply last_skip.
Qed.
