(* ===== verification/KCaps.v ===== *)
(** * seL4 capabilities

    The capabilities of the kernel and the functions on them that touch no
    memory: kernel/include/object/structures.h, the pure part of
    kernel/src/object/objecttype.c and its AArch64 counterpart
    kernel/src/arch/arm/64/object/objecttype.c.

    A capability is a value of the tagged union [cap] of structures.bf; the
    accessors the build generates from that file are pattern matches here.  An
    accessor applied to the wrong tag fails an assertion in the kernel, which is
    [None] where the code does not check the tag itself. *)

From S2P Require Import Prelude.

(** ** Constants of libsel4 for AArch64 *)
Definition wordRadix : Z := 6.
Definition wordBits : Z := 64.
Definition seL4_SlotBits : Z := 5.
Definition seL4_TCBBits : Z := 11.
Definition seL4_EndpointBits : Z := 4.
Definition seL4_NotificationBits : Z := 5.
Definition seL4_PageTableBits : Z := 12.
Definition seL4_PageDirBits : Z := 12.
Definition seL4_PUDBits : Z := 12.
Definition seL4_PGDBits : Z := 12.
Definition seL4_ASIDPoolBits : Z := 12.
Definition seL4_MinUntypedBits : Z := 4.
Definition seL4_MaxUntypedBits : Z := 47.
Definition ARMSmallPageBits : Z := 12.
Definition ARMLargePageBits : Z := 21.
Definition ARMHugePageBits : Z := 30.
Definition TCB_CNODE_RADIX : Z := 4.
Definition asidInvalid : Z := 0.

(** [enum vm_page_size], [enum vm_rights] and [pageBitsForSize]. *)
Inductive vm_page_size : Type := ARMSmallPage | ARMLargePage | ARMHugePage.
Inductive vm_rights : Type := VMKernelOnly | VMReadWrite | VMKernelReadOnly | VMReadOnly.
#[global] Instance vm_page_size_eq_dec : EqDecision vm_page_size.
Proof. solve_decision. Defined.
#[global] Instance vm_rights_eq_dec : EqDecision vm_rights.
Proof. solve_decision. Defined.

Definition pageBitsForSize (pagesize : vm_page_size) : Z :=
  match pagesize with
  | ARMSmallPage => ARMSmallPageBits
  | ARMLargePage => ARMLargePageBits
  | ARMHugePage => ARMHugePageBits
  end.

(** [tagged_union cap capType], the fields in the order of the generated
    constructors. *)
Inductive cap : Type :=
| cap_null_cap
| cap_untyped_cap (capFreeIndex : Z) (capIsDevice : bool) (capBlockSize capPtr : Z)
| cap_endpoint_cap (capEPBadge : Z) (capCanGrantReply capCanGrant capCanSend capCanReceive : bool)
    (capEPPtr : Z)
| cap_notification_cap (capNtfnBadge : Z) (capNtfnCanReceive capNtfnCanSend : bool) (capNtfnPtr : Z)
| cap_reply_cap (capReplyCanGrant capReplyMaster : bool) (capTCBPtr : Z)
| cap_cnode_cap (capCNodeRadix capCNodeGuardSize capCNodeGuard capCNodePtr : Z)
| cap_thread_cap (capTCBPtr : Z)
| cap_irq_control_cap
| cap_irq_handler_cap (capIRQ : Z)
| cap_zombie_cap (capZombieID capZombieType : Z)
| cap_domain_cap
| cap_frame_cap (capFMappedASID capFBasePtr : Z) (capFSize : vm_page_size) (capFMappedAddress : Z)
    (capFVMRights : vm_rights) (capFIsDevice : bool)
| cap_page_table_cap (capPTMappedASID capPTBasePtr : Z) (capPTIsMapped : bool) (capPTMappedAddress : Z)
| cap_page_directory_cap (capPDMappedASID capPDBasePtr : Z) (capPDIsMapped : bool) (capPDMappedAddress : Z)
| cap_page_upper_directory_cap (capPUDMappedASID capPUDBasePtr : Z) (capPUDIsMapped : bool)
    (capPUDMappedAddress : Z)
| cap_page_global_directory_cap (capPGDMappedASID capPGDBasePtr : Z) (capPGDIsMapped : bool)
| cap_asid_control_cap
| cap_asid_pool_cap (capASIDBase capASIDPool : Z).

#[global] Instance cap_eq_dec : EqDecision cap.
Proof. solve_decision. Defined.

Definition cap_get_capType (c : cap) : Z :=
  match c with
  | cap_null_cap => 0
  | cap_untyped_cap _ _ _ _ => 2
  | cap_endpoint_cap _ _ _ _ _ _ => 4
  | cap_notification_cap _ _ _ _ => 6
  | cap_reply_cap _ _ _ => 8
  | cap_cnode_cap _ _ _ _ => 10
  | cap_thread_cap _ => 12
  | cap_irq_control_cap => 14
  | cap_irq_handler_cap _ => 16
  | cap_zombie_cap _ _ => 18
  | cap_domain_cap => 20
  | cap_frame_cap _ _ _ _ _ _ => 1
  | cap_page_table_cap _ _ _ _ => 3
  | cap_page_directory_cap _ _ _ _ => 5
  | cap_page_upper_directory_cap _ _ _ _ => 7
  | cap_page_global_directory_cap _ _ _ => 9
  | cap_asid_control_cap => 11
  | cap_asid_pool_cap _ _ => 13
  end.

Definition isArchCap (c : cap) : bool := negb (cap_get_capType c mod 2 =? 0).
Definition is_null (c : cap) : bool := cap_get_capType c =? 0.

(** [TCB_PTR_CTE_PTR(p, i)]: the capability slots at the start of a TCB object. *)
Definition cte_size : Z := BIT seL4_SlotBits.
Definition TCB_PTR_CTE_PTR (p i : Z) : Z := w64 (Z.land p (lnot64 (MASK seL4_TCBBits)) + i * cte_size).

(** [TCB_OFFSET]: the [tcb_t] lies in the upper half of its object. *)
Definition TCB_OFFSET : Z := BIT (seL4_TCBBits - 1).

(** object/untyped.h: free space is counted in chunks of the smallest size. *)
Definition MAX_FREE_INDEX (sizeBits : Z) : Z := BIT (sizeBits - seL4_MinUntypedBits).

(** ** Zombies *)
Definition ZombieType_ZombieTCB : Z := BIT wordRadix.
Definition ZombieType_ZombieCNode (n : Z) : Z := Z.land n (MASK wordRadix).

Definition Zombie_new (number type ptr : Z) : cap :=
  let mask := if type =? ZombieType_ZombieTCB then MASK (TCB_CNODE_RADIX + 1) else MASK (type + 1) in
  cap_zombie_cap (Z.lor (Z.land ptr (lnot64 mask)) (Z.land number mask)) type.

(** The accessors of a zombie with identifier [id] and type [type]. *)
Definition cap_zombie_cap_get_capZombieBits (type : Z) : Z :=
  if type =? ZombieType_ZombieTCB then TCB_CNODE_RADIX else ZombieType_ZombieCNode type.
Definition cap_zombie_cap_get_capZombieNumber (id type : Z) : Z :=
  Z.land id (MASK (cap_zombie_cap_get_capZombieBits type + 1)).
Definition cap_zombie_cap_get_capZombiePtr (id type : Z) : Z :=
  Z.land id (lnot64 (MASK (cap_zombie_cap_get_capZombieBits type + 1))).
Definition cap_zombie_cap_set_capZombieNumber (id type n : Z) : cap :=
  let radix := cap_zombie_cap_get_capZombieBits type in
  let ptr := Z.land id (lnot64 (MASK (radix + 1))) in
  cap_zombie_cap (Z.lor ptr (Z.land n (MASK (radix + 1)))) type.

(** ** The memory a capability refers to *)

Definition cap_get_archCapSizeBits (c : cap) : Z :=
  match c with
  | cap_frame_cap _ _ capFSize _ _ _ => pageBitsForSize capFSize
  | cap_page_table_cap _ _ _ _ => seL4_PageTableBits
  | cap_page_directory_cap _ _ _ _ => seL4_PageDirBits
  | cap_page_upper_directory_cap _ _ _ _ => seL4_PUDBits
  | cap_page_global_directory_cap _ _ _ => seL4_PGDBits
  | cap_asid_pool_cap _ _ => seL4_ASIDPoolBits
  | cap_asid_control_cap => 0
  | _ => 0
  end.

Definition cap_get_archCapIsPhysical (c : cap) : bool :=
  match c with
  | cap_frame_cap _ _ _ _ _ _ | cap_page_table_cap _ _ _ _ | cap_page_directory_cap _ _ _ _
  | cap_page_upper_directory_cap _ _ _ _ | cap_page_global_directory_cap _ _ _
  | cap_asid_pool_cap _ _ => true
  | cap_asid_control_cap => false
  | _ => false
  end.

Definition cap_get_archCapPtr (c : cap) : Z :=
  match c with
  | cap_frame_cap _ capFBasePtr _ _ _ _ => capFBasePtr
  | cap_page_table_cap _ capPTBasePtr _ _ => capPTBasePtr
  | cap_page_directory_cap _ capPDBasePtr _ _ => capPDBasePtr
  | cap_page_upper_directory_cap _ capPUDBasePtr _ _ => capPUDBasePtr
  | cap_page_global_directory_cap _ capPGDBasePtr _ => capPGDBasePtr
  | cap_asid_control_cap => 0
  | cap_asid_pool_cap _ capASIDPool => capASIDPool
  | _ => 0
  end.

Definition cap_get_capSizeBits (c : cap) : Z :=
  match c with
  | cap_untyped_cap _ _ capBlockSize _ => capBlockSize
  | cap_endpoint_cap _ _ _ _ _ _ => seL4_EndpointBits
  | cap_notification_cap _ _ _ _ => seL4_NotificationBits
  | cap_cnode_cap capCNodeRadix _ _ _ => w64 (capCNodeRadix + seL4_SlotBits)
  | cap_thread_cap _ => seL4_TCBBits
  | cap_zombie_cap _ type =>
      if type =? ZombieType_ZombieTCB then seL4_TCBBits
      else w64 (ZombieType_ZombieCNode type + seL4_SlotBits)
  | cap_null_cap => 0
  | cap_domain_cap => 0
  | cap_reply_cap _ _ _ => 0
  | cap_irq_control_cap => 0
  | cap_irq_handler_cap _ => 0
  | _ => cap_get_archCapSizeBits c
  end.

Definition cap_get_capIsPhysical (c : cap) : bool :=
  match c with
  | cap_untyped_cap _ _ _ _ => true
  | cap_endpoint_cap _ _ _ _ _ _ => true
  | cap_notification_cap _ _ _ _ => true
  | cap_cnode_cap _ _ _ _ => true
  | cap_thread_cap _ => true
  | cap_zombie_cap _ _ => true
  | cap_domain_cap => false
  | cap_reply_cap _ _ _ => false
  | cap_irq_control_cap => false
  | cap_irq_handler_cap _ => false
  | _ => cap_get_archCapIsPhysical c
  end.

Definition cap_get_capPtr (c : cap) : Z :=
  match c with
  | cap_untyped_cap _ _ _ capPtr => capPtr
  | cap_endpoint_cap _ _ _ _ _ capEPPtr => capEPPtr
  | cap_notification_cap _ _ _ capNtfnPtr => capNtfnPtr
  | cap_cnode_cap _ _ _ capCNodePtr => capCNodePtr
  | cap_thread_cap capTCBPtr => TCB_PTR_CTE_PTR capTCBPtr 0
  | cap_zombie_cap id type => cap_zombie_cap_get_capZombiePtr id type
  | cap_domain_cap => 0
  | cap_reply_cap _ _ _ => 0
  | cap_irq_control_cap => 0
  | cap_irq_handler_cap _ => 0
  | _ => cap_get_archCapPtr c
  end.

(** ** Comparing capabilities *)

Definition Arch_sameRegionAs (cap_a cap_b : cap) : bool :=
  match cap_a, cap_b with
  | cap_frame_cap _ botA sizeA _ _ _, cap_frame_cap _ botB sizeB _ _ _ =>
      let topA := w64 (botA + MASK (pageBitsForSize sizeA)) in
      let topB := w64 (botB + MASK (pageBitsForSize sizeB)) in
      (botA <=? botB) && (topA >=? topB) && (botB <=? topB)
  | cap_page_table_cap _ a _ _, cap_page_table_cap _ b _ _ => a =? b
  | cap_page_directory_cap _ a _ _, cap_page_directory_cap _ b _ _ => a =? b
  | cap_page_upper_directory_cap _ a _ _, cap_page_upper_directory_cap _ b _ _ => a =? b
  | cap_page_global_directory_cap _ a _, cap_page_global_directory_cap _ b _ => a =? b
  | cap_asid_control_cap, cap_asid_control_cap => true
  | cap_asid_pool_cap _ a, cap_asid_pool_cap _ b => a =? b
  | _, _ => false
  end.

Definition Arch_sameObjectAs (cap_a cap_b : cap) : bool :=
  match cap_a, cap_b with
  | cap_frame_cap _ baseA sizeA _ _ devA, cap_frame_cap _ baseB sizeB _ _ devB =>
      (baseA =? baseB) && bool_decide (sizeA = sizeB) && Bool.eqb (negb devA) (negb devB)
  | _, _ => Arch_sameRegionAs cap_a cap_b
  end.

Definition sameRegionAs (cap_a cap_b : cap) : bool :=
  match cap_a with
  | cap_untyped_cap _ _ sizeA aBase =>
      if cap_get_capIsPhysical cap_b then
        let bBase := cap_get_capPtr cap_b in
        let aTop := w64 (aBase + MASK sizeA) in
        let bTop := w64 (bBase + MASK (cap_get_capSizeBits cap_b)) in
        (aBase <=? bBase) && (bTop <=? aTop) && (bBase <=? bTop)
      else false
  | cap_endpoint_cap _ _ _ _ _ a => if cap_b is cap_endpoint_cap _ _ _ _ _ b then a =? b else false
  | cap_notification_cap _ _ _ a => if cap_b is cap_notification_cap _ _ _ b then a =? b else false
  | cap_cnode_cap radixA _ _ a =>
      if cap_b is cap_cnode_cap radixB _ _ b then (a =? b) && (radixA =? radixB) else false
  | cap_thread_cap a => if cap_b is cap_thread_cap b then a =? b else false
  | cap_reply_cap _ _ a => if cap_b is cap_reply_cap _ _ b then a =? b else false
  | cap_domain_cap => if cap_b is cap_domain_cap then true else false
  | cap_irq_control_cap =>
      match cap_b with cap_irq_control_cap | cap_irq_handler_cap _ => true | _ => false end
  | cap_irq_handler_cap a => if cap_b is cap_irq_handler_cap b then a =? b else false
  | _ => if isArchCap cap_a && isArchCap cap_b then Arch_sameRegionAs cap_a cap_b else false
  end.

Definition sameObjectAs (cap_a cap_b : cap) : bool :=
  if cap_get_capType cap_a =? 2 then false
  else if (cap_get_capType cap_a =? 14) && (cap_get_capType cap_b =? 16) then false
  else if isArchCap cap_a && isArchCap cap_b then Arch_sameObjectAs cap_a cap_b
  else sameRegionAs cap_a cap_b.

(** ** Changing and deriving capabilities *)

(** [seL4_CapRights_t]. *)
Record seL4_CapRights : Type := mkRights {
  capAllowGrantReply : bool;
  capAllowGrant : bool;
  capAllowRead : bool;
  capAllowWrite : bool }.

Definition Arch_isCapRevocable (derivedCap srcCap : cap) : bool := false.

Definition isCapRevocable (derivedCap srcCap : cap) : option bool :=
  if isArchCap derivedCap then Some (Arch_isCapRevocable derivedCap srcCap)
  else match derivedCap with
  | cap_endpoint_cap badge _ _ _ _ _ =>
      if srcCap is cap_endpoint_cap srcBadge _ _ _ _ _ then Some (negb (badge =? srcBadge)) else None
  | cap_notification_cap badge _ _ _ =>
      if srcCap is cap_notification_cap srcBadge _ _ _ then Some (negb (badge =? srcBadge)) else None
  | cap_irq_handler_cap _ => Some (cap_get_capType srcCap =? cap_get_capType cap_irq_control_cap)
  | cap_untyped_cap _ _ _ _ => Some true
  | _ => Some false
  end.

Definition hasCancelSendRights (c : cap) : bool :=
  match c with
  | cap_endpoint_cap _ canGrantReply canGrant canSend canReceive _ =>
      canSend && canReceive && canGrantReply && canGrant
  | _ => false
  end.

(** [maskVMRights] of kernel/src/arch/arm/64/kernel/vspace.c. *)
Definition maskVMRights (r : vm_rights) (cap_rights_mask : seL4_CapRights) : vm_rights :=
  if bool_decide (r = VMReadOnly) && capAllowRead cap_rights_mask then VMReadOnly
  else if bool_decide (r = VMReadWrite) && capAllowRead cap_rights_mask then
    if negb (capAllowWrite cap_rights_mask) then VMReadOnly else VMReadWrite
  else VMKernelOnly.

Definition Arch_maskCapRights (cap_rights_mask : seL4_CapRights) (c : cap) : cap :=
  match c with
  | cap_frame_cap asid base size addr rights dev =>
      cap_frame_cap asid base size addr (maskVMRights rights cap_rights_mask) dev
  | _ => c
  end.

Definition maskCapRights (cap_rights : seL4_CapRights) (c : cap) : cap :=
  if isArchCap c then Arch_maskCapRights cap_rights c
  else match c with
  | cap_endpoint_cap badge canGrantReply canGrant canSend canReceive ptr =>
      cap_endpoint_cap badge (canGrantReply && capAllowGrantReply cap_rights)
        (canGrant && capAllowGrant cap_rights) (canSend && capAllowWrite cap_rights)
        (canReceive && capAllowRead cap_rights) ptr
  | cap_notification_cap badge canReceive canSend ptr =>
      cap_notification_cap badge (canReceive && capAllowRead cap_rights)
        (canSend && capAllowWrite cap_rights) ptr
  | cap_reply_cap canGrant master ptr => cap_reply_cap (canGrant && capAllowGrant cap_rights) master ptr
  | _ => c
  end.

Definition Arch_updateCapData (preserve : bool) (data : Z) (c : cap) : cap := c.

(** [seL4_CNode_CapData]: 58 bits of guard above 6 bits of guard size. *)
Definition seL4_CNode_CapData_get_guardSize (w : Z) : Z := Z.land w (MASK 6).
Definition seL4_CNode_CapData_get_guard (w : Z) : Z := Z.shiftr w 6.

Definition updateCapData (preserve : bool) (newData : Z) (c : cap) : cap :=
  if isArchCap c then Arch_updateCapData preserve newData c
  else match c with
  | cap_endpoint_cap badge canGrantReply canGrant canSend canReceive ptr =>
      if negb preserve && (badge =? 0)
      then cap_endpoint_cap newData canGrantReply canGrant canSend canReceive ptr
      else cap_null_cap
  | cap_notification_cap badge canReceive canSend ptr =>
      if negb preserve && (badge =? 0) then cap_notification_cap newData canReceive canSend ptr
      else cap_null_cap
  | cap_cnode_cap radix _ _ ptr =>
      let guardSize := seL4_CNode_CapData_get_guardSize newData in
      if guardSize + radix >? wordBits then cap_null_cap
      else cap_cnode_cap radix guardSize (Z.land (seL4_CNode_CapData_get_guard newData) (MASK guardSize)) ptr
  | _ => c
  end.

(** ** Object types and creation *)

(** [seL4_ObjectType], [seL4_ModeObjectType] and [seL4_ArchObjectType]. *)
Definition seL4_UntypedObject : Z := 0.
Definition seL4_TCBObject : Z := 1.
Definition seL4_EndpointObject : Z := 2.
Definition seL4_NotificationObject : Z := 3.
Definition seL4_CapTableObject : Z := 4.
Definition seL4_NonArchObjectTypeCount : Z := 5.
Definition seL4_ARM_HugePageObject : Z := 5.
Definition seL4_ARM_PageUpperDirectoryObject : Z := 6.
Definition seL4_ARM_PageGlobalDirectoryObject : Z := 7.
Definition seL4_ARM_SmallPageObject : Z := 8.
Definition seL4_ARM_LargePageObject : Z := 9.
Definition seL4_ARM_PageTableObject : Z := 10.
Definition seL4_ARM_PageDirectoryObject : Z := 11.
Definition seL4_ObjectTypeCount : Z := 12.

Definition Arch_isFrameType (type : Z) : bool :=
  (type =? seL4_ARM_SmallPageObject) || (type =? seL4_ARM_LargePageObject) || (type =? seL4_ARM_HugePageObject).

(** [None] is [fail]: an object type the function does not know. *)
Definition Arch_getObjectSize (t : Z) : option Z :=
  if t =? seL4_ARM_SmallPageObject then Some ARMSmallPageBits
  else if t =? seL4_ARM_LargePageObject then Some ARMLargePageBits
  else if t =? seL4_ARM_HugePageObject then Some ARMHugePageBits
  else if t =? seL4_ARM_PageTableObject then Some seL4_PageTableBits
  else if t =? seL4_ARM_PageDirectoryObject then Some seL4_PageDirBits
  else if t =? seL4_ARM_PageUpperDirectoryObject then Some seL4_PUDBits
  else if t =? seL4_ARM_PageGlobalDirectoryObject then Some seL4_PGDBits
  else None.

Definition getObjectSize (t userObjSize : Z) : option Z :=
  if t >=? seL4_NonArchObjectTypeCount then Arch_getObjectSize t
  else if t =? seL4_TCBObject then Some seL4_TCBBits
  else if t =? seL4_EndpointObject then Some seL4_EndpointBits
  else if t =? seL4_NotificationObject then Some seL4_NotificationBits
  else if t =? seL4_CapTableObject then Some (w64 (seL4_SlotBits + userObjSize))
  else if t =? seL4_UntypedObject then Some userObjSize
  else None.

Definition Arch_createObject (t regionBase userSize : Z) (deviceMemory : bool) : option cap :=
  if t =? seL4_ARM_SmallPageObject then
    Some (cap_frame_cap asidInvalid regionBase ARMSmallPage 0 VMReadWrite deviceMemory)
  else if t =? seL4_ARM_LargePageObject then
    Some (cap_frame_cap asidInvalid regionBase ARMLargePage 0 VMReadWrite deviceMemory)
  else if t =? seL4_ARM_HugePageObject then
    Some (cap_frame_cap asidInvalid regionBase ARMHugePage 0 VMReadWrite deviceMemory)
  else if t =? seL4_ARM_PageGlobalDirectoryObject then
    Some (cap_page_global_directory_cap asidInvalid regionBase false)
  else if t =? seL4_ARM_PageUpperDirectoryObject then
    Some (cap_page_upper_directory_cap asidInvalid regionBase false 0)
  else if t =? seL4_ARM_PageDirectoryObject then
    Some (cap_page_directory_cap asidInvalid regionBase false 0)
  else if t =? seL4_ARM_PageTableObject then
    Some (cap_page_table_cap asidInvalid regionBase false 0)
  else None.
