(* ===== verification/KCapThms.v ===== *)
(** * Properties of capabilities

    Round trip of the zombie encoding, rights and badges that never grow, the
    region a capability covers and the object it names. *)

From S2P Require Import Prelude KCaps.

(** ** Masks *)

Lemma mask_low (k x y : Z) : 0 <= k ->
  Z.land (Z.lor (Z.land x (lnot64 (MASK k))) (Z.land y (MASK k))) (MASK k) = Z.land y (MASK k).
Proof.
  intros Hk. apply Z.bits_inj'. intros i Hi. unfold MASK.
  rewrite !Z.land_spec, Z.lor_spec, !Z.land_spec, lnot64_testbit, ones_testbit by done.
  destruct (bool_decide (0 <= i < k)), (Z.testbit y i), (Z.testbit x i); simpl; try done;
    by rewrite ?andb_false_r, ?andb_true_r.
Qed.

Lemma mask_high (k x y : Z) : 0 <= k ->
  Z.land (Z.lor (Z.land x (lnot64 (MASK k))) (Z.land y (MASK k))) (lnot64 (MASK k)) = Z.land x (lnot64 (MASK k)).
Proof.
  intros Hk. apply Z.bits_inj'. intros i Hi. unfold MASK.
  rewrite !Z.land_spec, Z.lor_spec, !Z.land_spec, lnot64_testbit, ones_testbit by done.
  destruct (bool_decide (0 <= i < k)), (Z.testbit y i), (Z.testbit x i), (bool_decide (0 <= i < 64)); done.
Qed.

Lemma land_mask (k x : Z) : 0 <= k -> Z.land x (MASK k) = x mod 2 ^ k.
Proof. intros. by apply Z.land_ones. Qed.
Lemma lor_add (a b n : Z) : 0 <= n -> 0 <= b < 2 ^ n -> Z.lor (Z.shiftl a n) b = a * 2 ^ n + b.
Proof.
  intros Hn Hb. rewrite Z.shiftl_mul_pow2 by done. rewrite <- Z.lxor_lor, <- Z.add_nocarry_lxor; [done | |].
  all: apply Z.bits_inj'; intros m Hm; rewrite Z.land_spec, Z.bits_0; destruct (decide (m < n)).
  1, 3: by rewrite Z.mul_pow2_bits_low.
  all: assert (Z.testbit b m = false) as ->; [|by rewrite andb_false_r].
  all: destruct (decide (b = 0)) as [->|]; [apply Z.bits_0 |]; apply Z.bits_above_log2; [lia |].
  all: apply Z.log2_lt_pow2; [lia |]; pose proof (Z.pow_le_mono_r 2 n m); lia.
Qed.

Lemma land_lnot_mask (k x : Z) : 0 <= k -> is_word x -> Z.land x (lnot64 (MASK k)) = x - x mod 2 ^ k.
Proof.
  intros Hk Hx. rewrite <- (land_mask k x) by done.
  assert (Z.land (Z.land x (lnot64 (MASK k))) (Z.land x (MASK k)) = 0) as H0.
  { apply Z.bits_inj'. intros i Hi. rewrite !Z.land_spec, lnot64_testbit, Z.bits_0.
    destruct (Z.testbit x i), (Z.testbit (MASK k) i), (bool_decide (0 <= i < 64)); done. }
  apply Z.add_nocarry_lxor in H0 as H1.
  assert (Z.lxor (Z.land x (lnot64 (MASK k))) (Z.land x (MASK k)) = x) as H2; [|lia].
  apply Z.bits_inj'. intros i Hi. rewrite Z.lxor_spec, !Z.land_spec, lnot64_testbit.
  destruct (decide (i < 64)).
  - rewrite bool_decide_true by lia. by destruct (Z.testbit x i), (Z.testbit (MASK k) i).
  - by rewrite is_word_testbit by (done || lia).
Qed.

Lemma land_lnot_aligned (k x : Z) : 0 <= k -> is_word x -> x mod 2 ^ k = 0 -> Z.land x (lnot64 (MASK k)) = x.
Proof. intros. rewrite land_lnot_mask by done. lia. Qed.

(** ** Zombies *)

(** The types a zombie is created with: a TCB, or the radix of a CNode. *)
Definition zombie_type (type : Z) : Prop := type = ZombieType_ZombieTCB \/ 0 <= type < 64.

Lemma zombie_mask type : zombie_type type ->
  (if type =? ZombieType_ZombieTCB then MASK (TCB_CNODE_RADIX + 1) else MASK (type + 1)) =
  MASK (cap_zombie_cap_get_capZombieBits type + 1) /\ 0 <= cap_zombie_cap_get_capZombieBits type.
Proof.
  unfold cap_zombie_cap_get_capZombieBits. intros [->|Ht]; [done |].
  destruct (type =? ZombieType_ZombieTCB) eqn:E.
  - apply Z.eqb_eq in E. subst. done.
  - unfold ZombieType_ZombieCNode. rewrite land_mask by done. change (2 ^ wordRadix) with 64.
    rewrite Z.mod_small by lia. split; [done | lia].
Qed.

(** A zombie keeps the slots it stands for in one word: the number of slots
    left and the address of the first are read back as they were given to
    [Zombie_new], and setting the number changes the number alone. *)
Theorem zombie_roundtrip (number type ptr n : Z) :
  zombie_type type -> is_word ptr ->
  ptr mod 2 ^ (cap_zombie_cap_get_capZombieBits type + 1) = 0 ->
  0 <= number <= 2 ^ cap_zombie_cap_get_capZombieBits type ->
  0 <= n <= 2 ^ cap_zombie_cap_get_capZombieBits type ->
  exists id, Zombie_new number type ptr = cap_zombie_cap id type /\
    cap_zombie_cap_get_capZombieNumber id type = number /\
    cap_zombie_cap_get_capZombiePtr id type = ptr /\
    cap_zombie_cap_set_capZombieNumber id type n = Zombie_new n type ptr.
Proof.
  intros Ht Hp Ha Hn Hn'. destruct (zombie_mask type Ht) as [Em Hb].
  unfold Zombie_new. rewrite Em. cbv zeta. eexists. split; [done |].
  set (b := cap_zombie_cap_get_capZombieBits type) in *.
  assert (2 ^ (b + 1) = 2 * 2 ^ b) as E2 by (rewrite Z.pow_add_r by lia; lia).
  assert (0 < 2 ^ b) by lia.
  unfold cap_zombie_cap_get_capZombieNumber, cap_zombie_cap_get_capZombiePtr, cap_zombie_cap_set_capZombieNumber.
  fold b. rewrite mask_low, mask_high by lia. split; [|split; [|done]].
  - rewrite land_mask by lia. apply Z.mod_small. lia.
  - by apply land_lnot_aligned; [lia | |].
Qed.

Lemma zombie_roundtrip_witness :
  exists id, Zombie_new 16 4 8192 = cap_zombie_cap id 4 /\
    cap_zombie_cap_get_capZombieNumber id 4 = 16 /\
    cap_zombie_cap_get_capZombiePtr id 4 = 8192 /\
    cap_zombie_cap_set_capZombieNumber id 4 15 = Zombie_new 15 4 8192.
Proof.
  apply (zombie_roundtrip 16 4 8192 15); [right; lia | by unfold is_word | done | |];
    split; vm_compute; congruence.
Defined.

(** ** Rights *)

Definition vm_rights_le (a b : vm_rights) : bool :=
  match a, b with
  | VMKernelOnly, _ | VMReadOnly, VMReadWrite => true
  | _, _ => bool_decide (a = b)
  end.

(** [a] is [b] with some of its rights taken away. *)
Definition rights_le (a b : cap) : Prop :=
  match a, b with
  | cap_endpoint_cap badge r g s v p, cap_endpoint_cap badge' r' g' s' v' p' =>
      badge = badge' /\ p = p' /\ (r → r') /\ (g → g') /\ (s → s') /\ (v → v')
  | cap_notification_cap badge v s p, cap_notification_cap badge' v' s' p' =>
      badge = badge' /\ p = p' /\ (v → v') /\ (s → s')
  | cap_reply_cap g m p, cap_reply_cap g' m' p' => m = m' /\ p = p' /\ (g → g')
  | cap_frame_cap asid base size addr r dev, cap_frame_cap asid' base' size' addr' r' dev' =>
      (asid, base, size, addr, dev) = (asid', base', size', addr', dev') /\ vm_rights_le r r'
  | _, _ => a = b
  end.

Definition inter_rights (x y : seL4_CapRights) : seL4_CapRights :=
  mkRights (capAllowGrantReply x && capAllowGrantReply y) (capAllowGrant x && capAllowGrant y)
    (capAllowRead x && capAllowRead y) (capAllowWrite x && capAllowWrite y).

Lemma maskVMRights_le r m : vm_rights_le (maskVMRights r m) r.
Proof. destruct m as [[] [] [] []], r; done. Qed.

Lemma maskVMRights_inter r x y : maskVMRights (maskVMRights r x) y = maskVMRights r (inter_rights x y).
Proof. destruct x as [? ? [] []], y as [? ? [] []], r; done. Qed.

(** Masking takes rights away and nothing else: the result names the same
    object with a subset of the rights, and masking twice is masking with the
    intersection, so that no sequence of derivations regains a right. *)
Theorem maskCapRights_diminishes (x y : seL4_CapRights) (c : cap) :
  rights_le (maskCapRights x c) c /\
  maskCapRights y (maskCapRights x c) = maskCapRights (inter_rights x y) c.
Proof.
  destruct c; (split; [|simpl; unfold maskCapRights; simpl; by rewrite ?maskVMRights_inter, ?andb_assoc]);
    unfold maskCapRights; simpl; try done.
  - split_and!; try done; intros ?%Is_true_true%andb_true_iff; apply Is_true_true; naive_solver.
  - split_and!; try done; intros ?%Is_true_true%andb_true_iff; apply Is_true_true; naive_solver.
  - split_and!; try done; intros ?%Is_true_true%andb_true_iff; apply Is_true_true; naive_solver.
  - split; [done |]. apply maskVMRights_le.
Qed.

(** ** Well-formed capabilities *)

(** An object of [2 ^ bits] bytes at [ptr]: aligned, and not past the end of the
    address space. *)
Definition obj_region (ptr bits : Z) : Prop :=
  0 <= bits < 64 /\ 0 <= ptr /\ ptr mod 2 ^ bits = 0 /\ ptr + 2 ^ bits <= 2 ^ 64.

(** The fields of a capability are within the widths of structures.bf, its
    object is aligned to its size, and a CNode resolves at most a word of bits. *)
Definition cap_wf (c : cap) : Prop :=
  match c with
  | cap_untyped_cap fi _ bs p =>
      seL4_MinUntypedBits <= bs <= seL4_MaxUntypedBits /\ 0 <= fi <= MAX_FREE_INDEX bs /\ obj_region p bs
  | cap_endpoint_cap badge _ _ _ _ p => is_word badge /\ obj_region p seL4_EndpointBits
  | cap_notification_cap badge _ _ p => is_word badge /\ obj_region p seL4_NotificationBits
  | cap_reply_cap _ _ p | cap_thread_cap p => obj_region (p - TCB_OFFSET) seL4_TCBBits
  | cap_cnode_cap radix guardSize guard p =>
      0 <= radix /\ 0 <= guardSize < 64 /\ guardSize + radix <= wordBits /\ 0 <= guard < 2 ^ guardSize /\
      obj_region p (radix + seL4_SlotBits)
  | cap_irq_handler_cap irq => 0 <= irq < 2 ^ 12
  | cap_zombie_cap id type =>
      zombie_type type /\ is_word id /\ obj_region (cap_zombie_cap_get_capZombiePtr id type) (cap_get_capSizeBits c)
  | cap_frame_cap asid p size _ _ _ => 0 <= asid < 2 ^ 16 /\ obj_region p (pageBitsForSize size)
  | cap_page_table_cap asid p _ _ | cap_page_directory_cap asid p _ _
  | cap_page_upper_directory_cap asid p _ _ | cap_page_global_directory_cap asid p _ =>
      0 <= asid < 2 ^ 16 /\ obj_region p 12
  | cap_asid_pool_cap base p => 0 <= base < 2 ^ 16 /\ obj_region p 12
  | _ => True
  end.

Lemma update_cap_wf (preserve : bool) (data : Z) (c : cap) : is_word data -> cap_wf c -> cap_wf (updateCapData preserve data c).
Proof.
  intros Hd Hc. destruct c; unfold updateCapData; simpl in *; try done.
  - destruct (negb preserve && _); [|done]. simpl. tauto.
  - destruct (negb preserve && _); [|done]. simpl. tauto.
  - unfold seL4_CNode_CapData_get_guardSize. rewrite land_mask by done.
    destruct (_ >? wordBits) eqn:E; [done |]. rewrite Z.gtb_ltb, Z.ltb_ge in E. simpl.
    change (2 ^ 6) with 64 in *. pose proof (Z.mod_pos_bound data 64 ltac:(done)).
    split; [tauto |]. split; [lia |]. split; [lia |]. split; [|tauto].
    rewrite land_mask by lia. apply Z.mod_pos_bound. lia.
Qed.

(** C37: Every function that makes one capability out of another keeps it
    well-formed: masking rights and updating the data word, whatever the user
    passes; in particular a guard always fits its size and a CNode never
    resolves more than a word. *)
Theorem derive_cap_wf (r : seL4_CapRights) (preserve : bool) (data : Z) (c : cap) :
  is_word data -> cap_wf c -> cap_wf (maskCapRights r c) /\ cap_wf (updateCapData preserve data c).
Proof. intros Hd Hc. split; [by destruct c | by apply update_cap_wf]. Qed.

Lemma derive_cap_wf_witness :
  cap_wf (maskCapRights (mkRights true false true false) (cap_cnode_cap 8 56 0 8192)) /\
  cap_wf (updateCapData false (2 ^ 64 - 9) (cap_cnode_cap 8 56 0 8192)).
Proof.
  apply (derive_cap_wf (mkRights true false true false) false (2 ^ 64 - 9) (cap_cnode_cap 8 56 0 8192)).
  - by unfold is_word.
  - unfold cap_wf, obj_region, wordBits, seL4_SlotBits. split; [done |]. split; [lia |]. split; [done |].
    split; [done |]. split; [lia |]. done.
Defined.

(** ** Regions and objects *)

(** The addresses of the object a physical capability refers to. *)
Definition in_region (c : cap) (x : Z) : Prop :=
  cap_get_capPtr c <= x < cap_get_capPtr c + 2 ^ cap_get_capSizeBits c.

Lemma obj_region_top p bits : obj_region p bits -> w64 (p + MASK bits) = p + 2 ^ bits - 1.
Proof.
  intros (Hb & H0 & _ & Hw). unfold MASK, w64. rewrite Z.ones_equiv. assert (0 < 2 ^ bits) by lia.
  rewrite Z.mod_small; lia.
Qed.

Lemma tcb_base p : obj_region (p - TCB_OFFSET) seL4_TCBBits -> TCB_PTR_CTE_PTR p 0 = p - TCB_OFFSET.
Proof.
  unfold obj_region, TCB_PTR_CTE_PTR, w64. change TCB_OFFSET with 1024. change (2 ^ seL4_TCBBits) with 2048.
  intros (_ & H0 & Ha & Hw). rewrite land_lnot_mask; [|done | unfold is_word; lia].
  change (2 ^ seL4_TCBBits) with 2048. rewrite Z.mod_small by lia. lia.
Qed.

Lemma cap_wf_region c : cap_wf c -> cap_get_capIsPhysical c = true ->
  obj_region (cap_get_capPtr c) (cap_get_capSizeBits c).
Proof.
  destruct c as [|? ? ? ?|? ? ? ? ? ?|? ? ? ?|? ? ?|radix ? ? ?|?| |?|? type| |? ? size ? ? ?|? ? ? ?|? ? ? ?|? ? ? ?|? ? ?| |? ?];
    simpl; intros Hc Hp; try done; try tauto.
  - assert (w64 (radix + seL4_SlotBits) = radix + seL4_SlotBits) as ->; [|tauto].
    destruct Hc as (? & ? & ? & ? & [? _]). unfold w64, seL4_SlotBits in *. rewrite Z.mod_small; lia.
  - by rewrite tcb_base.
Qed.

(** For well-formed capabilities the overlap test of [sameRegionAs] on
    wrapping 64-bit words is containment of regions: an untyped capability is
    an ancestor of exactly the capabilities whose memory lies within its own. *)
Theorem untyped_region_containment (fi : Z) (dev : bool) (bits base : Z) (c : cap) :
  cap_wf (cap_untyped_cap fi dev bits base) -> cap_wf c -> cap_get_capIsPhysical c = true ->
  sameRegionAs (cap_untyped_cap fi dev bits base) c = true <->
  (forall x, in_region c x -> in_region (cap_untyped_cap fi dev bits base) x).
Proof.
  intros Ha Hc Hp. pose proof (cap_wf_region _ Ha eq_refl) as Ra. pose proof (cap_wf_region _ Hc Hp) as Rc.
  unfold sameRegionAs. rewrite Hp. cbv zeta. unfold in_region. simpl in *.
  rewrite !obj_region_top by done. set (p := cap_get_capPtr c) in *. set (b := cap_get_capSizeBits c) in *.
  destruct Ra as (Hb1 & H01 & _ & Hw1), Rc as (Hb2 & H02 & _ & Hw2).
  assert (0 < 2 ^ b) by lia. assert (0 < 2 ^ bits) by lia. clearbody p b.
  rewrite !andb_true_iff, !Z.leb_le. split; [intros H1 x Hx; lia |].
  intros Hx. pose proof (Hx p ltac:(lia)). pose proof (Hx (p + 2 ^ b - 1) ltac:(lia)). lia.
Qed.

Lemma untyped_region_containment_witness :
  sameRegionAs (cap_untyped_cap 0 false 12 8192) (cap_endpoint_cap 5 true true true true 8208) = true <->
  (forall x, in_region (cap_endpoint_cap 5 true true true true 8208) x ->
     in_region (cap_untyped_cap 0 false 12 8192) x).
Proof.
  apply (untyped_region_containment 0 false 12 8192 (cap_endpoint_cap 5 true true true true 8208)).
  - unfold cap_wf, obj_region. vm_compute. intuition congruence.
  - unfold cap_wf, obj_region, is_word. vm_compute. intuition congruence.
  - reflexivity.
Defined.

Ltac cap_cases a b :=
  destruct a, b; unfold sameObjectAs, sameRegionAs, Arch_sameObjectAs, Arch_sameRegionAs; simpl; try done;
  rewrite ?andb_true_iff, ?Z.eqb_eq, ?bool_decide_eq_true, ?eqb_true_iff.

(** "Refers to the same object" is symmetric and transitive, and names one
    object: the same kind of capability, at the same address, of the same size.
    This is what lets [isFinalCapability] look at the two neighbours of a slot
    only, and in one direction each. *)
Theorem sameObjectAs_per (a b c : cap) :
  (sameObjectAs a b = true -> sameObjectAs b a = true) /\
  (sameObjectAs a b = true -> sameObjectAs b c = true -> sameObjectAs a c = true) /\
  (sameObjectAs a b = true -> cap_get_capType a = cap_get_capType b /\
     cap_get_capPtr a = cap_get_capPtr b /\ cap_get_capSizeBits a = cap_get_capSizeBits b).
Proof.
  split; [|split].
  - cap_cases a b; naive_solver.
  - intros Hab Hbc. revert Hab. cap_cases a b; intros Hab; revert Hbc; destruct c;
      unfold sameObjectAs, sameRegionAs, Arch_sameObjectAs, Arch_sameRegionAs; simpl; try done;
      rewrite ?andb_true_iff, ?Z.eqb_eq, ?bool_decide_eq_true, ?eqb_true_iff; naive_solver.
  - cap_cases a b; naive_solver.
Qed.
