(* ===== verification/KState.v ===== *)
(** * The state of the seL4 kernel

    Threads, capability slots, endpoints, notifications and the global variables
    of kernel/include/model/statedata.h, for the uniprocessor AArch64 build.
    Kernel objects live in one map per type, indexed by their address; address 0
    is [NULL].  The accessors the build generates from the .bf files are record
    fields.  What the kernel does to the hardware is a list of events. *)

From S2P Require Import Prelude KCaps.

(** [enum _thread_state]. *)
Inductive _thread_state_t : Type :=
| ThreadState_Inactive
| ThreadState_Running
| ThreadState_Restart
| ThreadState_BlockedOnReceive
| ThreadState_BlockedOnSend
| ThreadState_BlockedOnReply
| ThreadState_BlockedOnNotification
| ThreadState_IdleThreadState.
#[global] Instance thread_state_eq_dec : EqDecision _thread_state_t.
Proof. solve_decision. Defined.

(** [tagged_union lookup_fault] and [tagged_union seL4_Fault]. *)
Inductive lookup_fault_t : Type :=
| lookup_fault_invalid_root
| lookup_fault_missing_capability (bitsLeft : Z)
| lookup_fault_depth_mismatch (bitsFound bitsLeft : Z)
| lookup_fault_guard_mismatch (guardFound bitsLeft bitsFound : Z).

Inductive seL4_Fault_t : Type :=
| seL4_Fault_NullFault
| seL4_Fault_CapFault (address : Z) (inReceivePhase : bool)
| seL4_Fault_UnknownSyscall (syscallNumber : Z)
| seL4_Fault_UserException (number code : Z)
| seL4_Fault_VMFault (address FSR : Z) (instructionFault : bool).
#[global] Instance seL4_Fault_eq_dec : EqDecision seL4_Fault_t.
Proof. solve_decision. Defined.

(** [enum exception]. *)
Inductive exception_t : Type :=
| EXCEPTION_NONE
| EXCEPTION_FAULT
| EXCEPTION_LOOKUP_FAULT
| EXCEPTION_SYSCALL_ERROR
| EXCEPTION_PREEMPTED.
#[global] Instance exception_eq_dec : EqDecision exception_t.
Proof. solve_decision. Defined.

(** [seL4_Error] of libsel4. *)
Inductive seL4_Error : Type :=
| seL4_NoError
| seL4_InvalidArgument
| seL4_InvalidCapability
| seL4_IllegalOperation
| seL4_RangeError
| seL4_AlignmentError
| seL4_FailedLookup
| seL4_TruncatedMessage
| seL4_DeleteFirst
| seL4_RevokeFirst
| seL4_NotEnoughMemory.
#[global] Instance seL4_Error_eq_dec : EqDecision seL4_Error.
Proof. solve_decision. Defined.

(** [struct syscall_error]. *)
Record syscall_error_t : Type := mkErr {
  invalidArgumentNumber : Z;
  invalidCapNumber : Z;
  rangeErrorMin : Z;
  rangeErrorMax : Z;
  memoryLeft : Z;
  failedLookupWasSource : bool;
  err_type : seL4_Error }.

(** [enum irq_state]. *)
Inductive irq_state : Type := IRQInactive | IRQSignal | IRQTimer | IRQReserved.
#[global] Instance irq_state_eq_dec : EqDecision irq_state.
Proof. solve_decision. Defined.

(** [struct tcb]; the bit fields of [thread_state_t] are fields of their own. *)
Record tcb_t : Type := mkTcb {
  tcbRegs : gmap Z Z;
  tsType : _thread_state_t;
  tcbQueued : bool;
  blockingObject : Z;
  blockingIPCBadge : Z;
  blockingIPCCanGrant : bool;
  blockingIPCCanGrantReply : bool;
  blockingIPCIsCall : bool;
  tcbBoundNotification : Z;
  tcbFault : seL4_Fault_t;
  tcbLookupFailure : lookup_fault_t;
  tcbDomain : Z;
  tcbMCP : Z;
  tcbPriority : Z;
  tcbTimeSlice : Z;
  tcbFaultHandler : Z;
  tcbIPCBuffer : Z;
  tcbSchedNext : Z;
  tcbSchedPrev : Z;
  tcbEPNext : Z;
  tcbEPPrev : Z }.

(** [tcb_queue_t], [endpoint_t] and [notification_t]. *)
Record tcb_queue_t : Type := mkQ { q_head : Z; q_end : Z }.
#[global] Instance tcb_queue_eq_dec : EqDecision tcb_queue_t.
Proof. solve_decision. Defined.

Inductive endpoint_state : Type := EPState_Idle | EPState_Send | EPState_Recv.
Inductive notification_state : Type := NtfnState_Idle | NtfnState_Waiting | NtfnState_Active.
#[global] Instance endpoint_state_eq_dec : EqDecision endpoint_state.
Proof. solve_decision. Defined.
#[global] Instance notification_state_eq_dec : EqDecision notification_state.
Proof. solve_decision. Defined.

Record endpoint_t : Type := mkEp { ep_state : endpoint_state; epQueue_head : Z; epQueue_tail : Z }.
Record notification_t : Type := mkNtfn {
  ntfn_state : notification_state;
  ntfnBoundTCB : Z;
  ntfnMsgIdentifier : Z;
  ntfnQueue_head : Z;
  ntfnQueue_tail : Z }.

(** [mdb_node_t] and [cte_t]. *)
Record mdb_node_t : Type := mkMdb {
  mdbNext : Z;
  mdbRevocable : bool;
  mdbFirstBadged : bool;
  mdbPrev : Z }.
Definition nullMDBNode : mdb_node_t := mkMdb 0 false false 0.
Record cte_t : Type := mkCte { cte_cap : cap; cteMDBNode : mdb_node_t }.

(** What the kernel asks of the hardware. *)
Inductive kevent : Type :=
| Arch_switchToThread (tcb : Z)
| Arch_switchToIdleThread
| maskInterrupt (disable : bool) (irq : Z)
| ackInterrupt (irq : Z)
| resetTimer
| setCurrentUserVSpaceRoot (ttbr : Z)
| writeTPIDRURO (reg : Z)
| invalidateTranslationASID (asid : Z)
| invalidateTranslationSingle (vptr : Z)
| cleanByVA_PoU (vaddr paddr : Z)
| cleanCacheRange_RAM (start_ end_ pstart : Z)
| invalidateCacheRange_RAM (start_ end_ pstart : Z)
| cleanInvalidateCacheRange_RAM (start_ end_ pstart : Z)
| cleanCacheRange_PoU (start_ end_ pstart : Z)
| invalidateCacheRange_I (start_ end_ pstart : Z)
| dsb
| isb
| clearMemory (base bits : Z)
| setIRQTrigger (irq : Z) (trigger : bool)
| handleReservedIRQ (irq : Z)
| cleanInvalidateL1Caches
| invalidateLocalTLB
| setCurrentKernelVSpaceRoot (ttbr : Z)
| lockTLBEntry (vaddr : Z)
| setKernelStack (stack_address : Z)
| setVtable (addr : Z)
| disableFpu
| cpu_initLocalIRQController
| armv_init_user_access
| initTimer
| initIRQController
| initL2Cache
| init_serial.

(** The kernel's state.  [k_word] is the memory shared with user level, by word;
    the arrays are zero outside the map. *)
Record kstate : Type := mkK {
  k_tcb : gmap Z tcb_t;
  k_cte : gmap Z cte_t;
  k_ep : gmap Z endpoint_t;
  k_ntfn : gmap Z notification_t;
  k_word : gmap Z Z;
  ksReadyQueues : gmap Z tcb_queue_t;
  ksReadyQueuesL1Bitmap : gmap Z Z;
  ksReadyQueuesL2Bitmap : gmap (Z * Z) Z;
  ksCurThread : Z;
  ksIdleThread : Z;
  ksSchedulerAction : Z;
  ksCurDomain : Z;
  ksDomainTime : Z;
  ksDomScheduleIdx : Z;
  ksWorkUnitsCompleted : Z;
  intStateIRQTable : gmap Z irq_state;
  armKSASIDTable : gmap Z Z;
  current_lookup_fault : lookup_fault_t;
  current_fault : seL4_Fault_t;
  current_syscall_error : syscall_error_t;
  current_extra_caps : list Z;
  k_events : list kevent }.

(** Field updates. *)
Definition upd_tcbRegs (f : gmap Z Z -> gmap Z Z) (t : tcb_t) : tcb_t :=
  mkTcb (f (tcbRegs t)) (tsType t) (tcbQueued t) (blockingObject t) (blockingIPCBadge t)
    (blockingIPCCanGrant t) (blockingIPCCanGrantReply t) (blockingIPCIsCall t) (tcbBoundNotification t)
    (tcbFault t) (tcbLookupFailure t) (tcbDomain t) (tcbMCP t) (tcbPriority t) (tcbTimeSlice t)
    (tcbFaultHandler t) (tcbIPCBuffer t) (tcbSchedNext t) (tcbSchedPrev t) (tcbEPNext t) (tcbEPPrev t).
Definition upd_tsType (f : _thread_state_t -> _thread_state_t) (t : tcb_t) : tcb_t :=
  mkTcb (tcbRegs t) (f (tsType t)) (tcbQueued t) (blockingObject t) (blockingIPCBadge t)
    (blockingIPCCanGrant t) (blockingIPCCanGrantReply t) (blockingIPCIsCall t) (tcbBoundNotification t)
    (tcbFault t) (tcbLookupFailure t) (tcbDomain t) (tcbMCP t) (tcbPriority t) (tcbTimeSlice t)
    (tcbFaultHandler t) (tcbIPCBuffer t) (tcbSchedNext t) (tcbSchedPrev t) (tcbEPNext t) (tcbEPPrev t).
Definition upd_tcbQueued (f : bool -> bool) (t : tcb_t) : tcb_t :=
  mkTcb (tcbRegs t) (tsType t) (f (tcbQueued t)) (blockingObject t) (blockingIPCBadge t)
    (blockingIPCCanGrant t) (blockingIPCCanGrantReply t) (blockingIPCIsCall t) (tcbBoundNotification t)
    (tcbFault t) (tcbLookupFailure t) (tcbDomain t) (tcbMCP t) (tcbPriority t) (tcbTimeSlice t)
    (tcbFaultHandler t) (tcbIPCBuffer t) (tcbSchedNext t) (tcbSchedPrev t) (tcbEPNext t) (tcbEPPrev t).
Definition upd_blockingObject (f : Z -> Z) (t : tcb_t) : tcb_t :=
  mkTcb (tcbRegs t) (tsType t) (tcbQueued t) (f (blockingObject t)) (blockingIPCBadge t)
    (blockingIPCCanGrant t) (blockingIPCCanGrantReply t) (blockingIPCIsCall t) (tcbBoundNotification t)
    (tcbFault t) (tcbLookupFailure t) (tcbDomain t) (tcbMCP t) (tcbPriority t) (tcbTimeSlice t)
    (tcbFaultHandler t) (tcbIPCBuffer t) (tcbSchedNext t) (tcbSchedPrev t) (tcbEPNext t) (tcbEPPrev t).
Definition upd_blockingIPCBadge (f : Z -> Z) (t : tcb_t) : tcb_t :=
  mkTcb (tcbRegs t) (tsType t) (tcbQueued t) (blockingObject t) (f (blockingIPCBadge t))
    (blockingIPCCanGrant t) (blockingIPCCanGrantReply t) (blockingIPCIsCall t) (tcbBoundNotification t)
    (tcbFault t) (tcbLookupFailure t) (tcbDomain t) (tcbMCP t) (tcbPriority t) (tcbTimeSlice t)
    (tcbFaultHandler t) (tcbIPCBuffer t) (tcbSchedNext t) (tcbSchedPrev t) (tcbEPNext t) (tcbEPPrev t).
Definition upd_blockingIPCCanGrant (f : bool -> bool) (t : tcb_t) : tcb_t :=
  mkTcb (tcbRegs t) (tsType t) (tcbQueued t) (blockingObject t) (blockingIPCBadge t) (f (blockingIPCCanGrant
    t)) (blockingIPCCanGrantReply t) (blockingIPCIsCall t) (tcbBoundNotification t) (tcbFault t)
    (tcbLookupFailure t) (tcbDomain t) (tcbMCP t) (tcbPriority t) (tcbTimeSlice t) (tcbFaultHandler t)
    (tcbIPCBuffer t) (tcbSchedNext t) (tcbSchedPrev t) (tcbEPNext t) (tcbEPPrev t).
Definition upd_blockingIPCCanGrantReply (f : bool -> bool) (t : tcb_t) : tcb_t :=
  mkTcb (tcbRegs t) (tsType t) (tcbQueued t) (blockingObject t) (blockingIPCBadge t) (blockingIPCCanGrant t)
    (f (blockingIPCCanGrantReply t)) (blockingIPCIsCall t) (tcbBoundNotification t) (tcbFault t)
    (tcbLookupFailure t) (tcbDomain t) (tcbMCP t) (tcbPriority t) (tcbTimeSlice t) (tcbFaultHandler t)
    (tcbIPCBuffer t) (tcbSchedNext t) (tcbSchedPrev t) (tcbEPNext t) (tcbEPPrev t).
Definition upd_blockingIPCIsCall (f : bool -> bool) (t : tcb_t) : tcb_t :=
  mkTcb (tcbRegs t) (tsType t) (tcbQueued t) (blockingObject t) (blockingIPCBadge t) (blockingIPCCanGrant t)
    (blockingIPCCanGrantReply t) (f (blockingIPCIsCall t)) (tcbBoundNotification t) (tcbFault t)
    (tcbLookupFailure t) (tcbDomain t) (tcbMCP t) (tcbPriority t) (tcbTimeSlice t) (tcbFaultHandler t)
    (tcbIPCBuffer t) (tcbSchedNext t) (tcbSchedPrev t) (tcbEPNext t) (tcbEPPrev t).
Definition upd_tcbBoundNotification (f : Z -> Z) (t : tcb_t) : tcb_t :=
  mkTcb (tcbRegs t) (tsType t) (tcbQueued t) (blockingObject t) (blockingIPCBadge t) (blockingIPCCanGrant t)
    (blockingIPCCanGrantReply t) (blockingIPCIsCall t) (f (tcbBoundNotification t)) (tcbFault t)
    (tcbLookupFailure t) (tcbDomain t) (tcbMCP t) (tcbPriority t) (tcbTimeSlice t) (tcbFaultHandler t)
    (tcbIPCBuffer t) (tcbSchedNext t) (tcbSchedPrev t) (tcbEPNext t) (tcbEPPrev t).
Definition upd_tcbFault (f : seL4_Fault_t -> seL4_Fault_t) (t : tcb_t) : tcb_t :=
  mkTcb (tcbRegs t) (tsType t) (tcbQueued t) (blockingObject t) (blockingIPCBadge t) (blockingIPCCanGrant t)
    (blockingIPCCanGrantReply t) (blockingIPCIsCall t) (tcbBoundNotification t) (f (tcbFault t))
    (tcbLookupFailure t) (tcbDomain t) (tcbMCP t) (tcbPriority t) (tcbTimeSlice t) (tcbFaultHandler t)
    (tcbIPCBuffer t) (tcbSchedNext t) (tcbSchedPrev t) (tcbEPNext t) (tcbEPPrev t).
Definition upd_tcbLookupFailure (f : lookup_fault_t -> lookup_fault_t) (t : tcb_t) : tcb_t :=
  mkTcb (tcbRegs t) (tsType t) (tcbQueued t) (blockingObject t) (blockingIPCBadge t) (blockingIPCCanGrant t)
    (blockingIPCCanGrantReply t) (blockingIPCIsCall t) (tcbBoundNotification t) (tcbFault t) (f
    (tcbLookupFailure t)) (tcbDomain t) (tcbMCP t) (tcbPriority t) (tcbTimeSlice t) (tcbFaultHandler t)
    (tcbIPCBuffer t) (tcbSchedNext t) (tcbSchedPrev t) (tcbEPNext t) (tcbEPPrev t).
Definition upd_tcbDomain (f : Z -> Z) (t : tcb_t) : tcb_t :=
  mkTcb (tcbRegs t) (tsType t) (tcbQueued t) (blockingObject t) (blockingIPCBadge t) (blockingIPCCanGrant t)
    (blockingIPCCanGrantReply t) (blockingIPCIsCall t) (tcbBoundNotification t) (tcbFault t)
    (tcbLookupFailure t) (f (tcbDomain t)) (tcbMCP t) (tcbPriority t) (tcbTimeSlice t) (tcbFaultHandler
    t) (tcbIPCBuffer t) (tcbSchedNext t) (tcbSchedPrev t) (tcbEPNext t) (tcbEPPrev t).
Definition upd_tcbMCP (f : Z -> Z) (t : tcb_t) : tcb_t :=
  mkTcb (tcbRegs t) (tsType t) (tcbQueued t) (blockingObject t) (blockingIPCBadge t) (blockingIPCCanGrant t)
    (blockingIPCCanGrantReply t) (blockingIPCIsCall t) (tcbBoundNotification t) (tcbFault t)
    (tcbLookupFailure t) (tcbDomain t) (f (tcbMCP t)) (tcbPriority t) (tcbTimeSlice t) (tcbFaultHandler
    t) (tcbIPCBuffer t) (tcbSchedNext t) (tcbSchedPrev t) (tcbEPNext t) (tcbEPPrev t).
Definition upd_tcbPriority (f : Z -> Z) (t : tcb_t) : tcb_t :=
  mkTcb (tcbRegs t) (tsType t) (tcbQueued t) (blockingObject t) (blockingIPCBadge t) (blockingIPCCanGrant t)
    (blockingIPCCanGrantReply t) (blockingIPCIsCall t) (tcbBoundNotification t) (tcbFault t)
    (tcbLookupFailure t) (tcbDomain t) (tcbMCP t) (f (tcbPriority t)) (tcbTimeSlice t) (tcbFaultHandler
    t) (tcbIPCBuffer t) (tcbSchedNext t) (tcbSchedPrev t) (tcbEPNext t) (tcbEPPrev t).
Definition upd_tcbTimeSlice (f : Z -> Z) (t : tcb_t) : tcb_t :=
  mkTcb (tcbRegs t) (tsType t) (tcbQueued t) (blockingObject t) (blockingIPCBadge t) (blockingIPCCanGrant t)
    (blockingIPCCanGrantReply t) (blockingIPCIsCall t) (tcbBoundNotification t) (tcbFault t)
    (tcbLookupFailure t) (tcbDomain t) (tcbMCP t) (tcbPriority t) (f (tcbTimeSlice t)) (tcbFaultHandler
    t) (tcbIPCBuffer t) (tcbSchedNext t) (tcbSchedPrev t) (tcbEPNext t) (tcbEPPrev t).
Definition upd_tcbFaultHandler (f : Z -> Z) (t : tcb_t) : tcb_t :=
  mkTcb (tcbRegs t) (tsType t) (tcbQueued t) (blockingObject t) (blockingIPCBadge t) (blockingIPCCanGrant t)
    (blockingIPCCanGrantReply t) (blockingIPCIsCall t) (tcbBoundNotification t) (tcbFault t)
    (tcbLookupFailure t) (tcbDomain t) (tcbMCP t) (tcbPriority t) (tcbTimeSlice t) (f (tcbFaultHandler
    t)) (tcbIPCBuffer t) (tcbSchedNext t) (tcbSchedPrev t) (tcbEPNext t) (tcbEPPrev t).
Definition upd_tcbIPCBuffer (f : Z -> Z) (t : tcb_t) : tcb_t :=
  mkTcb (tcbRegs t) (tsType t) (tcbQueued t) (blockingObject t) (blockingIPCBadge t) (blockingIPCCanGrant t)
    (blockingIPCCanGrantReply t) (blockingIPCIsCall t) (tcbBoundNotification t) (tcbFault t)
    (tcbLookupFailure t) (tcbDomain t) (tcbMCP t) (tcbPriority t) (tcbTimeSlice t) (tcbFaultHandler t)
    (f (tcbIPCBuffer t)) (tcbSchedNext t) (tcbSchedPrev t) (tcbEPNext t) (tcbEPPrev t).
Definition upd_tcbSchedNext (f : Z -> Z) (t : tcb_t) : tcb_t :=
  mkTcb (tcbRegs t) (tsType t) (tcbQueued t) (blockingObject t) (blockingIPCBadge t) (blockingIPCCanGrant t)
    (blockingIPCCanGrantReply t) (blockingIPCIsCall t) (tcbBoundNotification t) (tcbFault t)
    (tcbLookupFailure t) (tcbDomain t) (tcbMCP t) (tcbPriority t) (tcbTimeSlice t) (tcbFaultHandler t)
    (tcbIPCBuffer t) (f (tcbSchedNext t)) (tcbSchedPrev t) (tcbEPNext t) (tcbEPPrev t).
Definition upd_tcbSchedPrev (f : Z -> Z) (t : tcb_t) : tcb_t :=
  mkTcb (tcbRegs t) (tsType t) (tcbQueued t) (blockingObject t) (blockingIPCBadge t) (blockingIPCCanGrant t)
    (blockingIPCCanGrantReply t) (blockingIPCIsCall t) (tcbBoundNotification t) (tcbFault t)
    (tcbLookupFailure t) (tcbDomain t) (tcbMCP t) (tcbPriority t) (tcbTimeSlice t) (tcbFaultHandler t)
    (tcbIPCBuffer t) (tcbSchedNext t) (f (tcbSchedPrev t)) (tcbEPNext t) (tcbEPPrev t).
Definition upd_tcbEPNext (f : Z -> Z) (t : tcb_t) : tcb_t :=
  mkTcb (tcbRegs t) (tsType t) (tcbQueued t) (blockingObject t) (blockingIPCBadge t) (blockingIPCCanGrant t)
    (blockingIPCCanGrantReply t) (blockingIPCIsCall t) (tcbBoundNotification t) (tcbFault t)
    (tcbLookupFailure t) (tcbDomain t) (tcbMCP t) (tcbPriority t) (tcbTimeSlice t) (tcbFaultHandler t)
    (tcbIPCBuffer t) (tcbSchedNext t) (tcbSchedPrev t) (f (tcbEPNext t)) (tcbEPPrev t).
Definition upd_tcbEPPrev (f : Z -> Z) (t : tcb_t) : tcb_t :=
  mkTcb (tcbRegs t) (tsType t) (tcbQueued t) (blockingObject t) (blockingIPCBadge t) (blockingIPCCanGrant t)
    (blockingIPCCanGrantReply t) (blockingIPCIsCall t) (tcbBoundNotification t) (tcbFault t)
    (tcbLookupFailure t) (tcbDomain t) (tcbMCP t) (tcbPriority t) (tcbTimeSlice t) (tcbFaultHandler t)
    (tcbIPCBuffer t) (tcbSchedNext t) (tcbSchedPrev t) (tcbEPNext t) (f (tcbEPPrev t)).

Definition upd_k_tcb (f : gmap Z tcb_t -> gmap Z tcb_t) (k : kstate) : kstate :=
  mkK (f (k_tcb k)) (k_cte k) (k_ep k) (k_ntfn k) (k_word k) (ksReadyQueues k) (ksReadyQueuesL1Bitmap k)
    (ksReadyQueuesL2Bitmap k) (ksCurThread k) (ksIdleThread k) (ksSchedulerAction k) (ksCurDomain k)
    (ksDomainTime k) (ksDomScheduleIdx k) (ksWorkUnitsCompleted k) (intStateIRQTable k) (armKSASIDTable k)
    (current_lookup_fault k) (current_fault k) (current_syscall_error k) (current_extra_caps k)
    (k_events k).
Definition upd_k_cte (f : gmap Z cte_t -> gmap Z cte_t) (k : kstate) : kstate :=
  mkK (k_tcb k) (f (k_cte k)) (k_ep k) (k_ntfn k) (k_word k) (ksReadyQueues k) (ksReadyQueuesL1Bitmap k)
    (ksReadyQueuesL2Bitmap k) (ksCurThread k) (ksIdleThread k) (ksSchedulerAction k) (ksCurDomain k)
    (ksDomainTime k) (ksDomScheduleIdx k) (ksWorkUnitsCompleted k) (intStateIRQTable k) (armKSASIDTable k)
    (current_lookup_fault k) (current_fault k) (current_syscall_error k) (current_extra_caps k)
    (k_events k).
Definition upd_k_ep (f : gmap Z endpoint_t -> gmap Z endpoint_t) (k : kstate) : kstate :=
  mkK (k_tcb k) (k_cte k) (f (k_ep k)) (k_ntfn k) (k_word k) (ksReadyQueues k) (ksReadyQueuesL1Bitmap k)
    (ksReadyQueuesL2Bitmap k) (ksCurThread k) (ksIdleThread k) (ksSchedulerAction k) (ksCurDomain k)
    (ksDomainTime k) (ksDomScheduleIdx k) (ksWorkUnitsCompleted k) (intStateIRQTable k) (armKSASIDTable k)
    (current_lookup_fault k) (current_fault k) (current_syscall_error k) (current_extra_caps k)
    (k_events k).
Definition upd_k_ntfn (f : gmap Z notification_t -> gmap Z notification_t) (k : kstate) : kstate :=
  mkK (k_tcb k) (k_cte k) (k_ep k) (f (k_ntfn k)) (k_word k) (ksReadyQueues k) (ksReadyQueuesL1Bitmap k)
    (ksReadyQueuesL2Bitmap k) (ksCurThread k) (ksIdleThread k) (ksSchedulerAction k) (ksCurDomain k)
    (ksDomainTime k) (ksDomScheduleIdx k) (ksWorkUnitsCompleted k) (intStateIRQTable k) (armKSASIDTable k)
    (current_lookup_fault k) (current_fault k) (current_syscall_error k) (current_extra_caps k)
    (k_events k).
Definition upd_k_word (f : gmap Z Z -> gmap Z Z) (k : kstate) : kstate :=
  mkK (k_tcb k) (k_cte k) (k_ep k) (k_ntfn k) (f (k_word k)) (ksReadyQueues k) (ksReadyQueuesL1Bitmap k)
    (ksReadyQueuesL2Bitmap k) (ksCurThread k) (ksIdleThread k) (ksSchedulerAction k) (ksCurDomain k)
    (ksDomainTime k) (ksDomScheduleIdx k) (ksWorkUnitsCompleted k) (intStateIRQTable k) (armKSASIDTable k)
    (current_lookup_fault k) (current_fault k) (current_syscall_error k) (current_extra_caps k)
    (k_events k).
Definition upd_ksReadyQueues (f : gmap Z tcb_queue_t -> gmap Z tcb_queue_t) (k : kstate) : kstate :=
  mkK (k_tcb k) (k_cte k) (k_ep k) (k_ntfn k) (k_word k) (f (ksReadyQueues k)) (ksReadyQueuesL1Bitmap k)
    (ksReadyQueuesL2Bitmap k) (ksCurThread k) (ksIdleThread k) (ksSchedulerAction k) (ksCurDomain k)
    (ksDomainTime k) (ksDomScheduleIdx k) (ksWorkUnitsCompleted k) (intStateIRQTable k) (armKSASIDTable k)
    (current_lookup_fault k) (current_fault k) (current_syscall_error k) (current_extra_caps k)
    (k_events k).
Definition upd_ksReadyQueuesL1Bitmap (f : gmap Z Z -> gmap Z Z) (k : kstate) : kstate :=
  mkK (k_tcb k) (k_cte k) (k_ep k) (k_ntfn k) (k_word k) (ksReadyQueues k) (f (ksReadyQueuesL1Bitmap k))
    (ksReadyQueuesL2Bitmap k) (ksCurThread k) (ksIdleThread k) (ksSchedulerAction k) (ksCurDomain k)
    (ksDomainTime k) (ksDomScheduleIdx k) (ksWorkUnitsCompleted k) (intStateIRQTable k) (armKSASIDTable k)
    (current_lookup_fault k) (current_fault k) (current_syscall_error k) (current_extra_caps k)
    (k_events k).
Definition upd_ksReadyQueuesL2Bitmap (f : gmap (Z * Z) Z -> gmap (Z * Z) Z) (k : kstate) : kstate :=
  mkK (k_tcb k) (k_cte k) (k_ep k) (k_ntfn k) (k_word k) (ksReadyQueues k) (ksReadyQueuesL1Bitmap k) (f
    (ksReadyQueuesL2Bitmap k)) (ksCurThread k) (ksIdleThread k) (ksSchedulerAction k) (ksCurDomain k)
    (ksDomainTime k) (ksDomScheduleIdx k) (ksWorkUnitsCompleted k) (intStateIRQTable k) (armKSASIDTable k)
    (current_lookup_fault k) (current_fault k) (current_syscall_error k) (current_extra_caps k)
    (k_events k).
Definition upd_ksCurThread (f : Z -> Z) (k : kstate) : kstate :=
  mkK (k_tcb k) (k_cte k) (k_ep k) (k_ntfn k) (k_word k) (ksReadyQueues k) (ksReadyQueuesL1Bitmap k)
    (ksReadyQueuesL2Bitmap k) (f (ksCurThread k)) (ksIdleThread k) (ksSchedulerAction k) (ksCurDomain k)
    (ksDomainTime k) (ksDomScheduleIdx k) (ksWorkUnitsCompleted k) (intStateIRQTable k) (armKSASIDTable k)
    (current_lookup_fault k) (current_fault k) (current_syscall_error k) (current_extra_caps k)
    (k_events k).
Definition upd_ksIdleThread (f : Z -> Z) (k : kstate) : kstate :=
  mkK (k_tcb k) (k_cte k) (k_ep k) (k_ntfn k) (k_word k) (ksReadyQueues k) (ksReadyQueuesL1Bitmap k)
    (ksReadyQueuesL2Bitmap k) (ksCurThread k) (f (ksIdleThread k)) (ksSchedulerAction k) (ksCurDomain k)
    (ksDomainTime k) (ksDomScheduleIdx k) (ksWorkUnitsCompleted k) (intStateIRQTable k) (armKSASIDTable k)
    (current_lookup_fault k) (current_fault k) (current_syscall_error k) (current_extra_caps k)
    (k_events k).
Definition upd_ksSchedulerAction (f : Z -> Z) (k : kstate) : kstate :=
  mkK (k_tcb k) (k_cte k) (k_ep k) (k_ntfn k) (k_word k) (ksReadyQueues k) (ksReadyQueuesL1Bitmap k)
    (ksReadyQueuesL2Bitmap k) (ksCurThread k) (ksIdleThread k) (f (ksSchedulerAction k)) (ksCurDomain k)
    (ksDomainTime k) (ksDomScheduleIdx k) (ksWorkUnitsCompleted k) (intStateIRQTable k) (armKSASIDTable k)
    (current_lookup_fault k) (current_fault k) (current_syscall_error k) (current_extra_caps k)
    (k_events k).
Definition upd_ksCurDomain (f : Z -> Z) (k : kstate) : kstate :=
  mkK (k_tcb k) (k_cte k) (k_ep k) (k_ntfn k) (k_word k) (ksReadyQueues k) (ksReadyQueuesL1Bitmap k)
    (ksReadyQueuesL2Bitmap k) (ksCurThread k) (ksIdleThread k) (ksSchedulerAction k) (f (ksCurDomain k))
    (ksDomainTime k) (ksDomScheduleIdx k) (ksWorkUnitsCompleted k) (intStateIRQTable k) (armKSASIDTable k)
    (current_lookup_fault k) (current_fault k) (current_syscall_error k) (current_extra_caps k)
    (k_events k).
Definition upd_ksDomainTime (f : Z -> Z) (k : kstate) : kstate :=
  mkK (k_tcb k) (k_cte k) (k_ep k) (k_ntfn k) (k_word k) (ksReadyQueues k) (ksReadyQueuesL1Bitmap k)
    (ksReadyQueuesL2Bitmap k) (ksCurThread k) (ksIdleThread k) (ksSchedulerAction k) (ksCurDomain k) (f
    (ksDomainTime k)) (ksDomScheduleIdx k) (ksWorkUnitsCompleted k) (intStateIRQTable k) (armKSASIDTable k)
    (current_lookup_fault k) (current_fault k) (current_syscall_error k) (current_extra_caps k)
    (k_events k).
Definition upd_ksDomScheduleIdx (f : Z -> Z) (k : kstate) : kstate :=
  mkK (k_tcb k) (k_cte k) (k_ep k) (k_ntfn k) (k_word k) (ksReadyQueues k) (ksReadyQueuesL1Bitmap k)
    (ksReadyQueuesL2Bitmap k) (ksCurThread k) (ksIdleThread k) (ksSchedulerAction k) (ksCurDomain k)
    (ksDomainTime k) (f (ksDomScheduleIdx k)) (ksWorkUnitsCompleted k) (intStateIRQTable k) (armKSASIDTable k)
    (current_lookup_fault k) (current_fault k) (current_syscall_error k) (current_extra_caps k)
    (k_events k).
Definition upd_ksWorkUnitsCompleted (f : Z -> Z) (k : kstate) : kstate :=
  mkK (k_tcb k) (k_cte k) (k_ep k) (k_ntfn k) (k_word k) (ksReadyQueues k) (ksReadyQueuesL1Bitmap k)
    (ksReadyQueuesL2Bitmap k) (ksCurThread k) (ksIdleThread k) (ksSchedulerAction k) (ksCurDomain k)
    (ksDomainTime k) (ksDomScheduleIdx k) (f (ksWorkUnitsCompleted k)) (intStateIRQTable k) (armKSASIDTable k)
    (current_lookup_fault k) (current_fault k) (current_syscall_error k) (current_extra_caps k)
    (k_events k).
Definition upd_intStateIRQTable (f : gmap Z irq_state -> gmap Z irq_state) (k : kstate) : kstate :=
  mkK (k_tcb k) (k_cte k) (k_ep k) (k_ntfn k) (k_word k) (ksReadyQueues k) (ksReadyQueuesL1Bitmap k)
    (ksReadyQueuesL2Bitmap k) (ksCurThread k) (ksIdleThread k) (ksSchedulerAction k) (ksCurDomain k)
    (ksDomainTime k) (ksDomScheduleIdx k) (ksWorkUnitsCompleted k) (f (intStateIRQTable k)) (armKSASIDTable k)
    (current_lookup_fault k) (current_fault k) (current_syscall_error k) (current_extra_caps k)
    (k_events k).
Definition upd_armKSASIDTable (f : gmap Z Z -> gmap Z Z) (k : kstate) : kstate :=
  mkK (k_tcb k) (k_cte k) (k_ep k) (k_ntfn k) (k_word k) (ksReadyQueues k) (ksReadyQueuesL1Bitmap k)
    (ksReadyQueuesL2Bitmap k) (ksCurThread k) (ksIdleThread k) (ksSchedulerAction k) (ksCurDomain k)
    (ksDomainTime k) (ksDomScheduleIdx k) (ksWorkUnitsCompleted k) (intStateIRQTable k) (f (armKSASIDTable k))
    (current_lookup_fault k) (current_fault k) (current_syscall_error k) (current_extra_caps k)
    (k_events k).
Definition upd_current_lookup_fault (f : lookup_fault_t -> lookup_fault_t) (k : kstate) : kstate :=
  mkK (k_tcb k) (k_cte k) (k_ep k) (k_ntfn k) (k_word k) (ksReadyQueues k) (ksReadyQueuesL1Bitmap k)
    (ksReadyQueuesL2Bitmap k) (ksCurThread k) (ksIdleThread k) (ksSchedulerAction k) (ksCurDomain k)
    (ksDomainTime k) (ksDomScheduleIdx k) (ksWorkUnitsCompleted k) (intStateIRQTable k) (armKSASIDTable k) (f
    (current_lookup_fault k)) (current_fault k) (current_syscall_error k) (current_extra_caps k)
    (k_events k).
Definition upd_current_fault (f : seL4_Fault_t -> seL4_Fault_t) (k : kstate) : kstate :=
  mkK (k_tcb k) (k_cte k) (k_ep k) (k_ntfn k) (k_word k) (ksReadyQueues k) (ksReadyQueuesL1Bitmap k)
    (ksReadyQueuesL2Bitmap k) (ksCurThread k) (ksIdleThread k) (ksSchedulerAction k) (ksCurDomain k)
    (ksDomainTime k) (ksDomScheduleIdx k) (ksWorkUnitsCompleted k) (intStateIRQTable k) (armKSASIDTable k)
    (current_lookup_fault k) (f (current_fault k)) (current_syscall_error k) (current_extra_caps k)
    (k_events k).
Definition upd_current_syscall_error (f : syscall_error_t -> syscall_error_t) (k : kstate) : kstate :=
  mkK (k_tcb k) (k_cte k) (k_ep k) (k_ntfn k) (k_word k) (ksReadyQueues k) (ksReadyQueuesL1Bitmap k)
    (ksReadyQueuesL2Bitmap k) (ksCurThread k) (ksIdleThread k) (ksSchedulerAction k) (ksCurDomain k)
    (ksDomainTime k) (ksDomScheduleIdx k) (ksWorkUnitsCompleted k) (intStateIRQTable k) (armKSASIDTable k)
    (current_lookup_fault k) (current_fault k) (f (current_syscall_error k)) (current_extra_caps k)
    (k_events k).
Definition upd_current_extra_caps (f : list Z -> list Z) (k : kstate) : kstate :=
  mkK (k_tcb k) (k_cte k) (k_ep k) (k_ntfn k) (k_word k) (ksReadyQueues k) (ksReadyQueuesL1Bitmap k)
    (ksReadyQueuesL2Bitmap k) (ksCurThread k) (ksIdleThread k) (ksSchedulerAction k) (ksCurDomain k)
    (ksDomainTime k) (ksDomScheduleIdx k) (ksWorkUnitsCompleted k) (intStateIRQTable k) (armKSASIDTable k)
    (current_lookup_fault k) (current_fault k) (current_syscall_error k) (f (current_extra_caps k))
    (k_events k).
Definition upd_k_events (f : list kevent -> list kevent) (k : kstate) : kstate :=
  mkK (k_tcb k) (k_cte k) (k_ep k) (k_ntfn k) (k_word k) (ksReadyQueues k) (ksReadyQueuesL1Bitmap k)
    (ksReadyQueuesL2Bitmap k) (ksCurThread k) (ksIdleThread k) (ksSchedulerAction k) (ksCurDomain k)
    (ksDomainTime k) (ksDomScheduleIdx k) (ksWorkUnitsCompleted k) (intStateIRQTable k) (armKSASIDTable k)
    (current_lookup_fault k) (current_fault k) (current_syscall_error k) (current_extra_caps k) (f
    (k_events k)).

(** ** Access to objects *)

(** [tcb->...] for a [tcb_t *tcb]. *)
Definition tcb_get (t : Z) : M kstate tcb_t :=
  fun k => if t =? 0 then inr NullDeref
           else match k_tcb k !! t with Some x => inl (x, k) | None => inr OutOfBounds end.
Definition tcb_upd (t : Z) (f : tcb_t -> tcb_t) : M kstate unit :=
  let* x := tcb_get t in modify (upd_k_tcb (insert t (f x))).

Definition cte_get (p : Z) : M kstate cte_t :=
  fun k => if p =? 0 then inr NullDeref
           else match k_cte k !! p with Some x => inl (x, k) | None => inr OutOfBounds end.
Definition cte_upd (p : Z) (f : cte_t -> cte_t) : M kstate unit :=
  let* x := cte_get p in modify (upd_k_cte (insert p (f x))).

Definition ep_get (p : Z) : M kstate endpoint_t :=
  fun k => if p =? 0 then inr NullDeref
           else match k_ep k !! p with Some x => inl (x, k) | None => inr OutOfBounds end.
Definition ep_set (p : Z) (x : endpoint_t) : M kstate unit :=
  do* ep_get p in modify (upd_k_ep (insert p x)).

Definition ntfn_get (p : Z) : M kstate notification_t :=
  fun k => if p =? 0 then inr NullDeref
           else match k_ntfn k !! p with Some x => inl (x, k) | None => inr OutOfBounds end.
Definition ntfn_set (p : Z) (x : notification_t) : M kstate unit :=
  do* ntfn_get p in modify (upd_k_ntfn (insert p x)).

Definition event (e : kevent) : M kstate unit := modify (upd_k_events (fun l => l ++ [e])).
