(* ===== verification/KSched.v ===== *)
(** * The seL4 scheduler

    Ready queues with their two-level bitmap (kernel/src/object/tcb.c,
    kernel/include/kernel/thread.h) and the scheduler of
    kernel/src/kernel/thread.c, for one core and without virtual machines. *)

From S2P Require Import Prelude KCaps KState.

(** The configuration the build generates: the number of domains, the time
    slice and the domain schedule (domain, length). *)
Class KConfig : Type := mkKConfig {
  CONFIG_NUM_DOMAINS : Z;
  CONFIG_TIME_SLICE : Z;
  ksDomSchedule : list (Z * Z);
  physBase : Z;
  armKSGlobalUserPGD : Z }.

(** kernel/src/config/default_domain.c and the defaults of config.cmake. *)
Definition default_config : KConfig := mkKConfig 1 5 [(0, 1)] 0x1000000 0xffffff8000200000.

Definition CONFIG_NUM_PRIORITIES : Z := 256.
Definition L2_BITMAP_SIZE : Z := (CONFIG_NUM_PRIORITIES + wordBits - 1) / wordBits.
Definition SchedulerAction_ResumeCurrentThread : Z := 0.
Definition SchedulerAction_ChooseNewThread : Z := 1.

(** Registers of the user context (kernel/include/machine/registerset.h). *)
Definition badgeRegister : Z := 0.
Definition msgInfoRegister : Z := 1.
Definition NEXT_PC_REG : Z := 32.
Definition FaultInstruction : Z := 34.
Definition getRegister (t reg : Z) : M kstate Z :=
  let* x := tcb_get t in ret (default 0 (tcbRegs x !! reg)).
Definition setRegister (t reg w : Z) : M kstate unit := tcb_upd t (upd_tcbRegs (insert reg w)).

Section Sched.
Context `{C : KConfig}.

Definition NUM_READY_QUEUES : Z := CONFIG_NUM_DOMAINS * CONFIG_NUM_PRIORITIES.

(** ** Arrays *)
Definition rq_get (idx : Z) : M kstate tcb_queue_t :=
  if (0 <=? idx) && (idx <? NUM_READY_QUEUES)
  then gets (fun k => default (mkQ 0 0) (ksReadyQueues k !! idx)) else fail OutOfBounds.
Definition rq_set (idx : Z) (q : tcb_queue_t) : M kstate unit :=
  do* rq_get idx in modify (upd_ksReadyQueues (insert idx q)).
Definition l1_get (dom : Z) : M kstate Z :=
  if (0 <=? dom) && (dom <? CONFIG_NUM_DOMAINS)
  then gets (fun k => default 0 (ksReadyQueuesL1Bitmap k !! dom)) else fail OutOfBounds.
Definition l1_set (dom w : Z) : M kstate unit :=
  do* l1_get dom in modify (upd_ksReadyQueuesL1Bitmap (insert dom w)).
Definition l2_get (dom i : Z) : M kstate Z :=
  if (0 <=? dom) && (dom <? CONFIG_NUM_DOMAINS) && (0 <=? i) && (i <? L2_BITMAP_SIZE)
  then gets (fun k => default 0 (ksReadyQueuesL2Bitmap k !! (dom, i))) else fail OutOfBounds.
Definition l2_set (dom i w : Z) : M kstate unit :=
  do* l2_get dom i in modify (upd_ksReadyQueuesL2Bitmap (insert (dom, i) w)).

(** ** Indices *)
Definition ready_queues_index (dom prio : Z) : M kstate Z :=
  if CONFIG_NUM_DOMAINS >? 1 then ret (w64 (dom * CONFIG_NUM_PRIORITIES + prio))
  else do* assert_ (dom =? 0) in ret prio.
Definition prio_to_l1index (prio : Z) : Z := Z.shiftr prio wordRadix.
Definition l1index_to_prio (l1index : Z) : Z := w64 (Z.shiftl l1index wordRadix).
Definition invert_l1index (l1index : Z) : M kstate Z :=
  let inverted := w64 (L2_BITMAP_SIZE - 1 - l1index) in
  do* assert_ (inverted <? L2_BITMAP_SIZE) in ret inverted.

(** ** Bitmaps *)
Definition addToBitmap (dom prio : Z) : M kstate unit :=
  let l1index := prio_to_l1index prio in
  let* l1index_inverted := invert_l1index l1index in
  let* w1 := l1_get dom in
  do* l1_set dom (Z.lor w1 (BIT l1index)) in
  let* w2 := l2_get dom l1index_inverted in
  l2_set dom l1index_inverted (Z.lor w2 (BIT (Z.land prio (MASK wordRadix)))).

Definition removeFromBitmap (dom prio : Z) : M kstate unit :=
  let l1index := prio_to_l1index prio in
  let* l1index_inverted := invert_l1index l1index in
  let* w2 := l2_get dom l1index_inverted in
  do* l2_set dom l1index_inverted (Z.land w2 (lnot64 (BIT (Z.land prio (MASK wordRadix))))) in
  let* w2' := l2_get dom l1index_inverted in
  if w2' =? 0 then
    let* w1 := l1_get dom in l1_set dom (Z.land w1 (lnot64 (BIT l1index)))
  else ret tt.

Definition getHighestPrio (dom : Z) : M kstate Z :=
  let* w1 := l1_get dom in
  do* assert_ (negb (w1 =? 0)) in
  let l1index := wordBits - 1 - CLZL w1 in
  let* l1index_inverted := invert_l1index l1index in
  let* w2 := l2_get dom l1index_inverted in
  do* assert_ (negb (w2 =? 0)) in
  let l2index := wordBits - 1 - CLZL w2 in
  ret (Z.lor (l1index_to_prio l1index) l2index).

Definition isHighestPrio (dom prio : Z) : M kstate bool :=
  let* w1 := l1_get dom in
  if w1 =? 0 then ret true else let* p := getHighestPrio dom in ret (prio >=? p).

(** ** Ready queues *)
Definition tcbSchedEnqueue (tcb : Z) : M kstate unit :=
  let* t := tcb_get tcb in
  if negb (tcbQueued t) then
    let dom := tcbDomain t in
    let prio := tcbPriority t in
    let* idx := ready_queues_index dom prio in
    let* queue := rq_get idx in
    let* queue :=
      (if q_end queue =? 0 then do* addToBitmap dom prio in ret (mkQ (q_head queue) tcb)
       else do* tcb_upd (q_head queue) (upd_tcbSchedPrev (fun _ => tcb)) in ret queue) in
    do* tcb_upd tcb (upd_tcbSchedPrev (fun _ => 0)) in
    do* tcb_upd tcb (upd_tcbSchedNext (fun _ => q_head queue)) in
    do* rq_set idx (mkQ tcb (q_end queue)) in
    tcb_upd tcb (upd_tcbQueued (fun _ => true))
  else ret tt.

Definition tcbSchedAppend (tcb : Z) : M kstate unit :=
  let* t := tcb_get tcb in
  if negb (tcbQueued t) then
    let dom := tcbDomain t in
    let prio := tcbPriority t in
    let* idx := ready_queues_index dom prio in
    let* queue := rq_get idx in
    let* queue :=
      (if q_head queue =? 0 then do* addToBitmap dom prio in ret (mkQ tcb (q_end queue))
       else do* tcb_upd (q_end queue) (upd_tcbSchedNext (fun _ => tcb)) in ret queue) in
    do* tcb_upd tcb (upd_tcbSchedPrev (fun _ => q_end queue)) in
    do* tcb_upd tcb (upd_tcbSchedNext (fun _ => 0)) in
    do* rq_set idx (mkQ (q_head queue) tcb) in
    tcb_upd tcb (upd_tcbQueued (fun _ => true))
  else ret tt.

Definition tcbSchedDequeue (tcb : Z) : M kstate unit :=
  let* t := tcb_get tcb in
  if tcbQueued t then
    let dom := tcbDomain t in
    let prio := tcbPriority t in
    let* idx := ready_queues_index dom prio in
    let* queue := rq_get idx in
    let* queue :=
      (if negb (tcbSchedPrev t =? 0)
       then do* tcb_upd (tcbSchedPrev t) (upd_tcbSchedNext (fun _ => tcbSchedNext t)) in ret queue
       else do* (if tcbSchedNext t =? 0 then removeFromBitmap dom prio else ret tt) in
            ret (mkQ (tcbSchedNext t) (q_end queue))) in
    let* t := tcb_get tcb in
    let* queue :=
      (if negb (tcbSchedNext t =? 0)
       then do* tcb_upd (tcbSchedNext t) (upd_tcbSchedPrev (fun _ => tcbSchedPrev t)) in ret queue
       else ret (mkQ (q_head queue) (tcbSchedPrev t))) in
    do* rq_set idx queue in
    tcb_upd tcb (upd_tcbQueued (fun _ => false))
  else ret tt.

(** ** Thread states *)
Definition isRunnable_st (s : _thread_state_t) : bool :=
  match s with ThreadState_Running | ThreadState_Restart => true | _ => false end.
Definition isRunnable (thread : Z) : M kstate bool := let* t := tcb_get thread in ret (isRunnable_st (tsType t)).

Definition isBlocked_st (s : _thread_state_t) : bool :=
  match s with
  | ThreadState_Inactive | ThreadState_BlockedOnReceive | ThreadState_BlockedOnSend
  | ThreadState_BlockedOnNotification | ThreadState_BlockedOnReply => true
  | _ => false
  end.
Definition isBlocked (thread : Z) : M kstate bool := let* t := tcb_get thread in ret (isBlocked_st (tsType t)).

Definition set_action (a : Z) : M kstate unit := modify (upd_ksSchedulerAction (fun _ => a)).

Definition rescheduleRequired : M kstate unit :=
  let* action := gets ksSchedulerAction in
  do* (if negb (action =? SchedulerAction_ResumeCurrentThread) && negb (action =? SchedulerAction_ChooseNewThread)
       then tcbSchedEnqueue action else ret tt) in
  set_action SchedulerAction_ChooseNewThread.

Definition scheduleTCB (tptr : Z) : M kstate unit :=
  let* cur := gets ksCurThread in
  let* action := gets ksSchedulerAction in
  if (tptr =? cur) && (action =? SchedulerAction_ResumeCurrentThread) then
    let* r := isRunnable tptr in if negb r then rescheduleRequired else ret tt
  else ret tt.

Definition setThreadState (tptr : Z) (ts : _thread_state_t) : M kstate unit :=
  do* tcb_upd tptr (upd_tsType (fun _ => ts)) in scheduleTCB tptr.

Definition possibleSwitchTo (target : Z) : M kstate unit :=
  let* dom := gets ksCurDomain in
  let* t := tcb_get target in
  if negb (dom =? tcbDomain t) then tcbSchedEnqueue target
  else
    let* action := gets ksSchedulerAction in
    if negb (action =? SchedulerAction_ResumeCurrentThread)
    then do* rescheduleRequired in tcbSchedEnqueue target
    else set_action target.

(** ** Choosing a thread *)
Definition switchToThread (thread : Z) : M kstate unit :=
  do* event (Arch_switchToThread thread) in
  do* tcbSchedDequeue thread in
  modify (upd_ksCurThread (fun _ => thread)).

Definition switchToIdleThread : M kstate unit :=
  do* event Arch_switchToIdleThread in
  modify (fun k => upd_ksCurThread (fun _ => ksIdleThread k) k).

Definition chooseThread : M kstate unit :=
  let* dom := (if CONFIG_NUM_DOMAINS >? 1 then gets ksCurDomain else ret 0) in
  let* w1 := l1_get dom in
  if negb (w1 =? 0) then
    let* prio := getHighestPrio dom in
    let* idx := ready_queues_index dom prio in
    let* queue := rq_get idx in
    let thread := q_head queue in
    do* assert_ (negb (thread =? 0)) in
    let* r := isRunnable thread in
    do* assert_ r in
    switchToThread thread
  else switchToIdleThread.

Definition nextDomain : M kstate unit :=
  do* modify (upd_ksDomScheduleIdx (fun i => w64 (i + 1))) in
  let* i := gets ksDomScheduleIdx in
  do* (if i >=? Z.of_nat (length ksDomSchedule) then modify (upd_ksDomScheduleIdx (fun _ => 0)) else ret tt) in
  do* modify (upd_ksWorkUnitsCompleted (fun _ => 0)) in
  let* i := gets ksDomScheduleIdx in
  let* '(domain, len) := of_option OutOfBounds (ksDomSchedule !! Z.to_nat i) in
  do* modify (upd_ksCurDomain (fun _ => domain)) in
  modify (upd_ksDomainTime (fun _ => len)).

Definition scheduleChooseNewThread : M kstate unit :=
  let* time := gets ksDomainTime in
  do* (if time =? 0 then nextDomain else ret tt) in
  chooseThread.

(** The switch of [schedule] to a candidate other code has left in
    [ksSchedulerAction]. *)
Definition schedule_candidate (candidate : Z) (was_runnable : bool) : M kstate unit :=
  let* c := tcb_get candidate in
  let* cur := gets ksCurThread in
  let* idle := gets ksIdleThread in
  let* fastfail :=
    (if cur =? idle then ret true
     else let* t := tcb_get cur in ret (tcbPriority c <? tcbPriority t)) in
  let* dom := gets ksCurDomain in
  let* highest := (if fastfail then isHighestPrio dom (tcbPriority c) else ret true) in
  if fastfail && negb highest then
    do* tcbSchedEnqueue candidate in
    do* set_action SchedulerAction_ChooseNewThread in
    scheduleChooseNewThread
  else
    let* same := (if was_runnable then let* t := tcb_get cur in ret (tcbPriority c =? tcbPriority t)
                  else ret false) in
    if same then
      do* tcbSchedAppend candidate in
      do* set_action SchedulerAction_ChooseNewThread in
      scheduleChooseNewThread
    else
      do* assert_ (negb (candidate =? cur)) in
      switchToThread candidate.

Definition schedule : M kstate unit :=
  let* action := gets ksSchedulerAction in
  do* (if negb (action =? SchedulerAction_ResumeCurrentThread) then
         let* cur := gets ksCurThread in
         let* was_runnable := isRunnable cur in
         do* (if was_runnable then tcbSchedEnqueue cur else ret tt) in
         let* action := gets ksSchedulerAction in
         if action =? SchedulerAction_ChooseNewThread then scheduleChooseNewThread
         else schedule_candidate action was_runnable
       else ret tt) in
  set_action SchedulerAction_ResumeCurrentThread.

(** ** Changing a thread's parameters, and time *)
Definition setDomain (tptr dom : Z) : M kstate unit :=
  do* tcbSchedDequeue tptr in
  do* tcb_upd tptr (upd_tcbDomain (fun _ => dom)) in
  let* r := isRunnable tptr in
  do* (if r then tcbSchedEnqueue tptr else ret tt) in
  let* cur := gets ksCurThread in
  if tptr =? cur then rescheduleRequired else ret tt.

Definition setMCPriority (tptr mcp : Z) : M kstate unit := tcb_upd tptr (upd_tcbMCP (fun _ => mcp)).

Definition setPriority (tptr prio : Z) : M kstate unit :=
  do* tcbSchedDequeue tptr in
  do* tcb_upd tptr (upd_tcbPriority (fun _ => prio)) in
  let* r := isRunnable tptr in
  if r then do* tcbSchedEnqueue tptr in rescheduleRequired else ret tt.

Definition timerTick : M kstate unit :=
  let* cur := gets ksCurThread in
  let* t := tcb_get cur in
  do* (if bool_decide (tsType t = ThreadState_Running) then
         if tcbTimeSlice t >? 1 then tcb_upd cur (upd_tcbTimeSlice (fun n => n - 1))
         else do* tcb_upd cur (upd_tcbTimeSlice (fun _ => CONFIG_TIME_SLICE)) in
              do* tcbSchedAppend cur in
              rescheduleRequired
       else ret tt) in
  if CONFIG_NUM_DOMAINS >? 1 then
    do* modify (upd_ksDomainTime (fun n => w64 (n - 1))) in
    let* time := gets ksDomainTime in
    if time =? 0 then rescheduleRequired else ret tt
  else ret tt.

Definition getRestartPC (thread : Z) : M kstate Z := getRegister thread FaultInstruction.
Definition setNextPC (thread v : Z) : M kstate unit := setRegister thread NEXT_PC_REG v.

Definition activateThread : M kstate unit :=
  let* cur := gets ksCurThread in
  let* t := tcb_get cur in
  match tsType t with
  | ThreadState_Running => ret tt
  | ThreadState_Restart =>
      let* pc := getRestartPC cur in
      do* setNextPC cur pc in
      setThreadState cur ThreadState_Running
  | ThreadState_IdleThreadState => ret tt
  | _ => fail Fatal
  end.

End Sched.
