(* ===== verification/KSchedInv.v ===== *)
(** * Invariants of the scheduler

    The two-level bitmap, the ready queues as lists, and what every operation on
    them does to those lists. *)

From S2P Require Import Prelude Dll KCaps KState KSched.

(** ** The two-level bitmap of one domain

    [E p] tells which priorities have a ready thread.  Word [3 - i] of the second
    level holds priorities [64 * i] to [64 * i + 63]; bit [i] of the first level
    says that word is not 0. *)
Record bm_ok (w1 : Z) (w2 : Z -> Z) (E : Z -> bool) : Prop := {
  bm_l1 : forall i, 0 <= i -> Z.testbit w1 i = bool_decide (i < 4) && negb (w2 (3 - i) =? 0);
  bm_w1 : is_word w1;
  bm_w2 : forall i, 0 <= i < 4 -> is_word (w2 (3 - i));
  bm_l2 : forall p, 0 <= p < 256 -> Z.testbit (w2 (3 - p / 64)) (p mod 64) = E p }.

Lemma bit_nonzero w i : Z.testbit w i = true -> (w =? 0) = false.
Proof. intros Hb. apply Z.eqb_neq. intros ->. by rewrite Z.testbit_0_l in Hb. Qed.

Lemma bm_add w1 w2 E p : bm_ok w1 w2 E -> 0 <= p < 256 ->
  bm_ok (Z.lor w1 (BIT (p / 64)))
    (put w2 (3 - p / 64) (Z.lor (w2 (3 - p / 64)) (BIT (p mod 64)))) (put E p true).
Proof.
  intros [H1 Hw1 Hw2 H2] Hp. assert (0 <= p / 64 < 4) by lia. assert (0 <= p mod 64 < 64) by lia. split.
  - intros i Hi. rewrite Z.lor_spec, BIT_testbit, H1 by lia. destruct (decide (i = p / 64)) as [->|].
    + rewrite (bool_decide_true (p / 64 = p / 64)), orb_true_r, put_eq, bool_decide_true by lia. rewrite (bit_nonzero _ (p mod 64)); [done |].
      rewrite Z.lor_spec, BIT_testbit, bool_decide_true by lia. by rewrite orb_true_r.
    + rewrite (bool_decide_false (i = p / 64)), orb_false_r, put_ne by lia. done.
  - apply is_word_lor; [done |]. apply BIT_word. lia.
  - intros i Hi. destruct (decide (i = p / 64)) as [->|]; [|rewrite put_ne by lia; by apply Hw2].
    rewrite put_eq. apply is_word_lor; [by apply Hw2 |]. by apply BIT_word.
  - intros q Hq. destruct (decide (q / 64 = p / 64)) as [Eq|].
    + rewrite Eq, put_eq, Z.lor_spec, BIT_testbit by lia. rewrite <- Eq, H2 by done.
      case_bool_decide as Em.
      * assert (q = p) as -> by lia. by rewrite put_eq, orb_true_r.
      * rewrite put_ne by congruence. by rewrite orb_false_r.
    + rewrite !put_ne by (lia || congruence). by apply H2.
Qed.

Lemma clear_bit_testbit w b i : 0 <= b < 64 -> is_word w ->
  0 <= i -> Z.testbit (Z.land w (lnot64 (BIT b))) i = Z.testbit w i && negb (bool_decide (i = b)).
Proof.
  intros Hb Hw Hi. rewrite Z.land_spec, lnot64_testbit, BIT_testbit by lia.
  destruct (decide (i < 64)); [by rewrite (bool_decide_true (0 <= i < 64)) by lia |].
  by rewrite is_word_testbit by (done || lia).
Qed.

Lemma bm_remove w1 w2 E p : bm_ok w1 w2 E -> 0 <= p < 256 ->
  let w := Z.land (w2 (3 - p / 64)) (lnot64 (BIT (p mod 64))) in
  bm_ok (if w =? 0 then Z.land w1 (lnot64 (BIT (p / 64))) else w1)
    (put w2 (3 - p / 64) w) (put E p false).
Proof.
  intros [H1 Hw1 Hw2 H2] Hp w. assert (0 <= p / 64 < 4) by lia. assert (0 <= p mod 64 < 64) by lia.
  assert (is_word (w2 (3 - p / 64))) as Hww by by apply Hw2. split.
  - intros i Hi. destruct (decide (i = p / 64)) as [->|].
    + rewrite put_eq, (bool_decide_true (p / 64 < 4)) by lia. destruct (w =? 0) eqn:E0.
      * rewrite clear_bit_testbit by (done || lia). rewrite bool_decide_true by done. by rewrite andb_false_r.
      * rewrite H1, (bool_decide_true (p / 64 < 4)) by lia. destruct (w2 _ =? 0) eqn:E1; [|done].
        apply Z.eqb_eq in E1. unfold w in E0. by rewrite E1, Z.land_0_l in E0.
    + rewrite put_ne by lia. destruct (w =? 0); [|by apply H1].
      rewrite clear_bit_testbit by (done || lia). rewrite bool_decide_false, andb_true_r by done. by apply H1.
  - destruct (w =? 0); [by apply is_word_land_l | done].
  - intros i Hi. destruct (decide (i = p / 64)) as [->|]; [|rewrite put_ne by lia; by apply Hw2].
    rewrite put_eq. by apply is_word_land_l.
  - intros q Hq. destruct (decide (q / 64 = p / 64)) as [Eq|].
    + rewrite Eq, put_eq. unfold w. rewrite clear_bit_testbit by (done || lia). rewrite <- Eq, H2 by done.
      case_bool_decide as Em.
      * assert (q = p) as -> by lia. by rewrite put_eq, andb_false_r.
      * rewrite put_ne by congruence. by rewrite andb_true_r.
    + rewrite !put_ne by (lia || congruence). by apply H2.
Qed.

Lemma bm_zero w1 w2 E : bm_ok w1 w2 E -> w1 = 0 -> forall p, 0 <= p < 256 -> E p = false.
Proof.
  intros [H1 _ _ H2] -> p Hp. rewrite <- H2 by done. specialize (H1 (p / 64) ltac:(lia)).
  rewrite Z.testbit_0_l, bool_decide_true in H1 by lia. destruct (w2 (3 - p / 64) =? 0) eqn:E0; [|done].
  apply Z.eqb_eq in E0. by rewrite E0, Z.testbit_0_l.
Qed.

(** The highest ready priority from the top bits of both levels. *)
Lemma bm_highest w1 w2 E : bm_ok w1 w2 E -> w1 <> 0 ->
  let i := Z.log2 w1 in let p := i * 64 + Z.log2 (w2 (3 - i)) in
  0 <= i < 4 /\ 0 < w2 (3 - i) < 2 ^ 64 /\ 0 <= p < 256 /\ E p = true /\
  forall q, 0 <= q < 256 -> E q = true -> q <= p.
Proof.
  intros [H1 Hw1 Hw2 H2] H0 i p. assert (0 < w1) by (unfold is_word in Hw1; lia).
  assert (0 <= i) by apply Z.log2_nonneg.
  pose proof (H1 i ltac:(done)) as Hi. rewrite Z.bit_log2 in Hi by done. symmetry in Hi.
  apply andb_true_iff in Hi as [Hi1%bool_decide_eq_true Hi2%negb_true_iff%Z.eqb_neq].
  pose proof (Hw2 i ltac:(lia)) as Hwi. assert (0 < w2 (3 - i) < 2 ^ 64) as Hr by (unfold is_word in Hwi; lia).
  assert (0 <= Z.log2 (w2 (3 - i)) < 64) as Hl.
  { split; [apply Z.log2_nonneg |]. apply Z.log2_lt_pow2; lia. }
  split; [lia |]. split; [done |]. split; [unfold p; lia |]. split.
  - rewrite <- H2 by (unfold p; lia). replace (p / 64) with i by (unfold p; lia).
    replace (p mod 64) with (Z.log2 (w2 (3 - i))) by (unfold p; lia). apply Z.bit_log2; lia.
  - intros q Hq Eq. rewrite <- H2 in Eq by done.
    assert (Z.testbit w1 (q / 64) = true) as Hb.
    { rewrite H1 by lia. rewrite bool_decide_true by lia. by rewrite (bit_nonzero _ _ Eq). }
    assert (q / 64 <= i).
    { destruct (decide (q / 64 <= i)); [done |]. rewrite Z.bits_above_log2 in Hb by lia. done. }
    destruct (decide (q / 64 = i)) as [Ei|]; [|unfold p; lia]. rewrite Ei in Eq.
    assert (q mod 64 <= Z.log2 (w2 (3 - i))); [|unfold p; lia].
    destruct (decide (q mod 64 <= Z.log2 (w2 (3 - i)))); [done |].
    rewrite Z.bits_above_log2 in Eq by lia. done.
Qed.

(** ** Views of the state *)

Definition nxs (k : kstate) (x : Z) : Z := from_option tcbSchedNext 0 (k_tcb k !! x).
Definition pvs (k : kstate) (x : Z) : Z := from_option tcbSchedPrev 0 (k_tcb k !! x).
Definition queued (k : kstate) (x : Z) : bool := from_option tcbQueued false (k_tcb k !! x).
Definition rq (k : kstate) (d p : Z) : tcb_queue_t := default (mkQ 0 0) (ksReadyQueues k !! (d * 256 + p)).
Definition l1 (k : kstate) (d : Z) : Z := default 0 (ksReadyQueuesL1Bitmap k !! d).
Definition l2 (k : kstate) (d i : Z) : Z := default 0 (ksReadyQueuesL2Bitmap k !! (d, i)).

(** A thread without its place in the ready queues, and the state without
    ready queues and bitmaps: what queue operations do not touch. *)
Definition unlinked (t : tcb_t) : tcb_t :=
  upd_tcbQueued (fun _ => false) (upd_tcbSchedNext (fun _ => 0) (upd_tcbSchedPrev (fun _ => 0) t)).
Definition nobits (k : kstate) : kstate :=
  upd_ksReadyQueuesL1Bitmap (fun _ => ∅) (upd_ksReadyQueuesL2Bitmap (fun _ => ∅) k).
Definition noqueues (k : kstate) : kstate :=
  upd_k_tcb (fmap unlinked) (upd_ksReadyQueues (fun _ => ∅) (nobits k)).

(** Which queues have a thread. *)
Definition ready_in (Q : Z -> Z -> list Z) (d p : Z) : bool := negb (bool_decide (Q d p = [])).
Definition put2 {A : Type} (f : Z -> Z -> A) (d p : Z) (v : A) : Z -> Z -> A := put f d (put (f d) p v).

Lemma put2_eq {A} (f : Z -> Z -> A) d p v : put2 f d p v d p = v.
Proof. unfold put2. by rewrite !put_eq. Qed.
Lemma put2_ne {A} (f : Z -> Z -> A) d p v d' p' : (d', p') <> (d, p) -> put2 f d p v d' p' = f d' p'.
Proof.
  intros Hn. unfold put2. destruct (decide (d' = d)) as [->|]; [|by rewrite put_ne].
  rewrite put_eq, put_ne; [done |]. congruence.
Qed.

Lemma noqueues_tcb k k' t x : noqueues k' = noqueues k -> k_tcb k !! t = Some x ->
  exists x', k_tcb k' !! t = Some x' /\ unlinked x' = unlinked x.
Proof.
  intros E Hx. apply (f_equal k_tcb) in E. simpl in E. apply (f_equal (lookup t)) in E.
  rewrite !lookup_fmap, Hx in E. destruct (k_tcb k' !! t) as [x'|]; [|done]. simpl in E. eauto with congruence.
Qed.

Lemma unlinked_fields x x' : unlinked x' = unlinked x ->
  tsType x' = tsType x /\ tcbDomain x' = tcbDomain x /\ tcbPriority x' = tcbPriority x.
Proof. intros E. unfold unlinked, upd_tcbQueued, upd_tcbSchedNext, upd_tcbSchedPrev in E. by injection E. Qed.

Section Inv.
Context `{C : KConfig}.

Definition dom_ok (d : Z) : Prop := 0 <= d < CONFIG_NUM_DOMAINS.
Definition prio_ok (p : Z) : Prop := 0 <= p < 256.

(** What the code relies on in a configuration. *)
Record config_ok : Prop := {
  cf_domains : 1 <= CONFIG_NUM_DOMAINS <= 256;
  cf_slice : 1 <= CONFIG_TIME_SLICE;
  cf_nonempty : 0 < Z.of_nat (length ksDomSchedule) < 2 ^ 64;
  cf_entries : Forall (fun e => dom_ok e.1) ksDomSchedule }.

Definition bitmaps_ok (E : Z -> Z -> bool) (k : kstate) : Prop :=
  forall d, dom_ok d -> bm_ok (l1 k d) (l2 k d) (E d).

(** The ready queues of state [k] are the lists [Q]: [Q d p] is linked up from
    its head to its end, holds exactly the threads of domain [d] and priority
    [p] that are marked as queued, and the bitmaps say which are not empty. *)
Record queues_ok (Q : Z -> Z -> list Z) (k : kstate) : Prop := {
  qo_list : forall d p, dom_ok d -> prio_ok p ->
    dll (nxs k) (pvs k) (q_head (rq k d p)) (q_end (rq k d p)) (Q d p);
  qo_mem : forall d p t, dom_ok d -> prio_ok p -> t ∈ Q d p ->
    exists x, k_tcb k !! t = Some x /\ tcbQueued x = true /\ tcbDomain x = d /\ tcbPriority x = p;
  qo_queued : forall t x, k_tcb k !! t = Some x -> tcbQueued x = true -> t ∈ Q (tcbDomain x) (tcbPriority x);
  qo_bounds : forall t x, k_tcb k !! t = Some x -> 1 < t /\ dom_ok (tcbDomain x) /\ prio_ok (tcbPriority x);
  qo_bits : bitmaps_ok (ready_in Q) k }.

(** ** Steps of the code *)

Lemma wp_tcb_get t k x (P : tcb_t -> kstate -> Prop) F :
  k_tcb k !! t = Some x -> t <> 0 -> P x k -> wp (tcb_get t) P F k.
Proof. intros Hx Ht HP. unfold wp, tcb_get. by rewrite (proj2 (Z.eqb_neq t 0) Ht), Hx. Qed.

Lemma wp_tcb_upd t f k x (P : unit -> kstate -> Prop) F :
  k_tcb k !! t = Some x -> t <> 0 -> P tt (upd_k_tcb (insert t (f x)) k) -> wp (tcb_upd t f) P F k.
Proof. intros Hx Ht HP. unfold tcb_upd. rewrite wp_bind. by apply (wp_tcb_get t k x). Qed.

Lemma wp_index d p k (P : Z -> kstate -> Prop) F : config_ok -> dom_ok d -> prio_ok p ->
  P (d * 256 + p) k -> wp (ready_queues_index d p) P F k.
Proof.
  intros [Hc _ _ _] Hd Hp HP. unfold ready_queues_index, CONFIG_NUM_PRIORITIES, dom_ok, prio_ok, w64 in *.
  destruct (CONFIG_NUM_DOMAINS >? 1) eqn:E; wp_steps.
  - rewrite Z.mod_small; [done | lia].
  - assert (d = 0) as -> by lia. rewrite Z.eqb_refl. wp_steps. by replace p with (0 * 256 + p) by lia.
Qed.

Lemma wp_rq_get d p k (P : tcb_queue_t -> kstate -> Prop) F : dom_ok d -> prio_ok p ->
  P (rq k d p) k -> wp (rq_get (d * 256 + p)) P F k.
Proof.
  intros Hd Hp HP. unfold rq_get, NUM_READY_QUEUES, CONFIG_NUM_PRIORITIES, dom_ok, prio_ok in *.
  assert (0 <= d * 256 + p < CONFIG_NUM_DOMAINS * 256) as Hi by lia.
  rewrite (proj2 (Z.leb_le _ _)), (proj2 (Z.ltb_lt _ _)) by lia. wp_steps. exact HP.
Qed.

Lemma wp_rq_set d p q k (P : unit -> kstate -> Prop) F : dom_ok d -> prio_ok p ->
  P tt (upd_ksReadyQueues (insert (d * 256 + p) q) k) -> wp (rq_set (d * 256 + p) q) P F k.
Proof. intros Hd Hp HP. unfold rq_set. wp_steps. by apply wp_rq_get. Qed.

Lemma wp_l1_get d k (P : Z -> kstate -> Prop) F : dom_ok d -> P (l1 k d) k -> wp (l1_get d) P F k.
Proof.
  intros Hd HP. unfold l1_get, dom_ok in *. rewrite (proj2 (Z.leb_le _ _)), (proj2 (Z.ltb_lt _ _)) by lia.
  wp_steps. exact HP.
Qed.

Lemma wp_l2_get d i k (P : Z -> kstate -> Prop) F : dom_ok d -> 0 <= i < 4 ->
  P (l2 k d i) k -> wp (l2_get d i) P F k.
Proof.
  intros Hd Hi HP. unfold l2_get, dom_ok in *. change L2_BITMAP_SIZE with 4.
  rewrite !(proj2 (Z.leb_le _ _)), !(proj2 (Z.ltb_lt _ _)) by lia. wp_steps. exact HP.
Qed.

Lemma wp_invert i k (P : Z -> kstate -> Prop) F : 0 <= i < 4 -> P (3 - i) k -> wp (invert_l1index i) P F k.
Proof.
  intros Hi HP. unfold invert_l1index. change L2_BITMAP_SIZE with 4. unfold w64.
  rewrite Z.mod_small by lia. wp_steps. rewrite (proj2 (Z.ltb_lt _ _)) by lia. wp_steps.
  by replace (3 - i) with (4 - 1 - i) in HP by lia.
Qed.

Lemma prio_bits p : prio_ok p ->
  prio_to_l1index p = p / 64 /\ Z.land p (MASK wordRadix) = p mod 64 /\ 0 <= p / 64 < 4.
Proof.
  unfold prio_ok, prio_to_l1index. intros Hp. split; [|split; [|lia]].
  - by rewrite Z.shiftr_div_pow2.
  - unfold MASK. by rewrite Z.land_ones.
Qed.

Lemma l1_upd d w k d' : l1 (upd_ksReadyQueuesL1Bitmap (insert d w) k) d' = put (l1 k) d w d'.
Proof.
  unfold l1, put. simpl. case_decide as E; [subst; by rewrite lookup_insert_eq |]. by rewrite lookup_insert_ne.
Qed.

Lemma l2_upd d i w k d' i' : l2 (upd_ksReadyQueuesL2Bitmap (insert (d, i) w) k) d' i' = put2 (l2 k) d i w d' i'.
Proof.
  destruct (decide ((d', i') = (d, i))) as [[= -> ->]|E].
  - rewrite put2_eq. unfold l2. simpl. by rewrite lookup_insert_eq.
  - rewrite put2_ne by done. unfold l2. simpl. by rewrite lookup_insert_ne.
Qed.

Lemma bm_ok_ext w1 w1' w2 w2' E E' : bm_ok w1 w2 E -> w1' = w1 -> (forall i, w2' i = w2 i) ->
  (forall p, E' p = E p) -> bm_ok w1' w2' E'.
Proof.
  intros [H1 H2 H3 H4] -> Ei Ep. split; [| done | |].
  - intros i Hi. rewrite Ei. by apply H1.
  - intros i Hi. rewrite Ei. by apply H3.
  - intros p Hp. rewrite Ei, Ep. by apply H4.
Qed.

Lemma bitmaps_put E d p b w1 w2 k k' : bitmaps_ok E k -> bm_ok w1 w2 (put (E d) p b) ->
  (forall d', l1 k' d' = put (l1 k) d w1 d') -> (forall d' i, l2 k' d' i = put (l2 k) d w2 d' i) ->
  bitmaps_ok (put2 E d p b) k'.
Proof.
  intros HB Hn H1 H2 d' Hd'. destruct (decide (d' = d)) as [->|].
  - apply (bm_ok_ext w1 _ w2 _ (put (E d) p b)); [done | | |].
    + by rewrite H1, put_eq.
    + intros i. by rewrite H2, put_eq.
    + intros q. unfold put2. by rewrite put_eq.
  - apply (bm_ok_ext (l1 k d') _ (l2 k d') _ (E d')); [by apply HB | | |].
    + by rewrite H1, put_ne.
    + intros i. by rewrite H2, put_ne.
    + intros q. unfold put2. by rewrite put_ne.
Qed.

Lemma addToBitmap_ok E d p k : bitmaps_ok E k -> dom_ok d -> prio_ok p ->
  wp (addToBitmap d p) (fun _ k' => bitmaps_ok (put2 E d p true) k' /\ nobits k' = nobits k) (fun _ => False) k.
Proof.
  intros HB Hd Hp. destruct (prio_bits p Hp) as (E1 & E2 & Hi). unfold addToBitmap. rewrite E1, E2.
  wp_steps. apply wp_invert; [done |]. wp_steps. apply wp_l1_get; [done |]. unfold l1_set, l2_set. wp_steps.
  apply wp_l1_get; [done |]. wp_steps. apply wp_l2_get; [done | lia |]. wp_steps.
  apply wp_l2_get; [done | lia |]. wp_steps. split; [|done].
  eapply bitmaps_put; [done | exact (bm_add _ _ _ p (HB d Hd) Hp) | |].
  - intros d'. by rewrite <- l1_upd.
  - intros d' i. by rewrite l2_upd.
Qed.

Lemma removeFromBitmap_ok E d p k : bitmaps_ok E k -> dom_ok d -> prio_ok p ->
  wp (removeFromBitmap d p) (fun _ k' => bitmaps_ok (put2 E d p false) k' /\ nobits k' = nobits k) (fun _ => False) k.
Proof.
  intros HB Hd Hp. destruct (prio_bits p Hp) as (E1 & E2 & Hi). unfold removeFromBitmap. rewrite E1, E2.
  pose proof (bm_remove _ _ _ p (HB d Hd) Hp) as Hrm. cbv zeta in Hrm.
  wp_steps. apply wp_invert; [done |]. wp_steps. apply wp_l2_get; [done | lia |]. unfold l1_set, l2_set. wp_steps.
  apply wp_l2_get; [done | lia |]. wp_steps. apply wp_l2_get; [done | lia |].
  set (w := Z.land (l2 k d _) _) in *. rewrite l2_upd, put2_eq.
  destruct (w =? 0) eqn:E0; wp_steps.
  - apply wp_l1_get; [done |]. wp_steps. apply wp_l1_get; [done |]. wp_steps. split; [|done].
    eapply bitmaps_put; [done | exact Hrm | |].
    + intros d'. by rewrite l1_upd.
    + intros d' i. exact (l2_upd d _ w k d' i).
  - split; [|done]. eapply bitmaps_put; [done | exact Hrm | |].
    + intros d'. unfold put. by case_decide; subst.
    + intros d' i. by rewrite l2_upd.
Qed.

(** ** What queue operations leave alone *)

Lemma pres_tcb_get {X} (f : kstate -> X) t : preserves f (tcb_get t).
Proof.
  intros k x k'. unfold tcb_get. destruct (t =? 0); [done |]. by destruct (k_tcb k !! t); intros [= <- <-].
Qed.

Lemma pres_tcb_link t f : (forall x, unlinked (f x) = unlinked x) -> preserves noqueues (tcb_upd t f).
Proof.
  intros Hf k a k'. unfold tcb_upd, bind, tcb_get. destruct (t =? 0); [done |].
  destruct (k_tcb k !! t) as [x|] eqn:E; [|done]. intros [= <- <-].
  unfold noqueues, upd_k_tcb. simpl. rewrite fmap_insert, Hf, insert_id; [done |]. by rewrite lookup_fmap, E.
Qed.

Lemma pres_rq_get {X} (f : kstate -> X) i : preserves f (rq_get i).
Proof. unfold rq_get. pres. Qed.
Lemma pres_l1_get {X} (f : kstate -> X) i : preserves f (l1_get i).
Proof. unfold l1_get. pres. Qed.
Lemma pres_l2_get {X} (f : kstate -> X) d i : preserves f (l2_get d i).
Proof. unfold l2_get. pres. Qed.
Lemma pres_index {X} (f : kstate -> X) d p : preserves f (ready_queues_index d p).
Proof. unfold ready_queues_index. pres. Qed.
Lemma pres_invert {X} (f : kstate -> X) i : preserves f (invert_l1index i).
Proof. unfold invert_l1index. pres. Qed.
#[local] Hint Resolve pres_tcb_get pres_rq_get pres_l1_get pres_l2_get pres_index pres_invert : pres.

Lemma pres_rq_set i q : preserves noqueues (rq_set i q).
Proof. unfold rq_set. pres. Qed.
Lemma pres_addToBitmap d p : preserves noqueues (addToBitmap d p).
Proof. unfold addToBitmap, l1_set, l2_set. pres. Qed.
Lemma pres_removeFromBitmap d p : preserves noqueues (removeFromBitmap d p).
Proof. unfold removeFromBitmap, l1_set, l2_set. pres. Qed.
#[local] Hint Resolve pres_rq_set pres_addToBitmap pres_removeFromBitmap : pres.
#[local] Hint Extern 2 (preserves noqueues (tcb_upd _ _)) => apply pres_tcb_link; intros []; reflexivity : pres.

Lemma enqueue_noqueues t : preserves noqueues (tcbSchedEnqueue t).
Proof. unfold tcbSchedEnqueue. pres. Qed.
Lemma append_noqueues t : preserves noqueues (tcbSchedAppend t).
Proof. unfold tcbSchedAppend. pres. Qed.
Lemma dequeue_noqueues t : preserves noqueues (tcbSchedDequeue t).
Proof. unfold tcbSchedDequeue. pres. Qed.

(** ** Changing one queue *)

Lemma queues_disjoint Q k d p d' p' t : queues_ok Q k -> dom_ok d -> prio_ok p -> dom_ok d' -> prio_ok p' ->
  t ∈ Q d p -> t ∈ Q d' p' -> (d', p') = (d, p).
Proof.
  intros HQ ? ? ? ? H1 H2. destruct (qo_mem _ _ HQ d p t) as (x & Hx & _ & <- & <-); [done.. |].
  destruct (qo_mem _ _ HQ d' p' t) as (x' & Hx' & _ & <- & <-); [done.. |]. by simplify_eq.
Qed.

(** One queue replaced by [xs'], which differs from it in the thread [t] only. *)
Lemma queues_ok_change Q k k' d p t x b xs' :
  queues_ok Q k -> k_tcb k !! t = Some x -> tcbDomain x = d -> tcbPriority x = p ->
  noqueues k' = noqueues k -> bitmaps_ok (put2 (ready_in Q) d p (negb (bool_decide (xs' = [])))) k' ->
  dll (nxs k') (pvs k') (q_head (rq k' d p)) (q_end (rq k' d p)) xs' ->
  (forall d' p', dom_ok d' -> prio_ok p' -> (d', p') <> (d, p) -> rq k' d' p' = rq k d' p') ->
  (forall y, y <> t -> y ∉ Q d p -> nxs k' y = nxs k y /\ pvs k' y = pvs k y) ->
  (forall y, queued k' y = if decide (y = t) then b else queued k y) ->
  (forall y, y ∈ xs' <-> if decide (y = t) then b = true else y ∈ Q d p) ->
  queues_ok (put2 Q d p xs') k'.
Proof.
  intros HQ Hx Ed Ep Hs HB HL Hrq Hlk Hqd Hmem.
  destruct (qo_bounds _ _ HQ _ _ Hx) as (_ & Hd & Hp). rewrite Ed in Hd. rewrite Ep in Hp.
  assert (forall y z, k_tcb k' !! y = Some z -> exists z', k_tcb k !! y = Some z' /\ unlinked z = unlinked z') as Hback.
  { intros y z Hz. destruct (noqueues_tcb k' k y z) as (z' & ? & ?); [by rewrite Hs | done |]. eauto. }
  split.
  - intros d' p' Hd' Hp'. destruct (decide ((d', p') = (d, p))) as [[= -> ->]|Hne]; [by rewrite put2_eq |].
    rewrite put2_ne, Hrq by done. eapply dll_ext; [|by apply (qo_list _ _ HQ)]. intros y Hy.
    assert (y ∉ Q d p) as Hny by (intros Hy'; by destruct Hne; eapply queues_disjoint).
    apply Hlk; [|done]. intros ->. destruct (qo_mem _ _ HQ d' p' t) as (? & ? & _ & ? & ?); [done.. |]. congruence.
  - intros d' p' y Hd' Hp' Hy.
    assert (queued k' y = true /\ exists z, k_tcb k !! y = Some z /\ tcbDomain z = d' /\ tcbPriority z = p')
      as (Hq & z & Hz & <- & <-).
    { rewrite Hqd. destruct (decide ((d', p') = (d, p))) as [[= -> ->]|Hne].
      - rewrite put2_eq, Hmem in Hy. case_decide as E; [subst y; naive_solver |].
        destruct (qo_mem _ _ HQ d p y) as (z & Hz & ? & ? & ?); [done.. |].
        split; [unfold queued; by rewrite Hz |]. eauto.
      - rewrite put2_ne in Hy by done. destruct (qo_mem _ _ HQ d' p' y) as (z & Hz & ? & ? & ?); [done.. |].
        rewrite decide_False by (intros ->; congruence). split; [unfold queued; by rewrite Hz |]. eauto. }
    destruct (noqueues_tcb k k' y z Hs Hz) as (z' & Hz' & (_ & Ed' & Ep')%unlinked_fields).
    exists z'. unfold queued in Hq. rewrite Hz' in Hq. done.
  - intros y z Hz Hq. destruct (Hback y z Hz) as (z' & Hz' & (_ & -> & ->)%unlinked_fields).
    assert (queued k' y = true) as Hq' by (unfold queued; by rewrite Hz). rewrite Hqd in Hq'.
    destruct (decide ((tcbDomain z', tcbPriority z') = (d, p))) as [[= E1 E2]|Hne].
    + rewrite E1, E2, put2_eq, Hmem. case_decide; [done |]. rewrite <- E1, <- E2.
      apply (qo_queued _ _ HQ); [done |]. unfold queued in Hq'. by rewrite Hz' in Hq'.
    + rewrite put2_ne by done. rewrite decide_False in Hq' by (intros ->; congruence).
      apply (qo_queued _ _ HQ); [done |]. unfold queued in Hq'. by rewrite Hz' in Hq'.
  - intros y z Hz. destruct (Hback y z Hz) as (z' & Hz' & (_ & -> & ->)%unlinked_fields).
    by apply (qo_bounds _ _ HQ y z').
  - intros d' Hd'. eapply bm_ok_ext; [by apply HB | done | done |]. intros q. unfold ready_in.
    destruct (decide ((d', q) = (d, p))) as [[= -> ->]|]; [by rewrite !put2_eq | by rewrite !put2_ne].
Qed.

(** ** Links after an update *)

Lemma nxs_upd k t z y : nxs (upd_k_tcb (insert t z) k) y = put (nxs k) t (tcbSchedNext z) y.
Proof. unfold nxs, put. simpl. case_decide; [subst; by rewrite lookup_insert_eq | by rewrite lookup_insert_ne]. Qed.
Lemma pvs_upd k t z y : pvs (upd_k_tcb (insert t z) k) y = put (pvs k) t (tcbSchedPrev z) y.
Proof. unfold pvs, put. simpl. case_decide; [subst; by rewrite lookup_insert_eq | by rewrite lookup_insert_ne]. Qed.
Lemma queued_upd k t z y : queued (upd_k_tcb (insert t z) k) y = put (queued k) t (tcbQueued z) y.
Proof. unfold queued, put. simpl. case_decide; [subst; by rewrite lookup_insert_eq | by rewrite lookup_insert_ne]. Qed.
Lemma rq_upd k d p q d' p' : dom_ok d -> prio_ok p -> dom_ok d' -> prio_ok p' ->
  rq (upd_ksReadyQueues (insert (d * 256 + p) q) k) d' p' = if decide ((d', p') = (d, p)) then q else rq k d' p'.
Proof.
  unfold dom_ok, prio_ok. intros. unfold rq. simpl. case_decide as E.
  - injection E as -> ->. by rewrite lookup_insert_eq.
  - rewrite lookup_insert_ne; [done |]. intros ?. apply E. f_equal; lia.
Qed.

(** Links and marks of [k'] are those of [k], but for the given functions. *)
Definition linked (k' : kstate) (nx pv : Z -> Z) (qd : Z -> bool) : Prop :=
  forall y, nxs k' y = nx y /\ pvs k' y = pv y /\ queued k' y = qd y.

Lemma linked_upd k k' nx pv qd t z : linked k nx pv qd -> k_tcb k' = <[t:=z]> (k_tcb k) ->
  linked k' (put nx t (tcbSchedNext z)) (put pv t (tcbSchedPrev z)) (put qd t (tcbQueued z)).
Proof.
  intros HL E y. change (nxs k' y) with (from_option tcbSchedNext 0 (k_tcb k' !! y)).
  change (pvs k' y) with (from_option tcbSchedPrev 0 (k_tcb k' !! y)).
  change (queued k' y) with (from_option tcbQueued false (k_tcb k' !! y)). rewrite E.
  destruct (HL y) as (H1 & H2 & H3). unfold put. case_decide; [subst; by rewrite lookup_insert_eq |].
  by rewrite lookup_insert_ne.
Qed.

Lemma nobits_parts k k' : nobits k' = nobits k ->
  k_tcb k' = k_tcb k /\ ksReadyQueues k' = ksReadyQueues k.
Proof. intros E. split; [exact (f_equal k_tcb E) | exact (f_equal ksReadyQueues E)]. Qed.

Lemma ready_in_true Q d p : Q d p <> [] -> forall d' p', put2 (ready_in Q) d p true d' p' = ready_in Q d' p'.
Proof.
  intros Hne d' p'. destruct (decide ((d', p') = (d, p))) as [[= -> ->]|]; [|by rewrite put2_ne].
  rewrite put2_eq. unfold ready_in. by rewrite bool_decide_false.
Qed.

Lemma bitmaps_ext E E' k k' : bitmaps_ok E k -> (forall d p, E' d p = E d p) ->
  ksReadyQueuesL1Bitmap k' = ksReadyQueuesL1Bitmap k -> ksReadyQueuesL2Bitmap k' = ksReadyQueuesL2Bitmap k ->
  bitmaps_ok E' k'.
Proof.
  intros HB HE H1 H2 d Hd. eapply bm_ok_ext; [by apply HB | | |done].
  - unfold l1. by rewrite H1.
  - intros i. unfold l2. by rewrite H2.
Qed.

(** The end of the queue that a new thread does not become: marked in the
    bitmap if there was none, linked to the new thread otherwise. *)
Record attached (Q : Z -> Z -> list Z) (k k1 : kstate) (d p t : Z) (x : tcb_t) (nx pv : Z -> Z) : Prop := {
  at_tcb : k_tcb k1 !! t = Some x;
  at_bits : bitmaps_ok (put2 (ready_in Q) d p true) k1;
  at_links : linked k1 nx pv (queued k);
  at_rq : ksReadyQueues k1 = ksReadyQueues k }.

Lemma attach_bitmap Q k d p t x : queues_ok Q k -> k_tcb k !! t = Some x -> dom_ok d -> prio_ok p ->
  wp (addToBitmap d p) (fun _ k1 => attached Q k k1 d p t x (nxs k) (pvs k)) (fun _ => False) k.
Proof.
  intros HQ Hx Hd Hp. eapply wp_mono; [apply addToBitmap_ok; [by apply HQ | done | done] | | done].
  intros _ k1 [HB [Et Er]%nobits_parts]. split; [by rewrite Et | done | | done].
  intros y. unfold nxs, pvs, queued. by rewrite Et.
Qed.

Lemma attach_link Q k d p t x h f y : queues_ok Q k -> k_tcb k !! t = Some x ->
  h ∈ Q d p -> h <> t -> k_tcb k !! h = Some y -> tcbQueued (f y) = tcbQueued y -> h <> 0 ->
  wp (tcb_upd h f) (fun _ k1 => attached Q k k1 d p t x (put (nxs k) h (tcbSchedNext (f y)))
    (put (pvs k) h (tcbSchedPrev (f y)))) (fun _ => False) k.
Proof.
  intros HQ Hx Hh Hne Hy Hf H0. eapply wp_tcb_upd; [done | done |]. split.
  - simpl. by rewrite lookup_insert_ne.
  - eapply bitmaps_ext; [by apply HQ | | done | done]. apply ready_in_true. intros E. rewrite E in Hh. set_solver.
  - intros z. rewrite nxs_upd, pvs_upd, queued_upd. split; [done |]. split; [done |].
    unfold put. case_decide; [subst z | done]. rewrite Hf. unfold queued. by rewrite Hy.
  - done.
Qed.

Lemma wp_with_pres {A X} (f : kstate -> X) (m : M kstate A) (P : A -> kstate -> Prop) F k :
  preserves f m -> wp m (fun a k' => f k' = f k -> P a k') F k -> wp m (fun a k' => P a k' /\ f k' = f k) F k.
Proof. intros Hp. unfold wp. destruct (m k) as [[a k']|] eqn:E; [|done]. intros HP. split; eauto. Qed.

(** The thread linked in and marked as queued. *)
Lemma attach_finish Q k k1 d p t x nx pv a b q xs' :
  queues_ok Q k -> k_tcb k !! t = Some x -> tcbQueued x = false -> tcbDomain x = d -> tcbPriority x = p ->
  attached Q k k1 d p t x nx pv -> dll (put nx t b) (put pv t a) (q_head q) (q_end q) xs' ->
  (forall y, y <> t -> y ∉ Q d p -> nx y = nxs k y /\ pv y = pvs k y) ->
  (forall y, y ∈ xs' <-> y = t \/ y ∈ Q d p) ->
  wp (do* tcb_upd t (upd_tcbSchedPrev (fun _ => a)) in
      do* tcb_upd t (upd_tcbSchedNext (fun _ => b)) in
      do* rq_set (d * 256 + p) q in
      tcb_upd t (upd_tcbQueued (fun _ => true)))
    (fun _ k' => noqueues k' = noqueues k -> queues_ok (put2 Q d p xs') k') (fun _ => False) k1.
Proof.
  intros HQ Hx Hq Ed Ep [At Ab Al Ar] HL Hlk Hmem.
  destruct (qo_bounds _ _ HQ _ _ Hx) as (Ht & Hd & Hp). rewrite Ed in Hd. rewrite Ep in Hp.
  wp_steps. eapply wp_tcb_upd; [done | lia |]. wp_steps.
  eapply wp_tcb_upd; [apply lookup_insert_eq | lia |]. wp_steps.
  apply wp_rq_set; [done | done |]. wp_steps. eapply wp_tcb_upd; [apply lookup_insert_eq | lia |].
  set (x3 := upd_tcbQueued _ _). set (k' := upd_k_tcb _ _). intros Hs.
  assert (linked k' (put nx t b) (put pv t a) (put (queued k) t true)) as Hl'.
  { apply (linked_upd k1 k' nx pv (queued k) t x3 Al). unfold k'. simpl. by rewrite !insert_insert_eq. }
  assert (xs' <> []) as Hne by (intros ->; specialize (Hmem t); set_solver).
  eapply queues_ok_change with (t := t) (b := true) (k := k); try done.
  - rewrite bool_decide_false by done. eapply bitmaps_ext; [exact Ab | done | done | done].
  - change (rq k' d p) with (rq (upd_ksReadyQueues (insert (d * 256 + p) q) k1) d p).
    rewrite rq_upd, decide_True by done. eapply dll_ext; [|exact HL]. intros y _. by destruct (Hl' y) as (-> & -> & _).
  - intros d' p' Hd' Hp' Hne'. change (rq k' d' p') with (rq (upd_ksReadyQueues (insert (d * 256 + p) q) k1) d' p').
    rewrite rq_upd, decide_False by done. unfold rq. by rewrite Ar.
  - intros y Hy Hny. destruct (Hl' y) as (-> & -> & _). rewrite !put_ne by done. by apply Hlk.
  - intros y. by destruct (Hl' y) as (_ & _ & ->).
  - intros y. rewrite Hmem. case_decide; naive_solver.
Qed.

Lemma enqueue_ok Q k t x : config_ok -> queues_ok Q k -> k_tcb k !! t = Some x ->
  wp (tcbSchedEnqueue t) (fun _ k' =>
    queues_ok (if tcbQueued x then Q else put2 Q (tcbDomain x) (tcbPriority x) (t :: Q (tcbDomain x) (tcbPriority x))) k' /\
    noqueues k' = noqueues k) (fun _ => False) k.
Proof.
  intros Hc HQ Hx. apply wp_with_pres; [apply enqueue_noqueues |]. unfold tcbSchedEnqueue.
  destruct (qo_bounds _ _ HQ _ _ Hx) as (Ht & Hd & Hp).
  wp_steps. eapply wp_tcb_get; [done | lia |]. destruct (tcbQueued x) eqn:Eq; simpl; wp_steps; [done |].
  set (d := tcbDomain x) in *. set (p := tcbPriority x) in *.
  apply wp_index; [done.. |]. wp_steps. apply wp_rq_get; [done.. |]. wp_steps.
  assert (t ∉ Q d p) as Hn. { intros Hin. destruct (qo_mem _ _ HQ d p t) as (? & ? & ? & _); [done.. |]. congruence. }
  pose proof (qo_list _ _ HQ d p Hd Hp) as HL. pose proof (dll_empty _ _ _ _ _ HL) as [_ He].
  pose proof (dll_push _ _ _ _ _ t HL ltac:(lia) Hn) as HL'.
  destruct (q_end (rq k d p) =? 0) eqn:E0; [apply Z.eqb_eq in E0 | apply Z.eqb_neq in E0]; wp_steps.
  - eapply wp_mono; [apply (attach_bitmap Q k d p t x HQ Hx Hd Hp) | | done]. intros ? k1 Ha. cbv beta in Ha. wp_step.
    apply (attach_finish Q k k1 d p t x (nxs k) (pvs k)); try done.
    + rewrite !decide_True in HL' by done. done.
    + intros y. rewrite list.elem_of_cons. done.
  - destruct (Q d p) as [|h r] eqn:EQ; [tauto |]. pose proof (dll_hd _ _ _ _ _ HL) as Eh. simpl in Eh.
    destruct (qo_mem _ _ HQ d p h) as (y & Hy & _); [done | done | rewrite EQ; set_solver |].
    assert (h <> t) by set_solver. destruct (qo_bounds _ _ HQ _ _ Hy) as [Hh0 _].
    rewrite Eh. eapply wp_mono; [eapply (attach_link Q k d p t x h _ y); try done; [rewrite EQ; set_solver | lia] | | done].
    intros ? k1 Ha. cbv beta in Ha. wp_step. simpl in Ha. rewrite Eh.
    apply (attach_finish Q k k1 d p t x _ _ 0 h _ (t :: h :: r) HQ Hx Eq eq_refl eq_refl Ha).
    + rewrite !decide_False in HL' by done. rewrite Eh in HL'. eapply dll_ext; [|exact HL'].
      intros z _. split; [|done]. unfold put, nxs. repeat case_decide; subst; by rewrite ?Hy.
    + intros z Hz Hnz. rewrite !put_ne by (rewrite EQ in Hnz; set_solver). done.
    + intros z. rewrite EQ. set_solver.
Qed.

Lemma append_ok Q k t x : config_ok -> queues_ok Q k -> k_tcb k !! t = Some x ->
  wp (tcbSchedAppend t) (fun _ k' =>
    queues_ok (if tcbQueued x then Q else put2 Q (tcbDomain x) (tcbPriority x) (Q (tcbDomain x) (tcbPriority x) ++ [t])) k' /\
    noqueues k' = noqueues k) (fun _ => False) k.
Proof.
  intros Hc HQ Hx. apply wp_with_pres; [apply append_noqueues |]. unfold tcbSchedAppend.
  destruct (qo_bounds _ _ HQ _ _ Hx) as (Ht & Hd & Hp).
  wp_steps. eapply wp_tcb_get; [done | lia |]. destruct (tcbQueued x) eqn:Eq; simpl; wp_steps; [done |].
  set (d := tcbDomain x) in *. set (p := tcbPriority x) in *.
  apply wp_index; [done.. |]. wp_steps. apply wp_rq_get; [done.. |]. wp_steps.
  assert (t ∉ Q d p) as Hn. { intros Hin. destruct (qo_mem _ _ HQ d p t) as (? & ? & ? & _); [done.. |]. congruence. }
  pose proof (qo_list _ _ HQ d p Hd Hp) as HL. pose proof (dll_empty _ _ _ _ _ HL) as [He _].
  pose proof (dll_append _ _ _ _ _ t HL ltac:(lia) Hn) as HL'.
  destruct (q_head (rq k d p) =? 0) eqn:E0; [apply Z.eqb_eq in E0 | apply Z.eqb_neq in E0]; wp_steps.
  - eapply wp_mono; [apply (attach_bitmap Q k d p t x HQ Hx Hd Hp) | | done]. intros ? k1 Ha. cbv beta in Ha. wp_step.
    apply (attach_finish Q k k1 d p t x (nxs k) (pvs k)); try done.
    + rewrite !decide_True in HL' by done. done.
    + intros y. set_solver.
  - assert (q_end (rq k d p) ∈ Q d p) as Hin.
    { rewrite (dll_tl _ _ _ _ _ HL). apply last_elem. tauto. }
    set (h := q_end (rq k d p)) in *.
    destruct (qo_mem _ _ HQ d p h) as (y & Hy & _); [done.. |].
    assert (h <> t) by set_solver. destruct (qo_bounds _ _ HQ _ _ Hy) as [Hh0 _].
    eapply wp_mono; [eapply (attach_link Q k d p t x h _ y); try done; lia | | done].
    intros ? k1 Ha. cbv beta in Ha. wp_step. simpl in Ha. fold h.
    apply (attach_finish Q k k1 d p t x _ _ h 0 _ (Q d p ++ [t]) HQ Hx Eq eq_refl eq_refl Ha).
    + rewrite !decide_False in HL' by done. eapply dll_ext; [|exact HL'].
      intros z _. split; [done |]. unfold put, pvs. repeat case_decide; subst; by rewrite ?Hy.
    + intros z Hz Hnz. rewrite !put_ne by set_solver. done.
    + intros z. set_solver.
Qed.

(** ** Taking a thread out of its queue *)

Record detached (k k1 : kstate) (t : Z) (x : tcb_t) (E : Z -> Z -> bool) (nx pv : Z -> Z) : Prop := {
  de_tcb : k_tcb k1 !! t = Some x;
  de_bits : bitmaps_ok E k1;
  de_links : linked k1 nx pv (queued k);
  de_rq : ksReadyQueues k1 = ksReadyQueues k;
  de_dom : forall h, is_Some (k_tcb k !! h) -> is_Some (k_tcb k1 !! h) }.

Lemma detach_link k k1 t x E nx pv h y f : detached k k1 t x E nx pv -> k_tcb k1 !! h = Some y ->
  h <> 0 -> h <> t -> tcbQueued (f y) = queued k h ->
  wp (tcb_upd h f) (fun _ k2 => detached k k2 t x E (put nx h (tcbSchedNext (f y))) (put pv h (tcbSchedPrev (f y))))
    (fun _ => False) k1.
Proof.
  intros [D1 D2 D3 D4 D5] Hy H0 Hne Hq. eapply wp_tcb_upd; [done | done |]. split; [| | |done |].
  - simpl. by rewrite lookup_insert_ne.
  - eapply bitmaps_ext; [exact D2 | done | done | done].
  - intros z. destruct (linked_upd k1 (upd_k_tcb (insert h (f y)) k1) nx pv (queued k) h (f y) D3 eq_refl z)
      as (-> & -> & ->). split; [done |]. split; [done |]. unfold put. case_decide; [by subst | done].
  - intros z Hz. simpl. destruct (decide (z = h)) as [->|]; [by rewrite lookup_insert_eq |].
    rewrite lookup_insert_ne by done. by apply D5.
Qed.

Lemma detach_finish Q k k1 d p t x nx pv q l r :
  queues_ok Q k -> k_tcb k !! t = Some x -> tcbDomain x = d -> tcbPriority x = p -> Q d p = l ++ t :: r ->
  detached k k1 t x (put2 (ready_in Q) d p (negb (bool_decide (l ++ r = [])))) nx pv ->
  dll nx pv (q_head q) (q_end q) (l ++ r) ->
  (forall y, y ∉ Q d p -> nx y = nxs k y /\ pv y = pvs k y) ->
  wp (do* rq_set (d * 256 + p) q in tcb_upd t (upd_tcbQueued (fun _ => false)))
    (fun _ k' => noqueues k' = noqueues k -> queues_ok (put2 Q d p (l ++ r)) k') (fun _ => False) k1.
Proof.
  intros HQ Hx Ed Ep EQ [D1 D2 D3 D4 _] HL Hlk.
  destruct (qo_bounds _ _ HQ _ _ Hx) as (Ht & Hd & Hp). rewrite Ed in Hd. rewrite Ep in Hp.
  pose proof (dll_nodup _ _ _ _ _ (qo_list _ _ HQ d p Hd Hp)) as Hnd. rewrite EQ in Hnd.
  apply list.NoDup_app in Hnd as (_ & Hlt & Hnr). apply list.NoDup_cons in Hnr as [Htr _].
  assert (t ∉ l) as Htl by (intros Hin; apply (Hlt t Hin); set_solver).
  wp_steps. apply wp_rq_set; [done | done |]. wp_steps. eapply wp_tcb_upd; [exact D1 | lia |].
  set (k' := upd_k_tcb _ _). intros Hs.
  assert (linked k' nx pv (put (queued k) t false)) as Hl'.
  { intros y. destruct (linked_upd k1 k' nx pv (queued k) t _ D3 eq_refl y) as (-> & -> & ->).
    destruct (D3 t) as (N & P & _). unfold nxs, pvs in N, P. rewrite D1 in N, P. simpl in N, P.
    unfold put. case_decide; [by subst | done]. }
  eapply queues_ok_change with (t := t) (b := false) (k := k); try done.
  - change (rq k' d p) with (rq (upd_ksReadyQueues (insert (d * 256 + p) q) k1) d p).
    rewrite rq_upd, decide_True by done. eapply dll_ext; [|exact HL]. intros y _. by destruct (Hl' y) as (-> & -> & _).
  - intros d' p' Hd' Hp' Hne'. change (rq k' d' p') with (rq (upd_ksReadyQueues (insert (d * 256 + p) q) k1) d' p').
    rewrite rq_upd, decide_False by done. unfold rq. by rewrite D4.
  - intros y Hy Hny. destruct (Hl' y) as (-> & -> & _). by apply Hlk.
  - intros y. by destruct (Hl' y) as (_ & _ & ->).
  - intros y. rewrite EQ. case_decide; set_solver.
Qed.

(** A queued thread is somewhere in the list of its domain and priority. *)
Lemma queued_split Q k t x : queues_ok Q k -> k_tcb k !! t = Some x -> tcbQueued x = true ->
  exists l r, Q (tcbDomain x) (tcbPriority x) = l ++ t :: r /\ (t ∉ l) /\ (t ∉ r) /\
    tcbSchedPrev x = List.last l 0 /\ tcbSchedNext x = List.hd 0 r.
Proof.
  intros HQ Hx Hq. pose proof (qo_queued _ _ HQ _ _ Hx Hq) as Hin. destruct (qo_bounds _ _ HQ _ _ Hx) as (_ & Hd & Hp).
  apply list_elem_of_split in Hin as (l & r & E). exists l, r. pose proof (qo_list _ _ HQ _ _ Hd Hp) as HL.
  rewrite E in HL. destruct (dll_around _ _ _ _ _ _ _ HL) as (_ & H1 & H2).
  unfold pvs, nxs in H1, H2. rewrite Hx in H1, H2. apply dll_nodup in HL. apply list.NoDup_app in HL as (_ & Hlt & Hnr).
  apply list.NoDup_cons in Hnr as [Htr _]. split; [done |]. split; [|done]. intros Hin. apply (Hlt t Hin). set_solver.
Qed.

Lemma hd_in (l : list Z) : List.hd 0 l <> 0 -> List.hd 0 l ∈ l.
Proof. destruct l; [done |]. simpl. set_solver. Qed.
Lemma last_elem' (l : list Z) : List.last l 0 <> 0 -> List.last l 0 ∈ l.
Proof. intros H. apply last_elem. by intros ->. Qed.

(** The link before the thread, or the bit of the queue it was alone in. *)
Lemma detach_first Q k t x l r : queues_ok Q k -> k_tcb k !! t = Some x ->
  let d := tcbDomain x in let p := tcbPriority x in
  Q d p = l ++ t :: r -> t ∉ l -> tcbSchedPrev x = List.last l 0 -> tcbSchedNext x = List.hd 0 r ->
  wp (if negb (tcbSchedPrev x =? 0)
      then do* tcb_upd (tcbSchedPrev x) (upd_tcbSchedNext (fun _ => tcbSchedNext x)) in ret (rq k d p)
      else do* (if tcbSchedNext x =? 0 then removeFromBitmap d p else ret tt) in
           ret (mkQ (tcbSchedNext x) (q_end (rq k d p))))
    (fun q k1 => q = mkQ (if decide (tcbSchedPrev x = 0) then tcbSchedNext x else q_head (rq k d p)) (q_end (rq k d p)) /\
       detached k k1 t x (put2 (ready_in Q) d p (negb (bool_decide (l ++ r = []))))
         (if decide (tcbSchedPrev x = 0) then nxs k else put (nxs k) (tcbSchedPrev x) (tcbSchedNext x)) (pvs k))
    (fun _ => False) k.
Proof.
  intros HQ Hx d p EQ Htl HP HN. destruct (qo_bounds _ _ HQ _ _ Hx) as (Ht & Hd & Hp).
  assert (detached k k t x (put2 (ready_in Q) d p true) (nxs k) (pvs k)) as D0.
  { split; [done | | by intros y | done | done]. eapply bitmaps_ext; [by apply HQ | | done | done].
    apply ready_in_true. rewrite EQ. by destruct l. }
  destruct (tcbSchedPrev x =? 0) eqn:E0; [apply Z.eqb_eq in E0 | apply Z.eqb_neq in E0]; cbn [negb].
  - rewrite !decide_True by done. wp_steps. destruct (tcbSchedNext x =? 0) eqn:E1; [apply Z.eqb_eq in E1 | apply Z.eqb_neq in E1].
    + eapply wp_mono; [apply removeFromBitmap_ok; [by apply HQ | done | done] | | done].
      intros _ k1 [HB [Et Er]%nobits_parts]. wp_steps. split; [done |].
      split; [by rewrite Et | | intros y; unfold nxs, pvs, queued; by rewrite Et | done | by rewrite Et].
      rewrite bool_decide_true; [done |]. pose proof (qo_list _ _ HQ d p Hd Hp) as HL. rewrite EQ in HL.
      apply app_nil. split.
      * destruct l; [done |]. destruct (dll_nonzero _ _ _ _ _ (List.last (z :: l) 0) HL); [|congruence].
        pose proof (last_elem (z :: l) 0 ltac:(done)). set_solver.
      * destruct r; [done |]. destruct (dll_nonzero _ _ _ _ _ z HL); [set_solver | by simpl in HN; congruence].
    + wp_steps. split; [done |]. rewrite bool_decide_false; [done |]. intros [-> ->]%app_nil. simpl in HN. congruence.
  - rewrite !decide_False by done. wp_steps. assert (tcbSchedPrev x ∈ l) as Hin by (rewrite HP in *; by apply last_elem').
    destruct (qo_mem _ _ HQ d p (tcbSchedPrev x)) as (y & Hy & Hq & _); [done | done | rewrite EQ; set_solver |].
    eapply wp_mono; [eapply (detach_link k k t x _ _ _ _ y _ D0 Hy); [lia | set_solver | unfold queued; by rewrite Hy] | | done].
    intros ? k1 [D1 D2 D3 D4 D5]. wp_steps. split; [by destruct (rq k d p) |]. rewrite bool_decide_false by (destruct l; set_solver).
    split; [done | done | | done | done]. intros z. destruct (D3 z) as (-> & -> & ->). split; [done |]. split; [|done].
    unfold put, pvs. case_decide; [subst; by rewrite Hy | done].
Qed.

(** [Q] without the thread [t] of domain [d] and priority [p]. *)
Definition without (Q : Z -> Z -> list Z) (d p t : Z) : Z -> Z -> list Z :=
  put2 Q d p (filter (fun y => y <> t) (Q d p)).

Lemma filter_keep (P : Z -> Prop) `{forall x, Decision (P x)} (l : list Z) :
  (forall y, y ∈ l -> P y) -> filter P l = l.
Proof.
  induction l as [|y l IH]; intros Hl; [done |]. rewrite filter_cons_True by (apply Hl; set_solver).
  f_equal. apply IH. set_solver.
Qed.

Lemma keep_split t (l r : list Z) : t ∉ l -> t ∉ r -> filter (fun y => y <> t) (l ++ t :: r) = l ++ r.
Proof.
  intros Hl Hr. rewrite list.filter_app, filter_cons_False by tauto.
  f_equal; apply filter_keep; intros y Hy; intros ->; done.
Qed.

Lemma dequeue_ok Q k t x : config_ok -> queues_ok Q k -> k_tcb k !! t = Some x ->
  wp (tcbSchedDequeue t) (fun _ k' =>
    queues_ok (if tcbQueued x then without Q (tcbDomain x) (tcbPriority x) t else Q) k' /\
    noqueues k' = noqueues k) (fun _ => False) k.
Proof.
  intros Hc HQ Hx. apply wp_with_pres; [apply dequeue_noqueues |]. unfold tcbSchedDequeue.
  destruct (qo_bounds _ _ HQ _ _ Hx) as (Ht & Hd & Hp).
  wp_steps. eapply wp_tcb_get; [done | lia |]. destruct (tcbQueued x) eqn:Eq; simpl; wp_steps; [|done].
  destruct (queued_split Q k t x HQ Hx Eq) as (l & r & EQ & Htl & Htr & HP & HN).
  unfold without. rewrite EQ, keep_split by done.
  set (d := tcbDomain x) in *. set (p := tcbPriority x) in *.
  apply wp_index; [done.. |]. wp_steps. apply wp_rq_get; [done.. |]. rewrite wp_bind.
  eapply wp_mono; [by apply (detach_first Q k t x l r) | | done]. intros q k1 [-> D]. fold d p in D |- *. wp_steps.
  pose proof (qo_list _ _ HQ d p Hd Hp) as HL. rewrite EQ in HL. pose proof (dll_remove _ _ _ _ _ _ _ HL) as HL'.
  assert (nxs k t = tcbSchedNext x /\ pvs k t = tcbSchedPrev x) as [En Ep] by (unfold nxs, pvs; by rewrite Hx).
  rewrite En, Ep in HL'.
  assert (forall y, y ∉ Q d p -> (if decide (tcbSchedPrev x = 0) then nxs k else put (nxs k) (tcbSchedPrev x) (tcbSchedNext x)) y = nxs k y) as Hlk.
  { intros y Hy. case_decide; [done |]. apply put_ne. intros ->. apply Hy. rewrite EQ, HP in *. apply list.elem_of_app.
    left. by apply last_elem'. }
  apply (wp_tcb_get t k1 x); [by apply D | lia |].
  destruct (tcbSchedNext x =? 0) eqn:E0; [apply Z.eqb_eq in E0 | apply Z.eqb_neq in E0]; cbn [negb]; wp_step.
  - wp_step. rewrite (decide_True (P := tcbSchedNext x = 0)) in HL' by done.
    rewrite (decide_True (P := tcbSchedNext x = 0)) in HL' by done.
    eapply (detach_finish Q k k1 d p t x _ _ _ l r HQ Hx eq_refl eq_refl EQ D); [exact HL' |].
    intros y Hy. split; [by apply Hlk | done].
  - rewrite (decide_False (P := tcbSchedNext x = 0)) in HL' by done.
    rewrite (decide_False (P := tcbSchedNext x = 0)) in HL' by done.
    assert (tcbSchedNext x ∈ r) as Hin by (rewrite HN in *; by apply hd_in).
    destruct (qo_mem _ _ HQ d p (tcbSchedNext x)) as (y & Hy & Hq & _); [done | done | rewrite EQ; set_solver |].
    destruct (de_dom _ _ _ _ _ _ _ D (tcbSchedNext x) ltac:(eauto)) as [y1 Hy1].
    destruct (de_links _ _ _ _ _ _ _ D (tcbSchedNext x)) as (L1 & _ & L3).
    unfold nxs in L1 at 1. unfold queued in L3 at 1. rewrite Hy1 in L1, L3. simpl in L1, L3.
    wp_step. eapply wp_mono; [eapply (detach_link k k1 t x _ _ _ (tcbSchedNext x) y1 _ D Hy1);
      [lia | intros E; by rewrite E in Hin | exact L3] | | done].
    intros ? k2 D'. cbv beta in D'. simpl in D'. wp_step.
    eapply (detach_finish Q k k2 d p t x _ _ _ l r HQ Hx eq_refl eq_refl EQ D').
    + eapply dll_ext; [|exact HL']. intros z _. split; [|done].
      destruct (decide (z = tcbSchedNext x)) as [->|]; [by rewrite put_eq | by rewrite put_ne].
    + intros z Hz. assert (z <> tcbSchedNext x) by (intros ->; apply Hz; rewrite EQ; set_solver).
      rewrite !(put_ne _ (tcbSchedNext x)) by done. split; [by apply Hlk | done].
Qed.

End Inv.
