(* ===== verification/KSchedThms.v ===== *)
(** * Correctness of the scheduler

    The invariant every kernel entry keeps between scheduling decisions, and the
    theorem that [schedule] leaves the best runnable thread running. *)

From S2P Require Import Prelude Dll KCaps KState KSched KSchedInv.

Definition runnable (k : kstate) (t : Z) : bool := from_option (fun x => isRunnable_st (tsType x)) false (k_tcb k !! t).
Definition prio (k : kstate) (t : Z) : Z := from_option tcbPriority 0 (k_tcb k !! t).
Definition domain (k : kstate) (t : Z) : Z := from_option tcbDomain 0 (k_tcb k !! t).

(** What two states have in common when only queues differ. *)
Record same_threads (k k' : kstate) : Prop := {
  st_dom : forall t, is_Some (k_tcb k' !! t) <-> is_Some (k_tcb k !! t);
  st_ts : forall t, tsType <$> k_tcb k' !! t = tsType <$> k_tcb k !! t;
  st_prio : forall t, prio k' t = prio k t;
  st_domain : forall t, domain k' t = domain k t }.

Lemma same_runnable k k' t : same_threads k k' -> runnable k' t = runnable k t.
Proof.
  intros [_ H _ _]. specialize (H t). unfold runnable.
  destruct (k_tcb k' !! t), (k_tcb k !! t); simpl in *; congruence.
Qed.

Lemma same_trans k k' k'' : same_threads k k' -> same_threads k' k'' -> same_threads k k''.
Proof.
  intros [A1 A2 A3 A4] [B1 B2 B3 B4]. split; intros t.
  - by rewrite B1.
  - by rewrite B2.
  - by rewrite B3.
  - by rewrite B4.
Qed.

Lemma fmap_same_threads k k' : unlinked <$> k_tcb k' = unlinked <$> k_tcb k -> same_threads k k'.
Proof.
  intros E. assert (forall t, unlinked <$> k_tcb k' !! t = unlinked <$> k_tcb k !! t) as Ht.
  { intros t. by rewrite <- !lookup_fmap, E. }
  split; intros t; specialize (Ht t); unfold prio, domain;
    destruct (k_tcb k' !! t) as [x'|], (k_tcb k !! t) as [x|]; simpl in *; try done;
    apply (inj Some), unlinked_fields in Ht as (E1 & E2 & E3); first [congruence | split; eauto].
Qed.

Lemma noqueues_same k k' : noqueues k' = noqueues k ->
  same_threads k k' /\ ksCurThread k' = ksCurThread k /\ ksIdleThread k' = ksIdleThread k /\
  ksSchedulerAction k' = ksSchedulerAction k /\ ksCurDomain k' = ksCurDomain k /\
  ksDomScheduleIdx k' = ksDomScheduleIdx k.
Proof.
  intros E. split_and!.
  - apply fmap_same_threads. exact (f_equal k_tcb E).
  - exact (f_equal ksCurThread E).
  - exact (f_equal ksIdleThread E).
  - exact (f_equal ksSchedulerAction E).
  - exact (f_equal ksCurDomain E).
  - exact (f_equal ksDomScheduleIdx E).
Qed.

Section Thms.
Context `{C : KConfig}.

Lemma queued_iff Q k t : queues_ok Q k ->
  queued k t = true <-> is_Some (k_tcb k !! t) /\ t ∈ Q (domain k t) (prio k t).
Proof.
  intros HQ. unfold queued, domain, prio. destruct (k_tcb k !! t) as [x|] eqn:E; simpl.
  - destruct (qo_bounds _ _ HQ _ _ E) as (_ & Hd & Hp). split; [intros Hq; split; [eauto | by apply (qo_queued _ _ HQ)] |].
    intros [_ Hin]. destruct (qo_mem _ _ HQ _ _ t Hd Hp Hin) as (x' & ? & ? & _). congruence.
  - split; [done |]. by intros [[? ?] _].
Qed.

Lemma queued_same Q k k' t : queues_ok Q k -> queues_ok Q k' -> same_threads k k' -> queued k' t = queued k t.
Proof.
  intros HQ HQ' Hs. apply eq_true_iff_eq. rewrite (queued_iff _ _ _ HQ'), (st_dom _ _ Hs).
  by rewrite (st_domain _ _ Hs), (st_prio _ _ Hs), (queued_iff _ _ _ HQ).
Qed.

(** The threads queued after one queue has changed. *)
Lemma queued_put Q k k' d p t xs' (b : bool) : queues_ok Q k -> queues_ok (put2 Q d p xs') k' -> same_threads k k' ->
  is_Some (k_tcb k !! t) -> domain k t = d -> prio k t = p ->
  (forall y, y ∈ xs' <-> if decide (y = t) then b = true else y ∈ Q d p) ->
  forall y, queued k' y = if decide (y = t) then b else queued k y.
Proof.
  intros HQ HQ' Hs Ht Ed Ep Hm y. apply eq_true_iff_eq. rewrite (queued_iff _ _ _ HQ'), (st_dom _ _ Hs).
  rewrite (st_domain _ _ Hs), (st_prio _ _ Hs). destruct (decide (y = t)) as [->|Hne].
  - rewrite Ed, Ep, put2_eq, Hm, decide_True by done. naive_solver.
  - rewrite (queued_iff _ _ _ HQ). destruct (decide ((domain k y, prio k y) = (d, p))) as [[= E1 E2]|].
    + rewrite E1, E2, put2_eq, Hm, decide_False by done. done.
    + by rewrite put2_ne.
Qed.

(** The queue operations, without the order of the queues. *)
Definition queues (k : kstate) : Prop := exists Q, queues_ok Q k.

Lemma enqueue_view k t : config_ok -> queues k -> is_Some (k_tcb k !! t) ->
  wp (tcbSchedEnqueue t) (fun _ k' => (queues k' /\
    forall y, queued k' y = if decide (y = t) then true else queued k y) /\ noqueues k' = noqueues k) (fun _ => False) k.
Proof.
  intros Hc [Q HQ] [x Hx]. eapply wp_mono; [by apply (enqueue_ok Q k t x) | | done].
  intros _ k' [HQ' Hn]. split; [|done]. destruct (noqueues_same _ _ Hn) as [Hs _]. split; [by eexists |].
  destruct (tcbQueued x) eqn:E.
  - intros y. rewrite (queued_same Q k k' y HQ HQ' Hs). case_decide; [subst | done]. unfold queued. by rewrite Hx.
  - eapply queued_put; [exact HQ | exact HQ' | done | eauto | unfold domain; by rewrite Hx | unfold prio; by rewrite Hx |].
    intros y. case_decide; set_solver.
Qed.

Lemma append_view k t : config_ok -> queues k -> is_Some (k_tcb k !! t) ->
  wp (tcbSchedAppend t) (fun _ k' => (queues k' /\
    forall y, queued k' y = if decide (y = t) then true else queued k y) /\ noqueues k' = noqueues k) (fun _ => False) k.
Proof.
  intros Hc [Q HQ] [x Hx]. eapply wp_mono; [by apply (append_ok Q k t x) | | done].
  intros _ k' [HQ' Hn]. split; [|done]. destruct (noqueues_same _ _ Hn) as [Hs _]. split; [by eexists |].
  destruct (tcbQueued x) eqn:E.
  - intros y. rewrite (queued_same Q k k' y HQ HQ' Hs). case_decide; [subst | done]. unfold queued. by rewrite Hx.
  - eapply queued_put; [exact HQ | exact HQ' | done | eauto | unfold domain; by rewrite Hx | unfold prio; by rewrite Hx |].
    intros y. case_decide; set_solver.
Qed.

Lemma dequeue_view k t : config_ok -> queues k -> is_Some (k_tcb k !! t) ->
  wp (tcbSchedDequeue t) (fun _ k' => (queues k' /\
    forall y, queued k' y = if decide (y = t) then false else queued k y) /\ noqueues k' = noqueues k) (fun _ => False) k.
Proof.
  intros Hc [Q HQ] [x Hx]. eapply wp_mono; [by apply (dequeue_ok Q k t x) | | done].
  intros _ k' [HQ' Hn]. split; [|done]. destruct (noqueues_same _ _ Hn) as [Hs _]. split; [by eexists |].
  destruct (tcbQueued x) eqn:E.
  - eapply queued_put; [exact HQ | exact HQ' | done | eauto | unfold domain; by rewrite Hx | unfold prio; by rewrite Hx |].
    intros y. rewrite list_elem_of_filter. case_decide; naive_solver.
  - intros y. rewrite (queued_same Q k k' y HQ HQ' Hs). case_decide; [subst | done]. unfold queued. by rewrite Hx.
Qed.

(** ** The highest priority *)

Lemma log2_of_clz w : wordBits - 1 - CLZL w = Z.log2 w.
Proof. unfold wordBits, CLZL. lia. Qed.

Lemma prio_of_index i j : 0 <= i < 4 -> 0 <= j < 64 -> Z.lor (l1index_to_prio i) j = i * 64 + j.
Proof.
  intros Hi Hj. unfold l1index_to_prio, w64. rewrite Z.shiftl_mul_pow2 by done. change (2 ^ wordRadix) with 64.
  rewrite Z.mod_small by lia. assert (Z.land (i * 64) j = 0) as H0.
  { change 64 with (2 ^ 6). rewrite <- Z.shiftl_mul_pow2 by done. apply Z.bits_inj'. intros b Hb.
    rewrite Z.land_spec, Z.shiftl_spec, Z.bits_0 by done. destruct (decide (b < 6)).
    - by rewrite Z.testbit_neg_r by lia.
    - rewrite (testbit_above j 6) by lia. by rewrite andb_false_r. }
  rewrite <- Z.lxor_lor by done. by rewrite <- Z.add_nocarry_lxor.
Qed.

Lemma getHighestPrio_ok Q k d : queues_ok Q k -> dom_ok d -> l1 k d <> 0 ->
  wp (getHighestPrio d) (fun p k' => k' = k /\ prio_ok p /\ Q d p <> [] /\
    forall q, prio_ok q -> Q d q <> [] -> q <= p) (fun _ => False) k.
Proof.
  intros HQ Hd H0. pose proof (qo_bits _ _ HQ d Hd) as HB.
  destruct (bm_highest _ _ _ HB H0) as (Hi & Hw & Hp & He & Hmax). unfold getHighestPrio.
  wp_steps. apply wp_l1_get; [done |]. wp_steps. rewrite (proj2 (Z.eqb_neq _ _) H0). simpl. rewrite log2_of_clz.
  wp_steps. apply wp_invert; [done |]. wp_steps. apply wp_l2_get; [done | lia |]. wp_steps.
  rewrite (proj2 (Z.eqb_neq (l2 k d _) 0)) by lia. simpl. wp_steps. rewrite log2_of_clz, prio_of_index; [| done |].
  - split; [done |]. split; [done |]. split.
    + unfold ready_in in He. intros E. by rewrite E in He.
    + intros q Hq Hne. apply Hmax; [done |]. unfold ready_in. by rewrite bool_decide_false.
  - split; [apply Z.log2_nonneg |]. apply Z.log2_lt_pow2; lia.
Qed.

Lemma isHighestPrio_ok Q k d p : queues_ok Q k -> dom_ok d ->
  wp (isHighestPrio d p) (fun b k' => k' = k /\
    (b = true -> forall q, prio_ok q -> Q d q <> [] -> q <= p)) (fun _ => False) k.
Proof.
  intros HQ Hd. unfold isHighestPrio. wp_steps. apply wp_l1_get; [done |].
  destruct (l1 k d =? 0) eqn:E; [apply Z.eqb_eq in E | apply Z.eqb_neq in E]; wp_steps.
  - split; [done |]. intros _ q Hq Hne. pose proof (bm_zero _ _ _ (qo_bits _ _ HQ d Hd) E q Hq) as Hz.
    unfold ready_in in Hz. by rewrite bool_decide_false in Hz.
  - eapply wp_mono; [by eapply getHighestPrio_ok | | done]. intros h k' (-> & Hp & Hne & Hmax). wp_steps.
    split; [done |]. rewrite Z.geb_leb, Z.leb_le. intros Hb q Hq Hne'. specialize (Hmax q Hq Hne'). lia.
Qed.

(** ** The choice of the next thread *)

(** The state apart from queues, the current thread and the trace of events. *)
Definition nosched (k : kstate) : kstate :=
  upd_ksCurThread (fun _ => 0) (upd_k_events (fun _ => []) (noqueues k)).

Definition has_idle (k : kstate) : Prop :=
  exists x, k_tcb k !! ksIdleThread k = Some x /\ tsType x = ThreadState_IdleThreadState.

(** [t] runs in [k'], taken from the queues of [k] if it was there. *)
Record switched (k k' : kstate) (t : Z) : Prop := {
  sw_queues : queues k';
  sw_cur : ksCurThread k' = t;
  sw_queued : forall y, queued k' y = if decide (y = t) then false else queued k y;
  sw_rest : nosched k' = nosched k }.

Lemma switchToThread_ok k t : config_ok -> queues k -> is_Some (k_tcb k !! t) ->
  wp (switchToThread t) (fun _ k' => switched k k' t) (fun _ => False) k.
Proof.
  intros Hc HQ Ht. unfold switchToThread, event. wp_steps.
  set (k0 := upd_k_events _ k). assert (queues k0) as HQ0.
  { destruct HQ as [Q [H1 H2 H3 H4 H5]]. exists Q. by split. }
  eapply wp_mono; [by apply (dequeue_view k0 t) | | done]. intros _ k1 [[HQ1 Hq] Hn]. wp_steps. split; [| done | done |].
  - destruct HQ1 as [Q [H1 H2 H3 H4 H5]]. exists Q. by split.
  - exact (f_equal (fun k => upd_ksCurThread (fun _ => 0) (upd_k_events (fun _ => []) k)) Hn).
Qed.

Lemma switchToIdleThread_ok k : queues k -> queued k (ksIdleThread k) = false ->
  wp switchToIdleThread (fun _ k' => switched k k' (ksIdleThread k)) (fun _ => False) k.
Proof.
  intros [Q [H1 H2 H3 H4 H5]] Hq. unfold switchToIdleThread, event. wp_steps. split; [| done | | done].
  - exists Q. by split.
  - intros y. case_decide; [by subst | done].
Qed.

Lemma has_idle_queued k : has_idle k -> (forall t, queued k t = true -> runnable k t = true) ->
  queued k (ksIdleThread k) = false.
Proof.
  intros (x & Hx & Es) Hr. destruct (queued k (ksIdleThread k)) eqn:E; [|done].
  apply Hr in E. unfold runnable in E. rewrite Hx in E. simpl in E. by rewrite Es in E.
Qed.

(** The thread chosen is ready, of the current domain, and no ready thread of
    that domain has a higher priority; the idle thread only if there is none. *)
Definition best_ready (k : kstate) (t : Z) : Prop :=
  (t = ksIdleThread k /\ forall y, queued k y = true -> domain k y <> ksCurDomain k) \/
  (queued k t = true /\ domain k t = ksCurDomain k /\
   forall y, queued k y = true -> domain k y = ksCurDomain k -> prio k y <= prio k t).

Lemma wp_curdom k (P : Z -> kstate -> Prop) F : dom_ok (ksCurDomain k) -> P (ksCurDomain k) k ->
  wp (if CONFIG_NUM_DOMAINS >? 1 then gets ksCurDomain else ret 0) P F k.
Proof.
  intros Hd HP. destruct (CONFIG_NUM_DOMAINS >? 1) eqn:E; wp_steps; [done |].
  replace 0 with (ksCurDomain k); [done |]. unfold dom_ok in Hd. lia.
Qed.

Lemma ready_prio Q k y : queues_ok Q k -> queued k y = true -> domain k y = ksCurDomain k ->
  prio_ok (prio k y) /\ Q (ksCurDomain k) (prio k y) <> [].
Proof.
  intros HQ Hy Ey. apply (queued_iff Q k y HQ) in Hy as [[x Hx] Hy]. rewrite Ey in Hy.
  split; [|intros E; rewrite E in Hy; set_solver]. unfold prio. rewrite Hx. by apply (qo_bounds _ _ HQ y x).
Qed.

Lemma chooseThread_ok k : config_ok -> queues k -> has_idle k -> dom_ok (ksCurDomain k) ->
  (forall t, queued k t = true -> runnable k t = true) ->
  wp chooseThread (fun _ k' => exists t, best_ready k t /\ switched k k' t) (fun _ => False) k.
Proof.
  intros Hc HQs Hid Hd Hr. pose proof HQs as [Q HQ]. unfold chooseThread. wp_steps.
  apply wp_curdom; [done |]. wp_steps. apply wp_l1_get; [done |].
  pose proof (ready_prio Q k) as Hin.
  destruct (l1 k (ksCurDomain k) =? 0) eqn:E; [apply Z.eqb_eq in E | apply Z.eqb_neq in E]; cbn [negb].
  - eapply wp_mono; [apply switchToIdleThread_ok; [done | by apply has_idle_queued] | | done].
    intros ? k' Hsw. exists (ksIdleThread k). split; [|done]. left. split; [done |]. intros y Hy Ey.
    destruct (Hin y HQ Hy Ey) as [Hp Hne]. pose proof (bm_zero _ _ _ (qo_bits _ _ HQ _ Hd) E _ Hp) as Hz.
    unfold ready_in in Hz. by rewrite bool_decide_false in Hz.
  - wp_steps. eapply wp_mono; [by eapply getHighestPrio_ok | | done]. intros p k0 (-> & Hp & Hne & Hmax). wp_steps.
    apply wp_index; [done.. |]. wp_steps. apply wp_rq_get; [done.. |].
    pose proof (qo_list _ _ HQ _ _ Hd Hp) as HL. destruct (Q (ksCurDomain k) p) as [|t r] eqn:EQ; [done |].
    rewrite (dll_hd _ _ _ _ _ HL). cbn [List.hd].
    destruct (qo_mem _ _ HQ (ksCurDomain k) p t) as (x & Hx & Hq & Ed & Ep); [done | done | rewrite EQ; set_solver |].
    assert (queued k t = true) as Hqt by (unfold queued; by rewrite Hx).
    destruct (qo_bounds _ _ HQ _ _ Hx) as (Ht & _). rewrite (proj2 (Z.eqb_neq t 0)) by lia. simpl. wp_steps.
    unfold isRunnable. wp_steps. eapply wp_tcb_get; [done | lia |]. wp_steps.
    pose proof (Hr t Hqt) as Hrt. unfold runnable in Hrt. rewrite Hx in Hrt. simpl in Hrt. rewrite Hrt. wp_steps.
    eapply wp_mono; [apply switchToThread_ok; [done | done | eauto] | | done]. intros ? k' Hsw. exists t. split; [|done].
    right. split; [done |]. unfold domain at 1, prio at 2. rewrite Hx. simpl. rewrite Ed, Ep. split; [done |].
    intros y Hy Ey. destruct (Hin y HQ Hy Ey) as [Hpy Hny]. by apply Hmax.
Qed.

(** ** The invariant *)

(** What holds at any time inside the kernel. *)
Record base_ok (k : kstate) : Prop := {
  b_queues : queues k;
  b_run : forall t, queued k t = true -> runnable k t = true;
  b_idle : has_idle k;
  b_cur : is_Some (k_tcb k !! ksCurThread k);
  b_dom : dom_ok (ksCurDomain k);
  b_idx : 0 <= ksDomScheduleIdx k < Z.of_nat (length ksDomSchedule) }.

(** The scheduler's invariant: every runnable thread is ready, running or about
    to run; a thread about to run can be switched to; and, if [strict], unless a
    new choice is pending no other ready thread outranks the current one in its
    domain. *)
Record sched_inv (strict : Prop) (k : kstate) : Prop := {
  so_base : base_ok k;
  so_all : forall t, runnable k t = true -> queued k t = true \/ t = ksCurThread k \/ t = ksSchedulerAction k;
  so_curq : ksSchedulerAction k <> 1 -> queued k (ksCurThread k) = false;
  so_cand : ksSchedulerAction k <> 0 -> ksSchedulerAction k <> 1 ->
    runnable k (ksSchedulerAction k) = true /\ domain k (ksSchedulerAction k) = ksCurDomain k /\
    ksSchedulerAction k <> ksCurThread k;
  so_top : strict -> ksSchedulerAction k <> 1 -> forall t, queued k t = true -> domain k t = ksCurDomain k ->
    t <> ksSchedulerAction k -> ksCurThread k <> ksIdleThread k /\ prio k t <= prio k (ksCurThread k);
  so_resume : ksSchedulerAction k = 0 -> runnable k (ksCurThread k) = true \/ ksCurThread k = ksIdleThread k;
  so_curdom : ksSchedulerAction k <> 1 ->
    ksCurThread k = ksIdleThread k \/ domain k (ksCurThread k) = ksCurDomain k }.
Definition sched_ok (k : kstate) : Prop := sched_inv True k.
#[local] Arguments so_base {strict} k _.

(** The current thread is the one that should run: runnable, of the current
    domain, and of the highest priority among the runnable threads of that
    domain; or the idle thread when that domain has no runnable thread. *)
Definition running_best (k : kstate) : Prop :=
  (ksCurThread k = ksIdleThread k /\ forall t, runnable k t = true -> domain k t <> ksCurDomain k) \/
  (runnable k (ksCurThread k) = true /\ domain k (ksCurThread k) = ksCurDomain k /\
   forall t, runnable k t = true -> domain k t = ksCurDomain k -> prio k t <= prio k (ksCurThread k)).

Lemma idle_not_runnable k : has_idle k -> runnable k (ksIdleThread k) = false.
Proof. intros (x & Hx & Es). unfold runnable. rewrite Hx. simpl. by rewrite Es. Qed.

Lemma runnable_bound Q k t : queues_ok Q k -> runnable k t = true -> is_Some (k_tcb k !! t) /\ 1 < t.
Proof.
  unfold runnable. intros HQ Hr. destruct (k_tcb k !! t) as [x|] eqn:E; [|done]. split; [eauto |]. by apply (qo_bounds _ _ HQ t x).
Qed.

(** With no choice pending the invariant says the right thread runs. *)
Lemma sched_ok_best k : sched_ok k -> ksSchedulerAction k = 0 -> running_best k.
Proof.
  intros [HB Hall Hcq _ Htop Hres Hcd] E0. rewrite E0 in *. destruct (b_queues _ HB) as [Q HQ].
  assert (forall t, runnable k t = true -> queued k t = true \/ t = ksCurThread k) as Hall'.
  { intros t Ht. destruct (runnable_bound _ _ _ HQ Ht). destruct (Hall t Ht) as [|[|]]; [tauto | tauto | lia]. }
  destruct (decide (ksCurThread k = ksIdleThread k)) as [Ei|Ei].
  - left. split; [done |]. intros t Ht Ed. destruct (runnable_bound _ _ _ HQ Ht). destruct (Hall' t Ht) as [Hq| ->].
    + by destruct (Htop I ltac:(lia) t Hq Ed ltac:(lia)).
    + rewrite Ei, (idle_not_runnable k (b_idle _ HB)) in Ht. done.
  - right. destruct (Hres eq_refl) as [Hr|]; [|done]. destruct (Hcd ltac:(lia)) as [|Hd]; [done |].
    split; [done |]. split; [done |]. intros t Ht Ed. destruct (runnable_bound _ _ _ HQ Ht).
    destruct (Hall' t Ht) as [Hq| ->]; [|lia]. by destruct (Htop I ltac:(lia) t Hq Ed ltac:(lia)).
Qed.

(** States that differ in queues only. *)
Lemma base_ok_queues k k' : base_ok k -> noqueues k' = noqueues k -> queues k' ->
  (forall y, queued k' y = true -> runnable k y = true) -> base_ok k'.
Proof.
  intros [B1 B2 B3 B4 B5 B6] Hn HQ' Hr. destruct (noqueues_same _ _ Hn) as (Hs & Ec & Ei & Ea & Ed & Ex). split.
  - done.
  - intros t Ht. rewrite (same_runnable _ _ _ Hs). by apply Hr.
  - destruct B3 as (x & Hx & Es). rewrite <- Ei in Hx. pose proof (st_ts _ _ Hs (ksIdleThread k')) as Et.
    rewrite Hx in Et. destruct (k_tcb k' !! ksIdleThread k') as [x'|] eqn:E; [|done]. exists x'. split; [done |].
    simpl in Et. congruence.
  - rewrite Ec. by apply (st_dom _ _ Hs).
  - by rewrite Ed.
  - by rewrite Ex.
Qed.

Lemma nosched_same k k' : nosched k' = nosched k ->
  same_threads k k' /\ ksIdleThread k' = ksIdleThread k /\
  ksSchedulerAction k' = ksSchedulerAction k /\ ksCurDomain k' = ksCurDomain k /\
  ksDomScheduleIdx k' = ksDomScheduleIdx k.
Proof.
  intros E. split_and!.
  - apply fmap_same_threads. exact (f_equal k_tcb E).
  - exact (f_equal ksIdleThread E).
  - exact (f_equal ksSchedulerAction E).
  - exact (f_equal ksCurDomain E).
  - exact (f_equal ksDomScheduleIdx E).
Qed.

(** A switch to a thread that no ready thread of the domain outranks restores
    the invariant. *)
Lemma sched_ok_switch (strict : Prop) k k' t : base_ok k -> is_Some (k_tcb k !! t) ->
  (forall y, runnable k y = true -> queued k y = true \/ y = t) ->
  (t = ksIdleThread k /\ (forall y, queued k y = true -> domain k y <> ksCurDomain k) \/
   runnable k t = true /\ domain k t = ksCurDomain k /\
     (strict -> forall y, queued k y = true -> domain k y = ksCurDomain k -> prio k y <= prio k t)) ->
  switched k k' t -> sched_inv strict (upd_ksSchedulerAction (fun _ => 0) k').
Proof.
  intros [B1 B2 B3 B4 B5 B6] Ht Hall Hbest [S1 S2 S3 S4].
  destruct (nosched_same _ _ S4) as (Hs & Ei & _ & Ed & Ex).
  assert (forall y, queued k' y = true -> queued k y = true /\ y <> t) as Hq.
  { intros y. rewrite S3. case_decide; naive_solver. }
  split; simpl.
  - split; simpl; try done.
    + destruct S1 as [Q [H1 H2 H3 H4 H5]]. exists Q. by split.
    + intros y Hy. change (runnable k' y = true). rewrite (same_runnable _ _ _ Hs). apply B2. by apply Hq.
    + destruct B3 as (x & Hx & Es). pose proof (st_ts _ _ Hs (ksIdleThread k)) as Et. rewrite Hx in Et.
      unfold has_idle. simpl. rewrite Ei. destruct (k_tcb k' !! ksIdleThread k) as [x'|]; [|done]. simpl in Et.
      exists x'. split; [done |]. congruence.
    + rewrite S2. by apply (st_dom _ _ Hs).
    + by rewrite Ed.
    + by rewrite Ex.
  - intros y Hy. change (runnable k' y = true) in Hy. rewrite (same_runnable _ _ _ Hs) in Hy.
    change (queued k' y = true \/ y = ksCurThread k' \/ y = 0). rewrite S2, S3. case_decide; [tauto |].
    destruct (Hall y Hy); tauto.
  - intros _. change (queued k' (ksCurThread k') = false). rewrite S2, S3. by rewrite decide_True.
  - done.
  - intros HS _ y Hy Ey _. change (queued k' y = true) in Hy. change (domain k' y = ksCurDomain k') in Ey.
    change (ksCurThread k' <> ksIdleThread k' /\ prio k' y <= prio k' (ksCurThread k')).
    rewrite S2, Ei, !(st_prio _ _ Hs). rewrite (st_domain _ _ Hs), Ed in Ey. apply Hq in Hy as [Hy _].
    destruct Hbest as [[-> Hn]|(Hr & Hd & Hm)]; [by destruct (Hn y Hy Ey) |]. split; [|by apply Hm].
    intros ->. by rewrite (idle_not_runnable k B3) in Hr.
  - intros _. change (runnable k' (ksCurThread k') = true \/ ksCurThread k' = ksIdleThread k').
    rewrite S2, Ei, (same_runnable _ _ _ Hs). tauto.
  - intros _. change (ksCurThread k' = ksIdleThread k' \/ domain k' (ksCurThread k') = ksCurDomain k').
    rewrite S2, Ei, (st_domain _ _ Hs), Ed. tauto.
Qed.

(** ** [schedule] *)

Lemma base_ok_domain k k' : base_ok k -> k_tcb k' = k_tcb k -> ksReadyQueues k' = ksReadyQueues k ->
  ksReadyQueuesL1Bitmap k' = ksReadyQueuesL1Bitmap k -> ksReadyQueuesL2Bitmap k' = ksReadyQueuesL2Bitmap k ->
  ksCurThread k' = ksCurThread k -> ksIdleThread k' = ksIdleThread k -> dom_ok (ksCurDomain k') ->
  0 <= ksDomScheduleIdx k' < Z.of_nat (length ksDomSchedule) -> base_ok k'.
Proof.
  intros [B1 B2 B3 B4 _ _] Et Eq E1 E2 Ec Ei Hd Hx. split; try done.
  - destruct B1 as [Q [H1 H2 H3 H4 H5]]. exists Q. split.
    + intros d p Hd' Hp. unfold rq. rewrite Eq. eapply dll_ext; [|by apply H1]. intros y _. unfold nxs, pvs. by rewrite Et.
    + intros d p t. rewrite Et. apply H2.
    + intros t x. rewrite Et. apply H3.
    + intros t x. rewrite Et. apply H4.
    + by eapply bitmaps_ext.
  - intros t. unfold queued, runnable. rewrite Et. apply B2.
  - unfold has_idle. by rewrite Et, Ei.
  - by rewrite Ec, Et.
Qed.

Lemma nextDomain_ok k : config_ok -> base_ok k ->
  wp nextDomain (fun _ k' => base_ok k' /\ k_tcb k' = k_tcb k) (fun _ => False) k.
Proof.
  intros [_ _ Hlen Hent] HB. pose proof (b_idx _ HB) as Hi. unfold nextDomain. wp_steps. simpl. unfold w64.
  rewrite (Z.mod_small (ksDomScheduleIdx k + 1)) by lia.
  assert (forall (i : Z) (k1 : kstate), 0 <= i < Z.of_nat (length ksDomSchedule) ->
    exists d len, ksDomSchedule !! Z.to_nat i = Some (d, len) /\ dom_ok d) as Hlook.
  { intros i _ Hr. destruct (ksDomSchedule !! Z.to_nat i) as [[d len]|] eqn:E.
    - exists d, len. split; [done |]. by apply (Forall_lookup_1 _ _ _ _ Hent E).
    - apply lookup_ge_None in E. lia. }
  destruct (_ >=? _) eqn:E; wp_steps; simpl.
  - destruct (Hlook 0 k ltac:(lia)) as (d & len & El & Hd). simpl in El. rewrite El. wp_steps. split; [|done].
    apply (base_ok_domain k); try done. simpl. lia.
  - rewrite Z.geb_leb, Z.leb_gt in E. destruct (Hlook (ksDomScheduleIdx k + 1) k ltac:(lia)) as (d & len & El & Hd).
    rewrite (Z.mod_small (ksDomScheduleIdx k + 1)) by lia. rewrite El. wp_steps. split; [|done].
    apply (base_ok_domain k); try done. simpl. unfold w64. rewrite Z.mod_small; lia.
Qed.

Lemma scheduleChooseNewThread_ok (strict : Prop) k : config_ok -> base_ok k ->
  (forall t, runnable k t = true -> queued k t = true) ->
  wp scheduleChooseNewThread (fun _ k' => sched_inv strict (upd_ksSchedulerAction (fun _ => 0) k')) (fun _ => False) k.
Proof.
  intros Hc HB Hall. unfold scheduleChooseNewThread. wp_steps.
  assert (forall k0, base_ok k0 -> k_tcb k0 = k_tcb k ->
    wp chooseThread (fun _ k' => sched_inv strict (upd_ksSchedulerAction (fun _ => 0) k')) (fun _ => False) k0) as Hch.
  { intros k0 HB0 Et. eapply wp_mono; [by apply chooseThread_ok; try apply HB0 | | done].
    intros ? k' (t & Hb & Hsw). eapply (sched_ok_switch _ k0 k' t HB0); [| | | done].
    - destruct Hb as [[-> _]|[Hq _]]; [destruct (b_idle _ HB0) as (x & Hx & _); eauto |].
      unfold queued in Hq. by destruct (k_tcb k0 !! t).
    - intros y Hy. left. unfold queued, runnable in *. rewrite Et in *. by apply Hall.
    - destruct Hb as [Hb|(Hq & Hd & Hm)]; [by left |]. right. split; [by apply (b_run _ HB0) | done]. }
  destruct (ksDomainTime k =? 0); wp_steps; [|by apply Hch].
  eapply wp_mono; [by apply nextDomain_ok | | done]. intros ? k0 [HB0 Et]. by apply Hch.
Qed.

(** The candidate [c] left in [ksSchedulerAction]. *)
Record candidate_ok (strict : Prop) (k : kstate) (c : Z) (was_runnable : bool) : Prop := {
  ca_base : base_ok k;
  ca_all : forall t, runnable k t = true -> queued k t = true \/ t = c;
  ca_run : runnable k c = true;
  ca_dom : domain k c = ksCurDomain k;
  ca_cur : c <> ksCurThread k;
  ca_was : was_runnable = true -> queued k (ksCurThread k) = true;
  ca_top : strict -> forall t, queued k t = true -> domain k t = ksCurDomain k -> t <> c ->
    ksCurThread k <> ksIdleThread k -> prio k t <= prio k (ksCurThread k);
  ca_rest : ksSchedulerAction k = c }.

Lemma candidate_ready strict k k' c w : candidate_ok strict k c w -> queues k' -> noqueues k' = noqueues k ->
  (forall y, queued k' y = if decide (y = c) then true else queued k y) ->
  base_ok (upd_ksSchedulerAction (fun _ => 1) k') /\
  (forall t, runnable (upd_ksSchedulerAction (fun _ => 1) k') t = true ->
             queued (upd_ksSchedulerAction (fun _ => 1) k') t = true).
Proof.
  intros [CB Call Crun _ _ _ _ _] HQ Hn Hq. destruct (noqueues_same _ _ Hn) as [Hs _].
  assert (base_ok k') as HB.
  { apply (base_ok_queues k); try done. intros y. rewrite Hq. case_decide; [by subst | apply CB]. }
  split.
  - by apply (base_ok_domain k'); try done; apply HB.
  - intros t. change (runnable k' t = true -> queued k' t = true). rewrite (same_runnable _ _ _ Hs), Hq.
    intros Ht. case_decide; [done |]. destruct (Call t Ht); [done | by subst].
Qed.

Lemma prio_of k t x : k_tcb k !! t = Some x -> prio k t = tcbPriority x.
Proof. unfold prio. by intros ->. Qed.

(** The candidate is switched to when nothing ready outranks it. *)
Lemma candidate_switch (strict : Prop) k c w : config_ok -> candidate_ok strict k c w -> is_Some (k_tcb k !! c) ->
  (strict -> forall t, queued k t = true -> domain k t = ksCurDomain k -> prio k t <= prio k c) ->
  wp (do* assert_ (negb (c =? ksCurThread k)) in switchToThread c)
    (fun _ k' => sched_inv strict (upd_ksSchedulerAction (fun _ => 0) k')) (fun _ => False) k.
Proof.
  intros Hc [CB Call Crun Cdom Ccur _ _ _] Hx Hm. wp_steps. rewrite (proj2 (Z.eqb_neq c _) Ccur). simpl. wp_steps.
  eapply wp_mono; [apply switchToThread_ok; [done | by apply CB | done] | | done]. intros ? k' Hsw.
  eapply (sched_ok_switch _ k k' c CB); [done | done | | done]. by right.
Qed.

Lemma candidate_choose (strict : Prop) k c w (m : M kstate unit) : config_ok -> candidate_ok strict k c w ->
  wp m (fun _ k' => (queues k' /\ forall y, queued k' y = if decide (y = c) then true else queued k y) /\
    noqueues k' = noqueues k) (fun _ => False) k ->
  wp (do* m in do* set_action SchedulerAction_ChooseNewThread in scheduleChooseNewThread)
    (fun _ k' => sched_inv strict (upd_ksSchedulerAction (fun _ => 0) k')) (fun _ => False) k.
Proof.
  intros Hc HC Hm. wp_steps. eapply wp_mono; [exact Hm | | done]. intros ? k1 [[HQ1 Hq1] Hn1]. unfold set_action. wp_steps.
  destruct (candidate_ready strict k k1 c w HC HQ1 Hn1 Hq1) as [HB Hall]. by apply scheduleChooseNewThread_ok.
Qed.

Lemma candidate_fastfail (strict : Prop) k c w cx (P : bool -> kstate -> Prop) F :
  config_ok -> candidate_ok strict k c w -> k_tcb k !! c = Some cx ->
  (forall b, (b = false -> ksCurThread k <> ksIdleThread k /\ prio k (ksCurThread k) <= prio k c) -> P b k) ->
  wp (if ksCurThread k =? ksIdleThread k then ret true
      else let* t := tcb_get (ksCurThread k) in ret (tcbPriority cx <? tcbPriority t)) P F k.
Proof.
  intros Hc HC Hcx HP. destruct (b_cur _ (ca_base _ _ _ _ HC)) as [x Hx]. destruct (b_queues _ (ca_base _ _ _ _ HC)) as [Q HQ].
  destruct (qo_bounds _ _ HQ _ _ Hx) as [H0 _]. destruct (_ =? _) eqn:E; wp_steps; [by apply HP |].
  apply Z.eqb_neq in E. eapply wp_tcb_get; [done | lia |]. wp_steps. apply HP. intros Hb. apply Z.ltb_ge in Hb.
  by rewrite (prio_of _ _ _ Hx), (prio_of _ _ _ Hcx).
Qed.

Lemma schedule_candidate_ok (strict : Prop) k c w : config_ok -> candidate_ok strict k c w ->
  wp (schedule_candidate c w) (fun _ k' => sched_inv strict (upd_ksSchedulerAction (fun _ => 0) k')) (fun _ => False) k.
Proof.
  intros Hc HC. pose proof HC as [CB Call Crun Cdom Ccur Cwas Ctop _]. destruct (b_queues _ CB) as [Q HQ].
  destruct (runnable_bound _ _ _ HQ Crun) as [[cx Hcx] Hc1]. destruct (b_cur _ CB) as [x Hx].
  destruct (qo_bounds _ _ HQ _ _ Hx) as [H0 _].
  unfold schedule_candidate. wp_step. eapply wp_tcb_get; [done | lia |]. wp_steps.
  apply (candidate_fastfail strict k c w cx); [done.. |]. intros fastfail Hff. wp_steps.
  assert (forall (P : bool -> kstate -> Prop) F, (forall b,
      (fastfail && negb b = false -> strict -> forall t, queued k t = true -> domain k t = ksCurDomain k -> prio k t <= prio k c) ->
      P b k) -> (forall f, False -> F f) ->
    wp (if fastfail then isHighestPrio (ksCurDomain k) (tcbPriority cx) else ret true) P F k) as Hhi.
  { intros P F HP HF. destruct fastfail; wp_steps.
    - eapply wp_mono; [by apply (isHighestPrio_ok Q); [|apply CB] | | done]. intros b k0 [-> Hb]. apply HP.
      intros Hb' _ t Hq Hd. rewrite (prio_of _ _ _ Hcx). destruct b; [|done].
      destruct (ready_prio Q k t HQ Hq Hd) as [Hp Hne]. by apply Hb.
    - apply HP. intros _ HS t Hq Hd. destruct (Hff eq_refl) as [Hni Hle]. destruct (decide (t = c)) as [->|Ht]; [done |].
      specialize (Ctop HS t Hq Hd Ht Hni). lia. }
  apply Hhi; [|done]. intros b Htop. wp_steps. clear Hhi.
  destruct (fastfail && negb b) eqn:Eb.
  - apply (candidate_choose strict k c w); [done | done |]. apply enqueue_view; [done | by apply CB | eauto].
  - specialize (Htop eq_refl). destruct w.
    + wp_steps. eapply wp_tcb_get; [done | lia |]. wp_steps. destruct (_ =? _).
      * apply (candidate_choose strict k c true); [done | done |]. apply append_view; [done | by apply CB | eauto].
      * apply (candidate_switch strict k c true); eauto.
    + wp_step. wp_step. apply (candidate_switch strict k c false); eauto.
Qed.

Lemma schedule_pending (strict : Prop) k : config_ok -> sched_inv strict k -> ksSchedulerAction k <> 0 ->
  wp (let* cur := gets ksCurThread in
      let* was_runnable := isRunnable cur in
      do* (if was_runnable then tcbSchedEnqueue cur else ret tt) in
      let* action := gets ksSchedulerAction in
      if action =? SchedulerAction_ChooseNewThread then scheduleChooseNewThread
      else schedule_candidate action was_runnable)
    (fun _ k' => sched_inv strict (upd_ksSchedulerAction (fun _ => 0) k')) (fun _ => False) k.
Proof.
  intros Hc [SB Sall Scq Scand Stop Sres Scd] E0. pose proof (b_queues _ SB) as [Q HQ]. destruct (b_cur _ SB) as [x Hx].
  destruct (qo_bounds _ _ HQ _ _ Hx) as [H0 _]. unfold isRunnable. wp_steps. eapply wp_tcb_get; [done | lia |]. wp_steps.
  set (was := isRunnable_st (tsType x)). assert (runnable k (ksCurThread k) = was) as Er by (unfold runnable; by rewrite Hx).
  assert (wp (if was then tcbSchedEnqueue (ksCurThread k) else ret tt) (fun _ k1 => (queues k1 /\
    forall y, queued k1 y = if decide (y = ksCurThread k /\ was = true) then true else queued k y) /\
    noqueues k1 = noqueues k) (fun _ => False) k) as Hen.
  { destruct was.
    - eapply wp_mono; [apply enqueue_view; [done | apply SB | eauto] | | done]. intros ? k1 [[HQ1 Hq1] Hn1].
      split; [|done]. split; [done |]. intros y. rewrite Hq1.
      destruct (decide (y = ksCurThread k)); [rewrite decide_True by done | rewrite decide_False by tauto]; done.
    - wp_steps. split; [|done]. split; [apply SB |]. intros y. rewrite decide_False; [done |]. by intros [_ ?]. }
  eapply wp_mono; [exact Hen | | done]. clear Hen. intros ? k1 [[HQ1 Hq1] Hn1]. wp_steps.
  destruct (noqueues_same _ _ Hn1) as (Hs & Ec & Ei & Ea & Ed & _). rewrite Ea.
  assert (base_ok k1) as HB1.
  { apply (base_ok_queues k); try done. intros y. rewrite Hq1.
    destruct (decide (y = ksCurThread k /\ was = true)) as [[-> Ew]|]; [by rewrite Er | by apply (b_run _ SB)]. }
  assert (forall t, runnable k1 t = true -> queued k1 t = true \/ t = ksSchedulerAction k) as Hall.
  { intros t. rewrite (same_runnable _ _ _ Hs), Hq1. intros Ht.
    destruct (decide (t = ksCurThread k /\ was = true)) as [|Hn]; [by left |].
    destruct (Sall t Ht) as [|[->|]]; [by left | | by right]. rewrite Er in Ht. tauto. }
  destruct (_ =? _) eqn:E1; [apply Z.eqb_eq in E1 | apply Z.eqb_neq in E1]; unfold SchedulerAction_ChooseNewThread in E1.
  - apply scheduleChooseNewThread_ok; [done | done |]. intros t Ht. destruct (Hall t Ht) as [|Et]; [done |].
    rewrite (same_runnable _ _ _ Hs) in Ht. destruct (runnable_bound _ _ _ HQ Ht). lia.
  - destruct (Scand E0 E1) as (C1 & C2 & C4). apply schedule_candidate_ok; [done |]. split; try done.
    + by rewrite (same_runnable _ _ _ Hs).
    + by rewrite (st_domain _ _ Hs), Ed.
    + by rewrite Ec.
    + intros Hw. rewrite Hq1, decide_True; [done |]. by rewrite Ec.
    + intros HS t. rewrite Hq1, (st_domain _ _ Hs), !(st_prio _ _ Hs), Ed, Ec. intros Hq Hd Ht _.
      destruct (decide (t = ksCurThread k /\ was = true)) as [[-> _]|]; [done |]. by apply Stop.
Qed.

(** After a choice the current thread is the best one.  Without one, it is if it
    was before: [strict] is what is needed of the state. *)
Lemma schedule_inv (strict : Prop) (k : kstate) : config_ok -> sched_inv strict k ->
  wp schedule (fun _ k' => sched_inv strict k' /\ ksSchedulerAction k' = 0) (fun _ => False) k.
Proof.
  intros Hc HS. unfold schedule, set_action. wp_steps.
  assert (forall m, wp m (fun _ k' => sched_inv strict (upd_ksSchedulerAction (fun _ => 0) k')) (fun _ => False) k ->
    wp m (fun (_ : unit) s' => wp (modify (upd_ksSchedulerAction (fun _ => SchedulerAction_ResumeCurrentThread)))
      (fun _ k' => sched_inv strict k' /\ ksSchedulerAction k' = 0) (fun _ => False) s') (fun _ => False) k) as Hend.
  { intros m Hm. eapply wp_mono; [exact Hm | | done]. intros ? k' Hk'. by wp_steps. }
  apply Hend. clear Hend. destruct (_ =? _) eqn:E0; cbn [negb].
  { wp_steps. apply Z.eqb_eq in E0. unfold SchedulerAction_ResumeCurrentThread in E0.
    replace (upd_ksSchedulerAction (fun _ => 0) k) with k; [done |]. destruct k. simpl in *. by subst. }
  apply Z.eqb_neq in E0. by apply schedule_pending.
Qed.
Lemma schedule_ok (k : kstate) : config_ok -> sched_ok k ->
  wp schedule (fun _ k' => sched_ok k' /\ running_best k' /\ ksSchedulerAction k' = 0) (fun _ => False) k.
Proof.
  intros Hc HS. eapply wp_mono; [by apply (schedule_inv True) | | done]. intros ? k' [HS' E]. split; [done |]. split; [|done].
  by apply sched_ok_best.
Qed.

End Thms.
Arguments so_base {C strict} k _.
Arguments so_all {C strict} k _ t _.
Arguments so_curq {C strict} k _ _.
Arguments so_cand {C strict} k _ _ _.
Arguments so_top {C strict} k _ _ _ t _ _ _.
Arguments so_resume {C strict} k _ _.
Arguments so_curdom {C strict} k _ _.
