(* ===== verification/KSchedSteps.v ===== *)
(** * The scheduler between kernel entries

    The operations the rest of the kernel performs on threads, as steps that
    keep the scheduler's invariant, and what follows for every reachable state. *)

From S2P Require Import Prelude Dll KCaps KState KSched KSchedInv KSchedThms.

Section Steps.
Context `{C : KConfig} {strict : Prop}.

(** ** Changes to one thread *)

(** The thread's place in the queues is as it was. *)
Definition keeps_place (x x' : tcb_t) : Prop :=
  tcbSchedNext x' = tcbSchedNext x /\ tcbSchedPrev x' = tcbSchedPrev x /\ tcbQueued x' = tcbQueued x /\
  tcbDomain x' = tcbDomain x /\ tcbPriority x' = tcbPriority x.

Lemma queues_upd k t x x' : queues k -> k_tcb k !! t = Some x -> keeps_place x x' ->
  queues (upd_k_tcb (insert t x') k).
Proof.
  intros [Q [H1 H2 H3 H4 H5]] Hx (E1 & E2 & E3 & E4 & E5). exists Q.
  assert (forall y z', k_tcb (upd_k_tcb (insert t x') k) !! y = Some z' ->
    exists z, k_tcb k !! y = Some z /\ keeps_place z z') as Hb.
  { intros y z'. simpl. destruct (decide (y = t)) as [->|].
    - rewrite lookup_insert_eq. intros [= <-]. exists x. by repeat split.
    - rewrite lookup_insert_ne by done. intros Hz. exists z'. by repeat split. }
  split.
  - intros d p Hd Hp. eapply dll_ext; [|by apply (H1 d p)]. intros y _. rewrite nxs_upd, pvs_upd.
    unfold put, nxs, pvs. case_decide; [subst; by rewrite Hx | done].
  - intros d p y Hd Hp Hy. destruct (H2 d p y Hd Hp Hy) as (z & Hz & Hq & Ed & Ep). simpl.
    destruct (decide (y = t)) as [->|]; [|rewrite lookup_insert_ne by done; eauto].
    rewrite lookup_insert_eq. exists x'. split; [done |]. rewrite Hx in Hz. simplify_eq. by rewrite E3, E4, E5.
  - intros y z' Hz' Hq. destruct (Hb y z' Hz') as (z & Hz & (_ & _ & F3 & F4 & F5)). rewrite F4, F5. apply H3; [done |]. congruence.
  - intros y z' Hz'. destruct (Hb y z' Hz') as (z & Hz & (_ & _ & _ & F4 & F5)). rewrite F4, F5. by apply (H4 y z).
  - done.
Qed.

Lemma queued_upd_same k t x x' : k_tcb k !! t = Some x -> tcbQueued x' = tcbQueued x ->
  forall y, queued (upd_k_tcb (insert t x') k) y = queued k y.
Proof. intros Hx E y. rewrite queued_upd. unfold put, queued. case_decide; [subst; by rewrite Hx | done]. Qed.

Lemma runnable_upd k t x' y :
  runnable (upd_k_tcb (insert t x') k) y = if decide (y = t) then isRunnable_st (tsType x') else runnable k y.
Proof. unfold runnable. simpl. case_decide; [subst; by rewrite lookup_insert_eq | by rewrite lookup_insert_ne]. Qed.
Lemma prio_upd k t x' y :
  prio (upd_k_tcb (insert t x') k) y = if decide (y = t) then tcbPriority x' else prio k y.
Proof. unfold prio. simpl. case_decide; [subst; by rewrite lookup_insert_eq | by rewrite lookup_insert_ne]. Qed.
Lemma domain_upd k t x' y :
  domain (upd_k_tcb (insert t x') k) y = if decide (y = t) then tcbDomain x' else domain k y.
Proof. unfold domain. simpl. case_decide; [subst; by rewrite lookup_insert_eq | by rewrite lookup_insert_ne]. Qed.

(** A thread's state set, seen from the scheduler. *)
Record state_set (k k' : kstate) (t : Z) (st : _thread_state_t) : Prop := {
  ss_queues : queues k';
  ss_queued : forall y, queued k' y = queued k y;
  ss_run : forall y, runnable k' y = if decide (y = t) then isRunnable_st st else runnable k y;
  ss_prio : forall y, prio k' y = prio k y;
  ss_domain : forall y, domain k' y = domain k y;
  ss_idle : t <> ksIdleThread k -> has_idle k -> has_idle k';
  ss_rest : exists x, k_tcb k !! t = Some x /\ k' = upd_k_tcb (insert t (upd_tsType (fun _ => st) x)) k }.

Lemma state_set_intro k t x st : queues k -> k_tcb k !! t = Some x ->
  state_set k (upd_k_tcb (insert t (upd_tsType (fun _ => st) x)) k) t st.
Proof.
  intros HQ Hx. split.
  - by apply (queues_upd k t x).
  - by apply (queued_upd_same k t x).
  - intros y. by rewrite runnable_upd.
  - intros y. rewrite prio_upd. case_decide; [|done]. subst. unfold prio. by rewrite Hx.
  - intros y. rewrite domain_upd. case_decide; [|done]. subst. unfold domain. by rewrite Hx.
  - intros Ht (xi & Hi & Ei). exists xi. simpl. by rewrite lookup_insert_ne.
  - by exists x.
Qed.

(** ** Asking for a new choice *)

(** A choice is pending and every runnable thread is in the queues, but perhaps
    the current one. *)
Definition choose_ok (k : kstate) : Prop :=
  base_ok k /\ (forall t, runnable k t = true -> queued k t = true \/ t = ksCurThread k).

Lemma choose_sched_ok k : choose_ok k -> ksSchedulerAction k = 1 -> sched_inv strict k.
Proof. intros [HB Hall] E. split; rewrite ?E; try done. intros t Ht. destruct (Hall t Ht); tauto. Qed.

(** [rescheduleRequired] queues the candidate, if there is one. *)
Lemma rescheduleRequired_ok k : config_ok -> base_ok k ->
  (ksSchedulerAction k <> 0 -> ksSchedulerAction k <> 1 -> runnable k (ksSchedulerAction k) = true) ->
  wp rescheduleRequired (fun _ k' => base_ok k' /\ same_threads k k' /\ ksSchedulerAction k' = 1 /\
    ksCurThread k' = ksCurThread k /\ ksIdleThread k' = ksIdleThread k /\ ksCurDomain k' = ksCurDomain k /\
    forall y, queued k' y = if decide (y = ksSchedulerAction k /\ y <> 0 /\ y <> 1) then true else queued k y)
    (fun _ => False) k.
Proof.
  intros Hc HB Hr. unfold rescheduleRequired, set_action, SchedulerAction_ResumeCurrentThread, SchedulerAction_ChooseNewThread.
  wp_steps. set (a := ksSchedulerAction k) in *. destruct (b_queues _ HB) as [Q HQ].
  destruct (negb (a =? 0) && negb (a =? 1)) eqn:E.
  - apply andb_true_iff in E as [E0%negb_true_iff%Z.eqb_neq E1%negb_true_iff%Z.eqb_neq].
    specialize (Hr E0 E1). destruct (runnable_bound _ _ _ HQ Hr) as [Hx _].
    eapply wp_mono; [apply enqueue_view; [done | apply HB | done] | | done].
    intros ? k1 [[HQ1 Hq1] Hn1]. wp_steps. destruct (noqueues_same _ _ Hn1) as (Hs & Ec & Ei & Ea & Ed & Ex).
    assert (base_ok k1) as HB1.
    { apply (base_ok_queues k); try done. intros y. rewrite Hq1. case_decide; [by subst | by apply HB]. }
    split; [by apply (base_ok_domain k1); try done; apply HB1 |]. split; [by destruct Hs; split |]. split_and!; try done.
    intros y. change (queued k1 y = if decide (y = a /\ y <> 0 /\ y <> 1) then true else queued k y). rewrite Hq1.
    destruct (decide (y = a)) as [->|]; [by rewrite decide_True | by rewrite decide_False by tauto].
  - wp_steps. split; [by apply (base_ok_domain k); try done; apply HB |]. split; [by split |]. split_and!; try done.
    intros y. rewrite decide_False; [done |]. intros (-> & ? & ?).
    apply andb_false_iff in E as [?%negb_false_iff%Z.eqb_eq|?%negb_false_iff%Z.eqb_eq]; done.
Qed.

Definition all_ready (k : kstate) : Prop :=
  forall t, runnable k t = true -> queued k t = true \/ t = ksCurThread k \/ t = ksSchedulerAction k.

Lemma rescheduleRequired_sched k : config_ok -> base_ok k -> all_ready k ->
  (ksSchedulerAction k <> 0 -> ksSchedulerAction k <> 1 -> runnable k (ksSchedulerAction k) = true) ->
  wp rescheduleRequired (fun _ k' => sched_inv strict k' /\ ksSchedulerAction k' = 1 /\ same_threads k k' /\
    (forall y, queued k' y = if decide (y = ksSchedulerAction k /\ y <> 0 /\ y <> 1) then true else queued k y))
    (fun _ => False) k.
Proof.
  intros Hc HB Hall Hr. eapply wp_mono; [by apply rescheduleRequired_ok | | done].
  intros ? k' (HB' & Hs & Ea & Ec & _ & _ & Hq). split; [|by split_and!]. apply choose_sched_ok; [|done]. split; [done |].
  intros t. rewrite (same_runnable _ _ _ Hs), Ec, Hq. intros Ht. destruct (b_queues _ HB) as [Q HQ].
  destruct (runnable_bound _ _ _ HQ Ht) as [_ H1].
  destruct (decide (t = ksSchedulerAction k /\ t <> 0 /\ t <> 1)) as [|Hn]; [by left |].
  destruct (Hall t Ht) as [|[|]]; [by left | by right |]. destruct Hn. split; [done |]. lia.
Qed.

(** ** Thread states *)

(** Making a blocked thread runnable: [setThreadState] has nothing to do. *)
Lemma setThreadState_runnable k t st : queues k -> is_Some (k_tcb k !! t) -> isRunnable_st st = true ->
  wp (setThreadState t st) (fun _ k' => state_set k k' t st) (fun _ => False) k.
Proof.
  intros HQ [x Hx] Hst. pose proof HQ as [Q HQ']. destruct (qo_bounds _ _ HQ' _ _ Hx) as [H0 _].
  unfold setThreadState, scheduleTCB, isRunnable. wp_steps. eapply wp_tcb_upd; [done | lia |]. wp_steps. simpl.
  pose proof (state_set_intro k t x st HQ Hx) as Hss. destruct (_ && _); wp_steps; [|done].
  eapply wp_tcb_get; [apply lookup_insert_eq | lia |]. wp_steps. simpl. rewrite Hst. wp_steps. exact Hss.
Qed.

Lemma base_ok_set k k' t st : base_ok k -> state_set k k' t st -> t <> ksIdleThread k ->
  (queued k t = true -> isRunnable_st st = true) -> base_ok k'.
Proof.
  intros [B1 B2 B3 B4 B5 B6] [S1 S2 S3 S4 S5 S6 (x & Hx & ->)] Ht Hq. split; try done.
  - intros y. rewrite S2, S3. intros Hy. case_decide; [subst; by apply Hq | by apply B2].
  - by apply S6.
  - simpl. destruct (decide (ksCurThread k = t)) as [E|]; [rewrite E, lookup_insert_eq; eauto | by rewrite lookup_insert_ne].
Qed.

(** Just after a blocked thread has been made runnable. *)
Record woken_inv (k : kstate) (t : Z) : Prop := {
  wk_base : base_ok k;
  wk_run : runnable k t = true;
  wk_all : forall y, runnable k y = true ->
    queued k y = true \/ y = ksCurThread k \/ y = ksSchedulerAction k \/ y = t;
  wk_ne : ksSchedulerAction k = 0 -> t <> ksCurThread k;
  wk_curq : ksSchedulerAction k <> 1 -> t <> ksCurThread k -> queued k (ksCurThread k) = false;
  wk_cand : ksSchedulerAction k <> 0 -> ksSchedulerAction k <> 1 ->
    runnable k (ksSchedulerAction k) = true /\ domain k (ksSchedulerAction k) = ksCurDomain k /\
    ksSchedulerAction k <> ksCurThread k /\ ksSchedulerAction k <> t;
  wk_top : strict -> ksSchedulerAction k <> 1 -> forall y, queued k y = true -> domain k y = ksCurDomain k ->
    y <> ksSchedulerAction k -> y <> t -> ksCurThread k <> ksIdleThread k /\ prio k y <= prio k (ksCurThread k);
  wk_resume : ksSchedulerAction k = 0 -> runnable k (ksCurThread k) = true \/ ksCurThread k = ksIdleThread k;
  wk_curdom : ksSchedulerAction k <> 1 ->
    ksCurThread k = ksIdleThread k \/ domain k (ksCurThread k) = ksCurDomain k;
  wk_idle : t <> ksIdleThread k }.

Lemma set_woken k k1 t st : sched_inv strict k -> state_set k k1 t st -> t <> ksIdleThread k -> runnable k t = false ->
  isRunnable_st st = true -> woken_inv k1 t.
Proof.
  intros [SB Sall Scq Scand Stop Sres Scd] HSS Hi Hnr Hst. pose proof HSS as [S1 S2 S3 S4 S5 S6 (x & Hx & Ek)].
  assert (queued k t = false) as Hqt.
  { destruct (queued k t) eqn:E; [|done]. apply (b_run _ SB) in E. congruence. }
  assert (ksCurThread k1 = ksCurThread k) as Ec by (rewrite Ek; done).
  assert (ksSchedulerAction k1 = ksSchedulerAction k) as Ea by (rewrite Ek; done).
  assert (ksCurDomain k1 = ksCurDomain k) as Ed by (rewrite Ek; done).
  assert (ksIdleThread k1 = ksIdleThread k) as Ei by (rewrite Ek; done). clear Ek.
  split; rewrite ?Ec, ?Ea, ?Ed, ?Ei, ?S2.
  - apply (base_ok_set k k1 t st); [done | done | done | congruence].
  - by rewrite S3, decide_True.
  - intros y. rewrite S3, S2. case_decide; [by right; right; right |]. intros Hy.
    destruct (Sall y Hy) as [|[|]]; [by left | by right; left | by right; right; left].
  - intros E ->. destruct (Sres E); congruence.
  - intros E1 _. by apply Scq.
  - intros E0 E1. destruct (Scand E0 E1) as (C1 & C2 & C4).
    assert (ksSchedulerAction k <> t) by (intros E; rewrite E in C1; congruence).
    rewrite S3, S5, decide_False by done. done.
  - intros HT E1 y. rewrite S2, S5, !S4. intros Hy Ey Ny _. by apply Stop.
  - intros E. rewrite S3. case_decide; [by left |]. by apply Sres.
  - intros E. rewrite S5. by apply Scd.
  - done.
Qed.

(** The three ways of [possibleSwitchTo]. *)
Lemma woken_candidate k t : woken_inv k t -> domain k t = ksCurDomain k -> ksSchedulerAction k = 0 ->
  sched_inv strict (upd_ksSchedulerAction (fun _ => t) k).
Proof.
  intros [W1 W2 W3 W5 W6 W7 W8 W9 W10 W11] Ed E0. destruct (b_queues _ W1) as [Q HQ].
  destruct (runnable_bound _ _ _ HQ W2) as [_ H1]. split; simpl.
  - apply (base_ok_domain k); try done; apply W1.
  - intros y Hy. destruct (W3 y Hy) as [|[|[E|]]]; [by left | by right; left | | by right; right].
    destruct (runnable_bound _ _ _ HQ Hy). lia.
  - intros _. apply W6; [lia | by apply W5].
  - intros _ _. split; [done |]. split; [done |]. by apply W5.
  - intros HT _ y Hy Ey Ny. destruct (runnable_bound _ _ _ HQ (b_run _ W1 y Hy)). apply W8; (done || lia).
  - lia.
  - intros _. apply W10. lia.
Qed.

Lemma woken_elsewhere k k' t : woken_inv k t -> domain k t <> ksCurDomain k -> queues k' -> noqueues k' = noqueues k ->
  (forall y, queued k' y = if decide (y = t) then true else queued k y) -> sched_inv strict k'.
Proof.
  intros [W1 W2 W3 W5 W6 W7 W8 W9 W10 W11] Hd HQ' Hn Hq. destruct (noqueues_same _ _ Hn) as (Hs & Ec & Ei & Ea & Ed & _).
  assert (ksSchedulerAction k <> 1 -> ksCurThread k <> t) as Hct.
  { intros E1 E. destruct (W10 E1) as [|E']; congruence. }
  split; rewrite ?Ec, ?Ea, ?Ed, ?Ei.
  - apply (base_ok_queues k); try done. intros y. rewrite Hq. case_decide; [by subst | apply W1].
  - intros y. rewrite (same_runnable _ _ _ Hs), Hq. intros Hy. case_decide; [by left |].
    destruct (W3 y Hy) as [|[|[|]]]; [by left | by right; left | by right; right | done].
  - intros E1. rewrite Hq, decide_False by auto. apply W6; [done |]. intros E. by apply (Hct E1).
  - intros E0 E1. destruct (W7 E0 E1) as (C1 & C2 & C3 & C4). by rewrite (same_runnable _ _ _ Hs), (st_domain _ _ Hs).
  - intros HT E1 y. rewrite Hq, (st_domain _ _ Hs), !(st_prio _ _ Hs). case_decide; [by subst |]. intros Hy Ey Ny. by apply W8.
  - intros E. rewrite (same_runnable _ _ _ Hs). by apply W9.
  - intros E. rewrite (st_domain _ _ Hs). by apply W10.
Qed.

Lemma woken_busy k t : config_ok -> woken_inv k t -> ksSchedulerAction k <> 0 ->
  wp (do* rescheduleRequired in tcbSchedEnqueue t) (fun _ k' => sched_inv strict k' /\ runnable k' t = true) (fun _ => False) k.
Proof.
  intros Hc [W1 W2 W3 W5 W6 W7 W8 W9 W10 W11] E0. wp_steps.
  eapply wp_mono; [apply rescheduleRequired_ok; [done | done | intros; by apply W7] | | done].
  intros ? k1 (HB1 & Hs1 & Ea1 & Ec1 & _ & _ & Hq1). destruct (b_queues _ W1) as [Q HQ].
  destruct (runnable_bound _ _ _ HQ W2) as [Hx H1].
  eapply wp_mono; [apply enqueue_view; [done | apply HB1 | by apply (st_dom _ _ Hs1)] | | done].
  intros ? k2 [[HQ2 Hq2] Hn2]. destruct (noqueues_same _ _ Hn2) as (Hs2 & Ec2 & _ & Ea2 & _).
  pose proof (same_trans _ _ _ Hs1 Hs2) as Hs. split; [|by rewrite (same_runnable _ _ _ Hs)].
  apply choose_sched_ok; [|congruence]. split.
  - apply (base_ok_queues k1); try done. intros y. rewrite Hq2, (same_runnable _ _ _ Hs1). case_decide; [by subst |].
    intros Hy. rewrite <- (same_runnable _ _ _ Hs1). by apply HB1.
  - intros y. rewrite (same_runnable _ _ _ Hs), Hq2, Ec2, Ec1, Hq1. intros Hy.
    destruct (decide (y = t)) as [|Hne]; [by left |].
    destruct (decide (y = ksSchedulerAction k /\ y <> 0 /\ y <> 1)) as [|Hn]; [by left |].
    destruct (runnable_bound _ _ _ HQ Hy) as [_ Hgt]. destruct (W3 y Hy) as [|[|[|]]]; [by left | by right | | done].
    destruct Hn. split; [done |]. lia.
Qed.

Lemma switch_woken (k : kstate) (t : Z) : config_ok -> woken_inv k t ->
  wp (possibleSwitchTo t) (fun _ k' => sched_inv strict k' /\ runnable k' t = true) (fun _ => False) k.
Proof.
  intros Hc HW. destruct (b_queues _ (wk_base _ _ HW)) as [Q HQ].
  destruct (runnable_bound _ _ _ HQ (wk_run _ _ HW)) as [[x Hx] Hgt].
  unfold possibleSwitchTo. wp_step. wp_step. wp_step. apply (wp_tcb_get t k x); [done | lia |].
  assert (domain k t = tcbDomain x) as Ed by (unfold domain; by rewrite Hx).
  destruct (_ =? tcbDomain x) eqn:E; cbn [negb]; [apply Z.eqb_eq in E | apply Z.eqb_neq in E].
  - wp_step. wp_step. destruct (_ =? SchedulerAction_ResumeCurrentThread) eqn:E0; cbn [negb].
    + apply Z.eqb_eq in E0. unfold set_action. wp_steps. split; [|exact (wk_run _ _ HW)].
      apply woken_candidate; [done | congruence | done].
    + apply Z.eqb_neq in E0. by apply woken_busy.
  - eapply wp_mono; [apply enqueue_view; [done | exact (b_queues _ (wk_base _ _ HW)) | eauto] | | done].
    intros ? k2 [[HQ2 Hq2] Hn2]. split; [apply (woken_elsewhere k k2 t HW); [congruence | done | done | done] |].
    destruct (noqueues_same _ _ Hn2) as [Hs _]. rewrite (same_runnable _ _ _ Hs). exact (wk_run _ _ HW).
Qed.

Lemma set_state_woken (k : kstate) (t : Z) (st : _thread_state_t) :
  sched_inv strict k -> is_Some (k_tcb k !! t) -> t <> ksIdleThread k -> runnable k t = false -> isRunnable_st st = true ->
  wp (setThreadState t st) (fun _ k' => woken_inv k' t) (fun _ => False) k.
Proof.
  intros HS Ht Hi Hnr Hst. eapply wp_mono; [apply setThreadState_runnable; [apply HS | done | done] | | done].
  intros ? k1 HSS. by apply (set_woken k k1 t st).
Qed.

(** Waking a blocked thread, as message and signal delivery do it: the thread is
    remembered as the candidate to switch to, or put in the ready queues together
    with the candidate that was already there. *)
Lemma wake_ok (k : kstate) (t : Z) (st : _thread_state_t) :
  config_ok -> sched_inv strict k -> is_Some (k_tcb k !! t) -> t <> ksIdleThread k -> runnable k t = false ->
  isRunnable_st st = true ->
  wp (do* setThreadState t st in possibleSwitchTo t) (fun _ k' => sched_inv strict k' /\ runnable k' t = true) (fun _ => False) k.
Proof.
  intros Hc HS Ht Hi Hnr Hst. rewrite wp_bind. eapply wp_mono; [by apply set_state_woken | | done].
  intros ? k1 HW. by apply switch_woken.
Qed.

(** ** Blocking *)

Lemma set_all_ready k k1 t st : sched_inv strict k -> state_set k k1 t st -> isRunnable_st st = false -> all_ready k1.
Proof.
  intros HS [_ S2 S3 _ _ _ (x & Hx & Ek)] Hst y. rewrite S3, S2.
  assert (ksCurThread k1 = ksCurThread k) as -> by (rewrite Ek; done).
  assert (ksSchedulerAction k1 = ksSchedulerAction k) as -> by (rewrite Ek; done).
  case_decide; [congruence |]. apply (so_all _ HS).
Qed.

(** A thread blocked, or removed from the queues, that is not needed for the
    pending switch. *)
Lemma blocked_sched_ok k k1 t st : sched_inv strict k -> base_ok k1 ->
  (forall y, runnable k1 y = if decide (y = t) then isRunnable_st st else runnable k y) ->
  (forall y, queued k1 y = if decide (y = t) then false else queued k y) ->
  (forall y, prio k1 y = prio k y) -> (forall y, domain k1 y = domain k y) ->
  ksCurThread k1 = ksCurThread k -> ksSchedulerAction k1 = ksSchedulerAction k ->
  ksCurDomain k1 = ksCurDomain k -> ksIdleThread k1 = ksIdleThread k ->
  isRunnable_st st = false -> ~ (t = ksCurThread k /\ ksSchedulerAction k = 0) -> t <> ksSchedulerAction k -> sched_inv strict k1.
Proof.
  intros [SB Sall Scq Scand Stop Sres Scd] HB1 S3 S2 S4 S5 Ec Ea Ed Ei Hst Hcur Hact.
  split; rewrite ?Ec, ?Ea, ?Ed, ?Ei; [done | | | | | |].
  - intros y. rewrite S3, S2. case_decide; [congruence | apply Sall].
  - intros E1. rewrite S2. case_decide; [done | by apply Scq].
  - intros E0 E1. rewrite S3, S5, decide_False by done. by apply Scand.
  - intros HT E1 y. rewrite S2, S5, !S4. case_decide; [done |]. by apply Stop.
  - intros E0. rewrite S3, decide_False by (intros E; apply Hcur; split; [by symmetry | done]). by apply Sres.
  - intros E1. rewrite S5. by apply Scd.
Qed.

Lemma setThreadState_quiet k t st : queues k -> is_Some (k_tcb k !! t) ->
  ~ (t = ksCurThread k /\ ksSchedulerAction k = 0) ->
  wp (setThreadState t st) (fun _ k' => state_set k k' t st) (fun _ => False) k.
Proof.
  intros HQ [x Hx] Hn. pose proof HQ as [Q HQ']. destruct (qo_bounds _ _ HQ' _ _ Hx) as [H0 _].
  unfold setThreadState, scheduleTCB. wp_step. eapply wp_tcb_upd; [done | lia |]. wp_step. wp_step. wp_step. wp_step. simpl.
  unfold SchedulerAction_ResumeCurrentThread.
  destruct ((t =? ksCurThread k) && (ksSchedulerAction k =? 0)) eqn:E.
  - apply andb_true_iff in E as [E1%Z.eqb_eq E2%Z.eqb_eq]. by destruct Hn.
  - wp_steps. by apply state_set_intro.
Qed.

Lemma state_set_rest k k1 t st : state_set k k1 t st ->
  ksCurThread k1 = ksCurThread k /\ ksSchedulerAction k1 = ksSchedulerAction k /\
  ksCurDomain k1 = ksCurDomain k /\ ksIdleThread k1 = ksIdleThread k /\ is_Some (k_tcb k1 !! t).
Proof. intros [_ _ _ _ _ _ (x & Hx & ->)]. split_and!; try done. simpl. rewrite lookup_insert_eq. eauto. Qed.

(** Blocking a thread that is not in the ready queues: the current thread in a
    system call, or one that was blocked already.  If it is the running thread a
    new choice is requested. *)
Lemma block_ok (k : kstate) (t : Z) (st : _thread_state_t) :
  config_ok -> sched_inv strict k -> is_Some (k_tcb k !! t) -> t <> ksIdleThread k -> t <> ksSchedulerAction k ->
  queued k t = false -> isRunnable_st st = false ->
  wp (setThreadState t st) (fun _ k' => sched_inv strict k' /\ runnable k' t = false /\ queued k' t = false /\
    is_Some (k_tcb k' !! t) /\ (t = ksCurThread k -> ksSchedulerAction k' <> 0)) (fun _ => False) k.
Proof.
  intros Hc HS Ht Hi Ha Hq Hst. pose proof (so_base _ HS) as HB.
  destruct (decide (t = ksCurThread k /\ ksSchedulerAction k = 0)) as [[Et E0]|Hn].
  - destruct Ht as [x Hx]. destruct (b_queues _ HB) as [Q HQ]. destruct (qo_bounds _ _ HQ _ _ Hx) as [H0 _].
    unfold setThreadState, scheduleTCB, isRunnable, SchedulerAction_ResumeCurrentThread. wp_step. eapply wp_tcb_upd; [done | lia |].
    wp_step. wp_step. wp_step. wp_step. simpl. rewrite <- Et, E0, Z.eqb_refl. cbn [andb Z.eqb].
    wp_step. wp_step. eapply wp_tcb_get; [apply lookup_insert_eq | lia |]. wp_step. simpl. rewrite Hst. cbn [negb].
    pose proof (state_set_intro k t x st (b_queues _ HB) Hx) as HSS. set (k1 := upd_k_tcb _ k) in *.
    assert (base_ok k1) as HB1 by (apply (base_ok_set k k1 t st HB HSS Hi); congruence).
    eapply wp_mono; [apply rescheduleRequired_sched; [done | done | by eapply set_all_ready | done] | | done].
    intros ? k2 (HS2 & Ea & Hs & Hq2). split; [done |]. rewrite (same_runnable _ _ _ Hs), (ss_run _ _ _ _ HSS), decide_True by done.
    split; [done |]. rewrite Hq2, (st_dom _ _ Hs), (ss_queued _ _ _ _ HSS). split; [|split; [|lia]].
    + rewrite decide_False; [done |]. intros (E & _). exact (Ha E).
    + simpl. rewrite lookup_insert_eq. eauto.
  - eapply wp_mono; [apply setThreadState_quiet; [apply HB | done | done] | | done]. intros ? k1 HSS.
    destruct (state_set_rest _ _ _ _ HSS) as (Ec & Ea & Ed & Ei & Ht1).
    assert (base_ok k1) as HB1 by (apply (base_ok_set k k1 t st HB HSS Hi); congruence).
    destruct HSS as [S1 S2 S3 S4 S5 _ _]. split_and!; [| | by rewrite S2 | done |].
    + apply (blocked_sched_ok k k1 t st); try done. intros y. rewrite S2. case_decide; [by subst | done].
    + by rewrite S3, decide_True.
    + rewrite Ea. intros Et E. by apply Hn.
Qed.

(** The invariant depends on the threads, the queues and the scheduler's
    variables only. *)
Record same_sched (k k' : kstate) : Prop := {
  sa_queues : queues k';
  sa_queued : forall y, queued k' y = queued k y;
  sa_threads : same_threads k k';
  sa_cur : ksCurThread k' = ksCurThread k;
  sa_action : ksSchedulerAction k' = ksSchedulerAction k;
  sa_dom : ksCurDomain k' = ksCurDomain k;
  sa_idle : ksIdleThread k' = ksIdleThread k;
  sa_idx : ksDomScheduleIdx k' = ksDomScheduleIdx k }.

Lemma has_idle_same k k' : has_idle k -> same_threads k k' -> ksIdleThread k' = ksIdleThread k -> has_idle k'.
Proof.
  intros (x & Hx & Es) Hs Ei. pose proof (st_ts _ _ Hs (ksIdleThread k)) as E. rewrite Hx in E. unfold has_idle. rewrite Ei.
  destruct (k_tcb k' !! ksIdleThread k) as [x'|]; [|done]. exists x'. split; [done |]. simpl in E. congruence.
Qed.

Lemma sched_ok_same k k' : sched_inv strict k -> same_sched k k' -> sched_inv strict k'.
Proof.
  intros [SB Sall Scq Scand Stop Sres Scd] [HQ Hq Hs Ec Ea Ed Ei Ex]. pose proof SB as [B1 B2 B3 B4 B5 B6].
  split; rewrite ?Ec, ?Ea, ?Ed, ?Ei.
  - split; [done | | by apply (has_idle_same k) | rewrite Ec; by apply (st_dom _ _ Hs) | by rewrite Ed | by rewrite Ex].
    intros y. rewrite Hq, (same_runnable _ _ _ Hs). apply B2.
  - intros y. rewrite (same_runnable _ _ _ Hs), Hq. apply Sall.
  - rewrite Hq. exact Scq.
  - rewrite (same_runnable _ _ _ Hs), (st_domain _ _ Hs). exact Scand.
  - intros HT E y. rewrite Hq, (st_domain _ _ Hs), !(st_prio _ _ Hs). by apply Stop.
  - rewrite (same_runnable _ _ _ Hs). exact Sres.
  - rewrite (st_domain _ _ Hs). exact Scd.
Qed.

Lemma base_ok_same k k' : base_ok k -> same_sched k k' -> base_ok k'.
Proof.
  intros [B1 B2 B3 B4 B5 B6] [HQ Hq Hs Ec Ea Ed Ei Ex].
  split; [done | | by apply (has_idle_same k) | rewrite Ec; by apply (st_dom _ _ Hs) | by rewrite Ed | by rewrite Ex].
  intros y. rewrite Hq, (same_runnable _ _ _ Hs). apply B2.
Qed.

Lemma woken_same k k' t : woken_inv k t -> same_sched k k' -> woken_inv k' t.
Proof.
  intros [W1 W2 W3 W5 W6 W7 W8 W9 W10 W11] Hss. pose proof Hss as [HQ Hq Hs Ec Ea Ed Ei Ex].
  split; rewrite ?Ec, ?Ea, ?Ed, ?Ei, ?Hq, ?(same_runnable _ _ _ Hs), ?(st_domain _ _ Hs); try done.
  - by apply (base_ok_same k).
  - intros y. rewrite (same_runnable _ _ _ Hs), Hq. apply W3.
  - intros HT E y. rewrite Hq, (st_domain _ _ Hs), !(st_prio _ _ Hs). by apply W8.
Qed.

Lemma same_sched_trans k1 k2 k3 : same_sched k1 k2 -> same_sched k2 k3 -> same_sched k1 k3.
Proof.
  intros [A1 A2 A3 A4 A5 A6 A7 A8] [B1 B2 B3 B4 B5 B6 B7 B8].
  split; [done | intros y; by rewrite B2 | by apply (same_trans k1 k2) | congruence..].
Qed.

Lemma same_sched_refl k : queues k -> same_sched k k.
Proof. intros HQ. by split. Qed.

Lemma requeue_same k k' : queues k' -> noqueues k' = noqueues k -> (forall y, queued k' y = queued k y) -> same_sched k k'.
Proof. intros HQ Hn Hq. destruct (noqueues_same _ _ Hn) as (Hs & Ec & Ei & Ea & Ed & Ex). by split. Qed.

(** A change to a thread that the scheduler does not see. *)
Lemma tcb_upd_same k t x x' : queues k -> k_tcb k !! t = Some x -> keeps_place x x' -> tsType x' = tsType x ->
  same_sched k (upd_k_tcb (insert t x') k).
Proof.
  intros HQ Hx Hk Et. pose proof Hk as (_ & _ & E3 & E4 & E5). split; try done.
  - by apply (queues_upd k t x).
  - by apply (queued_upd_same k t x).
  - split; intros y; rewrite ?prio_upd, ?domain_upd; simpl.
    + destruct (decide (y = t)) as [->|]; [rewrite lookup_insert_eq, Hx; split; eauto | by rewrite lookup_insert_ne].
    + destruct (decide (y = t)) as [->|]; [rewrite lookup_insert_eq, Hx; simpl; congruence | by rewrite lookup_insert_ne].
    + case_decide; [subst; unfold prio; by rewrite Hx | done].
    + case_decide; [subst; unfold domain; by rewrite Hx | done].
Qed.

(** ** Suspending: out of the queues, whatever state the thread was in *)

Lemma suspend_sched_ok k t st : config_ok -> sched_inv strict k -> is_Some (k_tcb k !! t) -> t <> ksIdleThread k ->
  t <> ksSchedulerAction k -> isRunnable_st st = false ->
  wp (do* setThreadState t st in tcbSchedDequeue t)
    (fun _ k' => sched_inv strict k' /\ runnable k' t = false /\ queued k' t = false) (fun _ => False) k.
Proof.
  intros Hc HS Ht Hi Ha Hst. pose proof (so_base _ HS) as HB. rewrite wp_bind. destruct (queued k t) eqn:Hq.
  - assert (~ (t = ksCurThread k /\ ksSchedulerAction k = 0)) as Hn.
    { intros [Et E0]. rewrite Et, (so_curq _ HS) in Hq by lia. done. }
    eapply wp_mono; [apply setThreadState_quiet; [apply HB | done | done] | | done]. intros ? k1 HSS.
    destruct (state_set_rest _ _ _ _ HSS) as (Ec & Ea & Ed & Ei & Ht1). destruct HSS as [S1 S2 S3 S4 S5 S6 (x & Hx & Ek)].
    eapply wp_mono; [apply dequeue_view; [done | done | done] | | done]. intros ? k2 [[HQ2 Hq2] Hn2].
    destruct (noqueues_same _ _ Hn2) as (Hs & Ec2 & Ei2 & Ea2 & Ed2 & Ex2).
    assert (forall y, queued k2 y = if decide (y = t) then false else queued k y) as Hq2'.
    { intros y. rewrite Hq2. case_decide; [done | apply S2]. }
    assert (base_ok k2) as HB2.
    { split; [done | | | | by rewrite Ed2, Ed; apply HB | rewrite Ex2, Ek; apply HB].
      - intros y. rewrite Hq2', (same_runnable _ _ _ Hs), S3. case_decide; [done | apply HB].
      - destruct (S6 Hi (b_idle _ HB)) as (xi & Hxi & Eti). pose proof (st_ts _ _ Hs (ksIdleThread k1)) as E.
        rewrite Hxi in E. unfold has_idle. rewrite Ei2. destruct (k_tcb k2 !! ksIdleThread k1) as [xi'|]; [|done].
        exists xi'. split; [done |]. simpl in E. congruence.
      - rewrite Ec2. apply (st_dom _ _ Hs). rewrite Ec, Ek. simpl.
        destruct (decide (ksCurThread k = t)) as [E|]; [rewrite E, lookup_insert_eq; eauto |].
        rewrite lookup_insert_ne by done. apply HB. }
    split; [|by rewrite (same_runnable _ _ _ Hs), S3, Hq2, !decide_True].
    apply (blocked_sched_ok k k2 t st); try done; try congruence.
    + intros y. rewrite (same_runnable _ _ _ Hs). apply S3.
    + intros y. by rewrite (st_prio _ _ Hs).
    + intros y. by rewrite (st_domain _ _ Hs).
  - eapply wp_mono; [by apply block_ok | | done]. intros ? k1 (HS1 & Hr1 & Hq1 & Ht1 & _).
    eapply wp_mono; [by apply (dequeue_view k1 t Hc (b_queues _ (so_base _ HS1))) | | done].
    intros ? k2 [[HQ2 Hq2] Hn2]. destruct (noqueues_same _ _ Hn2) as (Hs & _).
    split; [|by rewrite (same_runnable _ _ _ Hs), Hq2, decide_True].
    apply (sched_ok_same k1); [done |]. apply requeue_same; [done | done |]. intros y. rewrite Hq2. case_decide; [by subst | done].
Qed.

(** ** New parameters for a thread *)

(** A thread outside the queues may change its domain and priority. *)
Lemma queues_upd_unqueued k t x x' : queues k -> k_tcb k !! t = Some x -> tcbQueued x = false ->
  tcbQueued x' = false -> dom_ok (tcbDomain x') -> prio_ok (tcbPriority x') -> queues (upd_k_tcb (insert t x') k).
Proof.
  intros [Q HQ] Hx E E' Hd' Hp'. pose proof HQ as [H1 H2 H3 H4 H5]. exists Q.
  assert (forall d p, dom_ok d -> prio_ok p -> t ∉ Q d p) as Hn.
  { intros d p Hd Hp Hin. destruct (H2 d p t Hd Hp Hin) as (z & Hz & ? & _). congruence. }
  split.
  - intros d p Hd Hp. eapply dll_ext; [|by apply (H1 d p)]. intros y Hy. rewrite nxs_upd, pvs_upd.
    rewrite !put_ne by (intros ->; by apply (Hn d p)). done.
  - intros d p y Hd Hp Hy. simpl. rewrite lookup_insert_ne by (intros <-; by apply (Hn d p)). by apply H2.
  - intros y z. simpl. destruct (decide (y = t)) as [->|]; [rewrite lookup_insert_eq; congruence |].
    rewrite lookup_insert_ne by done. apply H3.
  - intros y z. simpl. destruct (decide (y = t)) as [->|].
    + rewrite lookup_insert_eq. intros [= <-]. split; [by apply (H4 t x) | done].
    + rewrite lookup_insert_ne by done. apply H4.
  - done.
Qed.

(** [k'] is [k] with another domain or priority for [t], which is in the queues
    if [b]. *)
Record reparam (k k' : kstate) (t : Z) (b : bool) : Prop := {
  rp_queues : queues k';
  rp_queued : forall y, queued k' y = if decide (y = t) then b else queued k y;
  rp_run : forall y, runnable k' y = runnable k y;
  rp_prio : forall y, y <> t -> prio k' y = prio k y;
  rp_domain : forall y, y <> t -> domain k' y = domain k y;
  rp_idle : has_idle k -> has_idle k';
  rp_dom : forall y, is_Some (k_tcb k !! y) -> is_Some (k_tcb k' !! y);
  rp_rest : ksCurThread k' = ksCurThread k /\ ksSchedulerAction k' = ksSchedulerAction k /\
    ksCurDomain k' = ksCurDomain k /\ ksIdleThread k' = ksIdleThread k /\ ksDomScheduleIdx k' = ksDomScheduleIdx k }.

Lemma reparam_ok k t x f : config_ok -> base_ok k -> k_tcb k !! t = Some x ->
  (forall z, tcbQueued (f z) = tcbQueued z /\ tsType (f z) = tsType z) ->
  dom_ok (tcbDomain (f x)) -> prio_ok (tcbPriority (f x)) ->
  (forall z, unlinked z = unlinked x -> tcbDomain (f z) = tcbDomain (f x) /\ tcbPriority (f z) = tcbPriority (f x)) ->
  wp (do* tcbSchedDequeue t in tcb_upd t f) (fun _ k' => reparam k k' t false /\
    domain k' t = tcbDomain (f x) /\ prio k' t = tcbPriority (f x)) (fun _ => False) k.
Proof.
  intros Hc HB Hx Hf Hd Hp Hz. wp_step. eapply wp_mono; [apply dequeue_view; [done | apply HB | eauto] | | done].
  intros ? k1 [[HQ1 Hq1] Hn1]. destruct (noqueues_same _ _ Hn1) as (Hs & Ec & Ei & Ea & Ed & Ex).
  destruct (noqueues_tcb _ _ _ _ Hn1 Hx) as (x1 & Hx1 & Eu). destruct (Hz x1 Eu) as [Ed1 Ep1]. destruct (Hf x1) as [Fq Ft].
  assert (tcbQueued x1 = false) as Hq1t.
  { pose proof (Hq1 t) as E. rewrite decide_True in E by done. unfold queued in E. by rewrite Hx1 in E. }
  assert (1 < t) as H0 by (destruct HQ1 as [Q HQ]; by apply (qo_bounds _ _ HQ t x1)).
  eapply wp_tcb_upd; [done | lia |]. rewrite domain_upd, prio_upd, !decide_True by done. split; [|done]. split.
  - apply (queues_upd_unqueued k1 t x1); try done; congruence.
  - intros y. rewrite (queued_upd_same k1 t x1) by done. apply Hq1.
  - intros y. rewrite runnable_upd, <- (same_runnable _ _ y Hs). case_decide; [|done]. subst. unfold runnable. by rewrite Hx1, Ft.
  - intros y Hy. rewrite prio_upd, decide_False by done. apply Hs.
  - intros y Hy. rewrite domain_upd, decide_False by done. apply Hs.
  - intros (xi & Hxi & Eti). pose proof (st_ts _ _ Hs (ksIdleThread k)) as E. rewrite Hxi in E. unfold has_idle. simpl. rewrite Ei.
    destruct (decide (ksIdleThread k = t)) as [Et|].
    + rewrite Et in *. rewrite lookup_insert_eq. eexists. split; [done |]. rewrite Ft. rewrite Hx1 in E. simpl in E. congruence.
    + rewrite lookup_insert_ne by done. destruct (k_tcb k1 !! ksIdleThread k) as [xi'|]; [|done]. exists xi'.
      split; [done |]. simpl in E. congruence.
  - intros y Hy. simpl. destruct (decide (y = t)) as [->|]; [rewrite lookup_insert_eq; eauto |].
    rewrite lookup_insert_ne by done. by apply (st_dom _ _ Hs).
  - done.
Qed.

Lemma reparam_base k k' t b : base_ok k -> reparam k k' t b -> (b = true -> runnable k t = true) -> base_ok k'.
Proof.
  intros [B1 B2 B3 B4 B5 B6] [R1 R2 R3 R4 R5 R6 R7 (Ec & Ea & Ed & Ei & Ex)] Hb. split.
  - done.
  - intros y. rewrite R2, R3. case_decide; [subst; exact Hb | apply B2].
  - by apply R6.
  - rewrite Ec. by apply R7.
  - by rewrite Ed.
  - by rewrite Ex.
Qed.

Lemma reparam_enqueue k k' t : config_ok -> base_ok k -> reparam k k' t false -> is_Some (k_tcb k !! t) ->
  runnable k t = true ->
  wp (tcbSchedEnqueue t) (fun _ k2 => reparam k k2 t true /\ domain k2 t = domain k' t) (fun _ => False) k'.
Proof.
  intros Hc HB HR Ht Hr. pose proof HR as [R1 R2 R3 R4 R5 R6 R7 (Ec & Ea & Ed & Ei & Ex)].
  eapply wp_mono; [apply enqueue_view; [done | done | by apply R7] | | done]. intros ? k2 [[HQ2 Hq2] Hn2].
  destruct (noqueues_same _ _ Hn2) as (Hs & Ec2 & Ei2 & Ea2 & Ed2 & Ex2). split; [|apply Hs]. split.
  - done.
  - intros y. rewrite Hq2, R2. by case_decide.
  - intros y. rewrite (same_runnable _ _ _ Hs). apply R3.
  - intros y Hy. rewrite (st_prio _ _ Hs). by apply R4.
  - intros y Hy. rewrite (st_domain _ _ Hs). by apply R5.
  - intros Hi. destruct (R6 Hi) as (xi & Hxi & Eti). pose proof (st_ts _ _ Hs (ksIdleThread k')) as E. rewrite Hxi in E.
    unfold has_idle. rewrite Ei2. destruct (k_tcb k2 !! ksIdleThread k') as [xi'|]; [|done]. exists xi'. split; [done |].
    simpl in E. congruence.
  - intros y Hy. apply (st_dom _ _ Hs). by apply R7.
  - split_and!; congruence.
Qed.

Lemma reparam_all_ready k k' t b : sched_inv strict k -> reparam k k' t b -> (runnable k t = true -> b = true) -> all_ready k'.
Proof.
  intros HS [R1 R2 R3 R4 R5 R6 R7 (Ec & Ea & _)] Hb y. rewrite R3, R2, Ec, Ea. intros Hy.
  case_decide; [left; subst; by apply Hb | by apply (so_all _ HS)].
Qed.

Lemma reparam_quiet k k' t b : sched_inv strict k -> reparam k k' t b -> (runnable k t = b) ->
  t <> ksCurThread k -> t <> ksSchedulerAction k ->
  (strict -> b = true -> domain k' t <> ksCurDomain k) -> sched_inv strict k'.
Proof.
  intros HS HR Hb Hc Ha Hd. pose proof HS as [SB Sall Scq Scand Stop Sres Scd].
  pose proof HR as [R1 R2 R3 R4 R5 R6 R7 (Ec & Ea & Ed & Ei & Ex)].
  split; rewrite ?Ec, ?Ea, ?Ed, ?Ei.
  - apply (reparam_base k k' t b); [done | done | congruence].
  - pose proof (reparam_all_ready k k' t b HS HR ltac:(congruence)) as Hall. intros y Hy.
    rewrite <- Ec, <- Ea. by apply Hall.
  - intros E1. rewrite R2, decide_False by done. by apply Scq.
  - intros E0 E1. rewrite R3, R5 by done. by apply Scand.
  - intros HT E1 y. rewrite R2. case_decide; [intros E; subst y; by intros ?%Hd |].
    rewrite R5, !R4 by done. by apply Stop.
  - intros E0. rewrite R3. by apply Sres.
  - intros E1. rewrite R5 by done. by apply Scd.
Qed.

Lemma reparam_finish k k' t b : sched_inv strict k -> reparam k k' t b -> runnable k t = b ->
  base_ok k' /\ all_ready k' /\
  (ksSchedulerAction k' <> 0 -> ksSchedulerAction k' <> 1 -> runnable k' (ksSchedulerAction k') = true).
Proof.
  intros HS HR Hb. split; [apply (reparam_base k k' t b); [apply HS | done | congruence] |].
  split; [apply (reparam_all_ready k k' t b HS HR); congruence |].
  destruct HR as [_ _ R3 _ _ _ _ (_ & Ea & _)]. rewrite R3, Ea. by apply (so_cand _ HS).
Qed.

Lemma wp_isRunnable k t x (P : bool -> kstate -> Prop) F : k_tcb k !! t = Some x -> t <> 0 ->
  P (runnable k t) k -> wp (isRunnable t) P F k.
Proof.
  intros Hx H0 HP. unfold isRunnable. wp_step. apply (wp_tcb_get t k x); [done | done |]. wp_steps.
  unfold runnable in HP. by rewrite Hx in HP.
Qed.

Lemma setPriority_ok k t p : config_ok -> sched_inv strict k -> is_Some (k_tcb k !! t) -> prio_ok p ->
  t <> ksSchedulerAction k \/ runnable k t = true -> (t = ksCurThread k -> runnable k t = true) ->
  wp (setPriority t p) (fun _ k' => sched_inv strict k') (fun _ => False) k.
Proof.
  intros Hc HS [x Hx] Hp Ha Hcur. pose proof (so_base _ HS) as HB. destruct (b_queues _ HB) as [Q HQ].
  destruct (qo_bounds _ _ HQ _ _ Hx) as (H0 & Hd & _). unfold setPriority. rewrite wp_bind.
  pose proof (reparam_ok k t x (upd_tcbPriority (fun _ => p)) Hc HB Hx ltac:(done) Hd Hp) as Hre.
  rewrite wp_bind in Hre. eapply wp_mono; [apply Hre | | done].
  { intros z (_ & Ez & _)%unlinked_fields. done. }
  intros ? k0 Hk0. cbv beta in Hk0. wp_step. eapply wp_mono; [exact Hk0 | | done]. clear Hre Hk0 k0.
  intros ? k1 (HR & Ed & _). destruct (rp_dom _ _ _ _ HR t ltac:(eauto)) as [x1 Hx1].
  wp_step. eapply wp_isRunnable; [exact Hx1 | lia |]. rewrite (rp_run _ _ _ _ HR).
  destruct (runnable k t) eqn:Hr; wp_steps.
  - eapply wp_mono; [apply (reparam_enqueue k k1 t); eauto | | done]. intros ? k2 [HR2 _].
    destruct (reparam_finish k k2 t true HS HR2 Hr) as (HB2 & Hall & Hcand).
    eapply wp_mono; [by apply rescheduleRequired_sched | | done]. by intros ? k3 [HS3 _].
  - apply (reparam_quiet k k1 t false HS HR Hr); [intros E; by apply Hcur in E | by destruct Ha | done].
Qed.

Lemma setDomain_ok k t d : config_ok -> sched_inv strict k -> is_Some (k_tcb k !! t) -> dom_ok d ->
  t <> ksSchedulerAction k -> (strict -> t <> ksCurThread k -> runnable k t = true -> d <> ksCurDomain k) ->
  wp (setDomain t d) (fun _ k' => sched_inv strict k') (fun _ => False) k.
Proof.
  intros Hc HS [x Hx] Hd Ha Hcur. pose proof (so_base _ HS) as HB. destruct (b_queues _ HB) as [Q HQ].
  destruct (qo_bounds _ _ HQ _ _ Hx) as (H0 & _ & Hp). unfold setDomain. rewrite wp_bind.
  pose proof (reparam_ok k t x (upd_tcbDomain (fun _ => d)) Hc HB Hx ltac:(done) Hd Hp) as Hre.
  rewrite wp_bind in Hre. eapply wp_mono; [apply Hre | | done].
  { intros z (_ & _ & Ez)%unlinked_fields. done. }
  intros ? k0 Hk0. cbv beta in Hk0. wp_step. eapply wp_mono; [exact Hk0 | | done]. clear Hre Hk0 k0.
  intros ? k1 (HR & Ed & _). simpl in Ed. destruct (rp_dom _ _ _ _ HR t ltac:(eauto)) as [x1 Hx1].
  wp_step. eapply wp_isRunnable; [exact Hx1 | lia |]. rewrite (rp_run _ _ _ _ HR). wp_step.
  assert (wp (if runnable k t then tcbSchedEnqueue t else ret tt)
    (fun _ k2 => reparam k k2 t (runnable k t) /\ domain k2 t = d) (fun _ => False) k1) as Hen.
  { destruct (runnable k t) eqn:Hr; wp_steps; [|done].
    eapply wp_mono; [apply (reparam_enqueue k k1 t); eauto | | done]. intros ? k2 [HR2 E2]. split; [done | congruence]. }
  eapply wp_mono; [exact Hen | | done]. intros ? k2 [HR2 Ed2]. wp_steps.
  destruct (rp_rest _ _ _ _ HR2) as (Ec & _). rewrite Ec. destruct (t =? ksCurThread k) eqn:E.
  - destruct (reparam_finish k k2 t _ HS HR2 eq_refl) as (HB2 & Hall & Hcand).
    eapply wp_mono; [by apply rescheduleRequired_sched | | done]. by intros ? k3 [HS3 _].
  - apply Z.eqb_neq in E. wp_steps. apply (reparam_quiet k k2 t _ HS HR2 eq_refl E Ha). rewrite Ed2. intros HT Hb. by apply Hcur.
Qed.

Lemma resched_ok k : config_ok -> sched_inv strict k -> wp rescheduleRequired (fun _ k' => sched_inv strict k') (fun _ => False) k.
Proof.
  intros Hc HS. eapply wp_mono; [apply rescheduleRequired_sched | | done]; [done | exact (so_base _ HS) | exact (so_all _ HS) | |].
  - intros E0 E1. by apply (so_cand _ HS).
  - by intros ? k' [HS' _].
Qed.

Lemma timerTick_ok k : config_ok -> sched_inv strict k -> wp timerTick (fun _ k' => sched_inv strict k') (fun _ => False) k.
Proof.
  intros Hc HS. pose proof (so_base _ HS) as HB. destruct (b_queues _ HB) as [Q HQ]. destruct (b_cur _ HB) as [x Hx].
  destruct (qo_bounds _ _ HQ _ _ Hx) as (H0 & _). unfold timerTick. wp_step. wp_step. wp_step.
  eapply wp_tcb_get; [done | lia |]. wp_step.
  assert (forall v, keeps_place x (upd_tcbTimeSlice (fun _ => v) x)) as Hk by (intros v; by repeat split).
  assert (wp (if bool_decide (tsType x = ThreadState_Running) then
      if tcbTimeSlice x >? 1 then tcb_upd (ksCurThread k) (upd_tcbTimeSlice (fun n => n - 1))
      else do* tcb_upd (ksCurThread k) (upd_tcbTimeSlice (fun _ => CONFIG_TIME_SLICE)) in
           do* tcbSchedAppend (ksCurThread k) in rescheduleRequired
    else ret tt) (fun _ k' => sched_inv strict k') (fun _ => False) k) as Hslice.
  { case_bool_decide as Er; [|by wp_steps]. destruct (_ >? 1).
    - eapply wp_tcb_upd; [done | lia |]. apply (sched_ok_same k); [done |]. by apply (tcb_upd_same k _ x); [apply HB | | |].
    - wp_step. eapply wp_tcb_upd; [done | lia |]. set (k1 := upd_k_tcb _ k).
      assert (same_sched k k1) as Hs1 by by apply (tcb_upd_same k _ x); [apply HB | | |].
      pose proof (sched_ok_same _ _ HS Hs1) as HS1. wp_step.
      eapply wp_mono; [apply append_view; [done | apply HS1 | by apply (b_cur _ (so_base _ HS1))] | | done].
      intros ? k2 [[HQ2 Hq2] Hn2]. destruct (noqueues_same _ _ Hn2) as (Hs & Ec & Ei & Ea & Ed & _).
      eapply wp_mono; [apply rescheduleRequired_sched | | done]; [done | | | | by intros ? k3 [HS3 _]].
      + apply (base_ok_queues k1); [apply HS1 | done | done |]. intros y. rewrite Hq2. case_decide; [|apply HS1].
        subst y. rewrite (same_runnable _ _ _ (sa_threads _ _ Hs1)). unfold runnable. rewrite Hx. simpl. by rewrite Er.
      + intros y. rewrite (same_runnable _ _ _ Hs), Hq2, Ec, Ea. intros Hy. case_decide; [by left |].
        by apply (so_all _ HS1).
      + rewrite (same_runnable _ _ _ Hs), Ea. intros E0 E1. by apply (so_cand _ HS1). }
  eapply wp_mono; [exact Hslice | | done]. intros ? k1 HS1. destruct (CONFIG_NUM_DOMAINS >? 1); wp_steps; [|done].
  assert (sched_inv strict (upd_ksDomainTime (fun n => w64 (n - 1)) k1)) as HS2.
  { apply (sched_ok_same k1); [done |]. destruct (b_queues _ (so_base _ HS1)) as [Q1 [H1 H2 H3 H4 H5]].
    split; try done. exists Q1. by split. }
  destruct (_ =? 0); [by apply resched_ok | by wp_steps].
Qed.

(** ** Resuming

    [restart] queues the thread before it calls [possibleSwitchTo], which may make
    a queued thread the candidate. *)

Lemma woken_enqueue k t : config_ok -> woken_inv k t -> wp (tcbSchedEnqueue t) (fun _ k' => woken_inv k' t) (fun _ => False) k.
Proof.
  intros Hc [W1 W2 W3 W5 W6 W7 W8 W9 W10 W11]. destruct (b_queues _ W1) as [Q HQ]. destruct (runnable_bound _ _ _ HQ W2) as [Ht _].
  eapply wp_mono; [apply enqueue_view; [done | apply W1 | done] | | done]. intros ? k1 [[HQ1 Hq1] Hn1].
  destruct (noqueues_same _ _ Hn1) as (Hs & Ec & Ei & Ea & Ed & _).
  split; rewrite ?Ec, ?Ea, ?Ed, ?Ei, ?(same_runnable _ _ _ Hs), ?(st_domain _ _ Hs); try done.
  - apply (base_ok_queues k); try done. intros y. rewrite Hq1. case_decide; [by subst | apply W1].
  - intros y. rewrite (same_runnable _ _ _ Hs), Hq1. intros Hy. case_decide; [by left | by apply W3].
  - intros E1 Hne. rewrite Hq1, decide_False by done. by apply W6.
  - intros HT E1 y. rewrite Hq1, (st_domain _ _ Hs), !(st_prio _ _ Hs). case_decide; [by subst | by apply W8].
Qed.
Lemma restart_sched_ok k t st : config_ok -> sched_inv strict k -> is_Some (k_tcb k !! t) -> t <> ksIdleThread k -> runnable k t = false ->
  isRunnable_st st = true ->
  wp (do* setThreadState t st in do* tcbSchedEnqueue t in possibleSwitchTo t)
    (fun _ k' => sched_inv strict k' /\ runnable k' t = true) (fun _ => False) k.
Proof.
  intros Hc HS Ht Hi Hnr Hst. rewrite wp_bind. eapply wp_mono; [by apply set_state_woken | | done]. intros ? k1 HW.
  rewrite wp_bind. eapply wp_mono; [by apply woken_enqueue | | done]. intros ? k2 HW2. by apply switch_woken.
Qed.
End Steps.
Arguments wk_base {C strict} k t _.
Arguments wk_run {C strict} k t _.
Arguments wk_cand {C strict} k t _ _ _.
Definition woken `{C : KConfig} (k : kstate) (t : Z) : Prop := woken_inv (strict := True) k t.

(** ** Every sequence of operations *)

Section Sequences.
Context `{C : KConfig}.

(** One thing the kernel does to its threads, under the condition the calling
    code establishes: a thread that is woken or resumed was blocked, a thread
    that blocks is not in the ready queues, and the thread a switch is pending to
    is left alone.  With [strict], no runnable thread but the current one is
    moved into the current domain, which the code does not check. *)
Inductive kstep (strict : Prop) : kstate -> kstate -> Prop :=
| step_wake k k' t st : is_Some (k_tcb k !! t) -> t <> ksIdleThread k -> runnable k t = false ->
    isRunnable_st st = true -> (do* setThreadState t st in possibleSwitchTo t) k = inl (tt, k') -> kstep strict k k'
| step_resume k k' t st : is_Some (k_tcb k !! t) -> t <> ksIdleThread k -> runnable k t = false ->
    isRunnable_st st = true -> (do* setThreadState t st in do* tcbSchedEnqueue t in possibleSwitchTo t) k = inl (tt, k') -> kstep strict k k'
| step_block k k' t st : is_Some (k_tcb k !! t) -> t <> ksIdleThread k -> t <> ksSchedulerAction k ->
    queued k t = false -> isRunnable_st st = false -> setThreadState t st k = inl (tt, k') -> kstep strict k k'
| step_suspend k k' t st : is_Some (k_tcb k !! t) -> t <> ksIdleThread k -> t <> ksSchedulerAction k ->
    isRunnable_st st = false -> (do* setThreadState t st in tcbSchedDequeue t) k = inl (tt, k') -> kstep strict k k'
| step_setPriority k k' t p : is_Some (k_tcb k !! t) -> prio_ok p ->
    t <> ksSchedulerAction k \/ runnable k t = true -> (t = ksCurThread k -> runnable k t = true) ->
    setPriority t p k = inl (tt, k') -> kstep strict k k'
| step_setDomain k k' t d : is_Some (k_tcb k !! t) -> dom_ok d -> t <> ksSchedulerAction k ->
    (strict -> t <> ksCurThread k -> runnable k t = true -> d <> ksCurDomain k) ->
    setDomain t d k = inl (tt, k') -> kstep strict k k'
| step_tick k k' : timerTick k = inl (tt, k') -> kstep strict k k'
| step_resched k k' : rescheduleRequired k = inl (tt, k') -> kstep strict k k'
| step_schedule k k' : schedule k = inl (tt, k') -> kstep strict k k'.

Lemma kstep_sched_ok (strict : Prop) k k' : config_ok -> sched_inv strict k -> kstep strict k k' -> sched_inv strict k'.
Proof.
  intros Hc HS Hst. destruct Hst as [k k' t st H1 H2 H3 H4 E|k k' t st H1 H2 H3 H4 E|k k' t st H1 H2 H3 H4 H5 E|k k' t st H1 H2 H3 H4 E
    |k k' t p H1 H2 H3 H4 E|k k' t d H1 H2 H3 H4 E|k k' E|k k' E|k k' E].
  - by destruct (wp_run _ _ _ _ _ _ (wake_ok k t st Hc HS H1 H2 H3 H4) E).
  - by destruct (wp_run _ _ _ _ _ _ (restart_sched_ok k t st Hc HS H1 H2 H3 H4) E).
  - by destruct (wp_run _ _ _ _ _ _ (block_ok k t st Hc HS H1 H2 H3 H4 H5) E).
  - by destruct (wp_run _ _ _ _ _ _ (suspend_sched_ok k t st Hc HS H1 H2 H3 H4) E).
  - exact (wp_run _ _ _ _ _ _ (setPriority_ok k t p Hc HS H1 H2 H3 H4) E).
  - exact (wp_run _ _ _ _ _ _ (setDomain_ok k t d Hc HS H1 H2 H3 H4) E).
  - exact (wp_run _ _ _ _ _ _ (timerTick_ok k Hc HS) E).
  - exact (wp_run _ _ _ _ _ _ (resched_ok k Hc HS) E).
  - by destruct (wp_run _ _ _ _ _ _ (schedule_inv strict k Hc HS) E).
Qed.

Lemma sched_strict (strict : Prop) k : strict -> sched_inv strict k -> sched_ok k.
Proof. intros H [S1 S2 S3 S4 S5 S6 S7]. by split; [.. | intros _; apply S5 | |]. Qed.

(** C4: Through any sequence of wake-ups, resuming, blocking, suspension, changes
    of priority and domain, timer ticks and scheduling decisions the ready queues
    stay consistent, [schedule] always runs to its end, and once a new choice is
    requested it leaves the best runnable thread of the current domain running.
    If ([strict]) no runnable thread other than the current one is moved into the
    current domain, then [schedule] leaves the best thread running at every
    point, whether or not a choice was requested.  The restriction is not one
    the code enforces: [setDomain] does not ask for a choice then, and
    [domain_move_unnoticed] shows that the best thread then does not run. *)
Theorem scheduler_always_best (strict : Prop) (k k' : kstate) : config_ok -> sched_inv strict k -> rtc (kstep strict) k k' ->
  sched_inv strict k' /\
  wp schedule (fun _ k'' => sched_inv strict k'' /\ (strict -> running_best k'')) (fun _ => False) k' /\
  wp (do* rescheduleRequired in schedule) (fun _ k'' => sched_ok k'' /\ running_best k'') (fun _ => False) k'.
Proof.
  intros Hc HS Hst. assert (sched_inv strict k') as HS'.
  { induction Hst as [k|k k1 k' H1 _ IH]; [done |]. apply IH. by apply (kstep_sched_ok strict k). }
  split; [done |]. split.
  - eapply wp_mono; [by apply schedule_inv | | done]. intros ? k'' [HS2 Ea]. split; [done |]. intros Hs.
    apply sched_ok_best; [by apply (sched_strict strict) | done].
  - wp_steps. eapply wp_mono; [apply (rescheduleRequired_sched (strict := True)); [done | apply HS' | exact (so_all _ HS') | ] | | done].
    + intros E0 E1. by apply (so_cand _ HS').
    + intros ? k1 [HS1 _]. eapply wp_mono; [by apply schedule_ok | | done]. by intros ? k'' (? & ? & _).
Qed.

(** C27: The doubly linked ready queues with their two-level bitmap implement one
    list of threads per domain and priority: [tcbSchedEnqueue] adds a thread that
    is not queued at the front, [tcbSchedAppend] at the back, [tcbSchedDequeue]
    takes a thread out wherever it is, and each does nothing otherwise.  None of
    them faults, and nothing but queue links, marks and bitmaps changes. *)
Theorem ready_queues_are_lists (Q : Z -> Z -> list Z) (k : kstate) (t : Z) (x : tcb_t) :
  config_ok -> queues_ok Q k -> k_tcb k !! t = Some x ->
  let d := tcbDomain x in let p := tcbPriority x in
  wp (tcbSchedEnqueue t) (fun _ k' => queues_ok (if tcbQueued x then Q else put2 Q d p (t :: Q d p)) k' /\
    noqueues k' = noqueues k) (fun _ => False) k /\
  wp (tcbSchedAppend t) (fun _ k' => queues_ok (if tcbQueued x then Q else put2 Q d p (Q d p ++ [t])) k' /\
    noqueues k' = noqueues k) (fun _ => False) k /\
  wp (tcbSchedDequeue t) (fun _ k' => queues_ok (if tcbQueued x then without Q d p t else Q) k' /\
    noqueues k' = noqueues k) (fun _ => False) k.
Proof. intros Hc HQ Hx d p. split; [by apply enqueue_ok | split; [by apply append_ok | by apply dequeue_ok]]. Qed.

(** Empty queues. *)
Lemma empty_queues_ok k : ksReadyQueues k = ∅ -> ksReadyQueuesL1Bitmap k = ∅ -> ksReadyQueuesL2Bitmap k = ∅ ->
  map_Forall (fun t x => 1 < t /\ dom_ok (tcbDomain x) /\ prio_ok (tcbPriority x) /\ tcbQueued x = false) (k_tcb k) ->
  queues_ok (fun _ _ => []) k.
Proof.
  intros E1 E2 E3 Ht. split.
  - intros d p _ _. unfold rq. rewrite E1. apply dll_nil.
  - intros d p t _ _ Hin. set_solver.
  - intros t x Hx Hq. destruct (Ht t x Hx) as (_ & _ & _ & ?). congruence.
  - intros t x Hx. destruct (Ht t x Hx) as (? & ? & ? & _). done.
  - intros d _. unfold l1, l2. rewrite E2. split.
    + intros i Hi. rewrite E3. by rewrite Z.testbit_0_l, andb_false_r.
    + done.
    + intros i Hi. by rewrite E3.
    + intros p Hp. by rewrite E3, Z.testbit_0_l.
Qed.

End Sequences.

(** ** A system of three threads

    The idle thread runs; the thread at 8192 has just been woken and is the
    candidate to switch to; the thread at 12288 is blocked. *)
Definition demo_tcb (st : _thread_state_t) (p : Z) : tcb_t :=
  mkTcb ∅ st false 0 0 false false false 0 seL4_Fault_NullFault lookup_fault_invalid_root 0 255 p 5 0 0 0 0 0 0.
Definition demo_k : kstate :=
  mkK (<[4096 := demo_tcb ThreadState_IdleThreadState 0]> (<[8192 := demo_tcb ThreadState_Restart 100]>
        {[12288 := demo_tcb ThreadState_BlockedOnReceive 200]}))
    ∅ ∅ ∅ ∅ ∅ ∅ ∅ 4096 4096 8192 0 1 0 0 ∅ ∅ lookup_fault_invalid_root seL4_Fault_NullFault
    (mkErr 0 0 0 0 0 false seL4_NoError) [0; 0; 0] [].

Lemma demo_config_ok : @config_ok default_config.
Proof. split; [done | done | done |]. repeat constructor; done. Qed.

Lemma demo_runnable t : runnable demo_k t = true -> t = 8192.
Proof.
  unfold runnable, demo_k. simpl. destruct (decide (t = 4096)) as [->|]; [done |]. rewrite lookup_insert_ne by done.
  destruct (decide (t = 8192)) as [->|]; [done |]. rewrite lookup_insert_ne by done.
  destruct (decide (t = 12288)) as [->|]; [done |]. by rewrite lookup_singleton_ne.
Qed.

Lemma demo_unqueued : map_Forall (fun t x => 1 < t /\ @dom_ok default_config (tcbDomain x) /\ prio_ok (tcbPriority x) /\
  tcbQueued x = false) (k_tcb demo_k).
Proof.
  unfold demo_k. simpl. apply map_Forall_insert_2; [done |]. apply map_Forall_insert_2; [done |].
  by apply map_Forall_singleton.
Qed.

Lemma demo_queued t : queued demo_k t = false.
Proof.
  unfold queued. destruct (k_tcb demo_k !! t) as [x|] eqn:E; [|done].
  by destruct (demo_unqueued t x E) as (_ & _ & _ & ?).
Qed.

Lemma demo_queues_ok : @queues_ok default_config (fun _ _ => []) demo_k.
Proof. by apply empty_queues_ok, demo_unqueued. Qed.

Lemma demo_sched_ok : @sched_ok default_config demo_k.
Proof.
  split.
  - split; [| | | | done | done].
    + eexists. exact demo_queues_ok.
    + intros t. by rewrite demo_queued.
    + by eexists.
    + by eexists.
  - intros t Ht. right. right. by apply demo_runnable.
  - intros _. apply demo_queued.
  - intros _ _. done.
  - intros _ _ t. by rewrite demo_queued.
  - done.
  - intros _. by left.
Qed.

(** After one scheduling decision, which switches to the thread just woken. *)
Definition demo_k1 : kstate := match @schedule default_config demo_k with inl (_, k) => k | inr _ => demo_k end.

Lemma scheduler_always_best_witness : ksCurThread demo_k1 = 8192 /\
  wp (@schedule default_config) (fun _ k => running_best k) (fun _ => False) demo_k1.
Proof.
  split; [vm_compute; reflexivity |].
  destruct (@scheduler_always_best default_config True demo_k demo_k1) as (_ & H & _); [exact demo_config_ok | exact demo_sched_ok | |].
  - apply rtc_once. apply step_schedule. vm_compute. reflexivity.
  - eapply wp_mono; [exact H | | done]. intros ? k [_ Hb]. by apply Hb.
Defined.

(** With two domains of which the first is the current one: a thread of priority
    200 in the second domain is woken and then moved into the first, where a
    thread of priority 100 runs.  No choice is requested, and the thread of
    priority 100 goes on. *)
Definition two_domains : KConfig := mkKConfig 2 5 [(0, 1)] 0x1000000 0xffffff8000200000.
Definition demo_domains : kstate :=
  upd_k_tcb (insert 12288 (upd_tcbDomain (fun _ => 1) (demo_tcb ThreadState_BlockedOnReceive 200))) demo_k1.
Lemma domain_move_unnoticed : exists k', (do* @setThreadState two_domains 12288 ThreadState_Running in do* @possibleSwitchTo two_domains 12288 in
    do* @setDomain two_domains 12288 0 in @schedule two_domains) demo_domains = inl (tt, k') /\
  ksCurThread k' = 8192 /\ runnable k' 12288 = true /\ domain k' 12288 = ksCurDomain k' /\ prio k' 8192 < prio k' 12288.
Proof. eexists. split; [vm_compute; reflexivity |]. split_and!; vm_compute; reflexivity. Qed.

Lemma ready_queues_are_lists_witness : let x := demo_tcb ThreadState_Restart 100 in
  wp (@tcbSchedEnqueue default_config 8192) (fun _ k' => @queues_ok default_config
      (if tcbQueued x then fun _ _ => [] else put2 (fun _ _ => []) (tcbDomain x) (tcbPriority x) (8192 :: [])) k' /\
    noqueues k' = noqueues demo_k) (fun _ => False) demo_k.
Proof.
  intros x. exact (proj1 (@ready_queues_are_lists default_config (fun _ _ => []) demo_k 8192 x
    demo_config_ok demo_queues_ok eq_refl)).
Defined.
