(* ===== verification/KCspace.v ===== *)
(** * Looking up capabilities

    kernel/src/kernel/cspace.c: a capability pointer is resolved through a graph
    of CNodes, each consuming the bits of its guard and its radix. *)

From S2P Require Import Prelude KCaps KState KSched.
From S2P Require Import KCapThms.
From Equations Require Import Equations.

(** [tcbCTable], ... of [enum tcb_cnode_index]. *)
Definition tcbCTable : Z := 0.
Definition tcbVTable : Z := 1.
Definition tcbReply : Z := 2.
Definition tcbCaller : Z := 3.
Definition tcbBuffer : Z := 4.

(** [resolveAddressBits_ret_t]. *)
Record resolveAddressBits_ret_t : Type := mkRes {
  res_status : exception_t;
  res_slot : Z;
  res_bitsRemaining : Z }.

Definition set_lookup_fault (f : lookup_fault_t) : M kstate unit := modify (upd_current_lookup_fault (fun _ => f)).

(** The loop; one round per CNode. *)
Fixpoint resolve_loop (fuel : nat) (nodeCap : cap) (capptr n_bits n_total : Z) : M kstate resolveAddressBits_ret_t :=
  match fuel with
  | O => fail NoFuel
  | S fuel =>
    match nodeCap with
    | cap_cnode_cap radixBits guardBits capGuard ptr =>
        let levelBits := w64 (radixBits + guardBits) in
        do* assert_ (negb (levelBits =? 0)) in
        let guard := Z.land (Z.shiftr capptr (Z.land (w64 (n_bits - guardBits)) (MASK wordRadix))) (MASK guardBits) in
        if (guardBits >? n_bits) || negb (guard =? capGuard) then
          do* set_lookup_fault (lookup_fault_guard_mismatch capGuard n_bits guardBits) in
          ret (mkRes EXCEPTION_LOOKUP_FAULT 0 n_total)
        else if levelBits >? n_bits then
          do* set_lookup_fault (lookup_fault_depth_mismatch levelBits n_bits) in
          ret (mkRes EXCEPTION_LOOKUP_FAULT 0 n_total)
        else
          let offset := Z.land (Z.shiftr capptr (n_bits - levelBits)) (MASK radixBits) in
          let slot := w64 (ptr + offset * cte_size) in
          if n_bits <=? levelBits then ret (mkRes EXCEPTION_NONE slot 0)
          else
            let n_bits := n_bits - levelBits in
            let* c := cte_get slot in
            match cte_cap c with
            | cap_cnode_cap _ _ _ _ => resolve_loop fuel (cte_cap c) capptr n_bits n_total
            | _ => ret (mkRes EXCEPTION_NONE slot n_bits)
            end
    | _ => fail AssertFail
    end
  end.

(** Every round but the last consumes at least one of the [n_bits <= 64] bits. *)
Definition resolve_fuel : nat := 65.

Definition resolveAddressBits (nodeCap : cap) (capptr n_bits : Z) : M kstate resolveAddressBits_ret_t :=
  match nodeCap with
  | cap_cnode_cap _ _ _ _ => resolve_loop resolve_fuel nodeCap capptr n_bits n_bits
  | _ =>
      do* set_lookup_fault lookup_fault_invalid_root in
      ret (mkRes EXCEPTION_LOOKUP_FAULT 0 n_bits)
  end.

Definition lookupSlot (thread capptr : Z) : M kstate (exception_t * Z) :=
  let* c := cte_get (TCB_PTR_CTE_PTR thread tcbCTable) in
  let* res_ret := resolveAddressBits (cte_cap c) capptr wordBits in
  ret (res_status res_ret, res_slot res_ret).

Definition lookupCap (thread cPtr : Z) : M kstate (exception_t * cap) :=
  let* '(status, slot) := lookupSlot thread cPtr in
  if bool_decide (status = EXCEPTION_NONE) then let* c := cte_get slot in ret (EXCEPTION_NONE, cte_cap c)
  else ret (status, cap_null_cap).

Definition lookupCapAndSlot (thread cPtr : Z) : M kstate (exception_t * cap * Z) :=
  let* '(status, slot) := lookupSlot thread cPtr in
  if bool_decide (status = EXCEPTION_NONE) then let* c := cte_get slot in ret (EXCEPTION_NONE, cte_cap c, slot)
  else ret (status, cap_null_cap, 0).

(** Fields of [current_syscall_error]; the others keep their value. *)
Definition err_FailedLookup (wasSource : bool) : M kstate unit :=
  modify (upd_current_syscall_error (fun e => mkErr (invalidArgumentNumber e) (invalidCapNumber e)
    (rangeErrorMin e) (rangeErrorMax e) (memoryLeft e) wasSource seL4_FailedLookup)).
Definition err_RangeError (lo hi : Z) : M kstate unit :=
  modify (upd_current_syscall_error (fun e => mkErr (invalidArgumentNumber e) (invalidCapNumber e)
    lo hi (memoryLeft e) (failedLookupWasSource e) seL4_RangeError)).
Definition err_InvalidArgument (n : Z) : M kstate unit :=
  modify (upd_current_syscall_error (fun e => mkErr n (invalidCapNumber e)
    (rangeErrorMin e) (rangeErrorMax e) (memoryLeft e) (failedLookupWasSource e) seL4_InvalidArgument)).
Definition err_InvalidCapability (n : Z) : M kstate unit :=
  modify (upd_current_syscall_error (fun e => mkErr (invalidArgumentNumber e) n
    (rangeErrorMin e) (rangeErrorMax e) (memoryLeft e) (failedLookupWasSource e) seL4_InvalidCapability)).
Definition err_NotEnoughMemory (n : Z) : M kstate unit :=
  modify (upd_current_syscall_error (fun e => mkErr (invalidArgumentNumber e) (invalidCapNumber e)
    (rangeErrorMin e) (rangeErrorMax e) n (failedLookupWasSource e) seL4_NotEnoughMemory)).
Definition err_type_only (t : seL4_Error) : M kstate unit :=
  modify (upd_current_syscall_error (fun e => mkErr (invalidArgumentNumber e) (invalidCapNumber e)
    (rangeErrorMin e) (rangeErrorMax e) (memoryLeft e) (failedLookupWasSource e) t)).

Definition lookupSlotForCNodeOp (isSource : bool) (root : cap) (capptr depth : Z) : M kstate (exception_t * Z) :=
  match root with
  | cap_cnode_cap _ _ _ _ =>
      if (depth <? 1) || (depth >? wordBits) then
        do* err_RangeError 1 wordBits in ret (EXCEPTION_SYSCALL_ERROR, 0)
      else
        let* res_ret := resolveAddressBits root capptr depth in
        if negb (bool_decide (res_status res_ret = EXCEPTION_NONE)) then
          do* err_FailedLookup isSource in ret (EXCEPTION_SYSCALL_ERROR, 0)
        else if negb (res_bitsRemaining res_ret =? 0) then
          do* err_FailedLookup isSource in
          do* set_lookup_fault (lookup_fault_depth_mismatch 0 (res_bitsRemaining res_ret)) in
          ret (EXCEPTION_SYSCALL_ERROR, 0)
        else ret (EXCEPTION_NONE, res_slot res_ret)
  | _ =>
      do* err_FailedLookup isSource in
      do* set_lookup_fault lookup_fault_invalid_root in
      ret (EXCEPTION_SYSCALL_ERROR, 0)
  end.

Definition lookupSourceSlot (root : cap) (capptr depth : Z) := lookupSlotForCNodeOp true root capptr depth.
Definition lookupTargetSlot (root : cap) (capptr depth : Z) := lookupSlotForCNodeOp false root capptr depth.
Definition lookupPivotSlot (root : cap) (capptr depth : Z) := lookupSlotForCNodeOp true root capptr depth.

(** ** Paths through the graph of CNodes

    The reference: the address as a list of bits, a guard as a prefix to strip,
    a radix as the number of bits that select a slot. *)

Fixpoint path_of (n : nat) (c : Z) : list bool :=
  match n with O => [] | S n => Z.testbit c (Z.of_nat n) :: path_of n c end.
Fixpoint bits_value (l : list bool) : Z :=
  match l with [] => 0 | b :: l => Z.b2z b * 2 ^ Z.of_nat (length l) + bits_value l end.

Inductive path_result : Type :=
| Found (slot : Z) (left : nat)
| GuardMismatch (guard : Z) (left : nat) (guardSize : Z)
| DepthMismatch (level : Z) (left : nat)
| Stuck.

(** One CNode: a result, or the next CNode with the bits that are left. *)
Definition next_level (slots : gmap Z cte_t) (c : cap) (path : list bool) : path_result + (cap * list bool) :=
  match c with
  | cap_cnode_cap radix guardSize guard ptr =>
      let g := Z.to_nat guardSize in let r := Z.to_nat radix in
      if decide (g + r = 0)%nat then inl Stuck
      else if decide (take g path <> path_of g guard) then inl (GuardMismatch guard (length path) guardSize)
      else if decide (length path < g + r)%nat then inl (DepthMismatch (radix + guardSize) (length path))
      else
        let slot := ptr + bits_value (take r (drop g path)) * 32 in
        let rest := drop (g + r) path in
        if decide (length rest = 0)%nat then inl (Found slot 0)
        else match slots !! slot with
             | None => inl Stuck
             | Some e => match cte_cap e with
                         | cap_cnode_cap _ _ _ _ => inr (cte_cap e, rest)
                         | _ => inl (Found slot (length rest))
                         end
             end
  | _ => inl Stuck
  end.

Lemma next_level_shorter slots c path c' path' :
  next_level slots c path = inr (c', path') -> (length path' < length path)%nat.
Proof.
  unfold next_level. destruct c; try done. cbv zeta. repeat (case_decide; [done |]).
  destruct (slots !! _) as [e|]; [|done]. destruct (cte_cap e); intros [= <- <-]; rewrite length_drop; lia.
Qed.

Definition inspect {A : Type} (a : A) : {b : A | a = b} := exist _ a eq_refl.

Equations resolve_path (slots : gmap Z cte_t) (c : cap) (path : list bool) : path_result by wf (length path) lt :=
resolve_path slots c path with inspect (next_level slots c path) := {
  | exist _ (inl r) _ => r
  | exist _ (inr (c', path')) E => resolve_path slots c' path' }.
Next Obligation. by eapply next_level_shorter. Qed.

(** ** Bits of an address *)

Lemma length_path_of n c : length (path_of n c) = n.
Proof. induction n as [|n IH]; [done |]. simpl. by rewrite IH. Qed.

Lemma drop_path_of n c l : drop l (path_of n c) = path_of (n - l) c.
Proof. revert l. induction n as [|n IH]; intros [|l]; try done. simpl. apply IH. Qed.

Lemma take_path_of n c g : (g <= n)%nat -> take g (path_of n c) = path_of g (Z.shiftr c (Z.of_nat (n - g))).
Proof.
  revert g. induction n as [|n IH]; intros [|g] Hg; [done | lia | done |]. simpl. f_equal.
  - rewrite Z.shiftr_spec by lia. f_equal. lia.
  - apply IH. lia.
Qed.

Lemma bits_value_path n c : bits_value (path_of n c) = c mod 2 ^ Z.of_nat n.
Proof.
  induction n as [|n IH]; [by rewrite Z.mod_1_r |]. cbn [path_of bits_value]. rewrite length_path_of, IH.
  replace (Z.of_nat (S n)) with (Z.of_nat n + 1) by lia. rewrite <- !Z.land_ones by lia.
  assert (Z.land (Z.b2z (Z.testbit c (Z.of_nat n)) * 2 ^ Z.of_nat n) (Z.land c (Z.ones (Z.of_nat n))) = 0) as H0.
  { rewrite <- Z.shiftl_mul_pow2 by lia. apply Z.bits_inj'. intros i Hi. rewrite !Z.land_spec, Z.shiftl_spec, ones_testbit, Z.bits_0 by lia.
    destruct (decide (i < Z.of_nat n)); [by rewrite (Z.testbit_neg_r _ (i - _)) by lia |].
    rewrite (bool_decide_false (0 <= i < _)) by lia. by rewrite !andb_false_r. }
  apply Z.add_nocarry_lxor in H0. rewrite H0. apply Z.bits_inj'. intros i Hi. rewrite <- Z.shiftl_mul_pow2 by lia.
  rewrite Z.lxor_spec, !Z.land_spec, Z.shiftl_spec, !ones_testbit by lia.
  destruct (decide (i < Z.of_nat n)).
  - rewrite (Z.testbit_neg_r _ (i - _)), !bool_decide_true by lia. by rewrite xorb_false_l.
  - rewrite (bool_decide_false (0 <= i < Z.of_nat n)), andb_false_r, xorb_false_r by lia.
    destruct (decide (i = Z.of_nat n)) as [->|].
    + rewrite Z.sub_diag, Z.b2z_bit0, bool_decide_true by lia. by rewrite andb_true_r.
    + rewrite bool_decide_false, andb_false_r by lia. destruct (Z.testbit c (Z.of_nat n)); [|apply Z.testbit_0_l].
      apply (testbit_above 1 1); [done | lia].
Qed.

Lemma path_of_eq n x y : path_of n x = path_of n y <-> x mod 2 ^ Z.of_nat n = y mod 2 ^ Z.of_nat n.
Proof.
  split; [intros E; by rewrite <- !bits_value_path, E |]. intros E. rewrite <- !Z.land_ones in E by lia.
  assert (forall i, 0 <= i < Z.of_nat n -> Z.testbit x i = Z.testbit y i) as Hb.
  { intros i Hi. apply (f_equal (fun z => Z.testbit z i)) in E. rewrite !Z.land_spec, ones_testbit, bool_decide_true in E by lia.
    by rewrite !andb_true_r in E. }
  clear E. induction n as [|n IH]; [done |]. simpl. rewrite Hb by lia. f_equal. apply IH. intros i Hi. apply Hb. lia.
Qed.

(** ** The code follows the reference *)

(** A CNode capability whose slots exist, and a state of such capabilities. *)
Definition cnode_ok (slots : gmap Z cte_t) (c : cap) : Prop :=
  match c with
  | cap_cnode_cap radix guardSize guard ptr =>
      cap_wf c /\ 0 < radix + guardSize /\ 0 < ptr /\
      forall i, 0 <= i < 2 ^ radix -> is_Some (slots !! (ptr + i * 32))
  | _ => True
  end.
Definition slots_ok (slots : gmap Z cte_t) : Prop := map_Forall (fun _ e => cnode_ok slots (cte_cap e)) slots.

(** What the code returns, and the fault it records. *)
Definition result_of (n : Z) (r : path_result) : option (resolveAddressBits_ret_t * option lookup_fault_t) :=
  match r with
  | Found slot l => Some (mkRes EXCEPTION_NONE slot (Z.of_nat l), None)
  | GuardMismatch guard l guardSize =>
      Some (mkRes EXCEPTION_LOOKUP_FAULT 0 n, Some (lookup_fault_guard_mismatch guard (Z.of_nat l) guardSize))
  | DepthMismatch level l =>
      Some (mkRes EXCEPTION_LOOKUP_FAULT 0 n, Some (lookup_fault_depth_mismatch level (Z.of_nat l)))
  | Stuck => None
  end.
Definition with_fault (f : option lookup_fault_t) (k : kstate) : kstate :=
  match f with Some f => upd_current_lookup_fault (fun _ => f) k | None => k end.

Lemma guard_matches capptr (n : nat) guardSize guard : (n <= 64)%nat -> 0 <= guardSize < 64 -> 0 <= guard < 2 ^ guardSize ->
  ((guardSize >? Z.of_nat n) ||
   negb (Z.land (Z.shiftr capptr (Z.land (w64 (Z.of_nat n - guardSize)) (MASK wordRadix))) (MASK guardSize) =? guard)) =
  bool_decide (take (Z.to_nat guardSize) (path_of n capptr) <> path_of (Z.to_nat guardSize) guard).
Proof.
  intros Hn Hg Hgd. destruct (guardSize >? Z.of_nat n) eqn:E; simpl; rewrite Z.gtb_ltb in E.
  - apply Z.ltb_lt in E. symmetry. apply bool_decide_true. intros Eq. apply (f_equal length) in Eq.
    rewrite length_take, !length_path_of in Eq. lia.
  - apply Z.ltb_ge in E. rewrite take_path_of by lia. unfold w64. rewrite (Z.mod_small (Z.of_nat n - guardSize)) by lia.
    rewrite !land_mask by (unfold wordRadix; lia).
    assert (Z.shiftr capptr ((Z.of_nat n - guardSize) mod 2 ^ wordRadix) mod 2 ^ guardSize =
      Z.shiftr capptr (Z.of_nat (n - Z.to_nat guardSize)) mod 2 ^ guardSize) as ->.
    { change (2 ^ wordRadix) with 64. destruct (decide (guardSize = 0)) as [->|]; [by rewrite !Z.mod_1_r |].
      rewrite (Z.mod_small _ 64) by lia. do 2 f_equal. lia. }
    apply eq_true_iff_eq. rewrite negb_true_iff, Z.eqb_neq, bool_decide_eq_true, path_of_eq.
    rewrite Z2Nat.id by lia. by rewrite (Z.mod_small guard) by lia.
Qed.

Lemma resolve_path_step slots c path : resolve_path slots c path =
  match next_level slots c path with inl r => r | inr (c', path') => resolve_path slots c' path' end.
Proof. rewrite resolve_path_equation_1. unfold inspect. simpl. by destruct (next_level slots c path) as [r|[c' p']]. Qed.

Lemma slot_address radix guardSize guard ptr x : cap_wf (cap_cnode_cap radix guardSize guard ptr) -> 0 <= radix ->
  0 <= x mod 2 ^ radix < 2 ^ radix /\ w64 (ptr + Z.land x (MASK radix) * cte_size) = ptr + x mod 2 ^ radix * 32.
Proof.
  intros (H0 & _ & _ & _ & (Hb & Hp & _ & Hw)) Hr. rewrite land_mask by done. change cte_size with 32.
  assert (0 < 2 ^ radix) by lia. pose proof (Z.mod_pos_bound x (2 ^ radix) ltac:(lia)).
  rewrite Z.pow_add_r in Hw by (unfold seL4_SlotBits; lia). change (2 ^ seL4_SlotBits) with 32 in Hw.
  split; [lia |]. apply Z.mod_small. lia.
Qed.

Lemma resolve_loop_ok fuel (n : nat) c capptr n_total k :
  slots_ok (k_cte k) -> cnode_ok (k_cte k) c -> cap_get_capType c = 10 -> (n < fuel)%nat -> (0 < n <= 64)%nat ->
  exists r f, result_of n_total (resolve_path (k_cte k) c (path_of n capptr)) = Some (r, f) /\
    resolve_loop fuel c capptr (Z.of_nat n) n_total k = inl (r, with_fault f k).
Proof.
  intros HS. revert n c. induction fuel as [|fuel IH]; intros n c Hc Ht Hf Hn; [lia |].
  destruct c as [| | | | |radix gs guard ptr| | | | | | | | | | | |]; try done.
  destruct Hc as (Hwf & Hlv & Hp0 & Hsl). pose proof Hwf as (Hr & Hg & Hw & Hgd & _). unfold wordBits in Hw.
  rewrite resolve_path_step. unfold next_level. cbn [resolve_loop]. cbv zeta.
  assert (w64 (radix + gs) = radix + gs) as El by (unfold w64; rewrite Z.mod_small; lia). rewrite El.
  rewrite (proj2 (Z.eqb_neq (radix + gs) 0)) by lia. rewrite (decide_False (P := (_ + _)%nat = 0%nat)) by lia.
  cbn [negb assert_ bind ret]. unfold bind at 1, ret at 1. cbn [assert_].
  rewrite guard_matches by lia. case_bool_decide as Egm.
  { rewrite decide_True by done. rewrite length_path_of. by eexists _, _. }
  rewrite (decide_False (P := take _ _ <> _)) by tauto. rewrite !length_path_of.
  destruct (radix + gs >? Z.of_nat n) eqn:Ed; rewrite Z.gtb_ltb in Ed; [apply Z.ltb_lt in Ed | apply Z.ltb_ge in Ed].
  { rewrite decide_True by lia. by eexists _, _. }
  rewrite decide_False by lia. rewrite !drop_path_of, length_path_of, take_path_of, bits_value_path by lia.
  assert (Z.of_nat (n - Z.to_nat gs - Z.to_nat radix) = Z.of_nat n - (radix + gs)) as Eb by lia.
  rewrite Eb. rewrite Z2Nat.id by lia. set (x := Z.shiftr capptr (Z.of_nat n - (radix + gs))).
  destruct (slot_address radix gs guard ptr x Hwf Hr) as [Hx ->].
  destruct (Z.of_nat n <=? radix + gs) eqn:Ee; [apply Z.leb_le in Ee | apply Z.leb_gt in Ee].
  { rewrite decide_True by lia. by eexists _, _. }
  rewrite decide_False by lia. destruct (Hsl (x mod 2 ^ radix) Hx) as [e He]. rewrite He.
  unfold bind, cte_get. rewrite (proj2 (Z.eqb_neq _ 0)), He by lia.
  pose proof (HS _ _ He) as Hce. simpl in Hce.
  replace (n - (Z.to_nat gs + Z.to_nat radix))%nat with (n - Z.to_nat (radix + gs))%nat by lia.
  assert (Z.of_nat n - (radix + gs) = Z.of_nat (n - Z.to_nat (radix + gs))) as En by lia.
  destruct (cte_cap e) eqn:Ec; try (by rewrite En; eexists _, _).
  rewrite En. apply IH; [done | done | lia | lia].
Qed.

Lemma resolveAddressBits_ok (k : kstate) (c : cap) (capptr : Z) (n : nat) :
  slots_ok (k_cte k) -> cnode_ok (k_cte k) c -> cap_get_capType c = 10 -> (0 < n <= 64)%nat ->
  exists r f, result_of (Z.of_nat n) (resolve_path (k_cte k) c (path_of n capptr)) = Some (r, f) /\
    resolveAddressBits c capptr (Z.of_nat n) k = inl (r, with_fault f k).
Proof.
  intros HS Hc Ht Hn. unfold resolveAddressBits. destruct c; try done. apply resolve_loop_ok; try done. unfold resolve_fuel. lia.
Qed.

(** C26: Resolving an address through the kernel's shifts and masks gives what
    walking the address bit by bit gives: strip the guard, select a slot with
    the radix bits, go on in the CNode found there.  It takes one round per
    level and at most 64, never fails an assertion or reads outside a CNode, and
    records exactly the guard or depth mismatch that the walk runs into. *)
Theorem resolveAddressBits_walks_path (k : kstate) (c : cap) (capptr : Z) (n : nat) :
  slots_ok (k_cte k) -> cnode_ok (k_cte k) c -> cap_get_capType c = 10 -> (0 < n <= 64)%nat ->
  exists r f, result_of (Z.of_nat n) (resolve_path (k_cte k) c (path_of n capptr)) = Some (r, f) /\
    resolveAddressBits c capptr (Z.of_nat n) k = inl (r, with_fault f k).
Proof. apply resolveAddressBits_ok. Qed.

(** The states after the two kinds of error: only the record of the error and, for
    a lookup, of the place where it failed differ. *)
Definition range_error (lo hi : Z) (k : kstate) : kstate :=
  upd_current_syscall_error (fun e => mkErr (invalidArgumentNumber e) (invalidCapNumber e)
    lo hi (memoryLeft e) (failedLookupWasSource e) seL4_RangeError) k.
Definition failed_lookup (src : bool) (f : lookup_fault_t) (k : kstate) : kstate :=
  upd_current_syscall_error (fun e => mkErr (invalidArgumentNumber e) (invalidCapNumber e)
    (rangeErrorMin e) (rangeErrorMax e) (memoryLeft e) src seL4_FailedLookup) (with_fault (Some f) k).

(** What looking up the slot of an operation comes to; the cases exclude one
    another, and each fixes the status, the slot and the whole state. *)
Inductive op_outcome (src : bool) (root : cap) (capptr depth : Z) (k : kstate) : exception_t -> Z -> kstate -> Prop :=
| op_found slot : cap_get_capType root = 10 -> 1 <= depth <= 64 ->
    resolve_path (k_cte k) root (path_of (Z.to_nat depth) capptr) = Found slot 0 ->
    op_outcome src root capptr depth k EXCEPTION_NONE slot k
| op_no_root : cap_get_capType root <> 10 ->
    op_outcome src root capptr depth k EXCEPTION_SYSCALL_ERROR 0 (failed_lookup src lookup_fault_invalid_root k)
| op_bad_depth : cap_get_capType root = 10 -> ~ 1 <= depth <= 64 ->
    op_outcome src root capptr depth k EXCEPTION_SYSCALL_ERROR 0 (range_error 1 64 k)
| op_bits_left slot l : cap_get_capType root = 10 -> 1 <= depth <= 64 ->
    resolve_path (k_cte k) root (path_of (Z.to_nat depth) capptr) = Found slot l -> l <> 0%nat ->
    op_outcome src root capptr depth k EXCEPTION_SYSCALL_ERROR 0 (failed_lookup src (lookup_fault_depth_mismatch 0 (Z.of_nat l)) k)
| op_mismatch r f : cap_get_capType root = 10 -> 1 <= depth <= 64 ->
    result_of depth (resolve_path (k_cte k) root (path_of (Z.to_nat depth) capptr)) = Some (r, Some f) ->
    op_outcome src root capptr depth k EXCEPTION_SYSCALL_ERROR 0 (failed_lookup src f k).

Lemma lookup_op_outcome (src : bool) (root : cap) (capptr depth : Z) (k : kstate) :
  slots_ok (k_cte k) -> cnode_ok (k_cte k) root ->
  exists st slot k', lookupSlotForCNodeOp src root capptr depth k = inl ((st, slot), k') /\ op_outcome src root capptr depth k st slot k'.
Proof.
  intros HS Hc. destruct (decide (cap_get_capType root = 10)) as [Ht|Ht].
  - destruct (decide (1 <= depth <= 64)) as [Hd|Hd].
    + destruct (resolveAddressBits_ok k _ capptr (Z.to_nat depth) HS Hc Ht ltac:(lia)) as (r & f & Er & Ec).
      rewrite Z2Nat.id in Er, Ec by lia. unfold lookupSlotForCNodeOp. destruct root; try done.
      replace ((depth <? 1) || (depth >? wordBits)) with false by (unfold wordBits; lia). unfold bind at 1. rewrite Ec.
      destruct (resolve_path _ _ _) as [slot l|g l gs|lv l|] eqn:Ep; simpl in Er; try done; injection Er as <- <-;
        cbn [res_status res_bitsRemaining res_slot].
      * rewrite bool_decide_true by done. cbn [negb]. destruct (Z.eqb_spec (Z.of_nat l) 0) as [El|El]; cbn [negb].
        -- assert (l = 0%nat) as -> by lia. eexists _, _, _. split; [done |]. by apply op_found.
        -- eexists _, _, _. split; [done |]. apply (op_bits_left _ _ _ _ _ slot l); [done | done | done | lia].
      * eexists _, _, _. split; [done |]. eapply op_mismatch; [done | done |]. by rewrite Ep.
      * eexists _, _, _. split; [done |]. eapply op_mismatch; [done | done |]. by rewrite Ep.
    + unfold lookupSlotForCNodeOp. destruct root; try done.
      replace ((depth <? 1) || (depth >? wordBits)) with true by (unfold wordBits; lia).
      eexists _, _, _. split; [done |]. by apply op_bad_depth.
  - assert (lookupSlotForCNodeOp src root capptr depth = do* err_FailedLookup src in
      do* set_lookup_fault lookup_fault_invalid_root in ret (EXCEPTION_SYSCALL_ERROR, 0)) as -> by (destruct root; done).
    eexists _, _, _. split; [done |]. by apply op_no_root.
Qed.

(** C38: Looking up the slot of a CNode operation never faults, and its outcome is
    one of five that exclude one another.  The slot is found, and nothing
    changes, exactly when the root is a CNode, the depth is between 1 and 64 and
    the address is used up at that slot.  Otherwise the slot is [NULL] and the
    state differs only in the error: a range error for every other depth, 0
    included; else a failed lookup on the source or the target side, with the
    invalid root, the guard mismatch, the depth mismatch or the bits left over
    that the walk runs into. *)
Theorem lookupSlotForCNodeOp_outcome (src : bool) (root : cap) (capptr depth : Z) (k : kstate) :
  slots_ok (k_cte k) -> cnode_ok (k_cte k) root ->
  exists st slot k', lookupSlotForCNodeOp src root capptr depth k = inl ((st, slot), k') /\ op_outcome src root capptr depth k st slot k'.
Proof. apply lookup_op_outcome. Qed.

(** A slot that is found is a slot of a CNode. *)
Lemma bits_value_bound l : 0 <= bits_value l < 2 ^ Z.of_nat (length l).
Proof.
  induction l as [|b l IH]; simpl; [done |]. replace (Z.of_nat (S (length l))) with (1 + Z.of_nat (length l)) by lia.
  rewrite Z.pow_add_r by lia. destruct b; simpl; lia.
Qed.

Lemma next_level_found slots c path slot l : cnode_ok slots c -> next_level slots c path = inl (Found slot l) ->
  slot <> 0 /\ is_Some (slots !! slot).
Proof.
  unfold next_level. destruct c as [| | | | |radix gs g ptr| | | | | | | | | | | |]; try done.
  intros (Hwf & Hlv & Hp & Hs). cbv zeta. pose proof Hwf as (Hr & Hg & _ & _ & Hobj). destruct (decide (_ = _)); [done |].
  destruct (decide (take _ _ <> _)); [done |]. destruct (decide (_ < _)%nat) as [|Hlen]; [done |].
  pose proof (bits_value_bound (take (Z.to_nat radix) (drop (Z.to_nat gs) path))) as Hb.
  rewrite length_take, length_drop, Nat.min_l, Z2Nat.id in Hb by lia. specialize (Hs _ Hb).
  destruct (decide (_ = _)); [intros [= <- <-]; split; [lia | done] |].
  destruct (slots !! _) as [e|] eqn:He; [|done]. destruct (cte_cap e); intros [= <- <-]; split; (lia || by rewrite He).
Qed.

Lemma next_level_cnode slots c path c' path' : slots_ok slots -> next_level slots c path = inr (c', path') -> cnode_ok slots c'.
Proof.
  intros HS. unfold next_level. destruct c; try done. cbv zeta. repeat (case_decide; [done |]).
  destruct (slots !! _) as [e|] eqn:He; [|done]. pose proof (HS _ _ He) as Hc. destruct (cte_cap e) eqn:Ee; intros [= <- <-].
  simpl in Hc. by rewrite Ee in Hc.
Qed.

Lemma resolve_path_found slots c path slot l : slots_ok slots -> cnode_ok slots c -> resolve_path slots c path = Found slot l ->
  slot <> 0 /\ is_Some (slots !! slot).
Proof.
  intros HS. remember (length path) as n eqn:En. revert c path En. induction (lt_wf n) as [n _ IH]. intros c path -> Hc.
  rewrite resolve_path_step. destruct (next_level slots c path) as [r|[c' p']] eqn:E.
  - intros ->. by apply (next_level_found slots c path slot l).
  - pose proof (next_level_shorter _ _ _ _ _ E). pose proof (next_level_cnode _ _ _ _ _ HS E). by apply (IH (length p')).
Qed.

Lemma lookup_op_ok src root capptr depth k : slots_ok (k_cte k) -> cnode_ok (k_cte k) root -> 0 <= depth ->
  wp (lookupSlotForCNodeOp src root capptr depth) (fun r k' => r = (EXCEPTION_SYSCALL_ERROR, 0) \/
    exists s, r = (EXCEPTION_NONE, s) /\ s <> 0 /\ is_Some (k_cte k !! s) /\ k' = k) (fun _ => False) k.
Proof.
  intros HS Hc Hd. destruct (lookup_op_outcome src root capptr depth k HS Hc) as (st & s & k' & E & Hr).
  unfold wp. rewrite E. destruct Hr as [s _ _ Hf| | | | ]; [|by left..].
  right. exists s. destruct (resolve_path_found _ _ _ _ _ HS Hc Hf). done.
Qed.

(** ** A capability space of two CNodes

    The root at 4096 has a 2-bit guard and four slots; its slot 1 holds a CNode
    of two slots at 8192. *)
Definition demo_slot (c : cap) : cte_t := mkCte c nullMDBNode.
Definition demo_root : cap := cap_cnode_cap 2 2 1 4096.
Definition demo_slots : gmap Z cte_t :=
  <[4096 := demo_slot cap_null_cap]> (<[4128 := demo_slot (cap_cnode_cap 1 0 0 8192)]>
  (<[4160 := demo_slot cap_null_cap]> (<[4192 := demo_slot cap_null_cap]>
  (<[8192 := demo_slot cap_null_cap]> {[8224 := demo_slot cap_domain_cap]})))).
Definition demo_cspace : kstate :=
  mkK ∅ demo_slots ∅ ∅ ∅ ∅ ∅ ∅ 0 0 0 0 0 0 0 ∅ ∅ lookup_fault_invalid_root seL4_Fault_NullFault
    (mkErr 0 0 0 0 0 false seL4_NoError) [0; 0; 0] [].

Lemma demo_inner_ok : cnode_ok demo_slots (cap_cnode_cap 1 0 0 8192).
Proof.
  unfold cnode_ok, cap_wf, obj_region. split; [vm_compute; intuition congruence |]. split; [lia |]. split; [lia |].
  intros i Hi. change (2 ^ 1) with 2 in Hi. assert (i = 0 \/ i = 1) as [->| ->] by lia; vm_compute; eauto.
Qed.
Lemma demo_root_ok : cnode_ok demo_slots demo_root.
Proof.
  unfold cnode_ok, demo_root, cap_wf, obj_region. split; [vm_compute; intuition congruence |]. split; [lia |]. split; [lia |].
  intros i Hi. change (2 ^ 2) with 4 in Hi. assert (i = 0 \/ i = 1 \/ i = 2 \/ i = 3) as [->|[->|[->| ->]]] by lia; vm_compute; eauto.
Qed.
Lemma demo_slots_ok : slots_ok demo_slots.
Proof.
  unfold slots_ok. unfold demo_slots at 2. repeat (apply map_Forall_insert_2; [first [exact I | exact demo_inner_ok] |]).
  intros i x. by rewrite lookup_empty.
Qed.

(** Guard 01, slot 1, then slot 1 of the inner CNode. *)
Lemma resolveAddressBits_walks_path_witness :
  exists r f, result_of (Z.of_nat 5) (resolve_path demo_slots demo_root (path_of 5 11)) = Some (r, f) /\
    resolveAddressBits demo_root 11 (Z.of_nat 5) demo_cspace = inl (r, with_fault f demo_cspace).
Proof.
  apply (resolveAddressBits_walks_path demo_cspace demo_root 11 5);
    [exact demo_slots_ok | exact demo_root_ok | reflexivity | lia].
Defined.

Lemma demo_lookup : resolveAddressBits demo_root 11 5 demo_cspace = inl (mkRes EXCEPTION_NONE 8224 0, demo_cspace).
Proof. vm_compute. reflexivity. Qed.

Lemma lookupSlotForCNodeOp_outcome_witness :
  (exists st slot k', lookupSlotForCNodeOp true demo_root 11 5 demo_cspace = inl ((st, slot), k') /\
    op_outcome true demo_root 11 5 demo_cspace st slot k') /\
  lookupSlotForCNodeOp true demo_root 11 5 demo_cspace = inl ((EXCEPTION_NONE, 8224), demo_cspace) /\
  lookupSlotForCNodeOp true demo_root 11 0 demo_cspace = inl ((EXCEPTION_SYSCALL_ERROR, 0), range_error 1 64 demo_cspace).
Proof.
  split; [|split; vm_compute; reflexivity].
  apply (lookupSlotForCNodeOp_outcome true demo_root 11 5 demo_cspace); [exact demo_slots_ok | exact demo_root_ok].
Defined.
