(* ===== verification/KMdb.v ===== *)
(** * Capability slots and the mapping database

    The operations of kernel/src/object/cnode.c on capability slots: insertion,
    move, swap and emptying of a slot, each of which updates the doubly linked
    list ("mapping database", MDB) that records how capabilities were derived. *)

From S2P Require Import Prelude Dll KCaps KState KSched KCapThms KCspace.

(** ** Fields of a slot *)
Definition set_cap (p : Z) (c : cap) : M kstate unit := cte_upd p (fun e => mkCte c (cteMDBNode e)).
Definition set_mdb (p : Z) (m : mdb_node_t) : M kstate unit := cte_upd p (fun e => mkCte (cte_cap e) m).
Definition mdb_set_next (v : Z) (m : mdb_node_t) : mdb_node_t := mkMdb v (mdbRevocable m) (mdbFirstBadged m) (mdbPrev m).
Definition mdb_set_prev (v : Z) (m : mdb_node_t) : mdb_node_t := mkMdb (mdbNext m) (mdbRevocable m) (mdbFirstBadged m) v.
Definition mdb_set_badged (b : bool) (m : mdb_node_t) : mdb_node_t := mkMdb (mdbNext m) (mdbRevocable m) b (mdbPrev m).
Definition set_next (p v : Z) : M kstate unit := cte_upd p (fun e => mkCte (cte_cap e) (mdb_set_next v (cteMDBNode e))).
Definition set_prev (p v : Z) : M kstate unit := cte_upd p (fun e => mkCte (cte_cap e) (mdb_set_prev v (cteMDBNode e))).

(** ** Insertion and moves *)
Definition setUntypedCapAsFull (srcCap newCap : cap) (srcSlot : Z) : M kstate unit :=
  match srcCap, newCap with
  | cap_untyped_cap _ _ srcBits srcPtr, cap_untyped_cap _ _ newBits newPtr =>
      if (srcPtr =? newPtr) && (newBits =? srcBits) then
        let* e := cte_get srcSlot in
        match cte_cap e with
        | cap_untyped_cap _ dev bits ptr =>
            set_cap srcSlot (cap_untyped_cap (MAX_FREE_INDEX srcBits) dev bits ptr)
        | _ => fail AssertFail
        end
      else ret tt
  | _, _ => ret tt
  end.

Definition cteInsert (newCap : cap) (srcSlot destSlot : Z) : M kstate unit :=
  let* src := cte_get srcSlot in
  let srcMDB := cteMDBNode src in
  let srcCap := cte_cap src in
  let* newCapIsRevocable := of_option AssertFail (isCapRevocable newCap srcCap) in
  let newMDB := mkMdb (mdbNext srcMDB) newCapIsRevocable newCapIsRevocable srcSlot in
  let* dest := cte_get destSlot in
  do* assert_ (is_null (cte_cap dest)) in
  do* assert_ ((mdbNext (cteMDBNode dest) =? 0) && (mdbPrev (cteMDBNode dest) =? 0)) in
  do* setUntypedCapAsFull srcCap newCap srcSlot in
  do* set_cap destSlot newCap in
  do* set_mdb destSlot newMDB in
  do* set_next srcSlot destSlot in
  if negb (mdbNext newMDB =? 0) then set_prev (mdbNext newMDB) destSlot else ret tt.

Definition cteMove (newCap : cap) (srcSlot destSlot : Z) : M kstate unit :=
  let* dest := cte_get destSlot in
  do* assert_ (is_null (cte_cap dest)) in
  do* assert_ ((mdbNext (cteMDBNode dest) =? 0) && (mdbPrev (cteMDBNode dest) =? 0)) in
  let* src := cte_get srcSlot in
  let mdb := cteMDBNode src in
  do* set_cap destSlot newCap in
  do* set_cap srcSlot cap_null_cap in
  do* set_mdb destSlot mdb in
  do* set_mdb srcSlot nullMDBNode in
  let prev_ptr := mdbPrev mdb in
  do* (if negb (prev_ptr =? 0) then set_next prev_ptr destSlot else ret tt) in
  let next_ptr := mdbNext mdb in
  if negb (next_ptr =? 0) then set_prev next_ptr destSlot else ret tt.

Definition cteSwap (cap1 : cap) (slot1 : Z) (cap2 : cap) (slot2 : Z) : M kstate unit :=
  do* set_cap slot1 cap2 in
  do* set_cap slot2 cap1 in
  let* e1 := cte_get slot1 in
  let mdb1 := cteMDBNode e1 in
  do* (if negb (mdbPrev mdb1 =? 0) then set_next (mdbPrev mdb1) slot2 else ret tt) in
  do* (if negb (mdbNext mdb1 =? 0) then set_prev (mdbNext mdb1) slot2 else ret tt) in
  let* e2 := cte_get slot2 in
  let mdb2 := cteMDBNode e2 in
  do* set_mdb slot1 mdb2 in
  do* set_mdb slot2 mdb1 in
  do* (if negb (mdbPrev mdb2 =? 0) then set_next (mdbPrev mdb2) slot1 else ret tt) in
  if negb (mdbNext mdb2 =? 0) then set_prev (mdbNext mdb2) slot1 else ret tt.

Definition capSwapForDelete (slot1 slot2 : Z) : M kstate unit :=
  if slot1 =? slot2 then ret tt
  else
    let* e1 := cte_get slot1 in
    let* e2 := cte_get slot2 in
    cteSwap (cte_cap e1) slot1 (cte_cap e2) slot2.

(** ** Interrupt state, as far as slots depend on it *)
Definition setIRQState (irqState : irq_state) (irq : Z) : M kstate unit :=
  do* modify (upd_intStateIRQTable (insert irq irqState)) in
  event (maskInterrupt (bool_decide (irqState = IRQInactive)) irq).
Definition deletedIRQHandler (irq : Z) : M kstate unit := setIRQState IRQInactive irq.
Definition Arch_postCapDeletion (c : cap) : M kstate unit := ret tt.
Definition postCapDeletion (c : cap) : M kstate unit :=
  match c with
  | cap_irq_handler_cap irq => deletedIRQHandler irq
  | _ => if isArchCap c then Arch_postCapDeletion c else ret tt
  end.

(** ** Emptying a slot and creating capabilities *)
Definition emptySlot (slot : Z) (cleanupInfo : cap) : M kstate unit :=
  let* e := cte_get slot in
  if negb (is_null (cte_cap e)) then
    let mdbNode := cteMDBNode e in
    let prev := mdbPrev mdbNode in
    let next := mdbNext mdbNode in
    do* (if negb (prev =? 0) then set_next prev next else ret tt) in
    do* (if negb (next =? 0) then set_prev next prev else ret tt) in
    do* (if negb (next =? 0) then
           let* n := cte_get next in
           set_mdb next (mdb_set_badged (mdbFirstBadged (cteMDBNode n) || mdbFirstBadged mdbNode) (cteMDBNode n))
         else ret tt) in
    do* set_cap slot cap_null_cap in
    do* set_mdb slot nullMDBNode in
    postCapDeletion cleanupInfo
  else ret tt.

Definition insertNewCap (parent slot : Z) (c : cap) : M kstate unit :=
  let* p := cte_get parent in
  let next := mdbNext (cteMDBNode p) in
  do* set_cap slot c in
  do* set_mdb slot (mkMdb next true true parent) in
  do* (if negb (next =? 0) then set_prev next slot else ret tt) in
  set_next parent slot.

Definition setupReplyMaster (thread : Z) : M kstate unit :=
  let slot := TCB_PTR_CTE_PTR thread tcbReply in
  let* e := cte_get slot in
  if is_null (cte_cap e) then
    do* set_cap slot (cap_reply_cap true true thread) in
    set_mdb slot (mkMdb 0 true true 0)
  else ret tt.

(** ** Questions about derivation *)
Definition isMDBParentOf (cte_a cte_b : cte_t) : bool :=
  if negb (mdbRevocable (cteMDBNode cte_a)) then false
  else if negb (sameRegionAs (cte_cap cte_a) (cte_cap cte_b)) then false
  else match cte_cap cte_a, cte_cap cte_b with
  | cap_endpoint_cap badge _ _ _ _ _, cap_endpoint_cap badge' _ _ _ _ _ =>
      if badge =? 0 then true else (badge =? badge') && negb (mdbFirstBadged (cteMDBNode cte_b))
  | cap_notification_cap badge _ _ _, cap_notification_cap badge' _ _ _ =>
      if badge =? 0 then true else (badge =? badge') && negb (mdbFirstBadged (cteMDBNode cte_b))
  | _, _ => true
  end.

Definition ensureNoChildren (slot : Z) : M kstate exception_t :=
  let* e := cte_get slot in
  if negb (mdbNext (cteMDBNode e) =? 0) then
    let* next := cte_get (mdbNext (cteMDBNode e)) in
    if isMDBParentOf e next then do* err_type_only seL4_RevokeFirst in ret EXCEPTION_SYSCALL_ERROR
    else ret EXCEPTION_NONE
  else ret EXCEPTION_NONE.

Definition ensureEmptySlot (slot : Z) : M kstate exception_t :=
  let* e := cte_get slot in
  if negb (is_null (cte_cap e)) then do* err_type_only seL4_DeleteFirst in ret EXCEPTION_SYSCALL_ERROR
  else ret EXCEPTION_NONE.

Definition isFinalCapability (slot : Z) : M kstate bool :=
  let* e := cte_get slot in
  let mdb := cteMDBNode e in
  let* prevIsSameObject :=
    (if mdbPrev mdb =? 0 then ret false
     else let* prev := cte_get (mdbPrev mdb) in ret (sameObjectAs (cte_cap prev) (cte_cap e))) in
  if prevIsSameObject then ret false
  else if mdbNext mdb =? 0 then ret true
  else let* next := cte_get (mdbNext mdb) in ret (negb (sameObjectAs (cte_cap e) (cte_cap next))).

Definition slotCapLongRunningDelete (slot : Z) : M kstate bool :=
  let* e := cte_get slot in
  if is_null (cte_cap e) then ret false
  else
    let* final := isFinalCapability slot in
    if negb final then ret false
    else match cte_cap e with
    | cap_thread_cap _ | cap_zombie_cap _ _ | cap_cnode_cap _ _ _ _ => ret true
    | _ => ret false
    end.

(** ** [deriveCap] *)
Definition Arch_deriveCap (slot : Z) (c : cap) : M kstate (exception_t * cap) :=
  let mapped (b : bool) :=
    if b then ret (EXCEPTION_NONE, c)
    else do* err_type_only seL4_IllegalOperation in ret (EXCEPTION_SYSCALL_ERROR, cap_null_cap) in
  match c with
  | cap_page_global_directory_cap _ _ isMapped => mapped isMapped
  | cap_page_upper_directory_cap _ _ isMapped _ => mapped isMapped
  | cap_page_directory_cap _ _ isMapped _ => mapped isMapped
  | cap_page_table_cap _ _ isMapped _ => mapped isMapped
  | cap_frame_cap _ base size addr rights dev =>
      ret (EXCEPTION_NONE, cap_frame_cap asidInvalid base size addr rights dev)
  | cap_asid_control_cap | cap_asid_pool_cap _ _ => ret (EXCEPTION_NONE, c)
  | _ => fail Fatal
  end.

Definition deriveCap (slot : Z) (c : cap) : M kstate (exception_t * cap) :=
  if isArchCap c then Arch_deriveCap slot c
  else match c with
  | cap_zombie_cap _ _ => ret (EXCEPTION_NONE, cap_null_cap)
  | cap_irq_control_cap => ret (EXCEPTION_NONE, cap_null_cap)
  | cap_untyped_cap _ _ _ _ =>
      let* status := ensureNoChildren slot in
      if negb (bool_decide (status = EXCEPTION_NONE)) then ret (status, cap_null_cap) else ret (status, c)
  | cap_reply_cap _ _ _ => ret (EXCEPTION_NONE, cap_null_cap)
  | _ => ret (EXCEPTION_NONE, c)
  end.
