(* ===== verification/KMsg.v ===== *)
(** * Messages between threads

    Message words, IPC buffers and the transfer of a message from one thread to
    another: kernel/src/kernel/thread.c (transfers), kernel/src/object/tcb.c
    (message registers), kernel/src/api/faults.c (fault messages) and the parts
    of cnode.c and vspace.c they need.

    A [word_t *] into an IPC buffer is the byte address of the word; [NULL] is 0. *)

From S2P Require Import Prelude KCaps KState KSched KCspace KMdb.

(** ** Words of user memory

    All of memory is mapped in the kernel; a word outside the map [k_word] is 0. *)
Definition word_at (buffer i : Z) : Z := w64 (buffer + 8 * i).
Definition word_get (a : Z) : M kstate Z := gets (fun k => default 0 (k_word k !! a)).
Definition word_set (a w : Z) : M kstate unit := modify (upd_k_word (insert a w)).

(** ** Message information, [block seL4_MessageInfo] *)
Record seL4_MessageInfo_t : Type := mkMI { mi_label : Z; mi_capsUnwrapped : Z; mi_extraCaps : Z; mi_length : Z }.

Definition seL4_MessageInfo_new (label capsUnwrapped extraCaps length : Z) : seL4_MessageInfo_t :=
  mkMI (Z.land label (MASK 52)) (Z.land capsUnwrapped (MASK 3)) (Z.land extraCaps (MASK 2)) (Z.land length (MASK 7)).
Definition seL4_MessageInfo_set_length (mi : seL4_MessageInfo_t) (v : Z) : seL4_MessageInfo_t :=
  mkMI (mi_label mi) (mi_capsUnwrapped mi) (mi_extraCaps mi) (Z.land v (MASK 7)).
Definition seL4_MessageInfo_set_extraCaps (mi : seL4_MessageInfo_t) (v : Z) : seL4_MessageInfo_t :=
  mkMI (mi_label mi) (mi_capsUnwrapped mi) (Z.land v (MASK 2)) (mi_length mi).
Definition seL4_MessageInfo_set_capsUnwrapped (mi : seL4_MessageInfo_t) (v : Z) : seL4_MessageInfo_t :=
  mkMI (mi_label mi) (Z.land v (MASK 3)) (mi_extraCaps mi) (mi_length mi).

Definition seL4_MsgMaxLength : Z := 120.
Definition seL4_MsgMaxExtraCaps : Z := 3.

Definition messageInfoFromWord_raw (w : Z) : seL4_MessageInfo_t :=
  mkMI (Z.land (Z.shiftr w 12) (MASK 52)) (Z.land (Z.shiftr w 9) (MASK 3))
    (Z.land (Z.shiftr w 7) (MASK 2)) (Z.land w (MASK 7)).
Definition messageInfoFromWord (w : Z) : seL4_MessageInfo_t :=
  let mi := messageInfoFromWord_raw w in
  let len := mi_length mi in
  if len >? seL4_MsgMaxLength then seL4_MessageInfo_set_length mi seL4_MsgMaxLength else mi.
Definition wordFromMessageInfo (mi : seL4_MessageInfo_t) : Z :=
  Z.lor (Z.lor (Z.lor (Z.shiftl (mi_label mi) 12) (Z.shiftl (mi_capsUnwrapped mi) 9))
    (Z.shiftl (mi_extraCaps mi) 7)) (mi_length mi).

(** ** Registers, machine/registerset.h and registerset.c *)
Definition capRegister : Z := 0.
Definition SP_EL0 : Z := 31.
Definition ELR_EL1 : Z := 32.
Definition SPSR_EL1 : Z := 33.
Definition TPIDRURW : Z := 35.
Definition n_contextRegisters : Z := 36.
Definition msgRegisters : list Z := [2; 3; 4; 5].
Definition frameRegisters : list Z := [34; 31; 33; 0; 1; 2; 3; 4; 5; 6; 7; 8; 16; 17; 18; 29; 30].
Definition gpRegisters : list Z := [9; 10; 11; 12; 13; 14; 15; 19; 20; 21; 22; 23; 24; 25; 26; 27; 28].
Definition n_msgRegisters : Z := 4.
Definition n_frameRegisters : Z := 17.
Definition n_gpRegisters : Z := 17.
Definition n_exceptionMessage : Z := 3.
Definition n_syscallMessage : Z := 12.

Inductive MessageID_t : Type := MessageID_Syscall | MessageID_Exception.
Definition fault_messages (id : MessageID_t) : list Z :=
  match id with
  | MessageID_Syscall => [0; 1; 2; 3; 4; 5; 6; 7; FaultInstruction; SP_EL0; ELR_EL1; SPSR_EL1]
  | MessageID_Exception => [FaultInstruction; SP_EL0; SPSR_EL1]
  end.

(** [a[i]] for a constant array [a]. *)
Definition reg_at (a : list Z) (i : Z) : M kstate Z := of_option OutOfBounds (if i <? 0 then None else a !! Z.to_nat i).

Definition PSTATE_USER : Z := Z.lor 0x40 0x100.
Definition sanitiseRegister (reg v : Z) (archInfo : bool) : Z :=
  if reg =? SPSR_EL1 then
    if archInfo && ((Z.land v 0x1f =? 0) || (Z.land v 0x1f =? 4) || (Z.land v 0x1f =? 5)) then v
    else Z.lor (Z.land v 0xf0000000) PSTATE_USER
  else v.
Definition Arch_getSanitiseRegisterInfo (thread : Z) : bool := false.

(** ** Message registers, object/tcb.h and tcb.c *)
Definition setMR (receiver receiveIPCBuffer offset reg : Z) : M kstate Z :=
  if offset >=? n_msgRegisters then
    if negb (receiveIPCBuffer =? 0) then
      do* word_set (word_at receiveIPCBuffer (offset + 1)) reg in ret (offset + 1)
    else ret n_msgRegisters
  else
    let* r := reg_at msgRegisters offset in
    do* setRegister receiver r reg in ret (offset + 1).

Definition getExtraCPtr (bufferPtr i : Z) : M kstate Z := word_get (word_at bufferPtr (seL4_MsgMaxLength + 2 + i)).
Definition setExtraBadge (bufferPtr badge i : Z) : M kstate unit :=
  word_set (word_at bufferPtr (seL4_MsgMaxLength + 2 + i)) badge.

Definition set_extra_cap (i slot : Z) : M kstate unit :=
  let* caps := gets current_extra_caps in
  if (0 <=? i) && (i <? Z.of_nat (length caps))
  then modify (upd_current_extra_caps (fun l => <[Z.to_nat i := slot]> l)) else fail OutOfBounds.

(** The loop of [lookupExtraCaps] from [i], [n] rounds left. *)
Fixpoint lookupExtraCaps_loop (thread bufferPtr i : Z) (n : nat) : M kstate exception_t :=
  match n with
  | O => ret EXCEPTION_NONE
  | S n =>
      let* cptr := getExtraCPtr bufferPtr i in
      let* '(status, slot) := lookupSlot thread cptr in
      if negb (bool_decide (status = EXCEPTION_NONE)) then
        do* modify (upd_current_fault (fun _ => seL4_Fault_CapFault cptr false)) in ret status
      else
        do* set_extra_cap i slot in
        lookupExtraCaps_loop thread bufferPtr (i + 1) n
  end.

Definition lookupExtraCaps (thread bufferPtr : Z) (info : seL4_MessageInfo_t) : M kstate exception_t :=
  if bufferPtr =? 0 then do* set_extra_cap 0 0 in ret EXCEPTION_NONE
  else
    let length := mi_extraCaps info in
    let* status := lookupExtraCaps_loop thread bufferPtr 0 (Z.to_nat length) in
    if negb (bool_decide (status = EXCEPTION_NONE)) then ret status
    else
      do* (if length <? seL4_MsgMaxExtraCaps then set_extra_cap length 0 else ret tt) in
      ret EXCEPTION_NONE.

(** The two loops of [copyMRs], from word [i], [n] rounds left. *)
Fixpoint copyMRs_inline (sender receiver i : Z) (n : nat) : M kstate unit :=
  match n with
  | O => ret tt
  | S n =>
      let* r := reg_at msgRegisters i in
      let* v := getRegister sender r in
      do* setRegister receiver r v in
      copyMRs_inline sender receiver (i + 1) n
  end.
Fixpoint copyMRs_buffer (sendBuf recvBuf i : Z) (n : nat) : M kstate unit :=
  match n with
  | O => ret tt
  | S n =>
      let* v := word_get (word_at sendBuf (i + 1)) in
      do* word_set (word_at recvBuf (i + 1)) v in
      copyMRs_buffer sendBuf recvBuf (i + 1) n
  end.

Definition copyMRs (sender sendBuf receiver recvBuf n : Z) : M kstate Z :=
  let i := Z.min n n_msgRegisters in
  do* copyMRs_inline sender receiver 0 (Z.to_nat i) in
  if (recvBuf =? 0) || (sendBuf =? 0) then ret i
  else
    do* copyMRs_buffer sendBuf recvBuf i (Z.to_nat (n - i)) in
    ret n.

(** ** IPC buffers and receive slots *)
Definition lookupIPCBuffer (isReceiver : bool) (thread : Z) : M kstate Z :=
  let* t := tcb_get thread in
  let w_bufferPtr := tcbIPCBuffer t in
  let* e := cte_get (TCB_PTR_CTE_PTR thread tcbBuffer) in
  match cte_cap e with
  | cap_frame_cap _ basePtr size _ vm_rights dev =>
      if dev then ret 0
      else if bool_decide (vm_rights = VMReadWrite) || (negb isReceiver && bool_decide (vm_rights = VMReadOnly)) then
        ret (w64 (basePtr + Z.land w_bufferPtr (MASK (pageBitsForSize size))))
      else ret 0
  | _ => ret 0
  end.

(** Root, index and depth of the slot to receive into. *)
Definition loadCapTransfer (buffer : Z) : M kstate (Z * Z * Z) :=
  let offset := seL4_MsgMaxLength + seL4_MsgMaxExtraCaps + 2 in
  let* root := word_get (word_at buffer offset) in
  let* index := word_get (word_at buffer (offset + 1)) in
  let* depth := word_get (word_at buffer (offset + 2)) in
  ret (root, index, depth).

Definition getReceiveSlots (thread buffer : Z) : M kstate Z :=
  if buffer =? 0 then ret 0
  else
    let* '(cptr, index, depth) := loadCapTransfer buffer in
    let* '(status, cnode) := lookupCap thread cptr in
    if negb (bool_decide (status = EXCEPTION_NONE)) then ret 0
    else
      let* '(status, slot) := lookupTargetSlot cnode index depth in
      if negb (bool_decide (status = EXCEPTION_NONE)) then ret 0
      else
        let* e := cte_get slot in
        if negb (is_null (cte_cap e)) then ret 0 else ret slot.

(** ** Fault messages, api/faults.c *)
Definition lookup_fault_get_lufType (luf : lookup_fault_t) : Z :=
  match luf with
  | lookup_fault_invalid_root => 0
  | lookup_fault_missing_capability _ => 1
  | lookup_fault_depth_mismatch _ _ => 2
  | lookup_fault_guard_mismatch _ _ _ => 3
  end.
Definition seL4_Fault_get_seL4_FaultType (f : seL4_Fault_t) : Z :=
  match f with
  | seL4_Fault_NullFault => 0
  | seL4_Fault_CapFault _ _ => 1
  | seL4_Fault_UnknownSyscall _ => 2
  | seL4_Fault_UserException _ _ => 3
  | seL4_Fault_VMFault _ _ _ => 5
  end.
Definition seL4_CapFault_LookupFailureType : Z := 3.
Definition b2w (b : bool) : Z := if b then 1 else 0.

Definition setMRs_lookup_failure (receiver receiveIPCBuffer : Z) (luf : lookup_fault_t) (offset : Z) : M kstate Z :=
  let* i := setMR receiver receiveIPCBuffer offset (lookup_fault_get_lufType luf + 1) in
  do* assert_ ((offset =? seL4_CapFault_LookupFailureType) || (offset =? 1)) in
  match luf with
  | lookup_fault_invalid_root => ret i
  | lookup_fault_missing_capability bitsLeft => setMR receiver receiveIPCBuffer (offset + 1) bitsLeft
  | lookup_fault_depth_mismatch bitsFound bitsLeft =>
      do* setMR receiver receiveIPCBuffer (offset + 1) bitsLeft in
      setMR receiver receiveIPCBuffer (offset + 2) bitsFound
  | lookup_fault_guard_mismatch guardFound bitsLeft bitsFound =>
      do* setMR receiver receiveIPCBuffer (offset + 1) bitsLeft in
      do* setMR receiver receiveIPCBuffer (offset + 2) guardFound in
      setMR receiver receiveIPCBuffer (offset + 3) bitsFound
  end.

(** The two loops of [copyMRsFault]. *)
Fixpoint copyMRsFault_inline (sender receiver : Z) (id : MessageID_t) (i : Z) (n : nat) : M kstate unit :=
  match n with
  | O => ret tt
  | S n =>
      let* f := reg_at (fault_messages id) i in
      let* v := getRegister sender f in
      let* r := reg_at msgRegisters i in
      do* setRegister receiver r v in
      copyMRsFault_inline sender receiver id (i + 1) n
  end.
Fixpoint copyMRsFault_buffer (sender receiveIPCBuffer : Z) (id : MessageID_t) (i : Z) (n : nat) : M kstate unit :=
  match n with
  | O => ret tt
  | S n =>
      let* f := reg_at (fault_messages id) i in
      let* v := getRegister sender f in
      do* word_set (word_at receiveIPCBuffer (i + 1)) v in
      copyMRsFault_buffer sender receiveIPCBuffer id (i + 1) n
  end.
Definition copyMRsFault (sender receiver : Z) (id : MessageID_t) (length receiveIPCBuffer : Z) : M kstate unit :=
  let i := Z.min length n_msgRegisters in
  do* copyMRsFault_inline sender receiver id 0 (Z.to_nat i) in
  if negb (receiveIPCBuffer =? 0) then copyMRsFault_buffer sender receiveIPCBuffer id i (Z.to_nat (length - i))
  else ret tt.

(** The two loops of [copyMRsFaultReply]. *)
Fixpoint copyMRsFaultReply_inline (sender receiver : Z) (id : MessageID_t) (archInfo : bool) (i : Z) (n : nat) : M kstate unit :=
  match n with
  | O => ret tt
  | S n =>
      let* r := reg_at (fault_messages id) i in
      let* m := reg_at msgRegisters i in
      let* v := getRegister sender m in
      do* setRegister receiver r (sanitiseRegister r v archInfo) in
      copyMRsFaultReply_inline sender receiver id archInfo (i + 1) n
  end.
Fixpoint copyMRsFaultReply_buffer (sendBuf receiver : Z) (id : MessageID_t) (archInfo : bool) (i : Z) (n : nat) : M kstate unit :=
  match n with
  | O => ret tt
  | S n =>
      let* r := reg_at (fault_messages id) i in
      let* v := word_get (word_at sendBuf (i + 1)) in
      do* setRegister receiver r (sanitiseRegister r v archInfo) in
      copyMRsFaultReply_buffer sendBuf receiver id archInfo (i + 1) n
  end.
Definition copyMRsFaultReply (sender receiver : Z) (id : MessageID_t) (length : Z) : M kstate unit :=
  let archInfo := Arch_getSanitiseRegisterInfo receiver in
  let i := Z.min length n_msgRegisters in
  do* copyMRsFaultReply_inline sender receiver id archInfo 0 (Z.to_nat i) in
  if i <? length then
    let* sendBuf := lookupIPCBuffer false sender in
    if negb (sendBuf =? 0) then copyMRsFaultReply_buffer sendBuf receiver id archInfo i (Z.to_nat (length - i)) else ret tt
  else ret tt.

Definition Arch_handleFaultReply (fault : seL4_Fault_t) : M kstate bool :=
  match fault with seL4_Fault_VMFault _ _ _ => ret true | _ => fail AssertFail end.

Definition handleFaultReply (receiver sender : Z) : M kstate bool :=
  let* w := getRegister sender msgInfoRegister in
  let tag := messageInfoFromWord w in
  let label := mi_label tag in
  let length := mi_length tag in
  let* r := tcb_get receiver in
  match tcbFault r with
  | seL4_Fault_CapFault _ _ => ret true
  | seL4_Fault_UnknownSyscall _ =>
      do* copyMRsFaultReply sender receiver MessageID_Syscall (Z.min length n_syscallMessage) in ret (label =? 0)
  | seL4_Fault_UserException _ _ =>
      do* copyMRsFaultReply sender receiver MessageID_Exception (Z.min length n_exceptionMessage) in ret (label =? 0)
  | f => Arch_handleFaultReply f
  end.

Definition Arch_setMRs_fault (sender receiver receiveIPCBuffer : Z) (fault : seL4_Fault_t) : M kstate Z :=
  match fault with
  | seL4_Fault_VMFault address FSR instructionFault =>
      let* pc := getRestartPC sender in
      do* setMR receiver receiveIPCBuffer 0 pc in
      do* setMR receiver receiveIPCBuffer 1 address in
      do* setMR receiver receiveIPCBuffer 2 (b2w instructionFault) in
      setMR receiver receiveIPCBuffer 3 FSR
  | _ => fail AssertFail
  end.

Definition setMRs_fault (sender receiver receiveIPCBuffer : Z) : M kstate Z :=
  let* s := tcb_get sender in
  match tcbFault s with
  | seL4_Fault_CapFault address inReceivePhase =>
      let* pc := getRestartPC sender in
      do* setMR receiver receiveIPCBuffer 0 pc in
      do* setMR receiver receiveIPCBuffer 1 address in
      do* setMR receiver receiveIPCBuffer 2 (b2w inReceivePhase) in
      setMRs_lookup_failure receiver receiveIPCBuffer (tcbLookupFailure s) seL4_CapFault_LookupFailureType
  | seL4_Fault_UnknownSyscall syscallNumber =>
      do* copyMRsFault sender receiver MessageID_Syscall n_syscallMessage receiveIPCBuffer in
      setMR receiver receiveIPCBuffer n_syscallMessage syscallNumber
  | seL4_Fault_UserException number code =>
      do* copyMRsFault sender receiver MessageID_Exception n_exceptionMessage receiveIPCBuffer in
      do* setMR receiver receiveIPCBuffer n_exceptionMessage number in
      setMR receiver receiveIPCBuffer (n_exceptionMessage + 1) code
  | f => Arch_setMRs_fault sender receiver receiveIPCBuffer f
  end.

Definition setMRs_syscall_error (thread receiveIPCBuffer : Z) : M kstate Z :=
  let* e := gets current_syscall_error in
  match err_type e with
  | seL4_InvalidArgument => setMR thread receiveIPCBuffer 0 (invalidArgumentNumber e)
  | seL4_InvalidCapability => setMR thread receiveIPCBuffer 0 (invalidCapNumber e)
  | seL4_IllegalOperation => ret 0
  | seL4_RangeError =>
      do* setMR thread receiveIPCBuffer 0 (rangeErrorMin e) in
      setMR thread receiveIPCBuffer 1 (rangeErrorMax e)
  | seL4_AlignmentError => ret 0
  | seL4_FailedLookup =>
      do* setMR thread receiveIPCBuffer 0 (b2w (failedLookupWasSource e)) in
      let* luf := gets current_lookup_fault in
      setMRs_lookup_failure thread receiveIPCBuffer luf 1
  | seL4_TruncatedMessage | seL4_DeleteFirst | seL4_RevokeFirst => ret 0
  | seL4_NotEnoughMemory => setMR thread receiveIPCBuffer 0 (memoryLeft e)
  | seL4_NoError => fail AssertFail
  end.

(** ** Transfer of a message, kernel/thread.c *)
Definition doNBRecvFailedTransfer (thread : Z) : M kstate unit := setRegister thread badgeRegister 0.

(** The loop of [transferCaps] over the slots left, from [i]; the slot to receive
    into is [destSlot], 0 once it is used. *)
Fixpoint transferCaps_loop (info : seL4_MessageInfo_t) (caps : list Z) (endpoint receiveBuffer destSlot i : Z) :
    M kstate (seL4_MessageInfo_t * Z) :=
  match caps with
  | [] => ret (info, i)
  | slot :: caps' =>
      if slot =? 0 then ret (info, i)
      else
        let* e := cte_get slot in
        let c := cte_cap e in
        match (match c with cap_endpoint_cap badge _ _ _ _ ep => if ep =? endpoint then Some badge else None | _ => None end) with
        | Some badge =>
            do* setExtraBadge receiveBuffer badge i in
            let info := seL4_MessageInfo_set_capsUnwrapped info (Z.lor (mi_capsUnwrapped info) (Z.shiftl 1 i)) in
            transferCaps_loop info caps' endpoint receiveBuffer destSlot (i + 1)
        | None =>
            if destSlot =? 0 then ret (info, i)
            else
              let* '(status, dc) := deriveCap slot c in
              if negb (bool_decide (status = EXCEPTION_NONE)) then ret (info, i)
              else if is_null dc then ret (info, i)
              else
                do* cteInsert dc slot destSlot in
                transferCaps_loop info caps' endpoint receiveBuffer 0 (i + 1)
        end
  end.

Definition transferCaps (info : seL4_MessageInfo_t) (caps : list Z) (endpoint receiver receiveBuffer : Z) :
    M kstate seL4_MessageInfo_t :=
  let info := seL4_MessageInfo_set_extraCaps info 0 in
  let info := seL4_MessageInfo_set_capsUnwrapped info 0 in
  if (default 0 (caps !! 0%nat) =? 0) || (receiveBuffer =? 0) then ret info
  else
    let* destSlot := getReceiveSlots receiver receiveBuffer in
    let* '(info, i) := transferCaps_loop info (take (Z.to_nat seL4_MsgMaxExtraCaps) caps) endpoint receiveBuffer destSlot 0 in
    ret (seL4_MessageInfo_set_extraCaps info i).

Definition doNormalTransfer (sender sendBuffer endpoint badge : Z) (canGrant : bool) (receiver receiveBuffer : Z) : M kstate unit :=
  let* w := getRegister sender msgInfoRegister in
  let tag := messageInfoFromWord w in
  let* caps :=
    (if canGrant then
       let* status := lookupExtraCaps sender sendBuffer tag in
       let* caps := gets current_extra_caps in
       ret (if negb (bool_decide (status = EXCEPTION_NONE)) then <[0%nat := 0]> caps else caps)
     else
       let* caps := gets current_extra_caps in ret (<[0%nat := 0]> caps)) in
  let* msgTransferred := copyMRs sender sendBuffer receiver receiveBuffer (mi_length tag) in
  let* tag := transferCaps tag caps endpoint receiver receiveBuffer in
  let tag := seL4_MessageInfo_set_length tag msgTransferred in
  do* setRegister receiver msgInfoRegister (wordFromMessageInfo tag) in
  setRegister receiver badgeRegister badge.

Definition doFaultTransfer (badge sender receiver receiverIPCBuffer : Z) : M kstate unit :=
  let* sent := setMRs_fault sender receiver receiverIPCBuffer in
  let* s := tcb_get sender in
  let msgInfo := seL4_MessageInfo_new (seL4_Fault_get_seL4_FaultType (tcbFault s)) 0 0 sent in
  do* setRegister receiver msgInfoRegister (wordFromMessageInfo msgInfo) in
  setRegister receiver badgeRegister badge.

Definition doIPCTransfer (sender endpoint badge : Z) (grant : bool) (receiver : Z) : M kstate unit :=
  let* receiveBuffer := lookupIPCBuffer true receiver in
  let* s := tcb_get sender in
  if bool_decide (tcbFault s = seL4_Fault_NullFault) then
    let* sendBuffer := lookupIPCBuffer false sender in
    doNormalTransfer sender sendBuffer endpoint badge grant receiver receiveBuffer
  else doFaultTransfer badge sender receiver receiveBuffer.

(** ** Replies of the kernel, object/endpoint.c *)
Definition seL4_Error_word (e : seL4_Error) : Z :=
  match e with
  | seL4_NoError => 0 | seL4_InvalidArgument => 1 | seL4_InvalidCapability => 2 | seL4_IllegalOperation => 3
  | seL4_RangeError => 4 | seL4_AlignmentError => 5 | seL4_FailedLookup => 6 | seL4_TruncatedMessage => 7
  | seL4_DeleteFirst => 8 | seL4_RevokeFirst => 9 | seL4_NotEnoughMemory => 10
  end.

Definition replyFromKernel_error (thread : Z) : M kstate unit :=
  let* ipcBuffer := lookupIPCBuffer true thread in
  do* setRegister thread badgeRegister 0 in
  let* len := setMRs_syscall_error thread ipcBuffer in
  let* e := gets current_syscall_error in
  setRegister thread msgInfoRegister (wordFromMessageInfo (seL4_MessageInfo_new (seL4_Error_word (err_type e)) 0 0 len)).

Definition replyFromKernel_success_empty (thread : Z) : M kstate unit :=
  do* setRegister thread badgeRegister 0 in
  setRegister thread msgInfoRegister (wordFromMessageInfo (seL4_MessageInfo_new 0 0 0 0)).
