(* ===== verification/KVspace.v ===== *)
(** * Address spaces

    Page tables and address-space identifiers on 64-bit ARM:
    kernel/src/arch/arm/64/kernel/vspace.c without its boot code and without the
    invocations, which KMmu.v holds.  Entries are words of memory, laid out as
    kernel/include/arch/arm/arch/64/mode/object/structures.bf says. *)

From S2P Require Import Prelude KCaps KState KSched KCspace KMdb KMsg.

(** ** Constants of the address-space layout *)
Definition asidLowBits : Z := 9.
Definition asidHighBits : Z := 7.
Definition nASIDPools : Z := BIT asidHighBits.
Definition seL4_PageBits : Z := 12.
Definition PT_INDEX_OFFSET : Z := 12.
Definition PD_INDEX_OFFSET : Z := 21.
Definition PUD_INDEX_OFFSET : Z := 30.
Definition PGD_INDEX_OFFSET : Z := 39.
Definition INDEX_BITS : Z := 9.
Definition GET_PGD_INDEX (x : Z) : Z := Z.land (Z.shiftr x PGD_INDEX_OFFSET) (MASK INDEX_BITS).
Definition GET_PUD_INDEX (x : Z) : Z := Z.land (Z.shiftr x PUD_INDEX_OFFSET) (MASK INDEX_BITS).
Definition GET_PD_INDEX (x : Z) : Z := Z.land (Z.shiftr x PD_INDEX_OFFSET) (MASK INDEX_BITS).
Definition GET_PT_INDEX (x : Z) : Z := Z.land (Z.shiftr x PT_INDEX_OFFSET) (MASK INDEX_BITS).
Definition USER_TOP : Z := 0x00007fffffffffff.
Definition kernelBase : Z := 0xffffff8000000000.

(** ** Table entries *)

(** The two low bits of an entry. *)
Definition entry_type (e : Z) : Z := Z.land e 0x3.
Definition TABLE : Z := 3.
Definition BLOCK : Z := 1.

(** [pgde_pud], [pude_pd] and [pde_small]: the address of the next table. *)
Definition TABLE_MASK : Z := 0xfffffffff000.
Definition table_new (base : Z) : Z := Z.lor (Z.land base TABLE_MASK) TABLE.
Definition table_base (e : Z) : Z := Z.land e TABLE_MASK.

(** [pude_1g], [pde_large] and [pte]: the address of a frame under [mask], and what
    may be done with it. *)
Definition PUDE_1G_MASK : Z := 0xffffc0000000.
Definition PDE_LARGE_MASK : Z := 0xffffffe00000.
Definition PTE_MASK : Z := 0xfffffffff000.
Definition leaf_new (mask : Z) (UXN : bool) (base nG AF SH AP AttrIndx type : Z) : Z :=
  Z.lor (Z.lor (Z.lor (Z.lor (Z.lor (Z.lor (Z.lor (Z.shiftl (b2w UXN) 54) (Z.land base mask)) (Z.shiftl nG 11))
    (Z.shiftl AF 10)) (Z.shiftl SH 8)) (Z.shiftl AP 6)) (Z.shiftl AttrIndx 2)) type.

(** [block ttbr]. *)
Definition ttbr_new (asid base : Z) : Z := Z.lor (Z.shiftl (Z.land asid (MASK 16)) 48) (Z.land base (MASK 48)).

(** [block vm_attributes]. *)
Definition armPageCacheable (attributes : Z) : bool := Z.testbit attributes 0.
Definition armExecuteNever (attributes : Z) : bool := Z.testbit attributes 2.

(** [enum mair_types]. *)
Definition DEVICE_nGnRnE : Z := 0.
Definition NORMAL : Z := 4.

Definition APFromVMRights (r : vm_rights) : Z :=
  match r with VMKernelOnly => 0 | VMReadWrite => 1 | VMKernelReadOnly => 2 | VMReadOnly => 3 end.

(** The entry for a user frame: not global, accessed, not shared on one core. *)
Definition user_leaf (mask paddr : Z) (r : vm_rights) (attributes type : Z) : Z :=
  leaf_new mask (armExecuteNever attributes) paddr 1 1 0 (APFromVMRights r)
    (if armPageCacheable attributes then NORMAL else DEVICE_nGnRnE) type.
Definition makeUser3rdLevel (paddr : Z) (r : vm_rights) (attributes : Z) : Z := user_leaf PTE_MASK paddr r attributes TABLE.
Definition makeUser2ndLevel (paddr : Z) (r : vm_rights) (attributes : Z) : Z := user_leaf PDE_LARGE_MASK paddr r attributes BLOCK.
Definition makeUser1stLevel (paddr : Z) (r : vm_rights) (attributes : Z) : Z := user_leaf PUDE_1G_MASK paddr r attributes BLOCK.

(** Entry [i] of a table, and access to it. *)
Definition entry_at (table i : Z) : Z := w64 (table + i * 8).
Definition entry_get (p : Z) : M kstate Z := if p =? 0 then fail NullDeref else word_get p.
Definition entry_set (p e : Z) : M kstate unit := if p =? 0 then fail NullDeref else word_set p e.

(** [armKSASIDTable], an array of pointers to pools. *)
Definition asid_pool_of (k : kstate) (i : Z) : Z := default 0 (armKSASIDTable k !! i).
Definition asid_table_get (i : Z) : M kstate Z :=
  if (0 <=? i) && (i <? nASIDPools) then gets (fun k => asid_pool_of k i) else fail OutOfBounds.
Definition asid_table_set (i p : Z) : M kstate unit :=
  if (0 <=? i) && (i <? nASIDPools) then modify (upd_armKSASIDTable (insert i p)) else fail OutOfBounds.

Definition isVTableRoot (c : cap) : bool := match c with cap_page_global_directory_cap _ _ _ => true | _ => false end.
Definition isValidNativeRoot (c : cap) : bool :=
  match c with cap_page_global_directory_cap _ _ mapped => mapped | _ => false end.

Section Vspace.
Context `{C : KConfig}.

Definition BASE_OFFSET : Z := kernelBase - physBase.
Definition paddr_to_pptr (paddr : Z) : Z := w64 (paddr + BASE_OFFSET).
Definition pptr_to_paddr (pptr : Z) : Z := w64 (pptr - BASE_OFFSET).

Definition no_root : M kstate (exception_t * Z) :=
  do* set_lookup_fault lookup_fault_invalid_root in ret (EXCEPTION_LOOKUP_FAULT, 0).
Definition findVSpaceForASID (asid : Z) : M kstate (exception_t * Z) :=
  let* poolPtr := asid_table_get (Z.shiftr asid asidLowBits) in
  if poolPtr =? 0 then no_root
  else
    let* vspace_root := entry_get (entry_at poolPtr (Z.land asid (MASK asidLowBits))) in
    if vspace_root =? 0 then no_root else ret (EXCEPTION_NONE, vspace_root).

(** ** Walking the tables *)
Definition no_table (offset : Z) : M kstate (exception_t * Z) :=
  do* set_lookup_fault (lookup_fault_missing_capability offset) in ret (EXCEPTION_LOOKUP_FAULT, 0).

Definition lookupPGDSlot (vspace vptr : Z) : Z := entry_at vspace (GET_PGD_INDEX vptr).
Definition lookupPUDSlot (vspace vptr : Z) : M kstate (exception_t * Z) :=
  let* pgde := entry_get (lookupPGDSlot vspace vptr) in
  if negb (entry_type pgde =? TABLE) then no_table PGD_INDEX_OFFSET
  else ret (EXCEPTION_NONE, entry_at (paddr_to_pptr (table_base pgde)) (GET_PUD_INDEX vptr)).
Definition lookupPDSlot (vspace vptr : Z) : M kstate (exception_t * Z) :=
  let* '(status, pudSlot) := lookupPUDSlot vspace vptr in
  if negb (bool_decide (status = EXCEPTION_NONE)) then ret (status, 0)
  else
    let* pude := entry_get pudSlot in
    if negb (entry_type pude =? TABLE) then no_table PUD_INDEX_OFFSET
    else ret (EXCEPTION_NONE, entry_at (paddr_to_pptr (table_base pude)) (GET_PD_INDEX vptr)).
Definition lookupPTSlot (vspace vptr : Z) : M kstate (exception_t * Z) :=
  let* '(status, pdSlot) := lookupPDSlot vspace vptr in
  if negb (bool_decide (status = EXCEPTION_NONE)) then ret (status, 0)
  else
    let* pde := entry_get pdSlot in
    if negb (entry_type pde =? TABLE) then no_table PD_INDEX_OFFSET
    else ret (EXCEPTION_NONE, entry_at (paddr_to_pptr (table_base pde)) (GET_PT_INDEX vptr)).

(** [lookupFrame]: base and size of the frame at [vptr], if there is one. *)
Definition lookupFrame (vspace vptr : Z) : M kstate (option (Z * vm_page_size)) :=
  let* '(status, pudSlot) := lookupPUDSlot vspace vptr in
  if negb (bool_decide (status = EXCEPTION_NONE)) then ret None
  else
    let* pude := entry_get pudSlot in
    if entry_type pude =? BLOCK then ret (Some (Z.land pude PUDE_1G_MASK, ARMHugePage))
    else if entry_type pude =? TABLE then
      let* pde := entry_get (entry_at (paddr_to_pptr (table_base pude)) (GET_PD_INDEX vptr)) in
      if entry_type pde =? BLOCK then ret (Some (Z.land pde PDE_LARGE_MASK, ARMLargePage))
      else if entry_type pde =? TABLE then
        let* pte := entry_get (entry_at (paddr_to_pptr (table_base pde)) (GET_PT_INDEX vptr)) in
        if entry_type pte =? TABLE then ret (Some (Z.land pte PTE_MASK, ARMSmallPage)) else ret None
      else ret None
    else ret None.

(** ** The current address space *)
Definition armv_contextSwitch (vspace asid : Z) : M kstate unit :=
  event (setCurrentUserVSpaceRoot (ttbr_new asid (pptr_to_paddr vspace))).

Definition set_global_root : M kstate unit :=
  event (setCurrentUserVSpaceRoot (ttbr_new 0 (pptr_to_paddr armKSGlobalUserPGD))).
Definition setVMRoot (tcb : Z) : M kstate unit :=
  let* e := cte_get (TCB_PTR_CTE_PTR tcb tcbVTable) in
  match cte_cap e with
  | cap_page_global_directory_cap asid pgd true =>
      let* '(status, vspace_root) := findVSpaceForASID asid in
      if negb (bool_decide (status = EXCEPTION_NONE)) || negb (vspace_root =? pgd) then set_global_root
      else armv_contextSwitch pgd asid
  | _ => set_global_root
  end.

Definition setVMRootForFlush (vspace asid : Z) : M kstate bool :=
  let* cur := gets ksCurThread in
  let* e := cte_get (TCB_PTR_CTE_PTR cur tcbVTable) in
  let same := match cte_cap e with cap_page_global_directory_cap _ pgd true => pgd =? vspace | _ => false end in
  if same then ret false else do* armv_contextSwitch vspace asid in ret true.

(** [hw_asid_t], the type of [invalidateTranslationASID]'s argument, has eight bits. *)
Definition invalidateTLBByASID (asid : Z) : M kstate unit := event (invalidateTranslationASID (asid mod 2 ^ 8)).
Definition invalidateTLBByASIDVA (asid vaddr : Z) : M kstate unit :=
  event (invalidateTranslationSingle (Z.lor (w64 (Z.shiftl asid 48)) (Z.shiftr vaddr seL4_PageBits))).

(** ** Unmapping *)

(** Whether a table is mapped at [vaddr]: its slot, or zero. *)
Definition pageUpperDirectoryMapped (asid vaddr pud : Z) : M kstate Z :=
  let* '(status, vspace_root) := findVSpaceForASID asid in
  if negb (bool_decide (status = EXCEPTION_NONE)) then ret 0
  else
    let pgdSlot := lookupPGDSlot vspace_root vaddr in
    let* pgde := entry_get pgdSlot in
    if (entry_type pgde =? TABLE) && (table_base pgde =? pptr_to_paddr pud) then ret pgdSlot else ret 0.
Definition pageDirectoryMapped (asid vaddr pd : Z) : M kstate Z :=
  let* '(status, vspace_root) := findVSpaceForASID asid in
  if negb (bool_decide (status = EXCEPTION_NONE)) then ret 0
  else
    let* '(status, pudSlot) := lookupPUDSlot vspace_root vaddr in
    if negb (bool_decide (status = EXCEPTION_NONE)) then ret 0
    else
      let* pude := entry_get pudSlot in
      if (entry_type pude =? TABLE) && (table_base pude =? pptr_to_paddr pd) then ret pudSlot else ret 0.
Definition pageTableMapped (asid vaddr pt : Z) : M kstate Z :=
  let* '(status, vspace_root) := findVSpaceForASID asid in
  if negb (bool_decide (status = EXCEPTION_NONE)) then ret 0
  else
    let* '(status, pdSlot) := lookupPDSlot vspace_root vaddr in
    if negb (bool_decide (status = EXCEPTION_NONE)) then ret 0
    else
      let* pde := entry_get pdSlot in
      if (entry_type pde =? TABLE) && (table_base pde =? pptr_to_paddr pt) then ret pdSlot else ret 0.

(** An entry is written and cleaned from the cache. *)
Definition entry_store (slot e : Z) : M kstate unit :=
  do* entry_set slot e in event (cleanByVA_PoU slot (pptr_to_paddr slot)).
Definition unmap_table (slot asid : Z) : M kstate unit :=
  if negb (slot =? 0) then do* entry_store slot 0 in invalidateTLBByASID asid else ret tt.

Definition unmapPageUpperDirectory (asid vaddr pud : Z) : M kstate unit :=
  let* pgdSlot := pageUpperDirectoryMapped asid vaddr pud in unmap_table pgdSlot asid.
Definition unmapPageDirectory (asid vaddr pd : Z) : M kstate unit :=
  let* pudSlot := pageDirectoryMapped asid vaddr pd in unmap_table pudSlot asid.
Definition unmapPageTable (asid vaddr pt : Z) : M kstate unit :=
  let* pdSlot := pageTableMapped asid vaddr pt in unmap_table pdSlot asid.

(** The slot a frame of this size goes in, with the mask of its address and the
    type of its entry. *)
Definition frame_slot (page_size : vm_page_size) (vspace vptr : Z) : M kstate (exception_t * Z) :=
  match page_size with
  | ARMSmallPage => lookupPTSlot vspace vptr
  | ARMLargePage => lookupPDSlot vspace vptr
  | ARMHugePage => lookupPUDSlot vspace vptr
  end.
Definition frame_mask (page_size : vm_page_size) : Z :=
  match page_size with ARMSmallPage => PTE_MASK | ARMLargePage => PDE_LARGE_MASK | ARMHugePage => PUDE_1G_MASK end.
Definition frame_type (page_size : vm_page_size) : Z := match page_size with ARMSmallPage => TABLE | _ => BLOCK end.

Definition unmapPage (page_size : vm_page_size) (asid vptr pptr : Z) : M kstate unit :=
  let addr := pptr_to_paddr pptr in
  let* '(status, vspace_root) := findVSpaceForASID asid in
  if negb (bool_decide (status = EXCEPTION_NONE)) then ret tt
  else
    let* '(status, slot) := frame_slot page_size vspace_root vptr in
    if negb (bool_decide (status = EXCEPTION_NONE)) then ret tt
    else
      let* e := entry_get slot in
      do* (if (entry_type e =? frame_type page_size) && (Z.land e (frame_mask page_size) =? addr) then entry_store slot 0
           else ret tt) in
      do* assert_ (asid <? BIT 16) in
      invalidateTLBByASIDVA asid vptr.

(** ** Identifiers that go away *)
Definition deleteASID (asid vspace : Z) : M kstate unit :=
  let* poolPtr := asid_table_get (Z.shiftr asid asidLowBits) in
  if poolPtr =? 0 then ret tt
  else
    let slot := entry_at poolPtr (Z.land asid (MASK asidLowBits)) in
    let* root := entry_get slot in
    if root =? vspace then
      do* invalidateTLBByASID asid in
      do* entry_set slot 0 in
      let* cur := gets ksCurThread in
      setVMRoot cur
    else ret tt.

(** The rounds of [deleteASIDPool] from [offset]. *)
Fixpoint flush_pool (asid_base pool offset : Z) (n : nat) : M kstate unit :=
  match n with
  | O => ret tt
  | S n =>
      let* root := entry_get (entry_at pool offset) in
      do* (if negb (root =? 0) then invalidateTLBByASID (asid_base + offset) else ret tt) in
      flush_pool asid_base pool (offset + 1) n
  end.
Definition deleteASIDPool (asid_base pool : Z) : M kstate unit :=
  do* assert_ (Z.land asid_base (MASK asidLowBits) =? 0) in
  let* p := asid_table_get (Z.shiftr asid_base asidLowBits) in
  if p =? pool then
    do* flush_pool asid_base pool 0 (Z.to_nat (BIT asidLowBits)) in
    do* asid_table_set (Z.shiftr asid_base asidLowBits) 0 in
    let* cur := gets ksCurThread in
    setVMRoot cur
  else ret tt.
End Vspace.
