(* ===== verification/KPages.v ===== *)
(** * Page tables: what a mapping means

    The words that page-table entries are, the walk through the tables, and the
    translation it gives (kernel/src/arch/arm/64/kernel/vspace.c).  Every slot of
    every address space is reached by one path only, so that writing a slot
    changes the translation of one range of one address space. *)

From S2P Require Import Prelude KCaps KCapThms KState KSched KCspace KMsg KVspace.

(** ** Entries as words *)

Lemma land_field x lo n : 0 <= lo -> 0 <= n -> Z.land x (Z.shiftl (MASK n) lo) = (x / 2 ^ lo) mod 2 ^ n * 2 ^ lo.
Proof.
  intros Hl Hn. rewrite <- (land_mask n), <- Z.shiftr_div_pow2, <- Z.shiftl_mul_pow2 by done. apply Z.bits_inj'. intros i Hi.
  rewrite Z.land_spec. destruct (decide (i < lo)).
  { by rewrite !Z.shiftl_spec_low, andb_false_r. }
  rewrite !Z.shiftl_spec by lia. rewrite Z.land_spec, Z.shiftr_spec by lia. do 2 f_equal. lia.
Qed.

(** The bits of the fields below the address. *)
Definition leaf_low (r : vm_rights) (attributes : Z) : Z :=
  2 ^ 11 + 2 ^ 10 + APFromVMRights r * 2 ^ 6 + (if armPageCacheable attributes then NORMAL else DEVICE_nGnRnE) * 2 ^ 2.

Lemma AP_small r : 0 <= APFromVMRights r < 4.
Proof. by destruct r. Qed.

Lemma user_leaf_word mask paddr r attributes type lo n : mask = Z.shiftl (MASK n) lo -> 12 <= lo -> 0 <= n -> lo + n = 48 ->
  0 <= paddr < 2 ^ 48 -> paddr mod 2 ^ lo = 0 -> 0 <= type < 4 ->
  user_leaf mask paddr r attributes type = b2w (armExecuteNever attributes) * 2 ^ 54 + paddr + leaf_low r attributes + type.
Proof.
  intros -> Hlo Hn Hs Hp Ha Ht. unfold user_leaf, leaf_new, leaf_low. rewrite land_field by lia.
  assert ((paddr / 2 ^ lo) mod 2 ^ n * 2 ^ lo = paddr) as ->.
  { rewrite Z.mod_small; [rewrite Z.mul_comm; symmetry; apply Z.div_exact; lia |].
    split; [apply Z.div_pos; lia |]. apply Z.div_lt_upper_bound; [lia |]. rewrite <- Z.pow_add_r by lia. rewrite Hs. lia. }
  set (at_ := if armPageCacheable attributes then NORMAL else DEVICE_nGnRnE).
  assert (0 <= at_ < 8) as Hat by (unfold at_; by destruct (armPageCacheable attributes)). pose proof (AP_small r).
  assert (exists q, paddr = q * 2 ^ 12 /\ 0 <= q < 2 ^ 36) as (q & -> & Hq).
  { exists (paddr / 2 ^ 12). assert (paddr mod 2 ^ 12 = 0).
    { apply Z.mod_divide; [done |]. apply Z.mod_divide in Ha; [|lia]. etransitivity; [|exact Ha]. exists (2 ^ (lo - 12)).
      rewrite <- Z.pow_add_r by lia. f_equal. lia. }
    split; [rewrite Z.mul_comm; by apply Z.div_exact | split; [apply Z.div_pos; lia | apply Z.div_lt_upper_bound; lia]]. }
  rewrite <- !Z.lor_assoc. rewrite <- (Z.shiftl_mul_pow2 q 12) by done. rewrite (Z.shiftl_0_l 8), Z.lor_0_l.
  rewrite (lor_add at_ type 2) by lia. rewrite (lor_add (APFromVMRights r) _ 6) by lia. rewrite (lor_add 1 _ 10) by lia.
  rewrite (lor_add 1 _ 11) by lia. rewrite (lor_add q _ 12) by lia.
  rewrite (lor_add (b2w _) _ 54), (Z.shiftl_mul_pow2 q) by lia. lia.
Qed.

(** The address, the rights and the type are read back from an entry. *)
Lemma leaf_low_small r attributes : 0 <= leaf_low r attributes < 2 ^ 12 /\ leaf_low r attributes mod 4 = 0 /\
  leaf_low r attributes / 2 ^ 6 mod 4 = APFromVMRights r.
Proof. unfold leaf_low, NORMAL, DEVICE_nGnRnE. destruct r, (armPageCacheable attributes); vm_compute; repeat split; discriminate. Qed.

Lemma user_leaf_fields mask paddr r attributes type lo n : mask = Z.shiftl (MASK n) lo -> 12 <= lo -> 0 <= n -> lo + n = 48 ->
  0 <= paddr < 2 ^ 48 -> paddr mod 2 ^ lo = 0 -> 0 <= type < 4 ->
  let e := user_leaf mask paddr r attributes type in
  entry_type e = type /\ Z.land e mask = paddr /\ Z.land (Z.shiftr e 6) 3 = APFromVMRights r.
Proof.
  intros Hm Hlo Hn Hs Hp Ha Ht e. subst e. rewrite (user_leaf_word mask paddr r attributes type lo n) by done.
  destruct (leaf_low_small r attributes) as (L1 & L2 & L3). set (b := b2w (armExecuteNever attributes)). set (l := leaf_low r attributes) in *. clearbody b l.
  assert (exists q, paddr = q * 2 ^ lo /\ 0 <= q < 2 ^ n) as (q & -> & Hq).
  { exists (paddr / 2 ^ lo). split; [rewrite Z.mul_comm; apply Z.div_exact; lia |]. split; [apply Z.div_pos; lia |].
    apply Z.div_lt_upper_bound; [lia |]. rewrite <- Z.pow_add_r by lia. rewrite Hs. lia. }
  assert (2 ^ lo = 4096 * 2 ^ (lo - 12)) as E12 by (change 4096 with (2 ^ 12); rewrite <- Z.pow_add_r by lia; f_equal; lia).
  assert (2 ^ 54 = 64 * (2 ^ n * 2 ^ lo)) as E54 by (rewrite <- Z.pow_add_r, (Z.add_comm n), Hs by lia; done).
  split; [|split].
  - unfold entry_type. change 3 with (MASK 2). rewrite land_mask by done. apply Z.div_exact in L2; [|done].
    symmetry. apply (Z.mod_unique_pos _ _ (b * 2 ^ 52 + q * (1024 * 2 ^ (lo - 12)) + l / 4)); [lia |]. change (2 ^ 2) with 4 in *. rewrite E12. lia.
  - rewrite Hm, land_field by lia. f_equal. rewrite <- (Z.div_unique_pos _ (2 ^ lo) (b * 64 * 2 ^ n + q) (l + type)); [| | rewrite E54; lia].
    { symmetry. apply (Z.mod_unique_pos _ _ (b * 64)); lia. }
    apply Z.div_exact in L2; [|done]. assert (0 < 2 ^ (lo - 12)) by lia. lia.
  - change 3 with (MASK 2). rewrite Z.shiftr_div_pow2, land_mask by done. change (2 ^ 2) with 4.
    rewrite <- L3. pose proof (Z.div_mod l 64 ltac:(done)). pose proof (Z.mod_pos_bound l 64 ltac:(done)).
    rewrite <- (Z.div_unique_pos _ (2 ^ 6) (b * 2 ^ 48 + q * (64 * 2 ^ (lo - 12)) + l / 64) (l mod 64 + type)).
    + change (2 ^ 6) with 64. rewrite <- (Z.mod_add (l / 64) (b * 2 ^ 46 + q * (16 * 2 ^ (lo - 12))) 4) by done. f_equal. lia.
    + assert (l mod 64 mod 4 = 0). { rewrite Z.mod_mod_divide; [done |]. by exists 16. } 
      apply Z.div_exact in H1; [|done]. lia.
    + change (2 ^ 6) with 64. rewrite E12. lia.
Qed.

Lemma TABLE_MASK_field : TABLE_MASK = Z.shiftl (MASK 36) 12.
Proof. done. Qed.
Lemma table_fields a : 0 <= a < 2 ^ 48 -> a mod 2 ^ 12 = 0 -> entry_type (table_new a) = TABLE /\ table_base (table_new a) = a.
Proof.
  intros Ha Hm. unfold table_new, table_base, entry_type, TABLE. rewrite TABLE_MASK_field, land_field by done.
  assert ((a / 2 ^ 12) mod 2 ^ 36 = a / 2 ^ 12) as ->.
  { apply Z.mod_small. split; [apply Z.div_pos; lia | apply Z.div_lt_upper_bound; lia]. }
  rewrite <- Z.shiftl_mul_pow2, lor_add by done. apply Z.div_exact in Hm; [|done]. split.
  - change 3 with (MASK 2) at 2. rewrite land_mask by done. symmetry. apply (Z.mod_unique_pos _ _ (a / 2 ^ 12 * 2 ^ 10)); lia.
  - rewrite land_field by done. rewrite <- (Z.div_unique_pos _ (2 ^ 12) (a / 2 ^ 12) 3) by lia.
    rewrite Z.mod_small; [lia |]. split; [apply Z.div_pos; lia | apply Z.div_lt_upper_bound; lia].
Qed.

(** ** The walk *)

(** The word at an address, and how far the address range of a slot of level [l]
    reaches: 39, 30, 21 and 12 bits. *)
Definition mem (k : kstate) (a : Z) : Z := default 0 (k_word k !! a).
Definition shift_of (l : nat) : Z := 39 - 9 * Z.of_nat l.
Definition index (l : nat) (v : Z) : Z := Z.land (Z.shiftr v (shift_of l)) (MASK INDEX_BITS).
Definition prefix (l : nat) (v : Z) : Z := Z.shiftr v (shift_of l).

Section Walk.
Context `{C : KConfig}.

Definition next_table (e : Z) : option Z := if entry_type e =? TABLE then Some (paddr_to_pptr (table_base e)) else None.
(** The slot of level [l] on the way to [v]. *)
Fixpoint walk (m : Z -> Z) (root v : Z) (l : nat) : option Z :=
  match l with
  | O => Some (entry_at root (index 0 v))
  | S l' => t ← (s ← walk m root v l'; next_table (m s)); Some (entry_at t (index l v))
  end.

(** The entry that maps [v], and the size of its frame. *)
Definition level_of (s : vm_page_size) : nat := match s with ARMHugePage => 1 | ARMLargePage => 2 | ARMSmallPage => 3 end.
Definition leaf_at (m : Z -> Z) (root v : Z) (sz : vm_page_size) : option Z :=
  s ← walk m root v (level_of sz); if entry_type (m s) =? frame_type sz then Some (m s) else None.
Definition leaf (m : Z -> Z) (root v : Z) : option (Z * vm_page_size) :=
  match leaf_at m root v ARMHugePage with
  | Some e => Some (e, ARMHugePage)
  | None =>
      match leaf_at m root v ARMLargePage with
      | Some e => Some (e, ARMLargePage)
      | None => e ← leaf_at m root v ARMSmallPage; Some (e, ARMSmallPage)
      end
  end.

(** What depends on the address only through its upper bits. *)
Lemma prefix_mono l l' v v' : (l' <= l <= 3)%nat -> prefix l v = prefix l v' -> prefix l' v = prefix l' v'.
Proof.
  unfold prefix, shift_of. intros Hl He. rewrite !Z.shiftr_div_pow2 in * by lia.
  replace (39 - 9 * Z.of_nat l') with ((39 - 9 * Z.of_nat l) + 9 * (Z.of_nat l - Z.of_nat l')) by lia.
  rewrite !Z.pow_add_r, <- !Z.div_div by lia. by rewrite He.
Qed.
Lemma walk_prefix m root v v' l : (l <= 3)%nat -> prefix l v = prefix l v' -> walk m root v l = walk m root v' l.
Proof.
  induction l as [|l IH]; intros Hl He; simpl; unfold index.
  - unfold prefix in He. by rewrite He.
  - rewrite (IH ltac:(lia) (prefix_mono (S l) l v v' ltac:(lia) He)). unfold prefix in He. by rewrite He.
Qed.

(** ** Writing one entry *)

Definition is_vaddr (v : Z) : Prop := 0 <= v < 2 ^ 48.
(** Among the address spaces with the roots [R], a slot lies on one path only. *)
Record tree_ok (m : Z -> Z) (R : Z -> Prop) : Prop := {
  tk_unique r r' v v' l l' s : R r -> R r' -> (l <= 3)%nat -> (l' <= 3)%nat -> is_vaddr v -> is_vaddr v' ->
    walk m r v l = Some s -> walk m r' v' l' = Some s -> r = r' /\ l = l' /\ prefix l v = prefix l v';
  tk_nonnull r v l s : R r -> (l <= 3)%nat -> is_vaddr v -> walk m r v l = Some s -> s <> 0 }.

Definition upd (m : Z -> Z) (s e : Z) (a : Z) : Z := if decide (a = s) then e else m a.
Lemma upd_same m s e : upd m s e s = e.
Proof. unfold upd. by rewrite decide_True. Qed.
Lemma upd_other m s e a : a <> s -> upd m s e a = m a.
Proof. unfold upd. intros. by rewrite decide_False. Qed.

Lemma next_table_none e : entry_type e <> TABLE -> next_table e = None.
Proof. unfold next_table. intros H. by rewrite (proj2 (Z.eqb_neq _ _) H). Qed.

Section Write.
Context (m : Z -> Z) (R : Z -> Prop) (r0 v0 s0 e : Z) (l0 : nat).
Hypothesis Htree : tree_ok m R.
Hypothesis Hr0 : R r0.
Hypothesis Hl0 : (l0 <= 3)%nat.
Hypothesis Hv0 : is_vaddr v0.
Hypothesis Hs0 : walk m r0 v0 l0 = Some s0.
(** The slot leads to no table, before or after. *)
Hypothesis Hend : l0 = 3%nat \/ entry_type (m s0) <> TABLE /\ entry_type e <> TABLE.

Lemma walk_upd r v l : R r -> (l <= 3)%nat -> is_vaddr v -> walk (upd m s0 e) r v l = walk m r v l.
Proof.
  intros Hr. induction l as [|l IH]; intros Hl Hv; simpl; [done |]. rewrite IH by (done || lia).
  destruct (walk m r v l) as [s|] eqn:E; simpl; [|done]. destruct (decide (s = s0)) as [->|N].
  - assert (l <= 3)%nat as Hl' by lia. destruct (tk_unique _ _ Htree _ _ _ _ _ _ _ Hr0 Hr Hl0 Hl' Hv0 Hv Hs0 E) as (_ & <- & _).
    rewrite upd_same. destruct Hend as [H3|[H1 H2]]; [lia |]. by rewrite !next_table_none.
  - by rewrite upd_other.
Qed.

Lemma tree_ok_upd : tree_ok (upd m s0 e) R.
Proof.
  split.
  - intros r r' v v' l l' s ??????. rewrite !walk_upd by done. by apply (tk_unique _ _ Htree).
  - intros r v l s ???. rewrite walk_upd by done. by apply (tk_nonnull _ _ Htree).
Qed.

Lemma leaf_at_upd r v sz : R r -> is_vaddr v -> leaf_at (upd m s0 e) r v sz =
  if decide (level_of sz = l0 /\ r = r0 /\ prefix l0 v = prefix l0 v0) then (if entry_type e =? frame_type sz then Some e else None)
  else leaf_at m r v sz.
Proof.
  intros Hr Hv. unfold leaf_at. assert (level_of sz <= 3)%nat as Hl by (destruct sz; simpl; lia). rewrite walk_upd by done.
  destruct (decide _) as [(<- & -> & Hp)|N].
  - rewrite (walk_prefix m r0 v v0) by done. rewrite Hs0. simpl. by rewrite upd_same.
  - destruct (walk m r v (level_of sz)) as [s|] eqn:E; simpl; [|done]. rewrite upd_other; [done |]. intros ->.
    destruct (tk_unique _ _ Htree _ _ _ _ _ _ _ Hr0 Hr Hl0 Hl Hv0 Hv Hs0 E) as (E1 & E2 & Hp). by apply N.
Qed.
End Write.

(** The entries above a slot are tables; nothing lies below a slot that is none. *)
Lemma walk_up m r v l s : walk m r v (S l) = Some s -> exists t, walk m r v l = Some t /\ entry_type (m t) = TABLE.
Proof.
  simpl. intros H. apply bind_Some in H as (t & H & _). apply bind_Some in H as (u & Hu & Ht). exists u. split; [done |].
  unfold next_table in Ht. case_match; [by apply Z.eqb_eq | done].
Qed.
Lemma walk_down m r v l s : walk m r v l = Some s -> entry_type (m s) <> TABLE -> walk m r v (S l) = None.
Proof. intros H Ht. simpl. rewrite H. simpl. by rewrite next_table_none. Qed.

Lemma leaf_at_above m r v sz s sz' : walk m r v (level_of sz) = Some s -> (level_of sz' < level_of sz)%nat -> leaf_at m r v sz' = None.
Proof.
  intros Hs Hl. assert (exists t, walk m r v (level_of sz') = Some t /\ entry_type (m t) = TABLE) as (t & Ht & Et).
  { destruct sz, sz'; simpl level_of in *; try lia; destruct (walk_up _ _ _ _ _ Hs) as (t & Ht & Et); eauto.
    destruct (walk_up _ _ _ _ _ Ht) as (t' & ? & ?). eauto. }
  unfold leaf_at. rewrite Ht. simpl. rewrite Et. destruct sz, sz'; simpl in *; (lia || done).
Qed.
Lemma leaf_at_below m r v sz s sz' : walk m r v (level_of sz) = Some s -> entry_type (m s) <> TABLE -> (level_of sz < level_of sz')%nat ->
  leaf_at m r v sz' = None.
Proof.
  intros Hs Ht Hl. assert (walk m r v (S (level_of sz)) = None) as Hn by by apply (walk_down _ _ _ _ s).
  assert (walk m r v (level_of sz') = None) as Hn'.
  { destruct sz, sz'; simpl level_of in *; try lia; try done. change (walk m r v 3) with (t ← (s ← walk m r v 2; next_table (m s)); Some (entry_at t (index 3 v))). by rewrite Hn. }
  unfold leaf_at. by rewrite Hn'.
Qed.

Lemma leaf_eq m r v sz : (forall sz', (level_of sz' < level_of sz)%nat -> leaf_at m r v sz' = None) ->
  (forall sz', (level_of sz < level_of sz')%nat -> leaf_at m r v sz' = None) ->
  leaf m r v = (e ← leaf_at m r v sz; Some (e, sz)).
Proof.
  intros Ha Hb. unfold leaf. destruct sz; simpl level_of in *.
  - by rewrite (Ha ARMHugePage), (Ha ARMLargePage) by (simpl; lia).
  - rewrite (Ha ARMHugePage), (Hb ARMSmallPage) by (simpl; lia). by destruct (leaf_at m r v ARMLargePage).
  - rewrite (Hb ARMLargePage), (Hb ARMSmallPage) by (simpl; lia). by destruct (leaf_at m r v ARMHugePage).
Qed.

(** Writing the slot of a frame changes the translation of that frame's addresses
    in that address space, and no other translation. *)
Lemma leaf_upd m (R : Z -> Prop) r0 v0 s0 e sz r v : tree_ok m R -> R r0 -> is_vaddr v0 -> walk m r0 v0 (level_of sz) = Some s0 ->
  sz = ARMSmallPage \/ entry_type (m s0) <> TABLE /\ entry_type e <> TABLE -> R r -> is_vaddr v ->
  leaf (upd m s0 e) r v =
    if decide (r = r0 /\ prefix (level_of sz) v = prefix (level_of sz) v0) then (if entry_type e =? frame_type sz then Some (e, sz) else None)
    else leaf m r v.
Proof.
  intros Ht Hr0 Hv0 Hs He Hr Hv. assert (level_of sz <= 3)%nat as Hl by (destruct sz; simpl; lia).
  assert (level_of sz = 3%nat \/ entry_type (m s0) <> TABLE /\ entry_type e <> TABLE) as He' by (destruct He as [->|?]; [left | right]; done).
  pose proof (fun sz' => leaf_at_upd m R r0 v0 s0 e (level_of sz) Ht Hr0 Hl Hv0 Hs He' r v sz' Hr Hv) as Hu.
  destruct (decide _) as [[-> Hp]|N].
  - assert (walk (upd m s0 e) r0 v (level_of sz) = Some s0) as Hw.
    { rewrite (walk_upd m R r0 v0 s0 e (level_of sz)) by done. by rewrite (walk_prefix m r0 v v0). }
    rewrite (leaf_eq _ _ _ sz).
    + rewrite Hu, decide_True by done. by case_match.
    + intros sz' Hlt. by apply (leaf_at_above _ _ _ sz s0).
    + intros sz' Hlt. apply (leaf_at_below _ _ _ sz s0); [done | | done]. rewrite upd_same.
      destruct He as [->|[_ ?]]; [destruct sz'; simpl in Hlt; lia | done].
  - unfold leaf. rewrite !Hu, !decide_False; [done | | |]; intros (_ & ? & ?); by apply N.
Qed.

(** ** The lookups walk *)

Definition nofault (k : kstate) : kstate := upd_current_lookup_fault (fun _ => lookup_fault_invalid_root) k.
(** Nothing but the lookup fault changes, and that only when nothing is found. *)
Definition looked_up (k : kstate) (o : option Z) (r : exception_t * Z) (k' : kstate) : Prop :=
  match o with
  | Some s => r = (EXCEPTION_NONE, s) /\ k' = k
  | None => r = (EXCEPTION_LOOKUP_FAULT, 0) /\ nofault k' = nofault k
  end.

Lemma wp_entry_get k p (Q : Z -> kstate -> Prop) F : p <> 0 -> Q (mem k p) k -> wp (entry_get p) Q F k.
Proof. intros Hp HQ. unfold entry_get. by rewrite (proj2 (Z.eqb_neq _ _) Hp). Qed.

Lemma walk_step k r v l s : walk (mem k) r v l = Some s -> s <> 0 -> forall o : Z,
  wp (let* e := entry_get s in
      if negb (entry_type e =? TABLE) then no_table o
      else ret (EXCEPTION_NONE, entry_at (paddr_to_pptr (table_base e)) (index (S l) v)))
    (looked_up k (walk (mem k) r v (S l))) (fun _ => False) k.
Proof.
  intros Hw Hs o. rewrite wp_bind. apply wp_entry_get; [done |]. simpl. rewrite Hw. simpl. unfold next_table.
  destruct (entry_type (mem k s) =? TABLE); simpl; [done |]. unfold no_table, set_lookup_fault. by wp_steps.
Qed.

(** ** Identifiers and their address spaces *)

Definition is_asid (a : Z) : Prop := 0 <= a < 2 ^ 16.
Definition vspace_of (k : kstate) (asid : Z) : option Z :=
  let p := asid_pool_of k (Z.shiftr asid asidLowBits) in
  if p =? 0 then None
  else let r := mem k (entry_at p (Z.land asid (MASK asidLowBits))) in if r =? 0 then None else Some r.
Definition roots (k : kstate) (r : Z) : Prop := exists asid, is_asid asid /\ vspace_of k asid = Some r.
(** A word of one of the pools in use. *)
Definition pool_slot (k : kstate) (a : Z) : Prop :=
  exists i j, 0 <= i < nASIDPools /\ 0 <= j < 2 ^ asidLowBits /\ asid_pool_of k i <> 0 /\ a = entry_at (asid_pool_of k i) j.

Record pages_ok (k : kstate) : Prop := {
  po_tree : tree_ok (mem k) (roots k);
  po_pools a : pool_slot k a -> a <> 0;
  po_unique i i' j j' : 0 <= i < nASIDPools -> 0 <= i' < nASIDPools -> 0 <= j < 2 ^ asidLowBits -> 0 <= j' < 2 ^ asidLowBits ->
    asid_pool_of k i <> 0 -> asid_pool_of k i' <> 0 -> entry_at (asid_pool_of k i) j = entry_at (asid_pool_of k i') j' -> i = i' /\ j = j';
  po_apart r v l s : roots k r -> is_vaddr v -> (l <= 3)%nat -> walk (mem k) r v l = Some s -> ~ pool_slot k s }.

Lemma asid_index asid : is_asid asid -> 0 <= Z.shiftr asid asidLowBits < nASIDPools /\ 0 <= Z.land asid (MASK asidLowBits) < 2 ^ asidLowBits.
Proof.
  unfold is_asid, asidLowBits, nASIDPools, asidHighBits. intros Ha. rewrite Z.shiftr_div_pow2, land_mask by done. split.
  - split; [apply Z.div_pos; lia |]. apply Z.div_lt_upper_bound; [lia |]. change (BIT 7) with 128. lia.
  - by apply Z.mod_pos_bound.
Qed.
Lemma wp_asid_table_get k i (Q : Z -> kstate -> Prop) F : 0 <= i < nASIDPools -> Q (asid_pool_of k i) k -> wp (asid_table_get i) Q F k.
Proof.
  intros Hi HQ. unfold asid_table_get. by rewrite (proj2 (Z.leb_le 0 i)), (proj2 (Z.ltb_lt i nASIDPools)) by lia.
Qed.

Section Lookup.
Context (k : kstate).
Hypothesis Hk : pages_ok k.

Lemma findVSpaceForASID_ok asid : is_asid asid -> wp (findVSpaceForASID asid) (looked_up k (vspace_of k asid)) (fun _ => False) k.
Proof.
  intros Ha. destruct (asid_index asid Ha) as [Hi Hj]. unfold findVSpaceForASID, vspace_of. rewrite wp_bind. apply wp_asid_table_get; [done |].
  destruct (Z.eqb_spec (asid_pool_of k (Z.shiftr asid asidLowBits)) 0); [unfold no_root, set_lookup_fault; by wp_steps |].
  rewrite wp_bind. apply wp_entry_get; [apply (po_pools _ Hk); by exists (Z.shiftr asid asidLowBits), (Z.land asid (MASK asidLowBits)) |].
  destruct (mem k _ =? 0); [unfold no_root, set_lookup_fault; by wp_steps | done].
Qed.

Context (r v : Z).
Hypothesis Hr : roots k r.
Hypothesis Hv : is_vaddr v.

Lemma slot_nonnull l s : (l <= 3)%nat -> walk (mem k) r v l = Some s -> s <> 0.
Proof. intros Hl. by apply (tk_nonnull _ _ (po_tree _ Hk)). Qed.

Lemma lookupPUDSlot_ok : wp (lookupPUDSlot r v) (looked_up k (walk (mem k) r v 1)) (fun _ => False) k.
Proof. apply (walk_step k r v 0); [done |]. apply (slot_nonnull 0); [lia | done]. Qed.

(** The next level of a walk. *)
Lemma walk_next (m : M kstate (exception_t * Z)) l o : (l < 3)%nat -> wp m (looked_up k (walk (mem k) r v l)) (fun _ => False) k ->
  wp (let* '(status, slot) := m in
      if negb (bool_decide (status = EXCEPTION_NONE)) then ret (status, 0)
      else
        let* e := entry_get slot in
        if negb (entry_type e =? TABLE) then no_table o
        else ret (EXCEPTION_NONE, entry_at (paddr_to_pptr (table_base e)) (index (S l) v)))
    (looked_up k (walk (mem k) r v (S l))) (fun _ => False) k.
Proof.
  intros Hl Hm. rewrite wp_bind. eapply wp_mono; [exact Hm | | done]. unfold looked_up at 1.
  destruct (walk (mem k) r v l) as [s|] eqn:E; intros ? k1 [-> Hk1]; simpl.
  - subst k1. apply (walk_step k r v l); [done |]. apply (slot_nonnull l); [lia | done].
  - simpl. rewrite E. simpl. done.
Qed.
Lemma lookupPDSlot_ok : wp (lookupPDSlot r v) (looked_up k (walk (mem k) r v 2)) (fun _ => False) k.
Proof. apply (walk_next _ 1 PUD_INDEX_OFFSET); [lia | exact lookupPUDSlot_ok]. Qed.
Lemma lookupPTSlot_ok : wp (lookupPTSlot r v) (looked_up k (walk (mem k) r v 3)) (fun _ => False) k.
Proof. apply (walk_next _ 2 PD_INDEX_OFFSET); [lia | exact lookupPDSlot_ok]. Qed.
Lemma frame_slot_ok sz : wp (frame_slot sz r v) (looked_up k (walk (mem k) r v (level_of sz))) (fun _ => False) k.
Proof. destruct sz; [exact lookupPTSlot_ok | exact lookupPDSlot_ok | exact lookupPUDSlot_ok]. Qed.

(** [lookupFrame] gives the frame that maps the address. *)
Definition frame_of (o : option (Z * vm_page_size)) : option (Z * vm_page_size) :=
  '(e, sz) ← o; Some (Z.land e (frame_mask sz), sz).
Lemma walk_S m l : walk m r v (S l) =
  match walk m r v l with
  | Some s => if entry_type (m s) =? TABLE then Some (entry_at (paddr_to_pptr (table_base (m s))) (index (S l) v)) else None
  | None => None
  end.
Proof. simpl. destruct (walk m r v l); simpl; [|done]. unfold next_table. by case_match. Qed.
#[local] Opaque walk.

Lemma lookupFrame_ok : wp (lookupFrame r v) (fun o k' => o = frame_of (leaf (mem k) r v) /\ nofault k' = nofault k) (fun _ => False) k.
Proof.
  unfold lookupFrame. rewrite wp_bind. eapply wp_mono; [exact lookupPUDSlot_ok | | done].
  unfold leaf, leaf_at, looked_up. cbn [level_of frame_type]. rewrite (walk_S (mem k) 2), (walk_S (mem k) 1).
  destruct (walk (mem k) r v 1) as [s1|] eqn:E1; intros ? k1 [-> Hk1]; simpl; [|done].
  subst k1. rewrite wp_bind. apply wp_entry_get; [apply (slot_nonnull 1); [lia | done] |].
  destruct (Z.eqb_spec (entry_type (mem k s1)) BLOCK) as [B|B]; [done |].
  destruct (Z.eqb_spec (entry_type (mem k s1)) TABLE) as [T|T]; [|done]. simpl.
  assert (walk (mem k) r v 2 = Some (entry_at (paddr_to_pptr (table_base (mem k s1))) (index 2 v))) as E2 by by rewrite walk_S, E1, T.
  rewrite wp_bind. apply wp_entry_get; [by apply (slot_nonnull 2); [lia |] |]. change (GET_PD_INDEX v) with (index 2 v).
  set (s2 := entry_at _ (index 2 v)) in *. destruct (Z.eqb_spec (entry_type (mem k s2)) BLOCK) as [B2|B2]; [done |].
  destruct (Z.eqb_spec (entry_type (mem k s2)) TABLE) as [T2|T2]; [|done]. simpl.
  assert (walk (mem k) r v 3 = Some (entry_at (paddr_to_pptr (table_base (mem k s2))) (index 3 v))) as E3 by by rewrite walk_S, E2, T2.
  rewrite wp_bind. apply wp_entry_get; [by apply (slot_nonnull 3); [lia |] |]. change (GET_PT_INDEX v) with (index 3 v).
  by destruct (entry_type _ =? TABLE).
Qed.
End Lookup.

(** ** Writing an entry of the kernel's tables *)

#[export] Instance walk_proper : Proper (pointwise_relation Z eq ==> eq ==> eq ==> eq ==> eq) walk.
Proof.
  intros m m' Hm r ? <- v ? <- l ? <-. induction l as [|l IH]; [done |]. rewrite !walk_S, IH.
  destruct (walk m' r v l) as [s|]; [|done]. by rewrite (Hm s).
Qed.
Lemma leaf_at_ext m m' r v sz : (forall a, m a = m' a) -> leaf_at m r v sz = leaf_at m' r v sz.
Proof.
  intros Hm. unfold leaf_at. rewrite (walk_proper m m' Hm _ _ eq_refl _ _ eq_refl _ _ eq_refl).
  destruct (walk m' r v (level_of sz)) as [s|]; simpl; [|done]. by rewrite (Hm s).
Qed.
#[export] Instance leaf_proper : Proper (pointwise_relation Z eq ==> eq ==> eq ==> eq) leaf.
Proof. intros m m' Hm r ? <- v ? <-. unfold leaf. by rewrite !(leaf_at_ext m m'). Qed.
Lemma tree_ok_ext m m' (R R' : Z -> Prop) : (forall a, m' a = m a) -> (forall r, R' r -> R r) -> tree_ok m R -> tree_ok m' R'.
Proof.
  intros Hm HR [H1 H2]. split.
  - intros r r' v v' l l' s ??????. rewrite !(walk_proper m' m Hm _ _ eq_refl _ _ eq_refl _ _ eq_refl). by apply H1; auto.
  - intros r v l s ???. rewrite !(walk_proper m' m Hm _ _ eq_refl _ _ eq_refl _ _ eq_refl). by apply H2; auto.
Qed.

(** All but memory, the record of hardware operations and the lookup fault. *)
Definition nomem (k : kstate) : kstate := upd_k_word (fun _ => ∅) (upd_k_events (fun _ => []) (nofault k)).
Definition wrote (k : kstate) (s e : Z) (k' : kstate) : Prop := nomem k' = nomem k /\ forall a, mem k' a = upd (mem k) s e a.

Lemma wp_entry_store k s e (Q : unit -> kstate -> Prop) F : s <> 0 ->
  (forall k', wrote k s e k' -> k_events k' = k_events k ++ [cleanByVA_PoU s (pptr_to_paddr s)] -> Q tt k') -> wp (entry_store s e) Q F k.
Proof.
  intros Hs HQ. unfold entry_store, entry_set, word_set, event. rewrite (proj2 (Z.eqb_neq _ _) Hs). wp_steps. apply HQ; [|done].
  split; [done |]. intros a. unfold mem, upd. simpl. destruct (decide (a = s)) as [->|]; [by rewrite lookup_insert_eq | by rewrite lookup_insert_ne].
Qed.

Lemma nomem_pool k k' i : nomem k' = nomem k -> asid_pool_of k' i = asid_pool_of k i.
Proof. intros H. unfold asid_pool_of. apply (f_equal armKSASIDTable) in H. simpl in H. by rewrite H. Qed.
Lemma nomem_pools k k' a : nomem k' = nomem k -> pool_slot k' a <-> pool_slot k a.
Proof. intros H. unfold pool_slot. by setoid_rewrite (nomem_pool _ _ _ H). Qed.

Lemma vspace_of_wrote k k' s e asid : is_asid asid -> wrote k s e k' -> ~ pool_slot k s -> vspace_of k' asid = vspace_of k asid.
Proof.
  intros Ha [Hn Hm] Hs. unfold vspace_of. rewrite (nomem_pool _ _ _ Hn). destruct (Z.eqb_spec (asid_pool_of k (Z.shiftr asid asidLowBits)) 0); [done |].
  rewrite Hm, upd_other; [done |]. intros <-. apply Hs. destruct (asid_index asid Ha). by eexists _, _.
Qed.

(** A change of a slot that leads to no table, in an address space in use. *)
Record frame_write (k : kstate) (r0 v0 s0 e : Z) (sz : vm_page_size) (k' : kstate) : Prop := {
  fw_ok : pages_ok k';
  fw_spaces asid : is_asid asid -> vspace_of k' asid = vspace_of k asid;
  fw_rest : nomem k' = nomem k;
  fw_leaf r v : roots k r -> is_vaddr v -> leaf (mem k') r v =
    if decide (r = r0 /\ prefix (level_of sz) v = prefix (level_of sz) v0) then (if entry_type e =? frame_type sz then Some (e, sz) else None)
    else leaf (mem k) r v }.

Lemma frame_write_ok k k' r0 v0 s0 e sz : pages_ok k -> roots k r0 -> is_vaddr v0 -> walk (mem k) r0 v0 (level_of sz) = Some s0 ->
  sz = ARMSmallPage \/ entry_type (mem k s0) <> TABLE /\ entry_type e <> TABLE -> wrote k s0 e k' -> frame_write k r0 v0 s0 e sz k'.
Proof.
  intros Hk Hr Hv Hs He Hw. pose proof Hw as [Hn Hm]. assert (level_of sz <= 3)%nat as Hl by (destruct sz; simpl; lia).
  assert (level_of sz = 3%nat \/ entry_type (mem k s0) <> TABLE /\ entry_type e <> TABLE) as He' by (destruct He as [->|?]; [left | right]; done).
  pose proof (po_apart _ Hk _ _ _ _ Hr Hv Hl Hs) as Hna.
  assert (forall asid, is_asid asid -> vspace_of k' asid = vspace_of k asid) as Hsp by (intros; by eapply vspace_of_wrote).
  assert (forall r, roots k' r -> roots k r) as HR by (intros r (a & Ha & E); exists a; rewrite <- Hsp; auto).
  split; [split | done | done |].
  - apply (tree_ok_ext (upd (mem k) s0 e) _ (roots k)); [done | done |]. by apply (tree_ok_upd _ _ r0 v0 s0 e (level_of sz)); [apply Hk | ..].
  - intros a. rewrite (nomem_pools k) by done. by apply Hk.
  - intros i i' j j'. rewrite !(nomem_pool _ _ _ Hn). apply (po_unique _ Hk).
  - intros r v l s Hr' Hv' Hl'. rewrite (walk_proper _ _ Hm _ _ eq_refl _ _ eq_refl _ _ eq_refl).
    rewrite (walk_upd _ (roots k) r0 v0 s0 e (level_of sz)) by (auto || apply Hk). rewrite (nomem_pools k) by done.
    apply (po_apart _ Hk); auto.
  - intros r v Hr' Hv'. rewrite (leaf_proper _ _ Hm _ _ eq_refl _ _ eq_refl). by apply (leaf_upd _ (roots k)); [apply Hk | ..].
Qed.
End Walk.
