(* ===== verification/KIpc.v ===== *)
(** * Endpoints and notifications

    The queues of blocked threads (kernel/src/object/tcb.c), notifications
    (kernel/src/object/notification.c), endpoints (kernel/src/object/endpoint.c),
    the part of capability deletion that cannot recur ([cteDeleteOne]) and the
    thread operations of kernel/src/kernel/thread.c built from them.

    [finaliseCap] calls [suspend] and so [cancelIPC], which deletes a reply
    capability with [cteDeleteOne], which calls [finaliseCap] again. That inner
    call has [exposed] set and never comes to the recursive cases: it is
    [finaliseCap_exposed] here, and [finaliseCap] is defined from it. *)

From S2P Require Import Prelude KCaps KState KSched KCspace KMdb KMsg KVspace.

(** ** Queues of blocked threads *)
Definition tcbEPAppend (tcb : Z) (queue : tcb_queue_t) : M kstate tcb_queue_t :=
  let* head :=
    (if q_head queue =? 0 then ret tcb
     else do* tcb_upd (q_end queue) (upd_tcbEPNext (fun _ => tcb)) in ret (q_head queue)) in
  do* tcb_upd tcb (upd_tcbEPPrev (fun _ => q_end queue)) in
  do* tcb_upd tcb (upd_tcbEPNext (fun _ => 0)) in
  ret (mkQ head tcb).

Definition tcbEPDequeue (tcb : Z) (queue : tcb_queue_t) : M kstate tcb_queue_t :=
  let* t := tcb_get tcb in
  let* queue :=
    (if negb (tcbEPPrev t =? 0)
     then do* tcb_upd (tcbEPPrev t) (upd_tcbEPNext (fun _ => tcbEPNext t)) in ret queue
     else ret (mkQ (tcbEPNext t) (q_end queue))) in
  let* t := tcb_get tcb in
  if negb (tcbEPNext t =? 0)
  then do* tcb_upd (tcbEPNext t) (upd_tcbEPPrev (fun _ => tcbEPPrev t)) in ret queue
  else ret (mkQ (q_head queue) (tcbEPPrev t)).

(** ** Fields of endpoints and notifications *)
Definition ep_upd (p : Z) (f : endpoint_t -> endpoint_t) : M kstate unit :=
  let* e := ep_get p in ep_set p (f e).
Definition ep_ptr_get_queue (epptr : Z) : M kstate tcb_queue_t :=
  let* e := ep_get epptr in ret (mkQ (epQueue_head e) (epQueue_tail e)).
Definition ep_ptr_set_queue (epptr : Z) (queue : tcb_queue_t) : M kstate unit :=
  ep_upd epptr (fun e => mkEp (ep_state e) (q_head queue) (q_end queue)).
Definition endpoint_ptr_set_state (epptr : Z) (st : endpoint_state) : M kstate unit :=
  ep_upd epptr (fun e => mkEp st (epQueue_head e) (epQueue_tail e)).

Definition ntfn_upd (p : Z) (f : notification_t -> notification_t) : M kstate unit :=
  let* n := ntfn_get p in ntfn_set p (f n).
Definition ntfn_ptr_get_queue (ntfnPtr : Z) : M kstate tcb_queue_t :=
  let* n := ntfn_get ntfnPtr in ret (mkQ (ntfnQueue_head n) (ntfnQueue_tail n)).
Definition ntfn_ptr_set_queue (ntfnPtr : Z) (queue : tcb_queue_t) : M kstate unit :=
  ntfn_upd ntfnPtr (fun n => mkNtfn (ntfn_state n) (ntfnBoundTCB n) (ntfnMsgIdentifier n) (q_head queue) (q_end queue)).
Definition notification_ptr_set_state (ntfnPtr : Z) (st : notification_state) : M kstate unit :=
  ntfn_upd ntfnPtr (fun n => mkNtfn st (ntfnBoundTCB n) (ntfnMsgIdentifier n) (ntfnQueue_head n) (ntfnQueue_tail n)).
Definition notification_ptr_set_ntfnMsgIdentifier (ntfnPtr badge : Z) : M kstate unit :=
  ntfn_upd ntfnPtr (fun n => mkNtfn (ntfn_state n) (ntfnBoundTCB n) badge (ntfnQueue_head n) (ntfnQueue_tail n)).
Definition notification_ptr_set_ntfnBoundTCB (ntfnPtr tcb : Z) : M kstate unit :=
  ntfn_upd ntfnPtr (fun n => mkNtfn (ntfn_state n) tcb (ntfnMsgIdentifier n) (ntfnQueue_head n) (ntfnQueue_tail n)).
Definition ntfn_set_active (ntfnPtr badge : Z) : M kstate unit :=
  do* notification_ptr_set_state ntfnPtr NtfnState_Active in
  notification_ptr_set_ntfnMsgIdentifier ntfnPtr badge.

(** Taking a thread out of the queue of an object, and putting one at its end, as
    the operations below do. *)
Definition ep_take (epptr thread : Z) (queue : tcb_queue_t) : M kstate unit :=
  let* queue := tcbEPDequeue thread queue in
  do* ep_ptr_set_queue epptr queue in
  if q_head queue =? 0 then endpoint_ptr_set_state epptr EPState_Idle else ret tt.
Definition ep_wait (epptr thread : Z) (st : endpoint_state) : M kstate unit :=
  let* queue := ep_ptr_get_queue epptr in
  let* queue := tcbEPAppend thread queue in
  do* endpoint_ptr_set_state epptr st in
  ep_ptr_set_queue epptr queue.
Definition ntfn_take (ntfnPtr thread : Z) (ntfn_queue : tcb_queue_t) : M kstate unit :=
  let* ntfn_queue := tcbEPDequeue thread ntfn_queue in
  do* ntfn_ptr_set_queue ntfnPtr ntfn_queue in
  if q_head ntfn_queue =? 0 then notification_ptr_set_state ntfnPtr NtfnState_Idle else ret tt.
Definition ntfn_wait (ntfnPtr thread : Z) : M kstate unit :=
  let* ntfn_queue := ntfn_ptr_get_queue ntfnPtr in
  let* ntfn_queue := tcbEPAppend thread ntfn_queue in
  do* notification_ptr_set_state ntfnPtr NtfnState_Waiting in
  ntfn_ptr_set_queue ntfnPtr ntfn_queue.

Section Ipc.
Context `{C : KConfig}.

(** ** Notifications *)
Definition receiveSignal (thread : Z) (c : cap) (isBlocking : bool) : M kstate unit :=
  match c with
  | cap_notification_cap _ _ _ ntfnPtr =>
      let* n := ntfn_get ntfnPtr in
      match ntfn_state n with
      | NtfnState_Idle | NtfnState_Waiting =>
          if isBlocking then
            do* tcb_upd thread (fun t => upd_blockingObject (fun _ => ntfnPtr)
                                  (upd_tsType (fun _ => ThreadState_BlockedOnNotification) t)) in
            do* scheduleTCB thread in
            ntfn_wait ntfnPtr thread
          else doNBRecvFailedTransfer thread
      | NtfnState_Active =>
          do* setRegister thread badgeRegister (ntfnMsgIdentifier n) in
          notification_ptr_set_state ntfnPtr NtfnState_Idle
      end
  | _ => fail AssertFail
  end.

(** The loop of [cancelAllSignals] and [cancelAllIPC], from [thread]. *)
Fixpoint restart_queue (fuel : nat) (thread : Z) : M kstate unit :=
  match fuel with
  | O => fail NoFuel
  | S fuel =>
      if thread =? 0 then ret tt
      else
        do* setThreadState thread ThreadState_Restart in
        do* tcbSchedEnqueue thread in
        let* t := tcb_get thread in
        restart_queue fuel (tcbEPNext t)
  end.
(** One round per thread in the queue, and the round that ends it. *)
Definition queue_fuel : M kstate nat := gets (fun k => S (size (k_tcb k))).

Definition cancelAllSignals (ntfnPtr : Z) : M kstate unit :=
  let* n := ntfn_get ntfnPtr in
  if bool_decide (ntfn_state n = NtfnState_Waiting) then
    do* notification_ptr_set_state ntfnPtr NtfnState_Idle in
    do* ntfn_ptr_set_queue ntfnPtr (mkQ 0 0) in
    let* fuel := queue_fuel in
    do* restart_queue fuel (ntfnQueue_head n) in
    rescheduleRequired
  else ret tt.

Definition cancelSignal (threadPtr ntfnPtr : Z) : M kstate unit :=
  let* n := ntfn_get ntfnPtr in
  do* assert_ (bool_decide (ntfn_state n = NtfnState_Waiting)) in
  let* ntfn_queue := ntfn_ptr_get_queue ntfnPtr in
  do* ntfn_take ntfnPtr threadPtr ntfn_queue in
  setThreadState threadPtr ThreadState_Inactive.

Definition completeSignal (ntfnPtr tcb : Z) : M kstate unit :=
  let* n := ntfn_get ntfnPtr in
  if negb (tcb =? 0) && bool_decide (ntfn_state n = NtfnState_Active) then
    do* setRegister tcb badgeRegister (ntfnMsgIdentifier n) in
    notification_ptr_set_state ntfnPtr NtfnState_Idle
  else fail AssertFail.

Definition doUnbindNotification (ntfnPtr tcbptr : Z) : M kstate unit :=
  do* notification_ptr_set_ntfnBoundTCB ntfnPtr 0 in
  tcb_upd tcbptr (upd_tcbBoundNotification (fun _ => 0)).
Definition unbindMaybeNotification (ntfnPtr : Z) : M kstate unit :=
  let* n := ntfn_get ntfnPtr in
  if negb (ntfnBoundTCB n =? 0) then doUnbindNotification ntfnPtr (ntfnBoundTCB n) else ret tt.
Definition unbindNotification (tcb : Z) : M kstate unit :=
  let* t := tcb_get tcb in
  if negb (tcbBoundNotification t =? 0) then doUnbindNotification (tcbBoundNotification t) tcb else ret tt.
Definition bindNotification (tcb ntfnPtr : Z) : M kstate unit :=
  do* notification_ptr_set_ntfnBoundTCB ntfnPtr tcb in
  tcb_upd tcb (upd_tcbBoundNotification (fun _ => ntfnPtr)).

(** ** Cancelling the operations on an endpoint *)
Definition cancelAllIPC (epptr : Z) : M kstate unit :=
  let* e := ep_get epptr in
  if bool_decide (ep_state e = EPState_Idle) then ret tt
  else
    do* endpoint_ptr_set_state epptr EPState_Idle in
    do* ep_ptr_set_queue epptr (mkQ 0 0) in
    let* fuel := queue_fuel in
    do* restart_queue fuel (epQueue_head e) in
    rescheduleRequired.

(** The loop of [cancelBadgedSends]. *)
Fixpoint cancelBadged_loop (fuel : nat) (thread badge : Z) (queue : tcb_queue_t) : M kstate tcb_queue_t :=
  match fuel with
  | O => fail NoFuel
  | S fuel =>
      if thread =? 0 then ret queue
      else
        let* t := tcb_get thread in
        let b := blockingIPCBadge t in
        let next := tcbEPNext t in
        if b =? badge then
          do* setThreadState thread ThreadState_Restart in
          do* tcbSchedEnqueue thread in
          let* queue := tcbEPDequeue thread queue in
          cancelBadged_loop fuel next badge queue
        else cancelBadged_loop fuel next badge queue
  end.

Definition cancelBadgedSends (epptr badge : Z) : M kstate unit :=
  let* e := ep_get epptr in
  match ep_state e with
  | EPState_Idle | EPState_Recv => ret tt
  | EPState_Send =>
      let* queue := ep_ptr_get_queue epptr in
      do* endpoint_ptr_set_state epptr EPState_Idle in
      do* ep_ptr_set_queue epptr (mkQ 0 0) in
      let* fuel := queue_fuel in
      let* queue := cancelBadged_loop fuel (q_head queue) badge queue in
      do* ep_ptr_set_queue epptr queue in
      do* (if negb (q_head queue =? 0) then endpoint_ptr_set_state epptr EPState_Send else ret tt) in
      rescheduleRequired
  end.

(** ** Deleting one capability *)
Definition Arch_finaliseCap (c : cap) (final : bool) : M kstate (cap * cap) :=
  do* match c with
      | cap_asid_pool_cap base pool => if final then deleteASIDPool base pool else ret tt
      | cap_page_global_directory_cap asid pgd isMapped =>
          if final && isMapped then deleteASID asid pgd else ret tt
      | cap_page_upper_directory_cap asid pud isMapped vaddr =>
          if final && isMapped then unmapPageUpperDirectory asid vaddr pud else ret tt
      | cap_page_directory_cap asid pd isMapped vaddr =>
          if final && isMapped then unmapPageDirectory asid vaddr pd else ret tt
      | cap_page_table_cap asid pt isMapped vaddr =>
          if final && isMapped then unmapPageTable asid vaddr pt else ret tt
      | cap_frame_cap asid pptr size vaddr _ _ =>
          if negb (asid =? 0) then unmapPage size asid vaddr pptr else ret tt
      | _ => ret tt
      end in
  ret (cap_null_cap, cap_null_cap).

(** [finaliseCap] up to its test of [exposed]; [None] for the capabilities it goes
    on with. *)
Definition finaliseCap_immediate (c : cap) (final : bool) : option (M kstate (cap * cap)) :=
  if isArchCap c then Some (Arch_finaliseCap c final)
  else match c with
  | cap_endpoint_cap _ _ _ _ _ ep =>
      Some (do* (if final then cancelAllIPC ep else ret tt) in ret (cap_null_cap, cap_null_cap))
  | cap_notification_cap _ _ _ ntfn =>
      Some (do* (if final then do* unbindMaybeNotification ntfn in cancelAllSignals ntfn else ret tt) in
            ret (cap_null_cap, cap_null_cap))
  | cap_reply_cap _ _ _ | cap_null_cap | cap_domain_cap => Some (ret (cap_null_cap, cap_null_cap))
  | _ => None
  end.

(** [finaliseCap(cap, final, true)]. *)
Definition finaliseCap_exposed (c : cap) (final : bool) : M kstate (cap * cap) :=
  match finaliseCap_immediate c final with Some m => m | None => fail AssertFail end.

Definition capRemovable (c : cap) (slot : Z) : M kstate bool :=
  match c with
  | cap_null_cap => ret true
  | cap_zombie_cap id type =>
      let n := cap_zombie_cap_get_capZombieNumber id type in
      let z_slot := cap_zombie_cap_get_capZombiePtr id type in
      ret ((n =? 0) || ((n =? 1) && (slot =? z_slot)))
  | _ => fail AssertFail
  end.

Definition cteDeleteOne (slot : Z) : M kstate unit :=
  let* e := cte_get slot in
  if negb (is_null (cte_cap e)) then
    let* final := isFinalCapability slot in
    let* '(remainder, cleanupInfo) := finaliseCap_exposed (cte_cap e) final in
    let* removable := capRemovable remainder slot in
    do* assert_ (removable && is_null cleanupInfo) in
    emptySlot slot cap_null_cap
  else ret tt.

Definition setupCallerCap (sender receiver : Z) (canGrant : bool) : M kstate unit :=
  do* setThreadState sender ThreadState_BlockedOnReply in
  let replySlot := TCB_PTR_CTE_PTR sender tcbReply in
  let* m := cte_get replySlot in
  do* match cte_cap m with
      | cap_reply_cap replyCanGrant master tcb => assert_ (master && replyCanGrant && (tcb =? sender))
      | _ => fail AssertFail
      end in
  let callerSlot := TCB_PTR_CTE_PTR receiver tcbCaller in
  let* c := cte_get callerSlot in
  do* assert_ (is_null (cte_cap c)) in
  cteInsert (cap_reply_cap canGrant false sender) replySlot callerSlot.

Definition deleteCallerCap (receiver : Z) : M kstate unit := cteDeleteOne (TCB_PTR_CTE_PTR receiver tcbCaller).

(** ** Cancelling what a thread waits for *)
Definition cancelIPC (tptr : Z) : M kstate unit :=
  let* t := tcb_get tptr in
  match tsType t with
  | ThreadState_BlockedOnSend | ThreadState_BlockedOnReceive =>
      let epptr := blockingObject t in
      let* e := ep_get epptr in
      do* assert_ (negb (bool_decide (ep_state e = EPState_Idle))) in
      let* queue := ep_ptr_get_queue epptr in
      do* ep_take epptr tptr queue in
      setThreadState tptr ThreadState_Inactive
  | ThreadState_BlockedOnNotification => cancelSignal tptr (blockingObject t)
  | ThreadState_BlockedOnReply =>
      do* tcb_upd tptr (upd_tcbFault (fun _ => seL4_Fault_NullFault)) in
      let* slot := cte_get (TCB_PTR_CTE_PTR tptr tcbReply) in
      let callerCap := mdbNext (cteMDBNode slot) in
      if negb (callerCap =? 0) then cteDeleteOne callerCap else ret tt
  | _ => ret tt
  end.

(** ** Signals *)
Definition sendSignal (ntfnPtr badge : Z) : M kstate unit :=
  let* n := ntfn_get ntfnPtr in
  match ntfn_state n with
  | NtfnState_Idle =>
      let tcb := ntfnBoundTCB n in
      if negb (tcb =? 0) then
        let* t := tcb_get tcb in
        if bool_decide (tsType t = ThreadState_BlockedOnReceive) then
          do* cancelIPC tcb in
          do* setThreadState tcb ThreadState_Running in
          do* setRegister tcb badgeRegister badge in
          possibleSwitchTo tcb
        else ntfn_set_active ntfnPtr badge
      else ntfn_set_active ntfnPtr badge
  | NtfnState_Waiting =>
      let* ntfn_queue := ntfn_ptr_get_queue ntfnPtr in
      let dest := q_head ntfn_queue in
      do* assert_ (negb (dest =? 0)) in
      do* ntfn_take ntfnPtr dest ntfn_queue in
      do* setThreadState dest ThreadState_Running in
      do* setRegister dest badgeRegister badge in
      possibleSwitchTo dest
  | NtfnState_Active =>
      notification_ptr_set_ntfnMsgIdentifier ntfnPtr (Z.lor (ntfnMsgIdentifier n) badge)
  end.

(** ** Messages through an endpoint *)
Definition sendIPC (blocking do_call : bool) (badge : Z) (canGrant canGrantReply : bool) (thread epptr : Z) : M kstate unit :=
  let* e := ep_get epptr in
  match ep_state e with
  | EPState_Idle | EPState_Send =>
      if blocking then
        do* tcb_upd thread (fun t =>
              upd_blockingIPCIsCall (fun _ => do_call) (upd_blockingIPCCanGrantReply (fun _ => canGrantReply)
              (upd_blockingIPCCanGrant (fun _ => canGrant) (upd_blockingIPCBadge (fun _ => badge)
              (upd_blockingObject (fun _ => epptr) (upd_tsType (fun _ => ThreadState_BlockedOnSend) t)))))) in
        do* scheduleTCB thread in
        ep_wait epptr thread EPState_Send
      else ret tt
  | EPState_Recv =>
      let* queue := ep_ptr_get_queue epptr in
      let dest := q_head queue in
      do* assert_ (negb (dest =? 0)) in
      do* ep_take epptr dest queue in
      do* doIPCTransfer thread epptr badge canGrant dest in
      let* d := tcb_get dest in
      let replyCanGrant := blockingIPCCanGrant d in
      do* setThreadState dest ThreadState_Running in
      do* possibleSwitchTo dest in
      if do_call then
        if canGrant || canGrantReply then setupCallerCap thread dest replyCanGrant
        else setThreadState thread ThreadState_Inactive
      else ret tt
  end.

Definition receiveIPC (thread : Z) (c : cap) (isBlocking : bool) : M kstate unit :=
  match c with
  | cap_endpoint_cap _ _ capCanGrant _ _ epptr =>
      let* t := tcb_get thread in
      let ntfnPtr := tcbBoundNotification t in
      let* active :=
        (if negb (ntfnPtr =? 0) then let* n := ntfn_get ntfnPtr in ret (bool_decide (ntfn_state n = NtfnState_Active))
         else ret false) in
      if active then completeSignal ntfnPtr thread
      else
        let* e := ep_get epptr in
        match ep_state e with
        | EPState_Idle | EPState_Recv =>
            if isBlocking then
              do* tcb_upd thread (fun t =>
                    upd_blockingIPCCanGrant (fun _ => capCanGrant)
                    (upd_blockingObject (fun _ => epptr) (upd_tsType (fun _ => ThreadState_BlockedOnReceive) t))) in
              do* scheduleTCB thread in
              ep_wait epptr thread EPState_Recv
            else doNBRecvFailedTransfer thread
        | EPState_Send =>
            let* queue := ep_ptr_get_queue epptr in
            let sender := q_head queue in
            do* assert_ (negb (sender =? 0)) in
            do* ep_take epptr sender queue in
            let* s := tcb_get sender in
            let badge := blockingIPCBadge s in
            let canGrant := blockingIPCCanGrant s in
            let canGrantReply := blockingIPCCanGrantReply s in
            do* doIPCTransfer sender epptr badge canGrant thread in
            let* s := tcb_get sender in
            if blockingIPCIsCall s then
              if canGrant || canGrantReply then setupCallerCap sender thread capCanGrant
              else setThreadState sender ThreadState_Inactive
            else
              do* setThreadState sender ThreadState_Running in
              possibleSwitchTo sender
        end
  | _ => fail AssertFail
  end.

(** ** Threads *)
Definition suspend (target : Z) : M kstate unit :=
  do* cancelIPC target in
  do* setThreadState target ThreadState_Inactive in
  tcbSchedDequeue target.

Definition restart (target : Z) : M kstate unit :=
  let* blocked := isBlocked target in
  if blocked then
    do* cancelIPC target in
    do* setupReplyMaster target in
    do* setThreadState target ThreadState_Restart in
    do* tcbSchedEnqueue target in
    possibleSwitchTo target
  else ret tt.

Definition doReplyTransfer (sender receiver slot : Z) (grant : bool) : M kstate unit :=
  let* r := tcb_get receiver in
  do* assert_ (bool_decide (tsType r = ThreadState_BlockedOnReply)) in
  if bool_decide (tcbFault r = seL4_Fault_NullFault) then
    do* doIPCTransfer sender 0 0 grant receiver in
    do* cteDeleteOne slot in
    do* setThreadState receiver ThreadState_Running in
    possibleSwitchTo receiver
  else
    do* cteDeleteOne slot in
    let* restart := handleFaultReply receiver sender in
    do* tcb_upd receiver (upd_tcbFault (fun _ => seL4_Fault_NullFault)) in
    if restart then
      do* setThreadState receiver ThreadState_Restart in
      possibleSwitchTo receiver
    else setThreadState receiver ThreadState_Inactive.

(** ** Faults, kernel/faulthandler.c *)
Definition sendFaultIPC (tptr : Z) : M kstate exception_t :=
  let* original_lookup_fault := gets current_lookup_fault in
  let* t := tcb_get tptr in
  let handlerCPtr := tcbFaultHandler t in
  let* '(status, handlerCap) := lookupCap tptr handlerCPtr in
  if negb (bool_decide (status = EXCEPTION_NONE)) then
    do* modify (upd_current_fault (fun _ => seL4_Fault_CapFault handlerCPtr false)) in ret EXCEPTION_FAULT
  else
    match handlerCap with
    | cap_endpoint_cap badge canGrantReply canGrant true _ ep =>
        if canGrant || canGrantReply then
          let* fault := gets current_fault in
          do* tcb_upd tptr (upd_tcbFault (fun _ => fault)) in
          do* match fault with
              | seL4_Fault_CapFault _ _ => tcb_upd tptr (upd_tcbLookupFailure (fun _ => original_lookup_fault))
              | _ => ret tt
              end in
          do* sendIPC true true badge canGrant true tptr ep in
          ret EXCEPTION_NONE
        else
          do* modify (upd_current_fault (fun _ => seL4_Fault_CapFault handlerCPtr false)) in
          do* set_lookup_fault (lookup_fault_missing_capability 0) in
          ret EXCEPTION_FAULT
    | _ =>
        do* modify (upd_current_fault (fun _ => seL4_Fault_CapFault handlerCPtr false)) in
        do* set_lookup_fault (lookup_fault_missing_capability 0) in
        ret EXCEPTION_FAULT
    end.

(** The two faults are only printed. *)
Definition handleDoubleFault (tptr : Z) (ex1 : seL4_Fault_t) : M kstate unit := setThreadState tptr ThreadState_Inactive.

Definition handleFault (tptr : Z) : M kstate unit :=
  let* fault := gets current_fault in
  let* status := sendFaultIPC tptr in
  if negb (bool_decide (status = EXCEPTION_NONE)) then handleDoubleFault tptr fault else ret tt.
End Ipc.
