(* ===== verification/KDelete.v ===== *)
(** * Deletion and revocation of capabilities

    [finaliseCap] (kernel/src/object/objecttype.c) and the preemptible deletion of
    kernel/src/object/cnode.c: a CNode or thread whose last capability goes away
    becomes a zombie, which is emptied slot by slot.

    The functions recur through each other, so they take fuel; every call of
    [finaliseSlot] and [cteDelete] and every round of a loop uses one unit. *)

From S2P Require Import Prelude KCaps KState KSched KCspace KMdb KMsg KIpc.

(** What the platform and the linker provide: the interrupts there are, where the
    interrupt CNode lies, how often preemption is considered, and what the
    interrupt controller and the fault registers answer, which may depend on
    everything that has happened. *)
Class KPlatform : Type := mkKPlatform {
  maxIRQ : Z;
  intStateIRQNode : Z;
  CONFIG_MAX_NUM_WORK_UNITS_PER_PREEMPTION : Z;
  isIRQPending : kstate -> bool;
  getActiveIRQ : kstate -> option Z;
  getFAR : kstate -> Z;
  getESR : kstate -> Z }.

(** A platform without interrupts. *)
Definition quiet_platform : KPlatform := mkKPlatform 250 0x100000 100 (fun _ => false) (fun _ => None) (fun _ => 0) (fun _ => 0).

Section Delete.
Context `{C : KConfig} `{P : KPlatform}.

Definition irq_slot (irq : Z) : Z := w64 (intStateIRQNode + irq * cte_size).
Definition deletingIRQHandler (irq : Z) : M kstate unit := cteDeleteOne (irq_slot irq).

Definition tcbArchCNodeEntries : Z := 5.
Definition Arch_prepareThreadDelete (thread : Z) : M kstate unit := ret tt.

Definition finaliseCap (c : cap) (final exposed : bool) : M kstate (cap * cap) :=
  match finaliseCap_immediate c final with
  | Some m => m
  | None =>
      if exposed then fail AssertFail
      else match c with
      | cap_cnode_cap radix _ _ ptr =>
          if final then ret (Zombie_new (w64 (Z.shiftl 1 radix)) radix ptr, cap_null_cap)
          else ret (cap_null_cap, cap_null_cap)
      | cap_thread_cap tcb =>
          if final then
            let cte_ptr := TCB_PTR_CTE_PTR tcb tcbCTable in
            do* unbindNotification tcb in
            do* suspend tcb in
            do* Arch_prepareThreadDelete tcb in
            ret (Zombie_new tcbArchCNodeEntries ZombieType_ZombieTCB cte_ptr, cap_null_cap)
          else ret (cap_null_cap, cap_null_cap)
      | cap_zombie_cap _ _ => ret (c, cap_null_cap)
      | cap_irq_handler_cap irq =>
          if final then do* deletingIRQHandler irq in ret (cap_null_cap, c)
          else ret (cap_null_cap, cap_null_cap)
      | _ => ret (cap_null_cap, cap_null_cap)
      end
  end.

(** model/preemption.c *)
Definition preemptionPoint : M kstate exception_t :=
  do* modify (upd_ksWorkUnitsCompleted (fun n => w64 (n + 1))) in
  let* n := gets ksWorkUnitsCompleted in
  if n >=? CONFIG_MAX_NUM_WORK_UNITS_PER_PREEMPTION then
    do* modify (upd_ksWorkUnitsCompleted (fun _ => 0)) in
    let* pending := gets isIRQPending in
    if pending then ret EXCEPTION_PREEMPTED else ret EXCEPTION_NONE
  else ret EXCEPTION_NONE.

Definition capCyclicZombie (c : cap) (slot : Z) : bool :=
  match c with cap_zombie_cap id type => cap_zombie_cap_get_capZombiePtr id type =? slot | _ => false end.

(** [finaliseSlot_ret_t]. *)
Record finaliseSlot_ret : Type := mkFS { fs_status : exception_t; fs_success : bool; fs_cleanupInfo : cap }.

(** [reduceZombie], given [cteDelete(endSlot, false)]. *)
Definition reduceZombie_with (cteDelete_unexposed : Z -> M kstate exception_t) (slot : Z) (immediate : bool) :
    M kstate exception_t :=
  let* e := cte_get slot in
  match cte_cap e with
  | cap_zombie_cap id type =>
      let ptr := cap_zombie_cap_get_capZombiePtr id type in
      let n := cap_zombie_cap_get_capZombieNumber id type in
      do* assert_ (n >? 0) in
      if immediate then
        let endSlot := w64 (ptr + (n - 1) * cte_size) in
        let* status := cteDelete_unexposed endSlot in
        if negb (bool_decide (status = EXCEPTION_NONE)) then ret status
        else
          let* e' := cte_get slot in
          do* match cte_cap e' with
              | cap_null_cap => ret tt
              | cap_zombie_cap id' type' =>
                  let ptr2 := cap_zombie_cap_get_capZombiePtr id' type' in
                  if (ptr =? ptr2) && (cap_zombie_cap_get_capZombieNumber id' type' =? n) && (type' =? type) then
                    let* ee := cte_get endSlot in
                    do* assert_ (is_null (cte_cap ee)) in
                    set_cap slot (cap_zombie_cap_set_capZombieNumber id' type' (n - 1))
                  else assert_ ((ptr2 =? slot) && negb (ptr =? slot))
              | _ => fail AssertFail
              end in
          ret EXCEPTION_NONE
      else
        do* assert_ (negb (ptr =? slot)) in
        let* pe := cte_get ptr in
        do* match cte_cap pe with
            | cap_zombie_cap id' type' => assert_ (negb (ptr =? cap_zombie_cap_get_capZombiePtr id' type'))
            | _ => ret tt
            end in
        do* capSwapForDelete ptr slot in
        ret EXCEPTION_NONE
  | _ => fail AssertFail
  end.

(** [cteDelete], given [finaliseSlot]. *)
Definition cteDelete_with (finaliseSlot : Z -> bool -> M kstate finaliseSlot_ret) (slot : Z) (exposed : bool) :
    M kstate exception_t :=
  let* fs_ret := finaliseSlot slot exposed in
  if negb (bool_decide (fs_status fs_ret = EXCEPTION_NONE)) then ret (fs_status fs_ret)
  else
    do* (if exposed || fs_success fs_ret then emptySlot slot (fs_cleanupInfo fs_ret) else ret tt) in
    ret EXCEPTION_NONE.

(** The loop of [finaliseSlot]. *)
Fixpoint finaliseSlot (fuel : nat) (slot : Z) (immediate : bool) : M kstate finaliseSlot_ret :=
  match fuel with
  | O => fail NoFuel
  | S fuel =>
      let* e := cte_get slot in
      if negb (is_null (cte_cap e)) then
        let* final := isFinalCapability slot in
        let* '(remainder, cleanupInfo) := finaliseCap (cte_cap e) final false in
        let* removable := capRemovable remainder slot in
        if removable then ret (mkFS EXCEPTION_NONE true cleanupInfo)
        else
          do* set_cap slot remainder in
          if negb immediate && capCyclicZombie remainder slot then ret (mkFS EXCEPTION_NONE false cleanupInfo)
          else
            let* status :=
              reduceZombie_with (fun endSlot => cteDelete_with (finaliseSlot fuel) endSlot false) slot immediate in
            if negb (bool_decide (status = EXCEPTION_NONE)) then ret (mkFS status false cap_null_cap)
            else
              let* status := preemptionPoint in
              if negb (bool_decide (status = EXCEPTION_NONE)) then ret (mkFS status false cap_null_cap)
              else finaliseSlot fuel slot immediate
      else ret (mkFS EXCEPTION_NONE true cap_null_cap)
  end.

Definition cteDelete (fuel : nat) (slot : Z) (exposed : bool) : M kstate exception_t :=
  cteDelete_with (finaliseSlot fuel) slot exposed.
Definition reduceZombie (fuel : nat) (slot : Z) (immediate : bool) : M kstate exception_t :=
  reduceZombie_with (fun endSlot => cteDelete fuel endSlot false) slot immediate.

(** The loop of [cteRevoke]. *)
Fixpoint cteRevoke (fuel : nat) (slot : Z) : M kstate exception_t :=
  match fuel with
  | O => fail NoFuel
  | S fuel =>
      let* e := cte_get slot in
      let nextPtr := mdbNext (cteMDBNode e) in
      if nextPtr =? 0 then ret EXCEPTION_NONE
      else
        let* n := cte_get nextPtr in
        if isMDBParentOf e n then
          let* status := cteDelete fuel nextPtr true in
          if negb (bool_decide (status = EXCEPTION_NONE)) then ret status
          else
            let* status := preemptionPoint in
            if negb (bool_decide (status = EXCEPTION_NONE)) then ret status
            else cteRevoke fuel slot
        else ret EXCEPTION_NONE
  end.
End Delete.
