(* ===== verification/KIpcInv.v ===== *)
(** * Queues of blocked threads

    The invariant of endpoints and notifications: the threads linked from an
    object are exactly the threads blocked on it, in the state the object says.
    The operations on the queues, first on lists and then as the code runs. *)

From S2P Require Import Prelude Dll KCaps KState KSched KMsg KIpc.
From S2P Require Import KSchedInv KSchedThms KSchedSteps.

(** ** The part of the state that message passing is about *)

Record ithread : Type := mkIt {
  it_st : _thread_state_t; it_obj : Z; it_badge : Z; it_next : Z; it_prev : Z; it_bound : Z }.
Definition ithread_of (x : tcb_t) : ithread :=
  mkIt (tsType x) (blockingObject x) (blockingIPCBadge x) (tcbEPNext x) (tcbEPPrev x) (tcbBoundNotification x).

Record istore : Type := mkIs { is_tcb : gmap Z ithread; is_ep : gmap Z endpoint_t; is_nt : gmap Z notification_t }.
Definition istore_of (k : kstate) : istore := mkIs (ithread_of <$> k_tcb k) (k_ep k) (k_ntfn k).

(** Endpoints and notifications. *)
Inductive obj : Type := OEp (a : Z) | ONt (a : Z).
#[global] Instance obj_eq_dec : EqDecision obj.
Proof. solve_decision. Defined.

Definition oput {A} (f : obj -> A) (o : obj) (v : A) : obj -> A := fun o' => if decide (o' = o) then v else f o'.
Lemma oput_eq {A} (f : obj -> A) o v : oput f o v o = v.
Proof. unfold oput. by rewrite decide_True. Qed.
Lemma oput_ne {A} (f : obj -> A) o v o' : o' <> o -> oput f o v o' = f o'.
Proof. intros. unfold oput. by rewrite decide_False. Qed.

(** The queue of an object, and the state of the threads in it. *)
Definition obj_queue (s : istore) (o : obj) : tcb_queue_t :=
  match o with
  | OEp a => from_option (fun e => mkQ (epQueue_head e) (epQueue_tail e)) (mkQ 0 0) (is_ep s !! a)
  | ONt a => from_option (fun n => mkQ (ntfnQueue_head n) (ntfnQueue_tail n)) (mkQ 0 0) (is_nt s !! a)
  end.
Definition ep_waits (st : endpoint_state) : option _thread_state_t :=
  match st with
  | EPState_Idle => None | EPState_Send => Some ThreadState_BlockedOnSend | EPState_Recv => Some ThreadState_BlockedOnReceive
  end.
Definition nt_waits (st : notification_state) : option _thread_state_t :=
  match st with NtfnState_Waiting => Some ThreadState_BlockedOnNotification | _ => None end.
Definition obj_waits (s : istore) (o : obj) : option _thread_state_t :=
  match o with
  | OEp a => is_ep s !! a ≫= fun e => ep_waits (ep_state e)
  | ONt a => is_nt s !! a ≫= fun n => nt_waits (ntfn_state n)
  end.

(** What a thread waits for. *)
Definition obj_of (i : ithread) : option obj :=
  match it_st i with
  | ThreadState_BlockedOnSend | ThreadState_BlockedOnReceive => Some (OEp (it_obj i))
  | ThreadState_BlockedOnNotification => Some (ONt (it_obj i))
  | _ => None
  end.

Definition inx (s : istore) (t : Z) : Z := from_option it_next 0 (is_tcb s !! t).
Definition ipv (s : istore) (t : Z) : Z := from_option it_prev 0 (is_tcb s !! t).

(** Threads and their notifications. *)
Definition bound_ok (s : istore) : Prop :=
  (forall n N, is_nt s !! n = Some N -> ntfnBoundTCB N <> 0 -> exists i, is_tcb s !! ntfnBoundTCB N = Some i /\ it_bound i = n) /\
  (forall t i, is_tcb s !! t = Some i -> it_bound i <> 0 -> exists N, is_nt s !! it_bound i = Some N /\ ntfnBoundTCB N = t).

(** The invariant; the threads [E] are between two queues. *)
Record ipc_inv (E : Z -> Prop) (Q : obj -> list Z) (s : istore) : Prop := {
  io_queue : forall o, dll (inx s) (ipv s) (q_head (obj_queue s o)) (q_end (obj_queue s o)) (Q o);
  io_idle : forall o, Q o = [] <-> obj_waits s o = None;
  io_mem : forall o t, t ∈ Q o -> ~ E t /\ exists i, is_tcb s !! t = Some i /\ obj_of i = Some o /\ obj_waits s o = Some (it_st i);
  io_wait : forall t i o, is_tcb s !! t = Some i -> obj_of i = Some o -> ~ E t -> t ∈ Q o;
  io_tcb : forall t, is_Some (is_tcb s !! t) -> t <> 0;
  io_objs : is_ep s !! 0 = None /\ is_nt s !! 0 = None;
  io_bound : bound_ok s }.
Definition ipc_ok : (obj -> list Z) -> istore -> Prop := ipc_inv (fun _ => False).

(** ** Changing one queue *)

(** Threads up to the links. *)
Definition unlink (i : ithread) : ithread := mkIt (it_st i) (it_obj i) (it_badge i) 0 0 (it_bound i).
Definition relinked (s s' : istore) : Prop := forall y, unlink <$> is_tcb s' !! y = unlink <$> is_tcb s !! y.

Lemma unlink_fields i i' : unlink i' = unlink i -> it_st i' = it_st i /\ obj_of i' = obj_of i /\ it_bound i' = it_bound i /\ it_badge i' = it_badge i.
Proof. destruct i, i'. unfold unlink, obj_of. simpl. intros [= -> -> -> ->]. done. Qed.

Lemma relinked_some s s' y i : relinked s s' -> is_tcb s !! y = Some i -> exists i', is_tcb s' !! y = Some i' /\ unlink i' = unlink i.
Proof. intros Hr Hi. specialize (Hr y). rewrite Hi in Hr. destruct (is_tcb s' !! y) as [i'|]; [|done]. simpl in Hr. exists i'. split; congruence. Qed.
Lemma relinked_sym s s' : relinked s s' -> relinked s' s.
Proof. intros Hr y. by rewrite Hr. Qed.
Lemma relinked_trans s s' s'' : relinked s s' -> relinked s' s'' -> relinked s s''.
Proof. intros H1 H2 y. by rewrite H2, H1. Qed.

Lemma queue_disjoint E Q s o o' t : ipc_inv E Q s -> t ∈ Q o -> t ∈ Q o' -> o = o'.
Proof.
  intros HI H1 H2. destruct (io_mem _ _ _ HI o t H1) as (_ & i & Hi & Eo & _).
  destruct (io_mem _ _ _ HI o' t H2) as (_ & i' & Hi' & Eo' & _). congruence.
Qed.

Lemma bound_relinked s s' : bound_ok s -> relinked s s' ->
  (forall n, ntfnBoundTCB <$> is_nt s' !! n = ntfnBoundTCB <$> is_nt s !! n) -> bound_ok s'.
Proof.
  intros [B1 B2] Hr Hn. split.
  - intros n N HN H0. pose proof (Hn n) as E. rewrite HN in E. destruct (is_nt s !! n) as [N0|] eqn:E0; [|done].
    simpl in E. injection E as E. destruct (B1 n N0 E0 ltac:(congruence)) as (i & Hi & Ei). rewrite E.
    destruct (relinked_some _ _ _ _ Hr Hi) as (i' & Hi' & Eu). exists i'. split; [done |].
    apply unlink_fields in Eu as (_ & _ & Eb & _). congruence.
  - intros t i Hi H0. destruct (relinked_some _ _ _ _ (relinked_sym _ _ Hr) Hi) as (i0 & Hi0 & Eu).
    apply unlink_fields in Eu as (_ & _ & Eb & _). destruct (B2 t i0 Hi0 ltac:(congruence)) as (N & HN & EN).
    pose proof (Hn (it_bound i)) as E. rewrite Eb in HN. rewrite HN in E. destruct (is_nt s' !! it_bound i) as [N'|]; [|done].
    simpl in E. exists N'. split; [done |]. congruence.
Qed.

(** The general step: object [o] gets the queue [xs']. *)
Lemma ipc_change E E' Q s s' o xs' : ipc_inv E Q s -> relinked s s' ->
  (forall o' y, o' <> o -> y ∈ Q o' -> is_tcb s' !! y = is_tcb s !! y) ->
  dll (inx s') (ipv s') (q_head (obj_queue s' o)) (q_end (obj_queue s' o)) xs' ->
  (forall o', o' <> o -> obj_queue s' o' = obj_queue s o' /\ obj_waits s' o' = obj_waits s o') ->
  (xs' = [] <-> obj_waits s' o = None) ->
  (forall y, y ∈ xs' -> ~ E' y /\ exists i, is_tcb s !! y = Some i /\ obj_of i = Some o /\ obj_waits s' o = Some (it_st i)) ->
  (forall y i, is_tcb s !! y = Some i -> obj_of i = Some o -> ~ E' y -> y ∈ xs') ->
  (forall o' y, o' <> o -> y ∈ Q o' -> ~ E' y) ->
  (forall y i o', is_tcb s !! y = Some i -> obj_of i = Some o' -> o' <> o -> ~ E' y -> ~ E y) ->
  is_ep s' !! 0 = None /\ is_nt s' !! 0 = None ->
  (forall n, ntfnBoundTCB <$> is_nt s' !! n = ntfnBoundTCB <$> is_nt s !! n) ->
  ipc_inv E' (oput Q o xs') s'.
Proof.
  intros [I1 I2 I3 I4 I5 I6 I7] Hr Hsame Hd Ho Hidle Hmem Hwait HE HE2 H0 Hb. split.
  - intros o'. unfold oput. case_decide as Eo; [by subst |]. destruct (Ho o' Eo) as [-> _].
    eapply dll_ext; [|apply I1]. intros y Hy. unfold inx, ipv. by rewrite (Hsame o' y).
  - intros o'. unfold oput. case_decide as Eo; [by subst |]. destruct (Ho o' Eo) as [_ ->]. apply I2.
  - intros o' y. unfold oput. case_decide as Eo; intros Hy.
    + subst o'. destruct (Hmem y Hy) as (Hn & i & Hi & Eo & Ew). split; [done |].
      destruct (relinked_some _ _ _ _ Hr Hi) as (i' & Hi' & Eu). exists i'. apply unlink_fields in Eu as (E1 & E2 & _). split; [done |]. split; congruence.
    + destruct (I3 o' y Hy) as (Hn & i & Hi & Ei & Ew). split; [by apply (HE o') |]. exists i. rewrite (Hsame o' y) by done.
      destruct (Ho o' Eo) as [_ ->]. done.
  - intros t i o' Hi Ei Hn. destruct (relinked_some _ _ _ _ (relinked_sym _ _ Hr) Hi) as (i0 & Hi0 & Eu).
    apply unlink_fields in Eu as (E1 & E2 & _). unfold oput. case_decide as Eo; [subst o'; apply (Hwait t i0); congruence |].
    apply (I4 t i0 o'); [done | congruence |]. apply (HE2 t i0 o'); [done | congruence | done | done].
  - intros t [i Hi]. destruct (relinked_some _ _ _ _ (relinked_sym _ _ Hr) Hi) as (i0 & Hi0 & _). apply I5. eauto.
  - done.
  - by apply (bound_relinked s).
Qed.

(** ** Steps of the code that the scheduler does not see *)

Section Steps.
Context `{C : KConfig}.

(** Registers, capabilities and messages. *)
Definition tdata (x : tcb_t) :=
  (tcbRegs x, tcbIPCBuffer x, tcbFault x, tcbLookupFailure x, (blockingIPCCanGrant x, blockingIPCCanGrantReply x, blockingIPCIsCall x)).
Definition kdata (k : kstate) := (tdata <$> k_tcb k, k_cte k, k_word k, current_extra_caps k).
Definition istep (k0 : kstate) (s : istore) (k : kstate) : Prop := istore_of k = s /\ same_sched k0 k /\ kdata k = kdata k0.

Definition set_it (s : istore) (t : Z) (i : ithread) : istore := mkIs (<[t := i]> (is_tcb s)) (is_ep s) (is_nt s).
Definition set_ep (s : istore) (a : Z) (e : endpoint_t) : istore := mkIs (is_tcb s) (<[a := e]> (is_ep s)) (is_nt s).
Definition set_nt (s : istore) (a : Z) (n : notification_t) : istore := mkIs (is_tcb s) (is_ep s) (<[a := n]> (is_nt s)).

Lemma istep_refl k : queues k -> istep k (istore_of k) k.
Proof. intros HQ. split; [done |]. split; [by apply same_sched_refl | done]. Qed.

Lemma istore_tcb k s t i : istore_of k = s -> is_tcb s !! t = Some i -> exists x, k_tcb k !! t = Some x /\ ithread_of x = i.
Proof. intros <- Hi. simpl in Hi. rewrite lookup_fmap in Hi. destruct (k_tcb k !! t) as [x|]; [|done]. exists x. split; [done |]. by injection Hi. Qed.

Lemma wp_it_get k k0 s t i (P : tcb_t -> kstate -> Prop) F : istep k0 s k -> is_tcb s !! t = Some i -> t <> 0 ->
  (forall x, k_tcb k !! t = Some x -> ithread_of x = i -> P x k) -> wp (tcb_get t) P F k.
Proof. intros (Hs & _) Hi H0 HP. destruct (istore_tcb _ _ _ _ Hs Hi) as (x & Hx & Ex). eapply wp_tcb_get; [done | done |]. by apply HP. Qed.

Lemma wp_it_upd k k0 s t i f (g : ithread -> ithread) (P : unit -> kstate -> Prop) F :
  (forall x, keeps_place x (f x) /\ tsType (f x) = tsType x /\ tdata (f x) = tdata x /\ ithread_of (f x) = g (ithread_of x)) ->
  istep k0 s k -> is_tcb s !! t = Some i -> t <> 0 -> (forall k', istep k0 (set_it s t (g i)) k' -> P tt k') ->
  wp (tcb_upd t f) P F k.
Proof.
  intros Hf (Hs & Hss & Hd) Hi H0 HP. destruct (istore_tcb _ _ _ _ Hs Hi) as (x & Hx & Ex). eapply wp_tcb_upd; [done | done |]. apply HP.
  destruct (Hf x) as (F1 & F2 & F3 & F4). split; [|split].
  - rewrite <- Hs. unfold istore_of, set_it. simpl. by rewrite fmap_insert, F4, Ex.
  - eapply same_sched_trans; [exact Hss |]. by apply (tcb_upd_same k t x); [apply Hss | | |].
  - rewrite <- Hd. unfold kdata. simpl. do 3 f_equal. rewrite fmap_insert, F3, insert_id; [done |]. by rewrite lookup_fmap, Hx.
Qed.

Lemma same_sched_objs k k' : queues k -> k_tcb k' = k_tcb k -> ksReadyQueues k' = ksReadyQueues k ->
  ksReadyQueuesL1Bitmap k' = ksReadyQueuesL1Bitmap k -> ksReadyQueuesL2Bitmap k' = ksReadyQueuesL2Bitmap k ->
  ksCurThread k' = ksCurThread k -> ksSchedulerAction k' = ksSchedulerAction k -> ksCurDomain k' = ksCurDomain k ->
  ksIdleThread k' = ksIdleThread k -> ksDomScheduleIdx k' = ksDomScheduleIdx k -> same_sched k k'.
Proof.
  intros [Q HQ] E1 E2 E3 E4 E5 E6 E7 E8 E9. split; try done.
  - exists Q. destruct HQ as [H1 H2 H3 H4 H5]. split.
    + intros d p Hd Hp. pose proof (H1 d p Hd Hp) as HL. unfold nxs, pvs, rq in *. by rewrite E1, E2.
    + intros d p. rewrite E1. apply H2.
    + rewrite E1. exact H3.
    + rewrite E1. exact H4.
    + intros d Hd. pose proof (H5 d Hd) as HB. unfold l1, l2 in *. by rewrite E3, E4.
  - intros y. unfold queued. by rewrite E1.
  - split; intros t; unfold prio, domain; by rewrite E1.
Qed.

Lemma wp_ep_get k k0 s a e (P : endpoint_t -> kstate -> Prop) F : istep k0 s k -> is_ep s !! a = Some e -> a <> 0 -> P e k -> wp (ep_get a) P F k.
Proof. intros [<- _] He H0 HP. unfold wp, ep_get. simpl in He. by rewrite (proj2 (Z.eqb_neq a 0) H0), He. Qed.
Lemma wp_nt_get k k0 s a n (P : notification_t -> kstate -> Prop) F : istep k0 s k -> is_nt s !! a = Some n -> a <> 0 -> P n k -> wp (ntfn_get a) P F k.
Proof. intros [<- _] He H0 HP. unfold wp, ntfn_get. simpl in He. by rewrite (proj2 (Z.eqb_neq a 0) H0), He. Qed.

Lemma wp_ep_upd k k0 s a e f (P : unit -> kstate -> Prop) F : istep k0 s k -> is_ep s !! a = Some e -> a <> 0 ->
  (forall k', istep k0 (set_ep s a (f e)) k' -> P tt k') -> wp (ep_upd a f) P F k.
Proof.
  intros Hs He H0 HP. unfold ep_upd, ep_set. do 2 (wp_step; eapply wp_ep_get; [done | done | done |]). wp_step. apply HP.
  destruct Hs as (<- & Hss & Hd). split; [done |]. split; [|done]. eapply same_sched_trans; [exact Hss |]. by apply same_sched_objs; [apply Hss | ..].
Qed.
Lemma wp_nt_upd k k0 s a n f (P : unit -> kstate -> Prop) F : istep k0 s k -> is_nt s !! a = Some n -> a <> 0 ->
  (forall k', istep k0 (set_nt s a (f n)) k' -> P tt k') -> wp (ntfn_upd a f) P F k.
Proof.
  intros Hs He H0 HP. unfold ntfn_upd, ntfn_set. do 2 (wp_step; eapply wp_nt_get; [done | done | done |]). wp_step. apply HP.
  destruct Hs as (<- & Hss & Hd). split; [done |]. split; [|done]. eapply same_sched_trans; [exact Hss |]. by apply same_sched_objs; [apply Hss | ..].
Qed.

(** ** The queue operations *)

Lemma inx_set s t i y : inx (set_it s t i) y = put (inx s) t (it_next i) y.
Proof. unfold inx, put. simpl. case_decide as E; [subst; by rewrite lookup_insert_eq | by rewrite lookup_insert_ne]. Qed.
Lemma ipv_set s t i y : ipv (set_it s t i) y = put (ipv s) t (it_prev i) y.
Proof. unfold ipv, put. simpl. case_decide as E; [subst; by rewrite lookup_insert_eq | by rewrite lookup_insert_ne]. Qed.

Definition it_set_next (n : Z) (i : ithread) : ithread := mkIt (it_st i) (it_obj i) (it_badge i) n (it_prev i) (it_bound i).
Definition it_set_prev (p : Z) (i : ithread) : ithread := mkIt (it_st i) (it_obj i) (it_badge i) (it_next i) p (it_bound i).

Lemma wp_set_epnext k k0 s t i n (P : unit -> kstate -> Prop) F : istep k0 s k -> is_tcb s !! t = Some i -> t <> 0 ->
  (forall k', istep k0 (set_it s t (it_set_next n i)) k' -> P tt k') -> wp (tcb_upd t (upd_tcbEPNext (fun _ => n))) P F k.
Proof. intros Hs Hi H0 HP. eapply (wp_it_upd k k0 s t i _ (it_set_next n)); [|done | done | done | done]. intros x. by destruct x. Qed.
Lemma wp_set_epprev k k0 s t i p (P : unit -> kstate -> Prop) F : istep k0 s k -> is_tcb s !! t = Some i -> t <> 0 ->
  (forall k', istep k0 (set_it s t (it_set_prev p i)) k' -> P tt k') -> wp (tcb_upd t (upd_tcbEPPrev (fun _ => p))) P F k.
Proof. intros Hs Hi H0 HP. eapply (wp_it_upd k k0 s t i _ (it_set_prev p)); [|done | done | done | done]. intros x. by destruct x. Qed.

(** Links of the threads [xs] changed, nothing else. *)
Record links_changed (xs : list Z) (s s' : istore) : Prop := {
  lc_same : relinked s s';
  lc_out : forall y, y ∉ xs -> is_tcb s' !! y = is_tcb s !! y;
  lc_ep : is_ep s' = is_ep s;
  lc_nt : is_nt s' = is_nt s }.

Lemma links_refl xs s : links_changed xs s s.
Proof. by split. Qed.
Lemma links_set xs s s' t i i' : links_changed xs s s' -> t ∈ xs -> is_tcb s' !! t = Some i -> unlink i' = unlink i ->
  links_changed xs s (set_it s' t i').
Proof.
  intros [L1 L2 L3 L4] Ht Hi Eu. split; [| |done | done].
  - eapply relinked_trans; [exact L1 |]. intros y. simpl. destruct (decide (y = t)) as [->|]; [by rewrite lookup_insert_eq, Hi; simpl; f_equal |].
    by rewrite lookup_insert_ne.
  - intros y Hy. simpl. rewrite lookup_insert_ne by (intros ->; done). by apply L2.
Qed.

Definition listed (s : istore) (q : tcb_queue_t) (xs : list Z) : Prop :=
  dll (inx s) (ipv s) (q_head q) (q_end q) xs /\ forall y, y ∈ xs -> is_Some (is_tcb s !! y).

Lemma dll_pointwise nx pv nx' pv' hd tl xs : dll nx pv hd tl xs -> (forall y, nx' y = nx y) -> (forall y, pv' y = pv y) -> dll nx' pv' hd tl xs.
Proof. intros HL H1 H2. eapply dll_ext; [|exact HL]. intros y _. by rewrite H1, H2. Qed.

(** Comparing links after a few updates. *)
Ltac link_eq :=
  let y := fresh "y" in
  intros y; unfold inx, ipv, put, set_it; simpl; rewrite ?lookup_insert; repeat case_decide; subst; simpl;
  repeat match goal with H : is_tcb ?s !! ?t = Some _ |- context [is_tcb ?s !! ?t] => rewrite H end; try done; try congruence.

Lemma tcbEPAppend_ok k k0 s t q xs : istep k0 s k -> listed s q xs -> is_Some (is_tcb s !! t) -> t <> 0 -> t ∉ xs ->
  wp (tcbEPAppend t q) (fun q' k' => exists s', istep k0 s' k' /\ links_changed (xs ++ [t]) s s' /\ listed s' q' (xs ++ [t])) (fun _ => False) k.
Proof.
  intros Hs [HL Hx] [i Hi] H0 Hn. pose proof (dll_append _ _ _ _ _ t HL H0 Hn) as HL'. pose proof (dll_empty _ _ _ _ _ HL) as [Eh Ee].
  unfold tcbEPAppend. destruct (q_head q =? 0) eqn:E; [apply Z.eqb_eq in E | apply Z.eqb_neq in E].
  - rewrite decide_True in HL' by done. rewrite decide_True in HL' by done. do 3 wp_step.
    eapply wp_set_epprev; [exact Hs | exact Hi | done |]. intros k1 Hs1. wp_step.
    eapply wp_set_epnext; [exact Hs1 | simpl; apply lookup_insert_eq | done |]. intros k2 Hs2. wp_step.
    eexists. split; [exact Hs2 |]. split.
    { eapply links_set; [eapply links_set; [apply links_refl | set_solver | exact Hi | done] | set_solver | simpl; apply lookup_insert_eq | done]. }
    split; cbn [q_head q_end].
    + eapply dll_pointwise; [exact HL' | |]; link_eq.
    + intros y Hy. simpl. apply list.elem_of_app in Hy as [Hy|Hy]; [|apply list_elem_of_singleton in Hy as ->; rewrite lookup_insert_eq; eauto].
      rewrite !lookup_insert_ne by (intros ->; done). by apply Hx.
  - rewrite decide_False in HL' by done. rewrite decide_False in HL' by done. destruct (Hx (q_end q)) as [j Hj].
    { destruct HL as [_ _ -> _]. apply last_elem. rewrite <- Eh. done. }
    assert (t <> q_end q) as Hne. { intros ->. apply Hn. destruct HL as [_ _ -> _]. apply last_elem. rewrite <- Eh. done. }
    assert (q_end q <> 0) as He0 by (rewrite Ee, <- Eh; done). assert (q_end q ∈ xs) as Hin by (destruct HL as [_ _ -> _]; apply last_elem; rewrite <- Eh; done).
    do 2 wp_step. eapply wp_set_epnext; [exact Hs | exact Hj | done |]. intros k1 Hs1. do 2 wp_step.
    assert (is_tcb (set_it s (q_end q) (it_set_next t j)) !! t = Some i) as Hi1 by (simpl; by rewrite lookup_insert_ne).
    eapply wp_set_epprev; [exact Hs1 | exact Hi1 | done |]. intros k2 Hs2. wp_step.
    eapply wp_set_epnext; [exact Hs2 | simpl; apply lookup_insert_eq | done |]. intros k3 Hs3. wp_step.
    eexists. split; [exact Hs3 |]. split.
    { eapply links_set; [eapply links_set; [eapply links_set; [apply links_refl | set_solver | exact Hj | done] | set_solver | exact Hi1 | done] |
        set_solver | simpl; apply lookup_insert_eq | done]. }
    split; cbn [q_head q_end].
    + eapply dll_pointwise; [exact HL' | |]; link_eq.
    + intros y Hy. simpl. rewrite !lookup_insert. repeat case_decide; eauto. apply Hx. set_solver.
Qed.

(** One link of a neighbour, if there is one. *)
Lemma wp_link_next k k0 s (b : bool) h v xs (q q1 : tcb_queue_t) (P : tcb_queue_t -> kstate -> Prop) F : istep k0 s k ->
  (b = true -> h <> 0 /\ h ∈ xs) -> (forall y, y ∈ xs -> is_Some (is_tcb s !! y)) ->
  (forall k' s', istep k0 s' k' -> links_changed xs s s' ->
     (forall y, inx s' y = (if b then put (inx s) h v else inx s) y) -> (forall y, ipv s' y = ipv s y) -> P (if b then q else q1) k') ->
  wp (if b then do* tcb_upd h (upd_tcbEPNext (fun _ => v)) in ret q else ret q1) P F k.
Proof.
  intros Hs Hb Hx HP. destruct b; [|wp_step; by apply (HP k s)]. destruct (Hb eq_refl) as [H0 Hin]. destruct (Hx h Hin) as [j Hj].
  wp_step. eapply wp_set_epnext; [exact Hs | exact Hj | done |]. intros k1 Hs1. wp_step. eapply HP; [exact Hs1 | | |]; [|link_eq..].
  eapply links_set; [apply links_refl | done | exact Hj | done].
Qed.
Lemma wp_link_prev k k0 s (b : bool) h v xs (q q1 : tcb_queue_t) (P : tcb_queue_t -> kstate -> Prop) F : istep k0 s k ->
  (b = true -> h <> 0 /\ h ∈ xs) -> (forall y, y ∈ xs -> is_Some (is_tcb s !! y)) ->
  (forall k' s', istep k0 s' k' -> links_changed xs s s' ->
     (forall y, inx s' y = inx s y) -> (forall y, ipv s' y = (if b then put (ipv s) h v else ipv s) y) -> P (if b then q else q1) k') ->
  wp (if b then do* tcb_upd h (upd_tcbEPPrev (fun _ => v)) in ret q else ret q1) P F k.
Proof.
  intros Hs Hb Hx HP. destruct b; [|wp_step; by apply (HP k s)]. destruct (Hb eq_refl) as [H0 Hin]. destruct (Hx h Hin) as [j Hj].
  wp_step. eapply wp_set_epprev; [exact Hs | exact Hj | done |]. intros k1 Hs1. wp_step. eapply HP; [exact Hs1 | | |]; [|link_eq..].
  eapply links_set; [apply links_refl | done | exact Hj | done].
Qed.

Lemma links_trans xs s s' s'' : links_changed xs s s' -> links_changed xs s' s'' -> links_changed xs s s''.
Proof.
  intros [A1 A2 A3 A4] [B1 B2 B3 B4]. split; [by eapply relinked_trans | | congruence | congruence]. intros y Hy. by rewrite B2, A2.
Qed.
Lemma links_some xs s s' y : links_changed xs s s' -> is_Some (is_tcb s !! y) -> is_Some (is_tcb s' !! y).
Proof. intros [A1 _ _ _] [i Hi]. destruct (relinked_some _ _ _ _ A1 Hi) as (i' & -> & _). eauto. Qed.

Lemma tcbEPDequeue_ok k k0 s t q l r : istep k0 s k -> listed s q (l ++ t :: r) ->
  wp (tcbEPDequeue t q) (fun q' k' => exists s', istep k0 s' k' /\ links_changed (l ++ t :: r) s s' /\ listed s' q' (l ++ r)) (fun _ => False) k.
Proof.
  intros Hs [HL Hx]. pose proof (dll_remove _ _ _ _ _ _ _ HL) as HL'. destruct (dll_around _ _ _ _ _ _ _ HL) as (H0 & Ep & En).
  destruct (Hx t ltac:(set_solver)) as [i Hi].
  assert (ipv s t = it_prev i /\ inx s t = it_next i) as [Fp Fn] by (unfold ipv, inx; by rewrite Hi).
  assert (forall h, h <> 0 -> h = List.last l 0 \/ h = List.hd 0 r -> h ∈ l ++ t :: r) as Hnb.
  { intros h Hh [->| ->]; apply list.elem_of_app; [left; by apply last_elem' | right; apply list.elem_of_cons; right; by apply hd_in]. }
  assert (t ∉ l ++ r) as Htn. { destruct HL as [_ _ _ Hnd]. apply list.NoDup_app in Hnd as (_ & Hd & Hc). apply list.NoDup_cons in Hc as [Hc _]. set_solver. }
  unfold tcbEPDequeue. wp_step. eapply wp_it_get; [exact Hs | exact Hi | done |]. intros x Hxk Ex. wp_step.
  assert (tcbEPPrev x = it_prev i /\ tcbEPNext x = it_next i) as [-> ->] by (by rewrite <- Ex).
  eapply wp_link_next with (xs := l ++ t :: r); [exact Hs | | exact Hx |].
  { intros Hb%negb_true_iff%Z.eqb_neq. split; [done |]. apply Hnb; [done |]. left. congruence. }
  intros k1 s1 Hs1 Hc1 N1 P1. wp_step.
  assert (exists i1, is_tcb s1 !! t = Some i1 /\ it_prev i1 = it_prev i /\ it_next i1 = it_next i) as (i1 & Hi1 & Q1 & Q2).
  { destruct (links_some _ _ _ t Hc1 ltac:(eauto)) as [i1 Hi1]. exists i1. split; [done |].
    pose proof (P1 t) as F1. pose proof (N1 t) as F2. unfold ipv at 1 in F1. unfold inx at 1 in F2. rewrite Hi1 in F1, F2. simpl in F1, F2.
    split; [congruence |]. rewrite F2. destruct (negb _) eqn:Eb; [|done]. rewrite put_ne; [done |].
    intros Et. apply Htn. rewrite Et, <- Fp, Ep. apply list.elem_of_app. left. apply last_elem'. rewrite <- Ep, Fp.
    by apply negb_true_iff, Z.eqb_neq in Eb. }
  eapply wp_it_get; [exact Hs1 | exact Hi1 | done |]. intros x1 _ Ex1.
  assert (tcbEPPrev x1 = it_prev i /\ tcbEPNext x1 = it_next i) as [-> ->] by (rewrite <- Q1, <- Q2, <- Ex1; done).
  eapply wp_link_prev with (xs := l ++ t :: r); [exact Hs1 | | intros y Hy; by apply (links_some _ _ _ _ Hc1), Hx |].
  { intros Hb%negb_true_iff%Z.eqb_neq. split; [done |]. apply Hnb; [done |]. right. congruence. }
  intros k2 s2 Hs2 Hc2 N2 P2. exists s2. split; [done |]. split; [by eapply links_trans |]. split.
  - rewrite Fp, Fn in HL'. eapply dll_pointwise; [|intros y; rewrite N2, N1; reflexivity |intros y; rewrite P2; reflexivity].
    destruct (it_prev i =? 0) eqn:E1, (it_next i =? 0) eqn:E2; cbn [negb q_head q_end] in *;
      rewrite ?Z.eqb_eq, ?Z.eqb_neq in *; repeat first [rewrite decide_True in HL' by done | rewrite decide_False in HL' by done];
      (eapply dll_pointwise; [exact HL' | done |]); intros y; unfold put; rewrite ?P1; done.
  - intros y Hy. apply (links_some _ _ _ _ Hc2), (links_some _ _ _ _ Hc1), Hx. set_solver.
Qed.
End Steps.

(** ** Objects *)

Section Objects.
Context `{C : KConfig}.

Lemma listed_of E Q s o : ipc_inv E Q s -> listed s (obj_queue s o) (Q o).
Proof. intros HI. split; [apply (io_queue _ _ _ HI) |]. intros y Hy. destruct (io_mem _ _ _ HI o y Hy) as (_ & i & -> & _). eauto. Qed.

Lemma keep_in t (xs : list Z) y : y ∈ filter (fun y => y <> t) xs <-> y <> t /\ y ∈ xs.
Proof. by rewrite list_elem_of_filter. Qed.

(** A new queue and state for one object, and links of threads in that queue. *)
Definition with_obj (s : istore) (o : obj) (q : tcb_queue_t) (w : option _thread_state_t) (s' : istore) : Prop :=
  obj_queue s' o = q /\ obj_waits s' o = w /\
  (forall o', o' <> o -> obj_queue s' o' = obj_queue s o' /\ obj_waits s' o' = obj_waits s o') /\
  (is_ep s' !! 0 = None /\ is_nt s' !! 0 = None) /\
  (forall n, ntfnBoundTCB <$> is_nt s' !! n = ntfnBoundTCB <$> is_nt s !! n).

(** Taking a thread out of a queue. *)
Lemma inv_take E Q s s1 s' o t q : ipc_inv E Q s -> t ∈ Q o -> links_changed (Q o) s s1 -> listed s1 q (filter (fun y => y <> t) (Q o)) ->
  is_tcb s' = is_tcb s1 -> with_obj s o q (if q_head q =? 0 then None else obj_waits s o) s' ->
  ipc_inv (fun y => E y \/ y = t) (oput Q o (filter (fun y => y <> t) (Q o))) s'.
Proof.
  intros HI Ht [L1 L2 _ _] [HL Hx] Et (Eq & Ew & Hoth & H0 & Hb). pose proof (io_mem _ _ _ HI o t Ht) as (HnE & i & Hi & Eo & Ews).
  assert (forall y, inx s' y = inx s1 y /\ ipv s' y = ipv s1 y) as Hl by (intros y; unfold inx, ipv; by rewrite Et).
  pose proof (dll_empty _ _ _ _ _ HL) as [Eh _].
  eapply (ipc_change E _ Q s s' o); [exact HI | | | | exact Hoth | | | | | | exact H0 | exact Hb].
  - intros y. by rewrite Et, L1.
  - intros o' y Ho' Hy. rewrite Et. apply L2. intros Hy'. apply Ho'. by apply (queue_disjoint E Q s _ _ y).
  - rewrite Eq. eapply dll_pointwise; [exact HL | intros y; apply Hl..].
  - rewrite Ew, <- Eh. destruct (q_head q =? 0) eqn:E0; [apply Z.eqb_eq in E0; done | apply Z.eqb_neq in E0]. split; [done |]. by rewrite Ews.
  - intros y [Hne Hy]%keep_in. destruct (io_mem _ _ _ HI o y Hy) as (Hn & j & Hj & Ej & Ewj). split; [tauto |]. exists j.
    split; [done |]. split; [done |]. rewrite Ew, (proj2 (Z.eqb_neq _ 0)); [done |]. rewrite Eh. intros E0.
    assert (y ∈ filter (fun y => y <> t) (Q o)) as Hin by by apply keep_in. rewrite E0 in Hin. by apply not_elem_of_nil in Hin.
  - intros y j Hj Ej Hn. apply keep_in. split; [tauto |]. apply (io_wait _ _ _ HI y j); tauto.
  - intros o' y Ho' Hy [Hn| ->]; [by apply (io_mem _ _ _ HI o' y Hy) |]. apply Ho'. by apply (queue_disjoint E Q s _ _ t).
  - intros y j o' _ _ _ Hn. tauto.
Qed.

Lemma dequeue_filter_ok E Q k k0 s t o : istep k0 s k -> ipc_inv E Q s -> t ∈ Q o ->
  wp (tcbEPDequeue t (obj_queue s o)) (fun q' k' => exists s', istep k0 s' k' /\ links_changed (Q o) s s' /\
    listed s' q' (filter (fun y => y <> t) (Q o))) (fun _ => False) k.
Proof.
  intros Hs HI Ht. pose proof (listed_of E Q s o HI) as Hl. pose proof (dll_nodup _ _ _ _ _ (proj1 Hl)) as Hnd.
  apply list_elem_of_split in Ht as (l & r & Er). rewrite Er in *.
  rewrite keep_split; [by apply tcbEPDequeue_ok | |].
  - apply list.NoDup_app in Hnd as (_ & Hd & _). intros Hin. apply (Hd t Hin). set_solver.
  - apply list.NoDup_app in Hnd as (_ & _ & Hc). by apply list.NoDup_cons in Hc as [? _].
Qed.

Lemma waits_ep E Q s a t : ipc_inv E Q s -> t ∈ Q (OEp a) -> a <> 0 /\ exists e, is_ep s !! a = Some e /\ ep_state e <> EPState_Idle.
Proof.
  intros HI Ht. destruct (io_mem _ _ _ HI _ _ Ht) as (_ & i & _ & _ & Ew). simpl in Ew. destruct (is_ep s !! a) as [e|] eqn:Ee; [|done].
  split; [intros ->; pose proof (io_objs _ _ _ HI) as [H0 _]; congruence |]. exists e. split; [done |]. intros Es. simpl in Ew. by rewrite Es in Ew.
Qed.
Lemma waits_nt E Q s a t : ipc_inv E Q s -> t ∈ Q (ONt a) -> a <> 0 /\ exists n, is_nt s !! a = Some n /\ ntfn_state n = NtfnState_Waiting.
Proof.
  intros HI Ht. destruct (io_mem _ _ _ HI _ _ Ht) as (_ & i & _ & _ & Ew). simpl in Ew. destruct (is_nt s !! a) as [e|] eqn:Ee; [|done].
  split; [intros ->; pose proof (io_objs _ _ _ HI) as [_ H0]; congruence |]. exists e. split; [done |]. simpl in Ew. by destruct (ntfn_state e).
Qed.

(** What an operation on the queue of one object leaves alone. *)
Record object_step (o : obj) (s s' : istore) : Prop := {
  ob_threads : relinked s s';
  ob_ep : forall a, OEp a <> o -> is_ep s' !! a = is_ep s !! a;
  ob_nt : forall a, ONt a <> o -> is_nt s' !! a = is_nt s !! a }.

Lemma ep_take_ok E Q k k0 s t a : istep k0 s k -> ipc_inv E Q s -> t ∈ Q (OEp a) ->
  wp (ep_take a t (obj_queue s (OEp a))) (fun _ k' => exists s', istep k0 s' k' /\ object_step (OEp a) s s' /\
    ipc_inv (fun y => E y \/ y = t) (oput Q (OEp a) (filter (fun y => y <> t) (Q (OEp a)))) s') (fun _ => False) k.
Proof.
  intros Hs HI Ht. destruct (waits_ep _ _ _ _ _ HI Ht) as (H0 & e & He & Hst). unfold ep_take, ep_ptr_set_queue, endpoint_ptr_set_state.
  wp_step. eapply wp_mono; [by apply (dequeue_filter_ok E Q) | | done]. intros q k1 (s1 & Hs1 & Hc & Hl). pose proof Hc as [L1 L2 L3 L4].
  wp_step. eapply wp_ep_upd; [exact Hs1 | by rewrite L3 | done |]. intros k2 Hs2.
  assert (forall st' s2, s2 = set_ep s1 a (mkEp st' (q_head q) (q_end q)) -> st' = (if q_head q =? 0 then EPState_Idle else ep_state e) ->
    object_step (OEp a) s s2 /\ ipc_inv (fun y => E y \/ y = t) (oput Q (OEp a) (filter (fun y => y <> t) (Q (OEp a)))) s2) as Hfin.
  { intros st' s2 -> Est. split.
    - split; [intros y; apply L1 | |]; simpl; intros b Hb; [rewrite lookup_insert_ne by congruence; by rewrite L3 | by rewrite L4].
    - eapply inv_take; [exact HI | done | exact Hc | exact Hl | done |]. split; [simpl; rewrite lookup_insert_eq; by destruct q |].
      split; [simpl; rewrite lookup_insert_eq, He; simpl; rewrite Est; by destruct (q_head q =? 0) |]. split; [|split].
      + intros [b|b] Hb; simpl; [rewrite lookup_insert_ne by congruence; by rewrite L3 | by rewrite L4].
      + simpl. rewrite lookup_insert_ne by done. rewrite L3, L4. exact (io_objs _ _ _ HI).
      + intros n. simpl. by rewrite L4. }
  destruct (q_head q =? 0) eqn:E0.
  - eapply wp_ep_upd; [exact Hs2 | simpl; apply lookup_insert_eq | done |]. intros k3 Hs3. simpl in Hs3.
    eexists. split; [exact Hs3 |]. unfold set_ep in Hs3 |- *. simpl in *. rewrite insert_insert_eq in *. by apply (Hfin EPState_Idle).
  - wp_step. eexists. split; [exact Hs2 |]. by apply (Hfin (ep_state e)).
Qed.

Lemma ntfn_take_ok E Q k k0 s t a : istep k0 s k -> ipc_inv E Q s -> t ∈ Q (ONt a) ->
  wp (ntfn_take a t (obj_queue s (ONt a))) (fun _ k' => exists s', istep k0 s' k' /\ object_step (ONt a) s s' /\
    ipc_inv (fun y => E y \/ y = t) (oput Q (ONt a) (filter (fun y => y <> t) (Q (ONt a)))) s') (fun _ => False) k.
Proof.
  intros Hs HI Ht. destruct (waits_nt _ _ _ _ _ HI Ht) as (H0 & e & He & Hst). unfold ntfn_take, ntfn_ptr_set_queue, notification_ptr_set_state.
  wp_step. eapply wp_mono; [by apply (dequeue_filter_ok E Q) | | done]. intros q k1 (s1 & Hs1 & Hc & Hl). pose proof Hc as [L1 L2 L3 L4].
  wp_step. eapply wp_nt_upd; [exact Hs1 | by rewrite L4 | done |]. intros k2 Hs2.
  assert (forall st' s2, s2 = set_nt s1 a (mkNtfn st' (ntfnBoundTCB e) (ntfnMsgIdentifier e) (q_head q) (q_end q)) ->
    st' = (if q_head q =? 0 then NtfnState_Idle else NtfnState_Waiting) ->
    object_step (ONt a) s s2 /\ ipc_inv (fun y => E y \/ y = t) (oput Q (ONt a) (filter (fun y => y <> t) (Q (ONt a)))) s2) as Hfin.
  { intros st' s2 -> Est. split.
    - split; [intros y; apply L1 | |]; simpl; intros b Hb; [by rewrite L3 | rewrite lookup_insert_ne by congruence; by rewrite L4].
    - eapply inv_take; [exact HI | done | exact Hc | exact Hl | done |]. split; [simpl; rewrite lookup_insert_eq; by destruct q |].
      split; [simpl; rewrite lookup_insert_eq, He; simpl; rewrite Est, Hst; by destruct (q_head q =? 0) |]. split; [|split].
      + intros [b|b] Hb; simpl; [by rewrite L3 | rewrite lookup_insert_ne by congruence; by rewrite L4].
      + simpl. rewrite lookup_insert_ne by done. rewrite L3, L4. exact (io_objs _ _ _ HI).
      + intros n. simpl. rewrite L4. destruct (decide (n = a)) as [->|]; [by rewrite lookup_insert_eq, He | by rewrite lookup_insert_ne]. }
  destruct (q_head q =? 0) eqn:E0.
  - eapply wp_nt_upd; [exact Hs2 | simpl; apply lookup_insert_eq | done |]. intros k3 Hs3. simpl in Hs3.
    eexists. split; [exact Hs3 |]. unfold set_nt in Hs3 |- *. simpl in *. rewrite insert_insert_eq in *. by apply (Hfin NtfnState_Idle).
  - wp_step. eexists. split; [exact Hs2 |]. rewrite Hst. by apply (Hfin NtfnState_Waiting).
Qed.

(** ** Threads on their way between queues *)

Lemma no_queue E Q s t i : ipc_inv E Q s -> is_tcb s !! t = Some i -> obj_of i = None \/ E t -> forall o, t ∉ Q o.
Proof. intros HI Hi Ho o Ht. destruct (io_mem _ _ _ HI o t Ht) as (Hn & j & Hj & Ej & _). destruct Ho; [congruence | done]. Qed.

Lemma bound_set s t i i' : bound_ok s -> is_tcb s !! t = Some i -> it_bound i' = it_bound i -> bound_ok (set_it s t i').
Proof.
  intros [B1 B2] Hi Eb. split; simpl.
  - intros n N HN H0. destruct (B1 n N HN H0) as (j & Hj & Ej). destruct (decide (ntfnBoundTCB N = t)) as [<-|].
    + exists i'. rewrite lookup_insert_eq. split; [done |]. congruence.
    + exists j. by rewrite lookup_insert_ne.
  - intros y j. destruct (decide (y = t)) as [->|]; [rewrite lookup_insert_eq; intros [= <-]; rewrite Eb; by apply B2 |].
    rewrite lookup_insert_ne by done. apply B2.
Qed.

(** A thread in no queue changes its state. *)
Lemma inv_thread E Q s t i i' : ipc_inv E Q s -> is_tcb s !! t = Some i -> (forall o, t ∉ Q o) -> it_bound i' = it_bound i ->
  ipc_inv (fun y => E y \/ y = t) Q (set_it s t i').
Proof.
  intros [I1 I2 I3 I4 I5 I6 I7] Hi Hn Eb.
  assert (forall o y, y ∈ Q o -> is_tcb (set_it s t i') !! y = is_tcb s !! y) as Hs.
  { intros o y Hy. simpl. rewrite lookup_insert_ne; [done |]. intros ->. by apply (Hn o). }
  split.
  - intros o. eapply dll_ext; [|apply I1]. intros y Hy. unfold inx, ipv. by rewrite (Hs o y).
  - exact I2.
  - intros o y Hy. rewrite (Hs o y) by done. destruct (I3 o y Hy) as (HE & Hx). split; [|exact Hx]. intros [?| ->]; [done | by apply (Hn o)].
  - intros y j o Hj Ej HE. simpl in Hj. rewrite lookup_insert_ne in Hj by (intros ->; tauto). apply (I4 y j); tauto.
  - intros y. simpl. destruct (decide (y = t)) as [->|]; [intros _; apply I5; eauto | by rewrite lookup_insert_ne; auto].
  - exact I6.
  - by apply (bound_set s t i).
Qed.

(** It has arrived when it waits for nothing. *)
Lemma inv_settle E Q s t i : ipc_inv (fun y => E y \/ y = t) Q s -> is_tcb s !! t = Some i -> obj_of i = None -> ipc_inv E Q s.
Proof.
  intros [I1 I2 I3 I4 I5 I6 I7] Hi Eo. split; try done.
  - intros o y Hy. destruct (I3 o y Hy) as (HE & Hx). split; [tauto | exact Hx].
  - intros y j o Hj Ej HE. apply (I4 y j o Hj Ej). intros [?| ->]; [done | congruence].
Qed.

(** Putting it at the end of the queue it waits in. *)
Lemma inv_wait E Q s s1 s' o t i q : ipc_inv (fun y => E y \/ y = t) Q s -> is_tcb s !! t = Some i -> obj_of i = Some o -> ~ E t ->
  links_changed (Q o ++ [t]) s s1 -> listed s1 q (Q o ++ [t]) -> is_tcb s' = is_tcb s1 ->
  obj_waits s o = None \/ obj_waits s o = Some (it_st i) -> with_obj s o q (Some (it_st i)) s' ->
  ipc_inv E (oput Q o (Q o ++ [t])) s'.
Proof.
  intros HI Hi Eo HnE [L1 L2 _ _] [HL Hx] Et Hw (Eq & Ew & Hoth & H0 & Hb).
  assert (forall y, inx s' y = inx s1 y /\ ipv s' y = ipv s1 y) as Hl by (intros y; unfold inx, ipv; by rewrite Et).
  pose proof (no_queue _ _ _ _ _ HI Hi (or_intror (or_intror eq_refl))) as Hnq.
  eapply (ipc_change _ E Q s s' o); [exact HI | | | | exact Hoth | | | | | | exact H0 | exact Hb].
  - intros y. by rewrite Et, L1.
  - intros o' y Ho' Hy. rewrite Et. apply L2. rewrite list.elem_of_app, list_elem_of_singleton. intros [Hy'| ->]; [|by apply (Hnq o')].
    apply Ho'. by apply (queue_disjoint _ Q s _ _ y HI).
  - rewrite Eq. eapply dll_pointwise; [exact HL | intros y; apply Hl..].
  - rewrite Ew. split; [|done]. by destruct (Q o).
  - intros y [Hy|Hy]%list.elem_of_app.
    + destruct (io_mem _ _ _ HI o y Hy) as (Hn & j & Hj & Ej & Ewj). split; [tauto |]. exists j. split; [done |]. split; [done |].
      rewrite Ew. destruct Hw as [Hw|Hw]; congruence.
    + apply list_elem_of_singleton in Hy as ->. split; [done |]. exists i. done.
  - intros y j Hj Ej Hn. apply list.elem_of_app. destruct (decide (y = t)) as [->|]; [right; set_solver | left].
    apply (io_wait _ _ _ HI y j); [done | done | tauto].
  - intros o' y Ho' Hy. destruct (io_mem _ _ _ HI o' y Hy) as (Hn & _). tauto.
  - intros y j o' Hj Ej Ho' Hn [?| ->]; [done |]. congruence.
Qed.

Lemma ep_wait_ok E Q k k0 s t i a st e : istep k0 s k -> ipc_inv (fun y => E y \/ y = t) Q s -> is_tcb s !! t = Some i -> obj_of i = Some (OEp a) ->
  ~ E t -> is_ep s !! a = Some e -> ep_waits st = Some (it_st i) -> ep_state e = EPState_Idle \/ ep_state e = st ->
  wp (ep_wait a t st) (fun _ k' => exists s', istep k0 s' k' /\ object_step (OEp a) s s' /\
    ipc_inv E (oput Q (OEp a) (Q (OEp a) ++ [t])) s') (fun _ => False) k.
Proof.
  intros Hs HI Hi Eo HnE He Hst Hse. assert (a <> 0) as H0 by (intros ->; pose proof (io_objs _ _ _ HI) as [? _]; congruence).
  pose proof (no_queue _ _ _ _ _ HI Hi (or_intror (or_intror eq_refl)) (OEp a)) as Hnq.
  assert (t <> 0) as Ht0 by (apply (io_tcb _ _ _ HI); eauto).
  unfold ep_wait, ep_ptr_get_queue, endpoint_ptr_set_state, ep_ptr_set_queue. do 2 wp_step. eapply wp_ep_get; [exact Hs | exact He | done |].
  do 2 wp_step. replace (mkQ (epQueue_head e) (epQueue_tail e)) with (obj_queue s (OEp a)) by (simpl; by rewrite He).
  eapply wp_mono; [apply (tcbEPAppend_ok k k0 s t _ (Q (OEp a))); [done | by eapply listed_of | eauto | done | done] | | done].
  intros q k1 (s1 & Hs1 & Hc & Hl). pose proof Hc as [L1 L2 L3 L4]. wp_step.
  eapply wp_ep_upd; [exact Hs1 | by rewrite L3 | done |]. intros k2 Hs2.
  eapply wp_ep_upd; [exact Hs2 | simpl; apply lookup_insert_eq | done |]. intros k3 Hs3. eexists. split; [exact Hs3 |]. simpl. split.
  - split; [intros y; apply L1 | |]; simpl; intros b Hb; [rewrite !lookup_insert_ne by congruence; by rewrite L3 | by rewrite L4].
  - eapply inv_wait; [exact HI | exact Hi | exact Eo | done | exact Hc | exact Hl | done | |].
    + simpl. rewrite He. simpl. destruct Hse as [->| ->]; [by left | by right].
    + split; [simpl; rewrite lookup_insert_eq; by destruct q |]. split; [simpl; rewrite lookup_insert_eq; done |]. split; [|split].
      * intros [b|b] Hb; simpl; [rewrite !lookup_insert_ne by congruence; by rewrite L3 | by rewrite L4].
      * simpl. rewrite !lookup_insert_ne by done. rewrite L3, L4. exact (io_objs _ _ _ HI).
      * intros n. simpl. by rewrite L4.
Qed.

Lemma ntfn_wait_ok E Q k k0 s t i a e : istep k0 s k -> ipc_inv (fun y => E y \/ y = t) Q s -> is_tcb s !! t = Some i -> obj_of i = Some (ONt a) ->
  ~ E t -> is_nt s !! a = Some e -> it_st i = ThreadState_BlockedOnNotification ->
  wp (ntfn_wait a t) (fun _ k' => exists s', istep k0 s' k' /\ object_step (ONt a) s s' /\
    ipc_inv E (oput Q (ONt a) (Q (ONt a) ++ [t])) s') (fun _ => False) k.
Proof.
  intros Hs HI Hi Eo HnE He Hst. assert (a <> 0) as H0 by (intros ->; pose proof (io_objs _ _ _ HI) as [_ ?]; congruence).
  pose proof (no_queue _ _ _ _ _ HI Hi (or_intror (or_intror eq_refl)) (ONt a)) as Hnq.
  assert (t <> 0) as Ht0 by (apply (io_tcb _ _ _ HI); eauto).
  unfold ntfn_wait, ntfn_ptr_get_queue, notification_ptr_set_state, ntfn_ptr_set_queue. do 2 wp_step. eapply wp_nt_get; [exact Hs | exact He | done |].
  do 2 wp_step. replace (mkQ (ntfnQueue_head e) (ntfnQueue_tail e)) with (obj_queue s (ONt a)) by (simpl; by rewrite He).
  eapply wp_mono; [apply (tcbEPAppend_ok k k0 s t _ (Q (ONt a))); [done | by eapply listed_of | eauto | done | done] | | done].
  intros q k1 (s1 & Hs1 & Hc & Hl). pose proof Hc as [L1 L2 L3 L4]. wp_step.
  eapply wp_nt_upd; [exact Hs1 | by rewrite L4 | done |]. intros k2 Hs2.
  eapply wp_nt_upd; [exact Hs2 | simpl; apply lookup_insert_eq | done |]. intros k3 Hs3. eexists. split; [exact Hs3 |]. simpl. split.
  - split; [intros y; apply L1 | |]; simpl; intros b Hb; [by rewrite L3 | rewrite !lookup_insert_ne by congruence; by rewrite L4].
  - eapply inv_wait; [exact HI | exact Hi | exact Eo | done | exact Hc | exact Hl | done | |].
    + simpl. rewrite He, Hst. simpl. destruct (ntfn_state e); [by left | by right | by left].
    + split; [simpl; rewrite lookup_insert_eq; by destruct q |]. split; [simpl; rewrite lookup_insert_eq; simpl; by rewrite Hst |]. split; [|split].
      * intros [b|b] Hb; simpl; [by rewrite L3 | rewrite !lookup_insert_ne by congruence; by rewrite L4].
      * simpl. rewrite !lookup_insert_ne by done. rewrite L3, L4. exact (io_objs _ _ _ HI).
      * intros n. simpl. rewrite L4. destruct (decide (n = a)) as [->|]; [by rewrite lookup_insert_eq, He | by rewrite !lookup_insert_ne].
Qed.
End Objects.
