(* ===== verification/KIpcThms.v ===== *)
(** * Signals, cancellation and rendezvous

    The operations on endpoints and notifications keep the invariant of the
    queues and the scheduler's invariant together, and deliver in the order of
    arrival. *)

From S2P Require Import Prelude Dll KCaps KState KSched KMsg KIpc.
From S2P Require Import KSchedInv KSchedThms KSchedSteps KIpcInv.

(** ** The scheduler's steps, seen from the queues *)

Section Frames.
Context `{C : KConfig}.

(** What the scheduler's operations keep of each thread. *)
Definition tview (x : tcb_t) : ithread * gmap Z Z := (ithread_of x, tcbRegs x).
Definition kview (k : kstate) := (tview <$> k_tcb k, k_ep k, k_ntfn k, k_cte k, k_word k).

Lemma pres_view_upd t f : (forall x, tview (f x) = tview x) -> preserves kview (tcb_upd t f).
Proof.
  intros Hf k u k'. unfold tcb_upd, bind, tcb_get. destruct (t =? 0); [done |]. destruct (k_tcb k !! t) as [x|] eqn:E; [|done].
  intros [= _ <-]. unfold kview. simpl. do 4 f_equal. rewrite fmap_insert, Hf, insert_id; [done |]. by rewrite lookup_fmap, E.
Qed.
#[local] Hint Resolve pres_tcb_get pres_rq_get pres_l1_get pres_l2_get pres_index pres_invert : pres.
Lemma pres_view_rq i q : preserves kview (rq_set i q).
Proof. unfold rq_set. pres. Qed.
#[local] Hint Resolve pres_view_rq : pres.
#[local] Hint Extern 3 (preserves kview (tcb_upd _ _)) => (apply pres_view_upd; intros []; reflexivity) : pres.

Lemma view_addToBitmap d p : preserves kview (addToBitmap d p).
Proof. unfold addToBitmap, l1_set, l2_set. pres. Qed.
Lemma view_removeFromBitmap d p : preserves kview (removeFromBitmap d p).
Proof. unfold removeFromBitmap, l1_set, l2_set. pres. Qed.
#[local] Hint Resolve view_addToBitmap view_removeFromBitmap : pres.
Lemma view_enqueue t : preserves kview (tcbSchedEnqueue t).
Proof. unfold tcbSchedEnqueue. pres. Qed.
Lemma view_dequeue t : preserves kview (tcbSchedDequeue t).
Proof. unfold tcbSchedDequeue. pres. Qed.
#[local] Hint Resolve view_enqueue view_dequeue : pres.
Lemma view_reschedule : preserves kview rescheduleRequired.
Proof. unfold rescheduleRequired, set_action. pres. Qed.
#[local] Hint Resolve view_reschedule : pres.
Lemma view_scheduleTCB t : preserves kview (scheduleTCB t).
Proof. unfold scheduleTCB, isRunnable. pres. Qed.
Lemma view_switch t : preserves kview (possibleSwitchTo t).
Proof. unfold possibleSwitchTo, set_action. pres. Qed.

Lemma view_istore k k' : kview k' = kview k -> istore_of k' = istore_of k.
Proof.
  intros E. unfold kview in E. injection E as E1 E2 E3 _ _. unfold istore_of. f_equal; [|done..].
  apply map_eq. intros t. apply (f_equal (fun m => m !! t)) in E1. rewrite !lookup_fmap in *.
  destruct (k_tcb k' !! t), (k_tcb k !! t); unfold tview in *; simpl in *; try done. congruence.
Qed.

Definition reg (k : kstate) (t r : Z) : Z := default 0 (k_tcb k !! t ≫= fun x => tcbRegs x !! r).
Lemma view_reg k k' t r : kview k' = kview k -> reg k' t r = reg k t r.
Proof.
  intros E. unfold kview in E. injection E as E1 _ _ _ _. apply (f_equal (fun m => m !! t)) in E1. rewrite !lookup_fmap in E1. unfold reg.
  destruct (k_tcb k' !! t), (k_tcb k !! t); unfold tview in *; simpl in *; try done. congruence.
Qed.

Definition it_set_st (st : _thread_state_t) (i : ithread) : ithread := mkIt st (it_obj i) (it_badge i) (it_next i) (it_prev i) (it_bound i).

(** Changing a thread, seen as a change of the store. *)
Lemma istore_upd k t x i : istore_of (upd_k_tcb (insert t x) k) = set_it (istore_of k) t i <-> ithread_of x = i.
Proof.
  unfold istore_of, set_it. simpl. rewrite fmap_insert. split; [|by intros ->]. intros E. injection E as E.
  apply (f_equal (fun m => m !! t)) in E. rewrite !lookup_insert_eq in E. congruence.
Qed.

Lemma wp_state_view k t st x (P : unit -> kstate -> Prop) F : k_tcb k !! t = Some x -> t <> 0 -> wp (setThreadState t st) P F k ->
  wp (setThreadState t st) (fun u k' => P u k' /\ kview k' = kview (upd_k_tcb (insert t (upd_tsType (fun _ => st) x)) k)) F k.
Proof.
  intros Hx H0. unfold wp. unfold setThreadState at 1 2. unfold bind. destruct (tcb_upd t (upd_tsType (fun _ => st)) k) as [[u k1]|f] eqn:E; [|done].
  assert (k1 = upd_k_tcb (insert t (upd_tsType (fun _ => st) x)) k) as E1.
  { revert E. unfold tcb_upd, bind, tcb_get. rewrite (proj2 (Z.eqb_neq t 0) H0), Hx. by intros [= _ <-]. }
  destruct (scheduleTCB t k1) as [[u2 k2]|f] eqn:E2; [|done]. intros HP. split; [done |]. rewrite <- E1. by apply (view_scheduleTCB t k1 u2).
Qed.

(** The scheduler's and the queues' invariant. *)
Definition kipc (E : Z -> Prop) (Q : obj -> list Z) (k : kstate) : Prop := sched_ok k /\ ipc_inv E Q (istore_of k).

Lemma istep_start k : sched_ok k -> istep k (istore_of k) k.
Proof. intros HS. apply istep_refl, HS. Qed.

Lemma istep_sched k0 s k : sched_ok k0 -> istep k0 s k -> sched_ok k.
Proof. intros HS (_ & Hss & _). by apply (sched_ok_same (strict := True) k0). Qed.

(** A blocked thread is neither idle, queued nor about to run. *)
Lemma blocked_quiet k t i : sched_ok k -> is_tcb (istore_of k) !! t = Some i -> isRunnable_st (it_st i) = false ->
  it_st i <> ThreadState_IdleThreadState ->
  1 < t /\ is_Some (k_tcb k !! t) /\ runnable k t = false /\ queued k t = false /\ t <> ksIdleThread k /\ t <> ksSchedulerAction k.
Proof.
  intros HS Hi Hr Hid. destruct (istore_tcb _ _ _ _ eq_refl Hi) as (x & Hx & Ex). pose proof (so_base _ HS) as HB.
  destruct (b_queues _ HB) as [Q HQ]. destruct (qo_bounds _ _ HQ _ _ Hx) as [H1 _].
  assert (runnable k t = false) as Hnr by (unfold runnable; rewrite Hx; simpl; by rewrite <- Ex in Hr).
  split; [done |]. split; [eauto |]. split; [done |]. split; [|split].
  - destruct (queued k t) eqn:Eq; [|done]. apply (b_run _ HB) in Eq. congruence.
  - intros ->. destruct (b_idle _ HB) as (xi & Hxi & Ei). rewrite Hx in Hxi. injection Hxi as <-. apply Hid. by rewrite <- Ex.
  - intros Ea. destruct (so_cand _ HS) as (Hc & _); [lia.. |]. congruence.
Qed.

Lemma obj_of_blocked i o : obj_of i = Some o -> isRunnable_st (it_st i) = false /\ it_st i <> ThreadState_IdleThreadState.
Proof. unfold obj_of. by destruct (it_st i). Qed.

Definition delivered (k : kstate) (t badge : Z) : Prop := runnable k t = true /\ reg k t badgeRegister = badge.

(** Waking a thread that is in no queue, with a badge. *)
Lemma wake_badge_ok E Q k t i st badge : config_ok -> kipc (fun y => E y \/ y = t) Q k -> is_tcb (istore_of k) !! t = Some i ->
  isRunnable_st (it_st i) = false -> it_st i <> ThreadState_IdleThreadState -> isRunnable_st st = true ->
  wp (do* setThreadState t st in do* setRegister t badgeRegister badge in possibleSwitchTo t)
    (fun _ k' => kipc E Q k' /\ delivered k' t badge) (fun _ => False) k.
Proof.
  intros Hc [HS HI] Hi Hr Hid Hst. destruct (blocked_quiet k t i HS Hi Hr Hid) as (H1 & _ & Hnr & Hq & Hni & Ha).
  destruct (istore_tcb _ _ _ _ eq_refl Hi) as (x & Hx & Ex). wp_step.
  eapply wp_mono; [apply (wp_state_view k t st x); [done | lia |]; by apply (set_state_woken (strict := True)) | | done].
  intros ? k1 [HW Hv]. wp_step.
  assert (istore_of k1 = set_it (istore_of k) t (it_set_st st i)) as Es1.
  { rewrite (view_istore _ _ Hv). apply istore_upd. by rewrite <- Ex. }
  destruct (istore_tcb k1 _ t (it_set_st st i) Es1) as (x1 & Hx1 & Ex1); [apply lookup_insert_eq |].
  unfold setRegister. eapply wp_tcb_upd; [exact Hx1 | lia |].
  set (k2 := upd_k_tcb (insert t (upd_tcbRegs (insert badgeRegister badge) x1)) k1).
  assert (woken k2 t) as HW2.
  { apply (woken_same (strict := True) k1); [done |]. apply (tcb_upd_same k1 t x1); [apply (wk_base _ _ HW) | done | done | done]. }
  eapply wp_mono; [apply (preserves_wp kview); [apply view_switch | by apply (switch_woken (strict := True))] | | done].
  intros ? k3 [[HS3 Hr3] Hv3]. split.
  - split; [done |]. rewrite (view_istore _ _ Hv3).
    assert (istore_of k2 = set_it (istore_of k) t (it_set_st st i)) as ->.
    { unfold k2. rewrite (proj2 (istore_upd k1 t _ (it_set_st st i))) by (rewrite <- Ex1; by destruct x1). rewrite Es1.
      unfold set_it. simpl. by rewrite insert_insert_eq. }
    pose proof (no_queue _ _ _ _ _ HI Hi (or_intror (or_intror eq_refl))) as Hnq.
    eapply (inv_settle E Q _ t (it_set_st st i)); [|simpl; apply lookup_insert_eq | by destruct st].
    destruct (inv_thread _ Q _ t i (it_set_st st i) HI Hi Hnq eq_refl) as [J1 J2 J3 J4 J5 J6 J7]. split; try done.
    + intros o y Hy. destruct (J3 o y Hy) as (HE & Hz). split; [tauto | done].
    + intros y j o Hj Ej HE. apply (J4 y j o Hj Ej). tauto.
  - split; [done |]. rewrite (view_reg _ _ _ _ Hv3). unfold reg, k2. simpl. rewrite lookup_insert_eq. simpl. by rewrite lookup_insert_eq.
Qed.

Lemma ipc_inv_iff E E' Q s : (forall y, E' y <-> E y) -> ipc_inv E Q s -> ipc_inv E' Q s.
Proof.
  intros HE [J1 J2 J3 J4 J5 J6 J7]. split; try done.
  - intros o y Hy. destruct (J3 o y Hy) as (Hn & Hz). split; [by rewrite HE | done].
  - intros y j o Hj Ej Hn. apply (J4 y j o Hj Ej). by rewrite <- HE.
Qed.

Lemma inv_set_st E Q s t i st : ipc_inv (fun y => E y \/ y = t) Q s -> is_tcb s !! t = Some i -> obj_of (it_set_st st i) = None ->
  ipc_inv E Q (set_it s t (it_set_st st i)).
Proof.
  intros HI Hi Ho. pose proof (no_queue _ _ _ _ _ HI Hi (or_intror (or_intror eq_refl))) as Hnq.
  eapply (inv_settle E Q _ t (it_set_st st i)); [|simpl; apply lookup_insert_eq | done].
  eapply ipc_inv_iff; [|exact (inv_thread _ Q _ t i (it_set_st st i) HI Hi Hnq eq_refl)]. simpl. tauto.
Qed.

(** Giving such a thread a state in which it waits for nothing. *)
Lemma park_ok E Q k t i st : config_ok -> kipc (fun y => E y \/ y = t) Q k -> is_tcb (istore_of k) !! t = Some i ->
  isRunnable_st (it_st i) = false -> it_st i <> ThreadState_IdleThreadState -> isRunnable_st st = false -> obj_of (it_set_st st i) = None ->
  wp (setThreadState t st) (fun _ k' => kipc E Q k' /\ istore_of k' = set_it (istore_of k) t (it_set_st st i)) (fun _ => False) k.
Proof.
  intros Hc [HS HI] Hi Hr Hid Hst Ho. destruct (blocked_quiet k t i HS Hi Hr Hid) as (H1 & Ht & Hnr & Hq & Hni & Ha).
  destruct (istore_tcb _ _ _ _ eq_refl Hi) as (x & Hx & Ex).
  eapply wp_mono; [apply (wp_state_view k t st x); [done | lia |]; by apply (block_ok (strict := True)) | | done].
  intros ? k1 [(HS1 & _) Hv]. assert (istore_of k1 = set_it (istore_of k) t (it_set_st st i)) as Es.
  { rewrite (view_istore _ _ Hv). apply istore_upd. by rewrite <- Ex. }
  split; [|done]. split; [done |]. rewrite Es. by apply inv_set_st.
Qed.

Lemma object_thread o s s' t i : object_step o s s' -> is_tcb s !! t = Some i -> exists i', is_tcb s' !! t = Some i' /\ unlink i' = unlink i.
Proof. intros [Hr _ _] Hi. by apply (relinked_some s). Qed.

Lemma queue_head E Q s o t : ipc_inv E Q s -> t ∈ Q o -> q_head (obj_queue s o) <> 0.
Proof.
  intros HI Ht E0. pose proof (dll_empty _ _ _ _ _ (io_queue _ _ _ HI o)) as [Eh _]. apply Eh in E0. rewrite E0 in Ht. by apply not_elem_of_nil in Ht.
Qed.

(** ** Cancelling a wait *)

(** The queues without the thread [t], which was waiting for [o]. *)
Definition leave (Q : obj -> list Z) (o : obj) (t : Z) : obj -> list Z := oput Q o (filter (fun y => y <> t) (Q o)).

(** A thread that gave up waiting. *)
Record gave_up (Q : obj -> list Z) (t : Z) (i : ithread) (o : obj) (k k' : kstate) : Prop := {
  gu_ok : kipc (fun _ => False) (leave Q o t) k';
  gu_rest : object_step o (set_it (istore_of k) t (it_set_st ThreadState_Inactive i)) (istore_of k');
  gu_self : exists i', is_tcb (istore_of k') !! t = Some i' /\ it_st i' = ThreadState_Inactive }.

Lemma park_taken Q k k1 s1 t i o : config_ok -> sched_ok k -> is_tcb (istore_of k) !! t = Some i -> obj_of i = Some o ->
  istep k s1 k1 -> object_step o (istore_of k) s1 -> ipc_inv (fun y => False \/ y = t) (leave Q o t) s1 ->
  wp (setThreadState t ThreadState_Inactive) (fun _ k' => gave_up Q t i o k k') (fun _ => False) k1.
Proof.
  intros Hc HS Hi Eo Hs1 Hob HI1. destruct (obj_of_blocked i o Eo) as [Hr Hid]. pose proof (istep_sched _ _ _ HS Hs1) as HS1. destruct Hs1 as [<- _].
  destruct (object_thread _ _ _ _ _ Hob Hi) as (i1 & Hi1 & Eu). apply unlink_fields in Eu as Eu'. destruct Eu' as (Est & _).
  eapply wp_mono; [apply (park_ok (fun _ => False) (leave Q o t) k1 t i1 ThreadState_Inactive); try done; by rewrite Est | | done].
  intros ? k2 [Hk2 Es]. split; [done | |]; rewrite Es; [|eexists; split; [simpl; apply lookup_insert_eq | done]].
  destruct Hob as [B1 B2 B3]. split; [|exact B2 | exact B3]. intros y. simpl. destruct (decide (y = t)) as [->|].
  - rewrite !lookup_insert_eq. simpl. f_equal. by destruct i, i1; injection Eu as -> -> -> ->.
  - rewrite !lookup_insert_ne by done. apply B1.
Qed.

Lemma cancel_ep_ok Q k t i a : config_ok -> kipc (fun _ => False) Q k -> is_tcb (istore_of k) !! t = Some i -> obj_of i = Some (OEp a) ->
  wp (let* e := ep_get a in
      do* assert_ (negb (bool_decide (ep_state e = EPState_Idle))) in
      let* queue := ep_ptr_get_queue a in
      do* ep_take a t queue in
      setThreadState t ThreadState_Inactive) (fun _ k' => gave_up Q t i (OEp a) k k') (fun _ => False) k.
Proof.
  intros Hc [HS HI] Hi Eo. pose proof (io_wait _ _ _ HI t i _ Hi Eo (fun H => H)) as Ht. pose proof (istep_start k HS) as Hs0.
  destruct (waits_ep _ _ _ _ _ HI Ht) as (Ha & e & He & Hes). wp_step. eapply wp_ep_get; [exact Hs0 | exact He | done |].
  wp_step. wp_step. rewrite bool_decide_false by done. cbn [negb]. unfold ep_ptr_get_queue. do 2 wp_step.
  eapply wp_ep_get; [exact Hs0 | exact He | done |]. do 2 wp_step.
  replace (mkQ (epQueue_head e) (epQueue_tail e)) with (obj_queue (istore_of k) (OEp a)) by (simpl in He |- *; by rewrite He).
  eapply wp_mono; [by apply (ep_take_ok (fun _ => False) Q) | | done]. intros ? k1 (s1 & Hs1 & Hob & HI1). by apply (park_taken Q k k1 s1).
Qed.

Lemma cancelSignal_ok Q k t i a : config_ok -> kipc (fun _ => False) Q k -> is_tcb (istore_of k) !! t = Some i -> obj_of i = Some (ONt a) ->
  wp (cancelSignal t a) (fun _ k' => gave_up Q t i (ONt a) k k') (fun _ => False) k.
Proof.
  intros Hc [HS HI] Hi Eo. pose proof (io_wait _ _ _ HI t i _ Hi Eo (fun H => H)) as Ht. pose proof (istep_start k HS) as Hs0.
  destruct (waits_nt _ _ _ _ _ HI Ht) as (Ha & e & He & Hes). unfold cancelSignal, ntfn_ptr_get_queue. wp_step.
  eapply wp_nt_get; [exact Hs0 | exact He | done |]. wp_step. wp_step. rewrite bool_decide_true by done. do 2 wp_step.
  eapply wp_nt_get; [exact Hs0 | exact He | done |]. do 2 wp_step.
  replace (mkQ (ntfnQueue_head e) (ntfnQueue_tail e)) with (obj_queue (istore_of k) (ONt a)) by (simpl in He |- *; by rewrite He).
  eapply wp_mono; [by apply (ntfn_take_ok (fun _ => False) Q) | | done]. intros ? k1 (s1 & Hs1 & Hob & HI1). by apply (park_taken Q k k1 s1).
Qed.

Lemma cancelIPC_ok Q k t i o : config_ok -> kipc (fun _ => False) Q k -> is_tcb (istore_of k) !! t = Some i -> obj_of i = Some o ->
  wp (cancelIPC t) (fun _ k' => gave_up Q t i o k k') (fun _ => False) k.
Proof.
  intros Hc Hk Hi Eo. pose proof Hk as [HS HI]. pose proof (io_tcb _ _ _ HI t ltac:(eauto)) as H0.
  unfold cancelIPC. wp_step. eapply wp_it_get; [exact (istep_start k HS) | exact Hi | done |]. intros x Hx Ex.
  assert (tsType x = it_st i /\ blockingObject x = it_obj i) as [-> ->] by by rewrite <- Ex. pose proof Eo as Eo'. unfold obj_of in Eo'.
  destruct (it_st i) eqn:Est; try done; injection Eo' as <-; [by apply cancel_ep_ok.. | by apply cancelSignal_ok].
Qed.

(** ** Signals *)

Definition pending (k : kstate) (n : Z) : option Z :=
  match k_ntfn k !! n with
  | Some N => if bool_decide (ntfn_state N = NtfnState_Active) then Some (ntfnMsgIdentifier N) else None
  | None => None
  end.
(** The thread bound to [n] when it waits for a message. *)
Definition bound_receiver (k : kstate) (n t a : Z) : Prop :=
  exists N i, k_ntfn k !! n = Some N /\ ntfnBoundTCB N = t /\ is_tcb (istore_of k) !! t = Some i /\
    it_st i = ThreadState_BlockedOnReceive /\ it_obj i = a.

Inductive signalled (Q : obj -> list Z) (k : kstate) (n badge : Z) (k' : kstate) : (obj -> list Z) -> Prop :=
| sg_woken t r : Q (ONt n) = t :: r -> delivered k' t badge -> signalled Q k n badge k' (leave Q (ONt n) t)
| sg_bound t a : Q (ONt n) = [] -> pending k n = None -> bound_receiver k n t a -> delivered k' t badge ->
    signalled Q k n badge k' (leave Q (OEp a) t)
| sg_stored : Q (ONt n) = [] -> pending k n = None -> (forall t a, ~ bound_receiver k n t a) -> pending k' n = Some badge ->
    signalled Q k n badge k' Q
| sg_merged old : pending k n = Some old -> pending k' n = Some (Z.lor old badge) -> signalled Q k n badge k' Q.

(** A notification that keeps its queue. *)
Lemma inv_ntfn E Q s n N N' : ipc_inv E Q s -> is_nt s !! n = Some N -> ntfnQueue_head N' = ntfnQueue_head N -> ntfnQueue_tail N' = ntfnQueue_tail N ->
  nt_waits (ntfn_state N') = nt_waits (ntfn_state N) -> ntfnBoundTCB N' = ntfnBoundTCB N -> ipc_inv E Q (set_nt s n N').
Proof.
  intros HI HN Eh Et Ew Eb. pose proof HI as [J1 J2 J3 J4 J5 J6 J7].
  assert (forall o, obj_queue (set_nt s n N') o = obj_queue s o /\ obj_waits (set_nt s n N') o = obj_waits s o) as Ho.
  { intros [a|a]; simpl; [done |]. destruct (decide (a = n)) as [->|]; [|by rewrite !lookup_insert_ne].
    rewrite !lookup_insert_eq, HN. simpl. by rewrite Eh, Et, Ew. }
  split; try done.
  - intros o. destruct (Ho o) as [-> _]. apply J1.
  - intros o. destruct (Ho o) as [_ ->]. apply J2.
  - intros o t Ht. destruct (Ho o) as [_ ->]. by apply J3.
  - simpl. destruct J6 as [? ?]. split; [done |]. rewrite lookup_insert_ne; [done |]. intros ->. congruence.
  - apply (bound_relinked s); [done | done |]. intros m. simpl. destruct (decide (m = n)) as [->|]; [|by rewrite lookup_insert_ne].
    rewrite lookup_insert_eq, HN. simpl. by rewrite Eb.
Qed.

Lemma ntfn_set_active_ok Q k n N badge : kipc (fun _ => False) Q k -> k_ntfn k !! n = Some N -> nt_waits (ntfn_state N) = None ->
  wp (ntfn_set_active n badge) (fun _ k' => kipc (fun _ => False) Q k' /\ pending k' n = Some badge) (fun _ => False) k.
Proof.
  intros [HS HI] HN Ew. assert (n <> 0) as H0 by (intros ->; pose proof (io_objs _ _ _ HI) as [_ ?]; simpl in *; congruence).
  unfold ntfn_set_active, notification_ptr_set_state, notification_ptr_set_ntfnMsgIdentifier. wp_step.
  eapply wp_nt_upd; [exact (istep_start k HS) | exact HN | done |]. intros k1 Hs1.
  eapply wp_nt_upd; [exact Hs1 | simpl; apply lookup_insert_eq | done |]. intros k2 Hs2. split.
  - split; [by apply (istep_sched k _ k2 HS Hs2) |]. destruct Hs2 as [-> _]. simpl.
    eapply (inv_ntfn _ _ (set_nt _ n _) n); [by apply (inv_ntfn _ _ _ n N) | simpl; apply lookup_insert_eq | done..].
  - unfold pending. destruct Hs2 as [E _]. apply (f_equal (fun s => is_nt s !! n)) in E. simpl in E. rewrite E, lookup_insert_eq. done.
Qed.

Lemma bound_receiver_fun k n t a t' a' : bound_receiver k n t a -> bound_receiver k n t' a' -> t = t' /\ a = a'.
Proof. intros (N & i & H1 & H2 & H3 & _ & H5) (N' & i' & H1' & H2' & H3' & _ & H5'). simplify_eq. done. Qed.

(** The thread bound to an idle notification waits for a message. *)
Lemma signal_bound_ok Q k t i badge : config_ok -> kipc (fun _ => False) Q k -> is_tcb (istore_of k) !! t = Some i ->
  it_st i = ThreadState_BlockedOnReceive ->
  wp (do* cancelIPC t in do* setThreadState t ThreadState_Running in do* setRegister t badgeRegister badge in possibleSwitchTo t)
    (fun _ k' => kipc (fun _ => False) (leave Q (OEp (it_obj i)) t) k' /\ delivered k' t badge) (fun _ => False) k.
Proof.
  intros Hc Hk Hi Hst. assert (obj_of i = Some (OEp (it_obj i))) as Eo by (unfold obj_of; by rewrite Hst).
  wp_step. eapply wp_mono; [by apply (cancelIPC_ok Q k t i) | | done]. intros ? k1 [Hk1 _ (i1 & Hi1 & Est1)].
  eapply (wake_badge_ok (fun _ => False) _ k1 t i1); [done | | exact Hi1 | by rewrite Est1 | by rewrite Est1 | done]. destruct Hk1 as [HS1 HI1]. split; [done |].
  assert (obj_of i1 = None) as Eo1 by (unfold obj_of; by rewrite Est1). pose proof (no_queue _ _ _ _ _ HI1 Hi1 (or_introl Eo1)) as Hnq.
  pose proof (inv_thread _ _ _ t i1 i1 HI1 Hi1 Hnq eq_refl) as HI2. unfold set_it in HI2. rewrite insert_id in HI2 by done.
  destruct (istore_of k1). exact HI2.
Qed.

Lemma filter_head (t : Z) r : NoDup (t :: r) -> filter (fun y => y <> t) (t :: r) = r.
Proof.
  intros Hnd. apply list.NoDup_cons in Hnd as [Hn _]. rewrite list.filter_cons, decide_False by tauto.
  apply filter_keep. intros y Hy ->. done.
Qed.

Lemma signal_waiting_ok Q k n N badge : config_ok -> kipc (fun _ => False) Q k -> k_ntfn k !! n = Some N ->
  ntfn_state N = NtfnState_Waiting ->
  wp (let* ntfn_queue := ntfn_ptr_get_queue n in
      let dest := q_head ntfn_queue in
      do* assert_ (negb (dest =? 0)) in
      do* ntfn_take n dest ntfn_queue in
      do* setThreadState dest ThreadState_Running in
      do* setRegister dest badgeRegister badge in
      possibleSwitchTo dest)
    (fun _ k' => exists t r, Q (ONt n) = t :: r /\ kipc (fun _ => False) (leave Q (ONt n) t) k' /\ delivered k' t badge) (fun _ => False) k.
Proof.
  intros Hc [HS HI] HN Hst. pose proof (istep_start k HS) as Hs0.
  assert (n <> 0) as H0 by (intros ->; pose proof (io_objs _ _ _ HI) as [_ ?]; simpl in *; congruence).
  destruct (Q (ONt n)) as [|t r] eqn:EQ.
  { apply (io_idle _ _ _ HI) in EQ. simpl in EQ. rewrite HN in EQ. simpl in EQ. by rewrite Hst in EQ. }
  assert (t ∈ Q (ONt n)) as Ht by (rewrite EQ; set_solver).
  unfold ntfn_ptr_get_queue. do 2 wp_step. eapply wp_nt_get; [exact Hs0 | exact HN | done |]. wp_step. cbv zeta.
  replace (mkQ (ntfnQueue_head N) (ntfnQueue_tail N)) with (obj_queue (istore_of k) (ONt n)) by (simpl; by rewrite HN).
  assert (q_head (obj_queue (istore_of k) (ONt n)) = t) as Eh by (rewrite (dll_hd _ _ _ _ _ (io_queue _ _ _ HI (ONt n))), EQ; done).
  wp_step. wp_step. rewrite Eh, (proj2 (Z.eqb_neq t 0)); [|rewrite <- Eh; by eapply queue_head]. cbn [negb]. wp_step.
  eapply wp_mono; [by apply (ntfn_take_ok (fun _ => False) Q) | | done]. intros ? k1 (s1 & Hs1 & Hob & HI1).
  destruct (io_mem _ _ _ HI _ _ Ht) as (_ & i & Hi & Eo & _). destruct (obj_of_blocked _ _ Eo) as [Hr Hid].
  destruct (object_thread _ _ _ _ _ Hob Hi) as (i1 & Hi1 & Eu). apply unlink_fields in Eu as (Est & _). pose proof (istep_sched _ _ _ HS Hs1) as HS1.
  destruct Hs1 as [<- _]. eapply wp_mono; [apply (wake_badge_ok (fun _ => False) (leave Q (ONt n) t) k1 t i1); try done; by rewrite Est | | done].
  intros ? k2 [Hk2 Hd]. by exists t, r.
Qed.

(** What a signal does, for every state of the notification. *)
Lemma sendSignal_effect Q k n badge : config_ok -> kipc (fun _ => False) Q k -> is_Some (k_ntfn k !! n) ->
  wp (sendSignal n badge) (fun _ k' => exists Q', kipc (fun _ => False) Q' k' /\ signalled Q k n badge k' Q') (fun _ => False) k.
Proof.
  intros Hc Hk [N HN]. pose proof Hk as [HS HI]. pose proof (istep_start k HS) as Hs0.
  assert (n <> 0) as H0 by (intros ->; pose proof (io_objs _ _ _ HI) as [_ ?]; simpl in *; congruence).
  unfold sendSignal. wp_step. eapply wp_nt_get; [exact Hs0 | exact HN | done |].
  assert (forall o, ntfn_state N <> NtfnState_Waiting -> o = ONt n -> Q o = []) as Hempty.
  { intros o Hw ->. apply (io_idle _ _ _ HI). simpl. rewrite HN. simpl. by destruct (ntfn_state N). }
  assert (pending k n = if bool_decide (ntfn_state N = NtfnState_Active) then Some (ntfnMsgIdentifier N) else None) as Ep by (unfold pending; by rewrite HN).
  destruct (ntfn_state N) eqn:Est.
  - assert ((forall t a, ~ bound_receiver k n t a) -> wp (ntfn_set_active n badge)
      (fun _ k' => exists Q', kipc (fun _ => False) Q' k' /\ signalled Q k n badge k' Q') (fun _ => False) k) as Hact.
    { intros Hnb. eapply wp_mono; [apply (ntfn_set_active_ok Q k n N); [done | done | by rewrite Est] | | done].
      intros ? k' [Hk' Hp]. exists Q. split; [done |]. apply sg_stored; [by apply Hempty | done | done | done]. }
    destruct (ntfnBoundTCB N =? 0) eqn:Eb; cbn [negb]; [apply Z.eqb_eq in Eb | apply Z.eqb_neq in Eb].
    { apply Hact. intros t a (N' & i & HN' & Et & Hi & _). rewrite HN in HN'. simplify_eq.
      apply (io_tcb _ _ _ HI (ntfnBoundTCB N')); [by rewrite Hi | done]. }
    destruct (io_bound _ _ _ HI) as [B1 _]. destruct (B1 n N HN Eb) as (i & Hi & _). wp_step.
    eapply wp_it_get; [exact Hs0 | exact Hi | done |]. intros x _ Ex. assert (tsType x = it_st i) as -> by by rewrite <- Ex.
    destruct (decide (it_st i = ThreadState_BlockedOnReceive)) as [Hrecv|Hrecv]; [rewrite bool_decide_true by done | rewrite bool_decide_false by done].
    + eapply wp_mono; [by apply (signal_bound_ok Q k _ i) | | done]. intros ? k' [Hk' Hd]. eexists. split; [exact Hk' |].
      apply sg_bound; [by apply Hempty | done | | done]. by exists N, i.
    + apply Hact. intros t a (N' & i' & HN' & Et & Hi' & Hst & _). rewrite HN in HN'. by simplify_eq.
  - eapply wp_mono; [by apply (signal_waiting_ok Q k n N) | | done]. intros ? k' (t & r & EQ & Hk' & Hd). eexists. split; [exact Hk' |].
    by apply (sg_woken _ _ _ _ _ t r).
  - unfold notification_ptr_set_ntfnMsgIdentifier. eapply wp_nt_upd; [exact Hs0 | exact HN | done |]. intros k1 Hs1. exists Q. split.
    + split; [by apply (istep_sched k _ k1 HS Hs1) |]. destruct Hs1 as [-> _]. by apply (inv_ntfn _ _ _ n N).
    + apply (sg_merged _ _ _ _ _ (ntfnMsgIdentifier N)); [done |]. unfold pending. destruct Hs1 as [E _].
      apply (f_equal (fun s => is_nt s !! n)) in E. simpl in E. rewrite E, lookup_insert_eq. simpl. by rewrite Est.
Qed.

(** ** Blocking *)

(** A thread that may block: the current one, or one that waits already. *)
Record may_block (k : kstate) (t : Z) : Prop := {
  mb_idle : t <> ksIdleThread k;
  mb_action : t <> ksSchedulerAction k;
  mb_queued : queued k t = false }.

Lemma current_may_block k : sched_ok k -> ksSchedulerAction k = 0 -> ksCurThread k <> ksIdleThread k -> may_block k (ksCurThread k).
Proof.
  intros HS Ea Hi. split; [done | | apply (so_curq _ HS); lia]. pose proof (so_base _ HS) as HB. destruct (b_cur _ HB) as [x Hx].
  destruct (b_queues _ HB) as [Q HQ]. destruct (qo_bounds _ _ HQ _ _ Hx) as [H1 _]. lia.
Qed.

Lemma upd_k_tcb_twice k t x y : upd_k_tcb (insert t x) (upd_k_tcb (insert t y) k) = upd_k_tcb (insert t x) k.
Proof. destruct k. unfold upd_k_tcb. simpl. f_equal. apply insert_insert_eq. Qed.

(** Several fields of the thread state set at once, then [scheduleTCB]. *)
Lemma block_upd_ok k t x f g st : config_ok -> sched_ok k -> may_block k t -> k_tcb k !! t = Some x -> isRunnable_st st = false ->
  f x = upd_tsType (fun _ => st) (g x) -> keeps_place x (g x) -> tsType (g x) = tsType x ->
  wp (do* tcb_upd t f in scheduleTCB t) (fun _ k' => sched_ok k' /\ kview k' = kview (upd_k_tcb (insert t (f x)) k) /\
    (t = ksCurThread k -> ksSchedulerAction k' <> 0)) (fun _ => False) k.
Proof.
  intros Hc HS [M1 M2 M3] Hx Hst Ef Hg Et. pose proof (b_queues _ (so_base _ HS)) as HQ. pose proof HQ as [Q HQ'].
  destruct (qo_bounds _ _ HQ' _ _ Hx) as [H1 _]. set (k1 := upd_k_tcb (insert t (g x)) k).
  assert (same_sched k k1) as Hss by (by apply (tcb_upd_same k t x)).
  assert (k_tcb k1 !! t = Some (g x)) as Hx1 by (simpl; apply lookup_insert_eq).
  assert (wp (setThreadState t st) (fun _ k' => sched_ok k' /\ kview k' = kview (upd_k_tcb (insert t (f x)) k) /\
    (t = ksCurThread k -> ksSchedulerAction k' <> 0)) (fun _ => False) k1) as Hw.
  { eapply wp_mono; [apply (wp_state_view k1 t st (g x)); [done | lia |]; apply (block_ok (strict := True) k1 t st); [done | by apply (sched_ok_same (strict := True) k) | eauto | done | done | | done] | | done].
    - by rewrite (sa_queued _ _ Hss).
    - intros ? k2 [(HS2 & _ & _ & _ & Ha) Hv]. split; [done |]. split; [|done]. rewrite Hv, Ef. unfold k1. by rewrite upd_k_tcb_twice. }
  revert Hw. unfold setThreadState. rewrite !wp_bind. intros Hw.
  eapply wp_tcb_upd; [exact Hx | lia |].
  revert Hw. unfold wp at 1, tcb_upd, bind, tcb_get, modify. rewrite (proj2 (Z.eqb_neq t 0)), Hx1 by lia. unfold k1. by rewrite upd_k_tcb_twice, Ef.
Qed.

(** The thread then waits in the queue of an object. *)
Lemma block_store_ok Q k t i x f g st o : config_ok -> kipc (fun _ => False) Q k -> may_block k t -> k_tcb k !! t = Some x ->
  ithread_of x = i -> obj_of i = None -> isRunnable_st st = false -> f x = upd_tsType (fun _ => st) (g x) -> keeps_place x (g x) ->
  tsType (g x) = tsType x -> tcbBoundNotification (f x) = tcbBoundNotification x -> obj_of (ithread_of (f x)) = Some o ->
  wp (do* tcb_upd t f in scheduleTCB t) (fun _ k' => sched_ok k' /\ istore_of k' = set_it (istore_of k) t (ithread_of (f x)) /\
    ipc_inv (fun y => False \/ y = t) Q (istore_of k') /\ (t = ksCurThread k -> ksSchedulerAction k' <> 0)) (fun _ => False) k.
Proof.
  intros Hc [HS HI] Hm Hx Ei Eo Hst Ef Hg Et Eb Eo'. eapply wp_mono; [by apply (block_upd_ok k t x f g st) | | done].
  intros ? k' (HS' & Hv & Ha). split; [done |]. assert (istore_of k' = set_it (istore_of k) t (ithread_of (f x))) as Es.
  { rewrite (view_istore _ _ Hv). by apply istore_upd. }
  split; [done |]. split; [|done]. rewrite Es. assert (is_tcb (istore_of k) !! t = Some i) as Hi by (simpl; rewrite lookup_fmap, Hx; simpl; congruence).
  apply (inv_thread (fun _ => False) Q _ t i); [done | done | by apply (no_queue _ _ _ _ _ HI Hi (or_introl Eo)) |]. by rewrite <- Ei.
Qed.

Lemma kipc_thread E Q k t : kipc E Q k -> is_Some (k_tcb k !! t) -> 1 < t /\ exists x, k_tcb k !! t = Some x /\ is_tcb (istore_of k) !! t = Some (ithread_of x).
Proof.
  intros [HS _] [x Hx]. pose proof (b_queues _ (so_base _ HS)) as [R HR]. destruct (qo_bounds _ _ HR _ _ Hx) as [H1 _].
  split; [done |]. exists x. split; [done |]. simpl. by rewrite lookup_fmap, Hx.
Qed.

Lemma setRegister_ok E Q k t r v : kipc E Q k -> is_Some (k_tcb k !! t) ->
  wp (setRegister t r v) (fun _ k' => kipc E Q k' /\ istore_of k' = istore_of k /\ same_sched k k' /\ reg k' t r = v) (fun _ => False) k.
Proof.
  intros Hk Ht. destruct (kipc_thread _ _ _ _ Hk Ht) as (H1 & x & Hx & Hi). destruct Hk as [HS HI]. unfold setRegister.
  eapply wp_tcb_upd; [exact Hx | lia |]. set (k1 := upd_k_tcb _ k).
  assert (same_sched k k1) as Hss by (apply (tcb_upd_same k t x); [apply HS | done | by destruct x | by destruct x]).
  assert (istore_of k1 = istore_of k) as Es.
  { unfold k1. rewrite (proj2 (istore_upd k t _ (ithread_of x))) by by destruct x. unfold set_it. rewrite insert_id by done. by destruct (istore_of k). }
  split; [split; [by apply (sched_ok_same (strict := True) k) | by rewrite Es] |]. split; [done |]. split; [done |]. unfold reg, k1. simpl.
  rewrite lookup_insert_eq. simpl. by rewrite lookup_insert_eq.
Qed.

Lemma kdata_tcb k k' t : kdata k' = kdata k -> tdata <$> k_tcb k' !! t = tdata <$> k_tcb k !! t /\
  k_cte k' = k_cte k /\ k_word k' = k_word k /\ current_extra_caps k' = current_extra_caps k.
Proof. intros E. unfold kdata in E. injection E as E1 E2 E3 E4. apply (f_equal (fun m => m !! t)) in E1. by rewrite !lookup_fmap in E1. Qed.

Lemma istep_reg k0 s k t r : istep k0 s k -> reg k t r = reg k0 t r.
Proof.
  intros (_ & _ & E). destruct (kdata_tcb _ _ t E) as (Ex & _). unfold reg.
  destruct (k_tcb k !! t), (k_tcb k0 !! t); simpl in *; try done. unfold tdata in Ex. congruence.
Qed.

(** Taking the signal that is there. *)
Lemma ntfn_idle_ok Q k n N : kipc (fun _ => False) Q k -> k_ntfn k !! n = Some N -> ntfn_state N = NtfnState_Active -> n <> 0 ->
  wp (notification_ptr_set_state n NtfnState_Idle) (fun _ k' => kipc (fun _ => False) Q k' /\ pending k' n = None /\ istep k (istore_of k') k') (fun _ => False) k.
Proof.
  intros [HS HI] HN Est H0. unfold notification_ptr_set_state. eapply wp_nt_upd; [exact (istep_start k HS) | exact HN | done |]. intros k2 Hs2.
  pose proof (istep_sched _ _ _ HS Hs2) as HS2. pose proof Hs2 as (Es2 & Hss & Hd). split; [|split].
  - split; [done |]. rewrite Es2. apply (inv_ntfn _ _ _ n N); try done. by rewrite Est.
  - unfold pending. apply (f_equal (fun s => is_nt s !! n)) in Es2. simpl in Es2. by rewrite Es2, lookup_insert_eq.
  - by split_and!.
Qed.

(** Waiting for a signal. *)
Inductive waited (Q : obj -> list Z) (k : kstate) (t n : Z) (isBlocking : bool) (k' : kstate) : (obj -> list Z) -> Prop :=
| wt_taken b : pending k n = Some b -> reg k' t badgeRegister = b -> pending k' n = None -> waited Q k t n isBlocking k' Q
| wt_queued : pending k n = None -> isBlocking = true -> runnable k' t = false -> waited Q k t n isBlocking k' (oput Q (ONt n) (Q (ONt n) ++ [t]))
| wt_failed : pending k n = None -> isBlocking = false -> reg k' t badgeRegister = 0 -> waited Q k t n isBlocking k' Q.

Lemma istore_runnable k s t i : istore_of k = s -> is_tcb s !! t = Some i -> runnable k t = isRunnable_st (it_st i).
Proof. intros Es Hi. destruct (istore_tcb _ _ _ _ Es Hi) as (x & Hx & <-). unfold runnable. by rewrite Hx. Qed.

Lemma relinked_state o s s' t i : object_step o s s' -> is_tcb s !! t = Some i -> exists i', is_tcb s' !! t = Some i' /\ it_st i' = it_st i.
Proof. intros Ho Hi. destruct (object_thread _ _ _ _ _ Ho Hi) as (i' & Hi' & Eu). apply unlink_fields in Eu as (E & _). eauto. Qed.

Lemma signal_block_ok Q k t n x N : config_ok -> kipc (fun _ => False) Q k -> may_block k t -> k_tcb k !! t = Some x ->
  obj_of (ithread_of x) = None -> k_ntfn k !! n = Some N ->
  wp (do* tcb_upd t (fun t => upd_blockingObject (fun _ => n) (upd_tsType (fun _ => ThreadState_BlockedOnNotification) t)) in
      do* scheduleTCB t in ntfn_wait n t)
    (fun _ k' => kipc (fun _ => False) (oput Q (ONt n) (Q (ONt n) ++ [t])) k' /\ runnable k' t = false) (fun _ => False) k.
Proof.
  intros Hc Hk Hm Hx Eo HN. rewrite <- bind_assoc_wp. wp_step.
  eapply wp_mono; [apply (block_store_ok Q k t (ithread_of x) x _ (upd_blockingObject (fun _ => n)) ThreadState_BlockedOnNotification (ONt n)); try done; by destruct x | | done].
  intros ? k1 (HS1 & Es1 & HI1 & _). set (i1 := ithread_of _) in Es1.
  assert (is_tcb (istore_of k1) !! t = Some i1) as Hi1 by (rewrite Es1; apply lookup_insert_eq).
  eapply wp_mono; [apply (ntfn_wait_ok (fun _ => False) Q k1 k1 _ t i1 n N (istep_start k1 HS1) HI1 Hi1); [by destruct x | by intros [] | by rewrite Es1 | by destruct x] | | done].
  intros ? k2 (s2 & Hs2 & Hob & HI2). pose proof (istep_sched _ _ _ HS1 Hs2) as HS2. destruct Hs2 as [Es2 _]. split; [by split; [|rewrite Es2] |].
  destruct (relinked_state _ _ _ _ _ Hob Hi1) as (i2 & Hi2 & Est). rewrite (istore_runnable _ _ _ _ Es2 Hi2), Est. by destruct x.
Qed.

Lemma receiveSignal_effect Q k t c n N isBlocking badge cs cr : config_ok -> kipc (fun _ => False) Q k -> k_ntfn k !! n = Some N ->
  c = cap_notification_cap badge cs cr n -> is_Some (k_tcb k !! t) -> may_block k t ->
  (forall i, is_tcb (istore_of k) !! t = Some i -> obj_of i = None) ->
  wp (receiveSignal t c isBlocking) (fun _ k' => exists Q', kipc (fun _ => False) Q' k' /\ waited Q k t n isBlocking k' Q') (fun _ => False) k.
Proof.
  intros Hc Hk HN -> Ht Hm Hio. pose proof Hk as [HS HI]. pose proof (istep_start k HS) as Hs0.
  assert (n <> 0) as H0 by (intros ->; pose proof (io_objs _ _ _ HI) as [_ ?]; simpl in *; congruence).
  destruct (kipc_thread _ _ _ _ Hk Ht) as (H1 & x & Hx & Hi). pose proof (Hio _ Hi) as Eo.
  unfold receiveSignal. wp_step. eapply wp_nt_get; [exact Hs0 | exact HN | done |].
  assert (pending k n = if bool_decide (ntfn_state N = NtfnState_Active) then Some (ntfnMsgIdentifier N) else None) as Ep by (unfold pending; by rewrite HN).
  assert (pending k n = None -> wp (if isBlocking then
            do* tcb_upd t (fun t => upd_blockingObject (fun _ => n) (upd_tsType (fun _ => ThreadState_BlockedOnNotification) t)) in
            do* scheduleTCB t in ntfn_wait n t
          else doNBRecvFailedTransfer t)
     (fun _ k' => exists Q', kipc (fun _ => False) Q' k' /\ waited Q k t n isBlocking k' Q') (fun _ => False) k) as Hwait.
  { intros Hp. destruct isBlocking.
    - eapply wp_mono; [by apply (signal_block_ok Q k t n x N) | | done]. intros ? k' [Hk' Hr]. eexists. split; [exact Hk' |]. by apply wt_queued.
    - unfold doNBRecvFailedTransfer. eapply wp_mono; [by apply (setRegister_ok (fun _ => False) Q) | | done]. intros ? k' (Hk' & _ & _ & Hr).
      eexists. split; [exact Hk' |]. by apply wt_failed. }
  destruct (ntfn_state N) eqn:Est; [by apply Hwait.. |].
  wp_step. eapply wp_mono; [by apply (setRegister_ok (fun _ => False) Q) | | done]. intros ? k1 (Hk1 & Es1 & _ & Hr).
  eapply wp_mono; [apply (ntfn_idle_ok Q k1 n N); [done | | done | done] | | done].
  { apply (f_equal (fun s => is_nt s !! n)) in Es1. simpl in Es1. by rewrite Es1. }
  intros ? k2 (Hk2 & Hp2 & Hs2). exists Q. split; [done |]. apply (wt_taken _ _ _ _ _ _ (ntfnMsgIdentifier N)); [done | | done].
  rewrite <- Hr. by apply istep_reg with (s := istore_of k2).
Qed.
End Frames.
