(* ===== verification/KIpcCancel.v ===== *)
(** Cancelling every operation on an endpoint or a notification
    (kernel/src/object/{endpoint,notification}.c): [cancelAllIPC],
    [cancelAllSignals] and [cancelBadgedSends] walk the queue, make the
    threads ready again, and leave the other threads in their order. *)
From S2P Require Import Prelude Dll KCaps KState KSched KMsg KIpc.
From S2P Require Import KSchedInv KSchedThms KSchedSteps KIpcInv KIpcThms.

Section Cancel.
Context `{C : KConfig}.

(** ** Cancelling everything on an object *)

(** While threads are being restarted: ready, but not yet considered. *)
Definition pend_ok (k : kstate) : Prop :=
  base_ok k /\ all_ready k /\ (ksSchedulerAction k <> 0 -> ksSchedulerAction k <> 1 -> runnable k (ksSchedulerAction k) = true).

Lemma sched_pend k : sched_ok k -> pend_ok k.
Proof. intros HS. split; [apply HS |]. split; [intros t; apply (so_all _ HS) |]. intros H0 H1. by apply (so_cand _ HS). Qed.

Lemma pend_resched_ok k : config_ok -> pend_ok k ->
  wp rescheduleRequired (fun _ k' => sched_ok k' /\ kview k' = kview k) (fun _ => False) k.
Proof.
  intros Hc (HB & Ha & Hr). eapply wp_mono; [apply (preserves_wp kview); [apply view_reschedule | by apply (rescheduleRequired_sched (strict := True))] | | done].
  intros ? k' [(HS & _) Hv]. done.
Qed.

Lemma restart_one_ok k t i : config_ok -> pend_ok k -> is_tcb (istore_of k) !! t = Some i -> it_st i <> ThreadState_IdleThreadState ->
  wp (do* setThreadState t ThreadState_Restart in tcbSchedEnqueue t)
    (fun _ k' => pend_ok k' /\ istore_of k' = set_it (istore_of k) t (it_set_st ThreadState_Restart i)) (fun _ => False) k.
Proof.
  intros Hc (HB & Hall & Hact) Hi Hid. destruct (istore_tcb _ _ _ _ eq_refl Hi) as (x & Hx & Ex). pose proof (b_queues _ HB) as [R HR].
  destruct (qo_bounds _ _ HR _ _ Hx) as [H1 _]. assert (t <> ksIdleThread k) as Hni.
  { intros ->. destruct (b_idle _ HB) as (xi & Hxi & Ei). rewrite Hx in Hxi. injection Hxi as <-. apply Hid. by rewrite <- Ex. }
  wp_step. eapply wp_mono; [apply (wp_state_view k t _ x); [done | lia |]; apply setThreadState_runnable; [apply HB | eauto | done] | | done].
  intros ? k1 [HSS Hv]. pose proof HSS as [S1 S2 S3 S4 S5 S6 S7]. destruct (state_set_rest _ _ _ _ HSS) as (Ec & Ea & Ed & Ei & Ht1).
  assert (base_ok k1) as HB1 by (apply (base_ok_set k k1 t ThreadState_Restart HB HSS Hni); done).
  eapply wp_mono; [apply (preserves_wp kview); [apply view_enqueue | by apply enqueue_view] | | done].
  intros ? k2 [[[HQ2 Hq2] Hn2] Hv2]. destruct (noqueues_same _ _ Hn2) as (Hs & Ec2 & Ei2 & Ea2 & Ed2 & Ex2). split.
  - split; [|split].
    + apply (base_ok_queues k1); try done. intros y. rewrite Hq2. case_decide; [subst; by rewrite S3, decide_True | apply HB1].
    + intros y. rewrite (same_runnable _ _ _ Hs), Hq2, Ec2, Ea2, Ec, Ea, S3, S2. case_decide; [by left | apply Hall].
    + rewrite Ea2, Ea, (same_runnable _ _ _ Hs), S3. case_decide; [done | exact Hact].
  - rewrite (view_istore _ _ Hv2), (view_istore _ _ Hv). apply istore_upd. by rewrite <- Ex.
Qed.

Lemma nodup_size {A} (m : gmap Z A) (xs : list Z) : NoDup xs -> (forall x, x ∈ xs -> is_Some (m !! x)) -> (length xs <= size m)%nat.
Proof.
  intros Hnd Hx. rewrite <- size_dom, <- (size_list_to_set (C := gset Z) xs Hnd). apply subseteq_size. intros y.
  rewrite elem_of_list_to_set. intros Hy. by apply elem_of_dom, Hx.
Qed.

(** The loop: the threads [xs], in no queue, become ready. *)
Lemma restart_queue_ok E Q fuel xs p k : config_ok -> pend_ok k -> ipc_inv (fun y => E y \/ y ∈ xs) Q (istore_of k) -> NoDup xs ->
  dseg (inx (istore_of k)) (ipv (istore_of k)) p xs 0 -> (length xs < fuel)%nat ->
  (forall y, y ∈ xs -> exists i, is_tcb (istore_of k) !! y = Some i /\ it_st i <> ThreadState_IdleThreadState) ->
  wp (restart_queue fuel (List.hd 0 xs)) (fun _ k' => pend_ok k' /\ ipc_inv E Q (istore_of k') /\
    (forall y, is_tcb (istore_of k') !! y = if decide (y ∈ xs) then it_set_st ThreadState_Restart <$> is_tcb (istore_of k) !! y else is_tcb (istore_of k) !! y) /\
    is_ep (istore_of k') = is_ep (istore_of k) /\ is_nt (istore_of k') = is_nt (istore_of k))
    (fun _ => False) k.
Proof.
  intros Hc. revert xs p k. induction fuel as [|fuel IH]; intros xs p k Hk HI Hnd Hseg Hlen Hst; [lia |]. cbn [restart_queue].
  destruct xs as [|t xs]; cbn [List.hd].
  { rewrite Z.eqb_refl. wp_step. split; [done |]. split; [|done]. eapply ipc_inv_iff; [|exact HI]. intros y. simpl. set_solver. }
  destruct Hseg as (Ht0 & Hpv & Hnx & Hseg). rewrite (proj2 (Z.eqb_neq t 0) Ht0). destruct (Hst t ltac:(set_solver)) as (i & Hi & Hid).
  apply list.NoDup_cons in Hnd as [Htn Hnd]. rewrite <- bind_assoc_wp. wp_step.
  eapply wp_mono; [by apply (restart_one_ok k t i) | | done]. intros ? k1 [Hk1 Es1]. wp_step.
  assert (is_tcb (istore_of k1) !! t = Some (it_set_st ThreadState_Restart i)) as Hi1 by (rewrite Es1; apply lookup_insert_eq).
  destruct (istore_tcb _ _ _ _ eq_refl Hi1) as (x1 & Hx1 & Ex1). eapply wp_tcb_get; [exact Hx1 | done |].
  assert (tcbEPNext x1 = List.hd 0 xs) as ->.
  { rewrite <- Hnx. unfold inx. rewrite Hi. change (tcbEPNext x1) with (it_next (ithread_of x1)). by rewrite Ex1. }
  assert (forall y, y <> t -> is_tcb (istore_of k1) !! y = is_tcb (istore_of k) !! y) as Hoth by (intros y Hy; rewrite Es1; by apply lookup_insert_ne).
  eapply wp_mono; [apply (IH xs t k1); [done | | done | | simpl in Hlen; lia |] | | done].
  - rewrite Es1. apply (inv_set_st (fun y => E y \/ y ∈ xs) Q _ t i); [|done | done]. eapply ipc_inv_iff; [|exact HI]. intros y. simpl. set_solver.
  - eapply dseg_ext; [|exact Hseg]. intros y Hy. unfold inx, ipv. rewrite Hoth; [done |]. intros ->. done.
  - intros y Hy. rewrite Hoth by (intros ->; done). apply Hst. set_solver.
  - intros ? k2 (Hk2 & HI2 & Hst2 & Ee & En). split; [done |]. split; [done |]. rewrite Ee, En, Es1. split; [|done]. intros y. rewrite Hst2.
    destruct (decide (y = t)) as [->|Hne].
    + rewrite (decide_False (P := t ∈ xs)), decide_True by set_solver. by rewrite Hi1, Hi.
    + rewrite Hoth by done. destruct (decide (y ∈ xs)); [rewrite decide_True | rewrite decide_False]; set_solver.
Qed.

Lemma ipc_inv_ext E Q Q' s : (forall o, Q' o = Q o) -> ipc_inv E Q s -> ipc_inv E Q' s.
Proof.
  intros EQ [J1 J2 J3 J4 J5 J6 J7]. split; try done.
  - intros o. rewrite EQ. apply J1.
  - intros o. rewrite EQ. apply J2.
  - intros o t. rewrite EQ. apply J3.
  - intros t i o. rewrite EQ. apply J4.
Qed.

(** Object [o] is made idle before the loop. *)
Lemma inv_empty Q s s' o : ipc_ok Q s -> is_tcb s' = is_tcb s -> with_obj s o (mkQ 0 0) None s' ->
  ipc_inv (fun y => False \/ y ∈ Q o) (oput Q o []) s'.
Proof.
  intros HI Et (Eq & Ew & Ho & H0 & Hb). apply (ipc_change (fun _ => False) _ Q s s' o []); try done.
  - intros y. by rewrite Et.
  - intros o' y _ _. by rewrite Et.
  - rewrite Eq. split; [done.. | apply base.NoDup_nil_2].
  - intros y Hy. by apply not_elem_of_nil in Hy.
  - intros y i Hi Eo Hn. destruct Hn. right. exact (io_wait _ _ _ HI y i o Hi Eo (fun H => H)).
  - intros o' y Hne Hy [?|Hy']; [done |]. apply Hne. by apply (queue_disjoint _ _ _ o' o y HI).
  - by intros ? ? ? _ _ _ _ ?.
Qed.

(** Every thread that waited on [o] runs again; nothing else changed. *)
Record all_woken (Q : obj -> list Z) (o : obj) (k k' : kstate) : Prop := {
  aw_ok : kipc (fun _ => False) (oput Q o []) k';
  aw_threads : forall y, is_tcb (istore_of k') !! y =
    if decide (y ∈ Q o) then it_set_st ThreadState_Restart <$> is_tcb (istore_of k) !! y else is_tcb (istore_of k) !! y;
  aw_ep : forall a, OEp a <> o -> k_ep k' !! a = k_ep k !! a;
  aw_nt : forall a, ONt a <> o -> k_ntfn k' !! a = k_ntfn k !! a }.

Lemma wake_all_ok Q k k1 s1 o : config_ok -> kipc (fun _ => False) Q k -> istep k s1 k1 -> is_tcb s1 = is_tcb (istore_of k) ->
  with_obj (istore_of k) o (mkQ 0 0) None s1 -> (forall a, OEp a <> o -> is_ep s1 !! a = k_ep k !! a) ->
  (forall a, ONt a <> o -> is_nt s1 !! a = k_ntfn k !! a) ->
  wp (let* fuel := queue_fuel in do* restart_queue fuel (q_head (obj_queue (istore_of k) o)) in rescheduleRequired)
    (fun _ k' => all_woken Q o k k') (fun _ => False) k1.
Proof.
  intros Hc [HS HI] Hs1 Et Hw Hep Hnt. pose proof (istep_sched _ _ _ HS Hs1) as HS1. destruct Hs1 as (Es1 & _).
  pose proof (io_queue _ _ _ HI o) as HL. pose proof (dll_nodup _ _ _ _ _ HL) as Hnd. rewrite (dll_hd _ _ _ _ _ HL). destruct HL as [Hseg _].
  assert (inx s1 = inx (istore_of k) /\ ipv s1 = ipv (istore_of k)) as [En Ep] by (unfold inx, ipv; by rewrite Et).
  unfold queue_fuel. do 2 wp_step. wp_step. eapply wp_mono; [apply (restart_queue_ok (fun _ => False) (oput Q o []) _ (Q o) 0 k1) | | done].
  - done.
  - by apply sched_pend.
  - rewrite Es1. by apply (inv_empty Q (istore_of k)).
  - done.
  - by rewrite Es1, En, Ep.
  - apply Nat.lt_succ_r, nodup_size; [done |]. intros y Hy. destruct (io_mem _ _ _ HI o y Hy) as (_ & i & Hi & _).
    rewrite <- Et, <- Es1 in Hi. destruct (istore_tcb _ _ _ _ eq_refl Hi) as (x & -> & _). eauto.
  - intros y Hy. destruct (io_mem _ _ _ HI o y Hy) as (_ & i & Hi & Eo & _). exists i. rewrite Es1, Et. split; [done |]. by eapply obj_of_blocked.
  - intros ? k2 (Hk2 & HI2 & Ht2 & Ee & En2). eapply wp_mono; [by apply pend_resched_ok | | done]. intros ? k3 [HS3 Hv]. pose proof (view_istore _ _ Hv) as Es3.
    split; [split; [done | by rewrite Es3] | | |].
    + intros y. rewrite Es3, Ht2, Es1, Et. done.
    + intros b Hb. change (k_ep k3) with (is_ep (istore_of k3)). rewrite Es3, Ee, Es1. by apply Hep.
    + intros b Hb. change (k_ntfn k3) with (is_nt (istore_of k3)). rewrite Es3, En2, Es1. by apply Hnt.
Qed.

Lemma ep_nonzero E Q k a e : kipc E Q k -> k_ep k !! a = Some e -> a <> 0.
Proof. intros [_ HI] He ->. pose proof (io_objs _ _ _ HI) as [H _]. simpl in H. congruence. Qed.
Lemma nt_nonzero E Q k a n : kipc E Q k -> k_ntfn k !! a = Some n -> a <> 0.
Proof. intros [_ HI] He ->. pose proof (io_objs _ _ _ HI) as [_ H]. simpl in H. congruence. Qed.

(** An endpoint, or a notification, gets a queue and a state. *)
Lemma with_ep s a e e' : is_ep s !! a = Some e -> is_ep s !! 0 = None /\ is_nt s !! 0 = None ->
  with_obj s (OEp a) (mkQ (epQueue_head e') (epQueue_tail e')) (ep_waits (ep_state e')) (set_ep s a e').
Proof.
  intros He [H1 H2]. unfold with_obj. simpl. rewrite lookup_insert_eq. split; [done |]. split; [done |]. split.
  - intros [b|b] Hb; simpl; [|done]. rewrite lookup_insert_ne; [done |]. congruence.
  - split; [|done]. split; [|done]. rewrite lookup_insert_ne; [done |]. congruence.
Qed.
Lemma with_nt s a n n' : is_nt s !! a = Some n -> is_ep s !! 0 = None /\ is_nt s !! 0 = None -> ntfnBoundTCB n' = ntfnBoundTCB n ->
  with_obj s (ONt a) (mkQ (ntfnQueue_head n') (ntfnQueue_tail n')) (nt_waits (ntfn_state n')) (set_nt s a n').
Proof.
  intros He [H1 H2] Eb. unfold with_obj. simpl. rewrite lookup_insert_eq. split; [done |]. split; [done |]. split.
  - intros [b|b] Hb; simpl; [done |]. rewrite lookup_insert_ne; [done |]. congruence.
  - split; [split; [done |]; rewrite lookup_insert_ne; [done | congruence] |]. intros m. destruct (decide (m = a)) as [->|].
    + rewrite lookup_insert_eq, He. simpl. by rewrite Eb.
    + by rewrite lookup_insert_ne.
Qed.
Lemma set_ep_twice s a e e' : set_ep (set_ep s a e) a e' = set_ep s a e'.
Proof. unfold set_ep. simpl. by rewrite insert_insert_eq. Qed.
Lemma set_nt_twice s a e e' : set_nt (set_nt s a e) a e' = set_nt s a e'.
Proof. unfold set_nt. simpl. by rewrite insert_insert_eq. Qed.

Lemma cancelAllIPC_ok Q k a e : config_ok -> kipc (fun _ => False) Q k -> k_ep k !! a = Some e ->
  wp (cancelAllIPC a) (fun _ k' => all_woken Q (OEp a) k k') (fun _ => False) k.
Proof.
  intros Hc Hk He. pose proof (ep_nonzero _ _ _ _ _ Hk He) as H0. pose proof Hk as [HS HI]. pose proof (istep_start k HS) as Hs0.
  unfold cancelAllIPC, endpoint_ptr_set_state, ep_ptr_set_queue. wp_step. eapply wp_ep_get; [exact Hs0 | exact He | done |].
  destruct (decide (ep_state e = EPState_Idle)) as [Est|Est]; [rewrite bool_decide_true by done | rewrite bool_decide_false by done].
  - wp_step. assert (Q (OEp a) = []) as EQ by (apply (io_idle _ _ _ HI); simpl; rewrite He; simpl; by rewrite Est).
    split; [|intros y; rewrite EQ, decide_False by set_solver; done | done..]. split; [done |]. rewrite <- EQ. revert HI. apply ipc_inv_ext.
    intros o. unfold oput. by case_decide; subst.
  - wp_step. eapply wp_ep_upd; [exact Hs0 | exact He | done |]. intros k1 Hs1. wp_step.
    eapply wp_ep_upd; [exact Hs1 | simpl; apply lookup_insert_eq | done |]. intros k2 Hs2. rewrite set_ep_twice in Hs2.
    replace (epQueue_head e) with (q_head (obj_queue (istore_of k) (OEp a))) by (simpl; by rewrite He).
    apply (wake_all_ok Q k k2 _ (OEp a) Hc Hk Hs2); [done | | |done].
    + apply (with_ep _ a e); [done |]. apply (io_objs _ _ _ HI).
    + intros b Hb. simpl. rewrite lookup_insert_ne; [done |]. congruence.
Qed.

Lemma cancelAllSignals_ok Q k a n : config_ok -> kipc (fun _ => False) Q k -> k_ntfn k !! a = Some n ->
  wp (cancelAllSignals a) (fun _ k' => all_woken Q (ONt a) k k') (fun _ => False) k.
Proof.
  intros Hc Hk He. pose proof (nt_nonzero _ _ _ _ _ Hk He) as H0. pose proof Hk as [HS HI]. pose proof (istep_start k HS) as Hs0.
  unfold cancelAllSignals, notification_ptr_set_state, ntfn_ptr_set_queue. wp_step. eapply wp_nt_get; [exact Hs0 | exact He | done |].
  destruct (decide (ntfn_state n = NtfnState_Waiting)) as [Est|Est]; [rewrite bool_decide_true by done | rewrite bool_decide_false by done].
  - wp_step. eapply wp_nt_upd; [exact Hs0 | exact He | done |]. intros k1 Hs1. wp_step.
    eapply wp_nt_upd; [exact Hs1 | simpl; apply lookup_insert_eq | done |]. intros k2 Hs2. rewrite set_nt_twice in Hs2.
    replace (ntfnQueue_head n) with (q_head (obj_queue (istore_of k) (ONt a))) by (simpl; by rewrite He).
    apply (wake_all_ok Q k k2 _ (ONt a) Hc Hk Hs2); [done | | done |].
    + apply (with_nt _ a n); [done | apply (io_objs _ _ _ HI) | done].
    + intros b Hb. simpl. rewrite lookup_insert_ne; [done |]. congruence.
  - wp_step. assert (Q (ONt a) = []) as EQ by (apply (io_idle _ _ _ HI); simpl; rewrite He; simpl; by destruct (ntfn_state n)).
    split; [|intros y; rewrite EQ, decide_False by set_solver; done | done..]. split; [done |]. rewrite <- EQ. revert HI. apply ipc_inv_ext.
    intros o. unfold oput. by case_decide; subst.
Qed.

(** ** Cancelling the sends with one badge *)

Definition sent_badge (s : istore) (y : Z) : Z := from_option it_badge 0 (is_tcb s !! y).

(** Links of threads outside all queues. *)
Lemma inv_links E Q s s' xs : ipc_inv E Q s -> links_changed xs s s' -> (forall o y, y ∈ xs -> y ∉ Q o) -> ipc_inv E Q s'.
Proof.
  intros [J1 J2 J3 J4 J5 J6 J7] [L1 L2 L3 L4] Hx.
  assert (forall o y, y ∈ Q o -> is_tcb s' !! y = is_tcb s !! y) as Hsame by (intros o y Hy; apply L2; intros Hy'; by apply (Hx o y)).
  assert (forall o, obj_queue s' o = obj_queue s o /\ obj_waits s' o = obj_waits s o) as Ho by (intros []; simpl; by rewrite ?L3, ?L4).
  split.
  - intros o. destruct (Ho o) as [-> _]. eapply dll_ext; [|apply J1]. intros y Hy. unfold inx, ipv. by rewrite (Hsame o y).
  - intros o. destruct (Ho o) as [_ ->]. apply J2.
  - intros o t Ht. destruct (Ho o) as [_ ->]. rewrite (Hsame o t Ht). by apply J3.
  - intros t i o Hi Ei Hn. destruct (relinked_some _ _ _ _ (relinked_sym _ _ L1) Hi) as (j & Hj & Eu).
    apply unlink_fields in Eu as (_ & Eo & _). apply (J4 t j o Hj); [congruence | done].
  - intros t [i Hi]. destruct (relinked_some _ _ _ _ (relinked_sym _ _ L1) Hi) as (j & Hj & _). apply J5. eauto.
  - by rewrite L3, L4.
  - apply (bound_relinked s); [done | done |]. by rewrite L4.
Qed.

Lemma pend_same k k' : pend_ok k -> same_sched k k' -> pend_ok k'.
Proof.
  intros (HB & Ha & Hc) Hss. split; [by apply (base_ok_same k) |]. pose proof Hss as [_ Hq Hs Ec Eact _ _ _]. split.
  - intros t. rewrite (same_runnable _ _ _ Hs), Hq, Ec, Eact. apply Ha.
  - rewrite Eact, (same_runnable _ _ _ Hs). exact Hc.
Qed.

(** The threads [ws] restarted, up to the links. *)
Record restarted (ws : Z -> Prop) `{forall y, Decision (ws y)} (s s' : istore) : Prop := {
  rs_threads : forall y, unlink <$> is_tcb s' !! y = (if decide (ws y) then unlink ∘ it_set_st ThreadState_Restart else unlink) <$> is_tcb s !! y;
  rs_ep : is_ep s' = is_ep s;
  rs_nt : is_nt s' = is_nt s }.

Lemma restarted_badge ws `{forall y, Decision (ws y)} s s' y : restarted ws s s' -> sent_badge s' y = sent_badge s y.
Proof.
  intros [Ht _ _]. specialize (Ht y). unfold sent_badge. destruct (is_tcb s' !! y) as [i'|], (is_tcb s !! y) as [i|]; simpl in *; try done.
  injection Ht as E. case_decide; destruct i, i'; unfold unlink, it_set_st in E; simpl in *; congruence.
Qed.

(** One thread restarted and taken out of the local queue. *)
Lemma cancel_one_ok Q k t i q l r : config_ok -> pend_ok k -> ipc_inv (fun y => y ∈ l ++ t :: r) Q (istore_of k) ->
  listed (istore_of k) q (l ++ t :: r) -> is_tcb (istore_of k) !! t = Some i -> it_st i <> ThreadState_IdleThreadState ->
  wp (do* setThreadState t ThreadState_Restart in do* tcbSchedEnqueue t in tcbEPDequeue t q)
    (fun q' k' => pend_ok k' /\ ipc_inv (fun y => y ∈ l ++ r) Q (istore_of k') /\ listed (istore_of k') q' (l ++ r) /\
      restarted (fun y => y = t) (istore_of k) (istore_of k')) (fun _ => False) k.
Proof.
  intros Hc Hk HI [HL Hx] Hi Hid. pose proof (dll_nodup _ _ _ _ _ HL) as Hnd. rewrite <- bind_assoc_wp. wp_step.
  eapply wp_mono; [by apply (restart_one_ok k t i) | | done]. intros ? k1 [Hk1 Es1]. pose proof Hk1 as (HB1 & _).
  assert (t ∉ l ++ r) as Htn. { apply list.NoDup_app in Hnd as (_ & Hd & Hnd). apply list.NoDup_cons in Hnd as [? _]. set_solver. }
  assert (forall y, inx (istore_of k1) y = inx (istore_of k) y /\ ipv (istore_of k1) y = ipv (istore_of k) y) as Hl.
  { intros y. rewrite Es1, inx_set, ipv_set. unfold put, inx, ipv. case_decide; [subst; by rewrite Hi | done]. }
  assert (listed (istore_of k1) q (l ++ t :: r)) as HL1.
  { split; [eapply dll_ext; [intros y _; apply Hl | exact HL] |]. intros y Hy. rewrite Es1. simpl. destruct (decide (y = t)) as [->|].
    - rewrite lookup_insert_eq. eauto.
    - rewrite lookup_insert_ne by done. by apply Hx. }
  assert (ipc_inv (fun y => y ∈ l ++ r) Q (istore_of k1)) as HI1.
  { rewrite Es1. apply (inv_set_st _ _ _ _ i); [|done | done]. eapply ipc_inv_iff; [|exact HI]. intros y. simpl. set_solver. }
  eapply wp_mono; [apply (tcbEPDequeue_ok k1 k1 (istore_of k1)); [apply istep_refl, HB1 | done] | | done].
  intros q' k2 (s2 & (Es2 & Hss & _) & Hlc & HL2). rewrite Es2. split; [by apply (pend_same k1) |]. split; [|split; [done |]].
  - eapply (inv_links _ _ _ _ _ HI1 Hlc). intros o y Hy Hy'. destruct (io_mem _ _ _ HI1 o y Hy') as (Hn & j & Hj & Ej & _).
    destruct (decide (y = t)) as [->|]; [|set_solver]. rewrite Es1 in Hj. simpl in Hj. rewrite lookup_insert_eq in Hj. by injection Hj as <-.
  - destruct Hlc as [L1 _ L3 L4]. rewrite Es1 in L1, L3, L4. split; [|done | done]. intros y. rewrite L1. unfold set_it. cbn [is_tcb]. case_decide as Ey.
    + subst y. by rewrite lookup_insert_eq, Hi.
    + by rewrite lookup_insert_ne.
Qed.

Definition other_badge (s : istore) (badge : Z) (xs : list Z) : list Z := filter (fun y => sent_badge s y <> badge) xs.
Definition hit (s : istore) (badge : Z) (xs : list Z) (y : Z) : Prop := y ∈ xs /\ sent_badge s y = badge.
#[local] Instance hit_dec s badge xs y : Decision (hit s badge xs y) := _.

Lemma restarted_cons s s1 s2 badge t r : NoDup (t :: r) -> sent_badge s t = badge -> restarted (fun y => y = t) s s1 ->
  restarted (hit s1 badge r) s1 s2 -> restarted (hit s badge (t :: r)) s s2.
Proof.
  intros Hnd Hb H1 H2. pose proof H1 as [A1 A2 A3]. pose proof H2 as [B1 B2 B3]. apply list.NoDup_cons in Hnd as [Htn _].
  split; [|congruence | congruence]. intros y. rewrite B1. pose proof (restarted_badge _ _ _ y H1) as Ey.
  specialize (A1 y). destruct (decide (y = t)) as [->|Hy].
  - rewrite decide_False by (intros [? _]; done). rewrite A1, decide_True; [done |]. split; [set_solver | done].
  - assert (hit s1 badge r y <-> hit s badge (t :: r) y) as Hh by (unfold hit; rewrite Ey; set_solver).
    destruct (is_tcb s1 !! y) as [j|], (is_tcb s !! y) as [i|]; simpl in A1; try done. simpl. apply (inj Some) in A1.
    destruct (decide (hit s1 badge r y)); [rewrite decide_True by tauto | rewrite decide_False by tauto];
      f_equal; destruct i, j; unfold unlink in A1; simpl in *; injection A1 as -> -> -> ->; done.
Qed.

Lemma cancelBadged_loop_ok Q fuel r l q badge k : config_ok -> pend_ok k -> ipc_inv (fun y => y ∈ l ++ r) Q (istore_of k) ->
  listed (istore_of k) q (l ++ r) -> (length r < fuel)%nat ->
  (forall y i, y ∈ r -> is_tcb (istore_of k) !! y = Some i -> it_st i <> ThreadState_IdleThreadState) ->
  wp (cancelBadged_loop fuel (List.hd 0 r) badge q) (fun q' k' => pend_ok k' /\
    ipc_inv (fun y => y ∈ l ++ other_badge (istore_of k) badge r) Q (istore_of k') /\
    listed (istore_of k') q' (l ++ other_badge (istore_of k) badge r) /\ restarted (hit (istore_of k) badge r) (istore_of k) (istore_of k')) (fun _ => False) k.
Proof.
  intros Hc. revert r l q k. induction fuel as [|fuel IH]; intros r l q k Hk HI HL Hlen Hst; [lia |]. cbn [cancelBadged_loop].
  destruct r as [|t r]; cbn [List.hd].
  { rewrite Z.eqb_refl. wp_step. split; [done |]. split; [done |]. split; [done |]. split; [|done | done]. intros y. rewrite decide_False; [done |].
    intros [Hy _]. by apply not_elem_of_nil in Hy. }
  pose proof HL as [HD Hx]. destruct (dll_around _ _ _ _ _ _ _ HD) as (Ht0 & _ & Enx). rewrite (proj2 (Z.eqb_neq t 0) Ht0).
  destruct (Hx t ltac:(set_solver)) as [i Hi]. destruct (istore_tcb _ _ _ _ eq_refl Hi) as (x & Hx' & Ex). wp_step.
  eapply wp_tcb_get; [exact Hx' | done |]. cbv zeta.
  assert (blockingIPCBadge x = sent_badge (istore_of k) t) as -> by (unfold sent_badge; rewrite Hi; by rewrite <- Ex).
  assert (tcbEPNext x = List.hd 0 r) as -> by (rewrite <- Enx; unfold inx; rewrite Hi; by rewrite <- Ex).
  pose proof (dll_nodup _ _ _ _ _ HD) as Hnd. apply list.NoDup_app in Hnd as (_ & _ & Hnd).
  destruct (sent_badge (istore_of k) t =? badge) eqn:Eb; [apply Z.eqb_eq in Eb | apply Z.eqb_neq in Eb]; simpl in Hlen.
  - rewrite <- bind3_assoc_wp. wp_step. eapply wp_mono; [apply (cancel_one_ok Q k t i q l r); try done; apply (Hst t i); [set_solver | done] | | done].
    intros q1 k1 (Hk1 & HI1 & HL1 & HR1). eapply wp_mono; [apply (IH r l q1 k1); try done; [lia |] | | done].
    + intros y j Hy Hj. pose proof (rs_threads _ _ _ HR1 y) as Ey. rewrite Hj, decide_False in Ey by (intros ->; apply list.NoDup_cons in Hnd as [? _]; done).
      destruct (is_tcb (istore_of k) !! y) as [j0|] eqn:Ej; [|done]. simpl in Ey. apply (inj Some) in Ey. apply unlink_fields in Ey as (-> & _).
      apply (Hst y); [set_solver | done].
    + intros q2 k2 (Hk2 & HI2 & HL2 & HR2). unfold other_badge at 1 2. rewrite list.filter_cons, decide_False by tauto.
      assert (filter (fun y => sent_badge (istore_of k) y <> badge) r = other_badge (istore_of k1) badge r) as ->.
      { unfold other_badge. apply list_filter_iff. intros y. by rewrite (restarted_badge _ _ _ y HR1). }
      split; [done |]. split; [done |]. split; [done |]. by apply (restarted_cons _ (istore_of k1)).
  - assert (forall zs : list Z, l ++ t :: zs = (l ++ [t]) ++ zs) as El by (intros zs; by rewrite <- app_assoc).
    eapply wp_mono; [apply (IH r (l ++ [t]) q k); rewrite <- ?El; try done; [lia |] | | done].
    + intros y j Hy. apply Hst. set_solver.
    + intros q2 k2 (Hk2 & HI2 & HL2 & HR2). unfold other_badge at 1 2. rewrite list.filter_cons, decide_True, El by done.
      split; [done |]. split; [done |]. split; [done |]. destruct HR2 as [R1 R2 R3]. split; [|done | done]. intros y. rewrite R1.
      assert (hit (istore_of k) badge r y <-> hit (istore_of k) badge (t :: r) y) as Hh by (unfold hit; set_solver).
      destruct (decide (hit (istore_of k) badge r y)); [rewrite decide_True by tauto | rewrite decide_False by tauto]; done.
Qed.

(** The local queue is stored back into the endpoint. *)
Lemma inv_refill Q s s' a xs q st : ipc_inv (fun y => y ∈ xs) (oput Q (OEp a) []) s -> listed s q xs -> is_tcb s' = is_tcb s ->
  with_obj s (OEp a) q (if q_head q =? 0 then None else Some st) s' ->
  (forall y, y ∈ xs -> exists i, is_tcb s !! y = Some i /\ obj_of i = Some (OEp a) /\ it_st i = st) ->
  ipc_ok (oput Q (OEp a) xs) s'.
Proof.
  intros HI [HL Hx] Et (Eq & Ew & Ho & H0 & Hb) Hst. pose proof (dll_empty _ _ _ _ _ HL) as [Eh _].
  apply (ipc_inv_ext _ (oput (oput Q (OEp a) []) (OEp a) xs)); [intros o; unfold oput; by case_decide |].
  apply (ipc_change (fun y => y ∈ xs) _ _ s s' (OEp a) xs); try done.
  - intros y. by rewrite Et.
  - intros o' y _ _. by rewrite Et.
  - rewrite Eq. unfold inx, ipv. rewrite Et. exact HL.
  - rewrite Ew. destruct (q_head q =? 0) eqn:E; [apply Z.eqb_eq in E | apply Z.eqb_neq in E]; split; try done; intros Ex; tauto.
  - intros y Hy. split; [tauto |]. destruct (Hst y Hy) as (i & Hi & Eo & Es). exists i. split; [done |]. split; [done |]. rewrite Ew, Es.
    rewrite (proj2 (Z.eqb_neq (q_head q) 0)); [done |]. intros E. apply Eh in E. subst xs. by apply not_elem_of_nil in Hy.
  - intros y i Hi Eo _. destruct (decide (y ∈ xs)) as [|Hn]; [done |]. pose proof (io_wait _ _ _ HI y i _ Hi Eo Hn) as Hy.
    rewrite oput_eq in Hy. by apply not_elem_of_nil in Hy.
  - tauto.
  - intros y i o' Hi Eo Hne _ Hy. destruct (Hst y Hy) as (j & Hj & Ej & _). congruence.
Qed.

(** The senders with the badge run again, the others keep their order. *)
Record badge_cancelled (Q : obj -> list Z) (a badge : Z) (k k' : kstate) : Prop := {
  bc_ok : kipc (fun _ => False) (oput Q (OEp a) (other_badge (istore_of k) badge (Q (OEp a)))) k';
  bc_threads : forall y, unlink <$> is_tcb (istore_of k') !! y =
    (if decide (hit (istore_of k) badge (Q (OEp a)) y) then unlink ∘ it_set_st ThreadState_Restart else unlink) <$> is_tcb (istore_of k) !! y;
  bc_ep : forall b, b <> a -> k_ep k' !! b = k_ep k !! b;
  bc_nt : k_ntfn k' = k_ntfn k }.

Lemma refill_wake_ok Q k k1 k2 q a e badge s1 : config_ok -> kipc (fun _ => False) Q k -> k_ep k !! a = Some e -> ep_state e = EPState_Send ->
  s1 = set_ep (istore_of k) a (mkEp EPState_Idle 0 0) -> istore_of k1 = s1 -> pend_ok k2 ->
  ipc_inv (fun y => y ∈ other_badge s1 badge (Q (OEp a))) (oput Q (OEp a) []) (istore_of k2) ->
  listed (istore_of k2) q (other_badge s1 badge (Q (OEp a))) -> restarted (hit s1 badge (Q (OEp a))) s1 (istore_of k2) ->
  wp (do* ep_ptr_set_queue a q in
      do* (if negb (q_head q =? 0) then endpoint_ptr_set_state a EPState_Send else ret tt) in
      rescheduleRequired) (fun _ k' => badge_cancelled Q a badge k k') (fun _ => False) k2.
Proof.
  intros Hc Hk He Hst -> Es1 Hk2 HI2 HL2 HR. pose proof (ep_nonzero _ _ _ _ _ Hk He) as H0. destruct Hk as [HS HI].
  set (o := OEp a) in *. set (s1 := set_ep (istore_of k) a (mkEp EPState_Idle 0 0)) in *. set (xs := other_badge s1 badge (Q o)) in *.
  destruct HR as [R1 R2 R3]. assert (is_ep (istore_of k2) !! a = Some (mkEp EPState_Idle 0 0)) as He2 by (rewrite R2; apply lookup_insert_eq).
  pose proof Hk2 as (HB2 & _). pose proof (istep_refl k2 (b_queues _ HB2)) as Hs0. unfold ep_ptr_set_queue, endpoint_ptr_set_state.
  wp_step. eapply wp_ep_upd; [exact Hs0 | exact He2 | done |]. intros k3 Hs3. wp_step.
  set (e' := mkEp (if q_head q =? 0 then EPState_Idle else EPState_Send) (q_head q) (q_end q)).
  assert (wp (if negb (q_head q =? 0) then ep_upd a (fun e => mkEp EPState_Send (epQueue_head e) (epQueue_tail e)) else ret tt)
    (fun _ k' => istep k2 (set_ep (istore_of k2) a e') k') (fun _ => False) k3) as Hup.
  { unfold e'. destruct (q_head q =? 0); cbn [negb]; [by wp_step |]. eapply wp_ep_upd; [exact Hs3 | simpl; apply lookup_insert_eq | done |].
    intros k4 Hs4. rewrite set_ep_twice in Hs4. exact Hs4. }
  eapply wp_mono; [exact Hup | | done]. intros ? k4 (Es4 & Hss & _).
  assert (ipc_ok (oput Q o xs) (istore_of k4)) as HI4.
  { apply (inv_refill Q (istore_of k2) _ a xs q ThreadState_BlockedOnSend); [done | done | by rewrite Es4 | |].
    - rewrite Es4. replace (if q_head q =? 0 then None else Some ThreadState_BlockedOnSend) with (ep_waits (ep_state e')) by (unfold e'; simpl; by destruct (q_head q =? 0)).
      replace q with (mkQ (epQueue_head e') (epQueue_tail e')) at 1 by by destruct q. apply (with_ep _ a _ e' He2). apply (io_objs _ _ _ HI2).
    - intros y Hy. unfold xs, other_badge in Hy. apply list_elem_of_filter in Hy as [Hb Hy]. destruct (io_mem _ _ _ HI o y Hy) as (_ & i & Hi & Eo & Ew).
      simpl in Ew. rewrite He in Ew. simpl in Ew. rewrite Hst in Ew. injection Ew as Ew. specialize (R1 y).
      rewrite decide_False in R1 by (intros [_ ?]; done). change (is_tcb s1) with (is_tcb (istore_of k)) in R1. rewrite Hi in R1.
      destruct (is_tcb (istore_of k2) !! y) as [j|]; [|done]. simpl in R1. apply (inj Some) in R1. apply unlink_fields in R1 as (E1 & E2 & _). exists j. split; [done |]. split; [by rewrite E2 | by rewrite E1]. }
  eapply wp_mono; [apply pend_resched_ok; [done | by apply (pend_same k2)] | | done]. intros ? k5 [HS5 Hv]. pose proof (view_istore _ _ Hv) as Es5.
  split.
  - split; [done |]. rewrite Es5. exact HI4.
  - intros y. rewrite Es5, Es4. exact (R1 y).
  - intros b Hb. change (k_ep k5) with (is_ep (istore_of k5)). rewrite Es5, Es4. simpl. rewrite lookup_insert_ne by congruence.
    change (k_ep k2) with (is_ep (istore_of k2)). rewrite R2. simpl. by rewrite lookup_insert_ne by congruence.
  - change (k_ntfn k5) with (is_nt (istore_of k5)). rewrite Es5, Es4. simpl. change (k_ntfn k2) with (is_nt (istore_of k2)). by rewrite R3.
Qed.

Lemma cancelBadgedSends_effect Q k a e badge : config_ok -> kipc (fun _ => False) Q k -> k_ep k !! a = Some e ->
  wp (cancelBadgedSends a badge)
    (fun _ k' => if decide (ep_state e = EPState_Send) then badge_cancelled Q a badge k k' else k' = k) (fun _ => False) k.
Proof.
  intros Hc Hk He. pose proof (ep_nonzero _ _ _ _ _ Hk He) as H0. pose proof Hk as [HS HI]. pose proof (istep_start k HS) as Hs0.
  unfold cancelBadgedSends. wp_step. eapply wp_ep_get; [exact Hs0 | exact He | done |]. destruct (ep_state e) eqn:Est; [by wp_step | | by wp_step].
  unfold ep_ptr_get_queue, endpoint_ptr_set_state. unfold ep_ptr_set_queue at 1. do 2 wp_step.
  eapply wp_ep_get; [exact Hs0 | exact He | done |]. do 2 wp_step. eapply wp_ep_upd; [exact Hs0 | exact He | done |]. intros k1 Hs1. wp_step.
  eapply wp_ep_upd; [exact Hs1 | simpl; apply lookup_insert_eq | done |]. intros k2 Hs2. rewrite set_ep_twice in Hs2. simpl in Hs2.
  replace (mkQ (epQueue_head e) (epQueue_tail e)) with (obj_queue (istore_of k) (OEp a)) by (simpl; by rewrite He).
  set (s1 := set_ep (istore_of k) a (mkEp EPState_Idle 0 0)). assert (istore_of k2 = s1) as Es by apply Hs2.
  pose proof (istep_sched _ _ _ HS Hs2) as HS2. pose proof (listed_of _ _ _ (OEp a) HI) as HL.
  rewrite (dll_hd _ _ _ _ _ (proj1 HL)). unfold queue_fuel. do 2 wp_step. wp_step.
  eapply wp_mono; [apply (cancelBadged_loop_ok (oput Q (OEp a) []) _ (Q (OEp a)) []); [done | by apply sched_pend | | | |] | | done].
  - rewrite Es. eapply ipc_inv_iff; [|apply (inv_empty Q (istore_of k)); [done | done |]].
    + intros y. simpl. tauto.
    + apply (with_ep _ a e); [done | apply (io_objs _ _ _ HI)].
  - rewrite Es. exact HL.
  - apply Nat.lt_succ_r, nodup_size; [by destruct HL as [[] _] |]. intros y Hy. destruct (proj2 HL y Hy) as [i Hi].
    change (is_tcb (istore_of k)) with (is_tcb s1) in Hi. rewrite <- Es in Hi. destruct (istore_tcb _ _ _ _ eq_refl Hi) as (x & -> & _). eauto.
  - intros y i Hy Hi. rewrite Es in Hi. destruct (io_mem _ _ _ HI _ y Hy) as (_ & j & Hj & Eo & _). change (is_tcb s1) with (is_tcb (istore_of k)) in Hi.
    rewrite Hi in Hj. injection Hj as <-. by apply (obj_of_blocked _ _ Eo).
  - intros q k3 (Hk3 & HI3 & HL3 & HR3). rewrite Es in HI3, HL3, HR3. by apply (refill_wake_ok Q k k2 k3 q a e badge s1).
Qed.
End Cancel.
