(* ===== verification/KTransfer.v ===== *)
(** * Transfer of a message

    What [doIPCTransfer] (kernel/src/kernel/thread.c) delivers: the words of the
    sender's message in the receiver's registers and IPC buffer, the badge and the
    message information, and nothing else; then the rendezvous of a sender and a
    receiver at an endpoint (kernel/src/object/endpoint.c). *)

From S2P Require Import Prelude Dll KCaps KCapThms KState KSched KCspace KMsg KIpc.
From S2P Require Import KSchedInv KSchedThms KSchedSteps KIpcInv KIpcThms KIpcCancel.

(** ** Message information as a word *)

Definition mi_ok (mi : seL4_MessageInfo_t) : Prop :=
  0 <= mi_label mi < 2 ^ 52 /\ 0 <= mi_capsUnwrapped mi < 2 ^ 3 /\ 0 <= mi_extraCaps mi < 2 ^ 2 /\ 0 <= mi_length mi <= seL4_MsgMaxLength.

Lemma messageInfo_word mi : mi_ok mi -> wordFromMessageInfo mi = mi_label mi * 2 ^ 12 + mi_capsUnwrapped mi * 2 ^ 9 + mi_extraCaps mi * 2 ^ 7 + mi_length mi.
Proof.
  intros (H1 & H2 & H3 & H4). unfold wordFromMessageInfo, seL4_MsgMaxLength in *.
  rewrite <- Z.lor_assoc, <- Z.lor_assoc, (lor_add (mi_extraCaps mi)) by lia.
  rewrite (lor_add (mi_capsUnwrapped mi)) by lia. rewrite lor_add by lia. lia.
Qed.

(** The kernel reads back what it wrote. *)
Lemma messageInfo_back mi : mi_ok mi -> messageInfoFromWord (wordFromMessageInfo mi) = mi.
Proof.
  intros Hm. rewrite messageInfo_word by done. destruct mi as [l u e n]. destruct Hm as (H1 & H2 & H3 & H4). cbn [mi_label mi_capsUnwrapped mi_extraCaps mi_length] in *. unfold seL4_MsgMaxLength in *.
  unfold messageInfoFromWord, messageInfoFromWord_raw. rewrite !Z.shiftr_div_pow2, !land_mask by lia.
  assert ((l * 2 ^ 12 + u * 2 ^ 9 + e * 2 ^ 7 + n) mod 2 ^ 7 = n) as En by (symmetry; apply (Z.mod_unique_pos _ _ (l * 32 + u * 4 + e)); lia).
  cbn [mi_length]. rewrite En, (Z.gtb_ltb n), (proj2 (Z.ltb_ge seL4_MsgMaxLength n)) by (unfold seL4_MsgMaxLength; lia). f_equal.
  - rewrite <- (Z.div_unique_pos _ (2 ^ 12) l (u * 512 + e * 128 + n)) by lia. by apply Z.mod_small.
  - rewrite <- (Z.div_unique_pos _ (2 ^ 9) (l * 8 + u) (e * 128 + n)) by lia. symmetry. apply (Z.mod_unique_pos _ _ l); lia.
  - rewrite <- (Z.div_unique_pos _ (2 ^ 7) (l * 32 + u * 4 + e) n) by lia. symmetry. apply (Z.mod_unique_pos _ _ (l * 8 + u)); lia.
Qed.

Lemma messageInfoFromWord_ok w : mi_ok (messageInfoFromWord w).
Proof.
  unfold messageInfoFromWord, messageInfoFromWord_raw, mi_ok, seL4_MsgMaxLength. rewrite !land_mask by lia. cbn [mi_length].
  pose proof (Z.mod_pos_bound (Z.shiftr w 12) (2 ^ 52) eq_refl). pose proof (Z.mod_pos_bound (Z.shiftr w 9) (2 ^ 3) eq_refl).
  pose proof (Z.mod_pos_bound (Z.shiftr w 7) (2 ^ 2) eq_refl). pose proof (Z.mod_pos_bound w (2 ^ 7) eq_refl).
  destruct (Z.gtb_spec (w mod 2 ^ 7) 120); unfold seL4_MessageInfo_set_length; cbn [mi_label mi_capsUnwrapped mi_extraCaps mi_length]; [change (Z.land 120 (MASK 7)) with 120 |]; lia.
Qed.

(** ** The state during a transfer *)

(** Registers [R] of thread [t], words [W] of memory, slots [ec] of the caps to send. *)
Definition with_msg (k : kstate) (t : Z) (x : tcb_t) (R W : gmap Z Z) (ec : list Z) : kstate :=
  upd_k_word (fun _ => W) (upd_k_tcb (insert t (upd_tcbRegs (fun _ => R) x)) (upd_current_extra_caps (fun _ => ec) k)).

Lemma wp_reg_at a i r (P : Z -> kstate -> Prop) F k : (if i <? 0 then None else a !! Z.to_nat i) = Some r -> P r k -> wp (reg_at a i) P F k.
Proof. unfold reg_at. by intros ->. Qed.

Lemma with_msg_self k t x : k_tcb k !! t = Some x -> with_msg k t x (tcbRegs x) (k_word k) (current_extra_caps k) = k.
Proof. intros Ht. destruct k, x. unfold with_msg, upd_k_tcb, upd_k_word, upd_current_extra_caps. simpl in *. f_equal. by apply insert_id. Qed.

Lemma wp_msg_setreg k t x R W ec r v (P : unit -> kstate -> Prop) F : t <> 0 ->
  P tt (with_msg k t x (<[r := v]> R) W ec) -> wp (setRegister t r v) P F (with_msg k t x R W ec).
Proof.
  intros Ht0 HP. unfold setRegister. eapply wp_tcb_upd; [simpl; apply lookup_insert_eq | done |]. revert HP. unfold with_msg.
  destruct k, x. unfold upd_k_tcb, upd_k_word, upd_current_extra_caps. simpl. by rewrite insert_insert_eq.
Qed.

(** Registers [rs] taken from [Rs]. *)
Fixpoint take_regs (Rs R : gmap Z Z) (rs : list Z) : gmap Z Z :=
  match rs with [] => R | r :: rs => take_regs Rs (<[r := default 0 (Rs !! r)]> R) rs end.
Lemma take_regs_lookup Rs R rs r : take_regs Rs R rs !! r = if decide (r ∈ rs) then Some (default 0 (Rs !! r)) else R !! r.
Proof.
  revert R. induction rs as [|a rs IH]; intros R; cbn [take_regs]; [rewrite decide_False; [done | apply not_elem_of_nil] |]. rewrite IH.
  destruct (decide (r ∈ rs)); [rewrite decide_True by set_solver; done |]. destruct (decide (r = a)) as [->|].
  - rewrite lookup_insert_eq, decide_True by set_solver. done.
  - rewrite lookup_insert_ne, decide_False by set_solver. done.
Qed.

Section Transfer.
Variables (k : kstate) (s t : Z) (y x : tcb_t).
Hypothesis (Hs : k_tcb k !! s = Some y) (Ht : k_tcb k !! t = Some x) (Hs0 : s <> 0) (Ht0 : t <> 0) (Hst : s <> t).

Lemma wp_msg_getreg R W ec r (P : Z -> kstate -> Prop) F :
  P (default 0 (tcbRegs y !! r)) (with_msg k t x R W ec) -> wp (getRegister s r) P F (with_msg k t x R W ec).
Proof using Hs Hs0 Hst. intros HP. unfold getRegister. wp_step. eapply wp_tcb_get; [simpl; rewrite lookup_insert_ne by done; exact Hs | done |]. by wp_step. Qed.
Lemma wp_msg_wget R W ec a (P : Z -> kstate -> Prop) F :
  P (default 0 (W !! a)) (with_msg k t x R W ec) -> wp (word_get a) P F (with_msg k t x R W ec).
Proof using Type. intros HP. unfold word_get. by wp_step. Qed.
Lemma wp_msg_wset R W ec a v (P : unit -> kstate -> Prop) F :
  P tt (with_msg k t x R (<[a := v]> W) ec) -> wp (word_set a v) P F (with_msg k t x R W ec).
Proof using Type. intros HP. unfold word_set. by wp_step. Qed.

(** ** Copying the words *)

Lemma inline_ok n R W ec (P : unit -> kstate -> Prop) F : (n <= 4)%nat ->
  P tt (with_msg k t x (take_regs (tcbRegs y) R (take n msgRegisters)) W ec) ->
  wp (copyMRs_inline s t 0 n) P F (with_msg k t x R W ec).
Proof using Hs Hs0 Hst Ht0.
  intros Hn. do 5 (destruct n as [|n]; [simpl; intros HP;
    repeat (wp_step; eapply wp_reg_at; [reflexivity |]; wp_step; apply wp_msg_getreg; wp_step; apply wp_msg_setreg; [exact Ht0 |]); wp_step; exact HP |]). lia.
Qed.

Fixpoint take_words (sb rb i : Z) (n : nat) (W : gmap Z Z) : gmap Z Z :=
  match n with
  | O => W
  | S n => take_words sb rb (i + 1) n (<[word_at rb (i + 1) := default 0 (W !! word_at sb (i + 1))]> W)
  end.

Lemma buffer_ok sb rb n i R W ec (P : unit -> kstate -> Prop) F : P tt (with_msg k t x R (take_words sb rb i n W) ec) ->
  wp (copyMRs_buffer sb rb i n) P F (with_msg k t x R W ec).
Proof using Type.
  revert i W. induction n as [|n IH]; intros i W HP; simpl; [by wp_step |]. wp_step. apply wp_msg_wget. wp_step. apply wp_msg_wset. by apply IH.
Qed.
End Transfer.

(** Words of two aligned buffers: the same buffer, or no word in common. *)
Definition buf_aligned (b : Z) : Prop := is_word b /\ b mod 2 ^ 10 = 0.

Lemma word_at_flat b i : buf_aligned b -> 0 <= i < 128 -> word_at b i = b + 8 * i.
Proof.
  intros [Hb Ha] Hi. unfold word_at, w64. apply Z.mod_small. unfold is_word in *. apply Z.mod_divide in Ha as [q ->]; [|done]. lia.
Qed.
Lemma word_at_inj b c i j : buf_aligned b -> buf_aligned c -> 0 <= i < 128 -> 0 <= j < 128 -> word_at b i = word_at c j -> b = c /\ i = j.
Proof.
  intros Hb Hc Hi Hj. rewrite !word_at_flat by done. destruct Hb as [_ Hb], Hc as [_ Hc].
  apply Z.mod_divide in Hb as [p ->]; [|done]. apply Z.mod_divide in Hc as [q ->]; [|done]. lia.
Qed.

(** The words from [i] on arrive; no other word changes. *)
Lemma take_words_lookup sb rb n i W : buf_aligned sb -> buf_aligned rb -> 0 <= i -> i + Z.of_nat n < 127 ->
  (forall j, i <= j < i + Z.of_nat n -> take_words sb rb i n W !! word_at rb (j + 1) = Some (default 0 (W !! word_at sb (j + 1)))) /\
  (forall a, (forall j, i <= j < i + Z.of_nat n -> a <> word_at rb (j + 1)) -> take_words sb rb i n W !! a = W !! a).
Proof.
  intros Hsb Hrb. revert i W. induction n as [|n IH]; intros i W Hi Hn; [split; [lia | done] |]. cbn [take_words].
  destruct (IH (i + 1) (<[word_at rb (i + 1) := default 0 (W !! word_at sb (i + 1))]> W)) as [IH1 IH2]; [lia.. |]. split.
  - intros j Hj. destruct (decide (j = i)) as [->|].
    + rewrite IH2; [by rewrite lookup_insert_eq |]. intros j Hj' E. apply word_at_inj in E as [_ E]; [lia | done | done | lia | lia].
    + rewrite IH1 by lia. f_equal. destruct (decide (word_at rb (i + 1) = word_at sb (j + 1))) as [E|E]; [|by rewrite lookup_insert_ne].
      apply word_at_inj in E as [_ E]; [lia | done | done | lia | lia].
  - intros a Ha. rewrite IH2; [|intros j Hj; apply Ha; lia]. rewrite lookup_insert_ne; [done |]. apply not_eq_sym, Ha. lia.
Qed.

(** ** The whole transfer *)

Definition ipc_buffer (k : kstate) (isReceiver : bool) (t : Z) : Z :=
  match k_tcb k !! t, k_cte k !! TCB_PTR_CTE_PTR t tcbBuffer with
  | Some x, Some e =>
      match cte_cap e with
      | cap_frame_cap _ basePtr size _ vm_rights false =>
          if bool_decide (vm_rights = VMReadWrite) || (negb isReceiver && bool_decide (vm_rights = VMReadOnly))
          then w64 (basePtr + Z.land (tcbIPCBuffer x) (MASK (pageBitsForSize size))) else 0
      | _ => 0
      end
  | _, _ => 0
  end.

Definition msg_tag (k : kstate) (s : Z) : seL4_MessageInfo_t := messageInfoFromWord (reg k s msgInfoRegister).
(** Word [i] of a message: in a register, or in the buffer. *)
Definition msg_word (k : kstate) (t buffer i : Z) : Z :=
  if i <? n_msgRegisters then reg k t (List.nth (Z.to_nat i) msgRegisters 0) else default 0 (k_word k !! word_at buffer (i + 1)).
(** The words that tell of a fault: the state of the thread, and what was wrong. *)
Definition lookup_words (luf : lookup_fault_t) : list Z :=
  (lookup_fault_get_lufType luf + 1) ::
  match luf with
  | lookup_fault_invalid_root => []
  | lookup_fault_missing_capability bitsLeft => [bitsLeft]
  | lookup_fault_depth_mismatch bitsFound bitsLeft => [bitsLeft; bitsFound]
  | lookup_fault_guard_mismatch guardFound bitsLeft bitsFound => [bitsLeft; guardFound; bitsFound]
  end.
Definition fault_words (y : tcb_t) : list Z :=
  let r i := default 0 (tcbRegs y !! i) in
  match tcbFault y with
  | seL4_Fault_NullFault => []
  | seL4_Fault_CapFault address inReceivePhase => r FaultInstruction :: address :: b2w inReceivePhase :: lookup_words (tcbLookupFailure y)
  | seL4_Fault_UnknownSyscall n => map r (fault_messages MessageID_Syscall) ++ [n]
  | seL4_Fault_UserException n code => map r (fault_messages MessageID_Exception) ++ [n; code]
  | seL4_Fault_VMFault address FSR inst => [r FaultInstruction; address; b2w inst; FSR]
  end.
Definition thread_fault (k : kstate) (s : Z) : seL4_Fault_t := from_option tcbFault seL4_Fault_NullFault (k_tcb k !! s).

(** What [s] has to say: the message it wrote, or the message about its fault. *)
Definition out_label (k : kstate) (s : Z) : Z :=
  if bool_decide (thread_fault k s = seL4_Fault_NullFault) then mi_label (msg_tag k s) else seL4_Fault_get_seL4_FaultType (thread_fault k s).
Definition out_word (k : kstate) (s i : Z) : Z :=
  if bool_decide (thread_fault k s = seL4_Fault_NullFault) then msg_word k s (ipc_buffer k false s) i
  else List.nth (Z.to_nat i) (from_option fault_words [] (k_tcb k !! s)) 0.
(** Words that are sent: without the buffers that it takes, those in registers. *)
Definition msg_sent (k : kstate) (s t : Z) : Z :=
  if bool_decide (thread_fault k s = seL4_Fault_NullFault) then
    let n := mi_length (msg_tag k s) in
    if (ipc_buffer k true t =? 0) || (ipc_buffer k false s =? 0) then Z.min n n_msgRegisters else n
  else
    let n := Z.of_nat (length (from_option fault_words [] (k_tcb k !! s))) in
    if ipc_buffer k true t =? 0 then Z.min n n_msgRegisters else n.

(** The message of [s] in [k] is what [t] has in [k'], if the buffers are aligned as
    the kernel requires when a thread's buffer is set. *)
Definition aligned (k : kstate) (s t : Z) : Prop := buf_aligned (ipc_buffer k false s) /\ buf_aligned (ipc_buffer k true t).
Record message (k : kstate) (s t badge : Z) (k' : kstate) : Prop := {
  tr_words : aligned k s t -> forall i, 0 <= i < msg_sent k s t -> msg_word k' t (ipc_buffer k true t) i = out_word k s i;
  tr_badge : reg k' t badgeRegister = badge;
  tr_info : msg_tag k' t = mkMI (out_label k s) 0 0 (msg_sent k s t);
  tr_regs : forall r, r ∉ badgeRegister :: msgInfoRegister :: msgRegisters -> reg k' t r = reg k t r;
  tr_mem : aligned k s t -> forall a, (forall j, n_msgRegisters <= j < msg_sent k s t -> a <> word_at (ipc_buffer k true t) (j + 1)) -> k_word k' !! a = k_word k !! a }.
Definition transferred (k : kstate) (s t badge : Z) (k' : kstate) : Prop :=
  message k s t badge k' /\ exists x R W ec, k_tcb k !! t = Some x /\ k' = with_msg k t x R W ec.

(** A thread whose IPC buffer the kernel can look up. *)
Definition buffer_slot (k : kstate) (t : Z) : Prop :=
  is_Some (k_cte k !! TCB_PTR_CTE_PTR t tcbBuffer) /\ TCB_PTR_CTE_PTR t tcbBuffer <> 0.

Lemma wp_cte_look k p e (P : cte_t -> kstate -> Prop) F : k_cte k !! p = Some e -> p <> 0 -> P e k -> wp (cte_get p) P F k.
Proof. intros He H0 HP. unfold wp, cte_get. by rewrite (proj2 (Z.eqb_neq p 0) H0), He. Qed.

Lemma lookupIPCBuffer_ok k isReceiver t (P : Z -> kstate -> Prop) F : is_Some (k_tcb k !! t) -> t <> 0 -> buffer_slot k t ->
  P (ipc_buffer k isReceiver t) k -> wp (lookupIPCBuffer isReceiver t) P F k.
Proof.
  intros [x Hx] H0 [[e He] H1] HP. unfold lookupIPCBuffer, ipc_buffer in *. rewrite Hx, He in HP. wp_step.
  eapply wp_tcb_get; [exact Hx | done |]. cbv zeta. wp_step. eapply wp_cte_look; [exact He | done |].
  destruct (cte_cap e); try by wp_step. match goal with |- wp (if ?dev then _ else _) _ _ _ => destruct dev end; [by wp_step |].
  match goal with |- wp (if ?b then _ else _) _ _ _ => destruct b end; by wp_step.
Qed.

(** Setting the first capability to send to none. *)
Lemma caps_none_ok k t x s y R W ec grant sb tag (P : list Z -> kstate -> Prop) F : k_tcb k !! s = Some y -> k_tcb k !! t = Some x ->
  (grant = true -> mi_extraCaps tag = 0 /\ ec <> []) ->
  (forall caps ec', default 0 (caps !! 0%nat) = 0 -> P caps (with_msg k t x R W ec')) ->
  wp (if grant then
        let* status := lookupExtraCaps s sb tag in
        let* caps := gets current_extra_caps in
        ret (if negb (bool_decide (status = EXCEPTION_NONE)) then <[0%nat := 0]> caps else caps)
      else let* caps := gets current_extra_caps in ret (<[0%nat := 0]> caps)) P F (with_msg k t x R W ec).
Proof.
  intros Hs Ht Hg HP. destruct grant; [|do 3 wp_step; apply HP; simpl; by destruct ec]. destruct (Hg eq_refl) as [Ee Hne]. destruct ec as [|c ec]; [done |].
  assert (wp (lookupExtraCaps s sb tag) (fun st k' => st = EXCEPTION_NONE /\ k' = with_msg k t x R W (0 :: ec)) F (with_msg k t x R W (c :: ec))) as Hl.
  { assert (wp (set_extra_cap 0 0) (fun _ k' => k' = with_msg k t x R W (0 :: ec)) F (with_msg k t x R W (c :: ec))) as Hset.
    { unfold wp, set_extra_cap, bind, gets. simpl. done. }
    unfold lookupExtraCaps. destruct (sb =? 0); [wp_step; eapply wp_mono; [exact Hset | | done]; intros ? k' ->; by wp_step |].
    cbv zeta. rewrite Ee. change (Z.to_nat 0) with 0%nat. cbn [lookupExtraCaps_loop]. do 2 wp_step. rewrite bool_decide_true by done. cbn [negb]. wp_step. change (0 <? seL4_MsgMaxExtraCaps) with true. eapply wp_mono; [exact Hset | | done]. intros ? k' ->. by wp_step. }
  wp_step. eapply wp_mono; [exact Hl | | done]. intros st k' [-> ->]. do 3 wp_step. by apply HP.
Qed.

Definition sent_words (sb rb n : Z) (W : gmap Z Z) : gmap Z Z :=
  if (rb =? 0) || (sb =? 0) then W else take_words sb rb (Z.min n n_msgRegisters) (Z.to_nat (n - Z.min n n_msgRegisters)) W.
Definition sent_count (sb rb n : Z) : Z := if (rb =? 0) || (sb =? 0) then Z.min n n_msgRegisters else n.

Lemma copyMRs_ok k s t y x sb rb n R W ec (P : Z -> kstate -> Prop) F : k_tcb k !! s = Some y -> s <> 0 -> t <> 0 -> s <> t ->
  P (sent_count sb rb n) (with_msg k t x (take_regs (tcbRegs y) R (take (Z.to_nat (Z.min n n_msgRegisters)) msgRegisters)) (sent_words sb rb n W) ec) ->
  wp (copyMRs s sb t rb n) P F (with_msg k t x R W ec).
Proof.
  intros Hs Hs0 Ht0 Hst HP. unfold copyMRs, sent_words, sent_count in *. cbv zeta. wp_step. apply (inline_ok k s t y); try done; [unfold n_msgRegisters; lia |].
  destruct ((rb =? 0) || (sb =? 0)); [by wp_step |]. wp_step. apply buffer_ok. by wp_step.
Qed.

Lemma wp_at {A} k' k (m : M kstate A) P F : k' = k -> wp m P F k' -> wp m P F k.
Proof. by intros ->. Qed.

Lemma doNormalTransfer_ok k s t y x sb rb ep badge grant : k_tcb k !! s = Some y -> k_tcb k !! t = Some x -> s <> 0 -> t <> 0 -> s <> t ->
  (grant = true -> mi_extraCaps (msg_tag k s) = 0 /\ current_extra_caps k <> []) ->
  wp (doNormalTransfer s sb ep badge grant t rb) (fun _ k' => exists ec,
    let tag := msg_tag k s in
    let n := mi_length tag in
    let R := take_regs (tcbRegs y) (tcbRegs x) (take (Z.to_nat (Z.min n n_msgRegisters)) msgRegisters) in
    let info := wordFromMessageInfo (mkMI (mi_label tag) 0 0 (Z.land (sent_count sb rb n) (MASK 7))) in
    k' = with_msg k t x (<[badgeRegister := badge]> (<[msgInfoRegister := info]> R)) (sent_words sb rb n (k_word k)) ec) (fun _ => False) k.
Proof.
  intros Hs Ht Hs0 Ht0 Hst Hg. apply (wp_at (with_msg k t x (tcbRegs x) (k_word k) (current_extra_caps k))); [by apply with_msg_self |]. unfold doNormalTransfer. wp_step. apply (wp_msg_getreg k s t y); [done.. |]. cbv zeta.
  assert (messageInfoFromWord (default 0 (tcbRegs y !! msgInfoRegister)) = msg_tag k s) as -> by (unfold msg_tag, reg; by rewrite Hs).
  wp_step. apply (caps_none_ok k t x s y); [done.. |]. intros caps ec Hcaps. wp_step. apply (copyMRs_ok k s t y x); [done.. |]. wp_step.
  unfold transferCaps. rewrite Hcaps. cbn [orb Z.eqb]. do 2 wp_step. apply wp_msg_setreg; [done |]. apply wp_msg_setreg; [done |]. by exists ec.
Qed.

Lemma reg_with_msg k t x R W ec r : reg (with_msg k t x R W ec) t r = default 0 (R !! r).
Proof. unfold reg, with_msg. simpl. by rewrite lookup_insert_eq. Qed.
Lemma word_with_msg k t x R W ec : k_word (with_msg k t x R W ec) = W.
Proof. done. Qed.
Lemma reg_of k t x r : k_tcb k !! t = Some x -> reg k t r = default 0 (tcbRegs x !! r).
Proof. intros E. unfold reg. by rewrite E. Qed.

Lemma msg_tag_ok k s : mi_ok (msg_tag k s).
Proof. apply messageInfoFromWord_ok. Qed.

Lemma sent_words_lookup sb rb n W : buf_aligned sb -> buf_aligned rb -> 0 <= n <= seL4_MsgMaxLength ->
  (forall j, n_msgRegisters <= j < sent_count sb rb n -> sent_words sb rb n W !! word_at rb (j + 1) = Some (default 0 (W !! word_at sb (j + 1)))) /\
  (forall a, (forall j, n_msgRegisters <= j < sent_count sb rb n -> a <> word_at rb (j + 1)) -> sent_words sb rb n W !! a = W !! a).
Proof.
  intros Hsb Hrb Hn. unfold sent_words, sent_count, n_msgRegisters, seL4_MsgMaxLength in *. destruct ((rb =? 0) || (sb =? 0)); [split; [lia | done] |].
  destruct (take_words_lookup sb rb (Z.to_nat (n - Z.min n 4)) (Z.min n 4) W Hsb Hrb) as [H1 H2]; [lia.. |]. split.
  - intros j Hj. apply H1. lia.
  - intros a Ha. apply H2. intros j Hj. apply Ha. lia.
Qed.

Lemma sent_bound sb rb k s : let n := sent_count sb rb (mi_length (msg_tag k s)) in 0 <= n <= seL4_MsgMaxLength /\ Z.land n (MASK 7) = n.
Proof.
  intros n. destruct (msg_tag_ok k s) as (_ & _ & _ & Hn). assert (0 <= n <= seL4_MsgMaxLength) as Hb.
  { unfold n, sent_count, n_msgRegisters, seL4_MsgMaxLength in *. destruct ((rb =? 0) || (sb =? 0)); lia. }
  split; [done |]. rewrite land_mask by lia. unfold seL4_MsgMaxLength in Hb. apply Z.mod_small. lia.
Qed.

Lemma msg_register n i : 0 <= i < Z.min n n_msgRegisters ->
  List.nth (Z.to_nat i) msgRegisters 0 ∈ take (Z.to_nat (Z.min n n_msgRegisters)) msgRegisters.
Proof.
  unfold n_msgRegisters. intros Hi. assert (i = 0 \/ i = 1 \/ i = 2 \/ i = 3) as [-> | [-> | [-> | ->]]] by lia; simpl.
  all: assert (Z.min n 4 = 1 \/ Z.min n 4 = 2 \/ Z.min n 4 = 3 \/ Z.min n 4 = 4) as [E | [E | [E | E]]] by lia; rewrite E in *; try lia; simpl; set_solver.
Qed.

Lemma msg_register_other r : r ∈ msgRegisters -> r <> badgeRegister /\ r <> msgInfoRegister.
Proof. unfold msgRegisters. intros Hr. repeat (apply list.elem_of_cons in Hr as [-> | Hr]; [done |]). by apply not_elem_of_nil in Hr. Qed.

Lemma normal_message_ok k s t y x ep badge grant : k_tcb k !! s = Some y -> k_tcb k !! t = Some x -> s <> 0 -> t <> 0 -> s <> t ->
  tcbFault y = seL4_Fault_NullFault -> buffer_slot k s -> buffer_slot k t ->
  (grant = true -> mi_extraCaps (msg_tag k s) = 0 /\ current_extra_caps k <> []) ->
  wp (doIPCTransfer s ep badge grant t) (fun _ k' => transferred k s t badge k') (fun _ => False) k.
Proof.
  intros Hs Ht Hs0 Ht0 Hst Hf Bs Bt Hg. unfold doIPCTransfer. wp_step. apply lookupIPCBuffer_ok; [eauto | done | done |]. wp_step.
  eapply wp_tcb_get; [exact Hs | done |]. rewrite bool_decide_true by done. wp_step. apply lookupIPCBuffer_ok; [eauto | done | done |].
  eapply wp_mono; [by apply (doNormalTransfer_ok k s t y x) | | done]. intros ? k' (ec & ->).
  set (sb := ipc_buffer k false s) in *. set (rb := ipc_buffer k true t) in *. destruct (sent_bound sb rb k s) as [Hb ->].
  assert (thread_fault k s = seL4_Fault_NullFault) as Ef by (unfold thread_fault; by rewrite Hs).
  assert (msg_sent k s t = sent_count sb rb (mi_length (msg_tag k s))) as En by (unfold msg_sent; by rewrite Ef). destruct (msg_tag_ok k s) as (Hl & _ & _ & Hn).
  split; [split | by eexists x, _, _, ec].
  - rewrite En. intros [As At] i Hi. destruct (sent_words_lookup sb rb _ (k_word k) As At Hn) as [W1 _]. unfold out_word. rewrite Ef. cbn [bool_decide]. unfold msg_word. destruct (i <? n_msgRegisters) eqn:Ei; [apply Z.ltb_lt in Ei | apply Z.ltb_ge in Ei].
    + assert (0 <= i < Z.min (mi_length (msg_tag k s)) n_msgRegisters) as Hi'.
      { unfold sent_count in Hi. destruct ((rb =? 0) || (sb =? 0)); lia. }
      pose proof (msg_register _ _ Hi') as Hr. rewrite reg_with_msg, (reg_of k s y) by done. set (r := List.nth _ _ _) in *.
      assert (r <> badgeRegister /\ r <> msgInfoRegister) as [N1 N2].
      { assert (r ∈ msgRegisters) as Hm by exact (subseteq_take _ _ _ Hr).
        by apply msg_register_other. }
      rewrite !lookup_insert_ne, take_regs_lookup, decide_True by done. done.
    + simpl. rewrite W1 by lia. done.
  - by rewrite reg_with_msg, lookup_insert_eq.
  - unfold msg_tag at 1. rewrite reg_with_msg, lookup_insert_ne, lookup_insert_eq by done. rewrite En. unfold out_label. rewrite Ef. apply messageInfo_back. unfold mi_ok. simpl. lia.
  - intros r Hr. rewrite reg_with_msg, (reg_of k t x) by done. apply not_elem_of_cons in Hr as [N1 Hr]. apply not_elem_of_cons in Hr as [N2 Hr].
    rewrite !lookup_insert_ne, take_regs_lookup, decide_False; [done | | done | done]. intros H. apply Hr. exact (subseteq_take _ _ _ H).
  - rewrite En. intros [As At] b Hb2. simpl. destruct (sent_words_lookup sb rb _ (k_word k) As At Hn) as [_ W2]. by apply W2.
Qed.

(** ** The message about a fault *)

(** Word [i] of the message put in its place, or dropped without a buffer. *)
Definition put_mr (rb i v : Z) (RW : gmap Z Z * gmap Z Z) : gmap Z Z * gmap Z Z :=
  if i <? n_msgRegisters then (<[List.nth (Z.to_nat i) msgRegisters 0 := v]> RW.1, RW.2)
  else if rb =? 0 then RW else (RW.1, <[word_at rb (i + 1) := v]> RW.2).
Fixpoint put_words (rb i : Z) (l : list Z) (RW : gmap Z Z * gmap Z Z) : gmap Z Z * gmap Z Z :=
  match l with [] => RW | v :: l => put_words rb (i + 1) l (put_mr rb i v RW) end.

Lemma nth_msgRegisters i j : 0 <= i < 4 -> 0 <= j < 4 -> List.nth (Z.to_nat i) msgRegisters 0 = List.nth (Z.to_nat j) msgRegisters 0 -> i = j.
Proof.
  intros Hi Hj. assert (i = 0 \/ i = 1 \/ i = 2 \/ i = 3) as [-> | [-> | [-> | ->]]] by lia;
    assert (j = 0 \/ j = 1 \/ j = 2 \/ j = 3) as [-> | [-> | [-> | ->]]] by lia; done.
Qed.
Lemma nth_msgRegister i : 0 <= i < 4 -> List.nth (Z.to_nat i) msgRegisters 0 ∈ msgRegisters.
Proof. intros Hi. assert (i = 0 \/ i = 1 \/ i = 2 \/ i = 3) as [-> | [-> | [-> | ->]]] by lia; unfold msgRegisters; simpl; set_solver. Qed.

(** Registers and words that keep their contents. *)
Lemma put_words_regs rb i l RW r : 0 <= i -> (forall j, i <= j < 4 -> r <> List.nth (Z.to_nat j) msgRegisters 0) ->
  (put_words rb i l RW).1 !! r = RW.1 !! r.
Proof.
  revert i RW. induction l as [|v l IH]; intros i RW Hi Hr; simpl; [done |]. rewrite IH; [|lia | intros j Hj; apply Hr; lia].
  unfold put_mr, n_msgRegisters. destruct (Z.ltb_spec i 4); [|by destruct (rb =? 0)]. simpl. rewrite lookup_insert_ne; [done |].
  apply not_eq_sym, Hr. lia.
Qed.
Lemma put_words_mem rb i l RW a : 0 <= i -> (forall j, Z.max 4 i <= j < i + Z.of_nat (length l) -> rb <> 0 -> a <> word_at rb (j + 1)) ->
  (put_words rb i l RW).2 !! a = RW.2 !! a.
Proof.
  revert i RW. induction l as [|v l IH]; intros i RW Hi Ha; simpl in *; [done |]. rewrite IH; [|lia | intros j Hj; apply Ha; lia].
  unfold put_mr, n_msgRegisters. destruct (Z.ltb_spec i 4); [done |]. destruct (Z.eqb_spec rb 0); [done |]. simpl. rewrite lookup_insert_ne; [done |].
  apply not_eq_sym, Ha; [lia | done].
Qed.
(** The words arrive. *)
Lemma put_words_at rb i l RW j : 0 <= i -> i + Z.of_nat (length l) < 127 -> i <= j < i + Z.of_nat (length l) ->
  (j < 4 -> (put_words rb i l RW).1 !! List.nth (Z.to_nat j) msgRegisters 0 = Some (List.nth (Z.to_nat (j - i)) l 0)) /\
  (4 <= j -> rb <> 0 -> buf_aligned rb -> (put_words rb i l RW).2 !! word_at rb (j + 1) = Some (List.nth (Z.to_nat (j - i)) l 0)).
Proof.
  revert i RW. induction l as [|v l IH]; intros i RW Hi Hl Hj; simpl in *; [lia |]. destruct (decide (j = i)) as [->|Hne].
  - rewrite Z.sub_diag. simpl. split.
    + intros H4. rewrite put_words_regs; [|lia | intros j' Hj' E; apply nth_msgRegisters in E; lia].
      unfold put_mr, n_msgRegisters. rewrite (proj2 (Z.ltb_lt i 4)) by lia. apply lookup_insert_eq.
    + intros H4 Hrb Hal. rewrite put_words_mem; [|lia | intros j' Hj' _ E; apply word_at_inj in E as [_ E]; (done || lia)].
      unfold put_mr, n_msgRegisters. rewrite (proj2 (Z.ltb_ge i 4)), (proj2 (Z.eqb_neq rb 0)) by (done || lia). apply lookup_insert_eq.
  - replace (Z.to_nat (j - i)) with (S (Z.to_nat (j - (i + 1)))) by lia. apply IH; lia.
Qed.

(** What the fault transfer does to the state of the receiver. *)
Section FaultTransfer.
Variables (k : kstate) (s t : Z) (y x : tcb_t) (ec : list Z).
Hypothesis (Hs : k_tcb k !! s = Some y) (Ht0 : t <> 0) (Hs0 : s <> 0) (Hst : s <> t).
Definition msg_state (RW : gmap Z Z * gmap Z Z) : kstate := with_msg k t x RW.1 RW.2 ec.

Lemma setMR_ok rb i v RW (P : Z -> kstate -> Prop) F : 0 <= i ->
  P (if (n_msgRegisters <=? i) && (rb =? 0) then n_msgRegisters else i + 1) (msg_state (put_mr rb i v RW)) -> wp (setMR t rb i v) P F (msg_state RW).
Proof using Ht0.
  intros Hi. unfold setMR, put_mr, n_msgRegisters. rewrite Z.geb_leb. destruct (Z.leb_spec 4 i); cbn [andb].
  - rewrite (proj2 (Z.ltb_ge i 4)) by lia. destruct (rb =? 0); cbn [negb]; intros HP; [by wp_step |]. wp_step. apply wp_msg_wset. by wp_step.
  - rewrite (proj2 (Z.ltb_lt i 4)) by lia. intros HP. wp_step. eapply wp_reg_at.
    { instantiate (1 := List.nth (Z.to_nat i) msgRegisters 0). assert (i = 0 \/ i = 1 \/ i = 2 \/ i = 3) as [-> | [-> | [-> | ->]]] by lia; done. }
    wp_step. apply wp_msg_setreg; [done |]. by wp_step.
Qed.
Lemma wp_sender RW (P : tcb_t -> kstate -> Prop) F : P y (msg_state RW) -> wp (tcb_get s) P F (msg_state RW).
Proof using Hs Hs0 Hst. intros HP. eapply wp_tcb_get; [simpl; rewrite lookup_insert_ne by done; exact Hs | done | done]. Qed.
Lemma wp_sender_reg RW r (P : Z -> kstate -> Prop) F : P (default 0 (tcbRegs y !! r)) (msg_state RW) -> wp (getRegister s r) P F (msg_state RW).
Proof using Hs Hs0 Hst. apply (wp_msg_getreg k s t y x); done. Qed.

Lemma msg_setreg RW r v (P : unit -> kstate -> Prop) F : P tt (msg_state (<[r := v]> RW.1, RW.2)) -> wp (setRegister t r v) P F (msg_state RW).
Proof using Ht0. by apply wp_msg_setreg. Qed.
Lemma msg_wset RW a v (P : unit -> kstate -> Prop) F : P tt (msg_state (RW.1, <[a := v]> RW.2)) -> wp (word_set a v) P F (msg_state RW).
Proof using Type. apply wp_msg_wset. Qed.

(** The steps of a message of known shape. *)
Ltac fault_steps := repeat first
  [ apply setMR_ok; [lia |] | apply wp_sender_reg | eapply wp_reg_at; [reflexivity |]
  | apply msg_setreg | apply msg_wset | wp_step ].

Definition fault_count (rb : Z) : Z := let n := Z.of_nat (length (fault_words y)) in if rb =? 0 then Z.min n n_msgRegisters else n.

Lemma lookup_words_ok rb luf RW (P : Z -> kstate -> Prop) F :
  P (let n := 3 + Z.of_nat (length (lookup_words luf)) in if rb =? 0 then Z.min n n_msgRegisters else n) (msg_state (put_words rb 3 (lookup_words luf) RW)) ->
  wp (setMRs_lookup_failure t rb luf seL4_CapFault_LookupFailureType) P F (msg_state RW).
Proof using Ht0.
  intros HP. unfold setMRs_lookup_failure, seL4_CapFault_LookupFailureType. destruct luf; cbn [lookup_words put_words length] in HP; fault_steps.
  all: change ((3 =? 3) || (3 =? 1)) with true; cbv iota; fault_steps; destruct (rb =? 0); exact HP.
Qed.

(** The registers of a fault message, in registers and then in the buffer. *)
Definition sender_reg (r : Z) : Z := default 0 (tcbRegs y !! r).
Lemma fault_reg_at id pre r l : fault_messages id = pre ++ r :: l ->
  (if Z.of_nat (length pre) <? 0 then None else fault_messages id !! Z.to_nat (Z.of_nat (length pre))) = Some r.
Proof using Type. intros ->. rewrite (proj2 (Z.ltb_ge _ 0)), Nat2Z.id by lia. by apply list_lookup_middle. Qed.

Lemma fault_inline_ok id rb pre l post RW (P : unit -> kstate -> Prop) F : fault_messages id = pre ++ l ++ post -> (length pre + length l <= 4)%nat ->
  P tt (msg_state (put_words rb (Z.of_nat (length pre)) (map sender_reg l) RW)) ->
  wp (copyMRsFault_inline s t id (Z.of_nat (length pre)) (length l)) P F (msg_state RW).
Proof using Hs Ht0 Hs0 Hst.
  revert pre RW. induction l as [|r l IH]; intros pre RW E Hl HP; cbn [copyMRsFault_inline length] in *; [by wp_step |].
  wp_step. eapply wp_reg_at; [exact (fault_reg_at _ _ _ _ E) |]. wp_step. apply wp_sender_reg. wp_step.
  eapply (wp_reg_at _ _ (List.nth (length pre) msgRegisters 0)).
  { rewrite (proj2 (Z.ltb_ge _ 0)), Nat2Z.id by lia. by do 4 (destruct pre as [|? pre]; [done |]); simpl in Hl; lia. }
  wp_step. apply msg_setreg. assert (Z.of_nat (length pre) + 1 = Z.of_nat (length (pre ++ [r]))) as En by (rewrite length_app; simpl; lia).
  rewrite En. apply IH; [by rewrite <- app_assoc | rewrite length_app; simpl; lia |]. rewrite <- En. simpl in HP. unfold put_mr in HP.
  rewrite (proj2 (Z.ltb_lt _ n_msgRegisters)), Nat2Z.id in HP by (unfold n_msgRegisters; lia). exact HP.
Qed.
Lemma fault_buffer_ok id rb pre l post RW (P : unit -> kstate -> Prop) F : fault_messages id = pre ++ l ++ post -> (4 <= length pre)%nat -> rb <> 0 ->
  P tt (msg_state (put_words rb (Z.of_nat (length pre)) (map sender_reg l) RW)) ->
  wp (copyMRsFault_buffer s rb id (Z.of_nat (length pre)) (length l)) P F (msg_state RW).
Proof using Hs Hs0 Hst.
  revert pre RW. induction l as [|r l IH]; intros pre RW E Hl Hrb HP; cbn [copyMRsFault_buffer length] in *; [by wp_step |].
  wp_step. eapply wp_reg_at; [exact (fault_reg_at _ _ _ _ E) |]. wp_step. apply wp_sender_reg. wp_step. apply msg_wset.
  assert (Z.of_nat (length pre) + 1 = Z.of_nat (length (pre ++ [r]))) as En by (rewrite length_app; simpl; lia).
  rewrite En. apply IH; [by rewrite <- app_assoc | rewrite length_app; simpl; lia | done |]. rewrite <- En. simpl in HP. unfold put_mr in HP.
  rewrite (proj2 (Z.ltb_ge _ n_msgRegisters)), (proj2 (Z.eqb_neq rb 0)) in HP by (done || unfold n_msgRegisters; lia). exact HP.
Qed.
End FaultTransfer.

Lemma put_words_app rb i l l' RW : put_words rb i (l ++ l') RW = put_words rb (i + Z.of_nat (length l)) l' (put_words rb i l RW).
Proof.
  revert i RW. induction l as [|v l IH]; intros i RW; simpl; [f_equal; lia |]. rewrite IH. f_equal. lia.
Qed.
Lemma put_words_none i l RW : 4 <= i -> put_words 0 i l RW = RW.
Proof.
  revert i. induction l as [|v l IH]; intros i Hi; simpl; [done |]. unfold put_mr at 1. rewrite (proj2 (Z.ltb_ge i _)) by (unfold n_msgRegisters; lia). apply IH. lia.
Qed.

Section FaultMessage.
Variables (k : kstate) (s t : Z) (y x : tcb_t) (ec : list Z).
Hypothesis (Hs : k_tcb k !! s = Some y) (Ht0 : t <> 0) (Hs0 : s <> 0) (Hst : s <> t).
#[local] Abbreviation msg_state := (msg_state k t x ec).

Lemma copyMRsFault_ok id rb n RW (P : unit -> kstate -> Prop) F : n = Z.of_nat (length (fault_messages id)) ->
  P tt (msg_state (put_words rb 0 (map (sender_reg y) (fault_messages id)) RW)) -> wp (copyMRsFault s t id n rb) P F (msg_state RW).
Proof using Hs Ht0 Hs0 Hst.
  intros -> HP. unfold copyMRsFault. set (l := fault_messages id) in *. set (n := Z.min _ _).
  assert (l = take 4 l ++ drop 4 l) as El by (symmetry; apply take_drop). assert (length (take 4 l) = Z.to_nat n) as En by (rewrite length_take; unfold n, n_msgRegisters; lia).
  rewrite El, map_app, put_words_app, length_map in HP. wp_step. rewrite <- En.
  apply (fault_inline_ok k s t y x ec Hs Ht0 Hs0 Hst id rb [] (take 4 l) (drop 4 l)); [done | rewrite length_take; cbn [length]; lia |].
  destruct (Z.eqb_spec rb 0) as [->|Hrb]; cbn [negb].
  - wp_step. destruct (decide (4 <= length l)%nat) as [H4|H4]; [|rewrite (drop_ge l 4) in HP by lia; exact HP].
    rewrite (put_words_none _ (map _ (drop 4 l))) in HP; [done |]. rewrite length_take. lia.
  - replace n with (Z.of_nat (length (take 4 l))) by (rewrite En; unfold n, n_msgRegisters; lia).
    destruct (decide (4 <= length l)%nat) as [H4|H4].
    + replace (Z.to_nat (Z.of_nat (length l) - Z.of_nat (length (take 4 l)))) with (length (drop 4 l)) by (rewrite length_take, length_drop; lia).
      apply (fault_buffer_ok k s t y x ec Hs Hs0 Hst id rb (take 4 l) (drop 4 l) []); [by rewrite app_nil_r | rewrite length_take; lia | done |]. exact HP.
    + rewrite (drop_ge l 4) in HP by lia. rewrite (take_ge l 4) in * by lia. rewrite Z.sub_diag. simpl. wp_step. exact HP.
Qed.

Lemma setMRs_fault_ok rb RW (P : Z -> kstate -> Prop) F : tcbFault y <> seL4_Fault_NullFault ->
  P (fault_count y rb) (msg_state (put_words rb 0 (fault_words y) RW)) -> wp (setMRs_fault s t rb) P F (msg_state RW).
Proof using Hs Ht0 Hs0 Hst.
  intros Hf HP. unfold setMRs_fault. wp_step. apply (wp_sender k s t y x ec); [done.. |]. unfold fault_count, fault_words in HP.
  destruct (tcbFault y) eqn:Ey; [done | | | |]; unfold getRestartPC, Arch_setMRs_fault in *.
  - cbn [length] in HP. wp_step. apply (wp_sender_reg k s t y x ec); [done.. |]. do 3 (wp_step; apply setMR_ok; [done | lia |]).
    apply lookup_words_ok; [done |]. replace (3 + Z.of_nat (length (lookup_words (tcbLookupFailure y))))
      with (Z.of_nat (S (S (S (length (lookup_words (tcbLookupFailure y))))))) by lia. exact HP.
  - rewrite put_words_app in HP. wp_step. apply copyMRsFault_ok; [done |]. apply setMR_ok; [done | by unfold n_syscallMessage |]. by destruct (rb =? 0).
  - rewrite put_words_app in HP. wp_step. apply copyMRsFault_ok; [done |]. wp_step. unfold n_exceptionMessage.
    apply setMR_ok; [done | lia |]. apply setMR_ok; [done | lia |]. by destruct (rb =? 0).
  - wp_step. apply (wp_sender_reg k s t y x ec); [done.. |]. do 3 (wp_step; apply setMR_ok; [done | lia |]). apply setMR_ok; [done | lia |].
    by destruct (rb =? 0).
Qed.
End FaultMessage.

Lemma fault_length y : (length (fault_words y) <= 13)%nat.
Proof. unfold fault_words. destruct (tcbFault y); simpl; try lia. destruct (tcbLookupFailure y); simpl; lia. Qed.
Lemma fault_count_bound y rb : 0 <= fault_count y rb <= 13.
Proof. pose proof (fault_length y). unfold fault_count, n_msgRegisters. destruct (rb =? 0); lia. Qed.

Lemma fault_info f n : 0 <= n <= 13 ->
  messageInfoFromWord (wordFromMessageInfo (seL4_MessageInfo_new (seL4_Fault_get_seL4_FaultType f) 0 0 n)) = mkMI (seL4_Fault_get_seL4_FaultType f) 0 0 n.
Proof.
  intros Hn. unfold seL4_MessageInfo_new. rewrite !land_mask by lia. rewrite (Z.mod_small n (2 ^ 7)) by lia.
  replace (seL4_Fault_get_seL4_FaultType f mod 2 ^ 52) with (seL4_Fault_get_seL4_FaultType f) by by destruct f.
  apply messageInfo_back. unfold mi_ok, seL4_MsgMaxLength. simpl. split; [by destruct f | lia].
Qed.
Lemma fault_message_ok k s t y x ep badge grant : k_tcb k !! s = Some y -> k_tcb k !! t = Some x -> s <> 0 -> t <> 0 -> s <> t ->
  tcbFault y <> seL4_Fault_NullFault -> buffer_slot k t ->
  wp (doIPCTransfer s ep badge grant t) (fun _ k' => transferred k s t badge k') (fun _ => False) k.
Proof.
  intros Hs Ht Hs0 Ht0 Hst Hf Bt. unfold doIPCTransfer. wp_step. apply lookupIPCBuffer_ok; [eauto | done | done |]. wp_step.
  eapply wp_tcb_get; [exact Hs | done |]. rewrite bool_decide_false by done. set (rb := ipc_buffer k true t) in *.
  apply (wp_at (msg_state k t x (current_extra_caps k) (tcbRegs x, k_word k))); [by apply with_msg_self |].
  unfold doFaultTransfer. wp_step. apply (setMRs_fault_ok k s t y); [done.. |]. set (RW := put_words _ _ _ _).
  wp_step. apply (wp_sender k s t y x); [done.. |]. cbv zeta. wp_step. apply msg_setreg; [done |]. apply msg_setreg; [done |].
  assert (thread_fault k s = tcbFault y) as Ef by (unfold thread_fault; by rewrite Hs). pose proof (fault_count_bound y rb) as Hn. pose proof (fault_length y) as Hl.
  assert (msg_sent k s t = fault_count y rb) as En by (unfold msg_sent; rewrite Ef, bool_decide_false by done; by rewrite Hs).
  split; [split | by eexists x, _, _, _]; unfold msg_state.
  - rewrite En. intros [_ At] i Hi. assert (i < Z.of_nat (length (fault_words y)) /\ (rb = 0 -> i < 4)) as [Hi1 Hi2].
    { unfold fault_count, n_msgRegisters in Hi. destruct (Z.eqb_spec rb 0); lia. }
    destruct (put_words_at rb 0 (fault_words y) (tcbRegs x, k_word k) i) as [P1 P2]; [lia.. |]. rewrite Z.sub_0_r in P1, P2.
    unfold out_word. rewrite Ef, bool_decide_false, Hs by done. unfold msg_word. destruct (Z.ltb_spec i n_msgRegisters) as [H4|H4]; unfold n_msgRegisters in H4.
    + rewrite reg_with_msg. destruct (msg_register_other _ (nth_msgRegister i ltac:(lia))) as [N1 N2]. cbn [fst snd]. rewrite !lookup_insert_ne by done. unfold RW. by rewrite P1.
    + rewrite word_with_msg. fold rb. cbn [fst snd]. unfold RW. rewrite P2; [done | lia | intros E; specialize (Hi2 E); lia | done].
  - rewrite reg_with_msg. cbn [fst snd]. by rewrite lookup_insert_eq.
  - unfold msg_tag at 1. rewrite reg_with_msg. cbn [fst snd]. rewrite lookup_insert_ne, lookup_insert_eq by done. rewrite En. unfold out_label. rewrite Ef, bool_decide_false by done.
    by apply fault_info.
  - intros r Hr. rewrite reg_with_msg, (reg_of k t x) by done. apply not_elem_of_cons in Hr as [N1 Hr]. apply not_elem_of_cons in Hr as [N2 Hr].
    cbn [fst snd]. rewrite !lookup_insert_ne by done. unfold RW. rewrite put_words_regs; [done | done |]. intros j Hj ->. by apply Hr, nth_msgRegister.
  - rewrite En. intros _ b Hb. rewrite word_with_msg. cbn [fst snd]. unfold RW. rewrite put_words_mem; [done | done |]. intros j Hj Hrb. apply Hb. unfold fault_count, n_msgRegisters.
    rewrite (proj2 (Z.eqb_neq rb 0) Hrb). lia.
Qed.

Lemma doIPCTransfer_ok k s t y x ep badge grant : k_tcb k !! s = Some y -> k_tcb k !! t = Some x -> s <> 0 -> t <> 0 -> s <> t ->
  buffer_slot k s -> buffer_slot k t ->
  (tcbFault y = seL4_Fault_NullFault -> grant = true -> mi_extraCaps (msg_tag k s) = 0 /\ current_extra_caps k <> []) ->
  wp (doIPCTransfer s ep badge grant t) (fun _ k' => transferred k s t badge k') (fun _ => False) k.
Proof.
  intros Hs Ht Hs0 Ht0 Hst Bs Bt Hg. destruct (decide (tcbFault y = seL4_Fault_NullFault)) as [Ef|Ef].
  - apply (normal_message_ok k s t y x); auto.
  - by apply (fault_message_ok k s t y x).
Qed.

(** ** Rendezvous *)

Section Rendezvous.
Context `{C : KConfig}.

Lemma ipc_buffer_data k k' b t : kdata k' = kdata k -> ipc_buffer k' b t = ipc_buffer k b t.
Proof.
  intros E. destruct (kdata_tcb _ _ t E) as (Ex & Ec & _). unfold ipc_buffer. rewrite Ec.
  destruct (k_tcb k' !! t), (k_tcb k !! t); simpl in Ex; try done. unfold tdata in Ex. by injection Ex as _ -> _ _ _ _ _.
Qed.
Lemma reg_data k k' t r : kdata k' = kdata k -> reg k' t r = reg k t r.
Proof.
  intros E. destruct (kdata_tcb _ _ t E) as (Ex & _). unfold reg.
  destruct (k_tcb k' !! t), (k_tcb k !! t); simpl in Ex; try done. unfold tdata in Ex. simpl. by injection Ex as -> _ _ _ _ _ _.
Qed.

Lemma fault_data k k' s : kdata k' = kdata k -> thread_fault k' s = thread_fault k s /\
  from_option fault_words [] (k_tcb k' !! s) = from_option fault_words [] (k_tcb k !! s).
Proof.
  intros E. destruct (kdata_tcb _ _ s E) as (Ex & _). unfold thread_fault.
  destruct (k_tcb k' !! s), (k_tcb k !! s); simpl in Ex; try done. unfold tdata in Ex. injection Ex as Er _ Ef El _ _ _. simpl.
  unfold fault_words. by rewrite Er, Ef, El.
Qed.
Lemma out_data k k' s t : kdata k' = kdata k -> out_label k' s = out_label k s /\ msg_sent k' s t = msg_sent k s t /\ forall i, out_word k' s i = out_word k s i.
Proof.
  intros E. destruct (fault_data k k' s E) as [E1 E2]. destruct (kdata_tcb _ _ t E) as (_ & _ & Ew & _).
  unfold out_label, msg_sent, out_word, msg_word, msg_tag. rewrite E1, E2, !(ipc_buffer_data _ _ _ _ E), !(reg_data _ _ _ _ E), Ew.
  split; [done |]. split; [done |]. intros i. by rewrite !(reg_data _ _ _ _ E).
Qed.
Lemma message_from k k0 s t badge k' : kdata k = kdata k0 -> message k s t badge k' -> message k0 s t badge k'.
Proof.
  intros E [M1 M2 M3 M4 M5]. destruct (kdata_tcb _ _ t E) as (_ & _ & Ew & _). destruct (out_data k0 k s t E) as (E1 & E2 & E3).
  unfold aligned in *. rewrite E1, E2, ?(ipc_buffer_data _ _ _ _ E), ?Ew in *. split; unfold aligned; try done.
  - intros Ha i Hi. rewrite <- E3. by apply M1.
  - intros r Hr. rewrite M4 by done. by apply reg_data.
Qed.
Lemma message_to k s t badge k' k2 : (forall r, reg k2 t r = reg k' t r) -> k_word k2 = k_word k' -> message k s t badge k' -> message k s t badge k2.
Proof.
  intros Er Ew [M1 M2 M3 M4 M5]. split; unfold msg_word, msg_tag in *; rewrite ?Er, ?Ew; try done.
  - intros Ha i Hi. rewrite Er. exact (M1 Ha i Hi).
  - intros r Hr. rewrite Er. by apply M4.
Qed.

Lemma with_msg_store k t x R W ec : k_tcb k !! t = Some x -> istore_of (with_msg k t x R W ec) = istore_of k.
Proof.
  intros Hx. unfold istore_of, with_msg. simpl. f_equal. rewrite fmap_insert. apply insert_id. rewrite lookup_fmap, Hx. by destruct x.
Qed.
Lemma with_msg_sched k t x R W ec : queues k -> k_tcb k !! t = Some x -> same_sched k (with_msg k t x R W ec).
Proof.
  intros HQ Hx. set (k1 := upd_current_extra_caps (fun _ => ec) k). assert (same_sched k k1) as H1 by (by apply same_sched_objs).
  assert (same_sched k1 (upd_k_tcb (insert t (upd_tcbRegs (fun _ => R) x)) k1)) as H2.
  { apply (tcb_upd_same k1 t x); [apply H1 | done | by destruct x | by destruct x]. }
  eapply same_sched_trans; [exact H1 |]. eapply same_sched_trans; [exact H2 |]. apply same_sched_objs; try done. apply H2.
Qed.

Lemma transferred_kipc E Q k s t badge k' : kipc E Q k -> transferred k s t badge k' -> kipc E Q k' /\ istore_of k' = istore_of k.
Proof.
  intros [HS HI] [_ (x & R & W & ec & Hx & ->)]. pose proof (with_msg_store k t x R W ec Hx) as Es. split; [|done].
  split; [|by rewrite Es]. apply (sched_ok_same (strict := True) k); [done |]. apply with_msg_sched; [apply HS | done].
Qed.

(** Only [t] and the candidate of before may enter the ready queues. *)
Record woke_only (t : Z) (k k' : kstate) : Prop := {
  wo_idle : ksIdleThread k' = ksIdleThread k;
  wo_cur : ksCurThread k' = ksCurThread k;
  wo_queued : forall y, y <> t -> y <> ksSchedulerAction k -> queued k' y = queued k y;
  wo_action : ksSchedulerAction k' = t \/ ksSchedulerAction k' = 1 \/ ksSchedulerAction k' = ksSchedulerAction k }.

Lemma switch_only k t : config_ok -> woken k t -> wp (possibleSwitchTo t) (fun _ k' => woke_only t k k') (fun _ => False) k.
Proof.
  intros Hc HW. destruct (b_queues _ (wk_base _ _ HW)) as [Q HQ]. destruct (runnable_bound _ _ _ HQ (wk_run _ _ HW)) as [[x Hx] Hgt].
  unfold possibleSwitchTo. wp_step. wp_step. wp_step. apply (wp_tcb_get t k x); [done | lia |].
  destruct (negb (_ =? tcbDomain x)).
  - eapply wp_mono; [apply enqueue_view; [done | exact (b_queues _ (wk_base _ _ HW)) | eauto] | | done].
    intros ? k2 [[_ Hq2] Hn2]. destruct (noqueues_same _ _ Hn2) as (_ & Ec & Ei & Ea & _). split; [done | done | | auto].
    intros y Hy _. by rewrite Hq2, decide_False.
  - do 2 wp_step. destruct (_ =? SchedulerAction_ResumeCurrentThread) eqn:E0; cbn [negb].
    + unfold set_action. wp_steps. split; auto.
    + wp_step. eapply wp_mono; [apply rescheduleRequired_ok; [done | apply (wk_base _ _ HW) | intros; by apply (wk_cand _ _ HW)] | | done].
      intros ? k1 (HB1 & Hs1 & Ea1 & Ec1 & Ei1 & _ & Hq1).
      eapply wp_mono; [apply enqueue_view; [done | apply HB1 | apply (st_dom _ _ Hs1); eauto] | | done].
      intros ? k2 [[_ Hq2] Hn2]. destruct (noqueues_same _ _ Hn2) as (_ & Ec & Ei & Ea & _). split; [congruence | congruence | | right; left; congruence].
      intros y Hy Hya. rewrite Hq2, decide_False, Hq1, decide_False by tauto. done.
Qed.

(** Waking a thread that is in no queue. *)
Record woke (k : kstate) (t : Z) (k' : kstate) : Prop := {
  wk_now : runnable k' t = true;
  wk_regs : forall u r, reg k' u r = reg k u r;
  wk_words : k_word k' = k_word k;
  wk_cte : k_cte k' = k_cte k;
  wk_threads : forall u, u <> t -> is_tcb (istore_of k') !! u = is_tcb (istore_of k) !! u;
  wk_block : forall u, u <> t -> is_Some (k_tcb k !! u) -> may_block k u -> may_block k' u }.

Lemma wake_thread_ok E Q k t i st : config_ok -> kipc (fun y => E y \/ y = t) Q k -> is_tcb (istore_of k) !! t = Some i ->
  isRunnable_st (it_st i) = false -> it_st i <> ThreadState_IdleThreadState -> isRunnable_st st = true ->
  wp (do* setThreadState t st in possibleSwitchTo t) (fun _ k' => kipc E Q k' /\ woke k t k') (fun _ => False) k.
Proof.
  intros Hc [HS HI] Hi Hr Hid Hst. destruct (blocked_quiet k t i HS Hi Hr Hid) as (H1 & Ht & Hnr & Hq & Hni & Ha).
  destruct (istore_tcb _ _ _ _ eq_refl Hi) as (x & Hx & Ex). pose proof (so_base _ HS) as HB. pose proof (b_queues _ HB) as HQ. wp_step.
  eapply wp_mono; [apply (wp_state_view k t st x); [done | lia |]; by apply setThreadState_runnable | | done]. intros ? k1 [HSS Hv].
  assert (woken k1 t) as HW by (by apply (set_woken (strict := True) k k1 t st)). destruct (state_set_rest _ _ _ _ HSS) as (Ec & Ea & Ed & Ei & _).
  eapply wp_mono; [apply (preserves_wp kview); [apply view_switch | apply wp_conj; [by apply (switch_woken (strict := True)) | eapply wp_mono; [by apply switch_only | intros ? ? H; exact H | done]]] | | done].
  intros ? k2 [[[HS2 Hr2] HO] Hv2]. rewrite Hv in Hv2. pose proof (view_istore _ _ Hv2) as Es. rewrite (proj2 (istore_upd k t _ (it_set_st st i))) in Es by by rewrite <- Ex.
  split; [split; [done | rewrite Es; apply inv_set_st; [done | done | by destruct st]] |]. split.
  - done.
  - intros u r. rewrite (view_reg _ _ _ _ Hv2). unfold reg. simpl.
    destruct (decide (u = t)) as [->|]; [rewrite lookup_insert_eq, Hx; by destruct x | by rewrite lookup_insert_ne].
  - unfold kview in Hv2. by injection Hv2 as _ _ _ _ ->.
  - unfold kview in Hv2. by injection Hv2 as _ _ _ -> _.
  - intros u Hu. rewrite Es. simpl. by rewrite lookup_insert_ne.
  - intros u Hu [xu Hxu] [M1 M2 M3]. destruct HQ as [R HR]. destruct (qo_bounds _ _ HR _ _ Hxu) as [Hu1 _]. destruct HO as [O1 O2 O3 O4]. rewrite Ea in *. split.
    + congruence.
    + destruct O4 as [->|[->| ->]]; [done | lia | done].
    + rewrite O3 by done. by rewrite (ss_queued _ _ _ _ HSS).
Qed.

(** The kernel can copy a message from [s] to [t]: the slots of the IPC buffers are
    there, and if the message is not about a fault and capabilities may be sent, it
    has none. *)
Record xfer_ready (k : kstate) (s t : Z) (grant : bool) : Prop := {
  xr_thread : is_Some (k_tcb k !! s);
  xr_send : buffer_slot k s;
  xr_recv : buffer_slot k t;
  xr_caps : thread_fault k s = seL4_Fault_NullFault -> grant = true -> mi_extraCaps (msg_tag k s) = 0 /\ current_extra_caps k <> [] }.

Lemma xfer_ready_data k k' s t grant : kdata k' = kdata k -> xfer_ready k s t grant -> xfer_ready k' s t grant.
Proof.
  intros E [X1 X2 X3 X4]. destruct (kdata_tcb _ _ s E) as (Ex & Ec & _ & Ee).
  split; unfold buffer_slot, msg_tag in *; rewrite ?Ec, ?Ee, ?(ipc_buffer_data _ _ _ _ E), ?(reg_data _ _ _ _ E), ?(proj1 (fault_data _ _ s E)); try done.
  destruct (k_tcb k' !! s), (k_tcb k !! s); simpl in *; try done; destruct X1; done.
Qed.

(** The message handed over to [t], which runs. *)
Record handed (k : kstate) (s t badge : Z) (k' : kstate) : Prop := {
  hd_msg : message k s t badge k';
  hd_run : runnable k' t = true;
  hd_cte : k_cte k' = k_cte k;
  hd_threads : forall u, u <> t -> is_tcb (istore_of k') !! u = is_tcb (istore_of k) !! u;
  hd_block : may_block k s -> may_block k' s }.
Definition recv_grant (k : kstate) (t : Z) : bool := from_option blockingIPCCanGrant false (k_tcb k !! t).

Lemma may_block_same k k' t : same_sched k k' -> may_block k t -> may_block k' t.
Proof. intros [_ Hq _ _ Ea _ Ei _] [M1 M2 M3]. split; rewrite ?Hq; congruence. Qed.

(** A thread taken out of a queue gets the message and runs. *)
Lemma hand_over_ok E Q k s t i ep badge grant (K : bool -> M kstate unit) P : config_ok -> kipc (fun y => E y \/ y = t) Q k ->
  is_tcb (istore_of k) !! t = Some i -> isRunnable_st (it_st i) = false -> it_st i <> ThreadState_IdleThreadState -> s <> t -> xfer_ready k s t grant ->
  (forall k', kipc E Q k' -> handed k s t badge k' -> wp (K (recv_grant k t)) P (fun _ => False) k') ->
  wp (do* doIPCTransfer s ep badge grant t in
      let* d := tcb_get t in
      let replyCanGrant := blockingIPCCanGrant d in
      do* setThreadState t ThreadState_Running in
      do* possibleSwitchTo t in K replyCanGrant) P (fun _ => False) k.
Proof.
  intros Hc Hk Hi Hr Hid Hst [[y Hy] X2 X3 X4] HK. unfold thread_fault in X4. rewrite Hy in X4.
  destruct (istore_tcb _ _ _ _ eq_refl Hi) as (x & Hx & Ex). pose proof Hk as [HS _].
  destruct (kipc_thread _ _ _ s Hk ltac:(eauto)) as [Hs1 _]. destruct (kipc_thread _ _ _ t Hk ltac:(eauto)) as [Ht1 _].
  wp_step. eapply wp_mono; [apply (doIPCTransfer_ok k s t y x); try done; lia | | done]. intros ? k1 Htr.
  destruct (transferred_kipc _ _ _ _ _ _ _ Hk Htr) as [Hk1 Es1]. rewrite <- Es1 in Hi.
  destruct Htr as [Hm (x' & R & W & ec & Hx' & Ek1)]. rewrite Hx in Hx'. injection Hx' as <-.
  assert (k_tcb k1 !! t = Some (upd_tcbRegs (fun _ => R) x)) as Hx1 by (rewrite Ek1; apply lookup_insert_eq).
  wp_step. eapply wp_tcb_get; [exact Hx1 | lia |]. cbv zeta.
  replace (blockingIPCCanGrant (upd_tcbRegs (fun _ => R) x)) with (recv_grant k t) by (unfold recv_grant; rewrite Hx; by destruct x).
  rewrite <- bind_assoc_wp. wp_step. eapply wp_mono; [by apply (wake_thread_ok E Q k1 t i ThreadState_Running) | | done].
  intros ? k2 (Hk2 & Hw). apply HK; [done |]. destruct Hw as [Hr2 Eg Ew Ec Eth Hmb]. split; [by apply (message_to k s t badge k1) | done | | |].
  - rewrite Ec, Ek1. done.
  - intros u Hu. rewrite Eth by done. by rewrite Es1.
  - intros Hb. apply Hmb; [done | rewrite Ek1; simpl; rewrite lookup_insert_ne by done; eauto |]. rewrite Ek1.
    apply (may_block_same k); [|done]. by apply with_msg_sched; [apply HS |].
Qed.
End Rendezvous.
