(* ===== verification/KUntyped.v ===== *)
(** * Untyped memory

    Creating kernel objects: kernel/src/object/untyped.c and [createNewObjects] of
    kernel/src/object/objecttype.c.

    Memory holds objects of one type at a time; the state has a map per type. An
    object created in cleared memory appears in its map with all fields zero
    but those the code sets, and clearing memory takes everything that was there
    out of the maps. *)

From S2P Require Import Prelude KCaps KState KSched KCspace KMdb KMsg KIpc KDelete.

(** kernel/include/config.h and object/untyped.h *)
Definition CONFIG_RETYPE_FAN_OUT_LIMIT : Z := 256.
Definition CONFIG_RESET_CHUNK_BITS : Z := 8.
Definition FREE_INDEX_TO_OFFSET (freeIndex : Z) : Z := w64 (Z.shiftl freeIndex seL4_MinUntypedBits).
Definition GET_FREE_REF (base freeIndex : Z) : Z := w64 (base + FREE_INDEX_TO_OFFSET freeIndex).
Definition GET_FREE_INDEX (base free : Z) : Z := Z.shiftr (w64 (free - base)) seL4_MinUntypedBits.
Definition GET_OFFSET_FREE_PTR (base offset : Z) : Z := w64 (base + offset).
Definition OFFSET_TO_FREE_INDEX (offset : Z) : Z := Z.shiftr offset seL4_MinUntypedBits.
Definition UntypedRetype : Z := 1.

Definition alignUp (baseValue alignment : Z) : Z :=
  Z.land (w64 (baseValue + w64 (BIT alignment - 1))) (lnot64 (MASK alignment)).

(** [getSyscallArg] of api/syscall.h. *)
Definition getSyscallArg (i ipc_buffer : Z) : M kstate Z :=
  if i <? n_msgRegisters then
    let* cur := gets ksCurThread in
    let* r := reg_at msgRegisters i in
    getRegister cur r
  else
    do* assert_ (negb (ipc_buffer =? 0)) in
    word_get (word_at ipc_buffer (i + 1)).

(** [slot_range_t]. *)
Record slot_range_t : Type := mkRange { sr_cnode : Z; sr_offset : Z; sr_length : Z }.

(** [memzero(base, BIT(bits))] and [clearMemory(base, bits)]. *)
Definition in_block (base bits a : Z) : Prop := base <= a < base + 2 ^ bits.
#[global] Instance in_block_dec base bits a : Decision (in_block base bits a).
Proof. unfold in_block. apply _. Defined.
Definition outside {A} (base bits : Z) (m : gmap Z A) : gmap Z A := filter (fun x => ~ in_block base bits x.1) m.
Definition memzero (base bits : Z) : M kstate unit :=
  modify (fun k => upd_k_tcb (outside base bits) (upd_k_cte (outside base bits)
    (upd_k_ep (outside base bits) (upd_k_ntfn (outside base bits) (upd_k_word (outside base bits) k))))).
Definition clear_memory (base bits : Z) : M kstate unit := do* memzero base bits in event (clearMemory base bits).

(** The slots of a new CNode. *)
Fixpoint new_slots (base : Z) (n : nat) (m : gmap Z cte_t) : gmap Z cte_t :=
  match n with
  | O => m
  | S n => <[base := mkCte cap_null_cap nullMDBNode]> (new_slots (w64 (base + cte_size)) n m)
  end.

Section Untyped.
Context `{C : KConfig} `{P : KPlatform}.

Definition new_tcb (dom : Z) : tcb_t :=
  mkTcb {[SPSR_EL1 := PSTATE_USER]} ThreadState_Inactive false 0 0 false false false 0 seL4_Fault_NullFault
    lookup_fault_invalid_root dom 0 0 CONFIG_TIME_SLICE 0 0 0 0 0 0.

Definition createObject (t regionBase userSize : Z) (deviceMemory : bool) : M kstate cap :=
  if t >=? seL4_NonArchObjectTypeCount then of_option AssertFail (Arch_createObject t regionBase userSize deviceMemory)
  else if t =? seL4_TCBObject then
    let tcb := w64 (regionBase + TCB_OFFSET) in
    let* dom := gets ksCurDomain in
    do* modify (upd_k_tcb (insert tcb (new_tcb dom))) in
    do* modify (upd_k_cte (new_slots regionBase (Z.to_nat tcbArchCNodeEntries))) in
    ret (cap_thread_cap tcb)
  else if t =? seL4_EndpointObject then
    do* modify (upd_k_ep (insert regionBase (mkEp EPState_Idle 0 0))) in
    ret (cap_endpoint_cap 0 true true true true regionBase)
  else if t =? seL4_NotificationObject then
    do* modify (upd_k_ntfn (insert regionBase (mkNtfn NtfnState_Idle 0 0 0 0))) in
    ret (cap_notification_cap 0 true true regionBase)
  else if t =? seL4_CapTableObject then
    do* modify (upd_k_cte (new_slots regionBase (Z.to_nat (2 ^ userSize)))) in
    ret (cap_cnode_cap userSize 0 0 regionBase)
  else if t =? seL4_UntypedObject then ret (cap_untyped_cap 0 deviceMemory userSize regionBase)
  else fail AssertFail.

Definition slot_at (cnode i : Z) : Z := w64 (cnode + i * cte_size).

(** The loop of [createNewObjects] from [i], [n] rounds left. *)
Fixpoint create_loop (t parent : Z) (slots : slot_range_t) (nextFreeArea objectSize userSize : Z) (deviceMemory : bool)
    (i : Z) (n : nat) : M kstate unit :=
  match n with
  | O => ret tt
  | S n =>
      let* c := createObject t (w64 (nextFreeArea + w64 (Z.shiftl i objectSize))) userSize deviceMemory in
      do* insertNewCap parent (slot_at (sr_cnode slots) (w64 (sr_offset slots + i))) c in
      create_loop t parent slots nextFreeArea objectSize userSize deviceMemory (i + 1) n
  end.

Definition createNewObjects (t parent : Z) (slots : slot_range_t) (regionBase userSize : Z) (deviceMemory : bool) :
    M kstate unit :=
  let* objectSize := of_option AssertFail (getObjectSize t userSize) in
  create_loop t parent slots regionBase objectSize userSize deviceMemory 0 (Z.to_nat (sr_length slots)).

(** Setting the free index of the untyped capability [c]. *)
Definition untyped_set_free (c : cap) (freeIndex : Z) : M kstate cap :=
  match c with
  | cap_untyped_cap _ dev bits ptr => ret (cap_untyped_cap freeIndex dev bits ptr)
  | _ => fail AssertFail
  end.

(** The body of the loop of [resetUntypedCap], at the [n]th chunk. *)
Definition reset_round (srcSlot : Z) (prev_cap : cap) (regionBase : Z) (n : nat) : M kstate exception_t :=
  let offset := Z.of_nat n * BIT CONFIG_RESET_CHUNK_BITS in
  do* clear_memory (GET_OFFSET_FREE_PTR regionBase offset) CONFIG_RESET_CHUNK_BITS in
  let* c := untyped_set_free prev_cap (OFFSET_TO_FREE_INDEX offset) in
  do* set_cap srcSlot c in
  preemptionPoint.

(** The loop, [n] chunks left; they are cleared from the top. *)
Fixpoint reset_loop (srcSlot : Z) (prev_cap : cap) (regionBase : Z) (n : nat) : M kstate exception_t :=
  match n with
  | O => ret EXCEPTION_NONE
  | S n =>
      let* status := reset_round srcSlot prev_cap regionBase n in
      if negb (bool_decide (status = EXCEPTION_NONE)) then ret status
      else reset_loop srcSlot prev_cap regionBase n
  end.

Definition resetUntypedCap (srcSlot : Z) : M kstate exception_t :=
  let* e := cte_get srcSlot in
  let prev_cap := cte_cap e in
  match prev_cap with
  | cap_untyped_cap freeIndex deviceMemory block_size regionBase =>
      let chunk := CONFIG_RESET_CHUNK_BITS in
      let offset := FREE_INDEX_TO_OFFSET freeIndex in
      if offset =? 0 then ret EXCEPTION_NONE
      else if deviceMemory || (block_size <? chunk) then
        do* (if negb deviceMemory then clear_memory regionBase block_size else ret tt) in
        let* c := untyped_set_free prev_cap 0 in
        do* set_cap srcSlot c in
        ret EXCEPTION_NONE
      else reset_loop srcSlot prev_cap regionBase (S (Z.to_nat (Z.shiftr (offset - 1) chunk)))
  | _ => fail AssertFail
  end.

(** The part of [invokeUntyped_Retype] after the reset. *)
Definition retype_advance (srcSlot regionBase retypeBase newType userSize : Z) (destSlots : slot_range_t) (deviceMemory : bool) :
    M kstate exception_t :=
  let* objectSize := of_option AssertFail (getObjectSize newType userSize) in
  let totalObjectSize := w64 (Z.shiftl (sr_length destSlots) objectSize) in
  let freeRef := w64 (retypeBase + totalObjectSize) in
  let* e := cte_get srcSlot in
  let* c := untyped_set_free (cte_cap e) (GET_FREE_INDEX regionBase freeRef) in
  do* set_cap srcSlot c in
  do* createNewObjects newType srcSlot destSlots retypeBase userSize deviceMemory in
  ret EXCEPTION_NONE.

Definition invokeUntyped_Retype (srcSlot : Z) (reset : bool) (retypeBase newType userSize : Z) (destSlots : slot_range_t)
    (deviceMemory : bool) : M kstate exception_t :=
  let* e := cte_get srcSlot in
  let regionBase := cap_get_capPtr (cte_cap e) in
  let* status := (if reset then resetUntypedCap srcSlot else ret EXCEPTION_NONE) in
  if negb (bool_decide (status = EXCEPTION_NONE)) then ret status
  else retype_advance srcSlot regionBase retypeBase newType userSize destSlots deviceMemory.

(** ** Decoding *)

(** What the checks of [decodeUntypedInvocation] settle for the retype. *)
Record retype_plan : Type := mkPlan {
  rp_reset : bool;
  rp_base : Z;
  rp_type : Z;
  rp_size : Z;
  rp_slots : slot_range_t;
  rp_device : bool }.

(** The loop over the destination slots. *)
Fixpoint ensure_empty_loop (cnode i : Z) (n : nat) : M kstate exception_t :=
  match n with
  | O => ret EXCEPTION_NONE
  | S n =>
      let* status := ensureEmptySlot (slot_at cnode i) in
      if bool_decide (status = EXCEPTION_NONE) then ensure_empty_loop cnode (i + 1) n else ret status
  end.

Definition reject {A} (m : M kstate unit) : M kstate (exception_t + A) := do* m in ret (inl EXCEPTION_SYSCALL_ERROR).

(** The part up to the object's size: what is to be created. *)
Definition check_type (newType userObjSize : Z) : M kstate (exception_t + Z) :=
  if newType >=? seL4_ObjectTypeCount then reject (err_InvalidArgument 0)
  else
    let* objectSize := of_option AssertFail (getObjectSize newType userObjSize) in
    if (userObjSize >=? wordBits) || (objectSize >? seL4_MaxUntypedBits) then reject (err_RangeError 0 seL4_MaxUntypedBits)
    else if (newType =? seL4_CapTableObject) && (userObjSize =? 0) then reject (err_InvalidArgument 1)
    else if (newType =? seL4_UntypedObject) && (userObjSize <? seL4_MinUntypedBits) then reject (err_InvalidArgument 1)
    else ret (inr objectSize).

(** The part about the destination: the CNode and its empty slots. *)
Definition check_dest_window (nodeCap : cap) (nodeDepth nodeOffset nodeWindow : Z) : M kstate (exception_t + slot_range_t) :=
  match nodeCap with
  | cap_cnode_cap radix _ _ ptr =>
      let nodeSize := w64 (Z.shiftl 1 radix) in
      if nodeOffset >? w64 (nodeSize - 1) then reject (err_RangeError 0 (w64 (nodeSize - 1)))
      else if (nodeWindow <? 1) || (nodeWindow >? CONFIG_RETYPE_FAN_OUT_LIMIT) then
        reject (err_RangeError 1 CONFIG_RETYPE_FAN_OUT_LIMIT)
      else if nodeWindow >? w64 (nodeSize - nodeOffset) then reject (err_RangeError 1 (w64 (nodeSize - nodeOffset)))
      else
        let* status := ensure_empty_loop ptr nodeOffset (Z.to_nat nodeWindow) in
        if negb (bool_decide (status = EXCEPTION_NONE)) then ret (inl status)
        else ret (inr (mkRange ptr nodeOffset nodeWindow))
  | _ => reject (do* err_FailedLookup false in set_lookup_fault (lookup_fault_missing_capability nodeDepth))
  end.

Definition check_dest (rootSlot nodeIndex nodeDepth nodeOffset nodeWindow : Z) : M kstate (exception_t + slot_range_t) :=
  let* root := cte_get rootSlot in
  if nodeDepth =? 0 then check_dest_window (cte_cap root) nodeDepth nodeOffset nodeWindow
  else
    let* '(status, lu_slot) := lookupTargetSlot (cte_cap root) nodeIndex nodeDepth in
    if negb (bool_decide (status = EXCEPTION_NONE)) then ret (inl status)
    else let* e := cte_get lu_slot in check_dest_window (cte_cap e) nodeDepth nodeOffset nodeWindow.

(** The part about the memory: where the new objects go. *)
Definition check_memory (slot : Z) (c : cap) (newType userObjSize objectSize : Z) (slots : slot_range_t) :
    M kstate (exception_t + retype_plan) :=
  match c with
  | cap_untyped_cap capFreeIndex deviceMemory block_size ptr =>
      let* status := ensureNoChildren slot in
      let '(freeIndex, reset) := if negb (bool_decide (status = EXCEPTION_NONE)) then (capFreeIndex, false) else (0, true) in
      let freeRef := GET_FREE_REF ptr freeIndex in
      let untypedFreeBytes := w64 (BIT block_size - FREE_INDEX_TO_OFFSET freeIndex) in
      if Z.shiftr untypedFreeBytes objectSize <? sr_length slots then reject (err_NotEnoughMemory untypedFreeBytes)
      else if (deviceMemory && negb (Arch_isFrameType newType)) && negb (newType =? seL4_UntypedObject) then
        reject (err_InvalidArgument 1)
      else ret (inr (mkPlan reset (alignUp freeRef objectSize) newType userObjSize slots deviceMemory))
  | _ => fail AssertFail
  end.

Definition decode_retype (invLabel len slot : Z) (c : cap) (excaps : list Z) (buffer : Z) :
    M kstate (exception_t + retype_plan) :=
  let* rootSlot := of_option OutOfBounds (excaps !! 0%nat) in
  if negb (invLabel =? UntypedRetype) then reject (err_type_only seL4_IllegalOperation)
  else if (len <? 6) || (rootSlot =? 0) then reject (err_type_only seL4_TruncatedMessage)
  else
    let* newType := getSyscallArg 0 buffer in
    let* userObjSize := getSyscallArg 1 buffer in
    let* nodeIndex := getSyscallArg 2 buffer in
    let* nodeDepth := getSyscallArg 3 buffer in
    let* nodeOffset := getSyscallArg 4 buffer in
    let* nodeWindow := getSyscallArg 5 buffer in
    let* r := check_type newType userObjSize in
    match r with
    | inl status => ret (inl status)
    | inr objectSize =>
        let* r := check_dest rootSlot nodeIndex nodeDepth nodeOffset nodeWindow in
        match r with
        | inl status => ret (inl status)
        | inr slots => check_memory slot c newType userObjSize objectSize slots
        end
    end.

Definition decodeUntypedInvocation (invLabel len slot : Z) (c : cap) (excaps : list Z) (call : bool) (buffer : Z) :
    M kstate exception_t :=
  let* r := decode_retype invLabel len slot c excaps buffer in
  match r with
  | inl status => ret status
  | inr p =>
      let* cur := gets ksCurThread in
      do* setThreadState cur ThreadState_Restart in
      invokeUntyped_Retype slot (rp_reset p) (rp_base p) (rp_type p) (rp_size p) (rp_slots p) (rp_device p)
  end.

End Untyped.
