(* ===== verification/KInvoke.v ===== *)
(** * CNode invocations

    Decoding and performing the operations on slots that user level asks for:
    [decodeCNodeInvocation] and the [invokeCNode] functions of
    kernel/src/object/cnode.c. *)

From S2P Require Import Prelude KCaps KState KSched KCspace KMdb KMsg KIpc KDelete KUntyped.

(** Labels, generated from kernel/libsel4/include/interfaces/sel4.xml *)
Definition CNodeRevoke : Z := 16.
Definition CNodeDelete : Z := 17.
Definition CNodeCancelBadgedSends : Z := 18.
Definition CNodeCopy : Z := 19.
Definition CNodeMint : Z := 20.
Definition CNodeMove : Z := 21.
Definition CNodeMutate : Z := 22.
Definition CNodeRotate : Z := 23.
Definition CNodeSaveCaller : Z := 24.

(** [rightsFromWord] of api/types.h. *)
Definition rightsFromWord (w : Z) : seL4_CapRights := mkRights (Z.testbit w 3) (Z.testbit w 2) (Z.testbit w 1) (Z.testbit w 0).

(** An error to report, and how a message gets to the extra capabilities. *)
Definition throw (err : M kstate unit) : M kstate exception_t := do* err in ret EXCEPTION_SYSCALL_ERROR.
Definition excap (excaps : list Z) (i : nat) : M kstate Z := of_option OutOfBounds (excaps !! i).
Definition slot_cap (slot : Z) : M kstate cap := let* e := cte_get slot in ret (cte_cap e).

Section Invoke.
Context `{C : KConfig} `{P : KPlatform}.

Definition set_restart : M kstate unit := let* cur := gets ksCurThread in setThreadState cur ThreadState_Restart.

(** ** What can be asked of a CNode *)
Inductive cnode_call : Type :=
| call_insert (newCap : cap) (srcSlot destSlot : Z)
| call_move (newCap : cap) (srcSlot destSlot : Z)
| call_revoke (destSlot : Z)
| call_delete (destSlot : Z)
| call_saveCaller (destSlot : Z)
| call_cancelBadged (destCap : cap)
| call_rotate (newSrcCap newPivotCap : cap) (srcSlot pivotSlot destSlot : Z).

Definition invokeCNodeRevoke (fuel : nat) (destSlot : Z) : M kstate exception_t := cteRevoke fuel destSlot.
Definition invokeCNodeDelete (fuel : nat) (destSlot : Z) : M kstate exception_t := cteDelete fuel destSlot true.
Definition invokeCNodeCancelBadgedSends (c : cap) : M kstate exception_t :=
  match c with
  | cap_endpoint_cap badge _ _ _ _ ep =>
      do* (if negb (badge =? 0) then cancelBadgedSends ep badge else ret tt) in ret EXCEPTION_NONE
  | _ => fail AssertFail
  end.
Definition invokeCNodeInsert (c : cap) (srcSlot destSlot : Z) : M kstate exception_t :=
  do* cteInsert c srcSlot destSlot in ret EXCEPTION_NONE.
Definition invokeCNodeMove (c : cap) (srcSlot destSlot : Z) : M kstate exception_t :=
  do* cteMove c srcSlot destSlot in ret EXCEPTION_NONE.
Definition invokeCNodeRotate (cap1 cap2 : cap) (slot1 slot2 slot3 : Z) : M kstate exception_t :=
  do* (if slot1 =? slot3 then cteSwap cap1 slot1 cap2 slot2
       else do* cteMove cap2 slot2 slot3 in cteMove cap1 slot1 slot2) in
  ret EXCEPTION_NONE.
Definition invokeCNodeSaveCaller (destSlot : Z) : M kstate exception_t :=
  let* cur := gets ksCurThread in
  let srcSlot := TCB_PTR_CTE_PTR cur tcbCaller in
  let* c := slot_cap srcSlot in
  do* match c with
      | cap_null_cap => ret tt
      | cap_reply_cap _ master _ => if negb master then cteMove c srcSlot destSlot else ret tt
      | _ => fail AssertFail
      end in
  ret EXCEPTION_NONE.

Definition invoke_cnode (fuel : nat) (c : cnode_call) : M kstate exception_t :=
  match c with
  | call_insert newCap srcSlot destSlot => invokeCNodeInsert newCap srcSlot destSlot
  | call_move newCap srcSlot destSlot => invokeCNodeMove newCap srcSlot destSlot
  | call_revoke destSlot => invokeCNodeRevoke fuel destSlot
  | call_delete destSlot => invokeCNodeDelete fuel destSlot
  | call_saveCaller destSlot => invokeCNodeSaveCaller destSlot
  | call_cancelBadged destCap => invokeCNodeCancelBadgedSends destCap
  | call_rotate c1 c2 s1 s2 s3 => invokeCNodeRotate c1 c2 s1 s2 s3
  end.

(** ** Decoding *)

Definition missing_source (wasSource : bool) (depth : Z) : M kstate unit :=
  do* err_FailedLookup wasSource in set_lookup_fault (lookup_fault_missing_capability depth).

(** The switch on the four ways to fill a slot: the new capability, and whether
    the source slot loses its own. *)
Definition decode_new_cap (invLabel len srcSlot : Z) (srcCap : cap) (buffer : Z) : M kstate (exception_t + cap * bool) :=
  if invLabel =? CNodeCopy then
    if len <? 5 then reject (err_type_only seL4_TruncatedMessage)
    else
      let* w := getSyscallArg 4 buffer in
      let* '(status, newCap) := deriveCap srcSlot (maskCapRights (rightsFromWord w) srcCap) in
      if negb (bool_decide (status = EXCEPTION_NONE)) then ret (inl status) else ret (inr (newCap, false))
  else if invLabel =? CNodeMint then
    if len <? 6 then reject (err_type_only seL4_TruncatedMessage)
    else
      let* w := getSyscallArg 4 buffer in
      let* capData := getSyscallArg 5 buffer in
      let* '(status, newCap) := deriveCap srcSlot (updateCapData false capData (maskCapRights (rightsFromWord w) srcCap)) in
      if negb (bool_decide (status = EXCEPTION_NONE)) then ret (inl status) else ret (inr (newCap, false))
  else if invLabel =? CNodeMove then ret (inr (srcCap, true))
  else if invLabel =? CNodeMutate then
    if len <? 5 then reject (err_type_only seL4_TruncatedMessage)
    else let* capData := getSyscallArg 4 buffer in ret (inr (updateCapData true capData srcCap, true))
  else fail AssertFail.

Definition decode_fill (invLabel len destSlot : Z) (excaps : list Z) (buffer : Z) : M kstate (exception_t + cnode_call) :=
  let* rootSlot := excap excaps 0 in
  if (len <? 4) || (rootSlot =? 0) then reject (err_type_only seL4_TruncatedMessage)
  else
    let* srcIndex := getSyscallArg 2 buffer in
    let* srcDepth := getSyscallArg 3 buffer in
    let* srcRoot := slot_cap rootSlot in
    let* status := ensureEmptySlot destSlot in
    if negb (bool_decide (status = EXCEPTION_NONE)) then ret (inl status)
    else
      let* '(status, srcSlot) := lookupSourceSlot srcRoot srcIndex srcDepth in
      if negb (bool_decide (status = EXCEPTION_NONE)) then ret (inl status)
      else
        let* srcCap := slot_cap srcSlot in
        if is_null srcCap then reject (missing_source true srcDepth)
        else
          let* r := decode_new_cap invLabel len srcSlot srcCap buffer in
          match r with
          | inl status => ret (inl status)
          | inr (newCap, isMove) =>
              if is_null newCap then reject (err_type_only seL4_IllegalOperation)
              else ret (inr (if isMove : bool then call_move newCap srcSlot destSlot else call_insert newCap srcSlot destSlot))
          end.

Definition decode_rotate (len destSlot : Z) (excaps : list Z) (buffer : Z) : M kstate (exception_t + cnode_call) :=
  let* pivotRootSlot := excap excaps 0 in
  let* srcRootSlot := excap excaps 1 in
  if (len <? 8) || (pivotRootSlot =? 0) || (srcRootSlot =? 0) then reject (err_type_only seL4_TruncatedMessage)
  else
    let* pivotNewData := getSyscallArg 2 buffer in
    let* pivotIndex := getSyscallArg 3 buffer in
    let* pivotDepth := getSyscallArg 4 buffer in
    let* srcNewData := getSyscallArg 5 buffer in
    let* srcIndex := getSyscallArg 6 buffer in
    let* srcDepth := getSyscallArg 7 buffer in
    let* pivotRoot := slot_cap pivotRootSlot in
    let* srcRoot := slot_cap srcRootSlot in
    let* '(status, srcSlot) := lookupSourceSlot srcRoot srcIndex srcDepth in
    if negb (bool_decide (status = EXCEPTION_NONE)) then ret (inl status)
    else
      let* '(status, pivotSlot) := lookupPivotSlot pivotRoot pivotIndex pivotDepth in
      if negb (bool_decide (status = EXCEPTION_NONE)) then ret (inl status)
      else if (pivotSlot =? srcSlot) || (pivotSlot =? destSlot) then reject (err_type_only seL4_IllegalOperation)
      else
        let* status := (if negb (srcSlot =? destSlot) then ensureEmptySlot destSlot else ret EXCEPTION_NONE) in
        if negb (bool_decide (status = EXCEPTION_NONE)) then ret (inl status)
        else
          let* srcCap := slot_cap srcSlot in
          let* pivotCap := slot_cap pivotSlot in
          if is_null srcCap then reject (missing_source true srcDepth)
          else if is_null pivotCap then reject (missing_source false pivotDepth)
          else
            let newSrcCap := updateCapData true srcNewData srcCap in
            let newPivotCap := updateCapData true pivotNewData pivotCap in
            if is_null newSrcCap then reject (err_type_only seL4_IllegalOperation)
            else if is_null newPivotCap then reject (err_type_only seL4_IllegalOperation)
            else ret (inr (call_rotate newSrcCap newPivotCap srcSlot pivotSlot destSlot)).

Definition decode_cnode (invLabel len : Z) (c : cap) (excaps : list Z) (buffer : Z) : M kstate (exception_t + cnode_call) :=
  do* match c with cap_cnode_cap _ _ _ _ => ret tt | _ => fail AssertFail end in
  if (invLabel <? CNodeRevoke) || (invLabel >? CNodeSaveCaller) then reject (err_type_only seL4_IllegalOperation)
  else if len <? 2 then reject (err_type_only seL4_TruncatedMessage)
  else
    let* index := getSyscallArg 0 buffer in
    let* w_bits := getSyscallArg 1 buffer in
    let* '(status, destSlot) := lookupTargetSlot c index w_bits in
    if negb (bool_decide (status = EXCEPTION_NONE)) then ret (inl status)
    else if (invLabel >=? CNodeCopy) && (invLabel <=? CNodeMutate) then decode_fill invLabel len destSlot excaps buffer
    else if invLabel =? CNodeRevoke then ret (inr (call_revoke destSlot))
    else if invLabel =? CNodeDelete then ret (inr (call_delete destSlot))
    else if invLabel =? CNodeSaveCaller then
      let* status := ensureEmptySlot destSlot in
      if negb (bool_decide (status = EXCEPTION_NONE)) then ret (inl status) else ret (inr (call_saveCaller destSlot))
    else if invLabel =? CNodeCancelBadgedSends then
      let* destCap := slot_cap destSlot in
      if negb (hasCancelSendRights destCap) then reject (err_type_only seL4_IllegalOperation)
      else ret (inr (call_cancelBadged destCap))
    else if invLabel =? CNodeRotate then decode_rotate len destSlot excaps buffer
    else ret (inl EXCEPTION_NONE).

Definition decodeCNodeInvocation (fuel : nat) (invLabel len : Z) (c : cap) (excaps : list Z) (buffer : Z) : M kstate exception_t :=
  let* r := decode_cnode invLabel len c excaps buffer in
  match r with
  | inl status => ret status
  | inr call => do* set_restart in invoke_cnode fuel call
  end.
End Invoke.
