(* ===== verification/KInterrupt.v ===== *)
(** * Interrupts

    Interrupt delivery and the invocations on interrupt capabilities:
    kernel/src/object/interrupt.c, and the decoding that
    kernel/src/arch/arm/object/interrupt.c adds to it. *)

From S2P Require Import Prelude KCaps KState KSched KCspace KMdb KMsg KIpc KDelete KUntyped KInvoke.

(** Labels, generated from the interface files of libsel4. *)
Definition IRQIssueIRQHandler : Z := 25.
Definition IRQAckIRQ : Z := 26.
Definition IRQSetIRQHandler : Z := 27.
Definition IRQClearIRQHandler : Z := 28.
Definition ARMIRQIssueIRQHandlerTrigger : Z := 50.

(** The GIC driver can set the trigger of an interrupt. *)
Definition HAVE_SET_TRIGGER : bool := true.

(** The states of the interrupts; [IRQInactive] is zero. *)
Definition irq_state_of (k : kstate) (irq : Z) : irq_state := default IRQInactive (intStateIRQTable k !! irq).
Definition isIRQActive (irq : Z) : M kstate bool :=
  let* st := gets (fun k => irq_state_of k irq) in ret (negb (bool_decide (st = IRQInactive))).

Section Interrupt.
Context `{C : KConfig} `{P : KPlatform}.

Definition Arch_checkIRQ (irq_w : Z) : M kstate exception_t :=
  if irq_w >? maxIRQ then throw (err_RangeError 0 maxIRQ) else ret EXCEPTION_NONE.

(** ** Control *)

Definition invokeIRQControl (irq handlerSlot controlSlot : Z) : M kstate exception_t :=
  do* setIRQState IRQSignal irq in
  do* cteInsert (cap_irq_handler_cap irq) controlSlot handlerSlot in
  ret EXCEPTION_NONE.

Definition Arch_invokeIRQControl (irq handlerSlot controlSlot : Z) (trigger : bool) : M kstate exception_t :=
  do* (if HAVE_SET_TRIGGER then event (setIRQTrigger irq trigger) else ret tt) in
  invokeIRQControl irq handlerSlot controlSlot.

(** The checks both ways to ask for a handler make: an interrupt that exists and is
    not in use, and an empty slot for the new capability. *)
Definition check_irq_slot (irq_w index depth root : Z) : M kstate (exception_t + Z) :=
  let irq := w16 irq_w in
  let* cnodeCap := slot_cap root in
  let* status := Arch_checkIRQ irq_w in
  if negb (bool_decide (status = EXCEPTION_NONE)) then ret (inl status)
  else
    let* active := isIRQActive irq in
    if active then reject (err_type_only seL4_RevokeFirst)
    else
      let* '(status, destSlot) := lookupTargetSlot cnodeCap index depth in
      if negb (bool_decide (status = EXCEPTION_NONE)) then ret (inl status)
      else
        let* status := ensureEmptySlot destSlot in
        if negb (bool_decide (status = EXCEPTION_NONE)) then ret (inl status) else ret (inr destSlot).

Definition Arch_decodeIRQControlInvocation (invLabel len srcSlot : Z) (excaps : list Z) (buffer : Z) : M kstate exception_t :=
  if invLabel =? ARMIRQIssueIRQHandlerTrigger then
    let* root := excap excaps 0 in
    if (len <? 4) || (root =? 0) then throw (err_type_only seL4_TruncatedMessage)
    else if negb HAVE_SET_TRIGGER then throw (err_type_only seL4_IllegalOperation)
    else
      let* irq_w := getSyscallArg 0 buffer in
      let* trigger := getSyscallArg 1 buffer in
      let* index := getSyscallArg 2 buffer in
      let* depth := getSyscallArg 3 buffer in
      let* r := check_irq_slot irq_w index depth root in
      match r with
      | inl status => ret status
      | inr destSlot =>
          do* set_restart in Arch_invokeIRQControl (w16 irq_w) destSlot srcSlot (negb (trigger =? 0))
      end
  else throw (err_type_only seL4_IllegalOperation).

Definition decodeIRQControlInvocation (invLabel len srcSlot : Z) (excaps : list Z) (buffer : Z) : M kstate exception_t :=
  if invLabel =? IRQIssueIRQHandler then
    let* root := excap excaps 0 in
    if (len <? 3) || (root =? 0) then throw (err_type_only seL4_TruncatedMessage)
    else
      let* irq_w := getSyscallArg 0 buffer in
      let* index := getSyscallArg 1 buffer in
      let* depth := getSyscallArg 2 buffer in
      let* r := check_irq_slot irq_w index depth root in
      match r with
      | inl status => ret status
      | inr destSlot => do* set_restart in invokeIRQControl (w16 irq_w) destSlot srcSlot
      end
  else Arch_decodeIRQControlInvocation invLabel len srcSlot excaps buffer.

(** ** Handlers *)

Definition invokeIRQHandler_AckIRQ (irq : Z) : M kstate unit := event (maskInterrupt false irq).
Definition invokeIRQHandler_SetIRQHandler (irq : Z) (c : cap) (slot : Z) : M kstate unit :=
  let irqSlot := irq_slot irq in
  do* cteDeleteOne irqSlot in cteInsert c slot irqSlot.
Definition invokeIRQHandler_ClearIRQHandler (irq : Z) : M kstate unit := cteDeleteOne (irq_slot irq).

Definition decodeIRQHandlerInvocation (invLabel irq : Z) (excaps : list Z) : M kstate exception_t :=
  if invLabel =? IRQAckIRQ then
    do* set_restart in do* invokeIRQHandler_AckIRQ irq in ret EXCEPTION_NONE
  else if invLabel =? IRQSetIRQHandler then
    let* slot := excap excaps 0 in
    if slot =? 0 then throw (err_type_only seL4_TruncatedMessage)
    else
      let* ntfnCap := slot_cap slot in
      match ntfnCap with
      | cap_notification_cap _ _ true _ =>
          do* set_restart in do* invokeIRQHandler_SetIRQHandler irq ntfnCap slot in ret EXCEPTION_NONE
      | _ => throw (err_InvalidCapability 0)
      end
  else if invLabel =? IRQClearIRQHandler then
    do* set_restart in do* invokeIRQHandler_ClearIRQHandler irq in ret EXCEPTION_NONE
  else throw (err_type_only seL4_IllegalOperation).

(** ** Delivery *)
Definition handleInterrupt (irq : Z) : M kstate unit :=
  if irq >? maxIRQ then do* event (maskInterrupt true irq) in event (ackInterrupt irq)
  else
    let* st := gets (fun k => irq_state_of k irq) in
    do* match st with
        | IRQSignal =>
            let* c := slot_cap (irq_slot irq) in
            do* match c with
                | cap_notification_cap badge _ true ntfn => sendSignal ntfn badge
                | _ => ret tt
                end in
            event (maskInterrupt true irq)
        | IRQTimer => do* timerTick in event resetTimer
        | IRQReserved => event (handleReservedIRQ irq)
        | IRQInactive => event (maskInterrupt true irq)
        end in
    event (ackInterrupt irq).
End Interrupt.
