(* ===== verification/KTcb.v ===== *)
(** * Thread invocations

    Decoding and performing the operations on threads that user level asks for:
    the second half of kernel/src/object/tcb.c, [checkValidIPCBuffer] and
    [isValidVTableRoot] of kernel/src/arch/arm/64/kernel/vspace.c, and
    kernel/src/arch/arm/object/tcb.c, where there is nothing to do. *)

From S2P Require Import Prelude KCaps KState KSched KCspace KMdb KMsg KVspace KIpc KDelete KUntyped KInvoke.

(** Labels, generated from kernel/libsel4/include/interfaces/sel4.xml *)
Definition TCBReadRegisters : Z := 2.
Definition TCBWriteRegisters : Z := 3.
Definition TCBCopyRegisters : Z := 4.
Definition TCBConfigure : Z := 5.
Definition TCBSetPriority : Z := 6.
Definition TCBSetMCPriority : Z := 7.
Definition TCBSetSchedParams : Z := 8.
Definition TCBSetIPCBuffer : Z := 9.
Definition TCBSetSpace : Z := 10.
Definition TCBSuspend : Z := 11.
Definition TCBResume : Z := 12.
Definition TCBBindNotification : Z := 13.
Definition TCBUnbindNotification : Z := 14.
Definition TCBSetTLSBase : Z := 15.
Definition DomainSetSet : Z := 29.

Definition seL4_MinPrio : Z := 0.
Definition seL4_MaxPrio : Z := CONFIG_NUM_PRIORITIES - 1.
Definition NULL_PRIO : Z := 0.
Definition TLS_BASE : Z := 35.
Definition seL4_IPCBufferSizeBits : Z := 10.

(** [enum thread_control_flag]. *)
Definition thread_control_update_priority : Z := 0x1.
Definition thread_control_update_ipc_buffer : Z := 0x2.
Definition thread_control_update_space : Z := 0x4.
Definition thread_control_update_mcp : Z := 0x8.
Definition has_flag (flags f : Z) : bool := negb (Z.land flags f =? 0).

(** The bits of the flag words. *)
Definition CopyRegisters_suspendSource : Z := 0.
Definition CopyRegisters_resumeTarget : Z := 1.
Definition CopyRegisters_transferFrame : Z := 2.
Definition CopyRegisters_transferInteger : Z := 3.
Definition ReadRegisters_suspend : Z := 0.
Definition WriteRegisters_resume : Z := 0.

(** [cap_thread_cap_get_capTCBPtr], which asserts the type. *)
Definition thread_of (c : cap) : M kstate Z := match c with cap_thread_cap p => ret p | _ => fail AssertFail end.

(** ** Architecture *)
Definition Arch_decodeTransfer (flags : Z) : Z := 0.
Definition Arch_performTransfer (arch tcb_src tcb_dest : Z) : M kstate exception_t := ret EXCEPTION_NONE.
Definition Arch_setTCBIPCBuffer (thread bufferAddr : Z) : M kstate unit := ret tt.
Definition Arch_postModifyRegisters (tptr : Z) : M kstate unit := ret tt.

Definition IS_ALIGNED (n b : Z) : bool := Z.land n (MASK b) =? 0.
Definition checkValidIPCBuffer (vptr : Z) (c : cap) : M kstate exception_t :=
  match c with
  | cap_frame_cap _ _ _ _ _ isDevice =>
      if isDevice then throw (err_type_only seL4_IllegalOperation)
      else if negb (IS_ALIGNED vptr seL4_IPCBufferSizeBits) then throw (err_type_only seL4_AlignmentError)
      else ret EXCEPTION_NONE
  | _ => throw (err_type_only seL4_IllegalOperation)
  end.
Definition isValidVTableRoot (c : cap) : bool := isValidNativeRoot c.

Section Tcb.
Context `{C : KConfig} `{P : KPlatform}.

Definition checkPrio (prio auth : Z) : M kstate exception_t :=
  let* a := tcb_get auth in
  let mcp := tcbMCP a in
  do* assert_ (mcp <=? seL4_MaxPrio) in
  if prio >? mcp then throw (err_RangeError seL4_MinPrio mcp) else ret EXCEPTION_NONE.

(** Changing the current thread's registers takes a reschedule to show. *)
Definition reschedule_if_current (thread : Z) : M kstate unit :=
  let* cur := gets ksCurThread in
  if thread =? cur then rescheduleRequired else ret tt.

(** ** Performing *)

Definition invokeTCB_Suspend (thread : Z) : M kstate exception_t := do* suspend thread in ret EXCEPTION_NONE.
Definition invokeTCB_Resume (thread : Z) : M kstate exception_t := do* restart thread in ret EXCEPTION_NONE.

(** The copy is made only if the capability it was derived from and the
    invoked capability are still there. *)
Definition install_root (newCap : cap) (srcSlot : Z) (tCap : cap) (slot rootSlot : Z) : M kstate unit :=
  let* src := slot_cap srcSlot in
  if sameObjectAs newCap src then
    let* own := slot_cap slot in
    if sameObjectAs tCap own then cteInsert newCap srcSlot rootSlot else ret tt
  else ret tt.

Definition update_root (fuel : nat) (newCap : cap) (srcSlot : Z) (tCap : cap) (slot rootSlot : Z) : M kstate exception_t :=
  let* e := cteDelete fuel rootSlot true in
  if negb (bool_decide (e = EXCEPTION_NONE)) then ret e
  else do* install_root newCap srcSlot tCap slot rootSlot in ret EXCEPTION_NONE.

Definition update_buffer (fuel : nat) (target : Z) (bufferAddr : Z) (bufferCap : cap) (bufferSrcSlot : Z) (tCap : cap) (slot : Z) :
    M kstate exception_t :=
  let bufferSlot := TCB_PTR_CTE_PTR target tcbBuffer in
  let* e := cteDelete fuel bufferSlot true in
  if negb (bool_decide (e = EXCEPTION_NONE)) then ret e
  else
    do* tcb_upd target (upd_tcbIPCBuffer (fun _ => bufferAddr)) in
    do* Arch_setTCBIPCBuffer target bufferAddr in
    do* (if negb (bufferSrcSlot =? 0) then install_root bufferCap bufferSrcSlot tCap slot bufferSlot else ret tt) in
    do* reschedule_if_current target in
    ret EXCEPTION_NONE.

Definition invokeTCB_ThreadControl (fuel : nat) (target slot faultep mcp priority : Z) (cRoot_newCap : cap) (cRoot_srcSlot : Z)
    (vRoot_newCap : cap) (vRoot_srcSlot bufferAddr : Z) (bufferCap : cap) (bufferSrcSlot updateFlags : Z) :
    M kstate exception_t :=
  let tCap := cap_thread_cap target in
  let space := has_flag updateFlags thread_control_update_space in
  do* (if space then tcb_upd target (upd_tcbFaultHandler (fun _ => faultep)) else ret tt) in
  do* (if has_flag updateFlags thread_control_update_mcp then setMCPriority target mcp else ret tt) in
  do* (if has_flag updateFlags thread_control_update_priority then setPriority target priority else ret tt) in
  let* e := (if space then update_root fuel cRoot_newCap cRoot_srcSlot tCap slot (TCB_PTR_CTE_PTR target tcbCTable)
             else ret EXCEPTION_NONE) in
  if negb (bool_decide (e = EXCEPTION_NONE)) then ret e
  else
    let* e := (if space then update_root fuel vRoot_newCap vRoot_srcSlot tCap slot (TCB_PTR_CTE_PTR target tcbVTable)
               else ret EXCEPTION_NONE) in
    if negb (bool_decide (e = EXCEPTION_NONE)) then ret e
    else if has_flag updateFlags thread_control_update_ipc_buffer then
      update_buffer fuel target bufferAddr bufferCap bufferSrcSlot tCap slot
    else ret EXCEPTION_NONE.

(** [n] rounds of the loops that copy registers, from index [i]. *)
Fixpoint copy_regs (src dest : Z) (regs : list Z) (i : Z) (n : nat) : M kstate unit :=
  match n with
  | O => ret tt
  | S n =>
      let* r := reg_at regs i in
      let* v := getRegister src r in
      do* setRegister dest r v in
      copy_regs src dest regs (i + 1) n
  end.

Definition invokeTCB_CopyRegisters (dest tcb_src : Z) (suspendSource resumeTarget transferFrame transferInteger : bool)
    (transferArch : Z) : M kstate exception_t :=
  do* (if suspendSource then suspend tcb_src else ret tt) in
  do* (if resumeTarget then restart dest else ret tt) in
  do* (if transferFrame then
         do* copy_regs tcb_src dest frameRegisters 0 (Z.to_nat n_frameRegisters) in
         let* pc := getRestartPC dest in
         setNextPC dest pc
       else ret tt) in
  do* (if transferInteger then copy_regs tcb_src dest gpRegisters 0 (Z.to_nat n_gpRegisters) else ret tt) in
  do* Arch_postModifyRegisters dest in
  do* reschedule_if_current dest in
  Arch_performTransfer transferArch tcb_src dest.

(** Register [i] of [regs] becomes word [i + off] of the reply: in a message
    register, or in the buffer. *)
Fixpoint reply_inline (thread src : Z) (regs : list Z) (off i : Z) (n : nat) : M kstate unit :=
  match n with
  | O => ret tt
  | S n =>
      let* r := reg_at regs i in
      let* m := reg_at msgRegisters (i + off) in
      let* v := getRegister src r in
      do* setRegister thread m v in
      reply_inline thread src regs off (i + 1) n
  end.
Fixpoint reply_buffer (ipcBuffer src : Z) (regs : list Z) (off i : Z) (n : nat) : M kstate unit :=
  match n with
  | O => ret tt
  | S n =>
      let* r := reg_at regs i in
      let* v := getRegister src r in
      do* word_set (word_at ipcBuffer (i + off + 1)) v in
      reply_buffer ipcBuffer src regs off (i + 1) n
  end.

(** The two loops over [regs], of which the first [n] are wanted; the number of
    registers that were stored. *)
Definition reply_regs (thread src ipcBuffer : Z) (regs : list Z) (off n : Z) : M kstate Z :=
  let i := Z.max 0 (Z.min n (n_msgRegisters - off)) in
  do* reply_inline thread src regs off 0 (Z.to_nat i) in
  if negb (ipcBuffer =? 0) && (i <? n) then
    do* reply_buffer ipcBuffer src regs off i (Z.to_nat (n - i)) in ret n
  else ret i.

Definition invokeTCB_ReadRegisters (tcb_src : Z) (suspendSource : bool) (n arch : Z) (call : bool) : M kstate exception_t :=
  let* thread := gets ksCurThread in
  do* (if suspendSource then suspend tcb_src else ret tt) in
  let* e := Arch_performTransfer arch tcb_src thread in
  if negb (bool_decide (e = EXCEPTION_NONE)) then ret e
  else
    do* (if call then
           let* ipcBuffer := lookupIPCBuffer true thread in
           do* setRegister thread badgeRegister 0 in
           let* j := reply_regs thread tcb_src ipcBuffer frameRegisters 0 (Z.min n n_frameRegisters) in
           let* i := reply_regs thread tcb_src ipcBuffer gpRegisters n_frameRegisters
                       (Z.max 0 (Z.min n_gpRegisters (n - n_frameRegisters))) in
           setRegister thread msgInfoRegister (wordFromMessageInfo (seL4_MessageInfo_new 0 0 0 (i + j)))
         else ret tt) in
    do* setThreadState thread ThreadState_Running in
    ret EXCEPTION_NONE.

(** [n] rounds of the loops that set registers from message words, which start at
    word [off]. *)
Fixpoint write_regs (dest : Z) (regs : list Z) (archInfo : bool) (buffer off i : Z) (n : nat) : M kstate unit :=
  match n with
  | O => ret tt
  | S n =>
      let* r := reg_at regs i in
      let* v := getSyscallArg (i + off) buffer in
      do* setRegister dest r (sanitiseRegister r v archInfo) in
      write_regs dest regs archInfo buffer off (i + 1) n
  end.

Definition invokeTCB_WriteRegisters (dest : Z) (resumeTarget : bool) (n arch buffer : Z) : M kstate exception_t :=
  let* cur := gets ksCurThread in
  let* e := Arch_performTransfer arch cur dest in
  if negb (bool_decide (e = EXCEPTION_NONE)) then ret e
  else
    let n := if n >? n_frameRegisters + n_gpRegisters then n_frameRegisters + n_gpRegisters else n in
    let archInfo := Arch_getSanitiseRegisterInfo dest in
    do* write_regs dest frameRegisters archInfo buffer 2 0 (Z.to_nat (Z.min n_frameRegisters n)) in
    do* write_regs dest gpRegisters archInfo buffer (n_frameRegisters + 2) 0
          (Z.to_nat (Z.min n_gpRegisters (n - n_frameRegisters))) in
    let* pc := getRestartPC dest in
    do* setNextPC dest pc in
    do* Arch_postModifyRegisters dest in
    do* (if resumeTarget then restart dest else ret tt) in
    do* reschedule_if_current dest in
    ret EXCEPTION_NONE.

Definition invokeTCB_NotificationControl (tcb ntfnPtr : Z) : M kstate exception_t :=
  do* (if negb (ntfnPtr =? 0) then bindNotification tcb ntfnPtr else unbindNotification tcb) in
  ret EXCEPTION_NONE.

Definition invokeSetTLSBase (thread tls_base : Z) : M kstate exception_t :=
  do* setRegister thread TLS_BASE tls_base in
  do* reschedule_if_current thread in
  ret EXCEPTION_NONE.

(** ** Decoding *)

Definition decodeSetTLSBase (c : cap) (len buffer : Z) : M kstate exception_t :=
  if len <? 1 then throw (err_type_only seL4_TruncatedMessage)
  else
    let* tls_base := getSyscallArg 0 buffer in
    do* set_restart in
    let* thread := thread_of c in
    invokeSetTLSBase thread tls_base.

Definition decodeCopyRegisters (c : cap) (len : Z) (excaps : list Z) (buffer : Z) : M kstate exception_t :=
  let* srcSlot := excap excaps 0 in
  if (len <? 1) || (srcSlot =? 0) then throw (err_type_only seL4_TruncatedMessage)
  else
    let* flags := getSyscallArg 0 buffer in
    let transferArch := Arch_decodeTransfer (Z.shiftr flags 8) in
    let* source_cap := slot_cap srcSlot in
    match source_cap with
    | cap_thread_cap srcTCB =>
        do* set_restart in
        let* thread := thread_of c in
        invokeTCB_CopyRegisters thread srcTCB
          (has_flag flags (BIT CopyRegisters_suspendSource)) (has_flag flags (BIT CopyRegisters_resumeTarget))
          (has_flag flags (BIT CopyRegisters_transferFrame)) (has_flag flags (BIT CopyRegisters_transferInteger)) transferArch
    | _ => throw (err_InvalidCapability 1)
    end.

Definition decodeReadRegisters (c : cap) (len : Z) (call : bool) (buffer : Z) : M kstate exception_t :=
  if len <? 2 then throw (err_type_only seL4_TruncatedMessage)
  else
    let* flags := getSyscallArg 0 buffer in
    let* n := getSyscallArg 1 buffer in
    if (n <? 1) || (n >? n_frameRegisters + n_gpRegisters) then throw (err_RangeError 1 (n_frameRegisters + n_gpRegisters))
    else
      let transferArch := Arch_decodeTransfer (Z.shiftr flags 8) in
      let* thread := thread_of c in
      let* cur := gets ksCurThread in
      if thread =? cur then throw (err_type_only seL4_IllegalOperation)
      else
        do* set_restart in
        invokeTCB_ReadRegisters thread (has_flag flags (BIT ReadRegisters_suspend)) n transferArch call.

Definition decodeWriteRegisters (c : cap) (len buffer : Z) : M kstate exception_t :=
  if len <? 2 then throw (err_type_only seL4_TruncatedMessage)
  else
    let* flags := getSyscallArg 0 buffer in
    let* w := getSyscallArg 1 buffer in
    if len - 2 <? w then throw (err_type_only seL4_TruncatedMessage)
    else
      let transferArch := Arch_decodeTransfer (Z.shiftr flags 8) in
      let* thread := thread_of c in
      let* cur := gets ksCurThread in
      if thread =? cur then throw (err_type_only seL4_IllegalOperation)
      else
        do* set_restart in
        invokeTCB_WriteRegisters thread (has_flag flags (BIT WriteRegisters_resume)) w transferArch buffer.

(** What [decodeTCBConfigure] and [decodeSetIPCBuffer] do with the buffer they are
    given: the capability to install and the slot it comes from. *)
Definition decode_buffer (bufferAddr bufferSlot : Z) (bufferCap : cap) : M kstate (exception_t + cap * Z) :=
  if bufferAddr =? 0 then ret (inr (bufferCap, 0))
  else
    let* '(status, bufferCap) := deriveCap bufferSlot bufferCap in
    if negb (bool_decide (status = EXCEPTION_NONE)) then ret (inl status)
    else
      let* e := checkValidIPCBuffer bufferAddr bufferCap in
      if negb (bool_decide (e = EXCEPTION_NONE)) then ret (inl e) else ret (inr (bufferCap, bufferSlot)).

(** What [decodeTCBConfigure] and [decodeSetSpace] do with the roots they are given. *)
Definition decode_root (data slot : Z) (c : cap) : M kstate (exception_t * cap) :=
  deriveCap slot (if negb (data =? 0) then updateCapData false data c else c).
Definition decode_space (thread cRootData vRootData cRootSlot vRootSlot : Z) (cRootCap vRootCap : cap) :
    M kstate (exception_t + cap * cap) :=
  let* busy := (let* b := slotCapLongRunningDelete (TCB_PTR_CTE_PTR thread tcbCTable) in
                if b then ret true else slotCapLongRunningDelete (TCB_PTR_CTE_PTR thread tcbVTable)) in
  if busy then reject (err_type_only seL4_IllegalOperation)
  else
    let* '(status, cRootCap) := decode_root cRootData cRootSlot cRootCap in
    if negb (bool_decide (status = EXCEPTION_NONE)) then ret (inl status)
    else if negb (cap_get_capType cRootCap =? 10) then reject (err_type_only seL4_IllegalOperation)
    else
      let* '(status, vRootCap) := decode_root vRootData vRootSlot vRootCap in
      if negb (bool_decide (status = EXCEPTION_NONE)) then ret (inl status)
      else if negb (isValidVTableRoot vRootCap) then reject (err_type_only seL4_IllegalOperation)
      else ret (inr (cRootCap, vRootCap)).

Definition decodeTCBConfigure (fuel : nat) (c : cap) (len slot : Z) (rootCaps : list Z) (buffer : Z) : M kstate exception_t :=
  let* cRootSlot := excap rootCaps 0 in
  let* vRootSlot := excap rootCaps 1 in
  let* bufferSlot := excap rootCaps 2 in
  if (len <? 4) || (cRootSlot =? 0) || (vRootSlot =? 0) || (bufferSlot =? 0) then throw (err_type_only seL4_TruncatedMessage)
  else
    let* faultEP := getSyscallArg 0 buffer in
    let* cRootData := getSyscallArg 1 buffer in
    let* vRootData := getSyscallArg 2 buffer in
    let* bufferAddr := getSyscallArg 3 buffer in
    let* cRootCap := slot_cap cRootSlot in
    let* vRootCap := slot_cap vRootSlot in
    let* bufferCap := slot_cap bufferSlot in
    let* b := decode_buffer bufferAddr bufferSlot bufferCap in
    match b with
    | inl status => ret status
    | inr (bufferCap, bufferSlot) =>
        let* thread := thread_of c in
        let* r := decode_space thread cRootData vRootData cRootSlot vRootSlot cRootCap vRootCap in
        match r with
        | inl status => ret status
        | inr (cRootCap, vRootCap) =>
            do* set_restart in
            invokeTCB_ThreadControl fuel thread slot faultEP NULL_PRIO NULL_PRIO cRootCap cRootSlot vRootCap vRootSlot
              bufferAddr bufferCap bufferSlot (Z.lor thread_control_update_space thread_control_update_ipc_buffer)
        end
    end.

Definition decodeSetSpace (fuel : nat) (c : cap) (len slot : Z) (excaps : list Z) (buffer : Z) : M kstate exception_t :=
  let* cRootSlot := excap excaps 0 in
  let* vRootSlot := excap excaps 1 in
  if (len <? 3) || (cRootSlot =? 0) || (vRootSlot =? 0) then throw (err_type_only seL4_TruncatedMessage)
  else
    let* faultEP := getSyscallArg 0 buffer in
    let* cRootData := getSyscallArg 1 buffer in
    let* vRootData := getSyscallArg 2 buffer in
    let* cRootCap := slot_cap cRootSlot in
    let* vRootCap := slot_cap vRootSlot in
    let* thread := thread_of c in
    let* r := decode_space thread cRootData vRootData cRootSlot vRootSlot cRootCap vRootCap in
    match r with
    | inl status => ret status
    | inr (cRootCap, vRootCap) =>
        do* set_restart in
        invokeTCB_ThreadControl fuel thread slot faultEP NULL_PRIO NULL_PRIO cRootCap cRootSlot vRootCap vRootSlot
          0 cap_null_cap 0 thread_control_update_space
    end.

Definition decodeSetIPCBuffer (fuel : nat) (c : cap) (len slot : Z) (excaps : list Z) (buffer : Z) : M kstate exception_t :=
  let* bufferSlot := excap excaps 0 in
  if (len <? 1) || (bufferSlot =? 0) then throw (err_type_only seL4_TruncatedMessage)
  else
    let* cptr_bufferPtr := getSyscallArg 0 buffer in
    let* bufferCap := slot_cap bufferSlot in
    let* b := decode_buffer cptr_bufferPtr bufferSlot bufferCap in
    match b with
    | inl status => ret status
    | inr (bufferCap, bufferSlot) =>
        do* set_restart in
        let* thread := thread_of c in
        invokeTCB_ThreadControl fuel thread slot 0 NULL_PRIO NULL_PRIO cap_null_cap 0 cap_null_cap 0
          cptr_bufferPtr bufferCap bufferSlot thread_control_update_ipc_buffer
    end.

(** The thread whose authority a change of priority needs. *)
Definition authority (authSlot : Z) : M kstate (exception_t + Z) :=
  let* authCap := slot_cap authSlot in
  match authCap with cap_thread_cap authTCB => ret (inr authTCB) | _ => reject (err_InvalidCapability 1) end.

Definition decodeSetPriority (fuel : nat) (c : cap) (len : Z) (excaps : list Z) (buffer : Z) : M kstate exception_t :=
  let* authSlot := excap excaps 0 in
  if (len <? 1) || (authSlot =? 0) then throw (err_type_only seL4_TruncatedMessage)
  else
    let* newPrio := getSyscallArg 0 buffer in
    let* a := authority authSlot in
    match a with
    | inl status => ret status
    | inr authTCB =>
        let* status := checkPrio newPrio authTCB in
        if negb (bool_decide (status = EXCEPTION_NONE)) then ret status
        else
          do* set_restart in
          let* thread := thread_of c in
          invokeTCB_ThreadControl fuel thread 0 0 NULL_PRIO newPrio cap_null_cap 0 cap_null_cap 0 0 cap_null_cap 0
            thread_control_update_priority
    end.

Definition decodeSetMCPriority (fuel : nat) (c : cap) (len : Z) (excaps : list Z) (buffer : Z) : M kstate exception_t :=
  let* authSlot := excap excaps 0 in
  if (len <? 1) || (authSlot =? 0) then throw (err_type_only seL4_TruncatedMessage)
  else
    let* newMcp := getSyscallArg 0 buffer in
    let* a := authority authSlot in
    match a with
    | inl status => ret status
    | inr authTCB =>
        let* status := checkPrio newMcp authTCB in
        if negb (bool_decide (status = EXCEPTION_NONE)) then ret status
        else
          do* set_restart in
          let* thread := thread_of c in
          invokeTCB_ThreadControl fuel thread 0 0 newMcp NULL_PRIO cap_null_cap 0 cap_null_cap 0 0 cap_null_cap 0
            thread_control_update_mcp
    end.

Definition decodeSetSchedParams (fuel : nat) (c : cap) (len : Z) (excaps : list Z) (buffer : Z) : M kstate exception_t :=
  let* authSlot := excap excaps 0 in
  if (len <? 2) || (authSlot =? 0) then throw (err_type_only seL4_TruncatedMessage)
  else
    let* newMcp := getSyscallArg 0 buffer in
    let* newPrio := getSyscallArg 1 buffer in
    let* a := authority authSlot in
    match a with
    | inl status => ret status
    | inr authTCB =>
        let* status := checkPrio newMcp authTCB in
        if negb (bool_decide (status = EXCEPTION_NONE)) then ret status
        else
          let* status := checkPrio newPrio authTCB in
          if negb (bool_decide (status = EXCEPTION_NONE)) then ret status
          else
            do* set_restart in
            let* thread := thread_of c in
            invokeTCB_ThreadControl fuel thread 0 0 newMcp newPrio cap_null_cap 0 cap_null_cap 0 0 cap_null_cap 0
              (Z.lor thread_control_update_mcp thread_control_update_priority)
    end.

Definition decodeDomainInvocation (invLabel len : Z) (excaps : list Z) (buffer : Z) : M kstate exception_t :=
  if negb (invLabel =? DomainSetSet) then throw (err_type_only seL4_IllegalOperation)
  else if len =? 0 then throw (err_type_only seL4_TruncatedMessage)
  else
    let* domain := getSyscallArg 0 buffer in
    if domain >=? CONFIG_NUM_DOMAINS then throw (err_InvalidArgument 0)
    else
      let* tslot := excap excaps 0 in
      if tslot =? 0 then throw (err_type_only seL4_TruncatedMessage)
      else
        let* tcap := slot_cap tslot in
        match tcap with
        | cap_thread_cap thread => do* set_restart in do* setDomain thread domain in ret EXCEPTION_NONE
        | _ => throw (err_InvalidArgument 1)
        end.

Definition decodeBindNotification (c : cap) (excaps : list Z) : M kstate exception_t :=
  let* nslot := excap excaps 0 in
  if nslot =? 0 then throw (err_type_only seL4_TruncatedMessage)
  else
    let* tcb := thread_of c in
    let* t := tcb_get tcb in
    if negb (tcbBoundNotification t =? 0) then throw (err_type_only seL4_IllegalOperation)
    else
      let* ntfn_cap := slot_cap nslot in
      match ntfn_cap with
      | cap_notification_cap _ canReceive _ ntfnPtr =>
          if negb canReceive then throw (err_type_only seL4_IllegalOperation)
          else
            let* n := ntfn_get ntfnPtr in
            if negb (ntfnQueue_head n =? 0) || negb (ntfnBoundTCB n =? 0) then throw (err_type_only seL4_IllegalOperation)
            else do* set_restart in invokeTCB_NotificationControl tcb ntfnPtr
      | _ => throw (err_type_only seL4_IllegalOperation)
      end.

Definition decodeUnbindNotification (c : cap) : M kstate exception_t :=
  let* tcb := thread_of c in
  let* t := tcb_get tcb in
  if tcbBoundNotification t =? 0 then throw (err_type_only seL4_IllegalOperation)
  else do* set_restart in invokeTCB_NotificationControl tcb 0.

Definition decodeTCBInvocation (fuel : nat) (invLabel len : Z) (c : cap) (slot : Z) (excaps : list Z) (call : bool) (buffer : Z) :
    M kstate exception_t :=
  if invLabel =? TCBReadRegisters then decodeReadRegisters c len call buffer
  else if invLabel =? TCBWriteRegisters then decodeWriteRegisters c len buffer
  else if invLabel =? TCBCopyRegisters then decodeCopyRegisters c len excaps buffer
  else if invLabel =? TCBSuspend then
    do* set_restart in let* thread := thread_of c in invokeTCB_Suspend thread
  else if invLabel =? TCBResume then
    do* set_restart in let* thread := thread_of c in invokeTCB_Resume thread
  else if invLabel =? TCBConfigure then decodeTCBConfigure fuel c len slot excaps buffer
  else if invLabel =? TCBSetPriority then decodeSetPriority fuel c len excaps buffer
  else if invLabel =? TCBSetMCPriority then decodeSetMCPriority fuel c len excaps buffer
  else if invLabel =? TCBSetSchedParams then decodeSetSchedParams fuel c len excaps buffer
  else if invLabel =? TCBSetIPCBuffer then decodeSetIPCBuffer fuel c len slot excaps buffer
  else if invLabel =? TCBSetSpace then decodeSetSpace fuel c len slot excaps buffer
  else if invLabel =? TCBBindNotification then decodeBindNotification c excaps
  else if invLabel =? TCBUnbindNotification then decodeUnbindNotification c
  else if invLabel =? TCBSetTLSBase then decodeSetTLSBase c len buffer
  else throw (err_type_only seL4_IllegalOperation).
End Tcb.
