(* ===== verification/KMmu.v ===== *)
(** * Address-space invocations

    The invocations on page tables, frames and address-space identifiers:
    the second half of kernel/src/arch/arm/64/kernel/vspace.c. *)

From S2P Require Import Prelude KCaps KState KSched KCspace KMdb KMsg KVspace KIpc KDelete KUntyped KInvoke KTcb.

(** Labels, generated from the interface files of libsel4 after the generic ones. *)
Definition ARMPageGlobalDirectoryClean_Data : Z := 30.
Definition ARMPageGlobalDirectoryInvalidate_Data : Z := 31.
Definition ARMPageGlobalDirectoryCleanInvalidate_Data : Z := 32.
Definition ARMPageGlobalDirectoryUnify_Instruction : Z := 33.
Definition ARMPageUpperDirectoryMap : Z := 34.
Definition ARMPageUpperDirectoryUnmap : Z := 35.
Definition ARMPageDirectoryMap : Z := 36.
Definition ARMPageDirectoryUnmap : Z := 37.
Definition ARMPageTableMap : Z := 38.
Definition ARMPageTableUnmap : Z := 39.
Definition ARMPageMap : Z := 40.
Definition ARMPageRemap : Z := 41.
Definition ARMPageUnmap : Z := 42.
Definition ARMPageClean_Data : Z := 43.
Definition ARMPageInvalidate_Data : Z := 44.
Definition ARMPageCleanInvalidate_Data : Z := 45.
Definition ARMPageUnify_Instruction : Z := 46.
Definition ARMPageGetAddress : Z := 47.
Definition ARMASIDControlMakePool : Z := 48.
Definition ARMASIDPoolAssign : Z := 49.

(** A step of a decoder: go on with its result, or return the error it met. *)
Definition try_ {A} (m : M kstate (exception_t + A)) (f : A -> M kstate exception_t) : M kstate exception_t :=
  let* r := m in match r with inl status => ret status | inr x => f x end.
Notation "'let?' x := m 'in' k" := (try_ m (fun x => k)) (at level 200, x name, m at level 100, k at level 200).
Notation "'let?' ' p := m 'in' k" := (try_ m (fun x => match x with p => k end)) (at level 200, p strict pattern, m at level 100, k at level 200).
Notation "'unless' b 'throws' err 'in' k" := (if negb b then throw err else k) (at level 200, b at level 100, err at level 100, k at level 200).

Definition PAGE_BASE (p : Z) (s : vm_page_size) : Z := Z.ldiff p (MASK (pageBitsForSize s)).
Definition PAGE_OFFSET (p : Z) (s : vm_page_size) : Z := Z.land p (MASK (pageBitsForSize s)).
Definition IS_PAGE_ALIGNED (p : Z) (s : vm_page_size) : bool := Z.land p (MASK (pageBitsForSize s)) =? 0.

Section Mmu.
Context `{C : KConfig} `{P : KPlatform}.

(** ** Cache maintenance *)

Definition doFlush (invLabel start_ end_ pstart : Z) : M kstate unit :=
  if (invLabel =? ARMPageGlobalDirectoryClean_Data) || (invLabel =? ARMPageClean_Data) then
    event (cleanCacheRange_RAM start_ end_ pstart)
  else if (invLabel =? ARMPageGlobalDirectoryInvalidate_Data) || (invLabel =? ARMPageInvalidate_Data) then
    event (invalidateCacheRange_RAM start_ end_ pstart)
  else if (invLabel =? ARMPageGlobalDirectoryCleanInvalidate_Data) || (invLabel =? ARMPageCleanInvalidate_Data) then
    event (cleanInvalidateCacheRange_RAM start_ end_ pstart)
  else if (invLabel =? ARMPageGlobalDirectoryUnify_Instruction) || (invLabel =? ARMPageUnify_Instruction) then
    do* event (cleanCacheRange_PoU start_ end_ pstart) in
    do* event dsb in
    do* event (invalidateCacheRange_I start_ end_ pstart) in
    event isb
  else fail AssertFail.

(** [performPageFlush]; [performPageGlobalDirectoryFlush] has the same body. *)
Definition performPageFlush (invLabel pgd asid start_ end_ pstart : Z) : M kstate exception_t :=
  do* (if start_ <? end_ then
         let* root_switched := setVMRootForFlush pgd asid in
         do* doFlush invLabel start_ end_ pstart in
         if root_switched : bool then let* cur := gets ksCurThread in setVMRoot cur else ret tt
       else ret tt) in
  ret EXCEPTION_NONE.
Definition performPageGlobalDirectoryFlush (invLabel pgd asid start_ end_ pstart : Z) : M kstate exception_t :=
  performPageFlush invLabel pgd asid start_ end_ pstart.

(** ** Performing *)

(** The three invocations that map a table. *)
Definition performTableMap (c : cap) (ctSlot entry slot : Z) : M kstate exception_t :=
  do* set_cap ctSlot c in do* entry_store slot entry in ret EXCEPTION_NONE.
Definition performUpperPageDirectoryInvocationMap (c : cap) (ctSlot pgde pgdSlot : Z) : M kstate exception_t :=
  performTableMap c ctSlot pgde pgdSlot.
Definition performPageDirectoryInvocationMap (c : cap) (ctSlot pude pudSlot : Z) : M kstate exception_t :=
  performTableMap c ctSlot pude pudSlot.
Definition performPageTableInvocationMap (c : cap) (ctSlot pde pdSlot : Z) : M kstate exception_t :=
  performTableMap c ctSlot pde pdSlot.

(** [capPUDIsMapped], [capPDIsMapped] or [capPTIsMapped] of the capability in a slot. *)
Definition set_unmapped (ctSlot : Z) : M kstate unit :=
  let* c := slot_cap ctSlot in
  match c with
  | cap_page_upper_directory_cap asid ptr _ vaddr => set_cap ctSlot (cap_page_upper_directory_cap asid ptr false vaddr)
  | cap_page_directory_cap asid ptr _ vaddr => set_cap ctSlot (cap_page_directory_cap asid ptr false vaddr)
  | cap_page_table_cap asid ptr _ vaddr => set_cap ctSlot (cap_page_table_cap asid ptr false vaddr)
  | _ => fail AssertFail
  end.

Definition performUpperPageDirectoryInvocationUnmap (c : cap) (ctSlot : Z) : M kstate exception_t :=
  match c with
  | cap_page_upper_directory_cap asid pud isMapped vaddr =>
      do* (if isMapped then do* unmapPageUpperDirectory asid vaddr pud in clear_memory pud (cap_get_capSizeBits c) else ret tt) in
      do* set_unmapped ctSlot in
      ret EXCEPTION_NONE
  | _ => fail AssertFail
  end.
Definition performPageDirectoryInvocationUnmap (c : cap) (ctSlot : Z) : M kstate exception_t :=
  match c with
  | cap_page_directory_cap asid pd isMapped vaddr =>
      do* (if isMapped then do* unmapPageDirectory asid vaddr pd in clear_memory pd (cap_get_capSizeBits c) else ret tt) in
      do* set_unmapped ctSlot in
      ret EXCEPTION_NONE
  | _ => fail AssertFail
  end.
Definition performPageTableInvocationUnmap (c : cap) (ctSlot : Z) : M kstate exception_t :=
  match c with
  | cap_page_table_cap asid pt isMapped vaddr =>
      do* (if isMapped then do* unmapPageTable asid vaddr pt in clear_memory pt (cap_get_capSizeBits c) else ret tt) in
      do* set_unmapped ctSlot in
      ret EXCEPTION_NONE
  | _ => fail AssertFail
  end.

(** The three invocations that map a frame; they differ in the type of the entry. *)
Definition performFrameMap (page_size : vm_page_size) (asid : Z) (c : cap) (ctSlot entry slot : Z) : M kstate exception_t :=
  let* old := entry_get slot in
  let tlbflush_required := entry_type old =? frame_type page_size in
  do* set_cap ctSlot c in
  do* entry_store slot entry in
  do* (if tlbflush_required then
         do* assert_ (asid <? BIT 16) in
         match c with cap_frame_cap _ _ _ vaddr _ _ => invalidateTLBByASIDVA asid vaddr | _ => fail AssertFail end
       else ret tt) in
  ret EXCEPTION_NONE.
Definition performHugePageInvocationMap (asid : Z) (c : cap) (ctSlot pude pudSlot : Z) : M kstate exception_t :=
  performFrameMap ARMHugePage asid c ctSlot pude pudSlot.
Definition performLargePageInvocationMap (asid : Z) (c : cap) (ctSlot pde pdSlot : Z) : M kstate exception_t :=
  performFrameMap ARMLargePage asid c ctSlot pde pdSlot.
Definition performSmallPageInvocationMap (asid : Z) (c : cap) (ctSlot pte ptSlot : Z) : M kstate exception_t :=
  performFrameMap ARMSmallPage asid c ctSlot pte ptSlot.
(** The one for a frame of this size. *)
Definition perform_map (page_size : vm_page_size) : Z -> cap -> Z -> Z -> Z -> M kstate exception_t :=
  match page_size with
  | ARMSmallPage => performSmallPageInvocationMap
  | ARMLargePage => performLargePageInvocationMap
  | ARMHugePage => performHugePageInvocationMap
  end.

Definition performPageInvocationUnmap (c : cap) (ctSlot : Z) : M kstate exception_t :=
  match c with
  | cap_frame_cap asid pptr size vaddr _ _ =>
      do* (if negb (asid =? 0) then unmapPage size asid vaddr pptr else ret tt) in
      let* now := slot_cap ctSlot in
      match now with
      | cap_frame_cap _ ptr sz _ rights dev =>
          do* set_cap ctSlot (cap_frame_cap asidInvalid ptr sz 0 rights dev) in ret EXCEPTION_NONE
      | _ => fail AssertFail
      end
  | _ => fail AssertFail
  end.

Definition performPageGetAddress (base_ptr : Z) : M kstate exception_t :=
  let base := pptr_to_paddr base_ptr in
  let* cur := gets ksCurThread in
  let* r := reg_at msgRegisters 0 in
  do* setRegister cur r base in
  do* setRegister cur msgInfoRegister (wordFromMessageInfo (seL4_MessageInfo_new 0 0 0 1)) in
  ret EXCEPTION_NONE.

Definition performASIDPoolInvocation (asid poolPtr vspaceCapSlot : Z) : M kstate exception_t :=
  let* c := slot_cap vspaceCapSlot in
  match c with
  | cap_page_global_directory_cap _ pgd _ =>
      do* set_cap vspaceCapSlot (cap_page_global_directory_cap asid pgd true) in
      do* entry_set (entry_at poolPtr (Z.land asid (MASK asidLowBits))) pgd in
      ret EXCEPTION_NONE
  | _ => fail AssertFail
  end.

Definition performASIDControlInvocation (frame slot parent asid_base : Z) : M kstate exception_t :=
  let* p := slot_cap parent in
  match p with
  | cap_untyped_cap _ dev bs ptr =>
      do* set_cap parent (cap_untyped_cap (MAX_FREE_INDEX bs) dev bs ptr) in
      do* memzero frame seL4_ASIDPoolBits in
      do* cteInsert (cap_asid_pool_cap asid_base frame) parent slot in
      do* assert_ (Z.land asid_base (MASK asidLowBits) =? 0) in
      do* asid_table_set (Z.shiftr asid_base asidLowBits) frame in
      ret EXCEPTION_NONE
  | _ => fail AssertFail
  end.

(** ** Decoding *)

(** The checks of the capability to the root: it is one, and its identifier leads to it. *)
Definition root_of (c : cap) : M kstate (exception_t + Z * Z) :=
  match c with
  | cap_page_global_directory_cap asid pgd true => ret (inr (asid, pgd))
  | _ => reject (err_InvalidCapability 1)
  end.
Definition check_root (asid pgd capNumber : Z) : M kstate (exception_t + unit) :=
  let* '(status, vspace_root) := findVSpaceForASID asid in
  if negb (bool_decide (status = EXCEPTION_NONE)) then reject (err_FailedLookup false)
  else if negb (vspace_root =? pgd) then reject (err_InvalidCapability capNumber)
  else ret (inr tt).
(** A slot that was looked up. *)
Definition found (m : M kstate (exception_t * Z)) : M kstate (exception_t + Z) :=
  let* '(status, slot) := m in
  if negb (bool_decide (status = EXCEPTION_NONE)) then reject (err_FailedLookup false) else ret (inr slot).

Definition is_flush_pgd (l : Z) : bool :=
  (l =? ARMPageGlobalDirectoryClean_Data) || (l =? ARMPageGlobalDirectoryInvalidate_Data)
  || (l =? ARMPageGlobalDirectoryCleanInvalidate_Data) || (l =? ARMPageGlobalDirectoryUnify_Instruction).
Definition is_flush_page (l : Z) : bool :=
  (l =? ARMPageClean_Data) || (l =? ARMPageInvalidate_Data) || (l =? ARMPageCleanInvalidate_Data)
  || (l =? ARMPageUnify_Instruction).

Definition decodeARMPageGlobalDirectoryInvocation (invLabel len : Z) (c : cap) (buffer : Z) : M kstate exception_t :=
  unless is_flush_pgd invLabel throws err_type_only seL4_IllegalOperation in
  unless 2 <=? len throws err_type_only seL4_TruncatedMessage in
  let* start_ := getSyscallArg 0 buffer in
  let* end_ := getSyscallArg 1 buffer in
  unless start_ <? end_ throws err_InvalidArgument 1 in
  unless end_ <=? USER_TOP throws err_type_only seL4_IllegalOperation in
  match c with
  | cap_page_global_directory_cap asid pgd true =>
      let? _ := check_root asid pgd 0 in
      let* r := lookupFrame pgd start_ in
      match r with
      | None => do* set_restart in ret EXCEPTION_NONE
      | Some (frameBase, frameSize) =>
          unless PAGE_BASE start_ frameSize =? PAGE_BASE (end_ - 1) frameSize
            throws err_RangeError start_ (PAGE_BASE start_ frameSize + MASK (pageBitsForSize frameSize)) in
          let pstart := w64 (frameBase + PAGE_OFFSET start_ frameSize) in
          do* set_restart in
          performPageGlobalDirectoryFlush invLabel pgd asid start_ (end_ - 1) pstart
      end
  | _ => throw (err_InvalidCapability 0)
  end.

Definition decodeARMPageUpperDirectoryInvocation (invLabel len cte : Z) (c : cap) (extraCaps : list Z) (buffer : Z) :
    M kstate exception_t :=
  if invLabel =? ARMPageUpperDirectoryUnmap then
    let* final := isFinalCapability cte in
    unless final throws err_type_only seL4_RevokeFirst in
    do* set_restart in performUpperPageDirectoryInvocationUnmap c cte
  else
    unless invLabel =? ARMPageUpperDirectoryMap throws err_type_only seL4_IllegalOperation in
    let* root := excap extraCaps 0 in
    unless (2 <=? len) && negb (root =? 0) throws err_type_only seL4_TruncatedMessage in
    match c with
    | cap_page_upper_directory_cap _ pud isMapped _ =>
        unless negb isMapped throws err_InvalidCapability 0 in
        let* w := getSyscallArg 0 buffer in
        let vaddr := Z.ldiff w (MASK PGD_INDEX_OFFSET) in
        let* pgdCap := slot_cap root in
        let? '(asid, pgd) := root_of pgdCap in
        unless vaddr <=? USER_TOP throws err_InvalidArgument 0 in
        let? _ := check_root asid pgd 1 in
        let pgdSlot := lookupPGDSlot pgd vaddr in
        let* old := entry_get pgdSlot in
        unless negb (entry_type old =? TABLE) throws err_type_only seL4_DeleteFirst in
        let pgde := table_new (pptr_to_paddr pud) in
        do* set_restart in
        performUpperPageDirectoryInvocationMap (cap_page_upper_directory_cap asid pud true vaddr) cte pgde pgdSlot
    | _ => fail AssertFail
    end.

Definition decodeARMPageDirectoryInvocation (invLabel len cte : Z) (c : cap) (extraCaps : list Z) (buffer : Z) :
    M kstate exception_t :=
  if invLabel =? ARMPageDirectoryUnmap then
    let* final := isFinalCapability cte in
    unless final throws err_type_only seL4_RevokeFirst in
    do* set_restart in performPageDirectoryInvocationUnmap c cte
  else
    unless invLabel =? ARMPageDirectoryMap throws err_type_only seL4_IllegalOperation in
    let* root := excap extraCaps 0 in
    unless (2 <=? len) && negb (root =? 0) throws err_type_only seL4_TruncatedMessage in
    match c with
    | cap_page_directory_cap _ pd isMapped _ =>
        unless negb isMapped throws err_InvalidCapability 0 in
        let* w := getSyscallArg 0 buffer in
        let vaddr := Z.ldiff w (MASK PUD_INDEX_OFFSET) in
        let* pgdCap := slot_cap root in
        let? '(asid, pgd) := root_of pgdCap in
        unless vaddr <=? USER_TOP throws err_InvalidArgument 0 in
        let? _ := check_root asid pgd 1 in
        let? pudSlot := found (lookupPUDSlot pgd vaddr) in
        let* old := entry_get pudSlot in
        unless negb ((entry_type old =? TABLE) || (entry_type old =? BLOCK)) throws err_type_only seL4_DeleteFirst in
        let pude := table_new (pptr_to_paddr pd) in
        do* set_restart in
        performPageDirectoryInvocationMap (cap_page_directory_cap asid pd true vaddr) cte pude pudSlot
    | _ => fail AssertFail
    end.

Definition decodeARMPageTableInvocation (invLabel len cte : Z) (c : cap) (extraCaps : list Z) (buffer : Z) :
    M kstate exception_t :=
  if invLabel =? ARMPageTableUnmap then
    let* final := isFinalCapability cte in
    unless final throws err_type_only seL4_RevokeFirst in
    do* set_restart in performPageTableInvocationUnmap c cte
  else
    unless invLabel =? ARMPageTableMap throws err_type_only seL4_IllegalOperation in
    let* root := excap extraCaps 0 in
    unless (2 <=? len) && negb (root =? 0) throws err_type_only seL4_TruncatedMessage in
    match c with
    | cap_page_table_cap _ pt isMapped _ =>
        unless negb isMapped throws err_InvalidCapability 0 in
        let* w := getSyscallArg 0 buffer in
        let vaddr := Z.ldiff w (MASK PD_INDEX_OFFSET) in
        let* pgdCap := slot_cap root in
        let? '(asid, pgd) := root_of pgdCap in
        unless vaddr <=? USER_TOP throws err_InvalidArgument 0 in
        let? _ := check_root asid pgd 1 in
        let? pdSlot := found (lookupPDSlot pgd vaddr) in
        let* old := entry_get pdSlot in
        unless negb ((entry_type old =? TABLE) || (entry_type old =? BLOCK)) throws err_type_only seL4_DeleteFirst in
        let pde := table_new (pptr_to_paddr pt) in
        do* set_restart in
        performPageTableInvocationMap (cap_page_table_cap asid pt true vaddr) cte pde pdSlot
    | _ => fail AssertFail
    end.

(** The entry for a frame of this size. *)
Definition user_entry (page_size : vm_page_size) (paddr : Z) (r : vm_rights) (attributes : Z) : Z :=
  match page_size with
  | ARMSmallPage => makeUser3rdLevel paddr r attributes
  | ARMLargePage => makeUser2ndLevel paddr r attributes
  | ARMHugePage => makeUser1stLevel paddr r attributes
  end.
(** The entries a frame must not replace. *)
Definition frame_present (page_size : vm_page_size) (e : Z) : bool :=
  match page_size with ARMSmallPage => entry_type e =? TABLE | _ => (entry_type e =? TABLE) || (entry_type e =? BLOCK) end.

(** [ARMPageMap] *)
Definition decode_page_map (len cte : Z) (c : cap) (extraCaps : list Z) (buffer : Z) : M kstate exception_t :=
  match c with
  | cap_frame_cap oldASID pptr frameSize _ rights dev =>
      let* root := excap extraCaps 0 in
      unless (3 <=? len) && negb (root =? 0) throws err_type_only seL4_TruncatedMessage in
      unless oldASID =? 0 throws err_InvalidCapability 0 in
      let* vaddr := getSyscallArg 0 buffer in
      let* attributes := getSyscallArg 2 buffer in
      let* pgdCap := slot_cap root in
      let* w := getSyscallArg 1 buffer in
      let vmRights := maskVMRights rights (rightsFromWord w) in
      let? '(asid, pgd) := root_of pgdCap in
      let? _ := check_root asid pgd 1 in
      unless IS_PAGE_ALIGNED vaddr frameSize throws err_type_only seL4_AlignmentError in
      unless w64 (vaddr + BIT (pageBitsForSize frameSize) - 1) <=? USER_TOP throws err_InvalidArgument 0 in
      let base := pptr_to_paddr pptr in
      let? slot := found (frame_slot frameSize pgd vaddr) in
      let* old := entry_get slot in
      unless negb (frame_present frameSize old) throws err_type_only seL4_DeleteFirst in
      do* set_restart in
      perform_map frameSize asid (cap_frame_cap asid pptr frameSize vaddr rights dev) cte
        (user_entry frameSize base vmRights attributes) slot
  | _ => fail AssertFail
  end.

(** [ARMPageRemap]; the status of the lookup is not looked at. *)
Definition decode_page_remap (len cte : Z) (c : cap) (extraCaps : list Z) (buffer : Z) : M kstate exception_t :=
  match c with
  | cap_frame_cap mappedASID pptr frameSize vaddr rights dev =>
      let* root := excap extraCaps 0 in
      unless (2 <=? len) && negb (root =? 0) throws err_type_only seL4_TruncatedMessage in
      let* attributes := getSyscallArg 1 buffer in
      let* pgdCap := slot_cap root in
      let* w := getSyscallArg 0 buffer in
      let vmRights := maskVMRights rights (rightsFromWord w) in
      let? '(asid, pgd) := root_of pgdCap in
      let? _ := check_root asid pgd 1 in
      unless mappedASID =? asid throws err_InvalidCapability 0 in
      let base := pptr_to_paddr pptr in
      let* '(_, slot) := frame_slot frameSize pgd vaddr in
      do* set_restart in
      perform_map frameSize asid c cte (user_entry frameSize base vmRights attributes) slot
  | _ => fail AssertFail
  end.

(** The cache operations on a frame. *)
Definition decode_page_flush (invLabel len : Z) (c : cap) (buffer : Z) : M kstate exception_t :=
  match c with
  | cap_frame_cap asid pptr frameSize vaddr _ _ =>
      unless 2 <=? len throws err_type_only seL4_TruncatedMessage in
      unless negb (asid =? 0) throws err_type_only seL4_IllegalOperation in
      let* '(status, vspace_root) := findVSpaceForASID asid in
      unless bool_decide (status = EXCEPTION_NONE) throws err_FailedLookup false in
      let* start_ := getSyscallArg 0 buffer in
      let* end_ := getSyscallArg 1 buffer in
      unless start_ <? end_ throws err_InvalidArgument 1 in
      let page_size := BIT (pageBitsForSize frameSize) in
      unless (start_ <? page_size) && (end_ <=? page_size) throws err_InvalidArgument 0 in
      do* set_restart in
      performPageFlush invLabel vspace_root asid (w64 (vaddr + start_)) (w64 (vaddr + end_ - 1)) (w64 (pptr_to_paddr pptr + start_))
  | _ => fail AssertFail
  end.

Definition decodeARMFrameInvocation (invLabel len cte : Z) (c : cap) (extraCaps : list Z) (buffer : Z) : M kstate exception_t :=
  if invLabel =? ARMPageMap then decode_page_map len cte c extraCaps buffer
  else if invLabel =? ARMPageRemap then decode_page_remap len cte c extraCaps buffer
  else if invLabel =? ARMPageUnmap then do* set_restart in performPageInvocationUnmap c cte
  else if is_flush_page invLabel then decode_page_flush invLabel len c buffer
  else if invLabel =? ARMPageGetAddress then
    match c with
    | cap_frame_cap _ pptr _ _ _ _ => do* set_restart in performPageGetAddress pptr
    | _ => fail AssertFail
    end
  else throw (err_type_only seL4_IllegalOperation).

(** The loops that look for an unused pool and an unused identifier: the first
    index from [i] on, of [n] that are left. *)
Fixpoint first_free_pool (i : Z) (n : nat) : M kstate Z :=
  match n with
  | O => ret i
  | S n =>
      let* p := asid_table_get i in
      if negb (p =? 0) then first_free_pool (i + 1) n else ret i
  end.
Fixpoint first_free_asid (asid pool i : Z) (n : nat) : M kstate Z :=
  match n with
  | O => ret i
  | S n =>
      if asid + i =? 0 then first_free_asid asid pool (i + 1) n
      else
        let* root := entry_get (entry_at pool i) in
        if negb (root =? 0) then first_free_asid asid pool (i + 1) n else ret i
  end.

Definition decode_asid_control (invLabel len : Z) (extraCaps : list Z) (buffer : Z) : M kstate exception_t :=
  unless invLabel =? ARMASIDControlMakePool throws err_type_only seL4_IllegalOperation in
  let* parentSlot := excap extraCaps 0 in
  let* rootSlot := excap extraCaps 1 in
  unless (2 <=? len) && negb (parentSlot =? 0) && negb (rootSlot =? 0) throws err_type_only seL4_TruncatedMessage in
  let* index := getSyscallArg 0 buffer in
  let* depth := getSyscallArg 1 buffer in
  let* untyped := slot_cap parentSlot in
  let* root := slot_cap rootSlot in
  let* i := first_free_pool 0 (Z.to_nat nASIDPools) in
  unless negb (i =? nASIDPools) throws err_type_only seL4_DeleteFirst in
  let asid_base := Z.shiftl i asidLowBits in
  match untyped with
  | cap_untyped_cap _ isDevice blockSize frame =>
      unless (blockSize =? seL4_ASIDPoolBits) && negb isDevice throws err_InvalidCapability 1 in
      let* status := ensureNoChildren parentSlot in
      if negb (bool_decide (status = EXCEPTION_NONE)) then ret status
      else
        let* '(status, destSlot) := lookupTargetSlot root index depth in
        if negb (bool_decide (status = EXCEPTION_NONE)) then ret status
        else
          let* status := ensureEmptySlot destSlot in
          if negb (bool_decide (status = EXCEPTION_NONE)) then ret status
          else do* set_restart in performASIDControlInvocation frame destSlot parentSlot asid_base
  | _ => throw (err_InvalidCapability 1)
  end.

Definition decode_asid_pool (invLabel : Z) (c : cap) (extraCaps : list Z) : M kstate exception_t :=
  match c with
  | cap_asid_pool_cap base poolPtr =>
      unless invLabel =? ARMASIDPoolAssign throws err_type_only seL4_IllegalOperation in
      let* vspaceCapSlot := excap extraCaps 0 in
      unless negb (vspaceCapSlot =? 0) throws err_type_only seL4_TruncatedMessage in
      let* vspaceCap := slot_cap vspaceCapSlot in
      match vspaceCap with
      | cap_page_global_directory_cap _ _ false =>
          let* pool := asid_table_get (Z.shiftr base asidLowBits) in
          unless negb (pool =? 0) throws (do* err_FailedLookup false in set_lookup_fault lookup_fault_invalid_root) in
          unless pool =? poolPtr throws err_InvalidCapability 0 in
          let* i := first_free_asid base pool 0 (Z.to_nat (BIT asidLowBits)) in
          unless negb (i =? BIT asidLowBits) throws err_type_only seL4_DeleteFirst in
          do* set_restart in performASIDPoolInvocation (base + i) pool vspaceCapSlot
      | _ => throw (err_InvalidCapability 1)
      end
  | _ => fail AssertFail
  end.

Definition decodeARMMMUInvocation (invLabel len cte : Z) (c : cap) (extraCaps : list Z) (buffer : Z) : M kstate exception_t :=
  match c with
  | cap_page_global_directory_cap _ _ _ => decodeARMPageGlobalDirectoryInvocation invLabel len c buffer
  | cap_page_upper_directory_cap _ _ _ _ => decodeARMPageUpperDirectoryInvocation invLabel len cte c extraCaps buffer
  | cap_page_directory_cap _ _ _ _ => decodeARMPageDirectoryInvocation invLabel len cte c extraCaps buffer
  | cap_page_table_cap _ _ _ _ => decodeARMPageTableInvocation invLabel len cte c extraCaps buffer
  | cap_frame_cap _ _ _ _ _ _ => decodeARMFrameInvocation invLabel len cte c extraCaps buffer
  | cap_asid_control_cap => decode_asid_control invLabel len extraCaps buffer
  | cap_asid_pool_cap _ _ => decode_asid_pool invLabel c extraCaps
  | _ => fail AssertFail
  end.
End Mmu.
