(* ===== verification/KSyscall.v ===== *)
(** * System calls and kernel entry

    [decodeInvocation] of kernel/src/object/objecttype.c and the entry points of
    kernel/src/api/syscall.c.  A kernel entry runs its handler, then the
    scheduler, then activates the thread the scheduler chose. *)

From S2P Require Import Prelude KCaps KState KSched KCspace KMdb KMsg KVspace KIpc KDelete KUntyped KInvoke KInterrupt KTcb KMmu.

(** The system calls of kernel/libsel4/include/api/syscall.xml. *)
Inductive syscall_t : Type := SysCall | SysReplyRecv | SysSend | SysNBSend | SysRecv | SysReply | SysYield | SysNBRecv.

(** [enum vm_fault_type]. *)
Inductive vm_fault_type_t : Type := ARMDataAbort | ARMPrefetchAbort.

Section Syscall.
Context `{C : KConfig} `{P : KPlatform}.

(** ** Invocations *)

Definition performInvocation_Endpoint (ep badge : Z) (canGrant canGrantReply block call : bool) : M kstate exception_t :=
  let* cur := gets ksCurThread in
  do* sendIPC block call badge canGrant canGrantReply cur ep in
  ret EXCEPTION_NONE.
Definition performInvocation_Notification (ntfn badge : Z) : M kstate exception_t :=
  do* sendSignal ntfn badge in ret EXCEPTION_NONE.
Definition performInvocation_Reply (thread slot : Z) (canGrant : bool) : M kstate exception_t :=
  let* cur := gets ksCurThread in
  do* doReplyTransfer cur thread slot canGrant in
  ret EXCEPTION_NONE.

Definition Arch_decodeInvocation (invLabel len slot : Z) (c : cap) (excaps : list Z) (buffer : Z) : M kstate exception_t :=
  decodeARMMMUInvocation invLabel len slot c excaps buffer.

Definition decodeInvocation (fuel : nat) (invLabel len slot : Z) (c : cap) (excaps : list Z) (block call : bool) (buffer : Z) :
    M kstate exception_t :=
  if isArchCap c then Arch_decodeInvocation invLabel len slot c excaps buffer
  else match c with
  | cap_null_cap | cap_zombie_cap _ _ => throw (err_InvalidCapability 0)
  | cap_endpoint_cap badge canGrantReply canGrant canSend _ ep =>
      if negb canSend then throw (err_InvalidCapability 0)
      else do* set_restart in performInvocation_Endpoint ep badge canGrant canGrantReply block call
  | cap_notification_cap badge _ canSend ntfn =>
      if negb canSend then throw (err_InvalidCapability 0)
      else do* set_restart in performInvocation_Notification ntfn badge
  | cap_reply_cap canGrant master tcb =>
      if master then throw (err_InvalidCapability 0)
      else do* set_restart in performInvocation_Reply tcb slot canGrant
  | cap_thread_cap _ => decodeTCBInvocation fuel invLabel len c slot excaps call buffer
  | cap_domain_cap => decodeDomainInvocation invLabel len excaps buffer
  | cap_cnode_cap _ _ _ _ => decodeCNodeInvocation fuel invLabel len c excaps buffer
  | cap_untyped_cap _ _ _ _ => decodeUntypedInvocation invLabel len slot c excaps call buffer
  | cap_irq_control_cap => decodeIRQControlInvocation invLabel len slot excaps buffer
  | cap_irq_handler_cap irq => decodeIRQHandlerInvocation invLabel irq excaps
  | _ => fail AssertFail
  end.

(** A fault for the thread's handler. *)
Definition raise (fault : seL4_Fault_t) (thread : Z) : M kstate unit :=
  do* modify (upd_current_fault (fun _ => fault)) in handleFault thread.

(** What [handleInvocation] does with the result of [decodeInvocation]. *)
Definition finish_invocation (thread : Z) (isCall : bool) (status : exception_t) : M kstate exception_t :=
  if bool_decide (status = EXCEPTION_PREEMPTED) then ret status
  else if bool_decide (status = EXCEPTION_SYSCALL_ERROR) then
    do* (if isCall then replyFromKernel_error thread else ret tt) in ret EXCEPTION_NONE
  else
    let* t := tcb_get thread in
    do* (if bool_decide (tsType t = ThreadState_Restart) then
           do* (if isCall then replyFromKernel_success_empty thread else ret tt) in
           setThreadState thread ThreadState_Running
         else ret tt) in
    ret EXCEPTION_NONE.

Definition handleInvocation (fuel : nat) (isCall isBlocking : bool) : M kstate exception_t :=
  let* thread := gets ksCurThread in
  let* w := getRegister thread msgInfoRegister in
  let info := messageInfoFromWord w in
  let* cptr := getRegister thread capRegister in
  let* '(status, c, slot) := lookupCapAndSlot thread cptr in
  if negb (bool_decide (status = EXCEPTION_NONE)) then
    do* modify (upd_current_fault (fun _ => seL4_Fault_CapFault cptr false)) in
    do* (if isBlocking then handleFault thread else ret tt) in
    ret EXCEPTION_NONE
  else
    let* buffer := lookupIPCBuffer false thread in
    let* status := lookupExtraCaps thread buffer info in
    if negb (bool_decide (status = EXCEPTION_NONE)) then
      do* (if isBlocking then handleFault thread else ret tt) in ret EXCEPTION_NONE
    else
      let len := if (mi_length info >? n_msgRegisters) && (buffer =? 0) then n_msgRegisters else mi_length info in
      let* excaps := gets current_extra_caps in
      let* status := decodeInvocation fuel (mi_label info) len slot c excaps isBlocking isCall buffer in
      finish_invocation thread isCall status.

(** ** Replying, receiving and yielding *)

Definition handleReply : M kstate unit :=
  let* cur := gets ksCurThread in
  let callerSlot := TCB_PTR_CTE_PTR cur tcbCaller in
  let* callerCap := slot_cap callerSlot in
  match callerCap with
  | cap_reply_cap canGrant false caller =>
      do* assert_ (negb (caller =? cur)) in
      doReplyTransfer cur caller callerSlot canGrant
  | cap_null_cap => ret tt
  | _ => fail AssertFail
  end.

Definition missing_endpoint (epCPtr thread : Z) : M kstate unit :=
  do* set_lookup_fault (lookup_fault_missing_capability 0) in raise (seL4_Fault_CapFault epCPtr true) thread.

Definition handleRecv (isBlocking : bool) : M kstate unit :=
  let* cur := gets ksCurThread in
  let* epCPtr := getRegister cur capRegister in
  let* '(status, c) := lookupCap cur epCPtr in
  if negb (bool_decide (status = EXCEPTION_NONE)) then raise (seL4_Fault_CapFault epCPtr true) cur
  else match c with
  | cap_endpoint_cap _ _ _ _ canReceive _ =>
      if negb canReceive then missing_endpoint epCPtr cur
      else do* deleteCallerCap cur in receiveIPC cur c isBlocking
  | cap_notification_cap _ canReceive _ ntfnPtr =>
      let* n := ntfn_get ntfnPtr in
      if negb canReceive || (negb (ntfnBoundTCB n =? 0) && negb (ntfnBoundTCB n =? cur)) then missing_endpoint epCPtr cur
      else receiveSignal cur c isBlocking
  | _ => missing_endpoint epCPtr cur
  end.

Definition handleYield : M kstate unit :=
  let* cur := gets ksCurThread in
  do* tcbSchedDequeue cur in
  do* tcbSchedAppend cur in
  rescheduleRequired.

(** ** Entry points *)

(** [Arch_finaliseInterrupt] and [handleSpuriousIRQ] do nothing here. *)
Definition pending_interrupt : M kstate unit :=
  let* irq := gets getActiveIRQ in match irq with Some irq => handleInterrupt irq | None => ret tt end.

Definition leave_kernel : M kstate exception_t := do* schedule in do* activateThread in ret EXCEPTION_NONE.

Definition invoke_entry (fuel : nat) (isCall isBlocking : bool) : M kstate unit :=
  let* r := handleInvocation fuel isCall isBlocking in
  if negb (bool_decide (r = EXCEPTION_NONE)) then pending_interrupt else ret tt.

Definition handleSyscall (fuel : nat) (syscall : syscall_t) : M kstate exception_t :=
  do* match syscall with
      | SysSend => invoke_entry fuel false true
      | SysNBSend => invoke_entry fuel false false
      | SysCall => invoke_entry fuel true true
      | SysRecv => handleRecv true
      | SysReply => handleReply
      | SysReplyRecv => do* handleReply in handleRecv true
      | SysNBRecv => handleRecv false
      | SysYield => handleYield
      end in
  leave_kernel.

Definition handleInterruptEntry : M kstate exception_t := do* pending_interrupt in leave_kernel.

Definition handleUnknownSyscall (w : Z) : M kstate exception_t :=
  let* cur := gets ksCurThread in do* raise (seL4_Fault_UnknownSyscall w) cur in leave_kernel.
Definition handleUserLevelFault (w_a w_b : Z) : M kstate exception_t :=
  let* cur := gets ksCurThread in do* raise (seL4_Fault_UserException w_a w_b) cur in leave_kernel.

Definition handleVMFault (thread : Z) (vm_faultType : vm_fault_type_t) : M kstate exception_t :=
  do* match vm_faultType with
      | ARMDataAbort =>
          let* addr := gets getFAR in
          let* fault := gets getESR in
          modify (upd_current_fault (fun _ => seL4_Fault_VMFault addr (Z.land fault (MASK 32)) false))
      | ARMPrefetchAbort =>
          let* pc := getRestartPC thread in
          let* fault := gets getESR in
          modify (upd_current_fault (fun _ => seL4_Fault_VMFault pc (Z.land fault (MASK 32)) true))
      end in
  ret EXCEPTION_FAULT.
Definition handleVMFaultEvent (vm_faultType : vm_fault_type_t) : M kstate exception_t :=
  let* cur := gets ksCurThread in
  let* status := handleVMFault cur vm_faultType in
  do* (if negb (bool_decide (status = EXCEPTION_NONE)) then handleFault cur else ret tt) in
  leave_kernel.
End Syscall.
