(* ===== verification/KMdbThms.v ===== *)
(** * The mapping database is a set of lists

    Every operation on capability slots keeps the doubly linked lists of the
    mapping database intact; what it does to them is an operation on lists. *)

From S2P Require Import Prelude Dll KCaps KState KSched KSchedInv KCapThms KCspace KMdb.

(** ** Links of the database *)
Definition mn (k : kstate) (p : Z) : Z := from_option (fun e => mdbNext (cteMDBNode e)) 0 (k_cte k !! p).
Definition mp (k : kstate) (p : Z) : Z := from_option (fun e => mdbPrev (cteMDBNode e)) 0 (k_cte k !! p).
Definition cap_at (k : kstate) (p : Z) : cap := from_option cte_cap cap_null_cap (k_cte k !! p).

(** The lists [L] are the mapping database of [k]: each is linked up, they share
    no slot, and they hold exactly the slots with a capability; an empty slot is
    linked to nothing. *)
Record mdb_ok (L : list (list Z)) (k : kstate) : Prop := {
  mo_segs : Forall (fun xs => dseg (mn k) (mp k) 0 xs 0) L;
  mo_nodup : NoDup (concat L);
  mo_in : forall p, p ∈ concat L -> is_Some (k_cte k !! p);
  mo_nonzero : forall p, is_Some (k_cte k !! p) -> p <> 0;
  mo_null : forall p, p ∉ concat L -> mn k p = 0 /\ mp k p = 0;
  mo_caps : forall p, is_Some (k_cte k !! p) -> p ∈ concat L <-> is_null (cap_at k p) = false }.

Lemma mdb_ok_cte L k k' : k_cte k' = k_cte k -> mdb_ok L k -> mdb_ok L k'.
Proof. intros E [H1 H2 H3 H4 H5 H6]. split; unfold mn, mp, cap_at in *; by rewrite ?E. Qed.

Lemma dseg_next nx pv p xs n a : dseg nx pv p xs n -> a ∈ xs -> nx a = n \/ nx a ∈ xs /\ pv (nx a) = a.
Proof.
  revert p. induction xs as [|x xs IH]; intros p Hs Ha; [set_solver |]. destruct Hs as (H0 & H1 & H2 & H3).
  apply list.elem_of_cons in Ha as [->|Ha].
  - destruct xs as [|y xs]; [by left |]. right. simpl in H2. destruct H3 as (_ & H4 & _). rewrite H2. split; [set_solver | done].
  - destruct (IH x H3 Ha) as [|[Hin E]]; [by left |]. right. split; [set_solver | done].
Qed.

(** The links mirror each other. *)
Definition mirror (nx pv : Z -> Z) : Prop :=
  nx 0 = 0 /\ pv 0 = 0 /\ forall a b, a <> 0 -> b <> 0 -> nx a = b <-> pv b = a.

(** Exchange of two slots. *)
Definition swap (a b x : Z) : Z := if decide (x = a) then b else if decide (x = b) then a else x.

(** The updates of [cteSwap], in its order, exchange two slots, neighbours or not. *)
Lemma swap_links nx pv s1 s2 : mirror nx pv -> s1 <> 0 -> s2 <> 0 -> s1 <> s2 -> nx s1 <> s1 -> nx s2 <> s2 ->
  let p1 := pv s1 in let n1 := nx s1 in
  let nxA := if decide (p1 = 0) then nx else put nx p1 s2 in
  let pvB := if decide (n1 = 0) then pv else put pv n1 s2 in
  let nxD := put (put nxA s1 (nxA s2)) s2 n1 in
  let pvD := put (put pvB s1 (pvB s2)) s2 p1 in
  forall y, (if decide (pvB s2 = 0) then nxD else put nxD (pvB s2) s1) y = swap s1 s2 (nx (swap s1 s2 y)) /\
            (if decide (nxA s2 = 0) then pvD else put pvD (nxA s2) s1) y = swap s1 s2 (pv (swap s1 s2 y)).
Proof.
  intros (Z1 & Z2 & Hm) H1 H2 H12 N1 N2 p1 n1 nxA pvB nxD pvD y.
  assert (n1 = s2 <-> pv s2 = s1) as F1 by (apply (Hm s1 s2); done).
  assert (nx s2 = s1 <-> p1 = s2) as F2 by (apply (Hm s2 s1); done).
  assert (p1 <> s1) as P1 by (intros E; apply N1; by apply (Hm s1 s1)).
  assert (pv s2 <> s2) as P2 by (intros E; apply N2; by apply (Hm s2 s2)).
  destruct (decide (y = 0)) as [->|Hy].
  - unfold pvD, nxD, pvB, nxA, p1, n1, put, swap in *. clear pvD nxD pvB nxA p1 n1 F1 F2.
    split; repeat (case_decide; try congruence).
  - pose proof (Hm y s1 Hy H1) as G1. pose proof (Hm y s2 Hy H2) as G2.
    pose proof (Hm s1 y H1 Hy) as G3. pose proof (Hm s2 y H2 Hy) as G4. fold p1 in G1. fold n1 in G3.
    assert (forall P Q : Prop, Decision Q -> (P <-> Q) -> P /\ Q \/ ~ P /\ ~ Q) as Hiff.
    { intros P Q [HQ|HQ] HPQ; tauto. }
    apply Hiff in F1, F2, G1, G2, G3, G4; try apply _. clear Hm Hiff.
    unfold pvD, nxD, pvB, nxA, p1, n1, put, swap in *. clear pvD nxD pvB nxA p1 n1.
    destruct F1 as [[? ?]|[? ?]], F2 as [[? ?]|[? ?]]; try congruence;
    destruct G1 as [[? ?]|[? ?]], G2 as [[? ?]|[? ?]]; try congruence;
    destruct G3 as [[? ?]|[? ?]], G4 as [[? ?]|[? ?]]; try congruence;
    split; repeat (case_decide; try congruence).
Qed.

(** ** Symbolic execution on views

    [sees k v]: the slots of [k] are described by the functions of [v]. *)
Record view : Type := mkView {
  v_nx : Z -> Z;
  v_pv : Z -> Z;
  v_cap : Z -> cap;
  v_rev : Z -> bool;
  v_bad : Z -> bool;
  v_dom : Z -> Prop;
  v_rest : kstate }.

Definition nocte (k : kstate) : kstate := upd_k_cte (fun _ => ∅) k.
Definition slot_of (v : view) (p : Z) : cte_t :=
  mkCte (v_cap v p) (mkMdb (v_nx v p) (v_rev v p) (v_bad v p) (v_pv v p)).

Record sees (k : kstate) (v : view) : Prop := {
  se_some : forall p, v_dom v p -> k_cte k !! p = Some (slot_of v p);
  se_none : forall p, ~ v_dom v p -> k_cte k !! p = None;
  se_rest : nocte k = v_rest v }.

Definition view_of (k : kstate) : view :=
  mkView (mn k) (mp k) (cap_at k) (fun p => from_option (fun e => mdbRevocable (cteMDBNode e)) false (k_cte k !! p))
    (fun p => from_option (fun e => mdbFirstBadged (cteMDBNode e)) false (k_cte k !! p))
    (fun p => is_Some (k_cte k !! p)) (nocte k).

Lemma sees_view_of k : sees k (view_of k).
Proof.
  split; [| |done].
  - intros p [e He]. unfold view_of, slot_of, mn, mp, cap_at. simpl. rewrite He. by destruct e as [c []].
  - intros p Hn. simpl in Hn. by apply eq_None_not_Some.
Qed.

Lemma sees_mn k v p : sees k v -> v_dom v p -> mn k p = v_nx v p.
Proof. intros Hs Hd. unfold mn. by rewrite (se_some _ _ Hs p Hd). Qed.
Lemma sees_mp k v p : sees k v -> v_dom v p -> mp k p = v_pv v p.
Proof. intros Hs Hd. unfold mp. by rewrite (se_some _ _ Hs p Hd). Qed.
Lemma sees_cap k v p : sees k v -> v_dom v p -> cap_at k p = v_cap v p.
Proof. intros Hs Hd. unfold cap_at. by rewrite (se_some _ _ Hs p Hd). Qed.
Lemma sees_none k v p : sees k v -> ~ v_dom v p -> mn k p = 0 /\ mp k p = 0 /\ cap_at k p = cap_null_cap.
Proof. intros Hs Hd. unfold mn, mp, cap_at. by rewrite (se_none _ _ Hs p Hd). Qed.

Lemma wp_cte_get k v p (P : cte_t -> kstate -> Prop) F : sees k v -> v_dom v p -> p <> 0 ->
  P (slot_of v p) k -> wp (cte_get p) P F k.
Proof.
  intros Hs Hd H0 HP. unfold wp, cte_get. by rewrite (proj2 (Z.eqb_neq p 0) H0), (se_some _ _ Hs p Hd).
Qed.

Lemma sees_upd k v v' p e : sees k v -> v_dom v p -> slot_of v' p = e -> v_dom v' = v_dom v -> v_rest v' = v_rest v ->
  (forall q, q <> p -> slot_of v' q = slot_of v q) -> sees (upd_k_cte (insert p e) k) v'.
Proof.
  intros [S1 S2 S3] Hd He Hdom Hr Hq. split.
  - intros q. rewrite Hdom. intros Hq'. simpl. destruct (decide (q = p)) as [->|]; [by rewrite lookup_insert_eq, He |].
    rewrite lookup_insert_ne, Hq by done. by apply S1.
  - intros q. rewrite Hdom. intros Hq'. simpl. rewrite lookup_insert_ne by (intros ->; done). by apply S2.
  - by rewrite Hr.
Qed.

(** One step of the code on a view. *)
Definition with_nx (v : view) (p x : Z) : view :=
  mkView (put (v_nx v) p x) (v_pv v) (v_cap v) (v_rev v) (v_bad v) (v_dom v) (v_rest v).
Definition with_pv (v : view) (p x : Z) : view :=
  mkView (v_nx v) (put (v_pv v) p x) (v_cap v) (v_rev v) (v_bad v) (v_dom v) (v_rest v).
Definition with_cap (v : view) (p : Z) (c : cap) : view :=
  mkView (v_nx v) (v_pv v) (put (v_cap v) p c) (v_rev v) (v_bad v) (v_dom v) (v_rest v).
Definition with_mdb (v : view) (p : Z) (m : mdb_node_t) : view :=
  mkView (put (v_nx v) p (mdbNext m)) (put (v_pv v) p (mdbPrev m)) (v_cap v) (put (v_rev v) p (mdbRevocable m))
    (put (v_bad v) p (mdbFirstBadged m)) (v_dom v) (v_rest v).

Ltac view_step Hs Hd :=
  unfold cte_upd; rewrite wp_bind; eapply wp_cte_get; [exact Hs | exact Hd | assumption |]; rewrite wp_modify;
  match goal with H : forall k', _ -> _ |- _ => apply H end;
  eapply sees_upd; [exact Hs | exact Hd | | reflexivity | reflexivity |];
  [unfold slot_of; simpl; by rewrite ?put_eq | intros q Hq; unfold slot_of; simpl; by rewrite ?put_ne by done].

Lemma wp_set_next k v p x (P : unit -> kstate -> Prop) F : sees k v -> v_dom v p -> p <> 0 ->
  (forall k', sees k' (with_nx v p x) -> P tt k') -> wp (set_next p x) P F k.
Proof. intros Hs Hd H0 HP. unfold set_next. view_step Hs Hd. Qed.
Lemma wp_set_prev k v p x (P : unit -> kstate -> Prop) F : sees k v -> v_dom v p -> p <> 0 ->
  (forall k', sees k' (with_pv v p x) -> P tt k') -> wp (set_prev p x) P F k.
Proof. intros Hs Hd H0 HP. unfold set_prev. view_step Hs Hd. Qed.
Lemma wp_set_cap k v p c (P : unit -> kstate -> Prop) F : sees k v -> v_dom v p -> p <> 0 ->
  (forall k', sees k' (with_cap v p c) -> P tt k') -> wp (set_cap p c) P F k.
Proof. intros Hs Hd H0 HP. unfold set_cap. view_step Hs Hd. Qed.
Lemma wp_set_mdb k v p m (P : unit -> kstate -> Prop) F : sees k v -> v_dom v p -> p <> 0 ->
  (forall k', sees k' (with_mdb v p m) -> P tt k') -> wp (set_mdb p m) P F k.
Proof. intros Hs Hd H0 HP. unfold set_mdb. destruct m. view_step Hs Hd. Qed.

(** ** The database of a view *)
Record mdb_view (L : list (list Z)) (v : view) : Prop := {
  mv_segs : Forall (fun xs => dseg (v_nx v) (v_pv v) 0 xs 0) L;
  mv_nodup : NoDup (concat L);
  mv_in : forall p, p ∈ concat L -> v_dom v p;
  mv_nonzero : forall p, v_dom v p -> p <> 0;
  mv_null : forall p, v_dom v p -> p ∉ concat L -> v_nx v p = 0 /\ v_pv v p = 0;
  mv_caps : forall p, v_dom v p -> p ∈ concat L <-> is_null (v_cap v p) = false }.

Lemma mdb_ok_view L k : mdb_ok L k -> mdb_view L (view_of k).
Proof. intros [H1 H2 H3 H4 H5 H6]. split; try done. intros p _. apply H5. Qed.

Lemma in_concat_iff (L : list (list Z)) p : p ∈ concat L <-> exists xs, xs ∈ L /\ p ∈ xs.
Proof. rewrite list_elem_of_In, in_concat. setoid_rewrite list_elem_of_In. done. Qed.

Lemma sees_mdb_ok L k v : sees k v -> mdb_view L v -> (forall p, Decision (v_dom v p)) -> mdb_ok L k.
Proof.
  intros Hs [H1 H2 H3 H4 H5 H6] Hdec. assert (forall p, is_Some (k_cte k !! p) <-> v_dom v p) as Hd.
  { intros p. destruct (Hdec p) as [Hp|Hp]; [rewrite (se_some _ _ Hs p Hp) | rewrite (se_none _ _ Hs p Hp)].
    - split; eauto.
    - split; [by intros [? ?] | done]. }
  split.
  - rewrite list.Forall_forall in H1 |- *. intros xs Hxs. eapply dseg_ext; [|by apply H1]. intros x Hx.
    assert (v_dom v x) by (apply H3, in_concat_iff; eauto).
    by rewrite (sees_mn k v), (sees_mp k v).
  - done.
  - intros p Hp. by apply Hd, H3.
  - intros p Hp. by apply H4, Hd.
  - intros p Hp. destruct (Hdec p) as [Hd'|Hd']; [|by destruct (sees_none k v p Hs Hd') as (-> & -> & _)].
    rewrite (sees_mn k v), (sees_mp k v) by done. by apply H5.
  - intros p Hp%Hd. rewrite (sees_cap k v) by done. by apply H6.
Qed.

Lemma concat_nodup_in (L : list (list Z)) xs : NoDup (concat L) -> xs ∈ L -> NoDup xs.
Proof.
  induction L as [|ys L IH]; [set_solver |]. simpl. intros (H1 & H2 & H3)%list.NoDup_app [->|Hin]%list.elem_of_cons; auto.
Qed.

(** Two different lists of the database share no slot. *)
Lemma concat_disjoint (L : list (list Z)) xs ys p : NoDup (concat L) -> xs ∈ L -> ys ∈ L -> p ∈ xs -> p ∈ ys -> xs = ys.
Proof.
  induction L as [|zs L IH]; [set_solver |]. simpl. intros (H1 & H2 & H3)%list.NoDup_app Hx Hy Px Py.
  assert (forall ws, ws ∈ L -> p ∈ ws -> p ∈ concat L) as Hc by (intros ws ? ?; apply in_concat_iff; eauto).
  apply list.elem_of_cons in Hx as [->|Hx], Hy as [->|Hy]; auto.
  - destruct (H2 p Px). eauto.
  - destruct (H2 p Py). eauto.
Qed.

Lemma view_split L v p : mdb_view L v -> p ∈ concat L ->
  exists l r, (l ++ p :: r) ∈ L /\ v_pv v p = List.last l 0 /\ v_nx v p = List.hd 0 r.
Proof.
  intros HV Hp. apply in_concat_iff in Hp as (xs & Hxs & Hp). apply list_elem_of_split in Hp as (l & r & ->).
  exists l, r. split; [done |]. pose proof (mv_segs _ _ HV) as HF. rewrite list.Forall_forall in HF. specialize (HF _ Hxs).
  rewrite dseg_app in HF. by destruct HF as [_ (_ & H1 & H2 & _)].
Qed.

Lemma view_mirror L v : mdb_view L v -> (forall p, Decision (v_dom v p)) -> (forall p, ~ v_dom v p -> v_nx v p = 0 /\ v_pv v p = 0) ->
  mirror (v_nx v) (v_pv v).
Proof.
  intros HV Hdec Hout. assert (~ v_dom v 0) as H0 by (intros H; by apply (mv_nonzero _ _ HV 0 H)).
  assert (forall p, p ∉ concat L -> v_nx v p = 0 /\ v_pv v p = 0) as Hn.
  { intros p Hp. destruct (Hdec p) as [Hd|Hd]; [by apply (mv_null _ _ HV) | by apply Hout]. }
  split; [by apply Hout | split; [by apply Hout |]]. intros a b Ha Hb. split; intros E.
  - destruct (decide (a ∈ concat L)) as [Hin|Hin]; [|destruct (Hn a Hin); congruence].
    destruct (view_split L v a HV Hin) as (l & r & Hxs & _ & E2). rewrite E in E2. destruct r as [|c r]; [done |]. simpl in E2. subst c.
    pose proof (mv_segs _ _ HV) as HF. rewrite list.Forall_forall in HF. specialize (HF _ Hxs).
    rewrite dseg_app in HF. by destruct HF as [_ (_ & _ & _ & (_ & H & _))].
  - destruct (decide (b ∈ concat L)) as [Hin|Hin]; [|destruct (Hn b Hin); congruence].
    destruct (view_split L v b HV Hin) as (l & r & Hxs & E1 & _). rewrite E in E1.
    destruct l as [|c l _] using rev_ind; [done |]. rewrite last_app in E1. subst c.
    pose proof (mv_segs _ _ HV) as HF. rewrite list.Forall_forall in HF. specialize (HF _ Hxs). rewrite <- app_assoc in HF.
    rewrite dseg_app in HF. by destruct HF as [_ (_ & _ & H & _)].
Qed.

(** The conditional updates of the code. *)
Definition cond_nx (v : view) (p x : Z) : view :=
  mkView (if decide (p = 0) then v_nx v else put (v_nx v) p x) (v_pv v) (v_cap v) (v_rev v) (v_bad v) (v_dom v) (v_rest v).
Definition cond_pv (v : view) (p x : Z) : view :=
  mkView (v_nx v) (if decide (p = 0) then v_pv v else put (v_pv v) p x) (v_cap v) (v_rev v) (v_bad v) (v_dom v) (v_rest v).

Lemma wp_cond_next k v p x (P : unit -> kstate -> Prop) F : sees k v -> (p <> 0 -> v_dom v p) ->
  (forall k', sees k' (cond_nx v p x) -> P tt k') -> wp (if negb (p =? 0) then set_next p x else ret tt) P F k.
Proof.
  intros Hs Hd HP. unfold cond_nx in HP. destruct (p =? 0) eqn:E; [apply Z.eqb_eq in E | apply Z.eqb_neq in E]; cbn [negb].
  - rewrite decide_True in HP by done. wp_steps. apply HP. by destruct v.
  - rewrite decide_False in HP by done. eapply wp_set_next; eauto.
Qed.
Lemma wp_cond_prev k v p x (P : unit -> kstate -> Prop) F : sees k v -> (p <> 0 -> v_dom v p) ->
  (forall k', sees k' (cond_pv v p x) -> P tt k') -> wp (if negb (p =? 0) then set_prev p x else ret tt) P F k.
Proof.
  intros Hs Hd HP. unfold cond_pv in HP. destruct (p =? 0) eqn:E; [apply Z.eqb_eq in E | apply Z.eqb_neq in E]; cbn [negb].
  - rewrite decide_True in HP by done. wp_steps. apply HP. by destruct v.
  - rewrite decide_False in HP by done. eapply wp_set_prev; eauto.
Qed.

Lemma view_neighbours L v p : mdb_view L v -> v_dom v p ->
  (v_pv v p <> 0 -> v_dom v (v_pv v p)) /\ (v_nx v p <> 0 -> v_dom v (v_nx v p)) /\ v_nx v p <> p.
Proof.
  intros HV Hp. pose proof (mv_nonzero _ _ HV p Hp) as H0. destruct (decide (p ∈ concat L)) as [Hin|Hin].
  - destruct (view_split L v p HV Hin) as (l & r & Hxs & -> & ->).
    assert (forall q, q ∈ l ++ p :: r -> v_dom v q) as Hd by (intros q Hq; apply (mv_in _ _ HV), in_concat_iff; eauto).
    split; [|split].
    + intros Hl. apply Hd. pose proof (last_elem' l Hl). set_solver.
    + intros Hr. apply Hd. pose proof (hd_in r Hr). set_solver.
    + pose proof (concat_nodup_in _ _ (mv_nodup _ _ HV) Hxs) as Hnd. apply list.NoDup_app in Hnd as (_ & _ & Hnd).
      apply list.NoDup_cons in Hnd as [Hnr _]. destruct r as [|q r]; [done |]. simpl. intros ->. set_solver.
  - destruct (mv_null _ _ HV p Hp Hin) as [-> ->]. done.
Qed.

(** ** Exchanging slots *)

Lemma swap_involutive a b x : swap a b (swap a b x) = x.
Proof. unfold swap. repeat case_decide; congruence. Qed.
Lemma swap_0 a b : a <> 0 -> b <> 0 -> swap a b 0 = 0.
Proof. intros. unfold swap. repeat case_decide; congruence. Qed.
Lemma swap_nonzero a b x : a <> 0 -> b <> 0 -> x <> 0 -> swap a b x <> 0.
Proof. intros. unfold swap. repeat case_decide; congruence. Qed.

Lemma dseg_map f nx pv nx' pv' p xs n : (forall x, x <> 0 -> f x <> 0) ->
  (forall x, nx' (f x) = f (nx x)) -> (forall x, pv' (f x) = f (pv x)) ->
  dseg nx pv p xs n -> dseg nx' pv' (f p) (map f xs) (f n).
Proof.
  intros H0 Hn Hp. revert p. induction xs as [|x xs IH]; intros p Hs; [done |]. destruct Hs as (H1 & H2 & H3 & H4).
  cbn [map dseg]. split; [by apply H0 |]. split; [by rewrite Hp, H2 |]. split; [|by apply IH].
  rewrite Hn, H3. by destruct xs.
Qed.

Lemma concat_map_map (f : Z -> Z) (L : list (list Z)) : concat (map (map f) L) = map f (concat L).
Proof. induction L as [|xs L IH]; [done |]. simpl. by rewrite IH, map_app. Qed.

Lemma in_map_swap a b (l : list Z) x : x ∈ map (swap a b) l <-> swap a b x ∈ l.
Proof.
  rewrite !list_elem_of_In, in_map_iff. split.
  - intros (y & <- & Hy). by rewrite swap_involutive.
  - intros Hy. exists (swap a b x). by rewrite swap_involutive.
Qed.

(** Renaming slots [a] and [b] in a view. *)
Lemma mdb_view_swap L v v' a b : mdb_view L v -> v_dom v a -> v_dom v b -> v_dom v' = v_dom v ->
  (forall y, v_nx v' y = swap a b (v_nx v (swap a b y))) -> (forall y, v_pv v' y = swap a b (v_pv v (swap a b y))) ->
  (forall y, v_dom v y -> is_null (v_cap v' y) = is_null (v_cap v (swap a b y))) ->
  mdb_view (map (map (swap a b)) L) v'.
Proof.
  intros HV Ha Hb Hd Hn Hp Hc. pose proof (mv_nonzero _ _ HV a Ha) as Ha0. pose proof (mv_nonzero _ _ HV b Hb) as Hb0.
  assert (forall y, v_dom v (swap a b y) <-> v_dom v y) as Hsd.
  { intros y. unfold swap. repeat case_decide; subst; done. }
  split; rewrite ?Hd, ?concat_map_map.
  - rewrite list.Forall_forall. intros ys. rewrite list_elem_of_In, in_map_iff. intros (xs & <- & Hxs).
    pose proof (mv_segs _ _ HV) as HF. rewrite list.Forall_forall in HF. rewrite <- list_elem_of_In in Hxs.
    rewrite <- (swap_0 a b Ha0 Hb0) at 1 2.
    eapply dseg_map; [intros x; by apply swap_nonzero | | | by apply HF].
    + intros x. rewrite Hn. by rewrite swap_involutive.
    + intros x. rewrite Hp. by rewrite swap_involutive.
  - apply NoDup_fmap_2_strong; [|by apply HV]. intros x y _ _ E. by rewrite <- (swap_involutive a b x), E, swap_involutive.
  - intros p Hin. apply in_map_swap in Hin. apply Hsd. by apply (mv_in _ _ HV).
  - by apply (mv_nonzero _ _ HV).
  - intros p Hp' Hin. rewrite in_map_swap in Hin. rewrite Hn, Hp.
    destruct (mv_null _ _ HV (swap a b p)) as [-> ->]; [by apply Hsd | done |]. by rewrite swap_0.
  - intros p Hp'. rewrite in_map_swap, Hc by done. apply (mv_caps _ _ HV). by apply Hsd.
Qed.

(** [mdbRevocable] and [mdbFirstBadged] of a slot. *)
Definition flags_at (k : kstate) (p : Z) : bool * bool :=
  from_option (fun e => (mdbRevocable (cteMDBNode e), mdbFirstBadged (cteMDBNode e))) (false, false) (k_cte k !! p).

Lemma sees_flags k v p : sees k v -> v_dom v p -> flags_at k p = (v_rev v p, v_bad v p).
Proof. intros Hs Hd. unfold flags_at. by rewrite (se_some _ _ Hs p Hd). Qed.

#[local] Instance view_dec k p : Decision (v_dom (view_of k) p).
Proof. simpl. apply _. Defined.

Lemma view_of_mirror L k : mdb_ok L k -> mirror (mn k) (mp k).
Proof.
  intros Hk. apply (view_mirror L (view_of k)); [by apply mdb_ok_view | apply _ |].
  intros p Hp. simpl in *. unfold mn, mp. apply eq_None_not_Some in Hp. by rewrite Hp.
Qed.

Lemma view_of_none k p : ~ is_Some (k_cte k !! p) -> mn k p = 0 /\ mp k p = 0 /\ cap_at k p = cap_null_cap /\ flags_at k p = (false, false).
Proof. intros Hp%eq_None_not_Some. unfold mn, mp, cap_at, flags_at. by rewrite Hp. Qed.

(** What a caller of an operation on slots learns. *)
Record slots_changed (L : list (list Z)) (k k' : kstate) (caps : Z -> cap) (flags : Z -> bool * bool) : Prop := {
  sc_mdb : mdb_ok L k';
  sc_caps : forall p, cap_at k' p = caps p;
  sc_flags : forall p, flags_at k' p = flags p;
  sc_dom : forall p, is_Some (k_cte k' !! p) <-> is_Some (k_cte k !! p);
  sc_rest : nocte k' = nocte k }.

Lemma slots_changed_intro L k k' v caps flags : sees k' v -> mdb_view L v -> v_dom v = v_dom (view_of k) ->
  v_rest v = nocte k -> (forall p, is_Some (k_cte k !! p) -> v_cap v p = caps p /\ (v_rev v p, v_bad v p) = flags p) ->
  (forall p, ~ is_Some (k_cte k !! p) -> caps p = cap_null_cap /\ flags p = (false, false)) ->
  slots_changed L k k' caps flags.
Proof.
  intros Hs HV Hd Hr Hin Hout. assert (forall p, Decision (v_dom v p)) as Hdec by (rewrite Hd; apply _). split.
  - by apply (sees_mdb_ok L k' v).
  - intros p. destruct (Hdec p) as [Hp|Hp].
    + rewrite (sees_cap k' v) by done. apply Hin. by rewrite Hd in Hp.
    + rewrite (proj1 (Hout p ltac:(by rewrite Hd in Hp))). by apply (sees_none k' v p).
  - intros p. destruct (Hdec p) as [Hp|Hp].
    + rewrite (sees_flags k' v) by done. apply Hin. by rewrite Hd in Hp.
    + rewrite (proj2 (Hout p ltac:(by rewrite Hd in Hp))). unfold flags_at. by rewrite (se_none _ _ Hs p Hp).
  - intros p. destruct (Hdec p) as [Hp|Hp].
    + rewrite (se_some _ _ Hs p Hp). rewrite Hd in Hp. split; eauto.
    + rewrite (se_none _ _ Hs p Hp). rewrite Hd in Hp. split; [by intros [? ?] | done].
  - rewrite (se_rest _ _ Hs). done.
Qed.

Lemma cteSwap_ok L k s1 s2 c1 c2 : mdb_ok L k -> is_Some (k_cte k !! s1) -> is_Some (k_cte k !! s2) -> s1 <> s2 ->
  is_null c1 = is_null (cap_at k s1) -> is_null c2 = is_null (cap_at k s2) ->
  wp (cteSwap c1 s1 c2 s2) (fun _ k' => slots_changed (map (map (swap s1 s2)) L) k k'
      (put (put (cap_at k) s1 c2) s2 c1) (fun p => flags_at k (swap s1 s2 p))) (fun _ => False) k.
Proof.
  intros Hk H1 H2 H12 E1 E2. pose proof (mdb_ok_view L k Hk) as HV. pose proof (sees_view_of k) as Hs.
  pose proof (mo_nonzero _ _ Hk s1 H1) as Z1. pose proof (mo_nonzero _ _ Hk s2 H2) as Z2.
  destruct (view_neighbours L _ s1 HV H1) as (P1 & N1 & D1). destruct (view_neighbours L _ s2 HV H2) as (P2 & N2 & D2).
  pose proof (swap_links (mn k) (mp k) s1 s2 (view_of_mirror L k Hk) Z1 Z2 H12 D1 D2) as Hlk. cbv zeta in Hlk.
  unfold cteSwap. wp_step. eapply wp_set_cap; [exact Hs | done | done |]. intros k1 Hs1. wp_step.
  eapply wp_set_cap; [exact Hs1 | done | done |]. intros k2 Hs2. wp_step.
  eapply wp_cte_get; [exact Hs2 | done | done |]. cbn [slot_of cteMDBNode mdbPrev mdbNext]. wp_step.
  eapply wp_cond_next; [exact Hs2 | exact P1 |]. intros k3 Hs3. wp_step.
  eapply wp_cond_prev; [exact Hs3 | exact N1 |]. intros k4 Hs4. wp_step.
  eapply wp_cte_get; [exact Hs4 | done | done |]. cbn [slot_of cteMDBNode mdbPrev mdbNext]. wp_step.
  eapply wp_set_mdb; [exact Hs4 | done | done |]. intros k5 Hs5. wp_step.
  eapply wp_set_mdb; [exact Hs5 | done | done |]. intros k6 Hs6. wp_step.
  eapply wp_cond_next; [exact Hs6 | |].
  { simpl. destruct (decide (mn k s1 = 0)); [exact P2 |]. unfold put.
    destruct (decide (s2 = mn k s1)); [by intros _ | exact P2]. }
  intros k7 Hs7. eapply wp_cond_prev; [exact Hs7 | |].
  { simpl. destruct (decide (mp k s1 = 0)); [exact N2 |]. unfold put.
    destruct (decide (s2 = mp k s1)); [by intros _ | exact N2]. }
  intros k8 Hs8. eapply slots_changed_intro; [exact Hs8 | | done | done | |].
  - apply (mdb_view_swap L (view_of k)); [done | done | done | done | | |].
    + intros y. exact (proj1 (Hlk y)).
    + intros y. exact (proj2 (Hlk y)).
    + clear Hlk. intros y _. simpl. unfold put, swap. repeat case_decide; subst; done.
  - clear Hlk. intros p Hp. split; [done |]. simpl. unfold flags_at, put, swap. repeat case_decide; subst; try done;
      [destruct H1 as [e ->] | destruct H2 as [e ->] | destruct Hp as [e ->]]; done.
  - clear Hlk. intros p Hp. unfold put, swap. split.
    + repeat case_decide; subst; try done. by apply view_of_none.
    + repeat case_decide; subst; try done. by apply view_of_none.
Qed.

(** The updates of [cteMove]: the destination, linked to nothing, takes the place
    of the source. *)
Lemma move_links nx pv s d : mirror nx pv -> s <> 0 -> d <> 0 -> s <> d -> nx s <> s -> nx d = 0 -> pv d = 0 ->
  forall y, (if decide (pv s = 0) then put (put nx d (nx s)) s 0 else put (put (put nx d (nx s)) s 0) (pv s) d) y =
              swap s d (nx (swap s d y)) /\
            (if decide (nx s = 0) then put (put pv d (pv s)) s 0 else put (put (put pv d (pv s)) s 0) (nx s) d) y =
              swap s d (pv (swap s d y)).
Proof.
  intros (Z1 & Z2 & Hm) Hs Hd Hsd Ns Nd Pd y.
  assert (pv s <> s) as Ps by (intros E; apply Ns; by apply (Hm s s)).
  assert (pv s <> d) as Psd by (intros E; rewrite <- (Hm d s) in E by done; congruence).
  assert (nx s <> d) as Nsd by (intros E; rewrite (Hm s d) in E by done; congruence).
  destruct (decide (y = 0)) as [->|Hy].
  - clear Hm. unfold put, swap. split; repeat (case_decide; try congruence).
  - pose proof (Hm y s Hy Hs) as G1. pose proof (Hm s y Hs Hy) as G2. pose proof (Hm y d Hy Hd) as G3. pose proof (Hm d y Hd Hy) as G4.
    assert (nx y <> d) by (rewrite G3; congruence). assert (pv y <> d) by (rewrite <- G4; congruence).
    assert (pv s = y /\ nx y = s \/ pv s <> y /\ nx y <> s) as F1 by (destruct (decide (pv s = y)); tauto).
    assert (nx s = y /\ pv y = s \/ nx s <> y /\ pv y <> s) as F2 by (destruct (decide (nx s = y)); tauto).
    clear Hm G1 G2 G3 G4. destruct F1 as [[? ?]|[? ?]], F2 as [[? ?]|[? ?]];
      unfold put, swap; split; repeat (case_decide; try congruence).
Qed.

Lemma cteMove_ok L k c s d : mdb_ok L k -> is_Some (k_cte k !! s) -> is_Some (k_cte k !! d) -> s <> d ->
  is_null (cap_at k s) = false -> is_null (cap_at k d) = true -> is_null c = false ->
  wp (cteMove c s d) (fun _ k' => slots_changed (map (map (swap s d)) L) k k'
      (put (put (cap_at k) d c) s cap_null_cap) (put (put (flags_at k) d (flags_at k s)) s (false, false)))
    (fun _ => False) k.
Proof.
  intros Hk H1 H2 H12 E1 E2 Ec. pose proof (mdb_ok_view L k Hk) as HV. pose proof (sees_view_of k) as Hs.
  pose proof (mo_nonzero _ _ Hk s H1) as Z1. pose proof (mo_nonzero _ _ Hk d H2) as Z2.
  destruct (view_neighbours L _ s HV H1) as (P1 & N1 & D1).
  assert (d ∉ concat L) as Hdn by (rewrite (mo_caps _ _ Hk d H2), E2; done).
  destruct (mo_null _ _ Hk d Hdn) as [Nd Pd].
  pose proof (move_links (mn k) (mp k) s d (view_of_mirror L k Hk) Z1 Z2 H12 D1 Nd Pd) as Hlk.
  unfold cteMove. wp_step. eapply wp_cte_get; [exact Hs | done | done |].
  cbn [slot_of cte_cap cteMDBNode mdbNext mdbPrev view_of v_cap v_nx v_pv]. rewrite E2, Nd, Pd. wp_step. wp_step. cbn [andb Z.eqb]. wp_step. wp_step.
  wp_step. eapply wp_cte_get; [exact Hs | done | done |]. cbn [slot_of cte_cap cteMDBNode mdbNext mdbPrev view_of v_cap v_nx v_pv].
  wp_step. eapply wp_set_cap; [exact Hs | done | done |]. intros k1 Hs1. wp_step.
  eapply wp_set_cap; [exact Hs1 | done | done |]. intros k2 Hs2. wp_step.
  eapply wp_set_mdb; [exact Hs2 | done | done |]. intros k3 Hs3. wp_step.
  eapply wp_set_mdb; [exact Hs3 | done | done |]. intros k4 Hs4. wp_step.
  eapply wp_cond_next; [exact Hs4 | exact P1 |]. intros k5 Hs5.
  eapply wp_cond_prev; [exact Hs5 | exact N1 |]. intros k6 Hs6.
  eapply slots_changed_intro; [exact Hs6 | | done | done | |].
  - apply (mdb_view_swap L (view_of k)); [done | done | done | done | | |].
    + intros y. exact (proj1 (Hlk y)).
    + intros y. exact (proj2 (Hlk y)).
    + clear Hlk. intros y _. simpl. unfold put, swap. repeat case_decide; subst; try done. by rewrite Ec.
  - clear Hlk. intros p Hp. split; [done |]. simpl. unfold flags_at, put. repeat case_decide; subst; try done;
      [destruct H1 as [e ->] | destruct Hp as [e ->]]; done.
  - clear Hlk. intros p Hp. unfold put. split; repeat case_decide; subst; try done; by apply view_of_none.
Qed.

(** ** Adding a slot behind another, and taking one out *)

Definition insert_after (a b : Z) (xs : list Z) : list Z := flat_map (fun x => if decide (x = a) then [a; b] else [x]) xs.

Lemma insert_after_out a b xs : a ∉ xs -> insert_after a b xs = xs.
Proof.
  induction xs as [|x xs IH]; [done |]. intros Hn. unfold insert_after in *. simpl. rewrite decide_False by set_solver.
  simpl. f_equal. apply IH. set_solver.
Qed.

Lemma insert_after_split a b l r : a ∉ l -> a ∉ r -> insert_after a b (l ++ a :: r) = l ++ a :: b :: r.
Proof.
  intros Hl Hr. unfold insert_after. rewrite flat_map_app. fold (insert_after a b l). rewrite insert_after_out by done.
  simpl. rewrite decide_True by done. simpl. do 3 f_equal. by apply insert_after_out.
Qed.

Lemma insert_after_in a b xs x : x ∈ insert_after a b xs <-> x ∈ xs \/ (a ∈ xs /\ x = b).
Proof.
  unfold insert_after. rewrite list_elem_of_In, in_flat_map. setoid_rewrite <- list_elem_of_In. split.
  - intros (y & Hy & Hx). case_decide; set_solver.
  - intros [Hx|[Ha ->]]; [exists x; split; [done |]; case_decide; set_solver | exists a; rewrite decide_True by done; set_solver].
Qed.

Lemma dseg_insert nx pv l a r b : dseg nx pv 0 (l ++ a :: r) 0 -> NoDup (l ++ a :: r) -> b ∉ l ++ a :: r -> b <> 0 ->
  dseg (put (put nx b (nx a)) a b) (if decide (nx a = 0) then put pv b a else put (put pv b a) (nx a) b) 0 (l ++ a :: b :: r) 0.
Proof.
  intros Hs Hnd Hb Hb0. rewrite dseg_app in Hs. destruct Hs as [Hl (Ha & Hpa & Hna & Hr)].
  apply list.NoDup_app in Hnd as (_ & Hla & Hnr). apply list.NoDup_cons in Hnr as [Har Hrr].
  assert (a <> b) by set_solver. assert (a ∉ l) by (intros Hin; apply (Hla a Hin); set_solver).
  assert (forall y, y ∈ l -> y <> nx a) as Hln.
  { intros y Hy E. destruct r as [|c r]; simpl in Hna; [by eapply (dseg_nonzero _ _ _ _ _ y Hl Hy); congruence |].
    apply (Hla y Hy). set_solver. }
  assert (nx a <> a) as Hnaa. { rewrite Hna. destruct r; simpl; [done | set_solver]. }
  assert (b <> nx a) as Hbn. { rewrite Hna. destruct r; simpl; [done | set_solver]. }
  set (nx' := put _ a b). set (pv' := if decide _ then _ else _).
  assert (nx' a = b) as Na by apply put_eq.
  assert (nx' b = nx a) as Nb by (unfold nx'; by rewrite put_ne, put_eq).
  assert (forall y, y <> a -> y <> b -> nx' y = nx y) as No by (intros y ? ?; unfold nx'; by rewrite !put_ne).
  assert (pv' b = a) as Pb by (unfold pv'; case_decide; rewrite ?(put_ne _ (nx a)), put_eq by done; done).
  assert (nx a <> 0 -> pv' (nx a) = b) as Pc by (intros ?; unfold pv'; rewrite decide_False by done; apply put_eq).
  assert (forall y, y <> b -> y <> nx a -> pv' y = pv y) as Po by (intros y ? ?; unfold pv'; case_decide; by rewrite !put_ne).
  clearbody nx' pv'. rewrite dseg_app. cbn [dseg List.hd]. rewrite Na, Pb, Nb, (Po a) by done.
  split; [|split; [done |]; split; [done |]; split; [done |]; split; [done |]; split; [done |]].
  - eapply dseg_ext; [|exact Hl]. intros y Hy. rewrite No, Po by (set_solver || by apply Hln). done.
  - split; [done |]. destruct r as [|c r]; [done |]. cbn [List.hd dseg] in *. destruct Hr as (Hc & Hpc & Hnc & Hr).
    rewrite <- Hna at 2. rewrite Pc, No by (congruence || set_solver). split; [done |]. split; [done |]. split; [done |].
    apply list.NoDup_cons in Hrr as [Hcr _]. eapply dseg_ext; [|exact Hr]. intros y Hy. rewrite Hna in *. rewrite No, Po by set_solver. done.
Qed.

Lemma concat_insert_after a b (L : list (list Z)) : concat (map (insert_after a b) L) = insert_after a b (concat L).
Proof.
  induction L as [|xs L IH]; [done |]. simpl. rewrite IH. unfold insert_after. by rewrite flat_map_app.
Qed.

Lemma nodup_split_out (l : list Z) a r : NoDup (l ++ a :: r) -> a ∉ l /\ a ∉ r.
Proof.
  intros (_ & H1 & H2)%list.NoDup_app. apply list.NoDup_cons in H2 as [H2 _]. split; [|done]. intros Hin. apply (H1 a Hin). set_solver.
Qed.

Lemma insert_after_nodup a b xs : NoDup xs -> b ∉ xs -> NoDup (insert_after a b xs).
Proof.
  intros Hnd Hb. destruct (decide (a ∈ xs)) as [Ha|Ha]; [|by rewrite insert_after_out].
  apply list_elem_of_split in Ha as (l & r & ->). destruct (nodup_split_out _ _ _ Hnd) as [Hl Hr].
  rewrite insert_after_split by done. apply list.NoDup_app in Hnd as (H1 & H2 & H3). apply list.NoDup_cons in H3 as [H3 H4].
  apply list.NoDup_app. split; [done |]. split; [set_solver |]. apply list.NoDup_cons. split; [set_solver |].
  apply list.NoDup_cons. set_solver.
Qed.

(** The next slot of a slot outside a list is outside it too. *)
Lemma view_next_out L v xs a : mdb_view L v -> xs ∈ L -> a ∉ xs -> v_dom v a -> v_nx v a ∉ xs \/ v_nx v a = 0.
Proof.
  intros HV Hxs Ha Hd. destruct (decide (v_nx v a = 0)) as [|Hn]; [by right |]. left. intros Hin.
  destruct (decide (a ∈ concat L)) as [Hc|Hc]; [|by destruct (mv_null _ _ HV a Hd Hc)].
  destruct (view_split L v a HV Hc) as (l & r & Hys & _ & E).
  assert (v_nx v a ∈ l ++ a :: r) as Hin' by (rewrite E in *; pose proof (hd_in r Hn); set_solver).
  rewrite (concat_disjoint L xs _ (v_nx v a) (mv_nodup _ _ HV) Hxs Hys Hin Hin') in Ha. set_solver.
Qed.

Lemma mdb_view_insert L v v' a b : mdb_view L v -> a ∈ concat L -> v_dom v b -> b ∉ concat L -> v_dom v' = v_dom v ->
  (forall y, v_nx v' y = put (put (v_nx v) b (v_nx v a)) a b y) ->
  (forall y, v_pv v' y = (if decide (v_nx v a = 0) then put (v_pv v) b a else put (put (v_pv v) b a) (v_nx v a) b) y) ->
  is_null (v_cap v' b) = false -> (forall y, v_dom v y -> y <> b -> is_null (v_cap v' y) = is_null (v_cap v y)) ->
  mdb_view (map (insert_after a b) L) v'.
Proof.
  intros HV Ha Hb Hnb Hd Hn Hp Hcb Hc. pose proof (mv_nonzero _ _ HV b Hb) as Hb0. pose proof (mv_in _ _ HV a Ha) as Hda.
  assert (forall x, x ∈ concat (map (insert_after a b) L) <-> x ∈ concat L \/ x = b) as Hin.
  { intros x. rewrite concat_insert_after, insert_after_in. naive_solver. }
  split; rewrite ?Hd.
  - pose proof (mv_segs _ _ HV) as HF. rewrite list.Forall_forall in HF |- *. intros ys.
    rewrite list_elem_of_In, in_map_iff. intros (xs & <- & Hxs). rewrite <- list_elem_of_In in Hxs.
    assert (b ∉ xs) as Hbx by (intros Hx; apply Hnb, in_concat_iff; eauto).
    destruct (decide (a ∈ xs)) as [Hax|Hax].
    + apply list_elem_of_split in Hax as (l & r & ->). pose proof (concat_nodup_in _ _ (mv_nodup _ _ HV) Hxs) as Hnd.
      destruct (nodup_split_out _ _ _ Hnd). rewrite insert_after_split by done.
      eapply dseg_ext; [|by apply (dseg_insert (v_nx v) (v_pv v)); [apply HF | | |]]. intros x _. by rewrite Hn, Hp.
    + rewrite insert_after_out by done. eapply dseg_ext; [|by apply HF]. intros x Hx.
      assert (x <> a) by set_solver. assert (x <> b) by set_solver. rewrite Hn, Hp, !put_ne by done. split; [done |].
      destruct (view_next_out L v xs a HV Hxs Hax Hda) as [Hout|E0].
      * case_decide; rewrite ?put_ne by set_solver; done.
      * rewrite decide_True, put_ne by done. done.
  - rewrite concat_insert_after. apply insert_after_nodup; [by apply HV | done].
  - intros p [Hp'| ->]%Hin; [by apply (mv_in _ _ HV) | done].
  - by apply (mv_nonzero _ _ HV).
  - intros p Hdp Hout. rewrite Hin in Hout. assert (p <> a) by (intros ->; tauto). assert (p <> b) by tauto.
    rewrite Hn, Hp, !put_ne by done. destruct (mv_null _ _ HV p Hdp ltac:(tauto)) as [-> E2]. split; [done |].
    destruct (decide (v_nx v a = 0)); [by rewrite put_ne |]. rewrite !put_ne; [done | done |]. intros ->.
    destruct (view_neighbours L v a HV Hda) as (_ & Hnx & _). apply Hout. left.
    destruct (view_split L v a HV Ha) as (l & r & Hxs & _ & E). apply in_concat_iff. exists (l ++ a :: r). split; [done |].
    rewrite E. pose proof (hd_in r ltac:(congruence)). set_solver.
  - intros p Hdp. rewrite Hin. destruct (decide (p = b)) as [->|]; [rewrite Hcb; naive_solver |].
    rewrite Hc by done. rewrite <- (mv_caps _ _ HV p Hdp). naive_solver.
Qed.

(** What copying [newCap] out of a slot leaves there: the untyped capability it is a
    copy of counts as used up. *)
Definition after_copy (srcCap newCap : cap) : cap :=
  match srcCap, newCap with
  | cap_untyped_cap idx dev srcBits srcPtr, cap_untyped_cap _ _ newBits newPtr =>
      if (srcPtr =? newPtr) && (newBits =? srcBits) then cap_untyped_cap (MAX_FREE_INDEX srcBits) dev srcBits srcPtr
      else cap_untyped_cap idx dev srcBits srcPtr
  | _, _ => srcCap
  end.

Lemma after_copy_null c c' : is_null (after_copy c c') = is_null c.
Proof. by destruct c, c'; simpl; try case_match. Qed.

Lemma put_self {A} (f : Z -> A) p y : put f p (f p) y = f y.
Proof. unfold put. by case_decide; subst. Qed.

Lemma wp_setUntypedCapAsFull k v s c (P : unit -> kstate -> Prop) F : sees k v -> v_dom v s -> s <> 0 ->
  (forall k' v', sees k' v' -> v_nx v' = v_nx v -> v_pv v' = v_pv v -> v_rev v' = v_rev v -> v_bad v' = v_bad v ->
     v_dom v' = v_dom v -> v_rest v' = v_rest v -> (forall y, v_cap v' y = put (v_cap v) s (after_copy (v_cap v s) c) y) -> P tt k') ->
  wp (setUntypedCapAsFull (v_cap v s) c s) P F k.
Proof.
  intros Hs Hd H0 HP.
  assert (after_copy (v_cap v s) c = v_cap v s -> wp (ret tt) P F k) as Hsame.
  { intros E. rewrite wp_ret. eapply (HP k v); try done. intros y. by rewrite E, put_self. }
  unfold setUntypedCapAsFull. destruct (v_cap v s) eqn:Es; destruct c; try (apply Hsame; reflexivity).
  simpl in Hsame. destruct (_ && _) eqn:Eb; [|by apply Hsame]. rewrite wp_bind. eapply wp_cte_get; [done | done | done |].
  simpl. rewrite Es. eapply wp_set_cap; [done | done | done |]. intros k' Hs'. eapply (HP k'); [exact Hs' | done .. |].
  intros y. simpl. by rewrite Eb.
Qed.

Lemma cteInsert_ok L k c s d r : mdb_ok L k -> is_Some (k_cte k !! s) -> is_Some (k_cte k !! d) ->
  is_null (cap_at k s) = false -> is_null (cap_at k d) = true -> is_null c = false -> isCapRevocable c (cap_at k s) = Some r ->
  wp (cteInsert c s d) (fun _ k' => slots_changed (map (insert_after s d) L) k k'
      (put (put (cap_at k) s (after_copy (cap_at k s) c)) d c) (put (flags_at k) d (r, r)))
    (fun _ => False) k.
Proof.
  intros Hk H1 H2 E1 E2 Ec Er. pose proof (mdb_ok_view L k Hk) as HV. pose proof (sees_view_of k) as Hs.
  pose proof (mo_nonzero _ _ Hk s H1) as Z1. pose proof (mo_nonzero _ _ Hk d H2) as Z2.
  destruct (view_neighbours L _ s HV H1) as (_ & N1 & D1).
  assert (d ∉ concat L) as Hdn by (rewrite (mo_caps _ _ Hk d H2), E2; done).
  assert (s ∈ concat L) as Hsn by (rewrite (mo_caps _ _ Hk s H1); done). assert (s <> d) as Hsd by (intros ->; done).
  destruct (mo_null _ _ Hk d Hdn) as [Nd Pd].
  unfold cteInsert. wp_step. eapply wp_cte_get; [exact Hs | done | done |].
  cbn [slot_of cte_cap cteMDBNode mdbNext mdbPrev view_of v_cap v_nx v_pv]. rewrite Er. wp_step. wp_step.
  wp_step. eapply wp_cte_get; [exact Hs | done | done |]. cbn [slot_of cte_cap cteMDBNode mdbNext mdbPrev view_of v_cap v_nx v_pv].
  rewrite E2, Nd, Pd. wp_step. wp_step. cbn [andb Z.eqb]. wp_step. wp_step. wp_step.
  eapply (wp_setUntypedCapAsFull k (view_of k)); [exact Hs | done | done |]. intros k1 v1 Hs1 Q1 Q2 Q3 Q4 Q5 Q6 Q7.
  wp_step. eapply wp_set_cap; [exact Hs1 | by rewrite Q5 | done |]. intros k2 Hs2. wp_step.
  eapply wp_set_mdb; [exact Hs2 | by simpl; rewrite Q5 | done |]. intros k3 Hs3. wp_step.
  eapply wp_set_next; [exact Hs3 | by simpl; rewrite Q5 | done |]. intros k4 Hs4.
  eapply wp_cond_prev; [exact Hs4 | by simpl; rewrite Q5 |]. intros k5 Hs5.
  eapply slots_changed_intro; [exact Hs5 | | by simpl | by simpl | |].
  - apply (mdb_view_insert L (view_of k)); [done | done | done | done | done | | | |].
    + intros y. simpl. by rewrite Q1.
    + intros y. simpl. by rewrite Q2.
    + simpl. by rewrite put_eq.
    + intros y _ Hy. simpl. rewrite put_ne, Q7 by done. unfold put. case_decide; subst; [|done]. by rewrite after_copy_null.
  - intros p Hp. simpl. rewrite Q3, Q4.
    split; [unfold put at 1 2; case_decide; [done | apply Q7] |]. unfold flags_at, put. repeat case_decide; subst; try done.
    simpl in *. by destruct Hp as [e ->].
  - intros p Hp. unfold put. split; repeat case_decide; subst; try done; by apply view_of_none.
Qed.

Lemma insertNewCap_ok L k parent s c : mdb_ok L k -> is_Some (k_cte k !! parent) -> is_Some (k_cte k !! s) ->
  is_null (cap_at k parent) = false -> is_null (cap_at k s) = true -> is_null c = false ->
  wp (insertNewCap parent s c) (fun _ k' => slots_changed (map (insert_after parent s) L) k k'
      (put (cap_at k) s c) (put (flags_at k) s (true, true))) (fun _ => False) k.
Proof.
  intros Hk H1 H2 E1 E2 Ec. pose proof (mdb_ok_view L k Hk) as HV. pose proof (sees_view_of k) as Hs.
  pose proof (mo_nonzero _ _ Hk parent H1) as Z1. pose proof (mo_nonzero _ _ Hk s H2) as Z2.
  destruct (view_neighbours L _ parent HV H1) as (_ & N1 & D1).
  assert (s ∉ concat L) as Hdn by (rewrite (mo_caps _ _ Hk s H2), E2; done).
  assert (parent ∈ concat L) as Hsn by (rewrite (mo_caps _ _ Hk parent H1); done). assert (parent <> s) as Hsd by (intros ->; done).
  unfold insertNewCap. wp_step. eapply wp_cte_get; [exact Hs | done | done |].
  cbn [slot_of cte_cap cteMDBNode mdbNext mdbPrev view_of v_cap v_nx v_pv].
  wp_step. eapply wp_set_cap; [exact Hs | done | done |]. intros k1 Hs1. wp_step.
  eapply wp_set_mdb; [exact Hs1 | done | done |]. intros k2 Hs2. wp_step.
  eapply wp_cond_prev; [exact Hs2 | exact N1 |]. intros k3 Hs3.
  eapply wp_set_next; [exact Hs3 | done | done |]. intros k4 Hs4.
  eapply slots_changed_intro; [exact Hs4 | | done | done | |].
  - apply (mdb_view_insert L (view_of k)); [done | done | done | done | done | done | done | |].
    + simpl. by rewrite put_eq.
    + intros y _ Hy. simpl. by rewrite put_ne.
  - intros p Hp. split; [done |]. simpl. unfold flags_at, put. case_decide; subst; [done |]. by destruct Hp as [e ->].
  - intros p Hp. unfold put. split; case_decide; subst; try done; by apply view_of_none.
Qed.

(** ** Taking a slot out *)
Definition remove (s : Z) (xs : list Z) : list Z := filter (fun x => x <> s) xs.

Lemma concat_remove s (L : list (list Z)) : concat (map (remove s) L) = remove s (concat L).
Proof. induction L as [|xs L IH]; [done |]. simpl. rewrite IH. unfold remove. by rewrite list.filter_app. Qed.

Lemma remove_in s xs x : x ∈ remove s xs <-> x <> s /\ x ∈ xs.
Proof. unfold remove. by rewrite list_elem_of_filter. Qed.

Lemma remove_out s xs : s ∉ xs -> remove s xs = xs.
Proof.
  intros Hn. unfold remove. induction xs as [|x xs IH]; [done |]. rewrite filter_cons_True by set_solver. f_equal. apply IH. set_solver.
Qed.

Lemma remove_split s l r : s ∉ l -> s ∉ r -> remove s (l ++ s :: r) = l ++ r.
Proof.
  intros Hl Hr. unfold remove. rewrite list.filter_app, filter_cons_False by tauto. pose proof (remove_out s l Hl) as E1.
  pose proof (remove_out s r Hr) as E2. unfold remove in *. by rewrite E1, E2.
Qed.

Lemma view_around L v xs p : mdb_view L v -> xs ∈ L -> p ∉ xs -> v_dom v p -> forall x, x ∈ xs -> x <> v_nx v p /\ x <> v_pv v p.
Proof.
  intros HV Hxs Hp Hd x Hx. assert (x <> 0) as Hx0 by (apply (mv_nonzero _ _ HV), (mv_in _ _ HV), in_concat_iff; eauto).
  destruct (decide (p ∈ concat L)) as [Hc|Hc]; [|by destruct (mv_null _ _ HV p Hd Hc) as [-> ->]].
  destruct (view_split L v p HV Hc) as (l & r & Hys & -> & ->).
  split; intros ->; apply Hp;
    rewrite (concat_disjoint L xs (l ++ p :: r) _ (mv_nodup _ _ HV) Hxs Hys Hx); try set_solver.
  - pose proof (hd_in r Hx0). set_solver.
  - pose proof (last_elem' l Hx0). set_solver.
Qed.

Lemma mdb_view_remove L v v' s : mdb_view L v -> s ∈ concat L -> v_dom v' = v_dom v ->
  (forall y, y <> s -> v_nx v' y = (if decide (v_pv v s = 0) then v_nx v else put (v_nx v) (v_pv v s) (v_nx v s)) y) ->
  (forall y, y <> s -> v_pv v' y = (if decide (v_nx v s = 0) then v_pv v else put (v_pv v) (v_nx v s) (v_pv v s)) y) ->
  v_nx v' s = 0 -> v_pv v' s = 0 -> v_cap v' s = cap_null_cap -> (forall y, y <> s -> v_cap v' y = v_cap v y) ->
  mdb_view (map (remove s) L) v'.
Proof.
  intros HV Hs Hd Hn Hp Hn0 Hp0 Hc0 Hc. pose proof (mv_in _ _ HV s Hs) as Hds.
  assert (forall xs, xs ∈ L -> s ∉ xs -> forall x, x ∈ xs -> v_nx v' x = v_nx v x /\ v_pv v' x = v_pv v x) as Hout.
  { intros xs Hxs Hsx x Hx. destruct (view_around L v xs s HV Hxs Hsx Hds x Hx) as [? ?].
    rewrite Hn, Hp by set_solver. split; [destruct (decide (v_pv v s = 0)) | destruct (decide (v_nx v s = 0))]; rewrite ?put_ne by done; done. }
  split; rewrite ?Hd, ?concat_remove.
  - pose proof (mv_segs _ _ HV) as HF. rewrite list.Forall_forall in HF |- *. intros ys.
    rewrite list_elem_of_In, in_map_iff. intros (xs & <- & Hxs). rewrite <- list_elem_of_In in Hxs.
    destruct (decide (s ∈ xs)) as [Hsx|Hsx].
    + apply list_elem_of_split in Hsx as (l & r & ->). pose proof (concat_nodup_in _ _ (mv_nodup _ _ HV) Hxs) as Hnd.
      destruct (nodup_split_out _ _ _ Hnd) as [Hl Hr]. rewrite remove_split by done.
      assert (dll (v_nx v) (v_pv v) (List.hd 0 (l ++ s :: r)) (List.last (l ++ s :: r) 0) (l ++ s :: r)) as HD.
      { split; [by apply HF | done | done | done]. }
      apply dll_remove in HD as [HD _ _ _]. eapply dseg_ext; [|exact HD]. intros x Hx.
      rewrite Hn, Hp by set_solver. done.
    + rewrite remove_out by done. eapply dseg_ext; [|by apply HF]. intros x Hx. by apply (Hout xs).
  - unfold remove. apply list.NoDup_filter, HV.
  - intros p [_ Hin]%remove_in. by apply (mv_in _ _ HV).
  - by apply (mv_nonzero _ _ HV).
  - intros p Hdp Hin. rewrite remove_in in Hin. destruct (decide (p = s)) as [->|Hps]; [done |].
    assert (p ∉ concat L) as Hpn by tauto. destruct (mv_null _ _ HV p Hdp Hpn) as [E1 E2].
    pose proof (view_split L v s HV Hs) as (l & r & Hxs & El & Er). pose proof (mv_nonzero _ _ HV p Hdp) as Hp0'.
    assert (p <> v_nx v s /\ p <> v_pv v s) as [? ?].
    { rewrite El, Er. split; intros ->; apply Hpn, in_concat_iff; exists (l ++ s :: r); (split; [done |]);
        [pose proof (hd_in r Hp0') | pose proof (last_elem' l Hp0')]; set_solver. }
    rewrite Hn, Hp by done. split; [destruct (decide (v_pv v s = 0)) | destruct (decide (v_nx v s = 0))]; rewrite ?put_ne by done; done.
  - intros p Hdp. rewrite remove_in. destruct (decide (p = s)) as [->|Hps]; [rewrite Hc0; naive_solver |].
    rewrite Hc by done. rewrite <- (mv_caps _ _ HV p Hdp). naive_solver.
Qed.

(** The next slot inherits [mdbFirstBadged]. *)
Definition with_badge (v : view) (p : Z) (b : bool) : view :=
  mkView (v_nx v) (v_pv v) (v_cap v) (v_rev v)
    (if decide (p = 0) then v_bad v else put (v_bad v) p (v_bad v p || b)) (v_dom v) (v_rest v).

Lemma sees_ext k v v' : sees k v -> v_dom v' = v_dom v -> v_rest v' = v_rest v -> (forall p, slot_of v' p = slot_of v p) -> sees k v'.
Proof.
  intros [S1 S2 S3] Hd Hr Hq. split; rewrite ?Hd, ?Hr; [|done |done]. intros p Hp. rewrite Hq. by apply S1.
Qed.

Lemma wp_cond_badge k v p b (P : unit -> kstate -> Prop) F : sees k v -> (p <> 0 -> v_dom v p) ->
  (forall k', sees k' (with_badge v p b) -> P tt k') ->
  wp (if negb (p =? 0) then
        let* n := cte_get p in set_mdb p (mdb_set_badged (mdbFirstBadged (cteMDBNode n) || b) (cteMDBNode n))
      else ret tt) P F k.
Proof.
  intros Hs Hd HP. unfold with_badge in HP. destruct (p =? 0) eqn:E; [apply Z.eqb_eq in E | apply Z.eqb_neq in E]; cbn [negb].
  - rewrite decide_True in HP by done. wp_steps. apply HP. by destruct v.
  - rewrite decide_False in HP by done. rewrite wp_bind. eapply wp_cte_get; [done | by apply Hd | done |].
    eapply wp_set_mdb; [done | by apply Hd | done |]. intros k' Hs'. apply HP. eapply sees_ext; [exact Hs' | done | done |].
    intros q. unfold slot_of. simpl. by rewrite !put_self.
Qed.

(** The flags after [emptySlot]. *)
Definition flags_removed (k : kstate) (s p : Z) : bool * bool :=
  if decide (p = s) then (false, false)
  else if decide (mn k s <> 0 /\ p = mn k s) then ((flags_at k p).1, (flags_at k p).2 || (flags_at k s).2)
  else flags_at k p.

Lemma flags_view k p : flags_at k p = (v_rev (view_of k) p, v_bad (view_of k) p).
Proof. unfold flags_at. simpl. by destruct (k_cte k !! p). Qed.

Lemma emptySlot_ok L k s c (Q : unit -> kstate -> Prop) F : mdb_ok L k -> is_Some (k_cte k !! s) -> is_null (cap_at k s) = false ->
  (forall k', slots_changed (map (remove s) L) k k' (put (cap_at k) s cap_null_cap) (flags_removed k s) ->
     wp (postCapDeletion c) Q F k') ->
  wp (emptySlot s c) Q F k.
Proof.
  intros Hk H1 E1 HQ. pose proof (mdb_ok_view L k Hk) as HV. pose proof (sees_view_of k) as Hs.
  pose proof (mo_nonzero _ _ Hk s H1) as Z1. destruct (view_neighbours L _ s HV H1) as (P1 & N1 & D1).
  assert (s ∈ concat L) as Hsn by (rewrite (mo_caps _ _ Hk s H1); done).
  unfold emptySlot. wp_step. eapply wp_cte_get; [exact Hs | done | done |].
  cbn [slot_of cte_cap cteMDBNode mdbNext mdbPrev mdbFirstBadged]. change (v_cap (view_of k) s) with (cap_at k s). rewrite E1. cbn [negb].
  wp_step. eapply wp_cond_next; [exact Hs | exact P1 |]. intros k1 Hs1.
  wp_step. eapply wp_cond_prev; [exact Hs1 | exact N1 |]. intros k2 Hs2.
  wp_step. eapply wp_cond_badge; [exact Hs2 | exact N1 |]. intros k3 Hs3.
  wp_step. eapply wp_set_cap; [exact Hs3 | done | done |]. intros k4 Hs4.
  wp_step. eapply wp_set_mdb; [exact Hs4 | done | done |]. intros k5 Hs5.
  apply HQ. eapply slots_changed_intro; [exact Hs5 | | done | done | |].
  - apply (mdb_view_remove L (view_of k)); [done | done | done | | | | | |].
    + intros y Hy. simpl. by rewrite put_ne.
    + intros y Hy. simpl. by rewrite put_ne.
    + simpl. by rewrite put_eq.
    + simpl. by rewrite put_eq.
    + simpl. by rewrite put_eq.
    + intros y Hy. simpl. by rewrite put_ne.
  - intros p Hp. split; [done |]. unfold flags_removed. rewrite !flags_view. cbn [with_mdb with_cap with_badge cond_pv cond_nx v_rev v_bad mdbRevocable mdbFirstBadged nullMDBNode v_nx fst snd].
    unfold put. destruct (decide (p = s)) as [->|]; [done |]. change (v_nx (view_of k) s) with (mn k s).
    destruct (decide (mn k s = 0)) as [|Hn]; [by rewrite decide_False by tauto |]. destruct (decide (p = mn k s)) as [->|].
    + by rewrite decide_True.
    + by rewrite decide_False by tauto.
  - intros p Hp. assert (p <> s) by (intros ->; done). assert (~ (mn k s <> 0 /\ p = mn k s)) as Hn.
    { intros [Hn ->]. by apply Hp, N1. }
    unfold flags_removed. rewrite put_ne, !decide_False by done. split; by apply view_of_none.
Qed.
