(* ===== verification/KRendezvous.v ===== *)
(** * Rendezvous at an endpoint

    [sendIPC] and [receiveIPC] (kernel/src/object/endpoint.c): with no partner the
    thread waits at the end of the queue, with a partner the message is handed over
    at once, to the first thread of the queue. *)

From S2P Require Import Prelude Dll KCaps KCapThms KState KSched KCspace KMsg KIpc.
From S2P Require Import KSchedInv KSchedThms KSchedSteps KIpcInv KIpcThms KIpcCancel KTransfer KMdb KMdbThms.

Section Rendezvous.
Context `{C : KConfig}.

(** A running thread starts to wait on an endpoint. *)
Lemma ep_block_ok Q k t x a e f g st : config_ok -> kipc (fun _ => False) Q k -> may_block k t -> k_tcb k !! t = Some x ->
  obj_of (ithread_of x) = None -> k_ep k !! a = Some e -> ep_state e = EPState_Idle \/ ep_state e = st -> st <> EPState_Idle ->
  f x = upd_tsType (fun _ => default ThreadState_Inactive (ep_waits st)) (g x) -> keeps_place x (g x) -> tsType (g x) = tsType x ->
  tcbBoundNotification (g x) = tcbBoundNotification x -> blockingObject (g x) = a ->
  wp (do* tcb_upd t f in do* scheduleTCB t in ep_wait a t st)
    (fun _ k' => kipc (fun _ => False) (oput Q (OEp a) (Q (OEp a) ++ [t])) k' /\ runnable k' t = false /\
      sent_badge (istore_of k') t = blockingIPCBadge (g x)) (fun _ => False) k.
Proof.
  intros Hc Hk Hm Hx Eo He Hes Hst Ef Hg Et Eb Ea. rewrite <- bind_assoc_wp. wp_step.
  assert (isRunnable_st (default ThreadState_Inactive (ep_waits st)) = false /\ ep_waits st = Some (tsType (f x))) as [Hnr Ew] by (rewrite Ef; destruct st, (g x); done).
  assert (obj_of (ithread_of (f x)) = Some (OEp a)) as Eof by (rewrite Ef, <- Ea; destruct st, (g x); done).
  assert (tcbBoundNotification (f x) = tcbBoundNotification x) as Eb' by (rewrite Ef, <- Eb; by destruct (g x)).
  eapply wp_mono; [by apply (block_store_ok Q k t (ithread_of x) x f g (default ThreadState_Inactive (ep_waits st)) (OEp a)) | | done].
  intros ? k1 (HS1 & Es1 & HI1 & _). set (i1 := ithread_of (f x)) in *.
  assert (is_tcb (istore_of k1) !! t = Some i1) as Hi1 by (rewrite Es1; apply lookup_insert_eq).
  eapply wp_mono; [apply (ep_wait_ok (fun _ => False) Q k1 k1 _ t i1 a st e (istep_start k1 HS1) HI1 Hi1); [done | tauto | by rewrite Es1 | done | done] | | done].
  intros ? k2 (s2 & Hs2 & Hob & HI2). pose proof (istep_sched _ _ _ HS1 Hs2) as HS2. destruct Hs2 as [Es2 _]. split; [by split; [|rewrite Es2] |].
  destruct (object_thread _ _ _ _ _ Hob Hi1) as (i2 & Hi2 & Eu). apply unlink_fields in Eu as (Est & _ & _ & Ebd).
  rewrite (istore_runnable _ _ _ _ Es2 Hi2), Est. split; [by replace (it_st i1) with (tsType (f x)) by done; rewrite Ef; destruct st, (g x) |].
  unfold sent_badge. rewrite Es2, Hi2. simpl. rewrite Ebd. unfold i1. rewrite Ef. by destruct (g x).
Qed.

Lemma head_taken Q k a t : kipc (fun _ => False) Q k -> t ∈ Q (OEp a) ->
  wp (ep_take a t (obj_queue (istore_of k) (OEp a))) (fun _ k' => kipc (fun y => False \/ y = t) (leave Q (OEp a) t) k' /\ kdata k' = kdata k /\
    same_sched k k' /\ relinked (istore_of k) (istore_of k') /\
    exists i, is_tcb (istore_of k') !! t = Some i /\ obj_of i = Some (OEp a)) (fun _ => False) k.
Proof.
  intros [HS HI] Ht. eapply wp_mono; [apply (ep_take_ok (fun _ => False) Q k k); [by apply istep_start | done | done] | | done].
  intros ? k1 (s1 & Hs1 & Hob & HI1). pose proof (istep_sched _ _ _ HS Hs1) as HS1. destruct Hs1 as (<- & Hss & Hd). split; [by split |]. split; [done |].
  split; [done |]. split; [apply Hob |]. destruct (io_mem _ _ _ HI _ _ Ht) as (_ & i & Hi & Eo & _).
  destruct (object_thread _ _ _ _ _ Hob Hi) as (i1 & Hi1 & Eu). exists i1. split; [done |]. apply unlink_fields in Eu as (_ & -> & _). done.
Qed.

(** A thread's state set, and nothing else that the queues or a message need. *)
Record state_only (k : kstate) (t : Z) (i : ithread) (st : _thread_state_t) (k' : kstate) : Prop := {
  to_store : istore_of k' = set_it (istore_of k) t (it_set_st st i);
  to_regs : forall u r, reg k' u r = reg k u r;
  to_words : k_word k' = k_word k;
  to_cte : k_cte k' = k_cte k }.

Lemma state_only_view k t x st k' : k_tcb k !! t = Some x -> kview k' = kview (upd_k_tcb (insert t (upd_tsType (fun _ => st) x)) k) ->
  state_only k t (ithread_of x) st k'.
Proof.
  intros Hx Hv. split.
  - rewrite (view_istore _ _ Hv). by apply istore_upd.
  - intros u r. rewrite (view_reg _ _ _ _ Hv). unfold reg. simpl.
    destruct (decide (u = t)) as [->|]; [rewrite lookup_insert_eq, Hx; by destruct x | by rewrite lookup_insert_ne].
  - unfold kview in Hv. by injection Hv as _ _ _ _ ->.
  - unfold kview in Hv. by injection Hv as _ _ _ -> _.
Qed.

(** A running thread stops, waiting for nothing that has a queue. *)
Lemma stop_ok E Q k t i st : config_ok -> kipc E Q k -> may_block k t -> is_tcb (istore_of k) !! t = Some i -> obj_of i = None -> isRunnable_st st = false ->
  obj_of (it_set_st st i) = None ->
  wp (setThreadState t st) (fun _ k' => kipc E Q k' /\ state_only k t i st k') (fun _ => False) k.
Proof.
  intros Hc Hk Hm Hi Eo Hst Eo'. pose proof Hk as [HS HI]. destruct (istore_tcb _ _ _ _ eq_refl Hi) as (x & Hx & Ex).
  destruct (kipc_thread _ _ _ t Hk ltac:(eauto)) as [H1 _]. destruct Hm as [M1 M2 M3].
  eapply wp_mono; [apply (wp_state_view k t st x); [done | lia |]; apply (block_ok (strict := True)); eauto | | done].
  intros ? k1 [(HS1 & _) Hv]. pose proof (state_only_view _ _ _ _ _ Hx Hv) as Hso. rewrite Ex in Hso. split; [|done].
  split; [done |]. rewrite (to_store _ _ _ _ _ Hso). apply (inv_settle E Q _ t (it_set_st st i)); [|apply lookup_insert_eq | done].
  apply (inv_thread E Q _ t i); [done | done | by apply (no_queue _ _ _ _ _ HI Hi (or_introl Eo)) | done].
Qed.

(** The same for a thread that was taken out of a queue. *)
Lemma park_only_ok E Q k t i st : config_ok -> kipc (fun y => E y \/ y = t) Q k -> is_tcb (istore_of k) !! t = Some i ->
  isRunnable_st (it_st i) = false -> it_st i <> ThreadState_IdleThreadState -> isRunnable_st st = false -> obj_of (it_set_st st i) = None ->
  wp (setThreadState t st) (fun _ k' => kipc E Q k' /\ state_only k t i st k') (fun _ => False) k.
Proof.
  intros Hc [HS HI] Hi Hr Hid Hst Ho. destruct (blocked_quiet k t i HS Hi Hr Hid) as (H1 & Ht & Hnr & Hq & Hni & Ha).
  destruct (istore_tcb _ _ _ _ eq_refl Hi) as (x & Hx & Ex).
  eapply wp_mono; [apply (wp_state_view k t st x); [done | lia |]; by apply (block_ok (strict := True)) | | done].
  intros ? k1 [(HS1 & _) Hv]. pose proof (state_only_view _ _ _ _ _ Hx Hv) as Hso. rewrite Ex in Hso. split; [|done].
  split; [done |]. rewrite (to_store _ _ _ _ _ Hso). by apply inv_set_st.
Qed.

(** ** Reply capabilities *)

Definition master_slot (t : Z) : Z := TCB_PTR_CTE_PTR t tcbReply.
Definition caller_slot (t : Z) : Z := TCB_PTR_CTE_PTR t tcbCaller.

(** [s] has its master reply capability and [d] room for a reply capability. *)
Record reply_ready (L : list (list Z)) (k : kstate) (s d : Z) : Prop := {
  ry_mdb : mdb_ok L k;
  ry_slots : is_Some (k_cte k !! master_slot s) /\ is_Some (k_cte k !! caller_slot d);
  ry_master : cap_at k (master_slot s) = cap_reply_cap true true s;
  ry_room : cap_at k (caller_slot d) = cap_null_cap }.

(** The reply capability of [d] stands behind the master in the derivation order. *)
Record reply_linked (L : list (list Z)) (k : kstate) (s d : Z) (grant : bool) (k' : kstate) : Prop := {
  rl_mdb : mdb_ok (map (insert_after (master_slot s) (caller_slot d)) L) k';
  rl_cap : cap_at k' (caller_slot d) = cap_reply_cap grant false s;
  rl_caps : forall p, p <> caller_slot d -> cap_at k' p = cap_at k p;
  rl_dom : forall p, is_Some (k_cte k' !! p) <-> is_Some (k_cte k !! p) }.

Lemma nocte_kipc E Q k k' : kipc E Q k -> nocte k' = nocte k -> kipc E Q k' /\ istore_of k' = istore_of k /\ k_word k' = k_word k /\ (forall u r, reg k' u r = reg k u r).
Proof.
  intros [HS HI] En. assert (forall {A} (f : kstate -> A), f (nocte k') = f (nocte k)) as Ef by (intros; by rewrite En).
  assert (istore_of k' = istore_of k) as Es by exact (Ef _ istore_of).
  split; [split; [|by rewrite Es] |].
  - apply (sched_ok_same (strict := True) k); [done |]. apply same_sched_objs; [apply HS | ..].
    all: first [exact (Ef _ k_tcb) | exact (Ef _ ksReadyQueues) | exact (Ef _ ksReadyQueuesL1Bitmap) | exact (Ef _ ksReadyQueuesL2Bitmap) | exact (Ef _ ksCurThread)
      | exact (Ef _ ksSchedulerAction) | exact (Ef _ ksCurDomain) | exact (Ef _ ksIdleThread) | exact (Ef _ ksDomScheduleIdx)].
  - split; [done |]. split; [exact (Ef _ k_word) |]. intros u r. exact (Ef _ (fun k => reg k u r)).
Qed.

Lemma reply_cap_ok L k s d grant : reply_ready L k s d ->
  wp (let* m := cte_get (master_slot s) in
      do* match cte_cap m with
          | cap_reply_cap replyCanGrant master tcb => assert_ (master && replyCanGrant && (tcb =? s))
          | _ => fail AssertFail
          end in
      let* c := cte_get (caller_slot d) in
      do* assert_ (is_null (cte_cap c)) in
      cteInsert (cap_reply_cap grant false s) (master_slot s) (caller_slot d))
    (fun _ k' => reply_linked L k s d grant k' /\ nocte k' = nocte k) (fun _ => False) k.
Proof.
  intros [Hm [S1 S2] E1 E2]. pose proof (mo_nonzero _ _ Hm _ S1) as Z1. pose proof (mo_nonzero _ _ Hm _ S2) as Z2.
  destruct S1 as [m Hm'] eqn:?, S2 as [c Hc] eqn:?. assert (cte_cap m = cap_reply_cap true true s) as Em by (rewrite <- E1; unfold cap_at; by rewrite Hm').
  assert (cte_cap c = cap_null_cap) as Ec by (rewrite <- E2; unfold cap_at; by rewrite Hc).
  wp_step. eapply wp_cte_look; [exact Hm' | done |]. wp_step. rewrite Em. wp_step. rewrite Z.eqb_refl. cbn [andb]. wp_step.
  eapply wp_cte_look; [exact Hc | done |]. do 2 wp_step. rewrite Ec. cbn [is_null].
  eapply wp_mono; [apply (cteInsert_ok L k _ _ _ false); [done | eauto | eauto | by rewrite E1 | by rewrite E2 | done | by rewrite E1] | | done].
  intros ? k' [C1 C2 _ C4 C5]. split; [|done]. split; [done | | |].
  - rewrite C2. apply put_eq.
  - intros p Hp. rewrite C2, put_ne by done. unfold put. case_decide; [subst; by rewrite E1 | done].
  - exact C4.
Qed.

Lemma reply_ready_cte L k k' s d : k_cte k' = k_cte k -> reply_ready L k s d -> reply_ready L k' s d.
Proof.
  intros E [[M1 M2 M3 M4 M5 M6] R2 R3 R4]. split; [|unfold cap_at in *; by rewrite E..].
  assert (mn k' = mn k /\ mp k' = mp k) as [En Ep] by (unfold mn, mp; by rewrite E).
  split; rewrite ?En, ?Ep, ?E; try done. unfold cap_at in *. by rewrite E.
Qed.
Lemma reply_linked_from L k k0 s d g k' : k_cte k = k_cte k0 -> reply_linked L k s d g k' -> reply_linked L k0 s d g k'.
Proof. intros E [R1 R2 R3 R4]. split; [done | done | | by rewrite <- E]. intros p Hp. rewrite R3 by done. unfold cap_at. by rewrite E. Qed.

Definition thread_st (k : kstate) (t : Z) : option _thread_state_t := it_st <$> is_tcb (istore_of k) !! t.

(** The sender of a call waits for the reply, or stops if there can be none. *)
Definition caller_after (L : list (list Z)) (k : kstate) (s d : Z) (grant is_call canReply : bool) (k' : kstate) : Prop :=
  if is_call then
    if canReply then thread_st k' s = Some ThreadState_BlockedOnReply /\ reply_linked L k s d grant k'
    else thread_st k' s = Some ThreadState_Inactive /\ k_cte k' = k_cte k
  else k_cte k' = k_cte k.

Lemma setupCallerCap_ok E Q L k s d grant i : reply_ready L k s d ->
  wp (setThreadState s ThreadState_BlockedOnReply) (fun _ k' => kipc E Q k' /\ state_only k s i ThreadState_BlockedOnReply k') (fun _ => False) k ->
  wp (setupCallerCap s d grant) (fun _ k' => kipc E Q k' /\ istore_of k' = set_it (istore_of k) s (it_set_st ThreadState_BlockedOnReply i) /\
    (forall u r, reg k' u r = reg k u r) /\ k_word k' = k_word k /\ reply_linked L k s d grant k') (fun _ => False) k.
Proof.
  intros Hry Hset. unfold setupCallerCap. wp_step. eapply wp_mono; [exact Hset | | done]. intros ? k1 (Hk1 & [Es1 Er1 Ew1 Ec1]). cbv zeta.
  eapply wp_mono; [apply (reply_cap_ok L k1 s d grant); by apply (reply_ready_cte L k) | | done]. intros ? k2 [Hl En].
  destruct (nocte_kipc _ _ _ _ Hk1 En) as (Hk2 & Es2 & Ew2 & Er2). split; [done |]. split; [congruence |].
  split; [intros; by rewrite Er2, Er1 |]. split; [congruence |]. by apply (reply_linked_from L k1).
Qed.

(** Nothing of a message is lost when the sender's state is set. *)
Record settled (k : kstate) (s : Z) (k' : kstate) : Prop := {
  se_regs : forall u r, reg k' u r = reg k u r;
  se_words : k_word k' = k_word k;
  se_threads : forall u, u <> s -> is_tcb (istore_of k') !! u = is_tcb (istore_of k) !! u }.

Lemma settled_message k s d badge k' k2 : message k s d badge k' -> settled k' s k2 -> message k s d badge k2.
Proof. intros Hm [Er Ew _]. by apply (message_to k s d badge k'). Qed.
Lemma settled_runnable k s k' d : settled k s k' -> d <> s -> runnable k' d = runnable k d.
Proof.
  intros [_ _ Et] Hd. specialize (Et d Hd). unfold runnable. simpl in Et. rewrite !lookup_fmap in Et.
  destruct (k_tcb k' !! d), (k_tcb k !! d); simpl in *; try done. unfold ithread_of in Et. congruence.
Qed.
Lemma thread_st_set k s st i k' : istore_of k' = set_it (istore_of k) s (it_set_st st i) -> thread_st k' s = Some st.
Proof. intros E. unfold thread_st. rewrite E. unfold set_it. cbn [is_tcb]. by rewrite lookup_insert_eq. Qed.
Lemma set_it_other k s i k' u : istore_of k' = set_it (istore_of k) s i -> u <> s -> is_tcb (istore_of k') !! u = is_tcb (istore_of k) !! u.
Proof. intros E Hu. rewrite E. unfold set_it. cbn [is_tcb]. by rewrite lookup_insert_ne. Qed.

(** The end of a call, whichever way [setThreadState] works for the sender. *)
Lemma caller_ok E Q L k s d i grant is_call canReply : (is_call = false -> kipc E Q k) ->
  (is_call = true -> canReply = true -> reply_ready L k s d) ->
  (forall st, isRunnable_st st = false -> obj_of (it_set_st st i) = None ->
    wp (setThreadState s st) (fun _ k' => kipc E Q k' /\ state_only k s i st k') (fun _ => False) k) ->
  wp (if is_call then if canReply then setupCallerCap s d grant else setThreadState s ThreadState_Inactive else ret tt)
    (fun _ k' => kipc E Q k' /\ caller_after L k s d grant is_call canReply k' /\ settled k s k') (fun _ => False) k.
Proof.
  intros Hk Hry Hset. unfold caller_after. destruct is_call; [|wp_step; by split_and!; [apply Hk |..]]. destruct canReply.
  - eapply wp_mono; [apply (setupCallerCap_ok E Q L k s d grant i); [by apply Hry | by apply Hset] | | done].
    intros ? k' (Hk' & Es & Er & Ew & Hl). split; [done |]. split; [split; [by eapply thread_st_set | done] |]. split; [done | done |]. intros u. by eapply set_it_other.
  - eapply wp_mono; [by apply Hset | | done]. intros ? k' (Hk' & [Es Er Ew Ec]). split; [done |]. split; [split; [by eapply thread_st_set | done] |].
    split; [done | done |]. intros u. by eapply set_it_other.
Qed.

(** ** Sending *)
Record send_args : Type := mkSend { sa_blocking : bool; sa_call : bool; sa_badge : Z; sa_canGrant : bool; sa_canGrantReply : bool }.

Inductive sent (Q : obj -> list Z) (L : list (list Z)) (k : kstate) (e : endpoint_t) (t a : Z) (g : send_args) (k' : kstate) : (obj -> list Z) -> Prop :=
| sn_delivered d r : ep_state e = EPState_Recv -> Q (OEp a) = d :: r -> message k t d (sa_badge g) k' -> runnable k' d = true ->
    caller_after L k t d (recv_grant k d) (sa_call g) (sa_canGrant g || sa_canGrantReply g) k' -> sent Q L k e t a g k' (leave Q (OEp a) d)
| sn_queued : ep_state e <> EPState_Recv -> sa_blocking g = true -> runnable k' t = false -> sent_badge (istore_of k') t = sa_badge g ->
    sent Q L k e t a g k' (oput Q (OEp a) (Q (OEp a) ++ [t]))
| sn_dropped : ep_state e <> EPState_Recv -> sa_blocking g = false -> k' = k -> sent Q L k e t a g k' Q.

Lemma send_wait_ok Q L k t x a e g : config_ok -> kipc (fun _ => False) Q k -> may_block k t -> k_tcb k !! t = Some x ->
  obj_of (ithread_of x) = None -> k_ep k !! a = Some e -> ep_state e <> EPState_Recv ->
  wp (if sa_blocking g then
        do* tcb_upd t (fun t => upd_blockingIPCIsCall (fun _ => sa_call g) (upd_blockingIPCCanGrantReply (fun _ => sa_canGrantReply g)
              (upd_blockingIPCCanGrant (fun _ => sa_canGrant g) (upd_blockingIPCBadge (fun _ => sa_badge g)
              (upd_blockingObject (fun _ => a) (upd_tsType (fun _ => ThreadState_BlockedOnSend) t)))))) in
        do* scheduleTCB t in ep_wait a t EPState_Send
      else ret tt) (fun _ k' => exists Q', kipc (fun _ => False) Q' k' /\ sent Q L k e t a g k' Q') (fun _ => False) k.
Proof.
  intros Hc Hk Hm Hx Eo He Hne. destruct (sa_blocking g) eqn:Eb; [|wp_step; exists Q; split; [done |]; by apply sn_dropped].
  eapply wp_mono; [apply (ep_block_ok Q k t x a e _ (fun t => upd_blockingIPCIsCall (fun _ => sa_call g) (upd_blockingIPCCanGrantReply (fun _ => sa_canGrantReply g)
     (upd_blockingIPCCanGrant (fun _ => sa_canGrant g) (upd_blockingIPCBadge (fun _ => sa_badge g) (upd_blockingObject (fun _ => a) t)))))); try done; try by destruct x | | done].
  - destruct (ep_state e); tauto.
  - intros ? k' (Hk' & Hr & Ebd). eexists. split; [exact Hk' |]. apply sn_queued; [done | done | done |]. rewrite Ebd. by destruct x.
Qed.

(** The first thread of a queue that is not empty. *)
Lemma queue_first Q k a e : kipc (fun _ => False) Q k -> k_ep k !! a = Some e -> ep_state e <> EPState_Idle ->
  exists d r, Q (OEp a) = d :: r /\ d ∈ Q (OEp a) /\ q_head (obj_queue (istore_of k) (OEp a)) = d /\ d <> 0.
Proof.
  intros [_ HI] He Hst. destruct (Q (OEp a)) as [|d r] eqn:EQ.
  { apply (io_idle _ _ _ HI) in EQ. simpl in EQ. rewrite He in EQ. simpl in EQ. by destruct (ep_state e). }
  assert (d ∈ Q (OEp a)) as Hd by (rewrite EQ; set_solver).
  assert (q_head (obj_queue (istore_of k) (OEp a)) = d) as Eh by (rewrite (dll_hd _ _ _ _ _ (io_queue _ _ _ HI (OEp a))), EQ; done).
  exists d, r. split; [done |]. split; [by rewrite <- EQ |]. split; [done |]. rewrite <- Eh. by eapply queue_head.
Qed.

Lemma recv_grant_data k k' t : kdata k' = kdata k -> recv_grant k' t = recv_grant k t.
Proof.
  intros E. destruct (kdata_tcb _ _ t E) as (Ex & _). unfold recv_grant. destruct (k_tcb k' !! t), (k_tcb k !! t); simpl in *; try done. unfold tdata in Ex. congruence.
Qed.

Lemma caller_after_from L k k0 s d g is_call canReply k' : k_cte k = k_cte k0 -> caller_after L k s d g is_call canReply k' ->
  caller_after L k0 s d g is_call canReply k'.
Proof.
  intros E. unfold caller_after. destruct is_call; [|congruence]. destruct canReply; intros [H1 H2]; (split; [done |]); [by eapply reply_linked_from | congruence].
Qed.

Lemma sendIPC_effect Q L k t a e g : config_ok -> kipc (fun _ => False) Q k -> k_ep k !! a = Some e ->
  is_Some (k_tcb k !! t) -> may_block k t -> (forall i, is_tcb (istore_of k) !! t = Some i -> obj_of i = None) ->
  (ep_state e = EPState_Recv -> let d := q_head (obj_queue (istore_of k) (OEp a)) in
    xfer_ready k t d (sa_canGrant g) /\ (sa_call g = true -> sa_canGrant g || sa_canGrantReply g = true -> reply_ready L k t d)) ->
  wp (sendIPC (sa_blocking g) (sa_call g) (sa_badge g) (sa_canGrant g) (sa_canGrantReply g) t a)
    (fun _ k' => exists Q', kipc (fun _ => False) Q' k' /\ sent Q L k e t a g k' Q') (fun _ => False) k.
Proof.
  intros Hc Hk He Ht Hm Hio Hx. pose proof Hk as [HS HI]. pose proof (istep_start k HS) as Hs0. pose proof (ep_nonzero _ _ _ _ _ Hk He) as H0.
  destruct (kipc_thread _ _ _ _ Hk Ht) as (H1 & x & Hx' & Hi). pose proof (Hio _ Hi) as Eo.
  unfold sendIPC. wp_step. eapply wp_ep_get; [exact Hs0 | exact He | done |].
  destruct (ep_state e) eqn:Est; [by apply (send_wait_ok Q L k t x a e g); rewrite ?Est.. |].
  destruct (queue_first Q k a e Hk He ltac:(congruence)) as (d & r & EQ & Hd & Eh & Hd0). destruct (Hx eq_refl) as [Hxr Hry]. rewrite Eh in Hxr, Hry.
  unfold ep_ptr_get_queue. do 2 wp_step. eapply wp_ep_get; [exact Hs0 | exact He | done |]. wp_step. cbv zeta.
  replace (mkQ (epQueue_head e) (epQueue_tail e)) with (obj_queue (istore_of k) (OEp a)) by (simpl; by rewrite He). rewrite Eh.
  do 2 wp_step. rewrite (proj2 (Z.eqb_neq d 0)) by done. cbn [negb]. wp_step.
  assert (t <> d) as Htd by (intros ->; by apply (no_queue _ _ _ _ _ HI Hi (or_introl Eo) (OEp a))).
  eapply wp_mono; [by apply (head_taken Q) | | done]. intros ? k1 (Hk1 & Hd1 & Hss1 & Hrl & i1 & Hi1 & Eo1). destruct (obj_of_blocked _ _ Eo1) as [Hr1 Hid1].
  destruct (relinked_some _ _ _ _ Hrl Hi) as (it & Hit & Eu). apply unlink_fields in Eu as (_ & Eo2 & _).
  assert (k_cte k1 = k_cte k) as Ec1 by (by destruct (kdata_tcb _ _ t Hd1) as (_ & ? & _)).
  apply (hand_over_ok (fun _ => False) (leave Q (OEp a) d) k1 t d i1 a (sa_badge g) (sa_canGrant g)
    (fun b => if sa_call g then if sa_canGrant g || sa_canGrantReply g then setupCallerCap t d b else setThreadState t ThreadState_Inactive else ret tt)); try done.
  { by apply (xfer_ready_data k). }
  intros k2 Hk2 [M1 M2 M3 M4 M5]. rewrite (recv_grant_data k k1) by done.
  eapply wp_mono; [apply (caller_ok (fun _ => False) (leave Q (OEp a) d) L k2 t d it) | | done]; [done | | |].
  - intros Ecl Ecr. apply (reply_ready_cte L k); [congruence | by apply Hry].
  - intros st Hst Host. apply stop_ok; [done | done | by apply M5, (may_block_same k) | by rewrite M4 | congruence | done | done].
  - intros ? k' (Hk' & Hca & Hse). eexists. split; [exact Hk' |]. apply (sn_delivered _ _ _ _ _ _ _ _ d r); [done | done | | |].
    + apply (message_from k1); [done |]. by eapply settled_message.
    + by rewrite (settled_runnable _ _ _ _ Hse).
    + apply (caller_after_from L k2); [congruence | done].
Qed.

(** ** Receiving *)

Definition snd_reply (k : kstate) (s : Z) : bool := from_option blockingIPCCanGrantReply false (k_tcb k !! s).
Definition snd_call (k : kstate) (s : Z) : bool := from_option blockingIPCIsCall false (k_tcb k !! s).

(** What becomes of the sender. *)
Definition sender_after (L : list (list Z)) (k : kstate) (s t : Z) (grant : bool) (k' : kstate) : Prop :=
  if snd_call k s then caller_after L k s t grant true (recv_grant k s || snd_reply k s) k' else runnable k' s = true /\ k_cte k' = k_cte k.

Lemma deliver_from_ok Q L k s t x y i a badge grant : config_ok -> kipc (fun z => False \/ z = s) Q k -> k_tcb k !! s = Some y -> k_tcb k !! t = Some x ->
  is_tcb (istore_of k) !! s = Some i -> isRunnable_st (it_st i) = false -> it_st i <> ThreadState_IdleThreadState -> s <> t ->
  xfer_ready k s t (recv_grant k s) -> (snd_call k s = true -> recv_grant k s || snd_reply k s = true -> reply_ready L k s t) ->
  wp (do* doIPCTransfer s a badge (recv_grant k s) t in
      let* s' := tcb_get s in
      if blockingIPCIsCall s' then
        if recv_grant k s || snd_reply k s then setupCallerCap s t grant else setThreadState s ThreadState_Inactive
      else do* setThreadState s ThreadState_Running in possibleSwitchTo s)
    (fun _ k' => kipc (fun _ => False) Q k' /\ message k s t badge k' /\ sender_after L k s t grant k') (fun _ => False) k.
Proof.
  intros Hc Hk Hy Hx Hi Hr Hid Hst Hxr Hry. pose proof Hxr as [_ X2 X3 X4]. unfold thread_fault in X4. rewrite Hy in X4.
  destruct (kipc_thread _ _ _ s Hk ltac:(eauto)) as [Hs1 _]. destruct (kipc_thread _ _ _ t Hk ltac:(eauto)) as [Ht1 _].
  wp_step. eapply wp_mono; [apply (doIPCTransfer_ok k s t y x); try done; lia | | done]. intros ? k1 Htr.
  destruct (transferred_kipc _ _ _ _ _ _ _ Hk Htr) as [Hk1 Es1]. rewrite <- Es1 in Hi. destruct Htr as [Hm (x' & R & W & ec & _ & Ek1)].
  assert (k_tcb k1 !! s = Some y) as Hy1 by (rewrite Ek1; simpl; by rewrite lookup_insert_ne).
  assert (k_cte k1 = k_cte k) as Ec1 by by rewrite Ek1.
  wp_step. eapply wp_tcb_get; [exact Hy1 | lia |]. unfold sender_after. assert (snd_call k s = blockingIPCIsCall y) as Ecl by (unfold snd_call; by rewrite Hy).
  destruct (blockingIPCIsCall y) eqn:Eisc; rewrite Ecl in *.
  - eapply wp_mono; [apply (caller_ok (fun _ => False) Q L k1 s t i grant true (recv_grant k s || snd_reply k s)) | | done]; [done | | |].
    + intros _ E. apply (reply_ready_cte L k); [done | by apply Hry].
    + intros st Hs Ho. by apply park_only_ok.
    + intros ? k' (Hk' & Hca & Hse). split; [done |]. split; [by eapply settled_message |]. by apply (caller_after_from L k1).
  - eapply wp_mono; [by apply (wake_thread_ok (fun _ => False) Q k1 s i ThreadState_Running) | | done]. intros ? k2 (Hk2 & [W1 W2 W3 W4 _ _]).
    split; [done |]. split; [by apply (message_to k s t badge k1) |]. split; [done | congruence].
Qed.

Inductive received (Q : obj -> list Z) (L : list (list Z)) (k : kstate) (e : endpoint_t) (t a : Z) (grant isBlocking : bool) (k' : kstate) : (obj -> list Z) -> Prop :=
| rc_message s r : ep_state e = EPState_Send -> Q (OEp a) = s :: r -> message k s t (sent_badge (istore_of k) s) k' ->
    sender_after L k s t grant k' -> received Q L k e t a grant isBlocking k' (leave Q (OEp a) s)
| rc_waiting : ep_state e <> EPState_Send -> isBlocking = true -> runnable k' t = false ->
    received Q L k e t a grant isBlocking k' (oput Q (OEp a) (Q (OEp a) ++ [t]))
| rc_failed : ep_state e <> EPState_Send -> isBlocking = false -> reg k' t badgeRegister = 0 -> received Q L k e t a grant isBlocking k' Q.

Lemma receive_wait_ok Q L k t x a e (grant isBlocking : bool) : config_ok -> kipc (fun _ => False) Q k -> may_block k t -> k_tcb k !! t = Some x ->
  obj_of (ithread_of x) = None -> k_ep k !! a = Some e -> ep_state e <> EPState_Send ->
  wp (if isBlocking then
        do* tcb_upd t (fun t => upd_blockingIPCCanGrant (fun _ => grant)
              (upd_blockingObject (fun _ => a) (upd_tsType (fun _ => ThreadState_BlockedOnReceive) t))) in
        do* scheduleTCB t in ep_wait a t EPState_Recv
      else doNBRecvFailedTransfer t) (fun _ k' => exists Q', kipc (fun _ => False) Q' k' /\ received Q L k e t a grant isBlocking k' Q') (fun _ => False) k.
Proof.
  intros Hc Hk Hm Hx Eo He Hne. destruct isBlocking.
  - eapply wp_mono; [apply (ep_block_ok Q k t x a e _ (fun t => upd_blockingIPCCanGrant (fun _ => grant) (upd_blockingObject (fun _ => a) t))); try done; try by destruct x | | done].
    + destruct (ep_state e); tauto.
    + intros ? k' (Hk' & Hr & _). eexists. split; [exact Hk' |]. by apply rc_waiting.
  - unfold doNBRecvFailedTransfer. eapply wp_mono; [apply (setRegister_ok (fun _ => False) Q); eauto | | done]. intros ? k' (Hk' & _ & _ & Hr).
    eexists. split; [exact Hk' |]. by apply rc_failed.
Qed.

Lemma snd_data k k' s : kdata k' = kdata k -> snd_reply k' s = snd_reply k s /\ snd_call k' s = snd_call k s.
Proof.
  intros E. destruct (kdata_tcb _ _ s E) as (Ex & _). unfold snd_reply, snd_call. destruct (k_tcb k' !! s), (k_tcb k !! s); simpl in *; try done.
  unfold tdata in Ex. split; congruence.
Qed.

Lemma sender_after_from L k k0 s t grant k' : kdata k = kdata k0 -> sender_after L k s t grant k' -> sender_after L k0 s t grant k'.
Proof.
  intros E. destruct (snd_data _ _ s E) as [E1 E2]. destruct (kdata_tcb _ _ s E) as (_ & Ec & _). unfold sender_after.
  rewrite E1, E2, (recv_grant_data _ _ _ E). destruct (snd_call k0 s); [by apply caller_after_from | intros [? ?]; split; [done | congruence]].
Qed.
Lemma sent_badge_relinked s s' y : relinked s s' -> sent_badge s' y = sent_badge s y.
Proof.
  intros Hr. specialize (Hr y). unfold sent_badge. destruct (is_tcb s' !! y) as [i'|], (is_tcb s !! y) as [i|]; simpl in *; try done.
  apply (inj Some) in Hr. by apply unlink_fields in Hr as (_ & _ & _ & ->).
Qed.

(** The endpoint itself, when no signal of the bound notification is pending. *)
Lemma receive_ep_ok Q L k t a e x (grant isBlocking : bool) : config_ok -> kipc (fun _ => False) Q k -> k_ep k !! a = Some e -> k_tcb k !! t = Some x ->
  may_block k t -> obj_of (ithread_of x) = None ->
  (ep_state e = EPState_Send -> let s := q_head (obj_queue (istore_of k) (OEp a)) in
    xfer_ready k s t (recv_grant k s) /\ (snd_call k s = true -> recv_grant k s || snd_reply k s = true -> reply_ready L k s t)) ->
  wp (let* e := ep_get a in
      match ep_state e with
      | EPState_Idle | EPState_Recv =>
          if isBlocking then
            do* tcb_upd t (fun t => upd_blockingIPCCanGrant (fun _ => grant)
                  (upd_blockingObject (fun _ => a) (upd_tsType (fun _ => ThreadState_BlockedOnReceive) t))) in
            do* scheduleTCB t in ep_wait a t EPState_Recv
          else doNBRecvFailedTransfer t
      | EPState_Send =>
          let* queue := ep_ptr_get_queue a in
          let sender := q_head queue in
          do* assert_ (negb (sender =? 0)) in
          do* ep_take a sender queue in
          let* s := tcb_get sender in
          let badge := blockingIPCBadge s in
          let canGrant := blockingIPCCanGrant s in
          let canGrantReply := blockingIPCCanGrantReply s in
          do* doIPCTransfer sender a badge canGrant t in
          let* s := tcb_get sender in
          if blockingIPCIsCall s then
            if canGrant || canGrantReply then setupCallerCap sender t grant else setThreadState sender ThreadState_Inactive
          else do* setThreadState sender ThreadState_Running in possibleSwitchTo sender
      end) (fun _ k' => exists Q', kipc (fun _ => False) Q' k' /\ received Q L k e t a grant isBlocking k' Q') (fun _ => False) k.
Proof.
  intros Hc Hk He Hx Hm Eo Hxr. pose proof Hk as [HS HI]. pose proof (istep_start k HS) as Hs0. pose proof (ep_nonzero _ _ _ _ _ Hk He) as H0.
  assert (is_tcb (istore_of k) !! t = Some (ithread_of x)) as Hi by (simpl; by rewrite lookup_fmap, Hx).
  wp_step. eapply wp_ep_get; [exact Hs0 | exact He | done |].
  destruct (ep_state e) eqn:Est; [by apply (receive_wait_ok Q L k t x); rewrite ?Est | | by apply (receive_wait_ok Q L k t x); rewrite ?Est].
  destruct (queue_first Q k a e Hk He ltac:(congruence)) as (s & r & EQ & Hd & Eh & Hd0). destruct (Hxr eq_refl) as [Hxf Hry]. rewrite Eh in Hxf, Hry.
  unfold ep_ptr_get_queue. do 2 wp_step. eapply wp_ep_get; [exact Hs0 | exact He | done |]. wp_step. cbv zeta.
  replace (mkQ (epQueue_head e) (epQueue_tail e)) with (obj_queue (istore_of k) (OEp a)) by (simpl; by rewrite He). rewrite Eh.
  do 2 wp_step. rewrite (proj2 (Z.eqb_neq s 0)) by done. cbn [negb]. wp_step.
  assert (s <> t) as Hst by (intros ->; by apply (no_queue _ _ _ _ _ HI Hi (or_introl Eo) (OEp a))).
  eapply wp_mono; [by apply (head_taken Q) | | done]. intros ? k1 (Hk1 & Hd1 & Hss1 & Hrl & i1 & Hi1 & Eo1). destruct (obj_of_blocked _ _ Eo1) as [Hr1 Hid1].
  destruct (istore_tcb _ _ _ _ eq_refl Hi1) as (y & Hy & Ey). wp_step. eapply wp_tcb_get; [exact Hy | done |]. cbv zeta.
  assert (exists x1, k_tcb k1 !! t = Some x1) as [x1 Hx1]. { destruct (relinked_some _ _ _ _ Hrl Hi) as (it & Hit & _). destruct (istore_tcb _ _ _ _ eq_refl Hit) as (z & ? & _). eauto. }
  assert (blockingIPCBadge y = sent_badge (istore_of k) s) as Eb.
  { rewrite <- (sent_badge_relinked _ _ s Hrl). unfold sent_badge. rewrite Hi1. by rewrite <- Ey. }
  replace (blockingIPCCanGrant y) with (recv_grant k1 s) by (unfold recv_grant; by rewrite Hy).
  replace (blockingIPCCanGrantReply y) with (snd_reply k1 s) by (unfold snd_reply; by rewrite Hy). rewrite Eb. destruct (snd_data _ _ s Hd1) as [E1 E2].
  eapply wp_mono; [apply (deliver_from_ok (leave Q (OEp a) s) L k1 s t x1 y i1); try done | | done].
  - rewrite (recv_grant_data k k1) by done. by apply (xfer_ready_data k).
  - rewrite E1, E2, (recv_grant_data k k1) by done. intros A B. apply (reply_ready_cte L k); [by destruct (kdata_tcb _ _ t Hd1) as (_ & ? & _) | by apply Hry].
  - intros ? k' (Hk' & Hmsg & Hsa). eexists. split; [exact Hk' |]. apply (rc_message _ _ _ _ _ _ _ _ _ s r); [done | done | |].
    + by apply (message_from k1).
    + by apply (sender_after_from L k1).
Qed.

(** A signal that is there already goes before the messages. *)
Inductive recv_result (Q : obj -> list Z) (L : list (list Z)) (k : kstate) (e : endpoint_t) (t a n : Z) (grant isBlocking : bool) (k' : kstate) : (obj -> list Z) -> Prop :=
| rr_signal b : pending k n = Some b -> reg k' t badgeRegister = b -> pending k' n = None -> recv_result Q L k e t a n grant isBlocking k' Q
| rr_ep Q' : pending k n = None -> received Q L k e t a grant isBlocking k' Q' -> recv_result Q L k e t a n grant isBlocking k' Q'.

Lemma completeSignal_ok Q k n N t : kipc (fun _ => False) Q k -> k_ntfn k !! n = Some N -> ntfn_state N = NtfnState_Active -> n <> 0 -> is_Some (k_tcb k !! t) ->
  wp (completeSignal n t) (fun _ k' => kipc (fun _ => False) Q k' /\ reg k' t badgeRegister = ntfnMsgIdentifier N /\ pending k' n = None) (fun _ => False) k.
Proof.
  intros Hk HN Est Hn Ht. pose proof Hk as [HS _]. destruct (kipc_thread _ _ _ t Hk Ht) as [Ht1 _]. unfold completeSignal. wp_step.
  eapply wp_nt_get; [exact (istep_start k HS) | exact HN | done |]. rewrite (proj2 (Z.eqb_neq t 0)), bool_decide_true by (done || lia). cbn [negb andb]. wp_step.
  eapply wp_mono; [by apply (setRegister_ok (fun _ => False) Q) | | done]. intros ? k1 (Hk1 & Es1 & _ & Hr).
  eapply wp_mono; [apply (ntfn_idle_ok Q k1 n N); [done | | done | done] | | done].
  { apply (f_equal (fun s => is_nt s !! n)) in Es1. simpl in Es1. by rewrite Es1. }
  intros ? k2 (Hk2 & Hp2 & Hs2). split; [done |]. split; [|done]. rewrite <- Hr. by apply istep_reg with (s := istore_of k2).
Qed.

Lemma receiveIPC_effect Q L k t a e x badge cr (grant cs cre isBlocking : bool) : config_ok -> kipc (fun _ => False) Q k -> k_ep k !! a = Some e -> k_tcb k !! t = Some x ->
  may_block k t -> obj_of (ithread_of x) = None ->
  (ep_state e = EPState_Send -> let s := q_head (obj_queue (istore_of k) (OEp a)) in
    xfer_ready k s t (recv_grant k s) /\ (snd_call k s = true -> recv_grant k s || snd_reply k s = true -> reply_ready L k s t)) ->
  wp (receiveIPC t (cap_endpoint_cap badge cr grant cs cre a) isBlocking)
    (fun _ k' => exists Q', kipc (fun _ => False) Q' k' /\ recv_result Q L k e t a (tcbBoundNotification x) grant isBlocking k' Q') (fun _ => False) k.
Proof.
  intros Hc Hk He Hx Hm Eo Hxr. pose proof Hk as [HS HI]. pose proof (istep_start k HS) as Hs0. set (n := tcbBoundNotification x).
  destruct (kipc_thread _ _ _ t Hk ltac:(eauto)) as (Ht1 & _).
  unfold receiveIPC. wp_step. eapply wp_tcb_get; [exact Hx | lia |]. cbv zeta. fold n. wp_step.
  assert (wp (if negb (n =? 0) then let* n := ntfn_get n in ret (bool_decide (ntfn_state n = NtfnState_Active)) else ret false)
    (fun b k' => k' = k /\ if b then n <> 0 /\ exists N, k_ntfn k !! n = Some N /\ ntfn_state N = NtfnState_Active else pending k n = None) (fun _ => False) k) as Hact.
  { destruct (n =? 0) eqn:En; cbn [negb]; [apply Z.eqb_eq in En | apply Z.eqb_neq in En].
    - wp_step. split; [done |]. unfold pending. destruct (k_ntfn k !! n) as [N|] eqn:EN; [|done]. by destruct (nt_nonzero _ _ _ _ _ Hk EN).
    - destruct (io_bound _ _ _ HI) as [_ B2]. destruct (B2 t (ithread_of x)) as (N & HN & _); [simpl; by rewrite lookup_fmap, Hx | done |]. wp_step.
      eapply wp_nt_get; [exact Hs0 | exact HN | done |]. wp_step. split; [done |]. unfold pending. change (k_ntfn k !! n = Some N) in HN. rewrite HN.
      destruct (decide (ntfn_state N = NtfnState_Active)); [rewrite bool_decide_true by done; eauto | by rewrite bool_decide_false]. }
  eapply wp_mono; [exact Hact | | done]. intros b ? [-> Hb]. destruct b.
  - destruct Hb as (Hn & N & HN & Est). eapply wp_mono; [apply (completeSignal_ok Q k n N t); eauto | | done]. intros ? k' (Hk' & Hr & Hp).
    exists Q. split; [done |]. apply (rr_signal _ _ _ _ _ _ _ _ _ _ (ntfnMsgIdentifier N)); [|done | done]. unfold pending. by rewrite HN, bool_decide_true.
  - eapply wp_mono; [by apply (receive_ep_ok Q L k t a e x grant isBlocking) | | done]. intros ? k' (Q' & Hk' & Hrc). exists Q'. split; [done |]. by apply rr_ep.
Qed.
End Rendezvous.
