(* ===== verification/KIpcFrame.v ===== *)
(** * What the operations on threads leave alone

    Frame properties of the operations of kernel/src/object/endpoint.c,
    notification.c and kernel/src/kernel/thread.c: no thread starts to wait but the
    one that is meant to, and no slot changes but those of a reply capability. *)

From S2P Require Import Prelude Dll KCaps KState KSched KCspace KMdb KMsg KIpc.
From S2P Require Import KSchedInv KSchedThms KSchedSteps KIpcInv KIpcThms.

(** ** Thread states *)

Definition types (k : kstate) : gmap Z _thread_state_t := tsType <$> k_tcb k.
Definition waits_at (st : _thread_state_t) : bool :=
  match st with ThreadState_BlockedOnSend | ThreadState_BlockedOnReceive | ThreadState_BlockedOnNotification => true | _ => false end.
(** A thread that waits at an object in [k'] does so as [T] allows, or waited in the same way in [k]. *)
Definition calm (T : Z -> _thread_state_t -> Prop) (k k' : kstate) : Prop :=
  forall y st, types k' !! y = Some st -> waits_at st = true -> T y st \/ types k !! y = Some st.
Definition calms {A} (T : Z -> _thread_state_t -> Prop) (m : M kstate A) : Prop := forall k a k', m k = inl (a, k') -> calm T k k'.

Lemma calm_trans T k1 k2 k3 : calm T k1 k2 -> calm T k2 k3 -> calm T k1 k3.
Proof. intros H1 H2 y st Hy Hw. destruct (H2 y st Hy Hw) as [|H]; [by left | by apply H1]. Qed.
Lemma calms_bind {A B} T (m : M kstate A) (f : A -> M kstate B) : calms T m -> (forall a, calms T (f a)) -> calms T (bind m f).
Proof.
  intros Hm Hf k b k'. unfold bind. destruct (m k) as [[a k1]|] eqn:E; [|done]. intros E'. eapply calm_trans; [by eapply Hm | by eapply Hf].
Qed.
Lemma calms_types {A} T (m : M kstate A) : preserves types m -> calms T m.
Proof. intros Hp k a k' E y st. rewrite (Hp _ _ _ E). by right. Qed.
Lemma types_view k k' : kview k' = kview k -> types k' = types k.
Proof.
  intros E. assert (tview <$> k_tcb k' = tview <$> k_tcb k) as Et by (unfold kview in E; by injection E as -> _ _ _ _).
  apply map_eq. intros y. unfold types. rewrite !lookup_fmap. apply (f_equal (fun m => m !! y)) in Et. rewrite !lookup_fmap in Et.
  destruct (k_tcb k' !! y), (k_tcb k !! y); simpl in *; try done. unfold tview, ithread_of in Et. congruence.
Qed.
Lemma pres_types_view {A} (m : M kstate A) : preserves kview m -> preserves types m.
Proof. intros Hp k a k' E. apply types_view. by eapply Hp. Qed.
Lemma pres_cte_view {A} (m : M kstate A) : preserves kview m -> preserves k_cte m.
Proof. intros Hp k a k' E. apply Hp in E. unfold kview in E. by injection E as _ _ _ -> _. Qed.
Lemma pres_types_upd t f : (forall x, tsType (f x) = tsType x) -> preserves types (tcb_upd t f).
Proof.
  intros Hf k u k'. unfold tcb_upd, bind, tcb_get. destruct (t =? 0); [done |]. destruct (k_tcb k !! t) as [x|] eqn:E; [|done].
  intros [= _ <-]. unfold types. simpl. rewrite fmap_insert, Hf. apply insert_id. by rewrite lookup_fmap, E.
Qed.
Lemma calms_upd (T : Z -> _thread_state_t -> Prop) t f : (forall x, waits_at (tsType (f x)) = false \/ T t (tsType (f x))) -> calms T (tcb_upd t f).
Proof.
  intros Hf k u k'. unfold tcb_upd, bind, tcb_get. destruct (t =? 0); [done |]. destruct (k_tcb k !! t) as [x|] eqn:E; [|done].
  intros [= _ <-] y st. unfold types. simpl. rewrite fmap_insert. destruct (decide (y = t)) as [->|]; [|rewrite lookup_insert_ne by done; by right].
  rewrite lookup_insert_eq. intros [= <-] Hw. destruct (Hf x) as [E'|]; [|by left]. by rewrite E' in Hw.
Qed.

Create HintDb calm.

Section Frame.
Context `{C : KConfig}.

Lemma pres_cte_get {X} (f : kstate -> X) p : preserves f (cte_get p).
Proof. intros k x k'. unfold cte_get. destruct (p =? 0); [done |]. by destruct (k_cte k !! p); intros [= <- <-]. Qed.
Lemma pres_ep_get {X} (f : kstate -> X) p : preserves f (ep_get p).
Proof. intros k x k'. unfold ep_get. destruct (p =? 0); [done |]. by destruct (k_ep k !! p); intros [= <- <-]. Qed.
Lemma pres_ntfn_get {X} (f : kstate -> X) p : preserves f (ntfn_get p).
Proof. intros k x k'. unfold ntfn_get. destruct (p =? 0); [done |]. by destruct (k_ntfn k !! p); intros [= <- <-]. Qed.
Lemma pres_reg_get {X} (f : kstate -> X) t r : preserves f (getRegister t r).
Proof. unfold getRegister. apply preserves_bind; [apply pres_tcb_get | intros x; apply preserves_ret]. Qed.
Lemma pres_cte_upd_tcb t f : preserves k_cte (tcb_upd t f).
Proof. unfold tcb_upd. apply preserves_bind; [apply pres_tcb_get |]. intros x. by apply preserves_modify. Qed.
#[local] Hint Resolve pres_tcb_get pres_cte_get pres_ep_get pres_ntfn_get pres_reg_get pres_cte_upd_tcb : pres.
#[local] Hint Extern 3 (preserves types (tcb_upd _ _)) => (apply pres_types_upd; intros []; reflexivity) : pres.
#[local] Hint Extern 2 (preserves types _) => (apply pres_types_view; solve [eauto using view_enqueue, view_dequeue, view_reschedule, view_scheduleTCB, view_switch]) : pres.
#[local] Hint Extern 2 (preserves k_cte _) => (apply pres_cte_view; solve [eauto using view_enqueue, view_dequeue, view_reschedule, view_scheduleTCB, view_switch]) : pres.

(** ** Queues of threads: neither states nor slots change *)
Ltac frame := unfold ep_take, ep_wait, ntfn_take, ntfn_wait, ep_ptr_get_queue, ep_ptr_set_queue, endpoint_ptr_set_state, ntfn_ptr_get_queue, ntfn_ptr_set_queue,
  notification_ptr_set_state, notification_ptr_set_ntfnMsgIdentifier, notification_ptr_set_ntfnBoundTCB, ntfn_set_active, ep_upd, ntfn_upd, ep_set, ntfn_set,
  tcbEPDequeue, tcbEPAppend, doNBRecvFailedTransfer, setRegister, queue_fuel; pres.
Lemma types_ep_take e t q : preserves types (ep_take e t q).
Proof. frame. Qed.
Lemma cte_ep_take e t q : preserves k_cte (ep_take e t q).
Proof. frame. Qed.
Lemma types_ep_wait e t q : preserves types (ep_wait e t q).
Proof. frame. Qed.
Lemma types_ntfn_take n t q : preserves types (ntfn_take n t q).
Proof. frame. Qed.
Lemma cte_ntfn_take n t q : preserves k_cte (ntfn_take n t q).
Proof. frame. Qed.
Lemma types_ntfn_wait n t : preserves types (ntfn_wait n t).
Proof. frame. Qed.
Lemma cte_ntfn_wait n t : preserves k_cte (ntfn_wait n t).
Proof. frame. Qed.

(** ** A message: registers, words and slots, no thread state *)
Lemma types_resolve fuel c capptr n nt : preserves types (resolve_loop fuel c capptr n nt).
Proof.
  revert c n. induction fuel as [|fuel IH]; intros c n; cbn [resolve_loop]; [pres |]. unfold set_lookup_fault. destruct c; pres.
Qed.
#[local] Hint Resolve types_resolve : pres.
Lemma types_lookupSlot t c : preserves types (lookupSlot t c).
Proof. unfold lookupSlot, resolveAddressBits, set_lookup_fault. pres. Qed.
#[local] Hint Resolve types_lookupSlot : pres.
Lemma types_lookup_op src root capptr depth : preserves types (lookupSlotForCNodeOp src root capptr depth).
Proof.
  unfold lookupSlotForCNodeOp, resolveAddressBits, err_RangeError, err_FailedLookup, set_lookup_fault. destruct root; pres.
Qed.
#[local] Hint Resolve types_lookup_op : pres.
Lemma types_buffer b t : preserves types (lookupIPCBuffer b t).
Proof. unfold lookupIPCBuffer. pres. Qed.
Lemma types_extra_loop t b i n : preserves types (lookupExtraCaps_loop t b i n).
Proof. revert i. induction n as [|n IH]; intros i; cbn [lookupExtraCaps_loop]; unfold getExtraCPtr, word_get, set_extra_cap; pres. Qed.
Lemma types_receive_slots t b : preserves types (getReceiveSlots t b).
Proof. unfold getReceiveSlots, loadCapTransfer, lookupTargetSlot, lookupCap, word_get. pres. Qed.
#[local] Hint Resolve types_buffer types_extra_loop types_receive_slots : pres.
Lemma types_derive p c : preserves types (deriveCap p c).
Proof. unfold deriveCap, Arch_deriveCap, ensureNoChildren, err_type_only. pres. Qed.
Lemma types_insert c p q : preserves types (cteInsert c p q).
Proof. unfold cteInsert, setUntypedCapAsFull, set_cap, set_mdb, set_next, set_prev, cte_upd. pres. Qed.
#[local] Hint Resolve types_derive types_insert : pres.
Lemma types_caps_loop info l ep b d i : preserves types (transferCaps_loop info l ep b d i).
Proof. revert info d i. induction l as [|p l IH]; intros info d i; cbn [transferCaps_loop]; unfold setExtraBadge, word_set; pres. Qed.
Lemma types_mrs_inline s t i n : preserves types (copyMRs_inline s t i n).
Proof. revert i. induction n as [|n IH]; intros i; cbn [copyMRs_inline]; unfold reg_at, setRegister; pres. Qed.
Lemma types_mrs_buffer s t i n : preserves types (copyMRs_buffer s t i n).
Proof. revert i. induction n as [|n IH]; intros i; cbn [copyMRs_buffer]; unfold word_get, word_set; pres. Qed.
#[local] Hint Resolve types_caps_loop types_mrs_inline types_mrs_buffer : pres.
Lemma types_normal s sb ep badge g t rb : preserves types (doNormalTransfer s sb ep badge g t rb).
Proof. unfold doNormalTransfer, transferCaps, lookupExtraCaps, copyMRs, set_extra_cap, setRegister. pres. Qed.
Lemma types_setMR t b i v : preserves types (setMR t b i v).
Proof. unfold setMR, reg_at, word_set, setRegister. pres. Qed.
Lemma types_fault_inline s t id i n : preserves types (copyMRsFault_inline s t id i n).
Proof. revert i. induction n as [|n IH]; intros i; cbn [copyMRsFault_inline]; unfold reg_at, setRegister; pres. Qed.
Lemma types_fault_buffer s b id i n : preserves types (copyMRsFault_buffer s b id i n).
Proof. revert i. induction n as [|n IH]; intros i; cbn [copyMRsFault_buffer]; unfold reg_at, word_set; pres. Qed.
#[local] Hint Resolve types_normal types_setMR types_fault_inline types_fault_buffer : pres.
Lemma types_fault_transfer badge s t b : preserves types (doFaultTransfer badge s t b).
Proof.
  unfold doFaultTransfer, setMRs_fault, setMRs_lookup_failure, Arch_setMRs_fault, copyMRsFault, getRestartPC, setRegister. pres.
Qed.
#[local] Hint Resolve types_fault_transfer : pres.
Lemma types_transfer s ep badge g t : preserves types (doIPCTransfer s ep badge g t).
Proof. unfold doIPCTransfer. pres. Qed.
#[local] Hint Resolve types_transfer types_ep_take types_ep_wait types_ntfn_take types_ntfn_wait cte_ep_take cte_ntfn_take cte_ntfn_wait : pres.

(** ** The operations *)
#[local] Hint Extern 4 (calms _ _) => (apply calms_types; solve [frame]) : calm.
Ltac calming := repeat first
  [ solve [eauto with calm] | solve [apply calms_upd; intros []; right; done] | apply calms_bind; [| intros ?]
  | match goal with |- calms _ (match ?x with _ => _ end) => destruct x eqn:? end | progress cbv beta iota zeta ].

Lemma calms_state T t st : waits_at st = false -> calms T (setThreadState t st).
Proof. intros Hw. unfold setThreadState. apply calms_bind; [apply calms_upd; intros []; by left |]. intros _. apply calms_types. pres. Qed.
Lemma cte_state t st : preserves k_cte (setThreadState t st).
Proof. unfold setThreadState. pres. Qed.
#[local] Hint Resolve cte_state : pres.
#[local] Hint Extern 3 (calms _ (setThreadState _ _)) => (apply calms_state; reflexivity) : calm.

Lemma calms_caller T s t g : calms T (setupCallerCap s t g).
Proof. unfold setupCallerCap. calming. Qed.
#[local] Hint Resolve calms_caller : calm.
Lemma calms_send b c badge g gr t ep : calms (fun y st => y = t /\ st = ThreadState_BlockedOnSend) (sendIPC b c badge g gr t ep).
Proof. unfold sendIPC. calming. Qed.
Lemma calms_receive t c b : calms (fun y st => y = t /\ st = ThreadState_BlockedOnReceive) (receiveIPC t c b).
Proof. unfold receiveIPC, completeSignal. calming. Qed.
Lemma calms_wait t c b : calms (fun y st => y = t /\ st = ThreadState_BlockedOnNotification) (receiveSignal t c b).
Proof. unfold receiveSignal. calming. Qed.
Lemma cte_wait t c b : preserves k_cte (receiveSignal t c b).
Proof. unfold receiveSignal. frame. Qed.

Lemma calms_queue T fuel t : calms T (restart_queue fuel t).
Proof. revert t. induction fuel as [|fuel IH]; intros t; cbn [restart_queue]; calming. Qed.
Lemma cte_queue fuel t : preserves k_cte (restart_queue fuel t).
Proof. revert t. induction fuel as [|fuel IH]; intros t; cbn [restart_queue]; pres. Qed.
#[local] Hint Resolve calms_queue : calm.
#[local] Hint Resolve cte_queue : pres.
Lemma calms_cancel_all T a : calms T (cancelAllIPC a) /\ calms T (cancelAllSignals a).
Proof. split; [unfold cancelAllIPC | unfold cancelAllSignals]; calming. Qed.
Lemma cte_cancel_all a : preserves k_cte (cancelAllIPC a) /\ preserves k_cte (cancelAllSignals a).
Proof. split; [unfold cancelAllIPC | unfold cancelAllSignals]; frame. Qed.
Lemma calms_badged T fuel t b q : calms T (cancelBadged_loop fuel t b q).
Proof. revert t q. induction fuel as [|fuel IH]; intros t q; cbn [cancelBadged_loop]; calming. Qed.
Lemma cte_badged fuel t b q : preserves k_cte (cancelBadged_loop fuel t b q).
Proof. revert t q. induction fuel as [|fuel IH]; intros t q; cbn [cancelBadged_loop]; frame. Qed.
#[local] Hint Resolve calms_badged : calm.
#[local] Hint Resolve cte_badged : pres.
Lemma calms_cancel_badged T a b : calms T (cancelBadgedSends a b).
Proof. unfold cancelBadgedSends. calming. Qed.
Lemma cte_cancel_badged a b : preserves k_cte (cancelBadgedSends a b).
Proof. unfold cancelBadgedSends. frame. Qed.
Lemma types_bind t n : preserves types (bindNotification t n) /\ preserves types (unbindNotification t).
Proof. split; [unfold bindNotification | unfold unbindNotification, doUnbindNotification]; frame. Qed.
Lemma cte_bind t n : preserves k_cte (bindNotification t n) /\ preserves k_cte (unbindNotification t).
Proof. split; [unfold bindNotification | unfold unbindNotification, doUnbindNotification]; frame. Qed.

(** Cancelling what a thread waits for at an object, and signalling, which may
    cancel what the bound thread waits for: both do not come to the case of a
    thread that waits for a reply. *)
Definition frames {A} (m : M kstate A) (k : kstate) : Prop := forall a k', m k = inl (a, k') -> calm (fun _ _ => False) k k' /\ k_cte k' = k_cte k.
Lemma frames_all {A} (m : M kstate A) k : calms (fun _ _ => False) m -> preserves k_cte m -> frames m k.
Proof. intros H1 H2 a k' E. split; [by eapply H1 | by eapply H2]. Qed.
Lemma frames_bind {A B} (m : M kstate A) (f : A -> M kstate B) k : frames m k -> (forall a k1, m k = inl (a, k1) -> frames (f a) k1) -> frames (bind m f) k.
Proof.
  intros Hm Hf b k'. unfold bind. destruct (m k) as [[a k1]|] eqn:E; [|done]. intros E'. destruct (Hm _ _ E) as [H1 H2].
  destruct (Hf _ _ eq_refl _ _ E') as [H3 H4]. split; [by eapply calm_trans | congruence].
Qed.
Lemma tcb_get_inv t k x k' : tcb_get t k = inl (x, k') -> k' = k /\ k_tcb k !! t = Some x.
Proof. unfold tcb_get. destruct (t =? 0); [done |]. by destruct (k_tcb k !! t); intros [= <- <-]. Qed.

Lemma frames_cancel t k : (forall x, k_tcb k !! t = Some x -> tsType x <> ThreadState_BlockedOnReply) -> frames (cancelIPC t) k.
Proof.
  intros Hx. unfold cancelIPC. apply frames_bind; [apply frames_all; [calming | pres] |]. intros x k1 [-> E]%tcb_get_inv. specialize (Hx x E).
  destruct (tsType x); try done; unfold cancelSignal; (apply frames_all; [calming | frame]).
Qed.
Lemma frames_signal n badge k : frames (sendSignal n badge) k.
Proof.
  unfold sendSignal. apply frames_bind; [apply frames_all; [calming | pres] |]. intros N k1 _.
  destruct (ntfn_state N); [|apply frames_all; [calming | frame]..].
  cbv zeta. destruct (negb _); [|apply frames_all; [calming | frame]]. apply frames_bind; [apply frames_all; [calming | pres] |].
  intros x k2 [-> E]%tcb_get_inv. case_bool_decide as Est; [|apply frames_all; [calming | frame]].
  apply frames_bind; [apply frames_cancel; intros x' E'; rewrite E in E'; injection E' as <-; by rewrite Est |].
  intros _ k3 _. apply frames_all; [calming | frame].
Qed.

(** Without a partner a sender or a receiver changes no slot; nor does a receiver
    that finds a signal. *)
Lemma ep_get_inv p k e k' : ep_get p k = inl (e, k') -> k' = k /\ k_ep k !! p = Some e.
Proof. unfold ep_get. destruct (p =? 0); [done |]. by destruct (k_ep k !! p); intros [= <- <-]. Qed.
Lemma cte_ep_wait e t st : preserves k_cte (ep_wait e t st).
Proof. frame. Qed.
#[local] Hint Resolve cte_ep_wait : pres.
Lemma cte_send_idle b c badge g gr t a k e u k' : k_ep k !! a = Some e -> ep_state e <> EPState_Recv ->
  sendIPC b c badge g gr t a k = inl (u, k') -> k_cte k' = k_cte k.
Proof.
  intros He Hs. unfold sendIPC, bind at 1. destruct (ep_get a k) as [[e' k1]|] eqn:E; [|done]. apply ep_get_inv in E as [-> E].
  rewrite He in E. injection E as <-. destruct (ep_state e); try done; (intros E'; refine ((_ : preserves k_cte _) _ _ _ E'); frame).
Qed.
Lemma cte_receive_idle t badge cr cg cs cre a b k x e u k' : k_tcb k !! t = Some x -> k_ep k !! a = Some e -> k_ntfn k !! 0 = None ->
  ep_state e <> EPState_Send \/ pending k (tcbBoundNotification x) <> None ->
  receiveIPC t (cap_endpoint_cap badge cr cg cs cre a) b k = inl (u, k') -> k_cte k' = k_cte k.
Proof.
  intros Hx He H0 Hc. unfold receiveIPC, bind at 1. destruct (tcb_get t k) as [[x' k1]|] eqn:E; [|done]. apply tcb_get_inv in E as [-> E].
  rewrite Hx in E. injection E as <-. cbv zeta. set (n := tcbBoundNotification x) in *. unfold bind at 1. set (m := if negb (n =? 0) then _ else _).
  destruct (m k) as [[act k1]|] eqn:E; [|done]. assert (k1 = k /\ (act = false -> pending k n = None)) as [-> Hp].
  { subst m. unfold pending. destruct (n =? 0) eqn:En; cbn [negb] in E; [injection E as <- <-; apply Z.eqb_eq in En as ->; by rewrite H0 |].
    unfold bind, ntfn_get in E. rewrite En in E. destruct (k_ntfn k !! n) as [N|]; [|done]. injection E as <- <-. split; [done |]. by case_bool_decide. }
  destruct act; [intros E'; refine ((_ : preserves k_cte _) _ _ _ E'); unfold completeSignal; frame |].
  unfold bind at 1. destruct (ep_get a k) as [[e' k2]|] eqn:E2; [|done]. apply ep_get_inv in E2 as [-> E2]. rewrite He in E2. injection E2 as <-.
  destruct Hc as [Hc|Hc]; [|by rewrite Hp in Hc]. destruct (ep_state e); try done; (intros E'; refine ((_ : preserves k_cte _) _ _ _ E'); frame).
Qed.
End Frame.
