(* ===== verification/KIpcSteps.v ===== *)
(** * Signals and messages: what the kernel promises

    The results of the files on threads and communication, and the invariant that
    every sequence of their operations keeps (kernel/src/object/endpoint.c,
    notification.c and kernel/src/kernel/thread.c). *)

From S2P Require Import Prelude Dll KCaps KCapThms KState KSched KCspace KMdb KMsg KIpc.
From S2P Require Import KSchedInv KSchedThms KSchedSteps KMdbThms KIpcInv KIpcThms KIpcCancel KTransfer KRendezvous KIpcFrame.

Section Steps.
Context `{C : KConfig}.

(** ** Scheduling does not touch the queues of the objects *)
#[local] Hint Resolve pres_tcb_get pres_rq_get pres_l1_get pres_l2_get pres_index pres_invert : pres.
#[local] Hint Resolve view_enqueue view_dequeue view_reschedule pres_view_rq view_addToBitmap view_removeFromBitmap : pres.
#[local] Hint Extern 3 (preserves kview (tcb_upd _ _)) => (apply pres_view_upd; intros []; reflexivity) : pres.

Lemma view_append t : preserves kview (tcbSchedAppend t).
Proof. unfold tcbSchedAppend. pres. Qed.
#[local] Hint Resolve view_append : pres.
Lemma view_tick : preserves kview timerTick.
Proof. unfold timerTick. pres. Qed.
Lemma view_switchToThread t : preserves kview (switchToThread t).
Proof. unfold switchToThread, event. pres. Qed.
Lemma view_choose : preserves kview scheduleChooseNewThread.
Proof. unfold scheduleChooseNewThread, chooseThread, switchToIdleThread, nextDomain, getHighestPrio, switchToThread, event. pres. Qed.
#[local] Hint Resolve view_switchToThread view_choose : pres.
Lemma view_schedule : preserves kview schedule.
Proof. unfold schedule, schedule_candidate, isHighestPrio, getHighestPrio, isRunnable, set_action. pres. Qed.

Lemma view_kipc E Q k (m : M kstate unit) : preserves kview m -> kipc E Q k -> wp m (fun _ k' => sched_ok k') (fun _ => False) k ->
  wp m (fun _ k' => kipc E Q k') (fun _ => False) k.
Proof.
  intros Hv [HS HI] Hm. eapply wp_mono; [exact (preserves_wp kview m _ _ _ Hv Hm) | | done]. intros ? k' [HS' Ev]. split; [done |]. by rewrite (view_istore _ _ Ev).
Qed.

(** ** Binding a notification to a thread *)

Definition it_set_bound (n : Z) (i : ithread) : ithread := mkIt (it_st i) (it_obj i) (it_badge i) (it_next i) (it_prev i) n.
Definition nt_set_bound (t : Z) (N : notification_t) : notification_t := mkNtfn (ntfn_state N) t (ntfnMsgIdentifier N) (ntfnQueue_head N) (ntfnQueue_tail N).

Lemma inv_rebind E Q s n N t i n' t' : ipc_inv E Q s -> is_nt s !! n = Some N -> is_tcb s !! t = Some i ->
  bound_ok (set_it (set_nt s n (nt_set_bound t' N)) t (it_set_bound n' i)) ->
  ipc_inv E Q (set_it (set_nt s n (nt_set_bound t' N)) t (it_set_bound n' i)).
Proof.
  intros HI HN Hi Hb. pose proof HI as [J1 J2 J3 J4 J5 J6 J7]. set (s' := set_it _ _ _) in *.
  assert (forall o, obj_queue s' o = obj_queue s o /\ obj_waits s' o = obj_waits s o) as Ho.
  { intros [a|a]; simpl; [done |]. destruct (decide (a = n)) as [->|]; [by rewrite !lookup_insert_eq, HN | by rewrite !lookup_insert_ne]. }
  assert (forall y, is_tcb s' !! y = if decide (y = t) then Some (it_set_bound n' i) else is_tcb s !! y) as Ht.
  { intros y. simpl. case_decide; [subst; by rewrite lookup_insert_eq | by rewrite lookup_insert_ne]. }
  assert (forall y, inx s' y = inx s y /\ ipv s' y = ipv s y) as Hl by (intros y; unfold inx, ipv; rewrite !Ht; case_decide; [subst; by rewrite Hi | done]).
  split; [| | | | | | exact Hb].
  - intros o. destruct (Ho o) as [-> _]. eapply dll_ext; [|apply J1]. intros y _. apply Hl.
  - intros o. destruct (Ho o) as [_ ->]. apply J2.
  - intros o y Hy. destruct (Ho o) as [_ ->]. destruct (J3 o y Hy) as (Hn & j & Hj & Ej & Ew). split; [done |]. rewrite Ht.
    case_decide; [|eauto]. subst. rewrite Hi in Hj. injection Hj as <-. eexists. split; [done |]. done.
  - intros y j o. rewrite Ht. case_decide as Ey; [subst; intros [= <-] Ej Hn; by apply (J4 t i o) | apply J4].
  - intros y. rewrite Ht. case_decide; [subst; intros _; apply J5; eauto | apply J5].
  - simpl. destruct J6. split; [done |]. rewrite lookup_insert_ne; [done |]. intros ->. congruence.
Qed.

(** The two pointers are set together, to each other or to nothing. *)
Lemma bound_pair s n N t i n' t' : bound_ok s -> is_nt s !! n = Some N -> is_tcb s !! t = Some i -> n <> 0 -> t <> 0 -> is_nt s !! 0 = None -> is_tcb s !! 0 = None ->
  ntfnBoundTCB N = 0 /\ it_bound i = 0 /\ n' = n /\ t' = t \/ ntfnBoundTCB N = t /\ it_bound i = n /\ n' = 0 /\ t' = 0 ->
  bound_ok (set_it (set_nt s n (nt_set_bound t' N)) t (it_set_bound n' i)).
Proof.
  intros [B1 B2] HN Hi Hn Ht H0 H0' Hc. split; simpl.
  - intros m M HM Hb. destruct (decide (m = n)) as [->|Hm].
    + rewrite lookup_insert_eq in HM. injection HM as <-. simpl in *. destruct Hc as [(E1 & E2 & -> & ->)|(E1 & E2 & -> & ->)]; [|done].
      rewrite lookup_insert_eq. eauto.
    + rewrite lookup_insert_ne in HM by done. destruct (B1 m M HM Hb) as (j & Hj & Ej). exists j.
      destruct (decide (ntfnBoundTCB M = t)) as [E|E]; [|by rewrite lookup_insert_ne]. rewrite E, Hi in Hj. injection Hj as <-.
      destruct Hc as [(E1 & E2 & _)|(E1 & E2 & _)]; [|congruence]. rewrite E2 in Ej. subst m. congruence.
  - intros u j Hj Hb. destruct (decide (u = t)) as [->|Hu].
    + rewrite lookup_insert_eq in Hj. injection Hj as <-. simpl in *. destruct Hc as [(E1 & E2 & -> & ->)|(E1 & E2 & -> & ->)]; [|done].
      rewrite lookup_insert_eq. eauto.
    + rewrite lookup_insert_ne in Hj by done. destruct (B2 u j Hj Hb) as (M & HM & EM). exists M.
      destruct (decide (it_bound j = n)) as [E|E]; [|by rewrite lookup_insert_ne]. rewrite E, HN in HM. injection HM as <-.
      destruct Hc as [(E1 & E2 & _)|(E1 & E2 & _)]; [|congruence]. rewrite E1 in EM. subst u. congruence.
Qed.

Definition bind_pair (n t n' t' : Z) : M kstate unit :=
  do* notification_ptr_set_ntfnBoundTCB n t' in tcb_upd t (upd_tcbBoundNotification (fun _ => n')).

Lemma bind_pair_ok E Q k n N t x n' t' : kipc E Q k -> k_ntfn k !! n = Some N -> k_tcb k !! t = Some x ->
  ntfnBoundTCB N = 0 /\ tcbBoundNotification x = 0 /\ n' = n /\ t' = t \/ ntfnBoundTCB N = t /\ tcbBoundNotification x = n /\ n' = 0 /\ t' = 0 ->
  wp (bind_pair n t n' t') (fun _ k' => kipc E Q k') (fun _ => False) k.
Proof.
  intros Hk HN Hx Hc. pose proof Hk as [HS HI]. pose proof (nt_nonzero _ _ _ _ _ Hk HN) as Hn. destruct (kipc_thread _ _ _ t Hk ltac:(eauto)) as (Ht & _).
  unfold bind_pair, notification_ptr_set_ntfnBoundTCB. wp_step. eapply wp_nt_upd; [exact (istep_start k HS) | exact HN | done |]. intros k1 Hs1.
  assert (is_tcb (istore_of k) !! t = Some (ithread_of x)) as Hi by (simpl; by rewrite lookup_fmap, Hx).
  eapply (wp_it_upd k1 k _ t (ithread_of x) _ (it_set_bound n')); [intros y; by destruct y | exact Hs1 | exact Hi | lia |]. intros k2 Hs2.
  pose proof (istep_sched _ _ _ HS Hs2) as HS2. destruct Hs2 as [Es2 _]. split; [done |]. rewrite Es2. apply inv_rebind; [done | done | done |].
  apply bound_pair; [apply (io_bound _ _ _ HI) | done | done | done | lia | apply (io_objs _ _ _ HI) | | exact Hc].
  destruct (is_tcb (istore_of k) !! 0) eqn:E0; [|done]. destruct (io_tcb _ _ _ HI 0 ltac:(eauto) eq_refl).
Qed.

(** ** Every sequence of operations *)

Inductive ipc_op : Type :=
| op_send (t a : Z) (g : send_args)
| op_recv (t : Z) (c : cap) (isBlocking : bool)
| op_signal (n badge : Z)
| op_wait (t : Z) (c : cap) (isBlocking : bool)
| op_cancel (t : Z)
| op_cancel_ep (a : Z)
| op_cancel_ntfn (n : Z)
| op_cancel_badge (a badge : Z)
| op_bind (t n : Z)
| op_unbind (t : Z)
| op_tick
| op_schedule.

Definition ipc_run (o : ipc_op) : M kstate unit :=
  match o with
  | op_send t a g => sendIPC (sa_blocking g) (sa_call g) (sa_badge g) (sa_canGrant g) (sa_canGrantReply g) t a
  | op_recv t c b => receiveIPC t c b
  | op_signal n badge => sendSignal n badge
  | op_wait t c b => receiveSignal t c b
  | op_cancel t => cancelIPC t
  | op_cancel_ep a => cancelAllIPC a
  | op_cancel_ntfn n => cancelAllSignals n
  | op_cancel_badge a badge => cancelBadgedSends a badge
  | op_bind t n => bindNotification t n
  | op_unbind t => unbindNotification t
  | op_tick => timerTick
  | op_schedule => schedule
  end.

(** A thread that can start to wait: it waits for nothing, it is not the idle
    thread, not in the ready queues and not about to be switched to. *)
Definition may_wait (k : kstate) (t : Z) : Prop := may_block k t /\ exists x, k_tcb k !! t = Some x /\ obj_of (ithread_of x) = None.
(** The partner of a thread at an endpoint that is not idle. *)
Definition partner (k : kstate) (a : Z) : Z := q_head (obj_queue (istore_of k) (OEp a)).

(** A thread as the kernel makes it: a word for address, in the upper half of its
    object, three of the slots in the lower half, and in one of them the capability
    from which those for replies to this thread are derived. *)
Record equipped (k : kstate) (t : Z) : Prop := {
  eq_addr : is_word t /\ t mod 2 ^ seL4_TCBBits = TCB_OFFSET;
  eq_slots : is_Some (k_cte k !! master_slot t) /\ is_Some (k_cte k !! caller_slot t);
  eq_buffer : buffer_slot k t;
  eq_master : cap_at k (master_slot t) = cap_reply_cap true true t }.

(** The slots of a system of threads: those that wait at an object are equipped, and
    those that wait for a message have room for a reply capability. *)
Record ipc_sys (L : list (list Z)) (k : kstate) : Prop := {
  sy_mdb : mdb_ok L k;
  sy_equipped : forall y st, types k !! y = Some st -> waits_at st = true -> equipped k y;
  sy_room : forall y, types k !! y = Some ThreadState_BlockedOnReceive -> cap_at k (caller_slot y) = cap_null_cap }.

(** A message of [s] that is not about a fault carries no capabilities when [s] may
    grant them. *)
Definition no_caps (k : kstate) (s : Z) (grant : bool) : Prop :=
  thread_fault k s = seL4_Fault_NullFault -> grant = true -> mi_extraCaps (msg_tag k s) = 0 /\ current_extra_caps k <> [].

(** When an operation is called: the objects it names exist; a thread that may start
    to wait is the running one and is equipped, and its slot for the caller is empty
    when it receives ([handleRecv] empties it first); a message that is handed over
    at once is without capabilities; what is cancelled is the waiting of a thread at
    an endpoint or notification. *)
Definition allowed (k : kstate) (o : ipc_op) : Prop :=
  match o with
  | op_send t a g => may_wait k t /\ equipped k t /\ exists e, k_ep k !! a = Some e /\ (ep_state e = EPState_Recv -> no_caps k t (sa_canGrant g))
  | op_recv t c _ => may_wait k t /\ equipped k t /\ cap_at k (caller_slot t) = cap_null_cap /\
      exists e badge cr grant cs cre a, c = cap_endpoint_cap badge cr grant cs cre a /\ k_ep k !! a = Some e /\
        (ep_state e = EPState_Send -> no_caps k (partner k a) (recv_grant k (partner k a)))
  | op_signal n _ => is_Some (k_ntfn k !! n)
  | op_wait t c _ => may_wait k t /\ equipped k t /\ exists badge cs cr n, c = cap_notification_cap badge cs cr n /\ is_Some (k_ntfn k !! n)
  | op_cancel t => exists i o, is_tcb (istore_of k) !! t = Some i /\ obj_of i = Some o
  | op_cancel_ep a | op_cancel_badge a _ => is_Some (k_ep k !! a)
  | op_cancel_ntfn n => is_Some (k_ntfn k !! n)
  | op_bind t n => exists x N, k_tcb k !! t = Some x /\ k_ntfn k !! n = Some N /\ ntfnBoundTCB N = 0 /\ tcbBoundNotification x = 0
  | op_unbind t => is_Some (k_tcb k !! t)
  | op_tick | op_schedule => True
  end.

(** ** The slots of the threads *)

Lemma caller_slot_eq t : is_word t -> t mod 2 ^ seL4_TCBBits = TCB_OFFSET -> caller_slot t = w64 (t - 928).
Proof.
  intros Hw Hm. unfold caller_slot, TCB_PTR_CTE_PTR. rewrite land_lnot_mask; [|done | done]. rewrite Hm. f_equal.
  change TCB_OFFSET with 1024. change (tcbCaller * cte_size) with 96. lia.
Qed.
Lemma caller_slot_inj k t u : equipped k t -> equipped k u -> caller_slot t = caller_slot u -> t = u.
Proof.
  intros [[W1 M1] _ _ _] [[W2 M2] _ _ _]. rewrite !caller_slot_eq by done. unfold is_word, w64 in *. intros E.
  pose proof (Z.div_mod (t - 928) (2 ^ 64) ltac:(lia)). pose proof (Z.div_mod (u - 928) (2 ^ 64) ltac:(lia)). rewrite E in *. nia.
Qed.
Lemma equipped_cte k k' t : k_cte k' = k_cte k -> equipped k t -> equipped k' t.
Proof. intros E [H1 H2 H3 H4]. unfold buffer_slot, cap_at in *. split; unfold buffer_slot, cap_at; by rewrite ?E. Qed.
Lemma equipped_linked L k k' s d g t : cap_at k (caller_slot d) = cap_null_cap -> reply_linked L k s d g k' -> equipped k t -> equipped k' t.
Proof.
  intros Hd [_ _ Hc Hdom] [H1 H2 [H3 H3'] H4]. split; [done | by rewrite !Hdom | by split; [apply Hdom |] |].
  rewrite Hc; [done |]. intros E. rewrite E, Hd in H4. done.
Qed.

Lemma sys_frame L k k' T : ipc_sys L k -> calm T k k' -> k_cte k' = k_cte k ->
  (forall y st, T y st -> equipped k y /\ (st = ThreadState_BlockedOnReceive -> cap_at k (caller_slot y) = cap_null_cap)) -> ipc_sys L k'.
Proof.
  intros [S1 S2 S3] Hc E HT. split; [by apply (mdb_ok_cte L k) | |].
  - intros y st Hy Hw. apply (equipped_cte k); [done |]. destruct (Hc y st Hy Hw) as [H|H]; [by eapply HT | by eapply S2].
  - intros y Hy. unfold cap_at. rewrite E. destruct (Hc y _ Hy eq_refl) as [H|H]; [by apply (HT y _ H) | by apply S3].
Qed.
(** A reply capability is put into the slot of [d], which does not receive any more. *)
Lemma sys_linked L k k' T s d g : ipc_sys L k -> calm T k k' -> reply_linked L k s d g k' -> equipped k d -> cap_at k (caller_slot d) = cap_null_cap ->
  (forall y st, types k' !! y = Some st -> T y st -> waits_at st = false) -> types k' !! d <> Some ThreadState_BlockedOnReceive ->
  ipc_sys (map (insert_after (master_slot s) (caller_slot d)) L) k'.
Proof.
  intros [S1 S2 S3] Hc Hl Hd Hr HT Hn.
  assert (forall y st, types k' !! y = Some st -> waits_at st = true -> types k !! y = Some st) as Hc'.
  { intros y st Hy Hw. destruct (Hc y st Hy Hw) as [H|H]; [|done]. by rewrite (HT y st Hy H) in Hw. }
  split; [apply Hl | |].
  - intros y st Hy Hw. eapply equipped_linked; [done | done |]. eapply S2; eauto.
  - intros y Hy. pose proof (Hc' y _ Hy eq_refl) as Hy'. rewrite (rl_caps _ _ _ _ _ _ Hl); [by apply S3 |].
    intros E. apply (caller_slot_inj k) in E; [by subst | by eapply S2 | done].
Qed.

Lemma unbind_ok Q k t : kipc (fun _ => False) Q k -> is_Some (k_tcb k !! t) -> wp (unbindNotification t) (fun _ k' => kipc (fun _ => False) Q k') (fun _ => False) k.
Proof.
  intros Hk [x Hx]. pose proof Hk as [HS HI]. destruct (kipc_thread _ _ _ t Hk ltac:(eauto)) as (Ht & _).
  unfold unbindNotification. wp_step. eapply wp_tcb_get; [exact Hx | lia |]. destruct (tcbBoundNotification x =? 0) eqn:E; cbn [negb]; [by wp_step |].
  apply Z.eqb_neq in E. destruct (io_bound _ _ _ HI) as [_ B2]. destruct (B2 t (ithread_of x)) as (N & HN & Eb); [simpl; by rewrite lookup_fmap, Hx | done |].
  apply (bind_pair_ok _ _ k (tcbBoundNotification x) N t x 0 0); [done | done | done |]. right. done.
Qed.

Lemma wp_seen {A} (m : M kstate A) (P R : A -> kstate -> Prop) F k : wp m P F k -> (forall a k', m k = inl (a, k') -> P a k' -> R a k') -> wp m R F k.
Proof. unfold wp. destruct (m k) as [[a k']|] eqn:E; [|done]. intros HP HR. by apply HR. Qed.

Lemma types_store k y st : types k !! y = Some st <-> exists i, is_tcb (istore_of k) !! y = Some i /\ it_st i = st.
Proof.
  unfold types. simpl. rewrite !lookup_fmap. destruct (k_tcb k !! y) as [x|]; simpl; [|split; [done | by intros (i & ? & _)]].
  split; [intros [= <-]; by eexists | by intros (i & [= <-] & <-)].
Qed.
Lemma not_waiting Q k t st : kipc (fun _ => False) Q k -> (forall o, t ∉ Q o) -> types k !! t = Some st -> waits_at st = false.
Proof.
  intros [_ HI] Ht (i & Hi & <-)%types_store. destruct (obj_of i) as [o|] eqn:Eo; [destruct (Ht o); exact (io_wait _ _ _ HI t i o Hi Eo (fun H => H)) |].
  unfold obj_of in Eo. by destruct (it_st i).
Qed.
Lemma still_out Q a d t : (forall o, t ∉ Q o) -> forall o, t ∉ leave Q (OEp a) d o.
Proof.
  intros H o. unfold leave. destruct (decide (o = OEp a)) as [->|]; [|by rewrite oput_ne]. rewrite oput_eq, list_elem_of_filter. intros [_ Hi]. by destruct (H (OEp a)).
Qed.
Lemma waiter_out Q k t : kipc (fun _ => False) Q k -> may_wait k t -> forall o, t ∉ Q o.
Proof. intros [_ HI] (_ & x & Hx & Eo). apply (no_queue _ _ _ t (ithread_of x) HI); [simpl; by rewrite lookup_fmap, Hx | by left]. Qed.

(** The first thread at an endpoint. *)
Lemma partner_ready Q L k a e : kipc (fun _ => False) Q k -> ipc_sys L k -> k_ep k !! a = Some e -> ep_state e <> EPState_Idle ->
  exists r st, Q (OEp a) = partner k a :: r /\ is_Some (k_tcb k !! partner k a) /\ ep_waits (ep_state e) = Some st /\ types k !! partner k a = Some st /\ equipped k (partner k a).
Proof.
  intros Hk Hs He Hst. destruct (queue_first Q k a e Hk He Hst) as (d & r & EQ & Hd & Eh & _). unfold partner. rewrite Eh.
  destruct Hk as [_ HI]. destruct (io_mem _ _ _ HI _ _ Hd) as (_ & i & Hi & Eo & Ew). destruct (istore_tcb _ _ _ _ eq_refl Hi) as (x & Hx & _).
  assert (types k !! d = Some (it_st i)) as Ht by (apply types_store; eauto). exists r, (it_st i). split; [done |]. split; [eauto |].
  split; [simpl in Ew; by rewrite He in Ew |]. split; [done |]. eapply sy_equipped; [done | exact Ht |]. unfold obj_of in Eo. by destruct (it_st i).
Qed.

Definition sys_ok (k : kstate) : Prop := exists Q L, kipc (fun _ => False) Q k /\ ipc_sys L k.

Lemma send_sys Q L k t a e g : config_ok -> kipc (fun _ => False) Q k -> ipc_sys L k -> may_wait k t -> equipped k t -> k_ep k !! a = Some e ->
  (ep_state e = EPState_Recv -> no_caps k t (sa_canGrant g)) ->
  wp (sendIPC (sa_blocking g) (sa_call g) (sa_badge g) (sa_canGrant g) (sa_canGrantReply g) t a) (fun _ k' => sys_ok k') (fun _ => False) k.
Proof.
  intros Hc Hk Hs Hw Ht He Hn. pose proof Hw as (Hm & x & Hx & Eo). pose proof (waiter_out _ _ _ Hk Hw) as Ho.
  assert (ep_state e = EPState_Recv -> types k !! partner k a = Some ThreadState_BlockedOnReceive /\ equipped k (partner k a) /\ exists r, Q (OEp a) = partner k a :: r) as Hp.
  { intros Er. destruct (partner_ready Q L k a e Hk Hs He ltac:(congruence)) as (r & st & EQ & _ & Ew & Hy & Hq). rewrite Er in Ew. injection Ew as <-. eauto. }
  eapply wp_seen; [apply (sendIPC_effect Q L k t a e g); try done; try by eexists |].
  - intros i Hi. simpl in Hi. rewrite lookup_fmap, Hx in Hi. by injection Hi as <-.
  - intros Er. destruct (Hp Er) as (Hy & Hq & _). split.
    + split; [eauto | apply Ht | apply Hq | by apply Hn].
    + intros _ _. split; [apply Hs | split; [apply Ht | apply Hq] | apply Ht | by apply Hs].
  - intros ? k' E (Q' & Hk' & Hsn). pose proof (calms_send _ _ _ _ _ _ _ _ _ _ E) as Hcm.
    assert (k_cte k' = k_cte k -> sys_ok k') as Hsame.
    { intros Ec. exists Q', L. split; [done |]. apply (sys_frame L k k' _ Hs Hcm Ec). by intros y st [-> ->]. }
    destruct Hsn as [d r Er EQ _ Hrun Hca|Er _ _ _|Er _ ->]; [|apply Hsame; by eapply cte_send_idle | by apply Hsame].
    destruct (Hp Er) as (Hy & Hq & r' & EQ'). rewrite EQ in EQ'. injection EQ' as -> ->. unfold caller_after in Hca.
    destruct (sa_call g); [|by apply Hsame]. destruct (_ || _); [|apply Hsame, Hca]. destruct Hca as [_ Hl].
    eexists _, _. split; [exact Hk' |]. apply (sys_linked L k k' _ t (partner k a) _ Hs Hcm Hl Hq); [by apply Hs | |].
    + intros y st Hyt [-> _]. by eapply not_waiting; [exact Hk' | apply still_out |].
    + unfold runnable in Hrun. unfold types. rewrite lookup_fmap. destruct (k_tcb k' !! partner k a) as [z|]; [|done]. simpl. intros [= Ez]. simpl in Hrun; by rewrite Ez in Hrun.
Qed.

Lemma recv_sys Q L k t a e badge cr grant cs cre b : config_ok -> kipc (fun _ => False) Q k -> ipc_sys L k -> may_wait k t -> equipped k t ->
  cap_at k (caller_slot t) = cap_null_cap -> k_ep k !! a = Some e -> (ep_state e = EPState_Send -> no_caps k (partner k a) (recv_grant k (partner k a))) ->
  wp (receiveIPC t (cap_endpoint_cap badge cr grant cs cre a) b) (fun _ k' => sys_ok k') (fun _ => False) k.
Proof.
  intros Hc Hk Hs Hw Ht Hr He Hn. pose proof Hw as (Hm & x & Hx & Eo). pose proof (waiter_out _ _ _ Hk Hw) as Ho.
  assert (k_ntfn k !! 0 = None) as H0 by (destruct Hk as [_ HI]; apply (io_objs _ _ _ HI)).
  eapply wp_seen; [apply (receiveIPC_effect Q L k t a e x badge cr grant cs cre b); try done |].
  - intros Er. cbv zeta. fold (partner k a). destruct (partner_ready Q L k a e Hk Hs He ltac:(congruence)) as (r & st & EQ & Hy & _ & _ & Hq). split.
    + split; [done | apply Hq | apply Ht | by apply Hn].
    + intros _ _. split; [apply Hs | split; [apply Hq | apply Ht] | apply Hq | done].
  - intros ? k' E (Q' & Hk' & Hrr). pose proof (calms_receive _ _ _ _ _ _ E) as Hcm.
    assert (k_cte k' = k_cte k -> sys_ok k') as Hsame.
    { intros Ec. exists Q', L. split; [done |]. apply (sys_frame L k k' _ Hs Hcm Ec). by intros y st [-> ->]. }
    destruct Hrr as [sig Hpd _ _|Q' Hpd Hrc]; [apply Hsame; eapply cte_receive_idle; eauto; right; by rewrite Hpd |].
    destruct Hrc as [s r Er EQ _ Hsa|Er _ _|Er _ _]; [|apply Hsame; by eapply cte_receive_idle; eauto..].
    unfold sender_after, caller_after in Hsa. destruct (snd_call k s); [|apply Hsame, Hsa]. destruct (_ || _); [|apply Hsame, Hsa]. destruct Hsa as [_ Hl].
    assert (forall st, types k' !! t = Some st -> waits_at st = false) as Hnw by (intros st; eapply not_waiting; [exact Hk' | by apply still_out]).
    eexists _, _. split; [exact Hk' |]. apply (sys_linked L k k' _ s t _ Hs Hcm Hl Ht Hr); [intros y st Hy [-> _]; by apply Hnw |].
    intros Hy. by specialize (Hnw _ Hy).
Qed.

(** The other operations change no slot, and only [op_wait] lets a thread wait. *)
Definition rendezvous (o : ipc_op) : bool := match o with op_send _ _ _ | op_recv _ _ _ => true | _ => false end.

Lemma op_kipc Q k o : config_ok -> kipc (fun _ => False) Q k -> rendezvous o = false -> allowed k o ->
  wp (ipc_run o) (fun _ k' => exists Q', kipc (fun _ => False) Q' k') (fun _ => False) k.
Proof.
  intros Hc Hk Hr Ho. pose proof Hk as [HS HI]. destruct o as [t a g|t c b|n badge|t c b|t|a|n|a badge|t n|t| |]; simpl in *; [done | done |..].
  - eapply wp_mono; [by apply (sendSignal_effect Q) | | done]. intros ? k' (Q' & Hk' & _). eauto.
  - destruct Ho as ((Hm & x & Hx & Eo) & _ & badge & cs & cr & n & -> & [N HN]). eapply wp_mono; [eapply (receiveSignal_effect Q k t); eauto | | done].
    + intros i Hi. simpl in Hi. rewrite lookup_fmap, Hx in Hi. by injection Hi as <-.
    + intros ? k' (Q' & Hk' & _). eauto.
  - destruct Ho as (i & o & Hi & Eo). eapply wp_mono; [by apply (cancelIPC_ok Q k t i o) | | done]. intros ? k' [Hk' _ _]. eauto.
  - destruct Ho as [e He]. eapply wp_mono; [by apply (cancelAllIPC_ok Q k a e) | | done]. intros ? k' [Hk' _ _ _]. eauto.
  - destruct Ho as [N HN]. eapply wp_mono; [by apply (cancelAllSignals_ok Q k n N) | | done]. intros ? k' [Hk' _ _ _]. eauto.
  - destruct Ho as [e He]. eapply wp_mono; [by apply (cancelBadgedSends_effect Q k a e badge) | | done].
    intros ? k' H. destruct (decide (ep_state e = EPState_Send)); [destruct H as [Hk' _ _ _]; eauto | subst; eauto].
  - destruct Ho as (x & N & Hx & HN & E1 & E2). eapply wp_mono; [apply (bind_pair_ok (fun _ => False) Q k n N t x n t); try done; by left | | done]. intros ? k1 Hk1. by exists Q.
  - eapply wp_mono; [by apply (unbind_ok Q) | | done]. intros ? k1 Hk1. by exists Q.
  - eapply wp_mono; [apply (view_kipc (fun _ => False) Q); [apply view_tick | done | by apply (timerTick_ok (strict := True))] | | done]. intros ? k1 Hk1. by exists Q.
  - eapply wp_mono; [apply (view_kipc (fun _ => False) Q); [apply view_schedule | done |] | | done]; [|intros ? k1 Hk1; by exists Q].
    eapply wp_mono; [by apply schedule_ok | | done]. by intros ? k' [HS' _].
Qed.

Lemma op_frame k o u k' : rendezvous o = false -> allowed k o -> ipc_run o k = inl (u, k') ->
  calm (fun y st => equipped k y /\ st = ThreadState_BlockedOnNotification) k k' /\ k_cte k' = k_cte k.
Proof.
  intros Hr Ho E. destruct o as [t a g|t c b|n badge|t c b|t|a|n|a badge|t n|t| |]; simpl in *; [done | done |..].
  2: { destruct Ho as (_ & Hq & _). split; [|by eapply cte_wait]. intros y st Hy Hw. destruct (calms_wait _ _ _ _ _ _ E y st Hy Hw) as [[-> ->]|]; [by left | by right]. }
  all: refine ((_ : forall m : M kstate unit, frames m k -> m k = inl (u, k') -> _) _ _ E);
    [intros m Hf E'; destruct (Hf _ _ E') as [H1 H2]; split; [|done]; intros y st Hy Hw; destruct (H1 y st Hy Hw); [done | by right] |].
  - apply frames_signal.
  - destruct Ho as (i & o & Hi & Eo). apply frames_cancel. intros x Hx. simpl in Hi. rewrite lookup_fmap, Hx in Hi. injection Hi as <-. intros Ex.
    unfold obj_of in Eo. simpl in Eo. by rewrite Ex in Eo.
  - apply frames_all; [apply calms_cancel_all | apply cte_cancel_all].
  - apply frames_all; [apply calms_cancel_all | apply cte_cancel_all].
  - apply frames_all; [apply calms_cancel_badged | apply cte_cancel_badged].
  - apply frames_all; [apply calms_types, types_bind | apply cte_bind].
  - apply frames_all; [apply calms_types, (types_bind t 0) | apply (cte_bind t 0)].
  - apply frames_all; [apply calms_types, pres_types_view, view_tick | apply pres_cte_view, view_tick].
  - apply frames_all; [apply calms_types, pres_types_view, view_schedule | apply pres_cte_view, view_schedule].
Qed.

Lemma op_ok k o : config_ok -> sys_ok k -> allowed k o -> wp (ipc_run o) (fun _ k' => sys_ok k') (fun _ => False) k.
Proof.
  intros Hc (Q & L & Hk & Hs) Ho. destruct (rendezvous o) eqn:Er.
  - destruct o; try done.
    + destruct Ho as (Hw & Ht & e & He & Hn). by apply (send_sys Q L k t a e g).
    + destruct Ho as (Hw & Ht & Hr & e & badge & cr & grant & cs & cre & a & -> & He & Hn). by apply (recv_sys Q L k t a e).
  - eapply wp_seen; [by apply (op_kipc Q) |]. intros u k' E (Q' & Hk'). destruct (op_frame _ _ _ _ Er Ho E) as [Hcm Ec].
    exists Q', L. split; [done |]. apply (sys_frame L k k' _ Hs Hcm Ec). by intros y st [Hy ->].
Qed.

Inductive ipc_step : kstate -> kstate -> Prop :=
| step_op o k k' : allowed k o -> ipc_run o k = inl (tt, k') -> ipc_step k k'.

(** C7: Signals, messages without capabilities (or about a fault), waiting,
    cancellation of a thread that waits at an object, binding, timer ticks and
    scheduling can follow each other in any order: the ready queues, the queues of
    all endpoints and notifications, the thread states, the slots of the waiting
    threads and the derivation tree with its reply capabilities stay consistent, and
    no operation fails an assertion, dereferences a null pointer or runs forever.
    Apart from the messages, what an operation needs concerns only the thread it is
    called for and the objects it names: that the thread it meets at an endpoint has
    its slots, and room for a reply capability, follows. *)
Theorem ipc_never_faults (k k' : kstate) : config_ok -> sys_ok k -> rtc ipc_step k k' ->
  sys_ok k' /\ forall o, allowed k' o -> exists k'', ipc_run o k' = inl (tt, k'').
Proof.
  intros Hc Hk Hst. assert (sys_ok k') as Hk'.
  { induction Hst as [k|k k1 k2 [o ? ? Ho E] _ IH]; [done |]. apply IH. exact (wp_run _ _ _ _ _ _ (op_ok _ o Hc Hk Ho) E). }
  split; [done |]. intros o Ho. pose proof (op_ok k' o Hc Hk' Ho) as H. unfold wp in H. destruct (ipc_run o k') as [[[] k'']|f]; [eauto | done].
Qed.

(** C11: The kernel copies a message as the sender wrote it, or writes the message
    about the sender's fault: with its words in message registers and, where there
    are buffers, in memory, with the label, and with the badge of the capability that
    was used; without buffers, only the words in registers.  No other register and no
    other word of memory changes.  Assumed are the two slots for IPC buffers, and for
    an ordinary message under a right to grant, that it carries no capabilities; words
    and memory are as stated when the buffers are aligned. *)
Theorem transfer_ok (k : kstate) (s t ep badge : Z) (grant : bool) : is_Some (k_tcb k !! t) -> s <> 0 -> t <> 0 -> s <> t ->
  xfer_ready k s t grant ->
  wp (doIPCTransfer s ep badge grant t) (fun _ k' => transferred k s t badge k') (fun _ => False) k.
Proof.
  intros [x Hx] Hs Ht Hst [[y Hy] X2 X3 X4]. unfold thread_fault in X4. rewrite Hy in X4. by apply (doIPCTransfer_ok k s t y x).
Qed.

(** C9: Sending through an endpoint hands the message to the thread that has waited
    longest, which then runs, and a caller waits for the reply with a reply
    capability in the receiver's slot, derived from its master; with nobody waiting
    the sender joins the end of the queue, or nothing happens if it does not block.
    The message is the ordinary one or that about the sender's fault; when it is
    handed over the two threads have slots for IPC buffers, it carries no
    capabilities if these could be granted, and for a call that can be replied to
    the caller has its master and the receiver an empty slot. *)
Theorem send_ok (Q : obj -> list Z) (L : list (list Z)) (k : kstate) (t a : Z) (e : endpoint_t) (g : send_args) :
  config_ok -> kipc (fun _ => False) Q k -> k_ep k !! a = Some e -> may_wait k t ->
  (ep_state e = EPState_Recv -> xfer_ready k t (partner k a) (sa_canGrant g) /\
    (sa_call g = true -> sa_canGrant g || sa_canGrantReply g = true -> reply_ready L k t (partner k a))) ->
  wp (sendIPC (sa_blocking g) (sa_call g) (sa_badge g) (sa_canGrant g) (sa_canGrantReply g) t a)
    (fun _ k' => exists Q', kipc (fun _ => False) Q' k' /\ sent Q L k e t a g k' Q') (fun _ => False) k.
Proof.
  intros Hc Hk He (Hm & x & Hx & Eo) Hp. apply (sendIPC_effect Q L k t a e g); eauto.
  intros i Hi. simpl in Hi. rewrite lookup_fmap, Hx in Hi. by injection Hi as <-.
Qed.

(** C10: Receiving takes a pending signal of the bound notification first, then the
    message of the sender that has waited longest, which runs again, waits for the
    reply or is stopped; otherwise the receiver waits at the end of the queue or is
    told that there is nothing.  The message is the ordinary one or that about the
    sender's fault; for a waiting sender the same is assumed as when it sends. *)
Theorem receive_ok (Q : obj -> list Z) (L : list (list Z)) (k : kstate) (t a : Z) (e : endpoint_t) (x : tcb_t) (badge : Z)
    (cr grant cs cre isBlocking : bool) :
  config_ok -> kipc (fun _ => False) Q k -> k_ep k !! a = Some e -> k_tcb k !! t = Some x -> may_block k t -> obj_of (ithread_of x) = None ->
  (ep_state e = EPState_Send -> let s := partner k a in
    xfer_ready k s t (recv_grant k s) /\ (snd_call k s = true -> recv_grant k s || snd_reply k s = true -> reply_ready L k s t)) ->
  wp (receiveIPC t (cap_endpoint_cap badge cr grant cs cre a) isBlocking)
    (fun _ k' => exists Q', kipc (fun _ => False) Q' k' /\ recv_result Q L k e t a (tcbBoundNotification x) grant isBlocking k' Q') (fun _ => False) k.
Proof. intros. by apply receiveIPC_effect. Qed.

(** C18: A signal goes to the thread that has waited longest for it; else to the
    bound thread if that waits for a message; else it is stored, and signals that
    are not yet fetched are merged by bitwise or. *)
Theorem signal_ok (Q : obj -> list Z) (k : kstate) (n badge : Z) : config_ok -> kipc (fun _ => False) Q k -> is_Some (k_ntfn k !! n) ->
  wp (sendSignal n badge) (fun _ k' => exists Q', kipc (fun _ => False) Q' k' /\ signalled Q k n badge k' Q') (fun _ => False) k.
Proof. intros. by apply sendSignal_effect. Qed.

(** C19: Revoking a badge restarts exactly the senders that wait with this badge;
    the others keep waiting in their order, and no other thread or object changes. *)
Theorem cancel_badged_ok (Q : obj -> list Z) (k : kstate) (a badge : Z) (e : endpoint_t) :
  config_ok -> kipc (fun _ => False) Q k -> k_ep k !! a = Some e ->
  wp (cancelBadgedSends a badge)
    (fun _ k' => if decide (ep_state e = EPState_Send) then badge_cancelled Q a badge k k' else k' = k) (fun _ => False) k.
Proof. intros. by apply cancelBadgedSends_effect. Qed.

(** Before an endpoint or a notification goes away every thread that waits for
    it is restarted, none is forgotten, and no other thread or object changes. *)
Theorem cancel_all_ok (Q : obj -> list Z) (k : kstate) (a : Z) : config_ok -> kipc (fun _ => False) Q k ->
  (is_Some (k_ep k !! a) -> wp (cancelAllIPC a) (fun _ k' => all_woken Q (OEp a) k k') (fun _ => False) k) /\
  (is_Some (k_ntfn k !! a) -> wp (cancelAllSignals a) (fun _ k' => all_woken Q (ONt a) k k') (fun _ => False) k).
Proof. intros Hc Hk. split; intros [e He]; [by apply (cancelAllIPC_ok Q k a e) | by apply (cancelAllSignals_ok Q k a e)]. Qed.
End Steps.

(** ** A system with six threads

    The thread at 9216 runs; 11264 waits for a message at the endpoint 65536, 13312
    (a call) and 15360 wait to send at 65568, and 17408 waits for the notification
    65600.  Slots hold the reply capabilities; there are no IPC buffers. *)
Definition ipc_tcb (st : _thread_state_t) (obj badge next prev : Z) (call : bool) : tcb_t :=
  mkTcb (<[1 := 2]> (<[2 := 42]> (<[3 := 43]> ∅))) st false obj badge false call call 0 seL4_Fault_NullFault lookup_fault_invalid_root 0 255 100 5 0 0 0 0 next prev.
Definition ipc_threads : list (Z * tcb_t) :=
  [(4096, ipc_tcb ThreadState_IdleThreadState 0 0 0 0 false); (9216, ipc_tcb ThreadState_Running 0 0 0 0 false);
   (11264, ipc_tcb ThreadState_BlockedOnReceive 65536 0 0 0 false); (13312, ipc_tcb ThreadState_BlockedOnSend 65568 7 15360 0 true);
   (15360, ipc_tcb ThreadState_BlockedOnSend 65568 8 0 13312 false); (17408, ipc_tcb ThreadState_BlockedOnNotification 65600 0 0 0 false)].
Definition null_cte : cte_t := mkCte cap_null_cap (mkMdb 0 false false 0).
Definition reply_cte (t : Z) : cte_t := mkCte (cap_reply_cap true true t) (mkMdb 0 true true 0).
Definition ipc_slots : list (Z * cte_t) :=
  [(8256, reply_cte 9216); (8288, null_cte); (8320, null_cte); (10304, reply_cte 11264); (10336, null_cte); (10368, null_cte);
   (12352, reply_cte 13312); (12384, null_cte); (12416, null_cte); (14400, reply_cte 15360); (14432, null_cte); (14464, null_cte);
   (16448, reply_cte 17408); (16480, null_cte); (16512, null_cte)].
Definition ipc_tree : list (list Z) := [[8256]; [10304]; [12352]; [14400]; [16448]].
Definition ipc_k : kstate :=
  mkK (list_to_map ipc_threads) (list_to_map ipc_slots)
    (<[65536 := mkEp EPState_Recv 11264 11264]> {[65568 := mkEp EPState_Send 13312 15360]})
    {[65600 := mkNtfn NtfnState_Waiting 0 0 17408 17408]} ∅ ∅ ∅ ∅ 9216 4096 0 0 1 0 0 ∅ ∅ lookup_fault_invalid_root seL4_Fault_NullFault
    (mkErr 0 0 0 0 0 false seL4_NoError) [0; 0; 0] [].
Definition ipc_q : obj -> list Z :=
  oput (oput (oput (fun _ => []) (OEp 65536) [11264]) (OEp 65568) [13312; 15360]) (ONt 65600) [17408].

Lemma ipc_thread t x : k_tcb ipc_k !! t = Some x -> (t, x) ∈ ipc_threads.
Proof. apply elem_of_list_to_map_2. Qed.
Ltac ipc_thread_cases H := apply ipc_thread in H; unfold ipc_threads in H;
  repeat (apply list.elem_of_cons in H as [[= -> ->] | H]); [.. | by apply not_elem_of_nil in H].

Lemma ipc_unqueued t : queued ipc_k t = false.
Proof. unfold queued. destruct (k_tcb ipc_k !! t) as [x|] eqn:E; [|done]. ipc_thread_cases E; done. Qed.
Lemma ipc_runnable t : runnable ipc_k t = true -> t = 9216.
Proof. unfold runnable. destruct (k_tcb ipc_k !! t) as [x|] eqn:E; [|done]. ipc_thread_cases E; done. Qed.

Lemma ipc_sched_ok : @sched_ok default_config ipc_k.
Proof.
  split.
  - split; [| | | | done | done].
    + exists (fun _ _ => []). apply empty_queues_ok; [done.. |]. intros t x E. ipc_thread_cases E; done.
    + intros t. by rewrite ipc_unqueued.
    + by eexists.
    + by eexists.
  - intros t Ht. right. left. by apply ipc_runnable.
  - intros _. apply ipc_unqueued.
  - done.
  - intros _ _ t. by rewrite ipc_unqueued.
  - by left.
  - intros _. by right.
Qed.

Lemma ipc_obj o : o = OEp 65536 \/ o = OEp 65568 \/ o = ONt 65600 \/
  ipc_q o = [] /\ obj_queue (istore_of ipc_k) o = mkQ 0 0 /\ obj_waits (istore_of ipc_k) o = None.
Proof.
  destruct (decide (o = OEp 65536)); [by left |]. destruct (decide (o = OEp 65568)); [by right; left |].
  destruct (decide (o = ONt 65600)); [by right; right; left |]. right. right. right. split; [unfold ipc_q; by rewrite !oput_ne |].
  destruct o as [a|a]; simpl; [rewrite lookup_insert_ne, lookup_singleton_ne by congruence | rewrite lookup_singleton_ne by congruence]; done.
Qed.

Lemma ipc_kipc : @kipc default_config (fun _ => False) ipc_q ipc_k.
Proof.
  split; [exact ipc_sched_ok |]. split.
  - intros o. destruct (ipc_obj o) as [-> | [-> | [-> | (-> & -> & _)]]]; [split; [by vm_compute | done | done |]; apply (bool_decide_unpack _); by vm_compute.. |].
    split; [done.. | apply base.NoDup_nil_2].
  - intros o. destruct (ipc_obj o) as [-> | [-> | [-> | (-> & _ & ->)]]]; done.
  - intros o t Ht. split; [tauto |]. destruct (ipc_obj o) as [-> | [-> | [-> | (E & _)]]]; [..| rewrite E in Ht; by apply not_elem_of_nil in Ht].
    all: change (ipc_q _) with [11264] in Ht || change (ipc_q _) with [13312; 15360] in Ht || change (ipc_q _) with [17408] in Ht.
    all: repeat (apply list.elem_of_cons in Ht as [-> | Ht]; [eexists; split; [vm_compute; reflexivity | done] |]); by apply not_elem_of_nil in Ht.
  - intros t i o Hi Ho _. destruct (istore_tcb _ _ _ _ eq_refl Hi) as (x & E & <-).
    ipc_thread_cases E; try done; injection Ho as <-; apply (bool_decide_unpack _); by vm_compute.
  - intros t [i Hi]. destruct (istore_tcb _ _ _ _ eq_refl Hi) as (x & E & <-). ipc_thread_cases E; done.
  - done.
  - split.
    + intros n N HN Hb. simpl in HN. apply lookup_singleton_Some in HN as [<- <-]. done.
    + intros t i Hi Hb. destruct (istore_tcb _ _ _ _ eq_refl Hi) as (x & E & <-). ipc_thread_cases E; done.
Qed.

Lemma ipc_slot p e : k_cte ipc_k !! p = Some e -> (p, e) ∈ ipc_slots.
Proof. apply elem_of_list_to_map_2. Qed.
Ltac ipc_slot_cases H := apply ipc_slot in H; unfold ipc_slots in H;
  repeat (apply list.elem_of_cons in H as [[= -> ->] | H]); [.. | by apply not_elem_of_nil in H].

Lemma ipc_mdb : mdb_ok ipc_tree ipc_k.
Proof.
  split.
  - repeat constructor; done.
  - apply (bool_decide_unpack _). by vm_compute.
  - intros p Hp. change (concat _) with [8256; 10304; 12352; 14400; 16448] in Hp. repeat (apply list.elem_of_cons in Hp as [-> | Hp]; [by eexists |]). by apply not_elem_of_nil in Hp.
  - intros p [e He]. ipc_slot_cases He; done.
  - intros p Hp. unfold mn, mp. destruct (k_cte ipc_k !! p) as [e|] eqn:E; [|done]. ipc_slot_cases E; done.
  - intros p [e He]. unfold cap_at. rewrite He. ipc_slot_cases He; (split; [intros H; apply (bool_decide_pack _) in H; revert H; by vm_compute | intros H; try discriminate H; apply (bool_decide_unpack _); by vm_compute]).
Qed.

Lemma ipc_may_wait : @may_wait ipc_k 9216.
Proof. split; [split; [done | done | apply ipc_unqueued] |]. eexists. split; [vm_compute; reflexivity | done]. Qed.

Lemma ipc_xfer (s t : Z) (b : bool) : (s, t, b) ∈ [(9216, 11264, false); (13312, 9216, false)] -> xfer_ready ipc_k s t b.
Proof.
  intros H. repeat (apply list.elem_of_cons in H as [[= -> -> ->] | H]); [.. | by apply not_elem_of_nil in H].
  all: split; [by eexists | | | done]; (split; [by eexists | done]).
Qed.

Lemma ipc_reply (s t : Z) : (s, t) ∈ [(9216, 11264); (13312, 9216)] -> reply_ready ipc_tree ipc_k s t.
Proof.
  intros H. repeat (apply list.elem_of_cons in H as [[= -> ->] | H]); [.. | by apply not_elem_of_nil in H].
  all: split; [exact ipc_mdb | split; by eexists | by vm_compute | by vm_compute].
Qed.

(** A call through 65536. *)
Definition demo_call : send_args := mkSend true true 5 false true.

Lemma send_ok_witness : let e := mkEp EPState_Recv 11264 11264 in
  wp (@sendIPC default_config true true 5 false true 9216 65536)
    (fun _ k' => exists Q', @kipc default_config (fun _ => False) Q' k' /\ sent ipc_q ipc_tree ipc_k e 9216 65536 demo_call k' Q') (fun _ => False) ipc_k.
Proof.
  intros e. apply (@send_ok default_config ipc_q ipc_tree ipc_k 9216 65536 e demo_call); [exact demo_config_ok | exact ipc_kipc | done | exact ipc_may_wait |].
  intros _. change (partner ipc_k 65536) with 11264. split; [apply ipc_xfer; set_solver | intros _ _; apply ipc_reply; set_solver].
Defined.

Lemma receive_ok_witness : let e := mkEp EPState_Send 13312 15360 in let x := ipc_tcb ThreadState_Running 0 0 0 0 false in
  wp (@receiveIPC default_config 9216 (cap_endpoint_cap 0 true true true true 65568) true)
    (fun _ k' => exists Q', @kipc default_config (fun _ => False) Q' k' /\
      recv_result ipc_q ipc_tree ipc_k e 9216 65568 0 true true k' Q') (fun _ => False) ipc_k.
Proof.
  intros e x. destruct ipc_may_wait as [Hm _].
  apply (@receive_ok default_config ipc_q ipc_tree ipc_k 9216 65568 e x 0 true true true true true); [exact demo_config_ok | exact ipc_kipc | done | done | exact Hm | done |].
  intros _. change (partner ipc_k 65568) with 13312. split; [apply ipc_xfer; set_solver | intros _ _; apply ipc_reply; set_solver].
Defined.

Lemma transfer_ok_witness : wp (@doIPCTransfer 9216 65536 5 false 11264) (fun _ k' => transferred ipc_k 9216 11264 5 k') (fun _ => False) ipc_k.
Proof. apply (transfer_ok ipc_k 9216 11264 65536 5 false); [by eexists | done | done | done | apply ipc_xfer; set_solver]. Defined.

Lemma signal_ok_witness : wp (@sendSignal default_config 65600 3)
  (fun _ k' => exists Q', @kipc default_config (fun _ => False) Q' k' /\ signalled ipc_q ipc_k 65600 3 k' Q') (fun _ => False) ipc_k.
Proof. apply (@signal_ok default_config ipc_q ipc_k 65600 3); [exact demo_config_ok | exact ipc_kipc | by eexists]. Defined.

Lemma cancel_badged_ok_witness : let e := mkEp EPState_Send 13312 15360 in
  wp (@cancelBadgedSends default_config 65568 7)
    (fun _ k' => if decide (ep_state e = EPState_Send) then @badge_cancelled default_config ipc_q 65568 7 ipc_k k' else k' = ipc_k) (fun _ => False) ipc_k.
Proof. intros e. apply (@cancel_badged_ok default_config ipc_q ipc_k 65568 7 e); [exact demo_config_ok | exact ipc_kipc | done]. Defined.

Lemma cancel_all_ok_witness : wp (@cancelAllIPC default_config 65568) (fun _ k' => @all_woken default_config ipc_q (OEp 65568) ipc_k k') (fun _ => False) ipc_k.
Proof. apply (@cancel_all_ok default_config ipc_q ipc_k 65568); [exact demo_config_ok | exact ipc_kipc | by eexists]. Defined.

Lemma ipc_equipped t : t ∈ [9216; 11264; 13312; 15360; 17408] -> equipped ipc_k t.
Proof.
  intros H. repeat (apply list.elem_of_cons in H as [-> | H]); [.. | by apply not_elem_of_nil in H].
  all: split; [done | split; by eexists | split; [by eexists | done] | by vm_compute].
Qed.
Lemma ipc_sys_ok : @sys_ok default_config ipc_k.
Proof.
  exists ipc_q, ipc_tree. split; [exact ipc_kipc |]. split; [exact ipc_mdb | |].
  - intros y st. unfold types. rewrite lookup_fmap. destruct (k_tcb ipc_k !! y) as [x|] eqn:E; [|done]. intros [= <-] Hw.
    ipc_thread_cases E; try done; apply ipc_equipped; set_solver.
  - intros y. unfold types. rewrite lookup_fmap. destruct (k_tcb ipc_k !! y) as [x|] eqn:E; [|done]. intros [= Hw]. ipc_thread_cases E; done.
Qed.

(** A signal to the notification, then the call. *)
Definition after (o : ipc_op) (k : kstate) : kstate := match @ipc_run default_config o k with inl (_, k') => k' | inr _ => k end.
Definition ipc_k1 : kstate := after (op_signal 65600 3) ipc_k.
Definition ipc_k2 : kstate := after (op_send 9216 65536 demo_call) ipc_k1.

Lemma ipc_never_faults_witness : rtc (@ipc_step default_config) ipc_k ipc_k2 /\ exists k'', @ipc_run default_config op_schedule ipc_k2 = inl (tt, k'').
Proof.
  assert (rtc (@ipc_step default_config) ipc_k ipc_k2) as Hr.
  { apply (rtc_l _ _ ipc_k1); [|apply rtc_once].
    - apply (@step_op default_config (op_signal 65600 3)); [by eexists | vm_compute; reflexivity].
    - apply (@step_op default_config (op_send 9216 65536 demo_call)); [|vm_compute; reflexivity].
      split; [split; [split; by vm_compute | eexists; split; [vm_compute; reflexivity | done]] |].
      split; [split; [done | split; (eexists; vm_compute; reflexivity) | split; [eexists; vm_compute; reflexivity | done] | by vm_compute] |].
      eexists. split; [vm_compute; reflexivity |]. by intros _ _. }
  split; [exact Hr |]. apply (proj2 (@ipc_never_faults default_config ipc_k ipc_k2 demo_config_ok ipc_sys_ok Hr) op_schedule). exact I.
Defined.
