(* ===== verification/KMdbRefine.v ===== *)
(** * The mapping database against its specification

    The abstract database is a set of lists of slots with a capability and two
    flags for each slot. The operations of [cnode.c] implement the operations
    on it, for every sequence of calls. *)

From S2P Require Import Prelude Dll KCaps KState KSched KSchedInv KCapThms KSchedThms KSchedSteps KCspace KMdb KMdbThms.

Record adb : Type := mkAdb {
  ad_slots : gset Z;
  ad_lists : list (list Z);
  ad_caps : Z -> cap;
  ad_flags : Z -> bool * bool }.

(** One call of an operation on slots. *)
Inductive slot_op : Type :=
  | op_insert (c : cap) (src dest : Z)
  | op_move (c : cap) (src dest : Z)
  | op_swap (c1 : cap) (s1 : Z) (c2 : cap) (s2 : Z)
  | op_new (parent slot : Z) (c : cap)
  | op_empty (slot : Z).

Definition run_op (o : slot_op) : M kstate unit :=
  match o with
  | op_insert c s d => cteInsert c s d
  | op_move c s d => cteMove c s d
  | op_swap c1 s1 c2 s2 => cteSwap c1 s1 c2 s2
  | op_new p s c => insertNewCap p s c
  | op_empty s => emptySlot s cap_null_cap
  end.

Definition used (a : adb) (s : Z) : bool := bool_decide (s ∈ ad_slots a) && negb (is_null (ad_caps a s)).
Definition free (a : adb) (s : Z) : bool := bool_decide (s ∈ ad_slots a) && is_null (ad_caps a s).

(** The slot behind [s] in its list, 0 at the end. *)
Fixpoint next_in (s : Z) (xs : list Z) : Z :=
  match xs with
  | [] => 0
  | x :: xs' => if decide (x = s) then List.hd 0 xs' else next_in s xs'
  end.
Definition next_of (a : adb) (s : Z) : Z := foldr (fun xs n => if decide (s ∈ xs) then next_in s xs else n) 0 (ad_lists a).

(** The abstract operations; [None] where the caller breaks the contract of the call. *)
Definition spec_op (o : slot_op) (a : adb) : option adb :=
  match o with
  | op_insert c s d =>
      if used a s && free a d && negb (is_null c) then
        option_map (fun r => mkAdb (ad_slots a) (map (insert_after s d) (ad_lists a))
            (put (put (ad_caps a) s (after_copy (ad_caps a s) c)) d c) (put (ad_flags a) d (r, r)))
          (isCapRevocable c (ad_caps a s))
      else None
  | op_move c s d =>
      if used a s && free a d && negb (is_null c) then
        Some (mkAdb (ad_slots a) (map (map (swap s d)) (ad_lists a)) (put (put (ad_caps a) d c) s cap_null_cap)
          (put (put (ad_flags a) d (ad_flags a s)) s (false, false)))
      else None
  | op_swap c1 s1 c2 s2 =>
      if bool_decide (s1 ∈ ad_slots a) && bool_decide (s2 ∈ ad_slots a) && bool_decide (s1 <> s2) &&
         Bool.eqb (is_null c1) (is_null (ad_caps a s1)) && Bool.eqb (is_null c2) (is_null (ad_caps a s2)) then
        Some (mkAdb (ad_slots a) (map (map (swap s1 s2)) (ad_lists a)) (put (put (ad_caps a) s1 c2) s2 c1)
          (fun p => ad_flags a (swap s1 s2 p)))
      else None
  | op_new p s c =>
      if used a p && free a s && negb (is_null c) then
        Some (mkAdb (ad_slots a) (map (insert_after p s) (ad_lists a)) (put (ad_caps a) s c) (put (ad_flags a) s (true, true)))
      else None
  | op_empty s =>
      if used a s then
        let n := next_of a s in
        Some (mkAdb (ad_slots a) (map (remove s) (ad_lists a)) (put (ad_caps a) s cap_null_cap)
          (fun p => if decide (p = s) then (false, false)
                    else if decide (n <> 0 /\ p = n) then ((ad_flags a p).1, (ad_flags a p).2 || (ad_flags a s).2)
                    else ad_flags a p))
      else if free a s then Some a else None
  end.

Definition run_ops (os : list slot_op) : M kstate unit := foldr (fun o m => do* run_op o in m) (ret tt) os.
Definition spec_ops (os : list slot_op) (a : adb) : option adb :=
  foldl (fun x o => match x with Some y => spec_op o y | None => None end) (Some a) os.

Record abstracts (a : adb) (k : kstate) : Prop := {
  ab_mdb : mdb_ok (ad_lists a) k;
  ab_dom : forall p, p ∈ ad_slots a <-> is_Some (k_cte k !! p);
  ab_caps : forall p, cap_at k p = ad_caps a p;
  ab_flags : forall p, flags_at k p = ad_flags a p }.

Lemma next_in_split s l r : s ∉ l -> next_in s (l ++ s :: r) = List.hd 0 r.
Proof.
  induction l as [|x l IH]; intros Hn; simpl; [by rewrite decide_True |]. rewrite decide_False by set_solver. apply IH. set_solver.
Qed.

Lemma next_of_mn a k s : abstracts a k -> s ∈ concat (ad_lists a) -> next_of a s = mn k s.
Proof.
  intros HA Hs. pose proof (mdb_ok_view _ _ (ab_mdb _ _ HA)) as HV.
  destruct (view_split _ _ s HV Hs) as (l & r & Hxs & _ & E). simpl in E. rewrite E.
  pose proof (mv_nodup _ _ HV) as Hnd. unfold next_of. clear E HV HA Hs. induction (ad_lists a) as [|ys L IH]; [set_solver |].
  simpl. destruct (decide (s ∈ ys)) as [Hin|Hin].
  - rewrite (concat_disjoint (ys :: L) ys (l ++ s :: r) s) by (try done; set_solver).
    apply next_in_split. pose proof (concat_nodup_in _ _ Hnd Hxs) as Hn. by destruct (nodup_split_out _ _ _ Hn).
  - apply list.elem_of_cons in Hxs as [<-|Hxs]; [set_solver |]. apply IH; [done |]. simpl in Hnd. by apply list.NoDup_app in Hnd as (_ & _ & ?).
Qed.

Lemma used_spec a k s : abstracts a k -> used a s = true -> is_Some (k_cte k !! s) /\ is_null (cap_at k s) = false.
Proof.
  intros HA [H1%bool_decide_eq_true H2%negb_true_iff]%andb_true_iff. split; [by apply (ab_dom _ _ HA) |]. by rewrite (ab_caps _ _ HA).
Qed.
Lemma free_spec a k s : abstracts a k -> free a s = true -> is_Some (k_cte k !! s) /\ is_null (cap_at k s) = true.
Proof.
  intros HA [H1%bool_decide_eq_true H2]%andb_true_iff. split; [by apply (ab_dom _ _ HA) |]. by rewrite (ab_caps _ _ HA).
Qed.

Lemma abstracts_changed a k k' L caps flags : abstracts a k -> slots_changed L k k' caps flags ->
  forall b, ad_slots b = ad_slots a -> ad_lists b = L -> (forall p, caps p = ad_caps b p) -> (forall p, flags p = ad_flags b p) ->
  abstracts b k' /\ nocte k' = nocte k.
Proof.
  intros HA [C1 C2 C3 C4 C5] b Hs Hl Hc Hf. split; [|done]. split.
  - by rewrite Hl.
  - intros p. rewrite Hs, C4. apply (ab_dom _ _ HA).
  - intros p. by rewrite C2.
  - intros p. by rewrite C3.
Qed.

Lemma put_ext {A} (f g : Z -> A) p x : (forall y, f y = g y) -> forall y, put f p x y = put g p x y.
Proof. intros H y. unfold put. by case_decide. Qed.
#[local] Hint Resolve put_ext ab_caps ab_flags : core.

Lemma run_op_refines o a b k : abstracts a k -> spec_op o a = Some b ->
  wp (run_op o) (fun _ k' => abstracts b k' /\ nocte k' = nocte k) (fun _ => False) k.
Proof.
  intros HA. pose proof (ab_mdb _ _ HA) as HM. destruct o as [c s d|c s d|c1 s1 c2 s2|p s c|s]; simpl.
  - destruct (used a s && free a d && negb (is_null c)) eqn:G; [|done].
    apply andb_true_iff in G as [[G1 G2]%andb_true_iff G3%negb_true_iff].
    destruct (used_spec a k s HA G1), (free_spec a k d HA G2).
    destruct (isCapRevocable c (ad_caps a s)) as [r|] eqn:Er; [|done]. intros [= <-].
    eapply wp_mono; [apply (cteInsert_ok (ad_lists a) k c s d r); try done; by rewrite (ab_caps _ _ HA) | | done].
    intros ? k' HC. apply (abstracts_changed a k k' _ _ _ HA HC); simpl; auto.
    rewrite (ab_caps _ _ HA). auto.
  - destruct (used a s && free a d && negb (is_null c)) eqn:G; [|done].
    apply andb_true_iff in G as [[G1 G2]%andb_true_iff G3%negb_true_iff].
    destruct (used_spec a k s HA G1), (free_spec a k d HA G2). intros [= <-].
    eapply wp_mono; [apply (cteMove_ok (ad_lists a) k c s d); try done; congruence | | done].
    intros ? k' HC. apply (abstracts_changed a k k' _ _ _ HA HC); simpl; auto.
    rewrite (ab_flags _ _ HA). auto.
  - destruct (_ && _) eqn:G; [|done]. intros [= <-].
    apply andb_true_iff in G as [[[[G1 G2]%andb_true_iff G3]%andb_true_iff G4]%andb_true_iff G5].
    apply bool_decide_eq_true in G1, G2, G3. apply eqb_prop in G4, G5.
    eapply wp_mono; [apply (cteSwap_ok (ad_lists a) k s1 s2 c1 c2); rewrite ?(ab_caps _ _ HA); by try apply (ab_dom _ _ HA) | | done].
    intros ? k' HC. apply (abstracts_changed a k k' _ _ _ HA HC); simpl; auto.
  - destruct (used a p && free a s && negb (is_null c)) eqn:G; [|done].
    apply andb_true_iff in G as [[G1 G2]%andb_true_iff G3%negb_true_iff].
    destruct (used_spec a k p HA G1), (free_spec a k s HA G2). intros [= <-].
    eapply wp_mono; [by apply (insertNewCap_ok (ad_lists a) k p s c) | | done].
    intros ? k' HC. apply (abstracts_changed a k k' _ _ _ HA HC); simpl; auto.
  - destruct (used a s) eqn:G.
    + destruct (used_spec a k s HA G) as [H1 H2]. intros [= <-]. eapply (emptySlot_ok (ad_lists a)); [done | done | done |].
      intros k' HC. simpl. rewrite wp_ret. apply (abstracts_changed a k k' _ _ _ HA HC); simpl; auto.
      assert (s ∈ concat (ad_lists a)) as Hs by (by apply (mo_caps _ _ HM)).
      intros p. unfold flags_removed. by rewrite (next_of_mn a k s HA Hs), !(ab_flags _ _ HA).
    + destruct (free a s) eqn:G2; [|done]. intros [= <-]. destruct (free_spec a k s HA G2) as [H1 H2].
      unfold emptySlot. rewrite wp_bind. eapply wp_cte_get; [apply sees_view_of | done | by apply (mo_nonzero _ _ HM) |].
      cbn [slot_of cte_cap]. change (v_cap (view_of k) s) with (cap_at k s). by rewrite H2.
Qed.

(** C2: The mapping database refines its abstract counterpart. Any sequence of copies, moves,
    swaps, insertions of new capabilities and deletions that the specification allows runs
    without a fault and ends in a state whose slots are exactly those of the abstract
    database after the same operations on lists; nothing but slots changes. *)
Theorem mdb_refines os a b k : abstracts a k -> spec_ops os a = Some b ->
  exists k', run_ops os k = inl (tt, k') /\ abstracts b k' /\ nocte k' = nocte k.
Proof.
  intros HA HS. enough (wp (run_ops os) (fun _ k' => abstracts b k' /\ nocte k' = nocte k) (fun _ => False) k) as Hw.
  { unfold wp in Hw. destruct (run_ops os k) as [[[] k']|]; [eauto | done]. }
  revert a k HA HS. induction os as [|o os IH]; intros a k HA HS.
  - injection HS as <-. simpl. by rewrite wp_ret.
  - unfold spec_ops in HS. simpl in HS. destruct (spec_op o a) as [c|] eqn:E.
    + simpl. rewrite wp_bind. eapply wp_mono; [by apply (run_op_refines o a c) | | done]. intros ? k1 [H1 H2].
      eapply wp_mono; [by apply (IH c) | | done]. intros ? k2 [H3 H4]. split; [done | congruence].
    + exfalso. clear -HS. induction os; [done | auto].
Qed.

(** A state with three slots, the first one holding an untyped capability. *)
Definition demo_mdb : kstate :=
  upd_k_cte (fun _ => <[16 := mkCte (cap_untyped_cap 0 false 12 4096) nullMDBNode]>
    (<[48 := mkCte cap_null_cap nullMDBNode]> {[80 := mkCte cap_null_cap nullMDBNode]})) demo_k.
Definition adb_of (L : list (list Z)) (k : kstate) : adb := mkAdb (dom (k_cte k)) L (cap_at k) (flags_at k).

Lemma demo_mdb_ok : abstracts (adb_of [[16]] demo_mdb) demo_mdb.
Proof.
  assert (forall p, is_Some (k_cte demo_mdb !! p) -> p = 16 \/ p = 48 \/ p = 80) as Hd.
  { intros p. simpl. rewrite !lookup_insert_is_Some, lookup_singleton_is_Some. naive_solver. }
  split; [|intros p; apply elem_of_dom | done | done]. split.
  - constructor; [|done]. vm_compute. intuition congruence.
  - simpl. apply list.NoDup_singleton.
  - intros p. simpl. intros ->%list_elem_of_singleton. by eexists.
  - intros p Hp. apply Hd in Hp. lia.
  - intros p Hp. destruct (k_cte demo_mdb !! p) as [e|] eqn:E.
    + destruct (Hd p ltac:(by eexists)) as [->|[->| ->]]; done.
    + unfold mn, mp. by rewrite E.
  - intros p Hp. destruct (Hd p Hp) as [->|[->| ->]]; vm_compute; split; intros H; try done; try set_solver;
      by apply list_elem_of_singleton in H.
Qed.

Lemma mdb_refines_witness :
  let os := [op_new 16 48 (cap_endpoint_cap 0 true true true true 4096); op_insert (cap_endpoint_cap 7 true true true true 4096) 48 80;
             op_empty 48; op_swap (cap_untyped_cap 0 false 12 4096) 16 (cap_endpoint_cap 7 true true true true 4096) 80] in
  exists b k', spec_ops os (adb_of [[16]] demo_mdb) = Some b /\ ad_lists b = [[80; 16]] /\
    run_ops os demo_mdb = inl (tt, k') /\ abstracts b k'.
Proof.
  intros os. destruct (spec_ops os (adb_of [[16]] demo_mdb)) as [b|] eqn:E; [|by vm_compute in E].
  destruct (mdb_refines os _ b demo_mdb demo_mdb_ok E) as (k' & H1 & H2 & _). exists b, k'.
  split; [done |]. split; [|done]. vm_compute in E. by injection E as <-.
Defined.
