(* ===== verification/KUntypedThms.v ===== *)
(** * Where new objects go

    The region that [decodeUntypedInvocation] hands out: aligned for the object,
    after everything allocated before and inside the untyped block, so that no
    two objects overlap. *)

From S2P Require Import Prelude KCaps KState KSched KCspace KMdb KMsg KIpc KDelete KUntyped.
From S2P Require Import KCapThms KMdbThms Dll.

(** ** Rounding up *)

Lemma alignUp_spec a b : 0 <= b < 64 -> 0 <= a -> a + 2 ^ b <= 2 ^ 64 ->
  alignUp a b = (a + 2 ^ b - 1) / 2 ^ b * 2 ^ b.
Proof.
  intros Hb Ha Hw. unfold alignUp. rewrite BIT_pow by lia. assert (0 < 2 ^ b) as Hp by lia. assert (2 ^ b <= 2 ^ 64) by lia.
  unfold w64. rewrite (Z.mod_small (2 ^ b - 1)), Z.mod_small by lia. rewrite land_lnot_mask by (unfold is_word; lia).
  rewrite (Z.mul_comm (_ / _)), Z.mod_eq by lia. replace (a + (2 ^ b - 1)) with (a + 2 ^ b - 1) by lia. lia.
Qed.

(** The comment of the code: if anything fits, it fits aligned up. *)
Lemma aligned_fits ptr bs off sz n : 0 <= sz -> 0 <= bs -> ptr mod 2 ^ bs = 0 -> 0 <= off -> 1 <= n ->
  n <= (2 ^ bs - off) / 2 ^ sz ->
  let base := (ptr + off + 2 ^ sz - 1) / 2 ^ sz * 2 ^ sz in
  sz <= bs /\ base mod 2 ^ sz = 0 /\ ptr + off <= base /\ base + n * 2 ^ sz <= ptr + 2 ^ bs.
Proof.
  intros Hsz Hbs Hal Hoff Hn Hfit base. assert (0 < 2 ^ sz) as Hp by lia. assert (0 < 2 ^ bs) as Hq by lia.
  assert (n * 2 ^ sz <= 2 ^ bs - off) as Hroom.
  { pose proof (Z.mul_div_le (2 ^ bs - off) (2 ^ sz) Hp). nia. }
  assert (sz <= bs) as Hle. { apply (Z.pow_le_mono_r_iff 2); [done | done |]. nia. }
  split; [done |]. split; [by apply Z.mod_mul; lia |].
  pose proof (Z.div_mod (ptr + off + 2 ^ sz - 1) (2 ^ sz) ltac:(lia)) as E.
  pose proof (Z.mod_pos_bound (ptr + off + 2 ^ sz - 1) (2 ^ sz) Hp) as Hm.
  split; [unfold base; nia |].
  assert (exists e, ptr + 2 ^ bs = e * 2 ^ sz) as [e He].
  { exists ((ptr / 2 ^ bs + 1) * 2 ^ (bs - sz)). rewrite <- Z.mul_assoc, <- Z.pow_add_r by lia.
    replace (bs - sz + sz) with bs by lia. pose proof (Z.div_mod ptr (2 ^ bs) ltac:(lia)). lia. }
  unfold base. rewrite He. assert (n * 2 ^ sz + ptr + off <= e * 2 ^ sz) by lia.
  rewrite <- Z.mul_add_distr_r. apply Z.mul_le_mono_nonneg_r; [lia |].
  assert ((ptr + off + 2 ^ sz - 1) / 2 ^ sz <= e - n); [|lia].
  apply Z.lt_succ_r, Z.div_lt_upper_bound; [done |]. nia.
Qed.

(** ** Sizes *)
Definition size_ok (t userSize sz : Z) : Prop :=
  getObjectSize t userSize = Some sz /\ seL4_MinUntypedBits <= sz <= seL4_MaxUntypedBits /\ 0 <= userSize < 64 /\
  (t = seL4_CapTableObject -> sz = userSize + seL4_SlotBits /\ 1 <= userSize) /\ (t = seL4_UntypedObject -> sz = userSize).

Lemma getObjectSize_known t u : 0 <= t < seL4_ObjectTypeCount -> is_Some (getObjectSize t u).
Proof.
  intros Ht. unfold seL4_ObjectTypeCount in Ht.
  assert (t = 0 \/ t = 1 \/ t = 2 \/ t = 3 \/ t = 4 \/ t = 5 \/ t = 6 \/ t = 7 \/ t = 8 \/ t = 9 \/ t = 10 \/ t = 11) as Hc by lia.
  by repeat (destruct Hc as [->|Hc]; [eexists |]); subst; eexists.
Qed.

Lemma sizes_at_least t u sz : 0 <= t < seL4_ObjectTypeCount -> 0 <= u < 64 -> getObjectSize t u = Some sz ->
  t <> seL4_UntypedObject \/ seL4_MinUntypedBits <= u ->
  seL4_MinUntypedBits <= sz /\ (t = seL4_CapTableObject -> sz = u + seL4_SlotBits) /\ (t = seL4_UntypedObject -> sz = u).
Proof.
  intros Ht Hu. unfold seL4_ObjectTypeCount, seL4_MinUntypedBits in *.
  assert (t = 0 \/ t = 1 \/ t = 2 \/ t = 3 \/ t = 4 \/ t = 5 \/ t = 6 \/ t = 7 \/ t = 8 \/ t = 9 \/ t = 10 \/ t = 11) as Hc by lia.
  repeat (destruct Hc as [->|Hc]); subst; cbn -[Z.modulo w64]; intros [= <-] Hor;
    unfold seL4_TCBBits, seL4_EndpointBits, seL4_NotificationBits, ARMSmallPageBits, ARMLargePageBits, ARMHugePageBits,
      seL4_PageTableBits, seL4_PageDirBits, seL4_PUDBits, seL4_PGDBits, seL4_UntypedObject, seL4_CapTableObject, seL4_SlotBits in *;
    unfold w64; rewrite ?Z.mod_small by lia; lia.
Qed.

(** ** The checks *)

(** Only the error report and the lookup fault differ. *)
Definition no_errors (k : kstate) : kstate :=
  upd_current_syscall_error (fun _ => mkErr 0 0 0 0 0 false seL4_NoError)
    (upd_current_lookup_fault (fun _ => lookup_fault_invalid_root) k).
Definition same_but_errors (k k' : kstate) : Prop := no_errors k' = no_errors k.
Lemma sbe_cte k k' : same_but_errors k k' -> k_cte k' = k_cte k.
Proof. intros H. by apply (f_equal k_cte) in H. Qed.

Definition rejected {A} (k : kstate) (r : exception_t + A) (k' : kstate) : Prop :=
  r = inl EXCEPTION_SYSCALL_ERROR /\ same_but_errors k k'.

Lemma wp_cte_some k p e (Q : cte_t -> kstate -> Prop) F : p <> 0 -> k_cte k !! p = Some e -> Q e k -> wp (cte_get p) Q F k.
Proof. intros Hp He HQ. unfold wp, cte_get. by rewrite (proj2 (Z.eqb_neq p 0) Hp), He. Qed.

Lemma resolve_loop_keeps fuel c capptr n nt : preserves no_errors (resolve_loop fuel c capptr n nt).
Proof.
  revert c n. induction fuel as [|fuel IH]; intros c n; simpl; [pres |]. destruct c; pres.
  intros k x k'. unfold cte_get. repeat case_match; by intros [= _ <-].
Qed.
#[local] Opaque resolve_loop.
Lemma lookup_op_keeps src root capptr depth : preserves no_errors (lookupSlotForCNodeOp src root capptr depth).
Proof.
  unfold lookupSlotForCNodeOp. destruct root; pres; unfold resolveAddressBits; apply resolve_loop_keeps.
Qed.

Section Checks.
Context (k : kstate) (L : list (list Z)).
Hypothesis Hmdb : mdb_ok L k.
Hypothesis Hslots : slots_ok (k_cte k).

Lemma check_type_ok t u : 0 <= t -> 0 <= u ->
  wp (check_type t u) (fun r k' => rejected k r k' \/ exists sz, r = inr sz /\ k' = k /\ 0 <= t < seL4_ObjectTypeCount /\ size_ok t u sz) (fun _ => False) k.
Proof.
  intros Ht Hu. unfold check_type. destruct (t >=? seL4_ObjectTypeCount) eqn:E; rewrite Z.geb_leb in E; [by left |].
  apply Z.leb_gt in E. destruct (getObjectSize_known t u ltac:(lia)) as [sz Hsz]. rewrite wp_bind, wp_of_option, Hsz.
  destruct ((u >=? wordBits) || (sz >? seL4_MaxUntypedBits)) eqn:E1; [by left |].
  apply orb_false_iff in E1 as [E1 E2]. rewrite Z.geb_leb, Z.leb_gt in E1. rewrite Z.gtb_ltb, Z.ltb_ge in E2.
  destruct ((t =? seL4_CapTableObject) && (u =? 0)) eqn:E3; [by left |].
  destruct ((t =? seL4_UntypedObject) && (u <? seL4_MinUntypedBits)) eqn:E4; [by left |].
  right. exists sz. split; [done |]. split; [done |]. split; [done |]. unfold wordBits in E1.
  destruct (sizes_at_least t u sz) as (H1 & H2 & H3); [lia | lia | done | |].
  { apply andb_false_iff in E4 as [E4|E4]; [left; by apply Z.eqb_neq in E4 | right; by apply Z.ltb_ge in E4]. }
  split; [done |]. split; [done |]. split; [lia |]. split; [|done]. intros Hc. split; [auto |].
  apply andb_false_iff in E3 as [E3|E3]; apply Z.eqb_neq in E3; [done | lia].
Qed.

(** The slots of a window are there, empty and inside the CNode. *)
Definition window_ok (s : slot_range_t) : Prop :=
  1 <= sr_length s <= CONFIG_RETYPE_FAN_OUT_LIMIT /\ 0 <= sr_offset s /\
  forall i, 0 <= i < sr_length s ->
    slot_at (sr_cnode s) (w64 (sr_offset s + i)) = sr_cnode s + (sr_offset s + i) * 32 /\
    exists e, k_cte k !! (sr_cnode s + (sr_offset s + i) * 32) = Some e /\ cte_cap e = cap_null_cap.

Lemma slot_at_small ptr radix i : obj_region ptr (radix + seL4_SlotBits) -> 0 <= radix -> 0 <= i < 2 ^ radix ->
  slot_at ptr i = ptr + i * 32.
Proof.
  intros (Hb & Hp & _ & Hw) Hr Hi. rewrite Z.pow_add_r in Hw by (unfold seL4_SlotBits; lia).
  change (2 ^ seL4_SlotBits) with 32 in Hw. unfold slot_at. change cte_size with 32. apply Z.mod_small. lia.
Qed.

Lemma ensure_empty_ok radix gs g ptr n i : cnode_ok (k_cte k) (cap_cnode_cap radix gs g ptr) -> 0 <= i ->
  i + Z.of_nat n <= 2 ^ radix ->
  wp (ensure_empty_loop ptr i n) (fun st k' => (st = EXCEPTION_SYSCALL_ERROR /\ same_but_errors k k') \/
    st = EXCEPTION_NONE /\ k' = k /\ forall j, i <= j < i + Z.of_nat n ->
      exists e, k_cte k !! (ptr + j * 32) = Some e /\ cte_cap e = cap_null_cap) (fun _ => False) k.
Proof.
  intros (Hwf & Hlv & Hp & Hs). pose proof Hwf as (Hr & _ & _ & _ & Hobj). revert i.
  induction n as [|n IH]; intros i Hi Hn; simpl.
  { apply wp_ret. right. split; [done |]. split; [done |]. lia. }
  rewrite (slot_at_small ptr radix) by (done || lia). destruct (Hs i ltac:(lia)) as [e He].
  rewrite wp_bind. unfold ensureEmptySlot. rewrite wp_bind. eapply wp_cte_some; [lia | exact He |].
  destruct (is_null (cte_cap e)) eqn:En; simpl.
  - rewrite wp_ret, bool_decide_true by done. eapply wp_mono; [apply IH; lia | | done].
    intros st k' [?|(-> & -> & Ha)]; [by left |]. right. split; [done |]. split; [done |]. intros j Hj.
    destruct (decide (j = i)) as [->|]; [|apply Ha; lia]. exists e. split; [done |]. by destruct (cte_cap e).
  - by left.
Qed.

Lemma check_window_ok c d off n : cnode_ok (k_cte k) c -> 0 <= off -> 0 <= n ->
  wp (check_dest_window c d off n) (fun r k' => rejected k r k' \/ exists s, r = inr s /\ k' = k /\ window_ok s /\ sr_length s = n)
    (fun _ => False) k.
Proof.
  intros Hc Ho Hn.
  destruct c as [| | | | |radix gs g ptr| | | | | | | | | | | |]; try (by left). unfold check_dest_window.
  pose proof Hc as (Hwf & Hlv & Hp & Hs). pose proof Hwf as (Hr & _ & _ & _ & Hobj). pose proof Hobj as (Hb & _ & _ & _).
  unfold seL4_SlotBits in Hb. assert (2 ^ radix <= 2 ^ 59) by (apply Z.pow_le_mono_r; lia). assert (0 < 2 ^ radix) by lia.
  cbv zeta. change (Z.shiftl 1 radix) with (BIT radix). rewrite BIT_pow by done. unfold w64 at 1 2 3 4 5 6 7.
  rewrite !(Z.mod_small (2 ^ radix)), !(Z.mod_small (2 ^ radix - 1)) by lia.
  destruct (off >? 2 ^ radix - 1) eqn:E1; [by left |]. rewrite Z.gtb_ltb, Z.ltb_ge in E1.
  destruct ((n <? 1) || (n >? CONFIG_RETYPE_FAN_OUT_LIMIT)) eqn:E2; [by left |].
  apply orb_false_iff in E2 as [E2 E3]. rewrite Z.ltb_ge in E2. rewrite Z.gtb_ltb, Z.ltb_ge in E3.
  rewrite !(Z.mod_small (2 ^ radix - off)) by lia.
  destruct (n >? 2 ^ radix - off) eqn:E4; [by left |]. rewrite Z.gtb_ltb, Z.ltb_ge in E4.
  rewrite wp_bind. eapply wp_mono; [apply (ensure_empty_ok radix gs g); [done | done | lia] | | done].
  intros st k' [[-> Hk']|(-> & -> & Ha)]; simpl; [by left |]. right. eexists. split; [done |]. split; [done |].
  split; [|done]. split; [done |]. split; [done |]. cbn. intros i Hi. unfold w64. rewrite Z.mod_small by lia.
  split; [apply (slot_at_small ptr radix); [done | done | lia] |]. apply Ha. lia.
Qed.

Lemma check_dest_ok root idx d off n : root <> 0 -> is_Some (k_cte k !! root) -> 0 <= d -> 0 <= off -> 0 <= n ->
  wp (check_dest root idx d off n) (fun r k' => rejected k r k' \/ exists s, r = inr s /\ k' = k /\ window_ok s /\ sr_length s = n)
    (fun _ => False) k.
Proof.
  intros H0 [e He] Hd Ho Hn. pose proof (Hslots _ _ He) as Hc. unfold check_dest. rewrite wp_bind. eapply wp_cte_some; [done | exact He |].
  destruct (d =? 0); [by apply check_window_ok |]. rewrite wp_bind.
  eapply wp_mono; [apply (preserves_wp no_errors); [apply lookup_op_keeps | by apply lookup_op_ok] | | done].
  intros r k' [[->|(sl & -> & Hsl & [e' He'] & ->)] Hk']; simpl; [by left |]. rewrite wp_bind.
  eapply wp_cte_some; [done | exact He' |]. apply check_window_ok; [exact (Hslots _ _ He') | done | done].
Qed.
End Checks.

(** ** The region handed out *)

(** The first byte of the block [c] that is not allocated; all of it is free when
    the untyped capability has no children. *)
Definition free_from (c : cap) (reset : bool) : Z :=
  match c with cap_untyped_cap fi _ _ ptr => ptr + (if reset then 0 else fi * 16) | _ => 0 end.
Definition block_end (c : cap) : Z := match c with cap_untyped_cap _ _ bs ptr => ptr + 2 ^ bs | _ => 0 end.
Definition is_device (c : cap) : bool := match c with cap_untyped_cap _ dev _ _ => dev | _ => false end.

(** The slot after [slot] in the database is a child of it. *)
Definition has_child (k : kstate) (slot : Z) : bool :=
  match k_cte k !! slot with
  | Some e =>
      match k_cte k !! mdbNext (cteMDBNode e) with
      | Some next => negb (mdbNext (cteMDBNode e) =? 0) && isMDBParentOf e next
      | None => false
      end
  | None => false
  end.

Record plan_ok (k : kstate) (slot : Z) (c : cap) (p : retype_plan) (sz : Z) : Prop := {
  po_size : size_ok (rp_type p) (rp_size p) sz;
  po_type : 0 <= rp_type p < seL4_ObjectTypeCount;
  po_slots : window_ok k (rp_slots p);
  po_reset : rp_reset p = negb (has_child k slot);
  po_aligned : rp_base p mod 2 ^ sz = 0;
  po_after : free_from c (rp_reset p) <= rp_base p;
  po_inside : rp_base p + sr_length (rp_slots p) * 2 ^ sz <= block_end c;
  po_device : rp_device p = is_device c;
  po_kernel : is_device c = true -> Arch_isFrameType (rp_type p) = true \/ rp_type p = seL4_UntypedObject }.

Lemma MAX_FREE_INDEX_offset bs fi : 4 <= bs <= 47 -> 0 <= fi <= MAX_FREE_INDEX bs -> 0 <= fi * 16 <= 2 ^ bs.
Proof.
  unfold MAX_FREE_INDEX, seL4_MinUntypedBits. intros Hb Hf. rewrite BIT_pow in Hf by lia.
  replace (2 ^ bs) with (2 ^ (bs - 4) * 16); [lia |]. change 16 with (2 ^ 4). rewrite <- Z.pow_add_r by lia. f_equal. lia.
Qed.

Lemma free_offset fi bs : 4 <= bs <= 47 -> 0 <= fi <= MAX_FREE_INDEX bs -> FREE_INDEX_TO_OFFSET fi = fi * 16 /\ 0 <= fi * 16 <= 2 ^ bs.
Proof.
  intros Hb Hf. pose proof (MAX_FREE_INDEX_offset bs fi Hb Hf) as Ho. split; [|done].
  unfold FREE_INDEX_TO_OFFSET. rewrite Z.shiftl_mul_pow2 by (unfold seL4_MinUntypedBits; lia). apply Z.mod_small.
  change (2 ^ seL4_MinUntypedBits) with 16. assert (2 ^ bs <= 2 ^ 47) by (apply Z.pow_le_mono_r; lia). lia.
Qed.

Lemma wp_ensureNoChildren k L slot : mdb_ok L k -> is_Some (k_cte k !! slot) ->
  wp (ensureNoChildren slot) (fun st k' => same_but_errors k k' /\ st = if has_child k slot then EXCEPTION_SYSCALL_ERROR else EXCEPTION_NONE)
    (fun _ => False) k.
Proof.
  intros Hk [e He]. pose proof (mo_nonzero _ _ Hk slot ltac:(by rewrite He)) as H0. unfold ensureNoChildren, has_child. rewrite wp_bind.
  eapply wp_cte_some; [done | exact He |]. rewrite He. destruct (mdbNext (cteMDBNode e) =? 0) eqn:En; simpl.
  { split; [done |]. by destruct (k_cte k !! mdbNext _). }
  apply Z.eqb_neq in En.
  destruct (view_neighbours L _ slot (mdb_ok_view L k Hk) ltac:(simpl; by rewrite He)) as (_ & N1 & _).
  simpl in N1. unfold mn in N1. rewrite He in N1. simpl in N1. destruct (N1 En) as [e' He']. rewrite wp_bind. eapply wp_cte_some; [done | exact He' |].
  rewrite He'. by destruct (isMDBParentOf e e').
Qed.

Lemma check_memory_ok k L slot c t u sz s : mdb_ok L k -> is_Some (k_cte k !! slot) -> cap_wf c -> cap_get_capType c = 2 ->
  0 <= t < seL4_ObjectTypeCount -> size_ok t u sz -> window_ok k s ->
  wp (check_memory slot c t u sz s) (fun r k' => rejected k r k' \/ exists p, r = inr p /\ same_but_errors k k' /\
     plan_ok k slot c p sz /\ rp_type p = t /\ rp_size p = u /\ rp_slots p = s) (fun _ => False) k.
Proof.
  intros Hk Hsl Hwf Ht Htt Hsz Hs. destruct c as [|fi dev bs ptr| | | | | | | | | | | | | | | |]; try done.
  unfold check_memory. rewrite wp_bind. eapply wp_mono; [by apply (wp_ensureNoChildren k L) | | done]. intros st k1 [Hk1 Hst].
  assert (negb (bool_decide (st = EXCEPTION_NONE)) = has_child k slot) as -> by (subst st; by destruct (has_child k slot)).
  assert (exists fi' reset, (if has_child k slot then (fi, false) else (0, true)) = (fi', reset) /\ reset = negb (has_child k slot) /\
    0 <= fi' <= MAX_FREE_INDEX bs /\ fi' * 16 = if reset then 0 else fi * 16) as (fi' & reset & -> & Er & Hfi & Ereset).
  { destruct Hwf as (_ & Hf & _). destruct (has_child k slot); eexists _, _; split; try done. unfold MAX_FREE_INDEX in *. lia. }
  destruct Hwf as (Hbs & _ & (Hb & Hp & Hal & Hw)). unfold seL4_MinUntypedBits, seL4_MaxUntypedBits in Hbs.
  destruct (free_offset fi' bs Hbs Hfi) as [Eo Ho]. cbv zeta. unfold GET_FREE_REF. rewrite Eo, BIT_pow by lia.
  assert (2 ^ bs <= 2 ^ 47) as Hb47 by (apply Z.pow_le_mono_r; lia).
  assert (w64 (2 ^ bs - fi' * 16) = 2 ^ bs - fi' * 16) as -> by (apply Z.mod_small; lia).
  destruct Hsz as (Hg & Hsz & Hu). unfold seL4_MinUntypedBits, seL4_MaxUntypedBits in Hsz. rewrite Z.shiftr_div_pow2 by lia.
  destruct (_ <? sr_length s) eqn:E1; [by left |]. apply Z.ltb_ge in E1.
  destruct ((dev && _) && _) eqn:E2; [by left |].
  destruct (aligned_fits ptr bs (fi' * 16) sz (sr_length s)) as (Hle & A1 & A2 & A3); [lia | lia | done | lia | apply Hs | done |].
  assert (0 < 2 ^ sz <= 2 ^ 47) by (split; [lia | apply Z.pow_le_mono_r; lia]). pose proof (proj1 Hs) as Hn.
  assert (ptr + fi' * 16 + 2 ^ sz <= 2 ^ 64).
  { clear - A2 A3 Hw Hn H. set (b := _ / _ * _) in *. clearbody b. assert (2 ^ sz <= sr_length s * 2 ^ sz) by nia. lia. }
  assert (w64 (ptr + fi' * 16) = ptr + fi' * 16) as -> by (apply Z.mod_small; lia).
  right. eexists. split; [done |]. split; [done |]. split; [|done]. rewrite alignUp_spec by lia.
  split; cbn; try done; [by rewrite <- Ereset |]. intros Hdev. rewrite Hdev in E2. simpl in E2.
  destruct (Arch_isFrameType t); [by left | right]. simpl in E2. apply negb_false_iff, Z.eqb_eq in E2. done.
Qed.

(** Registers and memory hold words. *)
Definition words_ok (k : kstate) : Prop :=
  map_Forall (fun _ x => map_Forall (fun _ w => is_word w) (tcbRegs x)) (k_tcb k) /\ map_Forall (fun _ w => is_word w) (k_word k).

Lemma default_word (m : gmap Z Z) a : map_Forall (fun _ w => is_word w) m -> is_word (default 0 (m !! a)).
Proof. intros Hm. destruct (m !! a) as [w|] eqn:E; [exact (Hm _ _ E) | done]. Qed.

Lemma getSyscallArg_ok k i buffer : words_ok k -> is_Some (k_tcb k !! ksCurThread k) -> ksCurThread k <> 0 -> 0 <= i ->
  buffer <> 0 -> wp (getSyscallArg i buffer) (fun w k' => is_word w /\ k' = k) (fun _ => False) k.
Proof.
  intros [Hr Hw] [x Hx] H0 Hi Hb. unfold getSyscallArg. destruct (i <? n_msgRegisters) eqn:E.
  - apply Z.ltb_lt in E. unfold n_msgRegisters in E. wp_steps. unfold reg_at. wp_step.
    rewrite (proj2 (Z.ltb_ge i 0) Hi). assert (exists r, msgRegisters !! Z.to_nat i = Some r) as [r ->].
    { apply lookup_lt_is_Some. simpl in *. lia. }
    unfold getRegister. wp_step. unfold wp, tcb_get. rewrite (proj2 (Z.eqb_neq _ 0) H0), Hx. split; [|done].
    apply default_word. exact (Hr _ _ Hx).
  - wp_step. wp_step. rewrite (proj2 (Z.eqb_neq _ 0) Hb). simpl. split; [|done]. by apply default_word.
Qed.

(** The call that [decodeUntypedInvocation] gets. *)
Record retype_call (L : list (list Z)) (k : kstate) (len slot : Z) (c : cap) (excaps : list Z) (buffer : Z) : Prop := {
  rc_mdb : mdb_ok L k;
  rc_slots : slots_ok (k_cte k);
  rc_words : words_ok k;
  rc_cur : is_Some (k_tcb k !! ksCurThread k) /\ ksCurThread k <> 0;
  rc_cap : cap_at k slot = c;
  rc_untyped : cap_get_capType c = 2;
  rc_wf : cap_wf c;
  rc_excaps : exists r, excaps !! 0%nat = Some r /\ (r <> 0 -> is_Some (k_cte k !! r));
  rc_buffer : buffer = 0 -> len < 6 }.

(** Decoding settles on a region that fits, or reports an error. *)
Lemma decode_ok (L : list (list Z)) (k : kstate) (label len slot : Z) (c : cap) (excaps : list Z) (buffer : Z) :
  retype_call L k len slot c excaps buffer ->
  wp (decode_retype label len slot c excaps buffer) (fun r k' => same_but_errors k k' /\
    match r with inl st => st = EXCEPTION_SYSCALL_ERROR | inr p => exists sz, plan_ok k slot c p sz end) (fun _ => False) k.
Proof.
  intros [Hk Hs Hw [Hc H0] Hcap Ht Hwf (r & Hr & Hr') Hb]. unfold decode_retype. wp_step. wp_step. rewrite Hr.
  destruct (negb _); [done |]. destruct ((len <? 6) || (r =? 0)) eqn:E; [done |].
  apply orb_false_iff in E as [E1 E2]. apply Z.ltb_ge in E1. apply Z.eqb_neq in E2.
  assert (buffer <> 0) as Hb0 by (intros ->; specialize (Hb eq_refl); lia).
  assert (is_Some (k_cte k !! slot)) as Hsl.
  { destruct (k_cte k !! slot) as [e|] eqn:Ee; [done |]. unfold cap_at in Hcap. rewrite Ee in Hcap. by subst c. }
  do 6 (wp_step; eapply wp_mono; [by apply getSyscallArg_ok | intros ? ? [? ->] | done]).
  wp_step. eapply wp_mono; [by apply (check_type_ok k); unfold is_word in *; lia | | done].
  intros r1 k1 [[-> ?]|(sz & -> & -> & Htt & Hsz)]; [done |].
  wp_step. eapply wp_mono; [by apply (check_dest_ok k Hs); auto; unfold is_word in *; lia | | done].
  intros r2 k2 [[-> ?]|(w & -> & -> & Hwin & _)]; [done |].
  eapply wp_mono; [by apply (check_memory_ok k L) | | done].
  intros r3 k3 [[-> ?]|(p & -> & ? & ? & _)]; [done |]. eauto.
Qed.
