(* ===== verification/KRetypeThms.v ===== *)
(** * Retyping untyped memory

    What [decodeUntypedInvocation] does to the capabilities: new capabilities
    to disjoint parts of the block, children of the untyped one, and nothing
    else; and how the preemptible clearing of a block makes progress. *)

From S2P Require Import Prelude KCaps KState KSched KCspace KMdb KMsg KIpc KDelete KUntyped.
From S2P Require Import KCapThms KSchedInv KSchedThms KMdbThms Dll KUntypedThms.

(** ** New slots *)

Definition empty_slot : cte_t := mkCte cap_null_cap nullMDBNode.

(** [m'] is [m] with empty slots added in [a, b). *)
Definition adds_slots (a b : Z) (m m' : gmap Z cte_t) : Prop :=
  forall p, m' !! p = m !! p \/ (a <= p < b /\ m' !! p = Some empty_slot).

Lemma new_slots_adds base n m : 0 <= base -> base + Z.of_nat n * 32 <= 2 ^ 64 ->
  adds_slots base (base + Z.of_nat n * 32) m (new_slots base n m).
Proof.
  revert base. induction n as [|n IH]; intros base H0 Hw p; [by left |]. cbn [new_slots]. change cte_size with 32.
  destruct (decide (p = base)) as [->|].
  - right. rewrite lookup_insert_eq. split; [lia | done].
  - rewrite lookup_insert_ne by done. destruct n as [|n]; [by left |].
    unfold w64. rewrite Z.mod_small by lia. destruct (IH (base + 32) ltac:(lia) ltac:(lia) p) as [E|[? E]]; [by left |].
    right. split; [lia | done].
Qed.

Definition no_slots (a b : Z) (m : gmap Z cte_t) : Prop := forall p, a <= p < b -> m !! p = None.

Lemma adds_cap k m' a b p : adds_slots a b (k_cte k) m' -> no_slots a b (k_cte k) ->
  from_option cte_cap cap_null_cap (m' !! p) = cap_at k p.
Proof.
  intros Ha Hn. unfold cap_at. destruct (Ha p) as [->|[Hp E]]; [done |]. by rewrite E, (Hn p Hp).
Qed.

(** Adding empty slots changes no derivation. *)
Lemma adds_mdb L k k' a b : mdb_ok L k -> 0 < a -> adds_slots a b (k_cte k) (k_cte k') -> no_slots a b (k_cte k) -> mdb_ok L k'.
Proof.
  intros [H1 H2 H3 H4 H5 H6] Ha Hadd Hno.
  assert (forall p, mn k' p = mn k p /\ mp k' p = mp k p /\ cap_at k' p = cap_at k p) as Heq.
  { intros p. unfold mn, mp, cap_at. destruct (Hadd p) as [->|[Hp ->]]; [done |]. by rewrite (Hno p Hp). }
  assert (forall p, is_Some (k_cte k !! p) -> is_Some (k_cte k' !! p)) as Hdom.
  { intros p. destruct (Hadd p) as [->|[Hp ->]]; [done |]. by rewrite (Hno p Hp). }
  split; [|done | | | |].
  - eapply list.Forall_impl; [exact H1 |]. intros xs Hx. eapply dseg_ext; [|exact Hx]. intros x _. by destruct (Heq x) as (? & ? & _).
  - intros p Hp. by apply Hdom, H3.
  - intros p. destruct (Hadd p) as [->|[Hp ->]]; [apply H4 | lia].
  - intros p Hp. destruct (Heq p) as (-> & -> & _). by apply H5.
  - intros p. destruct (Heq p) as (_ & _ & ->). destruct (Hadd p) as [->|[Hp ->]]; [apply H6 |]. intros _.
    pose proof (Hno p Hp) as Hn. split; [|unfold cap_at; by rewrite Hn]. intros Hin. destruct (H3 p Hin) as [e He]. by rewrite Hn in He.
Qed.

(** ** One object *)

(** The capability to a new object of type [t] at [b]. *)
Definition object_cap (t b u : Z) (dev : bool) : cap :=
  if t =? seL4_UntypedObject then cap_untyped_cap 0 dev u b
  else if t =? seL4_TCBObject then cap_thread_cap (w64 (b + TCB_OFFSET))
  else if t =? seL4_EndpointObject then cap_endpoint_cap 0 true true true true b
  else if t =? seL4_NotificationObject then cap_notification_cap 0 true true b
  else if t =? seL4_CapTableObject then cap_cnode_cap u 0 0 b
  else default cap_null_cap (Arch_createObject t b u dev).

(** The first address of the object and its size. *)
Definition occupies (c : cap) (b sz : Z) : Prop :=
  is_null c = false /\ cap_wf c /\ cap_get_capIsPhysical c = true /\ cap_get_capPtr c = b /\ cap_get_capSizeBits c = sz.

Lemma object_types t : 0 <= t < seL4_ObjectTypeCount ->
  t = 0 \/ t = 1 \/ t = 2 \/ t = 3 \/ t = 4 \/ t = 5 \/ t = 6 \/ t = 7 \/ t = 8 \/ t = 9 \/ t = 10 \/ t = 11.
Proof. unfold seL4_ObjectTypeCount. lia. Qed.

Lemma object_cap_occupies t b u dev sz : 0 <= t < seL4_ObjectTypeCount -> size_ok t u sz -> obj_region b sz ->
  occupies (object_cap t b u dev) b sz.
Proof.
  intros Ht (Hg & Hsz & Hu & Hc & Hun) Hr. pose proof Hr as (Hb & H0 & Hal & Hw). unfold occupies.
  destruct (object_types t Ht) as [->|[->|[->|[->|[->|[->|[->|[->|[->|[->|[->| ->]]]]]]]]]]].
  - rewrite (Hun eq_refl) in *. split; [done |]. split; [|done]. split; [done |]. split; [|done].
    unfold MAX_FREE_INDEX, seL4_MinUntypedBits in *. rewrite BIT_pow by lia. lia.
  - injection Hg as <-. assert (w64 (b + TCB_OFFSET) - TCB_OFFSET = b) as E.
    { unfold w64. change TCB_OFFSET with 1024. change (2 ^ seL4_TCBBits) with 2048 in *. rewrite Z.mod_small; lia. }
    assert (obj_region (w64 (b + TCB_OFFSET) - TCB_OFFSET) seL4_TCBBits) as Hr' by by rewrite E.
    split; [done |]. split; [done |]. split; [done |]. split; [|done]. etrans; [by apply tcb_base | exact E].
  - injection Hg as <-. by split_and!.
  - injection Hg as <-. by split_and!.
  - destruct (Hc eq_refl) as [-> Hu1]. unfold seL4_SlotBits, seL4_MaxUntypedBits in *. split; [done |]. split; [|split; [done |]].
    + simpl. unfold wordBits, seL4_SlotBits. split; [lia |]. split; [lia |]. split; [lia |]. split; [done |]. done.
    + split; [done |]. simpl. unfold w64, seL4_SlotBits. rewrite Z.mod_small; lia.
  - injection Hg as <-. by split_and!.
  - injection Hg as <-. by split_and!.
  - injection Hg as <-. by split_and!.
  - injection Hg as <-. by split_and!.
  - injection Hg as <-. by split_and!.
  - injection Hg as <-. by split_and!.
  - injection Hg as <-. by split_and!.
Qed.

Section Create.
Context `{C : KConfig}.

Lemma createObject_ok k t b u dev sz : 0 <= t < seL4_ObjectTypeCount -> size_ok t u sz -> obj_region b sz ->
  wp (createObject t b u dev) (fun c k' => c = object_cap t b u dev /\ adds_slots b (b + 2 ^ sz) (k_cte k) (k_cte k')) (fun _ => False) k.
Proof.
  intros Ht (Hg & Hsz & Hu & Hc & Hun) (Hb & H0 & Hal & Hw).
  assert (forall k', k_cte k' = k_cte k -> adds_slots b (b + 2 ^ sz) (k_cte k) (k_cte k')) as Hsame by (intros k' -> p; by left).
  assert (forall m n, Z.of_nat n * 32 <= 2 ^ sz -> adds_slots b (b + 2 ^ sz) m (new_slots b n m)) as Hnew.
  { intros m n Hn p. destruct (new_slots_adds b n m H0 ltac:(lia) p) as [?|[? ?]]; [by left |]. right. split; [lia | done]. }
  destruct (object_types t Ht) as [->|[->|[->|[->|[->|[->|[->|[->|[->|[->|[->| ->]]]]]]]]]]];
    try (split; [done | by apply Hsame]).
  - injection Hg as <-. split; [done |]. apply Hnew. done.
  - destruct (Hc eq_refl) as [-> _]. split; [done |]. apply Hnew. rewrite Z2Nat.id by lia.
    rewrite Z.pow_add_r by (unfold seL4_SlotBits; lia). done.
Qed.

(** One round of the loop. *)
Record created_one (b sz parent s : Z) (c : cap) (L : list (list Z)) (k k' : kstate) : Prop := {
  co_mdb : mdb_ok (map (insert_after parent s) L) k';
  co_caps : forall p, cap_at k' p = put (cap_at k) s c p;
  co_dom : forall p, is_Some (k_cte k !! p) -> is_Some (k_cte k' !! p);
  co_out : forall p, ~ b <= p < b + 2 ^ sz -> is_Some (k_cte k' !! p) <-> is_Some (k_cte k !! p) }.

Lemma create_one_ok t b u dev sz parent s k L : mdb_ok L k -> 0 <= t < seL4_ObjectTypeCount -> size_ok t u sz ->
  0 < b -> obj_region b sz -> no_slots b (b + 2 ^ sz) (k_cte k) ->
  is_Some (k_cte k !! parent) -> is_null (cap_at k parent) = false -> is_Some (k_cte k !! s) -> cap_at k s = cap_null_cap ->
  wp (let* c := createObject t b u dev in insertNewCap parent s c)
    (fun _ k' => created_one b sz parent s (object_cap t b u dev) L k k') (fun _ => False) k.
Proof.
  intros Hk Ht Hsz Hb Hr Hno Hp Hpn Hs Hsn. wp_step.
  eapply wp_mono; [by apply (createObject_ok k t _ u dev sz) | | done]. intros c k1 [-> Hadd].
  pose proof (adds_mdb L k k1 b _ Hk Hb Hadd Hno) as Hk1.
  pose proof (fun p => adds_cap k _ _ _ p Hadd Hno) as Hc1. change (forall p, cap_at k1 p = cap_at k p) in Hc1.
  assert (forall p, is_Some (k_cte k !! p) -> is_Some (k_cte k1 !! p)) as Hd.
  { intros p. destruct (Hadd p) as [->|[Hin _]]; [done |]. by rewrite (Hno p Hin). }
  destruct (object_cap_occupies t b u dev sz Ht Hsz Hr) as (Hn & _).
  eapply wp_mono; [apply (insertNewCap_ok L k1); auto; rewrite ?Hc1, ?Hsn; done | | done].
  intros _ k2 [H1 H2 _ H4 _]. split; [done | | |].
  - intros p. rewrite H2. unfold put. case_decide; [done | apply Hc1].
  - intros p Hx. apply H4. auto.
  - intros p Hx. rewrite H4. destruct (Hadd p) as [->|[? _]]; [done | lia].
Qed.

(** The objects of a retype: [n] of them from the [i]th place from [base] on,
    into the slots from [off] on of the CNode at [cnode]. *)
Definition dest (cnode off j : Z) : Z := cnode + (off + j) * 32.
Record created (t u base sz : Z) (dev : bool) (parent cnode off i n : Z) (L : list (list Z)) (k k' : kstate) : Prop := {
  cr_mdb : mdb_ok (map (fun xs => fold_left (fun xs j => insert_after parent (dest cnode off j) xs) (seqZ i n) xs) L) k';
  cr_new : forall j, i <= j < i + n -> cap_at k' (dest cnode off j) = object_cap t (base + j * 2 ^ sz) u dev;
  cr_old : forall p, (forall j, i <= j < i + n -> p <> dest cnode off j) -> cap_at k' p = cap_at k p;
  cr_dom : forall p, is_Some (k_cte k !! p) -> is_Some (k_cte k' !! p) }.

Lemma created_step t u base sz dev parent cnode off i n L k k1 k2 : 0 <= n ->
  created_one (base + i * 2 ^ sz) sz parent (dest cnode off i) (object_cap t (base + i * 2 ^ sz) u dev) L k k1 ->
  created t u base sz dev parent cnode off (i + 1) n (map (insert_after parent (dest cnode off i)) L) k1 k2 ->
  created t u base sz dev parent cnode off i (1 + n) L k k2.
Proof.
  intros Hn [A1 A2 A3 A4] [B1 B2 B3 B4]. unfold dest in *. split.
  - rewrite seqZ_cons by lia. simpl. rewrite map_map in B1. replace (Z.pred (1 + n)) with n by lia. exact B1.
  - intros j Hj. destruct (decide (j = i)) as [->|]; [|apply B2; lia].
    unfold dest. rewrite B3 by (intros j' Hj'; lia). by rewrite A2, put_eq.
  - intros p Hp. rewrite B3 by (intros j Hj; apply Hp; lia). rewrite A2. apply put_ne, Hp. lia.
  - intros p Hp. by apply B4, A3.
Qed.

Lemma create_loop_ok t parent s base u dev sz n i k L : mdb_ok L k -> 0 <= t < seL4_ObjectTypeCount -> size_ok t u sz ->
  0 < base -> base mod 2 ^ sz = 0 -> 0 <= i -> base + (i + Z.of_nat n) * 2 ^ sz <= 2 ^ 64 ->
  no_slots (base + i * 2 ^ sz) (base + (i + Z.of_nat n) * 2 ^ sz) (k_cte k) ->
  is_Some (k_cte k !! parent) -> is_null (cap_at k parent) = false ->
  (forall j, i <= j < i + Z.of_nat n -> slot_at (sr_cnode s) (w64 (sr_offset s + j)) = dest (sr_cnode s) (sr_offset s) j /\
     is_Some (k_cte k !! dest (sr_cnode s) (sr_offset s) j) /\ cap_at k (dest (sr_cnode s) (sr_offset s) j) = cap_null_cap) ->
  wp (create_loop t parent s base sz u dev i n)
    (fun _ k' => created t u base sz dev parent (sr_cnode s) (sr_offset s) i (Z.of_nat n) L k k') (fun _ => False) k.
Proof.
  intros Hk Ht Hsz Hb Hal. pose proof Hsz as (_ & Hszb & _). unfold seL4_MinUntypedBits, seL4_MaxUntypedBits in Hszb.
  assert (0 < 2 ^ sz) as Hpos by lia.
  revert i k L Hk. induction n as [|n IH]; intros i k L Hk Hi Hw Hno Hp Hpn Hsl; cbn [create_loop].
  { apply wp_ret. split; try done; [|intros j Hj; lia]. by rewrite map_id. }
  assert (0 <= i * 2 ^ sz) as Hi0 by nia.
  assert ((i + Z.of_nat (S n)) * 2 ^ sz = i * 2 ^ sz + 2 ^ sz + Z.of_nat n * 2 ^ sz) as En by lia.
  assert (0 <= Z.of_nat n * 2 ^ sz) as Hn0 by nia. rewrite En in *.
  assert (w64 (base + w64 (Z.shiftl i sz)) = base + i * 2 ^ sz) as ->.
  { rewrite Z.shiftl_mul_pow2 by lia. unfold w64. by rewrite (Z.mod_small (i * _)), Z.mod_small by lia. }
  assert (obj_region (base + i * 2 ^ sz) sz) as Hr.
  { split; [lia |]. split; [lia |]. split; [by rewrite Z.mod_add by lia | lia]. }
  destruct (Hsl i ltac:(lia)) as (-> & Hs & Hsn).
  rewrite <- bind_assoc_wp. wp_step.
  eapply wp_mono; [apply (create_one_ok t _ u dev sz parent _ k L); try done; [lia | intros p Hpp; apply Hno; lia] | | done].
  intros ? k1 Hone. pose proof Hone as [A1 A2 A3 A4]. assert (parent <> dest (sr_cnode s) (sr_offset s) i) as Hne.
  { intros E. by rewrite E, Hsn in Hpn. }
  eapply wp_mono; [apply (IH (i + 1) k1); [exact A1 | lia | | | auto | by rewrite A2, put_ne | ] | | done].
  - replace ((i + 1 + Z.of_nat n) * 2 ^ sz) with (i * 2 ^ sz + 2 ^ sz + Z.of_nat n * 2 ^ sz) by lia. lia.
  - intros p Hpp. apply eq_None_not_Some. rewrite A4 by lia. apply eq_None_not_Some, Hno. lia.
  - intros j Hj. destruct (Hsl j ltac:(lia)) as (? & ? & ?). split; [done |]. split; [auto |].
    rewrite A2, put_ne; [done |]. unfold dest. lia.
  - intros ? k2 H2. replace (Z.of_nat (S n)) with (1 + Z.of_nat n) by lia. eapply created_step; [lia | exact Hone | exact H2].
Qed.
End Create.

(** ** Clearing a block *)

(** What is in memory at an address. *)
Definition mem_at (k : kstate) (a : Z) := (k_tcb k !! a, k_cte k !! a, k_ep k !! a, k_ntfn k !! a, k_word k !! a).
Definition empty_at (k : kstate) (a : Z) : Prop := mem_at k a = (None, None, None, None, None).

Lemma outside_lookup {A} base bits (m : gmap Z A) a :
  outside base bits m !! a = if decide (in_block base bits a) then None else m !! a.
Proof.
  unfold outside. destruct (decide (in_block base bits a)) as [Hin|Hin].
  - apply map_lookup_filter_None. right. intros x _ Hx. by apply Hx.
  - destruct (m !! a) as [x|] eqn:E; [by apply map_lookup_filter_Some_2 |]. apply map_lookup_filter_None. by left.
Qed.

Lemma wp_clear_memory k base bits (Q : unit -> kstate -> Prop) F :
  (forall k', (forall a, in_block base bits a -> empty_at k' a) ->
     (forall a, ~ in_block base bits a -> mem_at k' a = mem_at k a) -> Q tt k') ->
  wp (clear_memory base bits) Q F k.
Proof.
  intros HQ. unfold clear_memory, memzero, event. wp_steps. apply HQ; intros a Ha; unfold empty_at, mem_at; simpl;
    rewrite !outside_lookup; by destruct (decide _).
Qed.

Lemma wp_set_cap_mem k p e c (Q : unit -> kstate -> Prop) F : p <> 0 -> k_cte k !! p = Some e ->
  (forall k', k_cte k' !! p = Some (mkCte c (cteMDBNode e)) -> (forall a, a <> p -> mem_at k' a = mem_at k a) -> Q tt k') ->
  wp (set_cap p c) Q F k.
Proof.
  intros Hp He HQ. unfold set_cap, cte_upd. wp_step. eapply wp_cte_some; [done | exact He |]. wp_step.
  apply HQ; simpl; [by rewrite lookup_insert_eq |]. intros a Ha. unfold mem_at. simpl. by rewrite lookup_insert_ne.
Qed.

Section Reset.
Context `{P : KPlatform}.

Lemma wp_preemptionPoint k (Q : exception_t -> kstate -> Prop) F :
  (forall st k', st = EXCEPTION_NONE \/ st = EXCEPTION_PREEMPTED -> (forall a, mem_at k' a = mem_at k a) -> Q st k') ->
  wp preemptionPoint Q F k.
Proof.
  intros HQ. unfold preemptionPoint. wp_steps. destruct (_ >=? _); wp_steps; [|by apply HQ; [left |]].
  destruct (isIRQPending _); wp_step; apply HQ; auto.
Qed.

(** From [n] chunks down to [m]: they are empty, the index of [slot] says so, and
    the rest is as it was. *)
Record chunks_cleared (slot ptr m n : Z) (e : cte_t) (c : cap) (k k' : kstate) : Prop := {
  cc_slot : k_cte k' !! slot = Some (mkCte c (cteMDBNode e));
  cc_empty : forall a, ptr + m * 256 <= a < ptr + n * 256 -> empty_at k' a;
  cc_same : forall a, ~ ptr + m * 256 <= a < ptr + n * 256 -> a <> slot -> mem_at k' a = mem_at k a }.

Lemma chunks_trans slot ptr m n q e c1 c2 k k1 k2 : m <= n <= q -> ~ ptr + m * 256 <= slot < ptr + q * 256 ->
  chunks_cleared slot ptr n q e c1 k k1 -> chunks_cleared slot ptr m n (mkCte c1 (cteMDBNode e)) c2 k1 k2 ->
  chunks_cleared slot ptr m q e c2 k k2.
Proof.
  intros Hm Hs [A1 A2 A3] [B1 B2 B3]. split; [done | |].
  - intros a Ha. destruct (decide (a < ptr + n * 256)); [apply B2; lia |].
    unfold empty_at. rewrite B3; [apply A2 | | intros ->]; lia.
  - intros a Ha Hne. rewrite B3, A3; try done; lia.
Qed.

Lemma reset_round_ok slot fi dev bs ptr n k e : slot <> 0 -> k_cte k !! slot = Some e -> 0 <= ptr ->
  ptr + (Z.of_nat n + 1) * 256 <= 2 ^ 64 -> ~ ptr + Z.of_nat n * 256 <= slot < ptr + (Z.of_nat n + 1) * 256 ->
  wp (reset_round slot (cap_untyped_cap fi dev bs ptr) ptr n)
    (fun st k' => (st = EXCEPTION_NONE \/ st = EXCEPTION_PREEMPTED) /\
       chunks_cleared slot ptr (Z.of_nat n) (Z.of_nat n + 1) e (cap_untyped_cap (Z.of_nat n * 16) dev bs ptr) k k') (fun _ => False) k.
Proof.
  intros H0 He Hp Hw Hs. unfold reset_round. cbv zeta. change (BIT CONFIG_RESET_CHUNK_BITS) with 256. change CONFIG_RESET_CHUNK_BITS with 8.
  assert (GET_OFFSET_FREE_PTR ptr (Z.of_nat n * 256) = ptr + Z.of_nat n * 256) as -> by (apply Z.mod_small; lia).
  assert (OFFSET_TO_FREE_INDEX (Z.of_nat n * 256) = Z.of_nat n * 16) as ->.
  { unfold OFFSET_TO_FREE_INDEX. rewrite Z.shiftr_div_pow2 by (unfold seL4_MinUntypedBits; lia).
    change (2 ^ seL4_MinUntypedBits) with 16. lia. }
  wp_step. apply wp_clear_memory. intros k1 C1 C2. cbn [untyped_set_free]. wp_step. wp_step. wp_step.
  unfold in_block in C1, C2. change (2 ^ 8) with 256 in C1, C2.
  assert (k_cte k1 !! slot = Some e) as He1. { pose proof (C2 slot ltac:(lia)) as E. unfold mem_at in E. congruence. }
  eapply wp_set_cap_mem; [done | exact He1 |]. intros k2 S1 S2. apply wp_preemptionPoint. intros st k3 Hst Hm.
  split; [done |]. split.
  - pose proof (Hm slot) as E. unfold mem_at in E. congruence.
  - intros a Ha. unfold empty_at. rewrite Hm, S2 by lia. apply C1. lia.
  - intros a Ha Hne. rewrite Hm, S2 by done. apply C2. lia.
Qed.

Lemma reset_loop_ok slot fi dev bs ptr n k e : slot <> 0 -> k_cte k !! slot = Some e -> 0 <= ptr ->
  ptr + (Z.of_nat n + 1) * 256 <= 2 ^ 64 -> ~ ptr <= slot < ptr + (Z.of_nat n + 1) * 256 ->
  wp (reset_loop slot (cap_untyped_cap fi dev bs ptr) ptr (S n))
    (fun st k' => exists m, 0 <= m <= Z.of_nat n /\ (st = EXCEPTION_NONE /\ m = 0 \/ st = EXCEPTION_PREEMPTED) /\
       chunks_cleared slot ptr m (Z.of_nat n + 1) e (cap_untyped_cap (m * 16) dev bs ptr) k k') (fun _ => False) k.
Proof.
  intros H0 He Hp. revert k e He. induction n as [|n IH]; intros k e He Hw Hs.
  - cbn [reset_loop]. wp_step. eapply wp_mono; [apply (reset_round_ok slot fi dev bs ptr 0 k e); done || lia | | done].
    intros st k1 [[->| ->] Hc]; simpl; exists 0; (split; [lia |]); eauto.
  - cbn [reset_loop]. wp_step. eapply wp_mono; [apply (reset_round_ok slot fi dev bs ptr (S n) k e); done || lia | | done].
    intros st k1 [[->| ->] Hc].
    + rewrite bool_decide_true by done. cbn [negb]. pose proof Hc as [A1 _ _].
      eapply wp_mono; [apply (IH k1 _ A1); lia | | done]. intros st k2 (m & Hm & Hst & Hc2). exists m.
      split; [lia |]. split; [done |]. replace (Z.of_nat n + 1) with (Z.of_nat (S n)) in Hc2 by lia.
      eapply (chunks_trans slot ptr m (Z.of_nat (S n))); [lia | | exact Hc | exact Hc2]. nia.
    + exists (Z.of_nat (S n)). split; [lia |]. split; [by right | done].
Qed.

(** A reset that got as far as the free index [fi']. *)
Record reset_to (slot fi bs ptr fi' : Z) (dev : bool) (e : cte_t) (k k' : kstate) : Prop := {
  rt_index : 0 <= fi' <= fi;
  rt_slot : k_cte k' !! slot = Some (mkCte (cap_untyped_cap fi' dev bs ptr) (cteMDBNode e));
  rt_empty : dev = false -> forall a, ptr + fi' * 16 <= a < ptr + fi * 16 -> empty_at k' a;
  rt_only : forall a, a <> slot -> mem_at k' a = mem_at k a \/ empty_at k' a;
  rt_same : forall a, ~ ptr <= a < ptr + 2 ^ bs -> a <> slot -> mem_at k' a = mem_at k a }.

Lemma resetUntypedCap_ok slot fi dev bs ptr k e : slot <> 0 -> k_cte k !! slot = Some e ->
  cte_cap e = cap_untyped_cap fi dev bs ptr -> cap_wf (cte_cap e) -> ~ ptr <= slot < ptr + 2 ^ bs ->
  wp (resetUntypedCap slot) (fun st k' => exists fi', reset_to slot fi bs ptr fi' dev e k k' /\
      (st = EXCEPTION_NONE /\ fi' = 0 \/ st = EXCEPTION_PREEMPTED /\ fi' < fi)) (fun _ => False) k.
Proof.
  intros H0 He Ec Hwf Hs. rewrite Ec in Hwf. destruct Hwf as (Hbs & Hfi & (Hb & Hp & Hal & Hw)).
  unfold seL4_MinUntypedBits, seL4_MaxUntypedBits in Hbs. destruct (free_offset fi bs Hbs Hfi) as [Eo Ho].
  unfold resetUntypedCap. wp_step. eapply wp_cte_some; [done | exact He |]. rewrite Ec. cbv zeta. rewrite Eo.
  destruct (fi * 16 =? 0) eqn:E0; [apply Z.eqb_eq in E0 | apply Z.eqb_neq in E0].
  { apply wp_ret. exists 0. assert (fi = 0) as -> by lia. split; [|by left]. split; [lia | | lia | by left | done].
    rewrite He. destruct e as [c' m]. simpl in *. by rewrite Ec. }
  destruct (dev || (bs <? CONFIG_RESET_CHUNK_BITS)) eqn:E1.
  - assert (forall k1, (dev = false -> forall a, in_block ptr bs a -> empty_at k1 a) ->
      (forall a, ~ in_block ptr bs a -> mem_at k1 a = mem_at k a) -> (forall a, mem_at k1 a = mem_at k a \/ empty_at k1 a) ->
      wp (let* c := untyped_set_free (cap_untyped_cap fi dev bs ptr) 0 in do* set_cap slot c in ret EXCEPTION_NONE)
        (fun st k' => exists fi', reset_to slot fi bs ptr fi' dev e k k' /\
           (st = EXCEPTION_NONE /\ fi' = 0 \/ st = EXCEPTION_PREEMPTED /\ fi' < fi)) (fun _ => False) k1) as Hset.
    { intros k1 C1 C2 C3. assert (k_cte k1 !! slot = Some e) as He1 by (pose proof (C2 slot Hs) as E; unfold mem_at in E; congruence).
      wp_step. cbn [untyped_set_free]. wp_step. wp_step. eapply wp_set_cap_mem; [done | exact He1 |]. intros k2 S1 S2. wp_step. exists 0.
      split; [|by left]. unfold in_block in *. split; [lia | done | | |].
      - intros Hd a Ha. unfold empty_at. rewrite S2 by lia. apply C1; [done | lia].
      - intros a Hne. unfold empty_at. rewrite S2 by done. apply C3.
      - intros a Ha Hne. rewrite S2 by done. by apply C2. }
    wp_step. destruct dev; cbn [negb]; [wp_step; apply Hset; [done | done | by left] |]. apply wp_clear_memory. intros k1 C1 C2. apply Hset; [auto | done |].
    intros a. destruct (decide (in_block ptr bs a)); auto.
  - apply orb_false_iff in E1 as [-> E1]. apply Z.ltb_ge in E1. unfold CONFIG_RESET_CHUNK_BITS in E1 |- *.
    rewrite Z.shiftr_div_pow2 by lia. change (2 ^ 8) with 256. set (n := (fi * 16 - 1) / 256). assert (0 <= n) by lia.
    assert (exists q, 2 ^ bs = q * 256) as [q Eq].
    { exists (2 ^ (bs - 8)). change 256 with (2 ^ 8). rewrite <- Z.pow_add_r by lia. f_equal. lia. }
    assert ((n + 1) * 256 <= 2 ^ bs) as Hn by lia.
    eapply wp_mono; [apply (reset_loop_ok slot fi false bs ptr (Z.to_nat n) k e); rewrite ?Z2Nat.id by lia; done || lia | | done].
    intros st k' (m & Hm & Hst & [A1 A2 A3]). rewrite Z2Nat.id in * by lia. exists (m * 16). split.
    + split; [lia | done | | |].
      * intros _ a Ha. apply A2. lia.
      * intros a Hne. destruct (decide (ptr + m * 256 <= a < ptr + (n + 1) * 256)); auto.
      * intros a Ha Hne. apply A3; [lia | done].
    + destruct Hst as [[-> ->]| ->]; [by left | right]. split; [done | lia].
Qed.

(** C39: Clearing an untyped block for reuse can be interrupted after every chunk
    of 256 bytes, and always makes progress: it finishes with the free index
    at 0, or stops with a smaller index than it found, so that restarting it a
    bounded number of times finishes. At either point everything from the
    recorded index up to the old one is empty, and nothing outside the block has
    changed but the index itself. *)
Theorem reset_progress (slot fi bs ptr : Z) (dev : bool) (k : kstate) (e : cte_t) :
  slot <> 0 -> k_cte k !! slot = Some e -> cte_cap e = cap_untyped_cap fi dev bs ptr -> cap_wf (cte_cap e) ->
  ~ ptr <= slot < ptr + 2 ^ bs ->
  wp (resetUntypedCap slot) (fun st k' => exists fi', reset_to slot fi bs ptr fi' dev e k k' /\
      (st = EXCEPTION_NONE /\ fi' = 0 \/ st = EXCEPTION_PREEMPTED /\ fi' < fi)) (fun _ => False) k.
Proof. apply resetUntypedCap_ok. Qed.
End Reset.

(** ** The whole retype *)

(** Only the capability in [slot] differs among the slots. *)
Definition recap (slot : Z) (e : cte_t) (c : cap) (m m' : gmap Z cte_t) : Prop :=
  m !! slot = Some e /\ m' !! slot = Some (mkCte c (cteMDBNode e)) /\ forall p, p <> slot -> m' !! p = m !! p.

Lemma recap_trans slot e c1 c2 m m1 m2 : recap slot e c1 m m1 -> recap slot (mkCte c1 (cteMDBNode e)) c2 m1 m2 -> recap slot e c2 m m2.
Proof. intros (A1 & A2 & A3) (B1 & B2 & B3). split; [done |]. split; [done |]. intros p Hp. by rewrite B3, A3. Qed.

Lemma recap_refl slot e m : m !! slot = Some e -> recap slot e (cte_cap e) m m.
Proof. intros He. split; [done |]. split; [|done]. by destruct e. Qed.

Lemma recap_cap slot e c k k' p : recap slot e c (k_cte k) (k_cte k') -> cap_at k' p = put (cap_at k) slot c p.
Proof.
  intros (A1 & A2 & A3). unfold cap_at, put. case_decide as E; [subst p; by rewrite A2 | by rewrite A3].
Qed.

Lemma recap_dom slot e c m m' p : recap slot e c m m' -> is_Some (m' !! p) <-> is_Some (m !! p).
Proof. intros (A1 & A2 & A3). destruct (decide (p = slot)) as [->|]; [by rewrite A1, A2 | by rewrite A3]. Qed.

Lemma recap_mdb L slot e c k k' : mdb_ok L k -> recap slot e c (k_cte k) (k_cte k') -> is_null c = is_null (cte_cap e) -> mdb_ok L k'.
Proof.
  intros [H1 H2 H3 H4 H5 H6] Hr Hn. pose proof (fun p => recap_dom _ _ _ _ _ p Hr) as Hd. pose proof (fun p => recap_cap _ _ _ _ _ p Hr) as Hc.
  destruct Hr as (A1 & A2 & A3).
  assert (forall p, mn k' p = mn k p /\ mp k' p = mp k p) as Heq.
  { intros p. unfold mn, mp. destruct (decide (p = slot)) as [->|]; [by rewrite A1, A2 | by rewrite A3]. }
  split; [|done | | | |].
  - eapply list.Forall_impl; [exact H1 |]. intros xs Hx. eapply dseg_ext; [|exact Hx]. intros x _. apply Heq.
  - intros p Hp. by apply Hd, H3.
  - intros p Hp. by apply H4, Hd.
  - intros p Hp. destruct (Heq p) as (-> & ->). by apply H5.
  - intros p Hp. rewrite H6 by by apply Hd. rewrite Hc. unfold put. case_decide as E; [|done]. subst p. rewrite Hn. unfold cap_at. by rewrite A1.
Qed.

Lemma mem_cte k k' a : mem_at k' a = mem_at k a -> k_cte k' !! a = k_cte k !! a.
Proof. unfold mem_at. congruence. Qed.

(** A finished or interrupted reset of a block without slots. *)
Lemma reset_recap slot fi bs ptr fi' dev e k k' : k_cte k !! slot = Some e -> no_slots ptr (ptr + 2 ^ bs) (k_cte k) ->
  reset_to slot fi bs ptr fi' dev e k k' -> recap slot e (cap_untyped_cap fi' dev bs ptr) (k_cte k) (k_cte k').
Proof.
  intros He Hno [_ H2 _ H3 H4]. split; [done |]. split; [done |]. intros p Hp.
  destruct (decide (ptr <= p < ptr + 2 ^ bs)) as [Hb|Hb]; [|by apply mem_cte, H4].
  destruct (H3 p Hp) as [E|E]; [by apply mem_cte |]. unfold empty_at, mem_at in E. rewrite (Hno p Hb). congruence.
Qed.

(** What the block must be like: no slots beyond its free index, and none at all
    if nothing was derived from it; and it does not hold its own slot. *)
Record block_ok (k : kstate) (slot : Z) (c : cap) : Prop := {
  bo_pos : 0 < free_from c true;
  bo_slot : ~ free_from c true <= slot < block_end c;
  bo_free : no_slots (free_from c (negb (has_child k slot))) (block_end c) (k_cte k) }.

(** The slots of a window under changes elsewhere. *)
Lemma window_dest k k' slot e c w : window_ok k w -> recap slot e c (k_cte k) (k_cte k') -> is_null (cte_cap e) = false ->
  forall j, 0 <= j < sr_length w -> slot_at (sr_cnode w) (w64 (sr_offset w + j)) = dest (sr_cnode w) (sr_offset w) j /\
    is_Some (k_cte k' !! dest (sr_cnode w) (sr_offset w) j) /\ cap_at k' (dest (sr_cnode w) (sr_offset w) j) = cap_null_cap.
Proof.
  intros (_ & _ & Hw) Hr Hn j Hj. destruct (Hw j Hj) as (E & e' & He' & Hc). unfold dest. split; [done |].
  rewrite (recap_dom slot e c (k_cte k)), (recap_cap slot e c k), He' by done. split; [done |].
  rewrite put_ne; [unfold cap_at; by rewrite He' |]. intros E2. destruct Hr as (A1 & _). rewrite E2, A1 in He'. injection He' as <-.
  by rewrite Hc in Hn.
Qed.

(** The result: new capabilities to consecutive objects in empty slots, the index
    of the untyped capability moved behind them, everything else unchanged. *)
Record retyped (L : list (list Z)) (slot : Z) (p : retype_plan) (sz : Z) (k k' : kstate) : Prop := {
  re_mdb : mdb_ok (map (fun xs => fold_left (fun xs j => insert_after slot (dest (sr_cnode (rp_slots p)) (sr_offset (rp_slots p)) j) xs)
                          (seqZ 0 (sr_length (rp_slots p))) xs) L) k';
  re_new : forall j, 0 <= j < sr_length (rp_slots p) ->
    cap_at k' (dest (sr_cnode (rp_slots p)) (sr_offset (rp_slots p)) j) =
      object_cap (rp_type p) (rp_base p + j * 2 ^ sz) (rp_size p) (rp_device p) /\
    occupies (cap_at k' (dest (sr_cnode (rp_slots p)) (sr_offset (rp_slots p)) j)) (rp_base p + j * 2 ^ sz) sz;
  re_free : cap_wf (cap_at k' slot) /\ free_from (cap_at k' slot) false = rp_base p + sr_length (rp_slots p) * 2 ^ sz /\
    block_end (cap_at k' slot) = block_end (cap_at k slot);
  re_old : forall q, q <> slot -> (forall j, 0 <= j < sr_length (rp_slots p) -> q <> dest (sr_cnode (rp_slots p)) (sr_offset (rp_slots p)) j) ->
    cap_at k' q = cap_at k q }.

Lemma w64_sub_l x y : w64 (w64 x - y) = w64 (x - y).
Proof. unfold w64. by rewrite Zminus_mod_idemp_l. Qed.

(** The index written back is exact. *)
Lemma new_index ptr bs base n sz : 4 <= sz <= bs -> bs <= 47 -> 0 < ptr -> ptr mod 2 ^ bs = 0 -> ptr + 2 ^ bs <= 2 ^ 64 ->
  base mod 2 ^ sz = 0 -> ptr <= base -> 0 <= n -> base + n * 2 ^ sz <= ptr + 2 ^ bs ->
  let fi := GET_FREE_INDEX ptr (w64 (base + w64 (Z.shiftl n sz))) in
  0 <= fi <= MAX_FREE_INDEX bs /\ ptr + fi * 16 = base + n * 2 ^ sz.
Proof.
  intros Hsz Hbs Hp Hal Hw Hb Hle Hn Hend. cbv zeta. assert (0 < 2 ^ sz) as Hpos by lia. assert (0 <= n * 2 ^ sz) by nia.
  assert (2 ^ bs <= 2 ^ 47) by (apply Z.pow_le_mono_r; lia).
  rewrite Z.shiftl_mul_pow2 by lia. unfold GET_FREE_INDEX. rewrite w64_sub_l.
  assert (w64 (n * 2 ^ sz) = n * 2 ^ sz) as -> by (apply Z.mod_small; lia).
  assert (w64 (base + n * 2 ^ sz - ptr) = base + n * 2 ^ sz - ptr) as -> by (apply Z.mod_small; lia).
  rewrite Z.shiftr_div_pow2 by (unfold seL4_MinUntypedBits; lia). change (2 ^ seL4_MinUntypedBits) with 16.
  assert (2 ^ sz = 2 ^ (sz - 4) * 16) as Es by (change 16 with (2 ^ 4); rewrite <- Z.pow_add_r by lia; f_equal; lia).
  assert (2 ^ bs = 2 ^ (bs - 4) * 16) as Eb by (change 16 with (2 ^ 4); rewrite <- Z.pow_add_r by lia; f_equal; lia).
  assert (exists q, base + n * 2 ^ sz - ptr = q * 16) as [q Eq].
  { apply Z.mod_divide in Hb as [x ->], Hal as [y ->]; [|lia..]. exists (x * 2 ^ (sz - 4) + n * 2 ^ (sz - 4) - y * 2 ^ (bs - 4)). lia. }
  rewrite Eq, Z.div_mul by done. unfold MAX_FREE_INDEX, seL4_MinUntypedBits. rewrite BIT_pow by lia. lia.
Qed.

Section Retype.
Context `{C : KConfig} `{P : KPlatform}.

(** The state after the loop, seen from the state before the call. *)
Lemma created_retyped L k k2 k3 slot e fi' fi dev bs ptr p sz :
  let n := sr_length (rp_slots p) in let base := rp_base p in let w := rp_slots p in
  0 <= n -> 4 <= sz <= 47 -> 4 <= bs <= 47 -> obj_region ptr bs -> ptr <= base -> base mod 2 ^ sz = 0 ->
  base + n * 2 ^ sz <= ptr + 2 ^ bs -> 0 <= fi' <= MAX_FREE_INDEX bs -> ptr + fi' * 16 = base + n * 2 ^ sz ->
  0 <= rp_type p < seL4_ObjectTypeCount -> size_ok (rp_type p) (rp_size p) sz -> window_ok k w ->
  cte_cap e = cap_untyped_cap fi dev bs ptr -> recap slot e (cap_untyped_cap fi' dev bs ptr) (k_cte k) (k_cte k2) ->
  created (rp_type p) (rp_size p) base sz (rp_device p) slot (sr_cnode w) (sr_offset w) 0 n L k2 k3 ->
  retyped L slot p sz k k3.
Proof.
  intros n base w Hn Hsz Hbs Hobj Hle Hal Hend Hfi' Eidx Ht Hs Hwin Ec Hr [B1 B2 B3 B4].
  pose proof Hobj as (_ & Hp & _ & Hw). assert (0 < 2 ^ sz) as Hpw by lia. pose proof Hr as (A1 & A2 & A3).
  assert (forall j, 0 <= j < n -> slot <> dest (sr_cnode w) (sr_offset w) j) as Hsd.
  { intros j Hj E. destruct (window_dest k k2 slot e _ _ Hwin Hr ltac:(by rewrite Ec) j Hj) as (_ & _ & Hx).
    rewrite <- E in Hx. unfold cap_at in Hx. by rewrite A2 in Hx. }
  assert (cap_at k3 slot = cap_untyped_cap fi' dev bs ptr) as Es.
  { rewrite B3 by (intros; apply Hsd; lia). unfold cap_at. by rewrite A2. }
  split; fold n base w.
  - exact B1.
  - intros j Hj. rewrite (B2 j) by lia. split; [done |]. apply object_cap_occupies; [done | done |]. split; [lia |].
    assert (0 <= j * 2 ^ sz) by nia. assert ((j + 1) * 2 ^ sz <= n * 2 ^ sz) by nia.
    split; [lia |]. split; [by rewrite Z.mod_add by lia | lia].
  - rewrite Es. split; [by split |]. split; [exact Eidx |]. unfold cap_at. rewrite A1. simpl. by rewrite Ec.
  - intros q Hq Hqd. rewrite B3 by (intros; apply Hqd; lia). rewrite (recap_cap slot e (cap_untyped_cap fi' dev bs ptr) k) by done.
    by apply put_ne.
Qed.

Lemma retype_advance_ok L k k1 slot e fi1 fi dev bs ptr p sz : mdb_ok L k -> plan_ok k slot (cap_untyped_cap fi dev bs ptr) p sz ->
  cap_wf (cap_untyped_cap fi dev bs ptr) -> block_ok k slot (cap_untyped_cap fi dev bs ptr) ->
  cte_cap e = cap_untyped_cap fi dev bs ptr -> recap slot e (cap_untyped_cap fi1 dev bs ptr) (k_cte k) (k_cte k1) ->
  wp (retype_advance slot ptr (rp_base p) (rp_type p) (rp_size p) (rp_slots p) (rp_device p))
    (fun st k' => st = EXCEPTION_NONE /\ retyped L slot p sz k k') (fun _ => False) k1.
Proof.
  intros Hk Hpl Hwf Hbl Ec Hr. destruct Hpl as [Hsz Ht Hwin Hres Hal Haf Hin Hdev _]. destruct Hbl as [Hpos Hsl Hno].
  pose proof Hwf as (Hbs & Hfi & (Hb & Hp & Hpal & Hw)). unfold seL4_MinUntypedBits, seL4_MaxUntypedBits in Hbs. simpl in *.
  pose proof Hsz as (Hg & Hszb & _). unfold seL4_MinUntypedBits, seL4_MaxUntypedBits in Hszb. pose proof (proj1 Hwin) as Hn.
  assert (slot <> 0) as H0 by (apply (mo_nonzero _ _ Hk); destruct Hr as (-> & _); done).
  set (n := sr_length (rp_slots p)) in *. set (base := rp_base p) in *.
  assert (ptr <= base) as Hle by (destruct (rp_reset p); lia). assert (0 < 2 ^ sz) as Hpw by lia.
  assert (2 ^ sz <= n * 2 ^ sz) by nia. assert (sz <= bs) as Hsb by (apply (Z.pow_le_mono_r_iff 2); lia).
  destruct (new_index ptr bs base n sz) as [Hfi' Eidx]; [lia.. | done | done | done | done | lia | done |].
  set (fi' := GET_FREE_INDEX _ _) in *.
  unfold retype_advance. wp_step. wp_step. rewrite Hg. cbv zeta. fold n base fi'. wp_step.
  pose proof Hr as (A1 & A2 & A3). eapply wp_cte_some; [done | exact A2 |]. cbn [cte_cap untyped_set_free]. wp_step. wp_step. wp_step.
  eapply wp_set_cap_mem; [done | exact A2 |]. intros k2 S1 S2.
  assert (recap slot e (cap_untyped_cap fi' dev bs ptr) (k_cte k) (k_cte k2)) as Hr2.
  { eapply recap_trans; [exact Hr |]. split; [done |]. split; [done |]. intros q Hq. by apply mem_cte, S2. }
  assert (mdb_ok L k2) as Hk2 by (apply (recap_mdb L slot e (cap_untyped_cap fi' dev bs ptr) k k2); [done | done | by rewrite Ec]).
  unfold createNewObjects. wp_step. wp_step. wp_step. rewrite Hg. fold n.
  eapply wp_mono; [apply (create_loop_ok (rp_type p) slot (rp_slots p) base (rp_size p) (rp_device p) sz (Z.to_nat n) 0 k2 L) | | done];
    rewrite ?Z2Nat.id by lia; try (done || lia).
  - intros q Hq. apply eq_None_not_Some. rewrite (recap_dom slot e (cap_untyped_cap fi' dev bs ptr) (k_cte k)) by done.
    apply eq_None_not_Some, Hno.
    rewrite <- Hres. lia.
  - unfold cap_at. by rewrite S1.
  - intros j Hj. apply (window_dest k k2 slot e (cap_untyped_cap fi' dev bs ptr)); [done | done | by rewrite Ec | fold n; lia].
  - intros ? k3 Hcr. wp_step. split; [done |]. apply (created_retyped L k k2 k3 slot e fi' fi dev bs ptr p sz); try done; lia.
Qed.

Lemma set_restart_ok k t : t <> 0 -> is_Some (k_tcb k !! t) ->
  wp (setThreadState t ThreadState_Restart) (fun _ k' => k_cte k' = k_cte k) (fun _ => False) k.
Proof.
  intros H0 [x Hx]. unfold setThreadState, scheduleTCB, isRunnable. wp_steps. eapply wp_tcb_upd; [done | done |]. wp_steps.
  destruct (_ && _); wp_steps; [|done]. eapply wp_tcb_get; [apply lookup_insert_eq | done |]. by wp_steps.
Qed.

(** What is left of an interrupted retype: some of the block is cleared. *)
Definition interrupted (slot : Z) (c : cap) (k k' : kstate) : Prop :=
  exists e fi fi' dev bs ptr, c = cap_untyped_cap fi dev bs ptr /\ 0 <= fi' < fi /\
    recap slot e (cap_untyped_cap fi' dev bs ptr) (k_cte k) (k_cte k').

Lemma invoke_retype_ok L k k1 slot c p sz : mdb_ok L k -> k_cte k1 = k_cte k -> cap_at k slot = c -> cap_get_capType c = 2 -> cap_wf c ->
  plan_ok k slot c p sz -> block_ok k slot c ->
  wp (invokeUntyped_Retype slot (rp_reset p) (rp_base p) (rp_type p) (rp_size p) (rp_slots p) (rp_device p))
    (fun st k' => (st = EXCEPTION_NONE /\ retyped L slot p sz k k') \/ (st = EXCEPTION_PREEMPTED /\ mdb_ok L k' /\ interrupted slot c k k'))
    (fun _ => False) k1.
Proof.
  intros Hk Ek Hc Ht Hwf Hpl Hbl. destruct c as [|fi dev bs ptr| | | | | | | | | | | | | | | |]; try done.
  assert (exists e, k_cte k !! slot = Some e /\ cte_cap e = cap_untyped_cap fi dev bs ptr) as (e & He & Ec).
  { unfold cap_at in Hc. destruct (k_cte k !! slot) as [e|]; [by exists e | done]. }
  pose proof (mo_nonzero _ _ Hk slot ltac:(by rewrite He)) as H0. pose proof Hbl as [B1 B2 B3]. simpl in B1, B2, B3.
  unfold invokeUntyped_Retype. wp_step. eapply wp_cte_some; [done | by rewrite Ek |]. rewrite Ec. cbn [cap_get_capPtr]. wp_step.
  assert (recap slot e (cte_cap e) (k_cte k) (k_cte k1)) as Hr1 by (rewrite Ek; by apply recap_refl).
  pose proof (po_reset _ _ _ _ _ Hpl) as Er. destruct (rp_reset p) eqn:Ereset.
  - eapply wp_mono; [apply (resetUntypedCap_ok slot fi dev bs ptr k1 e); [done | by rewrite Ek | done | by rewrite Ec | simpl; lia] | | done].
    rewrite <- Er in B3. intros st k2 (fi' & Hrt & Hst).
    assert (recap slot e (cap_untyped_cap fi' dev bs ptr) (k_cte k) (k_cte k2)) as Hr2.
    { eapply recap_trans; [exact Hr1 |]. destruct e as [c0 m0]. simpl in *. subst c0.
      apply (reset_recap slot fi bs ptr fi' dev _ k1); [by rewrite Ek | | exact Hrt]. rewrite Ek. by rewrite Z.add_0_r in B3. }
    destruct Hst as [[-> ->]|[-> Hlt]].
    + rewrite bool_decide_true by done. cbn [negb]. eapply wp_mono; [by eapply (retype_advance_ok L k k2 slot e 0 fi dev bs ptr) | | done]. by left.
    + rewrite bool_decide_false by done. cbn [negb]. wp_step. right. split; [done |].
      split; [apply (recap_mdb L slot e (cap_untyped_cap fi' dev bs ptr) k); [done | done | by rewrite Ec] |].
      exists e, fi, fi', dev, bs, ptr. destruct Hrt as [? _ _ _ _]. split; [done |]. split; [lia | done].
  - wp_step. rewrite bool_decide_true by done. cbn [negb]. rewrite Ec in Hr1.
    eapply wp_mono; [by eapply (retype_advance_ok L k k1 slot e fi fi dev bs ptr) | | done]. by left.
Qed.

(** C6: Retyping never faults, whatever the user passes, and has three outcomes.
    It reports an error and changes nothing else; or it was interrupted while
    clearing a block that nothing is derived from, with a smaller free index and
    the derivation tree intact; or it succeeds: each of the [n] destination
    slots holds a capability to its own object, the objects lie side by side in
    the part of the block that was free, each aligned to its size, the new
    capabilities follow the untyped one in the derivation list, its free index
    is exactly behind the last object, and every other capability of the system
    is as it was. *)
Theorem retype_ok (L : list (list Z)) (k : kstate) (label len slot : Z) (c : cap) (excaps : list Z) (call : bool) (buffer : Z) :
  retype_call L k len slot c excaps buffer -> block_ok k slot c ->
  wp (decodeUntypedInvocation label len slot c excaps call buffer) (fun st k' =>
      (st = EXCEPTION_SYSCALL_ERROR /\ same_but_errors k k') \/
      (st = EXCEPTION_PREEMPTED /\ mdb_ok L k' /\ interrupted slot c k k') \/
      (st = EXCEPTION_NONE /\ exists p sz, plan_ok k slot c p sz /\ retyped L slot p sz k k')) (fun _ => False) k.
Proof.
  intros Hcall Hbl. unfold decodeUntypedInvocation. wp_step.
  eapply wp_mono; [by apply (decode_ok L) | | done]. intros r k1 [Hk1 Hr]. destruct r as [st|p]; [left; by subst st |].
  destruct Hr as [sz Hpl]. destruct Hcall as [Hk Hs Hw [Hc H0] Hcap Ht Hwf _ _].
  pose proof (f_equal k_cte Hk1) as E1. pose proof (f_equal k_tcb Hk1) as E2. pose proof (f_equal ksCurThread Hk1) as E3. simpl in E1, E2, E3.
  wp_step. wp_step. wp_step. eapply wp_mono; [apply set_restart_ok; by rewrite ?E2, ?E3 | | done]. intros ? k2 E4. rewrite E1 in E4.
  eapply wp_mono; [by apply (invoke_retype_ok L k k2 slot c p sz) | | done].
  intros st k' [[-> Hre]|[-> Hin]]; [right; right; eauto | by right; left].
Qed.
End Retype.

(** ** A retype

    A CNode of four slots at 4096 holds the untyped capability to a block of
    4096 bytes at 65536, half of it cleared already, and the capability to the
    CNode; the caller asks for two endpoints in the other two slots. *)
Definition retype_slots : gmap Z cte_t :=
  <[4096 := mkCte (cap_untyped_cap 128 false 12 65536) nullMDBNode]> (<[4128 := mkCte (cap_cnode_cap 2 0 0 4096) nullMDBNode]>
  (<[4160 := empty_slot]> {[4192 := empty_slot]})).
Definition caller : tcb_t :=
  mkTcb {[2 := seL4_EndpointObject]} ThreadState_Running false 0 0 false false false 0 seL4_Fault_NullFault
    lookup_fault_invalid_root 0 0 0 5 0 0 0 0 0 0.
Definition demo_retype : kstate :=
  upd_k_word (fun _ => {[2088 := 2; 2096 := 2]}) (upd_k_cte (fun _ => retype_slots) (upd_k_tcb (fun _ => {[1024 := caller]})
    (upd_ksCurThread (fun _ => 1024) demo_cspace))).
Definition demo_untyped : cap := cap_untyped_cap 128 false 12 65536.

Lemma retype_slots_dom p : is_Some (retype_slots !! p) -> p = 4096 \/ p = 4128 \/ p = 4160 \/ p = 4192.
Proof. unfold retype_slots. rewrite !lookup_insert_is_Some, lookup_singleton_is_Some. naive_solver. Qed.

Lemma demo_retype_mdb : mdb_ok [[4096]; [4128]] demo_retype.
Proof.
  pose proof retype_slots_dom as Hd. split.
  - constructor; [|constructor; [|done]]; vm_compute; intuition congruence.
  - apply list.NoDup_cons. split; [set_solver | apply list.NoDup_singleton].
  - intros p. simpl. rewrite !list.elem_of_cons. intros [->|[->|Hp]]; [by eexists.. | by apply not_elem_of_nil in Hp].
  - intros p Hp. apply Hd in Hp. lia.
  - intros p Hp. destruct (k_cte demo_retype !! p) as [e|] eqn:E.
    + destruct (Hd p ltac:(by eexists)) as [->|[->|[->| ->]]]; done.
    + unfold mn, mp. by rewrite E.
  - intros p Hp. destruct (Hd p Hp) as [->|[->|[->| ->]]]; simpl; rewrite !list.elem_of_cons, list.elem_of_nil; unfold cap_at; cbn -[retype_slots]; vm_compute; intuition congruence.
Qed.

Lemma demo_retype_slots : slots_ok retype_slots.
Proof.
  assert (cnode_ok retype_slots (cap_cnode_cap 2 0 0 4096)) as Hc.
  { unfold cnode_ok, cap_wf, obj_region. split; [vm_compute; intuition congruence |]. split; [lia |]. split; [lia |].
    intros i Hi. change (2 ^ 2) with 4 in Hi. assert (i = 0 \/ i = 1 \/ i = 2 \/ i = 3) as [->|[->|[->| ->]]] by lia; vm_compute; eauto. }
  unfold slots_ok. unfold retype_slots at 2. repeat (apply map_Forall_insert_2; [first [exact I | exact Hc] |]). intros i x.
  by rewrite lookup_empty.
Qed.

Lemma demo_retype_call : retype_call [[4096]; [4128]] demo_retype 6 4096 demo_untyped [4128; 0; 0] 2048.
Proof.
  split.
  - exact demo_retype_mdb.
  - exact demo_retype_slots.
  - split; [|apply map_Forall_insert_2; [done |]]; intros i x; simpl; rewrite lookup_singleton_Some; intros [<- <-]; [|done].
    intros j w. simpl. rewrite lookup_singleton_Some. by intros [<- <-].
  - split; [by eexists | done].
  - done.
  - done.
  - unfold demo_untyped, cap_wf, obj_region. vm_compute. intuition congruence.
  - exists 4128. split; [done |]. intros _. by eexists.
  - done.
Qed.

Lemma demo_block_ok : block_ok demo_retype 4096 demo_untyped.
Proof.
  split; [done | simpl; lia |]. intros p Hp. simpl. apply eq_None_not_Some. intros Hx%retype_slots_dom.
  assert (free_from demo_untyped (negb (has_child demo_retype 4096)) = 65536) as E by done. rewrite E in Hp.
  change (block_end demo_untyped) with 69632 in Hp. lia.
Qed.

Lemma retype_ok_witness :
  wp (@decodeUntypedInvocation default_config quiet_platform 1 6 4096 demo_untyped [4128; 0; 0] true 2048) (fun st k' =>
      st = EXCEPTION_NONE /\ exists p sz, plan_ok demo_retype 4096 demo_untyped p sz /\ retyped [[4096]; [4128]] 4096 p sz demo_retype k')
    (fun _ => False) demo_retype.
Proof.
  pose proof (@retype_ok default_config quiet_platform [[4096]; [4128]] demo_retype 1 6 4096 demo_untyped [4128; 0; 0] true 2048
    demo_retype_call demo_block_ok) as H.
  unfold wp in *. destruct (decodeUntypedInvocation _ _ _ _ _ _ _ demo_retype) as [[st k']|f] eqn:E; [|done].
  assert (st = EXCEPTION_NONE) as -> by (revert E; vm_compute; congruence).
  clear E. destruct H as [[H _]|[[H _]|H]]; [discriminate H | discriminate H | exact H].
Defined.

Definition slot_4096 : cte_t := mkCte demo_untyped nullMDBNode.
Lemma reset_progress_witness :
  wp (@resetUntypedCap quiet_platform 4096) (fun st k' => exists fi', reset_to 4096 128 12 65536 fi' false slot_4096 demo_retype k' /\
      (st = EXCEPTION_NONE /\ fi' = 0 \/ st = EXCEPTION_PREEMPTED /\ fi' < 128)) (fun _ => False) demo_retype.
Proof.
  apply (@reset_progress quiet_platform 4096 128 12 65536 false demo_retype slot_4096).
  - done.
  - done.
  - done.
  - unfold slot_4096, demo_untyped, cap_wf, obj_region. vm_compute. intuition congruence.
  - change (2 ^ 12) with 4096. lia.
Defined.
