(* ===== verification/KInvokeThms.v ===== *)
(** * CNode invocations refine the abstract database

    What user level can do to slots with [decodeCNodeInvocation]
    (kernel/src/object/cnode.c): every argument is checked, an error changes
    nothing but the error report, and an accepted invocation performs operations
    that the abstract mapping database of KMdbRefine.v allows. *)

From S2P Require Import Prelude Dll KCaps KCapThms KState KSched KCspace KMdb KMsg KIpc KDelete KUntyped KInvoke.
From S2P Require Import KSchedInv KMdbThms KMdbRefine KUntypedThms.

(** ** The caller *)

(** The current thread is marked as restarted before anything is changed. *)
Definition restarting (k : kstate) : kstate :=
  match k_tcb k !! ksCurThread k with
  | Some x => upd_k_tcb (insert (ksCurThread k) (upd_tsType (fun _ => ThreadState_Restart) x)) k
  | None => k
  end.
Lemma wp_set_restart `{C : KConfig} k (Q : unit -> kstate -> Prop) F : is_Some (k_tcb k !! ksCurThread k) -> ksCurThread k <> 0 ->
  Q tt (restarting k) -> wp set_restart Q F k.
Proof.
  intros [x Hx] H0. unfold restarting. rewrite Hx. intros HQ. unfold set_restart, setThreadState, scheduleTCB, isRunnable. wp_steps.
  eapply wp_tcb_upd; [done | done |]. wp_steps. destruct (_ && _); wp_steps; [|done].
  eapply wp_tcb_get; [apply lookup_insert_eq | done |]. by wp_steps.
Qed.

(** A call as [handleInvocation] makes it: message words and registers hold words,
    the capabilities that came with the message are in slots, and without a buffer
    the message is no longer than the message registers. *)
Record invoked (k : kstate) (len : Z) (excaps : list Z) (buffer : Z) : Prop := {
  iv_words : words_ok k;
  iv_cur : is_Some (k_tcb k !! ksCurThread k) /\ ksCurThread k <> 0;
  iv_number : length excaps = 3%nat;
  iv_slots r : r ∈ excaps -> r <> 0 -> is_Some (k_cte k !! r);
  iv_buffer : buffer = 0 -> len <= n_msgRegisters }.

Lemma wp_arg k len excaps buffer i (Q : Z -> kstate -> Prop) F : invoked k len excaps buffer -> 0 <= i < len ->
  (forall w, is_word w -> Q w k) -> wp (getSyscallArg i buffer) Q F k.
Proof.
  intros [Hw [Hc H0] _ _ Hb] Hi HQ. destruct (decide (buffer = 0)) as [->|N].
  - specialize (Hb eq_refl). assert (1 <> 0) as H1 by done.
    pose proof (getSyscallArg_ok k i 1 Hw Hc H0 (proj1 Hi) H1) as H. unfold getSyscallArg in *.
    rewrite (proj2 (Z.ltb_lt i n_msgRegisters)) in * by lia. eapply wp_mono; [exact H | | done]. intros w k' [Hw' ->]. by apply HQ.
  - eapply wp_mono; [by apply getSyscallArg_ok; [.. | lia |] | | done]. intros w k' [Hw' ->]. by apply HQ.
Qed.
Lemma wp_excap k len excaps buffer i (Q : Z -> kstate -> Prop) F : invoked k len excaps buffer -> (i < 3)%nat ->
  (forall r, (r <> 0 -> is_Some (k_cte k !! r)) -> Q r k) -> wp (excap excaps i) Q F k.
Proof.
  intros [_ _ Hn Hs _] Hi HQ. unfold excap. destruct (excaps !! i) as [r|] eqn:E; [|apply list.lookup_ge_None in E; lia].
  rewrite wp_of_option. apply HQ. intros H0. apply Hs; [|done]. by apply list_elem_of_lookup_2 in E.
Qed.
Lemma wp_slot_cap k p e (Q : cap -> kstate -> Prop) F : p <> 0 -> k_cte k !! p = Some e -> Q (cte_cap e) k -> wp (slot_cap p) Q F k.
Proof. intros H0 He HQ. unfold slot_cap. rewrite wp_bind. eapply wp_cte_some; [done | exact He |]. by wp_steps. Qed.

Lemma wp_ensureEmpty k p (Q : exception_t -> kstate -> Prop) F : p <> 0 -> is_Some (k_cte k !! p) ->
  (is_null (cap_at k p) = true -> Q EXCEPTION_NONE k) ->
  (is_null (cap_at k p) = false -> forall k', same_but_errors k k' -> Q EXCEPTION_SYSCALL_ERROR k') -> wp (ensureEmptySlot p) Q F k.
Proof.
  intros H0 [e He] H1 H2. unfold ensureEmptySlot, cap_at in *. rewrite He in *. simpl in H1, H2. rewrite wp_bind. eapply wp_cte_some; [done | exact He |].
  destruct (is_null (cte_cap e)); cbn [negb]; [by apply H1 |]. unfold err_type_only. wp_steps. by apply H2.
Qed.

(** ** The new capability *)

(** Capabilities with CNodes that exist and resolve at least one bit. *)
Definition cap_ok (slots : gmap Z cte_t) (c : cap) : Prop :=
  cnode_ok slots c /\ match c with cap_cnode_cap radix _ _ _ => 0 < radix | _ => True end.
Definition caps_ok (slots : gmap Z cte_t) : Prop := map_Forall (fun _ e => cap_ok slots (cte_cap e)) slots.
Lemma caps_slots slots : caps_ok slots -> slots_ok slots.
Proof. intros H p e He. by apply (H p e He). Qed.

(** What a slot can be filled with, from the capability in the source slot. *)
Inductive new_cap (src : cap) : bool -> cap -> Prop :=
| new_copy r : new_cap src false (maskCapRights r src)
| new_mint r data : is_word data -> new_cap src false (updateCapData false data (maskCapRights r src))
| new_derived move c asid ptr size vaddr rights dev : new_cap src move c -> c = cap_frame_cap asid ptr size vaddr rights dev ->
    new_cap src move (cap_frame_cap asidInvalid ptr size vaddr rights dev)
| new_move : new_cap src true src
| new_mutate data : is_word data -> new_cap src true (updateCapData true data src).

Lemma update_cap_ok slots preserve data c : is_word data -> cap_ok slots c -> cap_ok slots (updateCapData preserve data c).
Proof.
  intros Hd [Hc Hr]. unfold updateCapData. destruct c as [| | | | |radix gs g ptr| | | | | | | | | | | |]; simpl; try done.
  - by destruct (negb preserve && _).
  - by destruct (negb preserve && _).
  - destruct Hc as (Hw & H1 & H2 & H3). destruct (_ >? wordBits) eqn:E; [done |].
    assert (cap_wf (updateCapData preserve data (cap_cnode_cap radix gs g ptr))) as Hwf by by apply update_cap_wf.
    unfold updateCapData in Hwf. simpl in Hwf. rewrite E in Hwf. split; [|done]. split; [exact Hwf |]. split; [|done].
    destruct Hwf as (_ & ? & _). lia.
Qed.
Lemma new_cap_ok slots src move c : cap_ok slots src -> new_cap src move c -> cap_ok slots c.
Proof.
  intros Hs Hn. induction Hn; try done.
  - by destruct src.
  - apply update_cap_ok; [done |]. by destruct src.
  - by apply update_cap_ok.
Qed.
(** Copying has a meaning for the revocable flag. *)
Lemma new_cap_revocable src c : new_cap src false c -> is_Some (isCapRevocable c src).
Proof.
  remember false as b. induction 1; try done.
  - destruct src; simpl; try done; eauto.
  - destruct src; simpl; eauto; unfold updateCapData; simpl; try (by repeat case_match; eauto).
Qed.

(** ** Decoding *)

Section Decode.
Context `{C : KConfig} `{P : KPlatform}.
Context (k : kstate) (L : list (list Z)) (len : Z) (excaps : list Z) (buffer : Z).
Hypothesis Hmdb : mdb_ok L k.
Hypothesis Hcaps : caps_ok (k_cte k).
Hypothesis Hiv : invoked k len excaps buffer.

Definition filled (s : Z) : Prop := is_Some (k_cte k !! s) /\ is_null (cap_at k s) = false.
Definition vacant (s : Z) : Prop := is_Some (k_cte k !! s) /\ is_null (cap_at k s) = true.

(** What decoding promises about the operation it settles on. *)
Definition call_ok (c : cnode_call) : Prop :=
  match c with
  | call_insert c s d => filled s /\ vacant d /\ is_null c = false /\ new_cap (cap_at k s) false c
  | call_move c s d => filled s /\ vacant d /\ is_null c = false /\ new_cap (cap_at k s) true c
  | call_revoke d | call_delete d => is_Some (k_cte k !! d)
  | call_saveCaller d => vacant d
  | call_cancelBadged c => hasCancelSendRights c = true
  | call_rotate c1 c2 s p d => filled s /\ filled p /\ p <> s /\ p <> d /\ (s = d \/ vacant d) /\ is_null c1 = false /\ is_null c2 = false /\
      new_cap (cap_at k s) true c1 /\ new_cap (cap_at k p) true c2
  end.
(** It only moves and copies capabilities. *)
Definition slots_only (c : cnode_call) : bool :=
  match c with call_revoke _ | call_delete _ | call_cancelBadged _ => false | _ => true end.
Definition decoded (only : bool) (r : exception_t + cnode_call) (k' : kstate) : Prop :=
  same_but_errors k k' /\
  match r with inl st => st = EXCEPTION_SYSCALL_ERROR | inr c => call_ok c /\ (only = true -> slots_only c = true) end.
Lemma decoded_weaken only m : wp m (decoded true) (fun _ => False) k -> wp m (decoded only) (fun _ => False) k.
Proof.
  intros H. eapply wp_mono; [exact H | | done]. intros [st|c] k' [H1 H2]; (split; [done |]); [done |]. destruct H2 as [H2 H3]. auto.
Qed.

Lemma wp_lookup src root idx d (Q : exception_t * Z -> kstate -> Prop) : cnode_ok (k_cte k) root -> is_word d ->
  (forall s, s <> 0 -> is_Some (k_cte k !! s) -> Q (EXCEPTION_NONE, s) k) ->
  (forall k', same_but_errors k k' -> Q (EXCEPTION_SYSCALL_ERROR, 0) k') -> wp (lookupSlotForCNodeOp src root idx d) Q (fun _ => False) k.
Proof.
  intros Hr Hd H1 H2. eapply wp_mono; [apply (preserves_wp no_errors); [apply lookup_op_keeps | apply lookup_op_ok; [by apply caps_slots | done | apply Hd]] | | done].
  intros r k' [[->|(s & -> & Hs & Hs' & ->)] Hk']; [by apply H2 | by apply H1].
Qed.

Lemma derive_ok slot src move c : is_Some (k_cte k !! slot) -> new_cap src move c ->
  wp (deriveCap slot c) (fun r k' => same_but_errors k k' /\
    (r.1 = EXCEPTION_SYSCALL_ERROR \/ r.1 = EXCEPTION_NONE /\ (is_null r.2 = true \/ new_cap src move r.2))) (fun _ => False) k.
Proof.
  intros Hs Hn. unfold deriveCap, Arch_deriveCap.
  destruct c as [|fi dev bs ptr| | | | | | | | | |asid ptr sz va ri dv|? ? []|? ? []|? ? []|? ? []| |]; cbn [isArchCap cap_get_capType]; simpl;
    unfold err_type_only; try (wp_steps; split; [done |]; simpl; auto; fail).
  - rewrite wp_bind. eapply wp_mono; [by apply (wp_ensureNoChildren k L) | | done]. intros st k1 [Hk1 Hst].
    subst st. destruct (has_child k slot); simpl; wp_steps; split; try done; simpl; auto.
  - wp_steps. split; [done |]. right. split; [done |]. right. by eapply new_derived.
Qed.

Lemma wp_reject {A} (m : M kstate unit) (Q : exception_t + A -> kstate -> Prop) : preserves no_errors m -> wp m (fun _ _ => True) (fun _ => False) k ->
  (forall k', same_but_errors k k' -> Q (inl EXCEPTION_SYSCALL_ERROR) k') -> wp (reject m) Q (fun _ => False) k.
Proof.
  intros Hp Hw HQ. unfold reject. rewrite wp_bind. eapply wp_mono; [by apply (preserves_wp no_errors _ _ _ _ Hp Hw) | | done].
  intros _ k' [_ Hk']. wp_steps. by apply HQ.
Qed.

Lemma decode_new_cap_ok label s : CNodeCopy <= label <= CNodeMutate -> 4 <= len -> is_Some (k_cte k !! s) ->
  wp (decode_new_cap label len s (cap_at k s) buffer) (fun r k' => same_but_errors k k' /\
    match r with
    | inl st => st = EXCEPTION_SYSCALL_ERROR
    | inr (c, move) => is_null c = true \/ new_cap (cap_at k s) move c
    end) (fun _ => False) k.
Proof.
  intros Hl Hlen Hs. unfold CNodeCopy, CNodeMutate in Hl. assert (label = 19 \/ label = 20 \/ label = 21 \/ label = 22) as Hc by lia.
  assert (forall c move, new_cap (cap_at k s) move c ->
    wp (let* '(status, newCap) := deriveCap s c in
        if negb (bool_decide (status = EXCEPTION_NONE)) then ret (inl status) else ret (inr (newCap, move)))
      (fun r k' => same_but_errors k k' /\ match r with inl st => st = EXCEPTION_SYSCALL_ERROR
        | inr (c, move) => is_null c = true \/ new_cap (cap_at k s) move c end) (fun _ => False) k) as Hd.
  { intros c move Hn. rewrite wp_bind. eapply wp_mono; [by apply derive_ok | | done]. intros [st c'] k' [Hk' Hr]. simpl in Hr.
    destruct Hr as [->|[-> Hr]]; simpl; by wp_steps. }
  destruct Hc as [-> | [-> | [-> | ->]]]; unfold decode_new_cap; simpl; unfold reject, err_type_only.
  - destruct (Z.ltb_spec len 5); [by wp_steps |]. rewrite wp_bind. eapply wp_arg; [exact Hiv | lia |]. intros w Hw. apply Hd, new_copy.
  - destruct (Z.ltb_spec len 6); [by wp_steps |]. rewrite wp_bind. eapply wp_arg; [exact Hiv | lia |]. intros w Hw.
    rewrite wp_bind. eapply wp_arg; [exact Hiv | lia |]. intros d Hdw. by apply Hd, new_mint.
  - wp_steps. split; [done |]. right. apply new_move.
  - destruct (Z.ltb_spec len 5); [by wp_steps |]. rewrite wp_bind. eapply wp_arg; [exact Hiv | lia |]. intros w Hw. wp_steps.
    split; [done |]. right. by apply new_mutate.
Qed.

Lemma cap_at_some s e : k_cte k !! s = Some e -> cap_at k s = cte_cap e.
Proof. unfold cap_at. by intros ->. Qed.

Lemma decode_fill_ok label d : CNodeCopy <= label <= CNodeMutate -> d <> 0 -> is_Some (k_cte k !! d) ->
  wp (decode_fill label len d excaps buffer) (decoded true) (fun _ => False) k.
Proof.
  intros Hl Hd0 Hd. unfold decode_fill. rewrite wp_bind. eapply wp_excap; [exact Hiv | lia |]. intros root Hroot.
  destruct (Z.ltb_spec len 4); [unfold reject, err_type_only; by wp_steps |]. destruct (Z.eqb_spec root 0); [unfold reject, err_type_only; by wp_steps |].
  destruct (Hroot ltac:(done)) as [e He]. cbn [orb]. rewrite wp_bind. eapply wp_arg; [exact Hiv | lia |]. intros idx Hidx. rewrite wp_bind.
  eapply wp_arg; [exact Hiv | lia |]. intros dep Hdep. rewrite wp_bind. eapply wp_slot_cap; [done | exact He |]. rewrite wp_bind.
  apply wp_ensureEmpty; [done | done | intros Hnull | intros _ k1 Hk1; simpl; by wp_steps].
  rewrite bool_decide_true by done. cbn [negb]. rewrite wp_bind.
  apply wp_lookup; [apply (Hcaps _ _ He) | done | intros s Hs0 [es Hes] | intros k1 Hk1; simpl; by wp_steps].
  rewrite bool_decide_true by done. cbn [negb]. rewrite wp_bind. eapply wp_slot_cap; [done | exact Hes |]. rewrite <- (cap_at_some s es Hes).
  destruct (is_null (cap_at k s)) eqn:En; [unfold reject, missing_source, err_FailedLookup, set_lookup_fault; by wp_steps |].
  rewrite wp_bind. eapply wp_mono; [by apply decode_new_cap_ok | | done]. intros r k1 [Hk1 Hr]. destruct r as [st|[c move]]; [by wp_steps |].
  destruct (is_null c) eqn:Ec; [unfold reject, err_type_only; by wp_steps |]. wp_steps. split; [done |].
  destruct Hr as [?|Hr]; [congruence |]. assert (filled s) by (split; [by exists es | done]). assert (vacant d) by done.
  split; by destruct move.
Qed.

(** The arguments of a rotation, once the slots are found. *)
Lemma rotate_slots_ok ds dp sd pd s p d : is_word sd -> is_word pd -> s <> 0 -> p <> 0 -> d <> 0 ->
  is_Some (k_cte k !! s) -> is_Some (k_cte k !! p) -> is_Some (k_cte k !! d) ->
  wp (if (p =? s) || (p =? d) then reject (err_type_only seL4_IllegalOperation)
      else
        let* status := (if negb (s =? d) then ensureEmptySlot d else ret EXCEPTION_NONE) in
        if negb (bool_decide (status = EXCEPTION_NONE)) then ret (inl status)
        else
          let* srcCap := slot_cap s in
          let* pivotCap := slot_cap p in
          if is_null srcCap then reject (missing_source true ds)
          else if is_null pivotCap then reject (missing_source false dp)
          else
            let newSrcCap := updateCapData true sd srcCap in
            let newPivotCap := updateCapData true pd pivotCap in
            if is_null newSrcCap then reject (err_type_only seL4_IllegalOperation)
            else if is_null newPivotCap then reject (err_type_only seL4_IllegalOperation)
            else ret (inr (call_rotate newSrcCap newPivotCap s p d))) (decoded true) (fun _ => False) k.
Proof.
  intros Hsd Hpd S0 P0 D0 [es Hs] [ep Hp] Hd. unfold reject, missing_source, err_type_only, err_FailedLookup, set_lookup_fault.
  destruct (Z.eqb_spec p s); [by wp_steps |]. destruct (Z.eqb_spec p d); [by wp_steps |]. cbn [orb].
  assert (forall Q : exception_t -> kstate -> Prop, (s = d \/ vacant d -> Q EXCEPTION_NONE k) ->
    (forall k', same_but_errors k k' -> Q EXCEPTION_SYSCALL_ERROR k') ->
    wp (if negb (s =? d) then ensureEmptySlot d else ret EXCEPTION_NONE) Q (fun _ => False) k) as Hdest.
  { intros Q H1 H2. destruct (Z.eqb_spec s d); cbn [negb]; [wp_steps; auto |]. apply wp_ensureEmpty; [done | done | intros; apply H1; by right |].
    intros _ k' ?. by apply H2. }
  rewrite wp_bind. apply Hdest; clear Hdest; [intros Hdest | intros k' Hk'; simpl; by wp_steps].
  rewrite bool_decide_true by done. cbn [negb]. rewrite wp_bind. eapply wp_slot_cap; [done | exact Hs |].
  rewrite wp_bind. eapply wp_slot_cap; [done | exact Hp |]. rewrite <- (cap_at_some s es Hs), <- (cap_at_some p ep Hp).
  destruct (is_null (cap_at k s)) eqn:N1; [by wp_steps |]. destruct (is_null (cap_at k p)) eqn:N2; [by wp_steps |]. cbv zeta.
  destruct (is_null (updateCapData true sd _)) eqn:N3; [by wp_steps |]. destruct (is_null (updateCapData true pd _)) eqn:N4; [by wp_steps |].
  wp_steps. split; [done |]. split; [|done]. split; [by split; [exists es |] |]. split; [by split; [exists ep |] |].
  do 5 (split; [done |]). by split; apply new_mutate.
Qed.

Lemma decode_rotate_ok d : d <> 0 -> is_Some (k_cte k !! d) -> wp (decode_rotate len d excaps buffer) (decoded true) (fun _ => False) k.
Proof.
  intros D0 Hd. unfold decode_rotate. rewrite wp_bind. eapply wp_excap; [exact Hiv | lia |]. intros proot Hproot.
  rewrite wp_bind. eapply wp_excap; [exact Hiv | lia |]. intros sroot Hsroot.
  destruct (Z.ltb_spec len 8); [unfold reject, err_type_only; by wp_steps |].
  destruct (Z.eqb_spec proot 0); [unfold reject, err_type_only; by wp_steps |].
  destruct (Z.eqb_spec sroot 0); [unfold reject, err_type_only; by wp_steps |]. cbn [orb].
  destruct (Hproot ltac:(done)) as [ep Hep]. destruct (Hsroot ltac:(done)) as [es Hes].
  do 6 (rewrite wp_bind; eapply wp_arg; [exact Hiv | lia |]; intros ? ?).
  rewrite wp_bind. eapply wp_slot_cap; [done | exact Hep |]. rewrite wp_bind. eapply wp_slot_cap; [done | exact Hes |]. rewrite wp_bind.
  apply wp_lookup; [apply (Hcaps _ _ Hes) | done | intros s Hs0 Hs | intros k1 Hk1; simpl; by wp_steps].
  rewrite bool_decide_true by done. cbn [negb]. rewrite wp_bind.
  apply wp_lookup; [apply (Hcaps _ _ Hep) | done | intros p Hp0 Hp | intros k1 Hk1; simpl; by wp_steps].
  rewrite bool_decide_true by done. cbn [negb]. by apply rotate_slots_ok.
Qed.

(** Decoding never faults; an error leaves everything but the error report alone, and
    the operation it settles on is one that the slots allow. *)
Lemma decode_cnode_ok label c : cnode_ok (k_cte k) c -> cap_get_capType c = 10 ->
  wp (decode_cnode label len c excaps buffer) (decoded (CNodeCopy <=? label)) (fun _ => False) k.
Proof.
  intros Hc Ht. unfold decode_cnode. destruct c as [| | | | |radix gs g ptr| | | | | | | | | | | |]; try done.
  unfold CNodeRevoke, CNodeSaveCaller, CNodeCopy, CNodeMutate, CNodeDelete, CNodeCancelBadgedSends, CNodeRotate. wp_steps.
  destruct (_ || _) eqn:E1; [unfold reject, err_type_only; by wp_steps |]. apply orb_false_iff in E1 as [E1 E2].
  rewrite Z.ltb_ge in E1. rewrite Z.gtb_ltb, Z.ltb_ge in E2. destruct (Z.ltb_spec len 2); [unfold reject, err_type_only; by wp_steps |].
  rewrite wp_bind. eapply wp_arg; [exact Hiv | lia |]. intros idx Hidx. rewrite wp_bind. eapply wp_arg; [exact Hiv | lia |]. intros w Hw.
  rewrite wp_bind. apply wp_lookup; [done | done | intros d Hd0 Hd | intros k1 Hk1; simpl; by wp_steps].
  rewrite bool_decide_true by done. cbn [negb]. pose proof Hd as [e He].
  destruct ((label >=? 19) && (label <=? 22)) eqn:E3.
  { apply andb_true_iff in E3 as [E3 E4]. rewrite Z.geb_leb, Z.leb_le in E3. apply Z.leb_le in E4. by apply decoded_weaken, decode_fill_ok. }
  destruct (label =? 16) eqn:E8; [apply Z.eqb_eq in E8 as ->; by wp_steps |]. destruct (label =? 17) eqn:E9; [apply Z.eqb_eq in E9 as ->; by wp_steps |].
  destruct (label =? 24) eqn:E5.
  { rewrite wp_bind. apply wp_ensureEmpty; [done | done | intros Hn; simpl; by wp_steps | intros _ k1 Hk1; simpl; by wp_steps]. }
  destruct (label =? 18) eqn:E6.
  { rewrite wp_bind. eapply wp_slot_cap; [done | exact He |]. apply Z.eqb_eq in E6 as ->. destruct (hasCancelSendRights (cte_cap e)) eqn:Er; cbn [negb]; [by wp_steps |].
    unfold reject, err_type_only. by wp_steps. }
  destruct (label =? 23) eqn:E7; [by apply decoded_weaken, decode_rotate_ok |].
  apply Z.eqb_neq in E5, E6, E7, E8, E9. apply andb_false_iff in E3. rewrite Z.geb_leb, !Z.leb_gt in E3. lia.
Qed.
End Decode.

(** ** Performing *)

(** The operations on slots that an accepted invocation performs; [c] is the
    capability in the caller slot of the current thread. *)
Definition ops_of (callerSlot : Z) (c : cap) (call : cnode_call) : option (list slot_op) :=
  match call with
  | call_insert c s d => Some [op_insert c s d]
  | call_move c s d => Some [op_move c s d]
  | call_saveCaller d => Some (match c with cap_reply_cap _ false _ => [op_move c callerSlot d] | _ => [] end)
  | call_rotate c1 c2 s p d => Some (if decide (s = d) then [op_swap c1 s c2 p] else [op_move c2 p d; op_move c1 s p])
  | _ => None
  end.

Lemma abstracts_cte a k k' : k_cte k' = k_cte k -> abstracts a k -> abstracts a k'.
Proof.
  intros E [H1 H2 H3 H4]. assert (forall p, cap_at k' p = cap_at k p) as Hc by (intros; unfold cap_at; by rewrite E).
  assert (forall p, flags_at k' p = flags_at k p) as Hf by (intros; unfold flags_at; by rewrite E).
  split; [by apply (mdb_ok_cte _ k) | intros p; rewrite E; apply H2 | intros p; by rewrite Hc | intros p; by rewrite Hf].
Qed.

Lemma filled_used a k s : abstracts a k -> filled k s -> used a s = true.
Proof.
  intros Ha [H1 H2]. unfold used. rewrite bool_decide_true by by apply (ab_dom _ _ Ha). by rewrite <- (ab_caps _ _ Ha), H2.
Qed.
Lemma vacant_free a k s : abstracts a k -> vacant k s -> free a s = true.
Proof.
  intros Ha [H1 H2]. unfold free. rewrite bool_decide_true by by apply (ab_dom _ _ Ha). by rewrite <- (ab_caps _ _ Ha), H2.
Qed.

(** The abstract database allows the operations, and the capabilities stay good. *)
Definition good_caps (slots : gmap Z cte_t) (a : adb) : Prop := forall p, cap_ok slots (ad_caps a p).
Lemma good_put slots f p c : (forall q : Z, cap_ok slots (f q)) -> cap_ok slots c -> forall q, cap_ok slots (put f p c q).
Proof. intros Hf Hc q. unfold put. by case_decide. Qed.
Lemma good_after_copy slots c c' : cap_ok slots c -> cap_ok slots (after_copy c c').
Proof. intros Hc. unfold after_copy. by repeat case_match. Qed.

Lemma rotate_allowed a k c1 c2 s p d : abstracts a k -> (forall p, cap_ok (k_cte k) (ad_caps a p)) -> call_ok k (call_rotate c1 c2 s p d) ->
  exists b, spec_ops (if decide (s = d) then [op_swap c1 s c2 p] else [op_move c2 p d; op_move c1 s p]) a = Some b /\ good_caps (k_cte k) b.
Proof.
  intros Ha Hg (H1 & H2 & N1 & N2 & Hd & E1 & E2 & C1 & C2).
  assert (cap_ok (k_cte k) c1 /\ cap_ok (k_cte k) c2) as [G1 G2] by (split; eapply new_cap_ok; [|done| |done]; rewrite (ab_caps _ _ Ha); apply Hg).
  pose proof (filled_used a k s Ha H1) as U1. pose proof (filled_used a k p Ha H2) as U2. pose proof U1 as V1. pose proof U2 as V2.
  unfold used in V1, V2. apply andb_true_iff in V1 as [V1 W1], V2 as [V2 W2]. apply negb_true_iff in W1, W2.
  destruct (decide (s = d)) as [->|N].
  - unfold spec_ops. simpl. rewrite V1, V2, E1, E2, W1, W2, bool_decide_true by done. eexists. split; [done |].
    intros q. by apply good_put; [apply good_put |].
  - destruct Hd as [?|Hd]; [done |]. unfold spec_ops. simpl. rewrite U2, (vacant_free a k), E2 by done. cbn [andb negb]. unfold used, free. cbn [ad_slots ad_caps].
    rewrite V1, V2, E1. unfold put at 1 2 3. rewrite (decide_False (P := s = p)), (decide_False (P := s = d)) by done. rewrite W1, decide_True by done.
    eexists. split; [done |]. intros q. simpl. by repeat (apply good_put; [|done || by split]).
Qed.

Lemma call_allowed a k call os : abstracts a k -> caps_ok (k_cte k) -> call_ok k call ->
  ops_of (TCB_PTR_CTE_PTR (ksCurThread k) tcbCaller) (cap_at k (TCB_PTR_CTE_PTR (ksCurThread k) tcbCaller)) call = Some os ->
  exists b, spec_ops os a = Some b /\ good_caps (k_cte k) b.
Proof.
  intros Ha Hc Hcall Hos.
  assert (forall p, cap_ok (k_cte k) (ad_caps a p)) as Hg.
  { intros p. rewrite <- (ab_caps _ _ Ha). unfold cap_at. destruct (k_cte k !! p) as [e|] eqn:E; simpl; [apply (Hc _ _ E) | by split]. }
  destruct call as [c s d|c s d| | |d| |c1 c2 s p d]; try done; injection Hos as <-; simpl in Hcall.
  - destruct Hcall as (H1 & H2 & H3 & H4). destruct (new_cap_revocable _ _ H4) as [r Hr]. unfold spec_ops. simpl.
    rewrite (filled_used a k), (vacant_free a k), H3 by done. rewrite <- (ab_caps _ _ Ha), Hr. simpl. eexists. split; [done |].
    intros q. simpl. apply good_put; [apply good_put; [done |] |]; [apply good_after_copy; rewrite (ab_caps _ _ Ha); apply Hg |].
    eapply new_cap_ok; [|exact H4]. rewrite (ab_caps _ _ Ha). apply Hg.
  - destruct Hcall as (H1 & H2 & H3 & H4). unfold spec_ops. simpl. rewrite (filled_used a k), (vacant_free a k), H3 by done. eexists. split; [done |].
    intros q. simpl. apply good_put; [apply good_put; [done |] | by split]. eapply new_cap_ok; [|exact H4]. rewrite (ab_caps _ _ Ha). apply Hg.
  - assert (forall l : list slot_op, l = [] -> exists b, spec_ops l a = Some b /\ good_caps (k_cte k) b) as Hnil by (intros ? ->; by exists a).
    set (sl := TCB_PTR_CTE_PTR _ _) in *. destruct (cap_at k sl) as [| | | |g [] t| | | | | | | | | | | | |] eqn:E; try by apply Hnil.
    assert (filled k sl) as Hf.
    { split; [|by rewrite E]. unfold cap_at in E. by destruct (k_cte k !! sl). }
    unfold spec_ops. simpl. rewrite (filled_used a k), (vacant_free a k) by done. eexists. split; [done |]. intros q. simpl.
    by apply good_put; [apply good_put; [done |] |]; split.
  - by apply (rotate_allowed a k).
Qed.

Lemma spec_op_slots o a b : spec_op o a = Some b -> ad_slots b = ad_slots a.
Proof.
  destruct o; simpl; repeat (case_match; try done); try (by intros [= <-]).
  destruct (isCapRevocable _ _); simpl; [by intros [= <-] | done].
Qed.
Lemma spec_ops_slots os a b : spec_ops os a = Some b -> ad_slots b = ad_slots a.
Proof.
  unfold spec_ops. assert (forall x, (forall y, x = Some y -> ad_slots y = ad_slots a) ->
    foldl (fun x o => match x with Some y => spec_op o y | None => None end) x os = Some b -> ad_slots b = ad_slots a) as H.
  { induction os as [|o os IH]; simpl; intros x Hx Hb; [by apply Hx |]. eapply IH; [|exact Hb]. intros y Hy.
    destruct x as [z|]; [|done]. rewrite (spec_op_slots _ _ _ Hy). by apply Hx. }
  intros Hb. apply (H (Some a)); [by intros ? [= <-] | done].
Qed.

Lemma good_caps_ok a b k k' : abstracts a k -> abstracts b k' -> ad_slots b = ad_slots a -> good_caps (k_cte k) b -> caps_ok (k_cte k').
Proof.
  intros Ha Hb Hs Hg p e He. assert (forall q, is_Some (k_cte k' !! q) <-> is_Some (k_cte k !! q)) as Hd.
  { intros q. rewrite <- (ab_dom _ _ Ha), <- (ab_dom _ _ Hb). by rewrite Hs. }
  specialize (Hg p). rewrite <- (ab_caps _ _ Hb) in Hg. unfold cap_at in Hg. rewrite He in Hg. simpl in Hg. destruct Hg as [H1 H2].
  split; [|done]. destruct (cte_cap e); try done. destruct H1 as (? & ? & ? & H1). split_and!; try done. intros i Hi. by apply Hd, H1.
Qed.

Section Perform.
Context `{C : KConfig} `{P : KPlatform}.

(** The slot for the reply capability holds one, or nothing. *)
Definition caller_slot_ok (k : kstate) : Prop :=
  let s := TCB_PTR_CTE_PTR (ksCurThread k) tcbCaller in
  s <> 0 /\ is_Some (k_cte k !! s) /\ match cap_at k s with cap_null_cap | cap_reply_cap _ _ _ => True | _ => False end.

Lemma invoke_cnode_ok fuel a b k call os : abstracts a k -> caller_slot_ok k ->
  ops_of (TCB_PTR_CTE_PTR (ksCurThread k) tcbCaller) (cap_at k (TCB_PTR_CTE_PTR (ksCurThread k) tcbCaller)) call = Some os ->
  spec_ops os a = Some b -> wp (invoke_cnode fuel call) (fun st k' => st = EXCEPTION_NONE /\ abstracts b k' /\ nocte k' = nocte k) (fun _ => False) k.
Proof.
  intros Ha Hsl Hos Hb.
  assert (forall o (m : M kstate unit) x y kx, m = run_op o -> abstracts x kx -> nocte kx = nocte k -> spec_op o x = Some y ->
    wp m (fun _ k' => abstracts y k' /\ nocte k' = nocte k) (fun _ => False) kx) as Hrun.
  { intros o m x y kx -> Hx Hn Hy. eapply wp_mono; [by apply (run_op_refines o x y) | | done]. intros ? k' [? ->]. done. }
  assert (forall o (m : M kstate unit), m = run_op o -> spec_op o a = Some b ->
    wp (do* m in ret EXCEPTION_NONE) (fun st k' => st = EXCEPTION_NONE /\ abstracts b k' /\ nocte k' = nocte k) (fun _ => False) k) as Hone.
  { intros o m -> Ho. rewrite wp_bind. eapply wp_mono; [by apply (Hrun o (run_op o) a b k) | | done]. intros ? k' ?. by wp_steps. }
  destruct call as [c s d|c s d| | |d| |c1 c2 s p d]; try done; injection Hos as <-; simpl.
  - by apply (Hone (op_insert c s d)).
  - by apply (Hone (op_move c s d)).
  - destruct Hsl as (H0 & [e He] & Hcap). unfold invokeCNodeSaveCaller. wp_step. wp_step. rewrite wp_bind. eapply wp_slot_cap; [done | exact He |].
    set (sl := TCB_PTR_CTE_PTR _ _) in *. assert (cap_at k sl = cte_cap e) as E by (unfold cap_at; by rewrite He). rewrite E in *.
    assert (forall l : list slot_op, l = [] -> spec_ops l a = Some b -> abstracts b k) as Hnil by (by intros ? -> [= <-]).
    destruct (cte_cap e) as [| | | |g [] t| | | | | | | | | | | | |]; try done; cbn [negb] in *.
    + wp_steps. split_and!; [done | by apply (Hnil []) | done].
    + wp_steps. split_and!; [done | by apply (Hnil []) | done].
    + by apply (Hone (op_move (cap_reply_cap g false t) sl d)).
  - unfold invokeCNodeRotate. destruct (decide (s = d)) as [->|N].
    + rewrite Z.eqb_refl. by apply (Hone (op_swap c1 d c2 p)).
    + rewrite (proj2 (Z.eqb_neq s d) N). unfold spec_ops in Hb. cbn [foldl] in Hb. destruct (spec_op (op_move c2 p d) a) as [x|] eqn:Ex; [|done].
      rewrite wp_bind, wp_bind. eapply wp_mono; [by apply (Hrun (op_move c2 p d) _ a x k) | | done]. intros ? k1 [Hx Hn].
      eapply wp_mono; [by apply (Hrun (op_move c1 s p) _ x b k1) | | done]. intros ? k2 ?. by wp_steps.
Qed.

Lemma slots_only_ops sl c call : slots_only call = true -> is_Some (ops_of sl c call).
Proof. by destruct call; simpl; eauto. Qed.

(** C3: Copying, minting, moving, mutating and rotating capabilities, and saving the
    reply capability, refine the abstract mapping database: whatever the user
    passes, the invocation does not fault; it reports an error and changes
    nothing else, or it performs the operations on slots that the request
    stands for, which the abstract database allows: source slots in use,
    destination slots empty, and each new capability made from the one in its
    source slot by masking rights and setting its data. The capabilities stay
    well-formed, so that the next invocation can be decoded. *)
Theorem cnode_refines (fuel : nat) (a : adb) (k : kstate) (label len : Z) (c : cap) (excaps : list Z) (buffer : Z) :
  abstracts a k -> caps_ok (k_cte k) -> invoked k len excaps buffer -> caller_slot_ok k ->
  cnode_ok (k_cte k) c -> cap_get_capType c = 10 -> CNodeCopy <= label ->
  wp (decodeCNodeInvocation fuel label len c excaps buffer) (fun st k' =>
      (st = EXCEPTION_SYSCALL_ERROR /\ same_but_errors k k') \/
      (st = EXCEPTION_NONE /\ exists call os b, call_ok k call /\
        ops_of (TCB_PTR_CTE_PTR (ksCurThread k) tcbCaller) (cap_at k (TCB_PTR_CTE_PTR (ksCurThread k) tcbCaller)) call = Some os /\
        spec_ops os a = Some b /\ abstracts b k' /\ caps_ok (k_cte k'))) (fun _ => False) k.
Proof.
  intros Ha Hc Hiv Hsl Hcn Ht Hl. unfold decodeCNodeInvocation. rewrite wp_bind.
  eapply wp_mono; [by apply (decode_cnode_ok k (ad_lists a)); [apply Ha | ..] | | done]. intros r k1 [Hk1 Hr].
  destruct r as [st|call]; [wp_steps; left; by subst st |]. destruct Hr as [Hcall Honly]. specialize (Honly (proj2 (Z.leb_le _ _) Hl)).
  destruct (slots_only_ops (TCB_PTR_CTE_PTR (ksCurThread k) tcbCaller) (cap_at k (TCB_PTR_CTE_PTR (ksCurThread k) tcbCaller)) call Honly) as [os Hos].
  destruct (call_allowed a k call os) as (b & Hb & Hg); [done.. |].
  pose proof (f_equal k_cte Hk1) as E1. pose proof (f_equal k_tcb Hk1) as E2. pose proof (f_equal ksCurThread Hk1) as E3. simpl in E1, E2, E3.
  destruct (iv_cur _ _ _ _ Hiv) as [Hcur Hcur0]. rewrite wp_bind. apply wp_set_restart; [by rewrite E2, E3 | by rewrite E3 |].
  assert (k_cte (restarting k1) = k_cte k /\ ksCurThread (restarting k1) = ksCurThread k) as [F1 F2].
  { unfold restarting. by destruct (k_tcb k1 !! ksCurThread k1). }
  assert (forall p, cap_at (restarting k1) p = cap_at k p) as F3 by (intros; unfold cap_at; by rewrite F1).
  eapply wp_mono; [apply (invoke_cnode_ok fuel a b (restarting k1) call os) | | done].
  - by apply (abstracts_cte a k).
  - unfold caller_slot_ok. by rewrite F1, F2, F3.
  - by rewrite F2, F3.
  - done.
  - intros st k' (-> & Hb' & _). right. split; [done |]. exists call, os, b. do 4 (split; [done |]).
    apply (good_caps_ok a b k k'); [done | done | by eapply spec_ops_slots | done].
Qed.
End Perform.

(** ** A move

    The current thread asks to move the untyped capability from the first to
    the third slot of a CNode of four slots at 4096; its caller slot, at 96, is empty. *)
Definition move_slots : gmap Z cte_t :=
  <[96 := mkCte cap_null_cap nullMDBNode]> (<[4096 := mkCte (cap_untyped_cap 128 false 12 65536) nullMDBNode]>
  (<[4128 := mkCte (cap_cnode_cap 2 0 0 4096) nullMDBNode]> (<[4160 := mkCte cap_null_cap nullMDBNode]> {[4192 := mkCte cap_null_cap nullMDBNode]}))).
Definition mover : tcb_t :=
  mkTcb {[2 := 2; 3 := 2; 4 := 0; 5 := 2]} ThreadState_Running false 0 0 false false false 0 seL4_Fault_NullFault
    lookup_fault_invalid_root 0 0 0 5 0 0 0 0 0 0.
Definition demo_move : kstate :=
  upd_k_word (fun _ => ∅) (upd_k_cte (fun _ => move_slots) (upd_k_tcb (fun _ => {[1024 := mover]})
    (upd_ksCurThread (fun _ => 1024) demo_cspace))).

Lemma move_slots_dom p : is_Some (move_slots !! p) -> p = 96 \/ p = 4096 \/ p = 4128 \/ p = 4160 \/ p = 4192.
Proof. unfold move_slots. rewrite !lookup_insert_is_Some, lookup_singleton_is_Some. naive_solver. Qed.

Lemma demo_move_mdb : abstracts (adb_of [[4096]; [4128]] demo_move) demo_move.
Proof.
  pose proof move_slots_dom as Hd. split; [|intros p; apply elem_of_dom | done | done]. split.
  - constructor; [|constructor; [|done]]; vm_compute; intuition congruence.
  - apply list.NoDup_cons. split; [set_solver | apply list.NoDup_singleton].
  - intros p. simpl. rewrite !list.elem_of_cons. intros [->|[->|Hp]]; [by eexists.. | by apply not_elem_of_nil in Hp].
  - intros p Hp. apply Hd in Hp. lia.
  - intros p Hp. destruct (k_cte demo_move !! p) as [e|] eqn:E.
    + destruct (Hd p ltac:(by eexists)) as [->|[->|[->|[->| ->]]]]; done.
    + unfold mn, mp. by rewrite E.
  - intros p Hp. destruct (Hd p Hp) as [->|[->|[->|[->| ->]]]]; simpl; rewrite !list.elem_of_cons, list.elem_of_nil; unfold cap_at;
      cbn -[move_slots]; vm_compute; intuition congruence.
Qed.

Lemma demo_move_cnode : cnode_ok move_slots (cap_cnode_cap 2 0 0 4096).
Proof.
  unfold cnode_ok, cap_wf, obj_region. split; [vm_compute; intuition congruence |]. split; [lia |]. split; [lia |].
  intros i Hi. change (2 ^ 2) with 4 in Hi. assert (i = 0 \/ i = 1 \/ i = 2 \/ i = 3) as [->|[->|[->| ->]]] by lia; vm_compute; eauto.
Qed.

Lemma demo_move_caps : caps_ok move_slots.
Proof.
  unfold caps_ok. unfold move_slots at 2. pose proof demo_move_cnode as Hc.
  repeat (apply map_Forall_insert_2; [split; [first [exact Hc | exact I | vm_compute; intuition congruence] | simpl; lia || exact I] |]). intros i x.
  by rewrite lookup_empty.
Qed.

Lemma demo_move_invoked : invoked demo_move 4 [4128; 0; 0] 0.
Proof.
  split.
  - split; [|simpl; apply map_Forall_empty]. simpl. apply map_Forall_singleton. simpl.
    repeat (apply map_Forall_insert_2; [done |]). apply map_Forall_empty.
  - split; [by eexists | done].
  - done.
  - intros r. rewrite !list.elem_of_cons. intros [->|[->|[->|[]%not_elem_of_nil]]]; [by eexists | done..].
  - done.
Qed.

Lemma cnode_refines_witness :
  wp (@decodeCNodeInvocation default_config quiet_platform 1 CNodeMove 4 (cap_cnode_cap 2 0 0 4096) [4128; 0; 0] 0) (fun st k' =>
      st = EXCEPTION_NONE /\ cap_at k' 4160 = cap_untyped_cap 128 false 12 65536 /\ cap_at k' 4096 = cap_null_cap /\ exists b, abstracts b k' /\ caps_ok (k_cte k')) (fun _ => False) demo_move.
Proof.
  pose proof (@cnode_refines default_config quiet_platform 1 _ demo_move CNodeMove 4 (cap_cnode_cap 2 0 0 4096) [4128; 0; 0] 0
    demo_move_mdb demo_move_caps demo_move_invoked ltac:(split; [done | split; [by eexists | done]]) demo_move_cnode eq_refl ltac:(done)) as H.
  unfold wp in *. destruct (decodeCNodeInvocation _ _ _ _ _ _ demo_move) as [[st k']|f] eqn:E; [|done].
  assert (st = EXCEPTION_NONE /\ cap_at k' 4160 = cap_untyped_cap 128 false 12 65536 /\ cap_at k' 4096 = cap_null_cap) as (-> & E1 & E2)
    by (vm_compute in E; injection E as <- <-; done).
  destruct H as [[H _]|(_ & call & os & b & _ & _ & _ & H1 & H2)]; [discriminate H | eauto 6].
Defined.
