(* ===== verification/KPageOps.v ===== *)
(** * Mapping and unmapping pages

    What the invocations on frames and page tables do to the translations of
    addresses (KMmu.v on the tables of KPages.v): an error changes nothing, and
    a page appears in, or goes from, one address space only. *)

From S2P Require Import Prelude KCaps KCapThms KState KSched KCspace KMdb KMsg KVspace KPages KIpc KDelete KUntyped KInvoke KMmu.
From S2P Require Import KUntypedThms KInvokeThms.

(** ** Pages and their addresses *)

Definition in_page (sz : vm_page_size) (vaddr v : Z) : Prop := vaddr <= v < vaddr + 2 ^ pageBitsForSize sz.
#[export] Instance in_page_dec sz vaddr v : Decision (in_page sz vaddr v).
Proof. unfold in_page. apply _. Defined.

Lemma level_shift sz : shift_of (level_of sz) = pageBitsForSize sz.
Proof. by destruct sz. Qed.
Lemma pageBits_bounds sz : 12 <= pageBitsForSize sz <= 30.
Proof. by destruct sz. Qed.
Lemma page_prefix sz vaddr v : vaddr mod 2 ^ pageBitsForSize sz = 0 ->
  prefix (level_of sz) v = prefix (level_of sz) vaddr <-> in_page sz vaddr v.
Proof.
  intros Ha. unfold prefix, in_page. rewrite level_shift. pose proof (pageBits_bounds sz). rewrite !Z.shiftr_div_pow2 by lia.
  assert (0 < 2 ^ pageBitsForSize sz) as Hp by lia. apply Z.div_exact in Ha; [|lia].
  pose proof (Z.div_mod v (2 ^ pageBitsForSize sz) ltac:(lia)). pose proof (Z.mod_pos_bound v _ Hp). split; [nia |].
  intros Hv. symmetry. apply (Z.div_unique_pos _ _ _ (v - vaddr)); lia.
Qed.

(** Aligned addresses do not wrap around at the end of the page. *)
Lemma page_end sz vaddr : is_word vaddr -> IS_PAGE_ALIGNED vaddr sz = true ->
  vaddr mod 2 ^ pageBitsForSize sz = 0 /\ w64 (vaddr + BIT (pageBitsForSize sz) - 1) = vaddr + 2 ^ pageBitsForSize sz - 1.
Proof.
  unfold is_word, IS_PAGE_ALIGNED. intros Hv Ha%Z.eqb_eq. pose proof (pageBits_bounds sz). rewrite land_mask in Ha by lia.
  split; [done |]. assert (BIT (pageBitsForSize sz) = 2 ^ pageBitsForSize sz) as -> by by destruct sz.
  unfold w64. apply Z.mod_small. apply Z.div_exact in Ha; [|lia]. set (q := vaddr / _) in *.
  assert (2 ^ 64 = 2 ^ pageBitsForSize sz * 2 ^ (64 - pageBitsForSize sz)) as E by (rewrite <- Z.pow_add_r by lia; f_equal; lia).
  assert (0 < 2 ^ pageBitsForSize sz) by lia. assert (q < 2 ^ (64 - pageBitsForSize sz)) by nia. nia.
Qed.

Section PageOps.
Context `{C : KConfig} `{P : KPlatform}.

(** What an address of an address space is translated to: an entry and its size. *)
Definition translation (k : kstate) (asid v : Z) : option (Z * vm_page_size) := r ← vspace_of k asid; leaf (mem k) r v.

(** The state of the tables is memory and the table of pools. *)
Definition same_tables (k k' : kstate) : Prop := k_word k' = k_word k /\ armKSASIDTable k' = armKSASIDTable k.
Lemma same_mem k k' : same_tables k k' -> mem k' = mem k.
Proof. intros [E _]. unfold mem. by rewrite E. Qed.
Lemma same_vspace k k' asid : same_tables k k' -> vspace_of k' asid = vspace_of k asid.
Proof. intros H. unfold vspace_of, asid_pool_of. by rewrite (same_mem _ _ H), (proj2 H). Qed.
Lemma same_roots k k' r : same_tables k k' -> roots k' r <-> roots k r.
Proof. intros H. unfold roots. by setoid_rewrite (same_vspace _ _ _ H). Qed.
Lemma same_pool_slot k k' a : same_tables k k' -> pool_slot k' a <-> pool_slot k a.
Proof. intros H. unfold pool_slot, asid_pool_of. by rewrite (proj2 H). Qed.
Lemma same_pages_ok k k' : same_tables k k' -> pages_ok k -> pages_ok k'.
Proof.
  intros H [H1 H2 H3 H4]. split.
  - apply (tree_ok_ext (mem k) _ (roots k)); [by rewrite (same_mem _ _ H) | intros r; by rewrite (same_roots k) | done].
  - intros a. rewrite (same_pool_slot k) by done. apply H2.
  - unfold asid_pool_of. rewrite (proj2 H). apply H3.
  - intros r v l s. rewrite (same_roots k), (same_mem k), (same_pool_slot k) by done. apply H4.
Qed.

(** ** Steps of the decoders *)

Lemma nofault_errors k k' : nofault k' = nofault k -> same_but_errors k k'.
Proof. intros H. unfold same_but_errors, no_errors. unfold nofault in H. by rewrite H. Qed.

Lemma check_root_ok k asid pgd n (Q : exception_t + unit -> kstate -> Prop) : pages_ok k -> is_asid asid ->
  (forall k', same_but_errors k k' -> Q (inl EXCEPTION_SYSCALL_ERROR) k') -> (vspace_of k asid = Some pgd -> Q (inr tt) k) ->
  wp (check_root asid pgd n) Q (fun _ => False) k.
Proof.
  intros Hk Ha H1 H2. unfold check_root. rewrite wp_bind. eapply wp_mono; [by apply findVSpaceForASID_ok | | done].
  unfold looked_up. destruct (vspace_of k asid) as [r|] eqn:E; intros ? k1 [-> Hk1]; simpl.
  - subst k1. destruct (Z.eqb_spec r pgd) as [->|]; simpl; unfold reject, err_InvalidCapability; wp_steps; [by apply H2 | by apply H1].
  - unfold reject, err_FailedLookup. wp_steps. apply H1. by apply nofault_errors in Hk1.
Qed.

Lemma found_ok k m o (Q : exception_t + Z -> kstate -> Prop) : wp m (looked_up k o) (fun _ => False) k ->
  (forall k', same_but_errors k k' -> Q (inl EXCEPTION_SYSCALL_ERROR) k') -> (forall s, o = Some s -> Q (inr s) k) ->
  wp (found m) Q (fun _ => False) k.
Proof.
  intros Hm H1 H2. unfold found. rewrite wp_bind. eapply wp_mono; [exact Hm | | done].
  unfold looked_up. destruct o as [s|]; intros ? k1 [-> Hk1]; simpl.
  - subst k1. wp_steps. by apply H2.
  - unfold reject, err_FailedLookup. wp_steps. apply H1. by apply nofault_errors in Hk1.
Qed.

Lemma wp_throw k (m : M kstate unit) (Q : exception_t -> kstate -> Prop) : wp m (fun _ k' => same_but_errors k k') (fun _ => False) k ->
  (forall k', same_but_errors k k' -> Q EXCEPTION_SYSCALL_ERROR k') -> wp (throw m) Q (fun _ => False) k.
Proof.
  intros Hm HQ. unfold throw. rewrite wp_bind. eapply wp_mono; [exact Hm | | done]. intros ? k' Hk'. wp_steps. by apply HQ.
Qed.
Lemma wp_unless k b (m : M kstate unit) n (Q : exception_t -> kstate -> Prop) : wp m (fun _ k' => same_but_errors k k') (fun _ => False) k ->
  (forall k', same_but_errors k k' -> Q EXCEPTION_SYSCALL_ERROR k') -> (b = true -> wp n Q (fun _ => False) k) ->
  wp (unless b throws m in n) Q (fun _ => False) k.
Proof. intros Hm H1 H2. destruct b; simpl; [by apply H2 | by apply wp_throw]. Qed.
Lemma wp_try {A} k (m : M kstate (exception_t + A)) f (Q : exception_t -> kstate -> Prop) :
  wp m (fun r k' => match r with inl st => Q st k' | inr x => wp (f x) Q (fun _ => False) k' end) (fun _ => False) k ->
  wp (try_ m f) Q (fun _ => False) k.
Proof. intros H. unfold try_. rewrite wp_bind. eapply wp_mono; [exact H | | done]. intros [st|x] k' H'; [by wp_steps | done]. Qed.

(** ** Mapping a frame *)

Lemma perform_map_ok k sz asid c ct entry s e0 : s <> 0 -> ct <> 0 -> k_cte k !! ct = Some e0 -> is_asid asid -> cap_get_capType c = 1 ->
  wp (perform_map sz asid c ct entry s) (fun st k' => st = EXCEPTION_NONE /\
    wrote (upd_k_cte (insert ct (mkCte c (cteMDBNode e0))) k) s entry k') (fun _ => False) k.
Proof.
  intros Hs Hct He0 [_ Ha] Ht. assert (perform_map sz asid c ct entry s = performFrameMap sz asid c ct entry s) as -> by by destruct sz.
  unfold performFrameMap, set_cap, cte_upd. rewrite wp_bind. apply wp_entry_get; [done |]. rewrite !wp_bind. eapply wp_cte_some; [done | exact He0 |].
  wp_steps. apply wp_entry_store; [done |]. intros k' [Hn Hm] _. wp_steps. case_match; wp_steps; [|done].
  rewrite (proj2 (Z.ltb_lt asid (BIT 16)) Ha). by destruct c.
Qed.

(** The state in which the entry is written: the thread is restarted and the
    capability records the address. *)
Definition recorded (k : kstate) (ct : Z) (c : cap) : kstate :=
  match k_cte k !! ct with Some e => upd_k_cte (insert ct (mkCte c (cteMDBNode e))) (restarting k) | None => k end.
Lemma recorded_tables k ct c : same_tables k (recorded k ct c).
Proof. unfold recorded, restarting. by repeat case_match. Qed.

(** An entry for the frame at [pptr], with these rights. *)
Definition entry_for (e pptr : Z) (sz : vm_page_size) (r : vm_rights) : Prop :=
  entry_type e = frame_type sz /\ Z.land e (frame_mask sz) = pptr_to_paddr pptr /\ Z.land (Z.shiftr e 6) 3 = APFromVMRights r.
(** The frame lies where an entry can point to. *)
Definition frame_base (pptr : Z) (sz : vm_page_size) : Prop :=
  0 <= pptr_to_paddr pptr < 2 ^ 48 /\ pptr_to_paddr pptr mod 2 ^ pageBitsForSize sz = 0.

Lemma user_entry_for pptr sz r attributes : frame_base pptr sz -> entry_for (user_entry sz (pptr_to_paddr pptr) r attributes) pptr sz r.
Proof.
  intros [H1 H2]. destruct sz; simpl in H2.
  - by apply (user_leaf_fields PTE_MASK _ r attributes TABLE 12 36).
  - by apply (user_leaf_fields PDE_LARGE_MASK _ r attributes BLOCK 21 27).
  - by apply (user_leaf_fields PUDE_1G_MASK _ r attributes BLOCK 30 18).
Qed.

(** The page at [vaddr] of the address spaces with root [pgd] is translated by
    [o], and everything else as before. *)
Record page_changed (k : kstate) (pgd vaddr : Z) (sz : vm_page_size) (o : option (Z * vm_page_size)) (k' : kstate) : Prop := {
  pg_ok : pages_ok k';
  pg_spaces a : is_asid a -> vspace_of k' a = vspace_of k a;
  pg_translation a v : is_asid a -> is_vaddr v -> translation k' a v =
    if decide (vspace_of k a = Some pgd /\ in_page sz vaddr v) then o else translation k a v }.

Lemma write_page k k1 k' pgd asid vaddr s e sz : pages_ok k -> same_tables k k1 -> is_asid asid -> vspace_of k asid = Some pgd ->
  is_vaddr vaddr -> vaddr mod 2 ^ pageBitsForSize sz = 0 -> walk (mem k) pgd vaddr (level_of sz) = Some s ->
  sz = ARMSmallPage \/ entry_type (mem k s) <> TABLE /\ entry_type e <> TABLE -> wrote k1 s e k' ->
  page_changed k pgd vaddr sz (if entry_type e =? frame_type sz then Some (e, sz) else None) k'.
Proof.
  intros Hk Ht Ha Hr Hv Hal Hs He Hw.
  assert (roots k pgd) as Hroot by by exists asid.
  destruct (frame_write_ok k1 k' pgd vaddr s e sz) as [F1 F2 _ F4]; try done.
  - by apply (same_pages_ok k).
  - by apply (same_roots k).
  - by rewrite (same_mem k).
  - by rewrite (same_mem k).
  - split; [done | intros a H; by rewrite F2, (same_vspace k) |]. intros a v H Hv'. unfold translation. rewrite F2, (same_vspace k) by done.
    destruct (vspace_of k a) as [r|] eqn:E; [cbn [mbind option_bind] | by rewrite decide_False by naive_solver].
    rewrite F4; [|by apply (same_roots k); [|exists a] | done]. rewrite (same_mem k) by done.
    destruct (decide _) as [[-> Hp]|N]; destruct (decide _) as [[E2 Hp2]|N2]; try done.
    + apply page_prefix in Hp; [|done]. by destruct N2.
    + injection E2 as ->. destruct N. split; [done |]. by apply page_prefix.
Qed.

(** An invocation of the capability in slot [ct]. *)
Record mmu_call (k : kstate) (len ct : Z) (excaps : list Z) (buffer : Z) : Prop := {
  mc_pages : pages_ok k;
  mc_invoked : invoked k len excaps buffer;
  mc_caps : map_Forall (fun _ e => cap_wf (cte_cap e)) (k_cte k);
  mc_slot : ct <> 0 /\ is_Some (k_cte k !! ct) }.

Lemma root_of_ok k c (Q : exception_t + Z * Z -> kstate -> Prop) : cap_wf c ->
  (forall k', same_but_errors k k' -> Q (inl EXCEPTION_SYSCALL_ERROR) k') ->
  (forall asid pgd, is_asid asid -> c = cap_page_global_directory_cap asid pgd true -> Q (inr (asid, pgd)) k) ->
  wp (root_of c) Q (fun _ => False) k.
Proof.
  intros Hc H1 H2. assert (forall m, wp m (fun _ k' => same_but_errors k k') (fun _ => False) k -> wp (reject m) Q (fun _ => False) k) as Hrej.
  { intros m Hm. unfold reject. rewrite wp_bind. eapply wp_mono; [exact Hm | | done]. intros ? k' H. wp_steps. by apply H1. }
  unfold root_of. repeat case_match; subst; try (apply Hrej; done). wp_steps. apply H2; [apply Hc | done].
Qed.

Lemma leaf_none m r v sz s : walk m r v (level_of sz) = Some s -> frame_present sz (m s) = false -> leaf m r v = None.
Proof.
  intros Hs Hf. assert (entry_type (m s) <> TABLE) as Ht.
  { intros E. revert Hf. unfold frame_present. rewrite E. by destruct sz. }
  rewrite (leaf_eq m r v sz); [| intros; by eapply leaf_at_above | intros; by eapply leaf_at_below].
  unfold leaf_at. rewrite Hs. simpl. revert Hf. unfold frame_present. destruct sz; simpl; [|intros [_ Hf]%orb_false_iff..]; try (by rewrite Hf).
  by rewrite (proj2 (Z.eqb_neq _ _) Ht).
Qed.

(** What a frame invocation that maps or remaps a page leaves behind. *)
Definition map_done (k : kstate) (ct pgd asid vaddr pptr : Z) (sz : vm_page_size) (rights : vm_rights) (dev : bool) (k' : kstate) : Prop :=
  exists e w, entry_for e pptr sz (maskVMRights rights (rightsFromWord w)) /\ page_changed k pgd vaddr sz (Some (e, sz)) k' /\
    nomem k' = nomem (recorded k ct (cap_frame_cap asid pptr sz vaddr rights dev)).

Lemma perform_map_done k ct e0 asid pgd vaddr pptr sz rights dev w attributes s : pages_ok k -> ct <> 0 -> k_cte k !! ct = Some e0 ->
  is_asid asid -> vspace_of k asid = Some pgd -> is_vaddr vaddr -> vaddr mod 2 ^ pageBitsForSize sz = 0 -> frame_base pptr sz ->
  walk (mem k) pgd vaddr (level_of sz) = Some s -> sz = ARMSmallPage \/ entry_type (mem k s) <> TABLE ->
  wp (perform_map sz asid (cap_frame_cap asid pptr sz vaddr rights dev) ct
        (user_entry sz (pptr_to_paddr pptr) (maskVMRights rights (rightsFromWord w)) attributes) s)
    (fun st k' => st = EXCEPTION_NONE /\ map_done k ct pgd asid vaddr pptr sz rights dev k') (fun _ => False) (restarting k).
Proof.
  intros Hp Hct He0 Ha Hroot Hv Hal Hb Hs Hend. assert (roots k pgd) as Hr by by exists asid.
  assert (s <> 0) as Hs0 by (by eapply slot_nonnull; [| exact Hr | exact Hv | | exact Hs]; [done | destruct sz; simpl; lia]).
  pose proof (user_entry_for pptr sz (maskVMRights rights (rightsFromWord w)) attributes Hb) as He. set (e := user_entry _ _ _ _) in *. clearbody e.
  assert (k_cte (restarting k) !! ct = Some e0) as He0' by (unfold restarting; by destruct (k_tcb k !! _)).
  eapply wp_mono; [by apply (perform_map_ok _ _ _ _ _ _ _ e0) | | done]. intros st k' [-> Hw]. split; [done |]. exists e, w. split; [done |].
  pose proof (recorded_tables k ct (cap_frame_cap asid pptr sz vaddr rights dev)) as Ht. unfold recorded in *. rewrite He0 in *.
  split; [|apply Hw]. pose proof (write_page k _ k' pgd asid vaddr s e sz Hp Ht Ha Hroot Hv Hal Hs) as H.
  rewrite (proj1 He), Z.eqb_refl in H. apply H; [|done]. destruct Hend as [->|Hend]; [by left |].
  destruct sz; [by left | right; split; [done |]; simpl; by intros [=]..].
Qed.

(** C5: Mapping a frame never faults, whatever the user passes.  It reports an
    error and changes nothing else, or it maps the frame: the page is aligned
    and lies below [USER_TOP], also where the sum of address and size is near
    the end of the word; nothing was mapped in it before; afterwards its
    addresses are translated to the frame with the rights of the capability
    that the user asked for, in that address space only; every other address of
    every address space is translated as before; and but for the capability,
    that records the mapping, and the restarted thread nothing else changes. *)
Theorem page_map_ok (k : kstate) (len ct asid0 pptr vaddr0 : Z) (sz : vm_page_size) (rights : vm_rights) (dev : bool) (excaps : list Z) (buffer : Z) :
  mmu_call k len ct excaps buffer -> frame_base pptr sz ->
  wp (decode_page_map len ct (cap_frame_cap asid0 pptr sz vaddr0 rights dev) excaps buffer) (fun st k' =>
      (st = EXCEPTION_SYSCALL_ERROR /\ same_but_errors k k') \/
      (st = EXCEPTION_NONE /\ asid0 = 0 /\ exists asid pgd vaddr, vspace_of k asid = Some pgd /\
        vaddr mod 2 ^ pageBitsForSize sz = 0 /\ 0 <= vaddr /\ vaddr + 2 ^ pageBitsForSize sz - 1 <= USER_TOP /\
        (forall v, in_page sz vaddr v -> translation k asid v = None) /\
        map_done k ct pgd asid vaddr pptr sz rights dev k')) (fun _ => False) k.
Proof.
  intros [Hp Hiv Hcw [Hct [e0 He0]]] Hb. unfold decode_page_map.
  rewrite wp_bind. eapply wp_excap; [done | lia |]. intros r Hr.
  apply wp_unless; [done | auto |]. intros [Hlen Hr0]%andb_true_iff. apply Z.leb_le in Hlen. apply negb_true_iff, Z.eqb_neq in Hr0.
  apply wp_unless; [done | auto |]. intros ->%Z.eqb_eq. destruct (Hr Hr0) as [er Her].
  rewrite wp_bind. eapply wp_arg; [done | lia |]. intros vaddr Hvw. rewrite wp_bind. eapply wp_arg; [done | lia |]. intros attributes _.
  rewrite wp_bind. eapply wp_slot_cap; [done | done |]. rewrite wp_bind. eapply wp_arg; [done | lia |]. intros w _.
  apply wp_try. apply root_of_ok; [exact (Hcw _ _ Her) | auto |]. intros asid pgd Ha _.
  apply wp_try. apply check_root_ok; [done | done | auto |]. intros Hroot.
  apply wp_unless; [done | auto |]. intros Hal. destruct (page_end sz vaddr Hvw Hal) as [Hal' Hend].
  apply wp_unless; [done | auto |]. intros Htop%Z.leb_le. rewrite Hend in Htop.
  assert (is_vaddr vaddr) as Hv. { unfold is_vaddr, USER_TOP, is_word in *. pose proof (pageBits_bounds sz). lia. }
  apply wp_try. eapply found_ok; [apply frame_slot_ok; [done | by exists asid | done] | auto |]. intros s Hs.
  rewrite wp_bind. apply wp_entry_get; [by eapply slot_nonnull; [| by exists asid | exact Hv | | exact Hs]; [done | destruct sz; simpl; lia] |].
  apply wp_unless; [done | auto |]. intros Hf%negb_true_iff.
  destruct (iv_cur _ _ _ _ Hiv) as [Hcur Hcur0]. rewrite wp_bind. apply wp_set_restart; [done | done |].
  eapply wp_mono; [eapply perform_map_done; try done; by right; revert Hf; unfold frame_present; intros H E; rewrite E in H; destruct sz | | done].
  intros st k' [-> Hm]. right. split; [done |]. split; [done |]. exists asid, pgd, vaddr. do 2 (split; [done |]). split; [apply Hv |]. split; [done |].
  split; [|done]. intros v Hv'. unfold translation. rewrite Hroot. simpl. apply (leaf_none _ _ _ sz s); [|done].
  rewrite (walk_prefix _ _ v vaddr); [done | destruct sz; simpl; lia | by apply page_prefix].
Qed.

(** ** Unmapping a frame *)

(** The page at [v] is a page of this size, translated to the frame at [pptr]. *)
Definition maps_frame (k : kstate) (asid v pptr : Z) (sz : vm_page_size) : bool :=
  match translation k asid v with
  | Some (e, sz') => bool_decide (sz' = sz) && (Z.land e (frame_mask sz) =? pptr_to_paddr pptr)
  | None => false
  end.

Lemma leaf_some m r v sz s : walk m r v (level_of sz) = Some s -> entry_type (m s) = frame_type sz -> leaf m r v = Some (m s, sz).
Proof.
  intros Hs Ht. rewrite (leaf_eq m r v sz); [| intros; by eapply leaf_at_above |].
  - unfold leaf_at. rewrite Hs. simpl. by rewrite Ht, Z.eqb_refl.
  - intros sz' Hl. destruct (decide (sz = ARMSmallPage)) as [->|N]; [destruct sz'; simpl in Hl; lia |].
    eapply leaf_at_below; [done | rewrite Ht; by destruct sz | done].
Qed.
Lemma leaf_inv m r v sz e : leaf m r v = Some (e, sz) -> exists s, walk m r v (level_of sz) = Some s /\ e = m s /\ entry_type e = frame_type sz.
Proof.
  assert (forall z, leaf_at m r v z = Some e -> exists s, walk m r v (level_of z) = Some s /\ e = m s /\ entry_type e = frame_type z) as Hat.
  { intros z Hz. apply bind_Some in Hz as (s & Hs & Hz). exists s. destruct (Z.eqb_spec (entry_type (m s)) (frame_type z)); [by injection Hz as <- | done]. }
  unfold leaf. destruct (leaf_at m r v ARMHugePage) as [x|] eqn:E1; [intros [= -> <-]; auto |].
  destruct (leaf_at m r v ARMLargePage) as [x|] eqn:E2; [intros [= -> <-]; auto |].
  destruct (leaf_at m r v ARMSmallPage) as [x|] eqn:E3; [intros [= -> <-]; auto | done].
Qed.

(** What unmapping the page leaves behind. *)
Definition page_gone (k : kstate) (sz : vm_page_size) (asid vaddr pptr : Z) (k' : kstate) : Prop :=
  pages_ok k' /\ (forall a, is_asid a -> vspace_of k' a = vspace_of k a) /\
  (forall a v, is_asid a -> is_vaddr v -> translation k' a v =
    if decide (maps_frame k asid vaddr pptr sz = true /\ vspace_of k a = vspace_of k asid /\ in_page sz vaddr v) then None else translation k a v) /\
  (maps_frame k asid vaddr pptr sz = true -> exists s, k_events k' = k_events k ++
    [cleanByVA_PoU s (pptr_to_paddr s); invalidateTranslationSingle (Z.lor (w64 (Z.shiftl asid 48)) (Z.shiftr vaddr seL4_PageBits))]).

Lemma page_gone_none k k' sz asid vaddr pptr : pages_ok k -> same_tables k k' -> maps_frame k asid vaddr pptr sz = false -> page_gone k sz asid vaddr pptr k'.
Proof.
  intros Hk Ht Hm. unfold page_gone. rewrite Hm. split; [by apply (same_pages_ok k) |]. split; [intros; by apply same_vspace |]. split; [|done].
  intros a v _ _. rewrite decide_False by naive_solver. unfold translation. by rewrite (same_vspace k), (same_mem k).
Qed.

Lemma nofault_tables k k' : nofault k' = nofault k -> same_tables k k'.
Proof. intros H. split; [by apply (f_equal k_word) in H | by apply (f_equal armKSASIDTable) in H]. Qed.
Lemma nofault_nomem k k' : nofault k' = nofault k -> nomem k' = nomem k.
Proof. intros H. unfold nomem. by rewrite H. Qed.

Lemma maps_frame_slot k asid r vaddr pptr sz : vspace_of k asid = Some r -> maps_frame k asid vaddr pptr sz =
  match walk (mem k) r vaddr (level_of sz) with
  | Some s => (entry_type (mem k s) =? frame_type sz) && (Z.land (mem k s) (frame_mask sz) =? pptr_to_paddr pptr)
  | None => false
  end.
Proof.
  intros E. unfold maps_frame, translation. rewrite E. simpl.
  assert (forall e sz', leaf (mem k) r vaddr = Some (e, sz') -> bool_decide (sz' = sz) = true ->
    exists s, walk (mem k) r vaddr (level_of sz) = Some s /\ entry_type (mem k s) = frame_type sz) as Hinv.
  { intros e sz' El ->%bool_decide_eq_true. apply leaf_inv in El as (s & Hs & -> & Et). eauto. }
  destruct (walk (mem k) r vaddr (level_of sz)) as [s|] eqn:Es.
  - destruct (Z.eqb_spec (entry_type (mem k s)) (frame_type sz)) as [Et|Et].
    + rewrite (leaf_some _ _ _ _ _ Es Et). by rewrite bool_decide_true.
    + destruct (leaf (mem k) r vaddr) as [[e sz']|] eqn:El; [|done]. destruct (bool_decide (sz' = sz)) eqn:B; [|done].
      destruct (Hinv e sz' eq_refl B) as (s' & [= <-] & Et'). done.
  - destruct (leaf (mem k) r vaddr) as [[e sz']|] eqn:El; [|done]. destruct (bool_decide (sz' = sz)) eqn:B; [|done].
    destruct (Hinv e sz' eq_refl B) as (s' & [=] & _).
Qed.

Lemma unmapPage_ok k sz asid vaddr pptr : pages_ok k -> is_asid asid -> is_vaddr vaddr -> vaddr mod 2 ^ pageBitsForSize sz = 0 ->
  wp (unmapPage sz asid vaddr pptr) (fun _ k' => page_gone k sz asid vaddr pptr k' /\ nomem k' = nomem k) (fun _ => False) k.
Proof.
  intros Hk Ha Hv Hal. unfold unmapPage. rewrite wp_bind. eapply wp_mono; [by apply findVSpaceForASID_ok | | done].
  unfold looked_up. destruct (vspace_of k asid) as [r|] eqn:E; intros ? k1 [-> Hk1]; simpl.
  2: { split; [apply page_gone_none; [done | by apply nofault_tables |] | by apply nofault_nomem]. unfold maps_frame, translation. by rewrite E. }
  subst k1. assert (roots k r) as Hr by by exists asid. rewrite wp_bind. eapply wp_mono; [by apply frame_slot_ok | | done].
  assert (level_of sz <= 3)%nat as Hl by (destruct sz; simpl; lia). pose proof (maps_frame_slot k asid r vaddr pptr sz E) as Hm.
  unfold looked_up. destruct (walk (mem k) r vaddr (level_of sz)) as [s|] eqn:Es; intros ? k1 [-> Hk1]; simpl.
  2: { split; [by apply page_gone_none; [| apply nofault_tables |] | by apply nofault_nomem]. }
  subst k1. assert (s <> 0) as Hs0 by by eapply slot_nonnull. rewrite wp_bind. apply wp_entry_get; [done |].
  rewrite <- Hm, wp_bind. assert ((asid <? BIT 16) = true) as Hb by (apply Z.ltb_lt; apply Ha).
  destruct (maps_frame k asid vaddr pptr sz) eqn:Em.
  - apply wp_entry_store; [done |]. intros k1 Hw Hev. wp_steps. rewrite Hb. unfold invalidateTLBByASIDVA, event. wp_steps.
    split; [|apply Hw]. symmetry in Hm. apply andb_true_iff in Hm as [Et%Z.eqb_eq _].
    destruct (write_page k k (upd_k_events (fun l => l ++ [invalidateTranslationSingle (Z.lor (w64 (Z.shiftl asid 48)) (Z.shiftr vaddr seL4_PageBits))]) k1)
      r asid vaddr s 0 sz) as [W1 W2 W3]; try done.
    + destruct sz; [by left | right..]; by rewrite Et.
    + split; [done |]. split; [done |]. split.
      * intros a v Haa Hvv. rewrite W3 by done. assert ((entry_type 0 =? frame_type sz) = false) as -> by by destruct sz.
        rewrite E. repeat case_decide; try done; exfalso; naive_solver.
      * intros _. exists s. simpl. by rewrite Hev, <- app_assoc.
  - wp_steps. rewrite Hb. unfold invalidateTLBByASIDVA, event. wp_steps. split; [by apply page_gone_none | done].
Qed.

Lemma same_translation k k' asid v : same_tables k k' -> translation k' asid v = translation k asid v.
Proof. intros H. unfold translation. by rewrite (same_vspace k), (same_mem k). Qed.
Lemma page_gone_same k k1 k2 k' sz asid vaddr pptr : same_tables k k1 -> k_events k1 = k_events k -> same_tables k2 k' -> k_events k' = k_events k2 ->
  page_gone k1 sz asid vaddr pptr k2 -> page_gone k sz asid vaddr pptr k'.
Proof.
  intros T1 E1 T2 E2 (H1 & H2 & H3 & H4). assert (maps_frame k1 asid vaddr pptr sz = maps_frame k asid vaddr pptr sz) as Em.
  { unfold maps_frame. by rewrite (same_translation k k1). }
  split; [by apply (same_pages_ok k2) |]. split; [intros a Ha; by rewrite (same_vspace k2 k'), H2, (same_vspace k k1) |]. split.
  - intros a v Ha Hv. rewrite (same_translation k2 k'), H3, Em, !(same_vspace k k1), (same_translation k k1) by done. done.
  - rewrite Em in H4. intros Hm. destruct (H4 Hm) as [s Hs]. exists s. by rewrite E2, Hs, E1.
Qed.
Lemma restarting_tables k : same_tables k (restarting k) /\ k_events (restarting k) = k_events k /\ k_cte (restarting k) = k_cte k.
Proof. unfold restarting. by case_match. Qed.

(** C15: Unmapping a frame never faults.  If the page recorded in the capability is
    still translated to the frame, its addresses are no longer translated, in
    that address space only, and the entry is cleaned from the cache and then
    invalidated in the TLB; if something else is mapped there by now, or
    nothing, no translation changes.  Every other address of every address
    space is translated as before, the capability forgets the mapping, and
    nothing else changes. *)
Theorem page_unmap_ok (k : kstate) (len ct asid pptr vaddr : Z) (sz : vm_page_size) (rights : vm_rights) (dev : bool) (excaps : list Z) (buffer : Z) (node : mdb_node_t) :
  mmu_call k len ct excaps buffer -> k_cte k !! ct = Some (mkCte (cap_frame_cap asid pptr sz vaddr rights dev) node) ->
  is_vaddr vaddr -> vaddr mod 2 ^ pageBitsForSize sz = 0 ->
  wp (decodeARMFrameInvocation ARMPageUnmap len ct (cap_frame_cap asid pptr sz vaddr rights dev) excaps buffer) (fun st k' =>
      st = EXCEPTION_NONE /\ nomem k' = nomem (recorded k ct (cap_frame_cap asidInvalid pptr sz 0 rights dev)) /\
      (asid = 0 -> same_tables k k') /\ (asid <> 0 -> page_gone k sz asid vaddr pptr k')) (fun _ => False) k.
Proof.
  intros [Hp Hiv Hcw [Hct _]] He Hv Hal. destruct (Hcw _ _ He) as [Ha _].
  change (decodeARMFrameInvocation ARMPageUnmap len ct (cap_frame_cap asid pptr sz vaddr rights dev) excaps buffer) with
    (do* set_restart in performPageInvocationUnmap (cap_frame_cap asid pptr sz vaddr rights dev) ct).
  destruct (iv_cur _ _ _ _ Hiv) as [Hcur Hcur0]. rewrite wp_bind. apply wp_set_restart; [done | done |].
  destruct (restarting_tables k) as (T & Ev & Ec). unfold recorded. rewrite He. unfold performPageInvocationUnmap. rewrite wp_bind.
  eapply (wp_mono _ (fun _ (k2 : kstate) => (asid = 0 -> k2 = restarting k) /\ (asid <> 0 -> page_gone (restarting k) sz asid vaddr pptr k2) /\
    nomem k2 = nomem (restarting k)) _ (fun _ => False)); [| | done].
  { destruct (Z.eqb_spec asid 0) as [E|N]; simpl; wp_steps; [done |].
    eapply wp_mono; [by apply unmapPage_ok; [by apply (same_pages_ok k) | ..] | | done]. by intros ? k2 [H1 H2]. }
  intros ? k2 (H1 & H2 & H3). assert (k_cte k2 = k_cte k) as E2 by (apply (f_equal k_cte) in H3; simpl in H3; congruence).
  rewrite wp_bind. eapply wp_slot_cap; [done | rewrite E2; exact He |]. simpl. unfold set_cap, cte_upd. rewrite !wp_bind.
  eapply wp_cte_some; [done | rewrite E2; exact He |]. wp_steps. split; [done |]. split; [|split].
  - set (x := mkCte _ _). change (upd_k_cte (insert ct x) (nomem k2) = upd_k_cte (insert ct x) (nomem (restarting k))). by rewrite H3.
  - intros ->. by rewrite (H1 eq_refl).
  - intros N. apply (page_gone_same k (restarting k) k2); [done | done | by split | done | by apply H2].
Qed.
End PageOps.
