(* ===== verification/KTables.v ===== *)
(** * Page tables and identifiers come into use

    Mapping an empty table and giving an identifier to an empty root keep the
    tables a forest and change no translation (KMmu.v on the tables of KPages.v);
    remapping below a table that is gone is a fault of the kernel. *)

From S2P Require Import Prelude KCaps KCapThms KState KSched KCspace KMdb KMsg KVspace KPages KIpc KDelete KUntyped KInvoke KMmu.
From S2P Require Import KUntypedThms KInvokeThms KPageOps.

(** ** Addresses and indices *)

Lemma index_bounds l v : 0 <= index l v < 512.
Proof. unfold index, INDEX_BITS. rewrite land_mask by done. by apply Z.mod_pos_bound. Qed.
(** The bits above a slot and its index are the bits that its address has. *)
Lemma prefix_S l v : (l < 3)%nat -> prefix (S l) v = prefix l v * 512 + index (S l) v.
Proof.
  intros Hl. unfold prefix, index, INDEX_BITS. rewrite land_mask by done. rewrite !Z.shiftr_div_pow2 by (unfold shift_of; lia).
  replace (shift_of l) with (shift_of (S l) + 9) by (unfold shift_of; lia). rewrite Z.pow_add_r by (unfold shift_of; lia).
  assert (0 < 2 ^ shift_of (S l)) by (apply Z.pow_pos_nonneg; unfold shift_of; lia). rewrite <- Z.div_div by lia.
  change (2 ^ 9) with 512. set (x := v / _). pose proof (Z.div_mod x 512). lia.
Qed.
Lemma prefix_0 v : is_vaddr v -> prefix 0 v = index 0 v.
Proof.
  unfold is_vaddr, prefix, index, INDEX_BITS, shift_of. intros Hv. rewrite land_mask by done. rewrite Z.mod_small; [done |].
  rewrite Z.shiftr_div_pow2 by lia. split; [apply Z.div_pos; lia | apply Z.div_lt_upper_bound; lia].
Qed.

(** A table in kernel memory. *)
Definition is_table (t : Z) : Prop := obj_region t 12.
Lemma entry_at_table t i : is_table t -> 0 <= i < 512 -> entry_at t i = t + i * 8.
Proof. intros (_ & H1 & _ & H2) Hi. unfold entry_at, w64. apply Z.mod_small. lia. Qed.
Lemma entry_at_inj t i j : is_table t -> 0 <= i < 512 -> 0 <= j < 512 -> entry_at t i = entry_at t j -> i = j.
Proof. intros Ht Hi Hj. rewrite !entry_at_table by done. lia. Qed.

Section Tables.
Context `{C : KConfig} `{P : KPlatform}.

(** A table to be used: all its entries are zero, and no path leads to them. *)
Record unused_table (k : kstate) (t : Z) : Prop := {
  ut_region : is_table t /\ t <> 0;
  ut_zero i : 0 <= i < 512 -> mem k (entry_at t i) = 0;
  ut_no_pool i : 0 <= i < 512 -> ~ pool_slot k (entry_at t i);
  ut_no_path i r v l : 0 <= i < 512 -> roots k r -> is_vaddr v -> (l <= 3)%nat -> walk (mem k) r v l <> Some (entry_at t i) }.
Definition phys_ok (t : Z) : Prop := 0 <= pptr_to_paddr t < 2 ^ 48 /\ pptr_to_paddr t mod 2 ^ 12 = 0.

Lemma paddr_roundtrip t : is_word t -> paddr_to_pptr (pptr_to_paddr t) = t.
Proof.
  unfold is_word, paddr_to_pptr, pptr_to_paddr, w64. intros Ht. rewrite Zplus_mod_idemp_l.
  replace (t - BASE_OFFSET + BASE_OFFSET) with t by lia. by apply Z.mod_small.
Qed.
Lemma table_entry t : is_table t -> phys_ok t -> next_table (table_new (pptr_to_paddr t)) = Some t.
Proof.
  intros Ht [H1 H2]. destruct (table_fields (pptr_to_paddr t) H1 H2) as [E1 E2]. unfold next_table. rewrite E1, E2, Z.eqb_refl.
  rewrite paddr_roundtrip; [done |]. destruct Ht as (_ & ? & _ & ?). unfold is_word. lia.
Qed.

(** ** Linking a table *)
Section Link.
Context (m : Z -> Z) (R : Z -> Prop) (r0 v0 s0 t e : Z) (l0 : nat).
Hypothesis Htree : tree_ok m R.
Hypothesis Hr0 : R r0.
Hypothesis Hl0 : (l0 < 3)%nat.
Hypothesis Hv0 : is_vaddr v0.
Hypothesis Hs0 : walk m r0 v0 l0 = Some s0.
Hypothesis Hnot : entry_type (m s0) <> TABLE.
Hypothesis He : next_table e = Some t.
Hypothesis Ht : is_table t.
Hypothesis Ht0 : t <> 0.
Hypothesis Hzero : forall i, 0 <= i < 512 -> m (entry_at t i) = 0.
Hypothesis Hpath : forall i r v l, 0 <= i < 512 -> R r -> is_vaddr v -> (l <= 3)%nat -> walk m r v l <> Some (entry_at t i).

Definition below (r v : Z) : Prop := r = r0 /\ prefix l0 v = prefix l0 v0.
#[local] Instance below_dec r v : Decision (below r v).
Proof. unfold below. apply _. Defined.

Lemma slot_not_table i : 0 <= i < 512 -> entry_at t i <> s0.
Proof. intros Hi E. apply (Hpath i r0 v0 l0 Hi Hr0 Hv0 ltac:(lia)). by rewrite E. Qed.

Lemma walk_link_low r v l : R r -> is_vaddr v -> (l <= l0)%nat -> walk (upd m s0 e) r v l = walk m r v l.
Proof.
  intros Hr Hv. induction l as [|l IH]; intros Hl; [done |]. rewrite !walk_S, IH by lia. destruct (walk m r v l) as [s|] eqn:E; [|done].
  assert (s <> s0) as N.
  { intros ->. assert (l <= 3)%nat as Hl3 by lia. assert (l0 <= 3)%nat as Hl03 by lia.
    destruct (tk_unique _ _ Htree _ _ _ _ _ _ _ Hr0 Hr Hl03 Hl3 Hv0 Hv Hs0 E) as (_ & E2 & _). lia. }
  by rewrite upd_other.
Qed.
Lemma walk_link r v l : R r -> is_vaddr v -> (l <= 3)%nat -> walk (upd m s0 e) r v l =
  if decide (l = S l0 /\ below r v) then Some (entry_at t (index (S l0) v)) else walk m r v l.
Proof.
  intros Hr Hv. induction l as [|l IH]; intros Hl; [rewrite decide_False by (intros [? _]; lia); done |].
  destruct (decide (l < l0)%nat) as [Hlt|Hge].
  { rewrite decide_False by (intros [? _]; lia). apply walk_link_low; [done | done | lia]. }
  rewrite walk_S, IH by lia. destruct (decide (below r v)) as [Hb|Hb].
  - destruct (decide (l = l0)) as [->|N].
    + rewrite (decide_False (P := l0 = S l0 /\ _)) by (intros [? _]; lia). rewrite (decide_True (P := S l0 = S l0 /\ _)) by done.
      destruct Hb as [-> Hb]. rewrite (walk_prefix m r0 v v0), Hs0, upd_same by (done || lia). unfold next_table in He.
      destruct (entry_type e =? TABLE); [|done]. by injection He as <-.
    + rewrite (decide_False (P := S l = S l0 /\ _)) by (intros [? _]; lia).
      assert (walk m r v (S l0) = None) as Hno.
      { rewrite walk_S. destruct Hb as [-> Hb]. rewrite (walk_prefix m r0 v v0), Hs0 by (done || lia). by rewrite (proj2 (Z.eqb_neq _ _) Hnot). }
      assert (walk m r v (S l) = None) as ->.
      { assert (l = S l0 \/ l = S (S l0)) as [->| ->] by lia; rewrite ?walk_S in *; by repeat (rewrite Hno || rewrite walk_S). }
      destruct (decide _) as [_|N2].
      * rewrite upd_other by (apply slot_not_table, index_bounds). by rewrite Hzero by apply index_bounds.
      * assert (l = S (S l0)) as -> by (assert (l <> S l0) by naive_solver; lia). rewrite walk_S, Hno. done.
  - rewrite !decide_False by (intros [_ ?]; done). rewrite walk_S. destruct (walk m r v l) as [s|] eqn:E; [|done].
    rewrite upd_other; [done |]. intros ->. assert (l <= 3)%nat as Hl3 by lia. assert (l0 <= 3)%nat as Hl03 by lia.
    destruct (tk_unique _ _ Htree _ _ _ _ _ _ _ Hr0 Hr Hl03 Hl3 Hv0 Hv Hs0 E) as (-> & <- & E3). by destruct Hb.
Qed.

(** The slots stay on one path each. *)
Lemma link_unique r r' v v' l l' s : R r -> R r' -> is_vaddr v -> is_vaddr v' -> (l <= 3)%nat -> (l' <= 3)%nat ->
  walk (upd m s0 e) r v l = Some s -> walk (upd m s0 e) r' v' l' = Some s -> r = r' /\ l = l' /\ prefix l v = prefix l v'.
Proof.
  intros Hr Hr' Hv Hv' Hl Hl'. rewrite !walk_link by done.
  destruct (decide (l = S l0 /\ below r v)) as [[-> [-> Hb]]|N]; destruct (decide (l' = S l0 /\ below r' v')) as [[-> [-> Hb']]|N'].
  - intros [= <-] [= E]. apply entry_at_inj in E; [|done | apply index_bounds..]. rewrite !(prefix_S l0) by done. by rewrite Hb, Hb', E.
  - intros [= <-] E. by apply Hpath in E; [| apply index_bounds | ..].
  - intros E [= <-]. by apply Hpath in E; [| apply index_bounds | ..].
  - intros E E'. exact (tk_unique _ _ Htree _ _ _ _ _ _ _ Hr Hr' Hl Hl' Hv Hv' E E').
Qed.
Lemma tree_ok_link : tree_ok (upd m s0 e) R.
Proof.
  split; [intros; by eapply link_unique |]. intros r v l s Hr Hl Hv. rewrite walk_link by done. case_decide; [|by apply (tk_nonnull _ _ Htree)].
  intros [= <-]. pose proof (index_bounds (S l0) v). rewrite entry_at_table by done. destruct Ht as (_ & ? & _). lia.
Qed.
(** No address is translated otherwise. *)
Lemma leaf_at_link r v sz : R r -> is_vaddr v -> entry_type (m s0) <> BLOCK \/ l0 = 0%nat -> leaf_at (upd m s0 e) r v sz = leaf_at m r v sz.
Proof.
  intros Hr Hv Hnb. unfold leaf_at. assert (level_of sz <= 3)%nat as Hl by (destruct sz; simpl; lia). rewrite walk_link by done.
  destruct (decide _) as [[El [-> Hb]]|N].
  - rewrite El, walk_S, (walk_prefix m r0 v v0), Hs0 by (done || lia). rewrite (proj2 (Z.eqb_neq _ _) Hnot). simpl.
    rewrite upd_other by (apply slot_not_table, index_bounds). rewrite Hzero by apply index_bounds. by destruct sz.
  - destruct (walk m r v (level_of sz)) as [s|] eqn:E; simpl; [|done]. destruct (decide (s = s0)) as [->|Ns]; [|by rewrite upd_other].
    assert (l0 <= 3)%nat as Hl03 by lia. destruct (tk_unique _ _ Htree _ _ _ _ _ _ _ Hr0 Hr Hl03 Hl Hv0 Hv Hs0 E) as (_ & E2 & _).
    rewrite upd_same. unfold next_table in He. destruct (Z.eqb_spec (entry_type e) TABLE) as [->|]; [|done].
    destruct sz; simpl in *; [lia | destruct Hnb as [Hnb|]; [|lia]; by rewrite (proj2 (Z.eqb_neq _ _) Hnb)..].
Qed.
Lemma leaf_link r v : R r -> is_vaddr v -> entry_type (m s0) <> BLOCK \/ l0 = 0%nat -> leaf (upd m s0 e) r v = leaf m r v.
Proof. intros. unfold leaf. by rewrite !leaf_at_link. Qed.
End Link.

(** The table [t] is linked below the slot of level [l] at [vaddr]: its slots can
    be used, and no address of any address space is translated otherwise. *)
Record table_linked (k : kstate) (pgd vaddr t : Z) (l : nat) (k' : kstate) : Prop := {
  tl_ok : pages_ok k';
  tl_spaces a : is_asid a -> vspace_of k' a = vspace_of k a;
  tl_translation a v : is_asid a -> is_vaddr v -> translation k' a v = translation k a v;
  tl_slots v : is_vaddr v -> prefix l v = prefix l vaddr -> walk (mem k') pgd v (S l) = Some (entry_at t (index (S l) v)) }.

Lemma link_ok k k1 k' asid pgd vaddr s t l : pages_ok k -> same_tables k k1 -> unused_table k t -> phys_ok t -> is_asid asid ->
  vspace_of k asid = Some pgd -> is_vaddr vaddr -> (l < 3)%nat -> walk (mem k) pgd vaddr l = Some s -> entry_type (mem k s) <> TABLE ->
  entry_type (mem k s) <> BLOCK \/ l = 0%nat -> wrote k1 s (table_new (pptr_to_paddr t)) k' -> table_linked k pgd vaddr t l k'.
Proof.
  intros Hk Ht [[U1 U2] U3 U4 U5] Hph Ha Hr Hv Hl Hs N1 N2 Hw. assert (roots k pgd) as Hroot by by exists asid.
  assert (l <= 3)%nat as Hl3 by lia. pose proof (po_apart _ Hk _ _ _ _ Hroot Hv Hl3 Hs) as Hap. pose proof (table_entry t U1 Hph) as He.
  assert (forall a, is_asid a -> vspace_of k' a = vspace_of k a) as Hsp.
  { intros a Haa. rewrite (vspace_of_wrote k1 k' s (table_new (pptr_to_paddr t))), (same_vspace k) by (done || by rewrite (same_pool_slot k)). done. }
  assert (forall r, roots k' r -> roots k r) as HR by (intros r (a & Haa & E); exists a; rewrite <- Hsp; auto).
  assert (forall a, mem k' a = upd (mem k) s (table_new (pptr_to_paddr t)) a) as Hm by (intros a; rewrite <- (same_mem k k1) by done; apply Hw).
  assert (forall a, pool_slot k' a <-> pool_slot k a) as Hps by (intros a; rewrite (nomem_pools k1) by apply Hw; by apply same_pool_slot).
  split; [split | done | |].
  - apply (tree_ok_ext (upd (mem k) s (table_new (pptr_to_paddr t))) _ (roots k)); [done | done |].
    apply (tree_ok_link _ _ pgd vaddr s t _ l); try done. apply Hk.
  - intros a. rewrite Hps. apply Hk.
  - assert (forall i, asid_pool_of k' i = asid_pool_of k i) as Hpl.
    { intros i. rewrite (nomem_pool k1) by apply Hw. unfold asid_pool_of. by rewrite (proj2 Ht). }
    intros i i' j j'. rewrite !Hpl. apply (po_unique _ Hk).
  - intros r v n x Hr' Hv' Hn. rewrite (walk_proper _ _ Hm _ _ eq_refl _ _ eq_refl _ _ eq_refl), Hps.
    rewrite (walk_link _ (roots k) pgd vaddr s t _ l) by (auto || apply Hk). case_decide; [|apply (po_apart _ Hk); auto].
    intros [= <-]. apply U4, index_bounds.
  - intros a v Haa Hvv. unfold translation. rewrite Hsp by done. destruct (vspace_of k a) as [r|] eqn:E; simpl; [|done].
    rewrite (leaf_proper _ _ Hm _ _ eq_refl _ _ eq_refl). apply (leaf_link _ (roots k) pgd vaddr s t _ l); try done; [apply Hk | by exists a].
  - intros v Hvv Hp. rewrite (walk_proper _ _ Hm _ _ eq_refl _ _ eq_refl _ _ eq_refl).
    rewrite (walk_link _ (roots k) pgd vaddr s t _ l) by (auto || apply Hk). by rewrite decide_True.
Qed.

(** ** The three invocations *)

Lemma perform_table_ok k ct e0 c entry s : s <> 0 -> ct <> 0 -> k_cte k !! ct = Some e0 ->
  wp (performTableMap c ct entry s) (fun st k' => st = EXCEPTION_NONE /\ wrote (recorded k ct c) s entry k') (fun _ => False) (restarting k).
Proof.
  intros Hs Hct He0. destruct (restarting_tables k) as (_ & _ & Ec). unfold performTableMap, set_cap, cte_upd, recorded. rewrite !wp_bind, He0.
  eapply wp_cte_some; [done | rewrite Ec; exact He0 |]. wp_steps. apply wp_entry_store; [done |]. intros k' Hw _. by wp_steps.
Qed.

(** The part that the decoders share. *)
Lemma table_front k len ct excaps buffer (mapped : bool) n f (Q : exception_t -> kstate -> Prop) : mmu_call k len ct excaps buffer -> 0 <= n ->
  (forall k', same_but_errors k k' -> Q EXCEPTION_SYSCALL_ERROR k') ->
  (forall w asid pgd, mapped = false -> is_asid asid -> vspace_of k asid = Some pgd -> is_vaddr (Z.ldiff w (MASK n)) -> wp (f w asid pgd) Q (fun _ => False) k) ->
  wp (let* root := excap excaps 0 in
      unless (2 <=? len) && negb (root =? 0) throws err_type_only seL4_TruncatedMessage in
      unless negb mapped throws err_InvalidCapability 0 in
      let* w := getSyscallArg 0 buffer in
      let* pgdCap := slot_cap root in
      let? '(asid, pgd) := root_of pgdCap in
      unless Z.ldiff w (MASK n) <=? USER_TOP throws err_InvalidArgument 0 in
      let? _ := check_root asid pgd 1 in
      f w asid pgd) Q (fun _ => False) k.
Proof.
  intros [Hp Hiv Hcw _] Hn H1 H2. rewrite wp_bind. eapply wp_excap; [done | lia |]. intros r Hr.
  apply wp_unless; [done | done |]. intros [Hlen Hr0]%andb_true_iff. apply Z.leb_le in Hlen. apply negb_true_iff, Z.eqb_neq in Hr0.
  apply wp_unless; [done | done |]. intros Hm%negb_true_iff. destruct (Hr Hr0) as [er Her]. rewrite wp_bind. eapply wp_arg; [done | lia |]. intros w Hw.
  rewrite wp_bind. eapply wp_slot_cap; [done | done |]. apply wp_try. apply root_of_ok; [exact (Hcw _ _ Her) | done |]. intros asid pgd Ha _.
  apply wp_unless; [done | done |]. intros Htop%Z.leb_le. apply wp_try. apply check_root_ok; [done | done | done |]. intros Hroot.
  apply H2; [done | done | done |]. split; [apply Z.ldiff_nonneg; left; apply Hw | unfold USER_TOP in Htop; lia].
Qed.

(** The level of the slot that a table goes in, its address and whether its
    capability is marked as mapped; the new capability. *)
Definition table_cap (c : cap) : option (nat * Z * bool) :=
  match c with
  | cap_page_upper_directory_cap _ t m _ => Some (0%nat, t, m)
  | cap_page_directory_cap _ t m _ => Some (1%nat, t, m)
  | cap_page_table_cap _ t m _ => Some (2%nat, t, m)
  | _ => None
  end.
Definition map_label (l : nat) : Z :=
  match l with O => ARMPageUpperDirectoryMap | S O => ARMPageDirectoryMap | _ => ARMPageTableMap end.
Definition mapped_cap (l : nat) (asid t vaddr : Z) : cap :=
  match l with
  | O => cap_page_upper_directory_cap asid t true vaddr
  | S O => cap_page_directory_cap asid t true vaddr
  | _ => cap_page_table_cap asid t true vaddr
  end.

(** What mapping the table can come to. *)
Definition table_outcome (k : kstate) (ct t : Z) (l : nat) (st : exception_t) (k' : kstate) : Prop :=
  (st = EXCEPTION_SYSCALL_ERROR /\ same_but_errors k k') \/
  (st = EXCEPTION_NONE /\ exists asid pgd vaddr, vspace_of k asid = Some pgd /\ is_vaddr vaddr /\ table_linked k pgd vaddr t l k' /\
    nomem k' = nomem (recorded k ct (mapped_cap l asid t vaddr))).

(** The last steps: the slot holds no table, the thread is restarted and the entry is written. *)
Lemma table_back k len ct excaps buffer asid pgd vaddr s t l (b : Z -> bool) : mmu_call k len ct excaps buffer -> unused_table k t -> phys_ok t ->
  is_asid asid -> vspace_of k asid = Some pgd -> is_vaddr vaddr -> (l < 3)%nat -> walk (mem k) pgd vaddr l = Some s ->
  (forall e, b e = false -> entry_type e <> TABLE /\ (entry_type e <> BLOCK \/ l = 0%nat)) ->
  wp (let* old := entry_get s in
      unless negb (b old) throws err_type_only seL4_DeleteFirst in
      do* set_restart in
      performTableMap (mapped_cap l asid t vaddr) ct (table_new (pptr_to_paddr t)) s) (table_outcome k ct t l) (fun _ => False) k.
Proof.
  intros [Hp Hiv _ [Hct [e0 He0]]] Hu Hph Ha Hr Hv Hl Hs Hnot. assert (roots k pgd) as Hroot by by exists asid.
  assert (s <> 0) as Hs0 by (eapply slot_nonnull; [done | exact Hroot | exact Hv | | exact Hs]; lia).
  rewrite wp_bind. apply wp_entry_get; [done |]. apply wp_unless; [done | by left |].
  intros [N1 N2]%negb_true_iff%Hnot. destruct (iv_cur _ _ _ _ Hiv) as [Hcur Hcur0].
  rewrite wp_bind. apply wp_set_restart; [done | done |]. eapply wp_mono; [by apply (perform_table_ok k ct e0) | | done].
  intros st k' [-> Hw]. right. split; [done |]. exists asid, pgd, vaddr. split; [done |]. split; [done |]. split; [|apply Hw].
  eapply (link_ok k (recorded k ct _) k' asid); try done. apply recorded_tables.
Qed.

(** C14: Mapping a page table, directory or upper directory never faults.  It
    reports an error and changes nothing else, or links the table below the
    slot of its level: the slots of the table can then be used for the
    addresses below, no address of any address space is translated otherwise,
    and the tables stay a forest in which every slot has one path.  That the
    table is empty and not yet in use is only assumed of a capability that is
    not marked as mapped: one that is marked is always refused. *)
Theorem table_map_ok (k : kstate) (len ct : Z) (c : cap) (l : nat) (t : Z) (mapped : bool) (excaps : list Z) (buffer : Z) :
  mmu_call k len ct excaps buffer -> table_cap c = Some (l, t, mapped) -> (mapped = false -> unused_table k t) -> phys_ok t ->
  wp (decodeARMMMUInvocation (map_label l) len ct c excaps buffer) (fun st k' =>
      (mapped = true -> st = EXCEPTION_SYSCALL_ERROR) /\ table_outcome k ct t l st k') (fun _ => False) k.
Proof.
  intros Hc Ht Hu Hph. assert (forall e, (entry_type e =? TABLE) || (entry_type e =? BLOCK) = false -> entry_type e <> TABLE /\ entry_type e <> BLOCK) as Hb
    by (intros e [H1%Z.eqb_neq H2%Z.eqb_neq]%orb_false_iff; done).
  assert (forall pgd, mapped = false -> wp pgd (table_outcome k ct t l) (fun _ => False) k -> wp pgd (fun st k' =>
    (mapped = true -> st = EXCEPTION_SYSCALL_ERROR) /\ table_outcome k ct t l st k') (fun _ => False) k) as Hout
    by (intros m -> Hm; eapply wp_mono; [exact Hm | by split | done]).
  destruct c; try done; injection Ht as <- <- <-.
  - apply (table_front k len ct excaps buffer _ PD_INDEX_OFFSET); [done | done | intros k' Hk'; split; [done | by left] |]. intros w asid pgd Hm Ha Hr Hv.
    apply Hout; [done |]. apply wp_try. eapply found_ok; [apply lookupPDSlot_ok; [apply Hc | by exists asid | done] | by left |]. intros s Hs.
    apply (table_back k len ct excaps buffer asid pgd _ s _ 2); auto. intros e He. destruct (Hb e He). auto.
  - apply (table_front k len ct excaps buffer _ PUD_INDEX_OFFSET); [done | done | intros k' Hk'; split; [done | by left] |]. intros w asid pgd Hm Ha Hr Hv.
    apply Hout; [done |]. apply wp_try. eapply found_ok; [apply lookupPUDSlot_ok; [apply Hc | by exists asid | done] | by left |]. intros s Hs.
    apply (table_back k len ct excaps buffer asid pgd _ s _ 1); auto. intros e He. destruct (Hb e He). auto.
  - apply (table_front k len ct excaps buffer _ PGD_INDEX_OFFSET); [done | done | intros k' Hk'; split; [done | by left] |]. intros w asid pgd Hm Ha Hr Hv.
    apply Hout; [done |]. apply (table_back k len ct excaps buffer asid pgd _ (lookupPGDSlot pgd (Z.ldiff w (MASK PGD_INDEX_OFFSET))) _ 0); auto.
    intros e He%Z.eqb_neq. auto.
Qed.

(** ** Assigning an identifier *)

(** A word off every path is written. *)
Lemma walk_upd_off m r v s0 e l : (l <= 3)%nat -> (forall n, (n <= 3)%nat -> walk m r v n <> Some s0) -> walk (upd m s0 e) r v l = walk m r v l.
Proof.
  intros Hl Hoff. induction l as [|l IH]; [done |]. rewrite !walk_S, IH by lia. destruct (walk m r v l) as [s|] eqn:E; [|done].
  rewrite upd_other; [done |]. intros ->. apply (Hoff l ltac:(lia) E).
Qed.
Lemma leaf_upd_off m r v s0 e : (forall n, (n <= 3)%nat -> walk m r v n <> Some s0) -> leaf (upd m s0 e) r v = leaf m r v.
Proof.
  intros Hoff. assert (forall sz, leaf_at (upd m s0 e) r v sz = leaf_at m r v sz) as H.
  { intros sz. assert (level_of sz <= 3)%nat as Hl by (destruct sz; simpl; lia). unfold leaf_at. rewrite walk_upd_off by done.
    destruct (walk m r v (level_of sz)) as [s|] eqn:E; simpl; [|done]. rewrite upd_other; [done |]. intros ->. by apply (Hoff _ Hl). }
  unfold leaf. by rewrite !H.
Qed.
(** An empty root leads nowhere. *)
Lemma walk_empty m t v l : (forall i, 0 <= i < 512 -> m (entry_at t i) = 0) ->
  walk m t v l = match l with O => Some (entry_at t (index 0 v)) | S _ => None end.
Proof.
  intros Hz. destruct l as [|l]; [done |]. induction l as [|l IH]; rewrite walk_S; [|by rewrite IH].
  simpl. by rewrite Hz by apply index_bounds.
Qed.
Lemma leaf_empty m t v : (forall i, 0 <= i < 512 -> m (entry_at t i) = 0) -> leaf m t v = None.
Proof. intros Hz. unfold leaf, leaf_at. by rewrite !walk_empty. Qed.

Lemma asid_split a : is_asid a -> a = Z.shiftr a asidLowBits * 512 + Z.land a (MASK asidLowBits).
Proof.
  intros Ha. unfold asidLowBits. rewrite land_mask, Z.shiftr_div_pow2 by done. change (2 ^ 9) with 512.
  pose proof (Z.div_mod a 512 ltac:(done)). lia.
Qed.

Section Assign.
Context (k k1 k' : kstate) (asid pgd s : Z).
Hypothesis Hk : pages_ok k.
Hypothesis Hsame : same_tables k k1.
Hypothesis Hu : unused_table k pgd.
Hypothesis Ha : is_asid asid.
Hypothesis Hpool : asid_pool_of k (Z.shiftr asid asidLowBits) <> 0.
Hypothesis Hslot : s = entry_at (asid_pool_of k (Z.shiftr asid asidLowBits)) (Z.land asid (MASK asidLowBits)).
Hypothesis Hfree : vspace_of k asid = None.
Hypothesis Hw : wrote k1 s pgd k'.

Lemma assign_slot : pool_slot k s.
Proof. subst s. destruct (asid_index asid Ha). by exists (Z.shiftr asid asidLowBits), (Z.land asid (MASK asidLowBits)). Qed.
Lemma assign_mem a : mem k' a = upd (mem k) s pgd a.
Proof. rewrite <- (same_mem k k1) by done. apply Hw. Qed.
Lemma assign_pool i : asid_pool_of k' i = asid_pool_of k i.
Proof. rewrite (nomem_pool k1) by apply Hw. unfold asid_pool_of. by rewrite (proj2 Hsame). Qed.
Lemma assign_pool_slot a : pool_slot k' a <-> pool_slot k a.
Proof. rewrite (nomem_pools k1) by apply Hw. by apply same_pool_slot. Qed.

Lemma assign_vspace a : is_asid a -> vspace_of k' a = if decide (a = asid) then Some pgd else vspace_of k a.
Proof.
  intros Haa. destruct (asid_index a Haa) as [I1 I2]. destruct (asid_index asid Ha) as [J1 J2]. unfold vspace_of. rewrite assign_pool, assign_mem.
  destruct (decide (a = asid)) as [->|N].
  - rewrite <- Hslot, upd_same, (proj2 (Z.eqb_neq _ _) Hpool). by rewrite (proj2 (Z.eqb_neq _ _) (proj2 (ut_region _ _ Hu))).
  - destruct (Z.eqb_spec (asid_pool_of k (Z.shiftr a asidLowBits)) 0) as [|Np]; [done |]. rewrite upd_other; [done |]. subst s. intros E. apply N.
    destruct (po_unique _ Hk _ _ _ _ I1 J1 I2 J2 Np Hpool E) as [E1 E2]. rewrite (asid_split a Haa), (asid_split asid Ha). by rewrite E1, E2.
Qed.
Lemma assign_roots r : roots k' r -> roots k r \/ r = pgd.
Proof. intros (a & Haa & E). rewrite assign_vspace in E by done. case_decide; [right; congruence | left; by exists a]. Qed.
Lemma walk_old r v l : roots k r -> is_vaddr v -> (l <= 3)%nat -> walk (mem k') r v l = walk (mem k) r v l.
Proof.
  intros Hr Hv Hl. rewrite (walk_proper _ _ assign_mem _ _ eq_refl _ _ eq_refl _ _ eq_refl). apply walk_upd_off; [done |].
  intros n Hn E. apply (po_apart _ Hk _ _ _ _ Hr Hv Hn E), assign_slot.
Qed.
Lemma empty_root i : 0 <= i < 512 -> mem k' (entry_at pgd i) = 0.
Proof.
  intros Hi. rewrite assign_mem, upd_other; [by apply Hu |]. intros E. apply (ut_no_pool _ _ Hu i Hi). rewrite E. apply assign_slot.
Qed.
Lemma walk_new v l : walk (mem k') pgd v l = match l with O => Some (entry_at pgd (index 0 v)) | S _ => None end.
Proof. apply walk_empty, empty_root. Qed.

Lemma assign_unique r r' v v' l l' x : roots k' r -> roots k' r' -> (l <= 3)%nat -> (l' <= 3)%nat -> is_vaddr v -> is_vaddr v' ->
  walk (mem k') r v l = Some x -> walk (mem k') r' v' l' = Some x -> r = r' /\ l = l' /\ prefix l v = prefix l v'.
Proof.
  intros [Hr| ->]%assign_roots [Hr'| ->]%assign_roots Hl Hl' Hv Hv'.
  - rewrite !walk_old by done. intros E E'. exact (tk_unique _ _ (po_tree _ Hk) _ _ _ _ _ _ _ Hr Hr' Hl Hl' Hv Hv' E E').
  - rewrite walk_old, walk_new by done. destruct l'; [|done]. intros E [= <-]. by apply (ut_no_path _ _ Hu) in E; [| apply index_bounds | ..].
  - rewrite walk_new, walk_old by done. destruct l; [|done]. intros [= <-] E. by apply (ut_no_path _ _ Hu) in E; [| apply index_bounds | ..].
  - rewrite !walk_new. destruct l, l'; try done. intros [= <-] [= E]. apply entry_at_inj in E; [| apply Hu | apply index_bounds..].
    split; [done |]. split; [done |]. by rewrite !prefix_0, E.
Qed.

Lemma assign_pages : pages_ok k'.
Proof.
  split.
  - split; [intros; by eapply assign_unique |]. intros r v l x [Hr| ->]%assign_roots Hl Hv.
    + rewrite walk_old by done. by apply (tk_nonnull _ _ (po_tree _ Hk)).
    + rewrite walk_new. destruct l; [|done]. intros [= <-]. pose proof (index_bounds 0 v). destruct (ut_region _ _ Hu) as [Ht Ht0].
      rewrite entry_at_table by done. destruct Ht as (_ & ? & _). lia.
  - intros a. rewrite assign_pool_slot. apply Hk.
  - intros i i' j j'. rewrite !assign_pool. apply (po_unique _ Hk).
  - intros r v l x [Hr| ->]%assign_roots Hv Hl; rewrite assign_pool_slot.
    + rewrite walk_old by done. by apply (po_apart _ Hk).
    + rewrite walk_new. destruct l; [|done]. intros [= <-]. apply (ut_no_pool _ _ Hu), index_bounds.
Qed.
Lemma assign_translation a v : is_asid a -> is_vaddr v -> translation k' a v = if decide (a = asid) then None else translation k a v.
Proof.
  intros Haa Hv. unfold translation. rewrite assign_vspace by done. case_decide; simpl.
  - apply leaf_empty, empty_root.
  - destruct (vspace_of k a) as [r|] eqn:E; simpl; [|done]. rewrite (leaf_proper _ _ assign_mem _ _ eq_refl _ _ eq_refl). apply leaf_upd_off.
    intros n Hn En. refine (po_apart _ Hk _ _ _ _ _ Hv Hn En assign_slot). by exists a.
Qed.
End Assign.

(** The loop finds the first entry that is free and is not the one of identifier 0. *)
Lemma first_free_asid_ok k base pool n : forall i, (forall j, i <= j < i + Z.of_nat n -> entry_at pool j <> 0) ->
  wp (first_free_asid base pool i n) (fun r k' => k' = k /\ i <= r <= i + Z.of_nat n /\
    (r < i + Z.of_nat n -> base + r <> 0 /\ mem k (entry_at pool r) = 0) /\
    forall j, i <= j < r -> base + j = 0 \/ mem k (entry_at pool j) <> 0) (fun _ => False) k.
Proof.
  induction n as [|n IH]; intros i Hnz; cbn [first_free_asid]; [wp_steps; split; [done |]; split; [lia | split; lia] |].
  assert (base + i = 0 \/ mem k (entry_at pool i) <> 0 -> wp (first_free_asid base pool (i + 1) n) (fun r k' => k' = k /\ i <= r <= i + Z.of_nat (S n) /\
    (r < i + Z.of_nat (S n) -> base + r <> 0 /\ mem k (entry_at pool r) = 0) /\
    forall j, i <= j < r -> base + j = 0 \/ mem k (entry_at pool j) <> 0) (fun _ => False) k) as Hnext.
  { intros Hi. eapply wp_mono; [apply IH; intros j Hj; apply Hnz; lia | | done]. intros r k' (-> & H1 & H2 & H3).
    split; [done |]. split; [lia |]. split; [intros Hr; apply H2; lia |]. intros j Hj. destruct (decide (j = i)) as [->|]; [done | apply H3; lia]. }
  destruct (Z.eqb_spec (base + i) 0) as [E|N]; [auto |]. rewrite wp_bind. apply wp_entry_get; [apply Hnz; lia |].
  destruct (Z.eqb_spec (mem k (entry_at pool i)) 0) as [E|N2]; cbn [negb]; [|auto].
  wp_steps. split; [done |]. split; [lia |]. split; [done | lia].
Qed.

Lemma asid_of_pool base i : is_asid base -> base mod 512 = 0 -> 0 <= i < 512 ->
  is_asid (base + i) /\ Z.shiftr (base + i) asidLowBits = Z.shiftr base asidLowBits /\ Z.land (base + i) (MASK asidLowBits) = i.
Proof.
  unfold is_asid, asidLowBits. intros Hb Hm Hi. rewrite land_mask, !Z.shiftr_div_pow2 by done. change (2 ^ 9) with 512.
  apply Z.div_exact in Hm; [|done]. split; [change (2 ^ 16) with 65536 in *; lia |].
  split; [symmetry; apply (Z.div_unique_pos _ _ _ i); lia | symmetry; apply (Z.mod_unique_pos _ _ (base / 512)); lia].
Qed.

(** [asid] leads to the root [pgd] now, whose capability in [slot] records it. *)
Record assigned (k : kstate) (asid pgd slot : Z) (k' : kstate) : Prop := {
  as_ok : pages_ok k';
  as_spaces a : is_asid a -> vspace_of k' a = if decide (a = asid) then Some pgd else vspace_of k a;
  as_translation a v : is_asid a -> is_vaddr v -> translation k' a v = if decide (a = asid) then None else translation k a v;
  as_rest : nomem k' = nomem (recorded k slot (cap_page_global_directory_cap asid pgd true)) }.

Lemma perform_assign_ok k asid slot a0 pgd node : pages_ok k -> is_asid asid -> asid_pool_of k (Z.shiftr asid asidLowBits) <> 0 ->
  vspace_of k asid = None -> unused_table k pgd -> slot <> 0 ->
  k_cte k !! slot = Some (mkCte (cap_page_global_directory_cap a0 pgd false) node) ->
  wp (performASIDPoolInvocation asid (asid_pool_of k (Z.shiftr asid asidLowBits)) slot)
    (fun st k' => st = EXCEPTION_NONE /\ assigned k asid pgd slot k') (fun _ => False) (restarting k).
Proof.
  intros Hp Ha Hpl Hfree Hu Hs0 He. destruct (restarting_tables k) as (_ & _ & Ec). unfold performASIDPoolInvocation.
  rewrite wp_bind. eapply wp_slot_cap; [done | rewrite Ec; exact He |]. cbn [cte_cap]. unfold set_cap, cte_upd, entry_set, word_set. rewrite !wp_bind.
  eapply wp_cte_some; [done | rewrite Ec; exact He |]. set (s := entry_at _ _).
  assert (pool_slot k s) as Hps by (destruct (asid_index asid Ha); by exists (Z.shiftr asid asidLowBits), (Z.land asid (MASK asidLowBits))). wp_steps. rewrite (proj2 (Z.eqb_neq _ _) (po_pools _ Hp _ Hps)). wp_steps.
  split; [done |]. pose proof (recorded_tables k slot (cap_page_global_directory_cap asid pgd true)) as Ht. unfold recorded in *. rewrite He in *.
  set (k1 := upd_k_cte _ (restarting k)) in *. assert (wrote k1 s pgd (upd_k_word (insert s pgd) k1)) as Hw.
  { split; [done |]. intros a. unfold mem, upd. simpl. destruct (decide (a = s)) as [->|]; [by rewrite lookup_insert_eq | by rewrite lookup_insert_ne]. }
  split.
  - by apply (assign_pages k k1 _ asid pgd s).
  - intros a Haa. by apply (assign_vspace k k1 _ asid pgd s).
  - intros a v Haa Hv. by apply (assign_translation k k1 _ asid pgd s).
  - unfold recorded. by rewrite He.
Qed.

(** C16: Assigning an address space to a pool never faults.  It reports an error and
    changes nothing else, or it gives the root the first identifier of the pool
    that is free, which is never 0: looking up that identifier finds the root,
    every other identifier leads where it did, no address of the new address
    space is translated yet, all other translations are as before, and the
    capability records the identifier. *)

Theorem asid_assign_ok (k : kstate) (len ct base pool : Z) (excaps : list Z) (buffer : Z) :
  mmu_call k len ct excaps buffer -> is_asid base -> base mod 512 = 0 ->
  (forall p node a pgd, k_cte k !! p = Some (mkCte (cap_page_global_directory_cap a pgd false) node) -> unused_table k pgd) ->
  wp (decodeARMMMUInvocation ARMASIDPoolAssign len ct (cap_asid_pool_cap base pool) excaps buffer) (fun st k' =>
      (st = EXCEPTION_SYSCALL_ERROR /\ same_but_errors k k') \/
      (st = EXCEPTION_NONE /\ exists asid pgd slot, asid <> 0 /\ base <= asid < base + 512 /\ vspace_of k asid = None /\
        (forall a, base <= a < asid -> a = 0 \/ is_Some (vspace_of k a)) /\ assigned k asid pgd slot k')) (fun _ => False) k.
Proof.
  intros [Hp Hiv Hcw _] Hb Hbm Hun. cbn [decodeARMMMUInvocation]. unfold decode_asid_pool. rewrite Z.eqb_refl. cbn [negb].
  rewrite wp_bind. eapply wp_excap; [done | lia |]. intros r Hr. apply wp_unless; [done | auto |]. intros Hr0%negb_true_iff%Z.eqb_neq.
  destruct (Hr Hr0) as [[c node] He]. rewrite wp_bind. eapply wp_slot_cap; [done | done |]. cbn [cte_cap].
  destruct c as [| | | | | | | | | | | | | | | a0 pgd [|] | |]; try (by apply wp_throw; [done | auto]).
  destruct (asid_index base Hb) as [Hi _]. rewrite wp_bind. apply wp_asid_table_get; [done |].
  apply wp_unless; [unfold err_FailedLookup, set_lookup_fault; by wp_steps | auto |]. intros Hpl%negb_true_iff%Z.eqb_neq.
  apply wp_unless; [done | auto |]. intros _.
  rewrite wp_bind. eapply wp_mono; [apply first_free_asid_ok; intros j Hj; apply (po_pools _ Hp); by exists (Z.shiftr base asidLowBits), j | | done].
  intros i k1 (-> & Hi1 & Hi2 & Hi3). change (0 + Z.of_nat (Z.to_nat (BIT asidLowBits))) with 512 in *. change (BIT asidLowBits) with 512.
  apply wp_unless; [done | auto |]. intros Hi4%negb_true_iff%Z.eqb_neq. destruct (Hi2 ltac:(lia)) as [Hnz Hfree].
  destruct (iv_cur _ _ _ _ Hiv) as [Hcur Hcur0]. rewrite wp_bind. apply wp_set_restart; [done | done |].
  assert (forall j, 0 <= j < 512 -> vspace_of k (base + j) = None <-> mem k (entry_at (asid_pool_of k (Z.shiftr base asidLowBits)) j) = 0) as Hvs.
  { intros j Hj. destruct (asid_of_pool base j Hb Hbm Hj) as (_ & Es & El). unfold vspace_of. rewrite Es, El, (proj2 (Z.eqb_neq _ _) Hpl).
    destruct (Z.eqb_spec (mem k (entry_at (asid_pool_of k (Z.shiftr base asidLowBits)) j)) 0); done. }
  destruct (asid_of_pool base i Hb Hbm ltac:(lia)) as (Ha & Es & _). rewrite <- Es in *. eapply wp_mono; [eapply perform_assign_ok; try done | | done].
  - apply Hvs; [lia | done].
  - by eapply Hun.
  - intros st k' [-> Has]. right. split; [done |]. exists (base + i), pgd, r. split; [done |]. split; [lia |]. split; [apply Hvs; [lia | done] |].
    split; [|done]. intros a Haa. replace a with (base + (a - base)) by lia. destruct (Hi3 (a - base) ltac:(lia)) as [E|E]; [by left | right].
    apply not_eq_None_Some. intros E2. apply E. apply Hvs; [lia | done].
Qed.

(** ** Remapping *)

(** C40: Remapping a frame whose page table is gone dereferences a null pointer in
    the kernel: the status of the lookup is not looked at.  All the caller needs
    is the capability of a frame that is recorded as mapped in an address space
    of its own, after the table that held the mapping was unmapped. *)
Theorem page_remap_null (k : kstate) (len ct r asid pgd pptr vaddr : Z) (sz : vm_page_size) (rights : vm_rights) (dev : bool)
    (rest : list Z) (buffer : Z) (node : mdb_node_t) :
  mmu_call k len ct (r :: rest) buffer -> 2 <= len -> r <> 0 ->
  k_cte k !! r = Some (mkCte (cap_page_global_directory_cap asid pgd true) node) -> vspace_of k asid = Some pgd ->
  is_vaddr vaddr -> walk (mem k) pgd vaddr (level_of sz) = None ->
  decodeARMMMUInvocation ARMPageRemap len ct (cap_frame_cap asid pptr sz vaddr rights dev) (r :: rest) buffer k = inr NullDeref.
Proof.
  intros [Hp Hiv Hcw _] Hlen Hr0 He Hroot Hv Hno.
  assert (wp (decode_page_remap len ct (cap_frame_cap asid pptr sz vaddr rights dev) (r :: rest) buffer)
    (fun _ _ => False) (fun f => f = NullDeref) k) as Hw.
  2: { change (decode_page_remap len ct (cap_frame_cap asid pptr sz vaddr rights dev) (r :: rest) buffer k = inr NullDeref).
       unfold wp in Hw. destruct (decode_page_remap _ _ _ _ _ k) as [[]|f]; [done | by subst f]. }
  unfold decode_page_remap. rewrite wp_bind. unfold excap. cbn [lookup list_lookup]. wp_step.
  rewrite (proj2 (Z.leb_le _ _) Hlen), (proj2 (Z.eqb_neq _ _) Hr0). cbn [andb negb]. destruct (Hcw _ _ He) as [Ha _].
  rewrite wp_bind. eapply wp_arg; [done | lia |]. intros attributes _. rewrite wp_bind. eapply wp_slot_cap; [done | done |].
  rewrite wp_bind. eapply wp_arg; [done | lia |]. intros w _. cbn [cte_cap root_of]. unfold try_. wp_steps.
  eapply (wp_mono _ (fun x k1 => x = inr tt /\ k1 = k) _ (fun _ => False)); [| | done].
  { unfold check_root. rewrite wp_bind. eapply wp_mono; [by apply findVSpaceForASID_ok | | done]. unfold looked_up. rewrite Hroot.
    intros ? k1 [-> ->]. simpl. rewrite Z.eqb_refl. by wp_steps. }
  intros ? ? [-> ->]. rewrite Z.eqb_refl. cbn [negb]. wp_step.
  eapply (wp_mono _ _ _ (fun _ => False)); [apply frame_slot_ok; [done | by exists asid | done] | | done].
  unfold looked_up. rewrite Hno. intros ? k1 [-> Hk1]. simpl. pose proof (f_equal k_tcb Hk1) as E1. pose proof (f_equal ksCurThread Hk1) as E2.
  simpl in E1, E2. destruct (iv_cur _ _ _ _ Hiv) as [Hcur Hcur0]. rewrite wp_bind. apply wp_set_restart; [by rewrite E1, E2 | by rewrite E2 |].
  by destruct sz.
Qed.
End Tables.
