(* ===== verification/KPageDemo.v ===== *)
(** * An address space

    A small forest of page tables, on which the theorems on address spaces
    (KPageOps.v, KTables.v) are applied: one address space with identifier 1,
    whose tables at 12 KB, 16 KB and 20 KB of kernel memory are linked at
    address 0, as far as wanted. *)

From S2P Require Import Prelude KCaps KCapThms KState KSched KCspace KMdb KMsg KVspace KPages KIpc KDelete KUntyped KInvoke KMmu.
From S2P Require Import KUntypedThms KInvokeThms KPageOps KTables.

#[local] Existing Instance default_config.
#[local] Existing Instance quiet_platform.

Definition demo_base : Z := 0xffffff8000000000.
Definition demo_pool : Z := demo_base + 0x1000.
Definition demo_table (l : nat) : Z := demo_base + 0x2000 + Z.of_nat l * 0x1000.
Definition demo_link (l : nat) : Z := table_new (pptr_to_paddr (demo_table (S l))).
Definition demo_words (n : nat) : gmap Z Z :=
  list_to_map ((demo_pool + 8, demo_table 0) :: map (fun l => (demo_table l, demo_link l)) (seq 0 n)).

Lemma demo_word n l i : (n <= 3)%nat -> (l <= 3)%nat -> 0 <= i < 512 ->
  default 0 (demo_words n !! entry_at (demo_table l) i) = if decide (i = 0 /\ (l < n)%nat) then demo_link l else 0.
Proof.
  intros Hn Hl Hi. assert (entry_at (demo_table l) i = demo_table l + i * 8) as ->.
  { unfold entry_at, w64. apply Z.mod_small. unfold demo_table, demo_base. lia. }
  assert (n = 0 \/ n = 1 \/ n = 2 \/ n = 3)%nat as Hn' by lia. assert (l = 0 \/ l = 1 \/ l = 2 \/ l = 3)%nat as Hl' by lia.
  destruct (decide (i = 0)) as [->|N].
  - destruct Hn' as [->|[->|[->| ->]]], Hl' as [->|[->|[->| ->]]]; by vm_compute.
  - rewrite decide_False by (intros [? _]; done).
    destruct Hn' as [->|[->|[->| ->]]]; cbn [demo_words map seq list_to_map foldr uncurry fst snd];
      rewrite !lookup_insert_ne by (unfold demo_table, demo_pool, demo_base; lia); by rewrite lookup_empty.
Qed.
Lemma demo_pool_word n j : (n <= 3)%nat -> 0 <= j < 512 ->
  default 0 (demo_words n !! entry_at demo_pool j) = if decide (j = 1) then demo_table 0 else 0.
Proof.
  intros Hn Hj. assert (entry_at demo_pool j = demo_pool + j * 8) as ->.
  { unfold entry_at, w64. apply Z.mod_small. unfold demo_pool, demo_base. lia. }
  assert (n = 0 \/ n = 1 \/ n = 2 \/ n = 3)%nat as Hn' by lia. destruct (decide (j = 1)) as [->|N].
  - destruct Hn' as [->|[->|[->| ->]]]; by vm_compute.
  - destruct Hn' as [->|[->|[->| ->]]]; cbn [demo_words map seq list_to_map foldr uncurry fst snd];
      rewrite !lookup_insert_ne by (unfold demo_table, demo_pool, demo_base; lia); by rewrite lookup_empty.
Qed.

(** The slots of the demonstration: a frame, the root, a page table and a root that are not in use. *)
Definition demo_frame_ptr : Z := demo_base + 0x10000.
Definition page_slots (frame : cap) : gmap Z cte_t :=
  <[4096 := mkCte frame nullMDBNode]> (<[4128 := mkCte (cap_page_global_directory_cap 1 (demo_table 0) true) nullMDBNode]>
  (<[4160 := mkCte (cap_page_table_cap 0 (demo_table 3) false 0) nullMDBNode]>
  {[4192 := mkCte (cap_page_global_directory_cap 0 (demo_table 4) false) nullMDBNode]})).
Definition mapper (args : list Z) : tcb_t :=
  mkTcb (list_to_map (zip [2; 3; 4; 5] args)) ThreadState_Running false 0 0 false false false 0 seL4_Fault_NullFault
    lookup_fault_invalid_root 0 0 0 5 0 0 0 0 0 0.
Definition demo_space (words : gmap Z Z) (frame : cap) (args : list Z) : kstate :=
  upd_armKSASIDTable (fun _ => {[0 := demo_pool]}) (upd_k_word (fun _ => words) (upd_k_cte (fun _ => page_slots frame)
    (upd_k_tcb (fun _ => {[1024 := mapper args]}) (upd_ksCurThread (fun _ => 1024) demo_cspace)))).

Section Demo.
Context (n : nat) (frame : cap) (args : list Z).
Hypothesis Hn : (n <= 3)%nat.
Let k := demo_space (demo_words n) frame args.

Lemma demo_pool_of i : asid_pool_of k i = if decide (i = 0) then demo_pool else 0.
Proof. unfold asid_pool_of. simpl. destruct (decide (i = 0)) as [->|N]; [done | by rewrite lookup_singleton_ne]. Qed.
Lemma demo_pool_slot a : pool_slot k a -> exists j, 0 <= j < 512 /\ a = demo_pool + j * 8.
Proof.
  intros (i & j & Hi & Hj & Hp & ->). rewrite demo_pool_of in *. case_decide; [|done]. exists j. change (2 ^ asidLowBits) with 512 in Hj.
  split; [done |]. unfold entry_at, w64. apply Z.mod_small. unfold demo_pool, demo_base. lia.
Qed.
Lemma demo_vspace a : is_asid a -> vspace_of k a = if decide (a = 1) then Some (demo_table 0) else None.
Proof.
  intros Ha. destruct (asid_index a Ha) as [_ Hj]. pose proof (asid_split a Ha) as Es. unfold vspace_of. rewrite demo_pool_of.
  destruct (decide (Z.shiftr a asidLowBits = 0)) as [E|N].
  - change (demo_pool =? 0) with false. unfold mem. cbn [k demo_space k_word]. simpl k_word. rewrite demo_pool_word by done.
    destruct (decide (a = 1)) as [->|N1]; [done |]. rewrite decide_False by lia. done.
  - rewrite decide_False; [done |]. intros ->. by apply N.
Qed.
Lemma demo_roots r : roots k r -> r = demo_table 0.
Proof. intros (a & Ha & E). rewrite demo_vspace in E by done. case_decide; congruence. Qed.

Lemma demo_link_next l : (l < 3)%nat -> next_table (demo_link l) = Some (demo_table (S l)).
Proof. intros Hl. assert (l = 0 \/ l = 1 \/ l = 2)%nat as [->|[->| ->]] by lia; by vm_compute. Qed.
Lemma demo_walk v l s : (l <= 3)%nat -> walk (mem k) (demo_table 0) v l = Some s ->
  (l <= n)%nat /\ s = entry_at (demo_table l) (index l v) /\ forall l', (l' < l)%nat -> index l' v = 0.
Proof.
  revert s. induction l as [|l IH]; intros s Hl; [intros [= <-]; split; [lia |]; split; [done | lia] |].
  intros Hw. apply bind_Some in Hw as (t & Ht & [= <-]). apply bind_Some in Ht as (u & Hu & Ht).
  destruct (IH u ltac:(lia) Hu) as (H1 & -> & H2). unfold mem in Ht. cbn [k demo_space] in Ht. simpl k_word in Ht.
  rewrite demo_word in Ht by (lia || apply index_bounds). destruct (decide _) as [[E1 E2]|N]; [|done].
  rewrite demo_link_next in Ht by lia. injection Ht as <-. split; [lia |]. split; [done |].
  intros l' Hl'. destruct (decide (l' = l)) as [->|]; [done | apply H2; lia].
Qed.
Lemma demo_prefix v l : is_vaddr v -> (l <= 3)%nat -> (forall l', (l' < l)%nat -> index l' v = 0) -> prefix l v = index l v.
Proof.
  intros Hv. induction l as [|l IH]; intros Hl H; [by apply prefix_0 |]. rewrite prefix_S, IH by (lia || (intros; apply H; lia)).
  rewrite (H l) by lia. lia.
Qed.
Lemma demo_entry l i : (l <= 4)%nat -> 0 <= i < 512 -> entry_at (demo_table l) i = demo_table l + i * 8.
Proof. intros Hl Hi. unfold entry_at, w64. apply Z.mod_small. unfold demo_table, demo_base. lia. Qed.

Lemma demo_pages : pages_ok k.
Proof.
  split.
  - split.
    + intros r r' v v' l l' s ->%demo_roots ->%demo_roots Hl Hl' Hv Hv' (H1 & -> & H2)%demo_walk (H3 & E & H4)%demo_walk; [|done..].
      pose proof (index_bounds l v). pose proof (index_bounds l' v'). rewrite !demo_entry in E by (done || lia).
      assert (l = l') as <- by (unfold demo_table in E; lia). split; [done |]. split; [done |]. rewrite !demo_prefix by done. lia.
    + intros r v l s ->%demo_roots Hl Hv (H1 & -> & H2)%demo_walk; [|done]. pose proof (index_bounds l v). rewrite demo_entry by (done || lia).
      unfold demo_table, demo_base. lia.
  - intros a (j & Hj & ->)%demo_pool_slot. unfold demo_pool, demo_base. lia.
  - intros i i' j j' Hi Hi' Hj Hj'. rewrite !demo_pool_of. repeat case_decide; try done. subst. intros _ _ E. split; [done |].
    change (2 ^ asidLowBits) with 512 in *. unfold entry_at, w64, demo_pool, demo_base in E. rewrite !Z.mod_small in E by lia. lia.
  - intros r v l s ->%demo_roots Hv Hl (H1 & -> & H2)%demo_walk (j & Hj & E)%demo_pool_slot; [|done]. pose proof (index_bounds l v).
    rewrite demo_entry in E by (done || lia). unfold demo_table, demo_pool in E. lia.
Qed.

(** Tables that are not linked are not in use. *)
Lemma demo_unused l : (n < l <= 4)%nat -> unused_table k (demo_table l).
Proof.
  intros Hl. assert (is_table (demo_table l)) as Ht.
  { assert (l = 0 \/ l = 1 \/ l = 2 \/ l = 3 \/ l = 4)%nat as [->|[->|[->|[->| ->]]]] by lia; vm_compute; intuition congruence. }
  split.
  - split; [done |]. unfold demo_table, demo_base. lia.
  - intros i Hi. unfold mem. simpl k_word. rewrite demo_entry by (done || lia).
    assert (n = 0 \/ n = 1 \/ n = 2 \/ n = 3)%nat as [->|[->|[->| ->]]] by lia; cbn [demo_words map seq list_to_map foldr uncurry fst snd];
      rewrite !lookup_insert_ne by (unfold demo_table, demo_pool, demo_base; lia); by rewrite lookup_empty.
  - intros i Hi (j & Hj & E)%demo_pool_slot. rewrite demo_entry in E by (done || lia). unfold demo_table, demo_pool in E. lia.
  - intros i r v l' Hi ->%demo_roots Hv Hl' (H1 & E & _)%demo_walk; [|done]. pose proof (index_bounds l' v).
    rewrite !demo_entry in E by (done || lia). unfold demo_table in E. lia.
Qed.
End Demo.

Lemma demo_words_ok n : (n <= 3)%nat -> map_Forall (fun _ w => is_word w) (demo_words n).
Proof.
  intros Hn. assert (n = 0 \/ n = 1 \/ n = 2 \/ n = 3)%nat as [->|[->|[->| ->]]] by lia; cbn [demo_words map seq list_to_map foldr uncurry fst snd];
    repeat (apply map_Forall_insert_2; [by vm_compute |]); apply map_Forall_empty.
Qed.
Lemma demo_args_ok args : Forall is_word args -> map_Forall (fun _ w => is_word w) (tcbRegs (mapper args)).
Proof.
  intros Ha. unfold mapper, tcbRegs. generalize [2; 3; 4; 5]. intros l. revert l. induction Ha as [|a args Ha Hs IH]; intros [|x l]; simpl; try apply map_Forall_empty.
  apply map_Forall_insert_2; [done | apply IH].
Qed.
Lemma demo_mmu_call words frame args len ct rest : pages_ok (demo_space words frame args) -> map_Forall (fun _ w => is_word w) words -> Forall is_word args ->
  cap_wf frame -> len <= 4 -> ct = 4096 \/ ct = 4160 -> rest = 4128 \/ rest = 4192 -> mmu_call (demo_space words frame args) len ct [rest; 0; 0] 0.
Proof.
  intros Hp Hw Ha Hf Hlen Hct Hrest. split; [done | split | |].
  - split; [|done]. simpl. apply map_Forall_singleton. by apply demo_args_ok.
  - split; [by eexists | done].
  - done.
  - intros r. rewrite !list.elem_of_cons. intros [->|[->|[->|[]%not_elem_of_nil]]]; [|done..]. intros _. by destruct Hrest as [->| ->]; eexists.
  - intros _. change n_msgRegisters with 4. lia.
  - simpl. unfold page_slots. apply map_Forall_insert_2; [done |].
    repeat (apply map_Forall_insert_2; [vm_compute; intuition congruence |]). apply map_Forall_empty.
  - split; [lia |]. by destruct Hct as [->| ->]; eexists.
Qed.

Definition demo_frame (asid vaddr : Z) : cap := cap_frame_cap asid demo_frame_ptr ARMSmallPage vaddr VMReadWrite false.
Lemma demo_frame_base : frame_base demo_frame_ptr ARMSmallPage.
Proof. vm_compute. intuition congruence. Qed.

(** The page at 0x3000 is mapped. *)
Lemma page_map_ok_witness :
  wp (@decode_page_map default_config 3 4096 (demo_frame 0 0) [4128; 0; 0] 0) (fun st k' => st = EXCEPTION_NONE /\
      maps_frame k' 1 0x3000 demo_frame_ptr ARMSmallPage = true /\ pages_ok k')
    (fun _ => False) (demo_space (demo_words 3) (demo_frame 0 0) [0x3000; 3; 1]).
Proof.
  assert (mmu_call (demo_space (demo_words 3) (demo_frame 0 0) [0x3000; 3; 1]) 3 4096 [4128; 0; 0] 0) as Hc.
  { apply demo_mmu_call; [by apply demo_pages | by apply demo_words_ok | by repeat constructor | vm_compute; intuition congruence | lia | by left | by left]. }
  pose proof (page_map_ok _ 3 4096 0 demo_frame_ptr 0 ARMSmallPage VMReadWrite false [4128; 0; 0] 0 Hc demo_frame_base) as H.
  unfold wp in *. destruct (decode_page_map _ _ _ _ _ (demo_space (demo_words 3) (demo_frame 0 0) [0x3000; 3; 1])) as [[st k']|f] eqn:E; [|done].
  assert (st = EXCEPTION_NONE /\ maps_frame k' 1 0x3000 demo_frame_ptr ARMSmallPage = true) as [-> Hm].
  { vm_compute in E. injection E as <- <-. by vm_compute. }
  destruct H as [[H _]|(_ & _ & asid & pgd & vaddr & _ & _ & _ & _ & _ & e & w & _ & Hpg & _)]; [discriminate H |].
  split; [done |]. split; [done |]. apply Hpg.
Defined.

(** The memory with that page mapped, and the page goes again. *)
Definition demo_leaf : Z := makeUser3rdLevel (pptr_to_paddr demo_frame_ptr) VMReadWrite 1.
Definition leaf_words : gmap Z Z := <[entry_at (demo_table 3) 3 := demo_leaf]> (demo_words 3).
Lemma demo_leaf_pages frame args : pages_ok (demo_space leaf_words frame args).
Proof.
  pose proof (demo_pages 3 frame args ltac:(lia)) as Hp. set (k := demo_space (demo_words 3) frame args) in *.
  assert (is_asid 1) as Ha by (unfold is_asid; lia). assert (is_vaddr 0x3000) as Hv by (unfold is_vaddr; lia).
  refine (pg_ok _ _ _ _ _ _ (write_page k k _ (demo_table 0) 1 0x3000 (entry_at (demo_table 3) 3) demo_leaf ARMSmallPage Hp _ Ha _ Hv _ _ _ _)).
  - done.
  - by vm_compute.
  - done.
  - by vm_compute.
  - by left.
  - split; [done |]. intros a. unfold mem, upd. change (k_word (demo_space leaf_words frame args)) with leaf_words.
    change (k_word k) with (demo_words 3). unfold leaf_words. destruct (decide (a = entry_at (demo_table 3) 3)) as [->|N];
      [by rewrite lookup_insert_eq | by rewrite lookup_insert_ne].
Qed.

Lemma page_unmap_ok_witness :
  let k := demo_space leaf_words (demo_frame 1 0x3000) [] in
  maps_frame k 1 0x3000 demo_frame_ptr ARMSmallPage = true /\
  wp (@decodeARMFrameInvocation default_config ARMPageUnmap 0 4096 (demo_frame 1 0x3000) [4128; 0; 0] 0) (fun st k' => st = EXCEPTION_NONE /\
      translation k' 1 0x3000 = None /\ pages_ok k') (fun _ => False) k.
Proof.
  intros k. split; [by vm_compute |].
  assert (mmu_call k 0 4096 [4128; 0; 0] 0) as Hc.
  { apply demo_mmu_call; [apply demo_leaf_pages | | done | vm_compute; intuition congruence | lia | by left | by left].
    apply map_Forall_insert_2; [by vm_compute | by apply demo_words_ok]. }
  assert (is_vaddr 0x3000) as Hv by (unfold is_vaddr; lia).
  pose proof (page_unmap_ok k 0 4096 1 demo_frame_ptr 0x3000 ARMSmallPage VMReadWrite false [4128; 0; 0] 0 nullMDBNode Hc eq_refl Hv eq_refl) as H.
  eapply wp_mono; [exact H | | done]. intros st k' (-> & _ & _ & Hg). destruct (Hg ltac:(done)) as (Hp & _ & Ht & _).
  split; [done |]. split; [|done]. rewrite Ht; [|unfold is_asid; lia | done]. apply decide_True. split; [by vm_compute |]. split; [done |].
  split; [done | by vm_compute].
Defined.

(** A page table is mapped below the page directory. *)
Lemma table_map_ok_witness :
  let k := demo_space (demo_words 2) (demo_frame 0 0) [0; 0] in
  wp (@decodeARMMMUInvocation default_config (map_label 2) 2 4160 (cap_page_table_cap 0 (demo_table 3) false 0) [4128; 0; 0] 0)
    (fun st k' => st = EXCEPTION_NONE /\ pages_ok k' /\ forall v, is_vaddr v -> translation k' 1 v = translation k 1 v) (fun _ => False) k.
Proof.
  intros k. assert (mmu_call k 2 4160 [4128; 0; 0] 0) as Hc.
  { apply demo_mmu_call; [apply demo_pages; lia | apply demo_words_ok; lia | by repeat constructor | vm_compute; intuition congruence | lia | by right | by left]. }
  assert (phys_ok (demo_table 3)) as Hph by (vm_compute; intuition congruence).
  assert (unused_table k (demo_table 3)) as Hu by (apply demo_unused; lia).
  pose proof (table_map_ok k 2 4160 (cap_page_table_cap 0 (demo_table 3) false 0) 2 (demo_table 3) false [4128; 0; 0] 0 Hc eq_refl (fun _ => Hu) Hph) as H.
  unfold wp in *. destruct (decodeARMMMUInvocation _ _ _ _ _ _ k) as [[st k']|f] eqn:E; [|done].
  assert (st = EXCEPTION_NONE) as -> by (vm_compute in E; by injection E as <- <-).
  destruct H as [_ [[H _]|(_ & asid & pgd & vaddr & _ & _ & Hl & _)]]; [discriminate H |]. split; [done |]. split; [apply Hl |].
  intros v Hv. apply (tl_translation _ _ _ _ _ _ Hl); [unfold is_asid; lia | done].
Defined.

(** The second root gets an identifier. *)
Lemma asid_assign_ok_witness :
  let k := demo_space (demo_words 3) (demo_frame 0 0) [] in
  wp (@decodeARMMMUInvocation default_config ARMASIDPoolAssign 0 4096 (cap_asid_pool_cap 0 demo_pool) [4192; 0; 0] 0)
    (fun st k' => st = EXCEPTION_NONE /\ vspace_of k' 2 = Some (demo_table 4) /\ pages_ok k') (fun _ => False) k.
Proof.
  intros k. assert (mmu_call k 0 4096 [4192; 0; 0] 0) as Hc.
  { apply demo_mmu_call; [by apply demo_pages | by apply demo_words_ok | done | vm_compute; intuition congruence | lia | by left | by right]. }
  assert (forall p node a pgd, k_cte k !! p = Some (mkCte (cap_page_global_directory_cap a pgd false) node) -> unused_table k pgd) as Hun.
  { intros p node a pgd. simpl. unfold page_slots. rewrite !lookup_insert_Some, lookup_singleton_Some. unfold demo_frame.
    intros Hx. assert (pgd = demo_table 4) as -> by naive_solver. apply demo_unused; lia. }
  assert (is_asid 0) as Ha by (unfold is_asid; lia).
  pose proof (asid_assign_ok k 0 4096 0 demo_pool [4192; 0; 0] 0 Hc Ha eq_refl Hun) as H.
  unfold wp in *. destruct (decodeARMMMUInvocation _ _ _ _ _ _ k) as [[st k']|f] eqn:E; [|done].
  assert (st = EXCEPTION_NONE /\ vspace_of k' 2 = Some (demo_table 4)) as [-> Hv] by (vm_compute in E; injection E as <- <-; by vm_compute).
  destruct H as [[H _]|(_ & asid & pgd & slot & _ & _ & _ & _ & Hl)]; [discriminate H |]. split; [done |]. split; [done | apply Hl].
Defined.

(** The page table of a mapped frame is gone. *)
Lemma page_remap_null_witness :
  @decodeARMMMUInvocation default_config ARMPageRemap 2 4096 (demo_frame 1 0x3000) [4128; 0; 0] 0
    (demo_space (demo_words 2) (demo_frame 1 0x3000) [3; 1]) = inr NullDeref.
Proof.
  assert (is_vaddr 0x3000) as Hv by (unfold is_vaddr; lia).
  apply (page_remap_null _ 2 4096 4128 1 (demo_table 0) demo_frame_ptr 0x3000 ARMSmallPage VMReadWrite false [0; 0] 0 nullMDBNode); try done.
  apply demo_mmu_call; [apply demo_pages; lia | apply demo_words_ok; lia | by repeat constructor | vm_compute; intuition congruence | lia | by left | by left].
Defined.
