(* ===== verification/KTcbThms.v ===== *)
(** * Priorities are confined

    What [decodeSetPriority], [decodeSetMCPriority] and [decodeSetSchedParams]
    (kernel/src/object/tcb.c, KTcb.v) do to the priorities of threads: a caller
    can give no more than the maximum controlled priority of the thread whose
    capability it shows, and the scheduler's invariant is kept. *)

From S2P Require Import Prelude KCaps KState KSched KSchedInv KSchedThms KSchedSteps KCspace KMdb KMsg KIpc KDelete KUntyped KInvoke KTcb.
From S2P Require Import KMdbThms KUntypedThms KInvokeThms.

(** Priority and maximum controlled priority of the threads. *)
Definition rank_of (x : tcb_t) : Z * Z := (tcbPriority x, tcbMCP x).
Definition ranks (k : kstate) : gmap Z (Z * Z) := rank_of <$> k_tcb k.

Lemma ranks_noqueues k k' : noqueues k' = noqueues k -> ranks k' = ranks k.
Proof.
  intros E. apply (f_equal k_tcb) in E. simpl in E. unfold ranks.
  assert (forall m : gmap Z tcb_t, rank_of <$> m = rank_of <$> (unlinked <$> m)) as H by (intros m; by rewrite <- map_fmap_compose).
  by rewrite (H (k_tcb k')), E, <- H.
Qed.
Lemma ranks_preserved {A} (m : M kstate A) : preserves noqueues m -> preserves ranks m.
Proof. intros H k a k' E. apply ranks_noqueues. by eapply H. Qed.

Section Confine.
Context `{C : KConfig} `{P : KPlatform}.

Lemma ranks_enqueue t : preserves ranks (tcbSchedEnqueue t).
Proof. apply ranks_preserved, enqueue_noqueues. Qed.
Lemma ranks_dequeue t : preserves ranks (tcbSchedDequeue t).
Proof. apply ranks_preserved, dequeue_noqueues. Qed.
#[local] Hint Resolve ranks_enqueue ranks_dequeue pres_tcb_get : pres.
Lemma ranks_reschedule : preserves ranks rescheduleRequired.
Proof. unfold rescheduleRequired, set_action. pres. Qed.
#[local] Hint Resolve ranks_reschedule : pres.

Lemma ranks_upd k t x x' : k_tcb k !! t = Some x -> ranks (upd_k_tcb (insert t x') k) = <[t := rank_of x']> (ranks k).
Proof. intros Hx. unfold ranks. simpl. by rewrite fmap_insert. Qed.

(** [setPriority] sets the priority of the one thread. *)
Definition with_prio (p : Z) (r : Z * Z) : Z * Z := (p, snd r).
Definition with_mcp (m : Z) (r : Z * Z) : Z * Z := (fst r, m).
Lemma setPriority_ranks t p k k' : setPriority t p k = inl (tt, k') -> ranks k' = alter (with_prio p) t (ranks k).
Proof.
  unfold setPriority. intros E. unfold bind at 1 in E. destruct (tcbSchedDequeue t k) as [[[] k1]|] eqn:E1; [|done].
  apply ranks_dequeue in E1. unfold bind at 1, tcb_upd, bind at 1, tcb_get in E. destruct (t =? 0); [done |].
  destruct (k_tcb k1 !! t) as [x|] eqn:Hx; [|done].
  assert (ranks (upd_k_tcb (insert t (upd_tcbPriority (fun _ => p) x)) k1) = alter (with_prio p) t (ranks k)) as Hr.
  { rewrite (ranks_upd k1 t x) by done. rewrite <- E1. symmetry. apply map_eq. intros i. rewrite lookup_alter. unfold ranks.
    destruct (decide (i = t)) as [->|N]; [by rewrite lookup_insert_eq, decide_True, lookup_fmap, Hx | by rewrite lookup_insert_ne, decide_False]. }
  rewrite <- Hr. assert (preserves ranks (let* r := isRunnable t in if r then do* tcbSchedEnqueue t in rescheduleRequired else ret ())) as Hp
    by (unfold isRunnable; pres).
  by apply Hp in E.
Qed.

(** ** The invariant of the scheduler *)

Lemma sched_ok_rerun k k' t st : sched_ok k -> state_set k k' t st -> t <> ksIdleThread k -> runnable k t = true -> isRunnable_st st = true -> sched_ok k'.
Proof.
  intros HS HSS Hi Hr Hst. pose proof HS as [SB Sall Scq Scand Stop Sres Scd]. pose proof HSS as [S1 S2 S3 S4 S5 S6 _].
  destruct (state_set_rest _ _ _ _ HSS) as (Ec & Ea & Ed & Ei & _).
  assert (forall y, runnable k' y = runnable k y) as Hrun by (intros y; rewrite S3; case_decide; congruence).
  split; rewrite ?Ec, ?Ea, ?Ed, ?Ei.
  - by apply (base_ok_set k k' t st).
  - intros y. rewrite Hrun, S2. apply Sall.
  - rewrite S2. exact Scq.
  - rewrite Hrun, S5. exact Scand.
  - intros HT E y. rewrite S2, S5, !S4. by apply Stop.
  - rewrite Hrun. exact Sres.
  - rewrite S5. exact Scd.
Qed.
Lemma sched_ok_restarting k : sched_ok k -> runnable k (ksCurThread k) = true -> ksCurThread k <> ksIdleThread k -> sched_ok (restarting k).
Proof.
  intros HS Hr Hi. unfold restarting. destruct (k_tcb k !! ksCurThread k) as [x|] eqn:E; [|done].
  by eapply sched_ok_rerun; [| apply state_set_intro; [apply HS | exact E] | ..].
Qed.
Lemma sched_ok_mcp k t x m : sched_ok k -> k_tcb k !! t = Some x -> sched_ok (upd_k_tcb (insert t (upd_tcbMCP (fun _ => m) x)) k).
Proof.
  intros HS Hx. apply (sched_ok_same (strict := True) k); [done |]. split; try done.
  - apply (queues_upd k t x); [apply HS | done | by repeat split].
  - by apply (queued_upd_same k t x).
  - split; simpl.
    + intros y. destruct (decide (y = t)) as [->|]; [rewrite lookup_insert_eq, Hx; split; eauto | by rewrite lookup_insert_ne].
    + intros y. destruct (decide (y = t)) as [->|]; [by rewrite lookup_insert_eq, Hx | by rewrite lookup_insert_ne].
    + intros y. rewrite prio_upd. case_decide; [subst; unfold prio; by rewrite Hx | done].
    + intros y. rewrite domain_upd. case_decide; [subst; unfold domain; by rewrite Hx | done].
Qed.

(** ** Setting priorities *)

Definition when {A} (b : bool) (f : A -> A) (x : A) : A := if b then f x else x.

Lemma setMCPriority_ok k t m : sched_ok k -> is_Some (k_tcb k !! t) ->
  wp (setMCPriority t m) (fun _ k' => sched_ok k' /\ ranks k' = alter (with_mcp m) t (ranks k) /\ is_Some (k_tcb k' !! t) /\
    ksSchedulerAction k' = ksSchedulerAction k /\ ksCurThread k' = ksCurThread k /\ forall y, runnable k' y = runnable k y) (fun _ => False) k.
Proof.
  intros HS [x Hx]. destruct (b_queues _ (so_base _ HS)) as [Q HQ]. destruct (qo_bounds _ _ HQ _ _ Hx) as (H0 & _).
  unfold setMCPriority. eapply wp_tcb_upd; [exact Hx | lia |]. split; [by apply sched_ok_mcp |]. split; [|split; [|split; [done |]; split; [done |]]].
  - rewrite (ranks_upd k t x) by done. symmetry. apply map_eq. intros i. rewrite lookup_alter. unfold ranks.
    destruct (decide (i = t)) as [->|N]; [by rewrite lookup_insert_eq, decide_True, lookup_fmap, Hx | by rewrite lookup_insert_ne, decide_False].
  - simpl. rewrite lookup_insert_eq. eauto.
  - intros y. rewrite runnable_upd. case_decide; [subst; unfold runnable; by rewrite Hx | done].
Qed.

Lemma setPriority_full k t p : config_ok -> sched_ok k -> is_Some (k_tcb k !! t) -> prio_ok p -> t <> ksSchedulerAction k ->
  (t = ksCurThread k -> runnable k t = true) ->
  wp (setPriority t p) (fun _ k' => sched_ok k' /\ ranks k' = alter (with_prio p) t (ranks k)) (fun _ => False) k.
Proof.
  intros Hc HS Ht Hp Ha Hcur. pose proof (setPriority_ok (strict := True) k t p Hc HS Ht Hp (or_introl Ha) Hcur) as Hw. unfold wp in *.
  destruct (setPriority t p k) as [[[] k']|] eqn:E; [|done]. split; [done |]. by apply setPriority_ranks in E.
Qed.

Lemma thread_control_ok fuel k t mcp prio flags : config_ok -> sched_ok k -> is_Some (k_tcb k !! t) ->
  has_flag flags thread_control_update_space = false -> has_flag flags thread_control_update_ipc_buffer = false ->
  (has_flag flags thread_control_update_priority = true -> prio_ok prio) -> ksSchedulerAction k = 0 -> runnable k (ksCurThread k) = true ->
  wp (invokeTCB_ThreadControl fuel t 0 0 mcp prio cap_null_cap 0 cap_null_cap 0 0 cap_null_cap 0 flags) (fun st k' => st = EXCEPTION_NONE /\
    sched_ok k' /\ ranks k' = when (has_flag flags thread_control_update_priority) (alter (with_prio prio) t)
      (when (has_flag flags thread_control_update_mcp) (alter (with_mcp mcp) t) (ranks k))) (fun _ => False) k.
Proof.
  intros Hc HS [x Hx] Hs Hb Hp Ha Hr. destruct (b_queues _ (so_base _ HS)) as [Q HQ]. destruct (qo_bounds _ _ HQ _ _ Hx) as (H0 & _).
  unfold invokeTCB_ThreadControl. cbv zeta. rewrite Hs, Hb, wp_bind, wp_ret, wp_bind.
  eapply (wp_mono _ (fun _ k1 => sched_ok k1 /\ ranks k1 = when (has_flag flags thread_control_update_mcp) (alter (with_mcp mcp) t) (ranks k) /\
    is_Some (k_tcb k1 !! t) /\ ksSchedulerAction k1 = 0 /\ runnable k1 (ksCurThread k1) = true) _ (fun _ => False)); [| | done].
  { destruct (has_flag flags thread_control_update_mcp); wp_steps; [|simpl; eauto 6].
    eapply wp_mono; [apply setMCPriority_ok; eauto | | done]. intros ? k1 (H1 & H2 & H3 & H4 & H5 & H6). simpl. rewrite H4, H5, H6. auto 6. }
  intros ? k1 (H1 & H2 & H3 & H4 & H5). rewrite wp_bind, <- H2.
  destruct (has_flag flags thread_control_update_priority) eqn:Ef; wp_steps; simpl; [|done].
  eapply wp_mono; [apply setPriority_full; auto; [lia | by intros ->] | | done]. intros ? k2 [H6 H7]. by wp_steps.
Qed.

(** ** The invocations *)

(** A call on a thread: it is made by the running thread, capabilities to threads
    lead to threads, and no thread controls more than the highest priority. *)
Record tcb_call (k : kstate) (len t : Z) (excaps : list Z) (buffer : Z) : Prop := {
  tc_invoked : invoked k len excaps buffer;
  tc_sched : sched_ok k;
  tc_action : ksSchedulerAction k = 0;
  tc_running : runnable k (ksCurThread k) = true /\ ksCurThread k <> ksIdleThread k;
  tc_threads p e a : k_cte k !! p = Some e -> cte_cap e = cap_thread_cap a -> is_Some (k_tcb k !! a);
  tc_mcp a x : k_tcb k !! a = Some x -> 0 <= tcbMCP x <= seL4_MaxPrio;
  tc_target : is_Some (k_tcb k !! t) }.

Lemma authority_ok k len t excaps buffer r (Q : exception_t + Z -> kstate -> Prop) : tcb_call k len t excaps buffer -> r <> 0 -> is_Some (k_cte k !! r) ->
  (forall k', same_but_errors k k' -> Q (inl EXCEPTION_SYSCALL_ERROR) k') ->
  (forall a x, cap_at k r = cap_thread_cap a -> k_tcb k !! a = Some x -> a <> 0 -> Q (inr a) k) -> wp (authority r) Q (fun _ => False) k.
Proof.
  intros Hc Hr [e He] H1 H2. unfold authority. rewrite wp_bind. eapply wp_slot_cap; [done | exact He |].
  assert (cap_at k r = cte_cap e) as Ec by (unfold cap_at; by rewrite He).
  destruct (cte_cap e) eqn:E; try (unfold reject, err_InvalidCapability; wp_steps; by apply H1).
  destruct (tc_threads _ _ _ _ _ Hc _ _ _ He E) as [x Hx]. destruct (b_queues _ (so_base _ (tc_sched _ _ _ _ _ Hc))) as [Q' HQ].
  destruct (qo_bounds _ _ HQ _ _ Hx) as (H0 & _). wp_steps. eapply H2; [done | exact Hx | lia].
Qed.

(** The check: within the authority's maximum, or an error. *)
Lemma checkPrio_ok k p a x (Q : exception_t -> kstate -> Prop) : k_tcb k !! a = Some x -> a <> 0 -> tcbMCP x <= seL4_MaxPrio ->
  (forall k', same_but_errors k k' -> Q EXCEPTION_SYSCALL_ERROR k') -> (p <= tcbMCP x -> Q EXCEPTION_NONE k) -> wp (checkPrio p a) Q (fun _ => False) k.
Proof.
  intros Hx H0 Hm H1 H2. unfold checkPrio. rewrite wp_bind. eapply wp_tcb_get; [exact Hx | done |]. wp_steps.
  rewrite (proj2 (Z.leb_le _ _) Hm). destruct (p >? tcbMCP x) eqn:E; [unfold throw, err_RangeError; wp_steps; by apply H1 |].
  wp_steps. apply H2. lia.
Qed.

Lemma ranks_restarting k : ranks (restarting k) = ranks k.
Proof.
  unfold restarting. destruct (k_tcb k !! ksCurThread k) as [x|] eqn:E; [|done]. rewrite (ranks_upd k _ x) by done. unfold ranks.
  apply map_eq. intros i. destruct (decide (i = ksCurThread k)) as [->|]; [by rewrite lookup_insert_eq, lookup_fmap, E | by rewrite lookup_insert_ne].
Qed.

Lemma control_ok fuel k len t excaps buffer mcp prio flags : config_ok -> tcb_call k len t excaps buffer ->
  has_flag flags thread_control_update_space = false -> has_flag flags thread_control_update_ipc_buffer = false ->
  (has_flag flags thread_control_update_priority = true -> prio_ok prio) ->
  wp (do* set_restart in
      let* thread := thread_of (cap_thread_cap t) in
      invokeTCB_ThreadControl fuel thread 0 0 mcp prio cap_null_cap 0 cap_null_cap 0 0 cap_null_cap 0 flags) (fun st k' => st = EXCEPTION_NONE /\
    sched_ok k' /\ ranks k' = when (has_flag flags thread_control_update_priority) (alter (with_prio prio) t)
      (when (has_flag flags thread_control_update_mcp) (alter (with_mcp mcp) t) (ranks k))) (fun _ => False) k.
Proof.
  intros Hcf [Hiv HS Hact [Hrun Hidle] _ _ Ht] Hf1 Hf2 Hp. destruct (iv_cur _ _ _ _ Hiv) as [Hcur Hcur0].
  rewrite wp_bind. apply wp_set_restart; [done | done |]. wp_steps. rewrite <- (ranks_restarting k).
  destruct Hcur as [x Hx]. destruct Ht as [y Hy]. apply thread_control_ok; try done.
  - by apply sched_ok_restarting.
  - unfold restarting. rewrite Hx. simpl. destruct (decide (t = ksCurThread k)) as [->|]; [rewrite lookup_insert_eq | rewrite lookup_insert_ne by done]; eauto.
  - unfold restarting. by rewrite Hx.
  - unfold restarting. rewrite Hx. unfold runnable. simpl. by rewrite lookup_insert_eq.
Qed.

(** The outcome of a call that sets the priority, if [sp], and the maximum
    controlled priority, if [sm]. *)
Definition confined (k : kstate) (excaps : list Z) (t : Z) (sp sm : bool) (st : exception_t) (k' : kstate) : Prop :=
  (st = EXCEPTION_SYSCALL_ERROR /\ same_but_errors k k') \/
  (st = EXCEPTION_NONE /\ sched_ok k' /\ exists r a x prio mcp, excaps !! 0%nat = Some r /\ cap_at k r = cap_thread_cap a /\ k_tcb k !! a = Some x /\
    0 <= prio <= tcbMCP x /\ 0 <= mcp <= tcbMCP x /\
    ranks k' = when sp (alter (with_prio prio) t) (when sm (alter (with_mcp mcp) t) (ranks k))).

(** The steps the decoders share: who authorises the change. *)
Lemma with_authority k len t r rest buffer (f : Z -> M kstate exception_t) (Q : exception_t -> kstate -> Prop) :
  tcb_call k len t (r :: rest) buffer -> r <> 0 -> (forall k', same_but_errors k k' -> Q EXCEPTION_SYSCALL_ERROR k') ->
  (forall a x, cap_at k r = cap_thread_cap a -> k_tcb k !! a = Some x -> a <> 0 -> 0 <= tcbMCP x <= seL4_MaxPrio -> wp (f a) Q (fun _ => False) k) ->
  wp (let* a := authority r in match a with inl status => ret status | inr authTCB => f authTCB end) Q (fun _ => False) k.
Proof.
  intros Hc Hr H1 H2. rewrite wp_bind. eapply authority_ok; [exact Hc | done | | by intros; wp_steps; apply H1 |].
  - apply (iv_slots _ _ _ _ (tc_invoked _ _ _ _ _ Hc)); [left | done].
  - intros a x Ha Hx H0. eapply H2; try done. exact (tc_mcp _ _ _ _ _ Hc _ _ Hx).
Qed.
Lemma wp_checked k p a x (m : M kstate exception_t) (Q : exception_t -> kstate -> Prop) : k_tcb k !! a = Some x -> a <> 0 -> tcbMCP x <= seL4_MaxPrio ->
  (forall k', same_but_errors k k' -> Q EXCEPTION_SYSCALL_ERROR k') -> (p <= tcbMCP x -> wp m Q (fun _ => False) k) ->
  wp (let* status := checkPrio p a in if negb (bool_decide (status = EXCEPTION_NONE)) then ret status else m) Q (fun _ => False) k.
Proof.
  intros Hx H0 Hm H1 H2. rewrite wp_bind. eapply checkPrio_ok; [exact Hx | done | done | |].
  - intros k' Hk'. simpl. wp_steps. by apply H1.
  - intros Hp. simpl. by apply H2.
Qed.

Lemma call_excaps k len t excaps buffer : tcb_call k len t excaps buffer -> exists r rest, excaps = r :: rest.
Proof. intros Hc. pose proof (iv_number _ _ _ _ (tc_invoked _ _ _ _ _ Hc)). destruct excaps; [done | eauto]. Qed.

Lemma max_prio x : tcbMCP x <= seL4_MaxPrio -> forall p, 0 <= p <= tcbMCP x -> prio_ok p.
Proof. unfold prio_ok. change seL4_MaxPrio with 255. lia. Qed.

Lemma decodeSetPriority_ok fuel k len t excaps buffer : config_ok -> tcb_call k len t excaps buffer ->
  wp (decodeSetPriority fuel (cap_thread_cap t) len excaps buffer) (confined k excaps t true false) (fun _ => False) k.
Proof.
  intros Hcf Hc. destruct (call_excaps _ _ _ _ _ Hc) as (r & rest & ->). pose proof (tc_invoked _ _ _ _ _ Hc) as Hiv.
  unfold decodeSetPriority, excap. rewrite wp_bind. cbn [lookup list_lookup]. wp_step.
  destruct (Z.ltb_spec len 1) as [|Hlen]; [by left |]. destruct (Z.eqb_spec r 0) as [|Hr]; [by left |]. cbn [orb].
  rewrite wp_bind. eapply wp_arg; [exact Hiv | lia |]. intros np Hnp. eapply with_authority; [exact Hc | done | by left |]. intros a x Ha Hx H0 [Hm1 Hm2].
  eapply wp_checked; [exact Hx | done | done | by left |]. intros Hp. destruct Hnp.
  eapply wp_mono; [eapply control_ok; [done | exact Hc | done | done | intros _; by apply (max_prio x)] | | done].
  intros st k' (-> & HS & HR). right. split; [done |]. split; [done |]. exists r, a, x, np, 0. by repeat (split; [lia || done |]).
Qed.
Lemma decodeSetMCPriority_ok fuel k len t excaps buffer : config_ok -> tcb_call k len t excaps buffer ->
  wp (decodeSetMCPriority fuel (cap_thread_cap t) len excaps buffer) (confined k excaps t false true) (fun _ => False) k.
Proof.
  intros Hcf Hc. destruct (call_excaps _ _ _ _ _ Hc) as (r & rest & ->). pose proof (tc_invoked _ _ _ _ _ Hc) as Hiv.
  unfold decodeSetMCPriority, excap. rewrite wp_bind. cbn [lookup list_lookup]. wp_step.
  destruct (Z.ltb_spec len 1) as [|Hlen]; [by left |]. destruct (Z.eqb_spec r 0) as [|Hr]; [by left |]. cbn [orb].
  rewrite wp_bind. eapply wp_arg; [exact Hiv | lia |]. intros nm Hnm. eapply with_authority; [exact Hc | done | by left |]. intros a x Ha Hx H0 [Hm1 Hm2].
  eapply wp_checked; [exact Hx | done | done | by left |]. intros Hp. destruct Hnm.
  eapply wp_mono; [eapply control_ok; [done | exact Hc | done | done | done] | | done].
  intros st k' (-> & HS & HR). right. split; [done |]. split; [done |]. exists r, a, x, 0, nm. by repeat (split; [lia || done |]).
Qed.
Lemma decodeSetSchedParams_ok fuel k len t excaps buffer : config_ok -> tcb_call k len t excaps buffer ->
  wp (decodeSetSchedParams fuel (cap_thread_cap t) len excaps buffer) (confined k excaps t true true) (fun _ => False) k.
Proof.
  intros Hcf Hc. destruct (call_excaps _ _ _ _ _ Hc) as (r & rest & ->). pose proof (tc_invoked _ _ _ _ _ Hc) as Hiv.
  unfold decodeSetSchedParams, excap. rewrite wp_bind. cbn [lookup list_lookup]. wp_step.
  destruct (Z.ltb_spec len 2) as [|Hlen]; [by left |]. destruct (Z.eqb_spec r 0) as [|Hr]; [by left |]. cbn [orb].
  rewrite wp_bind. eapply wp_arg; [exact Hiv | lia |]. intros nm Hnm. rewrite wp_bind. eapply wp_arg; [exact Hiv | lia |]. intros np Hnp.
  eapply with_authority; [exact Hc | done | by left |]. intros a x Ha Hx H0 [Hm1 Hm2].
  eapply wp_checked; [exact Hx | done | done | by left |]. intros Hp. eapply wp_checked; [exact Hx | done | done | by left |]. intros Hp'.
  destruct Hnm, Hnp.
  eapply wp_mono; [eapply control_ok; [done | exact Hc | done | done | intros _; by apply (max_prio x)] | | done].
  intros st k' (-> & HS & HR). right. split; [done |]. split; [done |]. exists r, a, x, np, nm. by repeat (split; [lia || done |]).
Qed.

(** C17: Priorities are confined.  Setting the priority, the maximum controlled
    priority or both never faults; it reports an error and changes nothing
    else, or changes the one thread only, to values within the maximum
    controlled priority of the thread whose capability the caller shows, and
    keeps the invariant of the scheduler.  So no sequence of calls gives any
    thread more than some thread could give before. *)
Theorem priority_confined (fuel : nat) (k : kstate) (label len t slot : Z) (excaps : list Z) (call : bool) (buffer : Z) :
  config_ok -> tcb_call k len t excaps buffer -> label ∈ [TCBSetPriority; TCBSetMCPriority; TCBSetSchedParams] ->
  wp (decodeTCBInvocation fuel label len (cap_thread_cap t) slot excaps call buffer)
    (confined k excaps t (negb (label =? TCBSetMCPriority)) (negb (label =? TCBSetPriority))) (fun _ => False) k.
Proof.
  intros Hcf Hc Hl. rewrite !list.elem_of_cons in Hl. destruct Hl as [-> | [-> | [-> | []%not_elem_of_nil]]].
  - by apply decodeSetPriority_ok.
  - by apply decodeSetMCPriority_ok.
  - by apply decodeSetSchedParams_ok.
Qed.
End Confine.

(** ** A change of priority

    The thread at 8192, which may give priorities up to 150, raises the blocked
    thread at 12288 from 50 to 120. *)
Definition ranked_tcb (st : _thread_state_t) (m p : Z) : tcb_t :=
  mkTcb {[2 := 120]} st false 0 0 false false false 0 seL4_Fault_NullFault lookup_fault_invalid_root 0 m p 5 0 0 0 0 0 0.
Definition demo_ranks : kstate :=
  mkK (<[4096 := ranked_tcb ThreadState_IdleThreadState 0 0]> (<[8192 := ranked_tcb ThreadState_Running 150 100]>
        {[12288 := ranked_tcb ThreadState_BlockedOnReceive 60 50]}))
    {[64 := mkCte (cap_thread_cap 8192) nullMDBNode]} ∅ ∅ ∅ ∅ ∅ ∅ 8192 4096 0 0 1 0 0 ∅ ∅ lookup_fault_invalid_root seL4_Fault_NullFault
    (mkErr 0 0 0 0 0 false seL4_NoError) [0; 0; 0] [].

Lemma demo_ranks_threads : map_Forall (fun t x => (1 < t /\ @dom_ok default_config (tcbDomain x) /\ prio_ok (tcbPriority x) /\ tcbQueued x = false) /\
  0 <= tcbMCP x <= seL4_MaxPrio /\ (isRunnable_st (tsType x) = true -> t = 8192) /\ map_Forall (fun _ w => is_word w) (tcbRegs x)) (k_tcb demo_ranks).
Proof.
  assert (map_Forall (fun _ w => is_word w) ({[2 := 120]} : gmap Z Z)) as Hw by by apply map_Forall_singleton.
  unfold demo_ranks. simpl. repeat (apply map_Forall_insert_2; [split; [by vm_compute | split; [by vm_compute | by split]] |]).
  apply map_Forall_empty.
Qed.
Lemma demo_ranks_queued t : queued demo_ranks t = false.
Proof. unfold queued. destruct (k_tcb demo_ranks !! t) as [x|] eqn:E; [|done]. by destruct (demo_ranks_threads t x E) as ((_ & _ & _ & ?) & _). Qed.

Lemma demo_ranks_sched : @sched_ok default_config demo_ranks.
Proof.
  split.
  - split; [| | by eexists | by eexists | done | done].
    + eexists. apply empty_queues_ok; try done. intros t x Hx. by apply demo_ranks_threads.
    + intros t. by rewrite demo_ranks_queued.
  - intros t Ht. right. left. unfold runnable in Ht. destruct (k_tcb demo_ranks !! t) as [x|] eqn:E; [|done].
    by destruct (demo_ranks_threads t x E) as (_ & _ & H & _); apply H.
  - intros _. apply demo_ranks_queued.
  - done.
  - intros _ _ t. by rewrite demo_ranks_queued.
  - by left.
  - by right.
Qed.

Lemma demo_ranks_call : @tcb_call default_config demo_ranks 1 12288 [64; 0; 0] 0.
Proof.
  split.
  - split; [split; [intros t x Hx; by apply (demo_ranks_threads t x) | apply map_Forall_empty] | split; [by eexists | done] | done | |].
    + intros r. rewrite !list.elem_of_cons. intros [->|[->|[->|[]%not_elem_of_nil]]]; [by eexists | done..].
    + done.
  - exact demo_ranks_sched.
  - done.
  - done.
  - intros p e a. simpl. rewrite lookup_singleton_Some. intros [<- <-] [= <-]. by eexists.
  - intros a x Hx. by apply (demo_ranks_threads a x).
  - by eexists.
Qed.

Lemma priority_confined_witness :
  wp (@decodeTCBInvocation default_config quiet_platform 1 TCBSetPriority 1 (cap_thread_cap 12288) 0 [64; 0; 0] false 0)
    (fun st k' => st = EXCEPTION_NONE /\ @sched_ok default_config k' /\ ranks k' !! 12288 = Some (120, 60)) (fun _ => False) demo_ranks.
Proof.
  pose proof (@priority_confined default_config quiet_platform 1 demo_ranks TCBSetPriority 1 12288 0 [64; 0; 0] false 0 demo_config_ok demo_ranks_call
    ltac:(left)) as H.
  unfold wp in *. destruct (decodeTCBInvocation _ _ _ _ _ _ _ _ demo_ranks) as [[st k']|f] eqn:E; [|done].
  assert (st = EXCEPTION_NONE /\ ranks k' !! 12288 = Some (120, 60)) as [-> Hr] by (vm_compute in E; injection E as <- <-; by vm_compute).
  destruct H as [[H _]|(_ & HS & _)]; [discriminate H | done].
Defined.
