(* ===== verification/KBootMem.v ===== *)
(** * Boot memory

    Free memory while the kernel boots: kernel/src/kernel/boot.c up to the
    allocation of regions, and splitting what is left into untyped memory.  The
    state of booting is the kernel's state and [ndks_boot]; [avail_p_regs],
    [dev_p_regs] and the size of the root CNode come from the build. *)

From S2P Require Import Prelude KCaps KState KSched KCspace KMdb KMsg KVspace KDelete KUntyped.

(** ** State *)

(** kernel/include/basic_types.h *)
Record region_t := mkReg { start : Z; end_ : Z }.
Definition REG_EMPTY : region_t := mkReg 0 0.
Definition is_reg_empty (reg : region_t) : bool := start reg =? end_ reg.
Definition reg_size (reg : region_t) : Z := w64 (end_ reg - start reg).

(** kernel/include/util.h; [b] is a number of bits. *)
Definition kROUND_DOWN (n b : Z) : Z := w64 (Z.shiftl (Z.shiftr n b) b).
Definition kROUND_UP (n b : Z) : Z := w64 (Z.shiftl (w64 (Z.shiftr (w64 (n - 1)) b + 1)) b).

(** kernel/libsel4/include/sel4/bootinfo_types.h *)
Record seL4_SlotRegion := mkSlots { sl_start : Z; sl_end : Z }.
Definition S_REG_EMPTY : seL4_SlotRegion := mkSlots 0 0.
Record seL4_UntypedDesc := mkUd { ud_paddr : Z; ud_sizeBits : Z; ud_isDevice : bool }.
Record seL4_BootInfo := mkBi {
  bi_extraLen : Z; bi_nodeID : Z; bi_numNodes : Z; bi_numIOPTLevels : Z; bi_ipcBuffer : Z;
  bi_empty : seL4_SlotRegion; bi_sharedFrames : seL4_SlotRegion; bi_userImageFrames : seL4_SlotRegion;
  bi_userImagePaging : seL4_SlotRegion; bi_ioSpaceCaps : seL4_SlotRegion; bi_extraBIPages : seL4_SlotRegion;
  bi_initThreadCNodeSizeBits : Z; bi_initThreadDomain : Z; bi_untyped : seL4_SlotRegion;
  bi_untypedList : gmap Z seL4_UntypedDesc }.
Definition zero_bi : seL4_BootInfo :=
  mkBi 0 0 0 0 0 S_REG_EMPTY S_REG_EMPTY S_REG_EMPTY S_REG_EMPTY S_REG_EMPTY S_REG_EMPTY 0 0 S_REG_EMPTY ∅.

(** [ndks_boot], with what [bi_frame] points to, and the kernel's state. *)
Record boot_t := mkBoot {
  b_k : kstate;
  freemem : list region_t;
  bi_frame : Z;
  b_bi : seL4_BootInfo;
  slot_pos_cur : Z;
  slot_pos_max : Z }.
Definition upd_b_k (f : kstate -> kstate) (b : boot_t) : boot_t := mkBoot (f (b_k b)) (freemem b) (bi_frame b) (b_bi b) (slot_pos_cur b) (slot_pos_max b).
Definition set_freemem (l : list region_t) (b : boot_t) : boot_t := mkBoot (b_k b) l (bi_frame b) (b_bi b) (slot_pos_cur b) (slot_pos_max b).
Definition set_bi_frame (p : Z) (b : boot_t) : boot_t := mkBoot (b_k b) (freemem b) p (b_bi b) (slot_pos_cur b) (slot_pos_max b).
Definition upd_bi (f : seL4_BootInfo -> seL4_BootInfo) (b : boot_t) : boot_t := mkBoot (b_k b) (freemem b) (bi_frame b) (f (b_bi b)) (slot_pos_cur b) (slot_pos_max b).
Definition set_slot_pos_cur (n : Z) (b : boot_t) : boot_t := mkBoot (b_k b) (freemem b) (bi_frame b) (b_bi b) n (slot_pos_max b).
Definition set_slot_pos_max (n : Z) (b : boot_t) : boot_t := mkBoot (b_k b) (freemem b) (bi_frame b) (b_bi b) (slot_pos_cur b) n.

(** An operation of the kernel while it boots. *)
Definition kern {A} (m : M kstate A) : M boot_t A := fun b =>
  match m (b_k b) with inl (a, k) => inl (a, upd_b_k (fun _ => k) b) | inr e => inr e end.

(** What the build and the hardware decide: regions of memory, addresses of static
    data, interrupts, whether there is a floating-point unit, and what the compiler
    makes of [1 << n] on an [int]. *)
Class KBootConfig : Type := mkKBootConfig {
  avail_p_regs : list region_t;
  dev_p_regs : list region_t;
  kernel_devices : list (Z * Z * bool);
  CONFIG_ROOT_CNODE_SIZE_BITS : Z;
  CONFIG_MAX_NUM_BOOTINFO_UNTYPED_CAPS : Z;
  ki_boot_end : Z;
  ki_end : Z;
  ksIdleThreadTCB : Z;
  idleThreadStart : Z;
  KERNEL_TIMER_IRQ : Z;
  KERNEL_UART_IRQ : Z;
  armKSGlobalKernelPGD : Z;
  armKSGlobalKernelPUD : Z;
  armKSGlobalKernelPDs : Z;
  armKSGlobalKernelPT : Z;
  kernel_stack_top : Z;
  arm_vector_table : Z;
  fpsimd_HWCapTest : bool;
  shl_int_1 : Z -> Z }.

(** ** Free regions *)

(** The first empty entry is taken; [None] when there is none. *)
Fixpoint insert_first (l : list region_t) (reg : region_t) : option (list region_t) :=
  match l with
  | [] => None
  | r :: l => if is_reg_empty r then Some (reg :: l) else option_map (cons r) (insert_first l reg)
  end.
Definition insert_region (reg : region_t) : M boot_t bool :=
  do* assert_ (start reg <=? end_ reg) in
  if is_reg_empty reg then ret true
  else
    let* l := gets freemem in
    match insert_first l reg with
    | Some l => do* modify (set_freemem l) in ret true
    | None => ret false
    end.

(** The best placement so far: region, remainders and the index of its entry. *)
Record placement := mkPl { pl_reg : region_t; rem_small : region_t; rem_large : region_t; reg_index : nat }.
Definition no_placement : placement := mkPl REG_EMPTY REG_EMPTY REG_EMPTY 0.

(** Where a block goes in a free region: at the end that leaves less behind. *)
Definition place (size_bits : Z) (r : region_t) : region_t :=
  if w64 (kROUND_UP (start r) size_bits - start r) <? w64 (end_ r - kROUND_DOWN (end_ r) size_bits) then
    let s := kROUND_UP (start r) size_bits in mkReg s (w64 (s + BIT size_bits))
  else
    let e := kROUND_DOWN (end_ r) size_bits in mkReg (w64 (e - BIT size_bits)) e.
Definition alloc_round (size_bits : Z) (best : placement) (i : nat) (r : region_t) : placement :=
  let new_reg := place size_bits r in
  if (end_ new_reg >? start new_reg) && (start new_reg >=? start r) && (end_ new_reg <=? end_ r) then
    let below := mkReg (start r) (start new_reg) in
    let above := mkReg (end_ new_reg) (end_ r) in
    let '(small, large) := if w64 (start new_reg - start r) <? w64 (end_ r - end_ new_reg) then (below, above) else (above, below) in
    if is_reg_empty (pl_reg best) || (reg_size small <? reg_size (rem_small best)) ||
       ((reg_size small =? reg_size (rem_small best)) && (reg_size large <? reg_size (rem_large best)))
    then mkPl new_reg small large i else best
  else best.
Fixpoint alloc_loop (size_bits : Z) (best : placement) (i : nat) (l : list region_t) : placement :=
  match l with [] => best | r :: l => alloc_loop size_bits (alloc_round size_bits best i r) (S i) l end.

(** 0 when there is no room. *)
Definition alloc_region (size_bits : Z) : M boot_t Z :=
  let* l := gets freemem in
  let best := alloc_loop size_bits no_placement 0 l in
  if is_reg_empty (pl_reg best) then ret 0
  else
    do* modify (set_freemem (<[reg_index best := REG_EMPTY]> l)) in
    do* insert_region (rem_large best) in
    do* insert_region (rem_small best) in
    ret (start (pl_reg best)).

Section Boot.
Context `{C : KConfig} `{B : KBootConfig}.

Definition PPTR_TOP : Z := 0xffffffffc0000000.
Definition PADDR_TOP : Z := w64 (PPTR_TOP - BASE_OFFSET).
Definition MAX_NUM_FREEMEM_REG : nat := S (length avail_p_regs).
Definition paddr_to_pptr_reg (r : region_t) : region_t := mkReg (w64 (start r + BASE_OFFSET)) (w64 (end_ r + BASE_OFFSET)).
Definition ceiling_kernel_window (p : Z) : Z := if pptr_to_paddr p >? PADDR_TOP then PPTR_TOP else p.

(** ** Free memory at the start *)

(** Neighbours are in order. *)
Fixpoint ordered (strict : bool) (l : list region_t) : bool :=
  match l with
  | r :: ((r' :: _) as l') =>
      (if strict then start r <? end_ r else start r <=? end_ r) && (end_ r <=? start r') && ordered strict l'
  | _ => true
  end.

Definition window_reg (r : region_t) : region_t :=
  let r := paddr_to_pptr_reg r in mkReg (ceiling_kernel_window (start r)) (ceiling_kernel_window (end_ r)).

(** The rest of the available regions, once the reserved ones are done. *)
Fixpoint insert_rest (avail : list region_t) : M boot_t unit :=
  match avail with
  | [] => ret tt
  | a :: avail => do* (if start a <? end_ a then do* insert_region a in ret tt else ret tt) in insert_rest avail
  end.

(** The loop that removes the reserved regions; every round drops the first entry
    of one of the lists. *)
Fixpoint carve (fuel : nat) (avail reserved : list region_t) : M boot_t unit :=
  match fuel with
  | O => fail NoFuel
  | S fuel =>
      match avail, reserved with
      | a :: avail', r :: reserved' =>
          if start r =? end_ r then carve fuel avail reserved'
          else if start a >=? end_ a then carve fuel avail' reserved
          else if end_ r <=? start a then carve fuel avail reserved'
          else if start r >? end_ a then do* insert_region a in carve fuel avail' reserved
          else if start r <=? start a then carve fuel (mkReg (end_ r) (end_ a) :: avail') reserved'
          else
            do* insert_region (mkReg (start a) (start r)) in
            carve fuel (mkReg (end_ r) (end_ a) :: avail') reserved'
      | _, _ => insert_rest avail
      end
  end.

Definition init_freemem (available reserved : list region_t) : M boot_t unit :=
  do* assert_ (ordered false reserved) in
  do* assert_ (0 <? Z.of_nat (length available)) in
  do* assert_ (ordered true available) in
  do* modify (set_freemem (replicate MAX_NUM_FREEMEM_REG REG_EMPTY)) in
  carve (S (length available + length reserved)) (map window_reg available) reserved.

(** ** Slots of the root CNode *)
Definition SLOT_PTR (pptr pos : Z) : Z := w64 (pptr + pos * cte_size).
Definition write_slot (slot_ptr : Z) (c : cap) : M boot_t unit :=
  kern (do* set_cap slot_ptr c in set_mdb slot_ptr (mkMdb 0 true true 0)).

Definition provide_cap (root_cnode_cap c : cap) : M boot_t bool :=
  let* b := gets id in
  if slot_pos_cur b >=? slot_pos_max b then ret false
  else
    do* write_slot (SLOT_PTR (cap_get_capPtr root_cnode_cap) (slot_pos_cur b)) c in
    do* modify (set_slot_pos_cur (w64 (slot_pos_cur b + 1))) in
    ret true.

(** ** Untyped memory *)
Definition set_untyped_desc (i : Z) (d : seL4_UntypedDesc) (bi : seL4_BootInfo) : seL4_BootInfo :=
  mkBi (bi_extraLen bi) (bi_nodeID bi) (bi_numNodes bi) (bi_numIOPTLevels bi) (bi_ipcBuffer bi) (bi_empty bi) (bi_sharedFrames bi)
    (bi_userImageFrames bi) (bi_userImagePaging bi) (bi_ioSpaceCaps bi) (bi_extraBIPages bi) (bi_initThreadCNodeSizeBits bi)
    (bi_initThreadDomain bi) (bi_untyped bi) (<[i := d]> (bi_untypedList bi)).
Definition provide_untyped_cap (root_cnode_cap : cap) (device_memory : bool) (pptr size_bits first_untyped_slot : Z) : M boot_t bool :=
  let* cur := gets slot_pos_cur in
  let i := w64 (cur - first_untyped_slot) in
  if i <? CONFIG_MAX_NUM_BOOTINFO_UNTYPED_CAPS then
    do* modify (upd_bi (set_untyped_desc i (mkUd (pptr_to_paddr pptr) size_bits device_memory))) in
    provide_cap root_cnode_cap (cap_untyped_cap (MAX_FREE_INDEX size_bits) device_memory size_bits pptr)
  else ret true.

(** The size of the block at the start of a region. *)
Definition block_bits (reg : region_t) : Z :=
  let size_bits := 64 - 1 - CLZL (w64 (end_ reg - start reg)) in
  let align_bits := if negb (start reg =? 0) then CTZL (start reg) else size_bits in
  let size_bits := if align_bits <? size_bits then align_bits else size_bits in
  if size_bits >? seL4_MaxUntypedBits then seL4_MaxUntypedBits else size_bits.
(** Blocks grow to the largest size and shrink again; the largest ones are counted
    by what is above [seL4_MaxUntypedBits] in an address. *)
Definition untyped_fuel : nat := Z.to_nat (2 ^ 17 + 130).
Fixpoint untypeds_loop (fuel : nat) (root_cnode_cap : cap) (device_memory : bool) (reg : region_t) (first_untyped_slot : Z) : M boot_t bool :=
  match fuel with
  | O => fail NoFuel
  | S fuel =>
      if is_reg_empty reg then ret true
      else
        let size_bits := block_bits reg in
        let* ok := (if size_bits >=? seL4_MinUntypedBits
                    then provide_untyped_cap root_cnode_cap device_memory (start reg) size_bits first_untyped_slot
                    else ret true) in
        if negb ok then ret false
        else untypeds_loop fuel root_cnode_cap device_memory (mkReg (w64 (start reg + BIT size_bits)) (end_ reg)) first_untyped_slot
  end.
Definition create_untypeds_for_region (root_cnode_cap : cap) (device_memory : bool) (reg : region_t) (first_untyped_slot : Z) : M boot_t bool :=
  untypeds_loop untyped_fuel root_cnode_cap device_memory reg first_untyped_slot.

(** The loop over [freemem] from entry [i], [n] left. *)
Fixpoint kernel_untypeds_loop (root_cnode_cap : cap) (first_untyped_slot : Z) (i n : nat) : M boot_t bool :=
  match n with
  | O => ret true
  | S n =>
      let* l := gets freemem in
      let* reg := of_option OutOfBounds (l !! i) in
      do* modify (set_freemem (<[i := REG_EMPTY]> l)) in
      let* ok := create_untypeds_for_region root_cnode_cap false reg first_untyped_slot in
      if negb ok then ret false else kernel_untypeds_loop root_cnode_cap first_untyped_slot (S i) n
  end.
Definition create_kernel_untypeds (root_cnode_cap : cap) (boot_mem_reuse_reg : region_t) (first_untyped_slot : Z) : M boot_t bool :=
  let* ok := create_untypeds_for_region root_cnode_cap false boot_mem_reuse_reg first_untyped_slot in
  if negb ok then ret false else kernel_untypeds_loop root_cnode_cap first_untyped_slot 0 MAX_NUM_FREEMEM_REG.
End Boot.
