(* ===== verification/KBootThms.v ===== *)
(** * Boot memory: theorems

    [alloc_region] hands out blocks of free memory and loses none but what it says;
    what is left is tiled by untyped blocks; and which reserved memory
    [init_freemem] keeps out of the free regions. *)

From S2P Require Import Prelude KCaps KState KSched KCspace KMdb KMsg KVspace KDelete KUntyped KBootMem.

(** ** Rounding *)
Lemma round_up_eq n b : 0 <= n < 2 ^ 64 -> 0 <= b < 64 -> kROUND_UP n b = w64 (((n - 1) / 2 ^ b + 1) * 2 ^ b).
Proof.
  intros Hn Hb. unfold kROUND_UP, w64. rewrite Z.shiftl_mul_pow2, Z.shiftr_div_pow2 by lia. assert (0 < 2 ^ b) by lia.
  destruct (decide (n = 0)) as [->|].
  - change ((0 - 1) mod 2 ^ 64) with (2 ^ 64 - 1). assert ((2 ^ 64 - 1) / 2 ^ b = 2 ^ (64 - b) - 1) as ->.
    { assert (2 ^ 64 = 2 ^ (64 - b) * 2 ^ b) as -> by (rewrite <- Z.pow_add_r by lia; f_equal; lia).
      symmetry. apply (Z.div_unique _ _ _ (2 ^ b - 1)); lia. }
    assert ((0 - 1) / 2 ^ b = -1) as -> by (symmetry; apply (Z.div_unique _ _ _ (2 ^ b - 1)); lia).
    rewrite Z.mul_mod_idemp_l by lia. replace ((2 ^ (64 - b) - 1 + 1) * 2 ^ b) with (1 * 2 ^ 64); [by rewrite Z.mod_mul by lia |].
    replace (2 ^ (64 - b) - 1 + 1) with (2 ^ (64 - b)) by lia. rewrite <- Z.pow_add_r by lia. rewrite Z.mul_1_l. f_equal. lia.
  - rewrite (Z.mod_small (n - 1)) by lia. by rewrite Z.mul_mod_idemp_l by lia.
Qed.
Lemma round_up_bounds n b : 0 <= b -> n <= ((n - 1) / 2 ^ b + 1) * 2 ^ b < n + 2 ^ b.
Proof.
  intros Hb. assert (0 < 2 ^ b) by lia. pose proof (Z.div_mod (n - 1) (2 ^ b) ltac:(lia)). pose proof (Z.mod_pos_bound (n - 1) (2 ^ b) ltac:(lia)). nia.
Qed.
Lemma round_down_eq n b : 0 <= n < 2 ^ 64 -> 0 <= b < 64 -> kROUND_DOWN n b = n / 2 ^ b * 2 ^ b /\ n - 2 ^ b < n / 2 ^ b * 2 ^ b <= n.
Proof.
  intros Hn Hb. assert (0 < 2 ^ b) by lia. pose proof (Z.div_mod n (2 ^ b) ltac:(lia)). pose proof (Z.mod_pos_bound n (2 ^ b) ltac:(lia)).
  unfold kROUND_DOWN, w64. rewrite Z.shiftl_mul_pow2, Z.shiftr_div_pow2 by lia. assert (0 <= n / 2 ^ b) by (apply Z.div_pos; lia).
  split; [apply Z.mod_small; nia | nia].
Qed.
(** The multiples of [d] around [n]. *)
Lemma multiple_above n b a : 0 <= b -> (2 ^ b | a) -> n <= a -> ((n - 1) / 2 ^ b + 1) * 2 ^ b <= a.
Proof. intros Hb [q ->] Hn. assert (0 < 2 ^ b) by lia. apply Z.mul_le_mono_nonneg_r; [lia |]. assert ((n - 1) / 2 ^ b < q); [|lia]. apply Z.div_lt_upper_bound; lia. Qed.
Lemma multiple_below n b a : 0 <= b -> (2 ^ b | a) -> a <= n -> a <= n / 2 ^ b * 2 ^ b.
Proof. intros Hb [q ->] Hn. assert (0 < 2 ^ b) by lia. apply Z.mul_le_mono_nonneg_r; [lia |]. apply Z.div_le_lower_bound; lia. Qed.

(** ** Regions *)
Definition inside (r : region_t) (x : Z) : Prop := start r <= x < end_ r.
Definition is_free (l : list region_t) (x : Z) : Prop := exists r, r ∈ l /\ inside r x.
Definition region_ok (r : region_t) : Prop := 0 <= start r <= end_ r /\ end_ r < 2 ^ 64 /\ (start r < end_ r -> 0 < start r).
Definition apart (r r' : region_t) : Prop := forall x, inside r x -> inside r' x -> False.
(** Regions in order that do not overlap. *)
Record freemem_ok (l : list region_t) : Prop := {
  fo_ok : Forall region_ok l;
  fo_apart : forall i j r r', l !! i = Some r -> l !! j = Some r' -> i <> j -> apart r r' }.

(** A block of [2 ^ bits] bytes at [a] that fits in [r]. *)
Definition fits (bits : Z) (r : region_t) (a : Z) : Prop := (2 ^ bits | a) /\ start r <= a /\ a + 2 ^ bits <= end_ r.
Definition good_place (r p : region_t) : bool := (end_ p >? start p) && (start p >=? start r) && (end_ p <=? end_ r).

Lemma place_spec bits r : 0 <= bits < 64 -> region_ok r -> let p := place bits r in
  (good_place r p = true -> fits bits r (start p) /\ end_ p = start p + 2 ^ bits) /\ (forall a, fits bits r a -> good_place r p = true).
Proof.
  intros Hb ((H0 & H1) & H2 & H3) p. assert (0 < 2 ^ bits) as Hp by lia. pose proof (round_up_bounds (start r) bits ltac:(lia)) as Hu.
  destruct (round_down_eq (end_ r) bits ltac:(lia) Hb) as [Ed Hd]. pose proof (round_up_eq (start r) bits ltac:(lia) Hb) as Eu.
  assert (2 ^ bits <= 2 ^ 63) as Hpb by (apply Z.pow_le_mono_r; lia). assert (BIT bits = 2 ^ bits) as EB by (unfold BIT; rewrite Z.shiftl_mul_pow2; lia).
  unfold p, place, good_place. rewrite Ed, Eu, EB. set (u := ((start r - 1) / 2 ^ bits + 1) * 2 ^ bits) in *. set (d := end_ r / 2 ^ bits * 2 ^ bits) in *.
  assert ((2 ^ bits | u) /\ (2 ^ bits | d)) as [Du Dd] by (split; apply Z.divide_factor_r).
  assert (u < 2 ^ 64 -> w64 u = u) as Wu by (intros; unfold w64; apply Z.mod_small; lia).
  assert (2 ^ 64 <= u -> w64 u < start r) as Wu'.
  { intros Hge. assert (u = 2 ^ 64 \/ 2 ^ 64 < u) as [-> | Hgt] by lia; [change (w64 (2 ^ 64)) with 0; lia |].
    unfold w64. rewrite <- (Z.mod_add _ (-1)), Z.mod_small by lia. lia. }
  destruct (_ <? _).
  - cbn [start end_]. split.
    + rewrite Z.gtb_ltb, Z.geb_leb, !andb_true_iff, Z.ltb_lt, !Z.leb_le. intros [[G1 G2] G3]. destruct (decide (u < 2 ^ 64)); [|exfalso; lia].
      rewrite Wu in * by done. unfold w64 in *. destruct (decide (u + 2 ^ bits < 2 ^ 64)); [rewrite Z.mod_small in * by lia; split; [split; [done | lia] | done] |].
      exfalso. rewrite <- (Z.mod_add _ (-1)), Z.mod_small in G1 by lia. lia.
    + intros a (Da & A1 & A2). pose proof (multiple_above (start r) bits a ltac:(lia) Da A1) as Hau. fold u in Hau. rewrite Wu by lia.
      unfold w64. rewrite Z.mod_small by lia. rewrite Z.gtb_ltb, Z.geb_leb, !andb_true_iff, Z.ltb_lt, !Z.leb_le. lia.
  - cbn [start end_]. split.
    + rewrite Z.gtb_ltb, Z.geb_leb, !andb_true_iff, Z.ltb_lt, !Z.leb_le. intros [[G1 G2] G3]. unfold w64 in *.
      destruct (decide (2 ^ bits <= d)); [|exfalso; rewrite <- (Z.mod_add _ 1), Z.mod_small in G1 by lia; lia].
      rewrite Z.mod_small in * by lia. split; [|lia]. split; [|lia]. apply Z.divide_sub_r; [done | apply Z.divide_refl].
    + intros a (Da & A1 & A2). assert ((2 ^ bits | a + 2 ^ bits)) as Da' by (apply Z.divide_add_r; [done | apply Z.divide_refl]).
      pose proof (multiple_below (end_ r) bits (a + 2 ^ bits) ltac:(lia) Da' A2) as Had. fold d in Had.
      unfold w64. rewrite Z.mod_small by lia. rewrite Z.gtb_ltb, Z.geb_leb, !andb_true_iff, Z.ltb_lt, !Z.leb_le. lia.
Qed.

(** ** The best placement *)
Definition below_of (r p : region_t) : region_t := mkReg (start r) (start p).
Definition above_of (r p : region_t) : region_t := mkReg (end_ p) (end_ r).
(** A placement found in [l]: its block fits in an entry and the remainders are what is left of it. *)
Definition placed (bits : Z) (l : list region_t) (pl : placement) : Prop :=
  exists r, l !! reg_index pl = Some r /\ fits bits r (start (pl_reg pl)) /\ end_ (pl_reg pl) = start (pl_reg pl) + 2 ^ bits /\
    ((rem_small pl = below_of r (pl_reg pl) /\ rem_large pl = above_of r (pl_reg pl)) \/
     (rem_small pl = above_of r (pl_reg pl) /\ rem_large pl = below_of r (pl_reg pl))).

Lemma placed_nonempty bits l pl : 0 <= bits -> placed bits l pl -> is_reg_empty (pl_reg pl) = false.
Proof. intros Hb (r & _ & _ & E & _). unfold is_reg_empty. apply Z.eqb_neq. rewrite E. assert (0 < 2 ^ bits) by lia. lia. Qed.

Lemma alloc_round_spec bits l best i r : 0 <= bits < 64 -> region_ok r -> l !! i = Some r -> best = no_placement \/ placed bits l best ->
  let best' := alloc_round bits best i r in
  (best' = no_placement \/ placed bits l best') /\ (best' = no_placement -> best = no_placement /\ forall a, ~ fits bits r a).
Proof.
  intros Hb Hr Hi Hbest best'. destruct (place_spec bits r Hb Hr) as [Hgood Hfit]. unfold best', alloc_round. fold (good_place r (place bits r)).
  set (p := place bits r) in *. destruct (good_place r p) eqn:Eg.
  2: { split; [done |]. intros ->. split; [done |]. intros a Ha. specialize (Hfit a Ha). congruence. }
  destruct (Hgood eq_refl) as [Hf He]. set (sl := if _ <? _ then _ else _). destruct sl as [small large] eqn:Esl.
  destruct (is_reg_empty (pl_reg best) || _ || _) eqn:Eb.
  - assert (placed bits l (mkPl p small large i)) as Hp.
    { exists r. cbn. split; [done |]. split; [done |]. split; [done |]. unfold sl in Esl. destruct (_ <? _); injection Esl as <- <-; [by left | by right]. }
    split; [by right |]. intros E. pose proof (placed_nonempty bits l _ (proj1 Hb) Hp) as Hne. by rewrite E in Hne.
  - destruct Hbest as [-> | Hp]; [done |]. split; [by right |]. intros ->. by pose proof (placed_nonempty bits l _ (proj1 Hb) Hp).
Qed.

Lemma alloc_loop_spec bits l best pre post : 0 <= bits < 64 -> Forall region_ok l -> l = pre ++ post -> best = no_placement \/ placed bits l best ->
  (best = no_placement -> forall r a, r ∈ pre -> ~ fits bits r a) ->
  let best' := alloc_loop bits best (length pre) post in
  (best' = no_placement \/ placed bits l best') /\ (best' = no_placement -> forall r a, r ∈ l -> ~ fits bits r a).
Proof.
  intros Hb Hl. revert best pre. induction post as [|r post IH]; intros best pre El Hbest Hno; cbn [alloc_loop].
  { rewrite app_nil_r in El. by subst. }
  assert (l !! length pre = Some r) as Hi by (rewrite El; by apply list_lookup_middle).
  assert (region_ok r) as Hr by (eapply Forall_lookup_1; done).
  destruct (alloc_round_spec bits l best (length pre) r Hb Hr Hi Hbest) as [H1 H2].
  replace (S (length pre)) with (length (pre ++ [r])) by (rewrite length_app; simpl; lia). apply IH; [by rewrite <- app_assoc | done |].
  intros E r' a [Hr' | ->%list_elem_of_singleton]%elem_of_app; [apply Hno; [by apply H2 | done] | by apply H2].
Qed.

(** ** Inserting a region *)
Lemma insert_first_spec l reg l' : insert_first l reg = Some l' ->
  exists l1 e l2, l = l1 ++ e :: l2 /\ l' = l1 ++ reg :: l2 /\ is_reg_empty e = true.
Proof.
  revert l'. induction l as [|r l IH]; intros l' E; [done |]. cbn [insert_first] in E. destruct (is_reg_empty r) eqn:Er.
  - injection E as <-. by exists [], r, l.
  - destruct (insert_first l reg) as [l0|]; [|done]. injection E as <-. destruct (IH l0 eq_refl) as (l1 & e & l2 & -> & -> & He). by exists (r :: l1), e, l2.
Qed.
Lemma insert_first_none l reg : insert_first l reg = None -> forall r, r ∈ l -> is_reg_empty r = false.
Proof.
  induction l as [|r l IH]; intros E r' Hr'; [set_solver |]. cbn [insert_first] in E. destruct (is_reg_empty r) eqn:Er; [done |].
  destruct (insert_first l reg); [done |]. apply elem_of_cons in Hr' as [-> | Hr']; [done | by apply IH].
Qed.
Lemma empty_inside e x : is_reg_empty e = true -> ~ inside e x.
Proof. unfold is_reg_empty, inside. intros E%Z.eqb_eq. lia. Qed.

(** Replacing one entry. *)
Lemma replace_ok l i old new : freemem_ok l -> l !! i = Some old -> region_ok new ->
  (forall j r, l !! j = Some r -> j <> i -> apart new r) -> freemem_ok (<[i := new]> l).
Proof.
  intros [H1 H2] Hi Hn Ha. assert (i < length l)%nat as Hlen by (by eapply lookup_lt_Some). split; [by apply Forall_insert |].
  intros j k r r' Hj Hk Hjk. destruct (decide (j = i)) as [->|Nj], (decide (k = i)) as [->|Nk]; [done | | |].
  - rewrite list_lookup_insert_eq in Hj by done. injection Hj as <-. rewrite list_lookup_insert_ne in Hk by done. by eapply Ha.
  - rewrite list_lookup_insert_eq in Hk by done. injection Hk as <-. rewrite list_lookup_insert_ne in Hj by done. intros x Hx Hx'. by eapply (Ha j).
  - rewrite !list_lookup_insert_ne in * by done. by eapply H2.
Qed.
Lemma replace_free l i old new x : l !! i = Some old -> (is_free (<[i := new]> l) x <-> inside new x \/ exists j r, j <> i /\ l !! j = Some r /\ inside r x).
Proof.
  intros Hi. assert (i < length l)%nat as Hlen by (by eapply lookup_lt_Some). split.
  - intros (r & Hr & Hx). apply list_elem_of_lookup_1 in Hr as [j Hj]. destruct (decide (j = i)) as [->|Nj].
    + rewrite list_lookup_insert_eq in Hj by done. injection Hj as <-. by left.
    + rewrite list_lookup_insert_ne in Hj by done. right. eauto.
  - intros [Hx | (j & r & Nj & Hj & Hx)].
    + exists new. split; [|done]. apply (list_elem_of_lookup_2 _ i). by apply list_lookup_insert_eq.
    + exists r. split; [|done]. apply (list_elem_of_lookup_2 _ j). by rewrite list_lookup_insert_ne.
Qed.

(** How many entries are empty. *)
Definition empties (l : list region_t) : nat := length (List.filter is_reg_empty l).
Lemma empties_middle l1 e l2 : empties (l1 ++ e :: l2) = (empties (l1 ++ l2) + if is_reg_empty e then 1 else 0)%nat.
Proof. unfold empties. rewrite !List.filter_app, !length_app. cbn [List.filter]. destruct (is_reg_empty e); cbn [length]; lia. Qed.
Lemma empties_some l e : e ∈ l -> is_reg_empty e = true -> (0 < empties l)%nat.
Proof. intros (l1 & l2 & ->)%list_elem_of_split He. rewrite empties_middle, He. lia. Qed.
Lemma empties_emptied l i r : l !! i = Some r -> is_reg_empty r = false -> empties (<[i := REG_EMPTY]> l) = S (empties l).
Proof.
  intros (l1 & l2 & -> & ->)%list_elem_of_split_length Hr. replace (length l1) with (length l1 + 0)%nat by lia. rewrite insert_app_r.
  cbn [list_insert insert]. rewrite !empties_middle, Hr. cbn. lia.
Qed.

Lemma insert_region_spec b reg : freemem_ok (freemem b) -> region_ok reg -> (forall r, r ∈ freemem b -> apart reg r) ->
  exists ok l', insert_region reg b = inl (ok, set_freemem l' b) /\ freemem_ok l' /\
    (ok = true -> forall x, is_free l' x <-> inside reg x \/ is_free (freemem b) x) /\ (ok = false -> empties (freemem b) = 0%nat /\ l' = freemem b) /\ (empties l' <= empties (freemem b) <= empties l' + 1)%nat.
Proof.
  intros Hl Hreg Ha. unfold insert_region, bind. destruct (Z.leb_spec (start reg) (end_ reg)); [|destruct Hreg; lia]. cbn [assert_].
  destruct (is_reg_empty reg) eqn:Ee.
  { exists true, (freemem b). split; [by destruct b |]. split; [done |]. split; [|split; [done | lia]]. intros _ x. pose proof (empty_inside reg x Ee). tauto. }
  unfold gets, ret. cbv beta iota. destruct (insert_first (freemem b) reg) as [l'|] eqn:Ei.
  2: { exists false, (freemem b). split; [by destruct b |]. split; [done |]. split; [done |]. split; [|lia]. intros _. split; [|done].
       destruct (empties (freemem b)) as [|n] eqn:Em; [done |]. exfalso. unfold empties in Em. destruct (List.filter is_reg_empty (freemem b)) as [|e t] eqn:Ef; [done |].
       assert (In e (List.filter is_reg_empty (freemem b))) as Hin by (rewrite Ef; by left). apply List.filter_In in Hin as [Hin He].
       apply list_elem_of_In in Hin. by rewrite (insert_first_none _ _ Ei e Hin) in He. }
  exists true, l'. split; [done |]. destruct (insert_first_spec _ _ _ Ei) as (l1 & e & l2 & El & -> & He).
  assert (freemem b !! length l1 = Some e) as Hi by (rewrite El; by apply list_lookup_middle).
  assert (l1 ++ reg :: l2 = <[length l1 := reg]> (freemem b)) as -> by (rewrite El; symmetry; replace (length l1) with (length l1 + 0)%nat by lia; by rewrite insert_app_r).
  split; [|split; [|split; [done |]]].
  - eapply replace_ok; [done | done | done |]. intros j r Hj _. apply Ha. by eapply list_elem_of_lookup_2.
  - intros _ x. rewrite replace_free by done. split; [intros [? | (j & r & _ & Hj & Hx)]; [by left | right; exists r; split; [by eapply list_elem_of_lookup_2 | done]] |].
    intros [? | (r & Hr & Hx)]; [by left |]. right. apply list_elem_of_lookup_1 in Hr as [j Hj]. exists j, r. split; [|done].
    intros ->. rewrite Hi in Hj. injection Hj as <-. by eapply empty_inside.
  - rewrite El. replace (length l1) with (length l1 + 0)%nat by lia. rewrite insert_app_r. cbn [list_insert insert]. rewrite !empties_middle, He, Ee. lia.
Qed.

(** ** Allocation *)
Lemma remainder_ok bits r p : region_ok r -> fits bits r (start p) -> 0 <= bits -> end_ p = start p + 2 ^ bits ->
  region_ok (below_of r p) /\ region_ok (above_of r p) /\ apart (below_of r p) (above_of r p) /\
  forall x, inside r x <-> inside p x \/ inside (below_of r p) x \/ inside (above_of r p) x.
Proof.
  intros ((H0 & H1) & H2 & H3) (_ & F1 & F2) Hb He. assert (0 < 2 ^ bits) by lia. unfold region_ok, apart, inside, below_of, above_of. cbn [start end_]. rewrite He.
  split_and!; try lia; intros; lia.
Qed.

(** An entry is replaced by two regions in it, the second of which may be lost. *)
Definition elsewhere (l : list region_t) (i : nat) (x : Z) : Prop := exists j r, j <> i /\ l !! j = Some r /\ inside r x.
Lemma split_entry b i r A B : let l := freemem b in freemem_ok l -> l !! i = Some r -> is_reg_empty r = false -> region_ok A -> region_ok B -> apart A B ->
  (forall x, inside A x -> inside r x) -> (forall x, inside B x -> inside r x) ->
  exists o1 b2 o2 l', insert_region A (set_freemem (<[i := REG_EMPTY]> l) b) = inl (o1, b2) /\ insert_region B b2 = inl (o2, set_freemem l' b) /\ freemem_ok l' /\
    (forall x, is_free l' x -> elsewhere l i x \/ inside A x \/ inside B x) /\
    ((exists e, e ∈ l /\ is_reg_empty e = true) -> forall x, elsewhere l i x \/ inside A x \/ inside B x -> is_free l' x).
Proof.
  intros l Hl Hi Hne HA HB Hap HAr HBr. assert (i < length l)%nat as Hlen by (by eapply lookup_lt_Some). pose proof Hl as [_ Hlap].
  assert (freemem_ok (<[i := REG_EMPTY]> l)) as Hl1.
  { eapply replace_ok; [done | done | unfold region_ok; cbn; lia |]. intros j r' _ _ x Hx. unfold inside in Hx. cbn in Hx. lia. }
  assert (forall x, is_free (<[i := REG_EMPTY]> l) x <-> elsewhere l i x) as Hf1.
  { intros x. rewrite (replace_free l i r REG_EMPTY x Hi). unfold inside at 1. cbn. split; [intros [? | ?]; [lia | done] | by right]. }
  assert (forall R x, (forall x, inside R x -> inside r x) -> inside R x -> elsewhere l i x -> False) as Hother.
  { intros R x HR Hx (j & r' & Nj & Hj & Hx'). apply (Hlap i j r r' Hi Hj ltac:(done) x); auto. }
  assert (0 < empties (<[i := REG_EMPTY]> l))%nat as Hem by (eapply empties_some; [by eapply list_elem_of_lookup_2, list_lookup_insert_eq | done]).
  destruct (insert_region_spec (set_freemem (<[i := REG_EMPTY]> l) b) A) as (o1 & l2 & E1 & Hl2 & Hok1 & Hno1 & Hc1); [done | done | |].
  { intros r' Hr' x Hx Hx'. apply (Hother A x HAr Hx), Hf1. by exists r'. }
  cbn [freemem set_freemem] in *. destruct o1; [|destruct (Hno1 eq_refl); lia]. specialize (Hok1 eq_refl).
  destruct (insert_region_spec (set_freemem l2 b) B) as (o2 & l3 & E2 & Hl3 & Hok2 & Hno2 & _); [done | done | |].
  { intros r' Hr' x Hx Hx'. assert (is_free l2 x) as Hfx by by exists r'. apply Hok1 in Hfx as [HxA | Hfx]; [by apply (Hap x) | by apply (Hother B x HBr Hx), Hf1]. }
  exists true, (set_freemem l2 b), o2, l3. split; [done |]. split; [done |]. split; [done |]. cbn [freemem set_freemem] in *.
  destruct o2; [specialize (Hok2 eq_refl) | destruct (Hno2 eq_refl) as [Hz ->]].
  - split; intros; [|apply Hok2; rewrite Hok1, Hf1; tauto]. rewrite Hok2, Hok1, Hf1 in *. tauto.
  - split; [intros x Hx; rewrite Hok1, Hf1 in Hx; tauto |]. intros (e & He & Hee). exfalso.
    pose proof (empties_some l e He Hee). pose proof (empties_emptied l i r Hi Hne). lia.
Qed.

(** What is left of an entry when its block is taken out. *)
Lemma split_block b i r bits best : freemem_ok (freemem b) -> freemem b !! i = Some r -> is_reg_empty r = false -> fits bits r (start (pl_reg best)) -> 0 <= bits ->
  end_ (pl_reg best) = start (pl_reg best) + 2 ^ bits ->
  (rem_small best = below_of r (pl_reg best) /\ rem_large best = above_of r (pl_reg best)) \/
  (rem_small best = above_of r (pl_reg best) /\ rem_large best = below_of r (pl_reg best)) ->
  exists o1 b2 o2 l', insert_region (rem_large best) (set_freemem (<[i := REG_EMPTY]> (freemem b)) b) = inl (o1, b2) /\
    insert_region (rem_small best) b2 = inl (o2, set_freemem l' b) /\ freemem_ok l' /\
    (forall x, is_free l' x -> elsewhere (freemem b) i x \/ (inside r x /\ ~ inside (pl_reg best) x)) /\
    ((exists e, e ∈ freemem b /\ is_reg_empty e = true) -> forall x, elsewhere (freemem b) i x \/ (inside r x /\ ~ inside (pl_reg best) x) -> is_free l' x).
Proof.
  intros Hl Hr Hne Hf Hb He Hrem. pose proof Hl as [Hok Hap]. set (p := pl_reg best) in *.
  assert (region_ok r) as Hrok by (eapply Forall_lookup_1; done). destruct (remainder_ok bits r p Hrok Hf Hb He) as (Hbel & Habv & Hba & Hin).
  assert (forall x, inside r x /\ ~ inside p x <-> inside (below_of r p) x \/ inside (above_of r p) x) as Hsp.
    { intros x. specialize (Hin x). assert (inside p x -> inside (below_of r p) x \/ inside (above_of r p) x -> False) by (unfold inside, below_of, above_of; cbn; lia). tauto. }
    destruct Hrem as [[Es El] | [Es El]]; rewrite Es, El.
    - destruct (split_entry b i r (above_of r p) (below_of r p)) as (o1 & b2 & o2 & l' & ? & ? & ? & Hin1 & Hin2); try done; [intros x ? ?; by apply (Hba x) | intros x ?; apply Hin; tauto.. |].
      exists o1, b2, o2, l'. split_and!; try done; [intros x Hx; apply Hin1 in Hx; specialize (Hsp x); tauto | intros He' x Hx; apply (Hin2 He'); specialize (Hsp x); tauto].
    - destruct (split_entry b i r (below_of r p) (above_of r p)) as (o1 & b2 & o2 & l' & ? & ? & ? & Hin1 & Hin2); try done; [intros x ?; apply Hin; tauto.. |].
      exists o1, b2, o2, l'. split_and!; try done; [intros x Hx; apply Hin1 in Hx; specialize (Hsp x); tauto | intros He' x Hx; apply (Hin2 He'); specialize (Hsp x); tauto].
Qed.

(** [alloc_region]. *)
Lemma alloc_region_ok (b : boot_t) (bits : Z) : freemem_ok (freemem b) -> 0 <= bits < 64 ->
  exists p l', alloc_region bits b = inl (p, set_freemem l' b) /\ freemem_ok l' /\
    ((p = 0 /\ l' = freemem b /\ forall r a, r ∈ freemem b -> ~ fits bits r a) \/
     (0 < p /\ (2 ^ bits | p) /\ (forall x, p <= x < p + 2 ^ bits -> is_free (freemem b) x) /\
      (forall x, is_free l' x -> is_free (freemem b) x /\ ~ p <= x < p + 2 ^ bits) /\
      ((exists e, e ∈ freemem b /\ is_reg_empty e = true) -> forall x, is_free (freemem b) x -> ~ p <= x < p + 2 ^ bits -> is_free l' x))).
Proof.
  intros Hl Hb. pose proof Hl as [Hok Hap]. unfold alloc_region, bind, gets. cbv beta iota.
  destruct (alloc_loop_spec bits (freemem b) no_placement [] (freemem b) Hb Hok eq_refl ltac:(by left) ltac:(set_solver)) as [Hbest Hnone]. cbn [length] in *.
  set (best := alloc_loop bits no_placement 0 (freemem b)) in *. destruct (is_reg_empty (pl_reg best)) eqn:Ee.
  { destruct Hbest as [E | Hp]; [|by rewrite (placed_nonempty bits _ _ (proj1 Hb) Hp) in Ee]. exists 0, (freemem b). split; [by destruct b |]. split; [done |]. left. auto. }
  destruct Hbest as [E | (r & Hr & Hf & He & Hrem)]; [by rewrite E in Ee |]. set (p := pl_reg best) in *. set (i := reg_index best) in *.
  assert (region_ok r) as Hrok by (eapply Forall_lookup_1; done). destruct (remainder_ok bits r p Hrok Hf (proj1 Hb) He) as (Hbel & Habv & Hba & Hin).
  assert (is_reg_empty r = false) as Hne by (apply Z.eqb_neq; destruct Hf as (_ & ? & ?); assert (0 < 2 ^ bits) by lia; lia).
  assert (inside p = fun x => start p <= x < start p + 2 ^ bits) as Ep by (unfold inside; by rewrite He).
  assert (forall x, is_free (freemem b) x <-> elsewhere (freemem b) i x \/ inside r x) as Hfree.
  { intros x. rewrite <- (list_insert_id (freemem b) i r Hr) at 1. rewrite (replace_free (freemem b) i r r x Hr). unfold elsewhere. tauto. }
  destruct (split_block b i r bits best Hl Hr Hne Hf (proj1 Hb) He Hrem) as (o1 & b2 & o2 & l' & E1 & E2 & Hl' & Hin1 & Hin2). fold p in Hin1, Hin2.
  unfold modify. rewrite E1, E2. exists (start p), l'. split; [done |]. split; [done |]. right. rewrite Ep in Hin1, Hin2. destruct Hf as (Hd & Hf1 & Hf2). pose proof Hrok as (_ & _ & Hpos).
  assert (forall x, start p <= x < start p + 2 ^ bits -> inside r x /\ ~ elsewhere (freemem b) i x) as Hblk.
  { intros x Hx. assert (inside r x) as Hxr by (unfold inside; lia). split; [done |]. intros (j & r' & Nj & Hj & Hx'). by apply (Hap i j r r' Hr Hj ltac:(done) x). }
  split; [apply Z.eqb_neq in Hne; lia |]. split; [done |]. split; [intros x Hx; apply Hfree; right; by apply Hblk |]. split.
  - intros x Hx. apply Hin1 in Hx. specialize (Hblk x). rewrite Hfree. tauto.
  - intros He' x Hx Hnx. apply (Hin2 He'). apply Hfree in Hx. tauto.
Qed.

