(* ===== verification/KBootUntyped.v ===== *)
(** * Untyped memory at boot: theorems

    [create_untypeds_for_region] tiles a region with aligned blocks and puts a
    capability for each of them in the root CNode. *)

From S2P Require Import Prelude KCaps KState KSched KCspace KMdb KMsg KVspace KDelete KUntyped KBootMem KBootThms.

(** ** The next block *)
Lemma ctzl_divides x : 0 < x -> (2 ^ CTZL x | x) /\ (2 ^ (CTZL x + 1) | x + 2 ^ CTZL x) /\ forall t, CTZL x < t -> ~ (2 ^ t | x).
Proof.
  destruct x as [|p|p]; try lia. intros _. cbn [CTZL]. pose proof (pos_trailing_nonneg p) as Hp.
  assert (exists q, Z.pos p = (2 * q + 1) * 2 ^ pos_trailing p) as [q E].
  { clear. induction p as [p IH|p IH|]; cbn [pos_trailing].
    - exists (Z.pos p). rewrite Z.pow_0_r. lia.
    - destruct IH as [q IH]. exists q. pose proof (pos_trailing_nonneg p). rewrite Z.pow_add_r, Z.pow_1_r by lia. lia.
    - by exists 0. }
  set (c := pos_trailing p) in *. rewrite E. split; [apply Z.divide_factor_r |]. split.
  - exists (q + 1). rewrite Z.pow_add_r, Z.pow_1_r by lia. lia.
  - intros t Ht [z Hz]. replace t with (c + (1 + (t - c - 1))) in Hz by lia. rewrite !Z.pow_add_r, Z.pow_1_r in Hz by lia.
    assert (0 < 2 ^ c) by lia. assert (2 * q + 1 = z * (2 * 2 ^ (t - c - 1))) by nia. assert ((2 * q + 1) mod 2 = 1) by lia. rewrite H0 in H1.
    replace (z * (2 * 2 ^ (t - c - 1))) with (z * 2 ^ (t - c - 1) * 2) in H1 by lia. rewrite Z.mod_mul in H1 by lia. lia.
Qed.

(** The largest block the size of the region allows. *)
Definition top_bits (s e : Z) : Z := Z.min (Z.log2 (e - s)) seL4_MaxUntypedBits.
Lemma block_bits_spec s e : 0 < s < e -> e < 2 ^ 64 -> let n := block_bits (mkReg s e) in
  0 <= n <= seL4_MaxUntypedBits /\ (2 ^ n | s) /\ s + 2 ^ n <= e /\
  (n = top_bits s e \/ (n = CTZL s /\ n < top_bits s e /\ (2 ^ (n + 1) | s + 2 ^ n) /\ ~ (2 ^ top_bits s e | s))).
Proof.
  intros Hs He n. unfold n, block_bits, CLZL. cbn [start end_]. unfold w64. rewrite Z.mod_small by lia. destruct (Z.eqb_spec s 0); [lia |]. cbn [negb].
  replace (64 - 1 - (63 - Z.log2 (e - s))) with (Z.log2 (e - s)) by lia. pose proof (Z.log2_spec (e - s) ltac:(lia)) as Hl. pose proof (Z.log2_nonneg (e - s)) as Hl0.
  destruct (ctzl_divides s ltac:(lia)) as (D1 & D2 & D3). pose proof (CTZL_nonneg s) as Hc0. set (c := CTZL s) in *. set (g := Z.log2 (e - s)) in *.
  unfold top_bits. fold g. change seL4_MaxUntypedBits with 47 in *.
  assert (forall a, 0 <= a <= c -> (2 ^ a | s)) as Hdiv.
  { intros a Ha. etrans; [|exact D1]. exists (2 ^ (c - a)). rewrite <- Z.pow_add_r by lia. f_equal. lia. }
  assert (forall a, 0 <= a <= g -> 2 ^ a <= 2 ^ g) as Hmono by (intros; apply Z.pow_le_mono_r; lia).
  destruct (Z.ltb_spec c g); rewrite Z.gtb_ltb.
  - destruct (Z.ltb_spec 47 c).
    + split; [lia |]. split; [apply Hdiv; lia |]. split; [specialize (Hmono 47); lia |]. left. lia.
    + split; [lia |]. split; [done |]. split; [specialize (Hmono c); lia |]. destruct (decide (c = Z.min g 47)); [by left | right]. split; [done |]. split; [lia |]. split; [done |]. apply D3. lia.
  - destruct (Z.ltb_spec 47 g).
    + split; [lia |]. split; [apply Hdiv; lia |]. split; [specialize (Hmono 47); lia |]. left. lia.
    + split; [lia |]. split; [apply Hdiv; lia |]. split; [specialize (Hmono g); lia |]. left. lia.
Qed.

(** ** The blocks of a region *)
Fixpoint blocks (fuel : nat) (s e : Z) : list (Z * Z) :=
  match fuel with
  | O => []
  | S fuel => if s =? e then [] else let n := block_bits (mkReg s e) in (s, n) :: blocks fuel (s + 2 ^ n) e
  end.
(** Aligned blocks, one behind the other from [s] to [e]. *)
Fixpoint tiles (s e : Z) (bl : list (Z * Z)) : Prop :=
  match bl with
  | [] => s = e
  | (a, n) :: bl => a = s /\ (2 ^ n | s) /\ 0 <= n <= seL4_MaxUntypedBits /\ s + 2 ^ n <= e /\ tiles (s + 2 ^ n) e bl
  end.

(** How many rounds are left: the blocks grow up to the largest size, then shrink. *)
Definition aligned_to (s e : Z) : bool := s mod 2 ^ top_bits s e =? 0.
Definition rounds (s e : Z) : Z :=
  (e - s) / 2 ^ 47 + if s =? e then 0 else if aligned_to s e then Z.log2 (e - s) + 1 else 66 + (47 - CTZL s).

Lemma div_smaller x d n : 0 < d -> 0 <= x - n -> 0 <= n -> (x - n) / d <= x / d.
Proof. intros. apply Z.div_le_mono; lia. Qed.

(** A block of the largest size leaves the rest aligned and either a large block or the top bit less. *)
Lemma rounds_top s e n : 0 < s < e -> e < 2 ^ 64 -> n = top_bits s e -> (2 ^ n | s) -> rounds (s + 2 ^ n) e < rounds s e.
Proof.
  intros Hs He En Hd. assert (0 <= n <= 47) as Hn by (unfold top_bits in En; pose proof (Z.log2_nonneg (e - s)); change seL4_MaxUntypedBits with 47 in *; lia).
  assert (0 < 2 ^ n) as Hp by lia. pose proof (Z.log2_spec (e - s) ltac:(lia)) as Hl. pose proof (Z.log2_nonneg (e - s)) as Hl0.
  assert (2 ^ n <= e - s) as Hle by (etrans; [|apply Hl]; apply Z.pow_le_mono_r; unfold top_bits in En; lia).
  unfold rounds. destruct (Z.eqb_spec s e); [lia |]. assert (aligned_to s e = true) as -> by (apply Z.eqb_eq; rewrite <- En; by apply Z.mod_divide; [lia |]).
  replace (e - (s + 2 ^ n)) with (e - s - 2 ^ n) by lia. pose proof (div_smaller (e - s) (2 ^ 47) (2 ^ n) ltac:(lia) ltac:(lia) ltac:(lia)) as Hdiv.
  destruct (Z.eqb_spec (s + 2 ^ n) e) as [|Hne]; [lia |].
  assert (aligned_to (s + 2 ^ n) e = true) as ->.
  { apply Z.eqb_eq, Z.mod_divide; [apply Z.pow_nonzero; unfold top_bits; pose proof (Z.log2_nonneg (e - (s + 2 ^ n))); change seL4_MaxUntypedBits with 47; lia |].
    etrans; [|apply Z.divide_add_r; [exact Hd | apply Z.divide_refl]]. exists (2 ^ (n - top_bits (s + 2 ^ n) e)).
    assert (0 <= top_bits (s + 2 ^ n) e <= n); [|rewrite <- Z.pow_add_r by lia; f_equal; lia].
    unfold top_bits in *. pose proof (Z.log2_nonneg (e - (s + 2 ^ n))). pose proof (Z.log2_le_mono (e - (s + 2 ^ n)) (e - s) ltac:(lia)). change seL4_MaxUntypedBits with 47 in *. lia. }
  destruct (decide (n = 47)) as [->|].
  - pose proof (Z.log2_le_mono (e - s - 2 ^ 47) (e - s) ltac:(lia)). replace (e - s - 2 ^ 47) with (e - s + (-1) * 2 ^ 47) at 1 by lia. rewrite Z.div_add by lia. lia.
  - assert (n = Z.log2 (e - s)) as En' by (unfold top_bits in En; change seL4_MaxUntypedBits with 47 in *; lia). rewrite <- En' in *.
    assert (Z.log2 (e - s - 2 ^ n) < n); [|lia]. apply Z.log2_lt_pow2; [lia |]. rewrite Z.pow_succ_r in Hl by lia. lia.
Qed.
Lemma rounds_grow s e n : 0 < s < e -> e < 2 ^ 64 -> n = CTZL s -> n < top_bits s e -> ~ (2 ^ top_bits s e | s) -> (2 ^ (n + 1) | s + 2 ^ n) -> s + 2 ^ n <= e ->
  rounds (s + 2 ^ n) e < rounds s e.
Proof.
  intros Hs He En Hlt Hnd Hd Hle. pose proof (CTZL_nonneg s) as Hc. rewrite <- En in Hc. assert (0 < 2 ^ n) by lia. pose proof (Z.log2_nonneg (e - s)) as Hl0.
  unfold rounds. destruct (Z.eqb_spec s e); [lia |]. assert (aligned_to s e = false) as ->.
  { apply Z.eqb_neq. intros E. apply Hnd. apply Z.mod_divide; [|done]. apply Z.pow_nonzero; unfold top_bits; change seL4_MaxUntypedBits with 47; lia. }
  rewrite <- En. replace (e - (s + 2 ^ n)) with (e - s - 2 ^ n) by lia. pose proof (div_smaller (e - s) (2 ^ 47) (2 ^ n) ltac:(lia) ltac:(lia) ltac:(lia)) as Hdiv.
  assert (n < 47) as Hn47 by (unfold top_bits in Hlt; change seL4_MaxUntypedBits with 47 in *; lia).
  destruct (Z.eqb_spec (s + 2 ^ n) e) as [|Hne]; [lia |]. destruct (aligned_to (s + 2 ^ n) e).
  - assert (Z.log2 (e - s - 2 ^ n) < 64); [|lia]. apply Z.log2_lt_pow2; lia.
  - assert (n + 1 <= CTZL (s + 2 ^ n)); [|lia]. destruct (decide (n + 1 <= CTZL (s + 2 ^ n))) as [|Hc']; [done |]. exfalso.
    destruct (ctzl_divides (s + 2 ^ n) ltac:(lia)) as (_ & _ & D3). by apply (D3 (n + 1)); [lia |].
Qed.

Lemma blocks_tile fuel s e : 0 < s <= e -> e < 2 ^ 64 -> rounds s e <= Z.of_nat fuel -> tiles s e (blocks fuel s e).
Proof.
  revert s. induction fuel as [|fuel IH]; intros s Hs He Hr; cbn [blocks].
  - destruct (decide (s = e)); [done |]. exfalso. unfold rounds in Hr. destruct (Z.eqb_spec s e); [done |].
    assert (0 <= (e - s) / 2 ^ 47) by (apply Z.div_pos; lia). pose proof (Z.log2_nonneg (e - s)). destruct (aligned_to s e) eqn:Ea; [lia |].
    destruct (block_bits_spec s e) as (_ & Hd & _ & [En | (En & Hlt & _)]); [lia | lia | |].
    + rewrite En in Hd. apply Z.eqb_neq in Ea. apply Ea, Z.mod_divide; [apply Z.pow_nonzero; unfold top_bits; change seL4_MaxUntypedBits with 47; lia | done].
    + unfold top_bits in Hlt. change seL4_MaxUntypedBits with 47 in *. lia.
  - destruct (Z.eqb_spec s e) as [|Hne]; [done |]. destruct (block_bits_spec s e) as (Hn & Hd & Hle & Hcase); [lia | lia |].
    set (n := block_bits (mkReg s e)) in *. cbn [tiles]. split; [done |]. split; [done |]. split; [done |]. split; [done |].
    assert (0 < 2 ^ n) by lia. apply IH; [lia | lia |]. assert (rounds (s + 2 ^ n) e < rounds s e); [|lia].
    destruct Hcase as [En | (En & Hlt & Hd' & Hnd)]; [apply rounds_top; (done || lia) | apply rounds_grow; (done || lia)].
Qed.
Lemma rounds_bound s e : 0 < s <= e -> e < 2 ^ 64 -> 0 <= rounds s e < Z.of_nat untyped_fuel.
Proof.
  intros Hs He. unfold untyped_fuel. rewrite Z2Nat.id by lia. unfold rounds. assert (0 <= (e - s) / 2 ^ 47 < 2 ^ 17) as Hd by (split; [apply Z.div_pos; lia | apply Z.div_lt_upper_bound; lia]).
  pose proof (Z.log2_nonneg (e - s)). destruct (Z.eqb_spec s e); [lia |]. assert (Z.log2 (e - s) < 64) by (apply Z.log2_lt_pow2; lia).
  assert (0 <= CTZL s < 64) by (apply CTZL_word; [lia | unfold is_word; lia]). destruct (aligned_to s e); lia.
Qed.

(** ** Capabilities for the blocks *)
Section Provide.
Context `{C : KConfig} `{B : KBootConfig}.
Implicit Types b : boot_t.

(** The slots of the root CNode are there. *)
Record root_ok (root : cap) b : Prop := {
  ro_range : 0 < cap_get_capPtr root /\ 0 <= slot_pos_max b /\ cap_get_capPtr root + slot_pos_max b * 32 <= 2 ^ 64;
  ro_slots : forall i, 0 <= i < slot_pos_max b -> is_Some (k_cte (b_k b) !! (cap_get_capPtr root + i * 32)) }.
Definition root_slot (root : cap) (i : Z) : Z := cap_get_capPtr root + i * 32.
Definition put_slot (root : cap) (i : Z) (c : cap) b : boot_t :=
  upd_b_k (upd_k_cte (insert (root_slot root i) (mkCte c (mkMdb 0 true true 0)))) b.

Lemma write_slot_run root i c b : root_ok root b -> 0 <= i < slot_pos_max b -> write_slot (SLOT_PTR (cap_get_capPtr root) i) c b = inl (tt, put_slot root i c b).
Proof.
  intros [Hr Hs] Hi. destruct (Hs i Hi) as [e He]. unfold SLOT_PTR, w64. change cte_size with 32. rewrite Z.mod_small by lia. fold (root_slot root i) in *.
  unfold write_slot, kern, set_cap, set_mdb, cte_upd, cte_get, bind, gets, of_option, modify. destruct (Z.eqb_spec (root_slot root i) 0) as [E0|_]; [unfold root_slot in E0; lia |].
  rewrite He. cbn [ret]. unfold upd_k_cte at 1. cbn [k_cte]. rewrite lookup_insert_eq. unfold put_slot, upd_b_k, upd_k_cte. cbn. by rewrite insert_insert_eq.
Qed.

(** The state after capabilities for [bl] have been put in the slots from [cur] on. *)
Definition ut_cap (dev : bool) (bl : Z * Z) : cap := cap_untyped_cap (MAX_FREE_INDEX (snd bl)) dev (snd bl) (fst bl).
Definition ut_desc (dev : bool) (bl : Z * Z) : seL4_UntypedDesc := mkUd (pptr_to_paddr (fst bl)) (snd bl) dev.
Fixpoint give (root : cap) (dev : bool) (first : Z) (bl : list (Z * Z)) b : boot_t :=
  match bl with
  | [] => b
  | x :: bl => give root dev first bl (set_slot_pos_cur (slot_pos_cur b + 1) (put_slot root (slot_pos_cur b) (ut_cap dev x)
      (upd_bi (set_untyped_desc (slot_pos_cur b - first) (ut_desc dev x)) b)))
  end.
Lemma root_ok_put root i c b : root_ok root b -> root_ok root (put_slot root i c b).
Proof. intros [H1 H2]. split; [done |]. intros j Hj. cbn. apply lookup_insert_is_Some'. right. by apply H2. Qed.
Lemma provide_untyped_run root dev first a n b : root_ok root b -> 0 <= first <= slot_pos_cur b -> slot_pos_cur b < slot_pos_max b ->
  slot_pos_cur b - first < CONFIG_MAX_NUM_BOOTINFO_UNTYPED_CAPS -> provide_untyped_cap root dev a n first b = inl (true, give root dev first [(a, n)] b).
Proof.
  intros Hr Hf Hc Hm. assert (slot_pos_max b < 2 ^ 64) as Hmx by (destruct Hr as [? _]; lia). unfold provide_untyped_cap, bind, gets. cbv beta iota.
  assert (w64 (slot_pos_cur b - first) = slot_pos_cur b - first) as -> by (unfold w64; apply Z.mod_small; lia). destruct (Z.ltb_spec (slot_pos_cur b - first) CONFIG_MAX_NUM_BOOTINFO_UNTYPED_CAPS); [|lia].
  unfold modify, provide_cap, bind, gets. cbv beta iota. unfold id. cbn [slot_pos_cur slot_pos_max upd_bi]. rewrite Z.geb_leb. destruct (Z.leb_spec (slot_pos_max b) (slot_pos_cur b)); [lia |].
  rewrite write_slot_run; [|by destruct Hr | cbn; lia]. cbn [give]. unfold ret. unfold w64. rewrite Z.mod_small by lia. done.
Qed.

(** Only blocks of at least [seL4_MinUntypedBits] get a capability. *)
Definition useful (bl : list (Z * Z)) : list (Z * Z) := List.filter (fun x => snd x >=? seL4_MinUntypedBits) bl.

(** A block with a capability has at least 16 bytes. *)
Lemma tiles_useful s e bl : tiles s e bl -> 16 * Z.of_nat (length (useful bl)) <= e - s.
Proof.
  revert s. induction bl as [|[a n] bl IH]; intros s Ht; cbn in Ht; [cbn; lia |]. destruct Ht as (-> & _ & Hn & _ & Ht). specialize (IH _ Ht). unfold useful in *. cbn [List.filter snd].
  change seL4_MinUntypedBits with 4 in *. assert (0 < 2 ^ n) by lia. destruct (Z.geb_spec n 4) as [H4|_]; cbv iota; [|lia]. assert (2 ^ 4 <= 2 ^ n) by (apply Z.pow_le_mono_r; lia). cbn [length]. lia.
Qed.

Lemma untypeds_loop_run root dev e first fuel s b : 0 < s <= e -> e < 2 ^ 64 -> rounds s e < Z.of_nat fuel -> root_ok root b -> 0 <= first <= slot_pos_cur b ->
  let bl := blocks fuel s e in slot_pos_cur b + Z.of_nat (length (useful bl)) <= slot_pos_max b ->
  slot_pos_cur b - first + Z.of_nat (length (useful bl)) <= CONFIG_MAX_NUM_BOOTINFO_UNTYPED_CAPS ->
  untypeds_loop fuel root dev (mkReg s e) first b = inl (true, give root dev first (useful bl) b).
Proof.
  revert s b. induction fuel as [|fuel IH]; intros s b Hs He Hr Hroot Hf bl Hc Hm. { unfold rounds in Hr. assert (0 <= (e - s) / 2 ^ 47) by (apply Z.div_pos; lia). pose proof (Z.log2_nonneg (e - s)).
    destruct (Z.eqb_spec s e); [lia |]. pose proof (CTZL_word s ltac:(lia) ltac:(unfold is_word; lia)). destruct (aligned_to s e); lia. }
  unfold bl in *. clear bl. cbn [untypeds_loop blocks] in *. unfold is_reg_empty. cbn [start end_]. destruct (Z.eqb_spec s e) as [|Hne]; [done |].
  destruct (block_bits_spec s e) as (Hn & Hd & Hle & Hcase); [lia | lia |]. set (n := block_bits (mkReg s e)) in *. assert (0 < 2 ^ n) by lia.
  assert (rounds (s + 2 ^ n) e < rounds s e) by (destruct Hcase as [En | (En & Hlt & Hd' & Hnd)]; [apply rounds_top; (done || lia) | apply rounds_grow; (done || lia)]).
  assert (w64 (s + BIT n) = s + 2 ^ n) as -> by (unfold BIT; rewrite Z.shiftl_mul_pow2, Z.mul_1_l by lia; unfold w64; apply Z.mod_small; lia).
  unfold useful in *. cbn [List.filter snd] in *. unfold bind. destruct (n >=? seL4_MinUntypedBits) eqn:En.
  - cbn [length] in *. rewrite provide_untyped_run by (done || lia). cbn [negb]. rewrite IH; try lia; try done; cbn [give slot_pos_cur slot_pos_max set_slot_pos_cur put_slot upd_b_k upd_bi]; try lia.
    destruct (root_ok_put root (slot_pos_cur b) (ut_cap dev (s, n)) b Hroot). by split.
  - unfold ret. cbn [negb]. apply IH; (done || lia).
Qed.

(** What [give] leaves in the slots. *)
Lemma give_slots root dev first bl b : root_ok root b -> 0 <= slot_pos_cur b -> slot_pos_cur b + Z.of_nat (length bl) <= slot_pos_max b ->
  let b' := give root dev first bl b in slot_pos_cur b' = slot_pos_cur b + Z.of_nat (length bl) /\ freemem b' = freemem b /\
  (forall i x, bl !! i = Some x -> k_cte (b_k b') !! root_slot root (slot_pos_cur b + Z.of_nat i) = Some (mkCte (ut_cap dev x) (mkMdb 0 true true 0)) /\
     bi_untypedList (b_bi b') !! (slot_pos_cur b - first + Z.of_nat i) = Some (ut_desc dev x)) /\
  (forall p, (forall i, 0 <= i < Z.of_nat (length bl) -> p <> root_slot root (slot_pos_cur b + i)) -> k_cte (b_k b') !! p = k_cte (b_k b) !! p) /\
  (forall j, j < slot_pos_cur b - first -> bi_untypedList (b_bi b') !! j = bi_untypedList (b_bi b) !! j).
Proof.
  revert b. induction bl as [|x bl IH]; intros b Hr H0 Hc b'; [cbn; split_and!; (lia || done) |]. unfold b'. cbn [give length] in *.
  set (b1 := set_slot_pos_cur _ _). assert (root_ok root b1) as Hr1 by (destruct (root_ok_put root (slot_pos_cur b) (ut_cap dev x) b Hr); by split).
  assert (slot_pos_cur b1 = slot_pos_cur b + 1) as E1 by done. destruct (IH b1 Hr1) as (G1 & G2 & G3 & G4 & G5); [lia | cbn; lia |].
  split; [lia |]. split; [done |]. split; [|split].
  - intros [|i] y Hy; cbn in Hy.
    + injection Hy as ->. rewrite Z.add_0_r. rewrite G4 by (intros i Hi; unfold root_slot; lia). rewrite G5 by lia. cbn. rewrite !lookup_insert_eq, Z.add_0_r, lookup_insert_eq. done.
    + destruct (G3 i y Hy) as [G3a G3b]. rewrite E1 in G3a, G3b. replace (slot_pos_cur b + Z.of_nat (S i)) with (slot_pos_cur b + 1 + Z.of_nat i) by lia.
      replace (slot_pos_cur b - first + Z.of_nat (S i)) with (slot_pos_cur b + 1 - first + Z.of_nat i) by lia. done.
  - intros p Hp. rewrite G4; [|intros i Hi; rewrite E1, <- Z.add_assoc; apply Hp; lia]. cbn. apply lookup_insert_ne. intros <-. apply (Hp 0); [lia | f_equal; lia].
  - intros j Hj. rewrite G5 by lia. cbn. apply lookup_insert_ne. lia.
Qed.
End Provide.

