(* ===== verification/KBootFree.v ===== *)
(** * Free memory at boot: theorems

    [init_freemem] takes the reserved regions out of the available ones, as long
    as none of them meets two available regions; a reserved region that does is
    given away as free memory. *)

From S2P Require Import Prelude KCaps KState KSched KCspace KMdb KMsg KVspace KDelete KUntyped KBootMem KBootThms.

(** ** The loop *)
(** Regions in ascending order, from [c] on; empty ones do not count. *)
Fixpoint ascending (c : Z) (l : list region_t) : Prop :=
  match l with
  | [] => True
  | r :: l => if start r <? end_ r then c <= start r /\ ascending (end_ r) l else ascending c l
  end.
Lemma ascending_le c c' l : c' <= c -> ascending c l -> ascending c' l.
Proof. revert c. induction l as [|r l IH]; intros c Hc; cbn; [done |]. destruct (start r <? end_ r); [intros [H1 H2]; split; [lia | done] | by apply IH]. Qed.
Lemma ascending_free c l x : ascending c l -> is_free l x -> c <= x.
Proof.
  intros Ha (r & Hr & Hx). revert c Ha. induction l as [|r' l IH]; intros c Ha; [set_solver |]. cbn in Ha. unfold inside in Hx.
  apply elem_of_cons in Hr as [<- | Hr].
  - destruct (Z.ltb_spec (start r) (end_ r)); lia.
  - destruct (Z.ltb_spec (start r') (end_ r')); [|by apply IH]. destruct Ha as [H1 H2]. specialize (IH Hr _ H2). lia.
Qed.

(** No reserved region reaches from one available region, or its end, into a later one. *)
Definition one_each (avail reserved : list region_t) : Prop :=
  forall r i j a a', r ∈ reserved -> avail !! i = Some a -> avail !! j = Some a' -> (i < j)%nat -> start r <= end_ a -> start a < end_ r -> apart r a'.

Definition avail_in (l : list region_t) : Prop := Forall (fun r => 0 < start r /\ end_ r < 2 ^ 64) l.
(** The state of the loop: [free] so far is below [c]; [A] and [R] are all regions. *)
Record carving (A R avail reserved : list region_t) (c : Z) (b : boot_t) : Prop := {
  cv_free : freemem_ok (freemem b);
  cv_below : forall x, is_free (freemem b) x -> x < c /\ is_free A x /\ ~ is_free R x;
  cv_avail : ascending c avail /\ avail_in avail;
  cv_res : exists d, ascending d reserved;
  cv_sub : forall x, is_free avail x -> is_free A x;
  cv_done : forall x, is_free avail x -> is_free R x -> is_free reserved x;
  cv_resR : forall x, is_free reserved x -> is_free R x;
  cv_one : one_each avail reserved;
  cv_rest : (0 < empties (freemem b))%nat -> forall x, is_free A x -> ~ is_free R x -> is_free (freemem b) x \/ is_free avail x }.

Lemma is_free_cons r l x : is_free (r :: l) x <-> inside r x \/ is_free l x.
Proof.
  split.
  - intros (r' & [-> | Hr]%elem_of_cons & Hx); [by left | right; by exists r'].
  - intros [Hx | (r' & Hr & Hx)]; [exists r | exists r']; (split; [set_solver | done]).
Qed.
Lemma is_free_nil x : is_free [] x <-> False.
Proof. split; [intros (r & Hr & _); set_solver | done]. Qed.

(** A part of the first available region is inserted. *)
Lemma carving_insert A R a avail reserved c b e : carving A R (a :: avail) reserved c b -> c <= start a -> start a <= e -> e <= end_ a -> (forall x, start a <= x < e -> ~ is_free reserved x) ->
  exists ok l', insert_region (mkReg (start a) e) b = inl (ok, set_freemem l' b) /\ freemem_ok l' /\ (empties l' <= empties (freemem b))%nat /\
    (forall x, is_free l' x -> x < Z.max c e /\ is_free A x /\ ~ is_free R x) /\
    ((0 < empties l')%nat -> forall x, is_free A x -> ~ is_free R x -> is_free l' x \/ (is_free (a :: avail) x /\ ~ start a <= x < e)).
Proof.
  intros [C1 C2 [C3 C3'] [d C4] C5 C6 C6' C7 C8] H0 H1 H2 Hres. unfold avail_in in C3'. apply list.Forall_cons in C3' as [C3b C3c].
  assert (region_ok (mkReg (start a) e)) as Hok by (unfold region_ok; cbn; lia).
  assert (forall r, r ∈ freemem b -> apart (mkReg (start a) e) r) as Hap.
  { intros r Hr x Hx Hx'. destruct (C2 x) as [Hlt _]; [by exists r |]. unfold inside in Hx. cbn in Hx. lia. }
  assert (forall x, start a <= x < e -> is_free A x /\ ~ is_free R x) as Hnew.
  { intros x Hx. assert (is_free (a :: avail) x) as Ha by (apply is_free_cons; left; unfold inside; lia). split; [by apply C5 |]. intros HR. by apply (Hres x Hx), C6. }
  destruct (insert_region_spec b (mkReg (start a) e) C1 Hok Hap) as (ok & l' & E & Hl' & Hyes & Hno & Hc). exists ok, l'. split; [done |]. split; [done |].
  assert (forall x, inside (mkReg (start a) e) x <-> start a <= x < e) as Hin by done.
  split; [lia |]. split.
  - intros x Hx. destruct ok; [|destruct (Hno eq_refl) as [_ ->]; destruct (C2 x Hx); split; [lia | tauto]].
    apply (Hyes eq_refl) in Hx as [Hx | Hx]; [unfold inside in Hx; cbn in Hx; split; [lia | by apply Hnew] | destruct (C2 x Hx); split; [lia | tauto]].
  - intros Hem x HA HR. destruct ok; [|destruct (Hno eq_refl) as [Hz ->]; lia]. rewrite (Hyes eq_refl x), Hin. destruct (decide (start a <= x < e)); [by left; left |].
    destruct (C8 ltac:(lia) x HA HR); [by left; right | by right].
Qed.

Lemma one_each_tail a avail reserved : one_each (a :: avail) reserved -> one_each avail reserved.
Proof. intros H r i j x y Hr Hi Hj Hlt H1 H2. eapply (H r (S i) (S j)); (done || lia). Qed.
Lemma one_each_res avail r reserved : one_each avail (r :: reserved) -> one_each avail reserved.
Proof. intros H r' i j x y Hr. apply H. set_solver. Qed.
Lemma one_each_trim a s avail reserved : start a <= s -> one_each (a :: avail) reserved -> one_each (mkReg s (end_ a) :: avail) reserved.
Proof.
  intros Hs H r [|i] [|j] x y Hr Hi Hj Hlt H1 H2; try lia.
  - injection Hi as <-. cbn in *. eapply (H r 0%nat (S j)); [done | done | done | lia | done | lia].
  - by eapply (H r (S i) (S j)).
Qed.

(** One reserved region is done, the first available region cut to start at [s]. *)
Lemma carving_cut A R a avail r reserved c b s : carving A R (a :: avail) (r :: reserved) c b -> start a <= s -> c <= s ->
  ((0 < empties (freemem b))%nat -> forall x, inside a x -> x < s -> is_free (freemem b) x \/ inside r x) ->
  (forall x, inside a x -> s <= x -> ~ inside r x) -> (forall x, is_free avail x -> ~ inside r x) ->
  carving A R (mkReg s (end_ a) :: avail) reserved c b.
Proof.
  intros [C1 C2 [C3 C3'] [d C4] C5 C6 C6' C7 C8] Has Hcs Hlow Hcut Hrest. cbn [ascending] in C3, C4. apply list.Forall_cons in C3' as [C3b C3c].
  assert (forall x, is_free (mkReg s (end_ a) :: avail) x -> is_free (a :: avail) x /\ ~ inside r x) as Hsub.
  { intros x [Hx | Hx]%is_free_cons; rewrite is_free_cons; [unfold inside in Hx; cbn in Hx |]; [split; [left; unfold inside; lia |]; apply Hcut; unfold inside; lia | auto]. }
  split; try done.
  - split; [|apply list.Forall_cons; split; [cbn; lia | done]]. cbn [ascending start end_].
    destruct (Z.ltb_spec (start a) (end_ a)), (Z.ltb_spec s (end_ a)); try lia; [split; [lia | apply C3] | apply (ascending_le (end_ a)); [lia | apply C3] | done].
  - destruct (Z.ltb_spec (start r) (end_ r)); [exists (end_ r); apply C4 | by exists d].
  - intros x Hx. by apply C5, Hsub.
  - intros x Hx HR. destruct (Hsub x Hx) as [Hx' Hnr]. by destruct (proj1 (is_free_cons r reserved x) (C6 x Hx' HR)).
  - intros x Hx. apply C6', is_free_cons. by right.
  - apply one_each_trim; [done |]. by eapply one_each_res.
  - intros Hem x HA HR. destruct (C8 Hem x HA HR) as [? | [Hx | Hx]%is_free_cons]; [by left | | by right; apply is_free_cons; right].
    destruct (decide (x < s)) as [Hxs|]; [|right; apply is_free_cons; left; unfold inside in *; cbn; lia].
    destruct (Hlow Hem x Hx Hxs) as [? | Hr]; [by left |]. exfalso. apply HR, C6', is_free_cons. by left.
Qed.

(** The first available region is done. *)
Lemma carving_next A R a avail reserved c c' b b' : carving A R (a :: avail) reserved c b -> freemem_ok (freemem b') -> ascending c' avail ->
  (forall x, is_free (freemem b') x -> x < c' /\ is_free A x /\ ~ is_free R x) ->
  ((0 < empties (freemem b'))%nat -> forall x, is_free A x -> ~ is_free R x -> is_free (freemem b') x \/ is_free avail x) -> carving A R avail reserved c' b'.
Proof.
  intros [C1 C2 [C3 C3'] [d C4] C5 C6 C6' C7 C8] Hok Hasc Hfree Hrest. apply list.Forall_cons in C3' as [_ C3c].
  split; try done; [by exists d | intros x Hx; apply C5, is_free_cons; by right | intros x Hx; apply C6, is_free_cons; by right | by eapply one_each_tail].
Qed.
Lemma max_right c e : c <= e -> Z.max c e = e.
Proof. lia. Qed.

Lemma insert_rest_spec A R avail c b : carving A R avail [] c b ->
  exists l', insert_rest avail b = inl (tt, set_freemem l' b) /\ freemem_ok l' /\ (forall x, is_free l' x -> is_free A x /\ ~ is_free R x) /\
    ((0 < empties l')%nat -> forall x, is_free A x -> ~ is_free R x -> is_free l' x).
Proof.
  revert c b. induction avail as [|a avail IH]; intros c b HC; cbn [insert_rest].
  { exists (freemem b). split; [by destruct b |]. split; [apply HC |]. split; [intros x Hx; by apply (cv_below _ _ _ _ _ _ HC) |].
    intros He x HA HR. by destruct (cv_rest _ _ _ _ _ _ HC He x HA HR) as [? | ?%is_free_nil]. }
  pose proof (cv_avail _ _ _ _ _ _ HC) as [Hasc Hin]. cbn [ascending] in Hasc. unfold bind at 1. destruct (Z.ltb_spec (start a) (end_ a)) as [Hlt|Hge].
  - destruct Hasc as [Hc Hasc]. destruct (carving_insert A R a avail [] c b (end_ a) HC) as (ok & l1 & E & Hok & _ & Hf & Hr); [lia | lia | lia | intros x _ Hx; by apply is_free_nil in Hx |].
    destruct a as [sa ea]. cbn [start end_] in *. unfold bind. rewrite E. cbn [ret].
    destruct (IH ea (set_freemem l1 b)) as (l' & E' & H'); [|by exists l'].
    eapply carving_next; [exact HC | done | done | rewrite max_right in Hf by lia; done |]. intros He x HA HR. destruct (Hr He x HA HR) as [? | [[Hx | ?]%is_free_cons Hn]]; [by left | | by right].
    unfold inside in Hx. cbn in Hx. done.
  - cbn [ret]. apply (IH c). eapply carving_next; [exact HC | apply HC | done | apply HC |]. intros He x HA HR.
    destruct (cv_rest _ _ _ _ _ _ HC He x HA HR) as [? | [Hx | ?]%is_free_cons]; [by left | unfold inside in Hx; lia | by right].
Qed.

(** The first available region up to [s] has been inserted. *)
Lemma carving_shift A R a avail reserved c b b' s : carving A R (a :: avail) reserved c b -> start a <= s <= end_ a -> freemem_ok (freemem b') -> start a < end_ a ->
  (forall x, is_free (freemem b') x -> x < s /\ is_free A x /\ ~ is_free R x) ->
  ((0 < empties (freemem b'))%nat -> forall x, is_free A x -> ~ is_free R x -> is_free (freemem b') x \/ (is_free (a :: avail) x /\ ~ start a <= x < s)) ->
  carving A R (mkReg s (end_ a) :: avail) reserved s b'.
Proof.
  intros [C1 C2 [C3 C3'] [d C4] C5 C6 C6' C7 C8] Hs Hok Hne Hfree Hrest. apply list.Forall_cons in C3' as [C3b C3c].
  assert (forall x, is_free (mkReg s (end_ a) :: avail) x -> is_free (a :: avail) x) as Hsub.
  { intros x. rewrite !is_free_cons. unfold inside. cbn. intros [Hx | Hx]; [left; lia | by right]. }
  split; try done.
  - split; [|apply list.Forall_cons; split; [cbn; lia | done]]. cbn [ascending start end_] in *. destruct (Z.ltb_spec (start a) (end_ a)); [|lia]. destruct C3 as [C3 C3a].
    destruct (Z.ltb_spec s (end_ a)); [split; [lia | done] | apply (ascending_le (end_ a)); [lia | done]].
  - by exists d.
  - intros x Hx. by apply C5, Hsub.
  - intros x Hx. by apply C6, Hsub.
  - apply one_each_trim; [lia | done].
  - intros He x HA HR. destruct (Hrest He x HA HR) as [? | [[Hx | Hx]%is_free_cons Hn]]; [by left | right; apply is_free_cons; left; unfold inside in *; cbn; lia | right; apply is_free_cons; by right].
Qed.

(** A reserved region without available memory is done. *)
Lemma carving_skip A R avail r reserved c b : carving A R avail (r :: reserved) c b -> (forall x, is_free avail x -> ~ inside r x) -> carving A R avail reserved c b.
Proof.
  intros [C1 C2 C3 [d C4] C5 C6 C6' C7 C8] Hr. split; try done.
  - cbn [ascending] in C4. destruct (start r <? end_ r); [exists (end_ r); apply C4 | by exists d].
  - intros x Hx HR. destruct (proj1 (is_free_cons r reserved x) (C6 x Hx HR)) as [Hin|]; [by destruct (Hr x Hx) | done].
  - intros x Hx. apply C6', is_free_cons. by right.
  - by eapply one_each_res.
Qed.
Lemma carving_end A R reserved c b : carving A R [] reserved c b -> carving A R [] [] c b.
Proof.
  intros [C1 C2 C3 C4 C5 C6 C6' C7 C8]. split; try done; [by exists 0 |]. intros x Hx. by apply is_free_nil in Hx.
Qed.

(** Reserved regions after [r] are above it. *)
Lemma reserved_above d r reserved x : ascending d (r :: reserved) -> start r < end_ r -> is_free reserved x -> end_ r <= x.
Proof. cbn [ascending]. intros Ha Hr Hx. destruct (Z.ltb_spec (start r) (end_ r)); [|lia]. by apply (ascending_free (end_ r) reserved x (proj2 Ha)). Qed.

Lemma carve_spec A R fuel avail reserved c b : (length avail + length reserved < fuel)%nat -> Forall (fun r => start r <= end_ r) reserved -> carving A R avail reserved c b ->
  exists l', carve fuel avail reserved b = inl (tt, set_freemem l' b) /\ freemem_ok l' /\ (forall x, is_free l' x -> is_free A x /\ ~ is_free R x) /\
    ((0 < empties l')%nat -> forall x, is_free A x -> ~ is_free R x -> is_free l' x).
Proof.
  revert avail reserved c b. induction fuel as [|fuel IH]; intros avail reserved c b Hf Hle HC; [lia |]. cbn [carve].
  destruct avail as [|a avail]; [by apply (insert_rest_spec A R [] c), (carving_end _ _ reserved) |].
  destruct reserved as [|r reserved]; [by eapply insert_rest_spec |]. cbn [length] in Hf. apply list.Forall_cons in Hle as [Hr Hle].
  pose proof HC as [C1 C2 [C3 C3'] [d C4] C5 C6 C6' C7 C8].
  destruct (Z.eqb_spec (start r) (end_ r)) as [Er|Er].
  { apply (IH _ _ c); [cbn; lia | done |]. eapply carving_skip; [exact HC |]. intros x _ Hx. unfold inside in Hx. lia. }
  rewrite Z.geb_leb, Z.gtb_ltb. cbn [ascending] in C3. destruct (Z.leb_spec (end_ a) (start a)) as [Ha|Ha].
  { destruct (Z.ltb_spec (start a) (end_ a)); [lia |]. apply (IH _ _ c); [cbn; lia | by apply list.Forall_cons |]. eapply carving_next; [exact HC | done | done | done |]. intros He x HA HR.
    destruct (C8 He x HA HR) as [? | [Hx | ?]%is_free_cons]; [by left | unfold inside in Hx; lia | by right]. }
  destruct (Z.ltb_spec (start a) (end_ a)); [|lia]. destruct C3 as [C3 C3a]. assert (forall x, is_free avail x -> end_ a <= x) as Hav by (intros x; by apply ascending_free).
  destruct (Z.leb_spec (end_ r) (start a)) as [Hra|Hra].
  { apply (IH _ _ c); [cbn; lia | done |]. eapply carving_skip; [exact HC |]. intros x [Hx | Hx]%is_free_cons Hx'; unfold inside in *; [lia |]. specialize (Hav x Hx). lia. }
  assert (forall x, is_free reserved x -> end_ r <= x) as Hres by (intros x; apply (reserved_above d); [done | lia]).
  destruct (Z.ltb_spec (end_ a) (start r)) as [Hr3|Hr3].
  { destruct (carving_insert A R a avail (r :: reserved) c b (end_ a) HC) as (ok & l1 & E & Hok & _ & Hfr & Hrest); [lia | lia | lia | |].
    { intros x Hx [Hx' | Hx']%is_free_cons; [unfold inside in Hx'; lia | specialize (Hres x Hx'); lia]. }
    destruct a as [sa ea]. cbn [start end_] in *. unfold bind. rewrite E.
    destruct (IH avail (r :: reserved) ea (set_freemem l1 b)) as (l' & E' & H'); [cbn; lia | by apply list.Forall_cons | | by exists l'].
    eapply carving_next; [exact HC | done | done | rewrite max_right in Hfr by lia; done |]. intros He x HA HR.
    destruct (Hrest He x HA HR) as [? | [[Hx | ?]%is_free_cons Hn]]; [by left | unfold inside in Hx; cbn in Hx; done | by right]. }
  assert (forall x, is_free avail x -> ~ inside r x) as Hlater.
  { intros x (a' & Ha' & Hx) Hxr. apply list_elem_of_lookup_1 in Ha' as [j Hj]. by apply (C7 r 0%nat (S j) a a' ltac:(set_solver) eq_refl Hj ltac:(lia) ltac:(lia) ltac:(lia) x). }
  destruct (Z.leb_spec (start r) (start a)) as [Hr4|Hr4].
  { apply (IH _ _ c); [cbn; lia | done |]. eapply carving_cut; [exact HC | lia | lia | | |exact Hlater]; intros; unfold inside in *; [right; lia | lia]. }
  destruct (carving_insert A R a avail (r :: reserved) c b (start r) HC) as (ok & l1 & E & Hok & Hem & Hfr & Hrest); [lia | lia | lia | |].
  { intros x Hx [Hx' | Hx']%is_free_cons; [unfold inside in Hx'; lia | specialize (Hres x Hx'); lia]. }
  unfold bind. rewrite E. destruct (IH (mkReg (end_ r) (end_ a) :: avail) reserved (start r) (set_freemem l1 b)) as (l' & E' & H'); [cbn; lia | done | | by exists l'].
  apply (carving_cut A R (mkReg (start r) (end_ a)) avail r reserved); cbn [start end_]; [| lia | lia | | |exact Hlater]; [|intros _ x Hx ?; right; unfold inside in *; cbn in *; lia | intros x Hx ? ?; unfold inside in *; cbn in *; lia].
  rewrite max_right in Hfr by lia. eapply carving_shift; (done || lia).
Qed.

(** ** Starting the loop *)
Section Init.
Context `{C : KConfig} `{B : KBootConfig}.

Definition in_window (r : region_t) : Prop := 0 <= start r <= end_ r /\ end_ r <= PADDR_TOP.

Lemma window_addr p : 0 <= physBase < 2 ^ 39 -> 0 <= p <= PADDR_TOP -> ceiling_kernel_window (w64 (p + BASE_OFFSET)) = p + BASE_OFFSET /\ 0 < p + BASE_OFFSET < 2 ^ 64.
Proof.
  intros Hb Hp. unfold PADDR_TOP, w64 in Hp. assert (BASE_OFFSET = kernelBase - physBase) as EB by done. unfold kernelBase, PPTR_TOP in *. rewrite Z.mod_small in Hp by lia.
  assert (w64 (p + BASE_OFFSET) = p + BASE_OFFSET) as -> by (unfold w64; apply Z.mod_small; lia). split; [|lia].
  unfold ceiling_kernel_window, pptr_to_paddr, PADDR_TOP, PPTR_TOP, w64. rewrite !Z.mod_small by lia. rewrite Z.gtb_ltb. destruct (Z.ltb_spec (0xffffffffc0000000 - BASE_OFFSET) (p + BASE_OFFSET - BASE_OFFSET)); lia.
Qed.
Lemma window_reg_eq r : 0 <= physBase < 2 ^ 39 -> in_window r -> window_reg r = mkReg (start r + BASE_OFFSET) (end_ r + BASE_OFFSET) /\ 0 < start r + BASE_OFFSET /\ end_ r + BASE_OFFSET < 2 ^ 64.
Proof.
  intros Hb (H1 & H2). destruct (window_addr (start r) Hb ltac:(lia)) as [E1 H3], (window_addr (end_ r) Hb ltac:(lia)) as [E2 H4].
  unfold window_reg, paddr_to_pptr_reg. cbn [start end_]. rewrite E1, E2. split; [done | lia].
Qed.

Lemma ordered_ascending strict r l : ordered strict (r :: l) = true -> Forall (fun r => start r <= end_ r) (r :: l) -> ascending (start r) (r :: l).
Proof.
  revert r. induction l as [|r' l IH]; intros r Ho Hl; apply list.Forall_cons in Hl as [Hr Hl]; [cbn; by destruct (_ <? _) |].
  cbn [ordered] in Ho. apply andb_true_iff in Ho as [Ho Ho']. apply andb_true_iff in Ho as [_ Hle%Z.leb_le]. specialize (IH r' Ho' Hl). change (ascending (start r) (r :: r' :: l)) with
    (if start r <? end_ r then start r <= start r /\ ascending (end_ r) (r' :: l) else ascending (start r) (r' :: l)).
  destruct (start r <? end_ r); [split; [lia |] |]; (eapply ascending_le; [|exact IH]; lia).
Qed.
Lemma ascending_shift c d l : ascending c l -> ascending (c + d) (map (fun r => mkReg (start r + d) (end_ r + d)) l).
Proof.
  revert c. induction l as [|r l IH]; intros c; cbn; [done |]. destruct (Z.ltb_spec (start r) (end_ r)), (Z.ltb_spec (start r + d) (end_ r + d)); try lia; [|by apply IH].
  intros [H1 H2]. split; [lia | by apply IH].
Qed.
Lemma freemem_empty n : freemem_ok (replicate n REG_EMPTY) /\ forall x, ~ is_free (replicate n REG_EMPTY) x.
Proof.
  assert (forall r x, r ∈ replicate n REG_EMPTY -> inside r x -> False) as H by (intros r x [-> _]%elem_of_replicate; unfold inside; cbn; lia). split.
  - split; [apply list.Forall_forall; intros r [-> _]%elem_of_replicate; unfold region_ok; cbn; lia |]. intros i j r r' Hi _ _ x Hx _. eapply H; [by eapply list_elem_of_lookup_2 | done].
  - intros x (r & Hr & Hx). by eapply H.
Qed.
End Init.

(** [init_freemem]. *)
Lemma init_freemem_ok `{C : KConfig} `{B : KBootConfig} (available reserved : list region_t) (b : boot_t) : 0 <= physBase < 2 ^ 39 ->
  available <> [] -> Forall in_window available -> ordered true available = true -> Forall (fun r => start r <= end_ r) reserved -> ordered false reserved = true ->
  one_each (map window_reg available) reserved ->
  exists l', init_freemem available reserved b = inl (tt, set_freemem l' b) /\ freemem_ok l' /\
    (forall x, is_free l' x -> is_free (map window_reg available) x /\ ~ is_free reserved x) /\
    ((0 < empties l')%nat -> forall x, is_free (map window_reg available) x -> ~ is_free reserved x -> is_free l' x).
Proof.
  intros Hb Hne Hwin Hoa Hres Hor Hone. unfold init_freemem, bind. rewrite Hor, Hoa. cbn [assert_].
  destruct available as [|a0 av]; [done |]. destruct (Z.ltb_spec 0 (Z.of_nat (length (a0 :: av)))) as [_|?]; [|cbn in *; lia]. cbn [assert_]. unfold ret, modify. cbv beta iota.
  assert (map window_reg (a0 :: av) = map (fun r => mkReg (start r + BASE_OFFSET) (end_ r + BASE_OFFSET)) (a0 :: av)) as Em.
  { apply map_ext_in. intros r Hr%list_elem_of_In. apply window_reg_eq; [done |]. by eapply list.Forall_forall in Hwin. }
  destruct (freemem_empty MAX_NUM_FREEMEM_REG) as [Hf0 Hn0]. set (A := map window_reg (a0 :: av)) in *. set (b0 := set_freemem (replicate MAX_NUM_FREEMEM_REG REG_EMPTY) b).
  destruct (carve_spec A reserved (S (length (a0 :: av) + length reserved)) A reserved (start a0 + BASE_OFFSET) b0) as (l' & E & H); [unfold A; rewrite length_map; lia | done | | by exists l'].
  split; try done.
  - intros x Hx. by destruct (Hn0 x).
  - split.
    + rewrite Em. apply ascending_shift. eapply ordered_ascending; [exact Hoa |]. eapply list.Forall_impl; [exact Hwin |]. intros r [? _]. lia.
    + apply list.Forall_forall. intros r Hr. unfold A in Hr. apply list_elem_of_fmap in Hr as (r0 & -> & Hr0). assert (in_window r0) as Hw by (by eapply list.Forall_forall in Hwin).
      destruct (window_reg_eq r0 Hb Hw) as (-> & ? & ?). cbn. lia.
  - destruct reserved as [|r0 res]; [by exists 0 |]. exists (start r0). by eapply ordered_ascending.
  - intros _ x HA _. by right.
Qed.


(** ** Examples *)
Definition boot_config : KBootConfig :=
  mkKBootConfig [mkReg 0x1000000 0x2000000; mkReg 0x2000000 0x3000000] [mkReg 0xc0000000 0xc0004000] [(0xc81004c0, 0xffffffffffff0000, true)] 12 166
    0xffffff8000010000 0xffffff8000500000 0xffffff80000ff000 0xffffff8000001000 30 225
    0xffffff8000210000 0xffffff8000211000 0xffffff8000300000 0xffffff8000212000 0xffffff8000220000 0xffffff8000002000 true (fun n => 2 ^ (n mod 32)).
#[local] Existing Instance default_config.
#[local] Existing Instance boot_config.
Definition no_kernel : kstate :=
  mkK ∅ ∅ ∅ ∅ ∅ ∅ ∅ ∅ 0 0 0 0 0 0 0 ∅ ∅ lookup_fault_invalid_root seL4_Fault_NullFault (mkErr 0 0 0 0 0 false seL4_NoError) [] [].
Definition boot_start : boot_t := mkBoot no_kernel [] 0 zero_bi 0 0.
(** The kernel image at the start of the memory, and two megabytes in the middle of it. *)
Definition boot_reserved : list region_t := [mkReg kernelBase 0xffffff8000100000; mkReg 0xffffff8000400000 0xffffff8000600000].

Lemma avail_in_window : Forall in_window avail_p_regs.
Proof. unfold avail_p_regs, boot_config. repeat first [by apply list.Forall_nil | apply list.Forall_cons; split]; (split; [cbn; lia | vm_compute; discriminate]). Qed.
Lemma boot_reserved_le : Forall (fun r => start r <= end_ r) boot_reserved.
Proof. unfold boot_reserved. repeat first [by apply list.Forall_nil | apply list.Forall_cons; split]; cbn; unfold kernelBase; lia. Qed.


(** A reserved region that reaches from one available region into the next is
    taken out of the first one only: the code goes on to the next reserved region,
    and what it covers of the second available region is free.  Regions in order, as
    the assertions of [init_freemem] demand, do not help: here two megabytes of
    reserved memory lie across the border, and the upper one is handed out. *)
Theorem init_freemem_spanning : exists available reserved b', Forall in_window available /\ Forall (fun r => start r <= end_ r) reserved /\
  init_freemem available reserved boot_start = inl (tt, b') /\ exists x, is_free reserved x /\ is_free (freemem b') x.
Proof.
  exists avail_p_regs, [mkReg kernelBase 0xffffff8000100000; mkReg 0xffffff8000f00000 0xffffff8001100000].
  eexists. split; [exact avail_in_window |].
  split; [repeat first [by apply list.Forall_nil | apply list.Forall_cons; split]; cbn; unfold kernelBase; lia |]. split; [vm_compute; reflexivity |]. exists 0xffffff8001050000. split.
  - exists (mkReg 0xffffff8000f00000 0xffffff8001100000). split; [set_solver | unfold inside; cbn; lia].
  - exists (mkReg 0xffffff8001000000 0xffffff8002000000). split; [cbn [freemem]; set_solver | unfold inside; cbn; lia].
Qed.

(** A region of 0x2000 bytes from which blocks are taken, with an entry to spare. *)
Definition small_boot : boot_t := set_freemem [mkReg 0xffffff8000101000 0xffffff8000103000; REG_EMPTY] boot_start.
Lemma small_boot_ok : freemem_ok (freemem small_boot).
Proof.
  split; [repeat first [by apply list.Forall_nil | apply list.Forall_cons; split]; unfold region_ok; cbn; lia |].
  intros [|[|i]] [|[|j]] r r' Hi Hj Hne x Hx Hx'; try done; injection Hi as <-; injection Hj as <-; unfold inside in *; cbn in *; lia.
Qed.
