(* ===== verification/KBootVspace.v ===== *)
(** * Address spaces at boot

    The boot code of kernel/src/arch/arm/64/kernel/vspace.c and [map_kernel_devices] of
    kernel/src/arch/arm/machine/hardware.c: the kernel's own tables, and the tables
    and frames of the initial thread. *)

From S2P Require Import Prelude KCaps KState KSched KCspace KMdb KMsg KVspace KDelete KUntyped KBootMem.

Definition PAGE_BITS : Z := 12.
Definition seL4_LargePageBits : Z := 21.
Definition seL4_HugePageBits : Z := 30.
(** The size of a table, at all four levels. *)
Definition TABLE_BITS : Z := 12.
Definition IT_ASID : Z := 1.

(** Slots of the root CNode (kernel/libsel4/include/sel4/bootinfo_types.h). *)
Definition seL4_CapInitThreadTCB : Z := 1.
Definition seL4_CapInitThreadCNode : Z := 2.
Definition seL4_CapInitThreadVSpace : Z := 3.
Definition seL4_CapIRQControl : Z := 4.
Definition seL4_CapASIDControl : Z := 5.
Definition seL4_CapInitThreadASIDPool : Z := 6.
Definition seL4_CapBootInfoFrame : Z := 9.
Definition seL4_CapInitThreadIPCBuffer : Z := 10.
Definition seL4_CapDomain : Z := 11.
Definition seL4_NumInitialCaps : Z := 12.

(** [block vm_attributes]. *)
Definition vm_attributes_new (armExecuteNever armParityEnabled armPageCacheable : bool) : Z :=
  Z.lor (Z.lor (Z.shiftl (b2w armExecuteNever) 2) (Z.shiftl (b2w armParityEnabled) 1)) (b2w armPageCacheable).

Definition set_bi_userImagePaging (r : seL4_SlotRegion) (bi : seL4_BootInfo) : seL4_BootInfo :=
  mkBi (bi_extraLen bi) (bi_nodeID bi) (bi_numNodes bi) (bi_numIOPTLevels bi) (bi_ipcBuffer bi) (bi_empty bi) (bi_sharedFrames bi)
    (bi_userImageFrames bi) r (bi_ioSpaceCaps bi) (bi_extraBIPages bi) (bi_initThreadCNodeSizeBits bi)
    (bi_initThreadDomain bi) (bi_untyped bi) (bi_untypedList bi).

Section BootVspace.
Context `{C : KConfig} `{B : KBootConfig}.

(** ** The kernel's window *)

(** Frames of the kernel are not executable by users. *)
Definition map_kernel_frame (paddr vaddr : Z) (r : vm_rights) (attributes : Z) : M kstate unit :=
  do* assert_ (vaddr >=? PPTR_TOP) in
  entry_set (entry_at armKSGlobalKernelPT (GET_PT_INDEX vaddr))
    (leaf_new PTE_MASK true paddr 0 1 0 (APFromVMRights r) (if armPageCacheable attributes then NORMAL else DEVICE_nGnRnE) TABLE).

Fixpoint map_devices_loop (l : list (Z * Z * bool)) : M kstate unit :=
  match l with
  | [] => ret tt
  | (paddr, pptr, armExecuteNever) :: l =>
      do* map_kernel_frame paddr pptr VMKernelOnly (vm_attributes_new armExecuteNever false false) in map_devices_loop l
  end.
Definition map_kernel_devices : M kstate unit := map_devices_loop kernel_devices.

(** The page directory of entry [idx] of the kernel's upper directory. *)
Definition kernel_pd (idx : Z) : Z := w64 (armKSGlobalKernelPDs + idx * BIT TABLE_BITS).

(** The loop over the entries of the upper directory, [n] left. *)
Fixpoint kernel_pds_loop (idx : Z) (n : nat) : M kstate unit :=
  match n with
  | O => ret tt
  | S n =>
      do* entry_set (entry_at armKSGlobalKernelPUD idx) (table_new (pptr_to_paddr (kernel_pd idx))) in
      kernel_pds_loop (idx + 1) n
  end.

(** The loop over the large pages from [paddr], [n] left. *)
Fixpoint kernel_pages_loop (vaddr paddr : Z) (n : nat) : M kstate unit :=
  match n with
  | O => ret tt
  | S n =>
      do* entry_set (entry_at (kernel_pd (GET_PUD_INDEX vaddr)) (GET_PD_INDEX vaddr))
            (leaf_new PDE_LARGE_MASK true paddr 0 1 0 0 NORMAL BLOCK) in
      kernel_pages_loop (w64 (vaddr + BIT seL4_LargePageBits)) (w64 (paddr + BIT seL4_LargePageBits)) n
  end.
(** The rounds of [for (paddr = physBase; paddr < PADDR_TOP; ...)]. *)
Definition window_pages : Z := (PADDR_TOP - physBase + BIT seL4_LargePageBits - 1) / BIT seL4_LargePageBits.

Definition map_kernel_window : M kstate unit :=
  do* assert_ (GET_PGD_INDEX kernelBase =? BIT INDEX_BITS - 1) in
  do* assert_ (kernelBase mod BIT seL4_LargePageBits =? 0) in
  do* assert_ (GET_PUD_INDEX PPTR_TOP =? BIT INDEX_BITS - 1) in
  do* assert_ (PPTR_TOP mod BIT seL4_HugePageBits =? 0) in
  do* entry_set (entry_at armKSGlobalKernelPGD (GET_PGD_INDEX kernelBase)) (table_new (pptr_to_paddr armKSGlobalKernelPUD)) in
  do* kernel_pds_loop (GET_PUD_INDEX kernelBase) (Z.to_nat (GET_PUD_INDEX PPTR_TOP - GET_PUD_INDEX kernelBase)) in
  do* kernel_pages_loop kernelBase physBase (Z.to_nat window_pages) in
  do* entry_set (entry_at armKSGlobalKernelPUD (GET_PUD_INDEX PPTR_TOP)) (table_new (pptr_to_paddr (kernel_pd (BIT INDEX_BITS - 1)))) in
  do* entry_set (entry_at (kernel_pd (BIT INDEX_BITS - 1)) (BIT INDEX_BITS - 1)) (table_new (pptr_to_paddr armKSGlobalKernelPT)) in
  map_kernel_devices.

Definition activate_kernel_vspace : M kstate unit :=
  do* event cleanInvalidateL1Caches in
  do* event (setCurrentKernelVSpaceRoot (ttbr_new 0 (pptr_to_paddr armKSGlobalKernelPGD))) in
  do* event (setCurrentUserVSpaceRoot (ttbr_new 0 (pptr_to_paddr armKSGlobalUserPGD))) in
  do* event invalidateLocalTLB in
  event (lockTLBEntry kernelBase).

(** ** The initial thread's tables *)

(** The table the entry at [slot] points to, which is there. *)
Definition next_table (slot : Z) : M kstate Z :=
  let* e := entry_get slot in
  do* assert_ (entry_type e =? TABLE) in
  ret (paddr_to_pptr (table_base e)).

Definition map_it_frame_cap (vspace_cap frame_cap : cap) (executable : bool) : M kstate unit :=
  match frame_cap with
  | cap_frame_cap asid pptr _ vptr _ _ =>
      do* assert_ (negb (asid =? 0)) in
      let* pud := next_table (entry_at (cap_get_capPtr vspace_cap) (GET_PGD_INDEX vptr)) in
      let* pd := next_table (entry_at pud (GET_PUD_INDEX vptr)) in
      let* pt := next_table (entry_at pd (GET_PD_INDEX vptr)) in
      entry_set (entry_at pt (GET_PT_INDEX vptr))
        (leaf_new PTE_MASK (negb executable) (pptr_to_paddr pptr) 1 1 0 (APFromVMRights VMReadWrite) NORMAL TABLE)
  | _ => fail AssertFail
  end.
Definition create_it_frame_cap (pptr vptr asid : Z) (use_large : bool) : cap :=
  cap_frame_cap asid pptr (if use_large then ARMLargePage else ARMSmallPage) vptr VMReadWrite false.

Definition map_it_pt_cap (vspace_cap pt_cap : cap) : M kstate unit :=
  match pt_cap with
  | cap_page_table_cap _ pt isMapped vptr =>
      do* assert_ isMapped in
      let* pud := next_table (entry_at (cap_get_capPtr vspace_cap) (GET_PGD_INDEX vptr)) in
      let* pd := next_table (entry_at pud (GET_PUD_INDEX vptr)) in
      entry_set (entry_at pd (GET_PD_INDEX vptr)) (table_new (pptr_to_paddr pt))
  | _ => fail AssertFail
  end.
Definition create_it_pt_cap (vspace_cap : cap) (pptr vptr asid : Z) : M kstate cap :=
  let c := cap_page_table_cap asid pptr true vptr in do* map_it_pt_cap vspace_cap c in ret c.

Definition map_it_pd_cap (vspace_cap pd_cap : cap) : M kstate unit :=
  match pd_cap with
  | cap_page_directory_cap _ pd isMapped vptr =>
      do* assert_ isMapped in
      let* pud := next_table (entry_at (cap_get_capPtr vspace_cap) (GET_PGD_INDEX vptr)) in
      entry_set (entry_at pud (GET_PUD_INDEX vptr)) (table_new (pptr_to_paddr pd))
  | _ => fail AssertFail
  end.
Definition create_it_pd_cap (vspace_cap : cap) (pptr vptr asid : Z) : M kstate cap :=
  let c := cap_page_directory_cap asid pptr true vptr in do* map_it_pd_cap vspace_cap c in ret c.

Definition map_it_pud_cap (vspace_cap pud_cap : cap) : M kstate unit :=
  match pud_cap with
  | cap_page_upper_directory_cap _ pud isMapped vptr =>
      do* assert_ isMapped in
      entry_set (entry_at (cap_get_capPtr vspace_cap) (GET_PGD_INDEX vptr)) (table_new (pptr_to_paddr pud))
  | _ => fail AssertFail
  end.
Definition create_it_pud_cap (vspace_cap : cap) (pptr vptr asid : Z) : M kstate cap :=
  let c := cap_page_upper_directory_cap asid pptr true vptr in do* map_it_pud_cap vspace_cap c in ret c.

(** The three loops of [create_it_address_space], which differ in the kind of table
    [create] makes and in how much a table covers.  [false] when memory or slots run
    out.  Every round takes a slot, which bounds the rounds. *)
Fixpoint tables_loop (fuel : nat) (create : Z -> Z -> M kstate cap) (root_cnode_cap : cap) (step vptr v_end : Z) : M boot_t bool :=
  match fuel with
  | O => fail NoFuel
  | S fuel =>
      if vptr <? v_end then
        let* pptr := alloc_region TABLE_BITS in
        if pptr =? 0 then ret false
        else
          do* kern (memzero pptr TABLE_BITS) in
          let* c := kern (create pptr vptr) in
          let* ok := provide_cap root_cnode_cap c in
          if negb ok then ret false else tables_loop fuel create root_cnode_cap step (w64 (vptr + BIT step)) v_end
      else ret true
  end.
Definition slots_left (b : boot_t) : nat := Z.to_nat (slot_pos_max b - slot_pos_cur b).
Definition create_tables (create : Z -> Z -> M kstate cap) (root_cnode_cap : cap) (step v_start v_end : Z) : M boot_t bool :=
  let* n := gets slots_left in
  tables_loop (S (S n)) create root_cnode_cap step (kROUND_DOWN v_start step) v_end.

Definition create_it_address_space (root_cnode_cap : cap) (it_v_reg : region_t) : M boot_t cap :=
  let* pptr := alloc_region TABLE_BITS in
  if pptr =? 0 then ret cap_null_cap
  else
    do* kern (memzero pptr TABLE_BITS) in
    let vspace_cap := cap_page_global_directory_cap IT_ASID pptr true in
    let* slot_pos_before := gets slot_pos_cur in
    do* write_slot (SLOT_PTR (cap_get_capPtr root_cnode_cap) seL4_CapInitThreadVSpace) vspace_cap in
    let* ok := create_tables (fun p v => create_it_pud_cap vspace_cap p v IT_ASID) root_cnode_cap PGD_INDEX_OFFSET (start it_v_reg) (end_ it_v_reg) in
    if negb ok then ret cap_null_cap
    else
      let* ok := create_tables (fun p v => create_it_pd_cap vspace_cap p v IT_ASID) root_cnode_cap PUD_INDEX_OFFSET (start it_v_reg) (end_ it_v_reg) in
      if negb ok then ret cap_null_cap
      else
        let* ok := create_tables (fun p v => create_it_pt_cap vspace_cap p v IT_ASID) root_cnode_cap PD_INDEX_OFFSET (start it_v_reg) (end_ it_v_reg) in
        if negb ok then ret cap_null_cap
        else
          let* slot_pos_after := gets slot_pos_cur in
          do* modify (upd_bi (set_bi_userImagePaging (mkSlots slot_pos_before slot_pos_after))) in
          ret vspace_cap.

Definition create_unmapped_it_frame_cap (pptr : Z) (use_large : bool) : cap := create_it_frame_cap pptr 0 asidInvalid use_large.
Definition create_mapped_it_frame_cap (pd_cap : cap) (pptr vptr asid : Z) (use_large executable : bool) : M kstate cap :=
  let c := create_it_frame_cap pptr vptr asid use_large in
  do* map_it_frame_cap pd_cap c executable in ret c.

Definition write_it_asid_pool (it_ap_cap it_vspace_cap : cap) : M kstate unit :=
  let ap := cap_get_capPtr it_ap_cap in
  do* entry_set (entry_at ap IT_ASID) (cap_get_capPtr it_vspace_cap) in
  asid_table_set (Z.shiftr IT_ASID asidLowBits) ap.
End BootVspace.
