(* ===== verification/KBoot.v ===== *)
(** * Booting

    How the kernel starts on one core: the objects of the initial thread
    (kernel/src/kernel/boot.c), [configureIdleThread], and
    kernel/src/arch/arm/kernel/boot.c up to the first thread that runs.  What the code
    does to processor and board is a list of events.  No hypervisor, no SMMU. *)

From S2P Require Import Prelude KCaps KState KSched KCspace KMdb KMsg KVspace KIpc KDelete KUntyped KInvoke KInterrupt KTcb KBootMem KBootVspace.

Definition BI_FRAME_SIZE_BITS : Z := PAGE_BITS.
Definition CONFIG_MAX_NUM_NODES : Z := 1.
Definition PSTATE_IDLETHREAD : Z := Z.lor (Z.lor 0x40 5) 0x100.
Definition SEL4_BOOTINFO_HEADER_PADDING : Z := 0.
Definition SEL4_BOOTINFO_HEADER_FDT : Z := 6.
Definition sizeof_BootInfoHeader : Z := 16.

(** ** Fields of the boot information *)
Definition set_bi_extraLen (n : Z) (bi : seL4_BootInfo) : seL4_BootInfo :=
  mkBi n (bi_nodeID bi) (bi_numNodes bi) (bi_numIOPTLevels bi) (bi_ipcBuffer bi) (bi_empty bi) (bi_sharedFrames bi)
    (bi_userImageFrames bi) (bi_userImagePaging bi) (bi_ioSpaceCaps bi) (bi_extraBIPages bi) (bi_initThreadCNodeSizeBits bi)
    (bi_initThreadDomain bi) (bi_untyped bi) (bi_untypedList bi).
Definition set_bi_empty (r : seL4_SlotRegion) (bi : seL4_BootInfo) : seL4_BootInfo :=
  mkBi (bi_extraLen bi) (bi_nodeID bi) (bi_numNodes bi) (bi_numIOPTLevels bi) (bi_ipcBuffer bi) r (bi_sharedFrames bi)
    (bi_userImageFrames bi) (bi_userImagePaging bi) (bi_ioSpaceCaps bi) (bi_extraBIPages bi) (bi_initThreadCNodeSizeBits bi)
    (bi_initThreadDomain bi) (bi_untyped bi) (bi_untypedList bi).
Definition set_bi_sharedFrames (r : seL4_SlotRegion) (bi : seL4_BootInfo) : seL4_BootInfo :=
  mkBi (bi_extraLen bi) (bi_nodeID bi) (bi_numNodes bi) (bi_numIOPTLevels bi) (bi_ipcBuffer bi) (bi_empty bi) r
    (bi_userImageFrames bi) (bi_userImagePaging bi) (bi_ioSpaceCaps bi) (bi_extraBIPages bi) (bi_initThreadCNodeSizeBits bi)
    (bi_initThreadDomain bi) (bi_untyped bi) (bi_untypedList bi).
Definition set_bi_userImageFrames (r : seL4_SlotRegion) (bi : seL4_BootInfo) : seL4_BootInfo :=
  mkBi (bi_extraLen bi) (bi_nodeID bi) (bi_numNodes bi) (bi_numIOPTLevels bi) (bi_ipcBuffer bi) (bi_empty bi) (bi_sharedFrames bi)
    r (bi_userImagePaging bi) (bi_ioSpaceCaps bi) (bi_extraBIPages bi) (bi_initThreadCNodeSizeBits bi)
    (bi_initThreadDomain bi) (bi_untyped bi) (bi_untypedList bi).
Definition set_bi_ioSpaceCaps (r : seL4_SlotRegion) (bi : seL4_BootInfo) : seL4_BootInfo :=
  mkBi (bi_extraLen bi) (bi_nodeID bi) (bi_numNodes bi) (bi_numIOPTLevels bi) (bi_ipcBuffer bi) (bi_empty bi) (bi_sharedFrames bi)
    (bi_userImageFrames bi) (bi_userImagePaging bi) r (bi_extraBIPages bi) (bi_initThreadCNodeSizeBits bi)
    (bi_initThreadDomain bi) (bi_untyped bi) (bi_untypedList bi).
Definition set_bi_extraBIPages (r : seL4_SlotRegion) (bi : seL4_BootInfo) : seL4_BootInfo :=
  mkBi (bi_extraLen bi) (bi_nodeID bi) (bi_numNodes bi) (bi_numIOPTLevels bi) (bi_ipcBuffer bi) (bi_empty bi) (bi_sharedFrames bi)
    (bi_userImageFrames bi) (bi_userImagePaging bi) (bi_ioSpaceCaps bi) r (bi_initThreadCNodeSizeBits bi)
    (bi_initThreadDomain bi) (bi_untyped bi) (bi_untypedList bi).
Definition set_bi_untyped (r : seL4_SlotRegion) (bi : seL4_BootInfo) : seL4_BootInfo :=
  mkBi (bi_extraLen bi) (bi_nodeID bi) (bi_numNodes bi) (bi_numIOPTLevels bi) (bi_ipcBuffer bi) (bi_empty bi) (bi_sharedFrames bi)
    (bi_userImageFrames bi) (bi_userImagePaging bi) (bi_ioSpaceCaps bi) (bi_extraBIPages bi) (bi_initThreadCNodeSizeBits bi)
    (bi_initThreadDomain bi) r (bi_untypedList bi).

Section KBoot.
Context `{C : KConfig} `{P : KPlatform} `{B : KBootConfig}.

(** ** Objects of the initial thread *)
Definition create_root_cnode : M boot_t cap :=
  do* modify (set_slot_pos_max (BIT CONFIG_ROOT_CNODE_SIZE_BITS)) in
  let* pptr := alloc_region (CONFIG_ROOT_CNODE_SIZE_BITS + seL4_SlotBits) in
  if pptr =? 0 then ret cap_null_cap
  else
    do* kern (memzero pptr (CONFIG_ROOT_CNODE_SIZE_BITS + seL4_SlotBits)) in
    do* kern (modify (upd_k_cte (new_slots pptr (Z.to_nat (2 ^ CONFIG_ROOT_CNODE_SIZE_BITS))))) in
    let c := cap_cnode_cap CONFIG_ROOT_CNODE_SIZE_BITS (wordBits - CONFIG_ROOT_CNODE_SIZE_BITS) 0 pptr in
    do* write_slot (SLOT_PTR pptr seL4_CapInitThreadCNode) c in
    ret c.

Definition create_domain_cap (root_cnode_cap : cap) : M boot_t unit :=
  do* assert_ (0 <? Z.of_nat (length ksDomSchedule)) in
  do* assert_ (forallb (fun e : Z * Z => (e.1 <? CONFIG_NUM_DOMAINS) && (0 <? e.2)) ksDomSchedule) in
  write_slot (SLOT_PTR (cap_get_capPtr root_cnode_cap) seL4_CapDomain) cap_domain_cap.

Definition create_ipcbuf_frame (root_cnode_cap pd_cap : cap) (vptr : Z) : M boot_t cap :=
  let* pptr := alloc_region PAGE_BITS in
  if pptr =? 0 then ret cap_null_cap
  else
    do* kern (clear_memory pptr PAGE_BITS) in
    let* c := kern (create_mapped_it_frame_cap pd_cap pptr vptr IT_ASID false false) in
    do* write_slot (SLOT_PTR (cap_get_capPtr root_cnode_cap) seL4_CapInitThreadIPCBuffer) c in
    ret c.

Definition create_bi_frame_cap (root_cnode_cap pd_cap : cap) (pptr vptr : Z) : M boot_t unit :=
  let* c := kern (create_mapped_it_frame_cap pd_cap pptr vptr IT_ASID false false) in
  write_slot (SLOT_PTR (cap_get_capPtr root_cnode_cap) seL4_CapBootInfoFrame) c.

(** [1 << clzl_ret] is an [int]. *)
Definition extra_bi_bits (extra_size : Z) : Z :=
  let clzl_ret := CLZL (kROUND_UP extra_size seL4_PageBits) in
  let clzl_ret := if negb (Z.land extra_size (w64 (shl_int_1 clzl_ret - 1)) =? 0) then w64 (clzl_ret - 1) else clzl_ret in
  w64 (wordBits - 1 - clzl_ret).
Definition allocate_extra_bi_region (extra_size : Z) : M boot_t region_t :=
  if extra_size =? 0 then ret (mkReg 0x1000 0x1000)
  else
    let size_bits := extra_bi_bits extra_size in
    let* pptr := alloc_region size_bits in
    if pptr =? 0 then ret REG_EMPTY
    else
      do* kern (clear_memory pptr size_bits) in
      do* modify (upd_bi (set_bi_extraLen (BIT size_bits))) in
      ret (mkReg pptr (w64 (pptr + BIT size_bits))).

(** The entry of the domain schedule at [ksDomScheduleIdx]. *)
Definition cur_dom_entry : M boot_t (Z * Z) :=
  kern (let* i := gets ksDomScheduleIdx in of_option OutOfBounds (ksDomSchedule !! Z.to_nat i)).

Definition allocate_bi_frame (node_id num_nodes ipcbuf_vptr : Z) : M boot_t Z :=
  let* pptr := alloc_region BI_FRAME_SIZE_BITS in
  if pptr =? 0 then ret 0
  else
    do* kern (clear_memory pptr BI_FRAME_SIZE_BITS) in
    do* modify (set_bi_frame pptr) in
    do* modify (set_slot_pos_cur seL4_NumInitialCaps) in
    let* '(domain, _) := cur_dom_entry in
    do* modify (upd_bi (fun _ => mkBi 0 node_id num_nodes 0 ipcbuf_vptr S_REG_EMPTY S_REG_EMPTY S_REG_EMPTY S_REG_EMPTY S_REG_EMPTY S_REG_EMPTY
                                   CONFIG_ROOT_CNODE_SIZE_BITS domain S_REG_EMPTY ∅)) in
    ret pptr.

(** The loop of [create_frames_of_region] from [f]; every round takes a slot, which
    bounds the rounds. *)
Fixpoint frames_loop (fuel : nat) (root_cnode_cap pd_cap : cap) (f reg_end : Z) (do_map : bool) (pv_offset : Z) : M boot_t bool :=
  match fuel with
  | O => fail NoFuel
  | S fuel =>
      if f <? reg_end then
        let* c := (if do_map then kern (create_mapped_it_frame_cap pd_cap f (pptr_to_paddr (w64 (f - pv_offset))) IT_ASID false true)
                   else ret (create_unmapped_it_frame_cap f false)) in
        let* ok := provide_cap root_cnode_cap c in
        if negb ok then ret false else frames_loop fuel root_cnode_cap pd_cap (w64 (f + BIT PAGE_BITS)) reg_end do_map pv_offset
      else ret true
  end.
Definition create_frames_of_region (root_cnode_cap pd_cap : cap) (reg : region_t) (do_map : bool) (pv_offset : Z) : M boot_t (seL4_SlotRegion * bool) :=
  let* slot_pos_before := gets slot_pos_cur in
  let* n := gets slots_left in
  let* ok := frames_loop (S (S n)) root_cnode_cap pd_cap (start reg) (end_ reg) do_map pv_offset in
  if negb ok then ret (S_REG_EMPTY, false)
  else let* slot_pos_after := gets slot_pos_cur in ret (mkSlots slot_pos_before slot_pos_after, true).

Definition create_it_asid_pool (root_cnode_cap : cap) : M boot_t cap :=
  let* ap_pptr := alloc_region seL4_ASIDPoolBits in
  if ap_pptr =? 0 then ret cap_null_cap
  else
    do* kern (memzero ap_pptr seL4_ASIDPoolBits) in
    let ap_cap := cap_asid_pool_cap (Z.shiftr IT_ASID asidLowBits) ap_pptr in
    do* write_slot (SLOT_PTR (cap_get_capPtr root_cnode_cap) seL4_CapInitThreadASIDPool) ap_cap in
    do* write_slot (SLOT_PTR (cap_get_capPtr root_cnode_cap) seL4_CapASIDControl) cap_asid_control_cap in
    ret ap_cap.

(** ** The first two threads *)
Definition Arch_configureIdleThread (tcb : Z) : M kstate unit :=
  do* setRegister tcb SPSR_EL1 PSTATE_IDLETHREAD in setRegister tcb ELR_EL1 idleThreadStart.
Definition configureIdleThread (tcb : Z) : M kstate unit :=
  do* Arch_configureIdleThread tcb in setThreadState tcb ThreadState_IdleThreadState.
Definition create_idle_thread : M kstate bool :=
  do* modify (upd_ksIdleThread (fun _ => w64 (ksIdleThreadTCB + TCB_OFFSET))) in
  let* idle := gets ksIdleThread in
  do* configureIdleThread idle in
  ret true.

(** The fields of the thread, as [new_tcb] has them, are zero but for the time slice
    and the context. 0 for [NULL]. *)
Definition create_initial_thread (root_cnode_cap it_pd_cap : cap) (ui_v_entry bi_frame_vptr ipcbuf_vptr : Z) (ipcbuf_cap : cap) : M boot_t Z :=
  let root i := SLOT_PTR (cap_get_capPtr root_cnode_cap) i in
  let* pptr := alloc_region seL4_TCBBits in
  if pptr =? 0 then ret 0
  else
    do* kern (memzero pptr seL4_TCBBits) in
    let tcb := w64 (pptr + TCB_OFFSET) in
    do* kern (modify (upd_k_tcb (insert tcb (new_tcb 0)))) in
    do* kern (modify (upd_k_cte (new_slots pptr (Z.to_nat tcbArchCNodeEntries)))) in
    let* '(status, buffer_cap) := kern (deriveCap (root seL4_CapInitThreadIPCBuffer) ipcbuf_cap) in
    if negb (bool_decide (status = EXCEPTION_NONE)) then ret 0
    else
      do* kern (cteInsert root_cnode_cap (root seL4_CapInitThreadCNode) (SLOT_PTR pptr tcbCTable)) in
      do* kern (cteInsert it_pd_cap (root seL4_CapInitThreadVSpace) (SLOT_PTR pptr tcbVTable)) in
      do* kern (cteInsert buffer_cap (root seL4_CapInitThreadIPCBuffer) (SLOT_PTR pptr tcbBuffer)) in
      do* kern (tcb_upd tcb (upd_tcbIPCBuffer (fun _ => ipcbuf_vptr))) in
      do* kern (Arch_setTCBIPCBuffer tcb ipcbuf_vptr) in
      do* kern (setRegister tcb capRegister bi_frame_vptr) in
      do* kern (setNextPC tcb ui_v_entry) in
      do* kern (tcb_upd tcb (upd_tcbPriority (fun _ => seL4_MaxPrio))) in
      do* kern (tcb_upd tcb (upd_tcbMCP (fun _ => seL4_MaxPrio))) in
      do* kern (setupReplyMaster tcb) in
      do* kern (setThreadState tcb ThreadState_Running) in
      let* '(domain, length) := cur_dom_entry in
      do* kern (modify (upd_ksCurDomain (fun _ => domain))) in
      do* kern (modify (upd_ksDomainTime (fun _ => length))) in
      do* assert_ ((domain <? CONFIG_NUM_DOMAINS) && (0 <? length)) in
      do* write_slot (root seL4_CapInitThreadTCB) (cap_thread_cap tcb) in
      ret tcb.

Definition init_core_state (scheduler_action : Z) : M kstate unit :=
  do* modify (upd_ksSchedulerAction (fun _ => scheduler_action)) in
  let* idle := gets ksIdleThread in
  modify (upd_ksCurThread (fun _ => idle)).

Definition bi_finalise : M boot_t unit :=
  let* b := gets id in
  modify (upd_bi (set_bi_empty (mkSlots (slot_pos_cur b) (slot_pos_max b)))).

(** ** kernel/src/arch/arm/kernel/boot.c *)
Definition arch_init_freemem (ui_reg dtb_reg : region_t) : M boot_t unit :=
  init_freemem avail_p_regs [mkReg kernelBase ki_end; dtb_reg; ui_reg].

Fixpoint init_irqs_loop (i : Z) (n : nat) : M kstate unit :=
  match n with O => ret tt | S n => do* setIRQState IRQInactive i in init_irqs_loop (i + 1) n end.
Definition init_irqs (root_cnode_cap : cap) : M boot_t unit :=
  do* kern (init_irqs_loop 0 (Z.to_nat (maxIRQ + 1))) in
  do* kern (setIRQState IRQTimer KERNEL_TIMER_IRQ) in
  do* kern (event (setIRQTrigger KERNEL_UART_IRQ true)) in
  do* kern (setIRQState IRQReserved KERNEL_UART_IRQ) in
  write_slot (SLOT_PTR (cap_get_capPtr root_cnode_cap) seL4_CapIRQControl) cap_irq_control_cap.

Fixpoint device_untypeds_loop (root_cnode_cap : cap) (slot_pos_before current_region_pos : Z) (l : list region_t) : M boot_t bool :=
  match l with
  | [] => ret true
  | r :: l =>
      do* assert_ (start r >=? current_region_pos) in
      let* ok := create_untypeds_for_region root_cnode_cap true (paddr_to_pptr_reg r) slot_pos_before in
      if negb ok then ret false else device_untypeds_loop root_cnode_cap slot_pos_before (end_ r) l
  end.
(** The result of [create_kernel_untypeds] is not looked at. *)
Definition create_untypeds (root_cnode_cap : cap) (boot_mem_reuse_reg : region_t) : M boot_t bool :=
  let* slot_pos_before := gets slot_pos_cur in
  let* _ := create_kernel_untypeds root_cnode_cap boot_mem_reuse_reg slot_pos_before in
  let* ok := device_untypeds_loop root_cnode_cap slot_pos_before 0 dev_p_regs in
  if negb ok then ret false
  else
    let* slot_pos_after := gets slot_pos_cur in
    do* modify (upd_bi (set_bi_untyped (mkSlots slot_pos_before slot_pos_after))) in
    ret true.

Definition init_cpu : M kstate bool :=
  do* activate_kernel_vspace in
  do* event (setKernelStack kernel_stack_top) in
  do* event (setVtable arm_vector_table) in
  if fpsimd_HWCapTest then
    do* event disableFpu in
    do* event disableFpu in
    do* event cpu_initLocalIRQController in
    do* event armv_init_user_access in
    do* event initTimer in
    ret true
  else ret false.

Definition init_plat : M kstate unit := do* event initIRQController in event initL2Cache.

(** ** Extra boot information *)
Definition put_header (p id_ len : Z) : M kstate unit := do* word_set p id_ in word_set (w64 (p + 8)) len.
Fixpoint copy_words (dst src : Z) (n : nat) : M kstate unit :=
  match n with
  | O => ret tt
  | S n => let* w := word_get src in do* word_set dst w in copy_words (w64 (dst + 8)) (w64 (src + 8)) n
  end.
(** The device tree, and a header for what is left.  Memory is made of words here: the
    device tree starts at one, as its format demands. *)
Definition fill_extra_bi (extra_bi_region dtb_reg : region_t) : M kstate unit :=
  let size := w64 (end_ extra_bi_region - start extra_bi_region) in
  let len := w64 (end_ dtb_reg - start dtb_reg) in
  let* extra_bi_offset :=
    (if negb (start dtb_reg =? 0) then
       do* put_header (start extra_bi_region) SEL4_BOOTINFO_HEADER_FDT (w64 (sizeof_BootInfoHeader + len)) in
       do* (if (start dtb_reg mod 8 =? 0) && (len mod 8 =? 0) then ret tt else fail OutOfBounds) in
       do* copy_words (w64 (start extra_bi_region + sizeof_BootInfoHeader)) (start dtb_reg) (Z.to_nat (len / 8)) in
       ret (w64 (sizeof_BootInfoHeader + len))
     else ret 0) in
  if w64 (size - extra_bi_offset) >? 0
  then put_header (w64 (start extra_bi_region + extra_bi_offset)) SEL4_BOOTINFO_HEADER_PADDING (w64 (size - extra_bi_offset))
  else ret tt.

(** ** The whole *)

(** The addresses [try_init_kernel] works out first. *)
Record layout := mkLayout {
  ly_ui_reg : region_t; ly_dtb_reg : region_t; ly_it_v_reg : region_t; ly_extra_bi_size : Z;
  ly_ipcbuf_vptr : Z; ly_bi_frame_vptr : Z; ly_extra_bi_frame_vptr : Z }.
Definition boot_layout (ui_p_reg_start ui_p_reg_end pv_offset dtb_addr_start dtb_addr_end : Z) : layout :=
  let ui_v_end := w64 (ui_p_reg_end - pv_offset) in
  let bi_frame_vptr := w64 (ui_v_end + BIT PAGE_BITS) in
  let extra_bi_frame_vptr := w64 (bi_frame_vptr + BIT PAGE_BITS) in
  let no_dtb := dtb_addr_start =? 0 in
  mkLayout (paddr_to_pptr_reg (mkReg ui_p_reg_start ui_p_reg_end))
    (if no_dtb then mkReg 0 0 else paddr_to_pptr_reg (mkReg dtb_addr_start (kROUND_UP dtb_addr_end PAGE_BITS)))
    (mkReg (w64 (ui_p_reg_start - pv_offset)) extra_bi_frame_vptr)
    (if no_dtb then 0 else w64 (sizeof_BootInfoHeader + w64 (dtb_addr_end - dtb_addr_start)))
    ui_v_end bi_frame_vptr extra_bi_frame_vptr.

(** The frames of the extra boot information, when there is any. *)
Definition create_extra_bi_frames (root_cnode_cap it_pd_cap : cap) (extra_bi_size : Z) (extra_bi_region : region_t) (extra_bi_frame_vptr : Z) : M boot_t bool :=
  if extra_bi_size >? 0 then
    let* '(region, success) := create_frames_of_region root_cnode_cap it_pd_cap extra_bi_region true
                                 (w64 (pptr_to_paddr (start extra_bi_region) - extra_bi_frame_vptr)) in
    if negb success then ret false
    else do* modify (upd_bi (set_bi_extraBIPages region)) in ret true
  else ret true.

(** From the initial thread's address space, [it_pd_cap], to its first run. *)
Definition init_threads (ly : layout) (pv_offset v_entry bi_frame_pptr : Z) (extra_bi_region : region_t) (root_cnode_cap it_pd_cap : cap) : M boot_t bool :=
  do* create_bi_frame_cap root_cnode_cap it_pd_cap bi_frame_pptr (ly_bi_frame_vptr ly) in
  let* ok := create_extra_bi_frames root_cnode_cap it_pd_cap (ly_extra_bi_size ly) extra_bi_region (ly_extra_bi_frame_vptr ly) in
  if negb ok then ret false
  else
    let* ipcbuf_cap := create_ipcbuf_frame root_cnode_cap it_pd_cap (ly_ipcbuf_vptr ly) in
    if is_null ipcbuf_cap then ret false
    else
      let* '(region, success) := create_frames_of_region root_cnode_cap it_pd_cap (ly_ui_reg ly) true pv_offset in
      if negb success then ret false
      else
        do* modify (upd_bi (set_bi_userImageFrames region)) in
        let* it_ap_cap := create_it_asid_pool root_cnode_cap in
        if is_null it_ap_cap then ret false
        else
          do* kern (write_it_asid_pool it_ap_cap it_pd_cap) in
          let* ok := kern create_idle_thread in
          if negb ok then ret false
          else
            do* kern (event cleanInvalidateL1Caches) in
            let* initial := create_initial_thread root_cnode_cap it_pd_cap v_entry (ly_bi_frame_vptr ly) (ly_ipcbuf_vptr ly) ipcbuf_cap in
            if initial =? 0 then ret false
            else do* kern (init_core_state initial) in ret true.

Definition finish_boot (root_cnode_cap : cap) : M boot_t bool :=
  let* ok := create_untypeds root_cnode_cap (mkReg kernelBase ki_boot_end) in
  if negb ok then ret false
  else
    do* modify (upd_bi (set_bi_sharedFrames S_REG_EMPTY)) in
    do* bi_finalise in
    do* kern (event cleanInvalidateL1Caches) in
    do* kern (event invalidateLocalTLB) in
    ret true.

(** From free memory on. *)
Definition init_objects (ly : layout) (pv_offset v_entry : Z) : M boot_t bool :=
  do* arch_init_freemem (ly_ui_reg ly) (ly_dtb_reg ly) in
  let* root_cnode_cap := create_root_cnode in
  if is_null root_cnode_cap then ret false
  else
    do* create_domain_cap root_cnode_cap in
    do* init_irqs root_cnode_cap in
    let* bi_frame_pptr := allocate_bi_frame 0 CONFIG_MAX_NUM_NODES (ly_ipcbuf_vptr ly) in
    if bi_frame_pptr =? 0 then ret false
    else
      let* extra_bi_region := allocate_extra_bi_region (ly_extra_bi_size ly) in
      if start extra_bi_region =? 0 then ret false
      else
        let it_v_end := w64 (end_ (ly_it_v_reg ly) + w64 (end_ extra_bi_region - start extra_bi_region)) in
        if it_v_end >? kernelBase then ret false
        else
          do* kern (fill_extra_bi extra_bi_region (ly_dtb_reg ly)) in
          do* modify (upd_bi (set_bi_ioSpaceCaps S_REG_EMPTY)) in
          let* it_pd_cap := create_it_address_space root_cnode_cap (mkReg (start (ly_it_v_reg ly)) it_v_end) in
          if is_null it_pd_cap then ret false
          else
            let* ok := init_threads ly pv_offset v_entry bi_frame_pptr extra_bi_region root_cnode_cap it_pd_cap in
            if negb ok then ret false else finish_boot root_cnode_cap.

Definition try_init_kernel (ui_p_reg_start ui_p_reg_end pv_offset v_entry dtb_addr_start dtb_addr_end : Z) : M boot_t bool :=
  let ly := boot_layout ui_p_reg_start ui_p_reg_end pv_offset dtb_addr_start dtb_addr_end in
  if end_ (ly_it_v_reg ly) >? kernelBase then ret false
  else
    do* kern map_kernel_window in
    let* ok := kern init_cpu in
    if negb ok then ret false
    else
      do* kern init_plat in
      init_objects ly pv_offset v_entry.

Definition init_kernel (ui_p_reg_start ui_p_reg_end pv_offset v_entry dtb_addr_p dtb_size : Z) : M boot_t unit :=
  let dtb_end_p := if negb (dtb_addr_p =? 0) then w64 (dtb_addr_p + dtb_size) else 0 in
  let* result := try_init_kernel ui_p_reg_start ui_p_reg_end pv_offset v_entry dtb_addr_p dtb_end_p in
  do* (if negb result then fail Fatal else ret tt) in
  do* kern (event init_serial) in
  do* kern schedule in
  kern activateThread.
End KBoot.
