(* ===== verification/KBootInit.v ===== *)
(** * What booting leaves alone

    The boot code writes to tables, slots and boot information, and zeroes the memory
    it allocates.  None of it touches threads that exist already, the scheduler's
    state or slots outside the memory it takes. *)

From S2P Require Import Prelude Dll KCaps KState KSched KSchedInv KCspace KMdb KMsg KVspace KIpc KDelete KUntyped KInvoke KInterrupt KTcb KMdbThms KBootMem KBootThms KBootVspace KBoot.

(** ** Kernel operations that change no thread and no slot *)
Record threads_t := mkThreads {
  th_tcb : gmap Z tcb_t; th_ep : gmap Z endpoint_t; th_ntfn : gmap Z notification_t;
  th_rq : gmap Z tcb_queue_t; th_l1 : gmap Z Z; th_l2 : gmap (Z * Z) Z;
  th_cur : Z; th_idle : Z; th_action : Z; th_dom : Z; th_time : Z; th_idx : Z }.
Definition threads_of (k : kstate) : threads_t :=
  mkThreads (k_tcb k) (k_ep k) (k_ntfn k) (ksReadyQueues k) (ksReadyQueuesL1Bitmap k) (ksReadyQueuesL2Bitmap k)
    (ksCurThread k) (ksIdleThread k) (ksSchedulerAction k) (ksCurDomain k) (ksDomainTime k) (ksDomScheduleIdx k).

Lemma threads_tcb k k' : threads_of k' = threads_of k -> k_tcb k' = k_tcb k.
Proof. apply (f_equal th_tcb). Qed.
Lemma threads_ep k k' : threads_of k' = threads_of k -> k_ep k' = k_ep k.
Proof. apply (f_equal th_ep). Qed.
Lemma threads_ntfn k k' : threads_of k' = threads_of k -> k_ntfn k' = k_ntfn k.
Proof. apply (f_equal th_ntfn). Qed.

Definition quiet {A} (m : M kstate A) : Prop := forall k,
  wp m (fun _ k' => threads_of k' = threads_of k /\ k_cte k' = k_cte k) (fun _ => True) k.

Lemma quiet_ret {A} (a : A) : quiet (ret a).
Proof. intros k. by wp_steps. Qed.
Lemma quiet_fail {A} f : quiet (@fail kstate A f).
Proof. intros k. by wp_steps. Qed.
Lemma quiet_assert b : quiet (assert_ b).
Proof. destruct b; [apply quiet_ret | apply quiet_fail]. Qed.
Lemma quiet_gets {A} (f : kstate -> A) : quiet (gets f).
Proof. intros k. by wp_steps. Qed.
Lemma quiet_modify f : (forall k, threads_of (f k) = threads_of k /\ k_cte (f k) = k_cte k) -> quiet (modify f).
Proof. intros H k. wp_steps. apply H. Qed.
Lemma quiet_bind {A B} (m : M kstate A) (f : A -> M kstate B) : quiet m -> (forall a, quiet (f a)) -> quiet (bind m f).
Proof.
  intros Hm Hf k. rewrite wp_bind. eapply wp_mono; [apply Hm | | done]. intros a k1 [E1 E2]. rewrite <- E1, <- E2. apply Hf.
Qed.
Lemma quiet_of_option {A} f (o : option A) : quiet (of_option f o).
Proof. destruct o; [apply quiet_ret | apply quiet_fail]. Qed.

Create HintDb quiet.
#[export] Hint Resolve quiet_ret quiet_fail quiet_assert quiet_gets quiet_of_option : quiet.
Ltac quiets :=
  repeat first
    [ solve [eauto with quiet]
    | apply quiet_bind; [| intros ?]
    | apply quiet_modify; intros ?; split; reflexivity
    | match goal with |- quiet (match ?x with _ => _ end) => destruct x end
    | progress cbv beta iota zeta ].

Lemma quiet_event e : quiet (event e).
Proof. unfold event. quiets. Qed.
Lemma quiet_word_set a w : quiet (word_set a w).
Proof. unfold word_set. quiets. Qed.
Lemma quiet_word_get a : quiet (word_get a).
Proof. unfold word_get. quiets. Qed.
#[export] Hint Resolve quiet_event quiet_word_set quiet_word_get : quiet.
Lemma quiet_entry_get p : quiet (entry_get p).
Proof. unfold entry_get. quiets. Qed.
Lemma quiet_entry_set p e : quiet (entry_set p e).
Proof. unfold entry_set. quiets. Qed.
Lemma quiet_asid_table_set i p : quiet (asid_table_set i p).
Proof. unfold asid_table_set. quiets. Qed.
Lemma quiet_setIRQState st irq : quiet (setIRQState st irq).
Proof. unfold setIRQState. quiets. Qed.
#[export] Hint Resolve quiet_entry_get quiet_entry_set quiet_asid_table_set quiet_setIRQState : quiet.

Section Quiet.
Context `{C : KConfig} `{P : KPlatform} `{B : KBootConfig}.

Lemma quiet_next_table slot : quiet (next_table slot).
Proof. unfold next_table. quiets. Qed.
#[local] Hint Resolve quiet_next_table : quiet.
Lemma quiet_map_it_frame_cap v f x : quiet (map_it_frame_cap v f x).
Proof. unfold map_it_frame_cap. destruct f; quiets. Qed.
#[local] Hint Resolve quiet_map_it_frame_cap : quiet.
Lemma quiet_create_mapped v p a asid l x : quiet (create_mapped_it_frame_cap v p a asid l x).
Proof. unfold create_mapped_it_frame_cap. quiets. Qed.
Lemma quiet_create_it_pud_cap v p a asid : quiet (create_it_pud_cap v p a asid).
Proof. unfold create_it_pud_cap, map_it_pud_cap. quiets. Qed.
Lemma quiet_create_it_pd_cap v p a asid : quiet (create_it_pd_cap v p a asid).
Proof. unfold create_it_pd_cap, map_it_pd_cap. quiets. Qed.
Lemma quiet_create_it_pt_cap v p a asid : quiet (create_it_pt_cap v p a asid).
Proof. unfold create_it_pt_cap, map_it_pt_cap. quiets. Qed.
Lemma quiet_write_it_asid_pool a v : quiet (write_it_asid_pool a v).
Proof. unfold write_it_asid_pool. quiets. Qed.
Lemma quiet_init_irqs_loop n : forall i, quiet (init_irqs_loop i n).
Proof. induction n as [|n IH]; intros i; cbn [init_irqs_loop]; quiets. Qed.
Lemma quiet_copy_words n : forall d s, quiet (copy_words d s n).
Proof. induction n as [|n IH]; intros d s; cbn [copy_words]; quiets. Qed.
#[local] Hint Resolve quiet_copy_words : quiet.
Lemma quiet_fill_extra_bi e d : quiet (fill_extra_bi e d).
Proof. unfold fill_extra_bi, put_header. quiets. Qed.
Lemma quiet_deriveCap_frame s asid base size a r d :
  forall k, wp (deriveCap s (cap_frame_cap asid base size a r d))
    (fun x k' => x = (EXCEPTION_NONE, cap_frame_cap asidInvalid base size a r d) /\ k' = k) (fun _ => False) k.
Proof. intros k. unfold deriveCap. cbn [isArchCap]. unfold Arch_deriveCap. by wp_steps. Qed.
End Quiet.
#[export] Hint Resolve quiet_create_mapped quiet_create_it_pud_cap quiet_create_it_pd_cap quiet_create_it_pt_cap
  quiet_write_it_asid_pool quiet_init_irqs_loop quiet_fill_extra_bi : quiet.

(** ** The invariant of booting *)
Definition null_slot : cte_t := mkCte cap_null_cap nullMDBNode.

(** Threads and slots are not in free memory, the root CNode is at [r], and
    either none ([n] is 0) or at least the first twelve of its slots are given out. *)
Record boot_ok (n r : Z) (b : boot_t) : Prop := {
  bo_free : freemem_ok (freemem b);
  bo_objs : k_ep (b_k b) = ∅ /\ k_ntfn (b_k b) = ∅;
  bo_tcbs : forall t, is_Some (k_tcb (b_k b) !! t) -> ~ is_free (freemem b) t;
  bo_slots : forall p, is_Some (k_cte (b_k b) !! p) -> p <> 0 /\ ~ is_free (freemem b) p;
  bo_root : 0 < r /\ 12 <= slot_pos_max b /\ r + slot_pos_max b * 32 <= 2 ^ 64;
  bo_cur : (n = 0 /\ slot_pos_cur b = 0) \/ (n = 12 /\ 12 <= slot_pos_cur b) }.
(** The slot of the initial thread's TCB and those that are still to be given out. *)
Definition unused (b : boot_t) (i : Z) : Prop := i = seL4_CapInitThreadTCB \/ (12 <= i /\ slot_pos_cur b <= i < slot_pos_max b).
Definition unused_null (r : Z) (b : boot_t) : Prop := forall i, unused b i -> k_cte (b_k b) !! SLOT_PTR r i = Some null_slot.

(** No slot is linked to another. *)
Definition isolated (k : kstate) : Prop := forall p e, k_cte k !! p = Some e -> mdbNext (cteMDBNode e) = 0 /\ mdbPrev (cteMDBNode e) = 0.

(** The slots the initial thread's CNode, address space and IPC buffer come from. *)
Definition source_slot (i : Z) : Prop := i = seL4_CapInitThreadCNode \/ i = seL4_CapInitThreadVSpace \/ i = seL4_CapInitThreadIPCBuffer.
Definition filled (r i : Z) (k : kstate) : Prop := is_null (cap_at k (SLOT_PTR r i)) = false.

(** What a step before the first thread is created keeps. *)
Record kept (n r : Z) (b b' : boot_t) : Prop := {
  kp_ok : boot_ok n r b';
  kp_unused : unused_null r b';
  kp_isolated : isolated (b_k b');
  kp_threads : threads_of (b_k b') = threads_of (b_k b);
  kp_max : slot_pos_max b' = slot_pos_max b;
  kp_filled : forall i, source_slot i -> filled r i (b_k b) -> filled r i (b_k b') }.
Definition steady {A} (n r : Z) (m : M boot_t A) : Prop := forall b, boot_ok n r b -> unused_null r b -> isolated (b_k b) ->
  wp m (fun _ b' => kept n r b b') (fun _ => True) b.

Lemma kept_refl n r b : boot_ok n r b -> unused_null r b -> isolated (b_k b) -> kept n r b b.
Proof. intros. by split. Qed.
Lemma kept_trans n r b1 b2 b3 : kept n r b1 b2 -> kept n r b2 b3 -> kept n r b1 b3.
Proof. intros [_ _ _ E1 E2 F1] [H1 H2 H3 E3 E4 F2]. split; [done | done | done | by rewrite E3 | by rewrite E4 | auto]. Qed.

Lemma steady_bind {A B} n r (m : M boot_t A) (f : A -> M boot_t B) : steady n r m -> (forall a, steady n r (f a)) -> steady n r (bind m f).
Proof.
  intros Hm Hf b H1 H2 H3. rewrite wp_bind. eapply wp_mono; [by apply Hm | | done]. intros a b1 K1.
  eapply wp_mono; [apply Hf; apply K1 | | done]. intros ? b2 K2. exact (kept_trans n r b b1 b2 K1 K2).
Qed.
Lemma steady_ret {A} n r (a : A) : steady n r (ret a).
Proof. intros b H1 H2 H3. wp_steps. by apply kept_refl. Qed.
Lemma steady_fail {A} n r f : steady n r (@fail boot_t A f).
Proof. intros b _ _ _. by wp_steps. Qed.
Lemma steady_assert n r c : steady n r (assert_ c).
Proof. destruct c; [apply steady_ret | apply steady_fail]. Qed.
Lemma steady_gets {A} n r (f : boot_t -> A) : steady n r (gets f).
Proof. intros b H1 H2 H3. wp_steps. by apply kept_refl. Qed.
Lemma steady_upd_bi n r f : steady n r (modify (upd_bi f)).
Proof. intros b [] H2 H3. wp_steps. split; [by split | done..]. Qed.
Lemma steady_set_bi_frame n r p : steady n r (modify (set_bi_frame p)).
Proof. intros b [] H2 H3. wp_steps. split; [by split | done..]. Qed.

Lemma wp_kern {A} (m : M kstate A) (Q : A -> boot_t -> Prop) F b :
  wp m (fun a k => Q a (upd_b_k (fun _ => k) b)) F (b_k b) -> wp (kern m) Q F b.
Proof. unfold wp, kern. by destruct (m (b_k b)) as [[a k]|e]. Qed.

Lemma kept_quiet n r b k : boot_ok n r b -> unused_null r b -> isolated (b_k b) -> threads_of k = threads_of (b_k b) -> k_cte k = k_cte (b_k b) ->
  kept n r b (upd_b_k (fun _ => k) b).
Proof.
  intros [H1 H2 H3 H4 H5 H6] Hu Hi E Ec. pose proof (threads_tcb _ _ E) as Et. pose proof (threads_ep _ _ E) as Ee. pose proof (threads_ntfn _ _ E) as En.
  split; [split; cbn; rewrite ?Et, ?Ec, ?Ee, ?En; done | intros i Hn; cbn; rewrite Ec; by apply Hu | intros p e; cbn; rewrite Ec; apply Hi | done | done |].
  intros i _. unfold filled, cap_at. cbn. by rewrite Ec.
Qed.
Lemma steady_kern {A} n r (m : M kstate A) : quiet m -> steady n r (kern m).
Proof. intros Hm b H1 H2 H3. apply wp_kern. eapply wp_mono; [apply Hm | | done]. intros a k [E1 E2]. by apply kept_quiet. Qed.

(** Memory that was free is zeroed. *)
Lemma outside_same {A} (m : gmap Z A) base bits : (forall x, is_Some (m !! x) -> ~ in_block base bits x) -> outside base bits m = m.
Proof.
  intros H. apply map_eq. intros x. unfold outside. rewrite map_lookup_filter. destruct (m !! x) as [v|] eqn:E; [|done]. simpl.
  rewrite option_guard_True; [done |]. apply H. by rewrite E.
Qed.
Lemma memzero_quiet base bits k : k_ep k = ∅ -> k_ntfn k = ∅ -> (forall x, is_Some (k_tcb k !! x) -> ~ in_block base bits x) ->
  (forall x, is_Some (k_cte k !! x) -> ~ in_block base bits x) ->
  wp (memzero base bits) (fun _ k' => threads_of k' = threads_of k /\ k_cte k' = k_cte k) (fun _ => True) k.
Proof.
  intros He Hn Ht Hc. unfold memzero. wp_steps. unfold threads_of. simpl. rewrite He, Hn, (outside_same (k_tcb k)), (outside_same (k_cte k)) by done. done.
Qed.

(** Taking a block and zeroing it. *)
Lemma boot_ok_freemem n r b l : boot_ok n r b -> freemem_ok l -> (forall x, is_free l x -> is_free (freemem b) x) -> boot_ok n r (set_freemem l b).
Proof.
  intros [H1 H2 H3 H4 H5 H6] Hl Hf. split; try done; cbn.
  - intros t Ht Hx. apply (H3 t Ht). by apply Hf.
  - intros p Hp. destruct (H4 p Hp). split; [done |]. intros Hx. auto.
Qed.
Lemma alloc_kept n r bits b : 0 <= bits < 64 -> boot_ok n r b -> unused_null r b -> isolated (b_k b) ->
  wp (alloc_region bits) (fun p b' => kept n r b b' /\ b_k b' = b_k b /\ (p = 0 \/ (0 < p /\ (2 ^ bits | p) /\ p + 2 ^ bits <= 2 ^ 64 /\
    forall x, in_block p bits x -> is_free (freemem b) x /\ ~ is_free (freemem b') x))) (fun _ => True) b.
Proof.
  intros Hb Hj Hu Hi. destruct (alloc_region_ok b bits (bo_free _ _ _ Hj) Hb) as (p & l' & E & Hl & H). unfold wp. rewrite E.
  destruct H as [(-> & -> & _) | (Hp & Hd & Hin & Hout & _)].
  - destruct b. split; [by apply kept_refl | by auto].
  - split; [split; try done; apply boot_ok_freemem; [done.. |]; intros x Hx; by apply Hout |]. split; [done |]. right. split; [done |]. split; [done |].
    assert (0 < 2 ^ bits) by lia. split.
    + destruct (Hin (p + 2 ^ bits - 1)) as (rg & Hr & Hx); [lia |]. destruct (bo_free _ _ _ Hj) as [Hok _].
      eapply list.Forall_forall in Hok; [|exact Hr]. destruct Hok as ((? & ?) & ? & ?). unfold inside in Hx. lia.
    + intros x Hx. split; [by apply Hin |]. intros Hf. by destruct (Hout x Hf).
Qed.

(** [z] zeroes a block. *)
Definition zeroes (z : Z -> M kstate unit) (bits : Z) : Prop := forall p k, k_ep k = ∅ -> k_ntfn k = ∅ ->
  (forall x, is_Some (k_tcb k !! x) -> ~ in_block p bits x) -> (forall x, is_Some (k_cte k !! x) -> ~ in_block p bits x) ->
  wp (z p) (fun _ k' => threads_of k' = threads_of k /\ k_cte k' = k_cte k) (fun _ => True) k.
Lemma zeroes_memzero bits : zeroes (fun p => memzero p bits) bits.
Proof. intros p k. apply memzero_quiet. Qed.
Lemma zeroes_clear bits : zeroes (fun p => clear_memory p bits) bits.
Proof.
  intros p k H1 H2 H3 H4. unfold clear_memory. wp_step. eapply wp_mono; [by apply memzero_quiet | | done]. intros ? k1 [<- <-]. apply quiet_event.
Qed.

(** A block [p] is taken and zeroed, and the boot goes on with [after]. *)
Lemma wp_taken {A} n r bits b z (m0 : M boot_t A) (after : Z -> M boot_t A) (Q : A -> boot_t -> Prop) :
  0 <= bits < 64 -> zeroes z bits -> boot_ok n r b -> unused_null r b -> isolated (b_k b) ->
  (forall b', kept n r b b' -> wp m0 Q (fun _ => True) b') ->
  (forall p b', kept n r b b' -> k_cte (b_k b') = k_cte (b_k b) -> 0 < p -> (2 ^ bits | p) -> p + 2 ^ bits <= 2 ^ 64 ->
    (forall x, in_block p bits x -> is_free (freemem b) x /\ ~ is_free (freemem b') x) -> wp (after p) Q (fun _ => True) b') ->
  wp (let* p := alloc_region bits in if p =? 0 then m0 else do* kern (z p) in after p) Q (fun _ => True) b.
Proof.
  intros Hb Hz Hj Hu Hi H0 Ha. wp_step. eapply wp_mono; [by apply (alloc_kept n r bits b) | | done]. intros p b1 (K1 & Ek & Hp).
  destruct (Z.eqb_spec p 0) as [_|Hp0]; [by apply H0 |]. destruct Hp as [?|(Hp & Hd & Hw & Hx)]; [done |]. wp_step. apply wp_kern.
  pose proof (kp_ok _ _ _ _ K1) as J1. eapply wp_mono; [apply Hz; [apply J1 | apply J1 | |] | | done].
  - intros x Hs Hin. rewrite Ek in Hs. apply (bo_tcbs _ _ _ Hj x Hs). by apply Hx.
  - intros x Hs Hin. rewrite Ek in Hs. destruct (bo_slots _ _ _ Hj x Hs) as [_ Hn]. by apply Hn, Hx.
  - intros ? k [E1 E2]. apply Ha; try done; [eapply kept_trans; [exact K1 |]; by apply kept_quiet; try apply K1 |]. cbn. by rewrite E2, Ek.
Qed.
Lemma steady_taken {A} n r bits z (m0 : M boot_t A) (after : Z -> M boot_t A) : 0 <= bits < 64 -> zeroes z bits ->
  steady n r m0 -> (forall p, steady n r (after p)) ->
  steady n r (let* p := alloc_region bits in if p =? 0 then m0 else do* kern (z p) in after p).
Proof.
  intros Hb Hz H0 Ha b Hj Hu Hi. apply (wp_taken n r bits b z); try done.
  - intros b' K. eapply wp_mono; [apply H0; apply K | | done]. intros ? b2 K2. exact (kept_trans _ _ _ _ _ K K2).
  - intros p b' K _ _ _ _ _. eapply wp_mono; [apply Ha; apply K | | done]. intros ? b2 K2. exact (kept_trans _ _ _ _ _ K K2).
Qed.

(** ** Slots of the root CNode *)
Lemma slot_inj n r b i j : boot_ok n r b -> 0 <= i < slot_pos_max b -> 0 <= j < slot_pos_max b -> SLOT_PTR r i = SLOT_PTR r j -> i = j.
Proof. intros Hj Hi Hjj. destruct (bo_root _ _ _ Hj) as (? & ? & ?). unfold SLOT_PTR, w64. change cte_size with 32. rewrite !Z.mod_small by lia. lia. Qed.

Definition root_mdb : mdb_node_t := mkMdb 0 true true 0.
Lemma wp_write_slot p c b (Q : unit -> boot_t -> Prop) :
  (forall k, is_Some (k_cte (b_k b) !! p) -> p <> 0 -> threads_of k = threads_of (b_k b) -> k_cte k = <[p := mkCte c root_mdb]> (k_cte (b_k b)) ->
     nocte k = nocte (b_k b) -> Q tt (upd_b_k (fun _ => k) b)) ->
  wp (write_slot p c) Q (fun _ => True) b.
Proof.
  intros H. unfold write_slot. apply wp_kern. unfold set_cap, set_mdb, cte_upd, cte_get. destruct (Z.eqb_spec p 0) as [->|Hp]; [by wp_steps |].
  destruct (k_cte (b_k b) !! p) as [e|] eqn:E; cycle 1.
  { unfold bind, wp. rewrite E. done. }
  unfold wp, bind, modify. rewrite E. cbn [k_cte upd_k_cte]. rewrite lookup_insert_eq. apply H; [done | done | done | | done].
  simpl. by rewrite insert_insert_eq.
Qed.

Lemma kept_slot n r b i c k : (source_slot i -> is_null c = false) -> boot_ok n r b -> unused_null r b -> isolated (b_k b) -> 0 <= i < slot_pos_max b -> ~ unused b i ->
  is_Some (k_cte (b_k b) !! SLOT_PTR r i) -> threads_of k = threads_of (b_k b) -> k_cte k = <[SLOT_PTR r i := mkCte c root_mdb]> (k_cte (b_k b)) ->
  kept n r b (upd_b_k (fun _ => k) b).
Proof.
  intros Hc Hj Hu Hiso Hi Hn Hs E Ec. pose proof (threads_tcb _ _ E) as Et. pose proof (threads_ep _ _ E) as Ee. pose proof (threads_ntfn _ _ E) as En.
  pose proof Hj as [H1 H2 H3 H4 H5 H6]. split; [split; cbn; rewrite ?Et, ?Ec, ?Ee, ?En; try done | | | done | done |].
  - intros p. rewrite lookup_insert_is_Some. intros [<- | [_ Hp]]; auto.
  - intros j Hjj. cbn. rewrite Ec, lookup_insert_ne; [by apply Hu |]. intros Eq. apply (slot_inj n r b) in Eq; [|done..|].
    + subst j. by apply Hn.
    + destruct Hjj as [-> | ?]; cbn in *; unfold seL4_CapInitThreadTCB; lia.
  - intros p e. cbn. rewrite Ec. intros [[_ <-] | [_ Hp]]%lookup_insert_Some; [done | by apply (Hiso p)].
  - intros j Hsj Hfj. unfold filled, cap_at. cbn. rewrite Ec. destruct (decide (SLOT_PTR r i = SLOT_PTR r j)) as [Eq|]; [|by rewrite lookup_insert_ne].
    rewrite Eq, lookup_insert_eq. cbn. apply Hc. apply (slot_inj n r b) in Eq as ->; [done.. |].
    destruct (bo_root _ _ _ Hj) as (_ & ? & _). unfold source_slot, seL4_CapInitThreadCNode, seL4_CapInitThreadVSpace, seL4_CapInitThreadIPCBuffer in Hsj. lia.
Qed.
Lemma steady_write_slot n r i c : 2 <= i < 12 -> (source_slot i -> is_null c = false) -> steady n r (write_slot (SLOT_PTR r i) c).
Proof.
  intros Hi Hc b Hj Hu Hiso. destruct (bo_root _ _ _ Hj) as (? & ? & ?). apply wp_write_slot. intros k Hs Hp E Ec _. apply (kept_slot n r b i c); try done; [lia |].
  unfold unused, seL4_CapInitThreadTCB. lia.
Qed.

Lemma steady_provide_cap n r root c : n = 12 -> cap_get_capPtr root = r -> steady n r (provide_cap root c).
Proof.
  intros Hn <- b Hj Hu Hiso. set (r := cap_get_capPtr root) in *. destruct (bo_root _ _ _ Hj) as (? & ? & ?). pose proof (bo_cur _ _ _ Hj). unfold provide_cap, id. wp_steps.
  destruct (slot_pos_cur b >=? slot_pos_max b) eqn:E; wp_steps; [by apply kept_refl |]. apply wp_write_slot. intros k Hs Hp Et Ec _. wp_steps.
  set (b0 := set_slot_pos_cur (w64 (slot_pos_cur b + 1)) b). assert (w64 (slot_pos_cur b + 1) = slot_pos_cur b + 1) as Ew by (unfold w64; rewrite Z.mod_small; lia).
  assert (kept n r b0 (upd_b_k (fun _ => k) b0)) as [K1 K2 K3 K4 K5 K6].
  { pose proof Hj as [J1 J2 J3 J4 J5 J6]. apply (kept_slot n r b0 (slot_pos_cur b) c); try done; [unfold source_slot, seL4_CapInitThreadCNode, seL4_CapInitThreadVSpace, seL4_CapInitThreadIPCBuffer; lia | split; try done; cbn; lia | | cbn; lia |].
    - intros i [->|Hi]; apply Hu; [by left | right; cbn in Hi; lia].
    - unfold unused, seL4_CapInitThreadTCB. cbn. lia. }
  by split.
Qed.

Create HintDb steady.
#[export] Hint Resolve steady_ret steady_fail steady_assert steady_gets steady_upd_bi steady_set_bi_frame : steady.
#[export] Hint Extern 2 (steady _ _ (write_slot _ _)) => apply steady_write_slot; [cbv; split; congruence | solve [reflexivity || (cbv; intros; lia)]] : steady.
#[export] Hint Extern 2 (steady _ _ (kern _)) => apply steady_kern; solve [auto with quiet] : steady.
Ltac steadys :=
  repeat first
    [ solve [eauto with steady]
    | progress (cbv beta iota zeta)
    | apply (steady_taken _ _ _ (fun p => memzero p _)); [lia | apply zeroes_memzero | | intros ?]
    | apply (steady_taken _ _ _ (fun p => clear_memory p _)); [lia | apply zeroes_clear | | intros ?]
    | apply steady_bind; [| intros ?]
    | match goal with |- steady _ _ (match ?x with _ => _ end) => destruct x end ].

Section Steady.
Context `{C : KConfig} `{P : KPlatform} `{B : KBootConfig}.
Context (r : Z) (root : cap) (Hroot : cap_get_capPtr root = r).

Lemma steady_provided c : steady 12 r (provide_cap root c).
Proof. by apply steady_provide_cap. Qed.
#[local] Hint Resolve steady_provided : steady.

Lemma steady_tables_loop create step e fuel : (forall p v, quiet (create p v)) -> forall v, steady 12 r (tables_loop fuel create root step v e).
Proof.
  intros Hc. induction fuel as [|fuel IH]; intros v; cbn [tables_loop]; [apply steady_fail |]. unfold TABLE_BITS. steadys.
Qed.
Lemma steady_create_tables create step s e : (forall p v, quiet (create p v)) -> steady 12 r (create_tables create root step s e).
Proof. intros Hc. unfold create_tables. apply steady_bind; [apply steady_gets | intros n]. by apply steady_tables_loop. Qed.
#[local] Hint Extern 2 (steady _ _ (create_tables _ _ _ _ _)) => apply steady_create_tables; intros ? ?; solve [auto with quiet] : steady.

Lemma steady_create_it_address_space reg : steady 12 r (create_it_address_space root reg).
Proof. unfold create_it_address_space, TABLE_BITS. rewrite Hroot. steadys. Qed.

Lemma steady_create_domain_cap n : steady n r (create_domain_cap root).
Proof. unfold create_domain_cap. rewrite Hroot. steadys. Qed.
Lemma steady_init_irqs n : steady n r (init_irqs root).
Proof. unfold init_irqs. rewrite Hroot. steadys. Qed.
Lemma steady_create_bi_frame_cap pd p v : steady 12 r (create_bi_frame_cap root pd p v).
Proof. unfold create_bi_frame_cap. rewrite Hroot. steadys. Qed.
Lemma steady_create_it_asid_pool : steady 12 r (create_it_asid_pool root).
Proof. unfold create_it_asid_pool. change seL4_ASIDPoolBits with 12. rewrite Hroot. steadys. Qed.
Lemma steady_frames_loop pd e m off fuel : forall f, steady 12 r (frames_loop fuel root pd f e m off).
Proof. induction fuel as [|fuel IH]; intros f; cbn [frames_loop]; [apply steady_fail | steadys]. Qed.
Lemma steady_create_frames pd reg m off : steady 12 r (create_frames_of_region root pd reg m off).
Proof.
  unfold create_frames_of_region. apply steady_bind; [apply steady_gets | intros ?]. apply steady_bind; [apply steady_gets | intros ?].
  apply steady_bind; [apply steady_frames_loop | intros ok]. steadys.
Qed.
Lemma steady_extra_frames pd size reg v : steady 12 r (create_extra_bi_frames root pd size reg v).
Proof. unfold create_extra_bi_frames. pose proof steady_create_frames. steadys. Qed.
End Steady.
