(* ===== verification/KBootStart.v ===== *)
(** * The state in which the kernel starts

    What [try_init_kernel] has set up when it succeeds: the ready queues, the mapping
    database and the object queues are well formed, and the first thread is about to
    run. *)

From S2P Require Import Prelude Dll KCaps KState KSched KSchedInv KSchedThms KCspace KMdb KMsg KVspace KIpc KDelete KIpcInv KIpcThms KUntyped KInvoke KInterrupt KTcb KCapThms KMdbThms KRetypeThms KBootMem KBootThms KBootFree KBootVspace KBoot KBootInit.

(** ** Boot information *)
Section Info.
Context `{C : KConfig} `{P : KPlatform} `{B : KBootConfig}.

Lemma extra_bi_bits_range size : 0 < size < 2 ^ 62 -> 0 <= extra_bi_bits size < 64.
Proof.
  intros Hs. unfold extra_bi_bits. assert (0 <= Z.log2 (kROUND_UP size seL4_PageBits) <= 62) as Hl.
  { split; [apply Z.log2_nonneg |]. assert (0 <= kROUND_UP size seL4_PageBits < 2 ^ 63).
    - unfold kROUND_UP, seL4_PageBits, w64. rewrite Z.shiftr_div_pow2, Z.shiftl_mul_pow2 by lia. rewrite (Z.mod_small (size - 1)) by lia.
      change (2 ^ 12) with 4096. rewrite (Z.mod_small ((size - 1) / 4096 + 1)) by lia. rewrite Z.mod_small by lia. lia.
    - destruct (decide (kROUND_UP size seL4_PageBits = 0)) as [->|]; [done |]. assert (Z.log2 (kROUND_UP size seL4_PageBits) < 63) by (apply Z.log2_lt_pow2; lia). lia. }
  unfold CLZL, wordBits. set (c := 63 - Z.log2 _) in *. assert (1 <= c <= 63) by lia. destruct (negb _); unfold w64; rewrite ?(Z.mod_small (c - 1)) by lia; rewrite Z.mod_small by lia; lia.
Qed.
Lemma steady_extra_region n r size : 0 <= size < 2 ^ 62 -> steady n r (allocate_extra_bi_region size).
Proof.
  intros Hs. unfold allocate_extra_bi_region. destruct (Z.eqb_spec size 0) as [->|]; [apply steady_ret |]. cbv zeta.
  apply (steady_taken _ _ _ (fun p => clear_memory p _)); [apply extra_bi_bits_range; lia | apply zeroes_clear | apply steady_ret | intros p].
  apply steady_bind; [apply steady_upd_bi | intros _; apply steady_ret].
Qed.

(** The first twelve slots are given out. *)
Lemma wp_allocate_bi_frame r b node num v : boot_ok 0 r b -> unused_null r b -> isolated (b_k b) ->
  wp (allocate_bi_frame node num v) (fun p b' => p = 0 \/ (boot_ok 12 r b' /\ unused_null r b' /\ isolated (b_k b') /\
    threads_of (b_k b') = threads_of (b_k b) /\ slot_pos_max b' = slot_pos_max b /\
    forall i, source_slot i -> filled r i (b_k b) -> filled r i (b_k b'))) (fun _ => True) b.
Proof.
  intros Hj Hu Hi. unfold allocate_bi_frame. apply (wp_taken 0 r _ b (fun p => clear_memory p _)); try done; [apply zeroes_clear | intros b' _; wp_steps; by left |].
  intros p b1 [K1 K2 K3 K4 K5 K6] _ Hp _ _ _. wp_steps. apply wp_kern. wp_steps. destruct (ksDomSchedule !! _) as [[d l]|]; [|done]. wp_steps. right.
  pose proof K1 as [J1 J2 J3 J4 J5 J6]. split; [split; try done; cbn; unfold seL4_NumInitialCaps; lia |]. split; [|split_and!; done].
  intros i [->|Hn]; apply K2; [by left | right; cbn in Hn; unfold seL4_NumInitialCaps in Hn; lia].
Qed.

(** The address space of the initial thread, and its IPC buffer. *)
Lemma wp_steady_bind {A A'} n r b0 b (m : M boot_t A) (f : A -> M boot_t A') (Q : A' -> boot_t -> Prop) : steady n r m -> kept n r b0 b ->
  (forall a b', kept n r b0 b' -> kept n r b b' -> wp (f a) Q (fun _ => True) b') -> wp (bind m f) Q (fun _ => True) b.
Proof.
  intros Hm K Hf. wp_step. eapply wp_mono; [apply Hm; apply K | | done]. intros a b' K'. apply Hf; [|done]. exact (kept_trans _ _ _ _ _ K K').
Qed.

Lemma wp_write_source n r i c b (Q : unit -> boot_t -> Prop) : source_slot i -> is_null c = false -> boot_ok n r b -> unused_null r b -> isolated (b_k b) ->
  (forall b', kept n r b b' -> filled r i (b_k b') -> Q tt b') -> wp (write_slot (SLOT_PTR r i) c) Q (fun _ => True) b.
Proof.
  intros Hi Hc Hj Hu Hiso HQ. assert (2 <= i < 12) as Hr.
  { unfold source_slot, seL4_CapInitThreadCNode, seL4_CapInitThreadVSpace, seL4_CapInitThreadIPCBuffer in Hi. lia. }
  destruct (bo_root _ _ _ Hj) as (? & ? & ?). apply wp_write_slot. intros k Hs Hp E Ec _. apply HQ.
  - apply (kept_slot n r b i c); try done; [lia |]. unfold unused, seL4_CapInitThreadTCB. lia.
  - unfold filled, cap_at. cbn. by rewrite Ec, lookup_insert_eq.
Qed.

Lemma wp_address_space r root b reg : cap_get_capPtr root = r -> boot_ok 12 r b -> unused_null r b -> isolated (b_k b) ->
  wp (create_it_address_space root reg) (fun c b' => kept 12 r b b' /\ (is_null c = false ->
    (exists p, c = cap_page_global_directory_cap IT_ASID p true) /\ filled r seL4_CapInitThreadVSpace (b_k b'))) (fun _ => True) b.
Proof.
  intros Hr Hj Hu Hi. unfold create_it_address_space. rewrite Hr. apply (wp_taken 12 r _ b (fun p => memzero p _)); try done; [apply zeroes_memzero |].
  intros p b1 K1 _ _ _ _ _. wp_step. wp_step. wp_step. apply (wp_write_source 12); try apply K1; [right; by left | done |]. intros b2 K2 Hf2.
  assert (forall create step s e, (forall p v, quiet (create p v)) -> steady 12 r (create_tables create root step s e)) as Ht by (intros; by apply steady_create_tables).
  pose proof (kept_trans _ _ _ _ _ K1 K2) as K12.
  apply (wp_steady_bind 12 r b b2); [apply Ht; auto with quiet | done |]. intros [|] b3 K3 F3; cbn [negb]; [|wp_steps; by split].
  apply (wp_steady_bind 12 r b b3); [apply Ht; auto with quiet | done |]. intros [|] b4 K4 F4; cbn [negb]; [|wp_steps; by split].
  apply (wp_steady_bind 12 r b b4); [apply Ht; auto with quiet | done |]. intros [|] b5 K5 F5; cbn [negb]; [|wp_steps; by split].
  wp_step. wp_step. apply (wp_steady_bind 12 r b b5); [apply steady_upd_bi | done |]. intros _ b6 K6 F6. wp_steps. split; [done |]. intros _. split; [by eexists |].
  assert (source_slot seL4_CapInitThreadVSpace) by (right; by left). apply (kp_filled _ _ _ _ F6); [done |]. apply (kp_filled _ _ _ _ F5); [done |]. apply (kp_filled _ _ _ _ F4); [done |].
  by apply (kp_filled _ _ _ _ F3).
Qed.

Lemma wp_ipcbuf r root b pd v : cap_get_capPtr root = r -> boot_ok 12 r b -> unused_null r b -> isolated (b_k b) ->
  wp (create_ipcbuf_frame root pd v) (fun c b' => kept 12 r b b' /\ (is_null c = false ->
    (exists p, c = create_it_frame_cap p v IT_ASID false) /\ filled r seL4_CapInitThreadIPCBuffer (b_k b'))) (fun _ => True) b.
Proof.
  intros Hr Hj Hu Hi. unfold create_ipcbuf_frame, PAGE_BITS. rewrite Hr. apply (wp_taken 12 r _ b (fun p => clear_memory p _)); try done; [apply zeroes_clear |].
  intros p b1 K1 _ _ _ _ _. unfold create_mapped_it_frame_cap. wp_step. apply wp_kern. wp_step. eapply wp_mono; [apply (quiet_map_it_frame_cap pd (create_it_frame_cap p v IT_ASID false) false) | | done].
  intros _ k [E1 E2]. wp_steps. assert (kept 12 r b (upd_b_k (fun _ => k) b1)) as K2.
  { eapply kept_trans; [exact K1 |]. by apply kept_quiet; try apply K1. }
  apply (wp_write_source 12); try apply K2; [right; by right | done |]. intros b3 K3 Hf3. wp_steps. split; [exact (kept_trans _ _ _ _ _ K2 K3) |]. intros _. split; [by eexists | done].
Qed.
End Info.

(** ** The mapping database of the slots written at boot *)
Lemma isolated_mdb k : isolated k -> (forall p, is_Some (k_cte k !! p) -> p <> 0) -> exists L, mdb_ok L k.
Proof.
  intros Hi Hz. set (D := filter (fun x : Z * cte_t => is_null (cte_cap x.2) = false) (k_cte k)). set (l := (map_to_list D).*1).
  assert (forall p, p ∈ l <-> exists e, k_cte k !! p = Some e /\ is_null (cte_cap e) = false) as Hl.
  { intros p. unfold l. rewrite list_elem_of_fmap. split.
    - intros ([q e] & -> & Hq%elem_of_map_to_list). unfold D in Hq. apply map_lookup_filter_Some in Hq. by exists e.
    - intros (e & He). exists (p, e). split; [done |]. apply elem_of_map_to_list. unfold D. by apply map_lookup_filter_Some. }
  assert (concat (map (fun p => [p]) l) = l) as Ec by (clear; induction l as [|p l IH]; cbn; [done | by rewrite IH]).
  exists (map (fun p => [p]) l). split.
  - apply list.Forall_forall. intros xs (p & -> & Hp)%list_elem_of_fmap. apply Hl in Hp as (e & He & _). destruct (Hi p e He) as [E1 E2].
    cbn. unfold mn, mp. rewrite He. cbn. split_and!; try done. apply Hz. by rewrite He.
  - rewrite Ec. apply NoDup_fst_map_to_list.
  - rewrite Ec. intros p (e & -> & _)%Hl. done.
  - done.
  - intros p _. unfold mn, mp. destruct (k_cte k !! p) as [e|] eqn:E; [|done]. cbn. by apply (Hi p).
  - intros p [e He]. rewrite Ec, Hl. unfold cap_at. rewrite He. cbn. split; [intros (e' & [= <-] & ?); done | by exists e].
Qed.

(** A capability in an empty slot. *)
Lemma mdb_write L k k' p c : mdb_ok L k -> p <> 0 -> k_cte k !! p = Some null_slot -> is_null c = false ->
  k_cte k' = <[p := mkCte c root_mdb]> (k_cte k) -> mdb_ok ([p] :: L) k'.
Proof.
  intros [H1 H2 H3 H4 H5 H6] Hp Hn Hc E. assert (p ∉ concat L) as Hpl.
  { intros Hin. assert (is_Some (k_cte k !! p)) as Hs by by rewrite Hn. apply (H6 p Hs) in Hin. unfold cap_at in Hin. by rewrite Hn in Hin. }
  assert (forall q, q <> p -> k_cte k' !! q = k_cte k !! q) as Ho by (intros; rewrite E; by apply lookup_insert_ne).
  assert (k_cte k' !! p = Some (mkCte c root_mdb)) as Ep by (rewrite E; apply lookup_insert_eq). split.
  - apply list.Forall_cons. split; [cbn; unfold mn, mp; by rewrite Ep |]. apply list.Forall_forall. intros xs Hxs. eapply list.Forall_forall in H1; [|exact Hxs].
    eapply dseg_ext; [| exact H1]. intros q Hq. assert (q <> p) by (intros ->; apply Hpl; apply in_concat_iff; eauto). unfold mn, mp. by rewrite Ho.
  - cbn. by apply list.NoDup_cons.
  - cbn. intros q [->|Hq]%list.elem_of_cons; [by rewrite Ep |]. rewrite E. apply lookup_insert_is_Some'. auto.
  - intros q Hq. destruct (decide (q = p)) as [->|]; [done |]. apply H4. by rewrite <- Ho.
  - cbn. intros q [Hqp Hq]%not_elem_of_cons. unfold mn, mp. rewrite Ho by done. by apply H5.
  - intros q Hq. cbn. rewrite list.elem_of_cons. unfold cap_at. destruct (decide (q = p)) as [->|Hqp]; [rewrite Ep; cbn; tauto |].
    rewrite Ho in * by done. specialize (H6 q Hq). unfold cap_at in H6. tauto.
Qed.

Lemma null_untouched L k p : mdb_ok L k -> is_Some (k_cte k !! p) -> cap_at k p = cap_null_cap -> flags_at k p = (false, false) -> k_cte k !! p = Some null_slot.
Proof.
  intros Hm [e He] Hc Hf. assert (p ∉ concat L) as Hp by (rewrite (mo_caps _ _ Hm p) by eauto; by rewrite Hc).
  destruct (mo_null _ _ Hm p Hp) as [E1 E2]. unfold cap_at, flags_at, mn, mp in *. rewrite He in *. destruct e as [c [nx rv bd pv]]. cbn in *. by simplify_eq.
Qed.

(** A capability copied into an empty slot of the new thread. *)
Lemma cteInsert_boot L k c s d : mdb_ok L k -> is_null (cap_at k s) = false -> k_cte k !! d = Some null_slot -> is_null c = false ->
  isCapRevocable c (cap_at k s) = Some false ->
  wp (cteInsert c s d) (fun _ k' => (exists L', mdb_ok L' k') /\ nocte k' = nocte k /\ (forall q, is_Some (k_cte k' !! q) <-> is_Some (k_cte k !! q)) /\
    (forall q, is_null (cap_at k q) = false -> is_null (cap_at k' q) = false) /\
    (forall q, q <> d -> k_cte k !! q = Some null_slot -> k_cte k' !! q = Some null_slot)) (fun _ => True) k.
Proof.
  intros Hm Hs Hd Hc Hr. assert (is_Some (k_cte k !! s)) as Hss by (unfold cap_at in Hs; by destruct (k_cte k !! s)).
  eapply wp_mono; [apply (cteInsert_ok L k c s d false); try done; unfold cap_at; by rewrite Hd | | done].
  intros _ k' [M1 M2 M3 M4 M5]. split; [by eexists |]. split; [done |]. split; [done |]. split.
  - intros q Hq. rewrite M2. unfold put. repeat case_decide; subst; [done | by rewrite after_copy_null | done].
  - intros q Hqd Hq. assert (q <> s) by (intros ->; unfold cap_at in Hs; by rewrite Hq in Hs). eapply null_untouched; [exact M1 | by rewrite M4, Hq | |].
    + rewrite M2, !put_ne by done. unfold cap_at. by rewrite Hq.
    + rewrite M3, put_ne by done. unfold flags_at. by rewrite Hq.
Qed.

Lemma nocte_threads k k' : nocte k' = nocte k -> threads_of k' = threads_of k.
Proof. intros E. change (threads_of (nocte k') = threads_of (nocte k)). by rewrite E. Qed.

(** ** The root CNode *)
Lemma new_slots_at base n m i : 0 <= base -> base + Z.of_nat n * 32 <= 2 ^ 64 -> 0 <= i < Z.of_nat n -> new_slots base n m !! SLOT_PTR base i = Some null_slot.
Proof.
  unfold SLOT_PTR. change cte_size with 32. revert base i. induction n as [|n IH]; intros base i H0 Hw Hi; [lia |]. cbn [new_slots]. change cte_size with 32.
  destruct (decide (i = 0)) as [->|]; [replace (w64 (base + 0 * 32)) with base by (unfold w64; rewrite Z.mod_small; lia); apply lookup_insert_eq |].
  unfold w64. rewrite !Z.mod_small by lia. rewrite lookup_insert_ne by lia. specialize (IH (base + 32) (i - 1) ltac:(lia) ltac:(lia) ltac:(lia)).
  unfold w64 in IH. rewrite Z.mod_small in IH by lia. by replace (base + 32 + (i - 1) * 32) with (base + i * 32) in IH by lia.
Qed.

(** Before the root CNode exists: the slots there are belong to static objects. *)
Record boot_start_ok (b : boot_t) : Prop := {
  bs_free : freemem_ok (freemem b);
  bs_objs : k_ep (b_k b) = ∅ /\ k_ntfn (b_k b) = ∅;
  bs_tcbs : forall t, is_Some (k_tcb (b_k b) !! t) -> ~ is_free (freemem b) t;
  bs_slots : forall p e, k_cte (b_k b) !! p = Some e -> e = null_slot /\ p <> 0 /\ ~ is_free (freemem b) p;
  bs_cur : slot_pos_cur b = 0 }.

Section Root.
Context `{C : KConfig} `{P : KPlatform} `{B : KBootConfig}.

Definition root_cap (r : Z) : cap := cap_cnode_cap CONFIG_ROOT_CNODE_SIZE_BITS (wordBits - CONFIG_ROOT_CNODE_SIZE_BITS) 0 r.
Lemma wp_create_root_cnode b : 4 <= CONFIG_ROOT_CNODE_SIZE_BITS < 59 -> boot_start_ok b ->
  wp create_root_cnode (fun c b' => is_null c = false -> exists r, c = root_cap r /\ boot_ok 0 r b' /\ unused_null r b' /\ isolated (b_k b') /\
    threads_of (b_k b') = threads_of (b_k b) /\ filled r seL4_CapInitThreadCNode (b_k b')) (fun _ => True) b.
Proof.
  intros Hc [S1 S2 S3 S4 S5]. unfold create_root_cnode. change seL4_SlotBits with 5. set (bits := CONFIG_ROOT_CNODE_SIZE_BITS) in *. wp_step. wp_step.
  set (b0 := set_slot_pos_max (BIT bits) b). assert (2 ^ bits < 2 ^ 59) by (apply Z.pow_lt_mono_r; lia). assert (2 ^ 4 <= 2 ^ bits) by (apply Z.pow_le_mono_r; lia).
  assert (BIT bits = 2 ^ bits) as Eb by (apply BIT_pow; lia). assert (2 ^ (bits + 5) = 2 ^ bits * 32) as E5 by (rewrite Z.pow_add_r by lia; lia).
  destruct (alloc_region_ok b0 (bits + 5) S1 ltac:(lia)) as (p & l' & E & Hl & Hp). wp_step. unfold wp at 1. rewrite E. clear E.
  destruct Hp as [(-> & _) | (Hp & _ & Hin & Hout & _)]; [done |]. rewrite (proj2 (Z.eqb_neq p 0)) by lia.
  assert (p + 2 ^ bits * 32 < 2 ^ 64) as Hw.
  { destruct (Hin (p + 2 ^ bits * 32 - 1)) as (rg & Hr & Hx); [lia |]. destruct S1 as [Hok _]. eapply list.Forall_forall in Hok; [|exact Hr]. destruct Hok as ((? & ?) & ? & ?). unfold inside in Hx. lia. }
  wp_step. apply wp_kern. eapply wp_mono; [apply (memzero_quiet p (bits + 5)); cbn; try apply S2 | | done].
  { intros x Hx Hb. apply (S3 x Hx). by apply Hin. }
  { intros x [e Hx] Hb. destruct (S4 x e Hx) as (_ & _ & Hn). by apply Hn, Hin. }
  intros _ k1 [E1 E2]. cbn [b_k] in E1, E2. change (k_cte k1 = k_cte (b_k b)) in E2.
  set (k2 := upd_k_cte (new_slots p (Z.to_nat (2 ^ bits))) k1). assert (threads_of k2 = threads_of (b_k b)) as Et by exact E1.
  assert (forall i, 0 <= i < 2 ^ bits -> k_cte k2 !! SLOT_PTR p i = Some null_slot) as Hat by (intros i Hi; apply new_slots_at; lia).
  assert (forall q e, k_cte k2 !! q = Some e -> e = null_slot /\ q <> 0 /\ ~ is_free l' q) as Hall.
  { intros q e Hq. cbn in Hq. destruct (new_slots_adds p (Z.to_nat (2 ^ bits)) (k_cte k1) ltac:(lia) ltac:(lia) q) as [Hs|[Hr Hs]]; rewrite Hs in Hq.
    - rewrite E2 in Hq. destruct (S4 q e Hq) as (-> & ? & Hn). split_and!; try done. intros Hf. by apply Hn, Hout.
    - injection Hq as <-. split_and!; [done | lia |]. intros Hf. destruct (Hout q Hf) as [_ Hn]. lia. }
  wp_step. apply wp_kern. wp_step. wp_step. set (b2 := upd_b_k (fun _ => k2) (set_freemem l' b0)). match goal with |- wp _ _ _ ?bb => change bb with b2 end.
  assert (boot_ok 0 p b2) as J2.
  { split; change (b_k b2) with k2; change (freemem b2) with l'.
    - done.
    - by rewrite (threads_ep _ _ Et), (threads_ntfn _ _ Et).
    - rewrite (threads_tcb _ _ Et). intros t Ht Hf. apply (S3 t Ht). by apply Hout in Hf as [? _].
    - intros q [e He]. by destruct (Hall q e He) as [_ Hr].
    - cbn. rewrite Eb. lia.
    - by left. }
  apply (wp_write_source 0 p seL4_CapInitThreadCNode); [by left | done | done | | |].
  - intros i Hi. cbn. apply Hat. destruct Hi as [->|Hi]; [unfold seL4_CapInitThreadTCB; lia |]. cbn in Hi. rewrite Eb in Hi. lia.
  - intros q e He. by destruct (Hall q e He) as [-> _].
  - intros b3 [K1 K2 K3 K4 K5 K6] Hf. wp_steps. intros _. exists p. split; [done |]. split_and!; try done. by rewrite K4.
Qed.
End Root.

(** ** The first two threads *)
Definition with_tcb (th : threads_t) (T : gmap Z tcb_t) : threads_t :=
  mkThreads T (th_ep th) (th_ntfn th) (th_rq th) (th_l1 th) (th_l2 th) (th_cur th) (th_idle th) (th_action th) (th_dom th) (th_time th) (th_idx th).
Definition with_idle (th : threads_t) (t : Z) : threads_t :=
  mkThreads (th_tcb th) (th_ep th) (th_ntfn th) (th_rq th) (th_l1 th) (th_l2 th) (th_cur th) t (th_action th) (th_dom th) (th_time th) (th_idx th).
Definition with_dom (th : threads_t) (d l : Z) : threads_t :=
  mkThreads (th_tcb th) (th_ep th) (th_ntfn th) (th_rq th) (th_l1 th) (th_l2 th) (th_cur th) (th_idle th) (th_action th) d l (th_idx th).

(** A thread's fields are set. *)
Lemma wp_tcb_field k t x th T f (Q : unit -> kstate -> Prop) : t <> 0 -> threads_of k = with_tcb th (<[t := x]> T) ->
  (forall k', threads_of k' = with_tcb th (<[t := f x]> T) -> k_cte k' = k_cte k -> Q tt k') -> wp (tcb_upd t f) Q (fun _ => True) k.
Proof.
  intros Ht E HQ. assert (k_tcb k = <[t := x]> T) as Et by apply (f_equal th_tcb E).
  assert (wp (tcb_upd t f) Q (fun _ => False) k) as H; [|eapply wp_mono; [exact H | done | done]].
  apply (wp_tcb_upd t f k x); [by rewrite Et, lookup_insert_eq | done |].
  apply HQ; [|done]. assert (threads_of (upd_k_tcb (insert t (f x)) k) = with_tcb (threads_of k) (<[t := f x]> (k_tcb k))) as -> by done.
  rewrite E, Et. by rewrite insert_insert_eq.
Qed.
Lemma wp_thread_state `{C : KConfig} k t x th T st (Q : unit -> kstate -> Prop) : t <> 0 -> t <> th_cur th -> threads_of k = with_tcb th (<[t := x]> T) ->
  (forall k', threads_of k' = with_tcb th (<[t := upd_tsType (fun _ => st) x]> T) -> k_cte k' = k_cte k -> Q tt k') -> wp (setThreadState t st) Q (fun _ => True) k.
Proof.
  intros Ht Hc E HQ. unfold setThreadState, scheduleTCB. wp_step. apply (wp_tcb_field k t x th T); [done | done |]. intros k' E' Ec. wp_steps.
  assert (ksCurThread k' = th_cur th) as -> by apply (f_equal th_cur E'). rewrite (proj2 (Z.eqb_neq t (th_cur th))) by done. cbn [andb]. wp_steps. by apply HQ.
Qed.

Section Threads.
Context `{C : KConfig} `{P : KPlatform} `{B : KBootConfig}.

Definition idle_ptr : Z := w64 (ksIdleThreadTCB + TCB_OFFSET).
Definition idle_tcb (x : tcb_t) : tcb_t :=
  upd_tsType (fun _ => ThreadState_IdleThreadState) (upd_tcbRegs (insert ELR_EL1 idleThreadStart) (upd_tcbRegs (insert SPSR_EL1 PSTATE_IDLETHREAD) x)).
Lemma wp_create_idle_thread k x : idle_ptr <> 0 -> idle_ptr <> ksCurThread k -> k_tcb k !! idle_ptr = Some x ->
  wp create_idle_thread (fun ok k' => ok = true /\ threads_of k' = with_idle (with_tcb (threads_of k) (<[idle_ptr := idle_tcb x]> (k_tcb k))) idle_ptr /\ k_cte k' = k_cte k)
    (fun _ => True) k.
Proof.
  intros Hz Hc Hx. unfold create_idle_thread, configureIdleThread, Arch_configureIdleThread, setRegister. fold idle_ptr. wp_step. wp_step.
  set (k1 := upd_ksIdleThread (fun _ => idle_ptr) k). set (th := with_idle (threads_of k) idle_ptr).
  assert (threads_of k1 = with_tcb th (<[idle_ptr := x]> (k_tcb k))) as E1 by (rewrite insert_id by done; done).
  wp_step. wp_step. change (ksIdleThread k1) with idle_ptr. wp_step. wp_step. wp_step. apply (wp_tcb_field k1 idle_ptr x th (k_tcb k)); [done | done |]. intros k2 E2 C2.
  eapply (wp_tcb_field k2 idle_ptr _ th (k_tcb k)); [done | exact E2 |]. intros k3 E3 C3.
  eapply (wp_thread_state k3 idle_ptr _ th (k_tcb k)); [done | done | exact E3 |]. intros k4 E4 C4. wp_steps. split; [done |]. split; [exact E4 |]. by rewrite C4, C3, C2.
Qed.

(** The initial thread, which starts at [entry] with the address of the boot
    information in a register. *)
Definition initial_tcb (entry bi_vptr ipcbuf_vptr : Z) : tcb_t :=
  upd_tsType (fun _ => ThreadState_Running) (upd_tcbMCP (fun _ => seL4_MaxPrio) (upd_tcbPriority (fun _ => seL4_MaxPrio)
    (upd_tcbRegs (insert NEXT_PC_REG entry) (upd_tcbRegs (insert capRegister bi_vptr) (upd_tcbIPCBuffer (fun _ => ipcbuf_vptr) (new_tcb 0)))))).

(** Once the first thread exists: slots are written in the root CNode only. *)
Record late (r : Z) (b : boot_t) : Prop := {
  lt_mdb : exists L, mdb_ok L (b_k b);
  lt_unused : forall i, 12 <= i -> slot_pos_cur b <= i < slot_pos_max b -> k_cte (b_k b) !! SLOT_PTR r i = Some null_slot;
  lt_root : 0 < r /\ 12 <= slot_pos_max b /\ r + slot_pos_max b * 32 <= 2 ^ 64;
  lt_cur : 12 <= slot_pos_cur b }.

Lemma wp_kern_upd {A} (m : M kstate A) (Q : A -> boot_t -> Prop) F k b :
  wp m (fun a k' => Q a (upd_b_k (fun _ => k') b)) F k -> wp (kern m) Q F (upd_b_k (fun _ => k) b).
Proof. intros H. by apply wp_kern. Qed.

(** The slots of a new thread at [p]. *)
Definition thread_slot (p i : Z) : Z := p + i * 32.
Lemma thread_slot_eq p i : 0 < p -> p + 2048 <= 2 ^ 64 -> 0 <= i < 5 -> SLOT_PTR p i = thread_slot p i.
Proof. intros. unfold SLOT_PTR, thread_slot, w64. change cte_size with 32. rewrite Z.mod_small by lia. lia. Qed.
Lemma reply_slot_eq p : 0 < p -> (2048 | p) -> p + 2048 <= 2 ^ 64 -> TCB_PTR_CTE_PTR (p + 1024) tcbReply = thread_slot p 2.
Proof.
  intros H0 [q ->] Hw. unfold TCB_PTR_CTE_PTR, thread_slot. rewrite land_lnot_mask; [| done | unfold is_word; lia].
  change (2 ^ seL4_TCBBits) with 2048. change cte_size with 32. change tcbReply with 2.
  replace (q * 2048 + 1024 - (q * 2048 + 1024) mod 2048) with (q * 2048); [unfold w64; rewrite Z.mod_small; lia |]. lia.
Qed.

(** The state once the slots of the thread are there: [D] are those still empty. *)
Record slots_new (r p : Z) (b : boot_t) (th : threads_t) (D : Z -> Prop) (k : kstate) : Prop := {
  sn_mdb : exists L, mdb_ok L k;
  sn_threads : threads_of k = th;
  sn_filled : forall i, source_slot i -> filled r i k;
  sn_empty : forall i, D i -> k_cte k !! thread_slot p i = Some null_slot;
  sn_unused : forall i, unused b i -> k_cte k !! SLOT_PTR r i = Some null_slot;
  sn_apart : forall i j, unused b i -> 0 <= j < 5 -> SLOT_PTR r i <> thread_slot p j }.

Lemma slots_new_quiet r p b th th' D k k' : slots_new r p b th D k -> threads_of k' = th' -> k_cte k' = k_cte k -> slots_new r p b th' D k'.
Proof.
  intros [[L H1] H2 H3 H4 H5 H6] E Ec. split; try done; unfold filled, cap_at in *; rewrite ?Ec; try done. exists L. by apply (mdb_ok_cte L k).
Qed.
Lemma slots_new_insert r p b th D k s j c (Q : unit -> kstate -> Prop) : slots_new r p b th D k -> source_slot s -> 0 <= j < 5 -> D j -> is_null c = false ->
  (forall src, isCapRevocable c src = Some false) -> (forall k', slots_new r p b th (fun i => D i /\ i <> j) k' -> Q tt k') ->
  wp (cteInsert c (SLOT_PTR r s) (thread_slot p j)) Q (fun _ => True) k.
Proof.
  intros [[L H1] H2 H3 H4 H5 H6] Hs Hj HD Hc Hr HQ. eapply wp_mono; [apply (cteInsert_boot L k c); try done; [by apply H3 | by apply H4] | | done].
  intros [] k' (M1 & M2 & _ & M4 & M5). apply HQ. split; try done.
  - by rewrite (nocte_threads _ _ M2).
  - intros i Hi. by apply M4, H3.
  - intros i [Hi Hij]. apply M5; [unfold thread_slot; lia | by apply H4].
  - intros i Hi. apply M5; [by apply H6 | by apply H5].
Qed.
Lemma slots_new_reply r p b th D k (Q : unit -> kstate -> Prop) : 0 < p -> (2048 | p) -> p + 2048 <= 2 ^ 64 -> slots_new r p b th D k -> D 2 ->
  (forall k', slots_new r p b th (fun i => D i /\ i <> 2) k' -> Q tt k') -> wp (setupReplyMaster (p + 1024)) Q (fun _ => True) k.
Proof.
  intros Hp Hd Hw [[L H1] H2 H3 H4 H5 H6] HD HQ. unfold setupReplyMaster. rewrite reply_slot_eq by done. pose proof (H4 2 HD) as Hs. set (a := thread_slot p 2) in *.
  assert (a <> 0) as Ha by (unfold a, thread_slot; lia). unfold set_cap, set_mdb, cte_upd, cte_get. rewrite (proj2 (Z.eqb_neq a 0)) by done.
  unfold wp, bind, modify. rewrite Hs. cbn [cte_cap null_slot]. change (is_null cap_null_cap) with true. cbv beta iota. rewrite Hs. cbn [k_cte upd_k_cte]. rewrite lookup_insert_eq. cbn [cte_cap].
  set (c := cap_reply_cap true true (p + 1024)). match goal with |- Q tt ?kk => set (k' := kk) end.
  assert (k_cte k' = <[a := mkCte c root_mdb]> (k_cte k)) as Ec by (unfold k'; cbn; by rewrite insert_insert_eq).
  assert (forall q, q <> a -> k_cte k' !! q = k_cte k !! q) as Ho by (intros; rewrite Ec; by apply lookup_insert_ne). apply HQ. split; try done.
  - exists ([a] :: L). by apply (mdb_write L k k' a c).
  - intros i Hi. specialize (H3 i Hi). unfold filled, cap_at in *. destruct (decide (SLOT_PTR r i = a)) as [->|]; [by rewrite Ec, lookup_insert_eq |]. by rewrite Ho.
  - intros i [Hi Hij]. rewrite Ho; [by apply H4 | unfold a, thread_slot; lia].
  - intros i Hi. rewrite Ho; [by apply H5 | by apply H6].
Qed.

(** The fields of the thread, and the reply slot. *)
Lemma wp_initial_fields {A} r p b th T D x k entry bv iv (Q : A -> boot_t -> Prop) (rest : M boot_t A) : 0 < p -> (2048 | p) -> p + 2048 <= 2 ^ 64 -> th_cur th = 0 ->
  slots_new r p b (with_tcb th (<[p + 1024 := x]> T)) D k -> D 2 ->
  (forall k' x', slots_new r p b (with_tcb th (<[p + 1024 := x']> T)) (fun i => D i /\ i <> 2) k' ->
     x' = upd_tsType (fun _ => ThreadState_Running) (upd_tcbMCP (fun _ => seL4_MaxPrio) (upd_tcbPriority (fun _ => seL4_MaxPrio)
       (upd_tcbRegs (insert NEXT_PC_REG entry) (upd_tcbRegs (insert capRegister bv) (upd_tcbIPCBuffer (fun _ => iv) x))))) ->
     wp rest Q (fun _ => True) (upd_b_k (fun _ => k') b)) ->
  wp (do* kern (tcb_upd (p + 1024) (upd_tcbIPCBuffer (fun _ => iv))) in do* kern (Arch_setTCBIPCBuffer (p + 1024) iv) in
      do* kern (setRegister (p + 1024) capRegister bv) in do* kern (setNextPC (p + 1024) entry) in
      do* kern (tcb_upd (p + 1024) (upd_tcbPriority (fun _ => seL4_MaxPrio))) in do* kern (tcb_upd (p + 1024) (upd_tcbMCP (fun _ => seL4_MaxPrio))) in
      do* kern (setupReplyMaster (p + 1024)) in do* kern (setThreadState (p + 1024) ThreadState_Running) in rest) Q (fun _ => True) (upd_b_k (fun _ => k) b).
Proof.
  intros Hp Hd Hw Hc Hn HD HQ. set (t := p + 1024) in *. assert (t <> 0) as Ht by (unfold t; lia).
  assert (forall f A' (m : M boot_t A') Q' x k, slots_new r p b (with_tcb th (<[t := x]> T)) D k ->
    (forall k', slots_new r p b (with_tcb th (<[t := f x]> T)) D k' -> wp m Q' (fun _ => True) (upd_b_k (fun _ => k') b)) ->
    wp (do* kern (tcb_upd t f) in m) Q' (fun _ => True) (upd_b_k (fun _ => k) b)) as Hf.
  { intros f A' m Q' y ky Hy Hk. wp_step. apply wp_kern_upd. apply (wp_tcb_field ky t y th T); [done | apply Hy |]. intros k' E1 E2. apply Hk. by eapply slots_new_quiet. }
  apply (Hf _ _ _ _ x); [done |]. intros k1 H1. wp_step. apply wp_kern_upd. unfold Arch_setTCBIPCBuffer. wp_step.
  unfold setNextPC, setRegister. eapply Hf; [exact H1 |]. intros k2 H2. eapply Hf; [exact H2 |]. intros k3 H3. eapply Hf; [exact H3 |]. intros k4 H4. eapply Hf; [exact H4 |]. intros k5 H5.
  wp_step. apply wp_kern_upd. eapply (slots_new_reply r p b _ D k5); [done | done | done | exact H5 | done |]. intros k6 H6. wp_step. apply wp_kern_upd.
  eapply (wp_thread_state k6 t _ th T); [done | by rewrite Hc | apply H6 |]. intros k7 E7 C7. eapply HQ; [by eapply slots_new_quiet | done].
Qed.

Lemma slots_new_start r p b1 k1 : boot_ok 12 r b1 -> unused_null r b1 -> isolated k1 -> k1 = b_k b1 -> (forall i, source_slot i -> filled r i k1) ->
  0 < p -> p + 2048 <= 2 ^ 64 -> (forall x, in_block p 11 x -> k_cte k1 !! x = None) ->
  slots_new r p b1 (with_tcb (threads_of k1) (<[p + 1024 := new_tcb 0]> (k_tcb k1))) (fun i => 0 <= i < 5)
    (upd_k_cte (new_slots p 5) (upd_k_tcb (insert (p + 1024) (new_tcb 0)) k1)).
Proof.
  intros Hj Hu Hi -> Hf Hp Hw Hno. set (k3 := upd_k_cte _ _). pose proof (new_slots_adds p 5 (k_cte (b_k b1)) ltac:(lia) ltac:(lia)) as Hadd.
  assert (forall q e, k_cte (b_k b1) !! q = Some e -> k_cte k3 !! q = Some e) as Hold.
  { intros q e Hq. destruct (Hadd q) as [E|[Hr E]]; cbn in *; [by rewrite E |]. exfalso. rewrite (Hno q) in Hq; [done | unfold in_block; change (2 ^ 11) with 2048; lia]. }
  assert (forall i, unused b1 i -> k_cte k3 !! SLOT_PTR r i = Some null_slot) as Hun by (intros i Hn; apply Hold; by apply Hu). split.
  - apply isolated_mdb.
    + intros q e Hq. destruct (Hadd q) as [E|[Hr E]]; cbn in *; rewrite E in Hq; [by apply (Hi q) | by injection Hq as <-].
    + intros q [e Hq]. destruct (Hadd q) as [E|[Hr E]]; cbn in *; [|lia]. rewrite E in Hq. apply (bo_slots _ _ _ Hj). by rewrite Hq.
  - done.
  - intros i Hs. specialize (Hf i Hs). unfold filled, cap_at in *. destruct (k_cte (b_k b1) !! SLOT_PTR r i) as [e|] eqn:E; [|done]. by rewrite (Hold _ e E).
  - intros i Hr. rewrite <- thread_slot_eq by (done || lia). apply (new_slots_at p 5); lia.
  - done.
  - intros i j Hn Hjj E. specialize (Hu i Hn). rewrite E, (Hno (thread_slot p j)) in Hu; [done |]. unfold thread_slot, in_block. change (2 ^ 11) with 2048. lia.
Qed.

(** The end of [create_initial_thread]. *)
Lemma slots_new_late r p b th D k c t : boot_ok 12 r b -> slots_new r p b th D k -> is_null c = false ->
  k_cte t = <[SLOT_PTR r seL4_CapInitThreadTCB := mkCte c root_mdb]> (k_cte k) -> SLOT_PTR r seL4_CapInitThreadTCB <> 0 -> late r (upd_b_k (fun _ => t) b).
Proof.
  intros Hj [[L H1] H2 H3 H4 H5 H6] Hc E Hz. pose proof (bo_cur _ _ _ Hj). destruct (bo_root _ _ _ Hj) as (? & ? & ?). split; try (cbn; lia).
  - exists ([SLOT_PTR r seL4_CapInitThreadTCB] :: L). apply (mdb_write L k _ _ c); try done. apply H5. by left.
  - intros i Hi1 Hi2. cbn in *. rewrite E, lookup_insert_ne; [apply H5; right; lia |]. intros Eq. apply (slot_inj 12 r b) in Eq; [|done | unfold seL4_CapInitThreadTCB; lia | lia].
    unfold seL4_CapInitThreadTCB in Eq. lia.
Qed.

Lemma wp_initial_end r p b b1 D k7 x T t : boot_ok 12 r b1 -> threads_of (b_k b1) = threads_of (b_k b) -> slots_new r p b1 (with_tcb (threads_of (b_k b1)) T) D k7 ->
  1 < t -> x = cap_thread_cap t ->
  wp (let* '(domain, length) := cur_dom_entry in do* kern (modify (upd_ksCurDomain (fun _ => domain))) in do* kern (modify (upd_ksDomainTime (fun _ => length))) in
      do* assert_ ((domain <? CONFIG_NUM_DOMAINS) && (0 <? length)) in do* write_slot (SLOT_PTR r seL4_CapInitThreadTCB) x in ret t)
    (fun t' b' => t' = t /\ late r b' /\ exists d l, ksDomSchedule !! Z.to_nat (ksDomScheduleIdx (b_k b)) = Some (d, l) /\ d < CONFIG_NUM_DOMAINS /\
      threads_of (b_k b') = with_dom (with_tcb (threads_of (b_k b)) T) d l) (fun _ => True) (upd_b_k (fun _ => k7) b1).
Proof.
  intros Hj Eth H7 Ht ->. unfold cur_dom_entry. wp_step. apply wp_kern_upd. wp_step. wp_step. wp_step.
  assert (ksDomScheduleIdx k7 = ksDomScheduleIdx (b_k b)) as -> by (etransitivity; [apply (f_equal th_idx (sn_threads _ _ _ _ _ _ H7)) | apply (f_equal th_idx Eth)]).
  destruct (ksDomSchedule !! _) as [[d l]|] eqn:Ed; [|done]. wp_step. apply wp_kern_upd. wp_step. wp_step. apply wp_kern_upd. wp_step. wp_step.
  set (k8 := upd_ksDomainTime _ _). assert (threads_of k8 = with_dom (with_tcb (threads_of (b_k b)) T) d l) as E8.
  { rewrite <- Eth, <- (sn_threads _ _ _ _ _ _ H7). done. }
  pose proof (slots_new_quiet _ _ _ _ _ _ _ k8 H7 E8 eq_refl) as H8. destruct (Z.ltb_spec d CONFIG_NUM_DOMAINS) as [Hd|]; [|done]. destruct (0 <? l); [|done]. cbn [andb assert_].
  wp_steps. apply wp_write_slot. intros k9 _ Hz E9 C9 _. wp_steps. cbn [b_k upd_b_k] in *. split; [done |]. split.
  - exact (slots_new_late r p b1 _ D k8 (cap_thread_cap t) k9 Hj H8 eq_refl C9 Hz).
  - exists d, l. split_and!; try done. by rewrite E9.
Qed.

Lemma wp_create_initial_thread r b pd q entry bv iv : boot_ok 12 r b -> unused_null r b -> isolated (b_k b) -> (forall i, source_slot i -> filled r i (b_k b)) ->
  ksCurThread (b_k b) = 0 ->
  wp (create_initial_thread (root_cap r) (cap_page_global_directory_cap IT_ASID pd true) entry bv iv (create_it_frame_cap q iv IT_ASID false)) (fun t b' => t <> 0 ->
    late r b' /\ 1 < t /\ k_tcb (b_k b) !! t = None /\ exists d l, ksDomSchedule !! Z.to_nat (ksDomScheduleIdx (b_k b)) = Some (d, l) /\ d < CONFIG_NUM_DOMAINS /\
    threads_of (b_k b') = with_dom (with_tcb (threads_of (b_k b)) (<[t := initial_tcb entry bv iv]> (k_tcb (b_k b)))) d l) (fun _ => True) b.
Proof.
  intros Hj Hu Hi Hf Hcur. unfold create_initial_thread. change (cap_get_capPtr (root_cap r)) with r.
  apply (wp_taken 12 r _ b (fun p => memzero p _)); try done; [apply zeroes_memzero |]. change seL4_TCBBits with 11. intros p b1 K1 Ec Hp Hd Hw Hblk.
  change (2 ^ 11) with 2048 in *. assert (w64 (p + TCB_OFFSET) = p + 1024) as Et by (change TCB_OFFSET with 1024; unfold w64; rewrite Z.mod_small; lia). rewrite Et.
  pose proof (kp_threads _ _ _ _ K1) as Eth. pose proof (threads_tcb _ _ Eth) as Etc.
  assert (k_tcb (b_k b) !! (p + 1024) = None) as Hfresh.
  { destruct (k_tcb (b_k b) !! (p + 1024)) eqn:E; [|done]. exfalso. apply (bo_tcbs _ _ _ Hj (p + 1024)); [by rewrite E |]. apply Hblk. unfold in_block. change (2 ^ 11) with 2048. lia. }
  assert (forall x, in_block p 11 x -> k_cte (b_k b1) !! x = None) as Hno.
  { intros x Hx. rewrite Ec. destruct (k_cte (b_k b) !! x) eqn:E; [|done]. exfalso. apply (bo_slots _ _ _ Hj x); [by rewrite E |]. by apply Hblk. }
  pose proof (slots_new_start r p b1 (b_k b1) (kp_ok _ _ _ _ K1) (kp_unused _ _ _ _ K1) (kp_isolated _ _ _ _ K1) eq_refl
    (fun i Hs => kp_filled _ _ _ _ K1 i Hs (Hf i Hs)) Hp Hw Hno) as Hs0.
  wp_step. apply wp_kern. wp_step. wp_step. apply wp_kern_upd. wp_step. set (k3 := upd_k_cte _ _) in *. change (Z.to_nat tcbArchCNodeEntries) with 5%nat in *.
  wp_step. apply wp_kern_upd. eapply wp_mono; [apply quiet_deriveCap_frame | | done]. intros [st bc] k' [[= -> ->] ->]. rewrite bool_decide_true by done. cbn [negb].
  set (th := with_tcb _ _) in Hs0. rewrite (thread_slot_eq p tcbCTable), (thread_slot_eq p tcbVTable), (thread_slot_eq p tcbBuffer) by (done || (cbv; split; congruence)).
  wp_step. apply wp_kern_upd. eapply (slots_new_insert r p b1 th _ k3); [exact Hs0 | by left | cbv; split; congruence | cbv; split; congruence | done | done |]. intros k4 H4.
  wp_step. apply wp_kern_upd. eapply (slots_new_insert r p b1 th _ k4); [exact H4 | right; by left | cbv; split; congruence | cbv; split; [split|]; congruence | done | done |]. intros k5 H5.
  wp_step. apply wp_kern_upd. eapply (slots_new_insert r p b1 th _ k5); [exact H5 | right; by right | cbv; split; congruence | cbv; split_and!; congruence | done | done |]. intros k6 H6.
  eapply (wp_initial_fields r p b1 (threads_of (b_k b1)) _ _ _ k6 entry bv iv); [done | done | done | by rewrite Eth | exact H6 | cbv; split_and!; congruence |].
  intros k7 x' H7 Ex. eapply wp_mono; [apply (wp_initial_end r p b b1 _ k7 _ _ (p + 1024) (kp_ok _ _ _ _ K1) Eth H7); [lia | done] | | done].
  intros t b' (-> & Hl & d & l & Hd1 & Hd2 & Hth). intros _. split; [done |]. split; [lia |]. split; [done |]. exists d, l. split_and!; try done. by rewrite Hth, Ex, Etc.
Qed.
End Threads.
