(* ===== verification/KBootRun.v ===== *)
(** * From boot to the first thread

    Untyped memory is given out last; then the scheduler takes over.  The invariants
    that the theorems about the running kernel start from hold at that point. *)

From S2P Require Import Prelude Dll KCaps KState KSched KSchedInv KSchedThms KSchedSteps KCspace KMdb KMsg KVspace KIpc KDelete KIpcInv KIpcThms KUntyped KInvoke KInterrupt KTcb KMdbThms KRetypeThms KBootMem KBootThms KBootUntyped KBootFree KBootVspace KBoot KBootInit KBootStart.

(** ** Giving out untyped memory *)
Definition lasting {A} (r : Z) (m : M boot_t A) : Prop := forall b, late r b ->
  wp m (fun _ b' => late r b' /\ threads_of (b_k b') = threads_of (b_k b)) (fun _ => True) b.

Lemma lasting_bind {A B} r (m : M boot_t A) (f : A -> M boot_t B) : lasting r m -> (forall a, lasting r (f a)) -> lasting r (bind m f).
Proof.
  intros Hm Hf b Hl. wp_step. eapply wp_mono; [by apply Hm | | done]. intros a b1 [H1 E1]. eapply wp_mono; [by apply Hf | | done]. intros ? b2 [H2 E2]. split; [done | by rewrite E2].
Qed.
Lemma lasting_ret {A} r (a : A) : lasting r (ret a).
Proof. intros b Hl. by wp_steps. Qed.
Lemma lasting_fail {A} r f : lasting r (@fail boot_t A f).
Proof. intros b Hl. by wp_steps. Qed.
Lemma lasting_assert r c : lasting r (assert_ c).
Proof. destruct c; [apply lasting_ret | apply lasting_fail]. Qed.
Lemma lasting_of_option {A} r f (o : option A) : lasting r (of_option f o).
Proof. destruct o; [apply lasting_ret | apply lasting_fail]. Qed.
Lemma lasting_gets {A} r (f : boot_t -> A) : lasting r (gets f).
Proof. intros b Hl. by wp_steps. Qed.
Lemma lasting_bi r f : lasting r (modify (upd_bi f)).
Proof. intros b [H1 H2 H3 H4]. wp_steps. split; [by split | done]. Qed.
Lemma lasting_freemem r l : lasting r (modify (set_freemem l)).
Proof. intros b [H1 H2 H3 H4]. wp_steps. split; [by split | done]. Qed.
Lemma lasting_event r e : lasting r (kern (event e)).
Proof. intros b [[L H1] H2 H3 H4]. apply wp_kern. unfold event. wp_steps. split; [|done]. split; try done. exists L. by apply (mdb_ok_cte L (b_k b)). Qed.

Lemma lasting_provide_cap r root c : cap_get_capPtr root = r -> is_null c = false -> lasting r (provide_cap root c).
Proof.
  intros <- Hc b [[L H1] H2 H3 H4]. set (r := cap_get_capPtr root) in *. unfold provide_cap, id. wp_steps.
  destruct (Z.geb_spec (slot_pos_cur b) (slot_pos_max b)) as [?|Hlt]; wp_steps; [split; [split; eauto | done] |].
  apply wp_write_slot. intros k _ Hz E Ec _. wp_steps. split; [|done].
  assert (w64 (slot_pos_cur b + 1) = slot_pos_cur b + 1) as Ew by (unfold w64; rewrite Z.mod_small; lia).
  split; cbn; rewrite ?Ew; try lia.
  - eexists. apply (mdb_write L (b_k b) k (SLOT_PTR r (slot_pos_cur b)) c); try done. apply H2; lia.
  - intros i Hi1 Hi2. rewrite Ec, lookup_insert_ne; [apply H2; lia |]. unfold SLOT_PTR, w64. change cte_size with 32. rewrite !Z.mod_small by lia. lia.
Qed.

Create HintDb lasting.
#[export] Hint Resolve lasting_ret lasting_fail lasting_assert lasting_of_option lasting_gets lasting_bi lasting_freemem lasting_event : lasting.
Ltac lastings :=
  repeat first
    [ solve [eauto with lasting]
    | progress (cbv beta iota zeta)
    | apply lasting_bind; [| intros ?]
    | match goal with |- lasting _ (match ?x with _ => _ end) => destruct x end ].

Section Late.
Context `{C : KConfig} `{P : KPlatform} `{B : KBootConfig}.
Context (r : Z) (root : cap) (Hroot : cap_get_capPtr root = r).

Lemma lasting_untyped dev p s f : lasting r (provide_untyped_cap root dev p s f).
Proof.
  unfold provide_untyped_cap. apply lasting_bind; [apply lasting_gets | intros cur]. cbv zeta. destruct (_ <? _); [|apply lasting_ret].
  apply lasting_bind; [apply lasting_bi | intros _]. by apply lasting_provide_cap.
Qed.
#[local] Hint Resolve lasting_untyped : lasting.
Lemma lasting_untypeds_loop dev f fuel : forall reg, lasting r (untypeds_loop fuel root dev reg f).
Proof. induction fuel as [|fuel IH]; intros reg; cbn [untypeds_loop]; [apply lasting_fail | lastings]. Qed.
Lemma lasting_for_region dev reg f : lasting r (create_untypeds_for_region root dev reg f).
Proof. apply lasting_untypeds_loop. Qed.
#[local] Hint Resolve lasting_for_region : lasting.
Lemma lasting_kernel_loop f n : forall i, lasting r (kernel_untypeds_loop root f i n).
Proof. induction n as [|n IH]; intros i; cbn [kernel_untypeds_loop]; lastings. Qed.
Lemma lasting_device_loop f l : forall pos, lasting r (device_untypeds_loop root f pos l).
Proof. induction l as [|x l IH]; intros pos; cbn [device_untypeds_loop]; lastings. Qed.
#[local] Hint Resolve lasting_kernel_loop lasting_device_loop : lasting.
Lemma lasting_finish_boot : lasting r (finish_boot root).
Proof. unfold finish_boot, create_untypeds, create_kernel_untypeds, bi_finalise. lastings. Qed.
End Late.

(** ** The invariants *)

(** All fields are zero. *)
Definition zero_tcb : tcb_t :=
  mkTcb ∅ ThreadState_Inactive false 0 0 false false false 0 seL4_Fault_NullFault lookup_fault_invalid_root 0 0 0 0 0 0 0 0 0 0.

Section Start.
Context `{C : KConfig} `{P : KPlatform} `{B : KBootConfig}.

(** The kernel's data before it boots: zero, with the idle thread and the static
    slots, which lie in the kernel's image. *)
Record zeroed (k : kstate) : Prop := {
  ze_tcb : k_tcb k = {[idle_ptr := zero_tcb]};
  ze_cte : forall p e, k_cte k !! p = Some e -> e = null_slot /\ kernelBase <= p < ki_end;
  ze_objs : k_ep k = ∅ /\ k_ntfn k = ∅;
  ze_ready : ksReadyQueues k = ∅ /\ ksReadyQueuesL1Bitmap k = ∅ /\ ksReadyQueuesL2Bitmap k = ∅;
  ze_vars : ksCurThread k = 0 /\ ksSchedulerAction k = 0 /\ ksDomScheduleIdx k = 0 }.

(** What the code relies on in a build and a layout. *)
Record boot_config_ok (ly : layout) : Prop := {
  bc_phys : 0 <= physBase < 2 ^ 39;
  bc_window : Forall in_window avail_p_regs;
  bc_idle : kernelBase <= idle_ptr < ki_end;
  bc_root : 4 <= CONFIG_ROOT_CNODE_SIZE_BITS < 59;
  bc_regs : start (ly_dtb_reg ly) <= end_ (ly_dtb_reg ly) /\ start (ly_ui_reg ly) <= end_ (ly_ui_reg ly);
  bc_one : one_each (map window_reg avail_p_regs) [mkReg kernelBase ki_end; ly_dtb_reg ly; ly_ui_reg ly];
  bc_extra : 0 <= ly_extra_bi_size ly < 2 ^ 62;
  bc_domain : exists l, ksDomSchedule !! 0%nat = Some (0, l) }.

Lemma wp_arch_init_freemem ly b : boot_config_ok ly -> zeroed (b_k b) -> slot_pos_cur b = 0 ->
  wp (arch_init_freemem (ly_ui_reg ly) (ly_dtb_reg ly)) (fun _ b' => boot_start_ok b' /\ b_k b' = b_k b) (fun _ => True) b.
Proof.
  intros [B1 B2 B3 B4 B5 B6 B7 B8] [Z1 Z2 Z3 Z4 Z5] Hcur. unfold arch_init_freemem. set (res := [_; _; _]) in *.
  destruct (ordered false res) eqn:Eo; [| unfold init_freemem, wp, bind; by rewrite Eo].
  destruct (ordered true avail_p_regs) eqn:Ea; cycle 1.
  { unfold init_freemem, wp, bind. rewrite Eo, Ea. cbn [assert_ ret]. by destruct (_ <? _). }
  destruct (decide (avail_p_regs = [])) as [En|En].
  { unfold init_freemem, wp, bind. rewrite Eo, En. done. }
  assert (Forall (fun r => start r <= end_ r) res) as Hr by (unfold res; repeat first [by apply list.Forall_nil | apply list.Forall_cons; split]; cbn; lia).
  destruct (init_freemem_ok avail_p_regs res b B1 En B2 Ea Hr Eo B6) as (l' & E & Hok & Hf & _). unfold wp. rewrite E. split; [|done].
  assert (forall x, kernelBase <= x < ki_end -> ~ is_free l' x) as Hk.
  { intros x Hx Hx'. apply Hf in Hx' as [_ Hn]. apply Hn. exists (mkReg kernelBase ki_end). split; [exact (list_elem_of_lookup_2 res 0 _ eq_refl) | done]. }
  split; cbn; try done.
  - intros t. rewrite Z1. rewrite lookup_singleton_is_Some. intros <-. by apply Hk.
  - intros p e He. destruct (Z2 p e He) as [-> Hp]. split_and!; [done | unfold kernelBase in Hp; lia | by apply Hk].
Qed.

(** The scheduler's state before and after the first threads are there. *)
Definition fresh_threads (th : threads_t) : Prop := exists i d l, th = mkThreads {[idle_ptr := zero_tcb]} ∅ ∅ ∅ ∅ ∅ 0 i 0 d l 0.
Definition with_core (th : threads_t) (cur action : Z) : threads_t :=
  mkThreads (th_tcb th) (th_ep th) (th_ntfn th) (th_rq th) (th_l1 th) (th_l2 th) cur (th_idle th) action (th_dom th) (th_time th) (th_idx th).
Definition started (ly : layout) (entry t : Z) (k : kstate) : Prop := 1 < t /\ t <> idle_ptr /\ exists d l, ksDomSchedule !! 0%nat = Some (d, l) /\
  threads_of k = mkThreads (<[t := initial_tcb entry (ly_bi_frame_vptr ly) (ly_ipcbuf_vptr ly)]> {[idle_ptr := idle_tcb zero_tcb]}) ∅ ∅ ∅ ∅ ∅ idle_ptr idle_ptr t d l 0.

Lemma zeroed_fresh k : zeroed k -> fresh_threads (threads_of k).
Proof.
  intros [Z1 _ [Z3 Z4] (Z5 & Z6 & Z7) (Z8 & Z9 & Z10)]. unfold threads_of. exists (ksIdleThread k), (ksCurDomain k), (ksDomainTime k). by rewrite Z1, Z3, Z4, Z5, Z6, Z7, Z8, Z9, Z10.
Qed.

(** A thread that is there changes. *)
Lemma boot_ok_tcb n r b k : boot_ok n r b -> k_cte k = k_cte (b_k b) -> k_ep k = k_ep (b_k b) -> k_ntfn k = k_ntfn (b_k b) ->
  (forall t, is_Some (k_tcb k !! t) -> is_Some (k_tcb (b_k b) !! t)) -> boot_ok n r (upd_b_k (fun _ => k) b).
Proof. intros [H1 H2 H3 H4 H5 H6] Ec Ee En Ht. split; cbn; rewrite ?Ec, ?Ee, ?En; auto. Qed.

(** From the ASID pool on. *)
Lemma wp_start_threads ly entry r pd q ap b : kernelBase <= idle_ptr -> boot_ok 12 r b -> unused_null r b -> isolated (b_k b) -> (forall i, source_slot i -> filled r i (b_k b)) ->
  fresh_threads (threads_of (b_k b)) ->
  wp (do* kern (write_it_asid_pool ap (cap_page_global_directory_cap IT_ASID pd true)) in
      let* ok := kern create_idle_thread in
      if negb ok then ret false
      else
        do* kern (event cleanInvalidateL1Caches) in
        let* initial := create_initial_thread (root_cap r) (cap_page_global_directory_cap IT_ASID pd true) entry (ly_bi_frame_vptr ly) (ly_ipcbuf_vptr ly)
                          (create_it_frame_cap q (ly_ipcbuf_vptr ly) IT_ASID false) in
        if initial =? 0 then ret false else do* kern (init_core_state initial) in ret true)
    (fun ok b' => ok = true -> late r b' /\ exists t, started ly entry t (b_k b')) (fun _ => True) b.
Proof.
  intros Hid Hj Hu Hi Hf (i0 & d0 & l0 & Hth). assert (idle_ptr <> 0) as Hz by (unfold kernelBase in Hid; lia).
  wp_step. eapply wp_mono; [apply (steady_kern 12 r _ (quiet_write_it_asid_pool ap _)); done | | done]. intros [] b1 K1. rewrite <- (kp_threads _ _ _ _ K1) in Hth.
  wp_step. apply wp_kern. eapply wp_mono; [apply (wp_create_idle_thread (b_k b1) zero_tcb); [done | | ] | | done].
  { assert (ksCurThread (b_k b1) = 0) as -> by apply (f_equal th_cur Hth). done. }
  { assert (k_tcb (b_k b1) = {[idle_ptr := zero_tcb]}) as -> by apply (f_equal th_tcb Hth). apply lookup_singleton_eq. }
  intros ok k2 (-> & E2 & C2). cbn [negb]. set (b2 := upd_b_k (fun _ => k2) b1).
  assert (threads_of k2 = mkThreads {[idle_ptr := idle_tcb zero_tcb]} ∅ ∅ ∅ ∅ ∅ 0 idle_ptr 0 d0 l0 0) as Hth2.
  { rewrite E2. assert (k_tcb (b_k b1) = {[idle_ptr := zero_tcb]}) as -> by apply (f_equal th_tcb Hth). rewrite Hth. unfold with_idle, with_tcb. cbn. by rewrite insert_singleton_eq. }
  assert (boot_ok 12 r b2) as J2.
  { apply boot_ok_tcb; [apply K1 | done | exact (eq_trans (f_equal th_ep Hth2) (eq_sym (f_equal th_ep Hth))) | exact (eq_trans (f_equal th_ntfn Hth2) (eq_sym (f_equal th_ntfn Hth))) |].
    intros t. assert (k_tcb k2 = {[idle_ptr := idle_tcb zero_tcb]}) as -> by apply (f_equal th_tcb Hth2). assert (k_tcb (b_k b1) = {[idle_ptr := zero_tcb]}) as -> by apply (f_equal th_tcb Hth). by rewrite !lookup_singleton_is_Some. }
  assert (unused_null r b2) as U2 by (intros i Hn; cbn; rewrite C2; by apply (kp_unused _ _ _ _ K1)).
  assert (isolated (b_k b2)) as I2 by (intros p e; cbn; rewrite C2; by apply (kp_isolated _ _ _ _ K1)).
  wp_step. eapply wp_mono; [apply (steady_kern 12 r _ (quiet_event cleanInvalidateL1Caches)); done | | done]. intros [] b3 K3. assert (threads_of (b_k b3) = _) as Hth3 by (rewrite (kp_threads _ _ _ _ K3); exact Hth2).
  wp_step. eapply wp_mono; [apply (wp_create_initial_thread r b3 pd q); [apply K3 | apply K3 | apply K3 | | apply (f_equal th_cur Hth3)] | | done].
  { intros i Hs. apply (kp_filled _ _ _ _ K3); [done |]. unfold filled, cap_at. cbn. rewrite C2. apply (kp_filled _ _ _ _ K1); auto. }
  intros t b4 H4. destruct (Z.eqb_spec t 0) as [->|Ht]; wp_step; [done |]. destruct (H4 Ht) as (L4 & Ht1 & Hfr & d & l & Hd & _ & Hth4). clear H4.
  assert (ksDomScheduleIdx (b_k b3) = 0) as E0 by apply (f_equal th_idx Hth3). rewrite E0 in Hd. assert (k_tcb (b_k b3) = {[idle_ptr := idle_tcb zero_tcb]}) as Et3 by apply (f_equal th_tcb Hth3).
  apply wp_kern. unfold init_core_state. wp_steps. intros _. split.
  - destruct L4 as [[L M] H2 H3 H5]. split; try done. exists L. by apply (mdb_ok_cte L (b_k b4)).
  - exists t. split; [done |]. split; [intros ->; by rewrite Et3, lookup_singleton_eq in Hfr |]. exists d, l. split; [done |].
    assert (ksIdleThread (b_k b4) = idle_ptr) as Ei by (etransitivity; [apply (f_equal th_idle Hth4) | apply (f_equal th_idle Hth3)]).
    match goal with |- threads_of ?kk = _ => assert (threads_of kk = with_core (threads_of (b_k b4)) (ksIdleThread (b_k b4)) t) as -> by done end.
    by rewrite Ei, Hth4, Hth3, Et3.
Qed.

Lemma wp_init_threads ly pv entry bip reg r pd b : kernelBase <= idle_ptr -> boot_ok 12 r b -> unused_null r b -> isolated (b_k b) ->
  filled r seL4_CapInitThreadCNode (b_k b) -> filled r seL4_CapInitThreadVSpace (b_k b) -> fresh_threads (threads_of (b_k b)) ->
  wp (init_threads ly pv entry bip reg (root_cap r) (cap_page_global_directory_cap IT_ASID pd true))
    (fun ok b' => ok = true -> late r b' /\ exists t, started ly entry t (b_k b')) (fun _ => True) b.
Proof.
  intros Hid Hj Hu Hi F2 F3 Hth. unfold init_threads. pose proof (kept_refl 12 r b Hj Hu Hi) as K0.
  apply (wp_steady_bind 12 r b b); [by apply steady_create_bi_frame_cap | done |]. intros _ b1 K1 _.
  apply (wp_steady_bind 12 r b b1); [by apply steady_extra_frames | done |]. intros [|] b2 K2 _; cbn [negb]; [|by wp_steps].
  wp_step. eapply wp_mono; [apply (wp_ipcbuf r); [done | apply K2..] | | done]. intros ipc b3 [K3 Hipc]. destruct (is_null ipc); [by wp_steps |]. destruct (Hipc eq_refl) as [[q ->] F10].
  pose proof (kept_trans _ _ _ _ _ K2 K3) as K23.
  apply (wp_steady_bind 12 r b b3); [by apply steady_create_frames | done |]. intros [region [|]] b4 K4 L4; cbn [negb]; [|by wp_steps].
  apply (wp_steady_bind 12 r b b4); [apply steady_upd_bi | done |]. intros _ b5 K5 L5.
  apply (wp_steady_bind 12 r b b5); [by apply steady_create_it_asid_pool | done |]. intros ap b6 K6 L6. destruct (is_null ap); [by wp_steps |].
  apply wp_start_threads; [done | apply K6 | apply K6 | apply K6 | | by rewrite (kp_threads _ _ _ _ K6)].
  intros i [-> | [-> | ->]]; [by apply (kp_filled _ _ _ _ K6); [left |] | by apply (kp_filled _ _ _ _ K6); [right; left |] |].
  assert (source_slot seL4_CapInitThreadIPCBuffer) as Hs by (right; by right). apply (kp_filled _ _ _ _ L6); [done |]. apply (kp_filled _ _ _ _ L5); [done |]. by apply (kp_filled _ _ _ _ L4).
Qed.

(** When the kernel is set up, the mapping database is well formed and the first
    thread is about to run. *)
Lemma wp_init_objects ly pv entry b : boot_config_ok ly -> zeroed (b_k b) -> slot_pos_cur b = 0 ->
  wp (init_objects ly pv entry) (fun ok b' => ok = true -> (exists L, mdb_ok L (b_k b')) /\ exists t, started ly entry t (b_k b')) (fun _ => True) b.
Proof.
  intros HB HZ Hcur. pose proof HB as [B1 B2 [B3 _] B4 B5 B6 B7 B8]. unfold init_objects. wp_step.
  eapply wp_mono; [by apply wp_arch_init_freemem | | done]. intros _ b1 [S1 E1]. wp_step. eapply wp_mono; [by apply wp_create_root_cnode | | done].
  intros root b2 H2. destruct (is_null root) eqn:En; [by wp_steps |]. destruct (H2 En) as (r & -> & J2 & U2 & I2 & E2 & F2). clear H2.
  pose proof (kept_refl 0 r b2 J2 U2 I2) as K2. apply (wp_steady_bind 0 r b2 b2); [by apply steady_create_domain_cap | done |]. intros _ b3 K3 _.
  apply (wp_steady_bind 0 r b2 b3); [by apply steady_init_irqs | done |]. intros _ b4 K4 _.
  wp_step. eapply wp_mono; [apply (wp_allocate_bi_frame r); apply K4 | | done]. intros bip b5 H5. destruct (Z.eqb_spec bip 0) as [|Hbi]; [by wp_steps |].
  destruct H5 as [|(J5 & U5 & I5 & E5 & _ & F5)]; [done |]. pose proof (kept_refl 12 r b5 J5 U5 I5) as K5.
  apply (wp_steady_bind 12 r b5 b5); [by apply steady_extra_region | done |]. intros reg b6 K6 _. destruct (_ =? 0); [by wp_steps |]. cbv zeta. destruct (_ >? _); [by wp_steps |].
  apply (wp_steady_bind 12 r b5 b6); [apply steady_kern; auto with quiet | done |]. intros _ b7 K7 _. apply (wp_steady_bind 12 r b5 b7); [apply steady_upd_bi | done |]. intros _ b8 K8 _.
  wp_step. eapply wp_mono; [apply (wp_address_space r); [done | apply K8..] | | done]. intros pd b9 [K9 Hpd]. destruct (is_null pd); [by wp_steps |]. destruct (Hpd eq_refl) as [[p ->] F9].
  pose proof (kept_trans _ _ _ _ _ K8 K9) as K59. wp_step. eapply wp_mono; [apply (wp_init_threads ly pv entry bip reg r p b9); [done | apply K59 | apply K59 | apply K59 | | done |] | | done].
  - apply (kp_filled _ _ _ _ K59); [by left |]. apply F5; [by left |]. apply (kp_filled _ _ _ _ K4); [by left | done].
  - rewrite (kp_threads _ _ _ _ K59), E5, (kp_threads _ _ _ _ K4), E2, E1. by apply zeroed_fresh.
  - intros [|] b10 H10; cbn [negb]; [|by wp_steps]. destruct (H10 eq_refl) as [L10 [t Ht]]. eapply wp_mono; [by apply (lasting_finish_boot r) | | done].
    intros ok b11 [L11 E11] _. split; [apply L11 |]. exists t. unfold started. by rewrite E11.
Qed.

(** ** The first thread runs *)
Definition two_threads (ly : layout) (entry t : Z) : gmap Z tcb_t :=
  <[t := initial_tcb entry (ly_bi_frame_vptr ly) (ly_ipcbuf_vptr ly)]> {[idle_ptr := idle_tcb zero_tcb]}.
Lemma two_threads_inv ly entry t y x : two_threads ly entry t !! y = Some x ->
  (y = t /\ x = initial_tcb entry (ly_bi_frame_vptr ly) (ly_ipcbuf_vptr ly)) \/ (y <> t /\ y = idle_ptr /\ x = idle_tcb zero_tcb).
Proof. unfold two_threads. intros [[<- <-]|[? [<- <-]%lookup_singleton_Some]]%lookup_insert_Some; auto. Qed.

Record two_running (ly : layout) (entry t cur action : Z) (k : kstate) : Prop := {
  tr_threads : exists l, threads_of k = mkThreads (two_threads ly entry t) ∅ ∅ ∅ ∅ ∅ cur idle_ptr action 0 l 0;
  tr_t : 1 < t /\ t <> idle_ptr /\ 1 < idle_ptr;
  tr_cur : (cur = idle_ptr /\ action = t) \/ (cur = t /\ action = 0) }.

Lemma two_queues ly entry t cur action k : config_ok -> two_running ly entry t cur action k -> queues_ok (fun _ _ => []) k.
Proof.
  intros Hc [[l E] (H1 & H2 & H3) _]. assert (k_tcb k = two_threads ly entry t) as Et by apply (f_equal th_tcb E).
  assert (ksReadyQueues k = ∅) as Er by apply (f_equal th_rq E). assert (ksReadyQueuesL1Bitmap k = ∅) as E1 by apply (f_equal th_l1 E). assert (ksReadyQueuesL2Bitmap k = ∅) as E2 by apply (f_equal th_l2 E).
  split.
  - intros d p _ _. unfold rq. rewrite Er, lookup_empty. apply dll_nil.
  - intros d p y _ _ Hy. by apply not_elem_of_nil in Hy.
  - intros y x. rewrite Et. intros [[-> ->]|(_ & -> & ->)]%two_threads_inv; done.
  - intros y x. rewrite Et. destruct Hc as [Hd _ _ _]. intros [[-> ->]|(_ & -> & ->)]%two_threads_inv; (split; [done |]; unfold dom_ok, prio_ok; cbn; unfold seL4_MaxPrio, CONFIG_NUM_PRIORITIES; lia).
  - intros d _. unfold l1. rewrite E1, lookup_empty. cbn. split.
    + intros i _. unfold l2. rewrite E2, lookup_empty. cbn. by rewrite Z.testbit_0_l, andb_false_r.
    + unfold is_word. lia.
    + intros i _. unfold l2. rewrite E2, lookup_empty. cbn. unfold is_word. lia.
    + intros p _. unfold l2. rewrite E2, lookup_empty. cbn. by rewrite Z.testbit_0_l.
Qed.

Lemma two_sched ly entry t cur action k : config_ok -> two_running ly entry t cur action k -> sched_ok k.
Proof.
  intros Hc H. pose proof (two_queues ly entry t cur action k Hc H) as HQ. destruct H as [[l E] (H1 & H2 & H3) Hca].
  assert (k_tcb k = two_threads ly entry t) as Et by apply (f_equal th_tcb E). assert (ksCurThread k = cur) as Ec by apply (f_equal th_cur E).
  assert (ksIdleThread k = idle_ptr) as Ei by apply (f_equal th_idle E). assert (ksSchedulerAction k = action) as Ea by apply (f_equal th_action E).
  assert (ksCurDomain k = 0) as Ed by apply (f_equal th_dom E). assert (ksDomScheduleIdx k = 0) as Ex by apply (f_equal th_idx E).
  assert (k_tcb k !! t = Some (initial_tcb entry (ly_bi_frame_vptr ly) (ly_ipcbuf_vptr ly))) as Ht by (rewrite Et; apply lookup_insert_eq).
  assert (k_tcb k !! idle_ptr = Some (idle_tcb zero_tcb)) as Hi by (rewrite Et; unfold two_threads; rewrite lookup_insert_ne by done; apply lookup_singleton_eq).
  assert (forall y, queued k y = false) as Hq.
  { intros y. unfold queued. destruct (k_tcb k !! y) as [x|] eqn:Ey; [|done]. rewrite Et in Ey. apply two_threads_inv in Ey as [[-> ->]|(_ & -> & ->)]; done. }
  assert (forall y, runnable k y = true <-> y = t) as Hr.
  { intros y. unfold runnable. split; [|intros ->; by rewrite Ht]. destruct (k_tcb k !! y) as [x|] eqn:Ey; [|done]. rewrite Et in Ey. apply two_threads_inv in Ey as [[-> ->]|(_ & -> & ->)]; done. }
  assert (domain k t = 0) as Dt by (unfold domain; by rewrite Ht). destruct Hc as [Hd1 _ Hd2 _].
  assert (base_ok k) as HB.
  { split; [by eexists | intros y; by rewrite Hq | exists (idle_tcb zero_tcb); by rewrite Ei | | unfold dom_ok; lia | lia]. rewrite Ec. destruct Hca as [[-> _]|[-> _]]; [by rewrite Hi | by rewrite Ht]. }
  split; rewrite ?Ea, ?Ec, ?Ed, ?Ei; try done.
  - intros y ->%Hr. destruct Hca as [[_ ->]|[-> _]]; auto.
  - intros N0 N1. destruct Hca as [[-> ->]|[_ ->]]; [|done]. by rewrite Hr, Dt.
  - intros _ _ y. by rewrite Hq.
  - intros E0. destruct Hca as [[_ ->]|[-> _]]; [lia |]. left. by apply Hr.
  - intros _. destruct Hca as [[-> _]|[-> _]]; auto.
Qed.

Lemma two_kipc ly entry t cur action k : config_ok -> two_running ly entry t cur action k -> kipc (fun _ => False) (fun _ => []) k.
Proof.
  intros Hc H. split; [by eapply two_sched |]. destruct H as [[l E] (H1 & H2 & H3) _]. assert (k_tcb k = two_threads ly entry t) as Et by apply (f_equal th_tcb E).
  assert (k_ep k = ∅) as Ee by apply (f_equal th_ep E). assert (k_ntfn k = ∅) as En by apply (f_equal th_ntfn E).
  assert (forall y i, is_tcb (istore_of k) !! y = Some i -> obj_of i = None /\ it_bound i = 0 /\ y <> 0) as Hall.
  { intros y i. cbn. rewrite lookup_fmap_Some, Et. intros (x & <- & [[-> ->]|(_ & -> & ->)]%two_threads_inv); split_and!; try done; lia. }
  split; cbn; rewrite ?Ee, ?En; try done.
  - intros [a|a]; cbn; rewrite ?Ee, ?En, lookup_empty; apply dll_nil.
  - intros [a|a]; cbn; rewrite ?Ee, ?En, lookup_empty; done.
  - intros o y Hy. by apply not_elem_of_nil in Hy.
  - intros y i o Hy Ho. apply Hall in Hy as [Hy _]. congruence.
  - intros y [i Hy]. by apply (Hall y i).
  - split; cbn; rewrite ?En; [intros n N Hn; by rewrite lookup_empty in Hn |]. intros y i Hy. apply Hall in Hy as (_ & -> & _). done.
Qed.

Lemma wp_first_schedule ly entry t k : config_ok -> two_running ly entry t idle_ptr t k ->
  wp (do* schedule in activateThread) (fun _ k' => two_running ly entry t t 0 k' /\ k_cte k' = k_cte k) (fun _ => False) k.
Proof.
  intros Hc [[l E] (H1 & H2 & H3) _]. assert (k_tcb k = two_threads ly entry t) as Et by apply (f_equal th_tcb E).
  assert (ksCurThread k = idle_ptr) as Ec by apply (f_equal th_cur E). assert (ksIdleThread k = idle_ptr) as Ei by apply (f_equal th_idle E).
  assert (ksSchedulerAction k = t) as Ea by apply (f_equal th_action E). assert (ksCurDomain k = 0) as Ed by apply (f_equal th_dom E). assert (ksReadyQueuesL1Bitmap k = ∅) as E1 by apply (f_equal th_l1 E).
  assert (k_tcb k !! t = Some (initial_tcb entry (ly_bi_frame_vptr ly) (ly_ipcbuf_vptr ly))) as Ht by (rewrite Et; apply lookup_insert_eq).
  assert (k_tcb k !! idle_ptr = Some (idle_tcb zero_tcb)) as Hi by (rewrite Et; unfold two_threads; rewrite lookup_insert_ne by done; apply lookup_singleton_eq).
  unfold schedule, SchedulerAction_ResumeCurrentThread, SchedulerAction_ChooseNewThread. wp_step. wp_step. wp_step. rewrite Ea, (proj2 (Z.eqb_neq t 0)) by lia. cbn [negb].
  unfold isRunnable. wp_steps. rewrite Ec. eapply wp_tcb_get; [exact Hi | lia |]. wp_steps. cbn [isRunnable_st idle_tcb tsType upd_tsType]. wp_steps. rewrite Ea, (proj2 (Z.eqb_neq t 1)) by lia.
  unfold schedule_candidate. wp_steps. eapply wp_tcb_get; [exact Ht | lia |]. wp_steps. rewrite Ec, Ei, Z.eqb_refl. wp_steps. unfold isHighestPrio, l1_get. rewrite Ed.
  destruct Hc as [Hd _ _ _]. rewrite (proj2 (Z.ltb_lt 0 CONFIG_NUM_DOMAINS)) by lia. cbn [Z.leb Z.compare andb]. wp_steps. rewrite E1, lookup_empty. cbn [default Z.eqb andb negb]. wp_steps. cbn [andb negb]. wp_steps.
  rewrite (proj2 (Z.eqb_neq t idle_ptr)) by done. cbn [negb]. wp_steps. unfold switchToThread, event, tcbSchedDequeue, set_action. wp_steps.
  eapply wp_tcb_get; [exact Ht | lia |]. cbn [tcbQueued initial_tcb upd_tsType upd_tcbMCP upd_tcbPriority upd_tcbRegs upd_tcbIPCBuffer new_tcb]. wp_steps. unfold activateThread. wp_steps.
  eapply wp_tcb_get; [exact Ht | cbn; lia |]. cbn [tsType initial_tcb upd_tsType]. wp_steps. split; [|done]. split; [|done | by right]. exists l.
  match goal with |- threads_of ?kk = _ => assert (threads_of kk = with_core (threads_of k) t 0) as -> by done end. by rewrite E.
Qed.
End Start.


(** Without a device tree the kernel does not get past the set-up of free memory:
    [try_init_kernel] then passes the empty region from 0 to 0 as the second reserved
    one, after the kernel's image, and [init_freemem] asserts that the regions are in
    order before it skips empty ones. *)
Theorem boot_without_dtb `{C : KConfig} `{P : KPlatform} `{B : KBootConfig} (ui_start ui_end pv dtb_end entry : Z) (b : boot_t) : 0 < ki_end ->
  init_objects (boot_layout ui_start ui_end pv 0 dtb_end) pv entry b = inr AssertFail.
Proof.
  intros Hk. unfold init_objects, arch_init_freemem, init_freemem, bind. cbn [boot_layout ly_dtb_reg ly_ui_reg Z.eqb ordered start end_].
  rewrite (proj2 (Z.leb_gt ki_end 0)) by done. rewrite andb_false_r. done.
Qed.

(** ** A first boot *)
Definition first_config : KBootConfig :=
  mkKBootConfig [mkReg 0x1000000 0x2000000] [] [] 6 166
    0xffffff8000010000 0xffffff8000500000 0xffffff80000ff000 0xffffff8000001000 30 31
    0xffffff8000210000 0xffffff8000211000 0xffffff8000300000 0xffffff8000212000 0xffffff8000220000 0xffffff8000002000 true (fun n => 2 ^ (n mod 32)).
Definition first_platform : KPlatform := mkKPlatform 32 0x100000 100 (fun _ => false) (fun _ => None) (fun _ => 0) (fun _ => 0).
#[local] Existing Instance first_platform.
#[local] Existing Instance first_config.
(** One page of user image, and sixteen bytes of device tree. *)
Definition first_layout `{C : KConfig} : layout := boot_layout 0x1600000 0x1601000 0x1200000 0x1500ff0 0x1500ff8.
Definition first_kernel : kstate := upd_k_cte (new_slots ksIdleThreadTCB 5) (upd_k_tcb (fun _ => {[idle_ptr := zero_tcb]}) no_kernel).
Definition first_boot : boot_t := mkBoot first_kernel [] 0 zero_bi 0 0.
Definition first_run `{C : KConfig} : (bool * boot_t) + fault := init_objects first_layout 0x1200000 0x400000 first_boot.

(** The first entry of the schedule is for domain 1. *)
Definition domain_one : KConfig := mkKConfig 2 5 [(1, 1)] 0x1000000 0xffffff8000200000.
(** The boot information gives the domain of the first entry of the domain
    schedule as that of the initial thread, but the thread is created in domain 0: with
    a schedule that starts with domain 1 the thread about to run is in another domain
    than the current one. *)
Theorem initial_thread_domain : exists b' x, @first_run domain_one = inl (true, b') /\ k_tcb (b_k b') !! ksSchedulerAction (b_k b') = Some x /\
  bi_initThreadDomain (b_bi b') = 1 /\ ksCurDomain (b_k b') = 1 /\ tcbDomain x = 0.
Proof.
  assert (match @first_run domain_one with
          | inl (true, b') => match k_tcb (b_k b') !! ksSchedulerAction (b_k b') with
                              | Some x => (bi_initThreadDomain (b_bi b') =? 1) && (ksCurDomain (b_k b') =? 1) && (tcbDomain x =? 0)
                              | None => false end
          | _ => false end = true) as H by (vm_cast_no_check (@eq_refl bool true)).
  destruct (@first_run domain_one) as [[[|] b']|]; [| done | done]. destruct (k_tcb (b_k b') !! _) as [x|] eqn:E; [|done].
  apply andb_true_iff in H as [[H1%Z.eqb_eq H2%Z.eqb_eq]%andb_true_iff H3%Z.eqb_eq]. by exists b', x.
Qed.

#[local] Existing Instance default_config.
Lemma first_config_ok : boot_config_ok first_layout.
Proof.
  split.
  - cbn. lia.
  - repeat first [by apply list.Forall_nil | apply list.Forall_cons; split]. split; [cbn; lia | vm_compute; discriminate].
  - split; [vm_compute; discriminate | reflexivity].
  - cbn. lia.
  - split; vm_compute; discriminate.
  - intros r [|i] [|j] a a' _ Hi Hj Hne; try lia; done.
  - split; [vm_compute; discriminate | reflexivity].
  - by exists 1.
Qed.
Lemma first_zeroed : zeroed first_kernel.
Proof.
  split; [reflexivity | | by split | by split_and! | by split_and!]. intros p e He. assert (0 <= ksIdleThreadTCB /\ ksIdleThreadTCB + Z.of_nat 5 * 32 <= 2 ^ 64) as [H1 H2] by (cbn; lia).
  destruct (new_slots_adds ksIdleThreadTCB 5 ∅ H1 H2 p) as [E|[Hr E]].
  - cbn in He, E. rewrite E, lookup_empty in He. discriminate He.
  - cbn in He, E, Hr. rewrite E in He. injection He as <-. split; [done |]. cbn. unfold kernelBase. lia.
Qed.
Lemma first_runs : exists b', init_objects first_layout 0x1200000 0x400000 first_boot = inl (true, b').
Proof.
  assert (match init_objects first_layout 0x1200000 0x400000 first_boot with inl (true, _) => true | _ => false end = true) as H by (vm_cast_no_check (@eq_refl bool true)).
  destruct (init_objects _ _ _ _) as [[[|] b']|]; [by exists b' | discriminate H..].
Qed.
Lemma boot_without_dtb_witness : init_objects (boot_layout 0x1600000 0x1601000 0x1200000 0 0) 0x1200000 0x400000 first_boot = inr AssertFail.
Proof. apply boot_without_dtb. reflexivity. Defined.

(** A root CNode with sixteen slots, twelve of them given out, and a region of 0x30 bytes. *)
Definition tile_boot : boot_t := mkBoot (upd_k_cte (new_slots 0xffffff8000200000 16) no_kernel) [] 0 zero_bi 12 16.
Definition tile_root : cap := cap_cnode_cap 4 60 0 0xffffff8000200000.
Lemma tile_root_ok : root_ok tile_root tile_boot.
Proof.
  split; [cbn; lia |]. intros i Hi. change (slot_pos_max tile_boot) with 16 in Hi. change (cap_get_capPtr tile_root) with 0xffffff8000200000.
  pose proof (new_slots_at 0xffffff8000200000 16 ∅ i ltac:(lia) ltac:(lia) ltac:(lia)) as E. unfold SLOT_PTR, w64 in E. change cte_size with 32 in E.
  rewrite Z.mod_small in E by lia. eexists. exact E.
Qed.
