(* ===== verification/KFastpath.v ===== *)
(** * The fast path of Call and ReplyRecv

    kernel/src/fastpath/fastpath.c with kernel/include/fastpath/fastpath.h, the
    AArch64 fastpath.h and the trap handlers of kernel/src/arch/arm/c_traps.c.
    A message of at most four words to a waiting thread, and the reply to it, are
    passed on without the general code: first come checks that change nothing and
    end in the slow path, [handleSyscall], when one fails; then the transfer
    itself, written as stores to whole words. *)

From S2P Require Import Prelude KCaps KState KSched KCspace KMdb KMsg KVspace KIpc KDelete KUntyped KInvoke KInterrupt KTcb KMmu KSyscall.

(** ** Looking up the capability *)

(** The loop, one round per CNode; [bits] of [cptr] are used up.  A shift by the
    whole width of a word is undefined in C. *)
Fixpoint lookup_fp_loop (fuel : nat) (c : cap) (cptr bits : Z) : M kstate cap :=
  match fuel with
  | O => fail NoFuel
  | S fuel =>
      match c with
      | cap_cnode_cap radixBits guardBits capGuard ptr =>
          let cptr2 := w64 (Z.shiftl cptr bits) in
          if negb (guardBits =? 0) && negb (Z.shiftr cptr2 (wordBits - guardBits) =? capGuard) then ret cap_null_cap
          else
            do* assert_ (negb (radixBits =? 0)) in
            let radix := Z.shiftr (w64 (Z.shiftl cptr2 guardBits)) (wordBits - radixBits) in
            let* slot := cte_get (w64 (ptr + radix * cte_size)) in
            let c := cte_cap slot in
            let bits := w64 (bits + (guardBits + radixBits)) in
            if (bits <? wordBits) && (cap_get_capType c =? 10) then lookup_fp_loop fuel c cptr bits
            else if bits >? wordBits then ret cap_null_cap
            else ret c
      | _ => fail AssertFail
      end
  end.

Definition lookup_fp (c : cap) (cptr : Z) : M kstate cap :=
  match c with
  | cap_cnode_cap _ _ _ _ => lookup_fp_loop resolve_fuel c cptr 0
  | _ => ret cap_null_cap
  end.

(** ** Stores to whole words *)

(** [blockingObject] shares its word with [tsType]. *)
Definition thread_state_ptr_set_tsType_np (t : Z) (ts : _thread_state_t) : M kstate unit :=
  tcb_upd t (fun x => upd_blockingObject (fun _ => 0) (upd_tsType (fun _ => ts) x)).
Definition thread_state_ptr_mset_blockingObject_tsType (t ep_ref : Z) (ts : _thread_state_t) : M kstate unit :=
  tcb_upd t (fun x => upd_blockingObject (fun _ => ep_ref) (upd_tsType (fun _ => ts) x)).
Definition cap_reply_cap_ptr_new_np (slot : Z) (canGrant master : bool) (tcb : Z) : M kstate unit :=
  set_cap slot (cap_reply_cap canGrant master tcb).
Definition endpoint_ptr_mset_epQueue_tail_state (ep_ptr tail : Z) (st : endpoint_state) : M kstate unit :=
  ep_upd ep_ptr (fun e => mkEp st (epQueue_head e) tail).
Definition endpoint_ptr_set_epQueue_head_np (ep_ptr head : Z) : M kstate unit :=
  ep_upd ep_ptr (fun e => mkEp (ep_state e) head (epQueue_tail e)).
Definition mdb_node_ptr_mset_mdbNext_mdbRevocable_mdbFirstBadged (slot next : Z) (revocable firstBadged : bool) : M kstate unit :=
  cte_upd slot (fun e => mkCte (cte_cap e) (mkMdb next revocable firstBadged (mdbPrev (cteMDBNode e)))).
Definition mdb_node_ptr_set_mdbPrev_np (slot prev : Z) : M kstate unit := set_prev slot prev.

Definition fastpath_mi_check (msgInfo : Z) : bool := Z.land msgInfo (MASK 9) >? 4.

(** The loop from word [i], [n] rounds left. *)
Fixpoint fastpath_copy_loop (src dest i : Z) (n : nat) : M kstate unit :=
  match n with
  | O => ret tt
  | S n =>
      let* r0 := reg_at msgRegisters 0 in
      let* v := getRegister src (r0 + i) in
      do* setRegister dest (r0 + i) v in
      fastpath_copy_loop src dest (i + 1) n
  end.
Definition fastpath_copy_mrs (length src dest : Z) : M kstate unit := fastpath_copy_loop src dest 0 (Z.to_nat length).

Section Fastpath.
Context `{C : KConfig} `{P : KPlatform}.

Definition maxDom : Z := CONFIG_NUM_DOMAINS - 1.

Definition switchToThread_fp (thread vroot stored_hw_asid : Z) : M kstate unit :=
  do* armv_contextSwitch vroot (Z.land stored_hw_asid 0xffff) in
  let* t := tcb_get thread in
  do* event (writeTPIDRURO (tcbIPCBuffer t)) in
  modify (upd_ksCurThread (fun _ => thread)).

(** The thread goes on with its saved registers, but for the badge and the message
    information, which it finds in the machine's. *)
Definition fastpath_restore (badge msgInfo cur_thread : Z) : M kstate exception_t :=
  do* setRegister cur_thread msgInfoRegister msgInfo in
  do* setRegister cur_thread badgeRegister badge in
  ret EXCEPTION_NONE.

(** The checks shared by both: the thread to switch to has a valid address space
    ([None] sends the call to the slow path). *)
Definition isValidVTableRoot_fp (c : cap) : option (Z * Z) :=
  match c with cap_page_global_directory_cap asid pgd true => Some (pgd, asid) | _ => None end.
Definition fp_dom : M kstate Z := if maxDom =? 0 then ret 0 else gets ksCurDomain.
Definition fp_other_domain (t : tcb_t) : M kstate bool :=
  let* d := gets ksCurDomain in ret (negb (tcbDomain t =? d) && negb (maxDom =? 0)).

(** ** Call *)
Record fp_call : Type := mkFpCall {
  fc_ep : Z; fc_badge : Z; fc_dest : Z; fc_pgd : Z; fc_asid : Z }.

Definition fastpath_call_checks (cptr msgInfo : Z) : M kstate (option fp_call) :=
  let* cur := gets ksCurThread in
  let* t := tcb_get cur in
  if fastpath_mi_check msgInfo || negb (seL4_Fault_get_seL4_FaultType (tcbFault t) =? 0) then ret None
  else
    let* root := cte_get (TCB_PTR_CTE_PTR cur tcbCTable) in
    let* ep_cap := lookup_fp (cte_cap root) cptr in
    match ep_cap with
    | cap_endpoint_cap badge canGrantReply canGrant true _ ep_ptr =>
        let* e := ep_get ep_ptr in
        let dest := epQueue_head e in
        if negb (bool_decide (ep_state e = EPState_Recv)) then ret None
        else
          let* vtable := cte_get (TCB_PTR_CTE_PTR dest tcbVTable) in
          match isValidVTableRoot_fp (cte_cap vtable) with
          | None => ret None
          | Some (pgd, asid) =>
              let* dom := fp_dom in
              let* d := tcb_get dest in
              let* low := (if tcbPriority d <? tcbPriority t
                           then let* h := isHighestPrio dom (tcbPriority d) in ret (negb h) else ret false) in
              if low then ret None
              else if negb canGrant && negb canGrantReply then ret None
              else
                let* other := fp_other_domain d in
                if other then ret None else ret (Some (mkFpCall ep_ptr badge dest pgd asid))
          end
    | _ => ret None
    end.

(** Taking the destination out of the queue. *)
Definition fastpath_dequeue (ep_ptr dest : Z) : M kstate unit :=
  let* d := tcb_get dest in
  do* endpoint_ptr_set_epQueue_head_np ep_ptr (tcbEPNext d) in
  if negb (tcbEPNext d =? 0) then tcb_upd (tcbEPNext d) (upd_tcbEPPrev (fun _ => 0))
  else endpoint_ptr_mset_epQueue_tail_state ep_ptr 0 EPState_Idle.

(** Inserting the reply capability. *)
Definition fastpath_insert_reply (callerSlot replySlot : Z) (replyCanGrant : bool) (cur : Z) : M kstate unit :=
  do* cap_reply_cap_ptr_new_np callerSlot replyCanGrant false cur in
  do* mdb_node_ptr_set_mdbPrev_np callerSlot replySlot in
  mdb_node_ptr_mset_mdbNext_mdbRevocable_mdbFirstBadged replySlot callerSlot true true.

(** Behind the point of no return. *)
Definition fastpath_call_commit (msgInfo : Z) (f : fp_call) : M kstate exception_t :=
  let info := messageInfoFromWord_raw msgInfo in
  let ep_ptr := fc_ep f in
  let dest := fc_dest f in
  do* fastpath_dequeue ep_ptr dest in
  let* cur := gets ksCurThread in
  do* thread_state_ptr_set_tsType_np cur ThreadState_BlockedOnReply in
  let* d := tcb_get dest in
  do* fastpath_insert_reply (TCB_PTR_CTE_PTR dest tcbCaller) (TCB_PTR_CTE_PTR cur tcbReply) (blockingIPCCanGrant d) cur in
  do* fastpath_copy_mrs (mi_length info) cur dest in
  do* thread_state_ptr_set_tsType_np dest ThreadState_Running in
  do* switchToThread_fp dest (fc_pgd f) (fc_asid f) in
  let* cur := gets ksCurThread in
  fastpath_restore (fc_badge f) (wordFromMessageInfo (seL4_MessageInfo_set_capsUnwrapped info 0)) cur.

Definition fastpath_call (fuel : nat) (cptr msgInfo : Z) : M kstate exception_t :=
  let* f := fastpath_call_checks cptr msgInfo in
  match f with
  | None => handleSyscall fuel SysCall
  | Some f => fastpath_call_commit msgInfo f
  end.

(** ** ReplyRecv *)
Record fp_reply : Type := mkFpReply {
  fr_ep : Z; fr_canGrant : bool; fr_caller : Z; fr_pgd : Z; fr_asid : Z }.

Definition fastpath_reply_recv_checks (cptr msgInfo : Z) : M kstate (option fp_reply) :=
  let* cur := gets ksCurThread in
  let* t := tcb_get cur in
  if fastpath_mi_check msgInfo || negb (seL4_Fault_get_seL4_FaultType (tcbFault t) =? 0) then ret None
  else
    let* root := cte_get (TCB_PTR_CTE_PTR cur tcbCTable) in
    let* ep_cap := lookup_fp (cte_cap root) cptr in
    match ep_cap with
    | cap_endpoint_cap _ _ canGrant _ true ep_ptr =>
        let* active := (if negb (tcbBoundNotification t =? 0)
                        then let* n := ntfn_get (tcbBoundNotification t) in ret (bool_decide (ntfn_state n = NtfnState_Active))
                        else ret false) in
        if active then ret None
        else
          let* e := ep_get ep_ptr in
          if bool_decide (ep_state e = EPState_Send) then ret None
          else
            let* callerSlot := cte_get (TCB_PTR_CTE_PTR cur tcbCaller) in
            match cte_cap callerSlot with
            | cap_reply_cap _ _ caller =>
                let* c := tcb_get caller in
                if negb (seL4_Fault_get_seL4_FaultType (tcbFault c) =? 0) then ret None
                else
                  let* vtable := cte_get (TCB_PTR_CTE_PTR caller tcbVTable) in
                  match isValidVTableRoot_fp (cte_cap vtable) with
                  | None => ret None
                  | Some (pgd, asid) =>
                      let* dom := fp_dom in
                      let* h := isHighestPrio dom (tcbPriority c) in
                      if negb h then ret None
                      else
                        let* other := fp_other_domain c in
                        if other then ret None else ret (Some (mkFpReply ep_ptr canGrant caller pgd asid))
                  end
            | _ => ret None
            end
    | _ => ret None
    end.

(** Putting the current thread at the end of the queue. *)
Definition fastpath_enqueue (ep_ptr cur : Z) : M kstate unit :=
  let* e := ep_get ep_ptr in
  let endpointTail := epQueue_tail e in
  if endpointTail =? 0 then
    do* tcb_upd cur (upd_tcbEPPrev (fun _ => 0)) in
    do* tcb_upd cur (upd_tcbEPNext (fun _ => 0)) in
    do* endpoint_ptr_set_epQueue_head_np ep_ptr cur in
    endpoint_ptr_mset_epQueue_tail_state ep_ptr cur EPState_Recv
  else
    do* tcb_upd endpointTail (upd_tcbEPNext (fun _ => cur)) in
    do* tcb_upd cur (upd_tcbEPPrev (fun _ => endpointTail)) in
    do* tcb_upd cur (upd_tcbEPNext (fun _ => 0)) in
    endpoint_ptr_mset_epQueue_tail_state ep_ptr cur EPState_Recv.

(** Deleting the reply capability. *)
Definition fastpath_delete_reply (callerSlot : Z) : M kstate unit :=
  let* s := cte_get callerSlot in
  do* mdb_node_ptr_mset_mdbNext_mdbRevocable_mdbFirstBadged (mdbPrev (cteMDBNode s)) 0 true true in
  do* set_cap callerSlot cap_null_cap in
  set_mdb callerSlot nullMDBNode.

Definition fastpath_reply_recv_commit (msgInfo : Z) (f : fp_reply) : M kstate exception_t :=
  let info := messageInfoFromWord_raw msgInfo in
  let ep_ptr := fr_ep f in
  let caller := fr_caller f in
  let* cur := gets ksCurThread in
  do* thread_state_ptr_mset_blockingObject_tsType cur ep_ptr ThreadState_BlockedOnReceive in
  do* tcb_upd cur (upd_blockingIPCCanGrant (fun _ => fr_canGrant f)) in
  do* fastpath_enqueue ep_ptr cur in
  do* fastpath_delete_reply (TCB_PTR_CTE_PTR cur tcbCaller) in
  do* fastpath_copy_mrs (mi_length info) cur caller in
  do* thread_state_ptr_set_tsType_np caller ThreadState_Running in
  do* switchToThread_fp caller (fr_pgd f) (fr_asid f) in
  let* cur := gets ksCurThread in
  fastpath_restore 0 (wordFromMessageInfo (seL4_MessageInfo_set_capsUnwrapped info 0)) cur.

Definition fastpath_reply_recv (fuel : nat) (cptr msgInfo : Z) : M kstate exception_t :=
  let* f := fastpath_reply_recv_checks cptr msgInfo in
  match f with
  | None => handleSyscall fuel SysReplyRecv
  | Some f => fastpath_reply_recv_commit msgInfo f
  end.

(** ** Traps *)

(** The number of a system call, counted down from -1. *)
Definition syscall_of (n : Z) : option syscall_t :=
  [SysCall; SysReplyRecv; SysSend; SysNBSend; SysRecv; SysReply; SysYield; SysNBRecv] !! Z.to_nat (- n - 1).
Definition SYSCALL_MAX : Z := -1.
Definition SYSCALL_MIN : Z := -8.

Definition slowpath (fuel : nat) (syscall : syscall_t) : M kstate exception_t := handleSyscall fuel syscall.

(** [syscall] has the type of an enumeration: a signed number. *)
Definition c_handle_syscall (fuel : nat) (cptr msgInfo syscall : Z) : M kstate exception_t :=
  if syscall =? -1 then fastpath_call fuel cptr msgInfo
  else if syscall =? -2 then fastpath_reply_recv fuel cptr msgInfo
  else if (syscall <? SYSCALL_MIN) || (syscall >? SYSCALL_MAX) then handleUnknownSyscall (w64 syscall)
  else
    let* s := of_option AssertFail (syscall_of syscall) in
    slowpath fuel s.
End Fastpath.
