(* ===== verification/KFastThms.v ===== *)
(** * The fast path does what the slow path does

    The capability lookup of the fast path against the path of bits that the
    general lookup follows; then the fast Call against [handleSyscall]. *)

From S2P Require Import Prelude Dll KCaps KCapThms KState KSched KSchedInv KSchedThms KCspace KMdb KMsg KVspace KIpc KDelete KIpcInv KIpcThms.
From S2P Require Import KTransfer KUntyped KInvoke KInterrupt KTcb KMmu KSyscall KUntypedThms KInvokeThms KFastpath.

(** ** Looking up a capability *)

(** The capability at the end of a path; the null capability for a path that
    leads nowhere. *)
Definition found_cap (slots : gmap Z cte_t) (r : path_result) : cap :=
  match r with Found s _ => from_option cte_cap cap_null_cap (slots !! s) | _ => cap_null_cap end.

Lemma shl_word x n : 0 <= n <= 64 -> w64 (Z.shiftl x (64 - n)) = x mod 2 ^ n * 2 ^ (64 - n).
Proof.
  intros Hn. unfold w64. rewrite Z.shiftl_mul_pow2 by lia. rewrite <- Z.mul_mod_distr_r by lia.
  rewrite <- Z.pow_add_r by lia. by replace (n + (64 - n)) with 64 by lia.
Qed.

(** The [g] highest of the [n] low bits. *)
Lemma high_bits x n g : 0 <= g <= n -> n <= 64 -> Z.shiftr (w64 (Z.shiftl x (64 - n))) (64 - g) = Z.shiftr x (n - g) mod 2 ^ g.
Proof.
  intros Hg Hn. rewrite shl_word, !Z.shiftr_div_pow2 by lia. replace (64 - g) with (64 - n + (n - g)) by lia.
  rewrite Z.pow_add_r, <- Z.div_div, Z.div_mul by lia. replace n with (n - g + g) at 1 by lia.
  rewrite Z.pow_add_r, Z.rem_mul_r, (Z.mul_comm (2 ^ (n - g))), Z.div_add by lia. rewrite Z.div_small; [lia |].
  apply Z.mod_pos_bound. lia.
Qed.
Lemma shl_shl x n g : 0 <= g <= n -> n <= 64 -> w64 (Z.shiftl (w64 (Z.shiftl x (64 - n))) g) = w64 (Z.shiftl x (64 - (n - g))).
Proof.
  intros Hg Hn. unfold w64. rewrite !Z.shiftl_mul_pow2 by lia. rewrite Z.mul_mod_idemp_l by lia. f_equal.
  replace (64 - (n - g)) with (64 - n + g) by lia. rewrite Z.pow_add_r by lia. lia.
Qed.
Lemma shr_word_bound x r : 0 < r <= 64 -> 0 <= Z.shiftr (w64 x) (64 - r) < 2 ^ r.
Proof.
  intros Hr. pose proof (Z.mod_pos_bound x (2 ^ 64) eq_refl) as Hw. fold (w64 x) in Hw. rewrite Z.shiftr_div_pow2 by lia. split; [apply Z.div_pos; lia |].
  apply Z.div_lt_upper_bound; [lia |]. rewrite <- Z.pow_add_r by lia. replace (64 - r + r) with 64 by lia. lia.
Qed.

(** The guard check, when there are bits enough. *)
Lemma guard_fp cptr (n : nat) guardSize guard : (n <= 64)%nat -> 0 <= guardSize <= Z.of_nat n -> 0 <= guard < 2 ^ guardSize ->
  negb (guardSize =? 0) && negb (Z.shiftr (w64 (Z.shiftl cptr (64 - Z.of_nat n))) (wordBits - guardSize) =? guard) =
  bool_decide (take (Z.to_nat guardSize) (path_of n cptr) <> path_of (Z.to_nat guardSize) guard).
Proof.
  intros Hn Hg Hgd. unfold wordBits. rewrite high_bits, take_path_of by lia.
  apply eq_true_iff_eq. rewrite andb_true_iff, !negb_true_iff, !Z.eqb_neq, bool_decide_eq_true, path_of_eq. rewrite Z2Nat.id by lia.
  rewrite (Z.mod_small guard) by lia. replace (Z.of_nat (n - Z.to_nat guardSize)) with (Z.of_nat n - guardSize) by lia.
  destruct (decide (guardSize = 0)) as [->|]; [|tauto]. rewrite Z.mod_1_r. change (2 ^ 0) with 1 in Hgd. lia.
Qed.

(** The slot that a round reads, whatever is left of the address. *)
Lemma slot_fp radix gs guard ptr x : cap_wf (cap_cnode_cap radix gs guard ptr) -> 0 < radix ->
  let i := Z.shiftr (w64 x) (wordBits - radix) in 0 <= i < 2 ^ radix /\ w64 (ptr + i * cte_size) = ptr + i * 32.
Proof.
  intros Hwf Hr i. pose proof Hwf as (_ & Hg & Hw & _). unfold wordBits in Hw. assert (0 <= i < 2 ^ radix) as Hi by (apply shr_word_bound; lia).
  split; [done |]. destruct (slot_address radix gs guard ptr i Hwf ltac:(lia)) as [_ E].
  rewrite land_mask, Z.mod_small in E by lia. exact E.
Qed.

Lemma lookup_fp_loop_ok fuel (n : nat) c cptr k :
  caps_ok (k_cte k) -> cap_ok (k_cte k) c -> cap_get_capType c = 10 -> (n < fuel)%nat -> (0 < n <= 64)%nat ->
  lookup_fp_loop fuel c cptr (64 - Z.of_nat n) k = inl (found_cap (k_cte k) (resolve_path (k_cte k) c (path_of n cptr)), k).
Proof.
  intros HS. revert n c. induction fuel as [|fuel IH]; intros n c Hc Ht Hf Hn; [lia |].
  destruct c as [| | | | |radix gs guard ptr| | | | | | | | | | | |]; try done.
  destruct Hc as [(Hwf & Hlv & Hp0 & Hsl) Hr0]. pose proof Hwf as (Hr & Hg & Hw & Hgd & _). unfold wordBits in Hw.
  rewrite resolve_path_step. unfold next_level. cbn [lookup_fp_loop]. cbv zeta.
  rewrite (decide_False (P := (_ + _)%nat = 0%nat)) by lia. rewrite (proj2 (Z.eqb_neq radix 0)) by lia. cbn [negb].
  destruct (slot_fp radix gs guard ptr (Z.shiftl (w64 (Z.shiftl cptr (64 - Z.of_nat n))) gs) Hwf Hr0) as [Hi Ei]. rewrite Ei.
  destruct (Hsl _ Hi) as [e He]. pose proof (HS _ _ He) as Hce. simpl in Hce.
  assert (w64 (64 - Z.of_nat n + (gs + radix)) = 64 - Z.of_nat n + (gs + radix)) as Eb by (apply Z.mod_small; lia). rewrite Eb. clear Eb Ei.
  destruct (negb (gs =? 0) && _) eqn:Eg.
  { destruct (decide (gs <= Z.of_nat n)) as [Hgn|Hgn].
    - rewrite guard_fp in Eg by lia. apply bool_decide_eq_true in Eg. by rewrite decide_True.
    - rewrite decide_True; [done |]. intros Eq. apply (f_equal length) in Eq. rewrite length_take, !length_path_of in Eq. lia. }
  unfold assert_ at 1, bind, ret at 1, cte_get. rewrite (proj2 (Z.eqb_neq _ 0)), He by lia.
  destruct (decide (Z.of_nat n < gs + radix)) as [Hd|Hd].
  { rewrite (proj2 (Z.ltb_ge _ wordBits)) by (unfold wordBits; lia). rewrite andb_false_l, Z.gtb_ltb, (proj2 (Z.ltb_lt wordBits _)) by (unfold wordBits; lia).
    destruct (decide (take _ _ <> _)); [done |]. rewrite decide_True by (rewrite length_path_of; lia). done. }
  rewrite guard_fp in Eg by lia. apply bool_decide_eq_false in Eg. rewrite (decide_False (P := take _ _ <> _)) by tauto.
  rewrite !drop_path_of, !length_path_of, take_path_of, bits_value_path, decide_False by lia.
  replace (Z.of_nat (n - Z.to_nat gs - Z.to_nat radix)) with (Z.of_nat n - gs - radix) by lia. rewrite Z2Nat.id by lia.
  rewrite shl_shl in He by lia. rewrite high_bits in He by lia. rewrite He.
  rewrite (Z.gtb_ltb _ wordBits), (proj2 (Z.ltb_ge wordBits _)) by (unfold wordBits; lia).
  destruct (decide (n - (Z.to_nat gs + Z.to_nat radix) = 0)%nat) as [E0|E0].
  { rewrite (proj2 (Z.ltb_ge _ wordBits)) by (unfold wordBits; lia). cbn [andb found_cap]. by rewrite He. }
  rewrite (proj2 (Z.ltb_lt _ wordBits)) by (unfold wordBits; lia). cbn [andb].
  replace (64 - Z.of_nat n + (gs + radix)) with (64 - Z.of_nat (n - (Z.to_nat gs + Z.to_nat radix))) by lia.
  destruct (cte_cap e) eqn:Ec; cbn [cap_get_capType Z.eqb Pos.eqb]; try (by cbn [found_cap]; rewrite He; simpl; rewrite Ec).
  apply IH; try done; lia.
Qed.

Lemma lookup_fp_ok c cptr k : caps_ok (k_cte k) -> cap_ok (k_cte k) c ->
  lookup_fp c cptr k = inl (if cap_get_capType c =? 10 then found_cap (k_cte k) (resolve_path (k_cte k) c (path_of 64 cptr)) else cap_null_cap, k).
Proof.
  intros HS Hc. destruct c; try done. unfold lookup_fp. cbn [cap_get_capType Z.eqb Pos.eqb].
  change 0 with (64 - Z.of_nat 64). apply lookup_fp_loop_ok; try done; unfold resolve_fuel; lia.
Qed.

(** Looking up a capability the fast way, shifting the address left and
    deferring the depth check, finds the capability that the general lookup of the
    whole address finds, and the null capability exactly where that fails; it
    always comes to an end, reads only slots of CNodes and changes nothing. *)
Theorem lookup_fp_agrees (c : cap) (cptr : Z) (k : kstate) :
  caps_ok (k_cte k) -> cap_ok (k_cte k) c ->
  exists r k', resolveAddressBits c cptr wordBits k = inl (r, k') /\
    lookup_fp c cptr k = inl (if bool_decide (res_status r = EXCEPTION_NONE)
                              then from_option cte_cap cap_null_cap (k_cte k !! res_slot r) else cap_null_cap, k).
Proof.
  intros HS Hc. rewrite lookup_fp_ok by done. destruct (decide (cap_get_capType c = 10)) as [Ht|Ht].
  - destruct (resolveAddressBits_ok k c cptr 64 (caps_slots _ HS) (proj1 Hc) Ht ltac:(lia)) as (r & f & Er & Eq).
    exists r, (with_fault f k). split; [exact Eq |]. rewrite Ht. cbn [Z.eqb Pos.eqb].
    destruct (resolve_path _ _ _) as [s l|g l gs|lv l|]; simpl in Er; try done; injection Er as <- <-; done.
  - rewrite (proj2 (Z.eqb_neq _ _) Ht). unfold resolveAddressBits. destruct c; try done; by eexists _, _.
Qed.

(** ** States up to what nobody reads

    The fast path clears [blockingObject] along with the state of a thread, does
    not touch the array of extra capabilities, and switches address spaces
    itself. *)
Definition forget_tcb (x : tcb_t) : tcb_t :=
  match tsType x with
  | ThreadState_BlockedOnReceive | ThreadState_BlockedOnSend | ThreadState_BlockedOnNotification => x
  | _ => upd_blockingObject (fun _ => 0) x
  end.
Definition forget (k : kstate) : kstate :=
  upd_k_events (fun _ => []) (upd_current_extra_caps (fun _ => []) (upd_k_tcb (fmap forget_tcb) k)).

Lemma kstate_ext k k' :
  k_tcb k = k_tcb k' -> k_cte k = k_cte k' -> k_ep k = k_ep k' -> k_ntfn k = k_ntfn k' ->
  k_word k = k_word k' -> ksReadyQueues k = ksReadyQueues k' -> ksReadyQueuesL1Bitmap k = ksReadyQueuesL1Bitmap k' -> ksReadyQueuesL2Bitmap k = ksReadyQueuesL2Bitmap k' ->
  ksCurThread k = ksCurThread k' -> ksIdleThread k = ksIdleThread k' -> ksSchedulerAction k = ksSchedulerAction k' -> ksCurDomain k = ksCurDomain k' ->
  ksDomainTime k = ksDomainTime k' -> ksDomScheduleIdx k = ksDomScheduleIdx k' -> ksWorkUnitsCompleted k = ksWorkUnitsCompleted k' -> intStateIRQTable k = intStateIRQTable k' ->
  armKSASIDTable k = armKSASIDTable k' -> current_lookup_fault k = current_lookup_fault k' -> current_fault k = current_fault k' -> current_syscall_error k = current_syscall_error k' ->
  current_extra_caps k = current_extra_caps k' -> k_events k = k_events k' -> k = k'.
Proof. destruct k, k'. simpl. intros. by subst. Qed.

Lemma forget_eq k k' : (forall t, forget_tcb <$> k_tcb k !! t = forget_tcb <$> k_tcb k' !! t) ->
  k_cte k = k_cte k' -> k_ep k = k_ep k' -> k_ntfn k = k_ntfn k' -> k_word k = k_word k' ->
  ksReadyQueues k = ksReadyQueues k' -> ksReadyQueuesL1Bitmap k = ksReadyQueuesL1Bitmap k' -> ksReadyQueuesL2Bitmap k = ksReadyQueuesL2Bitmap k' -> ksCurThread k = ksCurThread k' ->
  ksIdleThread k = ksIdleThread k' -> ksSchedulerAction k = ksSchedulerAction k' -> ksCurDomain k = ksCurDomain k' -> ksDomainTime k = ksDomainTime k' ->
  ksDomScheduleIdx k = ksDomScheduleIdx k' -> ksWorkUnitsCompleted k = ksWorkUnitsCompleted k' -> intStateIRQTable k = intStateIRQTable k' -> armKSASIDTable k = armKSASIDTable k' ->
  current_lookup_fault k = current_lookup_fault k' -> current_fault k = current_fault k' -> current_syscall_error k = current_syscall_error k' -> forget k = forget k'.
Proof.
  intros Ht. intros. apply kstate_ext; try done. simpl. apply map_eq. intros t. by rewrite !lookup_fmap.
Qed.

(** ** Steps that both paths take *)

Lemma wp_ep k p e (Q : endpoint_t -> kstate -> Prop) F : p <> 0 -> k_ep k !! p = Some e -> Q e k -> wp (ep_get p) Q F k.
Proof. intros Hp He HQ. unfold wp, ep_get. by rewrite (proj2 (Z.eqb_neq p 0) Hp), He. Qed.
Lemma wp_ep_update k p e f (Q : unit -> kstate -> Prop) F : p <> 0 -> k_ep k !! p = Some e -> Q tt (upd_k_ep (insert p (f e)) k) ->
  wp (ep_upd p f) Q F k.
Proof. intros Hp He HQ. unfold ep_upd, ep_set. wp_step. eapply wp_ep; [done.. |]. wp_step. eapply wp_ep; [done.. |]. by wp_step. Qed.
Lemma wp_cte_update k p e f (Q : unit -> kstate -> Prop) F : p <> 0 -> k_cte k !! p = Some e -> Q tt (upd_k_cte (insert p (f e)) k) ->
  wp (cte_upd p f) Q F k.
Proof. intros Hp He HQ. unfold cte_upd. wp_step. eapply wp_cte_some; [done.. |]. by wp_step. Qed.

(** The head [x] of a queue taken out: the threads, and the endpoint. *)
Definition without_head (x : tcb_t) (T : gmap Z tcb_t) : gmap Z tcb_t :=
  if tcbEPNext x =? 0 then T else alter (upd_tcbEPPrev (fun _ => 0)) (tcbEPNext x) T.
Definition ep_without (x : tcb_t) (e : endpoint_t) : endpoint_t :=
  if tcbEPNext x =? 0 then mkEp EPState_Idle 0 0 else mkEp (ep_state e) (tcbEPNext x) (epQueue_tail e).

Record at_head (k : kstate) (ep dest : Z) (e : endpoint_t) (x : tcb_t) : Prop := {
  ah_ep : k_ep k !! ep = Some e /\ ep <> 0;
  ah_tcb : k_tcb k !! dest = Some x /\ dest <> 0;
  ah_head : epQueue_head e = dest;
  ah_prev : tcbEPPrev x = 0;
  ah_next : tcbEPNext x <> 0 -> is_Some (k_tcb k !! tcbEPNext x) /\ tcbEPNext x <> dest }.

Lemma alter_some {A} (f : A -> A) (m : gmap Z A) i x : m !! i = Some x -> alter f i m = <[i := f x]> m.
Proof.
  intros E. apply map_eq. intros j. destruct (decide (j = i)) as [->|].
  - by rewrite lookup_alter_eq, lookup_insert_eq, E.
  - by rewrite lookup_alter_ne, lookup_insert_ne.
Qed.

Lemma take_head k ep dest e x (Q : unit -> kstate -> Prop) F : at_head k ep dest e x ->
  Q tt (upd_k_ep (insert ep (ep_without x e)) (upd_k_tcb (without_head x) k)) ->
  wp (ep_take ep dest (mkQ (epQueue_head e) (epQueue_tail e))) Q F k.
Proof.
  intros [[He H0] [Hx Hd] Eh Ep Hn] HQ. unfold ep_take, tcbEPDequeue, ep_ptr_set_queue, endpoint_ptr_set_state, ep_without, without_head in *.
  wp_step. wp_step. eapply wp_tcb_get; [done.. |]. rewrite Ep. cbn [Z.eqb negb]. do 2 wp_step. wp_step. eapply wp_tcb_get; [done.. |].
  destruct (tcbEPNext x =? 0) eqn:E; cbn [negb].
  - apply Z.eqb_eq in E. rewrite E. do 2 wp_step. eapply wp_ep_update; [done.. |]. cbn [q_head q_end Z.eqb].
    eapply wp_ep_update; [done | apply lookup_insert_eq |]. revert HQ. unfold upd_k_ep, upd_k_tcb. simpl. by rewrite insert_insert_eq, Ep.
  - apply Z.eqb_neq in E. destruct (Hn E) as [[z Hz] _]. wp_step. eapply wp_tcb_upd; [done.. |]. do 2 wp_step.
    eapply wp_ep_update; [done.. |]. cbn [q_head q_end]. rewrite (proj2 (Z.eqb_neq _ _) E). wp_step.
    revert HQ. unfold upd_k_ep, upd_k_tcb. simpl. rewrite (alter_some _ _ _ z) by done. by rewrite Ep.
Qed.

Lemma take_head_fp k ep dest e x (Q : unit -> kstate -> Prop) F : at_head k ep dest e x ->
  Q tt (upd_k_ep (insert ep (ep_without x e)) (upd_k_tcb (without_head x) k)) -> wp (fastpath_dequeue ep dest) Q F k.
Proof.
  intros [[He H0] [Hx Hd] Eh Ep Hn] HQ. unfold fastpath_dequeue, endpoint_ptr_set_epQueue_head_np, endpoint_ptr_mset_epQueue_tail_state, ep_without, without_head in *.
  wp_step. eapply wp_tcb_get; [done.. |]. wp_step. eapply wp_ep_update; [done.. |]. destruct (tcbEPNext x =? 0) eqn:E; cbn [negb].
  - apply Z.eqb_eq in E. rewrite E. eapply wp_ep_update; [done | apply lookup_insert_eq |].
    revert HQ. unfold upd_k_ep, upd_k_tcb. simpl. by rewrite insert_insert_eq.
  - apply Z.eqb_neq in E. destruct (Hn E) as [[z Hz] _]. eapply wp_tcb_upd; [done.. |].
    revert HQ. unfold upd_k_ep, upd_k_tcb. simpl. by rewrite (alter_some _ _ _ z) by done.
Qed.

(** Copying up to four message registers. *)
Lemma copy_fp_ok k s t y x n (Q : unit -> kstate -> Prop) F : k_tcb k !! s = Some y -> k_tcb k !! t = Some x -> s <> 0 -> t <> 0 -> s <> t ->
  0 <= n <= 4 ->
  Q tt (with_msg k t x (take_regs (tcbRegs y) (tcbRegs x) (take (Z.to_nat n) msgRegisters)) (k_word k) (current_extra_caps k)) ->
  wp (fastpath_copy_mrs n s t) Q F k.
Proof.
  intros Hs Ht Hs0 Ht0 Hst Hn HQ. apply (wp_at (with_msg k t x (tcbRegs x) (k_word k) (current_extra_caps k))); [by apply with_msg_self |].
  unfold fastpath_copy_mrs. revert HQ. assert (Z.to_nat n <= 4)%nat as Hm by lia. revert Hm. generalize (Z.to_nat n) as m. clear n Hn. intros n Hn.
  do 5 (destruct n as [|n]; [simpl; intros HP; repeat (wp_step; eapply wp_reg_at; [reflexivity |]; wp_step; apply (wp_msg_getreg k s t y); [done.. |]; wp_step; apply wp_msg_setreg; [exact Ht0 |]); wp_step; exact HP |]). lia.
Qed.

(** The message information that the fast path lets through. *)
Lemma short_message w : fastpath_mi_check w = false ->
  let mi := messageInfoFromWord w in mi_extraCaps mi = 0 /\ 0 <= mi_length mi <= 4 /\ messageInfoFromWord_raw w = mi.
Proof.
  unfold fastpath_mi_check. rewrite Z.gtb_ltb, Z.ltb_ge, land_mask by lia. intros Hw. pose proof (Z.mod_pos_bound w (2 ^ 9) eq_refl) as Hb.
  assert (w mod 2 ^ 7 = w mod 2 ^ 9) as E7.
  { symmetry. apply (Z.mod_unique_pos _ _ (4 * (w / 2 ^ 9))); [lia |]. pose proof (Z.div_mod w (2 ^ 9) ltac:(lia)). lia. }
  assert (mi_length (messageInfoFromWord_raw w) = w mod 2 ^ 9) as El by (unfold messageInfoFromWord_raw; cbn [mi_length]; rewrite land_mask by lia; exact E7).
  unfold messageInfoFromWord. cbv zeta. rewrite El, Z.gtb_ltb, (proj2 (Z.ltb_ge seL4_MsgMaxLength _)) by (unfold seL4_MsgMaxLength; lia).
  split; [|split; [lia | done]]. unfold messageInfoFromWord_raw. cbn [mi_extraCaps]. rewrite land_mask, Z.shiftr_div_pow2 by lia.
  assert (w / 2 ^ 7 = 4 * (w / 2 ^ 9)) as ->.
  { pose proof (Z.div_mod w (2 ^ 9) ltac:(lia)). pose proof (Z.div_mod w (2 ^ 7) ltac:(lia)). lia. }
  rewrite Z.mul_comm. by apply Z.mod_mul.
Qed.

(** Operations that only read [f] of the state. *)
Definition reads {A B} (f : kstate -> B) (m : M kstate A) : Prop := forall k k', f k' = f k ->
  match m k, m k' with
  | inl (a, s), inl (a', s') => a' = a /\ s = k /\ s' = k'
  | inr e, inr e' => e = e'
  | _, _ => False
  end.
Lemma reads_ret {A B} (f : kstate -> B) (a : A) : reads f (ret a).
Proof. intros k k' _. done. Qed.
Lemma reads_fail {A B} (f : kstate -> B) e : reads f (fail (A := A) e).
Proof. intros k k' _. done. Qed.
Lemma reads_assert {B} (f : kstate -> B) b : reads f (assert_ b).
Proof. destruct b; intros k k' _; done. Qed.
Lemma reads_gets {A B} (f : kstate -> B) (g : kstate -> A) : (forall k k', f k' = f k -> g k' = g k) -> reads f (gets g).
Proof. intros Hg k k' E. simpl. auto. Qed.
Lemma reads_bind {A A' B} (f : kstate -> B) (m : M kstate A) (h : A -> M kstate A') : reads f m -> (forall a, reads f (h a)) -> reads f (bind m h).
Proof.
  intros Hm Hh k k' E. specialize (Hm k k' E). unfold bind. destruct (m k) as [[a s]|], (m k') as [[a' s']|]; try done.
  destruct Hm as (-> & -> & ->). by apply Hh.
Qed.
Ltac reads_step :=
  match goal with
  | |- forall _, _ => intros ?
  | |- reads _ (bind _ _) => apply reads_bind
  | |- reads _ (ret _) => apply reads_ret
  | |- reads _ (fail _) => apply reads_fail
  | |- reads _ (assert_ _) => apply reads_assert
  | |- reads _ (gets _) => apply reads_gets; intros ? ? [=]; simplify_eq; congruence
  | |- reads _ (let _ := _ in _) => cbv zeta
  | |- reads _ (if ?b then _ else _) => destruct b
  end.

Section Fast.
Context `{C : KConfig} `{P : KPlatform}.

(** The test of the priorities reads the bitmaps only. *)
Definition bitmaps (k : kstate) := (ksReadyQueuesL1Bitmap k, ksReadyQueuesL2Bitmap k).
Lemma isHighestPrio_bits k k' d p b : bitmaps k' = bitmaps k -> isHighestPrio d p k = inl (b, k) -> isHighestPrio d p k' = inl (b, k').
Proof.
  intros E. assert (reads bitmaps (isHighestPrio d p)) as HR.
  { unfold isHighestPrio, getHighestPrio, l1_get, l2_get, invert_l1index. repeat reads_step. }
  specialize (HR k k' E). intros E'. rewrite E' in HR. destruct (isHighestPrio d p k') as [[b' s]|]; [|done]. by destruct HR as (-> & _ & ->).
Qed.

(** ** Leaving the kernel for a candidate that the scheduler takes *)
Record switching (k : kstate) (cur dest : Z) (y x : tcb_t) : Prop := {
  sw_cur : ksCurThread k = cur /\ cur <> ksIdleThread k;
  sw_blocked : k_tcb k !! cur = Some y /\ cur <> 0 /\ isRunnable_st (tsType y) = false;
  sw_action : ksSchedulerAction k = dest /\ 1 < dest /\ dest <> cur;
  sw_dest : k_tcb k !! dest = Some x /\ tcbQueued x = false /\ tsType x = ThreadState_Running;
  sw_prio : tcbPriority x < tcbPriority y -> isHighestPrio (ksCurDomain k) (tcbPriority x) k = inl (true, k) }.

Lemma leave_to_candidate k cur dest y x (Q : exception_t -> kstate -> Prop) F : switching k cur dest y x ->
  (forall ev, Q EXCEPTION_NONE (upd_ksSchedulerAction (fun _ => 0) (upd_ksCurThread (fun _ => dest) (upd_k_events (fun _ => ev) k)))) ->
  wp leave_kernel Q F k.
Proof.
  intros [[Ec Hi] (Hy & H0 & Hb) (Ea & H1 & Hne) (Hx & Hq & Hr) Hp] HQ. unfold leave_kernel, schedule. do 3 wp_step. rewrite Ea.
  rewrite (proj2 (Z.eqb_neq dest SchedulerAction_ResumeCurrentThread)) by (unfold SchedulerAction_ResumeCurrentThread; lia). cbn [negb].
  do 3 wp_step. rewrite Ec. unfold isRunnable. do 2 wp_step. eapply wp_tcb_get; [done.. |]. wp_step. rewrite Hb. do 2 wp_step. do 2 wp_step. rewrite Ea.
  rewrite (proj2 (Z.eqb_neq dest SchedulerAction_ChooseNewThread)) by (unfold SchedulerAction_ChooseNewThread; lia).
  unfold schedule_candidate. wp_step. eapply wp_tcb_get; [done | lia |]. do 4 wp_step. rewrite Ec, (proj2 (Z.eqb_neq _ _) Hi).
  do 2 wp_step. eapply wp_tcb_get; [done.. |]. do 3 wp_step. wp_step.
  apply (wp_mono _ (fun b k' => b = true /\ k' = k) _ (fun _ => False)).
  { destruct (tcbPriority x <? tcbPriority y) eqn:El; [|by wp_step]. unfold wp. by rewrite (Hp (proj1 (Z.ltb_lt _ _) El)). }
  2: done. intros b k' [-> ->]. cbn [negb]. rewrite andb_false_r. do 2 wp_step. rewrite (proj2 (Z.eqb_neq _ _) Hne). cbn [negb]. do 2 wp_step.
  unfold switchToThread, event, tcbSchedDequeue, set_action. do 4 wp_step. eapply wp_tcb_get; [done | lia |]. rewrite Hq. do 3 wp_step.
  unfold activateThread. wp_steps. eapply wp_tcb_get; [exact Hx | simpl; lia |]. rewrite Hr. wp_steps. apply (HQ (k_events k ++ [Arch_switchToThread dest])).
Qed.

(** ** Call: the transfer *)

(** Registers [R] of a receiver once it has the short message of sender [y]. *)
Definition short_info (w : Z) : Z := let mi := messageInfoFromWord w in wordFromMessageInfo (mkMI (mi_label mi) 0 0 (mi_length mi)).
Definition with_message (w badge : Z) (y x : tcb_t) : tcb_t :=
  upd_tcbRegs (fun _ => <[badgeRegister := badge]> (<[msgInfoRegister := short_info w]>
    (take_regs (tcbRegs y) (tcbRegs x) (take (Z.to_nat (mi_length (messageInfoFromWord w))) msgRegisters)))) x.

(** A call that passes the checks, in a state that satisfies the invariants. *)
Record call_ready (k : kstate) (ep badge : Z) (w cur dest prev : Z) (y x : tcb_t) (e : endpoint_t) : Prop := {
  cr_cur : ksCurThread k = cur /\ cur <> ksIdleThread k /\ k_tcb k !! cur = Some y /\ cur <> 0 /\ ksSchedulerAction k = 0;
  cr_msg : tcbFault y = seL4_Fault_NullFault /\ default 0 (tcbRegs y !! msgInfoRegister) = w /\ fastpath_mi_check w = false;
  cr_head : at_head k ep dest e x /\ ep_state e = EPState_Recv;
  cr_dest : dest <> cur /\ 1 < dest /\ tcbEPNext x <> cur /\ tcbQueued x = false /\ tcbDomain x = ksCurDomain k;
  cr_prio : tcbPriority x < tcbPriority y -> isHighestPrio (ksCurDomain k) (tcbPriority x) k = inl (true, k);
  cr_bufs : buffer_slot k cur /\ buffer_slot k dest;
  cr_reply : k_cte k !! TCB_PTR_CTE_PTR cur tcbReply = Some (mkCte (cap_reply_cap true true cur) (mkMdb 0 true true prev)) /\
    TCB_PTR_CTE_PTR cur tcbReply <> 0;
  cr_caller : k_cte k !! TCB_PTR_CTE_PTR dest tcbCaller = Some (mkCte cap_null_cap nullMDBNode) /\ TCB_PTR_CTE_PTR dest tcbCaller <> 0;
  cr_extra : current_extra_caps k <> [] }.

(** The threads and the slots after the call: [y] waits for the reply, for which
    [dest] has a capability, derived from the one [y] has in its own slot. *)
Definition call_tcbs (cur dest : Z) (y x : tcb_t) (T : gmap Z tcb_t) : gmap Z tcb_t :=
  <[cur := upd_tsType (fun _ => ThreadState_BlockedOnReply) y]> (<[dest := upd_tsType (fun _ => ThreadState_Running) x]> T).
Definition call_slots (cur dest prev : Z) (grant : bool) (S : gmap Z cte_t) : gmap Z cte_t :=
  let replySlot := TCB_PTR_CTE_PTR cur tcbReply in
  let callerSlot := TCB_PTR_CTE_PTR dest tcbCaller in
  <[replySlot := mkCte (cap_reply_cap true true cur) (mkMdb callerSlot true true prev)]>
    (<[callerSlot := mkCte (cap_reply_cap grant false cur) (mkMdb 0 false false replySlot)]> S).
Definition call_sent (k : kstate) (ep badge w cur dest prev : Z) (y x : tcb_t) (e : endpoint_t) : kstate :=
  upd_k_cte (call_slots cur dest prev (blockingIPCCanGrant x)) (upd_k_ep (insert ep (ep_without x e))
    (upd_k_tcb (fun T => call_tcbs cur dest y (with_message w badge y x) (without_head x T)) k)).

Lemma sent_short sb rb n W : 0 <= n <= 4 -> sent_words sb rb n W = W /\ sent_count sb rb n = n.
Proof.
  intros Hn. unfold sent_words, sent_count, n_msgRegisters. rewrite Z.min_l by lia.
  by destruct ((rb =? 0) || (sb =? 0)); rewrite ?Z.sub_diag.
Qed.

(** A short message without capabilities. *)
Lemma short_transfer k s t y x w ep badge grant : k_tcb k !! s = Some y -> k_tcb k !! t = Some x -> s <> 0 -> t <> 0 -> s <> t ->
  tcbFault y = seL4_Fault_NullFault -> default 0 (tcbRegs y !! msgInfoRegister) = w -> fastpath_mi_check w = false ->
  buffer_slot k s -> buffer_slot k t -> current_extra_caps k <> [] ->
  wp (doIPCTransfer s ep badge grant t) (fun _ k' => exists ec,
    k' = upd_current_extra_caps (fun _ => ec) (upd_k_tcb (insert t (with_message w badge y x)) k)) (fun _ => False) k.
Proof.
  intros Hs Ht Hs0 Ht0 Hst Hf Hw Hc Hbs Hbt He. destruct (short_message w Hc) as (Hx & Hl & _).
  assert (msg_tag k s = messageInfoFromWord w) as Et by (unfold msg_tag; by rewrite (reg_of k s y), Hw).
  unfold doIPCTransfer. wp_step. eapply lookupIPCBuffer_ok; [eauto | done | done |]. wp_step. eapply wp_tcb_get; [done.. |].
  rewrite Hf, bool_decide_true by done. wp_step. eapply lookupIPCBuffer_ok; [eauto | done | done |].
  eapply wp_mono; [apply (doNormalTransfer_ok k s t y x); try done | | done]. { intros _. by rewrite Et, Hx. }
  intros _ k' (ec & ->). rewrite Et. destruct (sent_short (ipc_buffer k false s) (ipc_buffer k true t) (mi_length (messageInfoFromWord w)) (k_word k) Hl) as [-> ->].
  exists ec. unfold with_msg, with_message, short_info. rewrite (land_mask 7), (Z.mod_small _ (2 ^ 7)) by lia.
  unfold n_msgRegisters. by rewrite Z.min_l by lia.
Qed.

(** The reply capability, as the general code inserts it. *)
Lemma setup_caller k cur dest prev grant y (Q : unit -> kstate -> Prop) F : ksSchedulerAction k <> 0 -> k_tcb k !! cur = Some y -> cur <> 0 ->
  k_cte k !! TCB_PTR_CTE_PTR cur tcbReply = Some (mkCte (cap_reply_cap true true cur) (mkMdb 0 true true prev)) -> TCB_PTR_CTE_PTR cur tcbReply <> 0 ->
  k_cte k !! TCB_PTR_CTE_PTR dest tcbCaller = Some (mkCte cap_null_cap nullMDBNode) -> TCB_PTR_CTE_PTR dest tcbCaller <> 0 ->
  Q tt (upd_k_cte (call_slots cur dest prev grant) (upd_k_tcb (insert cur (upd_tsType (fun _ => ThreadState_BlockedOnReply) y)) k)) ->
  wp (setupCallerCap cur dest grant) Q F k.
Proof.
  intros Ha Hy H0 Hr Hr0 Hc Hc0 HQ. assert (TCB_PTR_CTE_PTR cur tcbReply <> TCB_PTR_CTE_PTR dest tcbCaller) as Hne by (intros E; rewrite E in Hr; congruence).
  unfold setupCallerCap, setThreadState, scheduleTCB. wp_step. wp_step. eapply wp_tcb_upd; [done.. |]. wp_steps. simpl.
  rewrite (proj2 (Z.eqb_neq _ SchedulerAction_ResumeCurrentThread) Ha), andb_false_r. wp_steps. eapply wp_cte_some; [done | exact Hr |].
  cbn [cte_cap]. wp_steps. rewrite Z.eqb_refl. cbn [andb]. wp_steps. eapply wp_cte_some; [done | exact Hc |]. cbn [cte_cap is_null]. wp_steps.
  change (is_null cap_null_cap) with true. cbn iota. unfold cteInsert. wp_steps. eapply wp_cte_some; [done | exact Hr |]. cbn [cte_cap cteMDBNode mdbNext].
  change (isCapRevocable _ _) with (Some false). wp_steps. eapply wp_cte_some; [done | exact Hc |]. wp_steps. change (is_null _) with true. cbn iota. cbn [cteMDBNode nullMDBNode mdbNext mdbPrev Z.eqb andb].
  wp_steps. cbn [setUntypedCapAsFull]. wp_steps. unfold set_cap, set_mdb, set_next. eapply wp_cte_update; [done | exact Hc |]. wp_steps.
  eapply wp_cte_update; [done | apply lookup_insert_eq |]. wp_steps.
  eapply wp_cte_update; [done | simpl; rewrite !lookup_insert_ne by done; exact Hr |]. cbn [Z.eqb negb]. wp_steps.
  revert HQ. unfold call_slots, upd_k_cte, upd_k_tcb, mdb_set_next. simpl. by rewrite insert_insert_eq.
Qed.

Lemma without_head_ne x T t : t <> tcbEPNext x -> without_head x T !! t = T !! t.
Proof. intros H. unfold without_head. destruct (_ =? _); [done |]. by rewrite lookup_alter_ne. Qed.

(** The general code of a call, up to the choice of the next thread. *)
Lemma send_call k ep badge cg cgr w cur dest prev y x e : call_ready k ep badge w cur dest prev y x e -> cg || cgr = true ->
  wp (sendIPC true true badge cg cgr cur ep) (fun _ k' => exists ec, k' = upd_ksSchedulerAction (fun _ => dest)
    (upd_current_extra_caps (fun _ => ec) (call_sent k ep badge w cur dest prev y x e))) (fun _ => False) k.
Proof.
  intros [(Ec & Hi & Hy & H0 & Ea) (Hf & Hw & Hc) (HA & Er) (Hdc & H1 & Hnc & Hq & Hd) Hp (Hb1 & Hb2) (Hr & Hr0) (Hcl & Hcl0) Hx] Hg.
  pose proof HA as [[He He0] [Hdx Hd0] Eh _ Hn]. assert (dest <> tcbEPNext x) as Hnd by (destruct (decide (tcbEPNext x = 0)) as [->|N]; [done | destruct (Hn N); congruence]).
  unfold sendIPC. wp_step. eapply wp_ep; [done.. |]. rewrite Er. unfold ep_ptr_get_queue. wp_steps. eapply wp_ep; [done.. |]. wp_steps.
  cbn [q_head]. rewrite Eh, (proj2 (Z.eqb_neq _ _) Hd0). cbn [negb]. wp_steps. rewrite <- Eh at 2. eapply take_head; [exact HA |]. wp_steps.
  eapply wp_mono; [apply (short_transfer _ cur dest y x w); try done; simpl; rewrite without_head_ne; congruence | | done].
  intros _ k2 (ec & ->). wp_steps. eapply wp_tcb_get; [apply lookup_insert_eq | done |]. wp_steps. unfold setThreadState, scheduleTCB. wp_steps.
  eapply wp_tcb_upd; [apply lookup_insert_eq | done |]. wp_steps. simpl. rewrite Ec, (proj2 (Z.eqb_neq _ _) Hdc). cbn [andb]. wp_steps.
  unfold possibleSwitchTo. wp_steps. eapply wp_tcb_get; [simpl; apply lookup_insert_eq | done |]. simpl. rewrite Hd, Z.eqb_refl. cbn [negb]. wp_steps. simpl.
  rewrite Ea. cbn [Z.eqb negb SchedulerAction_ResumeCurrentThread]. unfold set_action. wp_steps. rewrite Hg.
  eapply setup_caller; [simpl; lia | simpl; rewrite !lookup_insert_ne, without_head_ne by congruence; exact Hy | done | exact Hr | done | exact Hcl | done |].
  exists ec. apply kstate_ext; try reflexivity. simpl. unfold call_tcbs. by rewrite insert_insert_eq.
Qed.

(** ** Call: the general code *)

(** The lookup of the general code, where the fast one finds [c]. *)
Definition looks_up (k : kstate) (t cptr : Z) (c : cap) : Prop := exists root,
  caps_ok (k_cte k) /\ k_cte k !! TCB_PTR_CTE_PTR t tcbCTable = Some root /\ TCB_PTR_CTE_PTR t tcbCTable <> 0 /\
  lookup_fp (cte_cap root) cptr k = inl (c, k).

Lemma lookup_slow k t cptr c : looks_up k t cptr c -> c <> cap_null_cap ->
  exists slot, slot <> 0 /\ lookupSlot t cptr k = inl ((EXCEPTION_NONE, slot), k) /\ cte_cap <$> k_cte k !! slot = Some c.
Proof.
  intros (root & HS & Hr & H0 & El) Hc. pose proof (HS _ _ Hr) as Hok. simpl in Hok. rewrite lookup_fp_ok in El by done.
  destruct (cap_get_capType (cte_cap root) =? 10) eqn:Et; [|by injection El as <-]. apply Z.eqb_eq in Et. injection El as El.
  destruct (resolveAddressBits_ok k _ cptr 64 (caps_slots _ HS) (proj1 Hok) Et ltac:(lia)) as (r & f & Er & Eq).
  destruct (resolve_path _ _ _) as [s l|g l gs|lv l|] eqn:Ep; simpl in El; try (by subst c). simpl in Er. injection Er as <- <-.
  destruct (resolve_path_found _ _ _ _ _ (caps_slots _ HS) (proj1 Hok) Ep) as [Hs0 [es Hes]]. exists s. split; [done |]. split.
  - unfold lookupSlot, bind, cte_get at 1. rewrite (proj2 (Z.eqb_neq _ _) H0), Hr. change wordBits with (Z.of_nat 64). by rewrite Eq.
  - rewrite Hes in *. simpl in *. by f_equal.
Qed.

Lemma extra_none k t b mi (Q : exception_t -> kstate -> Prop) F : mi_extraCaps mi = 0 -> current_extra_caps k <> [] ->
  (forall ec, ec <> [] -> Q EXCEPTION_NONE (upd_current_extra_caps (fun _ => ec) k)) -> wp (lookupExtraCaps t b mi) Q F k.
Proof.
  intros Hm He HQ. assert (wp (set_extra_cap 0 0) (fun _ k' => Q EXCEPTION_NONE k') F k) as H.
  { unfold set_extra_cap. wp_steps. destruct (current_extra_caps k) as [|a l] eqn:E; [done |]. cbn [length].
    rewrite (proj2 (Z.leb_le 0 0)), (proj2 (Z.ltb_lt 0 _)) by lia. cbn [andb]. wp_steps.
    apply (wp_at _ _ (ret EXCEPTION_NONE) Q F eq_refl). wp_steps. replace (upd_current_extra_caps _ k) with (upd_current_extra_caps (fun _ => 0 :: l) k).
    - by apply HQ.
    - apply kstate_ext; try reflexivity. simpl. by rewrite E. }
  unfold lookupExtraCaps. destruct (b =? 0); [wp_step; eapply wp_mono; [exact H | | done]; intros; by wp_steps |].
  cbv zeta. rewrite Hm. change (Z.to_nat 0) with 0%nat. cbn [lookupExtraCaps_loop]. do 2 wp_step. rewrite bool_decide_true by done. cbn [negb]. wp_step.
  eapply wp_mono; [exact H | | done]. intros. by wp_steps.
Qed.

(** Restarting the caller and clearing the extra capabilities changes nothing for
    what follows. *)
Definition call_restarted (k : kstate) (cur : Z) (y : tcb_t) (ec : list Z) : kstate :=
  upd_k_tcb (insert cur (upd_tsType (fun _ => ThreadState_Restart) y)) (upd_current_extra_caps (fun _ => ec) k).

Lemma at_head_restarted k ep dest e x cur y ec : k_tcb k !! cur = Some y -> dest <> cur -> at_head k ep dest e x ->
  at_head (call_restarted k cur y ec) ep dest e x.
Proof.
  intros Hy Hd [[He H0] [Hx Hd0] Eh Ep Hn]. split; try done.
  - split; [|done]. simpl. by rewrite lookup_insert_ne.
  - intros N. destruct (Hn N) as [Hz Hne]. split; [|done]. simpl. by apply lookup_insert_is_Some'; right.
Qed.

Lemma call_ready_restarted k ep badge w cur dest prev y x e ec : ec <> [] -> call_ready k ep badge w cur dest prev y x e ->
  call_ready (call_restarted k cur y ec) ep badge w cur dest prev (upd_tsType (fun _ => ThreadState_Restart) y) x e.
Proof.
  intros Hec [(Ec & Hi & Hy & H0 & Ea) Hm (HA & Er) Hd Hp Hb Hr Hcl Hx]. split; try done.
  - split_and!; try done. apply lookup_insert_eq.
  - split; [|done]. apply at_head_restarted; try done. apply Hd.
  - intros Hlt. by apply (isHighestPrio_bits k), Hp.
Qed.

(** The call as the general code makes it. *)
Lemma slow_call fuel k ep badge cgr cg cr w cptr cur dest prev y x e : call_ready k ep badge w cur dest prev y x e -> cg || cgr = true ->
  looks_up k cur cptr (cap_endpoint_cap badge cgr cg true cr ep) -> default 0 (tcbRegs y !! capRegister) = cptr ->
  wp (handleSyscall fuel SysCall) (fun r k' => r = EXCEPTION_NONE /\
    forget k' = forget (upd_ksCurThread (fun _ => dest) (call_sent k ep badge w cur dest prev y x e))) (fun _ => False) k.
Proof.
  intros HC Hg HL Hcp. pose proof HC as [(Ec & Hi & Hy & H0 & Ea) (Hf & Hw & Hmc) _ (Hdc & H1 & Hnc & Hq & Hd) Hp (Hb1 & _) _ _ Hx].
  destruct (lookup_slow k cur cptr _ HL ltac:(done)) as (slot & Hs0 & El & Hsl). destruct (k_cte k !! slot) as [es|] eqn:Hes; [|done]. injection Hsl as Hsl.
  destruct (short_message w Hmc) as (Hxc & _). unfold handleSyscall, invoke_entry, handleInvocation, getRegister. wp_steps. rewrite Ec.
  eapply wp_tcb_get; [done.. |]. wp_steps. eapply wp_tcb_get; [done.. |]. wp_steps. rewrite Hw, Hcp. unfold lookupCapAndSlot. wp_steps.
  unfold wp at 1. rewrite El. rewrite bool_decide_true by done. wp_steps. eapply wp_cte_some; [done.. |]. wp_steps. rewrite bool_decide_true by done. cbn [negb].
  wp_steps. eapply lookupIPCBuffer_ok; [eauto | done | done |]. wp_steps. apply extra_none; [done | done |]. intros ec Hec.
  rewrite bool_decide_true by done. cbn [negb]. wp_steps. rewrite Hsl. unfold decodeInvocation. cbn [isArchCap cap_get_capType]. change (isArchCap _) with false. cbn [negb].
  wp_steps. apply wp_set_restart; [simpl; rewrite Ec; eauto | by simpl; rewrite Ec |].
  assert (restarting (upd_current_extra_caps (fun _ => ec) k) = call_restarted k cur y ec) as -> by (unfold restarting; simpl; by rewrite Ec, Hy).
  pose proof (call_ready_restarted _ _ _ _ _ _ _ _ _ _ _ Hec HC) as HC'. unfold performInvocation_Endpoint. wp_steps.
  change (ksCurThread (call_restarted k cur y ec)) with (ksCurThread k). rewrite Ec.
  eapply wp_mono; [by apply (send_call _ _ _ _ _ _ _ _ _ _ _ _ HC') | | done]. intros _ k1 (ec1 & ->). wp_steps. unfold finish_invocation.
  rewrite !bool_decide_false by done. wp_steps. eapply wp_tcb_get; [apply lookup_insert_eq | done |]. simpl. wp_steps.
  rewrite bool_decide_true by done. cbn [negb]. wp_steps.
  eapply (leave_to_candidate _ cur dest); [split | intros ev; split; [done |]].
  - done.
  - split_and!; [apply lookup_insert_eq | done | done].
  - done.
  - split_and!; [simpl; unfold call_tcbs; rewrite lookup_insert_ne by congruence; apply lookup_insert_eq | done | done].
  - intros Hlt. by apply (isHighestPrio_bits k), Hp.
  - apply forget_eq; try reflexivity; [|simpl; lia]. intros t. simpl. unfold call_tcbs.
    destruct (decide (t = cur)) as [->|]; [by rewrite !lookup_insert_eq |]. rewrite !(lookup_insert_ne _ cur) by done.
    destruct (decide (t = dest)) as [->|]; [by rewrite !lookup_insert_eq |]. rewrite !(lookup_insert_ne _ dest) by done.
    unfold without_head. destruct (_ =? _); [by rewrite lookup_insert_ne |].
    destruct (decide (t = tcbEPNext x)) as [->|]; [rewrite !lookup_alter_eq | rewrite !lookup_alter_ne by done]; by rewrite lookup_insert_ne.
Qed.

(** ** Call: the fast path *)

Lemma reply_cap_fp k cur dest prev grant (Q : unit -> kstate -> Prop) F :
  k_cte k !! TCB_PTR_CTE_PTR cur tcbReply = Some (mkCte (cap_reply_cap true true cur) (mkMdb 0 true true prev)) -> TCB_PTR_CTE_PTR cur tcbReply <> 0 ->
  k_cte k !! TCB_PTR_CTE_PTR dest tcbCaller = Some (mkCte cap_null_cap nullMDBNode) -> TCB_PTR_CTE_PTR dest tcbCaller <> 0 ->
  Q tt (upd_k_cte (call_slots cur dest prev grant) k) ->
  wp (fastpath_insert_reply (TCB_PTR_CTE_PTR dest tcbCaller) (TCB_PTR_CTE_PTR cur tcbReply) grant cur) Q F k.
Proof.
  intros Hr Hr0 Hc Hc0 HQ. assert (TCB_PTR_CTE_PTR cur tcbReply <> TCB_PTR_CTE_PTR dest tcbCaller) as Hne by (intros E; rewrite E in Hr; congruence).
  unfold fastpath_insert_reply, cap_reply_cap_ptr_new_np, mdb_node_ptr_set_mdbPrev_np, mdb_node_ptr_mset_mdbNext_mdbRevocable_mdbFirstBadged, set_cap, set_prev.
  wp_step. eapply wp_cte_update; [done | exact Hc |]. wp_step. eapply wp_cte_update; [done | apply lookup_insert_eq |].
  eapply wp_cte_update; [done | simpl; rewrite !lookup_insert_ne by done; exact Hr |].
  revert HQ. unfold call_slots, upd_k_cte. simpl. by rewrite insert_insert_eq.
Qed.

(** Switching to [t] and going back to user level. *)
Lemma restore_fp k t x pgd asid badge info (Q : exception_t -> kstate -> Prop) F : k_tcb k !! t = Some x -> t <> 0 ->
  (forall ev, Q EXCEPTION_NONE (upd_ksCurThread (fun _ => t) (upd_k_events (fun _ => ev)
    (upd_k_tcb (insert t (upd_tcbRegs (fun R => <[badgeRegister := badge]> (<[msgInfoRegister := info]> R)) x)) k)))) ->
  wp (do* switchToThread_fp t pgd asid in let* cur := gets ksCurThread in fastpath_restore badge info cur) Q F k.
Proof.
  intros Hx H0 HQ. unfold switchToThread_fp, fastpath_restore, armv_contextSwitch, event, setRegister. wp_steps. eapply wp_tcb_get; [done.. |]. wp_steps.
  simpl. eapply wp_tcb_upd; [exact Hx | done |]. wp_steps. eapply wp_tcb_upd; [apply lookup_insert_eq | done |]. wp_steps.
  replace (upd_k_tcb _ _) with (upd_ksCurThread (fun _ => t) (upd_k_events (fun l => (l ++ [setCurrentUserVSpaceRoot (ttbr_new (Z.land asid 65535) (pptr_to_paddr pgd))])
      ++ [writeTPIDRURO (tcbIPCBuffer x)]) (upd_k_tcb (insert t (upd_tcbRegs (fun R => <[badgeRegister := badge]> (<[msgInfoRegister := info]> R)) x)) k))).
  - apply HQ.
  - apply kstate_ext; try reflexivity. simpl. by rewrite insert_insert_eq.
Qed.

Lemma fast_call k ep badge w cur dest prev y x e pgd asid : call_ready k ep badge w cur dest prev y x e ->
  wp (fastpath_call_commit w (mkFpCall ep badge dest pgd asid)) (fun r k' => r = EXCEPTION_NONE /\
    forget k' = forget (upd_ksCurThread (fun _ => dest) (call_sent k ep badge w cur dest prev y x e))) (fun _ => False) k.
Proof.
  intros [(Ec & Hi & Hy & H0 & Ea) (Hf & Hw & Hmc) (HA & Er) (Hdc & H1 & Hnc & Hq & Hd) Hp _ (Hr & Hr0) (Hcl & Hcl0) _].
  pose proof HA as [[He He0] [Hdx Hd0] Eh _ Hn]. assert (dest <> tcbEPNext x) as Hnd by (destruct (decide (tcbEPNext x = 0)) as [->|N]; [done | destruct (Hn N); congruence]).
  destruct (short_message w Hmc) as (Hxc & Hlen & Eraw). unfold fastpath_call_commit. cbn [fc_ep fc_dest fc_badge fc_pgd fc_asid]. cbv zeta. rewrite Eraw.
  wp_step. eapply take_head_fp; [exact HA |]. wp_steps. simpl. rewrite Ec. unfold thread_state_ptr_set_tsType_np at 1.
  eapply wp_tcb_upd; [simpl; rewrite without_head_ne by congruence; exact Hy | done |]. wp_steps.
  eapply wp_tcb_get; [simpl; rewrite lookup_insert_ne, without_head_ne by congruence; exact Hdx | done |]. wp_steps.
  eapply reply_cap_fp; [exact Hr | done | exact Hcl | done |]. wp_steps.
  eapply (copy_fp_ok _ cur dest); [apply lookup_insert_eq | simpl; rewrite lookup_insert_ne, without_head_ne by congruence; exact Hdx | done.. | congruence | exact Hlen |].
  wp_step. unfold thread_state_ptr_set_tsType_np. eapply wp_tcb_upd; [apply lookup_insert_eq | done |].
  eapply restore_fp; [apply lookup_insert_eq | done |]. intros ev. split; [done |].
  apply forget_eq; try reflexivity. intros t. simpl. unfold call_tcbs, with_message.
  assert (wordFromMessageInfo (seL4_MessageInfo_set_capsUnwrapped (messageInfoFromWord w) 0) = short_info w) as ->.
  { unfold short_info, seL4_MessageInfo_set_capsUnwrapped. by rewrite Hxc. }
  destruct (decide (t = dest)) as [->|]; [by rewrite (lookup_insert_ne _ cur), !lookup_insert_eq by congruence |].
  rewrite !(lookup_insert_ne _ dest) by done. destruct (decide (t = cur)) as [->|]; [by rewrite !lookup_insert_eq |].
  by rewrite !lookup_insert_ne.
Qed.

(** ** States in which a system call starts *)

(** What the kernel's state satisfies when a thread runs: the invariants of the
    scheduler and of message passing; no choice of a thread is pending; every
    thread has its five slots; capabilities point to objects; the reply
    capability of a runnable thread is in its slot and has no child; and a thread
    that waits for a message has nobody to reply to. *)
Record fp_inv (Q : obj -> list Z) (k : kstate) : Prop := {
  fi_config : config_ok;
  fi_ipc : kipc (fun _ => False) Q k;
  fi_resume : ksSchedulerAction k = 0;
  fi_cur : runnable k (ksCurThread k) = true;
  fi_caps : caps_ok (k_cte k);
  fi_objs : forall p e, k_cte k !! p = Some e ->
    match cte_cap e with
    | cap_endpoint_cap _ _ _ _ _ ep => is_Some (k_ep k !! ep)
    | cap_reply_cap _ _ t => is_Some (k_tcb k !! t)
    | _ => True
    end;
  fi_slots : forall t i, is_Some (k_tcb k !! t) -> 0 <= i <= tcbBuffer -> is_Some (k_cte k !! TCB_PTR_CTE_PTR t i) /\ TCB_PTR_CTE_PTR t i <> 0;
  fi_master : forall t x, k_tcb k !! t = Some x -> isRunnable_st (tsType x) = true -> exists prev,
    k_cte k !! TCB_PTR_CTE_PTR t tcbReply = Some (mkCte (cap_reply_cap true true t) (mkMdb 0 true true prev));
  fi_empty : forall t x, k_tcb k !! t = Some x -> tsType x = ThreadState_BlockedOnReceive ->
    k_cte k !! TCB_PTR_CTE_PTR t tcbCaller = Some (mkCte cap_null_cap nullMDBNode);
  fi_extra : current_extra_caps k <> [] }.

Lemma runnable_some k t : runnable k t = true -> exists x, k_tcb k !! t = Some x /\ isRunnable_st (tsType x) = true.
Proof. unfold runnable. destruct (k_tcb k !! t) as [x|]; [|done]. simpl. eauto. Qed.

(** The thread at the head of a queue of receivers. *)
Lemma head_of_recv Q k ep e : kipc (fun _ => False) Q k -> k_ep k !! ep = Some e -> ep_state e = EPState_Recv ->
  exists x, at_head k ep (epQueue_head e) e x /\ tsType x = ThreadState_BlockedOnReceive /\ 1 < epQueue_head e /\ tcbQueued x = false /\
    forall t, runnable k t = true -> t <> epQueue_head e /\ t <> tcbEPNext x.
Proof.
  intros [HS HI] He Er. pose proof (io_queue _ _ _ HI (OEp ep)) as [Hseg Hhd _ Hnd]. simpl in Hhd. rewrite He in Hhd. cbn [from_option q_head] in Hhd.
  assert (obj_waits (istore_of k) (OEp ep) = Some ThreadState_BlockedOnReceive) as Ew by (simpl; rewrite He; simpl; by rewrite Er).
  assert (forall t, t ∈ Q (OEp ep) -> exists z, k_tcb k !! t = Some z /\ tsType z = ThreadState_BlockedOnReceive) as Hmem.
  { intros t Ht. destruct (io_mem _ _ _ HI _ _ Ht) as (_ & i & Hi & _ & Est). destruct (istore_tcb _ _ _ _ eq_refl Hi) as (z & Hz & <-).
    exists z. split; [done |]. rewrite Ew in Est. by injection Est. }
  destruct (Q (OEp ep)) as [|d rest] eqn:EQ; [pose proof (proj1 (io_idle _ _ _ HI (OEp ep)) EQ); congruence |]. simpl in Hhd. rewrite Hhd.
  destruct Hseg as (Hd0 & Hpv & Hnx & _). destruct (Hmem d) as (x & Hx & Est); [set_solver |].
  unfold ipv, inx in Hpv, Hnx. simpl in Hpv, Hnx. rewrite lookup_fmap, Hx in Hpv, Hnx. simpl in Hpv, Hnx.
  assert (forall t z, k_tcb k !! t = Some z -> tsType z = ThreadState_BlockedOnReceive -> runnable k t = false) as Hnr by (intros t z Hz Ez; unfold runnable; rewrite Hz; simpl; by rewrite Ez).
  destruct (blocked_quiet k d (ithread_of x) HS) as (H1 & _ & _ & Hqd & _ & _); [simpl; by rewrite lookup_fmap, Hx | simpl; by rewrite Est | simpl; by rewrite Est |].
  unfold queued in Hqd. rewrite Hx in Hqd. simpl in Hqd. apply list.NoDup_cons in Hnd as [Hnin _].
  assert (tcbEPNext x <> 0 -> tcbEPNext x ∈ rest) as Hin by (rewrite Hnx; destruct rest; [done | intros _; set_solver]).
  exists x. split; [|split; [done |]; split; [done |]; split; [done |]].
  - split; try done.
    + split; [done |]. intros ->. pose proof (proj1 (io_objs _ _ _ HI)) as H. simpl in H. congruence.
    + intros N. destruct (Hmem (tcbEPNext x)) as (z & Hz & _); [set_solver |]. split; [eauto |]. intros E. apply Hnin. rewrite <- E at 1. by apply Hin.
  - intros t Ht. split; [intros ->; rewrite (Hnr _ _ Hx Est) in Ht; done |]. intros ->. destruct (decide (tcbEPNext x = 0)) as [E|N].
    + rewrite E in Ht. destruct (runnable_some _ _ Ht) as (z & Hz & _). apply (io_tcb _ _ _ HI 0); [simpl; rewrite lookup_fmap, Hz; simpl; eauto | done].
    + destruct (Hmem (tcbEPNext x)) as (z & Hz & Ez); [set_solver |]. rewrite (Hnr _ _ Hz Ez) in Ht. done.
Qed.

Lemma no_fault f : negb (seL4_Fault_get_seL4_FaultType f =? 0) = false -> f = seL4_Fault_NullFault.
Proof. by destruct f. Qed.

Lemma fp_dom_ok k (R : Z -> kstate -> Prop) F : dom_ok (ksCurDomain k) -> R (ksCurDomain k) k -> wp fp_dom R F k.
Proof.
  unfold dom_ok, fp_dom, maxDom. intros Hd HR. destruct (CONFIG_NUM_DOMAINS - 1 =? 0) eqn:E; wp_steps; [|done].
  apply Z.eqb_eq in E. by replace 0 with (ksCurDomain k) by lia.
Qed.
Lemma fp_domain_ok k x (R : bool -> kstate -> Prop) F : dom_ok (ksCurDomain k) -> dom_ok (tcbDomain x) ->
  R true k -> (tcbDomain x = ksCurDomain k -> R false k) -> wp (fp_other_domain x) R F k.
Proof.
  unfold dom_ok, fp_other_domain, maxDom. intros H1 H2 Ht Hf. wp_steps. destruct (negb _ && _) eqn:E; [done |]. apply Hf.
  rewrite andb_false_iff, !negb_false_iff, !Z.eqb_eq in E. lia.
Qed.
Lemma isHighestPrio_total k d p : queues k -> dom_ok d -> exists b, isHighestPrio d p k = inl (b, k).
Proof.
  intros [Q HQ] Hd. pose proof (isHighestPrio_ok Q k d p HQ Hd) as H. unfold wp in H. destruct (isHighestPrio d p k) as [[b k']|]; [|done].
  destruct H as [-> _]. eauto.
Qed.

(** What the fast path finds in a slot. *)
Lemma lookup_fp_object Q k root cptr : fp_inv Q k -> k_cte k !! TCB_PTR_CTE_PTR (ksCurThread k) tcbCTable = Some root -> exists c,
  lookup_fp (cte_cap root) cptr k = inl (c, k) /\ match c with cap_endpoint_cap _ _ _ _ _ ep => exists e, k_ep k !! ep = Some e /\ ep <> 0 | _ => True end.
Proof.
  intros HI Hr. pose proof (fi_caps _ _ HI) as HS. pose proof (HS _ _ Hr) as Hok. simpl in Hok. rewrite lookup_fp_ok by done. eexists. split; [done |].
  destruct (_ =? 10); [|done]. destruct (resolve_path _ _ _) as [s l| | |]; try done. simpl. destruct (k_cte k !! s) as [es|] eqn:Es; [|done]. simpl.
  pose proof (fi_objs _ _ HI s es Es) as Ho. destruct (cte_cap es); try done. destruct Ho as [e He]. exists e. split; [done |].
  intros ->. pose proof (proj1 (io_objs _ _ _ (proj2 (fi_ipc _ _ HI)))) as H. simpl in H. congruence.
Qed.

(** The checks change nothing, and a call they let through is ready. *)
Lemma call_checks Q k cptr w y : fp_inv Q k -> k_tcb k !! ksCurThread k = Some y -> default 0 (tcbRegs y !! msgInfoRegister) = w ->
  wp (fastpath_call_checks cptr w) (fun r k' => k' = k /\ forall f, r = Some f -> exists prev x e cgr cg cr,
    call_ready k (fc_ep f) (fc_badge f) w (ksCurThread k) (fc_dest f) prev y x e /\ cg || cgr = true /\
    looks_up k (ksCurThread k) cptr (cap_endpoint_cap (fc_badge f) cgr cg true cr (fc_ep f))) (fun _ => False) k.
Proof.
  intros HI Hy Hw. pose proof (fi_ipc _ _ HI) as HK. pose proof (so_base _ (proj1 HK)) as HB. pose proof (b_queues _ HB) as [RQ HRQ].
  destruct (qo_bounds _ _ HRQ _ _ Hy) as (H1 & _). pose proof (fi_cur _ _ HI) as Hrun.
  assert (forall t i, is_Some (k_tcb k !! t) -> 0 <= i <= tcbBuffer -> is_Some (k_cte k !! TCB_PTR_CTE_PTR t i) /\ TCB_PTR_CTE_PTR t i <> 0) as Hsl by apply HI.
  unfold fastpath_call_checks. wp_steps. eapply wp_tcb_get; [done | lia |]. destruct (_ || _) eqn:Em; [wp_steps; split; [done | by intros]|].
  apply orb_false_iff in Em as [Hmi Hfl]. apply no_fault in Hfl. wp_steps.
  destruct (Hsl (ksCurThread k) tcbCTable) as [[root Hroot] Hr0]; [eauto | done |]. eapply wp_cte_some; [done.. |]. wp_steps.
  destruct (lookup_fp_object Q k root cptr HI Hroot) as (c & El & Hc). unfold wp at 1. rewrite El.
  destruct c as [| |badge cgr cg snd cr ep| | | | | | | | | | | | | | |]; try (wp_steps; split; [done | by intros]).
  destruct snd; [|wp_steps; split; [done | by intros]]. destruct Hc as (e & He & He0). wp_steps. eapply wp_ep; [done.. |].
  destruct (bool_decide (ep_state e = EPState_Recv)) eqn:Er; cbn [negb]; [apply bool_decide_eq_true in Er | wp_steps; split; [done | by intros]].
  destruct (head_of_recv Q k ep e HK He Er) as (x & HA & Est & Hd1 & Hq & Hoth). pose proof HA as [_ [Hx Hd0] _ _ _].
  destruct (Hsl (epQueue_head e) tcbVTable) as [[vt Hvt] Hv0]; [eauto | done |]. wp_steps. eapply wp_cte_some; [done.. |].
  destruct (isValidVTableRoot_fp (cte_cap vt)) as [[pgd asid]|]; [|wp_steps; split; [done | by intros]].
  wp_step. apply fp_dom_ok; [apply HB |]. wp_step. eapply wp_tcb_get; [done.. |]. wp_step.
  destruct (isHighestPrio_total k (ksCurDomain k) (tcbPriority x) (b_queues _ HB) (b_dom _ HB)) as [h Eh].
  apply (wp_mono _ (fun low k' => k' = k /\ (low = false -> tcbPriority x < tcbPriority y -> h = true)) _ (fun _ => False)); [| |done].
  { destruct (tcbPriority x <? tcbPriority y) eqn:El2; wp_steps; [|split; [done | lia]]. unfold wp. rewrite Eh. cbv beta. by destruct h. }
  intros low k' [-> Hlow]. destruct low; [wp_steps; split; [done | by intros] |]. destruct (negb cg && negb cgr) eqn:Eg; [wp_steps; split; [done | by intros] |].
  wp_step. apply fp_domain_ok; [apply HB | by apply (qo_bounds _ _ HRQ (epQueue_head e)) | wp_steps; split; [done | by intros] |]. intros Hdom.
  wp_steps. split; [done |]. intros f [= <-]. destruct (fi_master _ _ HI _ _ Hy) as [prev Hprev].
  { unfold runnable in Hrun. rewrite Hy in Hrun. exact Hrun. }
  exists prev, x, e, cgr, cg, cr. cbn [fc_ep fc_badge fc_dest]. split; [|split; [by destruct cg, cgr | by exists root; split; [apply HI |]]].
  destruct (Hoth _ Hrun) as [Ho1 Ho2]. split; try done.
  - split_and!; try done; [|lia | apply HI]. intros E. pose proof (idle_not_runnable k (b_idle _ HB)). congruence.
  - intros Hlt. by rewrite <- (Hlow eq_refl Hlt).
  - by split; apply Hsl.
  - split; [done | by apply Hsl].
  - split; [by apply (fi_empty _ _ HI _ _ Hx) | by apply Hsl].
  - apply HI.
Qed.

(** Two runs with the same result and states that differ at most in what nobody
    reads. *)
Definition same_outcome (a b : (exception_t * kstate) + fault) : Prop :=
  match a, b with
  | inl (r, k), inl (r', k') => r = r' /\ forget k = forget k'
  | inr f, inr f' => f = f'
  | _, _ => False
  end.
Lemma same_outcome_refl a : same_outcome a a.
Proof. by destruct a as [[r k]|]. Qed.
Lemma same_outcome_wp (m m' : M kstate exception_t) k r k0 :
  wp m (fun s k' => s = r /\ forget k' = forget k0) (fun _ => False) k -> wp m' (fun s k' => s = r /\ forget k' = forget k0) (fun _ => False) k ->
  same_outcome (m k) (m' k).
Proof. unfold wp, same_outcome. destruct (m k) as [[s k1]|], (m' k) as [[s' k2]|]; try done. intros [-> E1] [-> E2]. split; congruence. Qed.

(** A Call through the fast path has the outcome of one through the general code. *)
Lemma fastpath_call_ok fuel Q k y : fp_inv Q k -> k_tcb k !! ksCurThread k = Some y ->
  same_outcome (fastpath_call fuel (default 0 (tcbRegs y !! capRegister)) (default 0 (tcbRegs y !! msgInfoRegister)) k) (handleSyscall fuel SysCall k).
Proof.
  intros HI Hy. set (cptr := default 0 (tcbRegs y !! capRegister)). set (w := default 0 _).
  pose proof (call_checks Q k cptr w y HI Hy eq_refl) as HC. unfold wp in HC. unfold fastpath_call, bind.
  destruct (fastpath_call_checks cptr w k) as [[[f|] k']|]; [..|done]; destruct HC as [-> HC]; [|apply same_outcome_refl].
  destruct (HC f eq_refl) as (prev & x & e & cgr & cg & cr & HR & Hg & HL). destruct f as [ep badge dest pgd asid]. cbn [fc_ep fc_badge fc_dest] in *.
  eapply same_outcome_wp; [by apply (fast_call _ _ _ _ _ _ _ _ _ _ pgd asid HR) | by apply (slow_call fuel _ _ _ _ _ _ _ _ _ _ _ _ _ _ HR Hg HL)].
Qed.
End Fast.
