(* ===== verification/KFastReply.v ===== *)
(** * The fast ReplyRecv does what the slow one does

    The reply goes to the caller whose capability is in the slot of the current
    thread, which then waits at its endpoint; compared with [handleReply] and
    [handleRecv] as in KFastThms. *)

From S2P Require Import Prelude Dll KCaps KCapThms KState KSched KSchedInv KSchedThms KCspace KMdb KMsg KVspace KIpc KDelete KIpcInv KIpcThms.
From S2P Require Import KTransfer KUntyped KInvoke KInterrupt KTcb KMmu KSyscall KUntypedThms KInvokeThms KSchedSteps KFastpath KFastThms.

(** ** The last of a queue *)

(** Thread [cur], in state [y], put at the end of the queue of endpoint [e]. *)
Definition at_end (e : endpoint_t) (y : tcb_t) : tcb_t := upd_tcbEPNext (fun _ => 0) (upd_tcbEPPrev (fun _ => epQueue_tail e) y).
Definition with_tail (cur : Z) (e : endpoint_t) (T : gmap Z tcb_t) : gmap Z tcb_t :=
  if epQueue_tail e =? 0 then T else alter (upd_tcbEPNext (fun _ => cur)) (epQueue_tail e) T.
Definition ep_with (cur : Z) (e : endpoint_t) : endpoint_t :=
  mkEp EPState_Recv (if epQueue_tail e =? 0 then cur else epQueue_head e) cur.

Record may_append (k : kstate) (ep cur : Z) (e : endpoint_t) (y : tcb_t) : Prop := {
  ma_ep : k_ep k !! ep = Some e /\ ep <> 0;
  ma_cur : k_tcb k !! cur = Some y /\ cur <> 0;
  ma_ends : epQueue_head e = 0 <-> epQueue_tail e = 0;
  ma_tail : epQueue_tail e <> 0 -> is_Some (k_tcb k !! epQueue_tail e) /\ epQueue_tail e <> cur }.

Definition appended (k : kstate) (ep cur : Z) (e : endpoint_t) (y : tcb_t) : kstate :=
  upd_k_ep (insert ep (ep_with cur e)) (upd_k_tcb (fun T => <[cur := at_end e y]> (with_tail cur e T)) k).

Lemma append_slow k ep cur e y (Q : unit -> kstate -> Prop) F : may_append k ep cur e y -> Q tt (appended k ep cur e y) ->
  wp (ep_wait ep cur EPState_Recv) Q F k.
Proof.
  intros [[He H0] [Hy Hc0] Hends Ht] HQ. unfold ep_wait, ep_ptr_get_queue, tcbEPAppend, endpoint_ptr_set_state, ep_ptr_set_queue. wp_steps.
  eapply wp_ep; [done.. |]. wp_steps. cbn [q_head q_end]. destruct (epQueue_head e =? 0) eqn:E.
  - apply Z.eqb_eq in E. pose proof (proj1 Hends E) as Et. wp_steps. eapply wp_tcb_upd; [done.. |]. wp_steps. eapply wp_tcb_upd; [apply lookup_insert_eq | done |].
    wp_steps. eapply wp_ep_update; [done.. |]. eapply wp_ep_update; [done | apply lookup_insert_eq |].
    replace (upd_k_ep _ _) with (appended k ep cur e y); [done |]. apply kstate_ext; try reflexivity; simpl; rewrite insert_insert_eq; unfold with_tail, ep_with, at_end; by rewrite Et.
  - apply Z.eqb_neq in E. assert (epQueue_tail e <> 0) as Et by tauto. destruct (Ht Et) as [[z Hz] Hzc]. wp_steps. eapply wp_tcb_upd; [done.. |]. wp_steps.
    eapply wp_tcb_upd; [simpl; rewrite lookup_insert_ne by done; exact Hy | done |]. wp_steps. eapply wp_tcb_upd; [apply lookup_insert_eq | done |].
    wp_steps. eapply wp_ep_update; [done.. |]. eapply wp_ep_update; [done | apply lookup_insert_eq |].
    replace (upd_k_ep _ _) with (appended k ep cur e y); [done |].
    apply kstate_ext; try reflexivity; simpl; rewrite insert_insert_eq; unfold with_tail, ep_with; rewrite (proj2 (Z.eqb_neq _ _) Et); [|done].
    by rewrite (alter_some _ _ _ z).
Qed.

Lemma append_fast k ep cur e y (Q : unit -> kstate -> Prop) F : may_append k ep cur e y -> Q tt (appended k ep cur e y) ->
  wp (fastpath_enqueue ep cur) Q F k.
Proof.
  intros [[He H0] [Hy Hc0] Hends Ht] HQ. unfold fastpath_enqueue, endpoint_ptr_set_epQueue_head_np, endpoint_ptr_mset_epQueue_tail_state. wp_steps.
  eapply wp_ep; [done.. |]. destruct (epQueue_tail e =? 0) eqn:E.
  - apply Z.eqb_eq in E. wp_steps. eapply wp_tcb_upd; [done.. |]. wp_steps. eapply wp_tcb_upd; [apply lookup_insert_eq | done |].
    wp_steps. eapply wp_ep_update; [done.. |]. eapply wp_ep_update; [done | apply lookup_insert_eq |].
    replace (upd_k_ep _ _) with (appended k ep cur e y); [done |]. apply kstate_ext; try reflexivity; simpl; rewrite insert_insert_eq; unfold with_tail, ep_with, at_end; by rewrite E.
  - apply Z.eqb_neq in E. destruct (Ht E) as [[z Hz] Hzc]. wp_steps. eapply wp_tcb_upd; [done.. |]. wp_steps.
    eapply wp_tcb_upd; [simpl; rewrite lookup_insert_ne by done; exact Hy | done |]. wp_steps. eapply wp_tcb_upd; [apply lookup_insert_eq | done |].
    eapply wp_ep_update; [done.. |].
    replace (upd_k_ep _ _) with (appended k ep cur e y); [done |].
    apply kstate_ext; try reflexivity; simpl; rewrite ?insert_insert_eq; unfold with_tail, ep_with; rewrite (proj2 (Z.eqb_neq _ _) E); [|done].
    by rewrite (alter_some _ _ _ z).
Qed.

(** ** The reply capability *)
Definition reply_slots (cur caller prev : Z) (S : gmap Z cte_t) : gmap Z cte_t :=
  <[TCB_PTR_CTE_PTR cur tcbCaller := mkCte cap_null_cap nullMDBNode]>
    (<[TCB_PTR_CTE_PTR caller tcbReply := mkCte (cap_reply_cap true true caller) (mkMdb 0 true true prev)]> S).

(** The reply capability in the slot of [cur], with its parent in that of [caller]. *)
Record reply_child (k : kstate) (cur caller prev : Z) (grant : bool) : Prop := {
  rl_caller : exists rv fb, k_cte k !! TCB_PTR_CTE_PTR cur tcbCaller =
    Some (mkCte (cap_reply_cap grant false caller) (mkMdb 0 rv fb (TCB_PTR_CTE_PTR caller tcbReply)));
  rl_reply : k_cte k !! TCB_PTR_CTE_PTR caller tcbReply =
    Some (mkCte (cap_reply_cap true true caller) (mkMdb (TCB_PTR_CTE_PTR cur tcbCaller) true true prev));
  rl_nonzero : TCB_PTR_CTE_PTR cur tcbCaller <> 0 /\ TCB_PTR_CTE_PTR caller tcbReply <> 0 }.

Lemma reply_distinct k cur caller prev grant : reply_child k cur caller prev grant -> TCB_PTR_CTE_PTR cur tcbCaller <> TCB_PTR_CTE_PTR caller tcbReply.
Proof. intros [(rv & fb & Hc) Hr _] E. rewrite E in Hc. congruence. Qed.

Lemma delete_fast k cur caller prev grant (Q : unit -> kstate -> Prop) F : reply_child k cur caller prev grant ->
  Q tt (upd_k_cte (reply_slots cur caller prev) k) -> wp (fastpath_delete_reply (TCB_PTR_CTE_PTR cur tcbCaller)) Q F k.
Proof.
  intros HL HQ. pose proof (reply_distinct _ _ _ _ _ HL) as Hne. destruct HL as [(rv & fb & Hc) Hr [Hc0 Hr0]].
  unfold fastpath_delete_reply, mdb_node_ptr_mset_mdbNext_mdbRevocable_mdbFirstBadged, set_cap, set_mdb. wp_steps. eapply wp_cte_some; [done.. |]. wp_steps.
  cbn [cteMDBNode mdbPrev]. eapply wp_cte_update; [done.. |]. wp_steps. eapply wp_cte_update; [done | simpl; rewrite lookup_insert_ne by done; exact Hc |].
  eapply wp_cte_update; [done | apply lookup_insert_eq |]. revert HQ. unfold reply_slots, upd_k_cte. simpl. by rewrite insert_insert_eq.
Qed.

(** ** Deleting it does not disturb the lookup *)
Definition no_cnode (c : cap) : Prop := cap_get_capType c <> 10.

Lemma next_level_change (S S' : gmap Z cte_t) p e e' c path : S !! p = Some e -> S' !! p = Some e' -> no_cnode (cte_cap e) -> no_cnode (cte_cap e') ->
  (forall s, s <> p -> cte_cap <$> S' !! s = cte_cap <$> S !! s) -> next_level S' c path = next_level S c path.
Proof.
  intros He He' Hn Hn' HS. unfold next_level. destruct c; try done. cbv zeta. repeat (case_decide; [done |]).
  set (s := _ + _). destruct (decide (s = p)) as [->|Ns].
  - rewrite He, He'. unfold no_cnode in *. destruct (cte_cap e), (cte_cap e'); done.
  - specialize (HS s Ns). destruct (S !! s) as [a|], (S' !! s) as [b|]; simpl in HS; try done. by injection HS as ->.
Qed.
Lemma resolve_path_change (S S' : gmap Z cte_t) p e e' c path : S !! p = Some e -> S' !! p = Some e' -> no_cnode (cte_cap e) -> no_cnode (cte_cap e') ->
  (forall s, s <> p -> cte_cap <$> S' !! s = cte_cap <$> S !! s) -> resolve_path S' c path = resolve_path S c path.
Proof.
  intros He He' Hn Hn' HS. remember (length path) as n eqn:En. revert c path En. induction (lt_wf n) as [n _ IH]. intros c path ->.
  rewrite !resolve_path_step, (next_level_change S S' p e e') by done. destruct (next_level S c path) as [r|[c' p']] eqn:E; [done |].
  apply next_level_shorter in E. by apply (IH (length p')).
Qed.

Lemma cap_ok_domain (S S' : gmap Z cte_t) c : (forall p, is_Some (S !! p) -> is_Some (S' !! p)) -> cap_ok S c -> cap_ok S' c.
Proof.
  intros Hd [H1 H2]. split; [|done]. destruct c; try done. destruct H1 as (? & ? & ? & Hs). split_and!; try done. intros i Hi. by apply Hd, Hs.
Qed.

(** Slots that differ in one capability, a reply capability that became null. *)
Lemma looks_up_change k k' t cptr c p e : k_cte k !! p = Some e -> (exists g m u, cte_cap e = cap_reply_cap g m u) ->
  (forall s, s <> p -> cte_cap <$> k_cte k' !! s = cte_cap <$> k_cte k !! s) -> cte_cap <$> k_cte k' !! p = Some cap_null_cap ->
  cap_get_capType c = 4 -> looks_up k t cptr c -> looks_up k' t cptr c.
Proof.
  intros He (g & m & u & Ec) HS Hp Ht (root & HC & Hr & H0 & El). destruct (k_cte k' !! p) as [e'|] eqn:He'; [|done]. injection Hp as Hp.
  assert (forall q, is_Some (k_cte k !! q) -> is_Some (k_cte k' !! q)) as Hd.
  { intros q [b Hb]. destruct (decide (q = p)) as [->|Nq]; [by rewrite He' |]. specialize (HS q Nq). rewrite Hb in HS. destruct (k_cte k' !! q); [eauto | done]. }
  assert (caps_ok (k_cte k')) as HC'.
  { intros q b Hb. simpl. destruct (decide (q = p)) as [->|Nq]; [rewrite He' in Hb; injection Hb as <-; rewrite Hp; done |].
    specialize (HS q Nq). rewrite Hb in HS. destruct (k_cte k !! q) as [b'|] eqn:Eb'; [|done]. injection HS as ->.
    apply (cap_ok_domain (k_cte k)); [done |]. by apply (HC q). }
  pose proof (HC _ _ Hr) as Hok. simpl in Hok. rewrite lookup_fp_ok in El by done. destruct (cap_get_capType (cte_cap root) =? 10) eqn:Et; [|by injection El as <-].
  injection El as El. assert (TCB_PTR_CTE_PTR t tcbCTable <> p) as Npt by (intros E; rewrite E, He in Hr; injection Hr as <-; by rewrite Ec in Et).
  pose proof (HS _ Npt) as Hr'. rewrite Hr in Hr'. destruct (k_cte k' !! TCB_PTR_CTE_PTR t tcbCTable) as [root'|] eqn:Er'; [|done]. injection Hr' as Er.
  exists root'. split_and!; try done. rewrite Er. rewrite lookup_fp_ok by (try done; by apply (cap_ok_domain (k_cte k))). rewrite Et. do 2 f_equal.
  rewrite (resolve_path_change (k_cte k) (k_cte k') p e e') by (try done; unfold no_cnode; rewrite ?Ec, ?Hp; done). rewrite <- El in *.
  destruct (resolve_path _ _ _) as [s l| | |]; try done. simpl. destruct (decide (s = p)) as [->|Ns].
  - simpl in Ht. rewrite He in Ht. simpl in Ht. by rewrite Ec in Ht.
  - specialize (HS s Ns). destruct (k_cte k !! s), (k_cte k' !! s); simpl in HS |- *; try done. by injection HS.
Qed.

Section FastReply.
Context `{C : KConfig} `{P : KPlatform}.

Lemma delete_slow k cur caller prev grant (Q : unit -> kstate -> Prop) F : reply_child k cur caller prev grant ->
  Q tt (upd_k_cte (reply_slots cur caller prev) k) -> wp (cteDeleteOne (TCB_PTR_CTE_PTR cur tcbCaller)) Q F k.
Proof.
  intros HL HQ. pose proof (reply_distinct _ _ _ _ _ HL) as Hne. destruct HL as [(rv & fb & Hc) Hr [Hc0 Hr0]].
  unfold cteDeleteOne. wp_steps. eapply wp_cte_some; [done.. |]. change (negb (is_null _)) with true. cbn iota. wp_steps.
  unfold isFinalCapability. wp_steps. eapply wp_cte_some; [done.. |]. cbn [cteMDBNode mdbPrev mdbNext]. rewrite (proj2 (Z.eqb_neq _ _) Hr0). wp_steps.
  eapply wp_cte_some; [done.. |]. wp_steps.
  apply (wp_mono _ (fun _ k' => k' = k) _ (fun _ => False)); [| |done]. { destruct (sameObjectAs _ _); by wp_steps. }
  intros final ? ->. wp_steps. cbn [cte_cap]. unfold finaliseCap_exposed, finaliseCap_immediate. change (isArchCap _) with false. cbn iota. wp_steps.
  cbn [capRemovable]. wp_steps. change (is_null cap_null_cap) with true. cbn [andb]. wp_steps. unfold emptySlot, set_next, set_cap, set_mdb, postCapDeletion. wp_steps.
  eapply wp_cte_some; [done.. |]. change (negb (is_null _)) with true. cbn iota. cbn [cteMDBNode mdbPrev mdbNext]. rewrite (proj2 (Z.eqb_neq _ _) Hr0). cbn [negb Z.eqb].
  wp_steps. eapply wp_cte_update; [done.. |]. wp_steps. eapply wp_cte_update; [done | simpl; rewrite lookup_insert_ne by done; exact Hc |]. wp_steps.
  eapply wp_cte_update; [done | apply lookup_insert_eq |]. wp_steps. revert HQ. unfold reply_slots, upd_k_cte, mdb_set_next. simpl. by rewrite insert_insert_eq.
Qed.

(** ** ReplyRecv *)

(** A call that passes the checks, in a state that satisfies the invariants. *)
Record replying (k : kstate) (ep w cur caller prev : Z) (grant : bool) (y x : tcb_t) (e : endpoint_t) : Prop := {
  rr_cur : ksCurThread k = cur /\ cur <> ksIdleThread k /\ k_tcb k !! cur = Some y /\ cur <> 0 /\ ksSchedulerAction k = 0;
  rr_msg : tcbFault y = seL4_Fault_NullFault /\ default 0 (tcbRegs y !! msgInfoRegister) = w /\ fastpath_mi_check w = false;
  rr_caller : k_tcb k !! caller = Some x /\ 1 < caller /\ caller <> cur /\ tsType x = ThreadState_BlockedOnReply /\
    tcbFault x = seL4_Fault_NullFault /\ tcbQueued x = false /\ tcbDomain x = ksCurDomain k;
  rr_linked : reply_child k cur caller prev grant;
  rr_ep : may_append k ep cur e y /\ ep_state e <> EPState_Send /\ epQueue_tail e <> caller;
  rr_bound : tcbBoundNotification y <> 0 -> exists n, k_ntfn k !! tcbBoundNotification y = Some n /\ ntfn_state n <> NtfnState_Active;
  rr_prio : isHighestPrio (ksCurDomain k) (tcbPriority x) k = inl (true, k);
  rr_bufs : buffer_slot k cur /\ buffer_slot k caller;
  rr_extra : current_extra_caps k <> [] }.

Definition waiting (ep : Z) (cg : bool) (y : tcb_t) : tcb_t :=
  upd_blockingIPCCanGrant (fun _ => cg) (upd_blockingObject (fun _ => ep) (upd_tsType (fun _ => ThreadState_BlockedOnReceive) y)).

(** The reply sent; then the current thread waiting. *)
Definition replied (k : kstate) (w cur caller prev : Z) (y x : tcb_t) : kstate :=
  upd_k_cte (reply_slots cur caller prev) (upd_k_tcb (insert caller (upd_tsType (fun _ => ThreadState_Running) (with_message w 0 y x))) k).
Definition reply_done (k : kstate) (ep w cur caller prev : Z) (cg : bool) (y x : tcb_t) (e : endpoint_t) : kstate :=
  upd_ksCurThread (fun _ => caller) (appended (replied k w cur caller prev y x) ep cur e (waiting ep cg y)).

Lemma slow_reply k ep w cur caller prev grant y x e : replying k ep w cur caller prev grant y x e ->
  wp handleReply (fun _ k' => exists ec, k' = upd_ksSchedulerAction (fun _ => caller) (upd_current_extra_caps (fun _ => ec) (replied k w cur caller prev y x)))
    (fun _ => False) k.
Proof.
  intros [(Ec & Hi & Hy & H0 & Ea) (Hf & Hw & Hmc) (Hx & H1 & Hcc & Est & Hfx & Hq & Hd) HL _ _ _ (Hb1 & Hb2) Hex].
  pose proof (rl_caller _ _ _ _ _ HL) as (rv & fb & Hc). destruct (rl_nonzero _ _ _ _ _ HL) as [Hc0 _].
  unfold handleReply, slot_cap. wp_steps. rewrite Ec. eapply wp_cte_some; [done.. |]. wp_steps. cbn [cte_cap]. wp_steps. rewrite (proj2 (Z.eqb_neq _ _) Hcc). cbn [negb].
  wp_steps. unfold doReplyTransfer. wp_steps. eapply wp_tcb_get; [done | lia |]. wp_steps. rewrite bool_decide_true by done. rewrite (bool_decide_true (tcbFault x = _)) by done.
  wp_steps. eapply wp_mono; [apply (short_transfer k cur caller y x w); try done; lia | | done]. intros _ k1 (ec & ->). wp_steps.
  eapply delete_slow; [destruct HL as [A1 A2 A3]; split; [exact A1 | exact A2 | exact A3] |]. wp_steps. unfold setThreadState, scheduleTCB. wp_steps.
  eapply wp_tcb_upd; [apply lookup_insert_eq | lia |]. wp_steps. simpl. rewrite Ec, (proj2 (Z.eqb_neq _ _) Hcc). cbn [andb]. wp_steps.
  unfold possibleSwitchTo. wp_steps. eapply wp_tcb_get; [simpl; apply lookup_insert_eq | lia |]. simpl. rewrite Hd, Z.eqb_refl. cbn [negb]. wp_steps. simpl.
  rewrite Ea. cbn [Z.eqb negb SchedulerAction_ResumeCurrentThread]. unfold set_action. wp_steps. exists ec. apply kstate_ext; try reflexivity. simpl. by rewrite insert_insert_eq.
Qed.

Lemma may_append_replied k ep w cur caller prev y x e (f : kstate -> kstate) : k_tcb k !! caller = Some x -> caller <> cur -> epQueue_tail e <> caller ->
  (forall s, k_tcb (f s) = k_tcb s /\ k_ep (f s) = k_ep s) ->
  may_append k ep cur e y -> may_append (f (replied k w cur caller prev y x)) ep cur e y.
Proof.
  intros Hx Hcc Htc Hf [[He H0] [Hy Hc0] Hends Ht]. destruct (Hf (replied k w cur caller prev y x)) as [E1 E2]. split; rewrite ?E1, ?E2; try done; simpl.
  - by rewrite lookup_insert_ne.
  - intros N. destruct (Ht N). by rewrite lookup_insert_ne.
Qed.

Lemma with_tail_cur cur e u v (T : gmap Z tcb_t) : epQueue_tail e <> cur -> <[cur := v]> (with_tail cur e (<[cur := u]> T)) = <[cur := v]> (with_tail cur e T).
Proof.
  intros Hne. unfold with_tail. destruct (_ =? _); [by rewrite insert_insert_eq |]. apply map_eq. intros t.
  destruct (decide (t = cur)) as [->|]; [by rewrite !lookup_insert_eq |]. rewrite !(lookup_insert_ne _ cur) by done.
  destruct (decide (t = epQueue_tail e)) as [->|]; [rewrite !lookup_alter_eq | rewrite !lookup_alter_ne by done]; by rewrite lookup_insert_ne.
Qed.
Lemma append_tail_ne k ep cur e y : may_append k ep cur e y -> epQueue_tail e <> cur.
Proof. intros [_ [_ H0] _ Ht] E. assert (epQueue_tail e <> 0) as N by congruence. by destruct (Ht N). Qed.

Lemma with_tail_ne cur e (T : gmap Z tcb_t) t : t <> epQueue_tail e -> with_tail cur e T !! t = T !! t.
Proof. intros H. unfold with_tail. destruct (_ =? _); [done |]. by rewrite lookup_alter_ne. Qed.

(** Waiting at an endpoint without senders, with another thread about to run. *)
Lemma slow_recv k ep cur cb cgr cg snd y e : may_append k ep cur e y -> ep_state e <> EPState_Send -> ksSchedulerAction k <> 0 ->
  (tcbBoundNotification y <> 0 -> exists n, k_ntfn k !! tcbBoundNotification y = Some n /\ ntfn_state n <> NtfnState_Active) ->
  wp (receiveIPC cur (cap_endpoint_cap cb cgr cg snd true ep) true) (fun _ k' => k' = appended k ep cur e (waiting ep cg y)) (fun _ => False) k.
Proof.
  intros HA Hs Ha Hn. pose proof (append_tail_ne _ _ _ _ _ HA) as Htc. pose proof HA as [[He H0] [Hy Hc0] _ _].
  unfold receiveIPC. wp_steps. eapply wp_tcb_get; [done.. |]. wp_step.
  apply (wp_mono _ (fun b k' => b = false /\ k' = k) _ (fun _ => False)); [| |done].
  { destruct (tcbBoundNotification y =? 0) eqn:E; cbn [negb]; wp_steps; [done |]. apply Z.eqb_neq in E. destruct (Hn E) as (n & Hnn & Hna).
    unfold wp at 1, ntfn_get. rewrite (proj2 (Z.eqb_neq _ _) E), Hnn. wp_steps. split; [|done]. by apply bool_decide_eq_false. }
  intros b k0 [-> ->]. cbn iota. wp_steps. eapply wp_ep; [done.. |]. unfold scheduleTCB.
  assert (wp (do* tcb_upd cur (waiting ep cg) in do* scheduleTCB cur in ep_wait ep cur EPState_Recv)
    (fun _ k' => k' = appended k ep cur e (waiting ep cg y)) (fun _ => False) k) as H; [|destruct (ep_state e); [exact H | done | exact H]].
  unfold scheduleTCB. wp_steps. eapply wp_tcb_upd; [done.. |]. wp_steps. simpl. rewrite (proj2 (Z.eqb_neq _ SchedulerAction_ResumeCurrentThread) Ha), andb_false_r. wp_steps.
  eapply (append_slow _ ep cur e (waiting ep cg y)).
  - destruct HA as [A1 A2 A3 A4]. split; try done; simpl; [by rewrite lookup_insert_eq |]. intros N. destruct (A4 N). by rewrite lookup_insert_ne.
  - apply kstate_ext; try reflexivity. simpl. by apply with_tail_cur.
Qed.

Lemma delete_null k p m (Q : unit -> kstate -> Prop) F : k_cte k !! p = Some (mkCte cap_null_cap m) -> p <> 0 -> Q tt k -> wp (cteDeleteOne p) Q F k.
Proof. intros He H0 HQ. unfold cteDeleteOne. wp_steps. eapply wp_cte_some; [done.. |]. change (negb (is_null _)) with false. cbn iota. by wp_steps. Qed.

Lemma slow_reply_recv fuel k ep cb cgr cg snd w cptr cur caller prev grant y x e : replying k ep w cur caller prev grant y x e ->
  looks_up k cur cptr (cap_endpoint_cap cb cgr cg snd true ep) -> default 0 (tcbRegs y !! capRegister) = cptr ->
  wp (handleSyscall fuel SysReplyRecv) (fun r k' => r = EXCEPTION_NONE /\ forget k' = forget (reply_done k ep w cur caller prev cg y x e)) (fun _ => False) k.
Proof.
  intros HR HL Hcp. pose proof HR as [(Ec & Hi & Hy & H0 & Ea) _ (Hx & H1 & Hcc & Est & Hfx & Hq & Hd) HRL (HA & Hes & Htc) Hbn Hp _ _].
  pose proof (rl_caller _ _ _ _ _ HRL) as (rv & fb & Hc). destruct (rl_nonzero _ _ _ _ _ HRL) as [Hc0 _]. pose proof (reply_distinct _ _ _ _ _ HRL) as Hne.
  unfold handleSyscall. wp_steps. eapply wp_mono; [by apply (slow_reply k ep w cur caller prev grant y x e) | | done]. intros _ k1 (ec & ->).
  set (k1 := upd_ksSchedulerAction (fun _ => caller) (upd_current_extra_caps (fun _ => ec) (replied k w cur caller prev y x))).
  assert (k_tcb k1 !! cur = Some y) as Hy1 by (simpl; by rewrite lookup_insert_ne).
  assert (looks_up k1 cur cptr (cap_endpoint_cap cb cgr cg snd true ep)) as HL1.
  { eapply (looks_up_change k); [exact Hc | by eexists _, _, _ | | | done | done].
    - intros s Ns. simpl. unfold reply_slots. rewrite lookup_insert_ne by done. destruct (decide (s = TCB_PTR_CTE_PTR caller tcbReply)) as [->|Nr].
      + by rewrite lookup_insert_eq, (rl_reply _ _ _ _ _ HRL).
      + by rewrite lookup_insert_ne.
    - simpl. unfold reply_slots. by rewrite lookup_insert_eq. }
  destruct (lookup_slow k1 cur cptr _ HL1 ltac:(done)) as (slot & Hs0 & El & Hsl). destruct (k_cte k1 !! slot) as [es|] eqn:Hesl; [|done]. injection Hsl as Hsl.
  unfold handleRecv, getRegister, lookupCap. wp_steps. change (ksCurThread k1) with (ksCurThread k). rewrite Ec. eapply wp_tcb_get; [done.. |]. wp_steps.
  rewrite Hcp. unfold wp at 1. rewrite El. rewrite bool_decide_true by done. wp_steps. eapply wp_cte_some; [done.. |]. wp_steps. rewrite bool_decide_true by done.
  cbn [negb]. rewrite Hsl. wp_steps. unfold deleteCallerCap. cbn [negb]. wp_steps. eapply delete_null; [simpl; apply lookup_insert_eq | done |].
  eapply wp_mono; [apply (slow_recv k1 ep cur cb cgr cg snd y e); [|done | simpl; lia | done] | | done].
  { apply (may_append_replied k ep w cur caller prev y x e (fun s => upd_ksSchedulerAction (fun _ => caller) (upd_current_extra_caps (fun _ => ec) s))); done. }
  intros _ k2 ->. eapply (leave_to_candidate _ cur caller); [split | intros ev; split; [done |]].
  - done.
  - split_and!; [apply lookup_insert_eq | done | done].
  - done.
  - split_and!; [simpl; rewrite lookup_insert_ne by congruence; rewrite with_tail_ne by congruence; apply lookup_insert_eq | done | done].
  - intros _. by apply (isHighestPrio_bits k).
  - apply forget_eq; try reflexivity. simpl. lia.
Qed.

Lemma fast_reply_recv k ep w cur caller prev grant cg y x e pgd asid : replying k ep w cur caller prev grant y x e ->
  wp (fastpath_reply_recv_commit w (mkFpReply ep cg caller pgd asid)) (fun r k' => r = EXCEPTION_NONE /\
    forget k' = forget (reply_done k ep w cur caller prev cg y x e)) (fun _ => False) k.
Proof.
  intros [(Ec & Hi & Hy & H0 & Ea) (Hf & Hw & Hmc) (Hx & H1 & Hcc & Est & Hfx & Hq & Hd) HRL (HA & Hes & Htc) _ _ _ _].
  pose proof (append_tail_ne _ _ _ _ _ HA) as Htn. destruct (short_message w Hmc) as (Hxc & Hlen & Eraw).
  unfold fastpath_reply_recv_commit. cbn [fr_ep fr_canGrant fr_caller fr_pgd fr_asid]. cbv zeta. rewrite Eraw. wp_steps. rewrite Ec.
  unfold thread_state_ptr_mset_blockingObject_tsType. eapply wp_tcb_upd; [done.. |]. wp_steps. eapply wp_tcb_upd; [apply lookup_insert_eq | done |]. wp_steps.
  eapply (append_fast _ ep cur e (waiting ep cg y)).
  { destruct HA as [A1 A2 A3 A4]. split; [done | split; [apply lookup_insert_eq | done] | done |]. intros N. destruct (A4 N). split; [|done]. simpl. by rewrite !lookup_insert_ne. }
  wp_steps. eapply delete_fast; [destruct HRL as [A1 A2 A3]; split; [exact A1 | exact A2 | exact A3] |]. wp_steps.
  eapply (copy_fp_ok _ cur caller); [apply lookup_insert_eq | simpl; rewrite lookup_insert_ne, with_tail_ne, !lookup_insert_ne by congruence; exact Hx | done | lia | done | exact Hlen |].
  wp_step. unfold thread_state_ptr_set_tsType_np. eapply wp_tcb_upd; [apply lookup_insert_eq | lia |].
  eapply restore_fp; [apply lookup_insert_eq | lia |]. intros ev. split; [done |].
  assert (wordFromMessageInfo (seL4_MessageInfo_set_capsUnwrapped (messageInfoFromWord w) 0) = short_info w) as ->.
  { unfold short_info, seL4_MessageInfo_set_capsUnwrapped. by rewrite Hxc. }
  apply forget_eq; try reflexivity. intros t. simpl. unfold with_message.
  destruct (decide (t = caller)) as [->|]; [by rewrite !lookup_insert_eq, (lookup_insert_ne _ cur), with_tail_ne, lookup_insert_eq by congruence |].
  rewrite !(lookup_insert_ne _ caller) by done. destruct (decide (t = cur)) as [->|]; [by rewrite !lookup_insert_eq |].
  rewrite !(lookup_insert_ne _ cur) by done. unfold with_tail. destruct (_ =? _); [by rewrite !lookup_insert_ne |].
  destruct (decide (t = epQueue_tail e)) as [->|]; [rewrite !lookup_alter_eq | rewrite !lookup_alter_ne by done]; by rewrite !lookup_insert_ne.
Qed.

(** ** The checks *)

(** The capability to reply with, of a thread: of the caller, which waits, and in
    the derivation tree the only child of the one in the caller's own slot. *)
Definition replies_ok (k : kstate) : Prop := forall t e g m u,
  k_cte k !! TCB_PTR_CTE_PTR t tcbCaller = Some e -> is_Some (k_tcb k !! t) -> cte_cap e = cap_reply_cap g m u ->
  (exists x, k_tcb k !! u = Some x /\ tsType x = ThreadState_BlockedOnReply) /\ exists prev, reply_child k t u prev g.

(** The end of a queue that nobody sends to. *)
Lemma tail_of_queue Q k ep e cur y : kipc (fun _ => False) Q k -> k_ep k !! ep = Some e -> ep_state e <> EPState_Send ->
  k_tcb k !! cur = Some y -> isRunnable_st (tsType y) = true ->
  may_append k ep cur e y /\ forall u x, k_tcb k !! u = Some x -> tsType x = ThreadState_BlockedOnReply -> epQueue_tail e <> u.
Proof.
  intros [HS HI] He Es Hy Hr. pose proof (io_queue _ _ _ HI (OEp ep)) as [Hseg Hhd Htl _]. simpl in Hhd, Htl. rewrite He in Hhd, Htl. cbn [from_option q_head q_end] in Hhd, Htl.
  assert (forall t, is_Some (k_tcb k !! t) -> t <> 0) as Hnz by (intros t [z Hz]; apply (io_tcb _ _ _ HI); simpl; rewrite lookup_fmap, Hz; simpl; eauto).
  assert (epQueue_tail e <> 0 -> exists z, k_tcb k !! epQueue_tail e = Some z /\ tsType z = ThreadState_BlockedOnReceive) as Ht.
  { intros N. assert (epQueue_tail e ∈ Q (OEp ep)) as Hin by (rewrite Htl in *; destruct (Q (OEp ep)) as [|q l]; [done |]; apply list_elem_of_In; destruct (exists_last (l := q :: l)) as (l' & z & ->); [done |]; rewrite last_last; apply in_or_app; right; by left).
    destruct (io_mem _ _ _ HI _ _ Hin) as (_ & i & Hi & _ & Ew). destruct (istore_tcb _ _ _ _ eq_refl Hi) as (z & Hz & <-). exists z. split; [done |].
    simpl in Ew. rewrite He in Ew. simpl in Ew. destruct (ep_state e); [done | done |]. simpl in Ew. by injection Ew. }
  split; [split|].
  - split; [done |]. intros ->. pose proof (proj1 (io_objs _ _ _ HI)) as H. simpl in H. congruence.
  - split; [done |]. apply Hnz. eauto.
  - rewrite Hhd, Htl. destruct (Q (OEp ep)) as [|q l] eqn:EQ; [done |]. split; intros E; exfalso.
    + simpl in E. destruct Hseg as (Hq0 & _). done.
    + destruct (exists_last (l := q :: l)) as (l' & z & El); [done |]. rewrite El, last_last in E. subst z.
      apply (dseg_nonzero _ _ _ _ _ 0 Hseg); [|done]. rewrite El. set_solver.
  - intros N. destruct (Ht N) as (z & Hz & Ez). split; [eauto |]. intros E. rewrite E, Hy in Hz. injection Hz as <-. by rewrite Ez in Hr.
  - intros u x Hx Ex E. assert (epQueue_tail e <> 0) as N by (rewrite E; apply Hnz; eauto). destruct (Ht N) as (z & Hz & Ez). rewrite E, Hx in Hz. congruence.
Qed.

Lemma bound_check Q k t y (R : bool -> kstate -> Prop) F : kipc (fun _ => False) Q k -> k_tcb k !! t = Some y -> R true k ->
  ((tcbBoundNotification y <> 0 -> exists n, k_ntfn k !! tcbBoundNotification y = Some n /\ ntfn_state n <> NtfnState_Active) -> R false k) ->
  wp (if negb (tcbBoundNotification y =? 0)
      then let* n := ntfn_get (tcbBoundNotification y) in ret (bool_decide (ntfn_state n = NtfnState_Active)) else ret false) R F k.
Proof.
  intros [_ HI] Hy Ht Hf. destruct (tcbBoundNotification y =? 0) eqn:E; cbn [negb].
  - apply Z.eqb_eq in E. wp_steps. by apply Hf.
  - apply Z.eqb_neq in E. destruct (proj2 (io_bound _ _ _ HI) t (ithread_of y)) as (n & Hn & _); [simpl; by rewrite lookup_fmap, Hy | done |]. simpl in Hn.
    wp_steps. unfold wp, ntfn_get. rewrite (proj2 (Z.eqb_neq _ _) E), Hn. unfold ret. case_bool_decide; [done |]. apply Hf. eauto.
Qed.

(** The rest of the checks, once the capability is found. *)
Lemma reply_checks Q k cptr w y : fp_inv Q k -> replies_ok k -> k_tcb k !! ksCurThread k = Some y -> default 0 (tcbRegs y !! msgInfoRegister) = w ->
  wp (fastpath_reply_recv_checks cptr w) (fun r k' => k' = k /\ forall f, r = Some f -> exists prev grant x e cb cgr snd,
    replying k (fr_ep f) w (ksCurThread k) (fr_caller f) prev grant y x e /\
    looks_up k (ksCurThread k) cptr (cap_endpoint_cap cb cgr (fr_canGrant f) snd true (fr_ep f))) (fun _ => False) k.
Proof.
  intros HI HRep Hy Hw. pose proof (fi_ipc _ _ HI) as HK. pose proof (so_base _ (proj1 HK)) as HB. pose proof (b_queues _ HB) as [RQ HRQ].
  destruct (qo_bounds _ _ HRQ _ _ Hy) as (H1 & _). pose proof (fi_cur _ _ HI) as Hrun. set (cur := ksCurThread k) in *.
  assert (forall t i, is_Some (k_tcb k !! t) -> 0 <= i <= tcbBuffer -> is_Some (k_cte k !! TCB_PTR_CTE_PTR t i) /\ TCB_PTR_CTE_PTR t i <> 0) as Hsl by apply HI.
  unfold fastpath_reply_recv_checks. wp_steps. eapply wp_tcb_get; [done | lia |]. destruct (_ || _) eqn:Em; [wp_steps; split; [done | by intros]|].
  apply orb_false_iff in Em as [Hmi Hfl]. apply no_fault in Hfl. wp_steps.
  destruct (Hsl cur tcbCTable) as [[root Hroot] Hr0]; [eauto | done |]. eapply wp_cte_some; [done.. |]. wp_steps.
  destruct (lookup_fp_object Q k root cptr HI Hroot) as (c & El & Hc). unfold wp at 1. rewrite El.
  destruct c as [| |cb cgr cg snd cr ep| | | | | | | | | | | | | | |]; try (wp_steps; split; [done | by intros]).
  destruct cr; [|wp_steps; split; [done | by intros]]. destruct Hc as (e & He & He0). wp_step. eapply bound_check; [done.. | wp_steps; split; [done | by intros] |].
  intros Hbn. cbn iota. wp_steps. eapply wp_ep; [done.. |]. destruct (bool_decide (ep_state e = EPState_Send)) eqn:Er; [wp_steps; split; [done | by intros] |].
  apply bool_decide_eq_false in Er. wp_steps. destruct (Hsl cur tcbCaller) as [[ec Hec] Hec0]; [eauto | done |]. eapply wp_cte_some; [done.. |].
  destruct (cte_cap ec) as [| | | |g m u| | | | | | | | | | | | |] eqn:Ecap; try (wp_steps; split; [done | by intros]).
  destruct (HRep _ _ _ _ _ Hec ltac:(eauto) Ecap) as ((x & Hx & Est) & prev & HL). destruct (qo_bounds _ _ HRQ _ _ Hx) as (Hu1 & Hud & _).
  wp_steps. eapply wp_tcb_get; [done | lia |]. destruct (negb (_ =? 0)) eqn:Efx; [wp_steps; split; [done | by intros] |]. apply no_fault in Efx. wp_steps.
  destruct (Hsl u tcbVTable) as [[vt Hvt] Hv0]; [eauto | done |]. eapply wp_cte_some; [done.. |].
  destruct (isValidVTableRoot_fp (cte_cap vt)) as [[pgd asid]|]; [|wp_steps; split; [done | by intros]].
  wp_step. apply fp_dom_ok; [apply HB |]. wp_step. destruct (isHighestPrio_total k (ksCurDomain k) (tcbPriority x) (b_queues _ HB) (b_dom _ HB)) as [h Eh].
  unfold wp at 1. rewrite Eh. destruct h; cbn [negb]; [|wp_steps; split; [done | by intros]]. wp_step.
  apply fp_domain_ok; [apply HB | done | wp_steps; split; [done | by intros] |]. intros Hdom. wp_steps. split; [done |]. intros f [= <-].
  cbn [fr_ep fr_canGrant fr_caller]. exists prev, g, x, e, cb, cgr, snd. split; [|by exists root; split; [apply HI |]].
  assert (isRunnable_st (tsType y) = true) as Hry by (unfold runnable in Hrun; by rewrite Hy in Hrun).
  destruct (tail_of_queue Q k ep e cur y HK He Er Hy Hry) as [HA Htail].
  destruct (blocked_quiet k u (ithread_of x) (proj1 HK)) as (_ & _ & Hnr & Hqu & _); [simpl; by rewrite lookup_fmap, Hx | simpl; by rewrite Est.. |].
  unfold queued in Hqu. rewrite Hx in Hqu. split; try done.
  - split_and!; try done; [|lia | apply HI]. intros E. pose proof (idle_not_runnable k (b_idle _ HB)). congruence.
  - split_and!; try done. intros ->. congruence.
  - split_and!; try done. by eapply Htail.
  - by split; apply Hsl.
  - apply HI.
Qed.

(** A ReplyRecv through the fast path has the outcome of one through the general
    code. *)
Lemma fastpath_reply_recv_ok fuel Q k y : fp_inv Q k -> replies_ok k -> k_tcb k !! ksCurThread k = Some y ->
  same_outcome (fastpath_reply_recv fuel (default 0 (tcbRegs y !! capRegister)) (default 0 (tcbRegs y !! msgInfoRegister)) k) (handleSyscall fuel SysReplyRecv k).
Proof.
  intros HI HRep Hy. set (cptr := default 0 (tcbRegs y !! capRegister)). set (w := default 0 _).
  pose proof (reply_checks Q k cptr w y HI HRep Hy eq_refl) as HC. unfold wp in HC. unfold fastpath_reply_recv, bind.
  destruct (fastpath_reply_recv_checks cptr w k) as [[[f|] k']|]; [..|done]; destruct HC as [-> HC]; [|apply same_outcome_refl].
  destruct (HC f eq_refl) as (prev & grant & x & e & cb & cgr & snd & HR & HL). destruct f as [ep cg caller pgd asid]. cbn [fr_ep fr_canGrant fr_caller] in *.
  eapply same_outcome_wp; [by apply (fast_reply_recv _ _ _ _ _ _ _ _ _ _ _ pgd asid HR) | by apply (slow_reply_recv fuel _ _ _ _ _ _ _ _ _ _ _ _ _ _ _ HR HL)].
Qed.
End FastReply.

(** ** Every system call *)
Section Trap.
Context `{C : KConfig} `{P : KPlatform}.

End Trap.

(** ** A client, a server and a thread to reply to

    The client at 9216 runs, with an endpoint capability (badge 7) in slot 1 of its
    CNode at 131072, and could reply to 13312; the server at 11264 waits. *)
Definition fp_tcb (st : _thread_state_t) (obj : Z) : tcb_t :=
  mkTcb (<[0 := 1]> (<[1 := 2]> (<[2 := 42]> {[3 := 43]}))) st false obj 0 true false false 0 seL4_Fault_NullFault lookup_fault_invalid_root 0 255 100 5 0 0 0 0 0 0.
Definition fp_threads : list (Z * tcb_t) :=
  [(5120, fp_tcb ThreadState_IdleThreadState 0); (9216, fp_tcb ThreadState_Running 0);
   (11264, fp_tcb ThreadState_BlockedOnReceive 65536); (13312, fp_tcb ThreadState_BlockedOnReply 0)].
Definition fp_slot (c : cap) : cte_t := mkCte c nullMDBNode.
Definition fp_pgd (asid pgd : Z) : cte_t := fp_slot (cap_page_global_directory_cap asid pgd true).
Definition fp_slots : list (Z * cte_t) :=
  [(4096, fp_slot cap_null_cap); (4128, fp_slot cap_null_cap); (4160, fp_slot cap_null_cap); (4192, fp_slot cap_null_cap); (4224, fp_slot cap_null_cap);
   (8192, fp_slot (cap_cnode_cap 1 63 0 131072)); (8224, fp_pgd 1 262144); (8256, mkCte (cap_reply_cap true true 9216) (mkMdb 0 true true 0));
   (8288, mkCte (cap_reply_cap true false 13312) (mkMdb 0 false false 12352)); (8320, fp_slot cap_null_cap);
   (10240, fp_slot cap_null_cap); (10272, fp_pgd 2 266240); (10304, fp_slot cap_null_cap); (10336, fp_slot cap_null_cap); (10368, fp_slot cap_null_cap);
   (12288, fp_slot cap_null_cap); (12320, fp_pgd 3 270336); (12352, mkCte (cap_reply_cap true true 13312) (mkMdb 8288 true true 0));
   (12384, fp_slot cap_null_cap); (12416, fp_slot cap_null_cap);
   (131072, fp_slot cap_null_cap); (131104, fp_slot (cap_endpoint_cap 7 true false true true 65536))].
Definition fp_k : kstate :=
  mkK (list_to_map fp_threads) (list_to_map fp_slots) {[65536 := mkEp EPState_Recv 11264 11264]} ∅ ∅ ∅ ∅ ∅ 9216 5120 0 0 1 0 0 ∅ ∅
    lookup_fault_invalid_root seL4_Fault_NullFault (mkErr 0 0 0 0 0 false seL4_NoError) [0; 0; 0] [].
Definition fp_q : obj -> list Z := oput (fun _ => []) (OEp 65536) [11264].

(** Both fast paths are taken. *)
Lemma fp_call_taken : exists k', @fastpath_call_checks default_config 1 2 fp_k = inl (Some (mkFpCall 65536 7 11264 266240 2), k').
Proof. eexists. vm_compute. reflexivity. Qed.
Lemma fp_reply_taken : exists k', @fastpath_reply_recv_checks default_config 1 2 fp_k = inl (Some (mkFpReply 65536 false 13312 270336 3), k').
Proof. eexists. vm_compute. reflexivity. Qed.

Lemma fp_thread t x : k_tcb fp_k !! t = Some x -> (t, x) ∈ fp_threads.
Proof. apply elem_of_list_to_map_2. Qed.
Ltac fp_thread_cases H := apply fp_thread in H; unfold fp_threads in H;
  repeat (apply list.elem_of_cons in H as [[= -> ->] | H]); [.. | by apply not_elem_of_nil in H].
Lemma fp_slot_in p e : k_cte fp_k !! p = Some e -> (p, e) ∈ fp_slots.
Proof. apply elem_of_list_to_map_2. Qed.
Ltac fp_slot_cases H := apply fp_slot_in in H; unfold fp_slots in H;
  repeat (apply list.elem_of_cons in H as [[= -> ->] | H]); [.. | by apply not_elem_of_nil in H].

Lemma fp_unqueued t : queued fp_k t = false.
Proof. unfold queued. destruct (k_tcb fp_k !! t) as [x|] eqn:E; [|done]. fp_thread_cases E; done. Qed.
Lemma fp_runnable t : runnable fp_k t = true -> t = 9216.
Proof. unfold runnable. destruct (k_tcb fp_k !! t) as [x|] eqn:E; [|done]. fp_thread_cases E; done. Qed.

Lemma fp_sched_ok : @sched_ok default_config fp_k.
Proof.
  split.
  - split; [| | | | done | done].
    + exists (fun _ _ => []). apply empty_queues_ok; [done.. |]. intros t x E. fp_thread_cases E; done.
    + intros t. by rewrite fp_unqueued.
    + by eexists.
    + by eexists.
  - intros t Ht. right. left. by apply fp_runnable.
  - intros _. apply fp_unqueued.
  - done.
  - intros _ _ t. by rewrite fp_unqueued.
  - by left.
  - intros _. by right.
Qed.

Lemma fp_obj o : o = OEp 65536 \/ fp_q o = [] /\ obj_queue (istore_of fp_k) o = mkQ 0 0 /\ obj_waits (istore_of fp_k) o = None.
Proof.
  destruct (decide (o = OEp 65536)); [by left |]. right. split; [unfold fp_q; by rewrite !oput_ne |].
  destruct o as [a|a]; simpl; [rewrite lookup_singleton_ne by congruence | rewrite lookup_empty]; done.
Qed.

Lemma fp_kipc : @kipc default_config (fun _ => False) fp_q fp_k.
Proof.
  split; [exact fp_sched_ok |]. split.
  - intros o. destruct (fp_obj o) as [-> | (-> & -> & _)]; [split; [by vm_compute | done | done |]; apply (bool_decide_unpack _); by vm_compute |].
    split; [done.. | apply base.NoDup_nil_2].
  - intros o. destruct (fp_obj o) as [-> | (-> & _ & ->)]; done.
  - intros o t Ht. split; [tauto |]. destruct (fp_obj o) as [-> | (E & _)]; [| rewrite E in Ht; by apply not_elem_of_nil in Ht].
    change (fp_q _) with [11264] in Ht. apply list.elem_of_cons in Ht as [-> | Ht]; [eexists; split; [vm_compute; reflexivity | done] | by apply not_elem_of_nil in Ht].
  - intros t i o Hi Ho _. destruct (istore_tcb _ _ _ _ eq_refl Hi) as (x & E & <-).
    fp_thread_cases E; try done; injection Ho as <-; apply (bool_decide_unpack _); by vm_compute.
  - intros t [i Hi]. destruct (istore_tcb _ _ _ _ eq_refl Hi) as (x & E & <-). fp_thread_cases E; done.
  - done.
  - split.
    + intros n N HN Hb. simpl in HN. by rewrite lookup_empty in HN.
    + intros t i Hi Hb. destruct (istore_tcb _ _ _ _ eq_refl Hi) as (x & E & <-). fp_thread_cases E; done.
Qed.

Lemma fp_caps_ok : caps_ok (k_cte fp_k).
Proof.
  intros p e He. fp_slot_cases He; try done. change (cap_ok (k_cte fp_k) (cap_cnode_cap 1 63 0 131072)). split; [|done]. split; [vm_compute; intuition congruence |]. split; [lia |]. split; [lia |].
  intros i Hi. change (2 ^ 1) with 2 in Hi. assert (i = 0 \/ i = 1) as [->| ->] by lia; vm_compute; eauto.
Qed.

Lemma fp_k_inv : @fp_inv default_config fp_q fp_k.
Proof.
  split; [exact demo_config_ok | exact fp_kipc | done | done | exact fp_caps_ok | ..].
  - intros p e He. fp_slot_cases He; simpl; try done; vm_compute; eauto.
  - intros t i [x Hx] Hi. assert (i = 0 \/ i = 1 \/ i = 2 \/ i = 3 \/ i = 4) as Hc by (unfold tcbBuffer in Hi; lia).
    fp_thread_cases Hx; (destruct Hc as [-> | [-> | [-> | [-> | ->]]]]); vm_compute; split; (eauto || done).
  - intros t x Hx Hr. fp_thread_cases Hx; try done. exists 0. vm_compute. reflexivity.
  - intros t x Hx Hs. fp_thread_cases Hx; try done. 
  - done.
Qed.

Lemma fp_k_replies : replies_ok fp_k.
Proof.
  intros t e g m u He [x Hx] Hc. assert (k_cte fp_k !! TCB_PTR_CTE_PTR t tcbCaller = Some e) as He' by done. revert He' Hc. fp_thread_cases Hx; vm_compute; intros [= <-]; simpl; try done.
  intros [= <- <- <-]. split; [by eexists |]. exists 0. split; [by eexists _, _ | by vm_compute | done].
Qed.

(** The endpoint capability in slot 1. *)
Lemma lookup_fp_agrees_witness : let root := cap_cnode_cap 1 63 0 131072 in
  exists r k', resolveAddressBits root 1 wordBits fp_k = inl (r, k') /\
    lookup_fp root 1 fp_k = inl (if bool_decide (res_status r = EXCEPTION_NONE)
                                 then from_option cte_cap cap_null_cap (k_cte fp_k !! res_slot r) else cap_null_cap, fp_k).
Proof.
  intros root. apply (lookup_fp_agrees root 1 fp_k); [exact fp_caps_ok |].
  apply (fp_caps_ok 8192 (fp_slot root)). reflexivity.
Defined.

